(* ===== verification/_CoqProject ===== *)
-Q . S2P
Prelude.v
GoStrings.v
Utf8.v
GoRegexp.v
Concurrent.v
ConcurrentOwn.v
DomainErrors.v
SemVer.v
GoTime.v
GoTimeSpec.v
GoEncoding.v
GoJSON.v
GoJSONSpec.v
Jcs.v
GoNet.v
GoURL.v
AnsName.v
Endpoint.v
Lifecycle.v
Discovery.v
DiscoverySpec.v
TlEvent.v
Sha256.v
TlEnvelope.v
TlEnvelopeSpec.v
LifecycleSpec.v
Identity.v
IdentitySpec.v
Finder.v
FinderSpec.v
FinderIndex.v
FinderIndexSpec.v
Outbox.v
OutboxSpec.v
RaEvents.v
RaStore.v
RaService.v
RaServiceInv.v
RaServiceSpec.v
RaServiceProps.v
RaRevocation.v
Feed.v
Poller.v
PollerSpec.v
Merkle.v
P256.v
P1363.v
Jws.v
JwsSpec.v
Jwk.v
RaIdentity.v
RaRateLimit.v
RaIdentityInv.v
RaIdentitySpec.v
RaIdentityProps.v
RaIdentityRuns.v
TlStore.v
TlStoreSpec.v
TlLog.v
TlLogInv.v
TlLogSpec.v
LogNote.v
LogNoteSpec.v
Receipt.v
TlProof.v
TlBadge.v
TlCheckpoint.v
TlBadgeSpec.v
TlProofSpec.v
WorkPool.v
SvcbRows.v
DnsLookup.v
DnsLookupSpec.v
AnsVerify.v
AnsMain.v
AnsWalkSpec.v
AnsMetaSpec.v
AnsMainSpec.v
