(* ===== verification/Prelude.v ===== *)
(** * Verification of the Agent Name Service

    The Agent Name Service (ANS) is a registry for software agents, written in
    Go.  It has three servers.  The registration authority (RA) admits
    registrations, drives their lifecycle and certificates, and writes every
    change to an outbox in its own database.  The transparency log (TL) seals
    those changes in a Merkle tree and hands out receipts.  The Finder polls
    the RA's events feed, projects events into catalog entries and keeps a
    searchable index of them.  The path of one change through the system is

      registration service -> domain aggregate -> outbox row -> delivery
      worker -> log append (signature, policy, leaf, index row) -> log id ->
      events feed -> poller -> projection -> catalog index,

    and the development models that path from end to end, together with what
    the log answers to its readers (badges, receipts, status tokens,
    checkpoints) and with [ans-verify], the command that checks those answers.

    ** Files

    The Go library as the program uses it:
    - [Prelude]: results, sequencing of fallible steps, list and bit lemmas;
    - [GoStrings], [Utf8]: [strings], [strconv], [unicode/utf8] on byte strings;
    - [GoRegexp], [GoNet], [GoURL], [GoTime], [GoEncoding]: [regexp],
      [net.ParseIP], [net/url], [time], [encoding/hex] and [base64]; the
      calendar round trip of RFC 3339 is in [GoTimeSpec];
    - [GoJSON]: the parser, the printer and the struct decoding of
      [encoding/json], with their round trip in [GoJSONSpec];
    - [Concurrent]: the interaction trees in which services run, and their
      interleavings; [ConcurrentOwn] adds handlers that own a fresh name and
      components inside a larger world;
    - [Sha256], [P256]: executable [crypto/sha256] and [ecdsa.Verify].

    The domain, [internal/domain]:
    - [DomainErrors] ([errors.go]), [SemVer] ([semver.go], [versionrange.go]),
      [AnsName] ([ansname.go]), [Endpoint] ([protocol.go], [endpoint.go]);
    - [Lifecycle] ([agent.go], [status.go], [events.go], [order.go],
      [certificate.go], [renewal.go]), theorems in [LifecycleSpec];
    - [Identity] ([identity.go]), theorems in [IdentitySpec];
    - [Discovery] ([dnsrecords.go], [attested_expiry.go], [revocation.go], with
      [adapter/discovery/ans] and [ra/service/dnsrecords.go]), theorems in
      [DiscoverySpec].

    The registration authority:
    - [TlEvent], [RaEvents]: the event payloads of [tl/event] and the builders
      of [ra/service] ([v1event.go] and the lifecycle's envelopes);
    - [RaStore]: the tables of [adapter/store/sqlite] and their statements;
    - [RaService]: [registration.go], [lifecycle.go], [renewal.go],
      [renewal_expiry.go], [agent_expiry.go] and [revocation.go] of
      [ra/service], every method as a program over the tables and the ports;
    - [RaServiceInv] (the database invariant and the rules of the program
      logic), [RaServiceSpec] (each method keeps the invariant), with the
      theorems in [RaServiceProps] and [RaRevocation];
    - [Outbox] ([adapter/store/sqlite/outbox.go], [ra/outbox/worker.go]),
      theorems in [OutboxSpec];
    - [Feed] ([adapter/store/sqlite/feed.go], [ra/service/feed.go]);
    - [RaIdentity]: the identity service ([identity.go], [identitykinds.go],
      [leiverifier.go] and [identityratelimit.go] of [ra/service]) and its
      tables ([adapter/store/sqlite/identity.go]); [RaIdentityInv] has the
      invariant and the rules, [RaIdentitySpec] shows that each method keeps
      it, [RaIdentityProps] has the theorems, [RaIdentityRuns] concrete runs and
      two races; [RaRateLimit] is about the limiters;
    - [DnsLookup]: the verifiers of published DNS records ([adapter/dns]),
      theorems in [DnsLookupSpec], over the words of service rows in [SvcbRows].

    The Finder:
    - [Finder] ([finder/feed], [finder/project], [ard]), theorems in
      [FinderSpec];
    - [FinderIndex] ([adapter/store/sqlitefinder]: [apply.go], [cursor.go],
      [ftsquery.go]), theorems in [FinderIndexSpec];
    - [Poller] ([finder/poller/poller.go]), theorems in [PollerSpec].

    Signatures and canonical JSON, [internal/crypto]:
    - [Jcs] ([jcs.go]), [P1363] ([p1363.go]), [Jws] ([jws.go],
      [proofinput.go]), the round trip of detached signatures in [JwsSpec];
    - [Jwk] ([jwk.go], the key strength of [x509.go]): JWK, multibase and
      [did:key] encodings of keys, with base 58.

    The transparency log:
    - [TlEnvelope]: the envelopes of the three lanes, their builders, views and
      leaf bytes ([tl/event], [tl/event/v1], [tl/event/identity] and
      [codec.go] of [tl/service]), theorems in [TlEnvelopeSpec];
    - [TlStore]: the tables and statements of [adapter/store/sqlitetl] and the
      key registries of [tl/producerkey], theorems in [TlStoreSpec];
    - [TlLog]: the append path, the agent policy, producer signatures, index
      recovery and the fenced reads ([log.go], [ingest.go], [agent_policy.go]
      and [producersig.go] of [tl/service], [tl/logstore/log.go]); the
      invariant of its runs is in [TlLogInv], the theorems in [TlLogSpec];
    - [Merkle] (the proof walk of [tl/receipt/verify.go]), [Receipt]
      ([verify.go], [generator.go], [statustoken.go]);
    - [LogNote]: signed notes ([lognote/lognote.go]) and the two checkpoint
      signers of [tl/logstore], theorems in [LogNoteSpec];
    - [TlProof]: Merkle proofs, receipts and readiness ([merkleproof.go],
      [receipt.go] and [readiness.go] of [tl/service]), theorems in
      [TlProofSpec];
    - [TlBadge]: badges of agents and identities and status tokens
      ([envelope_wrapper.go], [badge.go], [identitybadge.go] and
      [statustoken.go]), theorems in [TlBadgeSpec];
    - [TlCheckpoint]: the checkpoint service ([checkpoint.go]).

    The verifier command, [cmd/ans-verify]:
    - [WorkPool]: the goroutines, the bounded channel and the cancellation its
      fetches run with, as a transition system;
    - [AnsVerify]: the checks of one agent ([main.go], [metadata.go]) and the
      walk over the log's tiles ([walk.go]); [AnsMain]: the badge record
      ([badge.go]) and the entry points [main] and [listMain];
    - [AnsWalkSpec], [AnsMetaSpec] and [AnsMainSpec]: the theorems on the
      listing, on attested metadata and on whole runs.

    ** How code becomes definitions

    A Go function keeps its name ([T_m] for a method [m] of [T] where the bare
    name is taken).  A pair [(v, err)] is a [result]; a method with a pointer
    receiver takes and returns the object; a nil pointer is [None]; a struct is
    a record with the fields the code reads.  A [string] or [[]byte] is a byte
    string.  String-typed enumerations stay strings, so that values outside the
    enumeration, which the switches' default branches serve, exist in the model
    too.  Machine integers are [Z] with range checks or wrap-around written
    where the code can leave the range.  An SQL table is the list of its rows,
    each statement a function on the list with its WHERE, ORDER BY and LIMIT
    written out; a JSON column is the value it decodes to.  Reads of the clock
    and fresh identifiers are arguments.  Concurrency is interleaving: a
    statement of the outbox is one atomic step, and the theorems quantify over
    all sequences of steps of all workers and producers.

    Third-party or generated code is a parameter: the Unicode tables
    ([UnicodeTables], with what is relied on in [UnicodeLaws]), the CBOR codec
    ([CBOR]), the feed's HTTP client ([FeedClient]) and the log client (the
    outcome of each append).  [EcdsaScheme] is the signature check; [P256]
    gives the instance the program runs with.  The number formatting of the
    canonicaliser is [JCS] with [JCSLaws]; signing and verification primitives
    are [SigSchemes] and the keys' parts [StdKeys] with [StdKeysLaws], key
    parsing [PemX509] and [KeyParser], the JOSE library
    [Jose] with [JoseLaws]; SQLite's [json_valid] is [SqliteJSON]; the Tessera
    log is [Tessera], of which [TesseraLaws] says that leaves are appended in
    order and read back as they were.  The trust store of producer keys is the
    interface [KeyStore] with the in-memory and the SQLite store as instances.
    The certificate authorities, the
    challenge checks, the DNS verifier and the signing key of the registration
    service are the [Ports] of [RaService]: their answers are arbitrary.  The DID
    resolver, the vLEI verifier and the log as the identity service sees it are
    its [IdPorts]; of them [ports_ok] says that the clock shows a year with four
    digits and that a resolver quotes a verification method as it is.
    [CaseOrbits] is [unicode.SimpleFold].  The proofs the Tessera reader builds
    are [ProofReader], of which [ProofLaws] says that they are those of the
    reference tree; its tile layout and bundle format, as the verifier uses
    them, are [TileLayout] with [TileLayoutLaws].  The servers [ans-verify]
    talks to are arbitrary: a relation [answers] from URLs to replies for the
    listing, a [World] with its resolver and files for the run of one agent.
    The DNS library of the record check is [DnsLib] and the answers it gives.
    [as_point] reads an ECDSA key as the point that receipts are verified with,
    and [url.JoinPath] is an argument of the badge record.

    A method of the registration service reads the database, talks to ports
    and opens transactions, and other requests run between those actions.  It
    is a program of [Concurrent]: a tree of atomic actions on the shared
    database, a transaction being one action.  [serves] is the reachability
    relation of any number of such programs running at once.

    ** What the theorems show

    - Registrations.  [registration_run_invariant] and [registration_step]: any
      sequence of calls respects the transition order, terminal statuses are
      final, identifying fields never change and each change appends its event;
      [withdrawal_eligibility] says exactly when revoking and cancelling
      succeed; [NewRegistration_sound] what an admitted registration satisfies;
      [order_run_invariant] and [renewal_window_and_finality] the certificate
      machines.
    - Names.  [AnsName_roundtrip], [NewAnsName_host_is_dns],
      [ParseSemVer_print_exact], [SemVer_Compare_total_order],
      [VersionRange_Matches_interval], [AgentEndpoints_Validate_sound],
      [validateMetadataURL_token].
    - Identities.  [identity_run_invariant], [did_web_resolution_host],
      [did_web_resolution_injective].
    - The registration service, under every interleaving of requests and
      every behaviour of the ports.  [host_exclusive]: no two live
      registrations of different owners share a host; [issuance_needs_proof]:
      an order is finalized for a host, and an identity certificate issued for
      a name, only after a successful probe of the host, which for an identity
      certificate is of a challenge of its own registration;
      [live_proved_and_sealed]: an agent that went live has its
      proof and a sealed activation event; [registrations_persist]: what was
      committed stays; [failed_registration]: a failing registration writes
      nothing but what its error says; [revocation_complete] with
      [reject_pending_terminates]: a revocation ends every open order and
      renewal, and no row of another agent changes.  [stale_writes_undo_activation] is the counterexample of two
      racing requests that the full-row update admits.
    - The identity service, together with the registration service, under every
      interleaving.  [identity_control_proved]: nothing is sealed as proved
      without proofs of control; [identity_sealed_first]: the tables never run
      ahead of the log; [identifier_exclusive]: one verified owner per
      identifier; [links_stay_with_owner]; [submitted_events_valid]: what is
      submitted is what the log's validation accepts.  [raced_links_diverge] and
      [failed_rotation_is_sealed] are races after which table and log disagree.
      [rate_limit_per_owner] relates the shared limiter to one per owner;
      [did_key_one_name] gives every key one [did:key] name.
    - Expected DNS records.  [required_records_exact], [attested_records_observed]
      and, down to the answers of the zone, [lookup_attests_zone]: an activation
      attests exactly the expected records the zone carries, and is refused
      exactly when a required one is missing or a validated answer contradicts
      one.  A service row carries what the words of its printed text say; these
      are its own target and parameters when no field has a blank, and
      [blank_in_value_accepted] shows a row where they are not.
    - Delivery.  [outbox_run_invariant], [claim_exclusive] and
      [agent_delivery_order]: claims are exclusive for their lease, delivered
      rows stay delivered, revocations are never parked, and the events of one
      agent are delivered in order, under every interleaving.
    - Feed.  [feed_serves_in_order]: pages are the delivered, retained rows in
      id order.  Two examples show where paging by id loses a late delivery and
      where a repeated log id stops progress.
    - Finder.  [projection_lifecycle], [projected_entries_attested],
      [projection_accounts_endpoints] and [projected_text_clean] on the
      projection; [index_refines] (the tables implement a per-agent machine,
      absent, live or dead), [tombstone_sticks], [index_replay_idempotent] and
      [buildMatchQuery_literal] on the index; [ingest_cursor_behind_index] (the
      cursor never passes the index, under every failure) and [ingest_complete]
      (an undisturbed round over valid items with distinct log ids terminates
      with every remaining row applied) on the poller, the latter against the feed of the RA model.
    - The log.  [index_mirrors_log] and [log_lifecycle]: in every reachable
      state, whatever Tessera, the database and the producers do, the index is
      the image of the leaves and the leaves of an agent form one lifecycle of
      one producer; [log_authentic]: each leaf carries a signature that a
      registered key of its producer verifies; [append_idempotent] and
      [recovery_restores]: retries never seal twice, and an undisturbed
      recovery makes the index whole again.  [repeated_link_stops_log] is the
      one kind of event after which it cannot.  [leaf_roundtrip] (a leaf decodes
      to the event that was built) and [SignDetachedJWS_verifies] (what the
      program signs it accepts) carry them.
    - Receipts.  [inclusion_proof_complete], [inclusion_proof_sound_member] and
      [reference_root_refined_and_index_sound] relate the loop of the verifier
      to the tree of RFC 9162, soundness being up to a SHA-256 collision that
      the theorems compute; [Verify_sound] lifts this to whole receipts;
      [status_token_window] bounds status tokens; [P1363_DER_roundtrip] is the
      signature encoding.  [inclusion_index_not_bound] and
      [Verify_proof_not_signed] state two things a receipt does not prove.

    - What the log answers.  [revoked_agent_terminal], [status_token_bounds],
      [linked_identities_exact] and [identity_badge_exact]: badges, tokens and
      link views say what the leaves say, a revocation is final in all of them,
      and a token never outlives a certificate it lists; [served_proof_verifies]:
      the proof of a badge is accepted by the verifier's walk, for the leaf shown;
      [checkpoint_note_sound] and [checkpoint_note_roundtrip] on signed notes;
      [history_pages_complete]: following the cursors of the checkpoint history
      gives every selected checkpoint once, in the order asked for.
    - The verifier.  [pool_terminates] and [pool_progress]: every run of a worker
      pool ends and none deadlocks; [live_listing_exact]: against an honest server
      the listing is exactly the live agents of the provider, whatever the
      schedule; [verified_listing_signed] and [fqdn_run_sound]: against any server,
      what exit code 0 proves; [metadata_step_exact]: the metadata step fails
      exactly on a document that differs from its attested hash;
      [badge_roundtrip]: the badge record the registration authority publishes
      resolves to its agent and log, unless the name has the badge of another
      registration, which makes it ambiguous.

    ** Fuel

    [strip_even] runs 64 turns, enough for a 64-bit counter; [build] (the
    reference tree) and [blocks_of] are given the length of their input;
    [itoa_aux] and [be_min_aux] more turns than the number has digits, and their
    round trips show so; [v6_loop] one turn per group, more than the sixteen
    bytes of an address can use; [inv_loop] 600 turns, above the steps Euclid's
    algorithm takes on 256-bit numbers.  [drain] is unbounded in the code:
    [ingest_complete] proves that more turns than remaining rows give the final
    result, [ingest_cursor_behind_index] holds for any fuel.  The paging loop
    of [reject_pending] is given fuel too, and [reject_pending_terminates]
    proves that more turns than pending rows suffice.  [parse_json] has twice
    the length of the text and two, which [parse_json_fuel] shows is enough;
    [restoreLoop] one turn per leaf that is missing, and the progress lemma
    behind [recovery_restores] shows that no more is used.  Following the
    checkpoint history takes one turn per checkpoint, as [history_pages_complete]
    shows.  The worker pools have no fuel: [pool_terminates] is well-foundedness
    of their steps.

    ** What is not modelled

    - The HTTP handlers of the three servers, their middleware, the configuration
      and the server commands: decoding of requests into the calls that are
      modelled, response shapes and process wiring, without state of their own.
    - Adapters that talk to ACME, identity resolvers, key stores or the log over
      the network: their answers are arbitrary in the model.
    - The Finder's search and explore: SQL assembled for the full-text extension
      of SQLite, whose tokenizer and ranking decide the answer; and the catalog
      documents, a JSON shape.
    - Of the log: opening and closing the Tessera store and the writer lock, the
      embedded schema files, the tree height of a checkpoint view (a
      floating-point logarithm).
    - Of [ans-verify]: flag parsing, the printed report and the comparison with
      the served badge, which only prints.
    - Log lines and message texts; failures of the RA's database itself (the
      poller's and the log's database may fail). *)
From stdpp Require Export base tactics sets list strings.
From Stdlib Require Export ZArith Lia Bool Ascii.

#[local] Set Default Goal Selector "!".
#[local] Open Scope Z_scope.

Declare Scope ans_scope.
Delimit Scope ans_scope with ans.

(** ** Results: Go's [(value, error)] pairs *)

(** A call that returns [(v, nil)] is [Ok v]; one that returns [(_, err)] is
    [Err err].  The value accompanying a non-nil error is never read by the
    modelled callers. *)
Inductive result (E A : Type) : Type :=
| Ok (a : A)
| Err (e : E).
Arguments Ok {E A} a.
Arguments Err {E A} e.

#[export] Instance result_ret E : MRet (result E) := fun A a => Ok a.

#[export] Instance result_bind E : MBind (result E) := fun A B f r =>
  match r with Ok a => f a | Err e => Err e end.

#[export] Instance result_fmap E : FMap (result E) := fun A B f r =>
  match r with Ok a => Ok (f a) | Err e => Err e end.

#[export] Instance result_eq_dec {E A} `{EqDecision E, EqDecision A} : EqDecision (result E A).
Proof. solve_decision. Defined.

Definition is_ok {E A} (r : result E A) : bool :=
  match r with Ok _ => true | Err _ => false end.

Lemma bind_Ok {E A B} (r : result E A) (f : A -> result E B) b :
  (r ≫= f) = Ok b <-> exists a, r = Ok a /\ f a = Ok b.
Proof. destruct r; split; naive_solver. Qed.

Lemma bind_Err {E A B} (r : result E A) (f : A -> result E B) e :
  (r ≫= f) = Err e <-> r = Err e \/ exists a, r = Ok a /\ f a = Err e.
Proof. destruct r; split; naive_solver. Qed.

(** [guard_err b e] is the Go early return [if !b { return e }]. *)
Definition guard_err {E} (b : bool) (e : E) : result E unit :=
  if b then Ok tt else Err e.

Lemma guard_err_Ok {E} b (e : E) u : guard_err b e = Ok u <-> b = true.
Proof. destruct b, u; split; naive_solver. Qed.

(** ** Booleans *)

(** [b2p] turns boolean hypotheses and goals built from the comparisons of the
    code into propositions. *)
Ltac b2p :=
  repeat match goal with
  | H : _ && _ = true |- _ => apply andb_true_iff in H as [? ?]
  | H : _ || _ = false |- _ => apply orb_false_iff in H as [? ?]
  | H : negb _ = true |- _ => apply negb_true_iff in H
  | H : negb _ = false |- _ => apply negb_false_iff in H
  | H : (_ =? _)%Z = true |- _ => apply Z.eqb_eq in H
  | H : (_ =? _)%Z = false |- _ => apply Z.eqb_neq in H
  | H : (_ <? _)%Z = true |- _ => apply Z.ltb_lt in H
  | H : (_ <? _)%Z = false |- _ => apply Z.ltb_ge in H
  | H : (_ <=? _)%Z = true |- _ => apply Z.leb_le in H
  | H : (_ <=? _)%Z = false |- _ => apply Z.leb_gt in H
  | H : String.eqb _ _ = true |- _ => apply String.eqb_eq in H
  | H : String.eqb _ _ = false |- _ => apply String.eqb_neq in H
  | H : bool_decide _ = true |- _ => apply bool_decide_eq_true in H
  | H : bool_decide _ = false |- _ => apply bool_decide_eq_false in H
  end.

(** Case analysis on the innermost [if]/[match] scrutinee of the goal. *)
Ltac case_if :=
  match goal with
  | |- context [if ?b then _ else _] => destruct b eqn:?
  end.

Ltac case_if_in H :=
  match type of H with
  | context [if ?b then _ else _] => destruct b eqn:?
  end.

Create HintDb ans.

(** [lia] on goals with division and remainder. *)
Ltac zlia := Z.to_euclidean_division_equations; lia.

(** ** Integers at machine width *)

Definition MaxInt64 : Z := 9223372036854775807.
Definition MinInt64 : Z := -9223372036854775808.

Definition uint64_wrap (z : Z) : Z := z mod 2 ^ 64.
Definition int64_wrap (z : Z) : Z := (z + 2 ^ 63) mod 2 ^ 64 - 2 ^ 63.

Lemma uint64_wrap_small z : 0 <= z < 2 ^ 64 -> uint64_wrap z = z.
Proof. intros. unfold uint64_wrap. by apply Z.mod_small. Qed.

Lemma int64_wrap_small z : - 2 ^ 63 <= z < 2 ^ 63 -> int64_wrap z = z.
Proof. intros. unfold int64_wrap. rewrite Z.mod_small; lia. Qed.

(** ** Lists *)

Lemma existsb_eqb_elem (x : string) (l : list string) :
  existsb (String.eqb x) l = true <-> x ∈ l.
Proof.
  rewrite existsb_exists, list_elem_of_In. split.
  - intros (y & ? & ->%String.eqb_eq). done.
  - intros ?. exists x. by rewrite String.eqb_refl.
Qed.

Lemma filter_all {A} (P : A -> Prop) `{forall x, Decision (P x)} (l : list A) : (forall x, x ∈ l -> P x) -> filter P l = l.
Proof.
  induction l as [|x l IH]; intros HP; [done|]. rewrite filter_cons_True by (apply HP; set_solver).
  f_equal. apply IH. set_solver.
Qed.

Lemma filter_none {A} (P : A -> Prop) `{forall x, Decision (P x)} (l : list A) : (forall x, x ∈ l -> ~ P x) -> filter P l = [].
Proof.
  induction l as [|x l IH]; intros HP; [done|]. rewrite filter_cons_False by (apply HP; set_solver).
  apply IH. set_solver.
Qed.

Lemma filter_ext_elem {A} (P Q : A -> Prop) `{forall x, Decision (P x)} `{forall x, Decision (Q x)} (l : list A) :
  (forall x, x ∈ l -> P x <-> Q x) -> filter P l = filter Q l.
Proof.
  induction l as [|x l IH]; intros HP; [done|]. rewrite !filter_cons, IH by set_solver.
  assert (P x <-> Q x) by (apply HP; set_solver). repeat case_decide; tauto.
Qed.

Lemma filter_fmap {A B} (f : A -> B) (P : B -> Prop) `{forall x, Decision (P x)} (l : list A) :
  filter P (f <$> l) = f <$> filter (fun x => P (f x)) l.
Proof.
  induction l as [|x l IH]; [done|]. cbn [fmap list_fmap]. rewrite !filter_cons.
  case_decide; cbn [fmap list_fmap]; by rewrite <- IH.
Qed.

(** First element satisfying a test, as a Go [for]/[return] loop finds it. *)
Fixpoint find_first {A} (f : A -> bool) (l : list A) : option A :=
  match l with
  | [] => None
  | x :: l' => if f x then Some x else find_first f l'
  end.

Lemma find_first_Some {A} (f : A -> bool) l x :
  find_first f l = Some x -> x ∈ l /\ f x = true.
Proof.
  induction l as [|y l IH]; simpl; [done|].
  destruct (f y) eqn:E; [intros [= <-]; by set_solver|].
  intros [? ?]%IH. set_solver.
Qed.

Lemma find_first_None {A} (f : A -> bool) l :
  find_first f l = None <-> Forall (fun x => f x = false) l.
Proof.
  induction l as [|y l IH]; simpl; [split; naive_solver|].
  rewrite Forall_cons, <- IH. destruct (f y); split; naive_solver.
Qed.

(** Monadic fold in source order: a Go loop body that may return an error. *)
Fixpoint fold_res {E A S} (f : S -> A -> result E S) (s : S) (l : list A) : result E S :=
  match l with
  | [] => Ok s
  | x :: l' => s' ← f s x; fold_res f s' l'
  end.

Lemma fold_res_app {E A S} (f : S -> A -> result E S) l1 l2 s :
  fold_res f s (l1 ++ l2) = (s' ← fold_res f s l1; fold_res f s' l2).
Proof.
  revert s. induction l1 as [|x l1 IH]; intros s; simpl; [done|].
  destruct (f s x) as [s'|e]; simpl; [apply IH|done].
Qed.

Lemma fold_res_inv {E A S} (P : S -> Prop) (f : S -> A -> result E S) l s s' :
  (forall s x s', P s -> f s x = Ok s' -> P s') ->
  P s -> fold_res f s l = Ok s' -> P s'.
Proof.
  intros Hf. revert s. induction l as [|x l IH]; intros s Hs; simpl; [by intros [= <-]|].
  rewrite bind_Ok. intros (s1 & H1 & H2). eauto.
Qed.

(** A key without duplicates identifies its element. *)
Lemma NoDup_key {A B} (f : A -> B) (l : list A) x y : NoDup (f <$> l) -> x ∈ l -> y ∈ l -> f x = f y -> x = y.
Proof.
  induction l as [|z l IH]; [set_solver|]. cbn. intros [Hn Hd]%NoDup_cons Hx Hy E.
  apply elem_of_cons in Hx as [->|Hx], Hy as [->|Hy]; [done| | |by apply IH]; exfalso; apply Hn.
  - rewrite E. by apply list_elem_of_fmap_2.
  - rewrite <- E. by apply list_elem_of_fmap_2.
Qed.
