(* ===== verification/GoStrings.v ===== *)
(** * Go strings

    Go strings are byte sequences; [string] (a list of 8-bit [ascii]) is used
    for them throughout.  This file models what the program uses of the packages
    [strings], [strconv], [unicode] and [unicode/utf8], and proves the facts the
    components share: how these functions act on ASCII text, and the round
    trips [Split]/[Join] and [Itoa]/[Atoi].

    The case mappings and the format-character category for runes above U+007F
    are Unicode data tables ([unicode/tables.go], a generated file); they are
    fields of the class [UnicodeTables], and what the program relies on of them
    is the class [UnicodeLaws]. *)
From S2P Require Import Prelude.
From stdpp Require Import sets list strings.
#[local] Set Default Goal Selector "!".
#[local] Open Scope Z_scope.

(** ** Bytes *)

Definition byteZ (c : ascii) : Z := Z.of_N (Ascii.N_of_ascii c).
Definition chr (z : Z) : ascii := Ascii.ascii_of_N (Z.to_N z).

(** Inclusive range test. *)
Definition inR (lo z hi : Z) : bool := (lo <=? z) && (z <=? hi).

Definition is_ascii_byte (c : ascii) : bool := byteZ c <? 128.
Definition is_digit (c : ascii) : bool := inR 48 (byteZ c) 57.
Definition is_upper (c : ascii) : bool := inR 65 (byteZ c) 90.
Definition is_lower (c : ascii) : bool := inR 97 (byteZ c) 122.
Definition is_alnum (c : ascii) : bool := is_digit c || is_upper c || is_lower c.

Fixpoint str_forall (f : ascii -> bool) (s : string) : bool :=
  match s with
  | EmptyString => true
  | String c s' => f c && str_forall f s'
  end.

Definition is_ascii_str : string -> bool := str_forall is_ascii_byte.

(** Slices [s[n:]] and [s[:n]]. *)
Fixpoint str_drop (n : nat) (s : string) : string :=
  match n, s with
  | O, _ => s
  | S n', EmptyString => EmptyString
  | S n', String _ s' => str_drop n' s'
  end.

Fixpoint str_take (n : nat) (s : string) : string :=
  match n, s with
  | O, _ => EmptyString
  | S n', EmptyString => EmptyString
  | S n', String c s' => String c (str_take n' s')
  end.

(** ** Package [strings] *)

Definition HasPrefix (s prefix : string) : bool := String.prefix prefix s.

Definition TrimPrefix (s prefix : string) : string :=
  if HasPrefix s prefix then str_drop (String.length prefix) s else s.

(** [strings.Contains] and [strings.IndexByte] with a one-byte needle. *)
Definition ContainsByte (s : string) (c : ascii) : bool :=
  negb (str_forall (fun d => negb (Ascii.eqb c d)) s).

Fixpoint IndexByte (s : string) (c : ascii) : option nat :=
  match s with
  | EmptyString => None
  | String d s' => if Ascii.eqb c d then Some O else S <$> IndexByte s' c
  end.

(** [strings.Split(s, sep)] for a one-byte separator: always at least one part. *)
Fixpoint Split (s : string) (sep : ascii) : list string :=
  match s with
  | EmptyString => [""]
  | String c s' =>
      if Ascii.eqb c sep then "" :: Split s' sep
      else match Split s' sep with
           | w :: ws => String c w :: ws
           | [] => [String c ""]
           end
  end.

Fixpoint Join (l : list string) (sep : string) : string :=
  match l with
  | [] => ""
  | [w] => w
  | w :: ws => w +:+ sep +:+ Join ws sep
  end.

(** [strings.ReplaceAll(s, old, new)] for a one-byte [old]. *)
Fixpoint ReplaceAll (s : string) (old : ascii) (new : string) : string :=
  match s with
  | EmptyString => ""
  | String c s' => (if Ascii.eqb c old then new else String c "") +:+ ReplaceAll s' old new
  end.

(** [strings.TrimSuffix] and [strings.TrimRight] with a one-byte cutset. *)
Fixpoint TrimRightByte (s : string) (c : ascii) : string :=
  match s with
  | EmptyString => ""
  | String d s' =>
      match TrimRightByte s' c with
      | EmptyString => if Ascii.eqb c d then "" else String d ""
      | t => String d t
      end
  end.

Fixpoint TrimSuffixByte (s : string) (c : ascii) : string :=
  match s with
  | EmptyString => ""
  | String d EmptyString => if Ascii.eqb c d then "" else s
  | String d s' => String d (TrimSuffixByte s' c)
  end.

(** ** UTF-8 *)

Definition RuneError : Z := 0xFFFD.

Definition cont_byte (lo hi : Z) (c : ascii) : bool := inR lo (byteZ c) hi.

(** [utf8.DecodeRuneInString]: the first rune of a non-empty string and its
    width; an invalid sequence decodes to [RuneError] of width one. *)
Definition DecodeRune (s : string) : Z * nat :=
  match s with
  | EmptyString => (RuneError, O)
  | String b0 s1 =>
      let x0 := byteZ b0 in
      if x0 <? 0x80 then (x0, 1%nat)
      else if inR 0xC2 x0 0xDF then
        match s1 with
        | String b1 _ =>
            if cont_byte 0x80 0xBF b1
            then (Z.lor (Z.shiftl (Z.land x0 0x1F) 6) (Z.land (byteZ b1) 0x3F), 2%nat)
            else (RuneError, 1%nat)
        | _ => (RuneError, 1%nat)
        end
      else if inR 0xE0 x0 0xEF then
        let lo := if x0 =? 0xE0 then 0xA0 else 0x80 in
        let hi := if x0 =? 0xED then 0x9F else 0xBF in
        match s1 with
        | String b1 (String b2 _) =>
            if cont_byte lo hi b1 && cont_byte 0x80 0xBF b2
            then (Z.lor (Z.shiftl (Z.land x0 0x0F) 12)
                    (Z.lor (Z.shiftl (Z.land (byteZ b1) 0x3F) 6) (Z.land (byteZ b2) 0x3F)), 3%nat)
            else (RuneError, 1%nat)
        | _ => (RuneError, 1%nat)
        end
      else if inR 0xF0 x0 0xF4 then
        let lo := if x0 =? 0xF0 then 0x90 else 0x80 in
        let hi := if x0 =? 0xF4 then 0x8F else 0xBF in
        match s1 with
        | String b1 (String b2 (String b3 _)) =>
            if cont_byte lo hi b1 && cont_byte 0x80 0xBF b2 && cont_byte 0x80 0xBF b3
            then (Z.lor (Z.shiftl (Z.land x0 0x07) 18)
                    (Z.lor (Z.shiftl (Z.land (byteZ b1) 0x3F) 12)
                       (Z.lor (Z.shiftl (Z.land (byteZ b2) 0x3F) 6) (Z.land (byteZ b3) 0x3F))), 4%nat)
            else (RuneError, 1%nat)
        | _ => (RuneError, 1%nat)
        end
      else (RuneError, 1%nat)
  end.

(** [for i, r := range s]: the runes of [s] with their byte offset and width.
    [skip] counts the continuation bytes of the rune just decoded. *)
Fixpoint range_from (off skip : nat) (s : string) : list (nat * nat * Z) :=
  match s with
  | EmptyString => []
  | String _ s' =>
      match skip with
      | S k => range_from (S off) k s'
      | O => let '(r, w) := DecodeRune s in
             (off, w, r) :: range_from (S off) (pred w) s'
      end
  end.

Definition range_str (s : string) : list (nat * nat * Z) := range_from 0 0 s.
Definition runes (s : string) : list Z := snd <$> range_str s.

(** [utf8.AppendRune]: surrogates and out-of-range values are written as
    [RuneError]. *)
Definition EncodeRune (r0 : Z) : string :=
  let r := if inR 0xD800 r0 0xDFFF || negb (inR 0 r0 0x10FFFF) then RuneError else r0 in
  if r <? 0x80 then String (chr r) ""
  else if r <? 0x800 then
    String (chr (Z.lor 0xC0 (Z.shiftr r 6)))
      (String (chr (Z.lor 0x80 (Z.land r 0x3F))) "")
  else if r <? 0x10000 then
    String (chr (Z.lor 0xE0 (Z.shiftr r 12)))
      (String (chr (Z.lor 0x80 (Z.land (Z.shiftr r 6) 0x3F)))
        (String (chr (Z.lor 0x80 (Z.land r 0x3F))) ""))
  else
    String (chr (Z.lor 0xF0 (Z.shiftr r 18)))
      (String (chr (Z.lor 0x80 (Z.land (Z.shiftr r 12) 0x3F)))
        (String (chr (Z.lor 0x80 (Z.land (Z.shiftr r 6) 0x3F)))
          (String (chr (Z.lor 0x80 (Z.land r 0x3F))) ""))).

Fixpoint encode_runes (rs : list Z) : string :=
  match rs with
  | [] => ""
  | r :: rs' => EncodeRune r +:+ encode_runes rs'
  end.

(** ** Unicode data *)

Class UnicodeTables := {
  uni_lower : Z -> Z;      (* unicode.ToLower above U+007F *)
  uni_upper : Z -> Z;      (* unicode.ToUpper above U+007F *)
  uni_Cf : Z -> bool;      (* unicode.Is(unicode.Cf, _) *)
}.

(** What the program relies on: the only runes above U+007F whose case mapping
    is ASCII are U+0130 and U+212A (lower) and U+0131 and U+017F (upper), and no
    ASCII character is a format character. *)
Class UnicodeLaws (U : UnicodeTables) : Prop := {
  uni_lower_0130 : uni_lower 0x130 = 0x69;
  uni_lower_212A : uni_lower 0x212A = 0x6B;
  uni_lower_other : forall r, 0x80 <= r -> r <> 0x130 -> r <> 0x212A -> 0x80 <= uni_lower r;
  uni_upper_0131 : uni_upper 0x131 = 0x49;
  uni_upper_017F : uni_upper 0x17F = 0x53;
  uni_upper_other : forall r, 0x80 <= r -> r <> 0x131 -> r <> 0x17F -> 0x80 <= uni_upper r;
  uni_Cf_ascii : forall r, r < 0x80 -> uni_Cf r = false;
}.

(** A concrete instance for evaluation: the Latin-1 case mappings, the four
    exceptional runes and the bidi and zero-width format characters. *)
Definition latin_tables : UnicodeTables := {|
  uni_lower r :=
    if r =? 0x130 then 0x69 else if r =? 0x212A then 0x6B
    else if inR 0xC0 r 0xDE && negb (r =? 0xD7) then r + 32 else r;
  uni_upper r :=
    if r =? 0x131 then 0x49 else if r =? 0x17F then 0x53
    else if inR 0xE0 r 0xFE && negb (r =? 0xF7) then r - 32 else r;
  uni_Cf r := (r =? 0xAD) || (r =? 0x61C) || inR 0x200B r 0x200F || inR 0x202A r 0x202E
              || inR 0x2060 r 0x2064 || inR 0x2066 r 0x206F || (r =? 0xFEFF)
              || inR 0xE0001 r 0xE007F;
|}.

#[export] Instance latin_laws : UnicodeLaws latin_tables.
Proof.
  split; simpl; try done; intros r; unfold inR; intros.
  - repeat case_match; b2p; lia.
  - repeat case_match; b2p; lia.
  - rewrite !orb_false_iff, !andb_false_iff, !Z.eqb_neq, !Z.leb_gt. lia.
Qed.

Section Unicode.
Context {U : UnicodeTables}.

(** [unicode.ToLower], [unicode.ToUpper]. *)
Definition rune_lower (r : Z) : Z :=
  if r <=? 0x7F then (if inR 65 r 90 then r + 32 else r) else uni_lower r.
Definition rune_upper (r : Z) : Z :=
  if r <=? 0x7F then (if inR 97 r 122 then r - 32 else r) else uni_upper r.

(** [strings.ToLower], [strings.ToUpper]: [strings.Map] of the rune mapping;
    invalid UTF-8 becomes [RuneError].  (The ASCII fast path agrees with this:
    see [ToLower_ascii].) *)
Definition ToLower (s : string) : string := encode_runes (rune_lower <$> runes s).
Definition ToUpper (s : string) : string := encode_runes (rune_upper <$> runes s).

End Unicode.

(** [unicode.IsSpace]: the Latin-1 cases and the [White_Space] property. *)
Definition IsSpace (r : Z) : bool :=
  inR 9 r 13 || (r =? 0x20) || (r =? 0x85) || (r =? 0xA0) || (r =? 0x1680)
  || inR 0x2000 r 0x200A || (r =? 0x2028) || (r =? 0x2029) || (r =? 0x202F)
  || (r =? 0x205F) || (r =? 0x3000).

(** [strings.TrimLeftFunc(s, unicode.IsSpace)] *)
Fixpoint trim_left_from (skip : nat) (s : string) : string :=
  match s with
  | EmptyString => ""
  | String _ s' =>
      match skip with
      | S k => trim_left_from k s'
      | O => let '(r, w) := DecodeRune s in
             if IsSpace r then trim_left_from (pred w) s' else s
      end
  end.

(** [strings.TrimRightFunc(s, unicode.IsSpace)]: keep everything up to the end
    of the last rune that is not a space. *)
Definition trim_right_len (s : string) : nat :=
  fold_left (fun acc '(off, w, r) => if IsSpace r then acc else (off + w)%nat) (range_str s) 0%nat.
Definition trim_right (s : string) : string := str_take (trim_right_len s) s.

(** [strings.TrimSpace] *)
Definition TrimSpace (s : string) : string := trim_right (trim_left_from 0 s).

(** [strings.TrimSpace(s) == ""] *)
Definition is_blank (s : string) : bool := String.eqb (TrimSpace s) "".

(** [strings.Fields]: the maximal runs of non-space runes. [cur] accumulates the
    current field, [copy] the remaining bytes of a rune already classified. *)
Fixpoint fields_from (skip : nat) (insp : bool) (cur : string) (s : string) : list string :=
  let flush := if String.eqb cur "" then [] else [cur] in
  match s with
  | EmptyString => flush
  | String c s' =>
      match skip with
      | S k => fields_from k insp (if insp then cur else cur +:+ String c "") s'
      | O => let '(r, w) := DecodeRune s in
             if IsSpace r then flush ++ fields_from (pred w) true "" s'
             else fields_from (pred w) false (cur +:+ String c "") s'
      end
  end.
Definition Fields (s : string) : list string := fields_from 0 false "" s.

(** ** Package [strconv] *)

Definition digit_val (c : ascii) : Z := byteZ c - 48.
Definition digit_chr (d : Z) : ascii := chr (48 + d).

Fixpoint itoa_aux (fuel : nat) (n : Z) (acc : string) : string :=
  let acc' := String (digit_chr (n mod 10)) acc in
  match fuel with
  | O => acc'
  | S f => if n / 10 =? 0 then acc' else itoa_aux f (n / 10) acc'
  end.

(** [strconv.Itoa], [fmt]'s [%d]. The fuel, the bit length, bounds the number of
    decimal digits. *)
Definition Itoa (n : Z) : string :=
  if n <? 0 then String "-" (itoa_aux (Z.to_nat (Z.log2 (- n))) (- n) "")
  else itoa_aux (Z.to_nat (Z.log2 n)) n "".

Fixpoint digits_val (acc : Z) (s : string) : option Z :=
  match s with
  | EmptyString => Some acc
  | String c s' => if is_digit c then digits_val (acc * 10 + digit_val c) s' else None
  end.

Inductive numError := ErrSyntax | ErrRange.

(** [strconv.Atoi]: the value and the error. A range error carries the clamped
    value, which is what a caller that drops the error gets. *)
Definition Atoi (s : string) : Z * option numError :=
  let '(neg, ds) := match s with
                    | String "-" s' => (true, s')
                    | String "+" s' => (false, s')
                    | _ => (false, s)
                    end in
  if String.eqb ds "" then (0, Some ErrSyntax)
  else match digits_val 0 ds with
       | None => (0, Some ErrSyntax)
       | Some v =>
           if neg then (if v <=? - MinInt64 then (- v, None) else (MinInt64, Some ErrRange))
           else (if v <=? MaxInt64 then (v, None) else (MaxInt64, Some ErrRange))
       end.

(** ** Facts: bytes and append *)

Lemma byteZ_range c : 0 <= byteZ c < 256.
Proof. unfold byteZ. pose proof (Ascii.N_ascii_bounded c). lia. Qed.

Lemma chr_byteZ c : chr (byteZ c) = c.
Proof. unfold chr, byteZ. rewrite N2Z.id. apply Ascii.ascii_N_embedding. Qed.

Lemma byteZ_chr z : 0 <= z < 256 -> byteZ (chr z) = z.
Proof.
  intros. unfold chr, byteZ. rewrite Ascii.N_ascii_embedding by lia. lia.
Qed.

Lemma byteZ_inj c d : byteZ c = byteZ d -> c = d.
Proof. intros H. by rewrite <- (chr_byteZ c), H, chr_byteZ. Qed.

(** Decide a universally quantified boolean fact about bytes by evaluation. *)
Ltac all_bytes := let c := fresh "c" in intros c; destruct c as [[] [] [] [] [] [] [] []]; vm_compute; try done.

Lemma app_nil_l_s s : "" +:+ s = s.
Proof. done. Qed.

Lemma app_cons_s c s t : String c s +:+ t = String c (s +:+ t).
Proof. done. Qed.

Lemma app_nil_r_s s : s +:+ "" = s.
Proof. induction s as [|c s IH]; [done|]. by rewrite app_cons_s, IH. Qed.

Lemma app_assoc_s s t u : (s +:+ t) +:+ u = s +:+ (t +:+ u).
Proof. induction s as [|c s IH]; [done|]. by rewrite !app_cons_s, IH. Qed.

Lemma length_app_s s t : String.length (s +:+ t) = (String.length s + String.length t)%nat.
Proof. induction s as [|c s IH]; [done|]. rewrite app_cons_s. simpl. by rewrite IH. Qed.

Lemma app_eq_nil_s s t : s +:+ t = "" -> s = "" /\ t = "".
Proof. by destruct s. Qed.

Lemma str_forall_app f s t : str_forall f (s +:+ t) = str_forall f s && str_forall f t.
Proof.
  induction s as [|c s IH]; [done|]. rewrite app_cons_s. simpl. by rewrite IH, andb_assoc.
Qed.

Lemma str_forall_impl (f g : ascii -> bool) s :
  (forall c, f c = true -> g c = true) -> str_forall f s = true -> str_forall g s = true.
Proof.
  intros H. induction s as [|c s IH]; simpl; [done|]. rewrite !andb_true_iff. naive_solver.
Qed.

Lemma str_drop_app s t : str_drop (String.length s) (s +:+ t) = t.
Proof. induction s as [|c s IH]; [done|]. by rewrite app_cons_s. Qed.

Lemma str_take_app s t : str_take (String.length s) (s +:+ t) = s.
Proof. induction s as [|c s IH]; [by destruct t|]. rewrite app_cons_s. simpl. by rewrite IH. Qed.

Lemma str_take_all s : str_take (String.length s) s = s.
Proof. induction s as [|c s IH]; [done|]. simpl. by rewrite IH. Qed.

Lemma str_take_drop n s : str_take n s +:+ str_drop n s = s.
Proof.
  revert s. induction n as [|n IH]; intros [|c s]; try done. simpl. by rewrite app_cons_s, IH.
Qed.

Lemma HasPrefix_app p s : HasPrefix (p +:+ s) p = true.
Proof.
  unfold HasPrefix. induction p as [|c p IH]; [by destruct s|]. rewrite app_cons_s. simpl.
  by destruct (ascii_dec c c).
Qed.

Lemma HasPrefix_split s p :
  HasPrefix s p = true -> s = p +:+ str_drop (String.length p) s.
Proof.
  unfold HasPrefix. revert s. induction p as [|c p IH]; intros s; [done|].
  destruct s as [|d s]; simpl; [done|].
  destruct (ascii_dec c d) as [->|]; [|done]. intros H. rewrite app_cons_s. f_equal. by apply IH.
Qed.

Lemma TrimPrefix_app p s : TrimPrefix (p +:+ s) p = s.
Proof. unfold TrimPrefix. by rewrite HasPrefix_app, str_drop_app. Qed.

(** ** Facts: ASCII text *)

(** The byte-wise case mapping the ASCII fast paths of [strings.ToLower] apply. *)
Definition lower_byte (c : ascii) : ascii := if is_upper c then chr (byteZ c + 32) else c.

Fixpoint str_map (f : ascii -> ascii) (s : string) : string :=
  match s with
  | EmptyString => ""
  | String c s' => String (f c) (str_map f s')
  end.

Lemma DecodeRune_ascii c s : is_ascii_byte c = true -> DecodeRune (String c s) = (byteZ c, 1%nat).
Proof. unfold is_ascii_byte. intros H. simpl. by rewrite H. Qed.

Lemma is_ascii_cons c s :
  is_ascii_str (String c s) = true <-> is_ascii_byte c = true /\ is_ascii_str s = true.
Proof. unfold is_ascii_str. simpl. by rewrite andb_true_iff. Qed.

Fixpoint ascii_range (off : nat) (s : string) : list (nat * nat * Z) :=
  match s with
  | EmptyString => []
  | String c s' => (off, 1%nat, byteZ c) :: ascii_range (S off) s'
  end.

Lemma ascii_app s t : is_ascii_str s = true -> is_ascii_str t = true -> is_ascii_str (s +:+ t) = true.
Proof. unfold is_ascii_str. intros H1 H2. by rewrite str_forall_app, H1, H2. Qed.

Lemma range_from_ascii off s :
  is_ascii_str s = true -> range_from off 0 s = ascii_range off s.
Proof.
  revert off. induction s as [|c s IH]; intros off; [done|].
  intros [Hc Hs]%is_ascii_cons. cbn [range_from]. rewrite DecodeRune_ascii by done.
  cbn [ascii_range pred]. by rewrite IH.
Qed.

Fixpoint bytes_of (s : string) : list Z :=
  match s with EmptyString => [] | String c s' => byteZ c :: bytes_of s' end.

Lemma runes_ascii s : is_ascii_str s = true -> runes s = bytes_of s.
Proof.
  intros H. unfold runes, range_str. rewrite range_from_ascii by done. clear H.
  generalize 0%nat. induction s as [|c s IH]; intros off; [done|]. cbn. f_equal. apply IH.
Qed.

Lemma EncodeRune_ascii c : is_ascii_byte c = true -> EncodeRune (byteZ c) = String c "".
Proof. revert c. all_bytes. Qed.

Lemma rune_lower_ascii `{U : UnicodeTables} c :
  is_ascii_byte c = true -> rune_lower (byteZ c) = byteZ (lower_byte c).
Proof.
  unfold is_ascii_byte, rune_lower, lower_byte, is_upper. intros H. b2p.
  destruct (byteZ c <=? 127) eqn:E; b2p; [|lia].
  destruct (inR 65 (byteZ c) 90) eqn:E'; [|done].
  rewrite byteZ_chr; [done|]. unfold inR in E'. b2p. lia.
Qed.

Lemma lower_byte_ascii c : is_ascii_byte c = true -> is_ascii_byte (lower_byte c) = true.
Proof. revert c. all_bytes. Qed.

Lemma ToLower_ascii `{U : UnicodeTables} s :
  is_ascii_str s = true -> ToLower s = str_map lower_byte s.
Proof.
  intros H. unfold ToLower. rewrite runes_ascii by done.
  induction s as [|c s IH]; [done|]. apply is_ascii_cons in H as [Hc Hs].
  cbn [bytes_of fmap list_fmap encode_runes str_map]. rewrite IH by done.
  rewrite rune_lower_ascii by done. rewrite EncodeRune_ascii by (by apply lower_byte_ascii).
  done.
Qed.

Lemma str_map_id f s : str_forall (fun c => Ascii.eqb (f c) c) s = true -> str_map f s = s.
Proof.
  induction s as [|c s IH]; simpl; [done|]. intros [->%Ascii.eqb_eq H]%andb_true_iff.
  by rewrite IH.
Qed.

(** A byte that [ToLower] leaves alone and that is ASCII. *)
Definition is_lower_stable (c : ascii) : bool := is_ascii_byte c && negb (is_upper c).

Lemma lower_stable_ascii s : str_forall is_lower_stable s = true -> is_ascii_str s = true.
Proof. apply str_forall_impl. all_bytes. Qed.

Lemma ToLower_stable `{U : UnicodeTables} s :
  str_forall is_lower_stable s = true -> ToLower s = s.
Proof.
  intros H. rewrite ToLower_ascii by (by apply lower_stable_ascii).
  apply str_map_id. revert H. apply str_forall_impl. all_bytes.
Qed.

(** ** Facts: [TrimSpace] *)

Definition is_space_byte (c : ascii) : bool := IsSpace (byteZ c).

Fixpoint last_byte (s : string) : option ascii :=
  match s with
  | EmptyString => None
  | String c EmptyString => Some c
  | String _ s' => last_byte s'
  end.

Definition first_byte (s : string) : option ascii :=
  match s with EmptyString => None | String c _ => Some c end.

(** Does not start or end with an ASCII space. *)
Definition unpadded (s : string) : bool :=
  match first_byte s, last_byte s with
  | Some c, Some d => negb (is_space_byte c) && negb (is_space_byte d)
  | _, _ => true
  end.

Lemma last_byte_app s t : t <> "" -> last_byte (s +:+ t) = last_byte t.
Proof.
  intros Ht. induction s as [|c s IH]; [done|]. rewrite app_cons_s. simpl. rewrite IH.
  destruct (s +:+ t) eqn:E; [|done]. apply app_eq_nil_s in E as [_ ->]. done.
Qed.

Lemma fold_trim_ascii off s acc :
  last_byte s <> None ->
  (forall d, last_byte s = Some d -> is_space_byte d = false) ->
  fold_left (fun acc '(off, w, r) => if IsSpace r then acc else (off + w)%nat)
    (ascii_range off s) acc = (off + String.length s)%nat.
Proof.
  revert off acc. induction s as [|c s IH]; intros off acc Hne Hl; [done|].
  destruct s as [|d s'].
  - specialize (Hl c eq_refl). unfold is_space_byte in Hl. simpl. by rewrite Hl.
  - cbn [ascii_range fold_left]. cbn [ascii_range fold_left] in IH.
    rewrite (IH (S off)); [simpl; lia|done|]. intros e He. apply Hl. done.
Qed.

Lemma TrimSpace_id s : is_ascii_str s = true -> unpadded s = true -> TrimSpace s = s.
Proof.
  intros Ha Hu. unfold TrimSpace. destruct s as [|c s]; [done|].
  unfold unpadded in Hu. destruct (last_byte (String c s)) as [d|] eqn:Hd; cycle 1.
  { exfalso. clear -Hd. revert c Hd. induction s as [|e s IH]; intros c Hd; [done|]. by apply (IH e). }
  cbn [first_byte] in Hu. apply andb_true_iff in Hu as [Hc%negb_true_iff Hd'%negb_true_iff].
  cbn [trim_left_from]. pose proof Ha as [Hca _]%is_ascii_cons. rewrite DecodeRune_ascii by done.
  unfold is_space_byte in Hc. rewrite Hc. unfold trim_right, trim_right_len, range_str.
  rewrite range_from_ascii by done. rewrite fold_trim_ascii.
  - apply (str_take_all (String c s)).
  - by rewrite Hd.
  - intros e He. congruence.
Qed.

Lemma TrimSpace_nonblank s : is_ascii_str s = true -> unpadded s = true -> s <> "" -> is_blank s = false.
Proof. intros. unfold is_blank. rewrite TrimSpace_id by done. by apply String.eqb_neq. Qed.

(** ** Facts: [Split] and [Join] *)

Lemma ContainsByte_cons c d s :
  ContainsByte (String d s) c = Ascii.eqb c d || ContainsByte s c.
Proof. unfold ContainsByte. simpl. by destruct (Ascii.eqb c d). Qed.

Lemma ContainsByte_app c s t : ContainsByte (s +:+ t) c = ContainsByte s c || ContainsByte t c.
Proof. unfold ContainsByte. rewrite str_forall_app. apply negb_andb. Qed.

Lemma ContainsByte_forall f c s :
  str_forall f s = true -> f c = false -> ContainsByte s c = false.
Proof.
  intros Hs Hc. unfold ContainsByte. apply negb_false_iff. revert Hs. apply str_forall_impl.
  intros d Hd. destruct (Ascii.eqb_spec c d); [by subst; congruence|done].
Qed.

Lemma Split_nonnil s sep : exists w ws, Split s sep = w :: ws.
Proof.
  induction s as [|c s (w & ws & IH)]; simpl; [by eauto|].
  destruct (Ascii.eqb c sep); [by eauto|]. rewrite IH. eauto.
Qed.

Lemma Split_nosep s sep : ContainsByte s sep = false -> Split s sep = [s].
Proof.
  induction s as [|c s IH]; [done|]. rewrite ContainsByte_cons, orb_false_iff. intros [H1 H2].
  cbn [Split]. rewrite Ascii.eqb_sym, H1, IH by done. done.
Qed.

Lemma Split_app w s sep :
  ContainsByte w sep = false -> Split (w +:+ String sep s) sep = w :: Split s sep.
Proof.
  induction w as [|c w IH].
  - intros _. rewrite app_nil_l_s. simpl. by rewrite Ascii.eqb_refl.
  - rewrite ContainsByte_cons, orb_false_iff. intros [H1 H2]. rewrite app_cons_s.
    cbn [Split]. by rewrite Ascii.eqb_sym, H1, IH.
Qed.

Lemma Split_parts_nosep s sep : Forall (fun w => ContainsByte w sep = false) (Split s sep).
Proof.
  induction s as [|c s IH]; simpl; [by repeat constructor|].
  destruct (Ascii.eqb c sep) eqn:E; [by constructor|].
  destruct (Split s sep) as [|w ws].
  - constructor; [|done]. rewrite ContainsByte_cons, Ascii.eqb_sym, E. done.
  - apply Forall_cons in IH as [Hw Hws]. constructor; [|done].
    rewrite ContainsByte_cons, Ascii.eqb_sym, E. done.
Qed.

Lemma Join_cons w ws sep : ws <> [] -> Join (w :: ws) sep = w +:+ sep +:+ Join ws sep.
Proof. by destruct ws. Qed.

Lemma Join_Split s sep : Join (Split s sep) (String sep "") = s.
Proof.
  induction s as [|c s IH]; [done|]. cbn [Split].
  destruct (Split_nonnil s sep) as (w & ws & E). rewrite E in *.
  destruct (Ascii.eqb_spec c sep) as [->|].
  - rewrite Join_cons by done. by rewrite IH.
  - destruct ws as [|w' ws]; [simpl in *; by subst|].
    rewrite Join_cons in * by done. by rewrite app_cons_s, IH.
Qed.

Lemma Split_Join l sep :
  l <> [] -> Forall (fun w => ContainsByte w sep = false) l -> Split (Join l (String sep "")) sep = l.
Proof.
  intros Hne Hl. induction Hl as [|w ws Hw Hws IH]; [done|].
  destruct ws as [|w' ws]; [by apply Split_nosep|].
  rewrite Join_cons by done. rewrite app_cons_s, app_nil_l_s.
  rewrite Split_app by done. by rewrite IH.
Qed.

(** ** Facts: [Itoa] and [Atoi] *)

Definition is_digits : string -> bool := str_forall is_digit.

Lemma digit_chr_spec d : 0 <= d < 10 -> is_digit (digit_chr d) = true /\ digit_val (digit_chr d) = d.
Proof.
  intros H. unfold is_digit, digit_val, digit_chr. rewrite byteZ_chr by lia.
  split; [|lia]. unfold inR. apply andb_true_iff. rewrite !Z.leb_le. lia.
Qed.

Lemma digits_val_app acc s t :
  digits_val acc (s +:+ t) = (v ← digits_val acc s; digits_val v t).
Proof.
  revert acc. induction s as [|c s IH]; intros acc; [done|]. rewrite app_cons_s. cbn.
  destruct (is_digit c); [apply IH|done].
Qed.

Lemma itoa_aux_app f n acc : itoa_aux f n acc = itoa_aux f n "" +:+ acc.
Proof.
  revert n acc. induction f as [|f IH]; intros n acc; cbn; [done|].
  destruct (n / 10 =? 0); [done|]. rewrite IH. rewrite (IH _ (String _ "")).
  rewrite app_assoc_s. done.
Qed.

Lemma itoa_aux_step f n :
  itoa_aux (S f) n "" =
    (if n / 10 =? 0 then "" else itoa_aux f (n / 10) "") +:+ String (digit_chr (n mod 10)) "".
Proof. cbn. destruct (n / 10 =? 0); [done|]. apply itoa_aux_app. Qed.

Lemma itoa_aux_val f n :
  0 <= n < 10 ^ (Z.of_nat f + 1) -> digits_val 0 (itoa_aux f n "") = Some n.
Proof.
  revert n. induction f as [|f IH]; intros n Hn.
  - simpl in Hn. cbn [itoa_aux digits_val].
    destruct (digit_chr_spec (n mod 10)) as [-> ->]; [by apply Z.mod_pos_bound|].
    rewrite Z.mod_small by lia. done.
  - rewrite itoa_aux_step, digits_val_app.
    pose proof (Z.mod_pos_bound n 10 ltac:(lia)) as Hm.
    pose proof (Z.div_mod n 10 ltac:(lia)) as Hd.
    destruct (digit_chr_spec (n mod 10) Hm) as [E1 E2].
    assert (0 <= n / 10 < 10 ^ (Z.of_nat f + 1)) as Hq.
    { split; [apply Z.div_pos; lia|]. apply Z.div_lt_upper_bound; [lia|].
      replace (Z.of_nat (S f) + 1) with (Z.succ (Z.of_nat f + 1)) in Hn by lia.
      rewrite Z.pow_succ_r in Hn by lia. lia. }
    destruct (n / 10 =? 0) eqn:E0; b2p.
    + cbn. rewrite E1, E2. f_equal. lia.
    + rewrite IH by done. cbn. rewrite E1, E2. f_equal. lia.
Qed.

Lemma itoa_aux_digits f n acc :
  0 <= n -> is_digits acc = true -> is_digits (itoa_aux f n acc) = true.
Proof.
  revert n acc. induction f as [|f IH]; intros n acc Hn Ha; cbn [itoa_aux].
  - unfold is_digits in *. cbn. destruct (digit_chr_spec (n mod 10)) as [-> _]; [|done].
    by apply Z.mod_pos_bound.
  - assert (is_digits (String (digit_chr (n mod 10)) acc) = true).
    { unfold is_digits in *. cbn. destruct (digit_chr_spec (n mod 10)) as [-> _]; [|done].
      by apply Z.mod_pos_bound. }
    destruct (n / 10 =? 0); [done|]. apply IH; [|done]. apply Z.div_pos; lia.
Qed.

Lemma itoa_aux_nonempty f n acc : itoa_aux f n acc <> "".
Proof.
  revert n acc. induction f as [|f IH]; intros n acc; cbn; [done|].
  destruct (n / 10 =? 0); [done|apply IH].
Qed.

Lemma itoa_fuel n : 0 <= n -> 0 <= n < 10 ^ (Z.of_nat (Z.to_nat (Z.log2 n)) + 1).
Proof.
  intros Hn. pose proof (Z.log2_nonneg n). rewrite Z2Nat.id by done. split; [done|].
  destruct (decide (n = 0)) as [->|]; [done|].
  destruct (Z.log2_spec n ltac:(lia)) as [_ Hlt].
  eapply Z.lt_le_trans; [exact Hlt|]. rewrite <- Z.add_1_r.
  apply Z.pow_le_mono_l. lia.
Qed.

Lemma Itoa_nonneg n : 0 <= n -> Itoa n = itoa_aux (Z.to_nat (Z.log2 n)) n "".
Proof. intros H. unfold Itoa. destruct (n <? 0) eqn:E; b2p; [lia|done]. Qed.

Lemma Itoa_digits n : 0 <= n -> is_digits (Itoa n) = true.
Proof. intros H. rewrite Itoa_nonneg by done. by apply itoa_aux_digits. Qed.

Lemma Itoa_nonempty n : Itoa n <> "".
Proof. unfold Itoa. destruct (n <? 0); [done|]. apply itoa_aux_nonempty. Qed.

Lemma Itoa_val n : 0 <= n -> digits_val 0 (Itoa n) = Some n.
Proof. intros H. rewrite Itoa_nonneg by done. apply itoa_aux_val. by apply itoa_fuel. Qed.

(** The sign prefixes are not digits, so [Atoi] reads a digit string as such. *)
Lemma Atoi_digits s v :
  s <> "" -> is_digits s = true -> digits_val 0 s = Some v ->
  Atoi s = if v <=? MaxInt64 then (v, None) else (MaxInt64, Some ErrRange).
Proof.
  intros Hne Hd Hv. unfold Atoi. destruct s as [|c s]; [done|].
  unfold is_digits in Hd. cbn in Hd. apply andb_true_iff in Hd as [Hc _].
  assert (c <> "-"%char /\ c <> "+"%char) as [? ?] by (split; intros ->; done).
  assert ((match String c s with
           | String "-" s' => (true, s') | String "+" s' => (false, s') | _ => (false, String c s)
           end) = (false, String c s)) as ->.
  { destruct c as [[] [] [] [] [] [] [] []]; done. }
  cbn [String.eqb]. by rewrite Hv.
Qed.

Lemma Atoi_Itoa n : 0 <= n <= MaxInt64 -> Atoi (Itoa n) = (n, None).
Proof.
  intros [H1 H2]. rewrite (Atoi_digits _ n); [|apply Itoa_nonempty|by apply Itoa_digits|by apply Itoa_val].
  by apply Z.leb_le in H2 as ->.
Qed.

(** No leading zero: the first digit of a multi-digit [Itoa] is not ['0']. *)
Lemma itoa_aux_first f n :
  0 < n < 10 ^ (Z.of_nat f + 1) ->
  exists c s, itoa_aux f n "" = String c s /\ inR 49 (byteZ c) 57 = true.
Proof.
  revert n. induction f as [|f IH]; intros n Hn.
  - simpl in Hn. cbn. exists (digit_chr (n mod 10)), "". split; [done|].
    unfold digit_chr. rewrite Z.mod_small by lia. rewrite byteZ_chr by lia.
    unfold inR. apply andb_true_iff. rewrite !Z.leb_le. lia.
  - rewrite itoa_aux_step. pose proof (Z.mod_pos_bound n 10 ltac:(lia)) as Hm.
    pose proof (Z.div_mod n 10 ltac:(lia)) as Hd.
    destruct (n / 10 =? 0) eqn:E0; b2p.
    + exists (digit_chr (n mod 10)), "". split; [done|]. unfold digit_chr. rewrite byteZ_chr by lia.
      unfold inR. apply andb_true_iff. rewrite !Z.leb_le. lia.
    + destruct (IH (n / 10)) as (c & s & -> & Hc); [|by eauto].
      split; [pose proof (Z.div_pos n 10); lia|]. apply Z.div_lt_upper_bound; [lia|].
      replace (Z.of_nat (S f) + 1) with (Z.succ (Z.of_nat f + 1)) in Hn by lia.
      rewrite Z.pow_succ_r in Hn by lia. lia.
Qed.

Lemma Itoa_first n :
  0 < n -> exists c s, Itoa n = String c s /\ inR 49 (byteZ c) 57 = true.
Proof.
  intros H. rewrite Itoa_nonneg by lia. apply itoa_aux_first.
  destruct (itoa_fuel n); lia.
Qed.

(** ** Facts: case mapping of arbitrary text *)

Lemma Z_below_forallb n (f : Z -> bool) :
  forallb (fun i => f (Z.of_nat i)) (seq 0 n) = true -> forall x, 0 <= x < Z.of_nat n -> f x = true.
Proof.
  intros H x Hx. rewrite forallb_forall in H. rewrite <- (Z2Nat.id x) by lia.
  apply H. apply in_seq. lia.
Qed.

Definition is_high_byte (c : ascii) : bool := 128 <=? byteZ c.

Lemma high_lor (b n x : Z) :
  (b, n) ∈ [(0xC0, 32); (0xE0, 16); (0xF0, 8); (0x80, 64)] -> 0 <= x < n ->
  is_high_byte (chr (Z.lor b x)) = true.
Proof.
  intros Hbn Hx. rewrite !elem_of_cons, elem_of_nil in Hbn.
  destruct Hbn as [[= -> ->]|[[= -> ->]|[[= -> ->]|[[= -> ->]|[]]]]].
  - by apply (Z_below_forallb 32 (fun x => is_high_byte (chr (Z.lor 0xC0 x)))).
  - by apply (Z_below_forallb 16 (fun x => is_high_byte (chr (Z.lor 0xE0 x)))).
  - by apply (Z_below_forallb 8 (fun x => is_high_byte (chr (Z.lor 0xF0 x)))).
  - by apply (Z_below_forallb 64 (fun x => is_high_byte (chr (Z.lor 0x80 x)))).
Qed.

Lemma land_3F z : 0 <= Z.land z 0x3F < 64.
Proof. change 0x3F with (Z.ones 6). rewrite Z.land_ones by lia. apply Z.mod_pos_bound. lia. Qed.

Lemma EncodeRune_high r :
  (r < 0 \/ 0x80 <= r) -> str_forall is_high_byte (EncodeRune r) = true.
Proof.
  intros Hr. unfold EncodeRune.
  set (r' := if inR 0xD800 r 0xDFFF || negb (inR 0 r 0x10FFFF) then RuneError else r).
  assert (0x80 <= r' <= 0x10FFFF) as Hr'.
  { unfold r', inR, RuneError. destruct (_ || _) eqn:E; [lia|]. unfold inR in *. b2p. lia. }
  clearbody r'. clear Hr r. rename r' into r.
  assert (forall k, 0 <= k -> Z.shiftr r k = r / 2 ^ k) as Hs by (intros; by apply Z.shiftr_div_pow2).
  assert (forall z, is_high_byte (chr (Z.lor 0x80 (Z.land z 0x3F))) = true) as Hc.
  { intros z. eapply (high_lor 0x80 64); [set_solver|apply land_3F]. }
  destruct (r <? 0x80) eqn:E1; b2p; [lia|].
  destruct (r <? 0x800) eqn:E2; b2p; [|destruct (r <? 0x10000) eqn:E3; b2p];
    cbn [str_forall]; rewrite !Hc, !andb_true_r, ?Hs by lia.
  - apply (high_lor 0xC0 32); [set_solver|]. split; [apply Z.div_pos; lia|apply Z.div_lt_upper_bound; lia].
  - apply (high_lor 0xE0 16); [set_solver|]. split; [apply Z.div_pos; lia|apply Z.div_lt_upper_bound; lia].
  - apply (high_lor 0xF0 8); [set_solver|]. split; [apply Z.div_pos; lia|apply Z.div_lt_upper_bound; lia].
Qed.

Lemma rune_lower_not_upper `{U : UnicodeTables, !UnicodeLaws U} r : inR 65 (rune_lower r) 90 = false.
Proof.
  unfold rune_lower. destruct (r <=? 127) eqn:E; b2p.
  - destruct (inR 65 r 90) eqn:E'; [|done]. unfold inR in *. b2p.
    apply andb_false_iff. rewrite !Z.leb_gt. lia.
  - destruct (decide (r = 0x130)) as [->|]; [by rewrite uni_lower_0130|].
    destruct (decide (r = 0x212A)) as [->|]; [by rewrite uni_lower_212A|].
    pose proof (uni_lower_other r). unfold inR. apply andb_false_iff. rewrite !Z.leb_gt. lia.
Qed.

Lemma ToLower_no_upper `{U : UnicodeTables, !UnicodeLaws U} s :
  str_forall (fun c => negb (is_upper c)) (ToLower s) = true.
Proof.
  unfold ToLower. induction (runes s) as [|r rs IH]; [done|].
  rewrite fmap_cons. cbn [encode_runes]. rewrite str_forall_app, IH, andb_true_r.
  pose proof (rune_lower_not_upper r) as Hn. set (q := rune_lower r) in *. clearbody q.
  destruct (decide (0 <= q < 0x80)) as [Hq|Hq].
  - assert (q = byteZ (chr q)) as Eq by (rewrite byteZ_chr; lia). rewrite Eq, EncodeRune_ascii.
    + simpl. unfold is_upper. by rewrite <- Eq, Hn.
    + unfold is_ascii_byte. rewrite <- Eq. apply Z.ltb_lt. lia.
  - eapply str_forall_impl; [|apply EncodeRune_high; lia]. all_bytes.
Qed.

(** ** Non-ASCII bytes decode to non-ASCII runes *)

Lemma lor_ge_l a b : 0 <= a -> 0 <= b -> a <= Z.lor a b.
Proof.
  intros Ha Hb. apply Z.ldiff_le; [by apply Z.lor_nonneg|].
  apply Z.bits_inj'. intros n Hn. rewrite Z.ldiff_spec, Z.lor_spec, Z.bits_0.
  by destruct (Z.testbit a n), (Z.testbit b n).
Qed.

Lemma lor_ge_r a b : 0 <= a -> 0 <= b -> b <= Z.lor a b.
Proof. intros. rewrite Z.lor_comm. by apply lor_ge_l. Qed.

Lemma byte_test (f : Z -> bool) c :
  forallb (fun i => f (Z.of_nat i)) (seq 0 256) = true -> f (byteZ c) = true.
Proof. intros H. apply (Z_below_forallb 256 f H). apply byteZ_range. Qed.

Lemma lead_byte_bits c :
  ((inR 0xC2 (byteZ c) 0xDF = true -> 2 <= Z.land (byteZ c) 0x1F) /\
   (inR 0xE1 (byteZ c) 0xEF = true -> 1 <= Z.land (byteZ c) 0x0F) /\
   (inR 0xF1 (byteZ c) 0xF4 = true -> 1 <= Z.land (byteZ c) 0x07) /\
   (inR 0xA0 (byteZ c) 0xBF = true -> 32 <= Z.land (byteZ c) 0x3F) /\
   (inR 0x90 (byteZ c) 0xBF = true -> 16 <= Z.land (byteZ c) 0x3F)).
Proof.
  assert (T : forall lo hi n m, forallb (fun i => implb (inR lo (Z.of_nat i) hi) (n <=? Z.land (Z.of_nat i) m)) (seq 0 256) = true ->
    inR lo (byteZ c) hi = true -> n <= Z.land (byteZ c) m).
  { intros lo hi n m Ha E. pose proof (byte_test (fun x => implb (inR lo x hi) (n <=? Z.land x m)) c Ha) as H.
    cbn beta in H. rewrite E in H. by apply Z.leb_le in H. }
  split_and!; apply T; vm_compute; reflexivity.
Qed.

Lemma shiftl_ge a k n : 0 <= k -> 0 <= n <= a -> n * 2 ^ k <= Z.shiftl a k.
Proof. intros. rewrite Z.shiftl_mul_pow2 by lia. nia. Qed.

Lemma shiftl_land_nonneg a m k : 0 <= m -> 0 <= k -> 0 <= Z.shiftl (Z.land a m) k.
Proof. intros. apply Z.shiftl_nonneg, Z.land_nonneg. by right. Qed.

Lemma DecodeRune_high c s : is_ascii_byte c = false -> 128 <= (DecodeRune (String c s)).1.
Proof.
  unfold is_ascii_byte. intros H. cbn [DecodeRune]. rewrite H. b2p.
  destruct (lead_byte_bits c) as (B2 & B3 & B4 & _).
  assert (N : forall d, 0 <= Z.land (byteZ d) 0x3F) by (intros d; apply land_3F).
  assert (NS : forall d k, 0 <= k -> 0 <= Z.shiftl (Z.land (byteZ d) 0x3F) k)
    by (intros; by apply shiftl_land_nonneg).
  destruct (inR 0xC2 (byteZ c) 0xDF) eqn:E2.
  { destruct s as [|b1 s]; [done|]. case_if; [|done]. cbn [fst]. specialize (B2 eq_refl).
    etransitivity; [|apply lor_ge_l; [apply shiftl_land_nonneg; lia|apply N]].
    pose proof (shiftl_ge (Z.land (byteZ c) 0x1F) 6 2). lia. }
  destruct (inR 0xE0 (byteZ c) 0xEF) eqn:E3.
  { destruct s as [|b1 [|b2 s]]; [done|done|].
    destruct (Z.eqb_spec (byteZ c) 0xE0) as [E0|E0]; (case_if; [|done]); cbn [fst]; b2p;
    assert (0 <= Z.lor (Z.shiftl (Z.land (byteZ b1) 0x3F) 6) (Z.land (byteZ b2) 0x3F))
      by (apply Z.lor_nonneg; auto with lia).
    - etransitivity; [|apply lor_ge_r; [apply shiftl_land_nonneg; lia|done]].
      etransitivity; [|apply lor_ge_l; auto with lia].
      destruct (lead_byte_bits b1) as (_ & _ & _ & B & _). unfold cont_byte, inR in *. b2p.
      pose proof (shiftl_ge (Z.land (byteZ b1) 0x3F) 6 32). enough (32 <= Z.land (byteZ b1) 0x3F) by lia.
      apply B. rewrite E0 in *. apply andb_true_iff; split; apply Z.leb_le; simpl in *; lia.
    - etransitivity; [|apply lor_ge_l; [apply shiftl_land_nonneg; lia|done]].
      pose proof (shiftl_ge (Z.land (byteZ c) 0x0F) 12 1). enough (1 <= Z.land (byteZ c) 0x0F) by lia.
      apply B3. unfold inR in *. b2p. apply andb_true_iff; split; apply Z.leb_le; lia. }
  destruct (inR 0xF0 (byteZ c) 0xF4) eqn:E4; [|done].
  destruct s as [|b1 [|b2 [|b3 s]]]; [done..|].
  destruct (Z.eqb_spec (byteZ c) 0xF0) as [E0|E0]; (case_if; [|done]); cbn [fst]; b2p;
  assert (0 <= Z.lor (Z.shiftl (Z.land (byteZ b2) 0x3F) 6) (Z.land (byteZ b3) 0x3F))
    by (apply Z.lor_nonneg; auto with lia);
  assert (0 <= Z.lor (Z.shiftl (Z.land (byteZ b1) 0x3F) 12)
                 (Z.lor (Z.shiftl (Z.land (byteZ b2) 0x3F) 6) (Z.land (byteZ b3) 0x3F)))
    by (apply Z.lor_nonneg; auto with lia).
  - etransitivity; [|apply lor_ge_r; [apply shiftl_land_nonneg; lia|done]].
    etransitivity; [|apply lor_ge_l; auto with lia].
    destruct (lead_byte_bits b1) as (_ & _ & _ & _ & B). unfold cont_byte, inR in *. b2p.
    pose proof (shiftl_ge (Z.land (byteZ b1) 0x3F) 12 16). enough (16 <= Z.land (byteZ b1) 0x3F) by lia.
    apply B. rewrite E0 in *. apply andb_true_iff; split; apply Z.leb_le; simpl in *; lia.
  - etransitivity; [|apply lor_ge_l; [apply shiftl_land_nonneg; lia|done]].
    pose proof (shiftl_ge (Z.land (byteZ c) 0x07) 18 1). enough (1 <= Z.land (byteZ c) 0x07) by lia.
    apply B4. unfold inR in *. b2p. apply andb_true_iff; split; apply Z.leb_le; lia.
Qed.

(** A string all of whose runes are ASCII is a string of ASCII bytes. *)
Lemma runes_low_ascii s : Forall (fun r => r < 128) (runes s) -> is_ascii_str s = true.
Proof.
  unfold runes, range_str. generalize 0%nat at 1. induction s as [|c s IH]; intros off H; [done|].
  cbn [range_from] in H. destruct (is_ascii_byte c) eqn:Ec.
  - rewrite DecodeRune_ascii in H by done. cbn [pred fmap list_fmap snd] in H.
    apply Forall_cons in H as [_ H]. apply is_ascii_cons. split; [done|]. by eapply IH.
  - pose proof (DecodeRune_high c s Ec). destruct (DecodeRune (String c s)) as [r w].
    apply Forall_cons in H as [H _]. simpl in *. lia.
Qed.
