(* ===== verification/Utf8.v ===== *)
(** The UTF-8 round trip of the Go [range]/[WriteRune] pair: decoding is
    arithmetic on the bytes, every decoded rune is a Unicode scalar value, and a
    string of encoded scalar values decodes to exactly those values. *)
From S2P Require Import Prelude GoStrings.

#[local] Set Default Goal Selector "!".
#[local] Open Scope Z_scope.

(** [utf8.ValidRune]. *)
Definition ValidRune (r : Z) : bool := inR 0 r 0x10FFFF && negb (inR 0xD800 r 0xDFFF).

(** ** Bit operations as arithmetic *)

Lemma lor_shiftl a b k : 0 <= k -> 0 <= b < 2 ^ k -> Z.lor (Z.shiftl a k) b = a * 2 ^ k + b.
Proof.
  intros Hk Hb. rewrite <- Z.shiftl_mul_pow2 by done.
  assert (Hd : Z.land (Z.shiftl a k) b = 0).
  { apply Z.bits_inj'. intros n Hn. rewrite Z.land_spec, Z.bits_0.
    destruct (Z.lt_ge_cases n k); [by rewrite Z.shiftl_spec_low|].
    apply andb_false_iff. right. destruct (decide (b = 0)) as [->|]; [apply Z.bits_0|].
    apply Z.bits_above_log2; [lia|]. apply Z.log2_lt_pow2; [lia|].
    pose proof (Z.pow_le_mono_r 2 k n). lia. }
  pose proof (Z.add_lor_land (Z.shiftl a k) b). lia.
Qed.

Lemma land_low z k : 0 <= k -> Z.land z (Z.ones k) = z mod 2 ^ k.
Proof. intros. by apply Z.land_ones. Qed.

Lemma land_3F_mod z : Z.land z 0x3F = z mod 64.
Proof. exact (land_low z 6 ltac:(lia)). Qed.
Lemma land_1F_mod z : Z.land z 0x1F = z mod 32.
Proof. exact (land_low z 5 ltac:(lia)). Qed.
Lemma land_0F_mod z : Z.land z 0x0F = z mod 16.
Proof. exact (land_low z 4 ltac:(lia)). Qed.
Lemma land_07_mod z : Z.land z 0x07 = z mod 8.
Proof. exact (land_low z 3 ltac:(lia)). Qed.

Lemma lor_C0 x : 0 <= x < 32 -> Z.lor 0xC0 x = 0xC0 + x.
Proof. intros. exact (lor_shiftl 6 x 5 ltac:(lia) H). Qed.
Lemma lor_E0 x : 0 <= x < 16 -> Z.lor 0xE0 x = 0xE0 + x.
Proof. intros. exact (lor_shiftl 14 x 4 ltac:(lia) H). Qed.
Lemma lor_F0 x : 0 <= x < 8 -> Z.lor 0xF0 x = 0xF0 + x.
Proof. intros. exact (lor_shiftl 30 x 3 ltac:(lia) H). Qed.
Lemma lor_80 x : 0 <= x < 64 -> Z.lor 0x80 x = 0x80 + x.
Proof. intros. exact (lor_shiftl 2 x 6 ltac:(lia) H). Qed.

Lemma decode2 a b : Z.lor (Z.shiftl a 6) (Z.land b 0x3F) = a * 64 + b mod 64.
Proof. rewrite land_3F_mod. apply (lor_shiftl a (b mod 64) 6); zlia. Qed.

Lemma decode3 a b c :
  Z.lor (Z.shiftl a 12) (Z.lor (Z.shiftl (Z.land b 0x3F) 6) (Z.land c 0x3F)) = a * 4096 + b mod 64 * 64 + c mod 64.
Proof. rewrite decode2, land_3F_mod. rewrite (lor_shiftl a _ 12); zlia. Qed.

Lemma decode4 a b c d :
  Z.lor (Z.shiftl a 18) (Z.lor (Z.shiftl (Z.land b 0x3F) 12) (Z.lor (Z.shiftl (Z.land c 0x3F) 6) (Z.land d 0x3F)))
  = a * 262144 + b mod 64 * 4096 + c mod 64 * 64 + d mod 64.
Proof. rewrite decode3, land_3F_mod. rewrite (lor_shiftl a _ 18); zlia. Qed.

Ltac in_range := unfold cont_byte, inR in *; b2p;
  repeat match goal with |- _ && _ = true => apply andb_true_iff; split | |- (_ <=? _) = true => apply Z.leb_le end.

Lemma ValidRune_spec r : ValidRune r = true <-> 0 <= r <= 0x10FFFF /\ ~ (0xD800 <= r <= 0xDFFF).
Proof.
  unfold ValidRune, inR. rewrite andb_true_iff, negb_true_iff, andb_true_iff, andb_false_iff, !Z.leb_le, !Z.leb_gt. lia.
Qed.

(** ** Decoding yields scalar values *)

Lemma DecodeRune_valid s : ValidRune (DecodeRune s).1 = true.
Proof.
  destruct s as [|b0 s]; [done|]. cbn [DecodeRune]. pose proof (byteZ_range b0).
  destruct (byteZ b0 <? 0x80) eqn:E1; [apply ValidRune_spec; b2p; cbn [fst]; lia|].
  destruct (inR 0xC2 (byteZ b0) 0xDF) eqn:E2.
  { destruct s as [|b1 s]; [done|]. case_if; [|done]. cbn [fst]. rewrite decode2, land_1F_mod.
    apply ValidRune_spec. in_range. zlia. }
  destruct (inR 0xE0 (byteZ b0) 0xEF) eqn:E3.
  { destruct s as [|b1 [|b2 s]]; [done|done|]. case_if; [|done]. cbn [fst]. rewrite decode3, land_0F_mod.
    apply ValidRune_spec. in_range.
    destruct (Z.eqb_spec (byteZ b0) 0xED), (Z.eqb_spec (byteZ b0) 0xE0); zlia. }
  destruct (inR 0xF0 (byteZ b0) 0xF4) eqn:E4; [|done].
  destruct s as [|b1 [|b2 [|b3 s]]]; [done..|]. case_if; [|done]. cbn [fst]. rewrite decode4, land_07_mod.
  apply ValidRune_spec. in_range.
  destruct (Z.eqb_spec (byteZ b0) 0xF4), (Z.eqb_spec (byteZ b0) 0xF0); zlia.
Qed.

Lemma runes_valid s : Forall (fun r => ValidRune r = true) (runes s).
Proof.
  unfold runes, range_str. generalize 0%nat at 1. generalize 0%nat.
  induction s as [|c s IH]; intros skip off; [constructor|]. cbn [range_from].
  destruct skip as [|k]; [|apply IH].
  pose proof (DecodeRune_valid (String c s)). destruct (DecodeRune (String c s)) as [r w].
  cbn [fmap list_fmap snd]. constructor; [done|]. apply IH.
Qed.

(** ** Encoding then decoding *)

Lemma DecodeRune_Encode r t :
  ValidRune r = true -> DecodeRune (EncodeRune r +:+ t) = (r, String.length (EncodeRune r)).
Proof.
  intros [Hr Hs]%ValidRune_spec. unfold EncodeRune.
  assert (inR 0xD800 r 0xDFFF || negb (inR 0 r 0x10FFFF) = false) as ->.
  { unfold inR. rewrite orb_false_iff, negb_false_iff, andb_false_iff, andb_true_iff, !Z.leb_le, !Z.leb_gt. lia. }
  rewrite !Z.shiftr_div_pow2, !land_3F_mod by lia.
  change (2 ^ 6) with 64. change (2 ^ 12) with 4096. change (2 ^ 18) with 262144.
  destruct (r <? 0x80) eqn:E1; b2p.
  { rewrite app_cons_s. cbn [DecodeRune String.length]. rewrite byteZ_chr by lia.
    by destruct (Z.ltb_spec r 0x80); [|lia]. }
  destruct (r <? 0x800) eqn:E2; b2p; [|destruct (r <? 0x10000) eqn:E3; b2p];
    rewrite !app_cons_s, ?lor_C0, ?lor_E0, ?lor_F0, ?lor_80 by zlia; cbn [DecodeRune String.length];
    unfold cont_byte; rewrite !byteZ_chr by zlia.
  - destruct (Z.ltb_spec (192 + r / 64) 128); [zlia|].
    assert (inR 194 (192 + r / 64) 223 = true) as -> by (in_range; zlia).
    assert (inR 128 (128 + r mod 64) 191 = true) as -> by (in_range; zlia).
    rewrite decode2, land_1F_mod. f_equal. zlia.
  - destruct (Z.ltb_spec (224 + r / 4096) 128); [zlia|].
    assert (inR 194 (224 + r / 4096) 223 = false) as -> by (apply andb_false_iff; right; apply Z.leb_gt; zlia).
    assert (inR 224 (224 + r / 4096) 239 = true) as -> by (in_range; zlia).
    assert (inR 128 (128 + r mod 64) 191 = true) as -> by (in_range; zlia). rewrite andb_true_r.
    match goal with |- context [if inR ?a ?b ?c then _ else _] => assert (inR a b c = true) as -> end.
    { in_range; destruct (Z.eqb_spec (224 + r / 4096) 224), (Z.eqb_spec (224 + r / 4096) 237); zlia. }
    rewrite decode3, land_0F_mod. f_equal. zlia.
  - destruct (Z.ltb_spec (240 + r / 262144) 128); [zlia|].
    assert (inR 194 (240 + r / 262144) 223 = false) as -> by (apply andb_false_iff; right; apply Z.leb_gt; zlia).
    assert (inR 224 (240 + r / 262144) 239 = false) as -> by (apply andb_false_iff; right; apply Z.leb_gt; zlia).
    assert (inR 240 (240 + r / 262144) 244 = true) as -> by (in_range; zlia).
    assert (inR 128 (128 + r mod 64) 191 = true) as -> by (in_range; zlia).
    assert (inR 128 (128 + r / 64 mod 64) 191 = true) as -> by (in_range; zlia). rewrite !andb_true_r.
    match goal with |- context [if inR ?a ?b ?c then _ else _] => assert (inR a b c = true) as -> end.
    { in_range; destruct (Z.eqb_spec (240 + r / 262144) 240), (Z.eqb_spec (240 + r / 262144) 244); zlia. }
    rewrite decode4, land_07_mod. f_equal. zlia.
Qed.

Lemma EncodeRune_nonempty r : EncodeRune r <> "".
Proof. unfold EncodeRune. by repeat case_if. Qed.

Lemma range_from_skip off w t : range_from off (String.length w) (w +:+ t) = range_from (off + String.length w) 0 t.
Proof.
  revert off. induction w as [|c w IH]; intros off; [by rewrite app_nil_l_s, Nat.add_0_r|].
  rewrite app_cons_s. cbn [range_from String.length]. rewrite IH. f_equal. lia.
Qed.

Lemma range_snd off off' s : snd <$> range_from off 0 s = snd <$> range_from off' 0 s.
Proof.
  assert (G : forall skip off off', snd <$> range_from off skip s = snd <$> range_from off' skip s); [|apply G].
  induction s as [|c s IH]; intros skip o o'; [done|]. cbn [range_from]. destruct skip as [|k]; [|apply IH].
  destruct (DecodeRune (String c s)) as [r w]. cbn [fmap list_fmap snd]. f_equal. apply IH.
Qed.

Lemma runes_cons_encode r t : ValidRune r = true -> runes (EncodeRune r +:+ t) = r :: runes t.
Proof.
  intros Hr. pose proof (DecodeRune_Encode r t Hr) as HD. destruct (EncodeRune r) as [|c w] eqn:E; [by destruct (EncodeRune_nonempty r)|].
  unfold runes, range_str. rewrite app_cons_s in *. cbn [range_from]. rewrite HD. cbn [String.length pred fmap list_fmap snd].
  f_equal. etransitivity; [|apply (range_snd (1 + String.length w))]. f_equal. apply (range_from_skip 1).
Qed.

(** Decoding what [strings.Builder.WriteRune] wrote gives back the runes. *)
Lemma runes_encode rs : Forall (fun r => ValidRune r = true) rs -> runes (encode_runes rs) = rs.
Proof.
  induction 1 as [|r rs Hr _ IH]; [done|]. cbn [encode_runes]. by rewrite runes_cons_encode, IH.
Qed.

(** ** Bytes of decoded strings *)

Lemma DecodeRune_tail_high c s :
  str_forall is_high_byte (str_take (pred (DecodeRune (String c s)).2) s) = true.
Proof.
  assert (C : forall lo hi d, 128 <= lo -> cont_byte lo hi d = true -> is_high_byte d = true).
  { intros lo hi d Hlo H. unfold cont_byte, inR, is_high_byte in *. b2p. apply Z.leb_le. lia. }
  cbn [DecodeRune]. destruct (byteZ c <? 0x80); [done|].
  destruct (inR 0xC2 (byteZ c) 0xDF).
  { destruct s as [|b1 s]; [done|]. case_if; [|done]. cbn. by rewrite (C 0x80 0xBF). }
  destruct (inR 0xE0 (byteZ c) 0xEF).
  { destruct s as [|b1 [|b2 s]]; [done..|]. cbn zeta.
    destruct (byteZ c =? 0xE0), (byteZ c =? 0xED); (case_if; [|done]); b2p; cbn;
      repeat match goal with H : cont_byte ?lo ?hi ?d = true |- _ => apply (C lo hi d) in H; [|lia]; rewrite H; clear H end; done. }
  destruct (inR 0xF0 (byteZ c) 0xF4); [|done].
  destruct s as [|b1 [|b2 [|b3 s]]]; [done..|]. cbn zeta.
  destruct (byteZ c =? 0xF0), (byteZ c =? 0xF4); (case_if; [|done]); b2p; cbn;
    repeat match goal with H : cont_byte ?lo ?hi ?d = true |- _ => apply (C lo hi d) in H; [|lia]; rewrite H; clear H end; done.
Qed.

(** A test that holds of every rune holds of every ASCII byte. *)
Lemma runes_bytes f s :
  forallb f (runes s) = true -> str_forall (fun c => is_high_byte c || f (byteZ c)) s = true.
Proof.
  unfold runes, range_str.
  assert (G : forall off skip, str_forall is_high_byte (str_take skip s) = true ->
    forallb f (snd <$> range_from off skip s) = true -> str_forall (fun c => is_high_byte c || f (byteZ c)) s = true).
  { induction s as [|c s IH]; intros off skip Hh Hf; [done|]. cbn [str_forall].
    destruct skip as [|k]; cbn [range_from str_take str_forall] in *.
    - pose proof (DecodeRune_tail_high c s) as HT. destruct (is_high_byte c) eqn:Ec.
      + destruct (DecodeRune (String c s)) as [r w]. cbn [fmap list_fmap snd forallb] in *. b2p. cbn [orb andb].
        eapply IH; [exact HT|eassumption].
      + rewrite DecodeRune_ascii in Hf.
        2: { unfold is_ascii_byte, is_high_byte in *. b2p. by apply Z.ltb_lt. }
        cbn [fmap list_fmap snd forallb pred] in Hf. apply andb_true_iff in Hf as [Hc Hf]. rewrite Hc.
        cbn [orb andb]. eapply (IH _ 0%nat); [by destruct s|exact Hf].
    - b2p. rewrite H. cbn [orb andb]. by eapply IH. }
  by apply G.
Qed.

(** ** Trimming white space *)

Lemma DecodeRune_width c s : (1 <= (DecodeRune (String c s)).2)%nat.
Proof. cbn [DecodeRune]. repeat (case_match; try (cbn; lia)). Qed.

Section Trim.
Context (g : ascii -> bool).
Hypothesis g_high : forall c, is_high_byte c = true -> g c = true.
Hypothesis g_space : forall c, is_space_byte c = true -> g c = true.

Lemma str_forall_high s : str_forall is_high_byte s = true -> str_forall g s = true.
Proof. by apply str_forall_impl. Qed.

Lemma g_space_rune c s : IsSpace (DecodeRune (String c s)).1 = true -> g c = true.
Proof.
  intros H. destruct (is_high_byte c) eqn:E; [by apply g_high|]. apply g_space.
  rewrite DecodeRune_ascii in H; [done|]. unfold is_high_byte, is_ascii_byte in *. b2p. by apply Z.ltb_lt.
Qed.

Lemma trim_left_forall skip s :
  str_forall is_high_byte (str_take skip s) = true -> str_forall g (trim_left_from skip s) = true -> str_forall g s = true.
Proof.
  revert skip. induction s as [|c s IH]; intros skip Hh; [done|]. cbn [trim_left_from]. destruct skip as [|k].
  - pose proof (DecodeRune_tail_high c s) as HT. pose proof (g_space_rune c s) as HS.
    destruct (DecodeRune (String c s)) as [r w]. cbn [fst snd] in *. destruct (IsSpace r); [|done].
    intros H. cbn [str_forall]. rewrite HS by done. exact (IH (pred w) HT H).
  - cbn [str_take str_forall] in Hh. b2p. intros Ht. cbn [str_forall]. rewrite g_high by done. by apply (IH k).
Qed.

Lemma str_drop_forall n s : str_forall g s = true -> str_forall g (str_drop n s) = true.
Proof. revert s. induction n as [|n IH]; intros [|c s]; cbn; try done. intros H. b2p. auto. Qed.

(** What the right trim drops satisfies [g]. *)
Lemma trim_right_rest s off skip acc :
  str_forall is_high_byte (str_take skip s) = true ->
  let n := fold_left (fun acc '(off, w, r) => if IsSpace r then acc else (off + w)%nat) (range_from off skip s) acc in
  (n = acc /\ str_forall g s = true) \/ ((off < n)%nat /\ str_forall g (str_drop (n - off) s) = true).
Proof.
  cbn zeta. revert off skip acc. induction s as [|c s IH]; intros off skip acc Hh; [by left|]. cbn [range_from].
  destruct skip as [|k].
  - pose proof (DecodeRune_tail_high c s) as HT. pose proof (g_space_rune c s) as HS. pose proof (DecodeRune_width c s) as HW.
    destruct (DecodeRune (String c s)) as [r w]. cbn [fst snd fold_left] in *. destruct (IsSpace r).
    + destruct (IH (S off) (pred w) acc HT) as [[-> Hs]|[Hlt Hs]].
      * left. split; [done|]. cbn. by rewrite HS.
      * right. split; [lia|]. set (n := fold_left _ _ _) in *. clearbody n.
        replace (n - off)%nat with (S (n - S off)) by lia. exact Hs.
    + right. destruct (IH (S off) (pred w) (off + w)%nat HT) as [[-> Hs]|[Hlt Hs]].
      * split; [lia|]. replace (off + w - off)%nat with (S (pred w)) by lia. cbn [str_drop]. by apply str_drop_forall.
      * split; [lia|]. set (n := fold_left _ _ _) in *. clearbody n.
        replace (n - off)%nat with (S (n - S off)) by lia. exact Hs.
  - cbn [str_take str_forall] in Hh. b2p. destruct (IH (S off) k acc) as [[-> Hs]|[Hlt Hs]]; [done| |].
    + left. split; [done|]. cbn. by rewrite g_high.
    + right. split; [lia|]. set (n := fold_left _ _ _) in *. clearbody n.
      replace (n - off)%nat with (S (n - S off)) by lia. exact Hs.
Qed.

Lemma TrimSpace_forall s : str_forall g (TrimSpace s) = true -> str_forall g s = true.
Proof.
  intros H. apply (trim_left_forall 0); [by destruct s|]. unfold TrimSpace, trim_right, trim_right_len, range_str in H.
  set (t := trim_left_from 0 s) in *. assert (H0 : str_forall is_high_byte (str_take 0 t) = true) by (by destruct t).
  destruct (trim_right_rest t 0 0 0 H0) as [[_ Ht]|[_ Ht]]; [exact Ht|].
  rewrite Nat.sub_0_r in Ht. set (n := fold_left _ _ _) in *. clearbody n. rewrite <- (str_take_drop n t), str_forall_app. apply andb_true_iff. by split.
Qed.
End Trim.
