(* ===== verification/GoRegexp.v ===== *)
(** * Regular expressions

    The program validates names with [regexp.MustCompile(...)] patterns whose
    character classes are ASCII.  A pattern [^r$] is modelled by a syntax tree
    [r] and [MatchString r s], a derivative matcher over the whole string;
    [MatchString_spec] relates it to the usual inductive semantics. *)
From S2P Require Import Prelude GoStrings.
From stdpp Require Import list strings.
#[local] Set Default Goal Selector "!".
#[local] Open Scope Z_scope.

Inductive re : Type :=
| Void
| Eps
| Cls (f : ascii -> bool)
| Seq (a b : re)
| Alt (a b : re)
| Star (a : re).

(** [r?], [r{n}] and [r{0,n}] *)
Definition Opt (r : re) : re := Alt Eps r.
Fixpoint Rep (n : nat) (r : re) : re :=
  match n with O => Eps | S n' => Seq r (Rep n' r) end.
Fixpoint RepUpTo (n : nat) (r : re) : re :=
  match n with O => Eps | S n' => Alt Eps (Seq r (RepUpTo n' r)) end.

Definition Lit (c : ascii) : re := Cls (Ascii.eqb c).
Fixpoint Lits (s : string) : re :=
  match s with EmptyString => Eps | String c s' => Seq (Lit c) (Lits s') end.

Inductive re_matches : re -> string -> Prop :=
| m_eps : re_matches Eps ""
| m_cls f c : f c = true -> re_matches (Cls f) (String c "")
| m_seq a b s t : re_matches a s -> re_matches b t -> re_matches (Seq a b) (s +:+ t)
| m_alt_l a b s : re_matches a s -> re_matches (Alt a b) s
| m_alt_r a b s : re_matches b s -> re_matches (Alt a b) s
| m_star_nil a : re_matches (Star a) ""
| m_star_cons a s t : re_matches a s -> re_matches (Star a) t -> re_matches (Star a) (s +:+ t).

#[export] Hint Constructors re_matches : ans.

(** ** The matcher *)

Definition mkSeq (a b : re) : re :=
  match a with Void => Void | Eps => b | _ => match b with Void => Void | _ => Seq a b end end.
Definition mkAlt (a b : re) : re :=
  match a with Void => b | _ => match b with Void => a | _ => Alt a b end end.

Fixpoint nullable (r : re) : bool :=
  match r with
  | Void | Cls _ => false
  | Eps | Star _ => true
  | Seq a b => nullable a && nullable b
  | Alt a b => nullable a || nullable b
  end.

Fixpoint deriv (c : ascii) (r : re) : re :=
  match r with
  | Void | Eps => Void
  | Cls f => if f c then Eps else Void
  | Seq a b => let d := mkSeq (deriv c a) b in if nullable a then mkAlt d (deriv c b) else d
  | Alt a b => mkAlt (deriv c a) (deriv c b)
  | Star a => mkSeq (deriv c a) (Star a)
  end.

Fixpoint MatchString (r : re) (s : string) : bool :=
  match s with
  | EmptyString => nullable r
  | String c s' => MatchString (deriv c r) s'
  end.

(** ** Correctness of the matcher *)

Lemma matches_Void s : ~ re_matches Void s.
Proof. inversion 1. Qed.

Lemma matches_Eps s : re_matches Eps s <-> s = "".
Proof. split; [by inversion 1|intros ->; constructor]. Qed.

Lemma matches_Cls f s : re_matches (Cls f) s <-> exists c, s = String c "" /\ f c = true.
Proof. split; [inversion 1; eauto|intros (c & -> & ?); by constructor]. Qed.

Lemma matches_Seq a b u :
  re_matches (Seq a b) u <-> exists s t, u = s +:+ t /\ re_matches a s /\ re_matches b t.
Proof. split; [inversion 1; subst; eauto 6|intros (s & t & -> & ? & ?); by constructor]. Qed.

Lemma matches_Alt a b s : re_matches (Alt a b) s <-> re_matches a s \/ re_matches b s.
Proof. split; [inversion 1; subst; auto|intros [?|?]; eauto with ans]. Qed.

Lemma matches_mkSeq a b s : re_matches (mkSeq a b) s <-> re_matches (Seq a b) s.
Proof.
  assert (re_matches (Seq Void b) s <-> re_matches Void s).
  { rewrite matches_Seq. split; [intros (? & ? & -> & H & _); by inversion H|by inversion 1]. }
  assert (re_matches (Seq Eps b) s <-> re_matches b s).
  { rewrite matches_Seq. split.
    - intros (? & ? & -> & ->%matches_Eps & ?). done.
    - intros ?. exists "", s. split_and!; [done|constructor|done]. }
  assert (forall a, re_matches (Seq a Void) s <-> re_matches Void s).
  { intros a'. rewrite matches_Seq. split; [intros (? & ? & -> & _ & H'); by inversion H'|by inversion 1]. }
  destruct a, b; simpl; naive_solver.
Qed.

Lemma matches_mkAlt a b s : re_matches (mkAlt a b) s <-> re_matches (Alt a b) s.
Proof.
  rewrite matches_Alt. pose proof (matches_Void s) as Hv.
  destruct a, b; simpl; rewrite ?matches_Alt; naive_solver.
Qed.

Lemma nullable_spec r : nullable r = true <-> re_matches r "".
Proof.
  induction r as [| |f|a IHa b IHb|a IHa b IHb|a IHa]; simpl.
  - split; [done|by intros ?%matches_Void].
  - split; [constructor|done].
  - split; [done|]. intros (c & [=] & _)%matches_Cls.
  - rewrite andb_true_iff, IHa, IHb, matches_Seq. split.
    + intros [? ?]. exists "", "". done.
    + intros (s & t & [-> ->]%eq_sym%app_eq_nil_s & ? & ?). done.
  - rewrite orb_true_iff, IHa, IHb. by rewrite matches_Alt.
  - split; [constructor|done].
Qed.

Lemma star_cons_inv a c s :
  re_matches (Star a) (String c s) ->
  exists s1 s2, s = s1 +:+ s2 /\ re_matches a (String c s1) /\ re_matches (Star a) s2.
Proof.
  intros H. remember (Star a) as r eqn:Er. remember (String c s) as u eqn:Eu.
  revert c s Eu. induction H as [| | | | | |a' s1 t H1 _ H2 IH]; intros c1 s0 Eu; simplify_eq.
  destruct s1 as [|d s1].
  - rewrite app_nil_l_s in Eu. naive_solver.
  - rewrite app_cons_s in Eu. simplify_eq. eauto.
Qed.

Lemma deriv_spec c r s : re_matches (deriv c r) s <-> re_matches r (String c s).
Proof.
  revert s. induction r as [| |f|a IHa b IHb|a IHa b IHb|a IHa]; intros s; simpl.
  - split; intros H%matches_Void; done.
  - split; [by intros ?%matches_Void|by intros ?%matches_Eps].
  - rewrite matches_Cls. destruct (f c) eqn:E.
    + rewrite matches_Eps. split; [intros ->; eauto|intros (d & [=] & _); done].
    + split; [by intros ?%matches_Void|intros (d & [= -> ->] & ?); congruence].
  - assert (re_matches (mkSeq (deriv c a) b) s <->
            exists s1 s2, s = s1 +:+ s2 /\ re_matches a (String c s1) /\ re_matches b s2) as Hd.
    { rewrite matches_mkSeq, matches_Seq. by setoid_rewrite IHa. }
    rewrite matches_Seq. destruct (nullable a) eqn:En.
    + rewrite matches_mkAlt, matches_Alt, Hd, IHb. apply nullable_spec in En. split.
      * intros [(s1 & s2 & -> & ? & ?)|?]; [by exists (String c s1), s2|by exists "", (String c s)].
      * intros (s1 & s2 & Eq & ? & ?). destruct s1 as [|d s1].
        -- rewrite app_nil_l_s in Eq. subst. by right.
        -- rewrite app_cons_s in Eq. simplify_eq. left. eauto.
    + rewrite Hd. split.
      * intros (s1 & s2 & -> & ? & ?). by exists (String c s1), s2.
      * intros (s1 & s2 & Eq & Ha & ?). destruct s1 as [|d s1].
        -- apply nullable_spec in Ha. congruence.
        -- rewrite app_cons_s in Eq. simplify_eq. eauto.
  - by rewrite matches_mkAlt, !matches_Alt, IHa, IHb.
  - rewrite matches_mkSeq, matches_Seq. setoid_rewrite IHa. split.
    + intros (s1 & s2 & -> & ? & ?). change (String c (s1 +:+ s2)) with (String c s1 +:+ s2).
      by constructor.
    + apply star_cons_inv.
Qed.

Lemma MatchString_spec r s : MatchString r s = true <-> re_matches r s.
Proof.
  revert r. induction s as [|c s IH]; intros r; cbn [MatchString]; [apply nullable_spec|].
  by rewrite IH, deriv_spec.
Qed.

(** ** Derived forms *)

Lemma matches_Star_Cls f s : re_matches (Star (Cls f)) s <-> str_forall f s = true.
Proof.
  split.
  - induction s as [|c s IH]; [done|]. intros (s1 & s2 & -> & (d & [= -> ->] & Hd)%matches_Cls & H)%star_cons_inv.
    rewrite app_nil_l_s in *. simpl. by rewrite Hd, IH.
  - induction s as [|c s IH]; [constructor|]. simpl. intros [Hc Hs]%andb_true_iff.
    change (String c s) with (String c "" +:+ s). constructor; [by constructor|auto].
Qed.

Lemma matches_Lit c s : re_matches (Lit c) s <-> s = String c "".
Proof.
  unfold Lit. rewrite matches_Cls. split; [by intros (d & -> & ->%Ascii.eqb_eq)|].
  intros ->. exists c. by rewrite Ascii.eqb_refl.
Qed.

Lemma matches_Lits s u : re_matches (Lits s) u <-> u = s.
Proof.
  revert u. induction s as [|c s IH]; intros u; simpl; [apply matches_Eps|].
  rewrite matches_Seq. setoid_rewrite matches_Lit. setoid_rewrite IH. split.
  - intros (? & ? & -> & -> & ->). done.
  - intros ->. by exists (String c ""), s.
Qed.

Lemma matches_Rep_Cls n f s :
  re_matches (Rep n (Cls f)) s <-> String.length s = n /\ str_forall f s = true.
Proof.
  revert s. induction n as [|n IH]; intros s; simpl.
  - rewrite matches_Eps. split; [by intros ->|intros [? _]; by destruct s].
  - rewrite matches_Seq. setoid_rewrite matches_Cls. setoid_rewrite IH. split.
    + intros (? & t & -> & (c & -> & Hc) & <- & Ht).
      rewrite app_cons_s, app_nil_l_s. simpl. by rewrite Hc, Ht.
    + intros [Hl Hf]. destruct s as [|c s]; [done|]. simpl in *. apply andb_true_iff in Hf as [? ?].
      exists (String c ""), s. split_and!; [done|by eauto|lia|done].
Qed.

Lemma matches_RepUpTo_Cls n f s :
  re_matches (RepUpTo n (Cls f)) s <-> (String.length s <= n)%nat /\ str_forall f s = true.
Proof.
  revert s. induction n as [|n IH]; intros s; simpl.
  - rewrite matches_Eps. split; [intros ->; simpl; by split; [lia|]|]. intros [? _]. destruct s; simpl in *; [done|lia].
  - rewrite matches_Alt, matches_Eps, matches_Seq. setoid_rewrite matches_Cls. setoid_rewrite IH. split.
    + intros [->|(? & t & -> & (c & -> & Hc) & ? & Ht)]; [simpl; split; [lia|done]|].
      rewrite app_cons_s, app_nil_l_s. simpl. rewrite Hc, Ht. split; [lia|done].
    + intros [Hl Hf]. destruct s as [|c s]; [by left|]. right. simpl in *.
      apply andb_true_iff in Hf as [? ?]. exists (String c ""), s.
      split_and!; [done|by eauto|lia|done].
Qed.
