(* ===== verification/Concurrent.v ===== *)
(** Concurrent request handlers over a shared world.

    The servers handle requests concurrently; a handler interacts with the rest
    of the system only through database transactions, which the store serialises
    (one connection, [SetMaxOpenConns(1)]), and calls to other services.  A
    handler is therefore a sequence of atomic steps on a shared world [W],
    between which other handlers may run: a resumption.

    [safe] is the rely-guarantee argument: a handler is safe when each of its
    steps, started in any world that satisfies the invariant [Inv] and that other
    handlers may have produced ([Rel]), re-establishes [Inv] and is itself
    allowed by [Rel].  [pool_safe]: any number of safe handlers, interleaved in
    any way, keep the invariant. *)
From stdpp Require Import relations.
From S2P Require Import Prelude.

#[local] Set Default Goal Selector "!".

Inductive prog (W A : Type) : Type :=
| Ret (a : A)
| Step (B : Type) (f : W -> B * W) (k : B -> prog W A).
Arguments Ret {W A} a.
Arguments Step {W A B} f k.

Fixpoint prog_bind {W A B} (p : prog W A) (g : A -> prog W B) : prog W B :=
  match p with
  | Ret a => g a
  | Step f k => Step f (fun b => prog_bind (k b) g)
  end.

Definition prog_map {W A B} (g : A -> B) (p : prog W A) : prog W B := prog_bind p (fun a => Ret (g a)).

(** One step of a handler; a finished handler stays where it is. *)
Definition step1 {W A} (p : prog W A) (w : W) : prog W A * W :=
  match p with
  | Ret a => (Ret a, w)
  | Step f k => let '(b, w') := f w in (k b, w')
  end.

(** A handler running alone. *)
Fixpoint run {W A} (p : prog W A) (w : W) : A * W :=
  match p with
  | Ret a => (a, w)
  | Step f k => let '(b, w') := f w in run (k b) w'
  end.

Definition finished {W A} (p : prog W A) : option A := match p with Ret a => Some a | _ => None end.

(** ** Interleavings *)

Section Pool.
Context {W A : Type}.
Implicit Types (w : W) (ps : list (prog W A)).

(** The handler at position [i] takes a step. *)
Definition sched1 (c : list (prog W A) * W) (i : nat) : list (prog W A) * W :=
  match c.1 !! i with
  | Some p => let '(p', w') := step1 p c.2 in (<[i := p']> c.1, w')
  | None => c
  end.

Definition sched (c : list (prog W A) * W) (is_ : list nat) : list (prog W A) * W := fold_left sched1 is_ c.

(** Handlers arrive at any time and run interleaved. *)
Inductive pool_step (arrives : prog W A -> Prop) : list (prog W A) * W -> list (prog W A) * W -> Prop :=
| pool_arrive ps w p : arrives p -> pool_step arrives (ps, w) (ps ++ [p], w)
| pool_run ps w i : pool_step arrives (ps, w) (sched1 (ps, w) i).

End Pool.

(** ** Rely and guarantee *)

Section Safe.
Context {W : Type} (Inv : W -> Prop) (Rel : relation W) `{!PreOrder Rel}.

(** [safe p Q w]: from any later world each step of [p] keeps the invariant and
    the relation; if [p] finishes, [Q] holds of its result and the world of its
    last step. *)
Fixpoint safe {A} (p : prog W A) (Q : A -> W -> Prop) (w : W) : Prop :=
  match p with
  | Ret a => Q a w
  | Step f k => forall w', Rel w w' -> Inv w' ->
      Inv (f w').2 /\ Rel w' (f w').2 /\ safe (k (f w').1) Q (f w').2
  end.

Lemma safe_mono {A} (p : prog W A) (Q Q' : A -> W -> Prop) w :
  (forall a w', Rel w w' -> Q a w' -> Q' a w') -> safe p Q w -> safe p Q' w.
Proof.
  revert w. induction p as [a|B f k IH]; intros w HQ; cbn; [apply HQ; done|].
  intros Hs w' R I. destruct (Hs w' R I) as (I' & R' & Hk). split_and!; [done..|].
  apply IH; [|done]. intros a w2 R2. apply HQ. by etrans; [|etrans].
Qed.

Lemma safe_bind {A B} (p : prog W A) (g : A -> prog W B) Q w :
  safe p (fun a w' => safe (g a) Q w') w -> safe (prog_bind p g) Q w.
Proof.
  revert w. induction p as [a|C f k IH]; intros w; cbn; [done|].
  intros Hs w' R I. destruct (Hs w' R I) as (I' & R' & Hk). eauto.
Qed.

(** The world a handler ends in is a later one. *)
Lemma safe_rel {A} (p : prog W A) Q w : safe p Q w -> safe p (fun a w' => Rel w w' /\ Q a w') w.
Proof.
  revert w. induction p as [a|B f k IH]; intros w; cbn; [by split; [reflexivity|]|].
  intros Hs w' R I. destruct (Hs w' R I) as (I' & R' & Hk). split_and!; [done..|].
  eapply safe_mono; [|by apply IH]. cbn. intros a w2 R2 [_ HQ]. split; [|done]. by etrans; [|etrans].
Qed.

(** What other handlers do keeps a handler safe, as long as what it wants to
    conclude is stable. *)
Lemma safe_later {A} (p : prog W A) (Q : A -> W -> Prop) w w' :
  (forall a u v, Q a u -> Rel u v -> Q a v) -> Rel w w' -> safe p Q w -> safe p Q w'.
Proof.
  intros HQ R. destruct p as [a|B f k]; cbn; [eauto|].
  intros Hs w2 R2 I. apply Hs; [|done]. by etrans.
Qed.

Lemma safe_step1 {A} (p : prog W A) Q w :
  Inv w -> safe p Q w -> Inv (step1 p w).2 /\ Rel w (step1 p w).2 /\ safe (step1 p w).1 Q (step1 p w).2.
Proof.
  destruct p as [a|B f k]; cbn; [done|]. intros I Hs. destruct (Hs w ltac:(reflexivity) I) as (I' & R' & Hk).
  destruct (f w) as [b w1]. done.
Qed.

Definition pool_ok {A} (ps : list (prog W A)) (w : W) : Prop := Forall (fun p => safe p (fun _ _ => True) w) ps.

Lemma pool_step_ok {A} arrives (c c' : list (prog W A) * W) :
  (forall p w, arrives p -> Inv w -> safe p (fun _ _ => True) w) ->
  Inv c.2 -> pool_ok c.1 c.2 -> pool_step arrives c c' -> Inv c'.2 /\ Rel c.2 c'.2 /\ pool_ok c'.1 c'.2.
Proof.
  intros Harr I Hok Hst. destruct Hst as [ps w p Hp|ps w i]; cbn in *.
  - split_and!; [done|reflexivity|]. apply Forall_app; split; [done|]. by constructor; [apply Harr|].
  - unfold sched1; cbn. destruct (ps !! i) as [p|] eqn:E; [|done]. cbn.
    pose proof (Forall_lookup_1 _ _ _ _ Hok E) as Hp.
    destruct (safe_step1 p _ w I Hp) as (I' & R' & Hs'). destruct (step1 p w) as [p' w']. cbn in *.
    split_and!; [done..|]. apply Forall_insert; [|done].
    eapply Forall_impl; [exact Hok|]. intros q Hq. eapply safe_later; [done| |exact Hq]. done.
Qed.

(** Safe handlers keep the invariant under every interleaving. *)
Lemma pool_safe {A} arrives (c c' : list (prog W A) * W) :
  (forall p w, arrives p -> Inv w -> safe p (fun _ _ => True) w) ->
  Inv c.2 -> pool_ok c.1 c.2 -> rtc (pool_step arrives) c c' -> Inv c'.2 /\ Rel c.2 c'.2.
Proof.
  intros Harr I Hok Hrun. revert I Hok. induction Hrun as [c|c c1 c2 Hst _ IH]; intros I Hok; [done|].
  destruct (pool_step_ok arrives c c1 Harr I Hok Hst) as (I' & R' & Hok').
  destruct (IH I' Hok') as [I2 R2]. split; [done|]. by etrans.
Qed.

(** A handler running alone. *)
Lemma run_safe {A} (p : prog W A) Q w :
  Inv w -> safe p Q w -> Inv (run p w).2 /\ Rel w (run p w).2 /\ Q (run p w).1 (run p w).2.
Proof.
  revert w. induction p as [a|B f k IH]; intros w I; cbn; [done|]. intros Hs.
  destruct (Hs w ltac:(reflexivity) I) as (I' & R' & Hk). destruct (f w) as [b w1]; cbn in *.
  destruct (IH b w1 I' Hk) as (? & ? & ?). split_and!; [done| |done]. by etrans.
Qed.

End Safe.

(** A schedule is an interleaving. *)
Lemma sched_rtc {W A} arrives (is_ : list nat) (c : list (prog W A) * W) : rtc (pool_step arrives) c (sched c is_).
Proof.
  revert c. induction is_ as [|i is_ IH]; intros [ps w]; cbn; [reflexivity|].
  eapply rtc_l; [apply pool_run|apply IH].
Qed.

Lemma arrive_all {W A} (arrives : prog W A -> Prop) (qs ps : list (prog W A)) (w : W) :
  Forall arrives qs -> rtc (pool_step arrives) (ps, w) (ps ++ qs, w).
Proof.
  revert ps. induction qs as [|q qs IH]; intros ps Hq; [by rewrite app_nil_r|].
  apply Forall_cons in Hq as [Hq Hqs]. eapply rtc_l; [by apply pool_arrive|].
  replace (ps ++ q :: qs) with ((ps ++ [q]) ++ qs) by (by rewrite <- app_assoc). by apply IH.
Qed.
