(* ===== verification/ConcurrentOwn.v ===== *)
(** Handlers that own a fresh name.

    Some handlers draw a name no other handler draws (a UUID).  The argument of
    [Concurrent] is repeated with such tokens: what a handler with token [t] may
    do is [G t], what it must tolerate of the others is [R t]; a guarantee of
    another token implies the rely.  A handler that draws no name has the token
    [None], which any number of handlers share.  [lift_prog] runs a handler of
    one component in a larger world. *)
From stdpp Require Import relations.
From S2P Require Import Prelude Concurrent.

#[local] Set Default Goal Selector "!".

(** Handlers with their tokens. *)
Notation opool W T A := (list (option T * prog W A)).

Section Own.
Context {W T : Type} (Inv : W -> Prop) (G R : option T -> relation W).
Context `{!forall t, PreOrder (R t)}.
Context (GR : forall t t' w w', G t w w' -> t = None \/ t <> t' -> R t' w w').

(** The names in use; a handler adds at most its own. *)
Context (names : W -> list T) (G_names : forall t w w' x, G t w w' -> x ∈ names w' -> x ∈ names w \/ t = Some x).

Fixpoint osafe {A} (t : option T) (p : prog W A) (Q : A -> W -> Prop) (w : W) : Prop :=
  match p with
  | Ret a => Q a w
  | Step f k => forall w', R t w w' -> Inv w' ->
      Inv (f w').2 /\ G t w' (f w').2 /\ osafe t (k (f w').1) Q (f w').2
  end.

Lemma osafe_mono {A} t (p : prog W A) (Q Q' : A -> W -> Prop) w : (forall a w', Q a w' -> Q' a w') -> osafe t p Q w -> osafe t p Q' w.
Proof.
  intros HQ. revert w. induction p as [a|B f k IH]; intros w; cbn; [apply HQ|].
  intros Hs w' HR HI. destruct (Hs w' HR HI) as (I' & G' & Hk). split_and!; [done..|by apply IH].
Qed.

Lemma osafe_bind {A B} t (p : prog W A) (g : A -> prog W B) Q w :
  osafe t p (fun a w' => osafe t (g a) Q w') w -> osafe t (prog_bind p g) Q w.
Proof.
  revert w. induction p as [a|C f k IH]; intros w; cbn; [done|].
  intros Hs w' HR HI. destruct (Hs w' HR HI) as (I' & G' & Hk). split_and!; [done..|by apply IH].
Qed.

Lemma osafe_later {A} t (p : prog W A) w w' : R t w w' -> osafe t p (fun _ _ => True) w -> osafe t p (fun _ _ => True) w'.
Proof. intros HR. destruct p as [a|B f k]; cbn; [done|]. intros Hs w2 R2 HI. apply Hs; [by etrans|done]. Qed.

(** *** Interleavings *)

Definition osched1 {A} (c : opool W T A * W) (i : nat) : opool W T A * W :=
  match c.1 !! i with
  | Some (t, p) => let '(p', w') := step1 p c.2 in (<[i := (t, p')]> c.1, w')
  | None => c
  end.

Definition osched {A} (c : opool W T A * W) (is_ : list nat) : opool W T A * W := fold_left osched1 is_ c.

(** Handlers arrive with names nobody drew before, and run interleaved. *)
Inductive opool_step {A} (arrives : option T -> prog W A -> Prop) : opool W T A * W -> opool W T A * W -> Prop :=
| opool_arrive ps w t p : arrives t p -> t = None \/ t ∉ ps.*1 -> opool_step arrives (ps, w) (ps ++ [(t, p)], w)
| opool_run ps w i : opool_step arrives (ps, w) (osched1 (ps, w) i).

Definition opool_ok {A} (ps : opool W T A) (w : W) : Prop :=
  Forall (fun tp => osafe tp.1 tp.2 (fun _ _ => True) w) ps /\
  (forall i j t, ps.*1 !! i = Some (Some t) -> ps.*1 !! j = Some (Some t) -> i = j) /\
  (forall x, x ∈ names w -> Some x ∈ ps.*1).

Lemma osched1_ok {A} (ps : opool W T A) w i : Inv w -> opool_ok ps w -> Inv (osched1 (ps, w) i).2 /\ opool_ok (osched1 (ps, w) i).1 (osched1 (ps, w) i).2.
Proof.
  intros HI (Hok & Huniq & Hnames). unfold osched1. cbn [fst snd]. destruct (ps !! i) as [[t p]|] eqn:E; [|done].
  pose proof (Forall_lookup_1 _ _ _ _ Hok E) as Hp. cbn [fst snd] in Hp.
  assert (Inv (step1 p w).2 /\ (G t w (step1 p w).2 \/ (step1 p w).2 = w) /\ osafe t (step1 p w).1 (fun _ _ => True) (step1 p w).2) as (HI' & HG & Hp').
  { destruct p as [a|B f k]; cbn; [by auto|]. destruct (Hp w ltac:(reflexivity) HI) as (H1 & H2 & H3). destruct (f w) as [b w1]. cbn in *. auto. }
  destruct (step1 p w) as [p' w']. cbn [fst snd] in *. split; [done|].
  assert ((<[i := (t, p')]> ps).*1 = ps.*1) as Etok. { rewrite list_fmap_insert. cbn [fst]. rewrite list_insert_id; [done|]. by rewrite list_lookup_fmap, E. }
  split; [|rewrite Etok; split; [done|]].
  - apply Forall_lookup. intros j [t' q] Hj. destruct (decide (i = j)) as [<-|Hne].
    { rewrite list_lookup_insert_eq in Hj by (by eapply lookup_lt_Some). by injection Hj as <- <-. }
    rewrite list_lookup_insert_ne in Hj by done. pose proof (Forall_lookup_1 _ _ _ _ Hok Hj) as Hq. cbn [fst snd] in *.
    eapply osafe_later; [|exact Hq]. destruct HG as [HG| ->]; [|reflexivity]. apply (GR t); [done|]. destruct t as [t|]; [right|by left]. intros <-.
    apply Hne, (Huniq i j t); rewrite list_lookup_fmap; [by rewrite E|by rewrite Hj].
  - intros x Hx. destruct HG as [HG| ->]; [|by apply Hnames]. destruct (G_names t w w' x HG Hx) as [|Et]; [by apply Hnames|].
    apply list_elem_of_lookup_2 with i. rewrite list_lookup_fmap, E. cbn. by rewrite Et.
Qed.

Lemma opool_step_ok {A} arrives (c c' : opool W T A * W) :
  (forall t p w, arrives t p -> Inv w -> (forall x, t = Some x -> x ∉ names w) -> osafe t p (fun _ _ => True) w) ->
  Inv c.2 -> opool_ok c.1 c.2 -> opool_step arrives c c' -> Inv c'.2 /\ opool_ok c'.1 c'.2.
Proof.
  intros Harr HI Hok Hst. destruct Hst as [ps w t p Hp Hfresh|ps w i]; cbn [fst snd] in *; [|by apply osched1_ok].
  destruct Hok as (Hok & Huniq & Hnames). split; [done|]. split; [|split].
  - apply Forall_app. split; [done|]. constructor; [|done]. apply Harr; [done..|]. intros x Et Hx%Hnames. cbn in Et. subst t. by destruct Hfresh.
  - intros i j u. rewrite fmap_app. cbn [fmap list_fmap fst]. intros Hi Hj.
    assert (forall k, (ps.*1 ++ [t]) !! k = Some (Some u) -> (ps.*1 !! k = Some (Some u) /\ (k < length ps)%nat) \/ (k = length ps /\ t = Some u)) as HK.
    { intros k Hk. apply lookup_app_Some in Hk as [Hk|[Hle Hk]].
      - left. split; [done|]. apply lookup_lt_Some in Hk. by rewrite length_fmap in Hk.
      - right. apply list_lookup_singleton_Some in Hk as [E ->]. rewrite length_fmap in *. split; [lia|done]. }
    destruct (HK i Hi) as [[Hi' ?]|[-> Ei]], (HK j Hj) as [[Hj' ?]|[-> Ej]]; [by eapply Huniq| | |done];
      subst t; destruct Hfresh as [Hf|Hf]; try done; exfalso; apply Hf; by eapply list_elem_of_lookup_2.
  - intros x Hx. rewrite fmap_app. apply elem_of_app. left. by apply Hnames.
Qed.

Lemma opool_safe {A} arrives (c c' : opool W T A * W) :
  (forall t p w, arrives t p -> Inv w -> (forall x, t = Some x -> x ∉ names w) -> osafe t p (fun _ _ => True) w) ->
  Inv c.2 -> opool_ok c.1 c.2 -> rtc (opool_step arrives) c c' -> Inv c'.2 /\ opool_ok c'.1 c'.2.
Proof.
  intros Harr HI Hok Hrun. revert HI Hok. induction Hrun as [c|c c1 c2 Hst _ IH]; intros HI Hok; [done|].
  destruct (opool_step_ok arrives c c1 Harr HI Hok Hst) as [HI' Hok']. by apply IH.
Qed.

(** What every step does holds between any world and a later one. *)
Lemma opool_rel {A} arrives (Rl : relation W) `{!PreOrder Rl} (c c' : opool W T A * W) :
  (forall t w w', G t w w' -> Rl w w') ->
  (forall t p w, arrives t p -> Inv w -> (forall x, t = Some x -> x ∉ names w) -> osafe t p (fun _ _ => True) w) ->
  Inv c.2 -> opool_ok c.1 c.2 -> rtc (opool_step arrives) c c' -> Rl c.2 c'.2.
Proof.
  intros HGR Harr HI Hok Hrun. revert HI Hok. induction Hrun as [c|c c1 c2 Hst _ IH]; intros HI Hok; [reflexivity|].
  destruct (opool_step_ok arrives c c1 Harr HI Hok Hst) as [HI' Hok']. etrans; [|by apply IH]. destruct Hst as [ps w t p _ _|ps w i]; [reflexivity|]. cbn [fst snd] in *.
  unfold osched1. cbn [fst snd]. destruct (ps !! i) as [[t p]|] eqn:E; [|reflexivity]. pose proof (Forall_lookup_1 _ _ _ _ (proj1 Hok) E) as Hp. cbn [fst snd] in Hp.
  destruct p as [a|B f k]; cbn; [reflexivity|]. destruct (Hp w ltac:(reflexivity) HI) as (_ & HG & _). destruct (f w) as [b w1]. by eapply HGR.
Qed.
End Own.

Lemma osched_rtc {W T A} arrives (is_ : list nat) (c : opool W T A * W) : rtc (opool_step arrives) c (osched c is_).
Proof. revert c. induction is_ as [|i is_ IH]; intros [ps w]; cbn; [reflexivity|]. eapply rtc_l; [apply opool_run|apply IH]. Qed.

(** Handlers that may arrive in this order. *)
Fixpoint may_arrive {W T A} (arrives : option T -> prog W A -> Prop) (drawn : list (option T)) (qs : opool W T A) : Prop :=
  match qs with [] => True | (t, q) :: qs' => arrives t q /\ (t = None \/ t ∉ drawn) /\ may_arrive arrives (drawn ++ [t]) qs' end.

Lemma oarrive_all {W T A} (arrives : option T -> prog W A -> Prop) (qs ps : opool W T A) (w : W) :
  may_arrive arrives ps.*1 qs -> rtc (opool_step arrives) (ps, w) (ps ++ qs, w).
Proof.
  revert ps. induction qs as [|[t q] qs IH]; intros ps Hq; [by rewrite app_nil_r|]. destruct Hq as (Hq & Ht & Hqs).
  eapply rtc_l; [by apply opool_arrive|]. replace (ps ++ (t, q) :: qs) with ((ps ++ [(t, q)]) ++ qs) by (by rewrite <-app_assoc). apply IH. by rewrite fmap_app.
Qed.

Lemma may_arrive_distinct {W T A} (arrives : option T -> prog W A -> Prop) (qs : opool W T A) (drawn : list (option T)) :
  Forall (fun tq => arrives tq.1 tq.2) qs -> NoDup (omap id (drawn ++ qs.*1)) -> may_arrive arrives drawn qs.
Proof.
  revert drawn. induction qs as [|[t q] qs IH]; intros drawn HF HN; cbn; [done|]. inversion_clear HF as [|? ? H1 H2]. cbn [fmap list_fmap fst] in HN.
  split; [exact H1|]. split; [|apply IH; [done|]; by rewrite <- app_assoc].
  destruct t as [t|]; [right|by left]. rewrite omap_app in HN. cbn in HN. intros Hin. apply NoDup_app in HN as (_ & HN & _).
  apply (HN t); [|left]. apply list_elem_of_omap. by exists (Some t).
Qed.

(** ** A component inside a larger world *)

Fixpoint lift_prog {V W A} (get : W -> V) (put : V -> W -> W) (p : prog V A) : prog W A :=
  match p with
  | Ret a => Ret a
  | Step f k => Step (fun w => let '(b, v) := f (get w) in (b, put v w)) (fun b => lift_prog get put (k b))
  end.

Section Lift.
Context {V W T : Type} (get : W -> V) (put : V -> W -> W) (get_put : forall v w, get (put v w) = v).
Context (InvV : V -> Prop) (RelV : relation V) `{!PreOrder RelV} (Inv : W -> Prop) (G R : option T -> relation W).
Context (inv_get : forall w, Inv w -> InvV (get w)).
Context (rel_get : forall t w w', R t w w' -> RelV (get w) (get w')).
Context (put_ok : forall t w v, Inv w -> InvV v -> RelV (get w) v -> Inv (put v w) /\ G t w (put v w)).

Lemma lift_safe {A} t (p : prog V A) w : safe InvV RelV p (fun _ _ => True) (get w) -> osafe Inv G R t (lift_prog get put p) (fun _ _ => True) w.
Proof.
  revert w. induction p as [a|B f k IH]; intros w Hs; cbn; [done|]. intros w' HR HI.
  destruct (Hs (get w') (rel_get _ _ _ HR) (inv_get _ HI)) as (I' & R' & Hk). destruct (f (get w')) as [b v]. cbn [fst snd] in *.
  destruct (put_ok t w' v HI I' R') as [H1 H2]. split_and!; [done..|]. apply IH. by rewrite get_put.
Qed.
End Lift.
