(* ===== verification/DomainErrors.v ===== *)
(** * Domain errors

    [internal/domain/errors.go]: an error wraps a sentinel, used for
    classification, and carries a machine-readable code.  The human-readable
    message and the [RetryAfter] hint are not modelled: no code branches on
    them. *)
From S2P Require Import Prelude.
From stdpp Require Import strings.

Inductive Sentinel : Type :=
| ErrNotFound | ErrConflict | ErrInvalidState | ErrValidation
| ErrUnauthorized | ErrCertificate | ErrInternal | ErrUnavailable.

Record Error : Type := MkError { Code : string; Cause : Sentinel }.

#[export] Instance Sentinel_eq_dec : EqDecision Sentinel.
Proof. solve_decision. Defined.
#[export] Instance Error_eq_dec : EqDecision Error.
Proof. solve_decision. Defined.

Definition NewValidationError (code : string) : Error := MkError code ErrValidation.
Definition NewNotFoundError (code : string) : Error := MkError code ErrNotFound.
Definition NewConflictError (code : string) : Error := MkError code ErrConflict.
Definition NewInvalidStateError (code : string) : Error := MkError code ErrInvalidState.
Definition NewCertificateError (code : string) : Error := MkError code ErrCertificate.
Definition NewUnauthorizedError (code : string) : Error := MkError code ErrUnauthorized.
(** The wrapped cause is kept in Go for logging; classification sees [ErrInternal]. *)
Definition NewInternalError (code : string) : Error := MkError code ErrInternal.
Definition NewUnavailableError (code : string) : Error := MkError code ErrUnavailable.

(** [errors.Is(err, sentinel)] on a domain error. *)
Definition errors_Is (e : Error) (k : Sentinel) : bool := bool_decide (Cause e = k).

(** Errors of the service layers: domain errors, and errors of other packages,
    which carry no domain classification. *)
Inductive serr := Dom (e : Error) | Other (what : string).

Definition is_not_found (e : serr) : bool := match e with Dom d => errors_Is d ErrNotFound | Other _ => false end.
