(* ===== verification/SemVer.v ===== *)
(** * Semantic versions and version ranges

    [internal/domain/semver.go] and [internal/domain/versionrange.go]. *)
From S2P Require Import Prelude GoStrings GoRegexp DomainErrors.
From stdpp Require Import list strings.
#[local] Set Default Goal Selector "!".
#[local] Open Scope Z_scope.

(** ** Versions *)

Record SimplifiedSemVer : Type := MkSemVer { major : Z; minor : Z; patch : Z }.

#[export] Instance SimplifiedSemVer_eq_dec : EqDecision SimplifiedSemVer.
Proof. solve_decision. Defined.

Definition zeroSemVer : SimplifiedSemVer := MkSemVer 0 0 0.

(** A zero, or a digit 1-9 followed by digits. *)
Definition numericIdentifier : re :=
  Alt (Lit "0") (Seq (Cls (fun c => inR 49 (byteZ c) 57)) (Star (Cls is_digit))).

(** [semverPattern]: three such identifiers separated by dots, anchored. *)
Definition semverPattern : re :=
  Seq numericIdentifier (Seq (Lit ".") (Seq numericIdentifier (Seq (Lit ".") numericIdentifier))).

Definition NewSemVer (mj mn pt : Z) : result Error SimplifiedSemVer :=
  if (mj <? 0) || (mn <? 0) || (pt <? 0) then Err (NewValidationError "INVALID_SEMVER")
  else Ok (MkSemVer mj mn pt).

(** The three [strconv.Atoi] errors are dropped, as in the source: an
    out-of-range component takes the clamped value. *)
Definition ParseSemVer (s : string) : result Error SimplifiedSemVer :=
  if negb (MatchString semverPattern s) then Err (NewValidationError "MALFORMED_SEMVER")
  else match Split s "." with
       | p0 :: p1 :: p2 :: _ => Ok (MkSemVer (fst (Atoi p0)) (fst (Atoi p1)) (fst (Atoi p2)))
       | _ => Err (NewValidationError "MALFORMED_SEMVER")
       end.

Definition SemVer_String (v : SimplifiedSemVer) : string :=
  Itoa (major v) +:+ "." +:+ Itoa (minor v) +:+ "." +:+ Itoa (patch v).

Definition cmpInt (a b : Z) : Z := if a <? b then -1 else if b <? a then 1 else 0.

Definition SemVer_Compare (v other : SimplifiedSemVer) : Z :=
  if negb (major v =? major other) then cmpInt (major v) (major other)
  else if negb (minor v =? minor other) then cmpInt (minor v) (minor other)
  else cmpInt (patch v) (patch other).

Definition SemVer_GreaterThan (v other : SimplifiedSemVer) : bool := 0 <? SemVer_Compare v other.
Definition SemVer_Equal (v other : SimplifiedSemVer) : bool := SemVer_Compare v other =? 0.
Definition SemVer_IsZero (v : SimplifiedSemVer) : bool :=
  (major v =? 0) && (minor v =? 0) && (patch v =? 0).

(** ** Version ranges *)

(** The [default] branches of the Go switches are for integers outside the
    [iota] block; [rangeType] is unexported and only set to these four. *)
Inductive VersionRangeType : Type :=
| VersionRangeWildcard | VersionRangeExact | VersionRangeCaret | VersionRangeTilde.

Record VersionRange : Type := MkVersionRange { rangeType : VersionRangeType; version : SimplifiedSemVer }.

#[export] Instance VersionRangeType_eq_dec : EqDecision VersionRangeType.
Proof. solve_decision. Defined.
#[export] Instance VersionRange_eq_dec : EqDecision VersionRange.
Proof. solve_decision. Defined.

Definition parseRangeBase (ty : VersionRangeType) (s : string) : result Error VersionRange :=
  match ParseSemVer s with
  | Ok v => Ok (MkVersionRange ty v)
  | Err _ => Err (NewValidationError "INVALID_VERSION_RANGE")
  end.

Definition ParseVersionRange (s0 : string) : result Error VersionRange :=
  let s := TrimSpace s0 in
  if String.eqb s "" || String.eqb s "*" then Ok (MkVersionRange VersionRangeWildcard zeroSemVer)
  else if HasPrefix s "^" then parseRangeBase VersionRangeCaret (str_drop 1 s)
  else if HasPrefix s "~" then parseRangeBase VersionRangeTilde (str_drop 1 s)
  else parseRangeBase VersionRangeExact s.

Definition matchesCaret (r : VersionRange) (v : SimplifiedSemVer) : bool :=
  let base := version r in
  if SemVer_Compare v base <? 0 then false
  else if 0 <? major base then major v =? major base
  else if 0 <? minor base then (major v =? 0) && (minor v =? minor base)
  else SemVer_Equal v base.

Definition matchesTilde (r : VersionRange) (v : SimplifiedSemVer) : bool :=
  if SemVer_Compare v (version r) <? 0 then false
  else (major v =? major (version r)) && (minor v =? minor (version r)).

Definition VersionRange_Matches (r : VersionRange) (v : SimplifiedSemVer) : bool :=
  match rangeType r with
  | VersionRangeWildcard => true
  | VersionRangeExact => SemVer_Equal v (version r)
  | VersionRangeCaret => matchesCaret r v
  | VersionRangeTilde => matchesTilde r v
  end.

Definition VersionRange_String (r : VersionRange) : string :=
  match rangeType r with
  | VersionRangeWildcard => "*"
  | VersionRangeExact => SemVer_String (version r)
  | VersionRangeCaret => "^" +:+ SemVer_String (version r)
  | VersionRangeTilde => "~" +:+ SemVer_String (version r)
  end.

(** ** Well-formed versions *)

(** Components an [int] can hold and [NewSemVer]/[ParseSemVer] can produce. *)
Definition semver_wf (v : SimplifiedSemVer) : Prop :=
  0 <= major v <= MaxInt64 /\ 0 <= minor v <= MaxInt64 /\ 0 <= patch v <= MaxInt64.

#[export] Instance semver_wf_dec v : Decision (semver_wf v).
Proof. unfold semver_wf. apply _. Defined.

(** ** Numeric identifiers *)

Definition num_ok (s : string) : bool :=
  String.eqb s "0" ||
  match s with String c s' => inR 49 (byteZ c) 57 && is_digits s' | _ => false end.

Lemma numericIdentifier_spec s : re_matches numericIdentifier s <-> num_ok s = true.
Proof.
  unfold numericIdentifier, num_ok. rewrite matches_Alt, matches_Lit, matches_Seq.
  rewrite orb_true_iff, String.eqb_eq. f_equiv.
  setoid_rewrite matches_Cls. setoid_rewrite matches_Star_Cls. split.
  - intros (? & t & -> & (c & -> & Hc) & Ht). rewrite app_cons_s, app_nil_l_s.
    by rewrite Hc.
  - destruct s as [|c s]; [done|]. intros [Hc Hs]%andb_true_iff.
    exists (String c ""), s. split_and!; [done|by eauto|done].
Qed.

Lemma num_ok_digits s : num_ok s = true -> is_digits s = true /\ s <> "".
Proof.
  unfold num_ok. rewrite orb_true_iff, String.eqb_eq. intros [->|H]; [done|].
  destruct s as [|c s]; [done|]. apply andb_true_iff in H as [Hc Hs]. split; [|done].
  unfold is_digits in *. simpl. rewrite Hs, andb_true_r. unfold is_digit, inR in *. b2p.
  apply andb_true_iff. rewrite !Z.leb_le. lia.
Qed.

Lemma num_ok_Itoa n : 0 <= n -> num_ok (Itoa n) = true.
Proof.
  intros Hn. destruct (decide (n = 0)) as [->|]; [done|].
  destruct (Itoa_first n) as (c & s & E & Hc); [lia|].
  pose proof (Itoa_digits n Hn) as Hd. rewrite E in *. unfold num_ok, is_digits in *.
  simpl in Hd. apply andb_true_iff in Hd as [_ Hs].
  rewrite Hc, Hs. apply orb_true_r.
Qed.

Lemma digits_nodot s : is_digits s = true -> ContainsByte s "." = false.
Proof. intros H. by apply (ContainsByte_forall _ _ _ H). Qed.

Lemma num_ok_nodot s : num_ok s = true -> ContainsByte s "." = false.
Proof. intros [H _]%num_ok_digits. by apply digits_nodot. Qed.

Lemma semverPattern_spec s :
  MatchString semverPattern s = true <->
  exists a b c, s = a +:+ "." +:+ b +:+ "." +:+ c /\
    num_ok a = true /\ num_ok b = true /\ num_ok c = true.
Proof.
  rewrite MatchString_spec. unfold semverPattern. split.
  - intros (a & t & -> & Ha & H)%matches_Seq. apply matches_Seq in H as (d1 & t1 & -> & Hd1 & H).
    apply matches_Seq in H as (b & t2 & -> & Hb & H). apply matches_Seq in H as (d2 & c & -> & Hd2 & Hc).
    apply matches_Lit in Hd1 as ->. apply matches_Lit in Hd2 as ->.
    rewrite numericIdentifier_spec in Ha, Hb, Hc. by exists a, b, c.
  - intros (a & b & c & -> & Ha & Hb & Hc). rewrite <- numericIdentifier_spec in Ha, Hb, Hc.
    repeat (apply m_seq; [done || by apply matches_Lit|]). done.
Qed.

Lemma Split_semver a b c :
  num_ok a = true -> num_ok b = true -> num_ok c = true ->
  Split (a +:+ "." +:+ b +:+ "." +:+ c) "." = [a; b; c].
Proof.
  intros Ha Hb Hc. change ("." +:+ b +:+ "." +:+ c) with (String "." (b +:+ String "." c)).
  rewrite Split_app by (by apply num_ok_nodot).
  rewrite Split_app by (by apply num_ok_nodot).
  by rewrite Split_nosep by (by apply num_ok_nodot).
Qed.

(** ** Parsing *)

Lemma ParseSemVer_parts a b c :
  num_ok a = true -> num_ok b = true -> num_ok c = true ->
  ParseSemVer (a +:+ "." +:+ b +:+ "." +:+ c) =
  Ok (MkSemVer (fst (Atoi a)) (fst (Atoi b)) (fst (Atoi c))).
Proof.
  intros Ha Hb Hc. unfold ParseSemVer.
  assert (MatchString semverPattern (a +:+ "." +:+ b +:+ "." +:+ c) = true) as ->.
  { apply semverPattern_spec. by exists a, b, c. }
  simpl negb. cbv iota. by rewrite Split_semver.
Qed.

Lemma ParseSemVer_Ok s v :
  ParseSemVer s = Ok v ->
  exists a b c, s = a +:+ "." +:+ b +:+ "." +:+ c /\
    num_ok a = true /\ num_ok b = true /\ num_ok c = true /\
    v = MkSemVer (fst (Atoi a)) (fst (Atoi b)) (fst (Atoi c)).
Proof.
  intros H. unfold ParseSemVer in H.
  destruct (MatchString semverPattern s) eqn:E; [|done].
  apply semverPattern_spec in E as (a & b & c & -> & Ha & Hb & Hc).
  simpl in H. rewrite Split_semver in H by done. simplify_eq. by exists a, b, c.
Qed.

Lemma Atoi_num_ok_range s : num_ok s = true -> 0 <= fst (Atoi s) <= MaxInt64.
Proof.
  intros [Hd Hne]%num_ok_digits.
  assert (forall t acc, is_digits t = true -> 0 <= acc ->
            exists v, digits_val acc t = Some v /\ 0 <= v) as Hex.
  { induction t as [|c t IH]; intros acc; simpl; [by eauto|]. unfold is_digits. simpl.
    intros [Hc Ht]%andb_true_iff Hacc. rewrite Hc. apply IH; [done|].
    unfold is_digit, inR, digit_val in *. b2p. lia. }
  destruct (Hex s 0 Hd ltac:(lia)) as (v & Hv & Hv0).
  rewrite (Atoi_digits s v) by done. destruct (v <=? MaxInt64) eqn:E; b2p; simpl; unfold MaxInt64 in *; lia.
Qed.

Lemma ParseSemVer_wf s v : ParseSemVer s = Ok v -> semver_wf v.
Proof.
  intros (a & b & c & -> & Ha & Hb & Hc & ->)%ParseSemVer_Ok.
  split_and!; simpl; by apply Atoi_num_ok_range.
Qed.

Lemma ParseSemVer_String v : semver_wf v -> ParseSemVer (SemVer_String v) = Ok v.
Proof.
  intros (H1 & H2 & H3). unfold SemVer_String.
  rewrite ParseSemVer_parts by (apply num_ok_Itoa; lia).
  rewrite !Atoi_Itoa by lia. by destruct v.
Qed.

(** ** Canonical form *)

Lemma digits_val_shift s acc :
  is_digits s = true ->
  exists v, digits_val 0 s = Some v /\ 0 <= v < 10 ^ Z.of_nat (String.length s) /\
    digits_val acc s = Some (acc * 10 ^ Z.of_nat (String.length s) + v).
Proof.
  revert acc. induction s as [|c s IH]; intros acc; [exists 0; simpl; split_and!; [done|lia|lia|f_equal; lia]|].
  unfold is_digits. cbn [digits_val String.length str_forall]. intros [Hc Hs]%andb_true_iff. rewrite Hc.
  replace (0 * 10 + digit_val c) with (digit_val c) by lia.
  assert (0 <= digit_val c <= 9) by (unfold is_digit, inR, digit_val in *; b2p; lia).
  destruct (IH (digit_val c) Hs) as (v & E0 & Hv & E1).
  destruct (IH (acc * 10 + digit_val c) Hs) as (v' & E0' & _ & E2). rewrite E0 in E0'. simplify_eq.
  rewrite E1, E2. eexists. split; [done|].
  rewrite Nat2Z.inj_succ, Z.pow_succ_r by lia. split; [nia|]. f_equal. ring.
Qed.

Lemma digits_val_inj s t :
  is_digits s = true -> is_digits t = true -> String.length s = String.length t ->
  digits_val 0 s = digits_val 0 t -> s = t.
Proof.
  revert t. induction s as [|c s IH]; intros [|d t]; try done.
  unfold is_digits. cbn [digits_val String.length str_forall].
  intros [Hc Hs]%andb_true_iff [Hd Ht]%andb_true_iff [= Hl]. rewrite Hc, Hd.
  replace (0 * 10 + digit_val c) with (digit_val c) by lia.
  replace (0 * 10 + digit_val d) with (digit_val d) by lia.
  destruct (digits_val_shift s (digit_val c) Hs) as (v & Ev & Hv & ->).
  destruct (digits_val_shift t (digit_val d) Ht) as (w & Ew & Hw & ->). rewrite Hl in *.
  intros [= E].
  assert (digit_val c = digit_val d) as Ecd by nia.
  f_equal; [apply byteZ_inj; unfold digit_val in Ecd; lia|].
  apply IH; [done|done|done|]. rewrite Ev, Ew. f_equal. rewrite Ecd in E. lia.
Qed.

Lemma num_ok_lower s v :
  num_ok s = true -> digits_val 0 s = Some v ->
  s = "0" \/ 10 ^ (Z.of_nat (String.length s) - 1) <= v.
Proof.
  unfold num_ok. rewrite orb_true_iff, String.eqb_eq. intros [->|H] Hv; [by left|right].
  destruct s as [|c s]; [done|]. apply andb_true_iff in H as [Hc Hs].
  assert (1 <= digit_val c <= 9) by (unfold inR, digit_val in *; b2p; lia).
  assert (is_digit c = true) as Hd by (unfold is_digit, inR, digit_val in *; b2p; apply andb_true_iff; rewrite !Z.leb_le; lia).
  cbn [digits_val] in Hv. rewrite Hd in Hv. replace (0 * 10 + digit_val c) with (digit_val c) in Hv by lia.
  destruct (digits_val_shift s (digit_val c) Hs) as (w & _ & Hw & E). rewrite E in Hv. simplify_eq.
  simpl String.length. replace (Z.of_nat (S (String.length s)) - 1) with (Z.of_nat (String.length s)) by lia.
  nia.
Qed.

Lemma num_ok_inj s t v :
  num_ok s = true -> num_ok t = true ->
  digits_val 0 s = Some v -> digits_val 0 t = Some v -> s = t.
Proof.
  intros Hs Ht Es Et. pose proof (num_ok_digits s Hs) as [Ds Ns]. pose proof (num_ok_digits t Ht) as [Dt Nt].
  apply digits_val_inj; [done|done| |congruence].
  destruct (digits_val_shift s 0 Ds) as (v1 & E1 & B1 & _). destruct (digits_val_shift t 0 Dt) as (v2 & E2 & B2 & _).
  assert (v1 = v /\ v2 = v) as [-> ->] by (split; congruence).
  assert (forall x y, num_ok x = true -> digits_val 0 x = Some v -> x <> "" -> y <> "" ->
            v < 10 ^ Z.of_nat (String.length y) -> (String.length x <= String.length y)%nat) as Hle.
  { intros x y Hx Ex Nx Ny Hy. destruct (num_ok_lower x v Hx Ex) as [->|Hlo].
    - destruct y; simpl; [done|lia].
    - assert (10 ^ (Z.of_nat (String.length x) - 1) < 10 ^ Z.of_nat (String.length y)) as Hp by lia.
      apply Z.pow_lt_mono_r_iff in Hp; lia. }
  pose proof (Hle s t Hs Es Ns Nt ltac:(lia)). pose proof (Hle t s Ht Et Nt Ns ltac:(lia)). lia.
Qed.

(** A component whose decimal value fits an [int]. *)
Definition fits_int (s : string) : bool :=
  match digits_val 0 s with Some v => v <=? MaxInt64 | None => false end.

Lemma Itoa_Atoi s : num_ok s = true -> (Itoa (fst (Atoi s)) = s <-> fits_int s = true).
Proof.
  intros Hs. pose proof (num_ok_digits s Hs) as [Ds Ns]. pose proof (Atoi_num_ok_range s Hs) as Hr.
  destruct (digits_val_shift s 0 Ds) as (v & E & B & _).
  rewrite (Atoi_digits s v) in * by done. unfold fits_int. rewrite E.
  destruct (v <=? MaxInt64) eqn:Ev; simpl in *.
  - split; [done|]. intros _. apply (num_ok_inj _ _ v); [apply num_ok_Itoa; lia|done| |done].
    apply Itoa_val. lia.
  - split; [|done]. intros Hi. exfalso. b2p. rewrite <- Hi, Itoa_val in E by (unfold MaxInt64; lia).
    assert (MaxInt64 = v) by congruence. lia.
Qed.

Lemma SemVer_app_inj a b c a' b' c' :
  num_ok a = true -> num_ok b = true -> num_ok c = true ->
  num_ok a' = true -> num_ok b' = true -> num_ok c' = true ->
  a +:+ "." +:+ b +:+ "." +:+ c = a' +:+ "." +:+ b' +:+ "." +:+ c' -> a = a' /\ b = b' /\ c = c'.
Proof.
  intros ?????? E%(f_equal (fun s => Split s ".")). rewrite !Split_semver in E by done. by simplify_eq.
Qed.

(** The version string has components that fit an [int]. *)
Definition semver_fits (s : string) : bool := forallb fits_int (Split s ".").

(** ** Properties *)

(** A version string [ParseSemVer] accepts yields non-negative components
    that fit an [int]; printing the result and parsing it again is the identity;
    and printing gives back the very input exactly when every component fits an
    [int].  (When one does not, the dropped [strconv.Atoi] error leaves the
    clamped value 9223372036854775807, so distinct version strings collapse.) *)
Theorem ParseSemVer_print_exact s v :
  ParseSemVer s = Ok v ->
  semver_wf v /\ ParseSemVer (SemVer_String v) = Ok v /\
  (SemVer_String v = s <-> semver_fits s = true).
Proof.
  intros H. pose proof (ParseSemVer_wf s v H) as Hwf.
  split_and!; [done|by apply ParseSemVer_String|].
  apply ParseSemVer_Ok in H as (a & b & c & -> & Ha & Hb & Hc & ->).
  unfold semver_fits. rewrite Split_semver by done. simpl forallb. rewrite !andb_true_iff.
  rewrite <- !Itoa_Atoi by done. unfold SemVer_String. simpl. split.
  - intros (-> & -> & ->)%SemVer_app_inj; [done|..]; try done; apply num_ok_Itoa;
      destruct Hwf as (? & ? & ?); simpl in *; lia.
  - by intros (-> & -> & -> & _).
Qed.

Lemma ParseSemVer_print_exact_witness :
  SemVer_String (MkSemVer 1 20 3) = "1.20.3" /\
  SemVer_String (MkSemVer 9223372036854775807 0 0) <> "9223372036854775808.0.0".
Proof.
  split.
  - apply (ParseSemVer_print_exact "1.20.3" (MkSemVer 1 20 3)); vm_compute; reflexivity.
  - intros H. apply (ParseSemVer_print_exact "9223372036854775808.0.0") in H; vm_compute; [|reflexivity].
    vm_compute in H. discriminate.
Defined.

Lemma cmpInt_spec a b :
  (a < b /\ cmpInt a b = -1) \/ (a = b /\ cmpInt a b = 0) \/ (b < a /\ cmpInt a b = 1).
Proof. unfold cmpInt. repeat case_if; b2p; lia. Qed.

(** Unfold a comparison into the lexicographic order it decides. *)
Lemma SemVer_Compare_spec a b :
  (SemVer_Compare a b = 0 /\ a = b) \/
  (SemVer_Compare a b = -1 /\
     (major a < major b \/ major a = major b /\
       (minor a < minor b \/ minor a = minor b /\ patch a < patch b))) \/
  (SemVer_Compare a b = 1 /\
     (major b < major a \/ major a = major b /\
       (minor b < minor a \/ minor a = minor b /\ patch b < patch a))).
Proof.
  unfold SemVer_Compare. destruct a as [a1 a2 a3], b as [b1 b2 b3]; simpl.
  pose proof (cmpInt_spec a1 b1). pose proof (cmpInt_spec a2 b2). pose proof (cmpInt_spec a3 b3).
  destruct (a1 =? b1) eqn:E1; simpl; [|b2p; lia].
  destruct (a2 =? b2) eqn:E2; simpl; [|b2p; lia]. b2p. subst.
  destruct H1 as [?|[[-> ?]|?]]; lia || (left; split; [lia|done]).
Qed.

(** Split every comparison known through [SemVer_Compare_spec]. *)
Ltac semver_cases :=
  repeat match goal with
  | H : (SemVer_Compare _ _ = 0 /\ _) \/ _ |- _ => destruct H as [[? ?]|[?|?]]; simplify_eq
  end; simpl in *.

(** [SemVer.Compare] is a total order on versions: its result is -1, 0 or
    1, it is 0 exactly on equal versions, swapping the arguments negates it,
    and "not greater" is transitive. *)
Theorem SemVer_Compare_total_order a b c :
  (SemVer_Compare a b = -1 \/ SemVer_Compare a b = 0 \/ SemVer_Compare a b = 1) /\
  (SemVer_Compare a b = 0 <-> a = b) /\
  SemVer_Compare b a = - SemVer_Compare a b /\
  ~ (SemVer_Compare a b <= 0 /\ SemVer_Compare b c <= 0 /\ 0 < SemVer_Compare a c).
Proof.
  pose proof (SemVer_Compare_spec a b) as Hab. pose proof (SemVer_Compare_spec b a) as Hba.
  pose proof (SemVer_Compare_spec b c) as Hbc. pose proof (SemVer_Compare_spec a c) as Hac.
  split_and!.
  - lia.
  - split; [intros E; semver_cases; done || lia|intros ->; lia].
  - semver_cases; lia.
  - semver_cases; lia.
Qed.

Definition caret_upper (b : SimplifiedSemVer) : SimplifiedSemVer :=
  if 0 <? major b then MkSemVer (major b + 1) 0 0
  else if 0 <? minor b then MkSemVer 0 (minor b + 1) 0
  else MkSemVer 0 0 (patch b + 1).

Definition tilde_upper (b : SimplifiedSemVer) : SimplifiedSemVer := MkSemVer (major b) (minor b + 1) 0.

(** The intervals the comments of [versionrange.go] give for each kind. *)
Definition range_interval (r : VersionRange) (v : SimplifiedSemVer) : Prop :=
  let base := version r in
  match rangeType r with
  | VersionRangeWildcard => True
  | VersionRangeExact => v = base
  | VersionRangeCaret => SemVer_Compare base v <= 0 /\ SemVer_Compare v (caret_upper base) < 0
  | VersionRangeTilde => SemVer_Compare base v <= 0 /\ SemVer_Compare v (tilde_upper base) < 0
  end.

(** Range matching is the documented interval test: [^1.2.3] is
    [>=1.2.3 <2.0.0], [^0.2.3] is [>=0.2.3 <0.3.0], [^0.0.3] is exactly 0.0.3,
    [~1.2.3] is [>=1.2.3 <1.3.0], for all well-formed versions. *)
Theorem VersionRange_Matches_interval r v :
  semver_wf (version r) -> semver_wf v ->
  (VersionRange_Matches r v = true <-> range_interval r v).
Proof.
  destruct r as [ty [b1 b2 b3]], v as [v1 v2 v3].
  unfold VersionRange_Matches, range_interval, semver_wf. simpl. intros Hb Hv.
  set (base := MkSemVer b1 b2 b3) in *. set (v := MkSemVer v1 v2 v3) in *.
  pose proof (SemVer_Compare_spec v base) as H1. pose proof (SemVer_Compare_spec base v) as H2.
  pose proof (SemVer_Compare_spec v (caret_upper base)) as H3. unfold caret_upper in H3.
  pose proof (SemVer_Compare_spec v (tilde_upper base)) as H4. unfold tilde_upper in H4.
  unfold base, v in *. clear base v. simpl in H3, H4.
  destruct ty; [done| | |].
  - clear H3 H4. unfold SemVer_Equal. rewrite Z.eqb_eq. split.
    + intros E. semver_cases; done || lia.
    + intros [= -> -> ->]. semver_cases; lia.
  - clear H4. unfold matchesCaret, caret_upper, SemVer_Equal. simpl.
    destruct (SemVer_Compare _ _ <? 0) eqn:E0; b2p; [split; [done|]; semver_cases; lia|].
    destruct (0 <? b1) eqn:E1; [|destruct (0 <? b2) eqn:E2]; b2p;
      rewrite ?andb_true_iff, !Z.eqb_eq; semver_cases; lia.
  - clear H3. unfold matchesTilde, tilde_upper. simpl.
    destruct (SemVer_Compare _ _ <? 0) eqn:E0; b2p; [split; [done|]; semver_cases; lia|].
    rewrite andb_true_iff, !Z.eqb_eq. semver_cases; lia.
Qed.

Lemma VersionRange_Matches_interval_witness :
  range_interval (MkVersionRange VersionRangeCaret (MkSemVer 1 2 3)) (MkSemVer 1 9 0).
Proof.
  apply (VersionRange_Matches_interval (MkVersionRange VersionRangeCaret (MkSemVer 1 2 3)) (MkSemVer 1 9 0));
    [unfold semver_wf, MaxInt64; simpl; lia|unfold semver_wf, MaxInt64; simpl; lia|reflexivity].
Defined.
