(* ===== verification/GoTime.v ===== *)
(** Go's [time]: instants and durations.

    An instant is the number of nanoseconds since the zero time (0001-01-01
    00:00:00 UTC), so the zero [time.Time] is 0; a duration is a number of
    nanoseconds.  [Add] and [Sub] are exact: the instants and durations of this
    program stay within the 292 years a Go duration spans. *)
From S2P Require Import Prelude GoStrings.

#[local] Set Default Goal Selector "!".
#[local] Open Scope Z_scope.

Definition Time : Type := Z.
Definition Duration : Type := Z.

Definition Second : Duration := 1000000000.
Definition Minute : Duration := 60 * Second.
Definition Hour : Duration := 60 * Minute.

(** Seconds from the zero time to the Unix epoch. *)
Definition unixToInternal : Z := 62135596800.

Definition Time_IsZero (t : Time) : bool := t =? 0.
Definition Time_Before (t u : Time) : bool := t <? u.
Definition Time_After (t u : Time) : bool := u <? t.
Definition Time_Equal (t u : Time) : bool := t =? u.
Definition Time_Add (t : Time) (d : Duration) : Time := t + d.
Definition Time_Sub (t u : Time) : Duration := t - u.

(** [t.Unix()]: whole seconds since the epoch, rounded down. *)
Definition Time_Unix (t : Time) : Z := t / Second - unixToInternal.

(** [t.UnixMilli()] and [time.UnixMilli]; [time.Time{}]. *)
Definition zeroTime : Time := 0.
Definition Time_UnixMilli (t : Time) : Z := t / 1000000 - unixToInternal * 1000.
Definition UnixMilli (ms : Z) : Time := (ms + unixToInternal * 1000) * 1000000.

Lemma Time_Unix_mono t u : t <= u -> Time_Unix t <= Time_Unix u.
Proof. intros. unfold Time_Unix, Second. pose proof (Z.div_le_mono t u 1000000000). lia. Qed.

Lemma Time_Unix_Add t s : Time_Unix (t + s * Second) = Time_Unix t + s.
Proof. unfold Time_Unix. rewrite Z.div_add by done. lia. Qed.

(** ** [time.Parse(time.RFC3339, value)]

    The layout "2006-01-02T15:04:05Z07:00" read as Go's parser does: two-digit
    fields except that the hour may be a single digit, an optional fraction
    after a period or a comma, and either [Z] or a signed offset of at most 24
    hours and 60 minutes. *)

Definition is_digit_at (s : string) : option (Z * string) :=
  match s with
  | String c s' => if is_digit c then Some (digit_val c, s') else None
  | EmptyString => None
  end.

(** [getnum(s, fixed)]. *)
Definition getnum (fixed : bool) (s : string) : option (Z * string) :=
  '(a, s1) ← is_digit_at s;
  match is_digit_at s1 with
  | Some (b, s2) => Some (a * 10 + b, s2)
  | None => if fixed then None else Some (a, s1)
  end.

Definition expect (c : ascii) (s : string) : option string :=
  match s with String d s' => if Ascii.eqb c d then Some s' else None | EmptyString => None end.

Definition in_range (lo hi : Z) (p : option (Z * string)) : option (Z * string) :=
  '(v, s) ← p; if (lo <=? v) && (v <=? hi) then Some (v, s) else None.

Definition getyear (s : string) : option (Z * string) :=
  '(a, s1) ← is_digit_at s; '(b, s2) ← is_digit_at s1; '(c, s3) ← is_digit_at s2; '(d, s4) ← is_digit_at s3;
  Some (a * 1000 + b * 100 + c * 10 + d, s4).

(** The digits of a fraction: nanoseconds from the first nine, and the rest. *)
Fixpoint frac_digits (scale ns : Z) (s : string) : Z * string :=
  match s with
  | String c s' => if is_digit c then frac_digits (scale / 10) (ns + digit_val c * scale) s' else (ns, s)
  | EmptyString => (ns, s)
  end.

Definition getfrac (s : string) : Z * string :=
  match s with
  | String c (String d s') =>
      if (Ascii.eqb c "." || Ascii.eqb c ",") && is_digit d then frac_digits 100000000 0 (String d s') else (0, s)
  | _ => (0, s)
  end.

(** Offset in seconds east of UTC. *)
Definition getzone (s : string) : option (Z * string) :=
  match s with
  | EmptyString => None
  | String c s' =>
      if Ascii.eqb c "Z" then Some (0, s') else
      '(hh, s1) ← in_range 0 24 (getnum true s');
      s2 ← expect ":" s1;
      '(mm, s3) ← in_range 0 60 (getnum true s2);
      let off := (hh * 60 + mm) * 60 in
      if Ascii.eqb c "+" then Some (off, s3) else if Ascii.eqb c "-" then Some (- off, s3) else None
  end.

Definition is_leap (y : Z) : bool := (y mod 4 =? 0) && (negb (y mod 100 =? 0) || (y mod 400 =? 0)).

Definition days_in (m y : Z) : Z :=
  if m =? 2 then (if is_leap y then 29 else 28)
  else if (m =? 4) || (m =? 6) || (m =? 9) || (m =? 11) then 30 else 31.

Definition days_before_month (m y : Z) : Z :=
  fold_left (fun acc k => if Z.of_nat k <? m then acc + days_in (Z.of_nat k) y else acc) (seq 1 12) 0.

(** Days from 0001-01-01 to the given date. *)
Definition date_days (y m d : Z) : Z :=
  let p := y - 1 in 365 * p + p / 4 - p / 100 + p / 400 + days_before_month m y + (d - 1).

Definition ParseRFC3339 (value : string) : option Time :=
  '(year, s) ← getyear value;
  s ← expect "-" s; '(month, s) ← in_range 1 12 (getnum true s);
  s ← expect "-" s; '(day, s) ← getnum true s;
  s ← expect "T" s; '(hour, s) ← in_range 0 23 (getnum false s);
  s ← expect ":" s; '(min, s) ← in_range 0 59 (getnum true s);
  s ← expect ":" s; '(sec, s) ← in_range 0 59 (getnum true s);
  let '(ns, s) := getfrac s in
  '(off, s) ← getzone s;
  if negb (String.eqb s "") || (day <? 1) || (days_in month year <? day) then None else
  Some ((((date_days year month day * 24 + hour) * 60 + min) * 60 + sec - off) * Second + ns).

Example ParseRFC3339_examples :
  Time_Unix <$> ParseRFC3339 "1970-01-01T00:00:00Z" = Some 0 /\
  Time_Unix <$> ParseRFC3339 "2024-02-29T23:59:59.5+02:00" = Some 1709243999 /\
  Time_Unix <$> ParseRFC3339 "2026-03-01T5:04:05,25-07:00" = Some 1772366645 /\
  ParseRFC3339 "2023-02-29T00:00:00Z" = None /\ ParseRFC3339 "2023-02-28 00:00:00Z" = None /\
  ParseRFC3339 "2023-02-28T00:00:60Z" = None /\ ParseRFC3339 "2023-02-28T00:00:00" = None /\
  ParseRFC3339 "2023-02-28T00:00:00Zx" = None.
Proof. vm_compute. split_and!; reflexivity. Qed.

(** ** [t.UTC().Format(time.RFC3339)]

    The calendar date of a day number, by 400-year eras counted from March; the
    year is written with at least four digits. *)
Definition civil_of_days (n : Z) : Z * Z * Z :=
  let z := n + 306 in
  let era := z / 146097 in
  let doe := z mod 146097 in
  let yoe := (doe - doe / 1460 + doe / 36524 - doe / 146096) / 365 in
  let doy := doe - (365 * yoe + yoe / 4 - yoe / 100) in
  let mp := (5 * doy + 2) / 153 in
  let d := doy - (153 * mp + 2) / 5 + 1 in
  let m := if mp <? 10 then mp + 3 else mp - 9 in
  (yoe + era * 400 + (if m <=? 2 then 1 else 0), m, d).

Definition two_digits (n : Z) : string := String (chr (48 + n / 10)) (String (chr (48 + n mod 10)) "").

Definition year_digits (y : Z) : string :=
  if (0 <=? y) && (y <? 10000) then two_digits (y / 100) +:+ two_digits (y mod 100) else Itoa y.

Definition FormatRFC3339 (t : Time) : string :=
  let s := t / Second in
  let '(y, m, d) := civil_of_days (s / 86400) in
  let r := s mod 86400 in
  year_digits y +:+ "-" +:+ two_digits m +:+ "-" +:+ two_digits d +:+ "T" +:+ two_digits (r / 3600) +:+ ":" +:+
  two_digits (r mod 3600 / 60) +:+ ":" +:+ two_digits (r mod 60) +:+ "Z".

Example FormatRFC3339_examples :
  FormatRFC3339 0 = "0001-01-01T00:00:00Z" /\ FormatRFC3339 (UnixMilli 0) = "1970-01-01T00:00:00Z" /\
  FormatRFC3339 (UnixMilli 1709251199500) = "2024-02-29T23:59:59Z" /\
  FormatRFC3339 (UnixMilli 1767225600000) = "2026-01-01T00:00:00Z".
Proof. vm_compute. split_and!; reflexivity. Qed.
