(* ===== verification/GoTimeSpec.v ===== *)
(** Times that are printed are read back: [FormatRFC3339_parses].  The calendar is
    checked on every day of one 400-year era and is periodic. *)
From S2P Require Import Prelude GoStrings GoTime.

#[local] Set Default Goal Selector "!".
#[local] Open Scope Z_scope.

(** ** The calendar *)

(** Year in the era, month and day of the days of an era counted from March. *)
Definition era_civil (doe : Z) : Z * Z * Z :=
  let yoe := (doe - doe / 1460 + doe / 36524 - doe / 146096) / 365 in
  let doy := doe - (365 * yoe + yoe / 4 - yoe / 100) in
  let mp := (5 * doy + 2) / 153 in
  let d := doy - (153 * mp + 2) / 5 + 1 in
  let m := if mp <? 10 then mp + 3 else mp - 9 in
  (yoe + (if m <=? 2 then 1 else 0), m, d).

Definition era_year (doe : Z) : Z := (doe - doe / 1460 + doe / 36524 - doe / 146096) / 365.

(** The first day of the year [k] of the era; the era ends with a leap day. *)
Definition year_start (k : Z) : Z := if k =? 400 then 146097 else 365 * k + k / 4 - k / 100.

Fixpoint all_from (P : Z -> bool) (n : nat) (z : Z) : bool := match n with O => true | S n' => P z && all_from P n' (z + 1) end.

Lemma all_from_spec P n z : all_from P n z = true -> forall x, z <= x < z + Z.of_nat n -> P x = true.
Proof.
  revert z. induction n as [|n IH]; intros z H x Hx; [lia|]. cbn in H. apply andb_true_iff in H as [H1 H2].
  destruct (Z.eq_dec x z) as [->|]; [done|]. apply (IH (z + 1)); [done|lia].
Qed.

Lemma era_year_mono a b : 0 <= a <= b -> era_year a <= era_year b.
Proof.
  intros [Ha Hab]. unfold era_year. apply Z.div_le_mono; [lia|]. replace b with (a + (b - a)) by lia. set (n := b - a). assert (0 <= n) as Hn by lia. clearbody n. clear b Hab.
  revert n Hn. apply natlike_ind; [rewrite Z.add_0_r; lia|]. intros n Hn IH. unfold Z.succ. zlia.
Qed.

Definition year_ok (k : Z) : bool :=
  (era_year (year_start k) =? k) && (era_year (year_start (k + 1) - 1) =? k) &&
  (let p := k - 1 in 365 * p + p / 4 - p / 100 + p / 400 + (if is_leap k then 1 else 0) + 365 =? 365 * k + k / 4 - k / 100) &&
  (365 * k + k / 4 - k / 100 + k / 400 =? year_start k) &&
  (year_start (k + 1) - year_start k =? (if is_leap (k + 1) then 366 else 365)).

Lemma years_ok : all_from year_ok 400 0 = true.
Proof. vm_compute. reflexivity. Qed.

(** Every day of the era lies in the year the formula gives. *)
Lemma era_year_spec doe : 0 <= doe < 146097 -> 0 <= era_year doe < 400 /\ year_start (era_year doe) <= doe < year_start (era_year doe + 1).
Proof.
  intros Hd. assert (forall n, 0 <= n <= 400 -> doe < year_start n -> exists k, 0 <= k < n /\ year_start k <= doe < year_start (k + 1)) as HK.
  { intros n [Hn Hle]. revert Hle. pattern n. apply natlike_ind; [|clear n Hn|done].
    - intros _ H. change (year_start 0) with 0 in H. lia.
    - intros n Hn IH Hle H. destruct (Z.lt_ge_cases doe (year_start n)) as [Hlt|Hge].
      + destruct (IH ltac:(lia) Hlt) as (k & Hk & HH). exists k. split; [lia|done].
      + exists n. unfold Z.succ in H. split; [lia|done]. }
  destruct (HK 400 ltac:(lia) ltac:(cbn; lia)) as (k & Hk & Hs & He).
  pose proof (all_from_spec _ _ _ years_ok k ltac:(lia)) as H. unfold year_ok in H. rewrite !andb_true_iff, !Z.eqb_eq in H. destruct H as ((((H1 & H2) & _) & H4) & _).
  assert (0 <= year_start k) by (rewrite <-H4; zlia).
  pose proof (era_year_mono (year_start k) doe ltac:(lia)). pose proof (era_year_mono doe (year_start (k + 1) - 1) ltac:(lia)).
  assert (era_year doe = k) as -> by lia. lia.
Qed.

(** The days of a year from March on. *)
Definition doy_ok (doy : Z) : bool :=
  let mp := (5 * doy + 2) / 153 in
  let d := doy - (153 * mp + 2) / 5 + 1 in
  let m := if mp <? 10 then mp + 3 else mp - 9 in
  (1 <=? m) && (m <=? 12) && (1 <=? d) && (d <=? 31) &&
  (if mp <? 10 then (days_before_month m 1 + 1 =? 60 + (153 * mp + 2) / 5) && (3 <=? m) && (d <=? days_in m 1)
   else (days_before_month m 1 =? (153 * mp + 2) / 5 - 306) && (m <=? 2) && ((m =? 1) || (d <=? (if doy =? 365 then 29 else 28)))).

Lemma doys_ok : all_from doy_ok 366 0 = true.
Proof. vm_compute. reflexivity. Qed.

(** Only February depends on the year. *)
Lemma days_in_other m y : m <> 2 -> days_in m y = days_in m 1.
Proof. intros H. unfold days_in. by destruct (Z.eqb_spec m 2). Qed.

Lemma days_before_leap m y : 1 <= m <= 12 -> days_before_month m y = days_before_month m 1 + (if (3 <=? m) && is_leap y then 1 else 0).
Proof.
  intros Hm. unfold days_before_month, days_in. generalize (is_leap y) as b.
  assert (m = 1 \/ m = 2 \/ m = 3 \/ m = 4 \/ m = 5 \/ m = 6 \/ m = 7 \/ m = 8 \/ m = 9 \/ m = 10 \/ m = 11 \/ m = 12) as Hcases by lia.
  repeat destruct Hcases as [->|Hcases]; try subst m; intros []; vm_compute; reflexivity.
Qed.

Lemma era_day_ok doe : 0 <= doe < 146097 ->
  let '(y, m, d) := era_civil doe in
  date_days y m d = doe - 306 /\ 1 <= m <= 12 /\ 1 <= d <= days_in m y /\ d <= 31 /\ 0 <= y <= 400 /\ (306 <= doe -> 1 <= y) /\ (doe < 146037 -> y <= 399).
Proof.
  intros Hd. unfold era_civil. fold (era_year doe). destruct (era_year_spec doe Hd) as (Hk & Hs & He). set (k := era_year doe) in *. clearbody k.
  pose proof (all_from_spec _ _ _ years_ok k ltac:(lia)) as H. unfold year_ok in H. rewrite !andb_true_iff, !Z.eqb_eq in H. destruct H as ((((_ & _) & HA) & HB) & HL).
  assert (year_start k = 365 * k + k / 4 - k / 100) as ES. { unfold year_start. destruct (Z.eqb_spec k 400); [lia|done]. }
  rewrite <-ES. set (doy := doe - year_start k). assert (0 <= doy < 366) as Hdoy. { destruct (is_leap (k + 1)); lia. }
  pose proof (all_from_spec _ _ _ doys_ok doy ltac:(lia)) as HD. unfold doy_ok in HD. cbv zeta in HD.
  set (mp := (5 * doy + 2) / 153) in *. set (d := doy - (153 * mp + 2) / 5 + 1) in *. set (m := if mp <? 10 then mp + 3 else mp - 9) in *.
  cbv zeta. rewrite !andb_true_iff, !Z.leb_le in HD. destruct HD as ((((Hm1 & Hm2) & Hd1) & Hd31) & HD).
  assert (forall y, date_days y m d = 365 * (y - 1) + (y - 1) / 4 - (y - 1) / 100 + (y - 1) / 400 + days_before_month m 1 + (if (3 <=? m) && is_leap y then 1 else 0) + (d - 1)) as HDD.
  { intros y. unfold date_days. rewrite (days_before_leap m y) by lia. lia. }
  destruct (Z.ltb_spec mp 10) as [Hmp|Hmp]; rewrite !andb_true_iff in HD; destruct HD as ((HE%Z.eqb_eq & Hm3%Z.leb_le) & Hdm).
  - rewrite Z.leb_le in Hdm. destruct (Z.leb_spec m 2); [lia|]. rewrite HDD. replace (3 <=? m) with true by (symmetry; apply Z.leb_le; lia). cbn [andb].
    rewrite days_in_other by lia. rewrite Z.add_0_r. cbv zeta in HA. unfold d. split_and!; try lia; try zlia.
  - destruct (Z.leb_spec m 2); [|lia]. rewrite HDD. replace (3 <=? m) with false by (symmetry; apply Z.leb_gt; lia). cbn [andb].
    replace (k + 1 - 1) with k by lia. rewrite ES in HB. unfold d. split_and!; try lia; try zlia.
    rewrite orb_true_iff, Z.eqb_eq, Z.leb_le in Hdm. unfold days_in. destruct (Z.eqb_spec m 2) as [E|E].
    + destruct Hdm as [|Hdm]; [lia|]. fold d. destruct (Z.eqb_spec doy 365); destruct (is_leap (k + 1)); lia.
    + assert (m = 1) as -> by lia. cbn. fold d. lia.
Qed.

Lemma days_in_era m y k : days_in m (y + k * 400) = days_in m y.
Proof.
  unfold days_in, is_leap. replace (y + k * 400) with (y + (k * 100) * 4) at 1 by lia. rewrite Z.mod_add by lia.
  replace (y + k * 400) with (y + (k * 4) * 100) at 1 by lia. rewrite Z.mod_add by lia. by rewrite Z.mod_add.
Qed.

Lemma date_days_era y m d k : date_days (y + k * 400) m d = date_days y m d + k * 146097.
Proof.
  unfold date_days, days_before_month. cbn [seq fold_left]. rewrite !days_in_era. set (b := if _ <? m then _ else _). clearbody b.
  replace (y + k * 400 - 1) with ((y - 1) + (k * 100) * 4) at 2 by lia. rewrite Z.div_add by lia.
  replace (y + k * 400 - 1) with ((y - 1) + (k * 4) * 100) at 2 by lia. rewrite Z.div_add by lia.
  replace (y + k * 400 - 1) with ((y - 1) + k * 400) at 2 by lia. rewrite Z.div_add by lia. lia.
Qed.

Lemma civil_era n : civil_of_days n = let '(y, m, d) := era_civil ((n + 306) mod 146097) in (y + (n + 306) / 146097 * 400, m, d).
Proof. unfold civil_of_days, era_civil. cbn zeta. do 2 f_equal. ring. Qed.

(** The last day of the year 9999. *)
Definition max_days : Z := 3652059.

Lemma civil_ok n : 0 <= n < max_days ->
  let '(y, m, d) := civil_of_days n in
  date_days y m d = n /\ 1 <= y <= 9999 /\ 1 <= m <= 12 /\ 1 <= d <= days_in m y /\ d <= 31.
Proof.
  unfold max_days. intros Hn. rewrite civil_era. pose proof (Z.mod_pos_bound (n + 306) 146097 ltac:(lia)) as Hd.
  pose proof (Z.div_mod (n + 306) 146097 ltac:(lia)) as E. set (doe := (n + 306) mod 146097) in *. set (era := (n + 306) / 146097) in *.
  pose proof (era_day_ok doe Hd) as H. destruct (era_civil doe) as [[y m] d]. destruct H as (H1 & H2 & H3 & H4 & H5 & H6 & H7).
  rewrite date_days_era, days_in_era.
  clearbody doe era. split_and!; lia.
Qed.

(** ** Digits *)

Lemma digit_at d s : 0 <= d < 10 -> is_digit_at (String (chr (48 + d)) s) = Some (d, s).
Proof.
  intros Hd. destruct (digit_chr_spec d Hd) as [H1 H2]. unfold is_digit_at. change (chr (48 + d)) with (digit_chr d). by rewrite H1, H2.
Qed.

Lemma getnum_two fixed n s : 0 <= n < 100 -> getnum fixed (two_digits n +:+ s) = Some (n, s).
Proof.
  intros Hn. change (getnum fixed (two_digits n +:+ s)) with (getnum fixed (String (chr (48 + n / 10)) (String (chr (48 + n mod 10)) s))).
  unfold getnum. rewrite digit_at by zlia. cbn [mbind option_bind]. rewrite digit_at by zlia. do 2 f_equal. zlia.
Qed.

Lemma getyear_digits y s : 0 <= y < 10000 -> getyear (year_digits y +:+ s) = Some (y, s).
Proof.
  intros Hy. unfold year_digits. replace ((0 <=? y) && (y <? 10000)) with true by (symmetry; apply andb_true_iff; rewrite Z.leb_le, Z.ltb_lt; lia).
  change (getyear ((two_digits (y / 100) +:+ two_digits (y mod 100)) +:+ s)) with (getyear (String (chr (48 + y / 100 / 10)) (String (chr (48 + (y / 100) mod 10))
    (String (chr (48 + y mod 100 / 10)) (String (chr (48 + (y mod 100) mod 10)) s))))).
  unfold getyear. do 4 (rewrite digit_at by zlia; cbn [mbind option_bind]). do 2 f_equal. zlia.
Qed.

Lemma in_range_some lo hi v s : lo <= v <= hi -> in_range lo hi (Some (v, s)) = Some (v, s).
Proof. intros H. unfold in_range. cbn. destruct (Z.leb_spec lo v), (Z.leb_spec v hi); try lia. done. Qed.

(** Every instant from the year 1 to the year 9999, cut to seconds. *)
Lemma FormatRFC3339_parses t : 0 <= t < max_days * 86400 * Second -> ParseRFC3339 (FormatRFC3339 t) = Some (t / Second * Second).
Proof.
  intros Ht. unfold FormatRFC3339. set (s := t / Second). assert (0 <= s < max_days * 86400) as Hs by (unfold s, max_days, Second in *; zlia). clearbody s. clear Ht t.
  pose proof (civil_ok (s / 86400) ltac:(unfold max_days in *; zlia)) as H. destruct (civil_of_days (s / 86400)) as [[y m] d].
  destruct H as (ED & Hy & Hm & Hd & Hd31). pose proof (Z.mod_pos_bound s 86400 ltac:(lia)) as Hr.
  unfold ParseRFC3339. rewrite getyear_digits by lia. cbn [mbind option_bind].
  change (expect "-" ("-" +:+ ?x)) with (Some x). cbn [mbind option_bind]. rewrite getnum_two, in_range_some by lia. cbn [mbind option_bind].
  change (expect "-" ("-" +:+ ?x)) with (Some x). cbn [mbind option_bind]. rewrite getnum_two by lia. cbn [mbind option_bind].
  change (expect "T" ("T" +:+ ?x)) with (Some x). cbn [mbind option_bind]. rewrite getnum_two, in_range_some by zlia. cbn [mbind option_bind].
  change (expect ":" (":" +:+ ?x)) with (Some x). cbn [mbind option_bind]. rewrite getnum_two, in_range_some by zlia. cbn [mbind option_bind].
  change (expect ":" (":" +:+ ?x)) with (Some x). cbn [mbind option_bind]. rewrite getnum_two, in_range_some by zlia. cbn [mbind option_bind].
  cbn [getfrac getzone mbind option_bind Ascii.eqb Bool.eqb String.eqb negb orb].
  destruct (Z.ltb_spec d 1); [lia|]. destruct (Z.ltb_spec (days_in m y) d); [lia|]. cbn [orb]. f_equal. rewrite ED. unfold Second. zlia.
Qed.

