(* ===== verification/GoEncoding.v ===== *)
(** Go's [encoding/hex] and [encoding/base64] as the program uses them:
    lower-case hexadecimal, and the URL alphabet without padding
    ([base64.RawURLEncoding]).  Decoding ignores line breaks and the unused
    trailing bits, as Go's non-strict decoder does. *)
From S2P Require Import Prelude GoStrings.

#[local] Set Default Goal Selector "!".
#[local] Open Scope Z_scope.

(** ** [encoding/hex] *)

Definition hex_digit (d : Z) : ascii := if d <? 10 then chr (48 + d) else chr (87 + d).

Fixpoint hex_EncodeToString (s : string) : string :=
  match s with
  | EmptyString => EmptyString
  | String c s' => String (hex_digit (byteZ c / 16)) (String (hex_digit (byteZ c mod 16)) (hex_EncodeToString s'))
  end.

Definition hex_value (c : ascii) : option Z :=
  if is_digit c then Some (byteZ c - 48) else
  if inR 97 (byteZ c) 102 then Some (byteZ c - 87) else
  if inR 65 (byteZ c) 70 then Some (byteZ c - 55) else None.

Fixpoint hex_DecodeString (s : string) : option string :=
  match s with
  | EmptyString => Some EmptyString
  | String a (String b s') =>
      x ← hex_value a; y ← hex_value b; r ← hex_DecodeString s'; Some (String (chr (16 * x + y)) r)
  | _ => None
  end.

(** ** [base64.RawURLEncoding] *)

Definition b64_digit (v : Z) : ascii :=
  if v <? 26 then chr (65 + v) else if v <? 52 then chr (71 + v) else if v <? 62 then chr (v - 4)
  else if v =? 62 then "-"%char else "_"%char.

Definition b64_value (c : ascii) : option Z :=
  if is_upper c then Some (byteZ c - 65) else if is_lower c then Some (byteZ c - 71) else
  if is_digit c then Some (byteZ c + 4) else if Ascii.eqb c "-" then Some 62 else
  if Ascii.eqb c "_" then Some 63 else None.

Fixpoint b64_EncodeToString (s : string) : string :=
  match s with
  | EmptyString => EmptyString
  | String a EmptyString =>
      String (b64_digit (byteZ a / 4)) (String (b64_digit (byteZ a mod 4 * 16)) EmptyString)
  | String a (String b EmptyString) =>
      String (b64_digit (byteZ a / 4)) (String (b64_digit (byteZ a mod 4 * 16 + byteZ b / 16))
        (String (b64_digit (byteZ b mod 16 * 4)) EmptyString))
  | String a (String b (String c s')) =>
      String (b64_digit (byteZ a / 4)) (String (b64_digit (byteZ a mod 4 * 16 + byteZ b / 16))
        (String (b64_digit (byteZ b mod 16 * 4 + byteZ c / 64)) (String (b64_digit (byteZ c mod 64))
          (b64_EncodeToString s'))))
  end.

Fixpoint strip_newlines (s : string) : string :=
  match s with
  | EmptyString => EmptyString
  | String c s' => if (byteZ c =? 10) || (byteZ c =? 13) then strip_newlines s' else String c (strip_newlines s')
  end.

Fixpoint b64_decode (s : string) : option string :=
  match s with
  | EmptyString => Some EmptyString
  | String a (String b EmptyString) =>
      x ← b64_value a; y ← b64_value b; Some (String (chr (x * 4 + y / 16)) EmptyString)
  | String a (String b (String c EmptyString)) =>
      x ← b64_value a; y ← b64_value b; z ← b64_value c;
      Some (String (chr (x * 4 + y / 16)) (String (chr (y mod 16 * 16 + z / 4)) EmptyString))
  | String a (String b (String c (String d s'))) =>
      x ← b64_value a; y ← b64_value b; z ← b64_value c; w ← b64_value d; r ← b64_decode s';
      Some (String (chr (x * 4 + y / 16)) (String (chr (y mod 16 * 16 + z / 4)) (String (chr (z mod 4 * 64 + w)) r)))
  | _ => None
  end.

Definition b64_DecodeString (s : string) : option string := b64_decode (strip_newlines s).

Example encodings :
  hex_EncodeToString "ab1" = "616231" /\ hex_DecodeString "61C2f" = None /\ hex_DecodeString "4aF0" = Some (String "J" (String (chr 240) "")) /\
  b64_EncodeToString "42" = "NDI" /\ b64_DecodeString "NDI" = Some "42" /\ b64_DecodeString "NDI=" = None.
Proof. vm_compute. split_and!; reflexivity. Qed.

(** ** Round trips *)

(** A property of bytes, checked on all of them. *)
Lemma forall_bytes (P : ascii -> bool) :
  forallb (fun n => P (ascii_of_nat n)) (seq 0 256) = true -> forall c, P c = true.
Proof.
  intros H c. rewrite forallb_forall in H. rewrite <- (ascii_nat_embedding c). apply H.
  apply in_seq. pose proof (nat_ascii_bounded c). lia.
Qed.

Lemma forall_below (n : nat) (P : Z -> bool) :
  forallb (fun k => P (Z.of_nat k)) (seq 0 n) = true -> forall z, 0 <= z < Z.of_nat n -> P z = true.
Proof.
  intros H z Hz. rewrite forallb_forall in H. rewrite <- (Z2Nat.id z) by lia. apply H. apply in_seq. lia.
Qed.

Lemma hex_value_digit d : 0 <= d < 16 -> hex_value (hex_digit d) = Some d.
Proof.
  intros Hd. pose proof (forall_below 16 (fun d => bool_decide (hex_value (hex_digit d) = Some d))) as F.
  apply (bool_decide_eq_true_1 _ (F eq_refl d Hd)).
Qed.

Lemma b64_value_digit d : 0 <= d < 64 -> b64_value (b64_digit d) = Some d.
Proof.
  intros Hd. pose proof (forall_below 64 (fun d => bool_decide (b64_value (b64_digit d) = Some d))) as F.
  apply (bool_decide_eq_true_1 _ (F eq_refl d Hd)).
Qed.

Lemma b64_digit_graphic d : 0 <= d < 64 -> (byteZ (b64_digit d) =? 10) || (byteZ (b64_digit d) =? 13) = false.
Proof.
  intros Hd. pose proof (forall_below 64 (fun d => negb ((byteZ (b64_digit d) =? 10) || (byteZ (b64_digit d) =? 13)))) as F.
  apply negb_true_iff, (F eq_refl d Hd).
Qed.

Lemma hex_roundtrip s : hex_DecodeString (hex_EncodeToString s) = Some s.
Proof.
  induction s as [|c s IH]; [done|]. cbn [hex_EncodeToString hex_DecodeString]. pose proof (byteZ_range c).
  rewrite !hex_value_digit by zlia. cbn. rewrite IH. cbn.
  replace (16 * (byteZ c / 16) + byteZ c mod 16) with (byteZ c) by zlia. by rewrite chr_byteZ.
Qed.

Lemma hex_EncodeToString_length s : String.length (hex_EncodeToString s) = (2 * String.length s)%nat.
Proof. induction s as [|c s IH]; [done|]. cbn [hex_EncodeToString String.length]. rewrite IH. lia. Qed.

(** Induction by groups of three bytes. *)
Lemma string_ind3 (P : string -> Prop) :
  P "" -> (forall a, P (String a "")) -> (forall a b, P (String a (String b ""))) ->
  (forall a b c s, P s -> P (String a (String b (String c s)))) -> forall s, P s.
Proof.
  intros H0 H1 H2 H3.
  assert (forall n s, (String.length s <= n)%nat -> P s) as H; [|intros s; by apply (H (String.length s))].
  induction n as [|n IH]; intros [|a [|b [|c s]]]; cbn; intros; auto; try lia. apply H3, IH. lia.
Qed.

Lemma b64_strip s : strip_newlines (b64_EncodeToString s) = b64_EncodeToString s.
Proof.
  induction s as [|a|a b|a b c s IH] using string_ind3; cbn [b64_EncodeToString strip_newlines]; try done;
    pose proof (byteZ_range a); try pose proof (byteZ_range b); try pose proof (byteZ_range c);
    rewrite !b64_digit_graphic by zlia; [done..|by rewrite IH].
Qed.

Lemma b64_roundtrip s : b64_DecodeString (b64_EncodeToString s) = Some s.
Proof.
  unfold b64_DecodeString. rewrite b64_strip.
  induction s as [|a|a b|a b c s IH] using string_ind3; cbn [b64_EncodeToString b64_decode]; try done;
    pose proof (byteZ_range a); try pose proof (byteZ_range b); try pose proof (byteZ_range c);
    rewrite !b64_value_digit by zlia; cbn; [| |rewrite IH; cbn];
    repeat f_equal;
    match goal with |- chr _ = ?c => transitivity (chr (byteZ c)); [f_equal; zlia|apply chr_byteZ] end.
Qed.
