(* ===== verification/GoJSON.v ===== *)
(** Go's [encoding/json] as the program uses it: parsing a document into a
    value, writing a value, and decoding a value into a struct.

    [parse_json] accepts exactly the documents the scanner of [json.Unmarshal]
    accepts, its bound on nesting included, and unquotes strings as it does:
    invalid UTF-8 and lone surrogates become U+FFFD.  A number keeps its literal.
    [Marshal] writes a value the way [json.Marshal] writes the struct it comes
    from.  Struct fields are matched without regard to case, and a member that
    occurs again is decoded into the value the earlier one left. *)
From stdpp Require Import gmap sorting.
From S2P Require Import Prelude GoStrings Utf8 GoEncoding.

#[local] Set Default Goal Selector "!".
#[local] Open Scope Z_scope.

Inductive json : Type :=
| JNull
| JBool (b : bool)
| JNum (lit : string)
| JStr (s : string)
| JArr (l : list json)
| JObj (m : list (string * json)).

Definition cQuote : ascii := "034"%char.
Definition cBackslash : ascii := "092"%char.

(** ** Scanning *)

Definition is_ws (c : ascii) : bool :=
  (byteZ c =? 32) || (byteZ c =? 9) || (byteZ c =? 13) || (byteZ c =? 10).

Fixpoint skip_ws (s : string) : string :=
  match s with
  | EmptyString => EmptyString
  | String c r => if is_ws c then skip_ws r else s
  end.

(** [getu4]: the value of the next four bytes read as hexadecimal digits. *)
Definition getu4 (s : string) : option Z :=
  match s with
  | String a (String b (String c (String d _))) =>
      x ← hex_value a; y ← hex_value b; z ← hex_value c; w ← hex_value d;
      Some (((x * 16 + y) * 16 + z) * 16 + w)
  | _ => None
  end.

(** [utf16.DecodeRune]. *)
Definition utf16_DecodeRune (r1 r2 : Z) : Z :=
  if inR 0xD800 r1 0xDBFF && inR 0xDC00 r2 0xDFFF
  then Z.lor (Z.shiftl (r1 - 0xD800) 10) (r2 - 0xDC00) + 0x10000 else RuneError.

(** The escape that may follow a high surrogate; -1 when there is none. *)
Definition next_escape (s : string) : Z :=
  match s with
  | String b (String u r) =>
      if Ascii.eqb b cBackslash && Ascii.eqb u "u" then default (-1) (getu4 r) else -1
  | _ => -1
  end.

Definition simple_escape (e : ascii) : option ascii :=
  if Ascii.eqb e cQuote then Some cQuote else
  if Ascii.eqb e cBackslash then Some cBackslash else
  if Ascii.eqb e "/" then Some "/"%char else
  if Ascii.eqb e "b" then Some (chr 8) else
  if Ascii.eqb e "f" then Some (chr 12) else
  if Ascii.eqb e "n" then Some (chr 10) else
  if Ascii.eqb e "r" then Some (chr 13) else
  if Ascii.eqb e "t" then Some (chr 9) else None.

Definition emit (w : string) (p : option (string * string)) : option (string * string) :=
  '(s, r) ← p; Some (w +:+ s, r).

(** The string literal after its opening quote, unquoted, and what follows its
    closing quote.  [skip] bytes of an item just read are passed over. *)
Fixpoint str_body (skip : nat) (s : string) : option (string * string) :=
  match s with
  | EmptyString => None
  | String c r =>
      match skip with
      | S k => str_body k r
      | O =>
          if Ascii.eqb c cQuote then Some (EmptyString, r) else
          if Ascii.eqb c cBackslash then
            match r with
            | EmptyString => None
            | String e r1 =>
                match simple_escape e with
                | Some out => emit (String out "") (str_body 0 r1)
                | None =>
                    if negb (Ascii.eqb e "u") then None else
                    match getu4 r1 with
                    | None => None
                    | Some rr =>
                        if inR 0xD800 rr 0xDFFF then
                          let d := utf16_DecodeRune rr (next_escape (str_drop 4 r1)) in
                          if d =? RuneError then emit (EncodeRune RuneError) (str_body 4 r1)
                          else emit (EncodeRune d) (str_body 10 r1)
                        else emit (EncodeRune rr) (str_body 4 r1)
                    end
                end
            end
          else if byteZ c <? 32 then None
          else let '(rr, w) := DecodeRune s in emit (EncodeRune rr) (str_body (pred w) r)
      end
  end.

Fixpoint take_digits (s : string) : string * string :=
  match s with
  | EmptyString => (EmptyString, EmptyString)
  | String c r => if is_digit c then let '(d, r') := take_digits r in (String c d, r') else (EmptyString, s)
  end.

Definition digits1 (s : string) : option (string * string) :=
  let '(d, r) := take_digits s in if String.eqb d "" then None else Some (d, r).

Definition num_int (s : string) : option (string * string) :=
  match s with
  | EmptyString => None
  | String c r => if Ascii.eqb c "0" then Some ("0", r) else digits1 s
  end.

Definition num_frac (s : string) : option (string * string) :=
  match s with
  | EmptyString => Some (EmptyString, EmptyString)
  | String c r => if Ascii.eqb c "." then '(d, r') ← digits1 r; Some (String c d, r') else Some (EmptyString, s)
  end.

Definition num_sign (s : string) : string * string :=
  match s with
  | EmptyString => (EmptyString, EmptyString)
  | String c r => if Ascii.eqb c "+" || Ascii.eqb c "-" then (String c "", r) else (EmptyString, s)
  end.

Definition num_exp (s : string) : option (string * string) :=
  match s with
  | EmptyString => Some (EmptyString, EmptyString)
  | String c r =>
      if Ascii.eqb c "e" || Ascii.eqb c "E" then
        let '(sg, r1) := num_sign r in
        '(d, r2) ← digits1 r1; Some (String c (sg +:+ d), r2)
      else Some (EmptyString, s)
  end.

(** A number literal: sign, integer part, fraction, exponent. *)
Definition scan_num (s : string) : option (string * string) :=
  let '(sg, s0) := match s with
                   | String c r => if Ascii.eqb c "-" then ("-", r) else (EmptyString, s)
                   | _ => (EmptyString, s)
                   end in
  '(i, s1) ← num_int s0; '(f, s2) ← num_frac s1; '(e, s3) ← num_exp s2;
  Some (sg +:+ i +:+ f +:+ e, s3).

(** The scanner's [maxNestingDepth]. *)
Definition maxNestingDepth : Z := 10000.

Definition literal (w : string) (j : json) (s : string) : option (json * string) :=
  if HasPrefix s w then Some (j, str_drop (String.length w) s) else None.

Fixpoint value (fuel : nat) (depth : Z) (s : string) : option (json * string) :=
  match fuel with
  | O => None
  | S f =>
      match skip_ws s with
      | EmptyString => None
      | String c r =>
          if Ascii.eqb c cQuote then '(v, r') ← str_body 0 r; Some (JStr v, r')
          else if Ascii.eqb c "[" then
            if maxNestingDepth <=? depth then None else
            match skip_ws r with
            | String d r' => if Ascii.eqb d "]" then Some (JArr [], r')
                             else '(l, r'') ← elements f (depth + 1) r; Some (JArr l, r'')
            | EmptyString => None
            end
          else if Ascii.eqb c "{" then
            if maxNestingDepth <=? depth then None else
            match skip_ws r with
            | String d r' => if Ascii.eqb d "}" then Some (JObj [], r')
                             else '(m, r'') ← members f (depth + 1) r; Some (JObj m, r'')
            | EmptyString => None
            end
          else if Ascii.eqb c "n" then literal "null" JNull (String c r)
          else if Ascii.eqb c "t" then literal "true" (JBool true) (String c r)
          else if Ascii.eqb c "f" then literal "false" (JBool false) (String c r)
          else '(lit, r') ← scan_num (String c r); Some (JNum lit, r')
      end
  end
with elements (fuel : nat) (depth : Z) (s : string) : option (list json * string) :=
  match fuel with
  | O => None
  | S f =>
      '(v, r) ← value f depth s;
      match skip_ws r with
      | EmptyString => None
      | String c r' =>
          if Ascii.eqb c "," then '(l, r'') ← elements f depth r'; Some (v :: l, r'')
          else if Ascii.eqb c "]" then Some ([v], r') else None
      end
  end
with members (fuel : nat) (depth : Z) (s : string) : option (list (string * json) * string) :=
  match fuel with
  | O => None
  | S f =>
      match skip_ws s with
      | EmptyString => None
      | String q r0 =>
          if negb (Ascii.eqb q cQuote) then None else
          '(k, r1) ← str_body 0 r0;
          match skip_ws r1 with
          | EmptyString => None
          | String c r2 =>
              if negb (Ascii.eqb c ":") then None else
              '(v, r3) ← value f depth r2;
              match skip_ws r3 with
              | EmptyString => None
              | String c r4 =>
                  if Ascii.eqb c "," then '(m, r5) ← members f depth r4; Some ((k, v) :: m, r5)
                  else if Ascii.eqb c "}" then Some ([(k, v)], r4) else None
              end
          end
      end
  end.

(** Every byte of a document takes at most two calls. *)
Definition parse_json (s : string) : option json :=
  '(j, r) ← value (2 * String.length s + 2) 0 s;
  if String.eqb (skip_ws r) "" then Some j else None.

(** ** Writing *)

Definition unicode_escape (r : Z) : string :=
  String cBackslash (String "u" (String (hex_digit (r / 4096)) (String (hex_digit (r / 256 mod 16))
    (String (hex_digit (r / 16 mod 16)) (String (hex_digit (r mod 16)) ""))))).

Definition escape (c : ascii) : string := String cBackslash (String c "").

(** One rune of a string, [w] bytes wide, as [appendString] writes it with HTML
    escaping on. *)
Definition write_rune (w : nat) (r : Z) : string :=
  if r =? 34 then escape cQuote else
  if r =? 92 then escape cBackslash else
  if r =? 8 then escape "b" else
  if r =? 12 then escape "f" else
  if r =? 10 then escape "n" else
  if r =? 13 then escape "r" else
  if r =? 9 then escape "t" else
  if (r <? 32) || (r =? 60) || (r =? 62) || (r =? 38) then unicode_escape r else
  if (r =? RuneError) && Nat.eqb w 1 then unicode_escape r else
  if (r =? 0x2028) || (r =? 0x2029) then unicode_escape r else EncodeRune r.

Fixpoint write_runes (rs : list (nat * nat * Z)) : string :=
  match rs with
  | [] => ""
  | (_, w, r) :: rs' => write_rune w r +:+ write_runes rs'
  end.

Definition quote (s : string) : string := String cQuote (write_runes (range_str s) +:+ String cQuote "").

Fixpoint Marshal (j : json) : string :=
  match j with
  | JNull => "null"
  | JBool b => if b then "true" else "false"
  | JNum lit => lit
  | JStr s => quote s
  | JArr l => String "[" (Join (map Marshal l) "," +:+ "]")
  | JObj m => String "{" (Join (map (fun '(k, v) => quote k +:+ String ":" (Marshal v)) m) "," +:+ "}")
  end.

(** ** Decoding into Go values *)

(** [foldName]: the case folding under which keys match field names.  A rune
    other than these folds to no ASCII letter. *)
Definition fold_rune (r : Z) : Z :=
  if inR 97 r 122 then r - 32 else if r =? 0x17F then 83 else if r =? 0x212A then 75 else r.

Definition foldName (k : string) : list Z := fold_rune <$> runes k.

Definition key_matches (name k : string) : bool := bool_decide (foldName k = foldName name).

(** The value of a struct field: the members that match it, in order, decoded
    one into the other.  No two fields of a struct of the program fold to the
    same name. *)
Fixpoint field {A} (name : string) (dec : json -> A -> option A) (init : A) (m : list (string * json)) : option A :=
  match m with
  | [] => Some init
  | (k, v) :: m' => if key_matches name k then a ← dec v init; field name dec a m' else field name dec init m'
  end.

Definition dec_str (j : json) (old : string) : option string :=
  match j with JNull => Some old | JStr s => Some s | _ => None end.

Definition dec_bool (j : json) (old : bool) : option bool :=
  match j with JNull => Some old | JBool b => Some b | _ => None end.

(** [strconv.ParseInt] of the literal. *)
Definition dec_int64 (j : json) (old : Z) : option Z :=
  match j with
  | JNull => Some old
  | JNum lit => match Atoi lit with (z, None) => Some z | _ => None end
  | _ => None
  end.

Definition dec_ptr {A} (dec : json -> A -> option A) (zero : A) (j : json) (old : option A) : option (option A) :=
  match j with JNull => Some None | _ => a ← dec j (default zero old); Some (Some a) end.

(** Elements are decoded into the ones the slice already holds. *)
Fixpoint dec_elems {A} (dec : json -> A -> option A) (zero : A) (l : list json) (old : list A) : option (list A) :=
  match l with
  | [] => Some []
  | j :: l' => a ← dec j (default zero (head old)); r ← dec_elems dec zero l' (tail old); Some (a :: r)
  end.

Definition dec_list {A} (dec : json -> A -> option A) (zero : A) (j : json) (old : list A) : option (list A) :=
  match j with JNull => Some [] | JArr l => dec_elems dec zero l old | _ => None end.

Fixpoint dec_entries (m : list (string * json)) (old : gmap string string) : option (gmap string string) :=
  match m with
  | [] => Some old
  | (k, v) :: m' => s ← dec_str v ""; dec_entries m' (<[k := s]> old)
  end.

(** [map[string]string]. *)
Definition dec_strmap (j : json) (old : gmap string string) : option (gmap string string) :=
  match j with JNull => Some ∅ | JObj m => dec_entries m old | _ => None end.

Definition dec_struct {A} (dec : list (string * json) -> A -> option A) (j : json) (old : A) : option A :=
  match j with JNull => Some old | JObj m => dec m old | _ => None end.

(** [json.RawMessage]. *)
Definition dec_raw (j : json) (_ : option json) : option (option json) := Some (Some j).

(** [json.Unmarshal(data, &v)] with [v] fresh. *)
Definition Unmarshal {A} (dec : json -> A -> option A) (zero : A) (data : string) : option A :=
  j ← parse_json data; dec j zero.

(** A struct value: its fields in order, [None] where [omitempty] drops one. *)
Definition obj (fs : list (string * option json)) : json :=
  JObj (omap (fun p => pair p.1 <$> p.2) fs).

Definition omit_str (s : string) : option json := if String.eqb s "" then None else Some (JStr s).
Definition omit_bool (b : bool) : option json := if b then Some (JBool b) else None.
Definition omit_list (l : list json) : option json := match l with [] => None | _ => Some (JArr l) end.

(** A map is written with its keys in order. *)
Definition key_le (p q : string * json) : Prop := String.le p.1 q.1.

#[export] Instance key_le_dec : RelDecision key_le.
Proof. intros p q. unfold key_le. apply _. Defined.

Definition omit_strmap (m : gmap string string) : option json :=
  match map_to_list m with
  | [] => None
  | l => Some (JObj (merge_sort key_le (prod_map id JStr <$> l)))
  end.
