(* ===== verification/GoJSONSpec.v ===== *)
(** [json.Marshal] and [json.Unmarshal] are inverse on JSON values, the fuel of
    the parser is enough for every document, and what a struct field decodes to
    when its member occurs once. *)
From stdpp Require Import gmap sorting.
From S2P Require Import Prelude GoStrings Utf8 GoEncoding GoJSON.

#[local] Set Default Goal Selector "!".
#[local] Open Scope Z_scope.

Section JsonInd.
Variable P : json -> Prop.
Hypothesis HNull : P JNull.
Hypothesis HBool : forall b, P (JBool b).
Hypothesis HNum : forall n, P (JNum n).
Hypothesis HStr : forall s, P (JStr s).
Hypothesis HArr : forall l, Forall P l -> P (JArr l).
Hypothesis HObj : forall m, Forall (fun kv => P kv.2) m -> P (JObj m).

Fixpoint json_rect' (j : json) : P j :=
  match j with
  | JNull => HNull
  | JBool b => HBool b
  | JNum n => HNum n
  | JStr s => HStr s
  | JArr l => HArr l ((fix go l : Forall P l :=
      match l with [] => Forall_nil_2 _ | x :: r => Forall_cons_2 _ x r (json_rect' x) (go r) end) l)
  | JObj m => HObj m ((fix go m : Forall (fun kv => P kv.2) m :=
      match m with [] => Forall_nil_2 _ | x :: r => Forall_cons_2 _ x r (json_rect' x.2) (go r) end) m)
  end.
End JsonInd.

(** ** Values with a written form *)

Definition utf8_ok (s : string) : bool := String.eqb (encode_runes (runes s)) s.
Definition num_ok (lit : string) : bool := bool_decide (scan_num lit = Some (lit, "")).

Fixpoint json_ok (j : json) : bool :=
  match j with
  | JNull | JBool _ => true
  | JNum lit => num_ok lit
  | JStr s => utf8_ok s
  | JArr l => forallb json_ok l
  | JObj m => forallb (fun '(k, v) => utf8_ok k && json_ok v) m
  end.

Fixpoint nesting (j : json) : Z :=
  match j with
  | JArr l => 1 + foldr Z.max 0 (map nesting l)
  | JObj m => 1 + foldr Z.max 0 (map (fun '(_, v) => nesting v) m)
  | _ => 0
  end.

(** ** Strings *)

Lemma str_body_skip w t : str_body (String.length w) (w +:+ t) = str_body 0 t.
Proof. induction w as [|c w IH]; [done|]. rewrite app_cons_s. cbn [str_body String.length]. apply IH. Qed.

Lemma EncodeRune_first r :
  ValidRune r = true -> 32 <= r -> r <> 34 -> r <> 92 ->
  exists c w, EncodeRune r = String c w /\ Ascii.eqb c cQuote = false /\ Ascii.eqb c cBackslash = false /\ (byteZ c <? 32) = false.
Proof.
  intros [Hr Hs]%ValidRune_spec H1 H2 H3. destruct (EncodeRune r) as [|c w] eqn:E; [by destruct (EncodeRune_nonempty r)|].
  exists c, w. split; [done|].
  assert (byteZ c = r \/ 128 <= byteZ c) as Hc.
  { destruct (Z.ltb_spec r 128).
    - left. unfold EncodeRune in E. assert (inR 0xD800 r 0xDFFF || negb (inR 0 r 0x10FFFF) = false) as Hin.
      { unfold inR. rewrite orb_false_iff, negb_false_iff, andb_false_iff, andb_true_iff, !Z.leb_le, !Z.leb_gt. lia. }
      rewrite Hin in E. destruct (Z.ltb_spec r 0x80); [|lia]. injection E as <- <-. apply byteZ_chr. lia.
    - right. assert (str_forall is_high_byte (EncodeRune r) = true) as Hh by (apply EncodeRune_high; lia).
      rewrite E in Hh. cbn [str_forall] in Hh. b2p. by unfold is_high_byte in *; b2p. }
  assert (forall d, byteZ d < 128 -> byteZ d <> r -> Ascii.eqb c d = false) as Hd.
  { intros d Hd1 Hd2. apply Ascii.eqb_neq. intros ->. lia. }
  repeat split; [apply Hd..|apply Z.ltb_ge; lia]; vm_compute (byteZ _); lia.
Qed.

Lemma str_body_encode r t :
  ValidRune r = true -> 32 <= r -> r <> 34 -> r <> 92 ->
  str_body 0 (EncodeRune r +:+ t) = emit (EncodeRune r) (str_body 0 t).
Proof.
  intros Hv H1 H2 H3. destruct (EncodeRune_first r Hv H1 H2 H3) as (c & w & E & Hq & Hb & Hc).
  pose proof (DecodeRune_Encode r t Hv) as HD. rewrite E, app_cons_s in *. cbn [str_body]. rewrite Hq, Hb, Hc, HD.
  cbn [String.length pred]. by rewrite str_body_skip, E.
Qed.

Lemma hex_rune r : 0 <= r < 65536 ->
  ((r / 4096 * 16 + r / 256 mod 16) * 16 + r / 16 mod 16) * 16 + r mod 16 = r.
Proof. intros. zlia. Qed.

Lemma str_body_unicode r t :
  ValidRune r = true -> r < 65536 ->
  str_body 0 (unicode_escape r +:+ t) = emit (EncodeRune r) (str_body 0 t).
Proof.
  intros [Hr Hs]%ValidRune_spec H. unfold unicode_escape. rewrite !app_cons_s. cbn [str_body].
  change (simple_escape "u") with (@None ascii). cbn [Ascii.eqb negb Bool.eqb]. cbn [getu4].
  change (Ascii.eqb cBackslash cQuote) with false. change (Ascii.eqb cBackslash cBackslash) with true.
  change (negb (Ascii.eqb "u" "u")) with false. cbv iota.
  rewrite !hex_value_digit by zlia. cbn [mbind option_bind]. rewrite hex_rune by lia.
  destruct (inR 0xD800 r 0xDFFF) eqn:E; [unfold inR in E; b2p; lia|]. done.
Qed.

Lemma str_body_escape c out t :
  simple_escape c = Some out -> str_body 0 (escape c +:+ t) = emit (String out "") (str_body 0 t).
Proof. intros H. unfold escape. rewrite !app_cons_s, app_nil_l_s. cbn [str_body]. by rewrite H. Qed.

Lemma str_body_rune w r t :
  ValidRune r = true -> str_body 0 (write_rune w r +:+ t) = emit (EncodeRune r) (str_body 0 t).
Proof.
  intros Hv. pose proof Hv as [Hr Hs]%ValidRune_spec. unfold write_rune.
  repeat (case_if; [b2p; subst; first [by apply str_body_escape|idtac]|]).
  - apply str_body_unicode; [done|]. repeat match goal with H : _ || _ = true |- _ => apply orb_true_iff in H as [H|H] end; b2p; lia.
  - apply str_body_unicode; [done|unfold RuneError in *; lia].
  - apply str_body_unicode; [done|]. match goal with H : _ || _ = true |- _ => apply orb_true_iff in H as [H|H] end; b2p; lia.
  - b2p. apply str_body_encode; [done|lia|lia|lia].
Qed.

Lemma str_body_runes rs rest :
  Forall (fun x => ValidRune x.2 = true) rs ->
  str_body 0 (write_runes rs +:+ String cQuote rest) = Some (encode_runes (snd <$> rs), rest).
Proof.
  induction 1 as [|[[o w] r] rs Hr _ IH]; [done|]. cbn [write_runes fmap list_fmap snd encode_runes].
  rewrite app_assoc_s, str_body_rune by done. by rewrite IH.
Qed.

Lemma str_body_quote s rest :
  utf8_ok s = true -> str_body 0 (write_runes (range_str s) +:+ String cQuote "" +:+ rest) = Some (s, rest).
Proof.
  intros H%String.eqb_eq. rewrite app_cons_s, app_nil_l_s, str_body_runes.
  - by rewrite <-H at 2.
  - pose proof (runes_valid s) as Hv. unfold runes in Hv. by rewrite Forall_fmap in Hv.
Qed.

(** ** Numbers *)

(** What may follow a number: nothing the scanner would read as part of it. *)
Definition num_stop (s : string) : Prop :=
  match s with
  | EmptyString => True
  | String c _ => is_digit c = false /\ Ascii.eqb c "." = false /\ Ascii.eqb c "e" = false /\ Ascii.eqb c "E" = false
                  /\ Ascii.eqb c "+" = false /\ Ascii.eqb c "-" = false
  end.

Section NumApp.
Variable rest : string.
Hypothesis Hrest : num_stop rest.

(** Scanning commutes with appending [rest]. *)
Definition extends (scan : string -> option (string * string)) : Prop :=
  forall s d r, scan s = Some (d, r) -> scan (s +:+ rest) = Some (d, r +:+ rest).

Lemma take_digits_app s : take_digits (s +:+ rest) = ((take_digits s).1, (take_digits s).2 +:+ rest).
Proof.
  induction s as [|c s IH].
  - rewrite app_nil_l_s. destruct rest as [|c r]; [done|]. cbn [take_digits num_stop] in *. by destruct Hrest as [-> _].
  - rewrite app_cons_s. cbn [take_digits]. destruct (is_digit c); [|done]. rewrite IH. by destruct (take_digits s).
Qed.

Lemma digits1_app : extends digits1.
Proof.
  intros s d r. unfold digits1. rewrite take_digits_app. destruct (take_digits s) as [d' r']. cbn [fst snd].
  case_if; [done|]. by intros [= <- <-].
Qed.

Lemma num_int_app : extends num_int.
Proof.
  intros s d r. destruct s as [|c s]; [done|]. cbn [num_int]. rewrite app_cons_s. cbn [num_int].
  case_if; [by intros [= <- <-]|]. rewrite <-app_cons_s. apply digits1_app.
Qed.

Lemma num_frac_app : extends num_frac.
Proof.
  intros s d r. destruct s as [|c s].
  - intros [= <- <-]. rewrite app_nil_l_s. destruct rest as [|c r]; [done|]. cbn [num_frac num_stop] in *.
    by destruct Hrest as (_ & -> & _).
  - rewrite app_cons_s. cbn [num_frac]. case_if; [|by intros [= <- <-]].
    destruct (digits1 s) as [[d' r']|] eqn:E; [|done]. apply digits1_app in E. rewrite E. by intros [= <- <-].
Qed.

Lemma num_sign_app s : num_sign (s +:+ rest) = ((num_sign s).1, (num_sign s).2 +:+ rest).
Proof.
  destruct s as [|c s].
  - rewrite app_nil_l_s. destruct rest as [|c r]; [done|]. cbn [num_sign num_stop] in *.
    by destruct Hrest as (_ & _ & _ & _ & -> & ->).
  - rewrite app_cons_s. cbn [num_sign]. by case_if.
Qed.

Lemma num_exp_app : extends num_exp.
Proof.
  intros s d r. destruct s as [|c s].
  - intros [= <- <-]. rewrite app_nil_l_s. destruct rest as [|c r]; [done|]. cbn [num_exp num_stop] in *.
    by destruct Hrest as (_ & _ & -> & -> & _).
  - rewrite app_cons_s. cbn [num_exp]. case_if; [|by intros [= <- <-]]. rewrite num_sign_app.
    destruct (num_sign s) as [sg r1]. cbn [fst snd]. destruct (digits1 r1) as [[d' r']|] eqn:E; [|done].
    apply digits1_app in E. rewrite E. by intros [= <- <-].
Qed.

Lemma scan_num_app lit : scan_num lit = Some (lit, "") -> scan_num (lit +:+ rest) = Some (lit, rest).
Proof.
  unfold scan_num.
  set (sgn := fun s => match s with String c r => if Ascii.eqb c "-" then ("-", r) else ("", s) | _ => ("", s) end).
  change (match lit +:+ rest with String c r => if Ascii.eqb c "-" then ("-", r) else ("", lit +:+ rest) | _ => ("", lit +:+ rest) end)
    with (sgn (lit +:+ rest)).
  change (match lit with String c r => if Ascii.eqb c "-" then ("-", r) else ("", lit) | _ => ("", lit) end) with (sgn lit).
  assert (lit <> "" -> sgn (lit +:+ rest) = ((sgn lit).1, (sgn lit).2 +:+ rest)) as Hs.
  { destruct lit as [|c l]; [done|]. rewrite app_cons_s. unfold sgn. by case_if. }
  destruct (sgn lit) as [sg s0] eqn:E0. intros H.
  rewrite Hs by (intros ->; injection E0 as <- <-; done). cbn [fst snd].
  destruct (num_int s0) as [[i s1]|] eqn:E1; [|done]. cbn [mbind option_bind] in H.
  destruct (num_frac s1) as [[f s2]|] eqn:E2; [|done]. cbn [mbind option_bind] in H.
  destruct (num_exp s2) as [[e s3]|] eqn:E3; [|done]. cbn [mbind option_bind] in H. injection H as H ->.
  rewrite (num_int_app _ _ _ E1). cbn [mbind option_bind]. rewrite (num_frac_app _ _ _ E2). cbn [mbind option_bind].
  rewrite (num_exp_app _ _ _ E3). cbn [mbind option_bind]. by rewrite H.
Qed.
End NumApp.

(** ** Values *)

(** The first byte of what [Marshal] writes tells the kind of value. *)
Definition lead (j : json) (c : ascii) : Prop :=
  match j with
  | JNull => c = "n"%char
  | JBool b => c = if b then "t"%char else "f"%char
  | JNum _ => is_digit c = true \/ c = "-"%char
  | JStr _ => c = cQuote
  | JArr _ => c = "["%char
  | JObj _ => c = "{"%char
  end.

Lemma scan_num_lead lit x : scan_num lit = Some x -> exists c r, lit = String c r /\ (is_digit c = true \/ c = "-"%char).
Proof.
  destruct lit as [|c r]; [done|]. unfold scan_num. intros H. exists c, r. split; [done|].
  destruct (Ascii.eqb_spec c "-"); [by right|]. left. cbn [num_int] in H.
  destruct (Ascii.eqb_spec c "0") as [->|]; [done|]. unfold digits1 in H. cbn [take_digits] in H. by destruct (is_digit c).
Qed.

Lemma Marshal_lead j : json_ok j = true -> exists c r, Marshal j = String c r /\ lead j c.
Proof.
  destruct j as [|b|n|s|l|m]; intros H; cbn [Marshal lead]; [by eauto|destruct b; by eauto| |unfold quote; by eauto|by eauto|by eauto].
  cbn [json_ok] in H. unfold num_ok in H. apply bool_decide_eq_true in H. apply scan_num_lead in H as (c & r & -> & Hc). by eauto.
Qed.

(** No value starts with white space or a closing bracket. *)
Lemma lead_plain j c : lead j c -> is_ws c = false /\ Ascii.eqb c "]" = false /\ Ascii.eqb c "}" = false.
Proof.
  assert (forall c, (negb (is_digit c) && negb (Ascii.eqb c "-")) || (negb (is_ws c) && negb (Ascii.eqb c "]") && negb (Ascii.eqb c "}")) = true) as HD.
  { apply forall_bytes. by vm_compute. }
  destruct j as [|[]|n|s|l|m]; cbn [lead]; try (intros ->; done).
  intros Hc. specialize (HD c). destruct Hc as [Hc| ->]; [|done]. rewrite Hc in HD. cbn [negb andb orb] in HD. by b2p.
Qed.

Lemma skip_ws_cons c r : is_ws c = false -> skip_ws (String c r) = String c r.
Proof. intros H. cbn [skip_ws]. by rewrite H. Qed.

Lemma skip_ws_Marshal j t : json_ok j = true -> skip_ws (Marshal j +:+ t) = Marshal j +:+ t.
Proof.
  intros (c & r & -> & Hc)%Marshal_lead. apply lead_plain in Hc as [Hc _]. rewrite app_cons_s. by apply skip_ws_cons.
Qed.

(** [value] reads back what [Marshal] wrote for [j], with fuel for its bytes. *)
Definition reads (j : json) : Prop :=
  json_ok j = true -> forall f d rest,
  0 <= d -> nesting j + d <= maxNestingDepth -> (2 * String.length (Marshal j) <= f)%nat -> num_stop rest ->
  value f d (Marshal j +:+ rest) = Some (j, rest).

Lemma num_stop_byte c r :
  existsb (Ascii.eqb c) [","%char; "]"%char; "}"%char] = true -> num_stop (String c r).
Proof.
  intros H. apply existsb_exists in H as (x & Hx & ->%Ascii.eqb_eq). cbn [In] in Hx. by destruct Hx as [<-|[<-|[<-|[]]]].
Qed.

Lemma elements_Marshal l f d rest :
  l <> [] -> Forall reads l -> forallb json_ok l = true -> 0 <= d ->
  foldr Z.max 0 (map nesting l) + d <= maxNestingDepth ->
  (2 * String.length (Join (map Marshal l) ",") + 1 <= f)%nat ->
  elements f d (Join (map Marshal l) "," +:+ String "]" rest) = Some (l, rest).
Proof.
  intros Hl HP. revert f Hl. induction HP as [|j l Hj _ IH]; intros f Hl Hok Hd Hn Hf; [done|].
  cbn [forallb] in Hok. apply andb_true_iff in Hok as [Hok1 Hok2]. cbn [map foldr] in Hn.
  destruct f as [|f]; [lia|]. cbn [elements]. destruct l as [|j' l].
  - cbn [map Join] in *. rewrite (Hj Hok1); [|done|lia|lia|by apply num_stop_byte]. done.
  - cbn [map] in *. rewrite Join_cons, !app_assoc_s in * by done. rewrite !length_app_s in Hf.
    rewrite app_cons_s. cbn [String.length] in Hf.
    rewrite (Hj Hok1); [|done|lia|lia|by apply num_stop_byte]. cbn [mbind option_bind].
    rewrite skip_ws_cons by done. change (Ascii.eqb "," ",") with true. cbv iota.
    rewrite app_nil_l_s. rewrite IH; [done|done|done|done|lia|lia].
Qed.

Definition member_text (kv : string * json) : string := let '(k, v) := kv in quote k +:+ String ":" (Marshal v).

Lemma members_head (k : string) (v : json) f d t :
  utf8_ok k = true ->
  members (S f) d (member_text (k, v) +:+ t) =
  ('(v', r3) ← value f d (Marshal v +:+ t);
   match skip_ws r3 with
   | EmptyString => None
   | String c r4 =>
       if Ascii.eqb c "," then '(m, r5) ← members f d r4; Some ((k, v') :: m, r5)
       else if Ascii.eqb c "}" then Some ([(k, v')], r4) else None
   end).
Proof.
  intros Hk. unfold member_text, quote. rewrite !app_cons_s, !app_assoc_s. cbn [members]. rewrite skip_ws_cons by done.
  change (negb (Ascii.eqb cQuote cQuote)) with false. cbv iota. rewrite str_body_quote by done.
  cbn [mbind option_bind]. rewrite app_cons_s, skip_ws_cons by done. done.
Qed.

Lemma members_Marshal m f d rest :
  m <> [] -> Forall (fun kv => reads kv.2) m -> forallb (fun '(k, v) => utf8_ok k && json_ok v) m = true -> 0 <= d ->
  foldr Z.max 0 (map (fun '(_, v) => nesting v) m) + d <= maxNestingDepth ->
  (2 * String.length (Join (map member_text m) ",") + 1 <= f)%nat ->
  members f d (Join (map member_text m) "," +:+ String "}" rest) = Some (m, rest).
Proof.
  intros Hm HP. revert f Hm. induction HP as [|[k v] m Hj _ IH]; intros f Hm Hok Hd Hn Hf; [done|].
  cbn [forallb] in Hok. apply andb_true_iff in Hok as [[Hk Hv]%andb_true_iff Hok2]. cbn [map foldr] in Hn. cbn [snd] in Hj.
  destruct f as [|f]; [lia|].
  assert (String.length (Marshal v) < String.length (member_text (k, v)))%nat as Hlen.
  { unfold member_text, quote. rewrite !length_app_s. cbn [String.length]. lia. }
  destruct m as [|kv m].
  - cbn [map Join] in *. rewrite members_head by done. rewrite (Hj Hv); [|done|lia|lia|by apply num_stop_byte]. done.
  - cbn [map] in *. rewrite Join_cons, !app_assoc_s in * by done. rewrite !length_app_s in Hf. cbn [String.length] in Hf.
    rewrite members_head, app_cons_s by done.
    rewrite (Hj Hv); [|done|lia|lia|by apply num_stop_byte]. cbn [mbind option_bind].
    rewrite skip_ws_cons by done. change (Ascii.eqb "," ",") with true. cbv iota.
    rewrite app_nil_l_s. rewrite IH; [done|done|done|done|lia|lia].
Qed.

Lemma foldr_max_nonneg l : 0 <= foldr Z.max 0 l.
Proof. induction l; cbn [foldr]; lia. Qed.

Lemma literal_app w j rest : literal w j (w +:+ rest) = Some (j, rest).
Proof. unfold literal. by rewrite HasPrefix_app, str_drop_app. Qed.

Lemma reads_all j : reads j.
Proof.
  induction j as [|b|n|s|l IH|m IH] using json_rect'; intros Hok [|f] d rest Hd Hn Hf Hr.
  all: try (destruct (Marshal_lead _ Hok) as (? & ? & Hm & _); rewrite Hm in Hf; cbn [String.length] in Hf; lia).
  - apply (literal_app "null" JNull rest).
  - destruct b; [apply (literal_app "true" (JBool true) rest)|apply (literal_app "false" (JBool false) rest)].
  - cbn [json_ok] in Hok. unfold num_ok in Hok. apply bool_decide_eq_true in Hok.
    cbn [Marshal]. pose proof (scan_num_app rest Hr n Hok) as Hs. apply scan_num_lead in Hok as (c & r & -> & Hc).
    rewrite app_cons_s in *. cbn [value]. destruct (lead_plain (JNum "") c Hc) as [Hw _]. rewrite skip_ws_cons by done.
    assert (existsb (Ascii.eqb c) [cQuote; "["; "{"; "n"; "t"; "f"]%char = false) as He.
    { assert (forall c, (is_digit c || Ascii.eqb c "-") && existsb (Ascii.eqb c) [cQuote; "["; "{"; "n"; "t"; "f"]%char = false) as HD.
      { intros c'. apply negb_true_iff. revert c'. apply forall_bytes. by vm_compute. }
      specialize (HD c). destruct Hc as [Hc| ->]; [|done]. by rewrite Hc in HD. }
    cbn [existsb] in He. repeat (apply orb_false_iff in He as [-> He]). by rewrite Hs.
  - cbn [Marshal]. unfold quote. rewrite app_cons_s, app_assoc_s. cbn [value]. rewrite skip_ws_cons by done.
    change (Ascii.eqb cQuote cQuote) with true. cbv iota. by rewrite str_body_quote.
  - cbn [json_ok nesting] in *. cbn [Marshal] in *. rewrite app_cons_s, app_assoc_s. cbn [value]. rewrite skip_ws_cons by done.
    change (Ascii.eqb "[" cQuote) with false. change (Ascii.eqb "[" "[") with true. cbv iota.
    destruct (Z.leb_spec maxNestingDepth d); [pose proof (foldr_max_nonneg (map nesting l)); lia|].
    cbn [String.length] in Hf. rewrite length_app_s in Hf. cbn [String.length] in Hf.
    destruct l as [|j l]; [done|]. rewrite app_cons_s, app_nil_l_s.
    assert (exists c r, Join (map Marshal (j :: l)) "," = String c r /\ lead j c) as (c & r & HJ & Hc).
    { cbn [forallb] in Hok. apply andb_true_iff in Hok as [(c & r & Hm & Hc)%Marshal_lead _]. cbn [map].
      destruct l as [|j' l]; [cbn [Join map]; by eauto|]. rewrite Join_cons, Hm by done. by eauto. }
    apply lead_plain in Hc as (Hw & Hb & _).
    assert (elements f (d + 1) (Join (map Marshal (j :: l)) "," +:+ String "]" rest) = Some (j :: l, rest)) as He.
    { apply elements_Marshal; [done|done|done|lia|lia|lia]. }
    rewrite HJ, app_cons_s, skip_ws_cons in * by done. rewrite Hb, He. done.
  - cbn [json_ok nesting] in *. cbn [Marshal] in *. rewrite app_cons_s, app_assoc_s. cbn [value]. rewrite skip_ws_cons by done.
    change (Ascii.eqb "{" cQuote) with false. change (Ascii.eqb "{" "[") with false. change (Ascii.eqb "{" "{") with true. cbv iota.
    change (map (fun '(k, v) => quote k +:+ String ":" (Marshal v)) m) with (map member_text m) in *.
    destruct (Z.leb_spec maxNestingDepth d); [pose proof (foldr_max_nonneg (map (fun '(_, v) => nesting v) m)); lia|].
    cbn [String.length] in Hf. rewrite length_app_s in Hf. cbn [String.length] in Hf.
    destruct m as [|[k v] m]; [done|]. rewrite app_cons_s, app_nil_l_s.
    assert (exists r, Join (map member_text ((k, v) :: m)) "," = String cQuote r) as (r & HJ).
    { cbn [map]. destruct m as [|kv m]; [cbn [Join map member_text]; unfold quote; rewrite app_cons_s; by eauto|].
      rewrite Join_cons by done. unfold member_text at 1, quote. rewrite !app_cons_s. by eauto. }
    assert (members f (d + 1) (Join (map member_text ((k, v) :: m)) "," +:+ String "}" rest) = Some ((k, v) :: m, rest)) as He.
    { apply members_Marshal; [done|done|done|lia|lia|lia]. }
    rewrite HJ, app_cons_s, skip_ws_cons in * by done. change (Ascii.eqb cQuote "}") with false. by rewrite He.
Qed.

(** What is written is read back. *)
Lemma parse_Marshal j : json_ok j = true -> nesting j <= maxNestingDepth -> parse_json (Marshal j) = Some j.
Proof.
  intros Hok Hn. unfold parse_json. rewrite <-(app_nil_r_s (Marshal j)) at 2.
  rewrite (reads_all j Hok); [done|done|lia|lia|done].
Qed.

(** ** The fuel of the parser *)

Lemma skip_ws_len s : (String.length (skip_ws s) <= String.length s)%nat.
Proof. induction s as [|c s IH]; [done|]. cbn [skip_ws]. case_if; cbn [String.length]; lia. Qed.

Lemma skip_ws_head s c r : skip_ws s = String c r -> (S (String.length r) <= String.length s)%nat.
Proof. intros H. pose proof (skip_ws_len s) as Hl. by rewrite H in Hl. Qed.

Lemma str_body_len skip s w r : str_body skip s = Some (w, r) -> (S (String.length r) <= String.length s)%nat.
Proof.
  assert (G : forall n s, (String.length s <= n)%nat -> forall skip w r, str_body skip s = Some (w, r) -> (S (String.length r) <= String.length s)%nat).
  { clear. induction n as [|n IH]; intros s Hn skip w r H; destruct s as [|c s]; [done|cbn [String.length] in Hn; lia|done|].
    cbn [String.length] in *. assert (forall u skip w, str_body skip u = Some (w, r) -> (String.length u <= String.length s)%nat ->
      (S (String.length r) <= S (String.length s))%nat) as Hrec.
    { intros u k v Hu Hl. apply IH in Hu; lia. }
    assert (forall v u k, emit v (str_body k u) = Some (w, r) -> (String.length u <= String.length s)%nat ->
      (S (String.length r) <= S (String.length s))%nat) as Hem.
    { intros v u k Hu Hl. unfold emit in Hu. destruct (str_body k u) as [[v' r']|] eqn:E; [|done].
      injection Hu as _ ->. by eapply Hrec. }
    cbn [str_body] in H. destruct skip as [|k]; [|by eapply Hrec].
    case_if_in H; [injection H as _ <-; lia|]. case_if_in H.
    - destruct s as [|e s]; [done|]. cbn [String.length] in *. destruct (simple_escape e) as [o|]; [eapply Hem; [done|lia]|].
      case_if_in H; [done|]. destruct (getu4 s) as [rr|]; [|done]. repeat case_if_in H; eapply Hem; try done; lia.
    - case_if_in H; [done|]. destruct (DecodeRune (String c s)) as [rr k]. by eapply Hem. }
  by apply (G (String.length s)).
Qed.

Lemma take_digits_len s : (String.length (take_digits s).2 <= String.length s)%nat.
Proof.
  induction s as [|c s IH]; [done|]. cbn [take_digits]. case_if; [|done]. destruct (take_digits s) as [d r].
  cbn [snd String.length] in *. lia.
Qed.

Lemma digits1_len s d r : digits1 s = Some (d, r) -> (S (String.length r) <= String.length s)%nat.
Proof.
  unfold digits1. destruct s as [|c s]; [done|]. cbn [take_digits]. case_if; [|done].
  pose proof (take_digits_len s) as H. destruct (take_digits s) as [d' r']. cbn [snd String.eqb String.length] in *.
  intros [= <- <-]. lia.
Qed.

Lemma num_int_len s d r : num_int s = Some (d, r) -> (S (String.length r) <= String.length s)%nat.
Proof.
  destruct s as [|c s]; [done|]. cbn [num_int]. case_if; [intros [= <- <-]; cbn [String.length]; lia|apply digits1_len].
Qed.

Lemma num_frac_len s d r : num_frac s = Some (d, r) -> (String.length r <= String.length s)%nat.
Proof.
  destruct s as [|c s]; [by intros [= <- <-]|]. cbn [num_frac]. case_if; [|by intros [= <- <-]].
  destruct (digits1 s) as [[d' r']|] eqn:E; [|done]. apply digits1_len in E. intros [= <- <-]. cbn [String.length]. lia.
Qed.

Lemma num_exp_len s d r : num_exp s = Some (d, r) -> (String.length r <= String.length s)%nat.
Proof.
  destruct s as [|c s]; [by intros [= <- <-]|]. cbn [num_exp]. case_if; [|by intros [= <- <-]].
  assert (String.length (num_sign s).2 <= String.length s)%nat as Hs.
  { destruct s as [|c' s]; [done|]. cbn [num_sign]. case_if; cbn [snd String.length]; lia. }
  destruct (num_sign s) as [sg r1]. destruct (digits1 r1) as [[d' r']|] eqn:E; [|done]. apply digits1_len in E.
  intros [= <- <-]. cbn [String.length snd] in *. lia.
Qed.

Lemma scan_num_len s d r : scan_num s = Some (d, r) -> (S (String.length r) <= String.length s)%nat.
Proof.
  unfold scan_num. destruct s as [|c s]; [done|].
  assert (exists sg s0, (if Ascii.eqb c "-" then ("-", s) else ("", String c s)) = (sg, s0) /\ (String.length s0 <= S (String.length s))%nat)
    as (sg & s0 & -> & Hl).
  { case_if; do 2 eexists; (split; [done|cbn [String.length]; lia]). }
  destruct (num_int s0) as [[i s1]|] eqn:E1; [|done]. apply num_int_len in E1. cbn [mbind option_bind].
  destruct (num_frac s1) as [[f s2]|] eqn:E2; [|done]. apply num_frac_len in E2. cbn [mbind option_bind].
  destruct (num_exp s2) as [[e s3]|] eqn:E3; [|done]. apply num_exp_len in E3. cbn [mbind option_bind].
  intros [= <- <-]. cbn [String.length]. lia.
Qed.

Lemma str_drop_len n s : (String.length (str_drop n s) <= String.length s)%nat.
Proof. revert s. induction n as [|n IH]; intros [|c s]; cbn [str_drop String.length]; try lia. specialize (IH s). lia. Qed.

Lemma literal_len w j c s v r : w <> "" -> literal w j (String c s) = Some (v, r) -> (S (String.length r) <= S (String.length s))%nat.
Proof.
  intros Hw. unfold literal. case_if; [|done]. intros [= <- <-]. destruct w as [|d w]; [done|]. cbn [String.length str_drop].
  pose proof (str_drop_len (String.length w) s). lia.
Qed.

(** A parse that succeeds consumes input, and succeeds with any fuel that covers
    the input. *)
Definition fuel_enough {A} (p : nat -> Z -> string -> option (A * string)) (extra F : nat) : Prop :=
  forall d s x, p F d s = Some x ->
  (S (String.length x.2) <= String.length s)%nat /\
  forall f, (2 * String.length s + extra <= f)%nat -> p f d s = Some x.

Lemma value_fuel_step F :
  fuel_enough elements 2 F -> fuel_enough members 2 F -> fuel_enough value 1 (S F).
Proof.
  intros HE HM d s x H. cbn [value] in H. destruct (skip_ws s) as [|c r] eqn:Es; [done|].
  pose proof (skip_ws_head _ _ _ Es) as Hl.
  assert (G : (S (String.length x.2) <= S (String.length r))%nat /\
     (forall f, (2 * S (String.length r) + 1 <= f)%nat -> value f d s = Some x)).
  2: { destruct G as [G1 G2]. split; [lia|]. intros f Hf. apply G2. lia. }
  destruct (Ascii.eqb c cQuote) eqn:E1.
  { destruct (str_body 0 r) as [[v r']|] eqn:E; [|done]. pose proof (str_body_len _ _ _ _ E). injection H as <-.
    split; [cbn [snd]; lia|]. intros [|f] Hf; [lia|]. cbn [value]. by rewrite Es, E1, E. }
  destruct (Ascii.eqb c "[") eqn:E2.
  { case_if_in H; [done|]. destruct (skip_ws r) as [|e r'] eqn:Er; [done|]. pose proof (skip_ws_head _ _ _ Er).
    case_if_in H; [injection H as <-; split; [cbn [snd]; lia|]; intros [|f] Hf; [lia|]; cbn [value]; rewrite Es, E1, E2, Er; by repeat case_match|].
    destruct (elements F (d + 1) r) as [[l r'']|] eqn:E; [|done]. injection H as <-. apply HE in E as [E Ef]. cbn [snd] in *.
    split; [lia|]. intros [|f] Hf; [lia|]. cbn [value]. rewrite Es, E1, E2, Er, Ef by lia. by repeat case_match. }
  destruct (Ascii.eqb c "{") eqn:E3.
  { case_if_in H; [done|]. destruct (skip_ws r) as [|e r'] eqn:Er; [done|]. pose proof (skip_ws_head _ _ _ Er).
    case_if_in H; [injection H as <-; split; [cbn [snd]; lia|]; intros [|f] Hf; [lia|]; cbn [value]; rewrite Es, E1, E2, E3, Er; by repeat case_match|].
    destruct (members F (d + 1) r) as [[l r'']|] eqn:E; [|done]. injection H as <-. apply HM in E as [E Ef]. cbn [snd] in *.
    split; [lia|]. intros [|f] Hf; [lia|]. cbn [value]. rewrite Es, E1, E2, E3, Er, Ef by lia. by repeat case_match. }
  split.
  - repeat case_if_in H; [destruct x; by eapply literal_len in H..|].
    destruct (scan_num (String c r)) as [[lit r']|] eqn:E; [|done]. injection H as <-. by apply scan_num_len in E.
  - intros [|f] Hf; [lia|]. cbn [value]. by rewrite Es, E1, E2, E3.
Qed.

Lemma elements_fuel_step F : fuel_enough value 1 F -> fuel_enough elements 2 F -> fuel_enough elements 2 (S F).
Proof.
  intros HV HE d s x H. cbn [elements] in H. destruct (value F d s) as [[v r]|] eqn:Ev; [|done].
  apply HV in Ev as [Hl Ev]. cbn [mbind option_bind snd] in *. destruct (skip_ws r) as [|c r'] eqn:Es; [done|].
  pose proof (skip_ws_head _ _ _ Es). case_if_in H.
  - destruct (elements F d r') as [[l r'']|] eqn:E; [|done]. injection H as <-. apply HE in E as [E Ef]. cbn [snd] in *.
    split; [lia|]. intros [|f] Hf; [lia|]. cbn [elements]. rewrite Ev by lia. cbn [mbind option_bind]. rewrite Es, Ef by lia. by case_match.
  - case_if_in H; [|done]. injection H as <-. cbn [snd]. split; [lia|]. intros [|f] Hf; [lia|]. cbn [elements].
    rewrite Ev by lia. cbn [mbind option_bind]. rewrite Es. by repeat case_match.
Qed.

Lemma members_fuel_step F : fuel_enough value 1 F -> fuel_enough members 2 F -> fuel_enough members 2 (S F).
Proof.
  intros HV HM d s x H. cbn [members] in H. destruct (skip_ws s) as [|q r0] eqn:Es; [done|].
  pose proof (skip_ws_head _ _ _ Es). case_if_in H; [done|].
  destruct (str_body 0 r0) as [[k r1]|] eqn:Ek; [|done]. pose proof (str_body_len _ _ _ _ Ek). cbn [mbind option_bind] in H.
  destruct (skip_ws r1) as [|c r2] eqn:E1; [done|]. pose proof (skip_ws_head _ _ _ E1). case_if_in H; [done|].
  destruct (value F d r2) as [[v r3]|] eqn:Ev; [|done]. apply HV in Ev as [Hl Ev]. cbn [mbind option_bind snd] in *.
  destruct (skip_ws r3) as [|c' r4] eqn:E3; [done|]. pose proof (skip_ws_head _ _ _ E3). case_if_in H.
  - destruct (members F d r4) as [[m r5]|] eqn:E; [|done]. injection H as <-. apply HM in E as [E Ef]. cbn [snd] in *.
    split; [lia|]. intros [|f] Hf; [lia|]. cbn [members]. rewrite Es, Ek. cbn [mbind option_bind]. rewrite E1, Ev by lia.
    cbn [mbind option_bind]. rewrite E3, Ef by lia. by repeat case_match.
  - case_if_in H; [|done]. injection H as <-. cbn [snd]. split; [lia|]. intros [|f] Hf; [lia|]. cbn [members].
    rewrite Es, Ek. cbn [mbind option_bind]. rewrite E1, Ev by lia. cbn [mbind option_bind]. rewrite E3. by repeat case_match.
Qed.

Lemma parser_fuel F : fuel_enough value 1 F /\ fuel_enough elements 2 F /\ fuel_enough members 2 F.
Proof.
  induction F as [|F (HV & HE & HM)]; [done|].
  split; [by apply value_fuel_step|]. split; [by apply elements_fuel_step|by apply members_fuel_step].
Qed.

(** No document is refused for want of fuel. *)
Lemma parse_json_fuel F s j r :
  value F 0 s = Some (j, r) -> skip_ws r = "" -> parse_json s = Some j.
Proof.
  intros H Hr. unfold parse_json. apply (proj1 (parser_fuel F)) in H as [_ H]. rewrite H by lia.
  cbn [mbind option_bind]. by rewrite Hr.
Qed.

(** ** Fields *)

Section Field.
Context {A : Type} (dec : json -> A -> option A).

Lemma field_absent name init m : Forall (fun kv => key_matches name kv.1 = false) m -> field name dec init m = Some init.
Proof. induction 1 as [|[k v] m H _ IH]; [done|]. cbn [field fst] in *. by rewrite H. Qed.

(** A field whose member occurs once takes its value. *)
Lemma field_once name init m k v :
  NoDup (foldName ∘ fst <$> m) -> (k, v) ∈ m -> foldName k = foldName name -> field name dec init m = dec v init.
Proof.
  intros Hnd Hin Hk. induction m as [|[k' v'] m IH]; [by apply not_elem_of_nil in Hin|].
  rewrite fmap_cons, NoDup_cons in Hnd. destruct Hnd as [Hni Hnd]. cbn [compose fst] in Hni. cbn [field].
  apply elem_of_cons in Hin as [[= <- <-]|Hin].
  - assert (key_matches name k = true) as -> by by apply bool_decide_eq_true.
    destruct (dec v init) as [a|]; [|done]. cbn [mbind option_bind]. apply field_absent, Forall_forall.
    intros [k2 v2] H2. apply bool_decide_eq_false. cbn [fst]. intros E. apply Hni, list_elem_of_fmap. exists (k2, v2).
    split; [|done]. cbn [compose fst]. congruence.
  - assert (key_matches name k' = false) as ->; [|by apply IH].
    apply bool_decide_eq_false. intros E. apply Hni, list_elem_of_fmap. exists (k, v). split; [|done]. cbn [compose fst]. congruence.
Qed.
End Field.

(** ** What the parser returns has a written form *)

Lemma EncodeRune_fixed r : exists r', ValidRune r' = true /\ EncodeRune r = EncodeRune r'.
Proof.
  destruct (inR 0xD800 r 0xDFFF || negb (inR 0 r 0x10FFFF)) eqn:E.
  - exists RuneError. split; [done|]. unfold EncodeRune. by rewrite E.
  - exists r. split; [|done]. apply orb_false_iff in E as [E1 E2]. unfold ValidRune. apply negb_false_iff in E2. by rewrite E2, E1.
Qed.

Lemma utf8_encode r s : utf8_ok s = true -> utf8_ok (EncodeRune r +:+ s) = true.
Proof.
  destruct (EncodeRune_fixed r) as (r' & Hr & ->). unfold utf8_ok. intros H%String.eqb_eq. apply String.eqb_eq.
  rewrite runes_cons_encode by done. cbn [encode_runes]. by rewrite H.
Qed.

Lemma utf8_byte c s : is_ascii_byte c = true -> utf8_ok s = true -> utf8_ok (String c s) = true.
Proof. intros Hc Hs. pose proof (utf8_encode (byteZ c) s Hs) as H. by rewrite EncodeRune_ascii in H. Qed.

Lemma str_body_utf8 skip s w r : str_body skip s = Some (w, r) -> utf8_ok w = true.
Proof.
  assert (G : forall n s, (String.length s <= n)%nat -> forall skip w r, str_body skip s = Some (w, r) -> utf8_ok w = true).
  { clear. induction n as [|n IH]; intros s Hn skip w r H; destruct s as [|c s]; [done|cbn [String.length] in Hn; lia|done|].
    cbn [String.length] in *.
    assert (forall rr u k, emit (EncodeRune rr) (str_body k u) = Some (w, r) -> (String.length u <= n)%nat -> utf8_ok w = true) as Hem.
    { intros v u k Hu Hl. unfold emit in Hu. destruct (str_body k u) as [[v' r']|] eqn:E; [|done].
      injection Hu as <- ->. apply utf8_encode. by eapply IH. }
    cbn [str_body] in H. destruct skip as [|k]; [|by eapply (IH s ltac:(lia))].
    case_if_in H; [by injection H as <- <-|]. case_if_in H.
    - destruct s as [|e s]; [done|]. cbn [String.length] in *. destruct (simple_escape e) as [o|] eqn:Eo.
      + assert (is_ascii_byte o = true) as Ho by (unfold simple_escape in Eo; repeat case_if_in Eo; try discriminate; by injection Eo as <-).
        rewrite <-(EncodeRune_ascii o Ho) in H. eapply Hem; [done|lia].
      + case_if_in H; [done|]. destruct (getu4 s) as [rr|]; [|done]. repeat case_if_in H; eapply Hem; try done; lia.
    - case_if_in H; [done|]. destruct (DecodeRune (String c s)) as [rr k]. eapply Hem; [done|lia]. }
  by apply (G (String.length s)).
Qed.

(** Where a digit sequence may stop. *)
Definition no_digit (s : string) : Prop := match s with EmptyString => True | String c _ => is_digit c = false end.

Lemma take_digits_spec s d r : take_digits s = (d, r) -> no_digit r /\ forall t, no_digit t -> take_digits (d +:+ t) = (d, t).
Proof.
  revert d r. induction s as [|c s IH]; intros d r H; cbn [take_digits] in H.
  - injection H as <- <-. split; [done|]. intros [|c t] Ht; [done|]. rewrite app_nil_l_s. cbn [take_digits no_digit] in *. by rewrite Ht.
  - destruct (is_digit c) eqn:Ec.
    + destruct (take_digits s) as [d' r'] eqn:E. injection H as <- <-. destruct (IH d' r' eq_refl) as [Hr Hd]. split; [done|].
      intros t Ht. rewrite app_cons_s. cbn [take_digits]. by rewrite Ec, Hd.
    + injection H as <- <-. split; [done|]. intros [|c' t] Ht; [done|]. rewrite app_nil_l_s. cbn [take_digits no_digit] in *. by rewrite Ht.
Qed.

Lemma digits1_spec s d r : digits1 s = Some (d, r) -> no_digit r /\ forall t, no_digit t -> digits1 (d +:+ t) = Some (d, t).
Proof.
  unfold digits1. destruct (take_digits s) as [d' r'] eqn:E. case_if; [done|]. intros [= <- <-].
  apply take_digits_spec in E as [Hr Hd]. split; [done|]. intros t Ht. rewrite Hd by done. by rewrite Heqb.
Qed.

Lemma digits_sign d : digits1 d = Some (d, "") -> num_sign ("" +:+ d) = ("", d).
Proof.
  rewrite app_nil_l_s. destruct d as [|c d]; [done|]. unfold digits1. cbn [take_digits num_sign].
  destruct (is_digit c) eqn:Ec; [|done]. intros _.
  destruct (Ascii.eqb_spec c "+") as [->|]; [done|]. by destruct (Ascii.eqb_spec c "-") as [->|].
Qed.

Lemma num_exp_spec s e r : num_exp s = Some (e, r) ->
  num_exp e = Some (e, "") /\ (e = "" \/ exists c e', e = String c e' /\ (Ascii.eqb c "e" || Ascii.eqb c "E") = true).
Proof.
  destruct s as [|c s]; [intros [= <- <-]; by split; [|left]|]. cbn [num_exp]. destruct (Ascii.eqb c "e" || Ascii.eqb c "E") eqn:Ec.
  - destruct (num_sign s) as [sg r1] eqn:Es. destruct (digits1 r1) as [[d r2]|] eqn:Ed; [|done]. intros [= <- <-].
    apply digits1_spec in Ed as [_ Hd]. specialize (Hd "" I). rewrite app_nil_r_s in Hd. split; [|by eauto 6].
    cbn [num_exp]. rewrite Ec.
    assert (num_sign (sg +:+ d) = (sg, d)) as ->; [|cbn [mbind option_bind]; by rewrite Hd].
    destruct s as [|c' s]; cbn [num_sign] in Es; [injection Es as <- <-; by apply digits_sign|].
    case_if_in Es; injection Es as <- <-; [rewrite app_cons_s; cbn [num_sign]; by rewrite Heqb|by apply digits_sign].
  - intros [= <- <-]. split; [done|by left].
Qed.

Lemma num_frac_spec s f r e : num_frac s = Some (f, r) ->
  (e = "" \/ exists c e', e = String c e' /\ (Ascii.eqb c "e" || Ascii.eqb c "E") = true) ->
  num_frac (f +:+ e) = Some (f, e) /\ (f = "" \/ exists f', f = String "." f').
Proof.
  intros H He.
  assert (no_digit e /\ forall c e', e = String c e' -> Ascii.eqb c "." = false) as [Hnd Hdot].
  { destruct He as [->|(c & e' & -> & Hc)]; [done|]. apply orb_true_iff in Hc as [->%Ascii.eqb_eq| ->%Ascii.eqb_eq];
      (split; [done|by intros ? ? [= <- <-]]). }
  destruct s as [|c s].
  - injection H as <- <-. rewrite app_nil_l_s. split; [|by left]. destruct e as [|c e]; [done|]. cbn [num_frac]. by rewrite (Hdot c e).
  - cbn [num_frac] in H. destruct (Ascii.eqb_spec c ".") as [->|Hc].
    + destruct (digits1 s) as [[d r2]|] eqn:Ed; [|done]. injection H as <- <-. apply digits1_spec in Ed as [_ Hd].
      split; [|by eauto]. rewrite app_cons_s. cbn [num_frac]. change (Ascii.eqb "." ".") with true. cbv iota. by rewrite Hd.
    + injection H as <- <-. rewrite app_nil_l_s. split; [|by left]. destruct e as [|c' e]; [done|]. cbn [num_frac]. by rewrite (Hdot c' e).
Qed.

Lemma num_int_spec s i r t : num_int s = Some (i, r) -> no_digit t ->
  num_int (i +:+ t) = Some (i, t) /\ exists c i', i = String c i' /\ is_digit c = true.
Proof.
  intros H Ht. destruct s as [|c s]; [done|]. cbn [num_int] in H. destruct (Ascii.eqb_spec c "0") as [->|Hc].
  - injection H as <- <-. rewrite app_cons_s, app_nil_l_s. split; [done|by eauto].
  - pose proof H as Hd. apply digits1_spec in Hd as [_ Hd]. specialize (Hd t Ht). unfold digits1 in H. cbn [take_digits] in H.
    destruct (is_digit c) eqn:Ec; [|done]. destruct (take_digits s) as [d' r']. cbn [String.eqb] in H. injection H as <- <-.
    split; [|by eauto]. rewrite app_cons_s in *. cbn [num_int]. by rewrite (proj2 (Ascii.eqb_neq c "0") Hc).
Qed.

Lemma scan_num_ok s lit r : scan_num s = Some (lit, r) -> num_ok lit = true.
Proof.
  unfold scan_num at 1.
  set (p := match s with String c r0 => if Ascii.eqb c "-" then ("-", r0) else ("", s) | _ => ("", s) end).
  assert (p.1 = "" \/ p.1 = "-") as Hsg by (unfold p; destruct s as [|c s]; [by left|case_if; auto]).
  destruct p as [sg s0]. cbn [fst] in Hsg. intros H.
  destruct (num_int s0) as [[i s1]|] eqn:E1; [|done]. cbn [mbind option_bind] in H.
  destruct (num_frac s1) as [[f s2]|] eqn:E2; [|done]. cbn [mbind option_bind] in H.
  destruct (num_exp s2) as [[e s3]|] eqn:E3; [|done]. cbn [mbind option_bind] in H. injection H as <- _.
  apply num_exp_spec in E3 as [He Hec]. destruct (num_frac_spec _ _ _ e E2 Hec) as [Hf Hfc].
  assert (no_digit (f +:+ e)) as Hnd.
  { destruct Hfc as [->|(f' & ->)]; [|by rewrite app_cons_s]. rewrite app_nil_l_s.
    destruct Hec as [->|(c & e' & -> & Hc)]; [done|]. by apply orb_true_iff in Hc as [->%Ascii.eqb_eq| ->%Ascii.eqb_eq]. }
  destruct (num_int_spec _ _ _ _ E1 Hnd) as [Hi (c & i' & -> & Hc)].
  apply bool_decide_eq_true. unfold scan_num.
  assert (Ascii.eqb c "-" = false) as Hm by (apply Ascii.eqb_neq; by intros ->).
  destruct Hsg as [->| ->]; rewrite ?app_nil_l_s, !app_cons_s, ?app_nil_l_s in *.
  - rewrite Hm, Hi. cbn [mbind option_bind]. rewrite Hf. cbn [mbind option_bind]. rewrite He. cbn [mbind option_bind]. by rewrite app_nil_l_s.
  - change (Ascii.eqb "-" "-") with true. cbv iota. rewrite Hi. cbn [mbind option_bind]. rewrite Hf. cbn [mbind option_bind]. rewrite He.
    cbn [mbind option_bind]. by rewrite !app_cons_s, app_nil_l_s.
Qed.

Lemma parsers_ok f :
  (forall d s j r, value f d s = Some (j, r) -> json_ok j = true) /\
  (forall d s l r, elements f d s = Some (l, r) -> forallb json_ok l = true) /\
  (forall d s m r, members f d s = Some (m, r) -> forallb (fun '(k, v) => utf8_ok k && json_ok v) m = true).
Proof.
  induction f as [|f (HV & HE & HM)]; [done|]. split; [|split]; intros d s x r H.
  - cbn [value] in H. destruct (skip_ws s) as [|c t]; [done|]. case_if_in H.
    { destruct (str_body 0 t) as [[w r']|] eqn:E; [|done]. injection H as <- <-. by apply str_body_utf8 in E. }
    case_if_in H.
    { case_if_in H; [done|]. destruct (skip_ws t); [done|]. case_if_in H; [by injection H as <- <-|].
      destruct (elements f _ _) as [[l r']|] eqn:E; [|done]. injection H as <- <-. by apply HE in E. }
    case_if_in H.
    { case_if_in H; [done|]. destruct (skip_ws t); [done|]. case_if_in H; [by injection H as <- <-|].
      destruct (members f _ _) as [[l r']|] eqn:E; [|done]. injection H as <- <-. by apply HM in E. }
    unfold literal in H. case_if_in H; [case_if_in H; [|done]; by injection H as <- <-|].
    case_if_in H; [case_if_in H; [|done]; by injection H as <- <-|].
    case_if_in H; [case_if_in H; [|done]; by injection H as <- <-|].
    destruct (scan_num _) as [[l r']|] eqn:E; [|done]. injection H as <- <-. by apply scan_num_ok in E.
  - cbn [elements] in H. destruct (value f d s) as [[v r']|] eqn:E; [|done]. apply HV in E. cbn [mbind option_bind] in H.
    destruct (skip_ws r') as [|c t]; [done|]. case_if_in H.
    + destruct (elements f d t) as [[l r'']|] eqn:El; [|done]. apply HE in El. injection H as <- <-. cbn [forallb]. by rewrite E, El.
    + case_if_in H; [|done]. injection H as <- <-. cbn [forallb]. by rewrite E.
  - cbn [members] in H. destruct (skip_ws s) as [|q t]; [done|]. case_if_in H; [done|].
    destruct (str_body 0 t) as [[k r1]|] eqn:Ek; [|done]. apply str_body_utf8 in Ek. cbn [mbind option_bind] in H.
    destruct (skip_ws r1) as [|c t']; [done|]. case_if_in H; [done|].
    destruct (value f d t') as [[v r3]|] eqn:E; [|done]. apply HV in E. cbn [mbind option_bind] in H.
    destruct (skip_ws r3) as [|c' t'']; [done|]. case_if_in H.
    + destruct (members f d t'') as [[m r5]|] eqn:Em; [|done]. apply HM in Em. injection H as <- <-. cbn [forallb]. by rewrite Ek, E, Em.
    + case_if_in H; [|done]. injection H as <- <-. cbn [forallb]. by rewrite Ek, E.
Qed.

Lemma parse_ok s j : parse_json s = Some j -> json_ok j = true.
Proof.
  unfold parse_json. destruct (value _ 0 s) as [[j' r]|] eqn:E; [|done]. cbn [mbind option_bind]. case_if; [|done].
  intros [= <-]. by apply (proj1 (parsers_ok _)) in E.
Qed.

(** ** Decoding keeps strings well formed *)

(** [keeps P dec]: decoding a well-formed value into a target with [P] leaves
    [P]. *)
Definition keeps {A} (P : A -> Prop) (dec : json -> A -> option A) : Prop :=
  forall v a a', json_ok v = true -> P a -> dec v a = Some a' -> P a'.

Definition members_ok (m : list (string * json)) : Prop := forallb (fun '(k, v) => utf8_ok k && json_ok v) m = true.

Lemma field_keeps {A} (P : A -> Prop) dec name (init a : A) m :
  keeps P dec -> members_ok m -> P init -> field name dec init m = Some a -> P a.
Proof.
  intros HK. revert init. induction m as [|[k v] m IH]; intros init Hm Hi H; [by injection H as <-|].
  unfold members_ok in Hm. cbn [forallb] in Hm. apply andb_true_iff in Hm as [[_ Hv]%andb_true_iff Hm]. cbn [field] in H. case_if_in H; [|by eapply IH].
  destruct (dec v init) as [b|] eqn:E; [|done]. cbn [mbind option_bind] in H. by eapply (IH b); [|eapply HK|].
Qed.

Lemma keeps_struct {A} (P : A -> Prop) dec :
  (forall m a a', members_ok m -> P a -> dec m a = Some a' -> P a') -> keeps P (dec_struct dec).
Proof. intros H v a a' Hv Ha E. destruct v; cbn in E; try done; [by injection E as <-|]. by eapply H. Qed.

Lemma keeps_str : keeps (fun s => utf8_ok s = true) dec_str.
Proof. intros v a a' Hv Ha E. destruct v; cbn in E; try done; injection E as <-; done. Qed.

Lemma keeps_bool : keeps (fun _ => True) dec_bool.
Proof. done. Qed.

Lemma keeps_raw : keeps (fun o => match o with Some j => json_ok j = true | None => True end) dec_raw.
Proof. intros v a a' Hv Ha [= <-]. done. Qed.

Lemma keeps_ptr {A} (P : A -> Prop) dec zero :
  P zero -> keeps P dec -> keeps (fun o => match o with Some a => P a | None => True end) (dec_ptr dec zero).
Proof.
  intros Hz HK v a a' Hv Ha E. unfold dec_ptr in E.
  assert (P (default zero a)) by by destruct a.
  destruct v; [by injection E as <-|..]; (destruct (dec _ (default zero a)) as [b0|] eqn:Eb; [|done]; injection E as <-; by eapply HK).
Qed.

Lemma keeps_list {A} (P : A -> Prop) dec zero : P zero -> keeps P dec -> keeps (Forall P) (dec_list dec zero).
Proof.
  intros Hz HK v a a' Hv Ha E. destruct v as [| | | |l|]; cbn [dec_list] in E; try done; [by injection E as <-|].
  cbn [json_ok] in Hv. revert a a' Ha E. induction l as [|j l IH]; intros a a' Ha E; [by injection E as <-|].
  cbn [forallb] in Hv. apply andb_true_iff in Hv as [Hj Hv]. cbn [dec_elems] in E.
  assert (P (default zero (head a)) /\ Forall P (tail a)) as [Hh Ht] by (destruct a; [done|]; by apply Forall_cons in Ha).
  destruct (dec j _) as [b|] eqn:Eb; [|done]. cbn [mbind option_bind] in E. destruct (dec_elems dec zero l (tail a)) as [r|] eqn:Er; [|done].
  injection E as <-. constructor; [by eapply HK|by eapply (IH Hv)].
Qed.

Definition strmap_ok (m : gmap string string) : Prop := map_Forall (fun k v => utf8_ok k = true /\ utf8_ok v = true) m.

Lemma keeps_strmap : keeps strmap_ok dec_strmap.
Proof.
  intros v a a' Hv Ha E. destruct v as [| | | | |m]; cbn [dec_strmap] in E; try done; [injection E as <-; apply map_Forall_empty|].
  cbn [json_ok] in Hv. revert a Ha E. induction m as [|[k v] m IH]; intros a Ha E; [by injection E as <-|].
  cbn [forallb] in Hv. apply andb_true_iff in Hv as [[Hk Hj]%andb_true_iff Hv]. cbn [dec_entries] in E.
  destruct (dec_str v "") as [s|] eqn:Es; [|done]. cbn [mbind option_bind] in E. apply (IH Hv (<[k := s]> a)); [|done].
  apply map_Forall_insert_2; [|done]. split; [done|]. by apply (keeps_str v "" s).
Qed.

(** ** Documents nested too deeply are refused *)

Definition depth_checked (j : json) : Prop :=
  json_ok j = true -> forall f d rest x,
  0 <= d <= maxNestingDepth -> num_stop rest -> value f d (Marshal j +:+ rest) = Some x -> nesting j + d <= maxNestingDepth.

(** A value read back within the bound is the one written, whatever the fuel. *)
Lemma value_written j f d rest x :
  json_ok j = true -> 0 <= d -> nesting j + d <= maxNestingDepth -> num_stop rest ->
  value f d (Marshal j +:+ rest) = Some x -> x = (j, rest).
Proof.
  intros Hok Hd Hn Hr H. apply (proj1 (parser_fuel f)) in H as [_ H].
  pose proof (reads_all j Hok (2 * String.length (Marshal j +:+ rest) + 1)%nat d rest Hd Hn) as HR.
  rewrite length_app_s in HR, H. specialize (HR ltac:(lia) Hr). rewrite H in HR by lia. congruence.
Qed.

Lemma elements_depth l f d rest x :
  Forall depth_checked l -> forallb json_ok l = true -> 0 <= d <= maxNestingDepth ->
  elements f d (Join (map Marshal l) "," +:+ String "]" rest) = Some x -> l <> [] ->
  foldr Z.max 0 (map nesting l) + d <= maxNestingDepth.
Proof.
  intros HP. revert f x. induction HP as [|j l Hj _ IH]; intros f x Hok Hd H Hl; [done|].
  cbn [forallb] in Hok. apply andb_true_iff in Hok as [Hok1 Hok2]. destruct f as [|f]; [done|]. cbn [elements] in H.
  assert (exists t, Join (map Marshal (j :: l)) "," +:+ String "]" rest = Marshal j +:+ t /\ num_stop t /\
    (l = [] \/ t = String "," (Join (map Marshal l) "," +:+ String "]" rest))) as (t & Ht & Hs & Hc).
  { destruct l as [|j' l]; [exists (String "]" rest); cbn [map Join]; auto using num_stop_byte|].
    eexists. cbn [map]. rewrite Join_cons, !app_assoc_s by done. split; [done|]. rewrite app_cons_s, app_nil_l_s.
    split; [by apply num_stop_byte|]. by right. }
  rewrite Ht in H. destruct (value f d (Marshal j +:+ t)) as [[v r]|] eqn:Ev; [|done].
  pose proof (Hj Hok1 f d t _ Hd Hs Ev) as Hn. apply value_written in Ev as [= -> ->]; [|done|lia|done|done].
  cbn [map foldr]. destruct Hc as [->| ->]; [cbn [map foldr]; lia|].
  cbn [mbind option_bind] in H. rewrite skip_ws_cons in H by done. change (Ascii.eqb "," ",") with true in H. cbv iota in H.
  destruct l as [|j' l]; [cbn [map foldr]; lia|].
  destruct (elements f d _) as [[l' r']|] eqn:El in H; [|done]. specialize (IH f _ Hok2 Hd El ltac:(done)). lia.
Qed.

Lemma members_depth m f d rest x :
  Forall (fun kv => depth_checked kv.2) m -> forallb (fun '(k, v) => utf8_ok k && json_ok v) m = true -> 0 <= d <= maxNestingDepth ->
  members f d (Join (map member_text m) "," +:+ String "}" rest) = Some x -> m <> [] ->
  foldr Z.max 0 (map (fun '(_, v) => nesting v) m) + d <= maxNestingDepth.
Proof.
  intros HP. revert f x. induction HP as [|[k v] m Hj _ IH]; intros f x Hok Hd H Hl; [done|]. cbn [snd] in Hj.
  cbn [forallb] in Hok. apply andb_true_iff in Hok as [[Hk Hv]%andb_true_iff Hok2]. destruct f as [|f]; [done|].
  assert (exists t, Join (map member_text ((k, v) :: m)) "," +:+ String "}" rest = member_text (k, v) +:+ t /\ num_stop t /\
    (m = [] \/ t = String "," (Join (map member_text m) "," +:+ String "}" rest))) as (t & Ht & Hs & Hc).
  { destruct m as [|kv m]; [exists (String "}" rest); cbn [map Join]; auto using num_stop_byte|].
    eexists. cbn [map]. rewrite Join_cons, !app_assoc_s by done. split; [done|]. rewrite app_cons_s, app_nil_l_s.
    split; [by apply num_stop_byte|]. by right. }
  rewrite Ht, members_head in H by done. destruct (value f d (Marshal v +:+ t)) as [[v' r]|] eqn:Ev; [|done].
  pose proof (Hj Hv f d t _ Hd Hs Ev) as Hn. apply value_written in Ev as [= -> ->]; [|done|lia|done|done].
  cbn [map foldr]. destruct Hc as [->| ->]; [cbn [map foldr]; lia|].
  cbn [mbind option_bind] in H. rewrite skip_ws_cons in H by done. change (Ascii.eqb "," ",") with true in H. cbv iota in H.
  destruct m as [|kv m]; [cbn [map foldr]; lia|].
  destruct (members f d _) as [[l' r']|] eqn:El in H; [|done]. specialize (IH f _ Hok2 Hd El ltac:(done)). lia.
Qed.

Lemma depth_checked_all j : depth_checked j.
Proof.
  induction j as [|b|n|s|l IH|m IH] using json_rect'; intros Hok f d rest x Hd Hr H; try (cbn [nesting]; lia).
  - destruct f as [|f]; [done|]. cbn [Marshal] in H. rewrite app_cons_s, app_assoc_s in H. cbn [value] in H. rewrite skip_ws_cons in H by done.
    change (Ascii.eqb "[" cQuote) with false in H. change (Ascii.eqb "[" "[") with true in H. cbv iota in H.
    destruct (Z.leb_spec maxNestingDepth d); [done|]. cbn [nesting]. destruct l as [|j l]; [cbn [map foldr]; lia|].
    rewrite app_cons_s, app_nil_l_s in H. destruct (skip_ws _) as [|e r'] eqn:Es in H; [done|].
    assert (Ascii.eqb e "]" = false) as He.
    { cbn [json_ok forallb] in Hok. apply andb_true_iff in Hok as [(c & r & Hm & Hc)%Marshal_lead _]. cbn [map] in Es.
      apply lead_plain in Hc as (Hw & Hb & _).
      destruct l as [|j' l]; [cbn [Join map] in Es; rewrite Hm, app_cons_s, skip_ws_cons in Es by done; by injection Es as <- <-|].
      rewrite Join_cons, Hm, !app_cons_s, skip_ws_cons in Es by done. by injection Es as <- <-. }
    rewrite He in H. destruct (elements f (d + 1) _) as [[l' r'']|] eqn:El in H; [|done].
    apply elements_depth in El; [lia|done|done|lia|done].
  - destruct f as [|f]; [done|]. cbn [Marshal] in H. rewrite app_cons_s, app_assoc_s in H. cbn [value] in H. rewrite skip_ws_cons in H by done.
    change (Ascii.eqb "{" cQuote) with false in H. change (Ascii.eqb "{" "[") with false in H. change (Ascii.eqb "{" "{") with true in H. cbv iota in H.
    change (map (fun '(k, v) => quote k +:+ String ":" (Marshal v)) m) with (map member_text m) in H.
    destruct (Z.leb_spec maxNestingDepth d); [done|]. cbn [nesting]. destruct m as [|[k v] m]; [cbn [map foldr]; lia|].
    rewrite app_cons_s, app_nil_l_s in H. destruct (skip_ws _) as [|e r'] eqn:Es in H; [done|].
    assert (Ascii.eqb e "}" = false) as He.
    { destruct m as [|kv m]; [cbn [map Join] in Es|cbn [map] in Es; rewrite Join_cons in Es by done]; unfold member_text at 1, quote in Es;
        rewrite !app_cons_s, skip_ws_cons in Es by done; by injection Es as <- <-. }
    rewrite He in H. destruct (members f (d + 1) _) as [[l' r'']|] eqn:El in H; [|done].
    apply members_depth in El; [lia|done|done|lia|done].
Qed.

Lemma parse_Marshal_inv j j' : json_ok j = true -> parse_json (Marshal j) = Some j' -> j' = j /\ nesting j <= maxNestingDepth.
Proof.
  intros Hok H. assert (nesting j <= maxNestingDepth) as Hn.
  { unfold parse_json in H. rewrite <-(app_nil_r_s (Marshal j)) in H. destruct (value _ 0 _) as [x|] eqn:E; [|done].
    apply depth_checked_all in E; [lia|done|done|done]. }
  split; [|done]. rewrite parse_Marshal in H by done. by injection H.
Qed.
