(* ===== verification/Jcs.v ===== *)
(** Canonical JSON: [internal/crypto/jcs.go].

    [Canonicalize] calls the RFC 8785 library of the web-PKI project, a
    parameter here: [jcs] gives the canonical bytes of the value a document
    denotes, [jcs_num] the form in which a number literal is written.  [JCSLaws]
    is what the RFC says of them: canonical bytes are JSON for the same value,
    values that differ only in the order of members and the spelling of numbers
    have the same bytes, and an object with a repeated name has none.  Two values
    are the same when their [norm]s are equal. *)
From stdpp Require Import gmap sorting.
From S2P Require Import Prelude GoStrings Utf8 GoEncoding GoJSON GoJSONSpec.

#[local] Set Default Goal Selector "!".
#[local] Open Scope Z_scope.

Class JCS := {
  jcs_num : string -> string;
  jcs : json -> option string
}.

Section Norm.
Context `{J : JCS}.

(** The value with its members in order and its numbers in canonical form. *)
Fixpoint norm (j : json) : json :=
  match j with
  | JNum lit => JNum (jcs_num lit)
  | JArr l => JArr (map norm l)
  | JObj m => JObj (merge_sort key_le (map (fun '(k, v) => (k, norm v)) m))
  | _ => j
  end.
End Norm.

Fixpoint unique_names (j : json) : bool :=
  match j with
  | JArr l => forallb unique_names l
  | JObj m => bool_decide (NoDup (fst <$> m)) && forallb (fun '(_, v) => unique_names v) m
  | _ => true
  end.

Class JCSLaws (J : JCS) : Prop := {
  jcs_denotes j c : jcs j = Some c -> exists j', parse_json c = Some j' /\ norm j' = norm j;
  jcs_norm j j' : norm j = norm j' -> jcs j = jcs j';
  jcs_unique j c : jcs j = Some c -> unique_names j = true
}.

Definition Canonicalize `{J : JCS} (jsonBytes : string) : option string := j ← parse_json jsonBytes; jcs j.

(** [json.Marshal] followed by [Canonicalize]: the [canonicalize] of the event
    packages. *)
Definition canonicalize `{J : JCS} (j : json) : option string := Canonicalize (Marshal j).

(** ** Values up to order *)

#[export] Instance key_le_total : Total key_le.
Proof. intros p q. unfold key_le. apply String.le_total. Qed.

#[export] Instance key_le_trans : Transitive key_le.
Proof. intros p q r. unfold key_le. by intros; etrans. Qed.

Lemma norm_obj_inv `{J : JCS} m j :
  norm j = norm (JObj m) ->
  exists m', j = JObj m' /\ map (fun '(k, v) => (k, norm v)) m' ≡ₚ map (fun '(k, v) => (k, norm v)) m.
Proof.
  destruct j as [| | | | |m']; try done. intros [= H]. exists m'. split; [done|].
  rewrite <-(merge_sort_Permutation key_le (map _ m')), H. apply merge_sort_Permutation.
Qed.

Lemma norm_str_inv `{J : JCS} s j : norm j = JStr s -> j = JStr s.
Proof. by destruct j. Qed.

Lemma norm_arr_inv `{J : JCS} l j :
  norm j = norm (JArr l) -> exists l', j = JArr l' /\ Forall2 (fun a b => norm a = norm b) l' l.
Proof.
  destruct j as [| | | |l'|]; try done. intros [= H]. exists l'. split; [done|].
  revert l' H. induction l as [|b l IH]; intros [|a l'] H; try done. cbn [map] in H. injection H as Ha H. constructor; auto.
Qed.

(** ** Decoding a value in any order

    [decodes R dec init v a]: every value equal to [v] up to order decodes into
    [init] as something related to [a]. *)
Definition decodes `{J : JCS} {A} (R : A -> A -> Prop) (dec : json -> A -> option A) (init : A) (v : json) (a : A) : Prop :=
  forall v', norm v' = norm v -> exists a', dec v' init = Some a' /\ R a a'.

Lemma obj_members (fs : list (string * option json)) k v :
  (k, v) ∈ omap (fun p => pair p.1 <$> p.2) fs <-> (k, Some v) ∈ fs.
Proof.
  rewrite list_elem_of_omap. split.
  - intros ([k' [v'|]] & Hin & E); [|done]. cbn in E. by injection E as -> ->.
  - intros Hin. exists (k, Some v). done.
Qed.

Lemma obj_keys_nodup (fs : list (string * option json)) :
  NoDup (foldName ∘ fst <$> fs) -> NoDup (foldName ∘ fst <$> omap (fun p => pair p.1 <$> p.2) fs).
Proof.
  induction fs as [|[k o] fs IH]; [by constructor|]. rewrite fmap_cons, NoDup_cons. intros [Hni Hnd].
  destruct o as [v|]; cbn; [|by apply IH]. constructor; [|by apply IH]. intros ([k' v'] & E & Hin)%list_elem_of_fmap.
  apply obj_members in Hin. apply Hni, list_elem_of_fmap. exists (k', Some v'). done.
Qed.

Section Obj.
Context `{J : JCS}.
Variable fs : list (string * option json).
Variable m' : list (string * json).
Hypothesis Hnd : NoDup (foldName ∘ fst <$> fs).
Hypothesis Hm' : map (fun '(k, v) => (k, norm v)) m' ≡ₚ map (fun '(k, v) => (k, norm v)) (omap (fun p => pair p.1 <$> p.2) fs).

Lemma obj_nodup' : NoDup (foldName ∘ fst <$> m').
Proof.
  assert (forall m, foldName ∘ fst <$> m = foldName ∘ fst <$> map (fun '(k, v) => (k, norm v)) m) as E.
  { intros m. induction m as [|[k v] m IH]; [done|]. rewrite !fmap_cons. cbn. by f_equal. }
  rewrite E, Hm', <-E. by apply obj_keys_nodup.
Qed.

(** A field of the struct, decoded from the members in another order. *)
Lemma field_obj {A} (R : A -> A -> Prop) name dec (init a : A) (o : option json) :
  (name, o) ∈ fs ->
  match o with Some v => decodes R dec init v a | None => R a init end ->
  exists a', field name dec init m' = Some a' /\ R a a'.
Proof.
  intros Hin HR. destruct o as [v|].
  - apply obj_members in Hin.
    assert ((name, norm v) ∈ map (fun '(k, v) => (k, norm v)) m') as Hin'.
    { rewrite Hm'. apply list_elem_of_In, in_map_iff. exists (name, v). split; [done|by apply list_elem_of_In]. }
    apply list_elem_of_In, in_map_iff in Hin' as ([k v'] & [= -> E] & Hin'%list_elem_of_In).
    rewrite (field_once dec name init m' name v' obj_nodup' Hin' eq_refl). by apply HR.
  - exists init. split; [|done]. apply field_absent, Forall_forall. intros [k v'] Hk. apply bool_decide_eq_false. cbn [fst].
    intros E. assert ((k, norm v') ∈ map (fun '(k, v) => (k, norm v)) (omap (fun p => pair p.1 <$> p.2) fs)) as Hk'.
    { rewrite <-Hm'. apply list_elem_of_In, in_map_iff. exists (k, v'). split; [done|by apply list_elem_of_In]. }
    apply list_elem_of_In, in_map_iff in Hk' as ([k2 v2] & [= -> _] & Hk'%list_elem_of_In). apply obj_members in Hk'.
    assert ((k, Some v2) = (name, None)) as [=]. apply (NoDup_key (foldName ∘ fst) fs); done.
Qed.
End Obj.

Lemma field_obj_rel `{J : JCS} {A} (R : A -> A -> Prop) name dec (init a : A) (o : option json) fs m' :
  map (fun '(k, v) => (k, norm v)) m' ≡ₚ map (fun '(k, v) => (k, norm v)) (omap (fun p => pair p.1 <$> p.2) fs) ->
  NoDup (foldName ∘ fst <$> fs) ->
  (name, o) ∈ fs ->
  match o with Some v => decodes R dec init v a | None => R a init end ->
  exists a', field name dec init m' = Some a' /\ R a a'.
Proof. intros Hm Hnd. by apply field_obj. Qed.

(** The same for a field decoded exactly. *)
Lemma field_obj_eq `{J : JCS} {A} fs m' name dec (init a : A) (o : option json) :
  map (fun '(k, v) => (k, norm v)) m' ≡ₚ map (fun '(k, v) => (k, norm v)) (omap (fun p => pair p.1 <$> p.2) fs) ->
  NoDup (foldName ∘ fst <$> fs) ->
  (name, o) ∈ fs ->
  match o with Some v => decodes eq dec init v a | None => a = init end ->
  field name dec init m' = Some a.
Proof. intros Hm Hnd Hin Ho. by destruct (field_obj fs m' Hnd Hm eq name dec init a o Hin Ho) as (a' & -> & <-). Qed.

(** A field among those of a struct written out. *)
Ltac in_fields := apply list_elem_of_In; repeat first [left; reflexivity | right].

(** The distinct names of a struct written out. *)
Ltac distinct_names := apply (bool_decide_unpack _); vm_compute; exact I.

Section Decoders.
Context `{J : JCS}.

Lemma decodes_str s init : decodes eq dec_str init (JStr s) s.
Proof. intros v' ->%norm_str_inv. by eauto. Qed.

Lemma decodes_bool b init : decodes eq dec_bool init (JBool b) b.
Proof. intros [] [= ->]. by eauto. Qed.

Lemma decodes_raw v init : decodes (fun a b => norm <$> a = norm <$> b) dec_raw init v (Some v).
Proof. intros v' E. eexists. split; [done|]. cbn. by rewrite E. Qed.

Lemma decodes_ptr {A} (R : A -> A -> Prop) dec zero v a :
  v <> JNull -> decodes R dec zero v a -> decodes (option_Forall2 R) (dec_ptr dec zero) None v (Some a).
Proof.
  intros Hv H v' E. destruct (H v' E) as (a' & Ha & HR). exists (Some a'). split; [|by constructor].
  unfold dec_ptr. destruct v'; cbn [default id]; rewrite ?Ha; try done. by destruct v.
Qed.

Lemma decodes_list {A} (R : A -> A -> Prop) dec (zero : A) l la :
  Forall2 (decodes R dec zero) l la -> decodes (Forall2 R) (dec_list dec zero) [] (JArr l) la.
Proof.
  intros H v' E. apply norm_arr_inv in E as (l' & -> & E). cbn [dec_list]. revert la H.
  induction E as [|v' v l' l Hv _ IH]; intros la H; inversion H as [|? ? ? ? Ha Hl]; subst; [by eexists; split|].
  destruct (Ha _ Hv) as (a' & Ea & HR). destruct (IH _ Hl) as (la' & El & HRl).
  exists (a' :: la'). split; [|by constructor]. cbn [dec_elems head tail default from_option]. rewrite Ea. cbn [mbind option_bind]. by rewrite El.
Qed.

Lemma decodes_impl {A} (R R' : A -> A -> Prop) dec init v a :
  (forall a', R a a' -> R' a a') -> decodes R dec init v a -> decodes R' dec init v a.
Proof. intros HR H v' E. destruct (H v' E) as (a' & ? & ?). eauto. Qed.

Lemma decodes_omit_str s : match omit_str s with Some v => decodes eq dec_str "" v s | None => s = "" end.
Proof. unfold omit_str. destruct (String.eqb_spec s ""); [done|apply decodes_str]. Qed.

Lemma decodes_omit_bool b : match omit_bool b with Some v => decodes eq dec_bool false v b | None => b = false end.
Proof. destruct b; [apply decodes_bool|done]. Qed.

(** Slices of structs. *)
Lemma decodes_omit_list {A} (R : A -> A -> Prop) (enc : A -> json) dec zero (l : list A) :
  (forall a, decodes R dec zero (enc a) a) ->
  match omit_list (enc <$> l) with Some v => decodes (Forall2 R) (dec_list dec zero) [] v l | None => Forall2 R l [] end.
Proof.
  intros H. destruct l as [|a l]; [constructor|]. cbn [fmap list_fmap omit_list]. apply decodes_list.
  change (enc a :: _) with (enc <$> (a :: l)). generalize (a :: l). clear -H. intros l. induction l; constructor; auto.
Qed.

Lemma decodes_omit_list_eq {A} (enc : A -> json) dec zero (l : list A) :
  (forall a, decodes eq dec zero (enc a) a) ->
  match omit_list (enc <$> l) with Some v => decodes eq (dec_list dec zero) [] v l | None => l = [] end.
Proof.
  intros H. pose proof (decodes_omit_list eq enc dec zero l H) as HL. destruct (omit_list _) as [v|].
  - eapply decodes_impl; [|exact HL]. intros l' HF. by apply list_eq_Forall2 in HF.
  - by apply Forall2_nil_inv_r in HL.
Qed.

(** Pointers to structs. *)
Lemma decodes_opt {A} (R : A -> A -> Prop) (enc : A -> json) dec zero (o : option A) :
  (forall a, enc a <> JNull) -> (forall a, decodes R dec zero (enc a) a) ->
  match enc <$> o with Some v => decodes (option_Forall2 R) (dec_ptr dec zero) None v o | None => option_Forall2 R o None end.
Proof. intros Hn H. destruct o as [a|]; [by apply decodes_ptr|constructor]. Qed.

Lemma decodes_opt_eq {A} (enc : A -> json) dec zero (o : option A) :
  (forall a, enc a <> JNull) -> (forall a, decodes eq dec zero (enc a) a) ->
  match enc <$> o with Some v => decodes eq (dec_ptr dec zero) None v o | None => o = None end.
Proof.
  intros Hn H. destruct o as [a|]; [|done]. eapply decodes_impl; [|by apply decodes_ptr].
  intros a' HF. inversion HF; by subst.
Qed.

Lemma decodes_struct {A} (R : A -> A -> Prop) dec (zero a : A) fs :
  (forall m', map (fun '(k, v) => (k, norm v)) m' ≡ₚ map (fun '(k, v) => (k, norm v)) (omap (fun p => pair p.1 <$> p.2) fs) ->
              exists a', dec m' zero = Some a' /\ R a a') ->
  decodes R (dec_struct dec) zero (obj fs) a.
Proof. intros H v' E. apply norm_obj_inv in E as (m' & -> & E). by apply H. Qed.

Lemma dec_entries_strs l (old : gmap string string) :
  dec_entries (prod_map id JStr <$> l) old = Some (list_to_map (reverse l) ∪ old).
Proof.
  revert old. induction l as [|[k s] l IH]; intros old; [cbn; by rewrite (left_id_L ∅ (∪))|].
  rewrite fmap_cons. cbn [prod_map id fst snd dec_entries dec_str mbind option_bind]. rewrite IH. f_equal.
  rewrite reverse_cons, list_to_map_app, <-(assoc_L (∪)). f_equal. cbn [list_to_map foldr curry].
  by rewrite insert_union_singleton_l.
Qed.

Lemma norm_strs (m' : list (string * json)) (l : list (string * string)) :
  map (fun '(k, v) => (k, norm v)) m' = prod_map id JStr <$> l -> m' = prod_map id JStr <$> l.
Proof.
  revert l. induction m' as [|[k v] m' IH]; intros [|[k2 s] l] H; try done. rewrite fmap_cons in *. cbn in H.
  injection H as -> Hv%norm_str_inv H. cbn. rewrite Hv. f_equal. by apply IH.
Qed.

Lemma decodes_strmap (m : gmap string string) :
  match omit_strmap m with Some v => decodes eq dec_strmap ∅ v m | None => m = ∅ end.
Proof.
  unfold omit_strmap. destruct (map_to_list m) as [|p l] eqn:E; [by apply map_to_list_empty_iff in E|]. rewrite <-E. clear p l E.
  intros v' E. apply norm_obj_inv in E as (m' & -> & E). exists m. split; [|done]. cbn [dec_strmap].
  assert (map (fun '(k, v) => (k, norm v)) m' ≡ₚ prod_map id JStr <$> map_to_list m) as E'.
  { rewrite E. clear E. transitivity (map (fun '(k, v) => (k, norm v)) (prod_map id JStr <$> map_to_list m)).
    - apply Permutation_map, merge_sort_Permutation.
    - by induction (map_to_list m) as [|[k s] l IH]; [|rewrite fmap_cons; cbn; f_equiv]. }
  apply Permutation_map_inv in E' as (l & E1 & E2). apply norm_strs in E1 as ->.
  rewrite dec_entries_strs, (right_id_L ∅ (∪)). f_equal. rewrite <-(list_to_map_to_list m).
  assert (NoDup (l.*1)) by (rewrite <-E2; apply NoDup_fst_map_to_list).
  apply list_to_map_proper; [|by rewrite reverse_Permutation]. by rewrite fmap_reverse, reverse_Permutation.
Qed.
End Decoders.

(** Lemmas on the structs of a package join the database [decodes]. *)
Create HintDb decodes.
#[export] Hint Resolve decodes_str decodes_bool : decodes.

Ltac decode_value :=
  cbv beta iota;
  first [apply decodes_str | apply decodes_bool | apply decodes_omit_str | apply decodes_omit_bool | apply decodes_strmap
        | apply decodes_omit_list_eq; intros; decode_value
        | apply decodes_opt_eq; [done | intros; decode_value]
        | solve [eauto with decodes]].

(** Decoding a struct written by [obj], field by field. *)
Ltac decode_fields Hm :=
  repeat (erewrite field_obj_eq; [|exact Hm|distinct_names|in_fields|decode_value]; cbn [mbind option_bind]).

(** ** [Canonicalize] *)

Section Canonical.
Context `{J : JCS, !JCSLaws J}.

Lemma jcs_fixed j c : jcs j = Some c -> Canonicalize c = Some c.
Proof.
  intros H. destruct (jcs_denotes j c H) as (j' & Hp & Hn). unfold Canonicalize. rewrite Hp. cbn [mbind option_bind].
  rewrite <-H. by apply jcs_norm.
Qed.

(** Canonical bytes are their own canonical form. *)
Lemma Canonicalize_idempotent s c : Canonicalize s = Some c -> Canonicalize c = Some c.
Proof. unfold Canonicalize at 1. destruct (parse_json s) as [j|]; [|done]. apply jcs_fixed. Qed.

Lemma canonicalize_value j : json_ok j = true -> nesting j <= maxNestingDepth -> canonicalize j = jcs j.
Proof. intros H1 H2. unfold canonicalize, Canonicalize. by rewrite parse_Marshal. Qed.

Lemma canonicalize_Some j c : json_ok j = true -> canonicalize j = Some c -> jcs j = Some c.
Proof.
  intros Hok. unfold canonicalize, Canonicalize. destruct (parse_json (Marshal j)) as [j'|] eqn:E; [|done].
  by apply parse_Marshal_inv in E as [-> _].
Qed.
End Canonical.

(** ** A canonicaliser

    The laws hold of a writer that sorts names by their bytes and keeps number
    literals. *)

Definition reference_norm : json -> json := @norm {| jcs_num := id; jcs := fun _ => None |}.

Definition reference_jcs : JCS := {|
  jcs_num := id;
  jcs := fun j =>
    let n := reference_norm j in
    if json_ok n && (nesting n <=? maxNestingDepth) && unique_names n then Some (Marshal n) else None
|}.

Lemma reference_norm_eq : @norm reference_jcs = reference_norm.
Proof. cbv [norm reference_norm reference_jcs jcs_num]. reflexivity. Qed.

Lemma unique_norm `{J : JCS} j : unique_names (norm j) = unique_names j.
Proof.
  induction j as [| | | |l IH|m IH] using json_rect'; try done; cbn [norm unique_names].
  - induction IH as [|x l Hx _ IHl]; [done|]. cbn [map forallb]. by rewrite Hx, IHl.
  - assert (forall m : list (string * json), fst <$> map (fun '(k, v) => (k, norm v)) m = fst <$> m) as Hk.
    { intros m'. induction m' as [|[k v] m' IHm]; [done|]. cbn [map]. rewrite !fmap_cons. cbn. by f_equal. }
    f_equal.
    + apply bool_decide_ext. by rewrite (merge_sort_Permutation key_le), Hk.
    + transitivity (forallb (fun '(_, v) => unique_names v) (map (fun '(k, v) => (k, norm v)) m)).
      * apply eq_bool_prop_intro. rewrite !Is_true_true, !forallb_forall.
        assert (forall x, In x (merge_sort key_le (map (fun '(k, v) => (k, norm v)) m)) <-> In x (map (fun '(k, v) => (k, norm v)) m)) as Hin.
        { intros x. by rewrite <-!list_elem_of_In, (merge_sort_Permutation key_le). }
        split; intros H x Hx; apply H; by apply Hin.
      * clear Hk. induction IH as [|[k v] m Hx _ IHm]; [done|]. cbn [map forallb]. cbn [snd] in Hx. by rewrite Hx, IHm.
Qed.

Lemma sorted_unique (m : list (string * json)) : NoDup (fst <$> m) -> Sorted key_le m -> merge_sort key_le m = m.
Proof.
  intros Hnd Hs. apply (StronglySorted_unique_strong key_le).
  - intros p q Hp Hq Hpq Hqp. apply (NoDup_key fst m); [done| |done|].
    + by rewrite (merge_sort_Permutation key_le) in Hp.
    + by apply (anti_symm String.le).
  - apply (StronglySorted_merge_sort key_le).
  - by apply Sorted_StronglySorted; [apply _|].
  - apply (merge_sort_Permutation key_le).
Qed.

Lemma norm_idempotent `{J : JCS} j : (forall n, jcs_num (jcs_num n) = jcs_num n) -> unique_names j = true -> norm (norm j) = norm j.
Proof.
  intros Hnum. induction j as [| |n| |l IH|m IH] using json_rect'; intros Hu; try done; cbn [norm unique_names] in *.
  - by rewrite Hnum.
  - f_equal. induction IH as [|x l Hx _ IHl]; [done|]. cbn [map forallb] in *. b2p. f_equal; auto.
  - f_equal. apply andb_true_iff in Hu as [Hnd%bool_decide_eq_true Hu].
    set (s := merge_sort key_le (map (fun '(k, v) => (k, norm v)) m)).
    assert (map (fun '(k, v) => (k, norm v)) s = s) as ->.
    { assert (Forall (fun kv => norm kv.2 = kv.2) s) as Hs.
      { unfold s. rewrite (merge_sort_Permutation key_le). apply Forall_forall. intros kv Hkv.
        apply list_elem_of_In, in_map_iff in Hkv as ([k v] & <- & Hin). cbn [snd]. rewrite forallb_forall in Hu.
        rewrite Forall_forall in IH. by apply (IH (k, v)); [apply list_elem_of_In|apply (Hu (k, v))]. }
      clearbody s. induction Hs as [|[k v] s Hv _ IHs]; [done|]. cbn [map snd] in *. by rewrite Hv, IHs. }
    apply sorted_unique; [|apply (Sorted_merge_sort key_le)]. unfold s. rewrite (merge_sort_Permutation key_le).
    clear -Hnd. induction m as [|[k v] m IHm]; [constructor|]. cbn [map]. rewrite fmap_cons in *. cbn [fst] in *.
    apply NoDup_cons in Hnd as [Hni Hnd]. constructor; [|by apply IHm]. intros ([k2 v2] & -> & Hin)%list_elem_of_fmap.
    apply list_elem_of_In, in_map_iff in Hin as ([k3 v3] & [= <- <-] & Hin). apply Hni, list_elem_of_fmap. exists (k3, v3).
    split; [done|by apply list_elem_of_In].
Qed.

#[export] Instance reference_laws : JCSLaws reference_jcs.
Proof.
  split.
  - intros j c. cbn [jcs reference_jcs]. rewrite <-reference_norm_eq, unique_norm. case_if; [|done]. intros [= <-]. b2p.
    eexists. split; [by apply parse_Marshal|]. by apply norm_idempotent.
  - intros j j'. rewrite reference_norm_eq. cbn [jcs reference_jcs]. by intros ->.
  - intros j c. cbn [jcs reference_jcs]. rewrite <-reference_norm_eq, unique_norm. case_if; [|done]. intros _. by b2p.
Qed.
