(* ===== verification/GoNet.v ===== *)
(** * IP literals

    [net.ParseIP], used by the host-name validation to refuse IP literals: an
    IPv4 dotted quad without leading zeros or an IPv6 address without zone. *)
From S2P Require Import Prelude GoStrings.
From stdpp Require Import list strings.
#[local] Set Default Goal Selector "!".
#[local] Open Scope Z_scope.

(** One octet of a dotted quad: decimal, no leading zero, at most 255. *)
Definition octet_ok (w : string) : bool :=
  match digits_val 0 w with
  | Some v => negb (String.eqb w "") && (v <=? 255)
              && (Nat.eqb (String.length w) 1 || negb (HasPrefix w "0"))
  | None => false
  end.

Definition parseIPv4 (s : string) : bool :=
  let fields := Split s "." in Nat.eqb (length fields) 4 && forallb octet_ok fields.

Definition is_hex (c : ascii) : bool :=
  is_digit c || inR 97 (byteZ c) 102 || inR 65 (byteZ c) 70.

Fixpoint hex_span (s : string) : nat :=
  match s with
  | String c s' => if is_hex c then S (hex_span s') else O
  | EmptyString => O
  end.

(** The group loop of [netip.parseIPv6]. [i] is the number of address bytes
    filled, [ell] whether an ellipsis was seen.  Each round fills two bytes, so
    [fuel = 8] covers [for i < 16]. *)
Fixpoint v6_loop (fuel : nat) (i : Z) (ell : bool) (s : string) : bool :=
  let finish i ell s :=
    String.eqb s "" && (if i <? 16 then ell else negb ell) in
  match fuel with
  | O => finish i ell s
  | S f =>
      let off := hex_span s in
      if Nat.eqb off 0 || Nat.ltb 4 off then false
      else match str_drop off s with
           | EmptyString => finish (i + 2) ell ""
           | String "." _ =>
               if negb ell && negb (i =? 12) then false
               else if 16 <? i + 4 then false
               else parseIPv4 s && finish (i + 4) ell ""
           | String ":" EmptyString => false
           | String ":" (String ":" s2) =>
               if ell then false
               else if String.eqb s2 "" then finish (i + 2) true ""
               else v6_loop f (i + 2) true s2
           | String ":" s1 => v6_loop f (i + 2) ell s1
           | _ => false
           end
  end.

Definition parseIPv6 (s : string) : bool :=
  if ContainsByte s "%" then false
  else if HasPrefix s "::" then
    let s' := str_drop 2 s in if String.eqb s' "" then true else v6_loop 8 0 true s'
  else v6_loop 8 0 false s.

Fixpoint first_of (s : string) : option ascii :=
  match s with
  | EmptyString => None
  | String c s' => if Ascii.eqb c "." || Ascii.eqb c ":" || Ascii.eqb c "%" then Some c else first_of s'
  end.

(** [net.ParseIP(s) != nil] *)
Definition ParseIP (s : string) : bool :=
  match first_of s with
  | Some c => if Ascii.eqb c "." then parseIPv4 s else if Ascii.eqb c ":" then parseIPv6 s else false
  | None => false
  end.

Example ParseIP_literals :
  ParseIP "169.254.169.254" = true /\ ParseIP "256.1.1.1" = false /\ ParseIP "01.2.3.4" = false /\
  ParseIP "::1" = true /\ ParseIP "fe80::1%eth0" = false /\ ParseIP "::ffff:1.2.3.4" = true /\
  ParseIP "1:2:3:4:5:6:7:8" = true /\ ParseIP "1::2::3" = false /\ ParseIP "agent.example.com" = false /\
  ParseIP "1:2:3:4:5:6:7::" = true /\ ParseIP "1:2:3:4:5:6:7:8:9" = false.
Proof. vm_compute. done. Qed.
