(* ===== verification/GoURL.v ===== *)
(** Go's [net/url]: [Parse], [URL.Hostname] and [URL.Port] (Go 1.26).

    A [None] result is a parse error.  Only the fields the program reads are
    kept: whether a userinfo part was present, the decoded path, the raw query
    and the decoded fragment. *)
From S2P Require Import Prelude GoStrings GoNet.

#[local] Set Default Goal Selector "!".
#[local] Open Scope Z_scope.

Record URL := {
  u_Scheme : string;
  u_Opaque : string;
  u_HasUser : bool;
  u_Host : string;
  u_Path : string;
  u_RawQuery : string;
  u_ForceQuery : bool;
  u_Fragment : string
}.

(** ** Cutting strings *)

(** [strings.Cut(s, sep)] for a one-byte separator: before, after, found. *)
Fixpoint Cut (s : string) (sep : ascii) : string * string * bool :=
  match s with
  | EmptyString => ("", "", false)
  | String c s' =>
      if Ascii.eqb c sep then ("", s', true)
      else let '(b, a, f) := Cut s' sep in (String c b, a, f)
  end.

(** [strings.LastIndexByte]. *)
Fixpoint LastIndexByte (s : string) (c : ascii) : option nat :=
  match s with
  | EmptyString => None
  | String d s' => match LastIndexByte s' c with
                   | Some i => Some (S i)
                   | None => if Ascii.eqb d c then Some O else None
                   end
  end.

(** [strings.Index(s, "%25")]. *)
Fixpoint IndexPct25 (s : string) : option nat :=
  match s with
  | EmptyString => None
  | String _ s' => if HasPrefix s "%25" then Some O else S <$> IndexPct25 s'
  end.

(** ** Percent decoding *)

Inductive encoding := encodePath | encodeHost | encodeZone | encodeUserPassword | encodeFragment.

Definition unhex (c : ascii) : Z :=
  if is_digit c then byteZ c - 48
  else if inR 97 (byteZ c) 102 then byteZ c - 87
  else if inR 65 (byteZ c) 70 then byteZ c - 55
  else 0.

Definition dquote : ascii := ascii_of_nat 34.

(** Bytes a host may carry unescaped: [!shouldEscape(c, encodeHost)]. *)
Definition host_byte (c : ascii) : bool :=
  is_alnum c
  || existsb (Ascii.eqb c) ["!"; "$"; "&"; "'"; "("; ")"; "*"; "+"; ","; ";"; "="; ":"; "["; "]"; "<"; ">"; dquote;
                            "-"; "_"; "."; "~"]%char.

Definition is_host_mode (m : encoding) : bool := match m with encodeHost | encodeZone => true | _ => false end.

Fixpoint unescape (m : encoding) (s : string) : option string :=
  match s with
  | EmptyString => Some ""
  | String "%" s1 =>
      match s1 with
      | String a (String b s2) =>
          if negb (is_hex a && is_hex b) then None else
          let v := unhex a * 16 + unhex b in
          let is25 := Ascii.eqb a "2" && Ascii.eqb b "5" in
          if match m with
             | encodeHost => (unhex a <? 8) && negb is25
             | encodeZone => negb is25 && negb (v =? 32) && negb (host_byte (chr v))
             | _ => false
             end
          then None
          else r ← unescape m s2; Some (String (chr v) r)
      | _ => None
      end
  | String c s1 =>
      if is_host_mode m && is_ascii_byte c && negb (host_byte c) then None
      else r ← unescape m s1; Some (String c r)
  end.

(** ** Authority *)

Definition validOptionalPort (port : string) : bool :=
  match port with
  | EmptyString => true
  | String c rest => Ascii.eqb c ":" && str_forall is_digit rest
  end.

Definition userinfo_byte (c : ascii) : bool :=
  is_alnum c
  || existsb (Ascii.eqb c) ["-"; "."; "_"; ":"; "~"; "!"; "$"; "&"; "'"; "("; ")"; "*"; "+"; ","; ";"; "="; "%"; "@"]%char.

(** [netip.ParseAddr] on the text between brackets, which must not be IPv4: an
    IPv6 address, optionally with a non-empty zone. *)
Definition bracket_addr_ok (s : string) : bool :=
  let '(addr, zone, hasZone) := Cut s "%" in
  match first_of s with
  | Some ":"%char => parseIPv6 addr && (negb hasZone || negb (String.eqb zone ""))
  | _ => false
  end.

Definition parseHost (host : string) : option string :=
  match LastIndexByte host "[" with
  | Some (S _) => None
  | Some O =>
      match LastIndexByte host "]" with
      | None => None
      | Some close =>
          let colonPort := str_drop (S close) host in
          if negb (validOptionalPort colonPort) then None else
          unescapedColonPort ← unescape encodeHost colonPort;
          let hostname := str_drop 1 (str_take close host) in
          unescapedHostname ←
            match IndexPct25 hostname with
            | Some z => h ← unescape encodeHost (str_take z hostname);
                        z' ← unescape encodeZone (str_drop z hostname);
                        Some (h +:+ z')
            | None => unescape encodeHost hostname
            end;
          if negb (bracket_addr_ok unescapedHostname) then None
          else Some (("[" +:+ unescapedHostname +:+ "]") +:+ unescapedColonPort)
      end
  | None =>
      let '(before, after, found) := Cut host ":" in
      if found && negb (validOptionalPort (String ":" after)) then None
      else unescape encodeHost host
  end.

(** Host and presence of userinfo. *)
Definition parseAuthority (authority : string) : option (bool * string) :=
  match LastIndexByte authority "@" with
  | None => h ← parseHost authority; Some (false, h)
  | Some i =>
      h ← parseHost (str_drop (S i) authority);
      let userinfo := str_take i authority in
      if negb (str_forall userinfo_byte userinfo) then None else
      let '(username, password, _) := Cut userinfo ":" in
      _ ← unescape encodeUserPassword username;
      _ ← unescape encodeUserPassword password;
      Some (true, h)
  end.

(** ** Parse *)

(** [getScheme]: the scheme (empty when there is none) and the rest. *)
Fixpoint scheme_scan (first : bool) (s : string) : option (string * string) :=
  match s with
  | EmptyString => None
  | String c s' =>
      if is_upper c || is_lower c
         || (negb first && (is_digit c || Ascii.eqb c "+" || Ascii.eqb c "-" || Ascii.eqb c "."))
      then '(a, b) ← scheme_scan false s'; Some (String c a, b)
      else if Ascii.eqb c ":" then Some ("", s') else None
  end.

(** Outer [None]: "missing protocol scheme". *)
Definition getScheme (s : string) : option (string * string) :=
  match scheme_scan true s with
  | Some (EmptyString, _) => None
  | Some (sch, rest) => Some (sch, rest)
  | None => Some ("", s)
  end.

Definition is_ctl (c : ascii) : bool := (byteZ c <? 32) || (byteZ c =? 127).

(** [strings.Count(s, "?")]. *)
Fixpoint CountByte (s : string) (c : ascii) : nat :=
  match s with
  | EmptyString => O
  | String d s' => ((if Ascii.eqb d c then 1 else 0) + CountByte s' c)%nat
  end.

Definition EmptyURL : URL :=
  {| u_Scheme := ""; u_Opaque := ""; u_HasUser := false; u_Host := ""; u_Path := "";
     u_RawQuery := ""; u_ForceQuery := false; u_Fragment := "" |}.

Section Parse.
Context `{U : UnicodeTables}.

(** [url.parse(rawURL, false)]: everything but the fragment. *)
Definition parse_no_fragment (rawURL : string) : option URL :=
  if negb (str_forall (fun c => negb (is_ctl c)) rawURL) then None else
  if String.eqb rawURL "*" then
    Some {| u_Scheme := ""; u_Opaque := ""; u_HasUser := false; u_Host := ""; u_Path := "*";
            u_RawQuery := ""; u_ForceQuery := false; u_Fragment := "" |}
  else
  '(sch0, rest0) ← getScheme rawURL;
  let sch := ToLower sch0 in
  let '(rest, rawQuery, force) :=
    if bool_decide (last_byte rest0 = Some "?"%char) && (CountByte rest0 "?" =? 1)%nat
    then (str_take (String.length rest0 - 1) rest0, "", true)
    else let '(b, a, _) := Cut rest0 "?" in (b, a, false) in
  if negb (HasPrefix rest "/") && negb (String.eqb sch "") then
    Some {| u_Scheme := sch; u_Opaque := rest; u_HasUser := false; u_Host := ""; u_Path := "";
            u_RawQuery := rawQuery; u_ForceQuery := force; u_Fragment := "" |}
  else
  if negb (HasPrefix rest "/") && ContainsByte (Cut rest "/").1.1 ":" then None else
  if (negb (String.eqb sch "") || negb (HasPrefix rest "///")) && HasPrefix rest "//" then
    let authority0 := str_drop 2 rest in
    let '(authority, path) :=
      match IndexByte authority0 "/" with
      | Some i => (str_take i authority0, str_drop i authority0)
      | None => (authority0, "")
      end in
    '(user, host) ← parseAuthority authority;
    p ← unescape encodePath path;
    Some {| u_Scheme := sch; u_Opaque := ""; u_HasUser := user; u_Host := host; u_Path := p;
            u_RawQuery := rawQuery; u_ForceQuery := force; u_Fragment := "" |}
  else
    p ← unescape encodePath rest;
    Some {| u_Scheme := sch; u_Opaque := ""; u_HasUser := false; u_Host := ""; u_Path := p;
            u_RawQuery := rawQuery; u_ForceQuery := force; u_Fragment := "" |}.

(** [url.Parse]. *)
Definition Parse (rawURL : string) : option URL :=
  let '(u, frag, _) := Cut rawURL "#" in
  url ← parse_no_fragment u;
  if String.eqb frag "" then Some url else
  f ← unescape encodeFragment frag;
  Some {| u_Scheme := u_Scheme url; u_Opaque := u_Opaque url; u_HasUser := u_HasUser url;
          u_Host := u_Host url; u_Path := u_Path url; u_RawQuery := u_RawQuery url;
          u_ForceQuery := u_ForceQuery url; u_Fragment := f |}.
End Parse.

(** [splitHostPort], behind [Hostname] and [Port]. *)
Definition splitHostPort (hostPort : string) : string * string :=
  let '(host, port) :=
    match LastIndexByte hostPort ":" with
    | Some i => if validOptionalPort (str_drop i hostPort)
                then (str_take i hostPort, str_drop (S i) hostPort) else (hostPort, "")
    | None => (hostPort, "")
    end in
  if HasPrefix host "[" && bool_decide (last_byte host = Some "]"%char)
  then (str_take (String.length host - 2) (str_drop 1 host), port)
  else (host, port).

Definition URL_Hostname (u : URL) : string := (splitHostPort (u_Host u)).1.
Definition URL_Port (u : URL) : string := (splitHostPort (u_Host u)).2.
Definition URL_IsAbs (u : URL) : bool := negb (String.eqb (u_Scheme u) "").

Example Parse_examples :
  let parse := @Parse latin_tables in
  (exists u, parse "https://agent.example.com:8443/mcp?x=1#f" = Some u /\ u_Scheme u = "https" /\
     URL_Hostname u = "agent.example.com" /\ URL_Port u = "8443" /\ u_Path u = "/mcp" /\
     u_RawQuery u = "x=1" /\ u_Fragment u = "f") /\
  (exists u, parse "HTTP://user:pw@[fe80::1%25en0]:80/a%20b?" = Some u /\ u_HasUser u = true /\
     URL_Hostname u = "fe80::1%en0" /\ u_Path u = "/a b" /\ u_ForceQuery u = true) /\
  parse "https://a:b:1/" = None /\ parse "https://a b/" = None /\ parse "https://%41/" = None /\
  parse "://x" = None /\ parse "a:b" <> None /\ parse "1a:b" = None /\ parse "https://h/%zz" = None.
Proof.
  cbn zeta. split_and!; try (vm_compute; congruence);
    (eexists; split; [vm_compute; reflexivity|]; vm_compute; done).
Qed.

(** ** URLs assembled from a host and a path *)

Lemma Cut_app a b sep :
  ContainsByte a sep = false ->
  Cut (a +:+ b) sep = (a +:+ (Cut b sep).1.1, (Cut b sep).1.2, (Cut b sep).2).
Proof.
  induction a as [|c a IH]; intros H.
  { rewrite !app_nil_l_s. by destruct (Cut b sep) as [[? ?] ?]. }
  rewrite ContainsByte_cons in H. apply orb_false_iff in H as [Hc H].
  rewrite !app_cons_s. cbn [Cut]. rewrite (Ascii.eqb_sym c sep), Hc, IH by done. done.
Qed.

Lemma Cut_spec s sep :
  ContainsByte (Cut s sep).1.1 sep = false /\
  s = (Cut s sep).1.1 +:+ (if (Cut s sep).2 then String sep (Cut s sep).1.2 else "") /\
  ((Cut s sep).2 = false -> (Cut s sep).1.2 = "").
Proof.
  induction s as [|c s IH]; [done|]. cbn [Cut]. destruct (Ascii.eqb_spec c sep) as [->|Hc]; [done|].
  destruct (Cut s sep) as [[b a] f]. cbn [fst snd] in *. destruct IH as (I1 & I2 & I3). split_and!; [|by rewrite app_cons_s, <- I2|done].
  rewrite ContainsByte_cons, I1. destruct (Ascii.eqb_spec sep c); [congruence|done].
Qed.

Lemma LastIndexByte_None s c : ContainsByte s c = false -> LastIndexByte s c = None.
Proof.
  induction s as [|d s IH]; [done|]. rewrite ContainsByte_cons. intros [Hd Hs]%orb_false_iff.
  cbn [LastIndexByte]. by rewrite IH, (Ascii.eqb_sym d c), Hd.
Qed.

Lemma IndexByte_app a b c : ContainsByte a c = false -> IndexByte (a +:+ String c b) c = Some (String.length a).
Proof.
  induction a as [|d a IH]; intros H.
  { rewrite app_nil_l_s. cbn [IndexByte]. by rewrite Ascii.eqb_refl. }
  rewrite ContainsByte_cons in H. apply orb_false_iff in H as [Hd H].
  rewrite app_cons_s. cbn [IndexByte String.length]. by rewrite Hd, IH.
Qed.

Lemma unescape_cons m c s :
  Ascii.eqb c "%" = false ->
  unescape m (String c s) =
  if is_host_mode m && is_ascii_byte c && negb (host_byte c) then None
  else r ← unescape m s; Some (String c r).
Proof.
  intros Hc. cbn [unescape]. destruct c as [[] [] [] [] [] [] [] []]; try reflexivity. vm_compute in Hc. discriminate.
Qed.

(** No percent sign: decoding is the identity outside host modes. *)
Lemma unescape_plain m s :
  is_host_mode m = false -> ContainsByte s "%" = false -> unescape m s = Some s.
Proof.
  intros Hm. induction s as [|c s IH]; [done|]. rewrite ContainsByte_cons. intros [Hc Hs]%orb_false_iff.
  rewrite unescape_cons by (by rewrite Ascii.eqb_sym). by rewrite Hm, IH.
Qed.

(** Bytes of a plain DNS host name. *)
Definition dns_byte (c : ascii) : bool :=
  is_lower c || is_digit c || Ascii.eqb c "-" || Ascii.eqb c ".".

Lemma unescape_dns s : str_forall dns_byte s = true -> unescape encodeHost s = Some s.
Proof.
  induction s as [|c s IH]; [done|]. cbn [str_forall]. intros [Hc Hs]%andb_true_iff.
  assert (Ascii.eqb c "%" = false /\ host_byte c = true) as [H1 H2] by (revert Hc; clear; revert c; all_bytes).
  rewrite unescape_cons, IH, H2, andb_false_r by done. done.
Qed.

Lemma dns_no_byte s c : str_forall dns_byte s = true -> dns_byte c = false -> ContainsByte s c = false.
Proof. apply ContainsByte_forall. Qed.

Lemma parseAuthority_dns s : str_forall dns_byte s = true -> parseAuthority s = Some (false, s).
Proof.
  intros H. unfold parseAuthority, parseHost.
  rewrite !LastIndexByte_None by (by apply (dns_no_byte s)).
  assert (Ec : Cut s ":" = (s, "", false)).
  { rewrite <- (app_nil_r_s s) at 1. rewrite Cut_app by (by apply (dns_no_byte s)).
    cbn. by rewrite app_nil_r_s. }
  rewrite Ec, unescape_dns by done. done.
Qed.

Lemma splitHostPort_dns s : s <> "" -> str_forall dns_byte s = true -> splitHostPort s = (s, "").
Proof.
  intros Hn H. unfold splitHostPort. rewrite LastIndexByte_None by (by apply (dns_no_byte s)).
  destruct s as [|c s]; [done|]. simpl in H. apply andb_true_iff in H as [Hc _].
  assert (HasPrefix (String c s) "[" = false) as ->; [|done].
  destruct (HasPrefix (String c s) "[") eqn:E; [|done]. apply HasPrefix_split in E.
  rewrite app_cons_s in E. injection E as ->. vm_compute in Hc. discriminate.
Qed.

Lemma last_byte_take s : s <> "" -> exists c, last_byte s = Some c /\ s = str_take (String.length s - 1) s +:+ String c "".
Proof.
  induction s as [|d s IH]; [done|]. intros _. destruct s as [|d' s].
  { exists d. done. }
  destruct IH as (c & Hc & E); [done|]. exists c. split; [exact Hc|].
  replace (String.length (String d (String d' s)) - 1)%nat with (S (String.length (String d' s) - 1))%nat
    by (simpl; lia).
  cbn [str_take]. rewrite app_cons_s, <- E. done.
Qed.

Lemma str_forall_take f n s : str_forall f s = true -> str_forall f (str_take n s) = true.
Proof.
  revert s. induction n as [|n IH]; intros [|c s]; simpl; try done.
  rewrite !andb_true_iff. intros [? ?]. auto.
Qed.

Lemma ContainsByte_take c n s : ContainsByte s c = false -> ContainsByte (str_take n s) c = false.
Proof. unfold ContainsByte. rewrite !negb_false_iff. apply str_forall_take. Qed.

Section Assembled.
Context `{U : UnicodeTables}.

(** The query step keeps the authority and a prefix of the path. *)
Lemma query_split h t :
  str_forall dns_byte h = true ->
  let rest0 := "//" +:+ h +:+ "/" +:+ t in
  exists t' q f,
    (if bool_decide (last_byte rest0 = Some "?"%char) && (CountByte rest0 "?" =? 1)%nat
     then (str_take (String.length rest0 - 1) rest0, "", true)
     else let '(b, a, _) := Cut rest0 "?" in (b, a, false)) = ("//" +:+ h +:+ "/" +:+ t', q, f)
    /\ (t' = (Cut t "?").1.1 \/ exists n, t' = str_take n t).
Proof.
  intros H. cbn zeta.
  assert (Hq : ContainsByte ("//" +:+ h +:+ "/") "?" = false).
  { rewrite !ContainsByte_app, (dns_no_byte h) by done. done. }
  case_if.
  - apply andb_true_iff in Heqb as [E _]. b2p.
    destruct (String.eqb_spec t "") as [->|Ht].
    { exfalso. rewrite app_nil_r_s, <- app_assoc_s, last_byte_app in E by done. vm_compute in E. congruence. }
    destruct (last_byte_take t Ht) as (c & _ & Et).
    generalize dependent (str_take (String.length t - 1) t). intros t0 Et. subst t.
    exists t0, "", true. split; [|right; exists (String.length t0); by rewrite str_take_app]. f_equal. f_equal.
    replace ("//" +:+ h +:+ "/" +:+ t0 +:+ String c "") with (("//" +:+ h +:+ "/" +:+ t0) +:+ String c "")
      by (by rewrite !app_assoc_s).
    rewrite length_app_s. replace (String.length (String c "")) with 1%nat by done.
    rewrite Nat.add_sub. apply str_take_app.
  - exists (Cut t "?").1.1, (Cut t "?").1.2, false. split; [|by left].
    replace ("//" +:+ h +:+ "/" +:+ t) with (("//" +:+ h +:+ "/") +:+ t) by (by rewrite !app_assoc_s).
    rewrite Cut_app by done. by rewrite !app_assoc_s.
Qed.

Lemma scheme_https s : getScheme ("https:" +:+ s) = Some ("https", s).
Proof. done. Qed.

(** An https URL assembled from a plain host and a path without percent signs
    or control bytes parses to that host, with no userinfo and no port. *)
Lemma Parse_assembled h t :
  h <> "" -> str_forall dns_byte h = true ->
  str_forall (fun c => negb (is_ctl c)) t = true -> ContainsByte t "%" = false ->
  exists u, Parse ("https://" +:+ h +:+ "/" +:+ t) = Some u /\ u_Scheme u = "https" /\
    u_HasUser u = false /\ u_Host u = h /\ URL_Hostname u = h /\ URL_Port u = "".
Proof.
  intros Hn H Hc Hp. unfold Parse.
  replace ("https://" +:+ h +:+ "/" +:+ t) with (("https://" +:+ h +:+ "/") +:+ t) by (by rewrite !app_assoc_s).
  rewrite Cut_app by (rewrite !ContainsByte_app, (dns_no_byte h) by done; done).
  destruct (Cut_spec t "#") as (_ & Et & _). set (t1 := (Cut t "#").1.1) in *. set (frag := (Cut t "#").1.2) in *.
  assert (Hc1 : str_forall (fun c => negb (is_ctl c)) t1 = true).
  { rewrite Et, str_forall_app in Hc. by apply andb_true_iff in Hc as [? _]. }
  assert (Hp1 : ContainsByte t1 "%" = false).
  { rewrite Et, ContainsByte_app in Hp. by apply orb_false_iff in Hp as [? _]. }
  assert (Hf : ContainsByte frag "%" = false).
  { rewrite Et, ContainsByte_app in Hp. apply orb_false_iff in Hp as [_ Hp].
    destruct (Cut_spec t "#") as (_ & _ & Hz). fold frag in Hz. destruct ((Cut t "#").2); [|by rewrite Hz].
    rewrite ContainsByte_cons in Hp. by apply orb_false_iff in Hp as [_ ?]. }
  assert (HP : exists u, parse_no_fragment (("https://" +:+ h +:+ "/") +:+ t1) = Some u /\ u_Scheme u = "https" /\
                 u_HasUser u = false /\ u_Host u = h).
  { unfold parse_no_fragment. rewrite !app_assoc_s.
    assert (Hh : str_forall (fun c => negb (is_ctl c)) h = true).
    { eapply str_forall_impl; [|exact H]. clear. all_bytes. }
    rewrite !str_forall_app, Hh, Hc1. cbn [str_forall andb negb].
    replace ("https://" +:+ h +:+ "/" +:+ t1) with ("https:" +:+ ("//" +:+ h +:+ "/" +:+ t1)) by reflexivity.
    rewrite scheme_https. assert (String.eqb ("https:" +:+ ("//" +:+ h +:+ "/" +:+ t1)) "*" = false) as -> by reflexivity.
    cbn [mbind option_bind]. rewrite ToLower_stable by reflexivity.
    destruct (query_split h t1 H) as (t2 & q & f & -> & Ht2).
    assert (Hp2 : ContainsByte t2 "%" = false).
    { destruct Ht2 as [->|[n ->]]; [|by apply ContainsByte_take].
      destruct (Cut_spec t1 "?") as (_ & E & _). rewrite E, ContainsByte_app in Hp1.
      by apply orb_false_iff in Hp1 as [? _]. }
    assert (HasPrefix ("//" +:+ h +:+ "/" +:+ t2) "/" = true) as -> by (apply (HasPrefix_app "/" ("/" +:+ h +:+ "/" +:+ t2))).
    rewrite (HasPrefix_app "//"). cbn [negb andb orb String.eqb].
    replace (str_drop 2 ("//" +:+ h +:+ "/" +:+ t2)) with (h +:+ "/" +:+ t2) by reflexivity.
    change ("/" +:+ t2) with (String "/" ("" +:+ t2)). rewrite app_nil_l_s.
    rewrite IndexByte_app by (by apply (dns_no_byte h)). rewrite str_take_app, str_drop_app.
    rewrite parseAuthority_dns by done. cbn [mbind option_bind].
    rewrite unescape_plain by (rewrite ?ContainsByte_cons, ?Hp2; done). cbn [mbind option_bind]. eauto. }
  destruct HP as (u & -> & Hs & Hu & Hh). cbn [mbind option_bind].
  assert (HX : forall v, u_Host v = h -> URL_Hostname v = h /\ URL_Port v = "").
  { intros v E. unfold URL_Hostname, URL_Port. by rewrite E, splitHostPort_dns. }
  destruct (String.eqb frag ""); [exists u; split_and!; auto; by apply HX|].
  rewrite unescape_plain by done. cbn [mbind option_bind]. eexists. split; [reflexivity|]. split_and!; try done; by apply HX.
Qed.
Lemma Cut_nosep s sep : ContainsByte s sep = false -> Cut s sep = (s, "", false).
Proof. intros H. rewrite <- (app_nil_r_s s) at 1. rewrite Cut_app by done. cbn. by rewrite app_nil_r_s. Qed.

Lemma last_byte_not s c : ContainsByte s c = false -> last_byte s <> Some c.
Proof.
  induction s as [|d s IH]; [done|]. rewrite ContainsByte_cons. intros [Hd Hs]%orb_false_iff.
  destruct s as [|e s]; [|exact (IH Hs)]. cbn. intros [= ->]. by rewrite Ascii.eqb_refl in Hd.
Qed.

(** Without query, fragment or escapes the whole record is determined. *)
Lemma Parse_plain h t :
  h <> "" -> str_forall dns_byte h = true -> str_forall (fun c => negb (is_ctl c)) t = true ->
  ContainsByte t "%" = false -> ContainsByte t "?" = false -> ContainsByte t "#" = false ->
  Parse ("https://" +:+ h +:+ "/" +:+ t) =
  Some {| u_Scheme := "https"; u_Opaque := ""; u_HasUser := false; u_Host := h; u_Path := String "/" t;
          u_RawQuery := ""; u_ForceQuery := false; u_Fragment := "" |}.
Proof.
  intros Hn H Hc Hp Hq Hf. unfold Parse.
  rewrite Cut_nosep by (rewrite !ContainsByte_app, (dns_no_byte h), Hf by done; done).
  unfold parse_no_fragment.
  assert (Hh : str_forall (fun c => negb (is_ctl c)) h = true) by (eapply str_forall_impl; [|exact H]; clear; all_bytes).
  rewrite !str_forall_app, Hh, Hc. cbn [str_forall andb negb].
  replace ("https://" +:+ h +:+ "/" +:+ t) with ("https:" +:+ ("//" +:+ h +:+ "/" +:+ t)) by reflexivity.
  rewrite scheme_https. assert (String.eqb ("https:" +:+ ("//" +:+ h +:+ "/" +:+ t)) "*" = false) as -> by reflexivity.
  cbn [mbind option_bind]. rewrite ToLower_stable by reflexivity.
  assert (Hq' : ContainsByte ("//" +:+ h +:+ "/" +:+ t) "?" = false)
    by (rewrite !ContainsByte_app, (dns_no_byte h), Hq by done; done).
  rewrite bool_decide_false by (by apply last_byte_not). cbn [andb]. rewrite Cut_nosep by done.
  assert (HasPrefix ("//" +:+ h +:+ "/" +:+ t) "/" = true) as -> by (apply (HasPrefix_app "/" ("/" +:+ h +:+ "/" +:+ t))).
  rewrite (HasPrefix_app "//"). cbn [negb andb orb String.eqb].
  replace (str_drop 2 ("//" +:+ h +:+ "/" +:+ t)) with (h +:+ "/" +:+ t) by reflexivity.
  change ("/" +:+ t) with (String "/" ("" +:+ t)). rewrite app_nil_l_s.
  rewrite IndexByte_app by (by apply (dns_no_byte h)). rewrite str_take_app, str_drop_app.
  rewrite parseAuthority_dns by done. cbn [mbind option_bind].
  rewrite unescape_plain by (rewrite ?ContainsByte_cons, ?Hp; done). reflexivity.
Qed.
End Assembled.
