(* ===== verification/AnsName.v ===== *)
(** * ANS names

    [internal/domain/ansname.go]: names [ans://v{MAJOR.MINOR.PATCH}.{host}] and
    the RFC 1123 validation of the host. *)
From S2P Require Import Prelude GoStrings GoRegexp GoNet DomainErrors SemVer.
From stdpp Require Import list strings.
#[local] Set Default Goal Selector "!".
#[local] Open Scope Z_scope.

Definition ansProtocolPrefix : string := "ans://".
Definition maxHostnameLength : nat := 253.
Definition maxLabelLength : nat := 63.

Definition is_label_char (c : ascii) : bool := is_alnum c || Ascii.eqb c "-".

(** [labelPattern]: an alphanumeric, then optionally up to 61 alphanumerics or
    hyphens and a final alphanumeric. *)
Definition labelPattern : re :=
  Seq (Cls is_alnum) (Opt (Seq (RepUpTo 61 (Cls is_label_char)) (Cls is_alnum))).

Record AnsName : Type := MkAnsName { an_version : SimplifiedSemVer; agentHost : string }.

#[export] Instance AnsName_eq_dec : EqDecision AnsName.
Proof. solve_decision. Defined.

Definition validateLabel (_ : unit) (label : string) : result Error unit :=
  if Nat.ltb maxLabelLength (String.length label) then Err (NewValidationError "AGENT_HOST_LABEL_TOO_LONG")
  else if negb (MatchString labelPattern label) then Err (NewValidationError "INVALID_AGENT_HOST")
  else Ok tt.

Definition validateAgentHost (host : string) : result Error unit :=
  if String.eqb host "" then Err (NewValidationError "INVALID_AGENT_HOST")
  else if Nat.ltb maxHostnameLength (String.length host) then Err (NewValidationError "AGENT_HOST_TOO_LONG")
  else if ParseIP host then Err (NewValidationError "INVALID_AGENT_HOST")
  else
    let labels := Split host "." in
    if Nat.ltb (length labels) 2 then Err (NewValidationError "INVALID_AGENT_HOST")
    else fold_res validateLabel tt labels.

Section AnsName.
Context {U : UnicodeTables}.

Definition NewAnsName (v : SimplifiedSemVer) (host0 : string) : result Error AnsName :=
  let host := ToLower (TrimSpace host0) in
  _ ← validateAgentHost host;
  Ok (MkAnsName v host).

(** The loop that looks for the dot separating version and host: the index just
    past the third ['.'], if there is one. *)
Fixpoint thirdDot (l : list (nat * nat * Z)) (dotCount : nat) : option nat :=
  match l with
  | [] => None
  | (i, _, ch) :: l' =>
      if ch =? 46 then
        if Nat.eqb (S dotCount) 3 then Some (S i) else thirdDot l' (S dotCount)
      else thirdDot l' dotCount
  end.

Definition ParseAnsName (s0 : string) : result Error AnsName :=
  let s := TrimSpace s0 in
  if negb (HasPrefix s ansProtocolPrefix) then Err (NewValidationError "INVALID_ANS_PROTOCOL")
  else
    let remainder := str_drop (String.length ansProtocolPrefix) s in
    if negb (HasPrefix remainder "v") then Err (NewValidationError "INVALID_ANS_VERSION")
    else
      let remainder := str_drop 1 remainder in
      match thirdDot (range_str remainder) 0 with
      | None => Err (NewValidationError "MALFORMED_ANS_NAME")
      | Some hostStart =>
          if Nat.leb (String.length remainder) hostStart
          then Err (NewValidationError "MALFORMED_ANS_NAME")
          else
            match ParseSemVer (str_take (hostStart - 1) remainder) with
            | Err _ => Err (NewValidationError "INVALID_ANS_VERSION")
            | Ok v => NewAnsName v (str_drop hostStart remainder)
            end
      end.

Definition AnsName_VersionSegment (n : AnsName) : string := "v" +:+ SemVer_String (an_version n).
Definition AnsName_FQDN (n : AnsName) : string := agentHost n.

Definition AnsName_String (n : AnsName) : string :=
  ansProtocolPrefix +:+ AnsName_VersionSegment n +:+ "." +:+ agentHost n.

Definition AnsName_IsZero (n : AnsName) : bool :=
  String.eqb (agentHost n) "" && SemVer_IsZero (an_version n).

End AnsName.

(** ** Labels and hosts *)

Lemma labelPattern_spec w :
  MatchString labelPattern w = true ->
  w <> "" /\ str_forall is_label_char w = true /\ (String.length w <= 63)%nat /\
  (exists c, first_byte w = Some c /\ is_alnum c = true) /\
  (exists c, last_byte w = Some c /\ is_alnum c = true).
Proof.
  rewrite MatchString_spec. unfold labelPattern. intros (x & t & -> & Hx & Ht)%matches_Seq.
  apply matches_Cls in Hx as (c & -> & Hc). rewrite app_cons_s, app_nil_l_s.
  assert (is_label_char c = true) as Hlc by (unfold is_label_char; by rewrite Hc).
  apply matches_Alt in Ht as [->%matches_Eps|(m & y & -> & Hm & Hy)%matches_Seq].
  - split_and!; [done|simpl; by rewrite Hlc|simpl; lia|by exists c|by exists c].
  - apply matches_RepUpTo_Cls in Hm as [Hl Hm]. apply matches_Cls in Hy as (d & -> & Hd).
    split_and!; [done| | |by exists c|].
    + simpl. rewrite Hlc, str_forall_app, Hm. simpl. unfold is_label_char. by rewrite Hd.
    + simpl. rewrite length_app_s. simpl. lia.
    + exists d. split; [|done]. change (String c (m +:+ String d "")) with (String c m +:+ String d "").
      by rewrite last_byte_app.
Qed.

Lemma fold_validateLabel u ls :
  fold_res validateLabel u ls = Ok tt <->
  Forall (fun w => (String.length w <= 63)%nat /\ MatchString labelPattern w = true) ls.
Proof.
  revert u. induction ls as [|w ls IH]; intros u; simpl.
  - destruct u. split; [by constructor|done].
  - rewrite bind_Ok, Forall_cons. unfold validateLabel at 1, maxLabelLength. split.
    + intros (u' & H & Hr%IH). split; [|done].
      destruct (Nat.ltb 63 (String.length w)) eqn:El; [done|]. apply Nat.ltb_ge in El.
      destruct (MatchString labelPattern w) eqn:Em; [done|done].
    + intros [[Hl Hm] Hr]. exists tt. split; [|by apply IH].
      assert (Nat.ltb 63 (String.length w) = false) as -> by (by apply Nat.ltb_ge). by rewrite Hm.
Qed.

Lemma Split_bytes f s sep :
  Forall (fun w => str_forall f w = true) (Split s sep) -> f sep = true -> str_forall f s = true.
Proof.
  intros Hs Hf. induction s as [|c s IH]; [done|]. cbn [Split] in Hs. simpl.
  destruct (Split_nonnil s sep) as (w & ws & E). rewrite E in *.
  destruct (Ascii.eqb_spec c sep) as [->|].
  - rewrite Hf. simpl. apply IH. by inversion Hs.
  - apply Forall_cons in Hs as [[Hc Hw]%andb_true_iff Hws]. rewrite Hc. apply IH. by constructor.
Qed.

Definition is_host_char (c : ascii) : bool := is_label_char c || Ascii.eqb c ".".

Lemma first_last_Split s sep :
  Forall (fun w => w <> "") (Split s sep) ->
  exists w ws l, Split s sep = w :: ws /\ last (Split s sep) = Some l /\
    first_byte s = first_byte w /\ last_byte s = last_byte l.
Proof.
  intros Hne. destruct (Split_nonnil s sep) as (w & ws & E).
  pose proof (Join_Split s sep) as HJ. rewrite E in *. clear E. subst s.
  revert w Hne. induction ws as [|w' ws IH]; intros w Hne.
  - by exists w, [], w.
  - apply Forall_cons in Hne as [Hw Hws]. destruct (IH w' Hws) as (w0 & ws0 & l & [= <- <-] & Hl & _ & Hlb).
    exists w, (w' :: ws), l. split_and!; [done|done| |].
    + rewrite Join_cons by done. destruct w; [done|]. done.
    + rewrite Join_cons by done. rewrite last_byte_app by done. rewrite <- Hlb.
      rewrite last_byte_app; [done|]. apply Forall_cons in Hws as [Hw' _].
      destruct ws; simpl; [done|]. destruct w'; [done|]. done.
Qed.

Lemma validateAgentHost_Ok h :
  validateAgentHost h = Ok tt ->
  h <> "" /\ (String.length h <= 253)%nat /\ ParseIP h = false /\
  str_forall is_host_char h = true /\ unpadded h = true /\
  (2 <= length (Split h "."))%nat /\
  Forall (fun w => (String.length w <= 63)%nat /\ MatchString labelPattern w = true) (Split h ".").
Proof.
  unfold validateAgentHost. destruct (String.eqb h "") eqn:E0; [done|]. b2p.
  unfold maxHostnameLength. destruct (Nat.ltb 253 (String.length h)) eqn:E1; [done|]. apply Nat.ltb_ge in E1.
  destruct (ParseIP h) eqn:E2; [done|].
  destruct (Nat.ltb (length (Split h ".")) 2) eqn:E3; [done|]. apply Nat.ltb_ge in E3.
  intros HF%fold_validateLabel. split_and!; try done.
  - apply (Split_bytes _ _ "."); [|done]. eapply Forall_impl; [exact HF|].
    intros w [_ (_ & Hw & _)%labelPattern_spec]. revert Hw. apply str_forall_impl.
    unfold is_host_char. by intros c ->.
  - destruct (first_last_Split h ".") as (w & ws & l & Es & Hlast & Hfb & Hlb).
    { eapply Forall_impl; [exact HF|]. by intros w [_ (? & _)%labelPattern_spec]. }
    assert (w ∈ Split h "." /\ l ∈ Split h ".") as [Hw Hl].
    { split; [rewrite Es; constructor|by apply last_Some_elem_of]. }
    rewrite Forall_forall in HF.
    destruct (HF w Hw) as [_ (_ & _ & _ & (c & Hc & Hca) & _)%labelPattern_spec].
    destruct (HF l Hl) as [_ (_ & _ & _ & _ & d & Hd & Hda)%labelPattern_spec].
    unfold unpadded. rewrite Hfb, Hlb, Hc, Hd.
    assert (forall c, is_alnum c = true -> is_space_byte c = false) as Hns by all_bytes.
    by rewrite !Hns.
Qed.

(** ** Names the constructors produce *)

Definition host_wf (h : string) : Prop :=
  validateAgentHost h = Ok tt /\ str_forall is_lower_stable h = true.

Definition ansname_wf (n : AnsName) : Prop := semver_wf (an_version n) /\ host_wf (agentHost n).

Lemma host_char_ascii h : str_forall is_host_char h = true -> is_ascii_str h = true.
Proof. apply str_forall_impl. all_bytes. Qed.

Lemma str_forall_and f g s :
  str_forall f s = true -> str_forall g s = true -> str_forall (fun c => f c && g c) s = true.
Proof. induction s as [|c s IH]; simpl; [done|]. rewrite !andb_true_iff. naive_solver. Qed.

Section AnsNameFacts.
Context {U : UnicodeTables} {UL : UnicodeLaws U}.

Lemma NewAnsName_Ok v h n :
  NewAnsName v h = Ok n -> an_version n = v /\ agentHost n = ToLower (TrimSpace h) /\ host_wf (agentHost n).
Proof.
  unfold NewAnsName. rewrite bind_Ok. intros ([] & Hv & [= <-]). simpl. split_and!; [done|done|].
  split; [done|]. pose proof (validateAgentHost_Ok _ Hv) as (_ & _ & _ & Hc & _).
  apply host_char_ascii in Hc. unfold is_lower_stable. apply str_forall_and; [done|].
  apply ToLower_no_upper.
Qed.

Lemma NewAnsName_wf_host v h : host_wf h -> NewAnsName v h = Ok (MkAnsName v h).
Proof.
  intros [Hv Hl]. unfold NewAnsName.
  pose proof (validateAgentHost_Ok _ Hv) as (_ & _ & _ & Hc & Hu & _).
  rewrite TrimSpace_id by (done || by apply host_char_ascii).
  rewrite ToLower_stable by done. by rewrite Hv.
Qed.

Lemma ParseAnsName_wf s n : ParseAnsName s = Ok n -> ansname_wf n.
Proof.
  unfold ParseAnsName. repeat case_match; try done. intros (Hv & _ & Hh)%NewAnsName_Ok.
  split; [|done]. rewrite Hv. by eapply ParseSemVer_wf.
Qed.

Lemma thirdDot_app off w t k :
  ContainsByte w "." = false ->
  thirdDot (ascii_range off (w +:+ String "." t)) k =
  if Nat.eqb (S k) 3 then Some (S (off + String.length w))
  else thirdDot (ascii_range (S (off + String.length w)) t) (S k).
Proof.
  revert off. induction w as [|c w IH]; intros off.
  - intros _. rewrite app_nil_l_s. cbn [ascii_range thirdDot String.length].
    by rewrite Nat.add_0_r.
  - rewrite ContainsByte_cons, orb_false_iff. intros [Hc Hw]. rewrite app_cons_s.
    cbn [ascii_range thirdDot]. destruct (byteZ c =? 46) eqn:E; b2p.
    + apply (byteZ_inj c ".") in E as ->. done.
    + rewrite IH by done. cbn [String.length]. by rewrite Nat.add_succ_r.
Qed.

Lemma is_ascii_app s t : is_ascii_str (s +:+ t) = is_ascii_str s && is_ascii_str t.
Proof. apply str_forall_app. Qed.

Lemma digits_ascii s : is_digits s = true -> is_ascii_str s = true.
Proof. apply str_forall_impl. all_bytes. Qed.

(** [SemVer_String v ++ "." ++ h] as the parser walks it. *)
Lemma thirdDot_name v h :
  semver_wf v -> is_ascii_str h = true ->
  let r := SemVer_String v +:+ String "." h in
  is_ascii_str r = true /\
  thirdDot (range_str r) 0 = Some (S (String.length (SemVer_String v))).
Proof.
  intros (H1 & H2 & H3) Hh. unfold SemVer_String, range_str.
  pose proof (Itoa_digits (major v) ltac:(lia)) as D1. pose proof (Itoa_digits (minor v) ltac:(lia)) as D2.
  pose proof (Itoa_digits (patch v) ltac:(lia)) as D3.
  set (a := Itoa (major v)) in *. set (b := Itoa (minor v)) in *. set (c := Itoa (patch v)) in *.
  change ("." +:+ b +:+ "." +:+ c) with (String "." (b +:+ String "." c)).
  assert (is_ascii_str ((a +:+ String "." (b +:+ String "." c)) +:+ String "." h) = true) as HA.
  { rewrite !is_ascii_app. rewrite !andb_true_iff. split_and!; [by apply digits_ascii| |by simpl].
    apply is_ascii_cons. split; [done|]. rewrite is_ascii_app, andb_true_iff.
    split; [by apply digits_ascii|]. apply is_ascii_cons. split; [done|]. by apply digits_ascii. }
  split; [done|]. rewrite range_from_ascii by done.
  rewrite app_assoc_s, app_cons_s, app_assoc_s, app_cons_s.
  rewrite thirdDot_app by (by apply digits_nodot). cbn [Nat.eqb].
  rewrite thirdDot_app by (by apply digits_nodot). cbn [Nat.eqb].
  rewrite thirdDot_app by (by apply digits_nodot). cbn [Nat.eqb].
  f_equal. rewrite !length_app_s. simpl. rewrite length_app_s. simpl. lia.
Qed.

Lemma AnsName_String_ascii n : ansname_wf n ->
  is_ascii_str (AnsName_String n) = true /\ unpadded (AnsName_String n) = true.
Proof.
  intros [Hv [Hh Hl]]. pose proof (validateAgentHost_Ok _ Hh) as (Hne & _ & _ & Hc & Hu & _).
  destruct (thirdDot_name (an_version n) (agentHost n) Hv) as [Ha _]; [by apply host_char_ascii|].
  assert (AnsName_String n = "ans://v" +:+ (SemVer_String (an_version n) +:+ String "." (agentHost n))) as ->.
  { unfold AnsName_String, ansProtocolPrefix, AnsName_VersionSegment.
    change "ans://v" with ("ans://" +:+ "v"). by rewrite !app_assoc_s. }
  split; [by rewrite is_ascii_app, Ha|].
  unfold unpadded. rewrite last_byte_app; [|by destruct (SemVer_String _)].
  rewrite last_byte_app by done. cbn [first_byte].
  destruct (agentHost n) as [|c h] eqn:E; [done|].
  unfold unpadded in Hu. cbn [first_byte] in Hu.
  change (last_byte (String "." (String c h))) with (last_byte (String c h)).
  destruct (last_byte (String c h)); [|done]. apply andb_true_iff in Hu as [_ ->]. done.
Qed.

Lemma ParseAnsName_String n : ansname_wf n -> ParseAnsName (AnsName_String n) = Ok n.
Proof.
  intros Hwf. destruct (AnsName_String_ascii n Hwf) as [Ha Hu]. destruct Hwf as [Hv Hh].
  unfold ParseAnsName. rewrite TrimSpace_id by done.
  unfold AnsName_String at 1 2. rewrite HasPrefix_app. cbn [negb].
  rewrite str_drop_app. unfold AnsName_VersionSegment. rewrite app_assoc_s.
  rewrite HasPrefix_app. cbn [negb]. change 1%nat with (String.length "v").
  unfold AnsName_String. rewrite str_drop_app. unfold AnsName_VersionSegment.
  rewrite app_assoc_s. change (String.length "v") with (String.length "v"). rewrite str_drop_app.
  change ("." +:+ agentHost n) with (String "." (agentHost n)).
  destruct (thirdDot_name (an_version n) (agentHost n) Hv) as [_ Ht].
  { destruct Hh as [Hh _]. apply validateAgentHost_Ok in Hh as (_ & _ & _ & Hc & _). by apply host_char_ascii. }
  rewrite Ht.
  assert (agentHost n <> "") as Hne by (destruct Hh as [Hh _]; by apply validateAgentHost_Ok in Hh as (? & _)).
  assert (Nat.leb (String.length (SemVer_String (an_version n) +:+ String "." (agentHost n)))
            (S (String.length (SemVer_String (an_version n)))) = false) as ->.
  { apply Nat.leb_gt. rewrite length_app_s. simpl. destruct (agentHost n); [done|]. simpl. lia. }
  simpl Nat.sub. rewrite Nat.sub_0_r, str_take_app, ParseSemVer_String by done.
  replace (str_drop (S (String.length (SemVer_String (an_version n)))) _) with (agentHost n).
  - rewrite NewAnsName_wf_host by done. by destruct n.
  - change (SemVer_String (an_version n) +:+ String "." (agentHost n))
      with (SemVer_String (an_version n) +:+ String "." "" +:+ agentHost n).
    rewrite <- app_assoc_s.
    replace (S (String.length (SemVer_String (an_version n))))
      with (String.length (SemVer_String (an_version n) +:+ String "." "")).
    + by rewrite str_drop_app.
    + rewrite length_app_s. simpl. lia.
Qed.

End AnsNameFacts.

(** ** Properties *)

(** Every ANS name built by [NewAnsName] from a version an [int] can hold
    prints to a string that [ParseAnsName] reads back as the same name, and every
    name [ParseAnsName] returns has that property too; so printing is injective
    on the names of the program. *)
Theorem AnsName_roundtrip `{U : UnicodeTables, UL : !UnicodeLaws U} v h n s m :
  semver_wf v -> NewAnsName v h = Ok n -> ParseAnsName s = Ok m ->
  ParseAnsName (AnsName_String n) = Ok n /\
  ParseAnsName (AnsName_String m) = Ok m /\
  (AnsName_String n = AnsName_String m -> n = m).
Proof.
  intros Hv (E & _ & Hh)%NewAnsName_Ok Hm%ParseAnsName_wf.
  assert (ansname_wf n) as Hn by (split; [by rewrite E|done]).
  pose proof (ParseAnsName_String n Hn) as Pn. pose proof (ParseAnsName_String m Hm) as Pm.
  split_and!; [done|done|]. intros Eq. rewrite Eq in Pn. congruence.
Qed.

Lemma AnsName_roundtrip_witness :
  ParseAnsName (U := latin_tables) "ans://v1.2.0.myagent.example.com"
    = Ok (MkAnsName (MkSemVer 1 2 0) "myagent.example.com").
Proof.
  apply (AnsName_roundtrip (U := latin_tables) (MkSemVer 1 2 0) " MyAgent.Example.COM " (MkAnsName (MkSemVer 1 2 0) "myagent.example.com")
           "ans://v0.0.1.b.c" (MkAnsName (MkSemVer 0 0 1) "b.c"));
    [unfold semver_wf, MaxInt64; simpl; lia|vm_compute; reflexivity|vm_compute; reflexivity].
Defined.

(** A DNS host name in canonical form. *)
Definition dns_host (h : string) : Prop :=
  h <> "" /\ (String.length h <= 253)%nat /\ (2 <= length (Split h "."))%nat /\
  Forall (fun w => w <> "" /\ (String.length w <= 63)%nat /\ str_forall is_label_char w = true /\
            (exists c, first_byte w = Some c /\ is_alnum c = true) /\
            (exists c, last_byte w = Some c /\ is_alnum c = true)) (Split h ".") /\
  str_forall (fun c => negb (is_upper c)) h = true.

(** whatever text the caller supplies, a host that [NewAnsName] accepts is a
    lower-case DNS name: at least two labels of 1 to 63 letters, digits and inner
    hyphens, at most 253 bytes in all, and never an IP literal. *)
Theorem NewAnsName_host_is_dns `{U : UnicodeTables, UL : !UnicodeLaws U} v h n :
  NewAnsName v h = Ok n -> dns_host (agentHost n) /\ ParseIP (agentHost n) = false.
Proof.
  intros (_ & _ & Hv & Hl)%NewAnsName_Ok.
  apply validateAgentHost_Ok in Hv as (? & ? & ? & _ & _ & ? & HF).
  split; [|done]. unfold dns_host. split_and!; [done|done|done| |].
  - eapply Forall_impl; [exact HF|]. intros w [? (? & ? & ? & ? & ?)%labelPattern_spec]. done.
  - revert Hl. apply str_forall_impl. unfold is_lower_stable. by intros c [_ ?]%andb_true_iff.
Qed.

Lemma NewAnsName_host_is_dns_witness :
  dns_host "agent.example.com" /\ ParseIP "agent.example.com" = false.
Proof.
  apply (NewAnsName_host_is_dns (U := latin_tables) (MkSemVer 1 0 0) "Agent.example.com" (MkAnsName (MkSemVer 1 0 0) "agent.example.com")).
  vm_compute. reflexivity.
Defined.
