(* ===== verification/Endpoint.v ===== *)
(** Agent endpoints: [internal/domain/protocol.go] and [endpoint.go].

    String-typed Go enumerations are strings; every switch keeps its default
    branch.  URL parsing is [GoURL]. *)
From S2P Require Import Prelude GoStrings GoRegexp GoURL DomainErrors.

#[local] Set Default Goal Selector "!".
#[local] Open Scope Z_scope.

(** ** Protocols and transports *)

Definition Protocol : Type := string.
Definition ProtocolA2A : Protocol := "A2A".
Definition ProtocolMCP : Protocol := "MCP".
Definition ProtocolHTTPAPI : Protocol := "HTTP_API".
Definition AllProtocols : list Protocol := [ProtocolA2A; ProtocolMCP; ProtocolHTTPAPI].
Definition Protocol_IsValid (p : Protocol) : bool := existsb (String.eqb p) AllProtocols.

Definition Transport : Type := string.
Definition TransportStreamableHTTP : Transport := "STREAMABLE_HTTP".
Definition TransportSSE : Transport := "SSE".
Definition TransportJSONRPC : Transport := "JSON_RPC".
Definition TransportGRPC : Transport := "GRPC".
Definition TransportREST : Transport := "REST".
Definition TransportHTTP : Transport := "HTTP".
Definition AllTransports : list Transport :=
  [TransportStreamableHTTP; TransportSSE; TransportJSONRPC; TransportGRPC; TransportREST; TransportHTTP].
Definition Transport_IsValid (t : Transport) : bool := existsb (String.eqb t) AllTransports.

(** ** Endpoints *)

Definition maxFunctionTags : nat := 5.
Definition maxTagLength : nat := 20.
Definition maxFunctionIDLength : nat := 64.
Definition maxFunctionNameLength : nat := 64.
Definition maxMetadataURLLength : Z := 2048.

(** [metadataHashPattern]: the prefix and 64 lower-case hexadecimal digits. *)
Definition is_lower_hex (c : ascii) : bool := is_digit c || inR 97 (byteZ c) 102.
Definition metadataHashPattern : re := Seq (Lits "SHA256:") (Rep 64 (Cls is_lower_hex)).

Record AgentFunction := { f_ID : string; f_Name : string; f_Tags : list string }.

Record AgentEndpoint := {
  ep_Protocol : Protocol;
  ep_AgentURL : string;
  ep_MetadataURL : string;
  ep_DocumentationURL : string;
  ep_Functions : list AgentFunction;
  ep_Transports : list Transport;
  ep_MetadataHash : string
}.

Definition INVALID_FUNCTION : Error := NewValidationError "INVALID_FUNCTION".
Definition INVALID_ENDPOINT : Error := NewValidationError "INVALID_ENDPOINT".

Definition AgentFunction_Validate (f : AgentFunction) : result Error unit :=
  if Nat.ltb maxFunctionIDLength (String.length (f_ID f)) then Err INVALID_FUNCTION else
  if is_blank (f_ID f) then Err INVALID_FUNCTION else
  if Nat.ltb maxFunctionNameLength (String.length (f_Name f)) then Err INVALID_FUNCTION else
  if is_blank (f_Name f) then Err INVALID_FUNCTION else
  if existsb (fun tag => Nat.ltb maxTagLength (String.length tag)) (f_Tags f) then Err INVALID_FUNCTION else
  if Nat.ltb maxFunctionTags (length (f_Tags f)) then Err INVALID_FUNCTION else
  Ok tt.

(** [containsSVCBUnsafe] and [hasNonPrintableASCII]. *)
Definition svcb_unsafe_byte (c : ascii) : bool :=
  existsb (Z.eqb (byteZ c)) [32; 9; 13; 10; 12; 11; 34; 92; 59].

Definition hasNonPrintableASCII (s : string) : bool :=
  existsb (fun r => (r <? 0x20) || (0x7e <? r)) (runes s).

Definition containsSVCBUnsafe (s : string) : bool :=
  negb (str_forall (fun c => negb (svcb_unsafe_byte c)) s) || hasNonPrintableASCII s.

Section Endpoint.
Context `{U : UnicodeTables}.

Definition ParseProtocol (s : string) : result Error Protocol :=
  let t := ToUpper (TrimSpace s) in
  if String.eqb t "A2A" then Ok ProtocolA2A else
  if String.eqb t "MCP" then Ok ProtocolMCP else
  if String.eqb t "HTTP_API" || String.eqb t "HTTP-API" || String.eqb t "HTTPAPI" then Ok ProtocolHTTPAPI else
  Err (NewValidationError "INVALID_PROTOCOL").

Definition ParseTransport (s : string) : result Error Transport :=
  let t := ToUpper (ReplaceAll (TrimSpace s) "-" "_") in
  if String.eqb t "STREAMABLE_HTTP" then Ok TransportStreamableHTTP else
  if String.eqb t "SSE" then Ok TransportSSE else
  if String.eqb t "JSON_RPC" || String.eqb t "JSONRPC" then Ok TransportJSONRPC else
  if String.eqb t "GRPC" then Ok TransportGRPC else
  if String.eqb t "REST" then Ok TransportREST else
  if String.eqb t "HTTP" then Ok TransportHTTP else
  Err (NewValidationError "INVALID_TRANSPORT").

Definition validateURL (rawURL : string) : result Error unit :=
  if is_blank rawURL then Err INVALID_ENDPOINT else
  match Parse rawURL with
  | None => Err INVALID_ENDPOINT
  | Some parsed =>
      if String.eqb (u_Scheme parsed) "" || String.eqb (u_Host parsed) "" then Err INVALID_ENDPOINT else
      let p := URL_Port parsed in
      if negb (String.eqb p "") then
        match Atoi p with
        | (n, None) => if (n <? 1) || (65535 <? n) then Err INVALID_ENDPOINT else Ok tt
        | (_, Some _) => Err INVALID_ENDPOINT
        end
      else Ok tt
  end.

Definition validateMetadataURL (rawURL : string) : result Error unit :=
  _ ← validateURL rawURL;
  match Parse rawURL with
  | None => Err INVALID_ENDPOINT
  | Some u =>
      if negb (String.eqb (u_Scheme u) "https") then Err INVALID_ENDPOINT else
      if maxMetadataURLLength <? Z.of_nat (String.length rawURL) then Err INVALID_ENDPOINT else
      if containsSVCBUnsafe rawURL || containsSVCBUnsafe (u_Path u) then Err INVALID_ENDPOINT else
      Ok tt
  end.

(** The function loop: [seen] holds the IDs already met. *)
Definition validateFunction (seen : list string) (fn : AgentFunction) : result Error (list string) :=
  _ ← AgentFunction_Validate fn;
  if existsb (String.eqb (f_ID fn)) seen then Err INVALID_ENDPOINT else Ok (f_ID fn :: seen).

Definition AgentEndpoint_Validate (e : AgentEndpoint) : result Error unit :=
  if negb (Protocol_IsValid (ep_Protocol e)) then Err INVALID_ENDPOINT else
  _ ← validateURL (ep_AgentURL e);
  _ ← (if negb (String.eqb (ep_MetadataURL e) "") then validateMetadataURL (ep_MetadataURL e) else Ok tt);
  _ ← (if negb (String.eqb (ep_DocumentationURL e) "") then validateURL (ep_DocumentationURL e) else Ok tt);
  _ ← (if negb (String.eqb (ep_MetadataHash e) "") then
         if String.eqb (ep_MetadataURL e) "" then Err INVALID_ENDPOINT else
         if negb (MatchString metadataHashPattern (ep_MetadataHash e)) then Err INVALID_ENDPOINT else Ok tt
       else Ok tt);
  _ ← fold_res validateFunction [] (ep_Functions e);
  if forallb Transport_IsValid (ep_Transports e) then Ok tt else Err INVALID_ENDPOINT.

Definition ValidateHostMatch (e : AgentEndpoint) (expectedFQDN : string) : result Error unit :=
  match Parse (ep_AgentURL e) with
  | None => Err INVALID_ENDPOINT
  | Some parsed =>
      if String.eqb (ToLower (URL_Hostname parsed)) (ToLower expectedFQDN) then Ok tt
      else Err (NewValidationError "ENDPOINT_HOST_MISMATCH")
  end.

(** The endpoint loop: (protocol, URL) pairs and protocols already met. *)
Definition validateEndpoint (fqdn : string) (st : list (Protocol * string) * list Protocol) (ep : AgentEndpoint)
  : result Error (list (Protocol * string) * list Protocol) :=
  let '(seen, protocols) := st in
  _ ← AgentEndpoint_Validate ep;
  _ ← ValidateHostMatch ep fqdn;
  let k := (ep_Protocol ep, ep_AgentURL ep) in
  if existsb (fun k' => String.eqb k.1 k'.1 && String.eqb k.2 k'.2) seen
  then Err (NewValidationError "DUPLICATE_ENDPOINT") else
  if existsb (String.eqb (ep_Protocol ep)) protocols
  then Err (NewValidationError "DUPLICATE_PROTOCOL") else
  Ok (k :: seen, ep_Protocol ep :: protocols).

Definition AgentEndpoints_Validate (eps : list AgentEndpoint) (expectedFQDN : string) : result Error unit :=
  if (length eps =? 0)%nat then Err (NewValidationError "INVALID_ENDPOINTS") else
  _ ← fold_res (validateEndpoint expectedFQDN) ([], []) eps;
  Ok tt.

(** ** Lemmas *)

Lemma validateFunction_ids seen fs seen' :
  fold_res validateFunction seen fs = Ok seen' ->
  NoDup seen -> NoDup seen' /\ seen' = rev (f_ID <$> fs) ++ seen /\
  Forall (fun f => AgentFunction_Validate f = Ok tt) fs.
Proof.
  revert seen. induction fs as [|f fs IH]; intros seen; simpl; [by intros [= <-]|].
  rewrite bind_Ok. intros (s1 & H1 & H2) HN. unfold validateFunction in H1.
  apply bind_Ok in H1 as ([] & HV & H1). destruct (existsb _ seen) eqn:E; [done|]. injection H1 as <-.
  destruct (IH _ H2) as (HN' & -> & HF).
  { constructor; [|done]. rewrite <- existsb_eqb_elem. by rewrite E. }
  split_and!; [done|by rewrite <- app_assoc|by constructor].
Qed.

(** Invariant of the endpoint loop. *)
Lemma validateEndpoint_loop fqdn st eps st' :
  fold_res (validateEndpoint fqdn) st eps = Ok st' ->
  NoDup st.2 -> Forall (fun p => Protocol_IsValid p = true) st.2 ->
  NoDup st'.2 /\ st'.2 = rev (ep_Protocol <$> eps) ++ st.2 /\
  Forall (fun p => Protocol_IsValid p = true) st'.2 /\
  Forall (fun e => AgentEndpoint_Validate e = Ok tt /\ ValidateHostMatch e fqdn = Ok tt) eps.
Proof.
  revert st. induction eps as [|e eps IH]; intros st; simpl; [by intros [= <-]|].
  rewrite bind_Ok. intros (s1 & H1 & H2) HN HV. destruct st as [seen protocols]. unfold validateEndpoint in H1.
  apply bind_Ok in H1 as ([] & HE & H1). apply bind_Ok in H1 as ([] & HM & H1).
  case_if_in H1; [done|]. destruct (existsb (String.eqb (ep_Protocol e)) protocols) eqn:E; [done|]. injection H1 as <-.
  assert (HP : Protocol_IsValid (ep_Protocol e) = true).
  { unfold AgentEndpoint_Validate in HE. by destruct (Protocol_IsValid _). }
  destruct (IH _ H2) as (HN' & E' & HF & HA).
  { simpl. constructor; [|done]. rewrite <- existsb_eqb_elem. by rewrite E. }
  { by constructor. }
  split_and!; [done| |done|by constructor].
  rewrite E'. simpl. by rewrite <- app_assoc.
Qed.

Lemma AgentEndpoints_Validate_Ok eps fqdn :
  AgentEndpoints_Validate eps fqdn = Ok tt ->
  eps <> [] /\ NoDup (ep_Protocol <$> eps) /\
  Forall (fun e => Protocol_IsValid (ep_Protocol e) = true) eps /\
  Forall (fun e => AgentEndpoint_Validate e = Ok tt /\ ValidateHostMatch e fqdn = Ok tt) eps.
Proof.
  unfold AgentEndpoints_Validate. destruct eps as [|e eps]; [done|]. cbn [length Nat.eqb].
  rewrite bind_Ok. intros (st & H & _). apply validateEndpoint_loop in H as (HN & E & HF & HA); [|constructor..].
  rewrite E, app_nil_r in HN, HF. split_and!; [done| |apply Forall_rev in HF; rewrite rev_involutive in HF; by apply Forall_fmap in HF|done].
  by rewrite <- Permutation_rev in HN.
Qed.

Lemma protocols_at_most_three (l : list Protocol) :
  NoDup l -> Forall (fun p => Protocol_IsValid p = true) l -> (length l <= 3)%nat.
Proof.
  intros HN HF. apply (submseteq_length l AllProtocols), NoDup_submseteq; [done|].
  intros p Hp. rewrite Forall_forall in HF. apply existsb_eqb_elem, HF, Hp.
Qed.

Lemma validateURL_Ok raw :
  validateURL raw = Ok tt ->
  exists u, Parse raw = Some u /\ u_Scheme u <> "" /\ u_Host u <> "" /\
    (URL_Port u = "" \/ exists n, Atoi (URL_Port u) = (n, None) /\ 1 <= n <= 65535).
Proof.
  unfold validateURL. destruct (is_blank raw); [done|]. destruct (Parse raw) as [u|]; [|done].
  intros H. case_if_in H; [done|]. b2p. exists u. split_and!; [done..|].
  destruct (String.eqb_spec (URL_Port u) "") as [|Hp]; [by left|right]. cbn [negb] in H.
  destruct (Atoi (URL_Port u)) as [n [|]]; [done|]. case_if_in H; [done|]. b2p. exists n. split; [done|lia].
Qed.

(** ** Unescaped SVCB values *)

(** Printable ASCII other than space, double quote, backslash and semicolon. *)
Definition svcb_token_byte (c : ascii) : bool :=
  inR 0x21 (byteZ c) 0x7e && negb (byteZ c =? 34) && negb (byteZ c =? 92) && negb (byteZ c =? 59).

Lemma containsSVCBUnsafe_spec s :
  containsSVCBUnsafe s = false <-> str_forall svcb_token_byte s = true.
Proof.
  assert (B : forall c, svcb_token_byte c = negb (svcb_unsafe_byte c) && inR 0x20 (byteZ c) 0x7e)
    by all_bytes.
  unfold containsSVCBUnsafe, hasNonPrintableASCII. split.
  - rewrite orb_false_iff, negb_false_iff. intros [Hs Hr].
    assert (HR : Forall (fun r => 0x20 <= r <= 0x7e) (runes s)).
    { apply Forall_forall. intros r Hin. apply not_true_iff_false in Hr.
      destruct (decide (0x20 <= r <= 0x7e)); [done|]. exfalso. apply Hr, existsb_exists.
      exists r. split; [by apply list_elem_of_In|]. apply orb_true_iff. rewrite !Z.ltb_lt. lia. }
    assert (HA : is_ascii_str s = true).
    { apply runes_low_ascii. eapply Forall_impl; [exact HR|]. simpl. lia. }
    rewrite runes_ascii in HR by done. clear HA Hr.
    induction s as [|c s IH]; [done|]. simpl in *. b2p. apply Forall_cons in HR as [Hc HR].
    rewrite B, IH by done. unfold inR. rewrite H.
    by rewrite (proj2 (Z.leb_le _ _)), (proj2 (Z.leb_le _ _)) by lia.
  - intros H. assert (HA : is_ascii_str s = true).
    { eapply str_forall_impl; [|exact H]. clear. all_bytes. }
    rewrite runes_ascii by done. clear HA. induction s as [|c s IH]; [done|].
    cbn [str_forall bytes_of existsb] in *. apply andb_true_iff in H as [Hc Hs].
    apply orb_false_iff in IH as [I1 I2]; [|done]. rewrite B in Hc. unfold inR in Hc. b2p.
    rewrite I2, (proj2 (Z.ltb_ge _ _)), (proj2 (Z.ltb_ge _ _)) by lia. cbn [orb].
    by rewrite H, I1.
Qed.

Lemma fields_from_token insp cur s :
  str_forall svcb_token_byte s = true ->
  fields_from 0 insp cur s = if String.eqb (cur +:+ s) "" then [] else [cur +:+ s].
Proof.
  revert insp cur. induction s as [|c s IH]; intros insp cur H; [by rewrite app_nil_r_s|].
  cbn [str_forall] in H. b2p. cbn [fields_from].
  assert (is_ascii_byte c = true /\ IsSpace (byteZ c) = false) as [A1 A2].
  { revert H. clear. revert c. all_bytes. }
  rewrite DecodeRune_ascii, A2 by done. cbn [pred]. rewrite IH by done.
  rewrite app_assoc_s, app_cons_s, app_nil_l_s. done.
Qed.

Lemma Fields_token s : s <> "" -> str_forall svcb_token_byte s = true -> Fields s = [s].
Proof.
  intros Hn H. unfold Fields. rewrite fields_from_token, app_nil_l_s by done.
  by destruct (String.eqb_spec s "").
Qed.

(** ** Claims *)

(** What an accepted set of endpoints guarantees.  It has between one and
    three endpoints, with pairwise different recognised protocols; every agent
    URL parses to an absolute URL whose host name equals the agent's FQDN up to
    case and whose port, if any, is between 1 and 65535; function identifiers
    are unique within an endpoint, and transports are recognised. *)
Theorem AgentEndpoints_Validate_sound eps fqdn :
  AgentEndpoints_Validate eps fqdn = Ok tt ->
  (1 <= length eps <= 3)%nat /\ NoDup (ep_Protocol <$> eps) /\
  Forall (fun e =>
    Protocol_IsValid (ep_Protocol e) = true /\
    (exists u, Parse (ep_AgentURL e) = Some u /\ u_Scheme u <> "" /\
       ToLower (URL_Hostname u) = ToLower fqdn /\
       (URL_Port u = "" \/ exists n, Atoi (URL_Port u) = (n, None) /\ 1 <= n <= 65535)) /\
    NoDup (f_ID <$> ep_Functions e) /\ Forall (fun t => Transport_IsValid t = true) (ep_Transports e)) eps.
Proof.
  intros (HN & HD & HV & HA)%AgentEndpoints_Validate_Ok. split_and!; [| |done|].
  { destruct eps; [done|simpl; lia]. }
  { rewrite <- (length_fmap ep_Protocol). apply protocols_at_most_three; [done|]. apply Forall_fmap. exact HV. }
  rewrite Forall_forall in HV, HA |- *. intros e He. specialize (HV e He). destruct (HA e He) as [H1 H2].
  unfold AgentEndpoint_Validate in H1. rewrite HV in H1. cbn [negb] in H1.
  apply bind_Ok in H1 as ([] & HU & H1). apply validateURL_Ok in HU as (u & Hu & Hs & _ & Hp).
  unfold ValidateHostMatch in H2. rewrite Hu in H2.
  destruct (String.eqb_spec (ToLower (URL_Hostname u)) (ToLower fqdn)) as [Eh|]; [|done].
  do 3 apply bind_Ok in H1 as ([] & _ & H1). apply bind_Ok in H1 as (seen & HF & H1).
  apply validateFunction_ids in HF as (HN' & E & _); [|constructor]. rewrite app_nil_r in E. subst seen.
  rewrite <- Permutation_rev in HN'. split_and!; [done|by exists u|done|].
  destruct (forallb _ _) eqn:ET; [|done]. apply Forall_forall. intros t Ht.
  rewrite forallb_forall in ET. by apply ET, list_elem_of_In.
Qed.

(** A validated metadata URL is one unescaped SVCB parameter value: an https
    URL of at most 2048 bytes, printable ASCII without spaces, quotes,
    backslashes or semicolons both as written and in its percent-decoded path,
    so that the whitespace split used by the DNS verifier returns it whole. *)
Theorem validateMetadataURL_token raw :
  validateMetadataURL raw = Ok tt ->
  Fields raw = [raw] /\ str_forall svcb_token_byte raw = true /\ Z.of_nat (String.length raw) <= 2048 /\
  exists u, Parse raw = Some u /\ u_Scheme u = "https" /\ str_forall svcb_token_byte (u_Path u) = true /\
    (u_Path u <> "" -> Fields (u_Path u) = [u_Path u]).
Proof.
  unfold validateMetadataURL. rewrite bind_Ok. intros ([] & HU & H).
  destruct (Parse raw) as [u|] eqn:EP; [|done].
  destruct (String.eqb_spec (u_Scheme u) "https") as [Es|]; [|done]. cbn [negb] in H.
  case_if_in H; [done|]. unfold maxMetadataURLLength in *. b2p. case_if_in H; [done|]. b2p.
  apply containsSVCBUnsafe_spec in H0, H1.
  split_and!; [|done|done|].
  - apply Fields_token; [|done]. intros ->. vm_compute in HU. discriminate.
  - exists u. split_and!; [done|done|done|]. intros. by apply Fields_token.
Qed.
End Endpoint.

(** ** Witnesses *)

Definition demo_endpoint : AgentEndpoint := {|
  ep_Protocol := "MCP"; ep_AgentURL := "https://Agent.Example.com:8443/mcp";
  ep_MetadataURL := "https://agent.example.com/.well-known/mcp.json"; ep_DocumentationURL := "";
  ep_Functions := [{| f_ID := "f1"; f_Name := "search"; f_Tags := ["t"] |}];
  ep_Transports := ["SSE"];
  ep_MetadataHash := "SHA256:0123456789abcdef0123456789abcdef0123456789abcdef0123456789abcdef" |}.

Lemma AgentEndpoints_Validate_sound_witness :
  AgentEndpoints_Validate (U := latin_tables) [demo_endpoint] "agent.example.com" = Ok tt /\
  NoDup (ep_Protocol <$> [demo_endpoint]).
Proof.
  assert (H : AgentEndpoints_Validate (U := latin_tables) [demo_endpoint] "agent.example.com" = Ok tt)
    by (vm_compute; reflexivity).
  split; [exact H|]. apply (AgentEndpoints_Validate_sound (U := latin_tables) _ "agent.example.com" H).
Defined.

Lemma validateMetadataURL_token_witness :
  validateMetadataURL (U := latin_tables) (ep_MetadataURL demo_endpoint) = Ok tt /\
  Fields (ep_MetadataURL demo_endpoint) = [ep_MetadataURL demo_endpoint].
Proof.
  assert (H : validateMetadataURL (U := latin_tables) (ep_MetadataURL demo_endpoint) = Ok tt)
    by (vm_compute; reflexivity).
  split; [exact H|]. apply (validateMetadataURL_token (U := latin_tables) _ H).
Defined.
