(* ===== verification/Lifecycle.v ===== *)
(** The registration aggregate: [internal/domain] [status.go], [order.go],
    [certificate.go], [renewal.go], [events.go] and [agent.go].

    A method with a pointer receiver takes the object and returns the updated
    object; a failing method returns only its error, the object is unchanged.
    JSON tags and database identifiers the code never branches on are kept as
    fields.  Identifiers, PEM blocks and tokens are opaque strings. *)
From S2P Require Import Prelude GoStrings GoTime DomainErrors SemVer AnsName Endpoint.

#[local] Set Default Goal Selector "!".
#[local] Open Scope Z_scope.

(** ** [status.go] *)

Definition RegistrationStatus : Type := string.
Definition StatusPendingValidation : RegistrationStatus := "PENDING_VALIDATION".
Definition StatusPendingDNS : RegistrationStatus := "PENDING_DNS".
Definition StatusActive : RegistrationStatus := "ACTIVE".
Definition StatusDeprecated : RegistrationStatus := "DEPRECATED".
Definition StatusRevoked : RegistrationStatus := "REVOKED".
Definition StatusFailed : RegistrationStatus := "FAILED".
Definition StatusExpired : RegistrationStatus := "EXPIRED".

Definition one_of (s : string) (l : list string) : bool := existsb (String.eqb s) l.

Definition RegistrationStatus_IsValid (s : RegistrationStatus) : bool :=
  one_of s [StatusPendingValidation; StatusPendingDNS; StatusActive; StatusDeprecated;
            StatusRevoked; StatusFailed; StatusExpired].

Definition IsPending (s : RegistrationStatus) : bool := one_of s [StatusPendingValidation; StatusPendingDNS].

Definition IsTerminal (s : RegistrationStatus) : bool := one_of s [StatusRevoked; StatusFailed; StatusExpired].

Definition ValidTransitions : list (RegistrationStatus * list RegistrationStatus) :=
  [(StatusPendingValidation, [StatusPendingDNS; StatusFailed; StatusRevoked; StatusExpired]);
   (StatusPendingDNS, [StatusActive; StatusFailed; StatusRevoked; StatusExpired]);
   (StatusActive, [StatusDeprecated; StatusRevoked]);
   (StatusDeprecated, [StatusRevoked]);
   (StatusRevoked, []); (StatusFailed, []); (StatusExpired, [])].

Definition CanTransitionTo (s target : RegistrationStatus) : bool :=
  match find_first (fun kv => String.eqb s kv.1) ValidTransitions with
  | None => false
  | Some (_, allowed) => one_of target allowed
  end.

Definition ValidateTransition (s target : RegistrationStatus) : result Error unit :=
  if negb (CanTransitionTo s target) then Err (NewInvalidStateError "INVALID_STATUS_TRANSITION") else Ok tt.

Definition CertificateStatus : Type := string.
Definition CertStatusPending : CertificateStatus := "PENDING".
Definition CertStatusValid : CertificateStatus := "VALID".
Definition CertStatusRevoked : CertificateStatus := "REVOKED".

Definition CertificateType : Type := string.
Definition CertTypeServer : CertificateType := "SERVER".
Definition CertTypeIdentity : CertificateType := "IDENTITY".

Definition CSRStatus : Type := string.
Definition CSRStatusPending : CSRStatus := "PENDING".
Definition CSRStatusSigned : CSRStatus := "SIGNED".
Definition CSRStatusRejected : CSRStatus := "REJECTED".

Definition ValidationStatus : Type := string.
Definition ValidationPending : ValidationStatus := "PENDING".
Definition ValidationVerified : ValidationStatus := "VERIFIED".
Definition ValidationFailed : ValidationStatus := "FAILED".

Definition RenewalType : Type := string.
Definition RenewalTypeBYOC : RenewalType := "SERVER_BYOC".
Definition RenewalTypeCSR : RenewalType := "SERVER_CSR".

Definition RevocationReason : Type := string.
Definition RevocationKeyCompromise : RevocationReason := "KEY_COMPROMISE".
Definition RevocationCessationOfOperation : RevocationReason := "CESSATION_OF_OPERATION".
Definition RevocationAffiliationChanged : RevocationReason := "AFFILIATION_CHANGED".
Definition RevocationSuperseded : RevocationReason := "SUPERSEDED".
Definition RevocationCertificateHold : RevocationReason := "CERTIFICATE_HOLD".
Definition RevocationPrivilegeWithdrawn : RevocationReason := "PRIVILEGE_WITHDRAWN".
Definition RevocationAACompromise : RevocationReason := "AA_COMPROMISE".

Definition RevocationReason_IsValid (r : RevocationReason) : bool :=
  one_of r [RevocationKeyCompromise; RevocationCessationOfOperation; RevocationAffiliationChanged;
            RevocationSuperseded; RevocationCertificateHold; RevocationPrivilegeWithdrawn; RevocationAACompromise].

(** ** [order.go] *)

Definition ChallengeType : Type := string.
Definition ChallengeTypeDNS01 : ChallengeType := "DNS_01".
Definition ChallengeTypeHTTP01 : ChallengeType := "HTTP_01".

Definition ChallengeType_IsValid (t : ChallengeType) : bool := one_of t [ChallengeTypeDNS01; ChallengeTypeHTTP01].

Definition ACMEMethodToken (t : ChallengeType) : string :=
  if String.eqb t ChallengeTypeDNS01 then "ACME-DNS-01" else
  if String.eqb t ChallengeTypeHTTP01 then "ACME-HTTP-01" else "".

Record Challenge := {
  ch_Type : ChallengeType;
  ch_Token : string;
  ch_KeyAuthorization : string;
  ch_DNSRecordName : string;
  ch_DNSRecordValue : string;
  ch_HTTPPath : string
}.

Definition or_default (v dflt : string) : string := if negb (String.eqb v "") then v else dflt.

Definition EffectiveDNSRecordName (c : Challenge) (fqdn : string) : string :=
  or_default (ch_DNSRecordName c) ("_acme-challenge." +:+ fqdn).
Definition EffectiveDNSRecordValue (c : Challenge) : string := or_default (ch_DNSRecordValue c) (ch_Token c).
Definition EffectiveHTTPPath (c : Challenge) : string :=
  or_default (ch_HTTPPath c) ("/.well-known/acme-challenge/" +:+ ch_Token c).
Definition ExpectedHTTPContent (c : Challenge) : string := or_default (ch_KeyAuthorization c) (ch_Token c).

Definition OrderState : Type := string.
Definition OrderStatePending : OrderState := "PENDING".
Definition OrderStateIssuing : OrderState := "ISSUING".
Definition OrderStateCompleted : OrderState := "COMPLETED".
Definition OrderStateFailed : OrderState := "FAILED".

Record CertificateOrder := {
  o_OrderRef : string;
  o_State : OrderState;
  o_Challenges : list Challenge;
  o_ExpiresAt : Time;
  o_VerifiedChallenge : ChallengeType
}.

Definition zero_order : CertificateOrder :=
  {| o_OrderRef := ""; o_State := ""; o_Challenges := []; o_ExpiresAt := 0; o_VerifiedChallenge := "" |}.

Definition self_challenge (t : ChallengeType) (token : string) : Challenge :=
  {| ch_Type := t; ch_Token := token; ch_KeyAuthorization := ""; ch_DNSRecordName := "";
     ch_DNSRecordValue := ""; ch_HTTPPath := "" |}.

Definition NewSelfIssuedOrder (dns01Token http01Token : string) (expiresAt : Time) : CertificateOrder :=
  {| o_OrderRef := ""; o_State := OrderStatePending;
     o_Challenges := [self_challenge ChallengeTypeDNS01 dns01Token; self_challenge ChallengeTypeHTTP01 http01Token];
     o_ExpiresAt := expiresAt; o_VerifiedChallenge := "" |}.

Definition CertificateOrder_IsZero (o : CertificateOrder) : bool :=
  String.eqb (o_OrderRef o) "" && String.eqb (o_State o) "" && (length (o_Challenges o) =? 0)%nat
  && Time_IsZero (o_ExpiresAt o) && String.eqb (o_VerifiedChallenge o) "".

Definition set_order_state (o : CertificateOrder) (s : OrderState) : CertificateOrder :=
  {| o_OrderRef := o_OrderRef o; o_State := s; o_Challenges := o_Challenges o;
     o_ExpiresAt := o_ExpiresAt o; o_VerifiedChallenge := o_VerifiedChallenge o |}.

Definition RecordVerifiedChallenge (o : CertificateOrder) (t : ChallengeType) : CertificateOrder :=
  {| o_OrderRef := o_OrderRef o; o_State := o_State o; o_Challenges := o_Challenges o;
     o_ExpiresAt := o_ExpiresAt o; o_VerifiedChallenge := t |}.

Definition challenge_of_type (cs : list Challenge) (t : ChallengeType) : option Challenge :=
  find_first (fun c => String.eqb (ch_Type c) t) cs.

Definition ChallengeOfType (o : CertificateOrder) (t : ChallengeType) : option Challenge :=
  challenge_of_type (o_Challenges o) t.

Definition Order_IsExpired (o : CertificateOrder) (now : Time) : bool :=
  if Time_IsZero (o_ExpiresAt o) then false else
  Time_After now (o_ExpiresAt o) && negb (String.eqb (o_State o) OrderStateCompleted)
  && negb (String.eqb (o_State o) OrderStateFailed).

Definition INVALID_ORDER_TRANSITION : Error := NewInvalidStateError "INVALID_ORDER_TRANSITION".

Definition MarkIssuing (o : CertificateOrder) : result Error CertificateOrder :=
  if String.eqb (o_State o) OrderStateIssuing then Ok o else
  if negb (String.eqb (o_State o) OrderStatePending) then Err INVALID_ORDER_TRANSITION else
  Ok (set_order_state o OrderStateIssuing).

Definition order_in_progress (o : CertificateOrder) : bool :=
  String.eqb (o_State o) OrderStatePending || String.eqb (o_State o) OrderStateIssuing.

Definition Order_MarkCompleted (o : CertificateOrder) : result Error CertificateOrder :=
  if negb (String.eqb (o_State o) OrderStatePending) && negb (String.eqb (o_State o) OrderStateIssuing)
  then Err INVALID_ORDER_TRANSITION else Ok (set_order_state o OrderStateCompleted).

Definition Order_MarkFailed (o : CertificateOrder) : result Error CertificateOrder :=
  if negb (String.eqb (o_State o) OrderStatePending) && negb (String.eqb (o_State o) OrderStateIssuing)
  then Err INVALID_ORDER_TRANSITION else Ok (set_order_state o OrderStateFailed).

(** ** [certificate.go] *)

Definition CSRType : Type := string.
Definition CSRTypeIdentity : CSRType := "IDENTITY".
Definition CSRTypeServer : CSRType := "SERVER".

Record AgentCSR := {
  csr_CSRID : string;
  csr_Type : CSRType;
  csr_CSRContent : string;
  csr_Status : CSRStatus;
  csr_SubmissionTimestamp : Time;
  csr_ProcessedTimestamp : Time;
  csr_RejectionReason : string
}.

Definition new_csr (ty : CSRType) (csrID csrContent : string) (submittedAt : Time) : AgentCSR :=
  {| csr_CSRID := csrID; csr_Type := ty; csr_CSRContent := csrContent; csr_Status := CSRStatusPending;
     csr_SubmissionTimestamp := submittedAt; csr_ProcessedTimestamp := 0; csr_RejectionReason := "" |}.

Definition NewIdentityCSR (csrID csrContent : string) (submittedAt : Time) : AgentCSR :=
  new_csr CSRTypeIdentity csrID csrContent submittedAt.
Definition NewServerCSR (csrID csrContent : string) (submittedAt : Time) : AgentCSR :=
  new_csr CSRTypeServer csrID csrContent submittedAt.

Definition CSR_MarkSigned (c : AgentCSR) (processedAt : Time) : result Error AgentCSR :=
  if negb (String.eqb (csr_Status c) CSRStatusPending) then Err (NewInvalidStateError "CSR_NOT_PENDING") else
  Ok {| csr_CSRID := csr_CSRID c; csr_Type := csr_Type c; csr_CSRContent := csr_CSRContent c;
        csr_Status := CSRStatusSigned; csr_SubmissionTimestamp := csr_SubmissionTimestamp c;
        csr_ProcessedTimestamp := processedAt; csr_RejectionReason := csr_RejectionReason c |}.

Definition CSR_MarkRejected (c : AgentCSR) (reason : string) (processedAt : Time) : result Error AgentCSR :=
  if negb (String.eqb (csr_Status c) CSRStatusPending) then Err (NewInvalidStateError "CSR_NOT_PENDING") else
  Ok {| csr_CSRID := csr_CSRID c; csr_Type := csr_Type c; csr_CSRContent := csr_CSRContent c;
        csr_Status := CSRStatusRejected; csr_SubmissionTimestamp := csr_SubmissionTimestamp c;
        csr_ProcessedTimestamp := processedAt; csr_RejectionReason := reason |}.

Record StoredCertificate := {
  sc_InternalID : Z;
  sc_CSRID : string;
  sc_CertificateType : CertificateType;
  sc_CertificatePEM : string;
  sc_ChainPEM : string;
  sc_SerialNumber : string;
  sc_CertificateRef : string;
  sc_CertStatus : CertificateStatus;
  sc_ExpirationTimestamp : Time;
  sc_IssueTimestamp : Time
}.

Record ByocServerCertificate := {
  byoc_LeafCertificatePEM : string;
  byoc_ChainCertificatesPEM : string;
  byoc_SubjectCommonName : string;
  byoc_SubjectAlternativeNames : list string;
  byoc_IssuerDN : string;
  byoc_ValidFromTimestamp : Time;
  byoc_ValidToTimestamp : Time;
  byoc_Fingerprint : string
}.

Definition StoredCertificateFromByoc (b : ByocServerCertificate) : StoredCertificate :=
  {| sc_InternalID := 0; sc_CSRID := ""; sc_CertificateType := CertTypeServer;
     sc_CertificatePEM := byoc_LeafCertificatePEM b; sc_ChainPEM := byoc_ChainCertificatesPEM b;
     sc_SerialNumber := ""; sc_CertificateRef := ""; sc_CertStatus := CertStatusValid;
     sc_ExpirationTimestamp := byoc_ValidToTimestamp b; sc_IssueTimestamp := byoc_ValidFromTimestamp b |}.

Definition StoredCertificate_IsValid (c : StoredCertificate) (now : Time) : bool :=
  String.eqb (sc_CertStatus c) CertStatusValid && Time_Before now (sc_ExpirationTimestamp c).

Definition StoredCertificate_Revoke (c : StoredCertificate) : StoredCertificate :=
  {| sc_InternalID := sc_InternalID c; sc_CSRID := sc_CSRID c; sc_CertificateType := sc_CertificateType c;
     sc_CertificatePEM := sc_CertificatePEM c; sc_ChainPEM := sc_ChainPEM c; sc_SerialNumber := sc_SerialNumber c;
     sc_CertificateRef := sc_CertificateRef c; sc_CertStatus := CertStatusRevoked;
     sc_ExpirationTimestamp := sc_ExpirationTimestamp c; sc_IssueTimestamp := sc_IssueTimestamp c |}.

Definition Byoc_IsValid (c : ByocServerCertificate) (now : Time) : bool :=
  negb (Time_Before now (byoc_ValidFromTimestamp c)) && Time_Before now (byoc_ValidToTimestamp c).

Definition newline : ascii := ascii_of_nat 10.

Definition GetFullChain (c : ByocServerCertificate) : string :=
  if String.eqb (byoc_ChainCertificatesPEM c) "" then byoc_LeafCertificatePEM c
  else byoc_LeafCertificatePEM c +:+ String newline (byoc_ChainCertificatesPEM c).

Definition MatchesFQDN (c : ByocServerCertificate) (fqdn : string) : bool :=
  if String.eqb (byoc_SubjectCommonName c) fqdn then true
  else existsb (String.eqb fqdn) (byoc_SubjectAlternativeNames c).

(** ** [renewal.go] *)

Definition renewalExpiryDuration : Duration := 7 * 24 * Hour.

Record RenewalValidation := {
  rv_OrderRef : string;
  rv_Challenges : list Challenge;
  rv_Status : ValidationStatus;
  rv_CreatedAt : Time;
  rv_ExpiresAt : Time;
  rv_UpdatedAt : Time
}.

Definition RenewalValidation_ChallengeOfType (v : RenewalValidation) (t : ChallengeType) : option Challenge :=
  challenge_of_type (rv_Challenges v) t.

Definition IsExpiredWithoutVerification (v : RenewalValidation) (now : Time) : bool :=
  Time_After now (rv_ExpiresAt v) && negb (String.eqb (rv_Status v) ValidationVerified).

Definition set_validation_status (v : RenewalValidation) (s : ValidationStatus) (now : Time) : RenewalValidation :=
  {| rv_OrderRef := rv_OrderRef v; rv_Challenges := rv_Challenges v; rv_Status := s;
     rv_CreatedAt := rv_CreatedAt v; rv_ExpiresAt := rv_ExpiresAt v; rv_UpdatedAt := now |}.

Definition Validation_MarkVerified (v : RenewalValidation) (now : Time) : result Error RenewalValidation :=
  if negb (String.eqb (rv_Status v) ValidationPending) then Err (NewInvalidStateError "VALIDATION_NOT_PENDING")
  else Ok (set_validation_status v ValidationVerified now).

Definition Validation_MarkFailed (v : RenewalValidation) (now : Time) : result Error RenewalValidation :=
  if negb (String.eqb (rv_Status v) ValidationPending) then Err (NewInvalidStateError "VALIDATION_NOT_PENDING")
  else Ok (set_validation_status v ValidationFailed now).

Record ServerCertificateRenewal := {
  rn_ID : Z;
  rn_AgentID : string;
  rn_RegistrationID : Z;
  rn_RenewalType : RenewalType;
  rn_ServerCsrID : string;
  rn_ByocCertPEM : string;
  rn_ByocChainPEM : string;
  rn_FailureReason : string;
  rn_CompletedAt : Time;
  rn_CreatedAt : Time;
  rn_Validation : RenewalValidation
}.

Definition newRenewalValidation (order : CertificateOrder) (now : Time) : RenewalValidation :=
  let expires0 := Time_Add now renewalExpiryDuration in
  let expires := if negb (Time_IsZero (o_ExpiresAt order)) && Time_Before (o_ExpiresAt order) expires0
                 then o_ExpiresAt order else expires0 in
  {| rv_OrderRef := o_OrderRef order; rv_Challenges := o_Challenges order; rv_Status := ValidationPending;
     rv_CreatedAt := now; rv_ExpiresAt := expires; rv_UpdatedAt := now |}.

Definition NewBYOCRenewal (agentID : string) (registrationID : Z) (byocCertPEM byocChainPEM : string)
    (order : CertificateOrder) (now : Time) : ServerCertificateRenewal :=
  {| rn_ID := 0; rn_AgentID := agentID; rn_RegistrationID := registrationID; rn_RenewalType := RenewalTypeBYOC;
     rn_ServerCsrID := ""; rn_ByocCertPEM := byocCertPEM; rn_ByocChainPEM := byocChainPEM;
     rn_FailureReason := ""; rn_CompletedAt := 0; rn_CreatedAt := now;
     rn_Validation := newRenewalValidation order now |}.

Definition NewCSRRenewal (agentID : string) (registrationID : Z) (csrID : string)
    (order : CertificateOrder) (now : Time) : ServerCertificateRenewal :=
  {| rn_ID := 0; rn_AgentID := agentID; rn_RegistrationID := registrationID; rn_RenewalType := RenewalTypeCSR;
     rn_ServerCsrID := csrID; rn_ByocCertPEM := ""; rn_ByocChainPEM := "";
     rn_FailureReason := ""; rn_CompletedAt := 0; rn_CreatedAt := now;
     rn_Validation := newRenewalValidation order now |}.

Definition Renewal_IsExpired (r : ServerCertificateRenewal) (now : Time) : bool :=
  IsExpiredWithoutVerification (rn_Validation r) now.

Definition Renewal_IsCompleted (r : ServerCertificateRenewal) : bool := negb (Time_IsZero (rn_CompletedAt r)).

Definition set_renewal (r : ServerCertificateRenewal) (reason : string) (at_ : Time) (v : RenewalValidation)
  : ServerCertificateRenewal :=
  {| rn_ID := rn_ID r; rn_AgentID := rn_AgentID r; rn_RegistrationID := rn_RegistrationID r;
     rn_RenewalType := rn_RenewalType r; rn_ServerCsrID := rn_ServerCsrID r; rn_ByocCertPEM := rn_ByocCertPEM r;
     rn_ByocChainPEM := rn_ByocChainPEM r; rn_FailureReason := reason; rn_CompletedAt := at_;
     rn_CreatedAt := rn_CreatedAt r; rn_Validation := v |}.

Definition Renewal_MarkCompleted (r : ServerCertificateRenewal) (now : Time) : result Error ServerCertificateRenewal :=
  if negb (Time_IsZero (rn_CompletedAt r)) then Err (NewInvalidStateError "ALREADY_COMPLETED")
  else Ok (set_renewal r (rn_FailureReason r) now (rn_Validation r)).

Definition Renewal_MarkFailed (r : ServerCertificateRenewal) (reason : string) (now : Time)
  : result Error ServerCertificateRenewal :=
  if negb (Time_IsZero (rn_CompletedAt r)) then Err (NewInvalidStateError "ALREADY_COMPLETED")
  else Ok (set_renewal r reason now (rn_Validation r)).

Definition UpdateValidationStatus (r : ServerCertificateRenewal) (v : RenewalValidation) : ServerCertificateRenewal :=
  set_renewal r (rn_FailureReason r) (rn_CompletedAt r) v.

(** ** [events.go] *)

Definition EventType : Type := string.
Definition EventAgentRegistered : EventType := "AGENT_REGISTERED".
Definition EventAgentActivated : EventType := "AGENT_ACTIVATED".
Definition EventAgentDeprecated : EventType := "AGENT_DEPRECATED".
Definition EventAgentRevoked : EventType := "AGENT_REVOKED".
Definition EventCertRequested : EventType := "CERT_REQUESTED".

Inductive Event :=
| AgentRegisteredEvent (agentID : string) (ansName : AnsName) (ownerID : string) (timestamp : Time)
| AgentActivatedEvent (agentID : string) (ansName : AnsName) (timestamp : Time)
| AgentDeprecatedEvent (agentID : string) (ansName : AnsName) (supersededByID : string) (timestamp : Time)
| AgentRevokedEvent (agentID : string) (ansName : AnsName) (reason : RevocationReason) (timestamp : Time)
| CertRequestedEvent (agentID csrID : string) (certType : CertificateType) (timestamp : Time).

Definition Event_Type (e : Event) : EventType :=
  match e with
  | AgentRegisteredEvent _ _ _ _ => EventAgentRegistered
  | AgentActivatedEvent _ _ _ => EventAgentActivated
  | AgentDeprecatedEvent _ _ _ _ => EventAgentDeprecated
  | AgentRevokedEvent _ _ _ _ => EventAgentRevoked
  | CertRequestedEvent _ _ _ _ => EventCertRequested
  end.

Definition Event_OccurredAt (e : Event) : Time :=
  match e with
  | AgentRegisteredEvent _ _ _ t | AgentActivatedEvent _ _ t | AgentDeprecatedEvent _ _ _ t
  | AgentRevokedEvent _ _ _ t | CertRequestedEvent _ _ _ t => t
  end.

Definition Event_AgentID (e : Event) : string :=
  match e with
  | AgentRegisteredEvent a _ _ _ | AgentActivatedEvent a _ _ | AgentDeprecatedEvent a _ _ _
  | AgentRevokedEvent a _ _ _ | CertRequestedEvent a _ _ _ => a
  end.

(** ** [agent.go] *)

Definition maxDisplayNameLength : nat := 64.
Definition maxDescriptionLength : nat := 150.

Record RegistrationDetails := {
  d_RegistrationTimestamp : Time;
  d_LastRenewalTimestamp : Time;
  d_DisplayName : string;
  d_Description : string
}.

Definition EffectiveTimestamp (d : RegistrationDetails) : Time :=
  if negb (Time_IsZero (d_LastRenewalTimestamp d)) then d_LastRenewalTimestamp d else d_RegistrationTimestamp d.

Definition WithRenewal (d : RegistrationDetails) (at_ : Time) : RegistrationDetails :=
  {| d_RegistrationTimestamp := d_RegistrationTimestamp d; d_LastRenewalTimestamp := at_;
     d_DisplayName := d_DisplayName d; d_Description := d_Description d |}.

Record AgentRegistration := {
  r_ID : Z;
  r_AgentID : string;
  r_OwnerID : string;
  r_AnsName : AnsName;
  r_Status : RegistrationStatus;
  r_Details : RegistrationDetails;
  r_Endpoints : list AgentEndpoint;
  r_ServerCert : option ByocServerCertificate;
  r_IdentityCSR : option AgentCSR;
  r_ServerCSR : option AgentCSR;
  r_SupersedesRegistrationID : Z;
  r_CertOrder : CertificateOrder;
  r_DiscoveryProfiles : list string;
  r_PendingEvents : list Event
}.

(** Field updates. *)
Definition upd_status (r : AgentRegistration) (s : RegistrationStatus) (evs : list Event) : AgentRegistration :=
  {| r_ID := r_ID r; r_AgentID := r_AgentID r; r_OwnerID := r_OwnerID r; r_AnsName := r_AnsName r; r_Status := s;
     r_Details := r_Details r; r_Endpoints := r_Endpoints r; r_ServerCert := r_ServerCert r;
     r_IdentityCSR := r_IdentityCSR r; r_ServerCSR := r_ServerCSR r;
     r_SupersedesRegistrationID := r_SupersedesRegistrationID r; r_CertOrder := r_CertOrder r;
     r_DiscoveryProfiles := r_DiscoveryProfiles r; r_PendingEvents := evs |}.

Definition upd_csrs (r : AgentRegistration) (idc srv : option AgentCSR) : AgentRegistration :=
  {| r_ID := r_ID r; r_AgentID := r_AgentID r; r_OwnerID := r_OwnerID r; r_AnsName := r_AnsName r;
     r_Status := r_Status r; r_Details := r_Details r; r_Endpoints := r_Endpoints r; r_ServerCert := r_ServerCert r;
     r_IdentityCSR := idc; r_ServerCSR := srv;
     r_SupersedesRegistrationID := r_SupersedesRegistrationID r; r_CertOrder := r_CertOrder r;
     r_DiscoveryProfiles := r_DiscoveryProfiles r; r_PendingEvents := r_PendingEvents r |}.

Definition upd_order (r : AgentRegistration) (o : CertificateOrder) : AgentRegistration :=
  {| r_ID := r_ID r; r_AgentID := r_AgentID r; r_OwnerID := r_OwnerID r; r_AnsName := r_AnsName r;
     r_Status := r_Status r; r_Details := r_Details r; r_Endpoints := r_Endpoints r; r_ServerCert := r_ServerCert r;
     r_IdentityCSR := r_IdentityCSR r; r_ServerCSR := r_ServerCSR r;
     r_SupersedesRegistrationID := r_SupersedesRegistrationID r; r_CertOrder := o;
     r_DiscoveryProfiles := r_DiscoveryProfiles r; r_PendingEvents := r_PendingEvents r |}.

Definition addEvent (r : AgentRegistration) (e : Event) : AgentRegistration :=
  upd_status r (r_Status r) (r_PendingEvents r ++ [e]).

Definition transitionTo (r : AgentRegistration) (target : RegistrationStatus) : result Error AgentRegistration :=
  _ ← ValidateTransition (r_Status r) target;
  Ok (upd_status r target (r_PendingEvents r)).

Section Agent.
Context `{U : UnicodeTables}.

Definition NewRegistration (agentID ownerID : string) (ansName : AnsName) (displayName description : string)
    (endpoints : list AgentEndpoint) (serverCert : option ByocServerCertificate) (identityCSR : option AgentCSR)
    (now : Time) : result Error AgentRegistration :=
  if String.eqb agentID "" then Err (NewValidationError "MISSING_AGENT_ID") else
  if String.eqb ownerID "" then Err (NewValidationError "MISSING_OWNER_ID") else
  if String.eqb displayName "" then Err (NewValidationError "MISSING_DISPLAY_NAME") else
  if AnsName_IsZero ansName then Err (NewValidationError "MISSING_ANS_NAME") else
  if Nat.ltb maxDisplayNameLength (String.length displayName) then Err (NewValidationError "DISPLAY_NAME_TOO_LONG") else
  if Nat.ltb maxDescriptionLength (String.length description) then Err (NewValidationError "DESCRIPTION_TOO_LONG") else
  if (length endpoints =? 0)%nat then Err (NewValidationError "MISSING_ENDPOINTS") else
  _ ← AgentEndpoints_Validate endpoints (AnsName_FQDN ansName);
  if match serverCert with Some c => negb (MatchesFQDN c (AnsName_FQDN ansName)) | None => false end
  then Err (NewCertificateError "SERVER_CERT_FQDN_MISMATCH") else
  let reg := {| r_ID := 0; r_AgentID := agentID; r_OwnerID := ownerID; r_AnsName := ansName;
                r_Status := StatusPendingValidation;
                r_Details := {| d_RegistrationTimestamp := now; d_LastRenewalTimestamp := 0;
                                d_DisplayName := displayName; d_Description := description |};
                r_Endpoints := endpoints; r_ServerCert := serverCert; r_IdentityCSR := identityCSR;
                r_ServerCSR := None; r_SupersedesRegistrationID := 0; r_CertOrder := zero_order;
                r_DiscoveryProfiles := []; r_PendingEvents := [] |} in
  Ok (addEvent reg (AgentRegisteredEvent agentID ansName ownerID now)).
End Agent.

Definition SubmitIdentityCSR (r : AgentRegistration) (csrID csrPEM : string) (now : Time)
  : result Error (AgentRegistration * AgentCSR) :=
  if negb (String.eqb (r_Status r) StatusActive) then Err (NewInvalidStateError "AGENT_NOT_ACTIVE") else
  let csr := NewIdentityCSR csrID csrPEM now in
  Ok (upd_csrs r (Some csr) (r_ServerCSR r), csr).

Definition SubmitServerCSR (r : AgentRegistration) (csrID csrPEM : string) (now : Time)
  : result Error (AgentRegistration * AgentCSR) :=
  let csr := NewServerCSR csrID csrPEM now in
  Ok (upd_csrs r (r_IdentityCSR r) (Some csr), csr).

Definition Activate (r : AgentRegistration) (now : Time) : result Error AgentRegistration :=
  if negb (IsPending (r_Status r)) then Err (NewInvalidStateError "CANNOT_ACTIVATE") else
  let r1 := upd_status r StatusActive (r_PendingEvents r) in
  Ok (addEvent r1 (AgentActivatedEvent (r_AgentID r1) (r_AnsName r1) now)).

Definition AdvanceToPendingDNS (r : AgentRegistration) : result Error AgentRegistration :=
  transitionTo r StatusPendingDNS.

Definition Deprecate (r : AgentRegistration) (supersededByID : string) (now : Time) : result Error AgentRegistration :=
  r1 ← transitionTo r StatusDeprecated;
  Ok (addEvent r1 (AgentDeprecatedEvent (r_AgentID r1) (r_AnsName r1) supersededByID now)).

Definition Revoke (r : AgentRegistration) (reason : RevocationReason) (now : Time) : result Error AgentRegistration :=
  if negb (RevocationReason_IsValid reason) then Err (NewValidationError "INVALID_REVOCATION_REASON") else
  if IsPending (r_Status r) then Err (NewInvalidStateError "CANNOT_REVOKE_PENDING") else
  r1 ← transitionTo r StatusRevoked;
  Ok (addEvent r1 (AgentRevokedEvent (r_AgentID r1) (r_AnsName r1) reason now)).

Definition Cancel (r : AgentRegistration) (now : Time) : result Error AgentRegistration :=
  if negb (IsPending (r_Status r)) then Err (NewValidationError "CANNOT_CANCEL") else
  if String.eqb (r_Status r) StatusPendingValidation && String.eqb (o_State (r_CertOrder r)) OrderStatePending
  then Err (NewValidationError "CANNOT_CANCEL") else
  let r1 := upd_status r StatusRevoked (r_PendingEvents r) in
  Ok (addEvent r1 (AgentRevokedEvent (r_AgentID r1) (r_AnsName r1) RevocationCessationOfOperation now)).

Definition CancelForHostConflict (r : AgentRegistration) : result Error AgentRegistration :=
  if negb (IsPending (r_Status r)) then Err (NewInvalidStateError "CANNOT_CANCEL") else
  Ok (upd_status r StatusRevoked (r_PendingEvents r)).

Definition Fail_ (r : AgentRegistration) : result Error AgentRegistration :=
  if negb (IsPending (r_Status r)) then Err (NewInvalidStateError "CANNOT_FAIL") else
  Ok (upd_status r StatusFailed (r_PendingEvents r)).

Definition Expire (r : AgentRegistration) : result Error AgentRegistration :=
  if negb (IsPending (r_Status r)) then Err (NewInvalidStateError "CANNOT_EXPIRE") else
  Ok (upd_status r StatusExpired (r_PendingEvents r)).

Definition AllowsSupersede (r : AgentRegistration) (newVersion : SimplifiedSemVer) : bool :=
  if negb (String.eqb (r_Status r) StatusActive) then false
  else SemVer_GreaterThan newVersion (an_version (r_AnsName r)).

Definition ClearEvents (r : AgentRegistration) : AgentRegistration * list Event :=
  (upd_status r (r_Status r) [], r_PendingEvents r).
