(* ===== verification/Discovery.v ===== *)
(** The DNS records an agent must publish, and what the registration authority
    makes of the answers: [internal/domain/dnsrecords.go],
    [internal/adapter/discovery], [internal/ra/service/dnsrecords.go] and the
    record check of [internal/ra/service/lifecycle.go].

    A profile emitter is its identifier and its [Records] function; the registry
    is the list of emitters in insertion order.  [url.JoinPath], whose result
    enters record values as opaque text, and the case orbits of
    [unicode.SimpleFold] are parameters.  Log lines are not modelled. *)
From stdpp Require Import sorting.
From S2P Require Import Prelude GoStrings GoTime GoEncoding DomainErrors SemVer GoURL AnsName Endpoint Lifecycle.

#[local] Set Default Goal Selector "!".
#[local] Open Scope Z_scope.

(** ** [domain/dnsrecords.go] *)

Definition DiscoveryProfile : Type := string.
Definition DiscoveryProfileANSDNSAID : DiscoveryProfile := "ANS_DNSAID".
Definition DiscoveryProfileANSTXT : DiscoveryProfile := "ANS_TXT".
Definition DefaultDiscoveryProfiles : list DiscoveryProfile := [DiscoveryProfileANSDNSAID].
Definition DiscoveryProfile_IsValid (s : DiscoveryProfile) : bool :=
  one_of s [DiscoveryProfileANSDNSAID; DiscoveryProfileANSTXT].

Definition DNSRecordTXT : string := "TXT".
Definition DNSRecordTLSA : string := "TLSA".
Definition DNSRecordHTTPS : string := "HTTPS".
Definition DNSRecordSVCB : string := "SVCB".

Definition PurposeDiscovery : string := "DISCOVERY".
Definition PurposeCertificateBinding : string := "CERTIFICATE_BINDING".
Definition PurposeBadge : string := "BADGE".

Record ExpectedDNSRecord := {
  dr_Name : string;
  dr_Type : string;
  dr_Value : string;
  dr_Purpose : string;
  dr_Required : bool;
  dr_TTL : Z
}.

#[export] Instance ExpectedDNSRecord_eq_dec : EqDecision ExpectedDNSRecord.
Proof. solve_decision. Defined.

Definition TLSARecordForCert (fqdn fingerprint : string) : ExpectedDNSRecord :=
  {| dr_Name := "_443._tcp." +:+ fqdn; dr_Type := DNSRecordTLSA; dr_Value := "3 0 1 " +:+ fingerprint;
     dr_Purpose := PurposeCertificateBinding; dr_Required := false; dr_TTL := 3600 |}.

(** ** [adapter/discovery/ans] *)

Definition protocolToANSValue (p : Protocol) : string :=
  if String.eqb p ProtocolA2A then "a2a" else
  if String.eqb p ProtocolMCP then "mcp" else
  if String.eqb p ProtocolHTTPAPI then "http-api" else p.

Definition protocolToDNSAIDValue (p : Protocol) : string :=
  if String.eqb p ProtocolHTTPAPI then "x-http" else protocolToANSValue p.

Definition schemeHTTP : string := "http".

Definition metadataHashToCapSHA256 (metadataHash : string) : string :=
  if String.eqb metadataHash "" then "" else
  if negb (HasPrefix metadataHash "SHA256:") then "" else
  match hex_DecodeString (TrimPrefix metadataHash "SHA256:") with
  | Some raw => if (String.length raw =? 32)%nat then b64_EncodeToString raw else ""
  | None => ""
  end.

(** [strings.EqualFold] over the orbits of [unicode.SimpleFold], which have at
    most four elements. *)
Class CaseOrbits := { SimpleFold : Z -> Z }.

Definition trim_dot (s : string) : string := TrimSuffixByte s ".".

Section Profiles.
Context `{U : UnicodeTables} `{F : CaseOrbits}.
Context (JoinPath : string -> list string -> string).

Definition svcbPortFor (agentURL : string) : Z :=
  if String.eqb agentURL "" then 443 else
  match Parse agentURL with
  | None => 443
  | Some u =>
      let byScheme := if String.eqb (u_Scheme u) schemeHTTP then 80 else 443 in
      let p := URL_Port u in
      if String.eqb p "" then byScheme else
      match Atoi p with (n, None) => n | (_, Some _) => byScheme end
  end.

Fixpoint fold_chase (fuel : nat) (start r target : Z) : bool :=
  match fuel with
  | O => r =? target
  | S f => if negb (r =? start) && (r <? target) then fold_chase f start (SimpleFold r) target else r =? target
  end.

Definition rune_fold_eq (a b : Z) : bool :=
  if a =? b then true else
  let sr := Z.min a b in let tr := Z.max a b in
  if tr <? 128 then inR 65 sr 90 && (tr =? sr + 32) else fold_chase 4 sr (SimpleFold sr) tr.

Fixpoint runes_fold_eq (s t : list Z) : bool :=
  match s, t with
  | [], [] => true
  | a :: s', b :: t' => rune_fold_eq a b && runes_fold_eq s' t'
  | _, _ => false
  end.

Definition EqualFold (s t : string) : bool := runes_fold_eq (runes s) (runes t).

Definition wellKnownPrefix : string := "/.well-known/".

Definition wellKnownSuffixFromMetadataURL (metadataURL fqdn : string) : string :=
  if String.eqb metadataURL "" then "" else
  match Parse metadataURL with
  | None => ""
  | Some u =>
      if negb (String.eqb (u_Scheme u) "https") then "" else
      if negb (EqualFold (trim_dot (URL_Hostname u)) (trim_dot fqdn)) then "" else
      if negb (HasPrefix (u_Path u) wellKnownPrefix) then "" else
      let suffix := TrimPrefix (u_Path u) wellKnownPrefix in
      if String.eqb suffix "" || ContainsByte suffix "/" then "" else suffix
  end.

Definition reg_FQDN (reg : AgentRegistration) : string := AnsName_FQDN (r_AnsName reg).

Definition BadgeRecord (reg : AgentRegistration) (tlPublicBaseURL : string) : list ExpectedDNSRecord :=
  match r_Endpoints reg with
  | [] => []
  | ep :: _ =>
      let badgeURL := if negb (String.eqb tlPublicBaseURL "") && negb (String.eqb (r_AgentID reg) "")
                      then JoinPath tlPublicBaseURL ["v1"; "agents"; r_AgentID reg] else ep_AgentURL ep in
      [{| dr_Name := "_ans-badge." +:+ reg_FQDN reg; dr_Type := DNSRecordTXT;
          dr_Value := "v=ans-badge1; version=" +:+ AnsName_VersionSegment (r_AnsName reg) +:+ "; url=" +:+ badgeURL;
          dr_Purpose := PurposeBadge; dr_Required := true; dr_TTL := 3600 |}]
  end.

Definition isPlaintextHTTP (agentURL : string) : bool :=
  if String.eqb agentURL "" then false else
  match Parse agentURL with None => false | Some u => String.eqb (u_Scheme u) schemeHTTP end.

(** A Go map used as a set, then [sort.Ints]. *)
Definition tlsPorts (endpoints : list AgentEndpoint) : list Z :=
  let ports := svcbPortFor <$> (ep_AgentURL <$> filter (fun ep => isPlaintextHTTP (ep_AgentURL ep) = false) endpoints) in
  match remove_dups ports with
  | [] => [443]
  | seen => merge_sort Z.le seen
  end.

Definition TLSARecord (reg : AgentRegistration) : list ExpectedDNSRecord :=
  match r_ServerCert reg with
  | None => []
  | Some cert =>
      (fun port => {| dr_Name := "_" +:+ Itoa port +:+ "._tcp." +:+ reg_FQDN reg; dr_Type := DNSRecordTLSA;
                      dr_Value := "3 0 1 " +:+ byoc_Fingerprint cert; dr_Purpose := PurposeCertificateBinding;
                      dr_Required := false; dr_TTL := 3600 |}) <$> tlsPorts (r_Endpoints reg)
  end.

Definition svcb_value (fqdn : string) (ep : AgentEndpoint) : string :=
  let alpn := protocolToDNSAIDValue (ep_Protocol ep) in
  let capSHA := metadataHashToCapSHA256 (ep_MetadataHash ep) in
  let wk := wellKnownSuffixFromMetadataURL (ep_MetadataURL ep) fqdn in
  "1 . alpn=" +:+ alpn +:+ " port=" +:+ Itoa (svcbPortFor (ep_AgentURL ep)) +:+
  (if String.eqb (ep_MetadataURL ep) "" then "" else " key65400=" +:+ ep_MetadataURL ep) +:+
  (if String.eqb capSHA "" then "" else " key65401=" +:+ capSHA) +:+
  " key65402=" +:+ alpn +:+
  (if String.eqb wk "" then "" else " key65409=" +:+ wk).

Definition DNSAID_Records (tlPublicBaseURL : string) (reg : AgentRegistration) : list ExpectedDNSRecord :=
  ((fun ep => {| dr_Name := reg_FQDN reg; dr_Type := DNSRecordSVCB; dr_Value := svcb_value (reg_FQDN reg) ep;
                 dr_Purpose := PurposeDiscovery; dr_Required := true; dr_TTL := 3600 |}) <$> r_Endpoints reg)
  ++ BadgeRecord reg tlPublicBaseURL ++ TLSARecord reg.

Definition txt_value (reg : AgentRegistration) (ep : AgentEndpoint) : string :=
  "v=ans1; version=" +:+ AnsName_VersionSegment (r_AnsName reg) +:+ "; p=" +:+ protocolToANSValue (ep_Protocol ep) +:+
  "; mode=direct; url=" +:+ ep_AgentURL ep.

Definition TXT_Records (tlPublicBaseURL : string) (reg : AgentRegistration) : list ExpectedDNSRecord :=
  ((fun ep => {| dr_Name := "_ans." +:+ reg_FQDN reg; dr_Type := DNSRecordTXT; dr_Value := txt_value reg ep;
                 dr_Purpose := PurposeDiscovery; dr_Required := true; dr_TTL := 3600 |}) <$> r_Endpoints reg)
  ++ (if (0 <? length (r_Endpoints reg))%nat
      then [{| dr_Name := reg_FQDN reg; dr_Type := DNSRecordHTTPS; dr_Value := "1 . alpn=h2";
               dr_Purpose := PurposeDiscovery; dr_Required := false; dr_TTL := 3600 |}] else [])
  ++ BadgeRecord reg tlPublicBaseURL ++ TLSARecord reg.

(** ** [adapter/discovery/registry] *)

Record ProfileEmitter := { pe_ID : DiscoveryProfile; pe_Records : AgentRegistration -> list ExpectedDNSRecord }.

Definition TXTProfile (tlPublicBaseURL : string) : ProfileEmitter :=
  {| pe_ID := DiscoveryProfileANSTXT; pe_Records := TXT_Records tlPublicBaseURL |}.
Definition DNSAIDProfile (tlPublicBaseURL : string) : ProfileEmitter :=
  {| pe_ID := DiscoveryProfileANSDNSAID; pe_Records := DNSAID_Records tlPublicBaseURL |}.
End Profiles.

Definition Registry : Type := list ProfileEmitter.

Definition Registry_Get (r : Registry) (id : DiscoveryProfile) : option ProfileEmitter :=
  find_first (fun p => String.eqb (pe_ID p) id) r.

Definition Registry_IDs (r : Registry) : list DiscoveryProfile := pe_ID <$> r.

Inductive registry_error := InvalidProfileID (id : string) | DuplicateProfileID (id : string).

Definition Registry_New (profiles : list ProfileEmitter) : result registry_error Registry :=
  fold_res (fun r s =>
    if negb (DiscoveryProfile_IsValid (pe_ID s)) then Err (InvalidProfileID (pe_ID s)) else
    match Registry_Get r (pe_ID s) with
    | Some _ => Err (DuplicateProfileID (pe_ID s))
    | None => Ok (r ++ [s])
    end) [] profiles.

(** ** [ra/service/dnsrecords.go] *)

Definition resolveRequestedProfiles (registry : Registry) (reg : AgentRegistration) : list DiscoveryProfile :=
  let requested := filter (fun id => is_Some (Registry_Get registry id)) (r_DiscoveryProfiles reg) in
  match requested with [] => DefaultDiscoveryProfiles | _ => requested end.

Definition bar : ascii := "|".

Definition recordKey (r : ExpectedDNSRecord) : string :=
  dr_Name r +:+ String bar (dr_Type r +:+ String bar (dr_Value r)).

(** First record per key, in order. *)
Fixpoint dedup_records (seen : list string) (l : list ExpectedDNSRecord) : list ExpectedDNSRecord :=
  match l with
  | [] => []
  | r :: l' => if existsb (String.eqb (recordKey r)) seen then dedup_records seen l'
               else r :: dedup_records (recordKey r :: seen) l'
  end.

Definition set_required (b : bool) (r : ExpectedDNSRecord) : ExpectedDNSRecord :=
  {| dr_Name := dr_Name r; dr_Type := dr_Type r; dr_Value := dr_Value r; dr_Purpose := dr_Purpose r;
     dr_Required := b; dr_TTL := dr_TTL r |}.

Definition is_discovery (r : ExpectedDNSRecord) : bool := String.eqb (dr_Purpose r) PurposeDiscovery.

Definition ComputeRequiredDNSRecords (registry : Registry) (reg : AgentRegistration) : list ExpectedDNSRecord :=
  let requested := resolveRequestedProfiles registry reg in
  let emitted := id ← Registry_IDs registry;
                 if one_of id requested
                 then match Registry_Get registry id with Some p => pe_Records p reg | None => [] end else [] in
  let collected := dedup_records [] emitted in
  let result := filter (fun r => is_discovery r = true) collected ++ filter (fun r => is_discovery r = false) collected in
  if one_of DiscoveryProfileANSTXT requested
  then (fun r => if String.eqb (dr_Type r) DNSRecordSVCB then set_required false r else r) <$> result
  else result.

(** ** Verification results *)

Record RecordVerification := {
  rvn_Record : ExpectedDNSRecord;
  rvn_Found : bool;
  rvn_Actual : string;
  rvn_Error : string;
  rvn_DNSSECVerified : bool
}.

(** A nil slice of results ([None]) is told apart from an empty one. *)
Record VerificationResult := { vr_AllRequired : bool; vr_Results : option (list RecordVerification) }.

Record droppedRecord := { dp_Name : string; dp_Type : string; dp_Cause : string; dp_Error : string }.

Definition dnsCodeMissing : string := "MISSING".
Definition dnsCodeMismatch : string := "MISMATCH".
Definition dnssecMismatchSuffix : string := "_DNSSEC_MISMATCH".

Definition dropCause (v : option RecordVerification) : string :=
  match v with
  | None => "NO_RESULT"
  | Some v => if negb (String.eqb (rvn_Error v) "") then "LOOKUP_ERROR" else
              if String.eqb (rvn_Actual v) "" then dnsCodeMissing else dnsCodeMismatch
  end.

(** [byKey]: the last result stored under a key. *)
Definition result_for (perRecord : list RecordVerification) (r : ExpectedDNSRecord) : option RecordVerification :=
  find_first (fun v => String.eqb (recordKey (rvn_Record v)) (recordKey r)) (rev perRecord).

Definition found_for (perRecord : list RecordVerification) (r : ExpectedDNSRecord) : bool :=
  match result_for perRecord r with Some v => rvn_Found v | None => false end.

Definition attestedDNSRecords (expected : list ExpectedDNSRecord) (perRecord : option (list RecordVerification))
  : list ExpectedDNSRecord * list droppedRecord :=
  match perRecord with
  | None => (expected, [])
  | Some per =>
      (filter (fun r => found_for per r = true) expected,
       (fun r => {| dp_Name := dr_Name r; dp_Type := dr_Type r; dp_Cause := dropCause (result_for per r);
                    dp_Error := match result_for per r with Some v => rvn_Error v | None => "" end |})
       <$> filter (fun r => found_for per r = false) expected)
  end.

Definition droppedForLookupError (dropped : list droppedRecord) : bool :=
  existsb (fun d => String.eqb (dp_Cause d) "LOOKUP_ERROR") dropped.

Record DNSMismatch := { mm_Expected : ExpectedDNSRecord; mm_Found : string; mm_Code : string }.

Definition IsMissing (m : DNSMismatch) : bool := String.eqb (mm_Code m) dnsCodeMissing.

Definition HasSuffix (s suffix : string) : bool :=
  (String.length suffix <=? String.length s)%nat &&
  String.eqb (str_drop (String.length s - String.length suffix) s) suffix.

Definition IsIncorrect (m : DNSMismatch) : bool :=
  String.eqb (mm_Code m) dnsCodeMismatch || HasSuffix (mm_Code m) dnssecMismatchSuffix.

(** The mismatch one result contributes, if any. *)
Definition record_mismatch (r : RecordVerification) : option DNSMismatch :=
  let rec := rvn_Record r in
  if rvn_DNSSECVerified r && negb (rvn_Found r) && negb (String.eqb (rvn_Actual r) "") &&
     one_of (dr_Type rec) [DNSRecordTLSA; DNSRecordSVCB; DNSRecordHTTPS]
  then Some {| mm_Expected := rec; mm_Found := rvn_Actual r; mm_Code := dr_Type rec +:+ dnssecMismatchSuffix |} else
  if negb (dr_Required rec) then None else
  if negb (rvn_Found r) && String.eqb (rvn_Actual r) ""
  then Some {| mm_Expected := rec; mm_Found := ""; mm_Code := dnsCodeMissing |} else
  if negb (rvn_Found r) then Some {| mm_Expected := rec; mm_Found := rvn_Actual r; mm_Code := dnsCodeMismatch |} else None.

(** [s.dnsVerifier]: nil, or what [VerifyRecords] answers: an error, or a
    possibly nil report. *)
Definition DNSVerifier (E : Type) : Type := option (string -> list ExpectedDNSRecord -> result E (option VerificationResult)).

Definition verifyDNSRecords {E} (dnsVerifier : DNSVerifier E) (fqdn : string) (expected : list ExpectedDNSRecord)
  : result E (list DNSMismatch * option (list RecordVerification)) :=
  match dnsVerifier with
  | None => Ok ([], None)
  | Some verify =>
      res ← verify fqdn expected;
      match res with
      | None => Ok ([], None)
      | Some res => Ok (omap record_mismatch (default [] (vr_Results res)), vr_Results res)
      end
  end.
