(* ===== verification/DiscoverySpec.v ===== *)
(** Properties of the expected DNS records and of what an activation attests. *)
From S2P Require Import Prelude GoStrings GoTime DomainErrors SemVer AnsName Endpoint Lifecycle Discovery.

#[local] Set Default Goal Selector "!".
#[local] Open Scope Z_scope.

(** ** Deduplication *)

Lemma dedup_elem seen l r : r ∈ dedup_records seen l -> r ∈ l /\ recordKey r ∉ seen.
Proof.
  revert seen. induction l as [|x l IH]; intros seen; cbn [dedup_records]; [by intros ?%not_elem_of_nil|].
  destruct (existsb _ seen) eqn:E; [intros [? ?]%IH; split; [by right|done]|].
  intros [->|[? Hn]%IH]%elem_of_cons.
  - split; [by left|]. by rewrite <- existsb_eqb_elem, E.
  - split; [by right|]. set_solver.
Qed.

Lemma dedup_complete seen l r : r ∈ l -> recordKey r ∈ seen \/ exists r', r' ∈ dedup_records seen l /\ recordKey r' = recordKey r.
Proof.
  revert seen. induction l as [|x l IH]; intros seen; cbn [dedup_records]; [by intros ?%not_elem_of_nil|].
  intros [->|Hr]%elem_of_cons; destruct (existsb _ seen) eqn:E.
  - left. by apply existsb_eqb_elem.
  - right. exists x. split; [by left|done].
  - by apply IH.
  - destruct (IH (recordKey x :: seen) Hr) as [[Hk|Hk]%elem_of_cons|(r' & Hr' & Hk)]; [right; exists x; split; [by left|done]|by left|].
    right. exists r'. split; [by right|done].
Qed.

Lemma dedup_NoDup seen l : NoDup (recordKey <$> dedup_records seen l).
Proof.
  revert seen. induction l as [|x l IH]; intros seen; cbn [dedup_records]; [constructor|].
  case_if; [apply IH|]. cbn. constructor; [|apply IH]. intros (r & E & [_ Hn]%dedup_elem)%list_elem_of_fmap. apply Hn. rewrite E. by left.
Qed.

(** The part of the list satisfying a test, then the rest. *)
Lemma partition_elem {A} (f : A -> bool) l x :
  x ∈ filter (fun r => f r = true) l ++ filter (fun r => f r = false) l <-> x ∈ l.
Proof. rewrite elem_of_app, !list_elem_of_filter. destruct (f x); intuition done. Qed.

Lemma partition_perm {A} (f : A -> bool) l : filter (fun r => f r = true) l ++ filter (fun r => f r = false) l ≡ₚ l.
Proof.
  induction l as [|x l IH]; [done|]. rewrite !filter_cons. destruct (f x); repeat case_decide; try done; cbn.
  - by rewrite IH.
  - by rewrite <- Permutation_middle, IH.
Qed.

(** ** Expected records *)

Definition emitted_by (registry : Registry) (reg : AgentRegistration) (id : DiscoveryProfile) : list ExpectedDNSRecord :=
  if one_of id (resolveRequestedProfiles registry reg)
  then match Registry_Get registry id with Some p => pe_Records p reg | None => [] end else [].

Definition soften (requested : list DiscoveryProfile) (r : ExpectedDNSRecord) : ExpectedDNSRecord :=
  if one_of DiscoveryProfileANSTXT requested && String.eqb (dr_Type r) DNSRecordSVCB then set_required false r else r.

Lemma soften_key requested r : recordKey (soften requested r) = recordKey r /\ is_discovery (soften requested r) = is_discovery r.
Proof. unfold soften. by case_if. Qed.

Lemma Compute_eq registry reg :
  let collected := dedup_records [] (id ← Registry_IDs registry; emitted_by registry reg id) in
  ComputeRequiredDNSRecords registry reg =
    soften (resolveRequestedProfiles registry reg) <$>
      (filter (fun r => is_discovery r = true) collected ++ filter (fun r => is_discovery r = false) collected).
Proof.
  cbn zeta. unfold ComputeRequiredDNSRecords, emitted_by, soften. case_if; [done|]. cbn [andb]. by rewrite list_fmap_id.
Qed.

(** The records an operator must publish are exactly those of the requested
    profiles: each comes from a requested profile of the registry, each record
    such a profile emits is represented, no two share name, type and value,
    discovery records come first, and once the TXT profile is requested no SVCB
    record is required. *)
Theorem required_records_exact registry reg :
  let out := ComputeRequiredDNSRecords registry reg in
  let requested := resolveRequestedProfiles registry reg in
  (forall r, r ∈ out -> exists id p r0, id ∈ requested /\ Registry_Get registry id = Some p /\ r0 ∈ pe_Records p reg /\
     (r = r0 \/ DiscoveryProfileANSTXT ∈ requested /\ dr_Type r0 = DNSRecordSVCB /\ r = set_required false r0)) /\
  (forall id p r0, id ∈ requested -> Registry_Get registry id = Some p -> r0 ∈ pe_Records p reg ->
     exists r, r ∈ out /\ recordKey r = recordKey r0) /\
  NoDup (recordKey <$> out) /\
  (exists l1 l2, out = l1 ++ l2 /\ Forall (fun r => is_discovery r = true) l1 /\ Forall (fun r => is_discovery r = false) l2) /\
  (DiscoveryProfileANSTXT ∈ requested -> forall r, r ∈ out -> dr_Type r = DNSRecordSVCB -> dr_Required r = false).
Proof.
  intros out requested. unfold out. rewrite Compute_eq. fold requested.
  set (emitted := id ← Registry_IDs registry; emitted_by registry reg id).
  assert (HE : forall r0, r0 ∈ emitted <-> exists id p, id ∈ requested /\ Registry_Get registry id = Some p /\ r0 ∈ pe_Records p reg).
  { intros r0. unfold emitted. rewrite list_elem_of_bind. unfold emitted_by. fold requested. split.
    - intros (id & H & Hid). destruct (one_of id requested) eqn:E; [|by apply not_elem_of_nil in H].
      destruct (Registry_Get registry id) as [p|] eqn:EG; [|by apply not_elem_of_nil in H]. exists id, p. split_and!; [by apply existsb_eqb_elem|done..].
    - intros (id & p & Hid & HG & Hr). exists id. rewrite HG. rewrite (proj2 (existsb_eqb_elem _ _) Hid : one_of id requested = true). split; [done|].
      apply find_first_Some in HG as [Hp E]. b2p. subst id. by apply list_elem_of_fmap_2. }
  split_and!.
  - intros r (r1 & -> & Hr1)%list_elem_of_fmap. apply partition_elem, dedup_elem in Hr1 as [Hr1 _]. apply HE in Hr1 as (id & p & ? & ? & ?).
    exists id, p, r1. split_and!; [done..|]. unfold soften. destruct (_ && _) eqn:E; [|by left]. right.
    apply andb_true_iff in E as [E1%existsb_eqb_elem E2%String.eqb_eq]. done.
  - intros id p r0 Hid HG Hr0. destruct (dedup_complete [] emitted r0) as [H|(r' & Hr' & Hk)]; [apply HE; eauto|by apply not_elem_of_nil in H|].
    exists (soften requested r'). split; [apply list_elem_of_fmap_2; by apply partition_elem|]. by rewrite (proj1 (soften_key _ _)).
  - rewrite <- list_fmap_compose. erewrite list_fmap_ext; [|intros i r _; apply soften_key]. rewrite partition_perm. apply dedup_NoDup.
  - rewrite fmap_app. eexists _, _. split; [reflexivity|]. rewrite !Forall_fmap, !Forall_forall. unfold compose.
    split; intros r [Hr _]%list_elem_of_filter; by rewrite (proj2 (soften_key _ _)).
  - intros HT r (r1 & -> & Hr1)%list_elem_of_fmap. unfold soften. rewrite (proj2 (existsb_eqb_elem _ _) HT : one_of _ requested = true). cbn [andb].
    destruct (String.eqb_spec (dr_Type r1) DNSRecordSVCB) as [E|E]; [done|congruence].
Qed.

(** ** What an activation attests *)

Lemma omap_nil {A B} (f : A -> option B) l : omap f l = [] -> forall x, x ∈ l -> f x = None.
Proof.
  induction l as [|y l IH]; cbn; [intros _ x Hx; by apply not_elem_of_nil in Hx|].
  destruct (f y) eqn:E; [done|]. intros H x [->|Hx]%elem_of_cons; [done|]. by apply IH.
Qed.

(** The verifier answers every record once. *)
Definition answers (expected : list ExpectedDNSRecord) (per : list RecordVerification) : Prop := rvn_Record <$> per ≡ₚ expected.

Lemma result_for_spec expected per r :
  NoDup (recordKey <$> expected) -> answers expected per -> r ∈ expected ->
  exists v, result_for per r = Some v /\ v ∈ per /\ rvn_Record v = r.
Proof.
  intros HN HA Hr. assert (Hv : r ∈ rvn_Record <$> per) by by rewrite HA. apply list_elem_of_fmap in Hv as (v & Er & Hv).
  unfold result_for. destruct (find_first _ _) as [v'|] eqn:E.
  - apply find_first_Some in E as [Hv' Hk]. apply list_elem_of_In, in_rev, list_elem_of_In in Hv'. b2p. exists v'. split_and!; [done|done|].
    eapply (NoDup_key recordKey); [exact HN| |done|done]. rewrite <- HA. by apply list_elem_of_fmap_2.
  - apply find_first_None in E. rewrite Forall_forall in E. specialize (E v). cbn in E. rewrite <- Er, String.eqb_refl in E.
    discriminate E. apply list_elem_of_In. rewrite <- in_rev. by apply list_elem_of_In.
Qed.

(** What an activation attests is what was observed: when the record check
    finds no mismatch, the records written into the sealed event are exactly the
    expected records the verifier found, they include every required one, and
    none of the unattested TLSA, SVCB or HTTPS records was contradicted by a
    DNSSEC-validated answer.  The verifier is assumed to report on each record
    it is asked for. *)
Theorem attested_records_observed {E} (v : DNSVerifier E) fqdn registry reg per :
  let expected := ComputeRequiredDNSRecords registry reg in
  verifyDNSRecords v fqdn expected = Ok ([], Some per) -> answers expected per ->
  let attested := (attestedDNSRecords expected (Some per)).1 in
  (forall r, r ∈ attested <-> exists a, a ∈ per /\ rvn_Record a = r /\ rvn_Found a = true) /\
  (forall r, r ∈ expected -> dr_Required r = true -> r ∈ attested) /\
  (forall a, a ∈ per -> rvn_Record a ∉ attested -> rvn_DNSSECVerified a = true ->
     one_of (dr_Type (rvn_Record a)) [DNSRecordTLSA; DNSRecordSVCB; DNSRecordHTTPS] = true -> rvn_Actual a = "").
Proof.
  intros expected HV HA attested. pose proof (required_records_exact registry reg) as (_ & _ & HN & _ & _). fold expected in HN.
  assert (HM : forall a, a ∈ per -> record_mismatch a = None).
  { unfold verifyDNSRecords in HV. destruct v as [verify|]; [|done]. apply bind_Ok in HV as ([res|] & _ & HV); [|done].
    injection HV as Hm Hp. rewrite Hp in Hm. by apply omap_nil. }
  assert (HP : forall a b, a ∈ per -> b ∈ per -> rvn_Record a = rvn_Record b -> a = b).
  { intros a b Ha Hb Eab. apply (NoDup_key (recordKey ∘ rvn_Record) per); [|done|done|unfold compose; congruence].
    rewrite list_fmap_compose, HA. done. }
  assert (HF : forall r, r ∈ attested <-> r ∈ expected /\ found_for per r = true) by (intros r; unfold attested; cbn; rewrite list_elem_of_filter; tauto).
  assert (HR : forall a, a ∈ per -> rvn_Record a ∈ attested <-> rvn_Found a = true).
  { intros a Ha. assert (Hin : rvn_Record a ∈ expected) by (rewrite <- HA; by apply list_elem_of_fmap_2). rewrite HF. unfold found_for.
    destruct (result_for_spec expected per (rvn_Record a) HN HA Hin) as (a' & -> & Ha' & Eq). rewrite (HP a' a Ha' Ha Eq). tauto. }
  split_and!.
  - intros r. split.
    + intros Hr. pose proof (proj1 (HF r) Hr) as [Hin _]. destruct (result_for_spec expected per r HN HA Hin) as (a & _ & Ha & <-).
      exists a. split_and!; [done|done|]. by apply HR.
    + intros (a & Ha & <- & Hf). by apply HR.
  - intros r Hin Hreq. destruct (result_for_spec expected per r HN HA Hin) as (a & _ & Ha & <-). apply HR; [done|].
    specialize (HM a Ha). unfold record_mismatch in HM. case_if_in HM; [done|]. rewrite Hreq in HM. cbn [negb] in HM.
    destruct (rvn_Found a); [done|]. cbn [negb andb] in HM. by case_if_in HM.
  - intros a Ha Hna Hd Ht. rewrite HR in Hna by done. specialize (HM a Ha). unfold record_mismatch in HM. rewrite Hd, Ht in HM.
    destruct (rvn_Found a); [done|]. cbn [negb andb] in HM. rewrite andb_true_r in HM. by destruct (String.eqb_spec (rvn_Actual a) "").
Qed.

(** ** Witnesses *)

Definition demo_fqdn : string := "agent.example.com".
Definition demo_record (typ : string) (required : bool) : ExpectedDNSRecord :=
  {| dr_Name := demo_fqdn; dr_Type := typ; dr_Value := "v"; dr_Purpose := PurposeDiscovery; dr_Required := required; dr_TTL := 3600 |}.

Definition demo_registry : Registry :=
  [{| pe_ID := DiscoveryProfileANSDNSAID; pe_Records := fun _ => [demo_record DNSRecordSVCB true; demo_record DNSRecordTLSA false] |}].

Definition demo_aid_reg : AgentRegistration :=
  {| r_ID := 1; r_AgentID := "a"; r_OwnerID := "o"; r_AnsName := MkAnsName (MkSemVer 1 0 0) demo_fqdn; r_Status := StatusPendingDNS;
     r_Details := {| d_RegistrationTimestamp := 0; d_LastRenewalTimestamp := 0; d_DisplayName := "n"; d_Description := "" |};
     r_Endpoints := []; r_ServerCert := None; r_IdentityCSR := None; r_ServerCSR := None; r_SupersedesRegistrationID := 0;
     r_CertOrder := zero_order; r_DiscoveryProfiles := [DiscoveryProfileANSDNSAID]; r_PendingEvents := [] |}.

Definition demo_answer (r : ExpectedDNSRecord) : RecordVerification :=
  {| rvn_Record := r; rvn_Found := dr_Required r; rvn_Actual := ""; rvn_Error := ""; rvn_DNSSECVerified := true |}.

Definition demo_expected : list ExpectedDNSRecord := ComputeRequiredDNSRecords demo_registry demo_aid_reg.

Lemma attested_records_observed_witness :
  demo_record DNSRecordSVCB true ∈ (attestedDNSRecords demo_expected (Some (demo_answer <$> demo_expected))).1.
Proof.
  apply (attested_records_observed (E := string)
    (Some (fun _ recs => Ok (Some {| vr_AllRequired := true; vr_Results := Some (demo_answer <$> recs) |}))) demo_fqdn demo_registry demo_aid_reg).
  - vm_compute. reflexivity.
  - unfold answers. rewrite <- list_fmap_compose. vm_compute. reflexivity.
  - vm_compute. left.
  - reflexivity.
Defined.
