(* ===== verification/TlEvent.v ===== *)
(** Producer events of the transparency log: [internal/tl/event] (V2),
    [internal/tl/event/v1] (V1) and [internal/domain/attested_expiry.go].

    The two lanes share the event fields and differ in the attestations.  A Go
    map is a [gmap].  Canonical JSON (RFC 8785) is a third-party library: the
    class [Canonicalizer] gives the bytes it returns for an event. *)
From stdpp Require Import gmap.
From S2P Require Import Prelude GoStrings GoTime DomainErrors SemVer AnsName Endpoint Lifecycle.

#[local] Set Default Goal Selector "!".
#[local] Open Scope Z_scope.

Definition SchemaVersionV1 : string := "V1".
Definition SchemaVersionV2 : string := "V2".

Definition TypeAgentRegistered : string := "AGENT_REGISTERED".
Definition TypeAgentRenewed : string := "AGENT_RENEWED".
Definition TypeAgentRevoked : string := "AGENT_REVOKED".
Definition TypeAgentDeprecated : string := "AGENT_DEPRECATED".

Definition Type_IsValid (t : string) : bool :=
  one_of t [TypeAgentRegistered; TypeAgentRenewed; TypeAgentRevoked; TypeAgentDeprecated].

Record EventAgent := { ea_Host : string; ea_Name : string; ea_Version : string; ea_ProviderID : string }.

Record DNSRecord := { dn_Name : string; dn_Data : string; dn_Type : string; dn_DNSSECVerified : bool }.

(** [event.CertificateInfo] and [eventv1.CertificateInfoExtended]. *)
Record CertificateInfo := { ci_Fingerprint : string; ci_CertType : string; ci_NotAfter : string }.

(** [eventv1.CertificateInfo] has no expiry. *)
Record CertificateInfoV1 := { c1_Fingerprint : string; c1_CertType : string }.

Record Attestations := {
  at2_DomainValidation : string;
  at2_DNSRecordsProvisioned : list DNSRecord;
  at2_IdentityCerts : list CertificateInfo;
  at2_ServerCerts : list CertificateInfo;
  at2_MetadataHashes : gmap string string
}.

Record AttestationsV1 := {
  at1_DNSRecordsProvisioned : gmap string string;
  at1_MetadataHashes : gmap string string;
  at1_IdentityCert : option CertificateInfoV1;
  at1_ServerCert : option CertificateInfoV1;
  at1_DomainValidation : string;
  at1_ValidIdentityCerts : list CertificateInfo;
  at1_ValidServerCerts : list CertificateInfo
}.

(** The event of a lane with attestations [T]. *)
Record TLEvent (T : Type) := {
  te_AnsID : string;
  te_AnsName : string;
  te_EventType : string;
  te_Agent : option EventAgent;
  te_Attestations : option T;
  te_ExpiresAt : string;
  te_IssuedAt : string;
  te_RaID : string;
  te_RenewalStatus : string;
  te_RevocationReasonCode : string;
  te_RevokedAt : string;
  te_Timestamp : string
}.
Arguments te_AnsID {T}. Arguments te_AnsName {T}. Arguments te_EventType {T}. Arguments te_Agent {T}.
Arguments te_Attestations {T}. Arguments te_ExpiresAt {T}. Arguments te_IssuedAt {T}. Arguments te_RaID {T}.
Arguments te_RenewalStatus {T}. Arguments te_RevocationReasonCode {T}. Arguments te_RevokedAt {T}.
Arguments te_Timestamp {T}.

Definition EventV2 : Type := TLEvent Attestations.
Definition EventV1 : Type := TLEvent AttestationsV1.

(** An event with its lane. *)
Inductive lane_event := LaneV1 (e : EventV1) | LaneV2 (e : EventV2).

Definition lane_version (e : lane_event) : string :=
  match e with LaneV1 _ => SchemaVersionV1 | LaneV2 _ => SchemaVersionV2 end.

(** [CanonicalizeEvent] of either lane. *)
Class Canonicalizer := { CanonicalizeEvent : lane_event -> option string }.

(** ** Validation *)

Inductive event_error :=
| EvNil | EvType | EvAnsID | EvAnsName | EvTimestamp | EvReason | EvExpiry
| EvSchema | EvPayload | EvLogID | EvProducer | EvKeyID | EvSignature.

Definition ParseAttestedExpiry (value : string) : result event_error Time :=
  if String.eqb value "" then Ok zeroTime else
  match ParseRFC3339 value with Some t => Ok t | None => Err EvExpiry end.

Fixpoint all_expiries (certs : list CertificateInfo) : result event_error unit :=
  match certs with
  | [] => Ok tt
  | c :: cs => _ ← ParseAttestedExpiry (ci_NotAfter c); all_expiries cs
  end.

Definition timestamp_ok {T} (e : TLEvent T) : result event_error unit :=
  if String.eqb (te_Timestamp e) "" then Err EvTimestamp else
  match ParseRFC3339 (te_Timestamp e) with None => Err EvTimestamp | Some _ =>
  if negb (String.eqb (te_RevocationReasonCode e) "") && negb (RevocationReason_IsValid (te_RevocationReasonCode e))
  then Err EvReason else
  _ ← ParseAttestedExpiry (te_ExpiresAt e); Ok tt
  end.

Definition EventV2_Validate (ev : option EventV2) : result event_error unit :=
  match ev with
  | None => Err EvNil
  | Some e =>
      if negb (Type_IsValid (te_EventType e)) then Err EvType else
      if String.eqb (te_AnsID e) "" then Err EvAnsID else
      if String.eqb (te_AnsName e) "" then Err EvAnsName else
      _ ← timestamp_ok e;
      match te_Attestations e with
      | None => Ok tt
      | Some a => _ ← all_expiries (at2_IdentityCerts a); all_expiries (at2_ServerCerts a)
      end
  end.

Definition EventV1_Validate (ev : option EventV1) : result event_error unit :=
  match ev with
  | None => Err EvNil
  | Some e =>
      if String.eqb (te_AnsID e) "" then Err EvAnsID else
      if String.eqb (te_AnsName e) "" then Err EvAnsName else
      if negb (Type_IsValid (te_EventType e)) then Err EvType else
      _ ← timestamp_ok e;
      match te_Attestations e with
      | None => Ok tt
      | Some a => _ ← all_expiries (at1_ValidIdentityCerts a); all_expiries (at1_ValidServerCerts a)
      end
  end.

Definition lane_event_Validate (e : lane_event) : result event_error unit :=
  match e with LaneV1 e => EventV1_Validate (Some e) | LaneV2 e => EventV2_Validate (Some e) end.
