(* ===== verification/Sha256.v ===== *)
(** Go's [crypto/sha256]: an executable SHA-256 on byte strings.

    A Go [[]byte] (and [[32]byte]) is a [string] of bytes.  Words are integers
    kept below [2^32] with every wrap-around written out.  [Sum256] is what
    [sha256.Sum256] and a [sha256.New] / [Write] / [Sum] sequence over the
    concatenated writes return.  The only facts the proofs use are that the
    digest has 32 bytes and that [Sum256] is a function; the test vectors of
    FIPS 180-4 pin the definition. *)
From S2P Require Import Prelude GoStrings.

#[local] Set Default Goal Selector "!".
#[local] Open Scope Z_scope.

(** ** 32-bit words *)

Definition w32 (x : Z) : Z := x mod 2 ^ 32.
Definition add32 (x y : Z) : Z := w32 (x + y).
Definition rotr (n x : Z) : Z := w32 (Z.lor (Z.shiftr x n) (Z.shiftl x (32 - n))).
Definition ch (x y z : Z) : Z := Z.lxor (Z.land x y) (Z.land (2 ^ 32 - 1 - x) z).
Definition maj (x y z : Z) : Z := Z.lxor (Z.land x y) (Z.lxor (Z.land x z) (Z.land y z)).
Definition big_sigma0 (x : Z) : Z := Z.lxor (rotr 2 x) (Z.lxor (rotr 13 x) (rotr 22 x)).
Definition big_sigma1 (x : Z) : Z := Z.lxor (rotr 6 x) (Z.lxor (rotr 11 x) (rotr 25 x)).
Definition small_sigma0 (x : Z) : Z := Z.lxor (rotr 7 x) (Z.lxor (rotr 18 x) (Z.shiftr x 3)).
Definition small_sigma1 (x : Z) : Z := Z.lxor (rotr 17 x) (Z.lxor (rotr 19 x) (Z.shiftr x 10)).

(** The constants: the first 32 bits of the fractional parts of the cube roots
    of the first 64 primes and of the square roots of the first eight
    (FIPS 180-4, sections 4.2.2 and 5.3.3). *)
Definition is_prime (n : nat) : bool :=
  forallb (fun d => negb (n mod d =? 0)%nat) (seq 2 (Nat.sqrt n - 1)).

Definition primes64 : list Z := Eval vm_compute in
  Z.of_nat <$> filter (fun n => is_prime n = true) (seq 2 310).

(** The integer cube root, bit by bit. *)
Fixpoint icbrt (bits : nat) (n acc : Z) : Z :=
  match bits with
  | O => acc
  | S b => let acc' := acc + 2 ^ Z.of_nat b in
           icbrt b n (if acc' ^ 3 <=? n then acc' else acc)
  end.

Definition sha_K : list Z := Eval vm_compute in
  (fun p => w32 (icbrt 36 (p * 2 ^ 96) 0)) <$> primes64.

Definition sha_H0 : list Z := Eval vm_compute in
  (fun p => w32 (Z.sqrt (p * 2 ^ 64))) <$> take 8 primes64.

(** ** Padding and blocks *)

(** Big-endian bytes of [x], [n] of them. *)
Fixpoint be_bytes (n : nat) (x : Z) : list Z :=
  match n with
  | O => []
  | S m => be_bytes m (x / 256) ++ [x mod 256]
  end.

Definition pad (m : list Z) : list Z :=
  let n := Z.of_nat (length m) in
  m ++ [128] ++ replicate (Z.to_nat ((55 - n) mod 64)) 0 ++ be_bytes 8 (8 * n).

Fixpoint words_of (l : list Z) : list Z :=
  match l with
  | a :: b :: c :: d :: l' => (((a * 256 + b) * 256 + c) * 256 + d) :: words_of l'
  | _ => []
  end.

(** Groups of sixteen words; the fuel is the number of words. *)
Fixpoint blocks_of (fuel : nat) (l : list Z) : list (list Z) :=
  match fuel, l with
  | S f, _ :: _ => take 16 l :: blocks_of f (drop 16 l)
  | _, _ => []
  end.

(** ** Compression *)

(** The message schedule as a sliding window: [win] holds the last sixteen
    words, oldest first; each step emits the oldest and appends the next. *)
Definition next_word (win : list Z) : Z :=
  let w i := nth i win 0 in
  add32 (add32 (small_sigma1 (w 14%nat)) (w 9%nat)) (add32 (small_sigma0 (w 1%nat)) (w 0%nat)).

Record wstate := WState { wa : Z; wb : Z; wc : Z; wd : Z; we : Z; wf : Z; wg : Z; wh : Z }.

Definition round (s : wstate) (k w : Z) : wstate :=
  let t1 := add32 (add32 (wh s) (big_sigma1 (we s)))
                  (add32 (ch (we s) (wf s) (wg s)) (add32 k w)) in
  let t2 := add32 (big_sigma0 (wa s)) (maj (wa s) (wb s) (wc s)) in
  WState (add32 t1 t2) (wa s) (wb s) (wc s) (add32 (wd s) t1) (we s) (wf s) (wg s).

Fixpoint rounds (ks : list Z) (win : list Z) (s : wstate) : wstate :=
  match ks with
  | [] => s
  | k :: ks' => rounds ks' (drop 1 win ++ [next_word win]) (round s k (nth 0%nat win 0))
  end.

Definition add_state (s t : wstate) : wstate :=
  WState (add32 (wa s) (wa t)) (add32 (wb s) (wb t)) (add32 (wc s) (wc t)) (add32 (wd s) (wd t))
         (add32 (we s) (we t)) (add32 (wf s) (wf t)) (add32 (wg s) (wg t)) (add32 (wh s) (wh t)).

Definition compress (s : wstate) (blk : list Z) : wstate := add_state s (rounds sha_K blk s).

Definition init_state : wstate :=
  let h i := nth i sha_H0 0 in
  WState (h 0%nat) (h 1%nat) (h 2%nat) (h 3%nat) (h 4%nat) (h 5%nat) (h 6%nat) (h 7%nat).

Definition digest_bytes (s : wstate) : list Z :=
  flat_map (be_bytes 4) [wa s; wb s; wc s; wd s; we s; wf s; wg s; wh s].

Fixpoint string_of_bytes (l : list Z) : string :=
  match l with
  | [] => ""
  | b :: l' => String (chr b) (string_of_bytes l')
  end.

(** [sha256.Size]. *)
Definition sha256_Size : nat := 32.

(** [sha256.Sum256]. *)
Definition Sum256 (s : string) : string :=
  let ws := words_of (pad (bytes_of s)) in
  string_of_bytes (digest_bytes (fold_left compress (blocks_of (length ws) ws) init_state)).

(** ** Facts *)

Lemma length_string_of_bytes l : String.length (string_of_bytes l) = length l.
Proof. induction l as [|b l IH]; simpl; [done|by rewrite IH]. Qed.

Lemma length_be_bytes n x : length (be_bytes n x) = n.
Proof. revert x. induction n as [|n IH]; intros x; simpl; [done|]. rewrite length_app, IH. simpl. lia. Qed.

Lemma Sum256_length s : String.length (Sum256 s) = sha256_Size.
Proof.
  unfold Sum256. rewrite length_string_of_bytes. unfold digest_bytes. cbn [flat_map].
  rewrite !length_app, !length_be_bytes. done.
Qed.

#[global] Opaque Sum256.

(** Lower-case hexadecimal, [encoding/hex]. *)
Definition hex_digit (d : Z) : ascii := if d <? 10 then chr (48 + d) else chr (87 + d).

Fixpoint hex_encode (s : string) : string :=
  match s with
  | EmptyString => ""
  | String c s' => String (hex_digit (byteZ c / 16)) (String (hex_digit (byteZ c mod 16)) (hex_encode s'))
  end.

Lemma length_hex_encode s : String.length (hex_encode s) = (2 * String.length s)%nat.
Proof. induction s as [|c s IH]; simpl; [done|rewrite IH; lia]. Qed.

(** FIPS 180-4 test vectors. *)
Example Sum256_empty :
  hex_encode (Sum256 "") = "e3b0c44298fc1c149afbf4c8996fb92427ae41e4649b934ca495991b7852b855".
Proof. vm_compute. reflexivity. Qed.

Example Sum256_abc :
  hex_encode (Sum256 "abc") = "ba7816bf8f01cfea414140de5dae2223b00361a396177a9cb410ff61f20015ad".
Proof. vm_compute. reflexivity. Qed.

Example Sum256_two_blocks :
  hex_encode (Sum256 "abcdbcdecdefdefgefghfghighijhijkijkljklmklmnlmnomnopnopq")
  = "248d6a61d20638b8e5c026930c3e6039a33ce45964ff2167f6ecedd419db06c1".
Proof. vm_compute. reflexivity. Qed.
