(* ===== verification/TlEnvelope.v ===== *)
(** The envelopes the transparency log seals: [internal/tl/event] (V2),
    [internal/tl/event/v1] (V1), [internal/tl/event/identity], and the codecs of
    [internal/tl/service/codec.go].

    The three envelope types have the same wrapper around their own inner event;
    [Signable] is the interface they share.  Each struct has its fields as
    [encoding/json] writes them ([enc_...]) and reads them ([dec_...]).  A
    [json.RawMessage] is the value it denotes. *)
From stdpp Require Import gmap.
From S2P Require Import Prelude GoStrings GoTime GoJSON Jcs DomainErrors SemVer AnsName Endpoint Lifecycle TlEvent Sha256.

#[local] Set Default Goal Selector "!".
#[local] Open Scope Z_scope.

(** ** Identity events *)

Definition TypeIdentityVerified : string := "IDENTITY_VERIFIED".
Definition TypeIdentityUpdated : string := "IDENTITY_UPDATED".
Definition TypeIdentityRevoked : string := "IDENTITY_REVOKED".
Definition TypeIdentityLinked : string := "IDENTITY_LINKED".
Definition TypeIdentityUnlinked : string := "IDENTITY_UNLINKED".

Definition IdentityType_IsValid (t : string) : bool :=
  one_of t [TypeIdentityVerified; TypeIdentityUpdated; TypeIdentityRevoked; TypeIdentityLinked; TypeIdentityUnlinked].

Definition IdentityType_isLink (t : string) : bool := String.eqb t TypeIdentityLinked || String.eqb t TypeIdentityUnlinked.
Definition IdentityType_isProof (t : string) : bool := String.eqb t TypeIdentityVerified || String.eqb t TypeIdentityUpdated.

Record ProvenKey := { pk_VerificationMethod : option json; pk_SignedProof : string }.

Record IdentityEvent := {
  iv_AnsIDs : list string;
  iv_EventType : string;
  iv_IdentityID : string;
  iv_Kind : string;
  iv_Keys : list ProvenKey;
  iv_PreviousValue : string;
  iv_ProofMethod : string;
  iv_ProviderID : string;
  iv_RaID : string;
  iv_RevokedAt : string;
  iv_Timestamp : string;
  iv_Value : string;
  iv_VerifiedAt : string
}.

(** [ProvenKey.ID]: the [id] member of the verification method. *)
Definition ProvenKey_ID (k : ProvenKey) : string :=
  match pk_VerificationMethod k with
  | None => ""
  | Some vm => default "" (dec_struct (fun m id => field "id" dec_str id m) vm "")
  end.

Inductive identity_error :=
| IvNil | IvType | IvIdentityID | IvKind | IvValue | IvTimestamp | IvAnsIDs | IvKeys | IvVerifiedAt | IvProviderID | IvRevokedAt.

Fixpoint validate_keys (keys : list ProvenKey) : result identity_error unit :=
  match keys with
  | [] => Ok tt
  | k :: ks =>
      match pk_VerificationMethod k with
      | None => Err IvKeys
      | Some _ =>
          if String.eqb (ProvenKey_ID k) "" then Err IvKeys else
          if String.eqb (pk_SignedProof k) "" then Err IvKeys else validate_keys ks
      end
  end.

Definition validateProofFields (ev : IdentityEvent) : result identity_error unit :=
  if Nat.eqb (length (iv_Keys ev)) 0 then Err IvKeys else
  _ ← validate_keys (iv_Keys ev);
  if String.eqb (iv_VerifiedAt ev) "" then Err IvVerifiedAt else
  if String.eqb (iv_ProviderID ev) "" then Err IvProviderID else Ok tt.

Definition IdentityEvent_Validate (ev : option IdentityEvent) : result identity_error unit :=
  match ev with
  | None => Err IvNil
  | Some e =>
      if negb (IdentityType_IsValid (iv_EventType e)) then Err IvType else
      if String.eqb (iv_IdentityID e) "" then Err IvIdentityID else
      if String.eqb (iv_Kind e) "" then Err IvKind else
      if String.eqb (iv_Value e) "" then Err IvValue else
      if String.eqb (iv_Timestamp e) "" then Err IvTimestamp else
      match ParseRFC3339 (iv_Timestamp e) with
      | None => Err IvTimestamp
      | Some _ =>
          _ ← (if IdentityType_isLink (iv_EventType e)
               then guard_err (negb (Nat.eqb (length (iv_AnsIDs e)) 0) && forallb (fun id => negb (String.eqb id "")) (iv_AnsIDs e)) IvAnsIDs
               else guard_err (Nat.eqb (length (iv_AnsIDs e)) 0) IvAnsIDs);
          _ ← (if IdentityType_isProof (iv_EventType e) then validateProofFields e else Ok tt);
          if String.eqb (iv_EventType e) TypeIdentityRevoked && String.eqb (iv_RevokedAt e) "" then Err IvRevokedAt else Ok tt
      end
  end.

(** ** JSON forms of the inner events *)

Definition enc_agent (a : EventAgent) : json :=
  obj [("host", Some (JStr (ea_Host a))); ("name", Some (JStr (ea_Name a))); ("version", Some (JStr (ea_Version a)));
       ("providerId", omit_str (ea_ProviderID a))].

Definition zero_agent : EventAgent := {| ea_Host := ""; ea_Name := ""; ea_Version := ""; ea_ProviderID := "" |}.

Definition dec_agent (m : list (string * json)) (a : EventAgent) : option EventAgent :=
  host ← field "host" dec_str (ea_Host a) m;
  name ← field "name" dec_str (ea_Name a) m;
  version ← field "version" dec_str (ea_Version a) m;
  provider ← field "providerId" dec_str (ea_ProviderID a) m;
  Some {| ea_Host := host; ea_Name := name; ea_Version := version; ea_ProviderID := provider |}.

Definition enc_dns (r : DNSRecord) : json :=
  obj [("name", Some (JStr (dn_Name r))); ("data", Some (JStr (dn_Data r))); ("type", Some (JStr (dn_Type r)));
       ("dnssecVerified", omit_bool (dn_DNSSECVerified r))].

Definition zero_dns : DNSRecord := {| dn_Name := ""; dn_Data := ""; dn_Type := ""; dn_DNSSECVerified := false |}.

Definition dec_dns (m : list (string * json)) (r : DNSRecord) : option DNSRecord :=
  name ← field "name" dec_str (dn_Name r) m;
  data ← field "data" dec_str (dn_Data r) m;
  type ← field "type" dec_str (dn_Type r) m;
  sec ← field "dnssecVerified" dec_bool (dn_DNSSECVerified r) m;
  Some {| dn_Name := name; dn_Data := data; dn_Type := type; dn_DNSSECVerified := sec |}.

Definition enc_cert (c : CertificateInfo) : json :=
  obj [("fingerprint", Some (JStr (ci_Fingerprint c))); ("type", Some (JStr (ci_CertType c))); ("notAfter", omit_str (ci_NotAfter c))].

Definition zero_cert : CertificateInfo := {| ci_Fingerprint := ""; ci_CertType := ""; ci_NotAfter := "" |}.

Definition dec_cert (m : list (string * json)) (c : CertificateInfo) : option CertificateInfo :=
  fp ← field "fingerprint" dec_str (ci_Fingerprint c) m;
  type ← field "type" dec_str (ci_CertType c) m;
  na ← field "notAfter" dec_str (ci_NotAfter c) m;
  Some {| ci_Fingerprint := fp; ci_CertType := type; ci_NotAfter := na |}.

Definition enc_cert1 (c : CertificateInfoV1) : json :=
  obj [("fingerprint", omit_str (c1_Fingerprint c)); ("type", omit_str (c1_CertType c))].

Definition zero_cert1 : CertificateInfoV1 := {| c1_Fingerprint := ""; c1_CertType := "" |}.

Definition dec_cert1 (m : list (string * json)) (c : CertificateInfoV1) : option CertificateInfoV1 :=
  fp ← field "fingerprint" dec_str (c1_Fingerprint c) m;
  type ← field "type" dec_str (c1_CertType c) m;
  Some {| c1_Fingerprint := fp; c1_CertType := type |}.

Definition enc_attestations (a : Attestations) : json :=
  obj [("domainValidation", omit_str (at2_DomainValidation a));
       ("dnsRecordsProvisioned", omit_list (enc_dns <$> at2_DNSRecordsProvisioned a));
       ("identityCerts", omit_list (enc_cert <$> at2_IdentityCerts a));
       ("serverCerts", omit_list (enc_cert <$> at2_ServerCerts a));
       ("metadataHashes", omit_strmap (at2_MetadataHashes a))].

Definition zero_attestations : Attestations :=
  {| at2_DomainValidation := ""; at2_DNSRecordsProvisioned := []; at2_IdentityCerts := []; at2_ServerCerts := []; at2_MetadataHashes := ∅ |}.

Definition dec_attestations (m : list (string * json)) (a : Attestations) : option Attestations :=
  dv ← field "domainValidation" dec_str (at2_DomainValidation a) m;
  dns ← field "dnsRecordsProvisioned" (dec_list (dec_struct dec_dns) zero_dns) (at2_DNSRecordsProvisioned a) m;
  idc ← field "identityCerts" (dec_list (dec_struct dec_cert) zero_cert) (at2_IdentityCerts a) m;
  svc ← field "serverCerts" (dec_list (dec_struct dec_cert) zero_cert) (at2_ServerCerts a) m;
  mh ← field "metadataHashes" dec_strmap (at2_MetadataHashes a) m;
  Some {| at2_DomainValidation := dv; at2_DNSRecordsProvisioned := dns; at2_IdentityCerts := idc; at2_ServerCerts := svc;
          at2_MetadataHashes := mh |}.

Definition enc_attestations1 (a : AttestationsV1) : json :=
  obj [("dnsRecordsProvisioned", omit_strmap (at1_DNSRecordsProvisioned a));
       ("metadataHashes", omit_strmap (at1_MetadataHashes a));
       ("identityCert", enc_cert1 <$> at1_IdentityCert a);
       ("serverCert", enc_cert1 <$> at1_ServerCert a);
       ("domainValidation", omit_str (at1_DomainValidation a));
       ("validIdentityCerts", omit_list (enc_cert <$> at1_ValidIdentityCerts a));
       ("validServerCerts", omit_list (enc_cert <$> at1_ValidServerCerts a))].

Definition zero_attestations1 : AttestationsV1 :=
  {| at1_DNSRecordsProvisioned := ∅; at1_MetadataHashes := ∅; at1_IdentityCert := None; at1_ServerCert := None;
     at1_DomainValidation := ""; at1_ValidIdentityCerts := []; at1_ValidServerCerts := [] |}.

Definition dec_attestations1 (m : list (string * json)) (a : AttestationsV1) : option AttestationsV1 :=
  dns ← field "dnsRecordsProvisioned" dec_strmap (at1_DNSRecordsProvisioned a) m;
  mh ← field "metadataHashes" dec_strmap (at1_MetadataHashes a) m;
  idc ← field "identityCert" (dec_ptr (dec_struct dec_cert1) zero_cert1) (at1_IdentityCert a) m;
  svc ← field "serverCert" (dec_ptr (dec_struct dec_cert1) zero_cert1) (at1_ServerCert a) m;
  dv ← field "domainValidation" dec_str (at1_DomainValidation a) m;
  vid ← field "validIdentityCerts" (dec_list (dec_struct dec_cert) zero_cert) (at1_ValidIdentityCerts a) m;
  vsv ← field "validServerCerts" (dec_list (dec_struct dec_cert) zero_cert) (at1_ValidServerCerts a) m;
  Some {| at1_DNSRecordsProvisioned := dns; at1_MetadataHashes := mh; at1_IdentityCert := idc; at1_ServerCert := svc;
          at1_DomainValidation := dv; at1_ValidIdentityCerts := vid; at1_ValidServerCerts := vsv |}.

Section Event.
Context {T : Type} (enc_att : T -> json) (dec_att : list (string * json) -> T -> option T) (zero_att : T).

Definition enc_event (e : TLEvent T) : json :=
  obj [("ansId", Some (JStr (te_AnsID e))); ("ansName", Some (JStr (te_AnsName e))); ("eventType", Some (JStr (te_EventType e)));
       ("agent", enc_agent <$> te_Agent e); ("attestations", enc_att <$> te_Attestations e);
       ("expiresAt", omit_str (te_ExpiresAt e)); ("issuedAt", omit_str (te_IssuedAt e)); ("raId", omit_str (te_RaID e));
       ("renewalStatus", omit_str (te_RenewalStatus e)); ("revocationReasonCode", omit_str (te_RevocationReasonCode e));
       ("revokedAt", omit_str (te_RevokedAt e)); ("timestamp", Some (JStr (te_Timestamp e)))].

Definition zero_event : TLEvent T :=
  {| te_AnsID := ""; te_AnsName := ""; te_EventType := ""; te_Agent := None; te_Attestations := None; te_ExpiresAt := "";
     te_IssuedAt := ""; te_RaID := ""; te_RenewalStatus := ""; te_RevocationReasonCode := ""; te_RevokedAt := ""; te_Timestamp := "" |}.

Definition dec_event (m : list (string * json)) (e : TLEvent T) : option (TLEvent T) :=
  ansId ← field "ansId" dec_str (te_AnsID e) m;
  ansName ← field "ansName" dec_str (te_AnsName e) m;
  eventType ← field "eventType" dec_str (te_EventType e) m;
  agent ← field "agent" (dec_ptr (dec_struct dec_agent) zero_agent) (te_Agent e) m;
  att ← field "attestations" (dec_ptr (dec_struct dec_att) zero_att) (te_Attestations e) m;
  expiresAt ← field "expiresAt" dec_str (te_ExpiresAt e) m;
  issuedAt ← field "issuedAt" dec_str (te_IssuedAt e) m;
  raId ← field "raId" dec_str (te_RaID e) m;
  renewal ← field "renewalStatus" dec_str (te_RenewalStatus e) m;
  reason ← field "revocationReasonCode" dec_str (te_RevocationReasonCode e) m;
  revokedAt ← field "revokedAt" dec_str (te_RevokedAt e) m;
  timestamp ← field "timestamp" dec_str (te_Timestamp e) m;
  Some {| te_AnsID := ansId; te_AnsName := ansName; te_EventType := eventType; te_Agent := agent; te_Attestations := att;
          te_ExpiresAt := expiresAt; te_IssuedAt := issuedAt; te_RaID := raId; te_RenewalStatus := renewal;
          te_RevocationReasonCode := reason; te_RevokedAt := revokedAt; te_Timestamp := timestamp |}.

(** [inner.RaID = raID]. *)
Definition with_raid (e : TLEvent T) (raID : string) : TLEvent T :=
  {| te_AnsID := te_AnsID e; te_AnsName := te_AnsName e; te_EventType := te_EventType e; te_Agent := te_Agent e;
     te_Attestations := te_Attestations e; te_ExpiresAt := te_ExpiresAt e; te_IssuedAt := te_IssuedAt e; te_RaID := raID;
     te_RenewalStatus := te_RenewalStatus e; te_RevocationReasonCode := te_RevocationReasonCode e;
     te_RevokedAt := te_RevokedAt e; te_Timestamp := te_Timestamp e |}.
End Event.

Definition enc_event2 : EventV2 -> json := enc_event enc_attestations.
Definition dec_event2 : json -> EventV2 -> option EventV2 := dec_struct (dec_event dec_attestations zero_attestations).
Definition enc_event1 : EventV1 -> json := enc_event enc_attestations1.
Definition dec_event1 : json -> EventV1 -> option EventV1 := dec_struct (dec_event dec_attestations1 zero_attestations1).

Definition enc_key (k : ProvenKey) : json :=
  obj [("verificationMethod", Some (default JNull (pk_VerificationMethod k))); ("signedProof", Some (JStr (pk_SignedProof k)))].

Definition zero_key : ProvenKey := {| pk_VerificationMethod := None; pk_SignedProof := "" |}.

Definition dec_key (m : list (string * json)) (k : ProvenKey) : option ProvenKey :=
  vm ← field "verificationMethod" dec_raw (pk_VerificationMethod k) m;
  sp ← field "signedProof" dec_str (pk_SignedProof k) m;
  Some {| pk_VerificationMethod := vm; pk_SignedProof := sp |}.

Definition enc_identity (e : IdentityEvent) : json :=
  obj [("ansIds", omit_list (JStr <$> iv_AnsIDs e)); ("eventType", Some (JStr (iv_EventType e)));
       ("identityId", Some (JStr (iv_IdentityID e))); ("kind", Some (JStr (iv_Kind e)));
       ("keys", omit_list (enc_key <$> iv_Keys e)); ("previousValue", omit_str (iv_PreviousValue e));
       ("proofMethod", omit_str (iv_ProofMethod e)); ("providerId", omit_str (iv_ProviderID e));
       ("raId", omit_str (iv_RaID e)); ("revokedAt", omit_str (iv_RevokedAt e)); ("timestamp", Some (JStr (iv_Timestamp e)));
       ("value", Some (JStr (iv_Value e))); ("verifiedAt", omit_str (iv_VerifiedAt e))].

Definition zero_identity : IdentityEvent :=
  {| iv_AnsIDs := []; iv_EventType := ""; iv_IdentityID := ""; iv_Kind := ""; iv_Keys := []; iv_PreviousValue := ""; iv_ProofMethod := "";
     iv_ProviderID := ""; iv_RaID := ""; iv_RevokedAt := ""; iv_Timestamp := ""; iv_Value := ""; iv_VerifiedAt := "" |}.

Definition dec_identity_members (m : list (string * json)) (e : IdentityEvent) : option IdentityEvent :=
  ansIds ← field "ansIds" (dec_list dec_str "") (iv_AnsIDs e) m;
  eventType ← field "eventType" dec_str (iv_EventType e) m;
  identityId ← field "identityId" dec_str (iv_IdentityID e) m;
  kind ← field "kind" dec_str (iv_Kind e) m;
  keys ← field "keys" (dec_list (dec_struct dec_key) zero_key) (iv_Keys e) m;
  prev ← field "previousValue" dec_str (iv_PreviousValue e) m;
  meth ← field "proofMethod" dec_str (iv_ProofMethod e) m;
  prov ← field "providerId" dec_str (iv_ProviderID e) m;
  raId ← field "raId" dec_str (iv_RaID e) m;
  rev ← field "revokedAt" dec_str (iv_RevokedAt e) m;
  ts ← field "timestamp" dec_str (iv_Timestamp e) m;
  val ← field "value" dec_str (iv_Value e) m;
  ver ← field "verifiedAt" dec_str (iv_VerifiedAt e) m;
  Some {| iv_AnsIDs := ansIds; iv_EventType := eventType; iv_IdentityID := identityId; iv_Kind := kind; iv_Keys := keys;
          iv_PreviousValue := prev; iv_ProofMethod := meth; iv_ProviderID := prov; iv_RaID := raId; iv_RevokedAt := rev;
          iv_Timestamp := ts; iv_Value := val; iv_VerifiedAt := ver |}.

Definition dec_identity : json -> IdentityEvent -> option IdentityEvent := dec_struct dec_identity_members.

Definition identity_with_raid (e : IdentityEvent) (raID : string) : IdentityEvent :=
  {| iv_AnsIDs := iv_AnsIDs e; iv_EventType := iv_EventType e; iv_IdentityID := iv_IdentityID e; iv_Kind := iv_Kind e; iv_Keys := iv_Keys e;
     iv_PreviousValue := iv_PreviousValue e; iv_ProofMethod := iv_ProofMethod e; iv_ProviderID := iv_ProviderID e; iv_RaID := raID;
     iv_RevokedAt := iv_RevokedAt e; iv_Timestamp := iv_Timestamp e; iv_Value := iv_Value e; iv_VerifiedAt := iv_VerifiedAt e |}.

(** ** Envelopes *)

Record Producer (E : Type) := { pr_Event : option E; pr_KeyID : string; pr_Signature : string }.
Record Payload (E : Type) := { pl_LogID : string; pl_Producer : option (Producer E) }.
Record Envelope (E : Type) := {
  en_Payload : option (Payload E);
  en_SchemaVersion : string;
  en_Signature : string;
  en_Status : string
}.
Arguments pr_Event {E}. Arguments pr_KeyID {E}. Arguments pr_Signature {E}.
Arguments pl_LogID {E}. Arguments pl_Producer {E}.
Arguments en_Payload {E}. Arguments en_SchemaVersion {E}. Arguments en_Signature {E}. Arguments en_Status {E}.

Section EnvelopeOf.
Context {E : Type} (enc_inner : E -> json) (dec_inner : json -> E -> option E) (zero_inner : E).

Definition enc_producer (p : Producer E) : json :=
  obj [("event", Some (from_option enc_inner JNull (pr_Event p))); ("keyId", Some (JStr (pr_KeyID p)));
       ("signature", Some (JStr (pr_Signature p)))].

Definition zero_producer : Producer E := {| pr_Event := None; pr_KeyID := ""; pr_Signature := "" |}.

Definition dec_producer (m : list (string * json)) (p : Producer E) : option (Producer E) :=
  event ← field "event" (dec_ptr dec_inner zero_inner) (pr_Event p) m;
  keyId ← field "keyId" dec_str (pr_KeyID p) m;
  sig ← field "signature" dec_str (pr_Signature p) m;
  Some {| pr_Event := event; pr_KeyID := keyId; pr_Signature := sig |}.

(** V1 declares the two members in the other order, which canonicalization
    removes. *)
Definition enc_payload (p : Payload E) : json :=
  obj [("logId", Some (JStr (pl_LogID p))); ("producer", Some (from_option enc_producer JNull (pl_Producer p)))].

Definition zero_payload : Payload E := {| pl_LogID := ""; pl_Producer := None |}.

Definition dec_payload (m : list (string * json)) (p : Payload E) : option (Payload E) :=
  logId ← field "logId" dec_str (pl_LogID p) m;
  prod ← field "producer" (dec_ptr (dec_struct dec_producer) zero_producer) (pl_Producer p) m;
  Some {| pl_LogID := logId; pl_Producer := prod |}.

Definition enc_envelope (e : Envelope E) : json :=
  obj [("payload", enc_payload <$> en_Payload e); ("schemaVersion", omit_str (en_SchemaVersion e));
       ("signature", omit_str (en_Signature e)); ("status", omit_str (en_Status e))].

Definition zero_envelope : Envelope E := {| en_Payload := None; en_SchemaVersion := ""; en_Signature := ""; en_Status := "" |}.

Definition dec_envelope_members (m : list (string * json)) (e : Envelope E) : option (Envelope E) :=
  payload ← field "payload" (dec_ptr (dec_struct dec_payload) zero_payload) (en_Payload e) m;
  version ← field "schemaVersion" dec_str (en_SchemaVersion e) m;
  sig ← field "signature" dec_str (en_Signature e) m;
  status ← field "status" dec_str (en_Status e) m;
  Some {| en_Payload := payload; en_SchemaVersion := version; en_Signature := sig; en_Status := status |}.

Definition dec_envelope : json -> Envelope E -> option (Envelope E) := dec_struct dec_envelope_members.

Definition innerEvent (e : Envelope E) : option E :=
  payload ← en_Payload e; producer ← pl_Producer payload; pr_Event producer.

Definition env_producer (e : Envelope E) : option (Producer E) := payload ← en_Payload e; pl_Producer payload.

Definition BuildEnvelope (version logID : string) (inner : E) (producerKeyID producerSignature : string) : Envelope E :=
  {| en_Payload := Some {| pl_LogID := logID;
       pl_Producer := Some {| pr_Event := Some inner; pr_KeyID := producerKeyID; pr_Signature := producerSignature |} |};
     en_SchemaVersion := version; en_Signature := ""; en_Status := "" |}.

Definition with_signature (e : Envelope E) (sig : string) : Envelope E :=
  {| en_Payload := en_Payload e; en_SchemaVersion := en_SchemaVersion e; en_Signature := sig; en_Status := en_Status e |}.
End EnvelopeOf.

(** The implementations of [event.Signable]. *)
Inductive Signable :=
| SigV2 (e : Envelope EventV2)
| SigV1 (e : Envelope EventV1)
| SigId (e : Envelope IdentityEvent).

(** ** [event.View] *)

Definition View_Version (s : Signable) : string :=
  match s with SigV2 e => en_SchemaVersion e | SigV1 e => en_SchemaVersion e | SigId e => en_SchemaVersion e end.

Definition View_LogID (s : Signable) : string :=
  let id {E} (e : Envelope E) := from_option pl_LogID "" (en_Payload e) in
  match s with SigV2 e => id e | SigV1 e => id e | SigId e => id e end.

Definition View_AgentID (s : Signable) : string :=
  match s with SigV2 e => from_option te_AnsID "" (innerEvent e) | SigV1 e => from_option te_AnsID "" (innerEvent e) | SigId _ => "" end.

Definition View_AnsName (s : Signable) : string :=
  match s with SigV2 e => from_option te_AnsName "" (innerEvent e) | SigV1 e => from_option te_AnsName "" (innerEvent e) | SigId _ => "" end.

Definition agent_host {T} (e : TLEvent T) : string := from_option ea_Host "" (te_Agent e).

Definition View_AgentFQDN (s : Signable) : string :=
  match s with SigV2 e => from_option agent_host "" (innerEvent e) | SigV1 e => from_option agent_host "" (innerEvent e) | SigId _ => "" end.

Definition View_EventType (s : Signable) : string :=
  match s with
  | SigV2 e => from_option te_EventType "" (innerEvent e)
  | SigV1 e => from_option te_EventType "" (innerEvent e)
  | SigId e => from_option iv_EventType "" (innerEvent e)
  end.

Definition View_Timestamp (s : Signable) : string :=
  match s with
  | SigV2 e => from_option te_Timestamp "" (innerEvent e)
  | SigV1 e => from_option te_Timestamp "" (innerEvent e)
  | SigId e => from_option iv_Timestamp "" (innerEvent e)
  end.

(** The capability [identityIndexed]: only identity envelopes have it. *)
Definition View_IdentityID (s : Signable) : string :=
  match s with SigId e => from_option iv_IdentityID "" (innerEvent e) | _ => "" end.

Definition View_LinkedAgentIDs (s : Signable) : list string :=
  match s with SigId e => from_option iv_AnsIDs [] (innerEvent e) | _ => [] end.

(** ** Validation *)

Inductive envelope_error := InEvent (e : event_error) | InIdentity (e : identity_error) | InEnvelope (e : event_error).

Definition lift_event {A} (r : result event_error A) : result envelope_error A :=
  match r with Ok a => Ok a | Err e => Err (InEvent e) end.
Definition lift_identity {A} (r : result identity_error A) : result envelope_error A :=
  match r with Ok a => Ok a | Err e => Err (InIdentity e) end.

(** The wrapper checks of the V2 and identity envelopes. *)
Definition wrapper_ok {E} (version : string) (e : Envelope E) : result envelope_error (Producer E) :=
  if negb (String.eqb (en_SchemaVersion e) version) then Err (InEnvelope EvSchema) else
  match en_Payload e with
  | None => Err (InEnvelope EvPayload)
  | Some p =>
      if String.eqb (pl_LogID p) "" then Err (InEnvelope EvLogID) else
      match pl_Producer p with None => Err (InEnvelope EvProducer) | Some pr => Ok pr end
  end.

Definition producer_ok {E} (p : Producer E) : result envelope_error unit :=
  if String.eqb (pr_KeyID p) "" then Err (InEnvelope EvKeyID) else
  if String.eqb (pr_Signature p) "" then Err (InEnvelope EvSignature) else Ok tt.

Definition Signable_Validate (s : Signable) : result envelope_error unit :=
  match s with
  | SigV2 e => p ← wrapper_ok SchemaVersionV2 e; _ ← producer_ok p; lift_event (EventV2_Validate (pr_Event p))
  | SigV1 e => p ← wrapper_ok SchemaVersionV1 e; lift_event (EventV1_Validate (pr_Event p))
  | SigId e => p ← wrapper_ok SchemaVersionV2 e; _ ← producer_ok p; lift_identity (IdentityEvent_Validate (pr_Event p))
  end.

(** ** Canonical bytes *)

Definition enc_signable (s : Signable) : json :=
  match s with
  | SigV2 e => enc_envelope enc_event2 e
  | SigV1 e => enc_envelope enc_event1 e
  | SigId e => enc_envelope enc_identity e
  end.

Definition outerSignature (s : Signable) : string :=
  match s with SigV2 e => en_Signature e | SigV1 e => en_Signature e | SigId e => en_Signature e end.

(** [setOuterSignature]. *)
Definition setOuterSignature (s : Signable) (sig : string) : Signable :=
  match s with
  | SigV2 e => SigV2 (with_signature e sig)
  | SigV1 e => SigV1 (with_signature e sig)
  | SigId e => SigId (with_signature e sig)
  end.

Definition leafHashOf (leaf : string) : string := Sum256 (String (chr 0) leaf).

Section Canonical.
Context `{J : JCS}.

Definition SigningInput (s : Signable) : option string :=
  if negb (String.eqb (outerSignature s) "") then None else canonicalize (enc_signable s).

Definition LeafBytes (s : Signable) : option string :=
  if String.eqb (outerSignature s) "" then None else canonicalize (enc_signable s).

Definition LeafHash (s : Signable) : option string := leaf ← LeafBytes s; Some (leafHashOf leaf).

(** [CanonicalizeEvent] of the three packages. *)
Definition CanonicalizeV2 (e : EventV2) : option string := canonicalize (enc_event2 e).
Definition CanonicalizeV1 (e : EventV1) : option string := canonicalize (enc_event1 e).
Definition CanonicalizeIdentity (e : IdentityEvent) : option string := canonicalize (enc_identity e).

(** The registration authority's canonicalizer, which signs the same bytes. *)
Definition jcs_canonicalizer : Canonicalizer :=
  {| CanonicalizeEvent e := match e with LaneV1 e => CanonicalizeV1 e | LaneV2 e => CanonicalizeV2 e end |}.

(** ** Codecs *)

Inductive codec := V2Codec | V1Codec | IdentityCodec.

Definition invalid {A} (code : string) : result serr A := Err (Dom (NewValidationError code)).

(** The steps the three codecs share: decode, validate, settle the producer's id,
    canonicalize, wrap. *)
Definition parse_and_build {E} (dec : json -> E -> option E) (zero : E) (validate : E -> bool) (raid_of : E -> string)
    (stamp : E -> string -> E) (canon : E -> option string) (version : string) (raw raID keyID sig logID : string)
  : result serr (Envelope E * string) :=
  match Unmarshal dec zero raw with
  | None => invalid "INVALID_EVENT_BODY"
  | Some inner =>
      if negb (validate inner) then invalid "INVALID_EVENT" else
      inner ← (if String.eqb (raid_of inner) "" then Ok (stamp inner raID)
               else if negb (String.eqb (raid_of inner) raID) then invalid "RAID_MISMATCH" else Ok inner);
      match canon inner with
      | None => Err (Other "service: canonicalize inner")
      | Some canonical => Ok (BuildEnvelope version logID inner keyID sig, canonical)
      end
  end.

Definition ParseAndBuild (c : codec) (raw raID keyID sig logID : string) : result serr (Signable * string) :=
  match c with
  | V2Codec =>
      '(e, canonical) ← parse_and_build dec_event2 zero_event (fun e => is_ok (EventV2_Validate (Some e))) te_RaID with_raid
         CanonicalizeV2 SchemaVersionV2 raw raID keyID sig logID;
      Ok (SigV2 e, canonical)
  | V1Codec =>
      '(e, canonical) ← parse_and_build dec_event1 zero_event (fun e => is_ok (EventV1_Validate (Some e))) te_RaID with_raid
         CanonicalizeV1 SchemaVersionV1 raw raID keyID sig logID;
      Ok (SigV1 e, canonical)
  | IdentityCodec =>
      '(e, canonical) ← parse_and_build dec_identity zero_identity (fun e => is_ok (IdentityEvent_Validate (Some e))) iv_RaID
         identity_with_raid CanonicalizeIdentity SchemaVersionV2 raw raID keyID sig logID;
      Ok (SigId e, canonical)
  end.

(** ** Stored leaves: [ingest.go] *)

(** A member of a nested anonymous struct: [payload.producer.event]. *)
Definition at_event {A} (dec : json -> A -> option A) : json -> A -> option A :=
  let step name (d : json -> A -> option A) := dec_struct (fun m a => field name d a m) in
  step "payload" (step "producer" (step "event" dec)).

Definition innerEventBytes (raw : string) : result serr string :=
  match Unmarshal (at_event dec_raw) None raw with
  | None => Err (Other "innerEventBytes: unmarshal")
  | Some None => Err (Other "crypto: canonicalize")
  | Some (Some event) => match jcs event with Some c => Ok c | None => Err (Other "crypto: canonicalize") end
  end.

(** The two header members [decodeStoredEnvelope] dispatches on. *)
Definition stored_header (raw : string) : option (string * string) :=
  Unmarshal (fun j h =>
    version ← dec_struct (fun m v => field "schemaVersion" dec_str v m) j h.1;
    type ← at_event (dec_struct (fun m t => field "eventType" dec_str t m)) j h.2;
    Some (version, type)) ("", "") raw.

Definition unmarshal_as (raw version type : string) : result serr Signable :=
  let decoded {E} (dec : json -> E -> option E) (zero : E) (mk : Envelope E -> Signable) :=
    match Unmarshal (dec_envelope dec zero) zero_envelope raw with
    | Some e => Ok (mk e) | None => Err (Other "decodeStoredEnvelope: unmarshal") end in
  if HasPrefix type "IDENTITY_" then decoded dec_identity zero_identity SigId else
  if String.eqb version SchemaVersionV2 then decoded dec_event2 zero_event SigV2 else
  if String.eqb version SchemaVersionV1 then decoded dec_event1 zero_event SigV1 else
  Err (Other "unsupported stored schema").

Definition decodeStoredEnvelope (raw : string) : result serr Signable :=
  match stored_header raw with
  | None => Err (Other "decodeStoredEnvelope: unmarshal")
  | Some (version, type) =>
      env ← unmarshal_as raw version type;
      match Signable_Validate env with
      | Ok _ => Ok env
      | Err _ => Err (Other "decodeStoredEnvelope: validate")
      end
  end.
End Canonical.
