(* ===== verification/TlEnvelopeSpec.v ===== *)
(** A sealed leaf decodes to the envelope it was made from.

    [leaf_roundtrip] is the round trip of the transparency log: the bytes of a
    signed envelope, read back by [decodeStoredEnvelope]'s steps, give the same
    envelope (for identity events, up to the spelling of the quoted verification
    methods), and [innerEventBytes] gives the canonical bytes of its event. *)
From stdpp Require Import gmap.
From S2P Require Import Prelude GoStrings Utf8 GoTime GoJSON GoJSONSpec Jcs DomainErrors SemVer AnsName Endpoint Lifecycle TlEvent Sha256 TlEnvelope.

#[local] Set Default Goal Selector "!".
#[local] Open Scope Z_scope.

Section Decode.
Context `{J : JCS}.

Ltac decode_struct :=
  apply decodes_struct; intros m' Hm; eexists; split; [|reflexivity].

Lemma decodes_agent a : decodes eq (dec_struct dec_agent) zero_agent (enc_agent a) a.
Proof. decode_struct. unfold dec_agent, zero_agent. cbn [ea_Host ea_Name ea_Version ea_ProviderID]. decode_fields Hm. by destruct a. Qed.

Lemma decodes_dns r : decodes eq (dec_struct dec_dns) zero_dns (enc_dns r) r.
Proof. decode_struct. unfold dec_dns, zero_dns. cbn [dn_Name dn_Data dn_Type dn_DNSSECVerified]. decode_fields Hm. by destruct r. Qed.

Lemma decodes_cert c : decodes eq (dec_struct dec_cert) zero_cert (enc_cert c) c.
Proof. decode_struct. unfold dec_cert, zero_cert. cbn [ci_Fingerprint ci_CertType ci_NotAfter]. decode_fields Hm. by destruct c. Qed.

Lemma decodes_cert1 c : decodes eq (dec_struct dec_cert1) zero_cert1 (enc_cert1 c) c.
Proof. decode_struct. unfold dec_cert1, zero_cert1. cbn [c1_Fingerprint c1_CertType]. decode_fields Hm. by destruct c. Qed.

#[local] Hint Resolve decodes_agent decodes_dns decodes_cert decodes_cert1 : decodes.

Lemma decodes_attestations a : decodes eq (dec_struct dec_attestations) zero_attestations (enc_attestations a) a.
Proof.
  decode_struct. unfold dec_attestations, zero_attestations.
  cbn [at2_DomainValidation at2_DNSRecordsProvisioned at2_IdentityCerts at2_ServerCerts at2_MetadataHashes].
  decode_fields Hm. by destruct a.
Qed.

Lemma decodes_attestations1 a : decodes eq (dec_struct dec_attestations1) zero_attestations1 (enc_attestations1 a) a.
Proof.
  decode_struct. unfold dec_attestations1, zero_attestations1.
  cbn [at1_DNSRecordsProvisioned at1_MetadataHashes at1_IdentityCert at1_ServerCert at1_DomainValidation at1_ValidIdentityCerts at1_ValidServerCerts].
  decode_fields Hm. by destruct a.
Qed.

Lemma decodes_event {T} enc dec zero (e : TLEvent T) :
  (forall a, enc a <> JNull) -> (forall a : T, decodes eq (dec_struct dec) zero (enc a) a) ->
  decodes eq (dec_struct (dec_event dec zero)) zero_event (enc_event enc e) e.
Proof.
  intros Hn Ha. decode_struct. unfold dec_event, zero_event.
  cbn [te_AnsID te_AnsName te_EventType te_Agent te_Attestations te_ExpiresAt te_IssuedAt te_RaID te_RenewalStatus
       te_RevocationReasonCode te_RevokedAt te_Timestamp].
  decode_fields Hm. by destruct e.
Qed.

Lemma decodes_event2 e : decodes eq dec_event2 zero_event (enc_event2 e) e.
Proof. apply decodes_event; [done|apply decodes_attestations]. Qed.

Lemma decodes_event1 e : decodes eq dec_event1 zero_event (enc_event1 e) e.
Proof. apply decodes_event; [done|apply decodes_attestations1]. Qed.

(** Proven keys quote a verification method: its value is kept, its spelling is
    canonical. *)
Definition key_rel (k k' : ProvenKey) : Prop :=
  norm (default JNull (pk_VerificationMethod k)) = norm (default JNull (pk_VerificationMethod k')) /\
  pk_SignedProof k = pk_SignedProof k'.

Definition identity_with_keys (e : IdentityEvent) (keys : list ProvenKey) : IdentityEvent :=
  {| iv_AnsIDs := iv_AnsIDs e; iv_EventType := iv_EventType e; iv_IdentityID := iv_IdentityID e; iv_Kind := iv_Kind e; iv_Keys := keys;
     iv_PreviousValue := iv_PreviousValue e; iv_ProofMethod := iv_ProofMethod e; iv_ProviderID := iv_ProviderID e; iv_RaID := iv_RaID e;
     iv_RevokedAt := iv_RevokedAt e; iv_Timestamp := iv_Timestamp e; iv_Value := iv_Value e; iv_VerifiedAt := iv_VerifiedAt e |}.

Definition identity_rel (e e' : IdentityEvent) : Prop :=
  exists keys, Forall2 key_rel (iv_Keys e) keys /\ e' = identity_with_keys e keys.

Lemma decodes_key k : decodes key_rel (dec_struct dec_key) zero_key (enc_key k) k.
Proof.
  apply decodes_struct. intros m' Hm. unfold dec_key, zero_key. cbn [pk_VerificationMethod pk_SignedProof].
  destruct (field_obj_rel (fun a b => norm <$> a = norm <$> b) "verificationMethod" dec_raw None
    (Some (default JNull (pk_VerificationMethod k))) (Some (default JNull (pk_VerificationMethod k))) _ _ Hm) as (x & -> & Hx);
    [distinct_names|in_fields|apply decodes_raw|]. cbn [mbind option_bind]. decode_fields Hm.
  eexists. split; [done|]. split; [|done]. cbn [pk_VerificationMethod]. destruct x as [x|]; [|done]. by injection Hx.
Qed.

Lemma decodes_identity e : decodes identity_rel dec_identity zero_identity (enc_identity e) e.
Proof.
  apply decodes_struct. intros m' Hm. unfold dec_identity_members, zero_identity.
  cbn [iv_AnsIDs iv_EventType iv_IdentityID iv_Kind iv_Keys iv_PreviousValue iv_ProofMethod iv_ProviderID iv_RaID iv_RevokedAt
       iv_Timestamp iv_Value iv_VerifiedAt].
  destruct (field_obj_rel (Forall2 key_rel) "keys" (dec_list (dec_struct dec_key) zero_key) []
    (iv_Keys e) (omit_list (enc_key <$> iv_Keys e)) _ _ Hm) as (ks & Hks & HR); [distinct_names|in_fields|apply decodes_omit_list, decodes_key|].
  rewrite Hks. decode_fields Hm. eexists. split; [done|]. by exists ks.
Qed.

(** ** Envelopes *)

Section EnvelopeRel.
Context {E : Type} (R : E -> E -> Prop) (enc : E -> json) (dec : json -> E -> option E) (zero : E).
Hypothesis enc_obj : forall a, enc a <> JNull.
Hypothesis dec_enc : forall a, decodes R dec zero (enc a) a.

Definition producer_rel (p p' : Producer E) : Prop :=
  option_Forall2 R (pr_Event p) (pr_Event p') /\ pr_KeyID p = pr_KeyID p' /\ pr_Signature p = pr_Signature p'.

Definition payload_rel (p p' : Payload E) : Prop :=
  pl_LogID p = pl_LogID p' /\ option_Forall2 producer_rel (pl_Producer p) (pl_Producer p').

Definition envelope_rel (e e' : Envelope E) : Prop :=
  option_Forall2 payload_rel (en_Payload e) (en_Payload e') /\ en_SchemaVersion e = en_SchemaVersion e' /\
  en_Signature e = en_Signature e' /\ en_Status e = en_Status e'.

(** A pointer without [omitempty]: nil is written as [null]. *)
Lemma decodes_nullable {A} (RA : A -> A -> Prop) (enca : A -> json) deca (zeroa : A) o :
  (forall a, enca a <> JNull) -> (forall a, decodes RA deca zeroa (enca a) a) ->
  decodes (option_Forall2 RA) (dec_ptr deca zeroa) None (from_option enca JNull o) o.
Proof.
  intros Hn H. destruct o as [a|]; [apply decodes_ptr; [apply Hn|apply H]|]. intros v' Ev. destruct v'; try done. exists None. by split; [|constructor].
Qed.

Lemma decodes_producer p : decodes producer_rel (dec_struct (dec_producer dec zero)) zero_producer (enc_producer enc p) p.
Proof.
  apply decodes_struct. intros m' Hm. unfold dec_producer, zero_producer. cbn [pr_Event pr_KeyID pr_Signature].
  destruct (field_obj_rel (option_Forall2 R) "event" (dec_ptr dec zero) None (pr_Event p)
    (Some (from_option enc JNull (pr_Event p))) _ _ Hm) as (x & -> & Hx); [distinct_names|in_fields|by apply decodes_nullable|].
  cbn [mbind option_bind]. decode_fields Hm. eexists. split; [done|]. done.
Qed.

Lemma decodes_payload p : decodes payload_rel (dec_struct (dec_payload dec zero)) zero_payload (enc_payload enc p) p.
Proof.
  apply decodes_struct. intros m' Hm. unfold dec_payload, zero_payload. cbn [pl_LogID pl_Producer].
  destruct (field_obj_rel (option_Forall2 producer_rel) "producer" (dec_ptr (dec_struct (dec_producer dec zero)) zero_producer)
    None (pl_Producer p) (Some (from_option (enc_producer enc) JNull (pl_Producer p))) _ _ Hm) as (x & Hx & HR);
    [distinct_names|in_fields|by apply decodes_nullable; [|apply decodes_producer]|].
  rewrite Hx. decode_fields Hm. eexists. split; [done|]. done.
Qed.

Lemma decodes_envelope e : decodes envelope_rel (dec_envelope dec zero) zero_envelope (enc_envelope enc e) e.
Proof.
  apply decodes_struct. intros m' Hm. unfold dec_envelope_members, zero_envelope. cbn [en_Payload en_SchemaVersion en_Signature en_Status].
  destruct (field_obj_rel (option_Forall2 payload_rel) "payload" (dec_ptr (dec_struct (dec_payload dec zero)) zero_payload)
    None (en_Payload e) (enc_payload enc <$> en_Payload e) _ _ Hm) as (x & Hx & HR);
    [distinct_names|in_fields|by apply decodes_opt; [|apply decodes_payload]|].
  rewrite Hx. decode_fields Hm. eexists. split; [done|]. done.
Qed.
End EnvelopeRel.

Lemma envelope_rel_eq {E} (e e' : Envelope E) : envelope_rel eq e e' -> e = e'.
Proof.
  intros (Hp & Hv & Hs & Ht). destruct e as [p v s t], e' as [p' v' s' t']. cbn in *. subst. f_equal.
  inversion Hp as [[l pr] [l' pr'] [Hl Hpr]|]; [|done]. cbn in *. subst. do 2 f_equal.
  inversion Hpr as [[ev k sg] [ev' k' sg'] (Hev & Hk & Hsg)|]; [|done]. cbn in *. subst. do 2 f_equal. by inversion Hev; subst.
Qed.
End Decode.

(** ** Decoded events are well formed *)

Definition opt_ok {A} (P : A -> Prop) (o : option A) : Prop := match o with Some a => P a | None => True end.

Lemma obj_ok fs :
  Forall (fun p => utf8_ok p.1 = true /\ opt_ok (fun v => json_ok v = true) p.2) fs -> json_ok (obj fs) = true.
Proof.
  intros H. unfold obj. cbn [json_ok]. induction H as [|[k [v|]] fs [Hk Hv] _ IH]; [done| |done].
  cbn in *. by rewrite Hk, Hv, IH.
Qed.

Lemma omit_str_ok s : utf8_ok s = true -> opt_ok (fun v => json_ok v = true) (omit_str s).
Proof. unfold omit_str. by case_if. Qed.

Lemma omit_bool_ok b : opt_ok (fun v => json_ok v = true) (omit_bool b).
Proof. by destruct b. Qed.

Lemma omit_list_ok {A} (enc : A -> json) (l : list A) :
  Forall (fun a => json_ok (enc a) = true) l -> opt_ok (fun v => json_ok v = true) (omit_list (enc <$> l)).
Proof.
  intros H. destruct l as [|a l]; [done|]. cbn [fmap list_fmap omit_list opt_ok json_ok]. change (enc a :: _) with (enc <$> (a :: l)).
  induction H as [|x l' Hx _ IH]; [done|]. rewrite fmap_cons. cbn [forallb]. by rewrite Hx, IH.
Qed.

Lemma omit_strmap_ok m : strmap_ok m -> opt_ok (fun v => json_ok v = true) (omit_strmap m).
Proof.
  intros H. unfold omit_strmap. destruct (map_to_list m) as [|p l] eqn:E; [done|]. rewrite <-E. cbn [opt_ok json_ok].
  apply forallb_forall. intros [k v] Hin. apply list_elem_of_In in Hin. rewrite (sorting.merge_sort_Permutation key_le) in Hin.
  apply list_elem_of_fmap in Hin as ([k' s] & [= -> ->] & Hin%elem_of_map_to_list). apply H in Hin as [H1 H2].
  cbn [id json_ok fst snd]. by rewrite H1, H2.
Qed.

Lemma fmap_ok {A} (enc : A -> json) (P : A -> Prop) o :
  (forall a, P a -> json_ok (enc a) = true) -> opt_ok P o -> opt_ok (fun v => json_ok v = true) (enc <$> o).
Proof. intros H Ho. destruct o; [by apply H|done]. Qed.

Definition agent_ok (a : EventAgent) : Prop :=
  utf8_ok (ea_Host a) = true /\ utf8_ok (ea_Name a) = true /\ utf8_ok (ea_Version a) = true /\ utf8_ok (ea_ProviderID a) = true.
Definition dns_ok (r : DNSRecord) : Prop := utf8_ok (dn_Name r) = true /\ utf8_ok (dn_Data r) = true /\ utf8_ok (dn_Type r) = true.
Definition cert_ok (c : CertificateInfo) : Prop :=
  utf8_ok (ci_Fingerprint c) = true /\ utf8_ok (ci_CertType c) = true /\ utf8_ok (ci_NotAfter c) = true.
Definition cert1_ok (c : CertificateInfoV1) : Prop := utf8_ok (c1_Fingerprint c) = true /\ utf8_ok (c1_CertType c) = true.
Definition att2_ok (a : Attestations) : Prop :=
  utf8_ok (at2_DomainValidation a) = true /\ Forall dns_ok (at2_DNSRecordsProvisioned a) /\ Forall cert_ok (at2_IdentityCerts a) /\
  Forall cert_ok (at2_ServerCerts a) /\ strmap_ok (at2_MetadataHashes a).
Definition att1_ok (a : AttestationsV1) : Prop :=
  strmap_ok (at1_DNSRecordsProvisioned a) /\ strmap_ok (at1_MetadataHashes a) /\ opt_ok cert1_ok (at1_IdentityCert a) /\
  opt_ok cert1_ok (at1_ServerCert a) /\ utf8_ok (at1_DomainValidation a) = true /\ Forall cert_ok (at1_ValidIdentityCerts a) /\
  Forall cert_ok (at1_ValidServerCerts a).
Definition event_ok {T} (att_ok : T -> Prop) (e : TLEvent T) : Prop :=
  utf8_ok (te_AnsID e) = true /\ utf8_ok (te_AnsName e) = true /\ utf8_ok (te_EventType e) = true /\ opt_ok agent_ok (te_Agent e) /\
  opt_ok att_ok (te_Attestations e) /\ utf8_ok (te_ExpiresAt e) = true /\ utf8_ok (te_IssuedAt e) = true /\ utf8_ok (te_RaID e) = true /\
  utf8_ok (te_RenewalStatus e) = true /\ utf8_ok (te_RevocationReasonCode e) = true /\ utf8_ok (te_RevokedAt e) = true /\
  utf8_ok (te_Timestamp e) = true.
Definition key_ok (k : ProvenKey) : Prop := opt_ok (fun j => json_ok j = true) (pk_VerificationMethod k) /\ utf8_ok (pk_SignedProof k) = true.
Definition identity_ok (e : IdentityEvent) : Prop :=
  Forall (fun s => utf8_ok s = true) (iv_AnsIDs e) /\ utf8_ok (iv_EventType e) = true /\ utf8_ok (iv_IdentityID e) = true /\
  utf8_ok (iv_Kind e) = true /\ Forall key_ok (iv_Keys e) /\ utf8_ok (iv_PreviousValue e) = true /\ utf8_ok (iv_ProofMethod e) = true /\
  utf8_ok (iv_ProviderID e) = true /\ utf8_ok (iv_RaID e) = true /\ utf8_ok (iv_RevokedAt e) = true /\ utf8_ok (iv_Timestamp e) = true /\
  utf8_ok (iv_Value e) = true /\ utf8_ok (iv_VerifiedAt e) = true.

Create HintDb keeps.
#[export] Hint Resolve keeps_str keeps_bool keeps_raw keeps_strmap : keeps.

(** Field by field: a decoder keeps the predicate of its struct. *)
Ltac keep_fields ok dec :=
  apply keeps_struct; intros m a a' Hm Ha H; unfold dec in H; unfold ok in Ha;
  repeat match type of Ha with _ /\ _ => let H1 := fresh in destruct Ha as [H1 Ha] end;
  repeat (apply bind_Some in H as (? & ? & H)); injection H as <-;
  repeat match goal with
  | H : field ?n ?d ?i m = Some ?x |- _ =>
      let HK := fresh in eassert (keeps _ d) as HK by (solve [eauto with keeps]);
      apply (field_keeps _ d n i x m HK Hm) in H; [clear HK; cbv beta in H|exact I || eassumption]
  end;
  unfold ok; cbn; auto 20.

Lemma agent_keeps : keeps agent_ok (dec_struct dec_agent).
Proof. keep_fields agent_ok dec_agent. Qed.
Lemma dns_keeps : keeps dns_ok (dec_struct dec_dns).
Proof. keep_fields dns_ok dec_dns. Qed.
Lemma cert_keeps : keeps cert_ok (dec_struct dec_cert).
Proof. keep_fields cert_ok dec_cert. Qed.
Lemma cert1_keeps : keeps cert1_ok (dec_struct dec_cert1).
Proof. keep_fields cert1_ok dec_cert1. Qed.
Lemma dns_list_keeps : keeps (Forall dns_ok) (dec_list (dec_struct dec_dns) zero_dns).
Proof. by apply keeps_list; [|apply dns_keeps]. Qed.
Lemma cert_list_keeps : keeps (Forall cert_ok) (dec_list (dec_struct dec_cert) zero_cert).
Proof. by apply keeps_list; [|apply cert_keeps]. Qed.
Lemma agent_ptr_keeps : keeps (opt_ok agent_ok) (dec_ptr (dec_struct dec_agent) zero_agent).
Proof. by apply keeps_ptr; [|apply agent_keeps]. Qed.
Lemma cert1_ptr_keeps : keeps (opt_ok cert1_ok) (dec_ptr (dec_struct dec_cert1) zero_cert1).
Proof. by apply keeps_ptr; [|apply cert1_keeps]. Qed.
#[local] Hint Resolve dns_list_keeps cert_list_keeps agent_ptr_keeps cert1_ptr_keeps : keeps.

Lemma att2_keeps : keeps att2_ok (dec_struct dec_attestations).
Proof. keep_fields att2_ok dec_attestations. Qed.
Lemma att1_keeps : keeps att1_ok (dec_struct dec_attestations1).
Proof. keep_fields att1_ok dec_attestations1. Qed.
Lemma event_keeps {T} (P : T -> Prop) dec zero :
  P zero -> keeps P (dec_struct dec) -> keeps (event_ok P) (dec_struct (dec_event dec zero)).
Proof.
  intros Hz HP. assert (keeps (opt_ok P) (dec_ptr (dec_struct dec) zero)) as Hptr by by apply keeps_ptr. keep_fields @event_ok @dec_event.
Qed.
Lemma key_keeps : keeps key_ok (dec_struct dec_key).
Proof. keep_fields key_ok dec_key. Qed.
Lemma key_list_keeps : keeps (Forall key_ok) (dec_list (dec_struct dec_key) zero_key).
Proof. by apply keeps_list; [|apply key_keeps]. Qed.
Lemma str_list_keeps : keeps (Forall (fun s => utf8_ok s = true)) (dec_list dec_str "").
Proof. by apply keeps_list; [|apply keeps_str]. Qed.
#[local] Hint Resolve key_list_keeps str_list_keeps : keeps.
Lemma identity_keeps : keeps identity_ok dec_identity.
Proof. keep_fields identity_ok dec_identity_members. Qed.

(** A struct of well-formed parts is well formed. *)
Ltac obj_ok_fields ok :=
  let H := fresh in intros H; unfold ok in H; repeat match type of H with _ /\ _ => let H1 := fresh in destruct H as [H1 H] end;
  apply obj_ok; repeat (apply Forall_cons; split; [split; [reflexivity|]|]); [..|by apply Forall_nil];
  cbn [snd opt_ok json_ok]; auto using omit_str_ok, omit_bool_ok, omit_strmap_ok.

Lemma enc_agent_ok a : agent_ok a -> json_ok (enc_agent a) = true.
Proof. obj_ok_fields agent_ok. Qed.
Lemma enc_dns_ok r : dns_ok r -> json_ok (enc_dns r) = true.
Proof. obj_ok_fields dns_ok. Qed.
Lemma enc_cert_ok c : cert_ok c -> json_ok (enc_cert c) = true.
Proof. obj_ok_fields cert_ok. Qed.
Lemma enc_cert1_ok c : cert1_ok c -> json_ok (enc_cert1 c) = true.
Proof. obj_ok_fields cert1_ok. Qed.

Lemma enc_list_ok {A} (P : A -> Prop) (enc : A -> json) l :
  (forall a, P a -> json_ok (enc a) = true) -> Forall P l -> opt_ok (fun v => json_ok v = true) (omit_list (enc <$> l)).
Proof. intros H Hl. apply omit_list_ok. eapply Forall_impl; [exact Hl|exact H]. Qed.

Lemma enc_att2_ok a : att2_ok a -> json_ok (enc_attestations a) = true.
Proof. obj_ok_fields att2_ok; eauto using enc_list_ok, enc_dns_ok, enc_cert_ok. Qed.
Lemma enc_att1_ok a : att1_ok a -> json_ok (enc_attestations1 a) = true.
Proof. obj_ok_fields att1_ok; eauto using enc_list_ok, fmap_ok, enc_cert1_ok, enc_cert_ok. Qed.
Lemma enc_event_ok {T} (P : T -> Prop) enc (e : TLEvent T) :
  (forall a, P a -> json_ok (enc a) = true) -> event_ok P e -> json_ok (enc_event enc e) = true.
Proof. intros HP. obj_ok_fields @event_ok; eauto using fmap_ok, enc_agent_ok. Qed.
Lemma enc_key_ok k : key_ok k -> json_ok (enc_key k) = true.
Proof. obj_ok_fields key_ok. by destruct (pk_VerificationMethod k). Qed.
Lemma enc_identity_ok e : identity_ok e -> json_ok (enc_identity e) = true.
Proof. obj_ok_fields identity_ok; eauto using enc_list_ok, enc_key_ok. by apply omit_list_ok. Qed.

Lemma envelope_ok {E} (enc : E -> json) version logID inner keyID sig att :
  json_ok (enc inner) = true -> utf8_ok version = true -> utf8_ok logID = true -> utf8_ok keyID = true -> utf8_ok sig = true -> utf8_ok att = true ->
  json_ok (enc_envelope enc (with_signature (BuildEnvelope version logID inner keyID sig) att)) = true.
Proof.
  intros Hi Hv Hl Hk Hs Ha. unfold enc_envelope. cbn [with_signature BuildEnvelope en_Payload en_SchemaVersion en_Signature en_Status fmap option_fmap option_map].
  assert (json_ok (enc_payload enc {| pl_LogID := logID; pl_Producer := Some {| pr_Event := Some inner; pr_KeyID := keyID; pr_Signature := sig |} |}) = true) as Hp.
  { unfold enc_payload. cbn [pl_LogID pl_Producer from_option]. unfold enc_producer. cbn [pr_Event pr_KeyID pr_Signature from_option].
    apply obj_ok. repeat constructor; cbn [snd opt_ok json_ok]; [done|].
    apply obj_ok. by repeat constructor. }
  apply obj_ok. repeat constructor; cbn [snd opt_ok json_ok]; auto using omit_str_ok.
Qed.

(** ** Depth of agent envelopes *)

Lemma foldr_max_le n (l : list Z) : 0 <= n -> Forall (fun z => z <= n) l -> foldr Z.max 0 l <= n.
Proof. intros Hn H. induction H as [|z l Hz _ IH]; [done|]. cbn [foldr]. lia. Qed.

Lemma obj_nesting n fs : 0 <= n -> Forall (fun p => opt_ok (fun v => nesting v <= n) p.2) fs -> nesting (obj fs) <= n + 1.
Proof.
  intros Hn H. unfold obj. cbn [nesting]. enough (foldr Z.max 0 (map (fun '(_, v) => nesting v) (omap (fun p : string * option json => pair p.1 <$> p.2) fs)) <= n) by lia.
  apply foldr_max_le; [done|]. induction H as [|[k [v|]] fs Hv _ IH]; [by constructor| |done]. by constructor.
Qed.

Lemma omit_str_nesting n s : 0 <= n -> opt_ok (fun v => nesting v <= n) (omit_str s).
Proof. intros Hn. unfold omit_str. by case_if. Qed.

Lemma omit_bool_nesting n b : 0 <= n -> opt_ok (fun v => nesting v <= n) (omit_bool b).
Proof. intros Hn. by destruct b. Qed.

Lemma omit_list_nesting {A} n m (enc : A -> json) l :
  0 <= m -> m + 1 <= n -> (forall a, nesting (enc a) <= m) -> opt_ok (fun v => nesting v <= n) (omit_list (enc <$> l)).
Proof.
  intros Hm Hn H. destruct l as [|a l]; [done|]. cbn [fmap list_fmap omit_list opt_ok nesting]. enough (foldr Z.max 0 (map nesting (enc a :: (enc <$> l))) <= m) by lia.
  apply foldr_max_le; [done|]. change (enc a :: (enc <$> l)) with (enc <$> (a :: l)). generalize (a :: l). intros l'. induction l' as [|x l' IH]; [constructor|]. by constructor.
Qed.

Lemma omit_strmap_nesting n m : 1 <= n -> opt_ok (fun v => nesting v <= n) (omit_strmap m).
Proof.
  intros Hn. unfold omit_strmap. destruct (map_to_list m) as [|p l] eqn:E; [done|]. rewrite <-E. cbn [opt_ok nesting]. enough (foldr Z.max 0 (map (fun '(_, v) => nesting v) (sorting.merge_sort key_le (prod_map id JStr <$> map_to_list m))) <= 0) by lia.
  apply foldr_max_le; [done|]. apply Forall_forall. intros z Hz. apply list_elem_of_In, in_map_iff in Hz as ([k v] & <- & Hin). apply list_elem_of_In in Hin.
  rewrite (sorting.merge_sort_Permutation key_le) in Hin. apply list_elem_of_fmap in Hin as ([k' s'] & [= -> ->] & _). done.
Qed.

Lemma fmap_nesting {A} n (enc : A -> json) o : (forall a, nesting (enc a) <= n) -> opt_ok (fun v => nesting v <= n) (enc <$> o).
Proof. intros H. by destruct o; [apply H|]. Qed.

(** Member by member. *)
Ltac nest_fields n :=
  apply (obj_nesting n); [lia|]; repeat (apply Forall_cons; split); [..|by apply Forall_nil]; cbn [snd opt_ok nesting];
  first [lia|apply omit_str_nesting; lia|apply omit_bool_nesting; lia|apply omit_strmap_nesting; lia|idtac].

Lemma agent_nesting a : nesting (enc_agent a) <= 1. Proof. nest_fields 0. Qed.
Lemma dns_nesting r : nesting (enc_dns r) <= 1. Proof. nest_fields 0. Qed.
Lemma cert_nesting c : nesting (enc_cert c) <= 1. Proof. nest_fields 0. Qed.
Lemma cert1_nesting c : nesting (enc_cert1 c) <= 1. Proof. nest_fields 0. Qed.

Lemma att2_nesting a : nesting (enc_attestations a) <= 3.
Proof. nest_fields 2; (apply (omit_list_nesting 2 1); [lia..|intros; apply dns_nesting || apply cert_nesting]). Qed.

Lemma att1_nesting a : nesting (enc_attestations1 a) <= 3.
Proof.
  nest_fields 2; first [by apply fmap_nesting; intros c; pose proof (cert1_nesting c); lia|apply (omit_list_nesting 2 1); [lia..|intros; apply cert_nesting]].
Qed.

Lemma event_nesting {T} (enc : T -> json) (e : TLEvent T) : (forall a, nesting (enc a) <= 3) -> nesting (enc_event enc e) <= 4.
Proof.
  intros H. nest_fields 3; apply fmap_nesting; intros a; [pose proof (agent_nesting a); lia|apply H].
Qed.

Lemma envelope_nesting {E} (enc : E -> json) e : (forall a, nesting (enc a) <= 4) -> nesting (enc_envelope enc e) <= 7.
Proof.
  intros H. assert (forall p, nesting (enc_producer enc p) <= 5) as Hp.
  { intros p. nest_fields 4. destruct (pr_Event p); cbn [from_option nesting]; [apply H|lia]. }
  assert (forall p, nesting (enc_payload enc p) <= 6) as Hpl.
  { intros p. nest_fields 5. destruct (pl_Producer p); cbn [from_option nesting]; [apply Hp|lia]. }
  nest_fields 6. by apply fmap_nesting.
Qed.

Lemma nesting_norm `{J : JCS} j : nesting (norm j) = nesting j.
Proof.
  induction j as [| | | |l IH|m IH] using json_rect'; try done; cbn [norm nesting].
  - do 2 f_equal. rewrite map_map. induction IH as [|x l Hx _ IHl]; [done|]. cbn [map]. by rewrite Hx, IHl.
  - f_equal. transitivity (foldr Z.max 0 (map (fun '(_, v) => nesting v) (map (fun '(k, v) => (k, norm v)) m))).
    + apply (foldr_permutation_proper eq); [solve_proper|lia|]. apply Permutation_map, sorting.merge_sort_Permutation.
    + f_equal. rewrite map_map. induction IH as [|[k v] m Hx _ IHm]; [done|]. cbn [map snd] in *. by rewrite Hx, IHm.
Qed.

(** ** Reading a leaf back *)

Section Leaf.
Context `{J : JCS, !JCSLaws J}.

Lemma decodes_step {A} (R : A -> A -> Prop) name d (init a : A) fs o :
  NoDup (foldName ∘ fst <$> fs) -> (name, o) ∈ fs ->
  match o with Some v => decodes R d init v a | None => R a init end ->
  decodes R (dec_struct (fun m a => field name d a m)) init (obj fs) a.
Proof. intros Hnd Hin Ho. apply decodes_struct. intros m' Hm. by apply (field_obj_rel R name d init a o fs m'). Qed.

(** The event of an envelope that has one, through the nested anonymous struct. *)
Lemma decodes_at_event {A E} (R : A -> A -> Prop) d (init a : A) (enc : E -> json) e inner :
  innerEvent e = Some inner -> decodes R d init (enc inner) a -> decodes R (at_event d) init (enc_envelope enc e) a.
Proof.
  intros He Hd. destruct e as [[[logID [p|]]|] v s t]; try done. cbn in He.
  unfold at_event, enc_envelope. eapply decodes_step; [distinct_names|in_fields|]. cbn [en_Payload fmap option_fmap option_map].
  unfold enc_payload. eapply decodes_step; [distinct_names|in_fields|]. cbn [pl_Producer from_option].
  unfold enc_producer. eapply decodes_step; [distinct_names|in_fields|]. cbv iota. by rewrite He.
Qed.

(** The inner event of any envelope, as a JSON value. *)
Definition inner_json_of (s : Signable) : option json :=
  match s with
  | SigV2 e => enc_event2 <$> innerEvent e
  | SigV1 e => enc_event1 <$> innerEvent e
  | SigId e => enc_identity <$> innerEvent e
  end.

(** The envelope type agrees with the labels it carries. *)
Definition kind_ok (s : Signable) : Prop :=
  match s with
  | SigV2 _ => View_Version s = SchemaVersionV2 /\ HasPrefix (View_EventType s) "IDENTITY_" = false
  | SigV1 _ => View_Version s = SchemaVersionV1 /\ HasPrefix (View_EventType s) "IDENTITY_" = false
  | SigId _ => HasPrefix (View_EventType s) "IDENTITY_" = true
  end.

Definition signable_rel (s s' : Signable) : Prop :=
  match s, s' with
  | SigV2 e, SigV2 e' => e = e'
  | SigV1 e, SigV1 e' => e = e'
  | SigId e, SigId e' => envelope_rel identity_rel e e'
  | _, _ => False
  end.

Lemma decodes_type s : is_Some (inner_json_of s) ->
  decodes eq (at_event (dec_struct (fun m t => field "eventType" dec_str t m))) "" (enc_signable s) (View_EventType s).
Proof.
  intros [ij Hi]. destruct s as [e|e|e]; cbn [inner_json_of enc_signable View_EventType] in *; destruct (innerEvent e) as [inner|] eqn:He; try done;
    (eapply decodes_at_event; [exact He|]; cbn [from_option]); (eapply decodes_step; [distinct_names|in_fields|apply decodes_str]).
Qed.

Lemma decodes_version s :
  decodes eq (dec_struct (fun m v => field "schemaVersion" dec_str v m)) "" (enc_signable s) (View_Version s).
Proof.
  destruct s as [e|e|e]; cbn [enc_signable View_Version]; (eapply decodes_step; [distinct_names|in_fields|apply decodes_omit_str]).
Qed.

Lemma decodes_inner s ij : inner_json_of s = Some ij ->
  decodes (fun a b => norm <$> a = norm <$> b) (at_event dec_raw) None (enc_signable s) (Some ij).
Proof.
  intros Hi. destruct s as [e|e|e]; cbn [inner_json_of enc_signable] in *; destruct (innerEvent e) as [inner|] eqn:He; try done;
    injection Hi as <-; (eapply decodes_at_event; [exact He|apply decodes_raw]).
Qed.

Lemma Unmarshal_decodes {A} (R : A -> A -> Prop) dec (init a : A) j raw :
  jcs j = Some raw -> decodes R dec init j a -> exists a', Unmarshal dec init raw = Some a' /\ R a a'.
Proof.
  intros Hj Hd. destruct (jcs_denotes j raw Hj) as (j' & Hp & Hn). unfold Unmarshal. rewrite Hp. by apply Hd.
Qed.

Lemma LeafBytes_jcs s raw : json_ok (enc_signable s) = true -> LeafBytes s = Some raw -> jcs (enc_signable s) = Some raw.
Proof. intros Hok. unfold LeafBytes. case_if; [done|]. by apply canonicalize_Some. Qed.

Lemma stored_header_leaf s raw :
  jcs (enc_signable s) = Some raw -> is_Some (inner_json_of s) -> stored_header raw = Some (View_Version s, View_EventType s).
Proof.
  intros Hj Hi. destruct (jcs_denotes _ raw Hj) as (j' & Hp & Hn). unfold stored_header, Unmarshal. rewrite Hp. cbn [mbind option_bind fst snd].
  destruct (decodes_version s j' Hn) as (v & -> & <-). cbn [mbind option_bind]. by destruct (decodes_type s Hi j' Hn) as (t & -> & <-).
Qed.

Lemma unmarshal_as_leaf s raw :
  jcs (enc_signable s) = Some raw -> kind_ok s ->
  exists s', unmarshal_as raw (View_Version s) (View_EventType s) = Ok s' /\ signable_rel s s'.
Proof.
  intros Hj Hk. unfold unmarshal_as. destruct s as [e|e|e]; cbn [kind_ok] in Hk.
  - destruct Hk as [-> ->]. change (String.eqb SchemaVersionV2 SchemaVersionV2) with true. cbv beta zeta iota.
    destruct (Unmarshal_decodes _ _ _ _ _ _ Hj (decodes_envelope eq enc_event2 dec_event2 zero_event
      ltac:(done) decodes_event2 e)) as (e' & -> & <-%envelope_rel_eq). by exists (SigV2 e).
  - destruct Hk as [-> ->]. change (String.eqb SchemaVersionV1 SchemaVersionV2) with false.
    change (String.eqb SchemaVersionV1 SchemaVersionV1) with true. cbv beta zeta iota.
    destruct (Unmarshal_decodes _ _ _ _ _ _ Hj (decodes_envelope eq enc_event1 dec_event1 zero_event
      ltac:(done) decodes_event1 e)) as (e' & -> & <-%envelope_rel_eq). by exists (SigV1 e).
  - rewrite Hk. cbv beta zeta iota. destruct (Unmarshal_decodes _ _ _ _ _ _ Hj (decodes_envelope identity_rel enc_identity dec_identity zero_identity
      ltac:(done) decodes_identity e)) as (e' & -> & HR). by exists (SigId e').
Qed.

Lemma innerEventBytes_leaf s raw ij c :
  jcs (enc_signable s) = Some raw -> inner_json_of s = Some ij -> jcs ij = Some c -> innerEventBytes raw = Ok c.
Proof.
  intros Hj Hi Hc. destruct (Unmarshal_decodes _ _ _ _ _ _ Hj (decodes_inner s ij Hi)) as (o & HU & HR).
  unfold innerEventBytes. rewrite HU. destruct o as [ij'|]; [|done]. injection HR as HR.
  rewrite <-(jcs_norm _ _ HR), Hc. done.
Qed.

(** What the index stores of an envelope does not depend on the spelling. *)
Lemma signable_rel_views s s' : signable_rel s s' ->
  View_Version s = View_Version s' /\ View_LogID s = View_LogID s' /\ View_AgentID s = View_AgentID s' /\ View_AnsName s = View_AnsName s' /\
  View_AgentFQDN s = View_AgentFQDN s' /\ View_EventType s = View_EventType s' /\ View_IdentityID s = View_IdentityID s' /\
  View_LinkedAgentIDs s = View_LinkedAgentIDs s'.
Proof.
  destruct s as [e|e|e], s' as [e'|e'|e']; try done; cbn [signable_rel]; [intros ->; done|intros ->; done|].
  intros (Hp & Hv & Hs & Ht). cbn [View_Version View_LogID View_AgentID View_AnsName View_AgentFQDN View_EventType View_IdentityID View_LinkedAgentIDs].
  destruct e as [p v sg st], e' as [p' v' sg' st']. cbn [en_Payload en_SchemaVersion] in *. subst v'. unfold innerEvent. cbn [en_Payload].
  inversion Hp as [[l pr] [l' pr'] [Hl Hpr]|]; subst; [|done]. cbn in *. subst l'.
  inversion Hpr as [[ev k g] [ev' k' g'] (Hev & _)|]; subst; [|done]. cbn in *.
  inversion Hev as [x y (ks & _ & ->)|]; subst; done.
Qed.
End Leaf.

(** ** What the codecs build *)

Section Built.
Context `{J : JCS, !JCSLaws J}.

(** An envelope a codec made for a validated, well-formed event. *)
Definition built (env : Signable) (canonical raID keyID sig logID : string) : Prop :=
  match env with
  | SigV2 e => exists inner, e = BuildEnvelope SchemaVersionV2 logID inner keyID sig /\ event_ok att2_ok inner /\
                 EventV2_Validate (Some inner) = Ok tt /\ te_RaID inner = raID /\ CanonicalizeV2 inner = Some canonical
  | SigV1 e => exists inner, e = BuildEnvelope SchemaVersionV1 logID inner keyID sig /\ event_ok att1_ok inner /\
                 EventV1_Validate (Some inner) = Ok tt /\ te_RaID inner = raID /\ CanonicalizeV1 inner = Some canonical
  | SigId e => exists inner, e = BuildEnvelope SchemaVersionV2 logID inner keyID sig /\ identity_ok inner /\
                 IdentityEvent_Validate (Some inner) = Ok tt /\ iv_RaID inner = raID /\ CanonicalizeIdentity inner = Some canonical
  end.

Lemma parse_and_build_Ok {E} (ok : E -> Prop) dec (zero : E) validate raid_of stamp canon version raw raID keyID sig logID env canonical :
  keeps ok dec -> ok zero -> (forall e, ok e -> ok (stamp e raID)) -> (forall e, validate (stamp e raID) = validate e) ->
  (forall e, raid_of (stamp e raID) = raID) ->
  parse_and_build dec zero validate raid_of stamp canon version raw raID keyID sig logID = Ok (env, canonical) ->
  exists inner, env = BuildEnvelope version logID inner keyID sig /\ ok inner /\ validate inner = true /\ raid_of inner = raID /\ canon inner = Some canonical.
Proof.
  intros HK Hz Hst Hval Hraid. unfold parse_and_build, Unmarshal. destruct (parse_json raw) as [j|] eqn:Ej; [|done]. cbn [mbind option_bind].
  destruct (dec j zero) as [e|] eqn:Ee; [|done]. apply HK in Ee as He; [|by apply parse_ok in Ej|done].
  destruct (validate e) eqn:Ev; [|done]. cbn [negb]. intros (e' & He' & H)%bind_Ok. destruct (canon e') as [c|] eqn:Ec; [|done].
  injection H as <- <-. exists e'. destruct (String.eqb_spec (raid_of e) "").
  - injection He' as <-. rewrite Hval. auto.
  - destruct (String.eqb_spec (raid_of e) raID); [|done]. injection He' as <-. auto.
Qed.

Lemma is_ok_tt {E} (r : result E unit) : is_ok r = true -> r = Ok tt.
Proof. by destruct r as [[]|]. Qed.

Lemma event_ok_with_raid {T} (P : T -> Prop) e raID : utf8_ok raID = true -> event_ok P e -> event_ok P (with_raid e raID).
Proof. unfold event_ok, with_raid. cbn. tauto. Qed.

Lemma ParseAndBuild_built c raw raID keyID sig logID env canonical :
  utf8_ok raID = true -> ParseAndBuild c raw raID keyID sig logID = Ok (env, canonical) -> built env canonical raID keyID sig logID.
Proof.
  intros Hra. destruct c; cbn [ParseAndBuild]; intros ([e c'] & H & [= <- <-])%bind_Ok; cbn [built].
  - apply (parse_and_build_Ok (event_ok att2_ok)) in H as (inner & -> & Hok & Hv & Hr & Hc);
      [|apply event_keeps; [done|apply att2_keeps]|done|intros; by apply event_ok_with_raid|by intros []|done]. eauto 10 using is_ok_tt.
  - apply (parse_and_build_Ok (event_ok att1_ok)) in H as (inner & -> & Hok & Hv & Hr & Hc);
      [|apply event_keeps; [done|apply att1_keeps]|done|intros; by apply event_ok_with_raid|by intros []|done]. eauto 10 using is_ok_tt.
  - apply (parse_and_build_Ok identity_ok) in H as (inner & -> & Hok & Hv & Hr & Hc);
      [|apply identity_keeps|done|unfold identity_ok, identity_with_raid; cbn; tauto|by intros []|done]. eauto 10 using is_ok_tt.
Qed.

(** The closed enumerations keep the families apart. *)
Lemma agent_type_prefix t : Type_IsValid t = true -> HasPrefix t "IDENTITY_" = false.
Proof. unfold Type_IsValid, one_of. intros H. apply existsb_exists in H as (x & Hx & ->%String.eqb_eq). cbn [In] in Hx. by repeat destruct Hx as [<-|Hx]. Qed.

Lemma identity_type_prefix t : IdentityType_IsValid t = true -> HasPrefix t "IDENTITY_" = true.
Proof. unfold IdentityType_IsValid, one_of. intros H. apply existsb_exists in H as (x & Hx & ->%String.eqb_eq). cbn [In] in Hx. by repeat destruct Hx as [<-|Hx]. Qed.

Lemma EventV2_type e : EventV2_Validate (Some e) = Ok tt -> Type_IsValid (te_EventType e) = true.
Proof. cbn [EventV2_Validate]. by destruct (Type_IsValid (te_EventType e)). Qed.

Lemma EventV1_type e : EventV1_Validate (Some e) = Ok tt -> Type_IsValid (te_EventType e) = true.
Proof. cbn [EventV1_Validate]. repeat (case_if; [done|]). intros _. by apply negb_false_iff. Qed.

Lemma IdentityEvent_type e : IdentityEvent_Validate (Some e) = Ok tt -> IdentityType_IsValid (iv_EventType e) = true.
Proof. cbn [IdentityEvent_Validate]. by destruct (IdentityType_IsValid (iv_EventType e)). Qed.

Lemma built_kind env canonical raID keyID sig logID att :
  built env canonical raID keyID sig logID -> kind_ok (setOuterSignature env att).
Proof.
  destruct env as [e|e|e]; cbn [built setOuterSignature kind_ok]; intros (inner & -> & _ & Hv & _).
  - split; [done|]. by apply agent_type_prefix, EventV2_type.
  - split; [done|]. by apply agent_type_prefix, EventV1_type.
  - by apply identity_type_prefix, IdentityEvent_type.
Qed.

Lemma built_json env canonical raID keyID sig logID att :
  built env canonical raID keyID sig logID -> utf8_ok keyID = true -> utf8_ok sig = true -> utf8_ok logID = true -> utf8_ok att = true ->
  json_ok (enc_signable (setOuterSignature env att)) = true.
Proof.
  intros Hb Hk Hs Hl Ha. destruct env as [e|e|e]; destruct Hb as (inner & -> & Hok & _); cbn [setOuterSignature enc_signable]; apply envelope_ok; try done.
  - by apply (enc_event_ok att2_ok); [apply enc_att2_ok|].
  - by apply (enc_event_ok att1_ok); [apply enc_att1_ok|].
  - by apply enc_identity_ok.
Qed.

#[local] Strategy expand [CanonicalizeV2 CanonicalizeV1 CanonicalizeIdentity].

Lemma built_inner env canonical raID keyID sig logID att :
  built env canonical raID keyID sig logID ->
  exists ij, inner_json_of (setOuterSignature env att) = Some ij /\ jcs ij = Some canonical.
Proof.
  destruct env as [e|e|e]; intros (inner & -> & Hok & _ & _ & Hc);
    [exists (enc_event2 inner)|exists (enc_event1 inner)|exists (enc_identity inner)];
    cbn [inner_json_of setOuterSignature]; unfold innerEvent, with_signature, BuildEnvelope; cbn [en_Payload pl_Producer pr_Event mbind option_bind fmap option_fmap option_map];
    (split; [reflexivity|]); unfold CanonicalizeV2, CanonicalizeV1, CanonicalizeIdentity in Hc; (apply canonicalize_Some; [|exact Hc]); clear Hc.
  - by apply (enc_event_ok att2_ok); [apply enc_att2_ok|].
  - by apply (enc_event_ok att1_ok); [apply enc_att1_ok|].
  - by apply enc_identity_ok.
Qed.

Lemma built_valid env canonical raID keyID sig logID att :
  built env canonical raID keyID sig logID -> keyID <> "" -> sig <> "" -> logID <> "" -> Signable_Validate (setOuterSignature env att) = Ok tt.
Proof.
  intros Hb Hk Hs Hl. apply String.eqb_neq in Hk, Hs, Hl.
  destruct env as [e|e|e]; destruct Hb as (inner & -> & _ & Hv & _);
    cbn [Signable_Validate setOuterSignature]; unfold wrapper_ok, with_signature, BuildEnvelope;
    cbn [en_SchemaVersion en_Payload pl_LogID pl_Producer]; rewrite ?String.eqb_refl, Hl; cbn [negb mbind result_bind]; unfold producer_ok; cbn [pr_KeyID pr_Signature pr_Event];
    rewrite ?Hk, ?Hs; cbn [mbind result_bind]; by rewrite Hv.
Qed.

(** The bytes of a signed envelope: the header, the event, the decoded envelope. *)
Lemma built_leaf env canonical raID keyID sig logID att leaf :
  built env canonical raID keyID sig logID ->
  utf8_ok keyID = true -> utf8_ok sig = true -> utf8_ok logID = true -> utf8_ok att = true ->
  LeafBytes (setOuterSignature env att) = Some leaf ->
  stored_header leaf = Some (View_Version env, View_EventType env) /\ innerEventBytes leaf = Ok canonical /\
  exists env', unmarshal_as leaf (View_Version env) (View_EventType env) = Ok env' /\ signable_rel (setOuterSignature env att) env'.
Proof.
  intros Hb Hk Hs Hl Ha HL. destruct (built_inner _ _ _ _ _ _ att Hb) as (ij & Hij & Hc). pose proof (built_kind _ _ _ _ _ _ att Hb) as Hkind.
  apply LeafBytes_jcs in HL; [|by eapply built_json]. pose proof (stored_header_leaf _ _ HL ltac:(eauto)) as Hh.
  assert (View_Version (setOuterSignature env att) = View_Version env /\ View_EventType (setOuterSignature env att) = View_EventType env) as [E1 E2]
    by by destruct env.
  destruct (unmarshal_as_leaf _ _ HL Hkind) as (env' & HU & HR). rewrite E1, E2 in *.
  split; [done|]. split; [by eapply innerEventBytes_leaf|]. by eauto.
Qed.

(** C28: a sealed leaf can be read back.  Whatever producer event a codec accepts,
    the canonical bytes of its signed envelope are recognised by the header of
    the leaf, decode to the same envelope (an identity envelope up to the
    spelling of the verification methods it quotes), index under the same
    columns, and give back the canonical bytes of the producer event, over which
    the producer's signature and the deduplication hash are computed; for agent
    events [decodeStoredEnvelope] succeeds with exactly the sealed envelope. *)
Theorem leaf_roundtrip c raw raID keyID sig logID env canonical att leaf :
  utf8_ok raID = true -> utf8_ok keyID = true -> utf8_ok sig = true -> utf8_ok logID = true -> utf8_ok att = true ->
  ParseAndBuild c raw raID keyID sig logID = Ok (env, canonical) ->
  LeafBytes (setOuterSignature env att) = Some leaf ->
  stored_header leaf = Some (View_Version env, View_EventType env) /\
  innerEventBytes leaf = Ok canonical /\
  (exists env', unmarshal_as leaf (View_Version env) (View_EventType env) = Ok env' /\
     signable_rel (setOuterSignature env att) env') /\
  (c <> IdentityCodec -> keyID <> "" -> sig <> "" -> logID <> "" ->
     decodeStoredEnvelope leaf = Ok (setOuterSignature env att)).
Proof.
  intros Hra Hk Hs Hl Ha HP HL. pose proof (ParseAndBuild_built _ _ _ _ _ _ _ _ Hra HP) as Hb.
  destruct (built_leaf _ _ _ _ _ _ att leaf Hb) as (Hh & Hi & env' & HU & HR); [done..|].
  split; [done|]. split; [done|]. split; [by eauto|].
  intros Hcod Hk' Hs' Hl'. unfold decodeStoredEnvelope. rewrite Hh, HU. cbn [mbind result_bind].
  assert (env' = setOuterSignature env att) as ->.
  { destruct c; [| |done]; apply bind_Ok in HP as ([e c'] & _ & [= <- _]); cbn [setOuterSignature signable_rel] in *;
      destruct env'; try done; by subst. }
  by rewrite (built_valid _ _ _ _ _ _ att Hb).
Qed.
End Built.

(** ** A sealed leaf *)

Definition demo_body : string :=
  Marshal (JObj [("timestamp", JStr "2025-01-02T03:04:05Z"); ("ansName", JStr "ans://v1.0.0.a.example"); ("ansId", JStr "ag-1");
                 ("eventType", JStr TypeAgentRegistered); ("agent", JObj [("host", JStr "a.example"); ("name", JStr "A"); ("version", JStr "v1.0.0")])]).

Definition demo_built : result serr (Signable * string) :=
  Eval vm_compute in ParseAndBuild (J := reference_jcs) V2Codec demo_body "ra-1" "k1" "sig" "log-1".

Definition demo_env : Signable := match demo_built with Ok (env, _) => env | Err _ => SigV2 zero_envelope end.
Definition demo_canonical : string := match demo_built with Ok (_, c) => c | Err _ => "" end.
Definition demo_leaf : string := Eval vm_compute in default "" (LeafBytes (J := reference_jcs) (setOuterSignature demo_env "att")).

(** The event omits its producer's id; the log stamps it. *)
Lemma leaf_roundtrip_witness :
  View_AgentFQDN demo_env = "a.example" /\
  stored_header demo_leaf = Some (SchemaVersionV2, TypeAgentRegistered) /\
  innerEventBytes (J := reference_jcs) demo_leaf = Ok demo_canonical /\
  decodeStoredEnvelope demo_leaf = Ok (setOuterSignature demo_env "att").
Proof.
  split; [reflexivity|].
  destruct (leaf_roundtrip (J := reference_jcs) V2Codec demo_body "ra-1" "k1" "sig" "log-1" demo_env demo_canonical "att" demo_leaf)
    as (Hh & Hi & _ & Hd); [vm_compute; reflexivity..|].
  split; [exact Hh|]. split; [exact Hi|]. by apply Hd.
Defined.
