(* ===== verification/LifecycleSpec.v ===== *)
(** The state machines of the registration aggregate: which transitions its
    operations perform, which states absorb, and what survives every run. *)
From S2P Require Import Prelude GoStrings GoTime DomainErrors SemVer AnsName Endpoint Lifecycle.

#[local] Set Default Goal Selector "!".
#[local] Open Scope Z_scope.

(** ** Certificate orders *)

Inductive order_op := OMarkIssuing | OMarkCompleted | OMarkFailed | ORecordVerified (t : ChallengeType).

Definition apply_order_op (o : CertificateOrder) (op : order_op) : result Error CertificateOrder :=
  match op with
  | OMarkIssuing => MarkIssuing o
  | OMarkCompleted => Order_MarkCompleted o
  | OMarkFailed => Order_MarkFailed o
  | ORecordVerified t => Ok (RecordVerifiedChallenge o t)
  end.

(** A sequence of calls; a call that fails leaves the order as it was. *)
Definition try {A B} (f : A -> B -> result Error A) (a : A) (b : B) : A :=
  match f a b with Ok a' => a' | Err _ => a end.

Definition run_order (o : CertificateOrder) (ops : list order_op) : CertificateOrder :=
  fold_left (try apply_order_op) ops o.

Definition order_rank (s : OrderState) : Z :=
  if String.eqb s OrderStatePending then 0 else if String.eqb s OrderStateIssuing then 1 else 2.

Definition order_terminal (s : OrderState) : bool := one_of s [OrderStateCompleted; OrderStateFailed].

(** ** Registrations *)

Inductive reg_op :=
| OActivate (now : Time) | OAdvance | ODeprecate (by_ : string) (now : Time)
| ORevoke (reason : RevocationReason) (now : Time) | OCancel (now : Time) | OHostConflict | OFail | OExpire
| OSubmitIdentity (id pem : string) (now : Time) | OSubmitServer (id pem : string) (now : Time)
| OOrder (op : order_op).

Definition apply_op (r : AgentRegistration) (op : reg_op) : result Error AgentRegistration :=
  match op with
  | OActivate now => Activate r now
  | OAdvance => AdvanceToPendingDNS r
  | ODeprecate by_ now => Deprecate r by_ now
  | ORevoke reason now => Revoke r reason now
  | OCancel now => Cancel r now
  | OHostConflict => CancelForHostConflict r
  | OFail => Fail_ r
  | OExpire => Expire r
  | OSubmitIdentity id pem now => fst <$> SubmitIdentityCSR r id pem now
  | OSubmitServer id pem now => fst <$> SubmitServerCSR r id pem now
  | OOrder op => upd_order r <$> apply_order_op (r_CertOrder r) op
  end.

Definition run (r : AgentRegistration) (ops : list reg_op) : AgentRegistration :=
  fold_left (try apply_op) ops r.

Definition status_rank (s : RegistrationStatus) : Z :=
  if String.eqb s StatusPendingValidation then 0 else
  if String.eqb s StatusPendingDNS then 1 else
  if String.eqb s StatusActive then 2 else
  if String.eqb s StatusDeprecated then 3 else 4.

(** The fields no operation of the aggregate touches. *)
Definition same_identity (r r' : AgentRegistration) : Prop :=
  r_AgentID r' = r_AgentID r /\ r_OwnerID r' = r_OwnerID r /\ r_AnsName r' = r_AnsName r /\
  r_Details r' = r_Details r /\ r_Endpoints r' = r_Endpoints r /\ r_ServerCert r' = r_ServerCert r.

(** The event an operation announces, if any. *)
Definition announces (r : AgentRegistration) (op : reg_op) : list Event :=
  match op with
  | OActivate now => [AgentActivatedEvent (r_AgentID r) (r_AnsName r) now]
  | ODeprecate by_ now => [AgentDeprecatedEvent (r_AgentID r) (r_AnsName r) by_ now]
  | ORevoke reason now => [AgentRevokedEvent (r_AgentID r) (r_AnsName r) reason now]
  | OCancel now => [AgentRevokedEvent (r_AgentID r) (r_AnsName r) RevocationCessationOfOperation now]
  | _ => []
  end.

(** ** Lemmas *)

Lemma one_of_In s l : one_of s l = true <-> s ∈ l.
Proof. apply existsb_eqb_elem. Qed.

Lemma IsPending_cases s : IsPending s = true <-> s = StatusPendingValidation \/ s = StatusPendingDNS.
Proof. unfold IsPending. rewrite one_of_In. set_solver. Qed.

Lemma status_cases s :
  RegistrationStatus_IsValid s = true ->
  s = StatusPendingValidation \/ s = StatusPendingDNS \/ s = StatusActive \/ s = StatusDeprecated \/
  s = StatusRevoked \/ s = StatusFailed \/ s = StatusExpired.
Proof. unfold RegistrationStatus_IsValid. rewrite one_of_In. set_solver. Qed.

(** The transition table as a relation. *)
Lemma CanTransitionTo_cases s t :
  CanTransitionTo s t = true ->
  (s, t) ∈ [(StatusPendingValidation, StatusPendingDNS); (StatusPendingValidation, StatusFailed);
            (StatusPendingValidation, StatusRevoked); (StatusPendingValidation, StatusExpired);
            (StatusPendingDNS, StatusActive); (StatusPendingDNS, StatusFailed);
            (StatusPendingDNS, StatusRevoked); (StatusPendingDNS, StatusExpired);
            (StatusActive, StatusDeprecated); (StatusActive, StatusRevoked); (StatusDeprecated, StatusRevoked)].
Proof.
  unfold CanTransitionTo. 
  match goal with |- context [find_first ?f ?l] => destruct (find_first f l) as [[k allowed]|] eqn:E end; [|done].
  apply find_first_Some in E as [Hin Hk]. b2p. simpl in Hk. subst k. rewrite one_of_In. intros Ht.
  unfold ValidTransitions in Hin. repeat (apply elem_of_cons in Hin as [[= -> ->]|Hin]; [set_solver|]).
  set_solver.
Qed.

Lemma transitionTo_Ok r t r' :
  transitionTo r t = Ok r' <-> CanTransitionTo (r_Status r) t = true /\ r' = upd_status r t (r_PendingEvents r).
Proof.
  unfold transitionTo, ValidateTransition. destruct (CanTransitionTo _ _); simpl; [|naive_solver].
  split; [by intros [= <-]|by intros [_ ->]].
Qed.

Ltac op_inv H :=
  simpl in H;
  unfold Activate, AdvanceToPendingDNS, Deprecate, Revoke, Cancel, CancelForHostConflict, Fail_, Expire,
    SubmitIdentityCSR, SubmitServerCSR in H;
  repeat (case_if_in H; [discriminate H|]); b2p;
  try (apply bind_Ok in H as (? & ?%transitionTo_Ok & H));
  try (apply transitionTo_Ok in H);
  repeat match goal with K : _ /\ _ |- _ => destruct K end;
  simplify_eq/=.

(** One operation: the transition table, the fields kept and the event raised. *)
Lemma apply_op_step r op r' :
  apply_op r op = Ok r' ->
  (r_Status r' = r_Status r \/ CanTransitionTo (r_Status r) (r_Status r') = true \/
   (r_Status r = StatusPendingValidation /\ r_Status r' = StatusActive /\ exists now, op = OActivate now)) /\
  same_identity r r' /\ r_PendingEvents r' = r_PendingEvents r ++ announces r op.
Proof.
  assert (P : forall s t, IsPending s = true -> t ∈ [StatusRevoked; StatusFailed; StatusExpired] -> CanTransitionTo s t = true).
  { intros s t [-> | ->]%IsPending_cases Ht; rewrite !elem_of_cons, elem_of_nil in Ht;
      destruct Ht as [->|[->|[->|[]]]]; reflexivity. }
  intros H. destruct op; op_inv H.
  - split; [|done]. apply IsPending_cases in Heqb as [E|E]; rewrite E; [right; right; split_and!; eauto|right; by left].
  - split_and!; [auto|done|by rewrite app_nil_r].
  - split_and!; [auto|done|done].
  - split_and!; [auto|done|done].
  - split_and!; [right; left; apply P; [done|set_solver]|done|done].
  - split_and!; [right; left; apply P; [done|set_solver]|done|by rewrite app_nil_r].
  - split_and!; [right; left; apply P; [done|set_solver]|done|by rewrite app_nil_r].
  - split_and!; [right; left; apply P; [done|set_solver]|done|by rewrite app_nil_r].
  - split_and!; [by left|done|by rewrite app_nil_r].
  - split_and!; [by left|done|by rewrite app_nil_r].
  - destruct (apply_order_op _ _); simplify_eq/=. split_and!; [by left|done|by rewrite app_nil_r].
Qed.

Lemma transition_rank s t :
  CanTransitionTo s t = true -> status_rank s < status_rank t /\ RegistrationStatus_IsValid t = true.
Proof.
  intros H%CanTransitionTo_cases. rewrite !elem_of_cons, elem_of_nil in H.
  repeat destruct H as [[= -> ->]|H]; try done; vm_compute; done.
Qed.

Lemma apply_op_rank r op r' :
  apply_op r op = Ok r' ->
  (r_Status r' = r_Status r \/ status_rank (r_Status r) < status_rank (r_Status r')) /\
  (RegistrationStatus_IsValid (r_Status r) = true -> RegistrationStatus_IsValid (r_Status r') = true).
Proof.
  intros ([E|[H|(E1 & E2 & _)]] & _)%apply_op_step.
  - rewrite E. auto.
  - apply transition_rank in H as [? ?]. auto.
  - rewrite E1, E2. split; [right; vm_compute; done|done].
Qed.

Lemma try_cases {A B} (f : A -> B -> result Error A) a b :
  (exists a', f a b = Ok a' /\ try f a b = a') \/ try f a b = a.
Proof. unfold try. destruct (f a b) as [a'|]; [left; eauto|by right]. Qed.

(** Generic induction over a run of calls. *)
Lemma fold_try_inv {A B} (f : A -> B -> result Error A) (R : A -> A -> Prop) :
  (forall a, R a a) -> (forall a b c, R a b -> R b c -> R a c) ->
  (forall a b a', f a b = Ok a' -> R a a') ->
  forall ops a, R a (fold_left (try f) ops a).
Proof.
  intros Hr Ht Hs ops. induction ops as [|b ops IH]; intros a; simpl; [done|].
  eapply Ht; [|apply IH]. destruct (try_cases f a b) as [(a' & E & ->)| ->]; eauto.
Qed.

Lemma status_rank_bounds s : 0 <= status_rank s <= 4.
Proof. unfold status_rank. repeat case_if; lia. Qed.

Lemma terminal_rank s : IsTerminal s = true -> status_rank s = 4.
Proof. unfold IsTerminal. rewrite one_of_In. intros H. repeat (apply elem_of_cons in H as [->|H]; [done|]). set_solver. Qed.

(** ** Claims *)

(** Every successful operation of the aggregate either keeps the status or
    moves along the published transition table, with one exception: Activate
    also takes PENDING_VALIDATION straight to ACTIVE.  It keeps the agent's
    identity fields and appends exactly the event it announces. *)
Theorem registration_step r op r' :
  apply_op r op = Ok r' ->
  (r_Status r' = r_Status r \/ CanTransitionTo (r_Status r) (r_Status r') = true \/
   (r_Status r = StatusPendingValidation /\ r_Status r' = StatusActive /\ exists now, op = OActivate now)) /\
  same_identity r r' /\ r_PendingEvents r' = r_PendingEvents r ++ announces r op.
Proof. apply apply_op_step. Qed.

(** C36: Runs of the registration state machine.  From a registration with a
    recognised status, whatever calls are made in whatever order (failing calls
    included), the status stays recognised and never moves backwards in the
    lifecycle order; a terminal status (REVOKED, FAILED, EXPIRED) is final; and
    the identity fields never change. *)
Theorem registration_run_invariant r ops :
  RegistrationStatus_IsValid (r_Status r) = true ->
  RegistrationStatus_IsValid (r_Status (run r ops)) = true /\
  (r_Status (run r ops) = r_Status r \/ status_rank (r_Status r) < status_rank (r_Status (run r ops))) /\
  (IsTerminal (r_Status r) = true -> r_Status (run r ops) = r_Status r) /\
  same_identity r (run r ops).
Proof.
  intros HV.
  assert (H : (r_Status (run r ops) = r_Status r \/ status_rank (r_Status r) < status_rank (r_Status (run r ops))) /\
              (RegistrationStatus_IsValid (r_Status r) = true -> RegistrationStatus_IsValid (r_Status (run r ops)) = true) /\
              same_identity r (run r ops)).
  { unfold run. apply (fold_try_inv apply_op (fun a b =>
      (r_Status b = r_Status a \/ status_rank (r_Status a) < status_rank (r_Status b)) /\
      (RegistrationStatus_IsValid (r_Status a) = true -> RegistrationStatus_IsValid (r_Status b) = true) /\
      same_identity a b)).
    - intros a. unfold same_identity. split_and!; auto.
    - intros a b c (H1 & H2 & H3) (H4 & H5 & H6). split_and!.
      + destruct H1 as [E1|?], H4 as [E4|?]; [left; congruence|right; congruence|right; congruence|right; lia].
      + auto.
      + unfold same_identity in *. intuition congruence.
    - intros a op a' Ha. pose proof (apply_op_rank _ _ _ Ha) as [? ?].
      apply apply_op_step in Ha as (_ & ? & _). auto. }
  destruct H as (H1 & H2 & H3). split_and!; [auto|done| |done].
  intros HT%terminal_rank. destruct H1 as [|H1]; [done|].
  pose proof (status_rank_bounds (r_Status (run r ops))). lia.
Qed.

(** Withdrawal.  Revoke succeeds exactly on ACTIVE and DEPRECATED
    registrations given a recognised reason, Cancel exactly on pending ones
    unless they still await domain validation under a PENDING order, and no
    registration accepts both; either way the result is REVOKED. *)
Theorem withdrawal_eligibility r reason now :
  (is_ok (Revoke r reason now) = true <->
     RevocationReason_IsValid reason = true /\ (r_Status r = StatusActive \/ r_Status r = StatusDeprecated)) /\
  (is_ok (Cancel r now) = true <->
     r_Status r = StatusPendingDNS \/
     (r_Status r = StatusPendingValidation /\ o_State (r_CertOrder r) <> OrderStatePending)) /\
  (forall r', Revoke r reason now = Ok r' \/ Cancel r now = Ok r' -> r_Status r' = StatusRevoked).
Proof.
  split_and!.
  - unfold Revoke. destruct (RevocationReason_IsValid reason); cbn [negb]; [|split; [done|by intros [? _]]].
    destruct (IsPending (r_Status r)) eqn:EP.
    { split; [done|]. intros [_ [E|E]]; rewrite E in EP; discriminate. }
    unfold transitionTo, ValidateTransition. destruct (CanTransitionTo _ _) eqn:EC; cbn.
    + split; [intros _; split; [done|]|done]. apply CanTransitionTo_cases in EC.
      rewrite !elem_of_cons, elem_of_nil in EC.
      repeat (destruct EC as [EC1|EC];
        [pose proof (f_equal fst EC1) as E1; pose proof (f_equal snd EC1) as E2; simpl in E1, E2;
         first [discriminate E2 | rewrite E1 in EP; discriminate EP | rewrite E1; auto]|]). done.
    + split; [done|]. intros [_ [E|E]]; rewrite E in EC; discriminate.
  - unfold Cancel. destruct (IsPending (r_Status r)) eqn:EP; cbn [negb].
    + apply IsPending_cases in EP as [E|E]; rewrite E.
      * destruct (String.eqb_spec (o_State (r_CertOrder r)) OrderStatePending) as [|HO].
        -- split; [done|]. by intros [?|[_ ?]].
        -- split; [intros _; right; done|done].
      * split; [intros _; by left|done].
    + split; [done|]. intros [E|[E _]]; rewrite E in EP; discriminate.
  - intros r' [H|H].
    + change (apply_op r (ORevoke reason now) = Ok r') in H. by op_inv H.
    + change (apply_op r (OCancel now) = Ok r') in H. by op_inv H.
Qed.

(** The order state machine.  From an order in one of its four states, any
    sequence of calls stays within them and never moves backwards; COMPLETED and
    FAILED are final; the challenges, the provider reference and the expiry never
    change; and marking an ISSUING order ISSUING again is a no-op. *)
Theorem order_run_invariant o ops :
  one_of (o_State o) [OrderStatePending; OrderStateIssuing; OrderStateCompleted; OrderStateFailed] = true ->
  one_of (o_State (run_order o ops))
    [OrderStatePending; OrderStateIssuing; OrderStateCompleted; OrderStateFailed] = true /\
  order_rank (o_State o) <= order_rank (o_State (run_order o ops)) /\
  (order_terminal (o_State o) = true -> o_State (run_order o ops) = o_State o) /\
  o_Challenges (run_order o ops) = o_Challenges o /\ o_OrderRef (run_order o ops) = o_OrderRef o /\
  o_ExpiresAt (run_order o ops) = o_ExpiresAt o /\
  (o_State o = OrderStateIssuing -> MarkIssuing o = Ok o).
Proof.
  intros HV. unfold run_order.
  pose (R a b :=
    (one_of (o_State a) [OrderStatePending; OrderStateIssuing; OrderStateCompleted; OrderStateFailed] = true ->
     one_of (o_State b) [OrderStatePending; OrderStateIssuing; OrderStateCompleted; OrderStateFailed] = true) /\
    order_rank (o_State a) <= order_rank (o_State b) /\
    (order_terminal (o_State a) = true -> o_State b = o_State a) /\
    o_Challenges b = o_Challenges a /\ o_OrderRef b = o_OrderRef a /\ o_ExpiresAt b = o_ExpiresAt a).
  assert (H : R o (fold_left (try apply_order_op) ops o)).
  { apply fold_try_inv; unfold R.
    - intros a. split_and!; auto. lia.
    - intros a b c (A1 & A2 & A3 & A4 & A5 & A6) (B1 & B2 & B3 & B4 & B5 & B6).
      split_and!; [auto|lia| |congruence..]. intros HT. rewrite <- (A3 HT) in HT |- *. auto.
    - intros a op a' H. assert (PI : forall t, order_in_progress a = true -> order_rank t = 2 ->
        order_rank (o_State a) <= order_rank t /\ (order_terminal (o_State a) = true -> t = o_State a)).
      { intros t [E|E]%orb_true_iff Ht; b2p; rewrite E, Ht; split; done. }
      assert (B : negb (String.eqb (o_State a) OrderStatePending) && negb (String.eqb (o_State a) OrderStateIssuing) = false
                  -> order_in_progress a = true).
      { unfold order_in_progress. by destruct (String.eqb _ OrderStatePending), (String.eqb _ OrderStateIssuing). }
      destruct op; simpl in H; unfold MarkIssuing, Order_MarkCompleted, Order_MarkFailed in H.
      + destruct (String.eqb_spec (o_State a) OrderStateIssuing) as [E|]; [injection H as <-; split_and!; auto; lia|].
        destruct (String.eqb_spec (o_State a) OrderStatePending) as [E|]; [|done]. injection H as <-.
        cbn. rewrite E. split_and!; auto; done.
      + case_if_in H; [done|]. injection H as <-. destruct (PI OrderStateCompleted (B eq_refl) eq_refl). cbn. auto 10.
      + case_if_in H; [done|]. injection H as <-. destruct (PI OrderStateFailed (B eq_refl) eq_refl). cbn. auto 10.
      + injection H as <-. cbn. split_and!; auto; lia. }
  destruct H as (H1 & H2 & H3 & H4 & H5 & H6). split_and!; auto.
  intros E. unfold MarkIssuing. by rewrite E.
Qed.

(** Registration.  A registration NewRegistration accepts starts in
    PENDING_VALIDATION with exactly its AGENT_REGISTERED event and no
    certificate order; it has an identifier, an owner and a display name of 1 to
    64 bytes; its endpoints are one to three, of different protocols, each
    hosted on the agent's own FQDN; and a supplied server certificate names that
    FQDN. *)
Theorem NewRegistration_sound `{U : UnicodeTables} agentID ownerID ansName displayName description eps cert csr now r :
  NewRegistration agentID ownerID ansName displayName description eps cert csr now = Ok r ->
  r_Status r = StatusPendingValidation /\
  r_PendingEvents r = [AgentRegisteredEvent agentID ansName ownerID now] /\ r_CertOrder r = zero_order /\
  r_AgentID r = agentID /\ agentID <> "" /\ r_OwnerID r = ownerID /\ ownerID <> "" /\ r_AnsName r = ansName /\
  (1 <= String.length (d_DisplayName (r_Details r)) <= 64)%nat /\
  (String.length (d_Description (r_Details r)) <= 150)%nat /\
  (1 <= length (r_Endpoints r) <= 3)%nat /\ NoDup (ep_Protocol <$> r_Endpoints r) /\
  Forall (fun e => ValidateHostMatch e (agentHost ansName) = Ok tt) (r_Endpoints r) /\
  (forall c, r_ServerCert r = Some c -> MatchesFQDN c (agentHost ansName) = true).
Proof.
  unfold NewRegistration, maxDisplayNameLength, maxDescriptionLength. intros H.
  repeat (case_if_in H; [discriminate H|]). apply bind_Ok in H as ([] & HE & H). case_if_in H; [done|]. b2p.
  injection H as <-. cbn [addEvent upd_status r_Status r_PendingEvents r_CertOrder r_AgentID r_OwnerID r_AnsName
    r_Details r_Endpoints r_ServerCert d_DisplayName d_Description].
  destruct (AgentEndpoints_Validate_Ok _ _ HE) as (HN & HD & HV & HA).
  apply Nat.ltb_ge in Heqb3, Heqb4.
  split_and!; try done.
  - destruct displayName; [done|simpl; lia].
  - destruct eps; [done|simpl; lia].
  - rewrite <- (length_fmap ep_Protocol). apply protocols_at_most_three; [done|]. apply Forall_fmap. exact HV.
  - eapply Forall_impl; [exact HA|]. by intros e [_ ?].
  - intros c ->. by apply negb_false_iff in Heqb6.
Qed.

(** Renewals.  A new renewal's validation is PENDING and its window closes
    within seven days and never after a dated provider order does; the
    validation is decided at most once; and a renewal finished at a non-zero
    time refuses to be completed or failed again. *)
Theorem renewal_window_and_finality order now :
  let v := newRenewalValidation order now in
  rv_Status v = ValidationPending /\ rv_ExpiresAt v <= now + 7 * 24 * Hour /\
  (o_ExpiresAt order <> 0 -> rv_ExpiresAt v <= o_ExpiresAt order) /\
  (forall t v', Validation_MarkVerified v t = Ok v' \/ Validation_MarkFailed v t = Ok v' ->
     forall t', is_ok (Validation_MarkVerified v' t') = false /\ is_ok (Validation_MarkFailed v' t') = false) /\
  (forall r t reason r', t <> 0 -> Renewal_MarkCompleted r t = Ok r' \/ Renewal_MarkFailed r reason t = Ok r' ->
     Renewal_IsCompleted r = false /\ Renewal_IsCompleted r' = true /\
     forall t' reason', is_ok (Renewal_MarkCompleted r' t') = false /\ is_ok (Renewal_MarkFailed r' reason' t') = false).
Proof.
  cbn zeta. unfold newRenewalValidation, Time_IsZero, Time_Before, Time_Add, renewalExpiryDuration, Time in *.
  split_and!; [done| | | |].
  - cbn. destruct (Z.eqb_spec (o_ExpiresAt order) 0); cbn; [done|]. case_if; b2p; lia.
  - cbn. intros Hz. destruct (Z.eqb_spec (o_ExpiresAt order) 0); cbn; [done|]. case_if; b2p; lia.
  - intros t v' [H|H]; injection H as <-; intros t'; done.
  - intros r t reason r' Ht H.
    unfold Renewal_MarkCompleted, Renewal_MarkFailed, Renewal_IsCompleted, Time_IsZero in *.
    destruct (Z.eqb_spec (rn_CompletedAt r) 0); cbn [negb] in *; [|by destruct H].
    destruct H as [H|H]; injection H as <-; cbn [set_renewal rn_CompletedAt];
      (destruct (Z.eqb_spec t 0); [done|]); done.
Qed.

(** ** Witnesses *)

Definition demo_ansname : AnsName := MkAnsName (MkSemVer 1 0 0) "agent.example.com".

Definition demo_reg (st : RegistrationStatus) : AgentRegistration :=
  {| r_ID := 1; r_AgentID := "id"; r_OwnerID := "owner"; r_AnsName := demo_ansname; r_Status := st;
     r_Details := {| d_RegistrationTimestamp := 5; d_LastRenewalTimestamp := 0; d_DisplayName := "A"; d_Description := "" |};
     r_Endpoints := [demo_endpoint]; r_ServerCert := None; r_IdentityCSR := None; r_ServerCSR := None;
     r_SupersedesRegistrationID := 0; r_CertOrder := NewSelfIssuedOrder "t1" "t2" 9; r_DiscoveryProfiles := [];
     r_PendingEvents := [] |}.

Lemma registration_step_witness :
  exists r', apply_op (demo_reg StatusPendingValidation) (OActivate 7) = Ok r' /\ r_Status r' = StatusActive /\
             r_PendingEvents r' = [AgentActivatedEvent "id" demo_ansname 7].
Proof.
  eexists. split; [reflexivity|]. split; [reflexivity|].
  destruct (registration_step (demo_reg StatusPendingValidation) (OActivate 7) _ eq_refl) as (_ & _ & H). exact H.
Defined.

(** An ACTIVE registration is deprecated, revoked, and then resists everything. *)
Lemma registration_run_invariant_witness :
  let ops := [ODeprecate "id2" 3; ORevoke RevocationSuperseded 4; OActivate 5; OCancel 6; OExpire] in
  r_Status (run (demo_reg StatusActive) ops) = StatusRevoked /\
  same_identity (demo_reg StatusActive) (run (demo_reg StatusActive) ops).
Proof.
  cbn zeta. split; [reflexivity|].
  apply (registration_run_invariant (demo_reg StatusActive)
           [ODeprecate "id2" 3; ORevoke RevocationSuperseded 4; OActivate 5; OCancel 6; OExpire] eq_refl).
Defined.

Lemma withdrawal_eligibility_witness :
  is_ok (Revoke (demo_reg StatusDeprecated) RevocationSuperseded 4) = true /\
  is_ok (Cancel (demo_reg StatusPendingValidation) 4) = false.
Proof.
  split; [|reflexivity].
  apply (withdrawal_eligibility (demo_reg StatusDeprecated) RevocationSuperseded 4). split; [reflexivity|right; reflexivity].
Defined.

Lemma order_run_invariant_witness :
  let o := NewSelfIssuedOrder "t1" "t2" 9 in
  o_State (run_order o [OMarkIssuing; OMarkIssuing; OMarkCompleted; OMarkFailed]) = OrderStateCompleted /\
  o_Challenges (run_order o [OMarkIssuing; OMarkIssuing; OMarkCompleted; OMarkFailed]) = o_Challenges o.
Proof.
  cbn zeta. split; [reflexivity|].
  apply (order_run_invariant (NewSelfIssuedOrder "t1" "t2" 9) [OMarkIssuing; OMarkIssuing; OMarkCompleted; OMarkFailed] eq_refl).
Defined.

Lemma NewRegistration_sound_witness :
  exists r, NewRegistration (U := latin_tables) "id" "owner" demo_ansname "A" "" [demo_endpoint] None None 5 = Ok r /\
            r_Status r = StatusPendingValidation.
Proof.
  eexists. split; [vm_compute; reflexivity|].
  eapply (NewRegistration_sound (U := latin_tables) "id" "owner" demo_ansname "A" "" [demo_endpoint] None None 5).
  vm_compute. reflexivity.
Defined.

Lemma renewal_window_and_finality_witness :
  let r := NewCSRRenewal "id" 1 "csr" (NewSelfIssuedOrder "t1" "t2" 9) 5 in
  exists r', Renewal_MarkCompleted r 8 = Ok r' /\ is_ok (Renewal_MarkFailed r' "x" 9) = false.
Proof.
  cbn zeta. eexists. split; [reflexivity|].
  destruct (renewal_window_and_finality (NewSelfIssuedOrder "t1" "t2" 9) 5) as (_ & _ & _ & _ & H).
  destruct (H (NewCSRRenewal "id" 1 "csr" (NewSelfIssuedOrder "t1" "t2" 9) 5) 8 "" _ ltac:(lia) (or_introl eq_refl))
    as (_ & _ & F). apply F.
Defined.
