(* ===== verification/Identity.v ===== *)
(** Verified identities, [internal/domain/identity.go].

    [time.Time.UTC] changes only the location of an instant, so it is the
    identity here.  A nil pointer is [None]. *)
From S2P Require Import Prelude GoStrings GoTime GoURL DomainErrors.

#[local] Set Default Goal Selector "!".
#[local] Open Scope Z_scope.

(** ** Kinds and states *)

Definition IdentifierKind : Type := string.
Definition KindDIDWeb : IdentifierKind := "did:web".
Definition KindDIDKey : IdentifierKind := "did:key".
Definition KindLEI : IdentifierKind := "lei".

Definition IdentityStatus : Type := string.
Definition IdentityPendingControl : IdentityStatus := "PENDING_CONTROL".
Definition IdentityVerified : IdentityStatus := "VERIFIED".
Definition IdentityRevoked : IdentityStatus := "REVOKED".

Record IdentityChallenge := {
  ic_Nonce : string;
  ic_ExpiresAt : Time;
  ic_ConsumedAt : option Time
}.

Record VerifiedIdentity := {
  vi_IdentityID : string;
  vi_ProviderID : string;
  vi_Kind : IdentifierKind;
  vi_Value : string;
  vi_Status : IdentityStatus;
  vi_ProofMethod : string;
  vi_PendingValue : string;
  vi_SubjectAID : string;
  vi_PendingSubjectAID : string;
  vi_Challenge : option IdentityChallenge;
  vi_VerifiedAt : Time;
  vi_CreatedAt : Time;
  vi_UpdatedAt : Time
}.

Definition proofMethodForKind (kind : IdentifierKind) : string :=
  if String.eqb kind KindDIDWeb then "did-web-sig" else
  if String.eqb kind KindDIDKey then "did-key-sig" else
  if String.eqb kind KindLEI then "lei-vlei-acdc" else "".

(** ** Identifier grammar *)

Definition DID_BAD_FORMAT : Error := NewValidationError "DID_BAD_FORMAT".
Definition IDENTIFIER_KIND_UNSUPPORTED : Error := NewValidationError "IDENTIFIER_KIND_UNSUPPORTED".

Definition isLEI (value : string) : bool :=
  (String.length value =? 20)%nat && forallb (fun r => inR 48 r 57 || inR 65 r 90 || inR 97 r 122) (runes value).

Definition didweb_host_rune (r : Z) : bool := inR 97 r 122 || inR 48 r 57 || (r =? 45).

Definition didweb_label_ok (label : string) : bool :=
  negb (String.eqb label "" || Nat.ltb 63 (String.length label))
  && negb (bool_decide (first_byte label = Some "-"%char) || bool_decide (last_byte label = Some "-"%char))
  && forallb didweb_host_rune (runes label).

Definition validateDNSHost (host : string) : result Error unit :=
  if String.eqb host "" || Nat.ltb 253 (String.length host) then Err DID_BAD_FORMAT else
  if forallb didweb_label_ok (Split host ".") then Ok tt else Err DID_BAD_FORMAT.

Definition path_segment_ok (seg : string) : bool :=
  negb (String.eqb seg "") && negb (String.eqb seg "." || String.eqb seg "..")
  && forallb (fun r => negb ((r <? 0x20) || (r =? 0x7f))) (runes seg).

Section Identity.
Context `{U : UnicodeTables}.

Definition canonicalizeDIDWeb (value : string) : result Error string :=
  let rest := TrimPrefix value "did:web:" in
  if String.eqb rest "" then Err DID_BAD_FORMAT else
  if ContainsByte rest "%" then Err DID_BAD_FORMAT else
  if ContainsByte rest "@" then Err DID_BAD_FORMAT else
  if ContainsByte rest "/" then Err DID_BAD_FORMAT else
  match Split rest ":" with
  | [] => Err DID_BAD_FORMAT
  | seg0 :: segs =>
      let host := ToLower seg0 in
      _ ← validateDNSHost host;
      if negb (forallb path_segment_ok segs) then Err DID_BAD_FORMAT else
      let canonical := "did:web:" +:+ host in
      Ok (if Nat.ltb 1 (length (seg0 :: segs)) then canonical +:+ ":" +:+ Join segs ":" else canonical)
  end.

Definition InferIdentifierKind (raw : string) : result Error (IdentifierKind * string) :=
  let value := TrimSpace raw in
  if HasPrefix value "did:web:" then
    canonical ← canonicalizeDIDWeb value; Ok (KindDIDWeb, canonical)
  else if HasPrefix value "did:key:" then
    if Nat.leb (String.length value) (String.length "did:key:") then Err DID_BAD_FORMAT else Ok (KindDIDKey, value)
  else if isLEI value then Ok (KindLEI, ToUpper value)
  else Err IDENTIFIER_KIND_UNSUPPORTED.

Definition DIDWebResolutionURL (canonicalValue : string) : result Error string :=
  if negb (HasPrefix canonicalValue "did:web:") then Err DID_BAD_FORMAT else
  match Split (TrimPrefix canonicalValue "did:web:") ":" with
  | [] => Err DID_BAD_FORMAT
  | host :: segs =>
      if String.eqb host "" then Err DID_BAD_FORMAT else
      match segs with
      | [] => Ok ("https://" +:+ host +:+ "/.well-known/did.json")
      | _ => Ok ("https://" +:+ host +:+ "/" +:+ Join segs "/" +:+ "/did.json")
      end
  end.

(** ** The aggregate *)

Definition NewVerifiedIdentity (identityID providerID rawValue : string) (now : Time) : result Error VerifiedIdentity :=
  if String.eqb identityID "" then Err (NewValidationError "INVALID_IDENTITY_ID") else
  if String.eqb providerID "" then Err (NewValidationError "INVALID_PROVIDER_ID") else
  '(kind, canonical) ← InferIdentifierKind rawValue;
  Ok {| vi_IdentityID := identityID; vi_ProviderID := providerID; vi_Kind := kind; vi_Value := canonical;
        vi_Status := IdentityPendingControl; vi_ProofMethod := ""; vi_PendingValue := ""; vi_SubjectAID := "";
        vi_PendingSubjectAID := ""; vi_Challenge := None; vi_VerifiedAt := 0; vi_CreatedAt := now; vi_UpdatedAt := now |}.

(** Replace the mutable fields. *)
Definition upd_identity (v : VerifiedIdentity) (value : string) (st : IdentityStatus) (pm pv sa psa : string)
    (c : option IdentityChallenge) (va ua : Time) : VerifiedIdentity :=
  {| vi_IdentityID := vi_IdentityID v; vi_ProviderID := vi_ProviderID v; vi_Kind := vi_Kind v; vi_Value := value;
     vi_Status := st; vi_ProofMethod := pm; vi_PendingValue := pv; vi_SubjectAID := sa; vi_PendingSubjectAID := psa;
     vi_Challenge := c; vi_VerifiedAt := va; vi_CreatedAt := vi_CreatedAt v; vi_UpdatedAt := ua |}.

Definition IssueChallenge (v : VerifiedIdentity) (nonce : string) (ttl : Duration) (now : Time)
  : result Error VerifiedIdentity :=
  if String.eqb (vi_Status v) IdentityRevoked then Err (NewInvalidStateError "IDENTITY_REVOKED") else
  if String.eqb nonce "" then Err (NewValidationError "INVALID_CHALLENGE") else
  if ttl <=? 0 then Err (NewValidationError "INVALID_CHALLENGE") else
  Ok (upd_identity v (vi_Value v) (vi_Status v) (vi_ProofMethod v) (vi_PendingValue v) (vi_SubjectAID v)
        (vi_PendingSubjectAID v)
        (Some {| ic_Nonce := nonce; ic_ExpiresAt := Time_Add now ttl; ic_ConsumedAt := None |}) (vi_VerifiedAt v) now).

Definition CheckChallenge (v : VerifiedIdentity) (now : Time) : result Error unit :=
  match vi_Challenge v with
  | None => Err (NewInvalidStateError "IDENTIFIER_CHALLENGE_EXPIRED")
  | Some c =>
      if match ic_ConsumedAt c with Some _ => true | None => false end
      then Err (NewInvalidStateError "PRICC_TOKEN_ALREADY_USED") else
      if negb (Time_Before now (ic_ExpiresAt c)) then Err (NewInvalidStateError "PRICC_TOKEN_EXPIRED") else Ok tt
  end.

Definition EffectiveValue (v : VerifiedIdentity) : string :=
  if negb (String.eqb (vi_PendingValue v) "") then vi_PendingValue v else vi_Value v.

Definition StageRotation (v : VerifiedIdentity) (rawValue : string) (now : Time) : result Error VerifiedIdentity :=
  if negb (String.eqb (vi_Status v) IdentityVerified) then Err (NewInvalidStateError "IDENTITY_NOT_VERIFIED") else
  '(kind, canonical) ← InferIdentifierKind rawValue;
  if negb (String.eqb kind (vi_Kind v)) then Err (NewValidationError "IDENTIFIER_KIND_MISMATCH") else
  Ok (upd_identity v (vi_Value v) (vi_Status v) (vi_ProofMethod v) canonical (vi_SubjectAID v)
        (vi_PendingSubjectAID v) (vi_Challenge v) (vi_VerifiedAt v) now).

Definition EffectiveSubjectAID (v : VerifiedIdentity) : string :=
  if negb (String.eqb (vi_PendingSubjectAID v) "") then vi_PendingSubjectAID v else vi_SubjectAID v.

Definition StageSubjectAID (v : VerifiedIdentity) (aid : string) (now : Time) : result Error VerifiedIdentity :=
  if String.eqb aid "" then Err (NewValidationError "LEI_PRESENTATION_INVALID") else
  Ok (upd_identity v (vi_Value v) (vi_Status v) (vi_ProofMethod v) (vi_PendingValue v) (vi_SubjectAID v)
        aid (vi_Challenge v) (vi_VerifiedAt v) now).

(** The updated identity and the previous value of a completed rotation. *)
Definition CompleteVerification (v : VerifiedIdentity) (now : Time) : result Error (VerifiedIdentity * string) :=
  '(st, value, previousValue) ←
    (if String.eqb (vi_Status v) IdentityPendingControl then Ok (IdentityVerified, vi_Value v, "")
     else if String.eqb (vi_Status v) IdentityVerified then
       if negb (String.eqb (vi_PendingValue v) "") && negb (String.eqb (vi_PendingValue v) (vi_Value v))
       then Ok (vi_Status v, vi_PendingValue v, vi_Value v)
       else Ok (vi_Status v, vi_Value v, "")
     else if String.eqb (vi_Status v) IdentityRevoked then Err (NewInvalidStateError "IDENTITY_REVOKED")
     else Err (NewInvalidStateError "IDENTITY_INVALID_STATE"));
  let aid := if negb (String.eqb (vi_PendingSubjectAID v) "") then vi_PendingSubjectAID v else vi_SubjectAID v in
  Ok (upd_identity v value st (proofMethodForKind (vi_Kind v)) "" aid "" (vi_Challenge v) now now, previousValue).

Definition Identity_Revoke (v : VerifiedIdentity) (now : Time) : result Error VerifiedIdentity :=
  if negb (String.eqb (vi_Status v) IdentityVerified) then Err (NewInvalidStateError "IDENTITY_NOT_VERIFIED") else
  Ok (upd_identity v (vi_Value v) IdentityRevoked (vi_ProofMethod v) "" (vi_SubjectAID v) "" None (vi_VerifiedAt v) now).
End Identity.

Definition LinkStatus : Type := string.
Definition LinkLinked : LinkStatus := "LINKED".
Definition LinkUnlinked : LinkStatus := "UNLINKED".

Record IdentityLink := {
  il_IdentityID : string;
  il_AgentID : string;
  il_Status : LinkStatus;
  il_LinkedAt : Time;
  il_CreatedAt : Time;
  il_UpdatedAt : Time
}.
