(* ===== verification/IdentitySpec.v ===== *)
(** Theorems on verified identities: the identifier grammar and the URL a
    did:web identifier resolves at, and the lifecycle of the aggregate. *)
From S2P Require Import Prelude GoStrings Utf8 GoTime GoURL DomainErrors SemVer AnsName Identity.

#[local] Set Default Goal Selector "!".
#[local] Open Scope Z_scope.

(** ** Runes and bytes *)

Lemma didweb_label_bytes label :
  didweb_label_ok label = true -> str_forall dns_byte label = true /\ label <> "".
Proof.
  unfold didweb_label_ok. intros H. b2p.
  assert (HA : is_ascii_str label = true).
  { apply runes_low_ascii, Forall_forall. intros r Hr. rewrite forallb_forall in H0.
    specialize (H0 r (proj1 (list_elem_of_In _ _) Hr)). unfold didweb_host_rune, inR in H0.
    apply orb_true_iff in H0 as [[H0|H0]%orb_true_iff|H0]; b2p; lia. }
  split; [|done]. apply runes_bytes in H0. clear -H0 HA. induction label as [|c s IH]; [done|].
  apply is_ascii_cons in HA as [Hc HA]. cbn [str_forall] in *. b2p. rewrite IH, andb_true_r by done.
  revert Hc H. clear. revert c. all_bytes.
Qed.

Lemma validateDNSHost_bytes host :
  validateDNSHost host = Ok tt -> host <> "" /\ str_forall dns_byte host = true.
Proof.
  unfold validateDNSHost. destruct (String.eqb_spec host ""); [done|]. cbn [orb].
  intros H. case_if_in H; [done|]. destruct (forallb _ _) eqn:E; [|done]. split; [done|].
  apply (Split_bytes _ _ "."); [|done]. apply Forall_forall. intros l Hl.
  rewrite forallb_forall in E. apply didweb_label_bytes, E, list_elem_of_In, Hl.
Qed.

Section Spec.
Context `{U : UnicodeTables}.

(** Shape of a canonical did:web identifier. *)
Definition didweb_parts (c host : string) (segs : list string) : Prop :=
  c = "did:web:" +:+ Join (host :: segs) ":" /\ host <> "" /\ str_forall dns_byte host = true /\
  Forall (fun seg => path_segment_ok seg = true /\ ContainsByte seg ":" = false /\ ContainsByte seg "/" = false /\
                     ContainsByte seg "%" = false) segs.

Lemma Split_parts_nobyte s sep c : ContainsByte s c = false -> Forall (fun w => ContainsByte w c = false) (Split s sep).
Proof.
  induction s as [|d s IH]; intros H; [by repeat constructor|]. rewrite ContainsByte_cons in H.
  apply orb_false_iff in H as [Hd H]. specialize (IH H). cbn [Split]. case_if; [by constructor|].
  destruct (Split s sep); [by constructor; [rewrite ContainsByte_cons, Hd|]|].
  apply Forall_cons in IH as [H1 H2]. constructor; [|done]. by rewrite ContainsByte_cons, Hd, H1.
Qed.

Lemma canonicalizeDIDWeb_parts value c :
  canonicalizeDIDWeb value = Ok c -> exists host segs, didweb_parts c host segs.
Proof.
  unfold canonicalizeDIDWeb. set (rest := TrimPrefix value "did:web:"). intros H.
  destruct (String.eqb rest ""); [done|]. destruct (ContainsByte rest "%") eqn:Ep; [done|].
  destruct (ContainsByte rest "@"); [done|]. destruct (ContainsByte rest "/") eqn:Es; [done|].
  pose proof (Split_parts_nosep rest ":") as F1. pose proof (Split_parts_nobyte rest ":" _ Ep) as F2.
  pose proof (Split_parts_nobyte rest ":" _ Es) as F3.
  destruct (Split rest ":") as [|seg0 segs]; [done|]. apply bind_Ok in H as ([] & HV & H).
  destruct (forallb path_segment_ok segs) eqn:EF; [|done]. cbn [negb] in H. injection H as <-.
  apply validateDNSHost_bytes in HV as [Hn Hb]. exists (ToLower seg0), segs.
  apply Forall_cons in F1 as [_ F1]. apply Forall_cons in F2 as [_ F2]. apply Forall_cons in F3 as [_ F3].
  split_and!; [|done|done|].
  - destruct segs as [|s1 segs]; [done|]. cbn [length Nat.ltb Nat.leb]. rewrite (Join_cons (ToLower seg0)) by done.
    by rewrite app_assoc_s.
  - rewrite Forall_forall in *. intros seg Hs. rewrite forallb_forall in EF.
    split_and!; auto. by apply EF, list_elem_of_In.
Qed.

Lemma InferIdentifierKind_didweb raw c :
  InferIdentifierKind raw = Ok (KindDIDWeb, c) -> exists host segs, didweb_parts c host segs.
Proof.
  unfold InferIdentifierKind. case_if.
  - rewrite bind_Ok. intros (c' & H & [= ->]). by eapply canonicalizeDIDWeb_parts.
  - repeat case_if; done.
Qed.

(** The path part of the resolution URL. *)
Definition didweb_path (segs : list string) : list string :=
  (match segs with [] => [".well-known"] | _ => segs end) ++ ["did.json"].

Lemma Join_app_last segs x sep : segs <> [] -> Join (segs ++ [x]) sep = Join segs sep +:+ sep +:+ x.
Proof.
  induction segs as [|s segs IH]; [done|]. intros _. destruct segs as [|s' segs]; [done|].
  change ((s :: s' :: segs) ++ [x]) with (s :: ((s' :: segs) ++ [x])).
  rewrite Join_cons by (by destruct segs). rewrite IH by done. rewrite (Join_cons s) by done.
  by rewrite !app_assoc_s.
Qed.

Lemma DIDWebResolutionURL_parts c host segs :
  didweb_parts c host segs ->
  DIDWebResolutionURL c = Ok ("https://" +:+ host +:+ "/" +:+ Join (didweb_path segs) "/").
Proof.
  intros (-> & Hn & Hb & HF). unfold DIDWebResolutionURL. rewrite HasPrefix_app, TrimPrefix_app. cbn [negb].
  rewrite (Split_Join (host :: segs) ":").
  - destruct (String.eqb_spec host ""); [done|]. destruct segs as [|s segs]; [done|].
    unfold didweb_path. rewrite Join_app_last by done. reflexivity.
  - done.
  - constructor; [by apply (dns_no_byte host)|]. eapply Forall_impl; [exact HF|]. naive_solver.
Qed.

Lemma Join_forall f segs sep :
  Forall (fun s => str_forall f s = true) segs -> str_forall f sep = true -> str_forall f (Join segs sep) = true.
Proof.
  intros H Hs. induction H as [|s segs H1 H2 IH]; [done|]. destruct segs as [|s' segs]; [done|].
  rewrite Join_cons by done. by rewrite !str_forall_app, H1, Hs, IH.
Qed.

Lemma segment_no_ctl seg : path_segment_ok seg = true -> str_forall (fun c => negb (is_ctl c)) seg = true.
Proof.
  unfold path_segment_ok. intros H. b2p. apply runes_bytes in H0. revert H0. apply str_forall_impl.
  clear. all_bytes.
Qed.

(** Where a did:web identifier resolves.  Every did:web identifier the
    grammar accepts has a resolution URL, and Go's URL parser reads that URL as
    https on exactly the identifier's validated lower-case DNS host: no port, no
    userinfo, whatever the path segments contain. *)
Theorem did_web_resolution_host raw c :
  InferIdentifierKind raw = Ok (KindDIDWeb, c) ->
  exists host segs url u,
    c = "did:web:" +:+ Join (host :: segs) ":" /\ DIDWebResolutionURL c = Ok url /\ Parse url = Some u /\
    host <> "" /\ str_forall dns_byte host = true /\
    u_Scheme u = "https" /\ u_HasUser u = false /\ URL_Hostname u = host /\ URL_Port u = "".
Proof.
  intros (host & segs & HP)%InferIdentifierKind_didweb. pose proof (DIDWebResolutionURL_parts _ _ _ HP) as E.
  destruct HP as (-> & Hn & Hb & HF).
  destruct (Parse_assembled host (Join (didweb_path segs) "/") Hn Hb) as (u & HU & H1 & H2 & _ & H3 & H4).
  - apply Join_forall; [|done]. apply Forall_app. split; [|by repeat constructor].
    destruct segs; [by repeat constructor|]. eapply Forall_impl; [exact HF|]. intros x (Hs & _). by apply segment_no_ctl.
  - unfold ContainsByte. apply negb_false_iff, Join_forall; [|done]. apply Forall_app. split; [|by repeat constructor].
    destruct segs; [by repeat constructor|]. eapply Forall_impl; [exact HF|].
    intros x (_ & _ & _ & Hs). by apply negb_false_iff in Hs.
  - exists host, segs, ("https://" +:+ host +:+ "/" +:+ Join (didweb_path segs) "/"), u. split_and!; done.
Qed.

(** Resolution is injective up to the did:web alias: two accepted
    identifiers with the same resolution URL are equal, or one is the other's
    bare host with the path segment [.well-known] appended. *)
Theorem did_web_resolution_injective raw1 raw2 c1 c2 :
  InferIdentifierKind raw1 = Ok (KindDIDWeb, c1) -> InferIdentifierKind raw2 = Ok (KindDIDWeb, c2) ->
  DIDWebResolutionURL c1 = DIDWebResolutionURL c2 ->
  c1 = c2 \/ c2 = c1 +:+ ":.well-known" \/ c1 = c2 +:+ ":.well-known".
Proof.
  intros (h1 & s1 & P1)%InferIdentifierKind_didweb (h2 & s2 & P2)%InferIdentifierKind_didweb E.
  rewrite (DIDWebResolutionURL_parts _ _ _ P1), (DIDWebResolutionURL_parts _ _ _ P2) in E. injection E as E.
  destruct P1 as (-> & _ & B1 & F1), P2 as (-> & _ & B2 & F2).
  assert (NS : forall h segs, str_forall dns_byte h = true ->
    Forall (fun seg => path_segment_ok seg = true /\ ContainsByte seg ":" = false /\ ContainsByte seg "/" = false /\
                       ContainsByte seg "%" = false) segs ->
    Split (h +:+ "/" +:+ Join (didweb_path segs) "/") "/" = h :: didweb_path segs).
  { intros h segs B F. change ("/" +:+ Join (didweb_path segs) "/") with (String "/" ("" +:+ Join (didweb_path segs) "/")).
    rewrite app_nil_l_s, Split_app by (by apply (dns_no_byte h)). f_equal.
    apply (Split_Join _ "/"); [by destruct segs|]. apply Forall_app. split; [|by repeat constructor].
    destruct segs; [by repeat constructor|]. eapply Forall_impl; [exact F|]. naive_solver. }
  assert (h1 :: didweb_path s1 = h2 :: didweb_path s2) as [= -> Es].
  { rewrite <- (NS h1 s1 B1 F1), <- (NS h2 s2 B2 F2). f_equal.
    exact E. }
  unfold didweb_path in Es. apply app_inj_tail in Es as [Es _].
  destruct s1 as [|x1 s1], s2 as [|x2 s2].
  - by left.
  - injection Es as <- <-. right; left. cbn [Join]. by rewrite app_assoc_s.
  - injection Es as -> ->. right; right. cbn [Join]. by rewrite app_assoc_s.
  - injection Es as -> ->. by left.
Qed.

(** ** The aggregate's lifecycle *)

Inductive identity_op :=
| OIssue (nonce : string) (ttl : Duration) (now : Time) | OStage (raw : string) (now : Time)
| OStageAID (aid : string) (now : Time) | OComplete (now : Time) | OIdRevoke (now : Time).

Definition apply_identity (v : VerifiedIdentity) (op : identity_op) : result Error VerifiedIdentity :=
  match op with
  | OIssue nonce ttl now => IssueChallenge v nonce ttl now
  | OStage raw now => StageRotation v raw now
  | OStageAID aid now => StageSubjectAID v aid now
  | OComplete now => fst <$> CompleteVerification v now
  | OIdRevoke now => Identity_Revoke v now
  end.

(** A call that fails leaves the identity as it was. *)
Definition run_identity (v : VerifiedIdentity) (ops : list identity_op) : VerifiedIdentity :=
  fold_left (fun v op => match apply_identity v op with Ok v' => v' | Err _ => v end) ops v.

Definition id_rank (s : IdentityStatus) : Z :=
  if String.eqb s IdentityPendingControl then 0 else if String.eqb s IdentityVerified then 1 else 2.

(** Every stored value came out of the identifier grammar for the identity's
    kind; nothing is staged before the first proof or after revocation. *)
Definition identity_wf (v : VerifiedIdentity) : Prop :=
  (exists raw, InferIdentifierKind raw = Ok (vi_Kind v, vi_Value v)) /\
  (vi_PendingValue v = "" \/
   (vi_Status v = IdentityVerified /\ exists raw, InferIdentifierKind raw = Ok (vi_Kind v, vi_PendingValue v))) /\
  (vi_Status v = IdentityPendingControl \/ vi_Status v = IdentityVerified \/ vi_Status v = IdentityRevoked) /\
  (vi_Status v = IdentityRevoked -> vi_Challenge v = None).

Definition identity_fixed (v v' : VerifiedIdentity) : Prop :=
  vi_IdentityID v' = vi_IdentityID v /\ vi_ProviderID v' = vi_ProviderID v /\ vi_Kind v' = vi_Kind v.

Lemma apply_identity_wf v op v' :
  identity_wf v -> apply_identity v op = Ok v' ->
  identity_wf v' /\ identity_fixed v v' /\ id_rank (vi_Status v) <= id_rank (vi_Status v').
Proof.
  intros (W1 & W2 & W3 & W4) H. destruct op; simpl in H.
  - unfold IssueChallenge in H. repeat (case_if_in H; [done|]). injection H as <-. b2p.
    split_and!; [|done|done]. split_and!; [done|done|done|]. by intros E.
  - unfold StageRotation in H. case_if_in H; [done|]. b2p. apply bind_Ok in H as ([k c] & HI & H).
    case_if_in H; [done|]. b2p. injection H as <-. subst k.
    split_and!; [|done|done]. split_and!; [done| |done|done]. right. split; [done|]. by exists raw.
  - unfold StageSubjectAID in H. case_if_in H; [done|]. injection H as <-.
    split_and!; [|done|done]. split_and!; done.
  - unfold CompleteVerification in H. destruct W3 as [E|[E|E]]; rewrite E in H; simpl in H.
    + injection H as <-. split_and!; [|done|rewrite E; vm_compute; congruence].
      split_and!; [done|by left|right; by left|done].
    + destruct (negb (vi_PendingValue v =? "")%string && negb (vi_PendingValue v =? vi_Value v)%string) eqn:EP;
        simpl in H; injection H as <-.
      * split_and!; [|done|rewrite E; done]. split_and!; [|by left|right; by left|done].
        b2p. destruct W2 as [|[_ W2]]; [done|]. exact W2.
      * split_and!; [|done|rewrite E; done]. split_and!; [done|by left|right; by left|done].
    + discriminate H.
  - unfold Identity_Revoke in H. case_if_in H; [done|]. b2p. injection H as <-.
    split_and!; [|done|rewrite Heqb; vm_compute; congruence]. split_and!; [done|by left|right; by right|done].
Qed.

(** Identity lifecycle.  Starting from a freshly created identity, whatever
    calls are made (failing ones included): the stored and staged values always
    come out of the identifier grammar for the identity's own kind, the status
    only moves PENDING_CONTROL, VERIFIED, REVOKED, a revoked identity keeps
    neither challenge nor staged value and stays revoked, and the identifier,
    owner and kind never change. *)
Theorem identity_run_invariant id owner raw now v0 ops :
  NewVerifiedIdentity id owner raw now = Ok v0 ->
  let v := run_identity v0 ops in
  identity_wf v /\ identity_fixed v0 v /\
  (forall ops', let v' := run_identity v ops' in
     id_rank (vi_Status v) <= id_rank (vi_Status v') /\
     (vi_Status v = IdentityRevoked -> vi_Status v' = IdentityRevoked /\ vi_Challenge v' = None /\
                                       vi_PendingValue v' = "")).
Proof.
  intros H0.
  assert (R : forall ops v, identity_wf v -> identity_wf (run_identity v ops) /\ identity_fixed v (run_identity v ops) /\
              id_rank (vi_Status v) <= id_rank (vi_Status (run_identity v ops))).
  { clear. intros ops. induction ops as [|op ops IH]; intros v W; [split; [done|]; split; [done|]; simpl; lia|].
    change (run_identity v (op :: ops))
      with (run_identity (match apply_identity v op with Ok v' => v' | Err _ => v end) ops).
    destruct (apply_identity v op) as [v'|] eqn:E; [|by apply IH].
    destruct (apply_identity_wf _ _ _ W E) as (W' & (F1 & F2 & F3) & K'). destruct (IH v' W') as (A & (B1 & B2 & B3) & C).
    split_and!; [done|unfold identity_fixed; split_and!; congruence|lia]. }
  assert (W0 : identity_wf v0).
  { unfold NewVerifiedIdentity in H0. repeat (case_if_in H0; [done|]). apply bind_Ok in H0 as ([k c] & HI & H0).
    injection H0 as <-. split_and!; [by exists raw|by left|by left|done]. }
  cbn zeta. destruct (R ops v0 W0) as (W & F & _). split_and!; [done|done|].
  intros ops'. destruct (R ops' _ W) as ((V1 & V2 & V3 & V4) & _ & K). split; [done|]. intros E. rewrite E in K.
  assert (ER : vi_Status (run_identity (run_identity v0 ops) ops') = IdentityRevoked).
  { destruct V3 as [E'|[E'|E']]; [rewrite E' in K; vm_compute in K; congruence..|done]. }
  split_and!; [done|by apply V4|]. destruct V2 as [|[E' _]]; [done|]. rewrite ER in E'. discriminate.
Qed.
End Spec.

(** ** Witnesses *)

(** A path segment may carry a question mark: the resolution URL then has a
    query, and the document is not fetched from a [did.json] path. *)
Example did_web_query_segment :
  exists u, DIDWebResolutionURL "did:web:example.com:a?b" = Ok "https://example.com/a?b/did.json" /\
    InferIdentifierKind (U := latin_tables) "did:web:example.com:a?b" = Ok (KindDIDWeb, "did:web:example.com:a?b") /\
    Parse (U := latin_tables) "https://example.com/a?b/did.json" = Some u /\ u_Path u = "/a" /\ u_RawQuery u = "b/did.json".
Proof. eexists. split_and!; vm_compute; reflexivity. Qed.

Lemma did_web_resolution_host_witness :
  InferIdentifierKind (U := latin_tables) " did:web:Example.COM:user:al" = Ok (KindDIDWeb, "did:web:example.com:user:al") /\
  exists host segs url u,
    "did:web:example.com:user:al" = "did:web:" +:+ Join (host :: segs) ":" /\
    DIDWebResolutionURL "did:web:example.com:user:al" = Ok url /\ Parse (U := latin_tables) url = Some u /\
    URL_Hostname u = host.
Proof.
  assert (H : InferIdentifierKind (U := latin_tables) " did:web:Example.COM:user:al"
              = Ok (KindDIDWeb, "did:web:example.com:user:al")) by (vm_compute; reflexivity).
  split; [exact H|].
  destruct (did_web_resolution_host (U := latin_tables) _ _ H) as (host & segs & url & u & H1 & H2 & H3 & _ & _ & _ & _ & H4 & _).
  exists host, segs, url, u. split_and!; assumption.
Defined.

(** The alias is real. *)
Lemma did_web_resolution_injective_witness :
  DIDWebResolutionURL "did:web:example.com" = DIDWebResolutionURL "did:web:example.com:.well-known" /\
  ("did:web:example.com" = "did:web:example.com:.well-known" \/
   "did:web:example.com:.well-known" = "did:web:example.com" +:+ ":.well-known" \/
   "did:web:example.com" = "did:web:example.com:.well-known" +:+ ":.well-known").
Proof.
  split; [reflexivity|].
  apply (did_web_resolution_injective (U := latin_tables) "did:web:example.com" "did:web:example.com:.well-known");
    vm_compute; reflexivity.
Defined.

Lemma identity_run_invariant_witness :
  exists v0, NewVerifiedIdentity (U := latin_tables) "i" "o" "did:web:example.com" 1 = Ok v0 /\
    let ops := [OIssue "n" 10 1; OComplete 2; OStage "did:web:other.example" 3; OComplete 4; OIdRevoke 5; OComplete 6] in
    vi_Status (run_identity (U := latin_tables) v0 ops) = IdentityRevoked /\
    vi_Value (run_identity (U := latin_tables) v0 ops) = "did:web:other.example" /\
    identity_fixed v0 (run_identity (U := latin_tables) v0 ops).
Proof.
  eexists. split; [vm_compute; reflexivity|]. cbn zeta. split; [vm_compute; reflexivity|]. split; [vm_compute; reflexivity|].
  eapply (identity_run_invariant (U := latin_tables) "i" "o" "did:web:example.com" 1). vm_compute. reflexivity.
Defined.
