(* ===== verification/Finder.v ===== *)
(** The Finder's projection of feed events into catalog entries:
    [internal/finder/feed], [internal/finder/project] and [internal/ard].

    Go maps with fixed keys are association lists; nil and empty slices are the
    empty list.  Skip details (operator text) are not modelled. *)
From S2P Require Import Prelude GoStrings GoTime GoURL DomainErrors SemVer AnsName.

#[local] Set Default Goal Selector "!".
#[local] Open Scope Z_scope.

(** ** [feed.go]: the event contract *)

Record FeedFunction := { ff_ID : string; ff_Name : string; ff_Tags : list string }.

Record FeedEndpoint := {
  fe_AgentURL : string;
  fe_MetaDataURL : string;
  fe_DocumentationURL : string;
  fe_Protocol : string;
  fe_Functions : list FeedFunction;
  fe_Transports : list string
}.

Record EventItem := {
  ev_LogID : string;
  ev_EventType : string;
  ev_CreatedAt : string;
  ev_ExpiresAt : string;
  ev_AgentID : string;
  ev_AnsName : string;
  ev_AgentHost : string;
  ev_AgentDisplayName : string;
  ev_AgentDescription : string;
  ev_Version : string;
  ev_ProviderID : string;
  ev_Endpoints : list FeedEndpoint
}.

Record EventPageResponse := { pg_Items : list EventItem; pg_LastLogID : string }.

Definition EventTypeAgentRegistered : string := "AGENT_REGISTERED".
Definition EventTypeAgentRenewed : string := "AGENT_RENEWED".
Definition EventTypeAgentRevoked : string := "AGENT_REVOKED".
Definition EventTypeAgentDeprecated : string := "AGENT_DEPRECATED".
Definition FeedProtocolA2A : string := "A2A".
Definition FeedProtocolMCP : string := "MCP".
Definition FeedProtocolHTTPAPI : string := "HTTP-API".

Inductive feed_error := FMissingField | FNotUUID | FNotRFC3339 | FBadAnsName | FHostMismatch.

Definition isHexDigit (ch : Z) : bool := inR 48 ch 57 || inR 97 ch 102 || inR 65 ch 70.

Definition isUUID (s : string) : bool :=
  (String.length s =? 36)%nat &&
  forallb (fun '(i, _, ch) =>
    if existsb (Nat.eqb i) [8; 13; 18; 23]%nat then ch =? 45 else isHexDigit ch) (range_str s).

(** ** [sanitize.go] and [ard/urn.go] *)

(** [unicode.Is(unicode.Cc, r)]. *)
Definition is_Cc (r : Z) : bool := inR 0 r 0x1F || inR 0x7F r 0x9F.

Inductive emit_error := EEmpty | ERune | EParse | ENotAbsolute | EScheme | EUserinfo | EQuery | EFragment | EHost.

Record Options := { o_TLBaseURL : string; o_AllowHTTP : bool }.

(** ** [types.go] *)

Record Attestation := { at_Type : string; at_URI : string; at_MediaType : string; at_Digest : string }.
Record TrustManifest := { tm_Identity : string; tm_IdentityType : string; tm_Attestations : list Attestation }.

(** [Data] and [RepresentativeQueries] are never set by the projection. *)
Record Entry := {
  en_Identifier : string;
  en_DisplayName : string;
  en_Type : string;
  en_URL : string;
  en_Description : string;
  en_Tags : list string;
  en_Capabilities : list string;
  en_Version : string;
  en_UpdatedAt : string;
  en_Metadata : list (string * string);
  en_TrustManifest : option TrustManifest
}.

Definition empty_entry : Entry :=
  {| en_Identifier := ""; en_DisplayName := ""; en_Type := ""; en_URL := ""; en_Description := ""; en_Tags := [];
     en_Capabilities := []; en_Version := ""; en_UpdatedAt := ""; en_Metadata := []; en_TrustManifest := None |}.

Definition Lifecycle : Type := string.
Definition LifecycleActive : Lifecycle := "ACTIVE".
Definition LifecycleRevoked : Lifecycle := "REVOKED".
Definition LifecycleDeprecated : Lifecycle := "DEPRECATED".

Record ProjectedEntry := {
  pe_Entry : Entry;
  pe_Lifecycle : Lifecycle;
  pe_AgentID : string;
  pe_AnsName : string;
  pe_LogID : string;
  pe_CreatedAt : string;
  pe_ExpiresAt : string
}.

Inductive SkipKind := SkipUnknownEventType | SkipMissingLabel | SkipUnknownProtocol | SkipInvalidURL.

Record Projection := { pj_Entries : list ProjectedEntry; pj_Skipped : list SkipKind }.

Definition mediaTypeA2A : string := "application/a2a-agent-card+json".
Definition mediaTypeMCP : string := "application/mcp-server-card+json".
Definition wellKnownA2A : string := "/.well-known/agent-card.json".
Definition wellKnownMCP : string := "/.well-known/mcp.json".
Definition attestationType : string := "ANS-Registration".
Definition attestationMediaType : string := "application/scitt-receipt+cose".
Definition maxCapabilities : nat := 50.
Definition maxTags : nat := 10.

(** ** Sorting: [sort.Strings] and [sort.SliceStable] *)

Fixpoint insert_by {A} (lt : A -> A -> bool) (x : A) (l : list A) : list A :=
  match l with
  | [] => [x]
  | y :: l' => if lt x y then x :: l else y :: insert_by lt x l'
  end.

(** Stable: an element goes after the elements it is not less than. *)
Definition stable_sort {A} (lt : A -> A -> bool) (l : list A) : list A :=
  fold_left (fun acc x => insert_by lt x acc) l [].

Definition str_lt (a b : string) : bool := String.ltb a b.

(** [url.PathEscape]. *)
Definition path_segment_byte (c : ascii) : bool :=
  is_alnum c || existsb (Ascii.eqb c) ["-"; "_"; "."; "~"; "$"; "&"; "+"; "="; ":"; "@"]%char.

Definition upper_hex (d : Z) : ascii := if d <? 10 then chr (48 + d) else chr (55 + d).

Fixpoint PathEscape (s : string) : string :=
  match s with
  | EmptyString => ""
  | String c s' =>
      (if path_segment_byte c then String c ""
       else String "%" (String (upper_hex (byteZ c / 16)) (String (upper_hex (byteZ c mod 16)) ""))) +:+ PathEscape s'
  end.

Section Finder.
Context `{U : UnicodeTables}.

Definition ValidateIdentityKeys (e : EventItem) : result feed_error unit :=
  if is_blank (ev_LogID e) then Err FMissingField else
  if negb (isUUID (ev_AgentID e)) then Err FNotUUID else
  match ParseRFC3339 (ev_CreatedAt e) with
  | None => Err FNotRFC3339
  | Some _ =>
      match ParseAnsName (ev_AnsName e) with
      | Err _ => Err FBadAnsName
      | Ok parsed => if String.eqb (AnsName_FQDN parsed) (ToLower (ev_AgentHost e)) then Ok tt else Err FHostMismatch
      end
  end.

Definition EventItem_Validate (e : EventItem) : result feed_error unit :=
  if existsb is_blank [ev_EventType e; ev_AgentHost e; ev_Version e] then Err FMissingField
  else ValidateIdentityKeys e.

Definition isDisallowedRune (r : Z) : bool := is_Cc r || uni_Cf r.

Definition sanitizeText (s : string) : string :=
  encode_runes (filter (fun r => isDisallowedRune r = false) (runes s)).

Definition validateEmittedURL (raw attestedHost : string) (allowHTTP : bool) : result emit_error string :=
  if is_blank raw then Err EEmpty else
  if existsb isDisallowedRune (runes raw) then Err ERune else
  match Parse raw with
  | None => Err EParse
  | Some u =>
      if String.eqb (u_Scheme u) "" || String.eqb (u_Host u) "" then Err ENotAbsolute else
      if negb (String.eqb (u_Scheme u) "https" || (String.eqb (u_Scheme u) "http" && allowHTTP)) then Err EScheme else
      if u_HasUser u then Err EUserinfo else
      if negb (String.eqb (u_RawQuery u) "") || u_ForceQuery u then Err EQuery else
      if negb (String.eqb (u_Fragment u) "") then Err EFragment else
      if negb (String.eqb (ToLower (URL_Hostname u)) (ToLower attestedHost)) then Err EHost else
      Ok raw
  end.

Definition Labelize (s : string) : string :=
  let s := TrimSpace s in
  if String.eqb s "" then "" else Join (Fields s) "-".

Definition MintURN (agentHost sanitizedDisplayName : string) : option string :=
  let label := Labelize sanitizedDisplayName in
  if String.eqb label "" then None
  else Some ("urn:air:" +:+ ToLower agentHost +:+ ":agents:" +:+ label).

(** ** [project.go] *)

Definition tombstone (item : EventItem) (lc : Lifecycle) : Projection :=
  let host := ToLower (ev_AgentHost item) in
  let e := match MintURN host (sanitizeText (ev_AgentDisplayName item)) with
           | Some urn => {| en_Identifier := urn; en_DisplayName := ""; en_Type := ""; en_URL := ""; en_Description := "";
                            en_Tags := []; en_Capabilities := []; en_Version := ""; en_UpdatedAt := "";
                            en_Metadata := []; en_TrustManifest := None |}
           | None => empty_entry
           end in
  {| pj_Entries := [{| pe_Entry := e; pe_Lifecycle := lc; pe_AgentID := ev_AgentID item; pe_AnsName := ev_AnsName item;
                       pe_LogID := ev_LogID item; pe_CreatedAt := ev_CreatedAt item; pe_ExpiresAt := ev_ExpiresAt item |}];
     pj_Skipped := [] |}.

Definition protocolArtifact (protocol : string) : option (string * string) :=
  if String.eqb protocol FeedProtocolA2A then Some (mediaTypeA2A, wellKnownA2A) else
  if String.eqb protocol FeedProtocolMCP then Some (mediaTypeMCP, wellKnownMCP) else None.

Definition selectURL (ep : FeedEndpoint) (attestedHost wellKnown : string) (opts : Options) : result SkipKind string :=
  let candidate := if negb (is_blank (fe_MetaDataURL ep)) then fe_MetaDataURL ep
                   else "https://" +:+ attestedHost +:+ wellKnown in
  match validateEmittedURL candidate attestedHost (o_AllowHTTP opts) with
  | Ok validated => Ok validated
  | Err _ => Err SkipInvalidURL
  end.

Definition buildMetadata (host : string) (item : EventItem) (ep : FeedEndpoint) (opts : Options) : list (string * string) :=
  [("ansName", sanitizeText (ev_AnsName item)); ("logId", sanitizeText (ev_LogID item))] ++
  match validateEmittedURL (fe_AgentURL ep) host (o_AllowHTTP opts) with
  | Ok agentURL => [("agentUrl", agentURL)]
  | Err _ => []
  end.

Definition buildTrustManifest (host agentID : string) (opts : Options) : TrustManifest :=
  {| tm_Identity := "https://" +:+ host; tm_IdentityType := "https";
     tm_Attestations :=
       if negb (is_blank (o_TLBaseURL opts)) then
         [{| at_Type := attestationType;
             at_URI := TrimRightByte (o_TLBaseURL opts) "/" +:+ "/v1/agents/" +:+ PathEscape agentID +:+ "/receipt";
             at_MediaType := attestationMediaType; at_Digest := "" |}]
       else [] |}.

(** The collection loop of [dedupSortCap]: first occurrences of the non-empty
    sanitized strings. *)
Definition collect (out : list string) (raw : string) : list string :=
  let s := sanitizeText raw in
  if String.eqb s "" then out else if existsb (String.eqb s) out then out else out ++ [s].

Definition dedupSortCap (l : list string) (limit : nat) : list string :=
  take limit (stable_sort str_lt (fold_left collect l [])).

Definition capabilitiesFrom (fns : list FeedFunction) : list string := dedupSortCap (ff_Name <$> fns) maxCapabilities.
Definition tagsFrom (fns : list FeedFunction) : list string := dedupSortCap (flat_map ff_Tags fns) maxTags.

Record activeContext := {
  ac_item : EventItem;
  ac_opts : Options;
  ac_host : string;
  ac_urn : string;
  ac_displayName : string;
  ac_description : string;
  ac_version : string;
  ac_trust : TrustManifest
}.

(** [Ok (Some e)]: an entry; [Ok None]: recognised but not discoverable;
    [Err k]: skipped. *)
Definition projectEndpoint (ctx : activeContext) (ep : FeedEndpoint) : result SkipKind (option ProjectedEntry) :=
  match protocolArtifact (fe_Protocol ep) with
  | None => if String.eqb (fe_Protocol ep) FeedProtocolHTTPAPI then Ok None else Err SkipUnknownProtocol
  | Some (mediaType, wellKnown) =>
      artifactURL ← selectURL ep (ac_host ctx) wellKnown (ac_opts ctx);
      let entry := {| en_Identifier := ac_urn ctx; en_DisplayName := ac_displayName ctx; en_Type := mediaType;
                      en_URL := artifactURL; en_Description := ac_description ctx;
                      en_Tags := tagsFrom (fe_Functions ep); en_Capabilities := capabilitiesFrom (fe_Functions ep);
                      en_Version := ac_version ctx; en_UpdatedAt := ev_CreatedAt (ac_item ctx);
                      en_Metadata := buildMetadata (ac_host ctx) (ac_item ctx) ep (ac_opts ctx);
                      en_TrustManifest := Some (ac_trust ctx) |} in
      Ok (Some {| pe_Entry := entry; pe_Lifecycle := LifecycleActive; pe_AgentID := ev_AgentID (ac_item ctx);
                  pe_AnsName := ev_AnsName (ac_item ctx); pe_LogID := ev_LogID (ac_item ctx);
                  pe_CreatedAt := ev_CreatedAt (ac_item ctx); pe_ExpiresAt := ev_ExpiresAt (ac_item ctx) |})
  end.

Definition entry_lt (a b : ProjectedEntry) : bool :=
  let a := pe_Entry a in
  let b := pe_Entry b in
  if negb (String.eqb (en_Identifier a) (en_Identifier b)) then str_lt (en_Identifier a) (en_Identifier b) else
  if negb (String.eqb (en_Type a) (en_Type b)) then str_lt (en_Type a) (en_Type b) else
  str_lt (en_URL a) (en_URL b).

Definition sortEntries (l : list ProjectedEntry) : list ProjectedEntry := stable_sort entry_lt l.

(** The endpoint loop of [projectActive]: entries and skips so far. *)
Definition endpoint_step (ctx : activeContext) (st : list ProjectedEntry * list SkipKind) (ep : FeedEndpoint)
  : list ProjectedEntry * list SkipKind :=
  match projectEndpoint ctx ep with
  | Err k => (st.1, st.2 ++ [k])
  | Ok (Some e) => (st.1 ++ [e], st.2)
  | Ok None => st
  end.

Definition projectActive (item : EventItem) (opts : Options) : Projection :=
  let host := ToLower (ev_AgentHost item) in
  let displayName := sanitizeText (ev_AgentDisplayName item) in
  match MintURN host displayName with
  | None => {| pj_Entries := []; pj_Skipped := [SkipMissingLabel] |}
  | Some urn =>
      let ctx := {| ac_item := item; ac_opts := opts; ac_host := host; ac_urn := urn; ac_displayName := displayName;
                    ac_description := sanitizeText (ev_AgentDescription item);
                    ac_version := sanitizeText (ev_Version item);
                    ac_trust := buildTrustManifest host (ev_AgentID item) opts |} in
      let '(entries, skips) := fold_left (endpoint_step ctx) (ev_Endpoints item) ([], []) in
      {| pj_Entries := sortEntries entries; pj_Skipped := skips |}
  end.

Definition FromEvent (item : EventItem) (opts : Options) : result feed_error Projection :=
  _ ← ValidateIdentityKeys item;
  if String.eqb (ev_EventType item) EventTypeAgentRevoked then Ok (tombstone item LifecycleRevoked) else
  if String.eqb (ev_EventType item) EventTypeAgentDeprecated then Ok (tombstone item LifecycleDeprecated) else
  if String.eqb (ev_EventType item) EventTypeAgentRegistered || String.eqb (ev_EventType item) EventTypeAgentRenewed then
    _ ← EventItem_Validate item;
    Ok (projectActive item opts)
  else Ok {| pj_Entries := []; pj_Skipped := [SkipUnknownEventType] |}.
End Finder.
