(* ===== verification/FinderSpec.v ===== *)
(** What the Finder's projection guarantees: revocations are never lost, every
    emitted URL is on the attested host, every endpoint is accounted for, and
    emitted text carries no control or format characters. *)
From S2P Require Import Prelude GoStrings Utf8 GoTime GoURL DomainErrors SemVer AnsName Finder.
From Stdlib Require Import Sorted.

#[local] Set Default Goal Selector "!".
#[local] Open Scope Z_scope.

(** ** Sorting *)

Section Sorting.
Context {A : Type} (lt : A -> A -> bool).

Lemma insert_by_perm x l : insert_by lt x l ≡ₚ x :: l.
Proof.
  induction l as [|y l IH]; [done|]. simpl. destruct (lt x y); [done|]. rewrite IH. constructor.
Qed.

Lemma stable_sort_perm l : stable_sort lt l ≡ₚ l.
Proof.
  unfold stable_sort. assert (G : forall acc, fold_left (fun acc x => insert_by lt x acc) l acc ≡ₚ acc ++ l).
  { induction l as [|x l IH]; intros acc; simpl; [by rewrite app_nil_r|].
    rewrite IH, insert_by_perm. apply Permutation_middle. }
  apply (G []).
Qed.

Definition sorted_by (l : list A) : Prop := StronglySorted (fun a b => lt b a = false) l.

Hypothesis lt_asym : forall a b, lt a b = true -> lt b a = false.
Hypothesis lt_neg_trans : forall a b c, lt b a = false -> lt c b = false -> lt c a = false.

Lemma insert_by_sorted x l : sorted_by l -> sorted_by (insert_by lt x l).
Proof.
  unfold sorted_by. induction 1 as [|y l Hs IH Hy]; simpl; [repeat constructor|].
  destruct (lt x y) eqn:E.
  - constructor; [by constructor|]. constructor; [by apply lt_asym|].
    eapply Forall_impl; [exact Hy|]. simpl. intros z Hz. eapply lt_neg_trans; [|exact Hz]. by apply lt_asym.
  - constructor; [done|]. rewrite insert_by_perm. by constructor.
Qed.

Lemma stable_sort_sorted l : sorted_by (stable_sort lt l).
Proof.
  unfold stable_sort. assert (G : forall acc, sorted_by acc -> sorted_by (fold_left (fun acc x => insert_by lt x acc) l acc)).
  { induction l as [|x l IH]; intros acc H; simpl; [done|]. apply IH. by apply insert_by_sorted. }
  apply G. constructor.
Qed.
End Sorting.

(** [String.compare] is a strict total order. *)
Lemma str_lt_spec a b : str_lt a b = true <-> String.compare a b = Lt.
Proof. unfold str_lt, String.ltb. by destruct (String.compare a b). Qed.

Lemma ascii_compare_spec c d : Ascii.compare c d = (byteZ c ?= byteZ d).
Proof. unfold Ascii.compare, byteZ. by rewrite N2Z.inj_compare. Qed.

Lemma str_lt_trans a b c : str_lt a b = true -> str_lt b c = true -> str_lt a c = true.
Proof.
  rewrite !str_lt_spec. revert b c.
  induction a as [|x a IH]; intros [|y b] [|z c]; simpl; try done.
  rewrite !ascii_compare_spec.
  destruct (Z.compare_spec (byteZ x) (byteZ y)) as [E1|E1|E1]; [| |done];
  destruct (Z.compare_spec (byteZ y) (byteZ z)) as [E2|E2|E2]; try done; intros H1 H2;
  destruct (Z.compare_spec (byteZ x) (byteZ z)); try lia; [|done..]. by eapply IH.
Qed.

Lemma str_lt_asym a b : str_lt a b = true -> str_lt b a = false.
Proof.
  rewrite str_lt_spec. intros H. apply not_true_iff_false. rewrite str_lt_spec.
  rewrite String.compare_antisym, H. done.
Qed.

Lemma str_lt_total a b : str_lt a b = false -> str_lt b a = false -> a = b.
Proof.
  intros H1%not_true_iff_false H2%not_true_iff_false. rewrite str_lt_spec in *.
  rewrite String.compare_antisym in H2. apply String.compare_eq_iff.
  by destruct (String.compare a b).
Qed.

Lemma str_lt_neg_trans a b c : str_lt b a = false -> str_lt c b = false -> str_lt c a = false.
Proof.
  intros H1 H2. apply not_true_iff_false. intros H3.
  destruct (str_lt a b) eqn:E1.
  - assert (str_lt c b = true); [by eapply str_lt_trans|congruence].
  - rewrite (str_lt_total a b) in H3 by done. congruence.
Qed.

Lemma str_lt_irrefl a : str_lt a a = false.
Proof. destruct (str_lt a a) eqn:E; [|done]. by rewrite (str_lt_asym a a) in E. Qed.

(** ** [dedupSortCap] *)

Section Text.
Context `{U : UnicodeTables}.

(** No control ([Cc]) and no format ([Cf]) character. *)
Definition clean_text (s : string) : Prop := Forall (fun r => isDisallowedRune r = false) (runes s).

Lemma kept_runes_valid s : Forall (fun r => ValidRune r = true) (filter (fun r => isDisallowedRune r = false) (runes s)).
Proof.
  pose proof (runes_valid s) as H. rewrite Forall_forall in *. intros r [_ Hr]%list_elem_of_filter. auto.
Qed.

Lemma sanitizeText_clean s : clean_text (sanitizeText s).
Proof.
  unfold clean_text, sanitizeText. rewrite runes_encode.
  - apply Forall_forall. by intros r [? _]%list_elem_of_filter.
  - apply kept_runes_valid.
Qed.

Lemma sanitizeText_runes s : runes (sanitizeText s) = filter (fun r => isDisallowedRune r = false) (runes s).
Proof. apply runes_encode, kept_runes_valid. Qed.

Lemma sanitizeText_idem s : sanitizeText (sanitizeText s) = sanitizeText s.
Proof.
  unfold sanitizeText at 1 3. rewrite sanitizeText_runes. f_equal.
  rewrite list_filter_filter_r; [done|]. done.
Qed.

Definition collected (l : list string) : list string := fold_left collect l [].

Lemma collected_spec l :
  NoDup (collected l) /\ forall s, s ∈ collected l <-> s <> "" /\ exists raw, raw ∈ l /\ s = sanitizeText raw.
Proof.
  unfold collected.
  assert (G : forall acc, NoDup acc -> NoDup (fold_left collect l acc) /\
    forall s, s ∈ fold_left collect l acc <-> s ∈ acc \/ (s <> "" /\ exists raw, raw ∈ l /\ s = sanitizeText raw)).
  { induction l as [|raw l IH]; intros acc Ha; cbn [fold_left]; [set_solver|].
    unfold collect at 2 4. destruct (String.eqb_spec (sanitizeText raw) "") as [E|E].
    { destruct (IH acc Ha) as [I1 I2]. split; [done|]. intros s. rewrite I2. set_solver. }
    destruct (existsb (String.eqb (sanitizeText raw)) acc) eqn:Ex.
    { apply existsb_eqb_elem in Ex. destruct (IH acc Ha) as [I1 I2]. split; [done|]. intros s. rewrite I2. set_solver. }
    apply not_true_iff_false in Ex. rewrite existsb_eqb_elem in Ex.
    destruct (IH (acc ++ [sanitizeText raw])) as [I1 I2].
    { apply NoDup_app. split_and!; [done|set_solver|]. repeat constructor. set_solver. }
    split; [done|]. intros s. rewrite I2. set_solver. }
  destruct (G [] (NoDup_nil_2)) as [G1 G2]. split; [done|]. intros s. rewrite G2. set_solver.
Qed.

Lemma sorted_take {A} (R : A -> A -> Prop) n l : StronglySorted R l -> StronglySorted R (take n l).
Proof.
  revert n. induction l as [|x l IH]; intros [|n] H; simpl; try constructor; inversion_clear H; auto using Forall_take.
Qed.

(** Strictly increasing: sorted without duplicates. *)
Lemma strictly_sorted l : NoDup l -> StronglySorted (fun a b => str_lt b a = false) l ->
  StronglySorted (fun a b => str_lt a b = true) l.
Proof.
  intros Hn. induction 1 as [|x l Hs IH Hx]; [constructor|]. apply NoDup_cons in Hn as [Hin Hn].
  constructor; [auto|]. rewrite Forall_forall in *. intros y Hy. specialize (Hx y Hy).
  destruct (str_lt x y) eqn:E; [done|]. by rewrite (str_lt_total x y) in Hin.
Qed.

(** [dedupSortCap] returns the [limit] smallest of the distinct non-empty
    sanitized values, in increasing order. *)
Lemma dedupSortCap_spec l limit :
  let out := dedupSortCap l limit in
  (length out <= limit)%nat /\ StronglySorted (fun a b => str_lt a b = true) out /\
  (forall s, s ∈ out -> s <> "" /\ clean_text s /\ exists raw, raw ∈ l /\ s = sanitizeText raw) /\
  (forall raw, raw ∈ l -> sanitizeText raw <> "" ->
    sanitizeText raw ∈ out \/ (length out = limit /\ forall s, s ∈ out -> str_lt s (sanitizeText raw) = true)).
Proof.
  cbn zeta. unfold dedupSortCap. fold (collected l). destruct (collected_spec l) as [Hn Hc].
  set (sl := stable_sort str_lt (collected l)).
  assert (Hp : sl ≡ₚ collected l) by apply stable_sort_perm.
  assert (Hs : StronglySorted (fun a b => str_lt a b = true) sl).
  { apply strictly_sorted; [by rewrite Hp|]. apply stable_sort_sorted; [exact str_lt_asym|exact str_lt_neg_trans]. }
  split_and!.
  - rewrite length_take. lia.
  - by apply sorted_take.
  - intros s Hi. assert (Hi' : s ∈ sl) by (rewrite <- (take_drop limit sl); set_solver). rewrite Hp, Hc in Hi'. clear Hi. rename Hi' into Hi.
    destruct Hi as (? & raw & ? & ->). split_and!; eauto using sanitizeText_clean.
  - intros raw Hr Hne. assert (Hin : sanitizeText raw ∈ sl) by (rewrite Hp, Hc; eauto).
    rewrite <- (take_drop limit sl), elem_of_app in Hin. destruct Hin as [|Hd]; [by left|]. right.
    assert (Hlt : (limit < length sl)%nat).
    { destruct (decide (limit < length sl)%nat); [done|]. rewrite drop_ge in Hd by lia. set_solver. }
    split; [rewrite length_take; lia|]. intros s Hs'.
    rewrite <- (take_drop limit sl) in Hs. clear -Hs Hd Hs'.
    induction (take limit sl) as [|x t IH]; [set_solver|]. simpl in Hs. inversion_clear Hs as [|? ? H1 H2].
    rewrite Forall_app, !Forall_forall in H2. apply elem_of_cons in Hs' as [->|?]; [by apply H2|auto].
Qed.

(** ** The emitted entries *)

(** A URL a projected entry may carry: absolute, https (or http where allowed),
    nothing but host and path, on host [h]. *)
Definition url_on_host (h : string) (allowHTTP : bool) (raw : string) : Prop :=
  exists u, Parse raw = Some u /\ (u_Scheme u = "https" \/ (u_Scheme u = "http" /\ allowHTTP = true)) /\
    u_HasUser u = false /\ u_RawQuery u = "" /\ u_ForceQuery u = false /\ u_Fragment u = "" /\
    ToLower (URL_Hostname u) = h /\
    (is_ascii_str (URL_Hostname u) = true -> str_map lower_byte (URL_Hostname u) = h) /\
    clean_text raw.

Lemma validateEmittedURL_Ok raw h allow v :
  validateEmittedURL raw h allow = Ok v -> v = raw /\ url_on_host (ToLower h) allow raw.
Proof.
  unfold validateEmittedURL. case_if; [done|]. destruct (existsb isDisallowedRune (runes raw)) eqn:Er; [done|].
  destruct (Parse raw) as [u|] eqn:Eu; [|done]. repeat (case_if; [done|]). intros [= <-]. split; [done|].
  exists u. b2p. split_and!; try done.
  - destruct (String.eqb_spec (u_Scheme u) "https"); [by left|]. right.
    destruct (String.eqb_spec (u_Scheme u) "http"); [|done]. by destruct allow.
  - intros Ha. by rewrite <- ToLower_ascii.
  - unfold clean_text. apply Forall_forall. intros r Hr. apply not_true_iff_false. intros Hd.
    apply not_true_iff_false in Er. apply Er. apply existsb_exists. exists r. by rewrite <- list_elem_of_In.
Qed.

Lemma emitted_clean raw h allow v : validateEmittedURL raw h allow = Ok v -> clean_text v.
Proof. intros [-> (u & H)]%validateEmittedURL_Ok. apply H. Qed.

Lemma endpoint_fold ctx eps acc :
  let r := fold_left (endpoint_step ctx) eps acc in
  r.1 = acc.1 ++ omap (fun ep => match projectEndpoint ctx ep with Ok (Some e) => Some e | _ => None end) eps /\
  r.2 = acc.2 ++ omap (fun ep => match projectEndpoint ctx ep with Err k => Some k | _ => None end) eps.
Proof.
  revert acc. induction eps as [|ep eps IH]; intros acc; cbn [fold_left]; [by rewrite !app_nil_r|].
  destruct (IH (endpoint_step ctx acc ep)) as [-> ->]. unfold endpoint_step. cbn [omap list_omap].
  destruct (projectEndpoint ctx ep) as [[e|]|k]; cbn [fst snd]; by rewrite <- ?app_assoc.
Qed.

Definition active_context (item : EventItem) (opts : Options) (urn : string) : activeContext :=
  let host := ToLower (ev_AgentHost item) in
  {| ac_item := item; ac_opts := opts; ac_host := host; ac_urn := urn;
     ac_displayName := sanitizeText (ev_AgentDisplayName item);
     ac_description := sanitizeText (ev_AgentDescription item);
     ac_version := sanitizeText (ev_Version item);
     ac_trust := buildTrustManifest host (ev_AgentID item) opts |}.

Definition is_active_event (item : EventItem) : bool :=
  String.eqb (ev_EventType item) EventTypeAgentRegistered || String.eqb (ev_EventType item) EventTypeAgentRenewed.

(** The URN an active event's entries share. *)
Definition event_urn (item : EventItem) : option string :=
  MintURN (ToLower (ev_AgentHost item)) (sanitizeText (ev_AgentDisplayName item)).

Lemma projectActive_entries item opts urn :
  event_urn item = Some urn ->
  pj_Entries (projectActive item opts) ≡ₚ
    omap (fun ep => match projectEndpoint (active_context item opts urn) ep with Ok (Some e) => Some e | _ => None end)
      (ev_Endpoints item) /\
  pj_Skipped (projectActive item opts) =
    omap (fun ep => match projectEndpoint (active_context item opts urn) ep with Err k => Some k | _ => None end)
      (ev_Endpoints item).
Proof.
  unfold event_urn. intros E. unfold projectActive. rewrite E. fold (active_context item opts urn).
  pose proof (endpoint_fold (active_context item opts urn) (ev_Endpoints item) ([], [])) as [H1 H2].
  destruct (fold_left _ _ _) as [es ks]. cbn in H1, H2. subst. cbn [pj_Entries pj_Skipped]. split; [|done].
  apply stable_sort_perm.
Qed.

Lemma FromEvent_Ok item opts p :
  FromEvent item opts = Ok p ->
  ValidateIdentityKeys item = Ok tt /\
  p = if String.eqb (ev_EventType item) EventTypeAgentRevoked then tombstone item LifecycleRevoked else
      if String.eqb (ev_EventType item) EventTypeAgentDeprecated then tombstone item LifecycleDeprecated else
      if is_active_event item then projectActive item opts
      else {| pj_Entries := []; pj_Skipped := [SkipUnknownEventType] |}.
Proof.
  unfold FromEvent, is_active_event. rewrite bind_Ok. intros ([] & Hk & H). split; [done|].
  repeat (case_if; [congruence|]). case_if; [|congruence].
  apply bind_Ok in H as (? & _ & H). congruence.
Qed.

Lemma active_event_type item :
  is_active_event item = true ->
  String.eqb (ev_EventType item) EventTypeAgentRevoked = false /\
  String.eqb (ev_EventType item) EventTypeAgentDeprecated = false.
Proof. unfold is_active_event. intros [E%String.eqb_eq|E%String.eqb_eq]%orb_true_iff; by rewrite E. Qed.

(** An entry of an active event's projection comes from one of its endpoints. *)
Lemma active_entry item opts p pe :
  FromEvent item opts = Ok p -> pe ∈ pj_Entries p -> is_active_event item = true ->
  exists urn ep, event_urn item = Some urn /\ ep ∈ ev_Endpoints item /\
    projectEndpoint (active_context item opts urn) ep = Ok (Some pe).
Proof.
  intros [_ ->]%FromEvent_Ok Hin Ha. destruct (active_event_type item Ha) as [E1 E2]. rewrite E1, E2, Ha in Hin.
  destruct (event_urn item) as [urn|] eqn:Eu.
  - destruct (projectActive_entries item opts urn Eu) as [HP _]. rewrite HP in Hin.
    apply list_elem_of_omap in Hin as (ep & Hep & H). exists urn, ep. split_and!; [done|done|].
    by destruct (projectEndpoint _ ep) as [[?|]|]; simplify_eq.
  - unfold projectActive in Hin. unfold event_urn in Eu. rewrite Eu in Hin. cbn in Hin. set_solver.
Qed.

Lemma projectEndpoint_Some ctx ep pe :
  projectEndpoint ctx ep = Ok (Some pe) ->
  exists mt wk url, protocolArtifact (fe_Protocol ep) = Some (mt, wk) /\
    selectURL ep (ac_host ctx) wk (ac_opts ctx) = Ok url /\
    pe_Entry pe = {| en_Identifier := ac_urn ctx; en_DisplayName := ac_displayName ctx; en_Type := mt;
                      en_URL := url; en_Description := ac_description ctx;
                      en_Tags := tagsFrom (fe_Functions ep); en_Capabilities := capabilitiesFrom (fe_Functions ep);
                      en_Version := ac_version ctx; en_UpdatedAt := ev_CreatedAt (ac_item ctx);
                      en_Metadata := buildMetadata (ac_host ctx) (ac_item ctx) ep (ac_opts ctx);
                      en_TrustManifest := Some (ac_trust ctx) |} /\
    pe_Lifecycle pe = LifecycleActive /\ pe_AgentID pe = ev_AgentID (ac_item ctx) /\
    pe_AnsName pe = ev_AnsName (ac_item ctx) /\ pe_LogID pe = ev_LogID (ac_item ctx) /\
    pe_CreatedAt pe = ev_CreatedAt (ac_item ctx).
Proof.
  unfold projectEndpoint. destruct (protocolArtifact (fe_Protocol ep)) as [[mt wk]|]; [|by case_if].
  rewrite bind_Ok. intros (url & Hu & [= <-]). exists mt, wk, url. done.
Qed.

Lemma ValidateIdentityKeys_Ok item :
  ValidateIdentityKeys item = Ok tt ->
  exists n, ParseAnsName (ev_AnsName item) = Ok n /\ AnsName_FQDN n = ToLower (ev_AgentHost item).
Proof.
  unfold ValidateIdentityKeys. case_if; [done|]. case_if; [done|]. case_match; [|done].
  destruct (ParseAnsName (ev_AnsName item)) as [n|] eqn:E; [|done]. case_if; [|done]. b2p. eauto.
Qed.

(** The event keys every projected entry carries. *)
Definition carries_keys (item : EventItem) (pe : ProjectedEntry) : Prop :=
  pe_AgentID pe = ev_AgentID item /\ pe_AnsName pe = ev_AnsName item /\ pe_LogID pe = ev_LogID item /\
  pe_CreatedAt pe = ev_CreatedAt item.

Lemma projection_keys item opts p pe :
  FromEvent item opts = Ok p -> pe ∈ pj_Entries p ->
  carries_keys item pe /\ (pe_Lifecycle pe = LifecycleActive <-> is_active_event item = true).
Proof.
  intros Hp Hin. destruct (is_active_event item) eqn:Ha.
  - destruct (active_entry item opts p pe Hp Hin Ha) as (urn & ep & _ & _ & HE).
    apply projectEndpoint_Some in HE as (? & ? & ? & _ & _ & _ & -> & ? & ? & ? & ?). done.
  - apply FromEvent_Ok in Hp as [_ ->]. rewrite Ha in Hin.
    case_if_in Hin; [|case_if_in Hin; [|by apply not_elem_of_nil in Hin]];
      apply list_elem_of_singleton in Hin as ->; done.
Qed.

(** A revocation or deprecation whose identity keys are valid is never lost:
    whatever its display name, version, host spelling or endpoints, it projects
    to exactly one tombstone of its lifecycle carrying the event's keys and no
    URL.  Conversely every projected entry carries its event's keys and is
    ACTIVE exactly when the event is a registration or a renewal; an event with
    invalid identity keys projects to nothing but its error. *)
Theorem projection_lifecycle item opts :
  match ValidateIdentityKeys item with
  | Err e => FromEvent item opts = Err e
  | Ok _ =>
      (forall lc, (ev_EventType item, lc) ∈ [(EventTypeAgentRevoked, LifecycleRevoked); (EventTypeAgentDeprecated, LifecycleDeprecated)] ->
        exists pe, FromEvent item opts = Ok {| pj_Entries := [pe]; pj_Skipped := [] |} /\
          pe_Lifecycle pe = lc /\ carries_keys item pe /\ en_URL (pe_Entry pe) = "") /\
      (forall p pe, FromEvent item opts = Ok p -> pe ∈ pj_Entries p ->
        carries_keys item pe /\ (pe_Lifecycle pe = LifecycleActive <-> is_active_event item = true))
  end.
Proof.
  destruct (ValidateIdentityKeys item) as [[]|e] eqn:E; [|unfold FromEvent; by rewrite E]. split.
  - intros lc Hin. unfold FromEvent. rewrite E. cbn [mbind result_bind].
    rewrite !elem_of_cons, elem_of_nil in Hin. destruct Hin as [[= -> ->]|[[= -> ->]|[]]].
    + eexists. split; [reflexivity|]. cbn. split_and!; try done. by case_match.
    + eexists. split; [reflexivity|]. cbn. split_and!; try done. by case_match.
  - intros p pe. apply projection_keys.
Qed.

End Text.

Section Attested.
Context {U : UnicodeTables} {UL : UnicodeLaws U}.

(** The name an accepted event attests is a plain DNS name. *)
Lemma attested_host item n :
  ParseAnsName (ev_AnsName item) = Ok n -> AnsName_FQDN n = ToLower (ev_AgentHost item) ->
  agentHost n = ToLower (ev_AgentHost item) /\ agentHost n <> "" /\
  str_forall dns_byte (agentHost n) = true /\ ToLower (agentHost n) = agentHost n.
Proof.
  intros [_ [Hv Hl]]%ParseAnsName_wf Hf. change (AnsName_FQDN n) with (agentHost n) in Hf. split; [done|].
  pose proof (validateAgentHost_Ok _ Hv) as (Hne & _ & _ & Hc & _). split_and!; [done| |by apply ToLower_stable].
  eapply str_forall_impl; [|apply (str_forall_and _ _ _ Hc Hl)]. clear. all_bytes.
Qed.

(** Every URL of a projected ACTIVE entry, its artifact URL and the agent URL
    of its metadata, is an https URL (http only where allowed) without userinfo,
    query or fragment, whose host is the FQDN of the event's ANS name; the entry
    is of one of the two discoverable media types and its trust identity is that
    same host. *)
Theorem projected_entries_attested item opts p pe :
  FromEvent item opts = Ok p -> pe ∈ pj_Entries p -> pe_Lifecycle pe = LifecycleActive ->
  exists n, ParseAnsName (pe_AnsName pe) = Ok n /\
    url_on_host (AnsName_FQDN n) (o_AllowHTTP opts) (en_URL (pe_Entry pe)) /\
    (forall v, ("agentUrl", v) ∈ en_Metadata (pe_Entry pe) -> url_on_host (AnsName_FQDN n) (o_AllowHTTP opts) v) /\
    en_Type (pe_Entry pe) ∈ [mediaTypeA2A; mediaTypeMCP] /\
    (exists tm, en_TrustManifest (pe_Entry pe) = Some tm /\ tm_Identity tm = "https://" +:+ AnsName_FQDN n).
Proof.
  intros Hp Hin Hl. pose proof (FromEvent_Ok _ _ _ Hp) as [Hk _].
  destruct (ValidateIdentityKeys_Ok _ Hk) as (n & Hn & Hf).
  destruct (projection_keys item opts p pe Hp Hin) as [(_ & -> & _) Ha]. apply Ha in Hl. exists n. split; [done|].
  destruct (attested_host item n Hn Hf) as (Hh & _ & _ & Hlow). change (AnsName_FQDN n) with (agentHost n).
  destruct (active_entry item opts p pe Hp Hin Hl) as (urn & ep & _ & _ & HE).
  apply projectEndpoint_Some in HE as (mt & wk & url & Hart & Hsel & -> & _).
  cbn [active_context ac_host ac_opts ac_item ac_trust en_URL en_Metadata en_Type en_TrustManifest] in *.
  rewrite <- Hh in *. split_and!.
  - unfold selectURL in Hsel. case_match eqn:Hv; [|done]. simplify_eq.
    apply validateEmittedURL_Ok in Hv as [-> Hv]. by rewrite Hlow in Hv.
  - intros v [Hv|Hv]%elem_of_app; [set_solver|]. case_match eqn:Hva; [|set_solver].
    apply list_elem_of_singleton in Hv as [= ->].
    apply validateEmittedURL_Ok in Hva as [-> Hva]. by rewrite Hlow in Hva.
  - unfold protocolArtifact in Hart. repeat case_if_in Hart; simplify_eq; set_solver.
  - eauto.
Qed.

(** Text of printable ASCII bytes has no disallowed rune. *)
Lemma printable_clean s :
  str_forall (fun c => is_ascii_byte c && negb (is_ctl c)) s = true -> existsb isDisallowedRune (runes s) = false.
Proof.
  intros H. rewrite runes_ascii by (eapply str_forall_impl; [|exact H]; clear; all_bytes).
  induction s as [|c s IH]; [done|]. cbn [str_forall bytes_of existsb] in *.
  apply andb_true_iff in H as [Hc Hs]. rewrite (IH Hs), orb_false_r. unfold isDisallowedRune.
  rewrite uni_Cf_ascii, orb_false_r.
  - revert Hc. clear. revert c. all_bytes.
  - apply andb_true_iff in Hc as [Hc _]. unfold is_ascii_byte in Hc. b2p. done.
Qed.

(** The well-known fallback URL always passes the policy on an attested host. *)
Lemma fallback_valid h t allow :
  h <> "" -> str_forall dns_byte h = true -> ToLower h = h -> t ∈ [".well-known/agent-card.json"; ".well-known/mcp.json"] ->
  validateEmittedURL ("https://" +:+ h +:+ "/" +:+ t) h allow = Ok ("https://" +:+ h +:+ "/" +:+ t).
Proof.
  intros Hn Hb Hl Ht. set (raw := "https://" +:+ h +:+ "/" +:+ t).
  assert (Hplain : str_forall (fun c => is_ascii_byte c && negb (is_ctl c)) raw = true).
  { unfold raw. rewrite !str_forall_app, (str_forall_impl dns_byte _ h); [|clear; all_bytes|done].
    rewrite !elem_of_cons, elem_of_nil in Ht. by destruct Ht as [->|[->|[]]]. }
  assert (Ha : is_ascii_str raw = true) by (eapply str_forall_impl; [|exact Hplain]; clear; all_bytes).
  unfold validateEmittedURL.
  assert (is_blank raw = false) as ->.
  { apply TrimSpace_nonblank; [done| |done]. unfold unpadded, raw.
    rewrite <- !app_assoc_s. rewrite !elem_of_cons, elem_of_nil in Ht.
    destruct Ht as [->|[->|[]]]; rewrite last_byte_app by done; done. }
  rewrite printable_clean by done. unfold raw.
  rewrite Parse_plain by (done || (rewrite !elem_of_cons, elem_of_nil in Ht; destruct Ht as [->|[->|[]]]; done)).
  cbn [u_Scheme u_Host u_HasUser u_RawQuery u_ForceQuery u_Fragment].
  destruct (String.eqb_spec h ""); [done|].
  change (URL_Hostname _) with (splitHostPort h).1. rewrite splitHostPort_dns by done. cbn [fst].
  rewrite Hl, (String.eqb_refl h). reflexivity.
Qed.

Lemma projectEndpoint_None ctx ep : projectEndpoint ctx ep = Ok None <-> fe_Protocol ep = FeedProtocolHTTPAPI.
Proof.
  unfold projectEndpoint, protocolArtifact. destruct (String.eqb_spec (fe_Protocol ep) FeedProtocolA2A) as [->|].
  { destruct (selectURL _ _ _ _); done. }
  destruct (String.eqb_spec (fe_Protocol ep) FeedProtocolMCP) as [->|]; [destruct (selectURL _ _ _ _); done|].
  by destruct (String.eqb_spec (fe_Protocol ep) FeedProtocolHTTPAPI).
Qed.

(** Every endpoint of an accepted registration or renewal with a display
    label is accounted for: HTTP-API endpoints apart, each gives exactly one entry
    or one recorded skip; and an A2A or MCP endpoint without its own metadata URL
    always gives an entry, at the well-known location of the attested host. *)
Theorem projection_accounts_endpoints item opts p urn :
  FromEvent item opts = Ok p -> is_active_event item = true -> event_urn item = Some urn ->
  (length (pj_Entries p) + length (pj_Skipped p) =
   length (filter (fun ep => fe_Protocol ep <> FeedProtocolHTTPAPI) (ev_Endpoints item)))%nat /\
  forall ep mt wk, ep ∈ ev_Endpoints item -> is_blank (fe_MetaDataURL ep) = true ->
    protocolArtifact (fe_Protocol ep) = Some (mt, wk) ->
    exists pe n, pe ∈ pj_Entries p /\ ParseAnsName (ev_AnsName item) = Ok n /\ en_Type (pe_Entry pe) = mt /\
      en_Identifier (pe_Entry pe) = urn /\ en_URL (pe_Entry pe) = "https://" +:+ AnsName_FQDN n +:+ wk.
Proof.
  intros [Hk ->]%FromEvent_Ok Ha Hu. destruct (active_event_type item Ha) as [-> ->]. rewrite Ha.
  destruct (projectActive_entries item opts urn Hu) as [HE HS]. split.
  - rewrite HE, HS. clear. induction (ev_Endpoints item) as [|ep eps IH]; [done|].
    rewrite filter_cons. pose proof (projectEndpoint_None (active_context item opts urn) ep) as HN.
    cbn [omap list_omap]. destruct (projectEndpoint _ ep) as [[e|]|k].
    + rewrite decide_True by (intros E; apply HN in E; done). cbn [length]. lia.
    + rewrite decide_False by (rewrite <- HN; auto). exact IH.
    + rewrite decide_True by (intros E; apply HN in E; done). cbn [length]. lia.
  - intros ep mt wk Hep Hblank Hart. destruct (ValidateIdentityKeys_Ok _ Hk) as (n & Hn & Hf).
    destruct (attested_host item n Hn Hf) as (Hh & Hne & Hb & Hlow).
    assert (HP : exists pe, projectEndpoint (active_context item opts urn) ep = Ok (Some pe) /\
      en_Type (pe_Entry pe) = mt /\ en_Identifier (pe_Entry pe) = urn /\
      en_URL (pe_Entry pe) = "https://" +:+ agentHost n +:+ wk).
    { unfold projectEndpoint. rewrite Hart. unfold selectURL. rewrite Hblank. cbn [negb active_context ac_host ac_opts].
      rewrite <- Hh. unfold protocolArtifact in Hart. repeat case_if_in Hart; simplify_eq.
      + change wellKnownA2A with ("/" +:+ ".well-known/agent-card.json"). rewrite fallback_valid by (done || set_solver).
        eexists. split_and!; [reflexivity|done..].
      + change wellKnownMCP with ("/" +:+ ".well-known/mcp.json"). rewrite fallback_valid by (done || set_solver).
        eexists. split_and!; [reflexivity|done..]. }
    destruct HP as (pe & HP & H1 & H2 & H3). exists pe, n. split_and!; try done.
    rewrite HE. apply list_elem_of_omap. exists ep. by rewrite HP.
Qed.

(** All text of a projected ACTIVE entry is free of control and format
    characters: display name, description, version, URL, metadata values, tags
    and capabilities.  Tags and capabilities are the 10 and 50 smallest distinct
    non-empty sanitized values, in strictly increasing order. *)
Theorem projected_text_clean item opts p pe :
  FromEvent item opts = Ok p -> pe ∈ pj_Entries p -> pe_Lifecycle pe = LifecycleActive ->
  let e := pe_Entry pe in
  Forall clean_text ([en_DisplayName e; en_Description e; en_Version e; en_URL e] ++ (snd <$> en_Metadata e) ++
                     en_Tags e ++ en_Capabilities e) /\
  (length (en_Tags e) <= 10)%nat /\ (length (en_Capabilities e) <= 50)%nat /\
  StronglySorted (fun a b => str_lt a b = true) (en_Tags e) /\
  StronglySorted (fun a b => str_lt a b = true) (en_Capabilities e) /\
  exists ep, ep ∈ ev_Endpoints item /\
    (forall fn, fn ∈ fe_Functions ep -> sanitizeText (ff_Name fn) <> "" ->
      sanitizeText (ff_Name fn) ∈ en_Capabilities e \/
      (length (en_Capabilities e) = 50%nat /\ forall s, s ∈ en_Capabilities e -> str_lt s (sanitizeText (ff_Name fn)) = true)).
Proof.
  intros Hp Hin Hl. cbn zeta. destruct (projection_keys item opts p pe Hp Hin) as [_ Ha]. apply Ha in Hl.
  destruct (active_entry item opts p pe Hp Hin Hl) as (urn & ep & _ & Hep & HE).
  apply projectEndpoint_Some in HE as (mt & wk & url & _ & Hsel & -> & _).
  cbn [active_context ac_host ac_opts ac_item ac_displayName ac_description ac_version en_DisplayName en_Description
       en_Version en_URL en_Metadata en_Tags en_Capabilities] in *.
  destruct (dedupSortCap_spec (flat_map ff_Tags (fe_Functions ep)) maxTags) as (T1 & T2 & T3 & _).
  destruct (dedupSortCap_spec (ff_Name <$> fe_Functions ep) maxCapabilities) as (K1 & K2 & K3 & K4).
  fold (tagsFrom (fe_Functions ep)) in T1, T2, T3. fold (capabilitiesFrom (fe_Functions ep)) in K1, K2, K3, K4.
  split_and!; try done.
  - apply Forall_app. split.
    { repeat apply Forall_cons_2; auto using sanitizeText_clean, Forall_nil_2.
      unfold selectURL in Hsel. case_match eqn:Hv; [|done]. injection Hsel as <-. exact (emitted_clean _ _ _ _ Hv). }
    apply Forall_app. split; [|apply Forall_app; split; apply Forall_forall; intros s Hs; [by apply T3|by apply K3]].
    unfold buildMetadata. rewrite fmap_app. apply Forall_app. split.
    { cbn [fmap list_fmap snd]. repeat apply Forall_cons_2; auto using sanitizeText_clean, Forall_nil_2. }
    case_match eqn:Hv; [|constructor]. cbn [fmap list_fmap snd]. apply Forall_singleton.
    exact (emitted_clean _ _ _ _ Hv).
  - exists ep. split; [done|]. intros fn Hfn Hne. apply K4; [|done]. apply list_elem_of_fmap. eauto.
Qed.
End Attested.

(** ** Instances *)

Definition demo_event (typ : string) : EventItem :=
  {| ev_LogID := "log-1"; ev_EventType := typ; ev_CreatedAt := "2026-01-02T03:04:05Z"; ev_ExpiresAt := "";
     ev_AgentID := "123e4567-e89b-12d3-a456-426614174000"; ev_AnsName := "ans://v1.0.0.bot.example.com";
     ev_AgentHost := "Bot.Example.com"; ev_AgentDisplayName := "Flight Bot"; ev_AgentDescription := "";
     ev_Version := "1.0.0"; ev_ProviderID := "";
     ev_Endpoints :=
       [{| fe_AgentURL := "https://bot.example.com/mcp"; fe_MetaDataURL := ""; fe_DocumentationURL := "";
           fe_Protocol := FeedProtocolMCP; fe_Functions := [{| ff_ID := "f"; ff_Name := "book"; ff_Tags := ["travel"] |}];
           fe_Transports := [] |};
        {| fe_AgentURL := "https://bot.example.com/api"; fe_MetaDataURL := ""; fe_DocumentationURL := "";
           fe_Protocol := FeedProtocolHTTPAPI; fe_Functions := []; fe_Transports := [] |}] |}.

Definition demo_opts : Options := {| o_TLBaseURL := "https://tl.example.com/"; o_AllowHTTP := false |}.

Definition demo_projection : Projection :=
  Eval vm_compute in
    match FromEvent (U := latin_tables) (demo_event EventTypeAgentRegistered) demo_opts with
    | Ok p => p
    | Err _ => {| pj_Entries := []; pj_Skipped := [] |}
    end.

Definition demo_entry : ProjectedEntry :=
  Eval vm_compute in
    match pj_Entries demo_projection with
    | pe :: _ => pe
    | [] => {| pe_Entry := empty_entry; pe_Lifecycle := ""; pe_AgentID := ""; pe_AnsName := ""; pe_LogID := "";
               pe_CreatedAt := ""; pe_ExpiresAt := "" |}
    end.

Lemma demo_projects : FromEvent (U := latin_tables) (demo_event EventTypeAgentRegistered) demo_opts = Ok demo_projection.
Proof. vm_compute. reflexivity. Qed.

Lemma projection_lifecycle_witness :
  exists pe, FromEvent (U := latin_tables) (demo_event EventTypeAgentRevoked) demo_opts
             = Ok {| pj_Entries := [pe]; pj_Skipped := [] |} /\
    pe_Lifecycle pe = LifecycleRevoked /\ carries_keys (demo_event EventTypeAgentRevoked) pe /\ en_URL (pe_Entry pe) = "".
Proof.
  assert (E : ValidateIdentityKeys (U := latin_tables) (demo_event EventTypeAgentRevoked) = Ok tt) by (vm_compute; reflexivity).
  pose proof (projection_lifecycle (U := latin_tables) (demo_event EventTypeAgentRevoked) demo_opts) as H.
  rewrite E in H. destruct H as [H _]. apply H. apply elem_of_cons. by left.
Defined.

Lemma projected_entries_attested_witness :
  exists n, ParseAnsName (U := latin_tables) (pe_AnsName demo_entry) = Ok n /\
    url_on_host (U := latin_tables) (AnsName_FQDN n) false (en_URL (pe_Entry demo_entry)).
Proof.
  destruct (projected_entries_attested (U := latin_tables) (demo_event EventTypeAgentRegistered) demo_opts demo_projection demo_entry)
    as (n & H1 & H2 & _); [exact demo_projects|constructor|reflexivity|]. exists n. split; [exact H1|exact H2].
Defined.

Lemma projection_accounts_endpoints_witness :
  (length (pj_Entries demo_projection) + length (pj_Skipped demo_projection) = 1)%nat.
Proof.
  apply (projection_accounts_endpoints (U := latin_tables) (demo_event EventTypeAgentRegistered) demo_opts demo_projection
           "urn:air:bot.example.com:agents:Flight-Bot");
    [exact demo_projects|reflexivity|vm_compute; reflexivity].
Defined.

Lemma projected_text_clean_witness :
  StronglySorted (fun a b => str_lt a b = true) (en_Tags (pe_Entry demo_entry)).
Proof.
  apply (projected_text_clean (U := latin_tables) (demo_event EventTypeAgentRegistered) demo_opts demo_projection demo_entry);
    [exact demo_projects|constructor|reflexivity].
Defined.

(** The case folding of the host comparison is not confined to ASCII: U+0130
    lower-cases to the ASCII letter i, so a URL on that other host passes. *)
Example emitted_host_folding :
  let raw := "https://" +:+ EncodeRune 0x130 +:+ ".example.com/card" in
  validateEmittedURL (U := latin_tables) raw "i.example.com" false = Ok raw /\
  exists u, Parse (U := latin_tables) raw = Some u /\ str_map lower_byte (URL_Hostname u) <> "i.example.com".
Proof.
  cbn zeta. split; [vm_compute; reflexivity|]. eexists. split; [vm_compute; reflexivity|]. vm_compute. discriminate.
Qed.
