(* ===== verification/FinderIndex.v ===== *)
(** The Finder's catalog index, [internal/adapter/store/sqlitefinder]:
    [apply.go], [cursor.go] and [ftsquery.go], over the tables of its migrations.

    A table is the list of its rows in insertion order; [finder_entries] pairs
    each row with its [id], which SQLite chooses as one more than the largest in
    use.  [entry_json] holds the entry it encodes.  TEXT columns compare bytewise
    (the BINARY collation).  A transaction that fails leaves the tables as they
    were.  Failures of the database itself (I/O, a cancelled context) are not
    modelled; the constraint violations are.  [ON DELETE CASCADE] is not written
    out: it finds no side rows left, since the code clears them first. *)
From S2P Require Import Prelude GoStrings GoTime Finder.

#[local] Set Default Goal Selector "!".
#[local] Open Scope Z_scope.

(** ** The tables *)

Record Row := {
  r_ans_name : string;
  r_type : string;
  r_url : string;
  r_identifier : string;
  r_publisher : string;
  r_agent_id : string;
  r_log_id : string;
  r_display_name : string;
  r_description : string;
  r_version : string;
  r_updated_at : string;
  r_lifecycle : string;
  r_created_at : string;
  r_expires_at : string;
  r_entry : Entry
}.

Record FtsRow := {
  f_rowid : Z;
  f_display_name : string;
  f_description : string;
  f_capabilities_text : string;
  f_tags_text : string;
  f_publisher : string
}.

Record Store := {
  st_entries : list (Z * Row);
  st_fts : list FtsRow;
  st_tags : list (Z * string);
  st_capabilities : list (Z * string);
  st_attestation_types : list (Z * string);
  st_last_log_id : string;
  st_last_poll_ok_ms : Z
}.

Inductive store_error := EUnique | EFtsRowid | EUnknownLifecycle.

(** [a <= b] on TEXT. *)
Definition str_le (a b : string) : bool := negb (str_lt b a).

Definition empty_store : Store :=
  {| st_entries := []; st_fts := []; st_tags := []; st_capabilities := []; st_attestation_types := [];
     st_last_log_id := ""; st_last_poll_ok_ms := 0 |}.

(** ** Rows *)

Definition publisherFromURN (urn : string) : string :=
  if negb (HasPrefix urn "urn:air:") then "" else
  let rest := str_drop 8 urn in
  match IndexByte rest ":" with
  | None => ""
  | Some O => ""
  | Some idx => str_take idx rest
  end.

Definition attestationTypes (e : Entry) : list string :=
  match en_TrustManifest e with
  | None => []
  | Some tm => filter (fun t => t <> "") (at_Type <$> tm_Attestations tm)
  end.

Definition next_rowid (st : Store) : Z := 1 + foldr Z.max 0 (fst <$> st_entries st).

Definition clearSideAndFTS (st : Store) (rowid : Z) : Store :=
  {| st_entries := st_entries st;
     st_fts := filter (fun f => f_rowid f <> rowid) (st_fts st);
     st_tags := filter (fun x => x.1 <> rowid) (st_tags st);
     st_capabilities := filter (fun x => x.1 <> rowid) (st_capabilities st);
     st_attestation_types := filter (fun x => x.1 <> rowid) (st_attestation_types st);
     st_last_log_id := st_last_log_id st; st_last_poll_ok_ms := st_last_poll_ok_ms st |}.

Definition rowidsForAnsName (st : Store) (ansName : string) : list Z :=
  fst <$> filter (fun x => r_ans_name x.2 = ansName) (st_entries st).

Definition deleteAllForAnsName (st : Store) (ansName : string) : Store :=
  let st := fold_left clearSideAndFTS (rowidsForAnsName st ansName) st in
  {| st_entries := filter (fun x => r_ans_name x.2 <> ansName) (st_entries st);
     st_fts := st_fts st; st_tags := st_tags st; st_capabilities := st_capabilities st;
     st_attestation_types := st_attestation_types st;
     st_last_log_id := st_last_log_id st; st_last_poll_ok_ms := st_last_poll_ok_ms st |}.

(** The column values [insertActiveRow] binds. *)
Definition row_of (pe : ProjectedEntry) : Row :=
  let e := pe_Entry pe in
  {| r_ans_name := pe_AnsName pe; r_type := en_Type e; r_url := en_URL e; r_identifier := en_Identifier e;
     r_publisher := publisherFromURN (en_Identifier e); r_agent_id := pe_AgentID pe; r_log_id := pe_LogID pe;
     r_display_name := en_DisplayName e; r_description := en_Description e; r_version := en_Version e;
     r_updated_at := en_UpdatedAt e; r_lifecycle := LifecycleActive; r_created_at := pe_CreatedAt pe;
     r_expires_at := pe_ExpiresAt pe; r_entry := e |}.

Definition insertSideValues (table : list (Z * string)) (rowid : Z) (values : list string) : list (Z * string) :=
  table ++ ((fun v => (rowid, v)) <$> values).

Definition insertFTS (table : list FtsRow) (rowid : Z) (e : Entry) (publisher : string) : result store_error (list FtsRow) :=
  if existsb (fun f => f_rowid f =? rowid) table then Err EFtsRowid
  else Ok (table ++ [{| f_rowid := rowid; f_display_name := en_DisplayName e; f_description := en_Description e;
                        f_capabilities_text := Join (en_Capabilities e) " "; f_tags_text := Join (en_Tags e) " ";
                        f_publisher := publisher |}]).

Definition row_key (r : Row) : string * string * string := (r_ans_name r, r_type r, r_url r).

Definition insertActiveRow (st : Store) (pe : ProjectedEntry) : result store_error Store :=
  let e := pe_Entry pe in
  let publisher := publisherFromURN (en_Identifier e) in
  if existsb (fun x => bool_decide (row_key x.2 = (pe_AnsName pe, en_Type e, en_URL e))) (st_entries st) then Err EUnique else
  let rowid := next_rowid st in
  let tags := insertSideValues (st_tags st) rowid (en_Tags e) in
  let caps := insertSideValues (st_capabilities st) rowid (en_Capabilities e) in
  let atts := insertSideValues (st_attestation_types st) rowid (attestationTypes e) in
  fts ← insertFTS (st_fts st) rowid e publisher;
  Ok {| st_entries := st_entries st ++ [(rowid, row_of pe)]; st_fts := fts; st_tags := tags;
        st_capabilities := caps; st_attestation_types := atts;
        st_last_log_id := st_last_log_id st; st_last_poll_ok_ms := st_last_poll_ok_ms st |}.

(** ** Groups *)

Record eventGroup := {
  g_ansName : string;
  g_lifecycle : Lifecycle;
  g_logID : string;
  g_createdAt : string;
  g_entries : list ProjectedEntry
}.

Definition group_key (ansName logID lifecycle : string) : string :=
  ansName +:+ String (chr 0) (logID +:+ String (chr 0) lifecycle).

(** [idx] maps a key to its group: the groups are scanned for theirs. *)
Fixpoint add_to_groups (groups : list eventGroup) (pe : ProjectedEntry) : list eventGroup :=
  match groups with
  | [] => [{| g_ansName := pe_AnsName pe; g_lifecycle := pe_Lifecycle pe; g_logID := pe_LogID pe;
              g_createdAt := pe_CreatedAt pe; g_entries := [pe] |}]
  | g :: groups' =>
      if String.eqb (group_key (g_ansName g) (g_logID g) (g_lifecycle g))
                    (group_key (pe_AnsName pe) (pe_LogID pe) (pe_Lifecycle pe))
      then {| g_ansName := g_ansName g; g_lifecycle := g_lifecycle g; g_logID := g_logID g;
              g_createdAt := g_createdAt g; g_entries := g_entries g ++ [pe] |} :: groups'
      else g :: add_to_groups groups' pe
  end.

Definition groupByEvent (entries : list ProjectedEntry) : list eventGroup := fold_left add_to_groups entries [].

Definition type_url (pe : ProjectedEntry) : string * string := (en_Type (pe_Entry pe), en_URL (pe_Entry pe)).

(** [out[pos[k]] = pe] or [append(out, pe)]. *)
Fixpoint put_by_key (out : list ProjectedEntry) (pe : ProjectedEntry) : list ProjectedEntry :=
  match out with
  | [] => [pe]
  | q :: out' => if decide (type_url q = type_url pe) then pe :: out' else q :: put_by_key out' pe
  end.

Definition dedupByTypeURL (entries : list ProjectedEntry) : list ProjectedEntry := fold_left put_by_key entries [].

(** ** Applying a page *)

Definition tombstonedAtOrAfter (st : Store) (ansName createdAt : string) : bool :=
  existsb (fun x => String.eqb (r_ans_name x.2) ansName && negb (String.eqb (r_lifecycle x.2) "ACTIVE") &&
                    str_le createdAt (r_created_at x.2)) (st_entries st).

Definition replaceActiveSet (st : Store) (grp : eventGroup) : result store_error Store :=
  if tombstonedAtOrAfter st (g_ansName grp) (g_createdAt grp) then Ok st else
  fold_res insertActiveRow (deleteAllForAnsName st (g_ansName grp)) (dedupByTypeURL (g_entries grp)).

(** [WHERE ans_name = ? AND lifecycle = 'ACTIVE' AND created_at <= ?] *)
Definition suppressible (ansName createdAt : string) (r : Row) : bool :=
  String.eqb (r_ans_name r) ansName && String.eqb (r_lifecycle r) "ACTIVE" && str_le (r_created_at r) createdAt.

Definition suppressibleRowids (st : Store) (ansName createdAt : string) : list Z :=
  fst <$> filter (fun x => suppressible ansName createdAt x.2 = true) (st_entries st).

Definition hasActiveRows (st : Store) (ansName : string) : bool :=
  existsb (fun x => String.eqb (r_ans_name x.2) ansName && String.eqb (r_lifecycle x.2) "ACTIVE") (st_entries st).

(** The [UPDATE]'s new row. *)
Definition suppress (lifecycle logID createdAt : string) (r : Row) : Row :=
  {| r_ans_name := r_ans_name r; r_type := r_type r; r_url := r_url r; r_identifier := r_identifier r;
     r_publisher := r_publisher r; r_agent_id := r_agent_id r; r_log_id := logID; r_display_name := "";
     r_description := ""; r_version := r_version r; r_updated_at := r_updated_at r; r_lifecycle := lifecycle;
     r_created_at := createdAt; r_expires_at := r_expires_at r; r_entry := r_entry r |}.

Definition applyTombstone (st : Store) (pe : ProjectedEntry) : Store * bool :=
  let rowids := suppressibleRowids st (pe_AnsName pe) (pe_CreatedAt pe) in
  let st := fold_left clearSideAndFTS rowids st in
  let affected := length (filter (fun x => suppressible (pe_AnsName pe) (pe_CreatedAt pe) x.2 = true) (st_entries st)) in
  let upd x := if suppressible (pe_AnsName pe) (pe_CreatedAt pe) x.2
               then (x.1, suppress (pe_Lifecycle pe) (pe_LogID pe) (pe_CreatedAt pe) x.2) else x in
  let st := {| st_entries := upd <$> st_entries st; st_fts := st_fts st; st_tags := st_tags st;
               st_capabilities := st_capabilities st; st_attestation_types := st_attestation_types st;
               st_last_log_id := st_last_log_id st; st_last_poll_ok_ms := st_last_poll_ok_ms st |} in
  if (0 <? affected)%nat then (st, false) else (st, hasActiveRows st (pe_AnsName pe)).

Record TombstoneNoOp := { no_AnsName : string; no_LogID : string; no_CreatedAt : string }.

Definition apply_group (acc : Store * list TombstoneNoOp) (grp : eventGroup) : result store_error (Store * list TombstoneNoOp) :=
  let '(st, report) := acc in
  if String.eqb (g_lifecycle grp) LifecycleActive then
    st' ← replaceActiveSet st grp;
    Ok (st', report)
  else if String.eqb (g_lifecycle grp) LifecycleRevoked || String.eqb (g_lifecycle grp) LifecycleDeprecated then
    match g_entries grp with
    | [] => Ok (st, report)    (* a group has at least one entry *)
    | pe :: _ =>
        let '(st', noOp) := applyTombstone st pe in
        Ok (st', if noOp then report ++ [{| no_AnsName := pe_AnsName pe; no_LogID := pe_LogID pe;
                                            no_CreatedAt := pe_CreatedAt pe |}] else report)
    end
  else Err EUnknownLifecycle.

(** The store after the call and what it returns: the transaction commits only
    when every group applied. *)
Definition Apply (st : Store) (entries : list ProjectedEntry) : Store * result store_error (list TombstoneNoOp) :=
  match fold_res apply_group (st, []) (groupByEvent entries) with
  | Ok (st', report) => (st', Ok report)
  | Err e => (st, Err e)
  end.

(** ** [cursor.go] *)

Record Cursor := { cu_LastLogID : string; cu_LastPollOK : Time }.

(** [time.UnixMilli(ms)] and [t.UnixMilli()]; the zero time persists as 0. *)
Definition Store_Cursor (st : Store) : Cursor :=
  {| cu_LastLogID := st_last_log_id st;
     cu_LastPollOK := if 0 <? st_last_poll_ok_ms st then UnixMilli (st_last_poll_ok_ms st) else zeroTime |}.

Definition SaveCursor (st : Store) (c : Cursor) : Store :=
  {| st_entries := st_entries st; st_fts := st_fts st; st_tags := st_tags st; st_capabilities := st_capabilities st;
     st_attestation_types := st_attestation_types st;
     st_last_log_id := cu_LastLogID c;
     st_last_poll_ok_ms := if Time_IsZero (cu_LastPollOK c) then 0 else Time_UnixMilli (cu_LastPollOK c) |}.

(** ** [ftsquery.go] *)

Definition quote_token (tok : string) : string :=
  String (chr 34) (ReplaceAll tok (chr 34) (String (chr 34) (String (chr 34) ""))) +:+ String (chr 34) "".

Definition buildMatchQuery (text : string) : string := Join (quote_token <$> Fields text) " ".
