(* ===== verification/FinderIndexSpec.v ===== *)
(** The catalog index implements a per-agent state machine: an agent is absent,
    live with the entries of its last registration, or dead since a tombstone.
    The tables refine it, with the full-text and side tables exactly in step with
    the ACTIVE rows. *)
From stdpp Require Import gmap.
From Stdlib Require Import Sorted.
From S2P Require Import Prelude GoStrings GoTime Finder FinderSpec FinderIndex.

#[local] Set Default Goal Selector "!".
#[local] Open Scope Z_scope.

(** ** Consistency of the tables *)

Definition is_active (x : Z * Row) : Prop := r_lifecycle x.2 = LifecycleActive.
#[export] Instance is_active_dec x : Decision (is_active x).
Proof. unfold is_active. apply _. Defined.

Definition fts_of (x : Z * Row) : FtsRow :=
  {| f_rowid := x.1; f_display_name := r_display_name x.2; f_description := r_description x.2;
     f_capabilities_text := Join (en_Capabilities (r_entry x.2)) " "; f_tags_text := Join (en_Tags (r_entry x.2)) " ";
     f_publisher := r_publisher x.2 |}.

(** The side-table rows a list of base rows calls for. *)
Definition side_of (f : Entry -> list string) (l : list (Z * Row)) : list (Z * string) :=
  flat_map (fun x => (fun v => (x.1, v)) <$> f (r_entry x.2)) l.

Definition active_rows (st : Store) : list (Z * Row) := filter is_active (st_entries st).

Record consistent (st : Store) : Prop := {
  c_ids : NoDup (fst <$> st_entries st);
  c_keys : NoDup (row_key ∘ snd <$> st_entries st);
  c_fts : st_fts st = fts_of <$> active_rows st;
  c_tags : st_tags st = side_of en_Tags (active_rows st);
  c_caps : st_capabilities st = side_of en_Capabilities (active_rows st);
  c_atts : st_attestation_types st = side_of attestationTypes (active_rows st)
}.

(** The rows without their ids. *)
Definition contents (st : Store) : list Row := snd <$> st_entries st.

Lemma NoDup_fmap_fst_inj {A B} (l : list (A * B)) x y : NoDup (fst <$> l) -> x ∈ l -> y ∈ l -> x.1 = y.1 -> x = y.
Proof.
  intros Hn (i & Hi)%list_elem_of_lookup_1 (j & Hj)%list_elem_of_lookup_1 E.
  assert (i = j) as ->; [|congruence].
  eapply (NoDup_lookup _ i j x.1 Hn); rewrite list_lookup_fmap; [by rewrite Hi|by rewrite Hj, E].
Qed.

(** *** Clearing a set of row ids *)

Lemma fold_clear (ids : list Z) st :
  let st' := fold_left clearSideAndFTS ids st in
  st_entries st' = st_entries st /\
  st_fts st' = filter (fun f => f_rowid f ∉ ids) (st_fts st) /\
  st_tags st' = filter (fun x => x.1 ∉ ids) (st_tags st) /\
  st_capabilities st' = filter (fun x => x.1 ∉ ids) (st_capabilities st) /\
  st_attestation_types st' = filter (fun x => x.1 ∉ ids) (st_attestation_types st) /\
  st_last_log_id st' = st_last_log_id st /\ st_last_poll_ok_ms st' = st_last_poll_ok_ms st.
Proof.
  cbn zeta. revert st. induction ids as [|i ids IH]; intros st; cbn [fold_left].
  - split_and!; try done; symmetry; apply filter_all; intros; set_solver.
  - destruct (IH (clearSideAndFTS st i)) as (-> & -> & -> & -> & -> & -> & ->). cbn.
    split_and!; try done; rewrite list_filter_filter; apply list_filter_iff; intros; set_solver.
Qed.

Lemma side_filter f (ids : list Z) l :
  filter (fun x => x.1 ∉ ids) (side_of f l) = side_of f (filter (fun x => x.1 ∉ ids) l).
Proof.
  unfold side_of. induction l as [|x l IH]; [done|]. cbn [flat_map]. rewrite filter_app, IH, filter_cons.
  assert (forall vs : list string, filter (fun y : Z * string => y.1 ∉ ids) ((fun v => (x.1, v)) <$> vs) =
            if decide (x.1 ∉ ids) then (fun v => (x.1, v)) <$> vs else []) as ->.
  { intros vs. rewrite filter_fmap. cbn [fst]. case_decide.
    - f_equal. apply filter_all. tauto.
    - change (@nil (Z * string)) with ((fun v : string => (x.1, v)) <$> []). f_equal. apply filter_none. tauto. }
  by case_decide.
Qed.

Lemma fts_filter (ids : list Z) (l : list (Z * Row)) : filter (fun f => f_rowid f ∉ ids) (fts_of <$> l) = fts_of <$> filter (fun x => x.1 ∉ ids) l.
Proof. by rewrite filter_fmap. Qed.

(** Clearing the ids of the rows [P] selects leaves the search tables in step
    with the ACTIVE rows that [P] does not select. *)
Lemma clear_selected (P : Z * Row -> Prop) `{forall x, Decision (P x)} st :
  consistent st ->
  let st' := fold_left clearSideAndFTS (fst <$> filter P (st_entries st)) st in
  let l := filter (fun x => is_active x /\ ~ P x) (st_entries st) in
  st_entries st' = st_entries st /\ st_fts st' = fts_of <$> l /\ st_tags st' = side_of en_Tags l /\
  st_capabilities st' = side_of en_Capabilities l /\ st_attestation_types st' = side_of attestationTypes l.
Proof.
  intros [Hi _ Hf Ht Hc Ha]. cbn zeta.
  destruct (fold_clear (fst <$> filter P (st_entries st)) st) as (-> & -> & -> & -> & -> & _).
  rewrite Hf, Ht, Hc, Ha, fts_filter, !side_filter.
  assert (filter (fun x => x.1 ∉ fst <$> filter P (st_entries st)) (active_rows st) =
          filter (fun x => is_active x /\ ~ P x) (st_entries st)) as ->; [|done].
  unfold active_rows. rewrite list_filter_filter. apply filter_ext_elem. intros x Hx.
  enough (x.1 ∈ fst <$> filter P (st_entries st) <-> P x) by tauto. split.
  - intros (y & E & [Hy Hin]%list_elem_of_filter)%list_elem_of_fmap.
    by rewrite (NoDup_fmap_fst_inj _ x y Hi) by done.
  - intros HP. apply list_elem_of_fmap. exists x. split; [done|]. by apply list_elem_of_filter.
Qed.

(** *** The three writes *)

Lemma next_rowid_fresh st : next_rowid st ∉ fst <$> st_entries st.
Proof.
  unfold next_rowid. assert (G : forall l x, x ∈ l -> x <= foldr Z.max 0 l).
  { induction l as [|y l IH]; intros x Hx; [set_solver|]. simpl. apply elem_of_cons in Hx as [->|Hx]; [lia|].
    specialize (IH x Hx). lia. }
  intros H%G. lia.
Qed.

Lemma insertActiveRow_Ok st pe :
  consistent st -> row_key (row_of pe) ∉ row_key <$> contents st ->
  exists st', insertActiveRow st pe = Ok st' /\ consistent st' /\ contents st' = contents st ++ [row_of pe] /\
    st_last_log_id st' = st_last_log_id st /\ st_last_poll_ok_ms st' = st_last_poll_ok_ms st.
Proof.
  intros [Hi Hk Hf Ht Hc Ha] Hkey. unfold insertActiveRow.
  destruct (existsb _ (st_entries st)) eqn:E.
  { apply existsb_exists in E as (x & Hx%list_elem_of_In & Ex). b2p. destruct Hkey.
    apply list_elem_of_fmap. exists x.2. split; [done|]. apply list_elem_of_fmap. eauto. }
  unfold insertFTS. destruct (existsb _ (st_fts st)) eqn:E'.
  { apply existsb_exists in E' as (f & Hx%list_elem_of_In & Ex). b2p. rewrite Hf in Hx.
    apply list_elem_of_fmap in Hx as (x & -> & [_ Hx]%list_elem_of_filter).
    destruct (next_rowid_fresh st). rewrite <- Ex. apply list_elem_of_fmap. eauto. }
  cbn [mbind result_bind]. eexists. split; [reflexivity|].
  assert (HA : filter is_active (st_entries st ++ [(next_rowid st, row_of pe)]) =
               active_rows st ++ [(next_rowid st, row_of pe)]) by (by rewrite filter_app).
  split_and!; [split; cbn [st_entries st_fts st_tags st_capabilities st_attestation_types active_rows]| |done|done].
  - rewrite fmap_app. apply NoDup_app. split_and!; [done| |apply NoDup_singleton].
    intros x Hx ->%list_elem_of_singleton. by destruct (next_rowid_fresh st).
  - rewrite fmap_app. apply NoDup_app. split_and!; [done| |apply NoDup_singleton].
    intros x Hx ->%list_elem_of_singleton. apply Hkey. unfold contents. by rewrite <- list_fmap_compose.
  - unfold active_rows. cbn [st_entries]. by rewrite HA, fmap_app, Hf.
  - unfold active_rows, side_of. cbn [st_entries]. rewrite HA, flat_map_app, Ht. unfold insertSideValues. f_equal. cbn. by rewrite app_nil_r.
  - unfold active_rows, side_of. cbn [st_entries]. rewrite HA, flat_map_app, Hc. unfold insertSideValues. f_equal. cbn. by rewrite app_nil_r.
  - unfold active_rows, side_of. cbn [st_entries]. rewrite HA, flat_map_app, Ha. unfold insertSideValues. f_equal. cbn. by rewrite app_nil_r.
  - unfold contents. cbn [st_entries]. by rewrite fmap_app.
Qed.

Lemma NoDup_fmap_filter {A B} (f : A -> B) (P : A -> Prop) `{forall x, Decision (P x)} (l : list A) :
  NoDup (f <$> l) -> NoDup (f <$> filter P l).
Proof.
  induction l as [|x l IH]; [done|]. cbn [fmap list_fmap]. intros [Hx Hl]%NoDup_cons. rewrite filter_cons.
  case_decide; [|auto]. cbn [fmap list_fmap]. constructor; [|auto].
  intros (y & E & [_ Hy]%list_elem_of_filter)%list_elem_of_fmap. apply Hx. apply list_elem_of_fmap. eauto.
Qed.

Lemma deleteAll_Ok st a :
  consistent st ->
  let st' := deleteAllForAnsName st a in
  consistent st' /\ contents st' = filter (fun r => r_ans_name r <> a) (contents st) /\
  st_last_log_id st' = st_last_log_id st /\ st_last_poll_ok_ms st' = st_last_poll_ok_ms st.
Proof.
  intros Hcon. cbn zeta. unfold deleteAllForAnsName, rowidsForAnsName.
  destruct (clear_selected (fun x => r_ans_name x.2 = a) st Hcon) as (E & Ef & Et & Ec & Ea).
  destruct (fold_clear (fst <$> filter (fun x => r_ans_name x.2 = a) (st_entries st)) st) as (_ & _ & _ & _ & _ & -> & ->).
  rewrite E. destruct Hcon as [Hi Hk _ _ _ _].
  assert (HA : filter (fun x => is_active x /\ r_ans_name x.2 <> a) (st_entries st) =
               filter is_active (filter (fun x => r_ans_name x.2 <> a) (st_entries st))) by (by rewrite list_filter_filter).
  rewrite HA in *. split_and!; [|unfold contents; cbn [st_entries]; by rewrite filter_fmap|done|done].
  split; cbn [st_entries st_fts st_tags st_capabilities st_attestation_types]; try done;
    by apply NoDup_fmap_filter.
Qed.

(** What the [UPDATE] does to a row. *)
Definition tombstone_row (pe : ProjectedEntry) (r : Row) : Row :=
  if suppressible (pe_AnsName pe) (pe_CreatedAt pe) r
  then suppress (pe_Lifecycle pe) (pe_LogID pe) (pe_CreatedAt pe) r else r.

Lemma tombstone_key pe r : row_key (tombstone_row pe r) = row_key r.
Proof. unfold tombstone_row. by case_if. Qed.

Lemma filter_tombstone_active pe (l : list (Z * Row)) :
  pe_Lifecycle pe <> LifecycleActive ->
  filter is_active ((fun x : Z * Row => (x.1, tombstone_row pe x.2)) <$> l) =
  filter (fun x => is_active x /\ ~ suppressible (pe_AnsName pe) (pe_CreatedAt pe) x.2 = true) l.
Proof.
  intros Hl. induction l as [|[i r] l IH]; [done|]. cbn [fmap list_fmap fst snd].
  assert (HT : tombstone_row pe r = if suppressible (pe_AnsName pe) (pe_CreatedAt pe) r
                 then suppress (pe_Lifecycle pe) (pe_LogID pe) (pe_CreatedAt pe) r else r) by done.
  destruct (suppressible (pe_AnsName pe) (pe_CreatedAt pe) r) eqn:E; rewrite HT.
  - rewrite filter_cons_False by (unfold is_active; done). rewrite filter_cons_False by (cbn [snd]; tauto). exact IH.
  - destruct (decide (is_active (i, r))) as [Ha|Ha].
    + rewrite !filter_cons_True by (cbn [snd]; rewrite ?E; done). by rewrite IH.
    + rewrite !filter_cons_False by tauto. exact IH.
Qed.

Lemma hasActiveRows_spec st a :
  hasActiveRows st a = true <-> exists r, r ∈ contents st /\ r_ans_name r = a /\ r_lifecycle r = LifecycleActive.
Proof.
  unfold hasActiveRows, contents. rewrite existsb_exists. split.
  - intros (x & Hx%list_elem_of_In & H). b2p. exists x.2. split_and!; [apply list_elem_of_fmap; eauto|done|done].
  - intros (r & (x & -> & Hx)%list_elem_of_fmap & H1 & H2). exists x. split; [by apply list_elem_of_In|].
    by rewrite H1, H2, String.eqb_refl.
Qed.

Lemma affected_zero pe (l : list (Z * Row)) :
  length (filter (fun x : Z * Row => suppressible (pe_AnsName pe) (pe_CreatedAt pe) x.2 = true) l) = 0%nat <->
  forall r, r ∈ snd <$> l -> suppressible (pe_AnsName pe) (pe_CreatedAt pe) r = false.
Proof.
  rewrite length_zero_iff_nil. split.
  - intros H r (x & -> & Hx)%list_elem_of_fmap. apply not_true_iff_false. intros Hs.
    apply (not_elem_of_nil x). rewrite <- H. by apply list_elem_of_filter.
  - intros H. apply filter_none. intros x Hx. rewrite H; [done|]. apply list_elem_of_fmap. eauto.
Qed.

Lemma applyTombstone_Ok st pe :
  consistent st -> pe_Lifecycle pe <> LifecycleActive ->
  let '(st', noOp) := applyTombstone st pe in
  consistent st' /\ contents st' = tombstone_row pe <$> contents st /\
  (noOp = true <-> (forall r, r ∈ contents st -> suppressible (pe_AnsName pe) (pe_CreatedAt pe) r = false) /\
                   exists r, r ∈ contents st /\ r_ans_name r = pe_AnsName pe /\ r_lifecycle r = LifecycleActive) /\
  st_last_log_id st' = st_last_log_id st /\ st_last_poll_ok_ms st' = st_last_poll_ok_ms st.
Proof.
  intros Hcon Hl. unfold applyTombstone, suppressibleRowids.
  destruct (clear_selected (fun x => suppressible (pe_AnsName pe) (pe_CreatedAt pe) x.2 = true) st Hcon)
    as (E & Ef & Et & Ec & Ea).
  destruct (fold_clear (fst <$> filter (fun x => suppressible (pe_AnsName pe) (pe_CreatedAt pe) x.2 = true) (st_entries st)) st)
    as (_ & _ & _ & _ & _ & -> & ->).
  rewrite <- filter_tombstone_active in Ef, Et, Ec, Ea by done. rewrite Ef, Et, Ec, Ea, E.
  set (upd := fun x : Z * Row => if suppressible _ _ x.2 then _ else x).
  assert (HU : upd <$> st_entries st = (fun x => (x.1, tombstone_row pe x.2)) <$> st_entries st).
  { apply list_fmap_ext. intros i [j r] _. unfold upd, tombstone_row. cbn. by case_if. }
  rewrite HU. match goal with |- context [hasActiveRows ?s _] => set (st' := s) end.
  assert (HC : contents st' = tombstone_row pe <$> contents st).
  { unfold contents, st'. cbn [st_entries]. by rewrite <- !list_fmap_compose. }
  assert (Hst : consistent st').
  { destruct Hcon as [Hi Hk _ _ _ _]. split; unfold st'; cbn [st_entries st_fts st_tags st_capabilities st_attestation_types]; try done.
    - by rewrite <- list_fmap_compose.
    - rewrite <- list_fmap_compose. erewrite list_fmap_ext; [exact Hk|]. intros i x _. apply tombstone_key. }
  pose proof (affected_zero pe (st_entries st)) as HZ. fold (contents st) in HZ.
  destruct (Nat.ltb_spec 0 (length (filter (fun x => suppressible (pe_AnsName pe) (pe_CreatedAt pe) x.2 = true) (st_entries st)))).
  - split; [done|]. split; [done|]. split; [|done]. split; [done|]. intros [H0 _]. apply HZ in H0. lia.
  - assert (H0 : forall r, r ∈ contents st -> suppressible (pe_AnsName pe) (pe_CreatedAt pe) r = false) by (apply HZ; lia).
    split; [done|]. split; [done|]. split; [|done]. rewrite hasActiveRows_spec. split; [|intros [_ (r & Hr & ? & ?)]; exists r].
    + intros (r & Hr & H1 & H2). split; [done|]. rewrite HC in Hr. apply list_elem_of_fmap in Hr as (r' & -> & Hr').
      exists r'. unfold tombstone_row in *. rewrite H0 in * by done. done.
    + split_and!; try done. rewrite HC. apply list_elem_of_fmap. exists r. unfold tombstone_row. by rewrite H0.
Qed.

(** ** The abstract catalog *)

(** An agent's entries, live since [createdAt], or dead since the tombstone
    [lifecycle], [logID], [createdAt]. *)
Inductive Agent :=
| Live (createdAt : string) (es : list ProjectedEntry)
| Dead (lifecycle logID createdAt : string) (es : list ProjectedEntry).

(** The entries an event projects to share its keys. *)
Record IndexEvent := {
  e_ansName : string;
  e_lifecycle : string;
  e_logID : string;
  e_createdAt : string;
  e_entries : list ProjectedEntry
}.

Definition spec_active (m : gmap string Agent) (a T : string) (es : list ProjectedEntry) : gmap string Agent :=
  match m !! a with
  | Some (Dead _ _ T' _) => if str_le T T' then m else <[a := Live T es]> m
  | _ => <[a := Live T es]> m
  end.

Definition spec_tombstone (m : gmap string Agent) (a lc log T : string) : gmap string Agent :=
  match m !! a with
  | Some (Live T' es) => if str_le T' T then <[a := Dead lc log T es]> m else m
  | _ => m
  end.

(** A tombstone that comes too late is reported. *)
Definition spec_noop (m : gmap string Agent) (a log T : string) : list TombstoneNoOp :=
  match m !! a with
  | Some (Live T' _) => if str_le T' T then [] else [{| no_AnsName := a; no_LogID := log; no_CreatedAt := T |}]
  | _ => []
  end.

Definition spec_event (acc : gmap string Agent * list TombstoneNoOp) (e : IndexEvent) : gmap string Agent * list TombstoneNoOp :=
  if String.eqb (e_lifecycle e) LifecycleActive
  then (spec_active acc.1 (e_ansName e) (e_createdAt e) (dedupByTypeURL (e_entries e)), acc.2)
  else (spec_tombstone acc.1 (e_ansName e) (e_lifecycle e) (e_logID e) (e_createdAt e),
        acc.2 ++ spec_noop acc.1 (e_ansName e) (e_logID e) (e_createdAt e)).

(** ** Representation *)

Definition rows_at (st : Store) (a : string) : list Row := filter (fun r => r_ans_name r = a) (contents st).

Definition agent_rows (ag : option Agent) : list Row :=
  match ag with
  | None => []
  | Some (Live _ es) => row_of <$> es
  | Some (Dead lc log T es) => suppress lc log T ∘ row_of <$> es
  end.

Definition agent_wf (a : string) (ag : Agent) : Prop :=
  match ag with
  | Live T es => es <> [] /\ Forall (fun pe => pe_AnsName pe = a /\ pe_CreatedAt pe = T) es
  | Dead lc _ _ es => es <> [] /\ Forall (fun pe => pe_AnsName pe = a) es /\ lc <> LifecycleActive
  end.

Record repr (st : Store) (m : gmap string Agent) : Prop := {
  repr_consistent : consistent st;
  repr_rows : forall a, rows_at st a = agent_rows (m !! a);
  repr_wf : map_Forall agent_wf m
}.

Definition event_ok (e : IndexEvent) : Prop :=
  e_entries e <> [] /\
  Forall (fun pe => pe_AnsName pe = e_ansName e /\ pe_Lifecycle pe = e_lifecycle e /\ pe_LogID pe = e_logID e /\
                    pe_CreatedAt pe = e_createdAt e) (e_entries e) /\
  e_lifecycle e ∈ [LifecycleActive; LifecycleRevoked; LifecycleDeprecated] /\
  ContainsByte (e_ansName e) (chr 0) = false.

Definition event_key (e : IndexEvent) : string * string * string := (e_ansName e, e_logID e, e_lifecycle e).

(** *** Grouping *)

Lemma cut_first_unique c s t s' t' :
  ContainsByte s c = false -> ContainsByte s' c = false -> s +:+ String c t = s' +:+ String c t' -> s = s' /\ t = t'.
Proof.
  revert s'. induction s as [|d s IH]; intros [|d' s']; rewrite ?ContainsByte_cons, ?app_nil_l_s, ?app_cons_s.
  - by intros _ _ [= ->].
  - intros _ [Hd _]%orb_false_iff [= -> _]. by rewrite Ascii.eqb_refl in Hd.
  - intros [Hd _]%orb_false_iff _ [= -> _]. by rewrite Ascii.eqb_refl in Hd.
  - intros [_ H]%orb_false_iff [_ H']%orb_false_iff [= -> E]. by destruct (IH s' H H' E) as [-> ->].
Qed.

Lemma cut_last_unique c s t s' t' :
  ContainsByte t c = false -> ContainsByte t' c = false -> s +:+ String c t = s' +:+ String c t' -> s = s' /\ t = t'.
Proof.
  intros Ht Ht'. revert s'. induction s as [|d s IH]; intros [|d' s']; rewrite ?app_nil_l_s, ?app_cons_s.
  - by intros [= ->].
  - intros [= _ ->]. by rewrite ContainsByte_app, ContainsByte_cons, Ascii.eqb_refl, orb_true_r in Ht.
  - intros [= _ <-]. by rewrite ContainsByte_app, ContainsByte_cons, Ascii.eqb_refl, orb_true_r in Ht'.
  - intros [= -> E]. by destruct (IH s' E) as [-> ->].
Qed.

Lemma group_key_inj a l lc a' l' lc' :
  ContainsByte a (chr 0) = false -> ContainsByte a' (chr 0) = false ->
  ContainsByte lc (chr 0) = false -> ContainsByte lc' (chr 0) = false ->
  group_key a l lc = group_key a' l' lc' -> a = a' /\ l = l' /\ lc = lc'.
Proof.
  intros Ha Ha' Hl Hl' E. unfold group_key in E. apply cut_first_unique in E as [-> E]; [|done..].
  by apply cut_last_unique in E as [-> ->].
Qed.

Definition group_of (e : IndexEvent) : eventGroup :=
  {| g_ansName := e_ansName e; g_lifecycle := e_lifecycle e; g_logID := e_logID e; g_createdAt := e_createdAt e;
     g_entries := e_entries e |}.

Definition same_key (g : eventGroup) (pe : ProjectedEntry) : bool :=
  String.eqb (group_key (g_ansName g) (g_logID g) (g_lifecycle g)) (group_key (pe_AnsName pe) (pe_LogID pe) (pe_Lifecycle pe)).

Lemma add_to_groups_new gs pe :
  Forall (fun g => same_key g pe = false) gs ->
  add_to_groups gs pe = gs ++ [{| g_ansName := pe_AnsName pe; g_lifecycle := pe_Lifecycle pe; g_logID := pe_LogID pe;
                                  g_createdAt := pe_CreatedAt pe; g_entries := [pe] |}].
Proof.
  induction 1 as [|g gs Hg _ IH]; [done|]. cbn [add_to_groups]. unfold same_key in Hg. by rewrite Hg, IH.
Qed.

Lemma add_to_groups_last gs g pe :
  Forall (fun g => same_key g pe = false) gs -> same_key g pe = true ->
  add_to_groups (gs ++ [g]) pe =
  gs ++ [{| g_ansName := g_ansName g; g_lifecycle := g_lifecycle g; g_logID := g_logID g;
            g_createdAt := g_createdAt g; g_entries := g_entries g ++ [pe] |}].
Proof.
  intros H Hg. induction H as [|g' gs Hg' _ IH]; cbn [add_to_groups app]; unfold same_key in *; [by rewrite Hg|].
  by rewrite Hg', IH.
Qed.

Lemma lifecycle_no_nul lc : lc ∈ [LifecycleActive; LifecycleRevoked; LifecycleDeprecated] -> ContainsByte lc (chr 0) = false.
Proof. rewrite !elem_of_cons, elem_of_nil. by intros [->|[->|[->|[]]]]. Qed.

Lemma same_key_event e e' pe :
  event_ok e -> event_ok e' -> pe ∈ e_entries e' -> same_key (group_of e) pe = bool_decide (event_key e = event_key e').
Proof.
  intros (_ & _ & Hl%lifecycle_no_nul & Ha) (_ & HF & Hl'%lifecycle_no_nul & Ha') Hpe. rewrite Forall_forall in HF.
  destruct (HF pe Hpe) as (E1 & E2 & E3 & _). unfold same_key, group_of. cbn. rewrite E1, E2, E3. unfold event_key.
  case_bool_decide as Hk.
  - injection Hk as -> -> ->. apply String.eqb_refl.
  - apply String.eqb_neq. intros E. apply group_key_inj in E as (? & ? & ?); [|done..]. congruence.
Qed.

Lemma add_all_last gs g es :
  Forall (fun pe => Forall (fun g => same_key g pe = false) gs /\ same_key g pe = true) es ->
  fold_left add_to_groups es (gs ++ [g]) =
  gs ++ [{| g_ansName := g_ansName g; g_lifecycle := g_lifecycle g; g_logID := g_logID g;
            g_createdAt := g_createdAt g; g_entries := g_entries g ++ es |}].
Proof.
  revert g. induction es as [|pe es IH]; intros g HF; cbn [fold_left].
  { rewrite app_nil_r. by destruct g. }
  apply Forall_cons in HF as [[H1 H2] HF]. rewrite add_to_groups_last by done. rewrite IH.
  - cbn. by rewrite <- app_assoc.
  - exact HF.
Qed.

Lemma group_event prev e :
  Forall event_ok prev -> event_ok e -> event_key e ∉ event_key <$> prev ->
  fold_left add_to_groups (e_entries e) (group_of <$> prev) = (group_of <$> prev) ++ [group_of e].
Proof.
  intros HP He Hk.
  assert (Hnew : forall pe, pe ∈ e_entries e -> Forall (fun g => same_key g pe = false) (group_of <$> prev)).
  { intros pe Hpe. apply Forall_fmap, Forall_forall. intros p Hp. cbn. rewrite Forall_forall in HP.
    rewrite (same_key_event p e pe) by auto. apply bool_decide_false. intros E. apply Hk. rewrite <- E.
    apply list_elem_of_fmap. eauto. }
  assert (Hself : forall pe, pe ∈ e_entries e -> same_key (group_of e) pe = true).
  { intros pe Hpe. rewrite (same_key_event e e pe) by done. by apply bool_decide_true. }
  destruct He as (Hne & HF & _). destruct (e_entries e) as [|pe es] eqn:E; [done|]. cbn [fold_left].
  rewrite add_to_groups_new by (apply Hnew; set_solver).
  apply Forall_cons in HF as [(E1 & E2 & E3 & E4) HF]. rewrite E1, E2, E3, E4, add_all_last.
  - unfold group_of at 3. by rewrite E.
  - apply Forall_forall. intros q Hq. split; [apply Hnew; set_solver|]. apply Hself. set_solver.
Qed.

Lemma groupByEvent_events evs :
  Forall event_ok evs -> NoDup (event_key <$> evs) ->
  groupByEvent (concat (e_entries <$> evs)) = group_of <$> evs.
Proof.
  intros HF HN. unfold groupByEvent. change (@nil eventGroup) with (group_of <$> []).
  assert (G : forall prev, Forall event_ok (prev ++ evs) -> NoDup (event_key <$> (prev ++ evs)) ->
    fold_left add_to_groups (concat (e_entries <$> evs)) (group_of <$> prev) = group_of <$> (prev ++ evs)); [|by apply (G [])].
  clear HF HN. induction evs as [|e evs IH]; intros prev HF HN; [by rewrite app_nil_r|].
  cbn [fmap list_fmap concat]. rewrite fold_left_app.
  pose proof HF as [Hp [He _]%Forall_cons]%Forall_app.
  rewrite group_event; [|done|done|].
  - change [group_of e] with (group_of <$> [e]). rewrite <- fmap_app.
    replace (prev ++ e :: evs) with ((prev ++ [e]) ++ evs) in * by (by rewrite <- app_assoc). by apply IH.
  - rewrite fmap_app in HN. apply NoDup_app in HN as (_ & HN & _). intros Hin. eapply HN; [exact Hin|]. left.
Qed.

(** *** Deduplication by type and URL *)

Lemma put_by_key_spec out pe :
  NoDup (type_url <$> out) ->
  NoDup (type_url <$> put_by_key out pe) /\ (forall q, q ∈ put_by_key out pe -> q = pe \/ q ∈ out) /\
  (forall k, k ∈ type_url <$> put_by_key out pe <-> k = type_url pe \/ k ∈ type_url <$> out) /\ put_by_key out pe <> [].
Proof.
  induction out as [|q out IH]; cbn [fmap list_fmap put_by_key].
  { intros _. split_and!; [apply NoDup_singleton|set_solver|set_solver|done]. }
  intros [Hq Hn]%NoDup_cons. destruct (IH Hn) as (I1 & I2 & I3 & _). case_decide as E; cbn [fmap list_fmap].
  - rewrite <- E. split_and!; [by constructor|set_solver|set_solver|done].
  - split_and!; [|set_solver|intros k; rewrite !elem_of_cons, I3; tauto|done]. constructor; [|done].
    rewrite I3. intros [?|?]; done.
Qed.

Lemma dedupByTypeURL_spec es :
  NoDup (type_url <$> dedupByTypeURL es) /\ (forall q, q ∈ dedupByTypeURL es -> q ∈ es) /\
  (es <> [] -> dedupByTypeURL es <> []).
Proof.
  unfold dedupByTypeURL.
  assert (G : forall out, NoDup (type_url <$> out) ->
    NoDup (type_url <$> fold_left put_by_key es out) /\ (forall q, q ∈ fold_left put_by_key es out -> q ∈ out \/ q ∈ es) /\
    (es <> [] \/ out <> [] -> fold_left put_by_key es out <> [])).
  { induction es as [|pe es IH]; intros out Hn; cbn [fold_left]; [set_solver|].
    destruct (put_by_key_spec out pe Hn) as (P1 & P2 & _ & P4). destruct (IH (put_by_key out pe) P1) as (I1 & I2 & I3).
    split_and!; [done| |auto]. intros q Hq. destruct (I2 q Hq) as [[->|?]%P2|?]; set_solver. }
  destruct (G [] NoDup_nil_2) as (G1 & G2 & G3). split_and!; [done|set_solver|auto].
Qed.

(** *** The active path *)

Lemma insert_all_Ok a es st :
  consistent st -> Forall (fun pe => pe_AnsName pe = a) es -> NoDup (type_url <$> es) ->
  (forall pe, pe ∈ es -> row_key (row_of pe) ∉ row_key <$> contents st) ->
  exists st', fold_res insertActiveRow st es = Ok st' /\ consistent st' /\ contents st' = contents st ++ (row_of <$> es) /\
    st_last_log_id st' = st_last_log_id st /\ st_last_poll_ok_ms st' = st_last_poll_ok_ms st.
Proof.
  revert st. induction es as [|pe es IH]; intros st Hc Ha Hn Hk; cbn [fold_res].
  { exists st. by rewrite app_nil_r. }
  apply Forall_cons in Ha as [Hp Ha]. cbn [fmap list_fmap] in Hn. apply NoDup_cons in Hn as [Hpe Hn].
  destruct (insertActiveRow_Ok st pe Hc) as (st1 & -> & Hc1 & E1 & El & Em); [apply Hk; set_solver|].
  cbn [mbind result_bind].
  destruct (IH st1 Hc1 Ha Hn) as (st2 & -> & Hc2 & E2 & El2 & Em2).
  - intros q Hq. rewrite E1, fmap_app, elem_of_app. intros [Hin|Hin]; [by apply (Hk q); [set_solver|]|].
    apply list_elem_of_singleton in Hin. unfold row_key, row_of in Hin. cbn in Hin. injection Hin as _ Ht Hu.
    apply Hpe, list_elem_of_fmap. exists q. split; [|done]. unfold type_url. congruence.
  - exists st2. split; [done|]. split; [done|]. rewrite E2, E1, <- app_assoc. split; [done|]. split; congruence.
Qed.

Lemma existsb_rows_at (f : Row -> bool) st a :
  existsb (fun x => String.eqb (r_ans_name x.2) a && f x.2) (st_entries st) = existsb f (rows_at st a).
Proof.
  unfold rows_at, contents. induction (st_entries st) as [|x l IH]; [done|]. cbn [existsb fmap list_fmap].
  rewrite filter_cons, IH. destruct (String.eqb_spec (r_ans_name x.2) a); [by rewrite decide_True|by rewrite decide_False].
Qed.

Lemma existsb_fmap {A B} (f : B -> bool) (g : A -> B) l : existsb f (g <$> l) = existsb (fun x => f (g x)) l.
Proof. induction l as [|x l IH]; [done|]. cbn. by rewrite <- IH. Qed.

Lemma existsb_const {A} (b : bool) (l : list A) : l <> [] -> existsb (fun _ => b) l = b.
Proof. intros Hl. destruct b; [by destruct l|]. clear Hl. by induction l. Qed.

Lemma tombstoned_spec st m a T :
  repr st m ->
  tombstonedAtOrAfter st a T = match m !! a with Some (Dead _ _ T' _) => str_le T T' | _ => false end.
Proof.
  intros [_ Hr Hw]. unfold tombstonedAtOrAfter.
  transitivity (existsb (fun r => negb (String.eqb (r_lifecycle r) "ACTIVE") && str_le T (r_created_at r)) (rows_at st a)).
  { rewrite <- existsb_rows_at. induction (st_entries st); [done|]. cbn [existsb]. by rewrite IHl, andb_assoc. }
  rewrite Hr. destruct (m !! a) as [[T' es|lc log T' es]|] eqn:E; [| |done]; cbn [agent_rows]; rewrite existsb_fmap.
  - destruct (Hw a _ E) as [Hne _]. exact (existsb_const false es Hne).
  - destruct (Hw a _ E) as (Hne & _ & Hlc). cbn [suppress compose r_lifecycle r_created_at].
    destruct (String.eqb_spec lc "ACTIVE"); [done|]. cbn [negb andb]. by apply existsb_const.
Qed.

Lemma rows_at_app st st' l a :
  contents st' = contents st ++ l -> rows_at st' a = rows_at st a ++ filter (fun r => r_ans_name r = a) l.
Proof. intros E. unfold rows_at. by rewrite E, filter_app. Qed.

Lemma filter_row_of a b es :
  Forall (fun pe => pe_AnsName pe = a) es ->
  filter (fun r => r_ans_name r = b) (row_of <$> es) = if decide (a = b) then row_of <$> es else [].
Proof.
  intros HF. rewrite Forall_forall in HF. case_decide as E.
  - apply filter_all. intros r (pe & -> & Hpe)%list_elem_of_fmap. cbn. by rewrite HF.
  - apply filter_none. intros r (pe & -> & Hpe)%list_elem_of_fmap. cbn. by rewrite HF.
Qed.

Lemma active_refines st m e :
  repr st m -> event_ok e -> e_lifecycle e = LifecycleActive ->
  exists st', replaceActiveSet st (group_of e) = Ok st' /\
    repr st' (spec_active m (e_ansName e) (e_createdAt e) (dedupByTypeURL (e_entries e))) /\
    st_last_log_id st' = st_last_log_id st /\ st_last_poll_ok_ms st' = st_last_poll_ok_ms st.
Proof.
  intros HR (Hne & HF & _ & _) Hl. unfold replaceActiveSet. cbn [group_of g_ansName g_createdAt g_entries].
  rewrite (tombstoned_spec st m) by done.
  set (a := e_ansName e) in *. set (T := e_createdAt e) in *. set (es := dedupByTypeURL (e_entries e)).
  destruct (dedupByTypeURL_spec (e_entries e)) as (Hn & Hin & Hne'). fold es in Hn, Hin, Hne'.
  assert (Hes : Forall (fun pe => pe_AnsName pe = a /\ pe_CreatedAt pe = T) es).
  { apply Forall_forall. intros q Hq%Hin. rewrite Forall_forall in HF. by destruct (HF q Hq) as (? & _ & _ & ?). }
  assert (Ha : Forall (fun pe => pe_AnsName pe = a) es) by (eapply Forall_impl; [exact Hes|]; by intros ? [? _]).
  assert (HX : exists st', fold_res insertActiveRow (deleteAllForAnsName st a) es = Ok st' /\ repr st' (<[a := Live T es]> m) /\
                 st_last_log_id st' = st_last_log_id st /\ st_last_poll_ok_ms st' = st_last_poll_ok_ms st).
  { destruct HR as [Hc Hr Hw]. destruct (deleteAll_Ok st a Hc) as (Hc1 & E1 & El & Em).
    destruct (insert_all_Ok a es (deleteAllForAnsName st a) Hc1 Ha Hn) as (st' & E' & Hc' & E2 & El' & Em').
    { intros pe Hpe Hk. rewrite E1 in Hk. apply list_elem_of_fmap in Hk as (r & Ek & [Hr1 _]%list_elem_of_filter).
      rewrite Forall_forall in Ha. unfold row_key, row_of in Ek. cbn in Ek. injection Ek as Ek _ _. rewrite (Ha pe Hpe) in Ek. congruence. }
    exists st'. split; [done|]. split; [|split; congruence]. split; [done| |].
    - intros b. rewrite (rows_at_app _ _ _ b E2), (filter_row_of a) by done. unfold rows_at. rewrite E1, list_filter_filter.
      case_decide as Hb.
      + rewrite <- Hb, lookup_insert_eq. cbn [agent_rows]. rewrite filter_none; [done|]. intros r _ [? ?]. congruence.
      + rewrite lookup_insert_ne, <- Hr, app_nil_r by done. unfold rows_at. apply list_filter_iff.
        intros r. split; [tauto|]. intros <-. split; [done|congruence].
    - apply map_Forall_insert_2; [|done]. split; [auto|done]. }
  unfold spec_active. destruct (m !! a) as [[T' es'|lc log T' es']|]; [exact HX| |exact HX].
  destruct (str_le T T'); [eauto|exact HX].
Qed.

(** *** The tombstone path *)

Lemma rows_at_tombstone st st' pe a :
  contents st' = tombstone_row pe <$> contents st -> rows_at st' a = tombstone_row pe <$> rows_at st a.
Proof.
  intros E. unfold rows_at. rewrite E, filter_fmap. f_equal. apply list_filter_iff. intros r.
  unfold tombstone_row. by case_if.
Qed.

Lemma tombstone_rows_other pe a l :
  Forall (fun r => r_ans_name r = a) l -> a <> pe_AnsName pe -> tombstone_row pe <$> l = l.
Proof.
  intros HF Ha. induction HF as [|r l Hr _ IH]; [done|]. cbn [fmap list_fmap]. f_equal; [|exact IH].
  unfold tombstone_row, suppressible. destruct (String.eqb_spec (r_ans_name r) (pe_AnsName pe)); [congruence|done].
Qed.

Lemma tombstone_live pe T es :
  Forall (fun q => pe_AnsName q = pe_AnsName pe /\ pe_CreatedAt q = T) es ->
  tombstone_row pe <$> (row_of <$> es) =
  if str_le T (pe_CreatedAt pe) then suppress (pe_Lifecycle pe) (pe_LogID pe) (pe_CreatedAt pe) ∘ row_of <$> es
  else row_of <$> es.
Proof.
  intros HF. rewrite Forall_forall in HF. rewrite <- list_fmap_compose.
  assert (HT : forall q, q ∈ es -> tombstone_row pe (row_of q) =
    if str_le T (pe_CreatedAt pe) then suppress (pe_Lifecycle pe) (pe_LogID pe) (pe_CreatedAt pe) (row_of q) else row_of q).
  { intros q [Hq1 Hq2]%HF. unfold tombstone_row, suppressible. cbn [row_of r_ans_name r_lifecycle r_created_at].
    rewrite Hq1, Hq2, String.eqb_refl. done. }
  case_if; apply list_fmap_ext; intros i q Hq%list_elem_of_lookup_2; cbn [compose]; rewrite HT by done; done.
Qed.

Lemma tombstone_dead pe lc log T (es : list ProjectedEntry) :
  lc <> LifecycleActive ->
  tombstone_row pe <$> (suppress lc log T ∘ row_of <$> es) = suppress lc log T ∘ row_of <$> es.
Proof.
  intros Hl. induction es as [|q es IH]; [done|]. cbn [fmap list_fmap]. f_equal; [|exact IH].
  unfold tombstone_row, suppressible. cbn [compose suppress r_ans_name r_lifecycle r_created_at].
  destruct (String.eqb_spec lc "ACTIVE"); [done|]. by rewrite andb_false_r.
Qed.

Lemma tombstone_refines st m pe :
  repr st m -> pe_Lifecycle pe <> LifecycleActive ->
  let '(st', noOp) := applyTombstone st pe in
  repr st' (spec_tombstone m (pe_AnsName pe) (pe_Lifecycle pe) (pe_LogID pe) (pe_CreatedAt pe)) /\
  (if noOp then [{| no_AnsName := pe_AnsName pe; no_LogID := pe_LogID pe; no_CreatedAt := pe_CreatedAt pe |}] else [])
    = spec_noop m (pe_AnsName pe) (pe_LogID pe) (pe_CreatedAt pe) /\
  st_last_log_id st' = st_last_log_id st /\ st_last_poll_ok_ms st' = st_last_poll_ok_ms st.
Proof.
  intros [Hc Hr Hw] Hl. pose proof (applyTombstone_Ok st pe Hc Hl) as HT. destruct (applyTombstone st pe) as [st' noOp].
  destruct HT as (Hc' & E & HN & Elast). set (a := pe_AnsName pe) in *. set (T := pe_CreatedAt pe) in *. split; [|split; [|done]].
  - split; [done| |].
    + intros b. rewrite (rows_at_tombstone st st' pe b E). destruct (decide (b = a)) as [->|Hb].
      * rewrite Hr. unfold spec_tombstone. destruct (m !! a) as [[T' es|lc log T' es]|] eqn:Ea.
        -- destruct (Hw a _ Ea) as [Hne HF]. cbn [agent_rows]. rewrite (tombstone_live pe T') by done. fold T.
           destruct (str_le T' T); [by rewrite lookup_insert_eq|by rewrite Ea].
        -- destruct (Hw a _ Ea) as (_ & _ & Hlc). rewrite Ea. cbn [agent_rows]. by rewrite tombstone_dead.
        -- by rewrite Ea.
      * rewrite tombstone_rows_other with (a := b); [|by apply Forall_forall; intros r [? _]%list_elem_of_filter|done].
        rewrite Hr. unfold spec_tombstone. repeat case_match; try done. by rewrite lookup_insert_ne.
    + unfold spec_tombstone. destruct (m !! a) as [[T' es|lc log T' es]|] eqn:Ea; [|done|done].
      destruct (str_le T' T); [|done]. apply map_Forall_insert_2; [|done]. destruct (Hw a _ Ea) as [Hne HF].
      split; [done|]. split; [|done]. eapply Forall_impl; [exact HF|]. by intros ? [? _].
  - assert (HA : (exists r, r ∈ contents st /\ r_ans_name r = a /\ r_lifecycle r = LifecycleActive) <->
                 exists r, r ∈ rows_at st a /\ r_lifecycle r = LifecycleActive).
    { unfold rows_at. setoid_rewrite list_elem_of_filter. naive_solver. }
    assert (HS : (forall r, r ∈ contents st -> suppressible a T r = false) <->
                 forall r, r ∈ rows_at st a -> r_lifecycle r = LifecycleActive -> str_le (r_created_at r) T = false).
    { unfold rows_at, suppressible. setoid_rewrite list_elem_of_filter. split.
      - intros H r [Hra Hin] Hact. specialize (H r Hin). rewrite Hra, Hact, String.eqb_refl in H. exact H.
      - intros H r Hin. destruct (String.eqb_spec (r_ans_name r) a); [|done].
        destruct (String.eqb_spec (r_lifecycle r) "ACTIVE"); [|done]. cbn [andb]. by apply H. }
    rewrite HA, HS, Hr in HN. unfold spec_noop. destruct (m !! a) as [[T' es|lc log T' es]|] eqn:Ea; cbn [agent_rows] in HN.
    + destruct (Hw a _ Ea) as [Hne HF]. rewrite Forall_forall in HF. destruct (str_le T' T) eqn:Ele.
      * destruct noOp; [|done]. destruct (proj1 HN eq_refl) as [H _]. destruct es as [|q es]; [done|].
        specialize (H (row_of q)). cbn [row_of r_created_at] in H. destruct (HF q) as [_ Hq]; [left|].
        rewrite Hq in H. rewrite H in Ele; [done|left|done].
      * destruct noOp; [done|]. assert (false = true); [|done]. apply HN. split.
        -- intros r (q & -> & Hq)%list_elem_of_fmap _. cbn. by destruct (HF q Hq) as [_ ->].
        -- destruct es as [|q es]; [done|]. exists (row_of q). split; [left|done].
    + destruct noOp; [|done]. destruct (proj1 HN eq_refl) as [_ (r & (q & -> & Hq)%list_elem_of_fmap & Hact)].
      destruct (Hw a _ Ea) as (_ & _ & Hlc). cbn in Hact. done.
    + destruct noOp; [|done]. destruct (proj1 HN eq_refl) as [_ (r & Hq & Hact)]. set_solver.
Qed.

(** ** Pages *)

Definition page_ok (evs : list IndexEvent) : Prop := Forall event_ok evs /\ NoDup (event_key <$> evs).
Definition page_entries (evs : list IndexEvent) : list ProjectedEntry := concat (e_entries <$> evs).

Lemma apply_group_refines st m report e :
  repr st m -> event_ok e ->
  exists st', apply_group (st, report) (group_of e) = Ok (st', (spec_event (m, report) e).2) /\
    repr st' (spec_event (m, report) e).1 /\
    st_last_log_id st' = st_last_log_id st /\ st_last_poll_ok_ms st' = st_last_poll_ok_ms st.
Proof.
  intros HR He. unfold apply_group, spec_event. cbn [group_of g_lifecycle g_entries fst snd].
  destruct (String.eqb_spec (e_lifecycle e) LifecycleActive) as [El|El].
  - destruct (active_refines st m e HR He El) as (st' & -> & HR' & Hx). cbn. eauto.
  - destruct He as (Hne & HF & Hlc & _). rewrite !elem_of_cons, elem_of_nil in Hlc.
    assert (String.eqb (e_lifecycle e) LifecycleRevoked || String.eqb (e_lifecycle e) LifecycleDeprecated = true) as ->.
    { destruct Hlc as [E|[E|[E|[]]]]; [done|by rewrite E..]. }
    destruct (e_entries e) as [|pe es]; [done|]. apply Forall_cons in HF as [(E1 & E2 & E3 & E4) _].
    pose proof (tombstone_refines st m pe HR) as HT. destruct (applyTombstone st pe) as [st' noOp].
    rewrite E1, E2, E3, E4 in *. destruct HT as (HR' & HN & Hx); [done|]. exists st'. split; [|done].
    f_equal. f_equal. rewrite <- HN. destruct noOp; [done|]. by rewrite app_nil_r.
Qed.

Lemma apply_groups_refine evs st m report :
  repr st m -> Forall event_ok evs ->
  exists st', fold_res apply_group (st, report) (group_of <$> evs) = Ok (st', (fold_left spec_event evs (m, report)).2) /\
    repr st' (fold_left spec_event evs (m, report)).1 /\
    st_last_log_id st' = st_last_log_id st /\ st_last_poll_ok_ms st' = st_last_poll_ok_ms st.
Proof.
  revert st m report. induction evs as [|e evs IH]; intros st m report HR HF; [by eexists|].
  apply Forall_cons in HF as [He HF]. cbn [fmap list_fmap fold_res fold_left].
  destruct (apply_group_refines st m report e HR He) as (st1 & -> & HR1 & El & Em). cbn [mbind result_bind].
  destruct (spec_event (m, report) e) as [m1 rep1]. cbn [fst snd] in *.
  destruct (IH st1 m1 rep1 HR1 HF) as (st' & E' & HR' & El' & Em'). exists st'. split; [exact E'|]. split; [done|]. split; congruence.
Qed.

Lemma Apply_Ok st m evs :
  repr st m -> page_ok evs ->
  exists st', Apply st (page_entries evs) = (st', Ok (fold_left spec_event evs (m, [])).2) /\
    repr st' (fold_left spec_event evs (m, [])).1 /\
    st_last_log_id st' = st_last_log_id st /\ st_last_poll_ok_ms st' = st_last_poll_ok_ms st.
Proof.
  intros HR [HF HN]. unfold Apply, page_entries. rewrite groupByEvent_events by done.
  destruct (apply_groups_refine evs st m [] HR HF) as (st' & -> & Hx). eauto.
Qed.

Lemma repr_empty : repr empty_store ∅.
Proof. split; [split; repeat constructor|intros a; by rewrite lookup_empty|apply map_Forall_empty]. Qed.

(** The agent's state does not depend on other agents' events. *)
Lemma spec_event_other acc e a : e_ansName e <> a -> (spec_event acc e).1 !! a = acc.1 !! a.
Proof.
  intros Ha. unfold spec_event, spec_active, spec_tombstone. case_if; cbn [fst].
  - repeat case_match; rewrite ?lookup_insert_ne by done; done.
  - repeat case_match; rewrite ?lookup_insert_ne by done; done.
Qed.

(** One agent's machine. *)
Definition agent_step (s : option Agent) (e : IndexEvent) : option Agent :=
  if String.eqb (e_lifecycle e) LifecycleActive then
    match s with
    | Some (Dead _ _ T' _) => if str_le (e_createdAt e) T' then s else Some (Live (e_createdAt e) (dedupByTypeURL (e_entries e)))
    | _ => Some (Live (e_createdAt e) (dedupByTypeURL (e_entries e)))
    end
  else
    match s with
    | Some (Live T' es) => if str_le T' (e_createdAt e) then Some (Dead (e_lifecycle e) (e_logID e) (e_createdAt e) es) else s
    | _ => s
    end.

Lemma spec_event_same acc e : (spec_event acc e).1 !! e_ansName e = agent_step (acc.1 !! e_ansName e) e.
Proof.
  unfold spec_event, spec_active, spec_tombstone, agent_step.
  case_if; cbn [fst]; destruct (acc.1 !! e_ansName e) as [[T' es|lc log T' es]|] eqn:E;
    repeat case_if; by rewrite ?lookup_insert_eq.
Qed.

Definition of_agent (a : string) (evs : list IndexEvent) : list IndexEvent := filter (fun e => e_ansName e = a) evs.

Lemma spec_run_agent evs acc a :
  (fold_left spec_event evs acc).1 !! a = fold_left agent_step (of_agent a evs) (acc.1 !! a).
Proof.
  revert acc. induction evs as [|e evs IH]; intros acc; [done|]. cbn [fold_left]. rewrite IH. unfold of_agent.
  rewrite filter_cons. case_decide as E; cbn [fold_left]; [|by rewrite spec_event_other].
  f_equal. subst a. apply spec_event_same.
Qed.

(** *** Replaying a page *)

Definition before (e e' : IndexEvent) : Prop := str_lt (e_createdAt e) (e_createdAt e') = true.

Lemma sorted_snoc {A} (R : A -> A -> Prop) l x :
  StronglySorted R (l ++ [x]) -> StronglySorted R l /\ Forall (fun y => R y x) l.
Proof.
  induction l as [|y l IH]; simpl; intros H; [split; constructor|].
  inversion_clear H as [|? ? H1 H2]. destruct (IH H1) as [I1 I2]. apply Forall_app in H2 as [H2 [Hx _]%Forall_cons].
  split; by constructor.
Qed.

Lemma str_lt_le a b : str_lt a b = true -> str_le a b = true.
Proof. intros H. unfold str_le. by rewrite str_lt_asym. Qed.

(** A dead agent is not revived by events no newer than its tombstone. *)
Lemma dead_run evs lc log T es :
  Forall (fun e => e_lifecycle e = LifecycleActive -> str_le (e_createdAt e) T = true) evs ->
  fold_left agent_step evs (Some (Dead lc log T es)) = Some (Dead lc log T es).
Proof.
  induction 1 as [|e evs He _ IH]; [done|]. cbn [fold_left]. unfold agent_step at 2.
  destruct (String.eqb_spec (e_lifecycle e) LifecycleActive) as [El|]; [|exact IH]. by rewrite He.
Qed.

Definition dead_before (T : string) (s : option Agent) : Prop :=
  match s with Some (Dead _ _ T' _) => str_lt T' T = true | _ => True end.

Lemma dead_before_run evs T s :
  Forall (fun e => str_lt (e_createdAt e) T = true) evs -> dead_before T s -> dead_before T (fold_left agent_step evs s).
Proof.
  intros HF. revert s. induction HF as [|e evs He _ IH]; intros s Hs; [done|]. cbn [fold_left]. apply IH.
  unfold agent_step. repeat case_match; simplify_eq; try done.
Qed.

Lemma agent_step_cases s e :
  agent_step s e = s \/
  (e_lifecycle e = LifecycleActive /\ agent_step s e = Some (Live (e_createdAt e) (dedupByTypeURL (e_entries e)))) \/
  (e_lifecycle e <> LifecycleActive /\ exists es, agent_step s e = Some (Dead (e_lifecycle e) (e_logID e) (e_createdAt e) es)).
Proof.
  unfold agent_step. destruct (String.eqb_spec (e_lifecycle e) LifecycleActive);
    destruct s as [[T' es|lc log T' es]|]; try case_if; eauto 6.
Qed.

Lemma agent_step_revive s e :
  e_lifecycle e = LifecycleActive -> dead_before (e_createdAt e) s ->
  agent_step s e = Some (Live (e_createdAt e) (dedupByTypeURL (e_entries e))).
Proof.
  intros El HD. unfold agent_step. rewrite El. change (String.eqb LifecycleActive LifecycleActive) with true. cbn beta iota.
  destruct s as [[T' es|lc log T' es]|]; [done| |done]. cbn in HD. unfold str_le. by rewrite HD.
Qed.

Lemma agent_replay evs s :
  StronglySorted before evs ->
  fold_left agent_step evs (fold_left agent_step evs s) = fold_left agent_step evs s.
Proof.
  induction evs as [|e evs IH] using rev_ind; [done|]. intros [Hs Hb]%sorted_snoc.
  rewrite !fold_left_app. cbn [fold_left]. specialize (IH Hs). set (s1 := fold_left agent_step evs s) in *. clearbody s1.
  destruct (agent_step_cases s1 e) as [E|[[El E]|(El & es & E)]]; rewrite E.
  - by rewrite IH.
  - apply agent_step_revive; [done|]. by apply dead_before_run.
  - rewrite dead_run by (eapply Forall_impl; [exact Hb|]; intros ? ? _; by apply str_lt_le).
    unfold agent_step. by destruct (String.eqb_spec (e_lifecycle e) LifecycleActive).
Qed.

(** ** Theorems *)

(** C34: Applying a page of events to the index refines the per-agent machine and
    never fails: an ACTIVE event replaces its agent's rows unless a tombstone at
    or after it holds, a tombstone suppresses the agent's rows unless they are
    newer, which is reported; other agents and the cursor are untouched, no
    UNIQUE or full-text constraint is violated, and the full-text and side tables
    stay exactly in step with the ACTIVE rows. *)
Theorem index_refines st m evs :
  repr st m -> page_ok evs ->
  let '(m', report) := fold_left spec_event evs (m, []) in
  exists st', Apply st (page_entries evs) = (st', Ok report) /\ repr st' m' /\
    Store_Cursor st' = Store_Cursor st /\
    (forall a, Forall (fun e => e_ansName e <> a) evs -> rows_at st' a = rows_at st a).
Proof.
  intros HR HP. destruct (Apply_Ok st m evs HR HP) as (st' & E & HR' & El & Em).
  destruct (fold_left spec_event evs (m, [])) as [m' report] eqn:Ef. exists st'. split_and!; [done|done| |].
  - unfold Store_Cursor. by rewrite El, Em.
  - intros a Ha. destruct HR as [_ Hr _], HR' as [_ Hr' _]. rewrite Hr, Hr'. f_equal. cbn [fst].
    pose proof (spec_run_agent evs (m, []) a) as HA. rewrite Ef in HA. cbn [fst snd] in HA. rewrite HA.
    unfold of_agent. rewrite filter_none; [done|]. by rewrite Forall_forall in Ha.
Qed.

(** A page is applied idempotently: when each agent's events in the page have
    strictly increasing creation times, re-applying the page (a crash between
    applying it and saving the cursor replays it) leaves every agent's rows as the
    first application left them. *)
Theorem index_replay_idempotent st m evs :
  repr st m -> page_ok evs -> (forall a, StronglySorted before (of_agent a evs)) ->
  exists st1 st2 rep1 rep2, Apply st (page_entries evs) = (st1, Ok rep1) /\ Apply st1 (page_entries evs) = (st2, Ok rep2) /\
    (forall a, rows_at st2 a = rows_at st1 a) /\ consistent st2.
Proof.
  intros HR HP HS. destruct (Apply_Ok st m evs HR HP) as (st1 & E1 & HR1 & _).
  destruct (Apply_Ok st1 _ evs HR1 HP) as (st2 & E2 & HR2 & _). exists st1, st2. eexists _, _. split; [exact E1|]. split; [exact E2|].
  split; [|by destruct HR2]. intros a. destruct HR1 as [_ Hr1 _], HR2 as [_ Hr2 _]. rewrite Hr1, Hr2. f_equal.
  rewrite !spec_run_agent. cbn [fst]. rewrite spec_run_agent. cbn [fst]. by apply agent_replay.
Qed.

Definition apply_page (st : Store) (evs : list IndexEvent) : Store := (Apply st (page_entries evs)).1.

(** C27: A revocation sticks: once an agent is dead since time [T], no sequence of
    pages in which its registrations and renewals are no newer than [T] brings
    back an ACTIVE row or a full-text row for it; its rows do not change at all. *)
Theorem tombstone_sticks st m pages a lc log T es :
  repr st m -> m !! a = Some (Dead lc log T es) -> Forall page_ok pages ->
  Forall (Forall (fun e => e_ansName e = a -> e_lifecycle e = LifecycleActive -> str_le (e_createdAt e) T = true)) pages ->
  let st' := fold_left apply_page pages st in
  rows_at st' a = rows_at st a /\
  (forall id r, (id, r) ∈ st_entries st' -> r_ans_name r = a ->
     r_lifecycle r <> LifecycleActive /\ id ∉ f_rowid <$> st_fts st').
Proof.
  intros HR Hm HP HT. cbn zeta.
  assert (HX : exists m', repr (fold_left apply_page pages st) m' /\ m' !! a = Some (Dead lc log T es)).
  { revert st m HR Hm. induction HP as [|evs pages HP _ IH]; intros st m HR Hm; [by exists m|].
    apply Forall_cons in HT as [HT0 HT]. cbn [fold_left]. destruct (Apply_Ok st m evs HR HP) as (st1 & E1 & HR1 & _).
    unfold apply_page at 2. rewrite E1. cbn [fst]. eapply (IH HT); [exact HR1|].
    rewrite spec_run_agent. cbn [fst]. rewrite Hm. apply dead_run. unfold of_agent.
    apply Forall_forall. intros e [Ha He]%list_elem_of_filter. rewrite Forall_forall in HT0. auto. }
  destruct HX as (m' & [Hc' Hr' Hw'] & Hm'). destruct HR as [Hc Hr Hw]. split; [by rewrite Hr, Hr', Hm, Hm'|].
  intros id r Hin Ha. assert (Hrow : r_lifecycle r <> LifecycleActive).
  { assert (Hx : r ∈ rows_at (fold_left apply_page pages st) a).
    { unfold rows_at, contents. apply list_elem_of_filter. split; [done|]. apply list_elem_of_fmap. by exists (id, r). }
    rewrite Hr', Hm' in Hx. apply list_elem_of_fmap in Hx as (pe & -> & _). cbn. by destruct (Hw' a _ Hm') as (_ & _ & ?). }
  split; [done|]. destruct Hc' as [Hi _ Hf _ _ _]. rewrite Hf.
  intros (f & E & (x & -> & [Hact Hx]%list_elem_of_filter)%list_elem_of_fmap)%list_elem_of_fmap. cbn in E.
  rewrite (NoDup_fmap_fst_inj _ x (id, r) Hi Hx Hin) in Hact by done. done.
Qed.

(** *** Full-text queries *)

(** The phrase grammar of FTS5 queries: string literals in double quotes, a
    quote inside doubled, separated by spaces (an implicit AND); anything else
    (operators, column filters, barewords) is [None] here. *)
Fixpoint fts_phrases (instr : bool) (cur : string) (s : string) : option (list string) :=
  match s with
  | EmptyString => if instr then None else Some []
  | String c s1 =>
      if instr then
        if Ascii.eqb c (chr 34) then
          match s1 with
          | String d s2 => if Ascii.eqb d (chr 34) then fts_phrases true (cur +:+ String d "") s2
                           else l ← fts_phrases false "" s1; Some (cur :: l)
          | EmptyString => Some [cur]
          end
        else fts_phrases true (cur +:+ String c "") s1
      else if Ascii.eqb c (chr 34) then fts_phrases true "" s1
      else if Ascii.eqb c " " then fts_phrases false "" s1 else None
  end.

Lemma fts_quoted tok cur rest :
  (forall d s, rest = String d s -> d <> chr 34) ->
  fts_phrases true cur (ReplaceAll tok (chr 34) (String (chr 34) (String (chr 34) "")) +:+ String (chr 34) rest) =
  (l ← fts_phrases false "" rest; Some ((cur +:+ tok) :: l)).
Proof.
  intros Hrest. revert cur. induction tok as [|c tok IH]; intros cur.
  - cbn [ReplaceAll]. rewrite app_nil_l_s, app_nil_r_s. cbn [fts_phrases]. change (Ascii.eqb (chr 34) (chr 34)) with true.
    cbn [andb]. destruct rest as [|d rest]; [done|]. destruct (Ascii.eqb_spec d (chr 34)); [by destruct (Hrest d rest)|done].
  - cbn [ReplaceAll]. destruct (Ascii.eqb_spec c (chr 34)) as [->|Hc].
    + rewrite !app_cons_s, app_nil_l_s. cbn [fts_phrases]. change (Ascii.eqb (chr 34) (chr 34)) with true. cbn beta iota.
      rewrite IH, app_assoc_s. by rewrite app_cons_s, app_nil_l_s.
    + rewrite !app_cons_s. cbn [fts_phrases]. destruct (Ascii.eqb_spec c (chr 34)); [done|].
      rewrite IH, app_assoc_s. by rewrite app_cons_s, app_nil_l_s.
Qed.

Lemma fts_quote_token tok rest :
  (forall d s, rest = String d s -> d <> chr 34) ->
  fts_phrases false "" (quote_token tok +:+ rest) = (l ← fts_phrases false "" rest; Some (tok :: l)).
Proof.
  intros Hrest. unfold quote_token. rewrite app_assoc_s, !app_cons_s, app_nil_l_s. cbn [fts_phrases].
  change (Ascii.eqb (chr 34) (chr 34)) with true. cbn beta iota. by rewrite fts_quoted.
Qed.

(** User text never becomes query syntax: the FTS5 expression built from any
    text is exactly a sequence of string literals, whose contents are the
    whitespace-separated fields of the text; the expression is empty exactly when
    the text has no field. *)
Theorem buildMatchQuery_literal text :
  fts_phrases false "" (buildMatchQuery text) = Some (Fields text) /\
  (buildMatchQuery text = "" <-> Fields text = []).
Proof.
  unfold buildMatchQuery. generalize (Fields text) as l. intros l. split.
  - induction l as [|tok l IH]; [done|]. destruct l as [|tok' l].
    + change (Join (quote_token <$> [tok]) " ") with (quote_token tok).
      rewrite <- (app_nil_r_s (quote_token tok)), fts_quote_token; done.
    + change (Join (quote_token <$> tok :: tok' :: l) " ")
        with (quote_token tok +:+ String " " (Join (quote_token <$> tok' :: l) " ")).
      rewrite fts_quote_token by (by intros d s [= <- _]). cbn [fts_phrases].
      change (Ascii.eqb " " (chr 34)) with false. change (Ascii.eqb " " " ") with true. cbn beta iota. by rewrite IH.
  - destruct l as [|tok [|tok' l]]; [done| |]; split; done.
Qed.

(** ** Instances *)

Definition demo_pe (a typ lc log T : string) : ProjectedEntry :=
  {| pe_Entry := {| en_Identifier := "urn:air:bot.example.com:agents:Bot"; en_DisplayName := "Bot"; en_Type := typ;
                    en_URL := "https://bot.example.com/card"; en_Description := ""; en_Tags := ["travel"];
                    en_Capabilities := ["book"]; en_Version := "1.0.0"; en_UpdatedAt := T; en_Metadata := [];
                    en_TrustManifest := None |};
     pe_Lifecycle := lc; pe_AgentID := "id"; pe_AnsName := a; pe_LogID := log; pe_CreatedAt := T; pe_ExpiresAt := "" |}.

Definition demo_ev (a lc log T : string) : IndexEvent :=
  {| e_ansName := a; e_lifecycle := lc; e_logID := log; e_createdAt := T; e_entries := [demo_pe a mediaTypeMCP lc log T] |}.

Definition demo_page : list IndexEvent :=
  [demo_ev "ans://v1.0.0.bot.example.com" LifecycleActive "l1" "2026-01-01T00:00:00Z";
   demo_ev "ans://v1.0.0.bot.example.com" LifecycleRevoked "l2" "2026-01-02T00:00:00Z"].

Lemma demo_page_ok : page_ok demo_page.
Proof.
  split.
  - repeat constructor; try done; by apply list_elem_of_In; vm_compute; auto.
  - apply (bool_decide_unpack _). vm_compute. exact I.
Qed.

(** A registration and its revocation in one page: one dead row, no search rows. *)
Lemma index_refines_witness :
  exists st', Apply empty_store (page_entries demo_page) = (st', Ok []) /\ st_fts st' = [] /\
    r_lifecycle <$> rows_at st' "ans://v1.0.0.bot.example.com" = [LifecycleRevoked].
Proof.
  pose proof (index_refines empty_store ∅ demo_page repr_empty demo_page_ok) as H.
  destruct (fold_left spec_event demo_page (∅, [])) as [m' report] eqn:E.
  destruct H as (st' & HA & HR & _). exists st'. vm_compute in HA. injection HA as <- <-. vm_compute. done.
Defined.

Lemma index_replay_idempotent_witness :
  exists st1 st2 rep1 rep2, Apply empty_store (page_entries demo_page) = (st1, Ok rep1) /\
    Apply st1 (page_entries demo_page) = (st2, Ok rep2) /\ (forall a, rows_at st2 a = rows_at st1 a) /\ consistent st2.
Proof.
  apply (index_replay_idempotent empty_store ∅ demo_page repr_empty demo_page_ok).
  intros a. unfold of_agent, demo_page. rewrite !filter_cons, filter_nil.
  case_decide; case_decide; repeat constructor; vm_compute; done.
Defined.

Lemma tombstone_sticks_witness :
  rows_at (apply_page (apply_page empty_store demo_page) demo_page) "ans://v1.0.0.bot.example.com" =
  rows_at (apply_page empty_store demo_page) "ans://v1.0.0.bot.example.com".
Proof.
  destruct (Apply_Ok empty_store ∅ demo_page repr_empty demo_page_ok) as (st & E & HR & _).
  assert (Est : st = apply_page empty_store demo_page) by (unfold apply_page; by rewrite E). rewrite <- Est.
  apply (tombstone_sticks st (fold_left spec_event demo_page (∅, [])).1 [demo_page] "ans://v1.0.0.bot.example.com"
           LifecycleRevoked "l2" "2026-01-02T00:00:00Z"
           [demo_pe "ans://v1.0.0.bot.example.com" mediaTypeMCP LifecycleActive "l1" "2026-01-01T00:00:00Z"] HR).
  - vm_compute. reflexivity.
  - constructor; [exact demo_page_ok|constructor].
  - repeat constructor; intros _ _; vm_compute; reflexivity.
Defined.
