(* ===== verification/Outbox.v ===== *)
(** The registration authority's outbox: [internal/adapter/store/sqlite/outbox.go]
    and the delivery worker [internal/ra/outbox/worker.go].

    The table is the list of its rows in id order; ids come from an
    AUTOINCREMENT sequence.  SQL conditions are written out on the nullable
    columns.  Reads of the clock are arguments.  A JSON column is the value it
    decodes to: [payload] says whether it is empty, does not decode, or decodes
    to an [OutboxPayload].  Failures of the database itself are not modelled. *)
From S2P Require Import Prelude GoStrings GoTime.

#[local] Set Default Goal Selector "!".
#[local] Open Scope Z_scope.

(** ** Rows *)

Record innerAgent := { ia_Host : string; ia_Version : string }.

(** A producer event: its canonical bytes, and the fields of it that the events
    feed reads. *)
Record innerEvent := {
  ie_Canonical : string;
  ie_AnsName : string;
  ie_ExpiresAt : string;
  ie_Timestamp : string;
  ie_Agent : option innerAgent
}.

(** The raw [innerEventCanonical] member: absent, JSON [null], a value that does
    not decode as an event, or an event. *)
Inductive inner_json := InnerAbsent | InnerNull | InnerOther | InnerEvent (e : innerEvent).

Record OutboxPayload := { op_InnerEventCanonical : inner_json; op_ProducerSignature : string }.

Inductive payload := PEmpty | PUndecodable | PDecoded (p : OutboxPayload).

Record OutboxRow := {
  ob_id : Z;
  ob_event_type : string;
  ob_agent_id : string;
  ob_schema_version : string;
  ob_payload : payload;
  ob_attempts : Z;
  ob_permanent_attempts : Z;
  ob_last_error : option string;
  ob_next_attempt_at_ms : Z;
  ob_sent_at_ms : option Z;
  ob_log_id : option string;
  ob_claim_token : option string;
  ob_claimed_until_ms : option Z;
  ob_dead_at_ms : option Z;
  ob_cancelled_at_ms : option Z;
  ob_created_at_ms : Z
}.

Record Outbox := { ob_rows : list OutboxRow; ob_seq : Z }.

Definition empty_outbox : Outbox := {| ob_rows := []; ob_seq := 0 |}.

Inductive outbox_error := OEmptyPayload | OSchemaVersion | OEmptyLogID | OInvalidClaim | OClaimLost.

Definition AGENT_REVOKED : string := "AGENT_REVOKED".

(** [COALESCE(x, d)], [x IS NULL]. *)
Definition coalesce {A} (x : option A) (d : A) : A := match x with Some v => v | None => d end.
Definition is_null {A} (x : option A) : bool := match x with Some _ => false | None => true end.

(** [sent_at_ms IS NULL AND dead_at_ms IS NULL AND cancelled_at_ms IS NULL] *)
Definition ob_open (r : OutboxRow) : bool :=
  is_null (ob_sent_at_ms r) && is_null (ob_dead_at_ms r) && is_null (ob_cancelled_at_ms r).

Definition schema_ok (v : string) : bool := String.eqb v "V1" || String.eqb v "V2".

(** ** Inserts *)

Definition insert_row (t : Outbox) (mk : Z -> OutboxRow) : Outbox * Z :=
  ({| ob_rows := ob_rows t ++ [mk (ob_seq t + 1)]; ob_seq := ob_seq t + 1 |}, ob_seq t + 1).

Definition Enqueue (t : Outbox) (eventType agentID schemaVersion : string) (p : payload) (earliestAttempt now : Time)
  : result outbox_error (Outbox * Z) :=
  match p with
  | PEmpty => Err OEmptyPayload
  | _ =>
      if negb (schema_ok schemaVersion) then Err OSchemaVersion else
      Ok (insert_row t (fun id =>
        {| ob_id := id; ob_event_type := eventType; ob_agent_id := agentID; ob_schema_version := schemaVersion;
           ob_payload := p; ob_attempts := 0; ob_permanent_attempts := 0; ob_last_error := None;
           ob_next_attempt_at_ms := Time_UnixMilli earliestAttempt; ob_sent_at_ms := None; ob_log_id := None;
           ob_claim_token := None; ob_claimed_until_ms := None; ob_dead_at_ms := None; ob_cancelled_at_ms := None;
           ob_created_at_ms := Time_UnixMilli now |}))
  end.

Definition RecordSealed (t : Outbox) (eventType agentID schemaVersion : string) (p : payload) (logID : string) (now : Time)
  : result outbox_error (Outbox * Z) :=
  match p with
  | PEmpty => Err OEmptyPayload
  | _ =>
      if String.eqb logID "" then Err OEmptyLogID else
      if negb (schema_ok schemaVersion) then Err OSchemaVersion else
      Ok (insert_row t (fun id =>
        {| ob_id := id; ob_event_type := eventType; ob_agent_id := agentID; ob_schema_version := schemaVersion;
           ob_payload := p; ob_attempts := 0; ob_permanent_attempts := 0; ob_last_error := None;
           ob_next_attempt_at_ms := Time_UnixMilli now; ob_sent_at_ms := Some (Time_UnixMilli now);
           ob_log_id := Some logID; ob_claim_token := None; ob_claimed_until_ms := None; ob_dead_at_ms := None;
           ob_cancelled_at_ms := None; ob_created_at_ms := Time_UnixMilli now |}))
  end.

(** ** Claims *)

(** [NOT EXISTS] an earlier open row of the same agent. *)
Definition no_earlier_open (rows : list OutboxRow) (c : OutboxRow) : bool :=
  negb (existsb (fun e => String.eqb (ob_agent_id e) (ob_agent_id c) && (ob_id e <? ob_id c) && ob_open e) rows).

Definition is_revoked (r : OutboxRow) : bool := String.eqb (ob_event_type r) AGENT_REVOKED.

Definition eligible (rows : list OutboxRow) (nowMs nowMs' : Z) (c : OutboxRow) : bool :=
  ob_open c && (ob_next_attempt_at_ms c <=? nowMs) && (coalesce (ob_claimed_until_ms c) 0 <=? nowMs') &&
  (is_revoked c || no_earlier_open rows c).

(** [ORDER BY (event_type = 'AGENT_REVOKED') DESC, id ASC LIMIT ?] on a table in
    id order. *)
Definition Ready (t : Outbox) (batchSize : Z) (now now' : Time) : list OutboxRow :=
  let batchSize := if batchSize <=? 0 then 10 else batchSize in
  let rows := filter (fun r => eligible (ob_rows t) (Time_UnixMilli now) (Time_UnixMilli now') r = true) (ob_rows t) in
  take (Z.to_nat batchSize)
    (filter (fun r => is_revoked r = true) rows ++ filter (fun r => is_revoked r = false) rows).

(** An [UPDATE ... WHERE]: the new table and the number of rows affected. *)
Definition update_where (t : Outbox) (cond : OutboxRow -> bool) (f : OutboxRow -> OutboxRow) : Outbox * nat :=
  ({| ob_rows := (fun r => if cond r then f r else r) <$> ob_rows t; ob_seq := ob_seq t |},
   length (filter (fun r => cond r = true) (ob_rows t))).

Definition set_claim (tok : option string) (until : option Z) (r : OutboxRow) : OutboxRow :=
  {| ob_id := ob_id r; ob_event_type := ob_event_type r; ob_agent_id := ob_agent_id r;
     ob_schema_version := ob_schema_version r; ob_payload := ob_payload r; ob_attempts := ob_attempts r;
     ob_permanent_attempts := ob_permanent_attempts r; ob_last_error := ob_last_error r;
     ob_next_attempt_at_ms := ob_next_attempt_at_ms r; ob_sent_at_ms := ob_sent_at_ms r; ob_log_id := ob_log_id r;
     ob_claim_token := tok; ob_claimed_until_ms := until; ob_dead_at_ms := ob_dead_at_ms r;
     ob_cancelled_at_ms := ob_cancelled_at_ms r; ob_created_at_ms := ob_created_at_ms r |}.

Definition Acquire (t : Outbox) (id attempts : Z) (token : string) (lease : Duration) (now : Time)
  : result outbox_error (Outbox * bool) :=
  if String.eqb token "" || (lease <=? 0) then Err OInvalidClaim else
  let '(t', n) :=
    update_where t (fun r => (ob_id r =? id) && (ob_attempts r =? attempts) && ob_open r &&
                             (ob_next_attempt_at_ms r <=? Time_UnixMilli now) &&
                             (coalesce (ob_claimed_until_ms r) 0 <=? Time_UnixMilli now) &&
                             (is_revoked r || no_earlier_open (ob_rows t) r))
      (set_claim (Some token) (Some (Time_UnixMilli (Time_Add now lease)))) in
  Ok (t', (n =? 1)%nat).

(** ** Completion *)

(** [claimResult] after an [UPDATE] *)
Definition claimResult (res : Outbox * nat) : result outbox_error Outbox :=
  if (res.2 =? 1)%nat then Ok res.1 else Err OClaimLost.

(** [id = ? AND COALESCE(claim_token, '') = ? AND] open *)
Definition owned (id : Z) (token : string) (r : OutboxRow) : bool :=
  (ob_id r =? id) && String.eqb (coalesce (ob_claim_token r) "") token && ob_open r.

Definition sent_row (nowMs : Z) (logID : string) (r : OutboxRow) : OutboxRow :=
  {| ob_id := ob_id r; ob_event_type := ob_event_type r; ob_agent_id := ob_agent_id r;
     ob_schema_version := ob_schema_version r; ob_payload := ob_payload r; ob_attempts := ob_attempts r;
     ob_permanent_attempts := ob_permanent_attempts r; ob_last_error := ob_last_error r;
     ob_next_attempt_at_ms := ob_next_attempt_at_ms r; ob_sent_at_ms := Some nowMs; ob_log_id := Some logID;
     ob_claim_token := None; ob_claimed_until_ms := None; ob_dead_at_ms := ob_dead_at_ms r;
     ob_cancelled_at_ms := ob_cancelled_at_ms r; ob_created_at_ms := ob_created_at_ms r |}.

Definition MarkSent (t : Outbox) (id : Z) (token logID : string) (now : Time) : result outbox_error Outbox :=
  claimResult (update_where t (owned id token) (sent_row (Time_UnixMilli now) logID)).

(** [time.Duration(1<<min(attempts, 10)) * time.Second], capped. *)
Definition backoff (attempts : Z) (maxDelay : Duration) : Duration :=
  let delay := Z.shiftl 1 (Z.min attempts 10) * Second in
  if maxDelay <? delay then maxDelay else delay.

Definition failed_row (attempts : Z) (lastError : string) (nextMs : Z) (permanent : bool) (r : OutboxRow) : OutboxRow :=
  {| ob_id := ob_id r; ob_event_type := ob_event_type r; ob_agent_id := ob_agent_id r;
     ob_schema_version := ob_schema_version r; ob_payload := ob_payload r; ob_attempts := attempts;
     ob_permanent_attempts := if permanent then ob_permanent_attempts r + 1 else 0; ob_last_error := Some lastError;
     ob_next_attempt_at_ms := nextMs; ob_sent_at_ms := ob_sent_at_ms r; ob_log_id := ob_log_id r;
     ob_claim_token := None; ob_claimed_until_ms := None; ob_dead_at_ms := ob_dead_at_ms r;
     ob_cancelled_at_ms := ob_cancelled_at_ms r; ob_created_at_ms := ob_created_at_ms r |}.

Definition Outbox_MarkFailed (t : Outbox) (id : Z) (token : string) (attempts : Z) (lastError : string)
  (maxDelay : Duration) (permanent : bool) (now : Time) : result outbox_error Outbox :=
  claimResult (update_where t (owned id token)
    (failed_row attempts lastError (Time_UnixMilli (Time_Add now (backoff attempts maxDelay))) permanent)).

Definition dead_row (nowMs : Z) (reason : string) (r : OutboxRow) : OutboxRow :=
  {| ob_id := ob_id r; ob_event_type := ob_event_type r; ob_agent_id := ob_agent_id r;
     ob_schema_version := ob_schema_version r; ob_payload := ob_payload r; ob_attempts := ob_attempts r + 1;
     ob_permanent_attempts := ob_permanent_attempts r; ob_last_error := Some reason;
     ob_next_attempt_at_ms := ob_next_attempt_at_ms r; ob_sent_at_ms := ob_sent_at_ms r; ob_log_id := ob_log_id r;
     ob_claim_token := None; ob_claimed_until_ms := None; ob_dead_at_ms := Some nowMs;
     ob_cancelled_at_ms := ob_cancelled_at_ms r; ob_created_at_ms := ob_created_at_ms r |}.

Definition MarkDead (t : Outbox) (id : Z) (token reason : string) (now : Time) : result outbox_error Outbox :=
  claimResult (update_where t (fun r => owned id token r && negb (is_revoked r)) (dead_row (Time_UnixMilli now) reason)).

Definition cancelled_row (nowMs : Z) (r : OutboxRow) : OutboxRow :=
  {| ob_id := ob_id r; ob_event_type := ob_event_type r; ob_agent_id := ob_agent_id r;
     ob_schema_version := ob_schema_version r; ob_payload := ob_payload r; ob_attempts := ob_attempts r;
     ob_permanent_attempts := ob_permanent_attempts r; ob_last_error := Some "superseded by agent revocation";
     ob_next_attempt_at_ms := ob_next_attempt_at_ms r; ob_sent_at_ms := ob_sent_at_ms r; ob_log_id := ob_log_id r;
     ob_claim_token := None; ob_claimed_until_ms := None; ob_dead_at_ms := ob_dead_at_ms r;
     ob_cancelled_at_ms := Some nowMs; ob_created_at_ms := ob_created_at_ms r |}.

Definition CancelPending (t : Outbox) (agentID : string) (now : Time) : Outbox :=
  (update_where t (fun r => String.eqb (ob_agent_id r) agentID && negb (is_revoked r) && is_null (ob_sent_at_ms r) &&
                            is_null (ob_cancelled_at_ms r))
     (cancelled_row (Time_UnixMilli now))).1.

Record BacklogReport := { bl_Pending : nat; bl_Dead : nat; bl_OldestMS : Z }.

(** [COALESCE(MIN(...), 0)] over the pending rows. *)
Definition Backlog (t : Outbox) : BacklogReport :=
  let rows := filter (fun r => is_null (ob_sent_at_ms r) && is_null (ob_cancelled_at_ms r) = true) (ob_rows t) in
  let pending := filter (fun r => is_null (ob_dead_at_ms r) = true) rows in
  {| bl_Pending := length pending;
     bl_Dead := length (filter (fun r => is_null (ob_dead_at_ms r) = false) rows);
     bl_OldestMS := match ob_created_at_ms <$> pending with [] => 0 | x :: xs => fold_left Z.min xs x end |}.

(** ** [worker.go] *)

(** What [Sender.Append] returned: a result ([None] is a nil pointer, else its
    logId), or an error of one of the client's classes with its text. *)
Inductive append_outcome :=
| AppendOk (logID : option string)
| AppendPermanent (msg : string)
| AppendTransient (msg : string)
| AppendOther (msg : string).

(** An error of [MarkFailed] or [MarkDead] is only logged. *)
Definition or_unchanged (t : Outbox) (r : result outbox_error Outbox) : Outbox :=
  match r with Ok t' => t' | Err _ => t end.

Definition worker_markFailed (t : Outbox) (maxBackoff : Duration) (ev : OutboxRow) (token reason : string) (permanent : bool)
  (now : Time) : Outbox :=
  or_unchanged t (Outbox_MarkFailed t (ob_id ev) token (ob_attempts ev + 1) reason maxBackoff permanent now).

Definition reject (t : Outbox) (maxBackoff : Duration) (ev : OutboxRow) (token reason : string) (park : bool) (now : Time)
  : Outbox :=
  if negb park || is_revoked ev then worker_markFailed t maxBackoff ev token reason true now
  else or_unchanged t (MarkDead t (ob_id ev) token reason now).

(** [append] is the outcome of the call, made only when the row is well-formed. *)
Definition process (t : Outbox) (maxBackoff : Duration) (ev : OutboxRow) (token : string)
  (append : string -> inner_json -> string -> append_outcome) (now : Time) : Outbox :=
  match ob_payload ev with
  | PEmpty | PUndecodable => reject t maxBackoff ev token "unmarshal payload" true now
  | PDecoded p =>
      match op_InnerEventCanonical p with
      | InnerAbsent => reject t maxBackoff ev token "payload missing inner event or signature" true now
      | inner =>
          if String.eqb (op_ProducerSignature p) ""
          then reject t maxBackoff ev token "payload missing inner event or signature" true now else
          if negb (schema_ok (ob_schema_version ev))
          then reject t maxBackoff ev token "outbox row has unsupported schema_version" true now else
          match append (ob_schema_version ev) inner (op_ProducerSignature p) with
          | AppendPermanent msg => reject t maxBackoff ev token msg (4 <=? ob_permanent_attempts ev) now
          | AppendTransient msg | AppendOther msg => worker_markFailed t maxBackoff ev token msg false now
          | AppendOk None => worker_markFailed t maxBackoff ev token "TL returned empty logId" false now
          | AppendOk (Some logID) =>
              if String.eqb logID "" then worker_markFailed t maxBackoff ev token "TL returned empty logId" false now
              else or_unchanged t (MarkSent t (ob_id ev) token logID now)
          end
      end
  end.

(** The environment of one tick: the clock, the claim tokens and the log, each
    read in the order of the events of the batch. *)
Record tick_env := {
  tk_clock : nat -> Time;
  tk_token : nat -> string;
  tk_append : nat -> string -> inner_json -> string -> append_outcome
}.

Definition tick_event (env : tick_env) (maxBackoff : Duration) (i : nat) (t : Outbox) (ev : OutboxRow) : Outbox :=
  match Acquire t (ob_id ev) (ob_attempts ev) (tk_token env i) Minute (tk_clock env (2 * i)) with
  | Ok (t', true) => process t' maxBackoff ev (tk_token env i) (tk_append env i) (tk_clock env (2 * i + 1))
  | Ok (t', false) => t'
  | Err _ => t
  end.

Fixpoint tick_loop (env : tick_env) (maxBackoff : Duration) (i : nat) (t : Outbox) (evs : list OutboxRow) : Outbox :=
  match evs with
  | [] => t
  | ev :: evs' => tick_loop env maxBackoff (S i) (tick_event env maxBackoff i t ev) evs'
  end.

Definition tick (env : tick_env) (batchSize : Z) (maxBackoff : Duration) (t : Outbox) (now now' : Time) : Outbox :=
  tick_loop env maxBackoff 0 t (Ready t batchSize now now').
