(* ===== verification/OutboxSpec.v ===== *)
(** The outbox under any interleaving of producers, workers and revocations:
    every statement is one atomic step on the table, workers are arbitrary
    sequences of such steps. *)
From S2P Require Import Prelude GoStrings GoTime Outbox.
From Stdlib Require Import Sorted.

#[local] Set Default Goal Selector "!".
#[local] Open Scope Z_scope.

(** ** Steps *)

Inductive op :=
| OpEnqueue (typ agent ver : string) (p : payload) (earliest now : Time)
| OpRecordSealed (typ agent ver : string) (p : payload) (logID : string) (now : Time)
| OpAcquire (id attempts : Z) (token : string) (lease : Duration) (now : Time)
| OpMarkSent (id : Z) (token logID : string) (now : Time)
| OpMarkFailed (id : Z) (token : string) (attempts : Z) (err : string) (maxDelay : Duration) (permanent : bool) (now : Time)
| OpMarkDead (id : Z) (token reason : string) (now : Time)
| OpCancelPending (agent : string) (now : Time).

Definition step (t : Outbox) (o : op) : Outbox :=
  match o with
  | OpEnqueue typ agent ver p earliest now =>
      match Enqueue t typ agent ver p earliest now with Ok (t', _) => t' | Err _ => t end
  | OpRecordSealed typ agent ver p logID now =>
      match RecordSealed t typ agent ver p logID now with Ok (t', _) => t' | Err _ => t end
  | OpAcquire id attempts token lease now =>
      match Acquire t id attempts token lease now with Ok (t', _) => t' | Err _ => t end
  | OpMarkSent id token logID now => or_unchanged t (MarkSent t id token logID now)
  | OpMarkFailed id token attempts err maxDelay permanent now =>
      or_unchanged t (Outbox_MarkFailed t id token attempts err maxDelay permanent now)
  | OpMarkDead id token reason now => or_unchanged t (MarkDead t id token reason now)
  | OpCancelPending agent now => CancelPending t agent now
  end.

(** Completions carry a claim token and a log id, as the worker's do. *)
Definition op_ok (o : op) : Prop :=
  match o with
  | OpMarkSent _ token logID _ => token <> "" /\ logID <> ""
  | OpMarkFailed _ token _ _ _ _ _ | OpMarkDead _ token _ _ => token <> ""
  | _ => True
  end.

(** ** Invariant *)

Record row_ok (r : OutboxRow) : Prop := {
  ro_sent : is_null (ob_sent_at_ms r) = false ->
            (exists l, ob_log_id r = Some l /\ l <> "") /\ ob_dead_at_ms r = None /\ ob_cancelled_at_ms r = None;
  ro_unsent : ob_sent_at_ms r = None -> ob_log_id r = None;
  ro_revoked : is_revoked r = true -> ob_dead_at_ms r = None /\ ob_cancelled_at_ms r = None;
  ro_claim : is_null (ob_claim_token r) = false -> ob_open r = true
}.

(** A claimed ordinary event has no earlier open event of its agent. *)
Definition order_ok (rows : list OutboxRow) : Prop :=
  forall r e, r ∈ rows -> e ∈ rows -> is_null (ob_claim_token r) = false -> is_revoked r = false ->
    ob_agent_id e = ob_agent_id r -> ob_id e < ob_id r -> ob_open e = false.

Record inv (t : Outbox) : Prop := {
  inv_sorted : StronglySorted Z.lt (ob_id <$> ob_rows t);
  inv_seq : 0 <= ob_seq t /\ Forall (fun r => 1 <= ob_id r <= ob_seq t) (ob_rows t);
  inv_rows : Forall row_ok (ob_rows t);
  inv_order : order_ok (ob_rows t)
}.

(** How a row may change: its identity and a delivered log id never do, and a
    closed row (sent, dead or cancelled) stays closed. *)
Record evolves (r r' : OutboxRow) : Prop := {
  ev_id : ob_id r' = ob_id r;
  ev_type : ob_event_type r' = ob_event_type r;
  ev_agent : ob_agent_id r' = ob_agent_id r;
  ev_schema : ob_schema_version r' = ob_schema_version r;
  ev_payload : ob_payload r' = ob_payload r;
  ev_created : ob_created_at_ms r' = ob_created_at_ms r;
  ev_closed : ob_open r = false -> ob_open r' = false;
  ev_sent : is_null (ob_sent_at_ms r) = false -> ob_sent_at_ms r' = ob_sent_at_ms r /\ ob_log_id r' = ob_log_id r
}.

#[export] Instance evolves_refl : Reflexive evolves.
Proof. intros r. by split. Qed.

#[export] Instance evolves_trans : Transitive evolves.
Proof.
  intros a b c [] []. split; try congruence; [auto|].
  intros H. destruct (ev_sent0 H) as [E1 E2]. rewrite <- E1 in H. destruct (ev_sent1 H). split; congruence.
Qed.

(** What makes an [UPDATE] safe. *)
Record safe_update (rows : list OutboxRow) (cond : OutboxRow -> bool) (f : OutboxRow -> OutboxRow) : Prop := {
  su_evolves : forall r, cond r = true -> evolves r (f r);
  su_ok : forall r, cond r = true -> row_ok r -> row_ok (f r);
  su_claim : forall r, cond r = true -> is_null (ob_claim_token (f r)) = false -> is_revoked r = false ->
             no_earlier_open rows r = true
}.

Lemma no_earlier_open_spec rows r :
  no_earlier_open rows r = true <->
  forall e, e ∈ rows -> ob_agent_id e = ob_agent_id r -> ob_id e < ob_id r -> ob_open e = false.
Proof.
  unfold no_earlier_open. rewrite negb_true_iff, <- not_true_iff_false, existsb_exists. split.
  - intros H e He Ha Hi. apply not_true_iff_false. intros Ho. apply H. exists e. split; [by apply list_elem_of_In|].
    rewrite Ho, Ha, String.eqb_refl. cbn. rewrite andb_true_r. by apply Z.ltb_lt.
  - intros H (e & He%list_elem_of_In & Hc). apply andb_true_iff in Hc as [Hc Ho]. b2p. rewrite H in Ho; done.
Qed.

Lemma evolves_revoked r r' : evolves r r' -> is_revoked r' = is_revoked r.
Proof. intros []. unfold is_revoked. congruence. Qed.

Lemma update_inv t cond f :
  inv t -> safe_update (ob_rows t) cond f ->
  inv (update_where t cond f).1 /\
  forall i r, ob_rows t !! i = Some r -> exists r', ob_rows (update_where t cond f).1 !! i = Some r' /\ evolves r r'.
Proof.
  intros [Hs Hq Hr Ho] [S1 S2 S3]. unfold update_where. cbn [fst ob_rows].
  assert (HE : forall r, evolves r (if cond r then f r else r)).
  { intros r. destruct (cond r) eqn:E; [by apply S1|reflexivity]. }
  split.
  - split; cbn [ob_rows ob_seq].
    + rewrite <- list_fmap_compose. erewrite list_fmap_ext; [exact Hs|]. intros i r _. cbn. by apply HE.
    + destruct Hq as [H0 Hq]. split; [done|]. rewrite Forall_fmap. eapply Forall_impl; [exact Hq|]. cbn. intros r Hr'.
      by rewrite (ev_id _ _ (HE r)).
    + rewrite Forall_fmap. eapply Forall_impl; [exact Hr|]. cbn. intros r Hr'. destruct (cond r) eqn:E; [by apply S2|done].
    + intros r' e' (r & -> & Hin)%list_elem_of_fmap (e & -> & Hine)%list_elem_of_fmap Hc Hrev Ha Hi.
      apply (ev_closed _ _ (HE e)). rewrite (ev_agent _ _ (HE e)), (ev_agent _ _ (HE r)) in Ha.
      rewrite (ev_id _ _ (HE e)), (ev_id _ _ (HE r)) in Hi. rewrite (evolves_revoked _ _ (HE r)) in Hrev.
      revert Hc. destruct (cond r) eqn:E; intros Hc; [|exact (Ho r e Hin Hine Hc Hrev Ha Hi)].
      pose proof (S3 r E Hc Hrev) as Hn. rewrite no_earlier_open_spec in Hn. auto.
  - intros i r Hi. rewrite list_lookup_fmap, Hi. cbn. eauto.
Qed.

(** *** The individual statements *)

Lemma open_fields r : ob_open r = true -> ob_sent_at_ms r = None /\ ob_dead_at_ms r = None /\ ob_cancelled_at_ms r = None.
Proof.
  unfold ob_open. intros H. b2p. destruct (ob_sent_at_ms r), (ob_dead_at_ms r), (ob_cancelled_at_ms r); done.
Qed.

Lemma owned_open id token r : owned id token r = true -> ob_open r = true /\ ob_id r = id /\ coalesce (ob_claim_token r) "" = token.
Proof. unfold owned. intros [H Ho]%andb_true_iff. b2p. done. Qed.

(** An open row that is updated in place evolves. *)
Lemma evolves_open r r' :
  ob_open r = true -> ob_id r' = ob_id r -> ob_event_type r' = ob_event_type r -> ob_agent_id r' = ob_agent_id r ->
  ob_schema_version r' = ob_schema_version r -> ob_payload r' = ob_payload r -> ob_created_at_ms r' = ob_created_at_ms r ->
  evolves r r'.
Proof.
  intros Ho. split; try done; [congruence|]. destruct (open_fields r Ho) as (-> & _ & _). done.
Qed.

Lemma safe_sent rows id token nowMs logID :
  logID <> "" -> safe_update rows (owned id token) (sent_row nowMs logID).
Proof.
  intros Hl. split.
  - intros r (Ho & _)%owned_open. by apply evolves_open.
  - intros r (Ho & _)%owned_open [H1 H2 H3 H4]. destruct (open_fields r Ho) as (Es & Ed & Ec).
    split; cbn [sent_row ob_sent_at_ms ob_log_id ob_dead_at_ms ob_cancelled_at_ms ob_claim_token]; try done.
    intros _. split_and!; [eauto|done..].
  - intros r _. done.
Qed.

Lemma safe_failed rows id token attempts err nextMs permanent :
  safe_update rows (owned id token) (failed_row attempts err nextMs permanent).
Proof.
  split.
  - intros r (Ho & _)%owned_open. by apply evolves_open.
  - intros r (Ho & _)%owned_open [H1 H2 H3 H4]. by split; cbn.
  - intros r _. done.
Qed.

Lemma safe_dead rows id token nowMs reason :
  safe_update rows (fun r => owned id token r && negb (is_revoked r)) (dead_row nowMs reason).
Proof.
  split.
  - intros r [(Ho & _)%owned_open _]%andb_true_iff. by apply evolves_open.
  - intros r [(Ho & _)%owned_open Hr]%andb_true_iff [H1 H2 H3 H4]. destruct (open_fields r Ho) as (Es & Ed & Ec).
    apply negb_true_iff in Hr. split; cbn; try done; [by rewrite Es|].
    intros Hrev. change (is_revoked r = true) in Hrev. congruence.
  - intros r _. done.
Qed.

Lemma safe_cancel rows agent nowMs :
  safe_update rows (fun r => String.eqb (ob_agent_id r) agent && negb (is_revoked r) && is_null (ob_sent_at_ms r) &&
                             is_null (ob_cancelled_at_ms r)) (cancelled_row nowMs).
Proof.
  split.
  - intros r Hc. b2p. split; try done. intros _. unfold ob_open. cbn. by rewrite andb_false_r.
  - intros r Hc [H1 H2 H3 H4]. b2p. split; cbn; try done; [congruence|].
    intros Hrev. change (is_revoked r = true) in Hrev. congruence.
  - intros r _. done.
Qed.

Lemma safe_acquire rows id attempts nowMs token untilMs :
  safe_update rows
    (fun r => (ob_id r =? id) && (ob_attempts r =? attempts) && ob_open r && (ob_next_attempt_at_ms r <=? nowMs) &&
              (coalesce (ob_claimed_until_ms r) 0 <=? nowMs) && (is_revoked r || no_earlier_open rows r))
    (set_claim (Some token) (Some untilMs)).
Proof.
  split.
  - intros r Hc. b2p. by apply evolves_open.
  - intros r Hc [H1 H2 H3 H4]. b2p. by split; cbn.
  - intros r Hc _ Hr. apply andb_true_iff in Hc as [_ Hc]. by rewrite Hr in Hc.
Qed.

(** Inserting an unclaimed row. *)
Lemma insert_inv t mk :
  inv t -> ob_id (mk (ob_seq t + 1)) = ob_seq t + 1 -> ob_claim_token (mk (ob_seq t + 1)) = None ->
  row_ok (mk (ob_seq t + 1)) ->
  inv (insert_row t mk).1 /\
  forall i r, ob_rows t !! i = Some r -> exists r', ob_rows (insert_row t mk).1 !! i = Some r' /\ evolves r r'.
Proof.
  intros [Hs [H0 Hq] Hr Ho] Hid Hcl Hok. unfold insert_row. cbn [fst ob_rows]. split.
  - split; cbn [ob_rows ob_seq].
    + rewrite fmap_app. clear -Hs Hq Hid. induction (ob_rows t) as [|r rows IH]; [repeat constructor|].
      cbn in *. inversion_clear Hs as [|? ? H1 H2]. apply Forall_cons in Hq as [Hr Hq]. constructor; [by apply IH|].
      apply Forall_app. split; [done|]. repeat constructor. lia.
    + split; [lia|]. apply Forall_app. split; [|repeat constructor; lia]. eapply Forall_impl; [exact Hq|]. cbn. intros; lia.
    + apply Forall_app. split; [done|by constructor].
    + intros r e Hin Hine Hc Hrev Ha Hi. rewrite elem_of_app, list_elem_of_singleton in Hin, Hine.
      destruct Hin as [Hin| ->]; [|by rewrite Hcl in Hc]. destruct Hine as [Hine| ->]; [exact (Ho r e Hin Hine Hc Hrev Ha Hi)|].
      rewrite Forall_forall in Hq. specialize (Hq r Hin). lia.
  - intros i r Hi. exists r. split; [|reflexivity]. by apply lookup_app_l_Some.
Qed.

Lemma step_inv t o :
  inv t -> op_ok o ->
  inv (step t o) /\ forall i r, ob_rows t !! i = Some r -> exists r', ob_rows (step t o) !! i = Some r' /\ evolves r r'.
Proof.
  intros HI Hok.
  assert (Hsame : inv t /\ forall i r, ob_rows t !! i = Some r -> exists r', ob_rows t !! i = Some r' /\ evolves r r').
  { split; [done|]. intros i r Hi. exists r. split; [done|reflexivity]. }
  destruct o; cbn [step op_ok] in *.
  - unfold Enqueue. destruct p; [done| |]; (destruct (negb (schema_ok ver)); [done|]); cbn;
      apply (insert_inv t (fun id => _) HI); try done; by split.
  - unfold RecordSealed. destruct p; [done| |]; (destruct (String.eqb_spec logID ""); [done|]);
      (destruct (negb (schema_ok ver)); [done|]); cbn;
      apply (insert_inv t (fun id => _) HI); try done; split; try done; intros _; (split; [by exists logID|done]).
  - unfold Acquire. case_if; [done|]. pose proof (update_inv t _ _ HI (safe_acquire (ob_rows t) id attempts (Time_UnixMilli now) token
      (Time_UnixMilli (Time_Add now lease)))) as HU. destruct (update_where t _ _) as [t' n]. exact HU.
  - unfold MarkSent, claimResult. case_if; [|done]. apply update_inv; [done|]. apply safe_sent, Hok.
  - unfold Outbox_MarkFailed, claimResult. case_if; [|done]. apply update_inv; [done|]. apply safe_failed.
  - unfold MarkDead, claimResult. case_if; [|done]. apply update_inv; [done|]. apply safe_dead.
  - unfold CancelPending. apply update_inv; [done|]. apply safe_cancel.
Qed.

Lemma run_inv ops t :
  inv t -> Forall op_ok ops ->
  inv (fold_left step ops t) /\
  forall i r, ob_rows t !! i = Some r -> exists r', ob_rows (fold_left step ops t) !! i = Some r' /\ evolves r r'.
Proof.
  intros HI HF. revert t HI. induction HF as [|o ops Ho _ IH]; intros t HI; cbn [fold_left].
  { split; [done|]. intros i r Hi. exists r. split; [done|reflexivity]. }
  destruct (step_inv t o HI Ho) as [HI1 HE1]. destruct (IH _ HI1) as [HI2 HE2]. split; [done|].
  intros i r (r1 & Hi1 & E1)%HE1. destruct (HE2 i r1 Hi1) as (r2 & Hi2 & E2). exists r2. split; [done|]. by etransitivity.
Qed.

Lemma inv_empty : inv empty_outbox.
Proof. split; [constructor|split; [done|constructor]|constructor|]. intros r e Hr. by apply not_elem_of_nil in Hr. Qed.

(** ** The worker's tick is a run of such steps *)

Lemma process_run t maxB ev token append now :
  token <> "" -> exists ops, Forall op_ok ops /\ process t maxB ev token append now = fold_left step ops t.
Proof.
  intros Ht.
  assert (HF : forall reason b, exists ops, Forall op_ok ops /\ worker_markFailed t maxB ev token reason b now = fold_left step ops t).
  { intros reason b. exists [OpMarkFailed (ob_id ev) token (ob_attempts ev + 1) reason maxB b now]. split; [by repeat constructor|done]. }
  assert (HR : forall reason b, exists ops, Forall op_ok ops /\ reject t maxB ev token reason b now = fold_left step ops t).
  { intros reason b. unfold reject. case_if; [apply HF|].
    exists [OpMarkDead (ob_id ev) token reason now]. split; [by repeat constructor|done]. }
  unfold process. destruct (ob_payload ev) as [| |p]; [apply HR..|].
  destruct (op_InnerEventCanonical p) as [| | |e]; [apply HR|..];
    (destruct (String.eqb (op_ProducerSignature p) ""); [apply HR|]);
    (destruct (negb (schema_ok (ob_schema_version ev))); [apply HR|]);
    (destruct (append _ _ _) as [[logID|]|msg|msg|msg]; [|apply HF|apply HR|apply HF|apply HF]);
    (destruct (String.eqb_spec logID ""); [apply HF|]);
    (exists [OpMarkSent (ob_id ev) token logID now]; split; [by repeat constructor|done]).
Qed.

Lemma tick_loop_run env maxB evs i t :
  (forall i, tk_token env i <> "") ->
  exists ops, Forall op_ok ops /\ tick_loop env maxB i t evs = fold_left step ops t.
Proof.
  intros Ht. revert i t. induction evs as [|ev evs IH]; intros i t; cbn [tick_loop]; [by exists []|].
  assert (HE : exists ops, Forall op_ok ops /\ tick_event env maxB i t ev = fold_left step ops t).
  { unfold tick_event. set (a := OpAcquire (ob_id ev) (ob_attempts ev) (tk_token env i) Minute (tk_clock env (2 * i))).
    assert (Ha : step t a = match Acquire t (ob_id ev) (ob_attempts ev) (tk_token env i) Minute (tk_clock env (2 * i)) with
                            | Ok (t', _) => t' | Err _ => t end) by done.
    destruct (Acquire _ _ _ _ _ _) as [[t1 []]|e].
    - destruct (process_run t1 maxB ev (tk_token env i) (tk_append env i) (tk_clock env (2 * i + 1)) (Ht i)) as (ops & Ho & ->).
      exists (a :: ops). split; [by constructor|]. cbn [fold_left]. by rewrite Ha.
    - exists [a]. split; [by repeat constructor|]. cbn [fold_left]. by rewrite Ha.
    - exists []. done. }
  destruct HE as (ops1 & Ho1 & ->). destruct (IH (S i) (fold_left step ops1 t)) as (ops2 & Ho2 & ->).
  exists (ops1 ++ ops2). split; [by apply Forall_app|]. by rewrite fold_left_app.
Qed.

(** ** Exclusive claims *)

(** What other workers may do before [until] to a row claimed with token [k]. *)
Definition foreign (k : string) (until : Z) (o : op) : Prop :=
  match o with
  | OpAcquire _ _ _ _ now => Time_UnixMilli now < until
  | OpMarkSent _ token _ _ | OpMarkFailed _ token _ _ _ _ _ | OpMarkDead _ token _ _ => token <> k
  | _ => True
  end.

(** The claim holds, or the row was cancelled. *)
Definition held (k : string) (until : Z) (r : OutboxRow) : Prop :=
  (ob_claim_token r = Some k /\ ob_claimed_until_ms r = Some until /\ ob_open r = true) \/ is_null (ob_cancelled_at_ms r) = false.

Lemma held_not_owned k until r id token : held k until r -> token <> k -> owned id token r = false.
Proof.
  unfold owned. intros [(-> & _ & _)|Hc] Hk.
  - cbn. destruct (String.eqb_spec k token); [congruence|]. by rewrite andb_false_r.
  - unfold ob_open. rewrite Hc. by rewrite !andb_false_r.
Qed.

Lemma held_step k until t o i r :
  foreign k until o -> ob_rows t !! i = Some r -> held k until r ->
  exists r', ob_rows (step t o) !! i = Some r' /\ held k until r' /\ ob_id r' = ob_id r.
Proof.
  intros Hf Hi Hh.
  assert (Hins : forall l, exists r', (ob_rows t ++ l) !! i = Some r' /\ held k until r' /\ ob_id r' = ob_id r).
  { intros l. exists r. split; [by apply lookup_app_l_Some|done]. }
  assert (Hupd : forall cond f, (cond r = true -> held k until (f r) /\ ob_id (f r) = ob_id r) ->
    exists r', ob_rows (update_where t cond f).1 !! i = Some r' /\ held k until r' /\ ob_id r' = ob_id r).
  { intros cond f Hc. cbn. rewrite list_lookup_fmap, Hi. cbn. destruct (cond r); eauto. }
  assert (Hown : forall cond f, cond r = false ->
    exists r', ob_rows (or_unchanged t (claimResult (update_where t cond f))) !! i = Some r' /\ held k until r' /\ ob_id r' = ob_id r).
  { intros cond f Hc. unfold claimResult. case_if; [apply Hupd; congruence|eauto]. }
  destruct o; cbn [step foreign] in *.
  - unfold Enqueue. destruct p; [eauto| |]; (destruct (negb (schema_ok ver)); [eauto|]); apply Hins.
  - unfold RecordSealed. destruct p; [eauto| |]; (destruct (String.eqb logID ""); [eauto|]);
      (destruct (negb (schema_ok ver)); [eauto|]); apply Hins.
  - unfold Acquire. case_if; [eauto|]. match goal with |- context [update_where t ?c ?f] => pose proof (Hupd c f) as HU end.
    destruct (update_where t _ _) as [t' n]. apply HU. intros Hc. exfalso. apply andb_true_iff in Hc as [Hc _].
    destruct Hh as [(_ & Hu & _)|Hcan].
    + rewrite Hu in Hc. cbn [coalesce] in Hc. b2p. lia.
    + unfold ob_open in Hc. rewrite Hcan in Hc. b2p. congruence.
  - apply Hown. by eapply held_not_owned.
  - apply Hown. by eapply held_not_owned.
  - apply Hown. by rewrite (held_not_owned k until).
  - apply Hupd. intros _. split; [|done]. by right.
Qed.

(** Ids identify rows. *)
Lemma inv_id_unique t r r' : inv t -> r ∈ ob_rows t -> r' ∈ ob_rows t -> ob_id r = ob_id r' -> r = r'.
Proof.
  intros [Hs _ _ _] Hr Hr' E. induction (ob_rows t) as [|x rows IH]; [set_solver|].
  cbn in Hs. inversion_clear Hs as [|? ? H1 H2]. rewrite Forall_fmap, Forall_forall in H2. cbn in H2.
  apply elem_of_cons in Hr as [->|Hr], Hr' as [->|Hr']; [done| | |by apply IH].
  - specialize (H2 r' Hr'). lia.
  - specialize (H2 r Hr). lia.
Qed.

(** [claimResult] succeeds exactly when some row matches, ids being unique. *)
Lemma claimResult_Ok t cond f t' :
  claimResult (update_where t cond f) = Ok t' -> t' = (update_where t cond f).1 /\ exists r, r ∈ ob_rows t /\ cond r = true.
Proof.
  unfold claimResult, update_where. cbn [fst snd]. destruct (Nat.eqb_spec (length (filter (fun r => cond r = true) (ob_rows t))) 1) as [E|];
    [|done]. intros [= <-]. split; [done|].
  destruct (filter _ (ob_rows t)) as [|r l] eqn:Ef; [done|]. assert (Hr : r ∈ filter (fun r => cond r = true) (ob_rows t)) by (rewrite Ef; left).
  apply list_elem_of_filter in Hr as [? ?]. eauto.
Qed.

Lemma claimResult_none t cond f :
  (forall r, r ∈ ob_rows t -> cond r = false) -> claimResult (update_where t cond f) = Err OClaimLost.
Proof.
  intros H. unfold claimResult, update_where. cbn [snd]. rewrite filter_none; [done|]. intros r Hr. by rewrite H.
Qed.

(** ** Theorems *)

(** C26: Whatever producers, workers and revocations do, in any interleaving of
    their statements, the outbox stays well-formed: ids are unique and increasing,
    a delivered row has a non-empty log id and is neither dead nor cancelled, a
    revocation is never parked or cancelled, so it stays deliverable until it is
    delivered, and only open rows are claimed.  No row disappears or changes its
    event, a delivered row keeps its log id and a closed row stays closed.  A
    worker's tick, whatever the log answers, is such a sequence of statements. *)
Theorem outbox_run_invariant ops t :
  inv t -> Forall op_ok ops ->
  inv (fold_left step ops t) /\
  (forall i r, ob_rows t !! i = Some r -> exists r', ob_rows (fold_left step ops t) !! i = Some r' /\ evolves r r') /\
  (forall env batch maxB now now', (forall i, tk_token env i <> "") ->
    exists ops', Forall op_ok ops' /\ tick env batch maxB t now now' = fold_left step ops' t).
Proof.
  intros HI HF. destruct (run_inv ops t HI HF) as [H1 H2]. split; [done|]. split; [done|].
  intros env batch maxB now now' Ht. by apply tick_loop_run.
Qed.

(** Ordinary events of an agent are delivered in the order they were
    enqueued: when a worker records the delivery of an ordinary event, every
    earlier event of that agent is already delivered, parked or cancelled. *)
Theorem agent_delivery_order ops id token logID now t' :
  Forall op_ok ops -> token <> "" ->
  MarkSent (fold_left step ops empty_outbox) id token logID now = Ok t' ->
  exists r, r ∈ ob_rows (fold_left step ops empty_outbox) /\ ob_id r = id /\ ob_claim_token r = Some token /\
    (is_revoked r = false -> forall e, e ∈ ob_rows t' -> ob_agent_id e = ob_agent_id r -> ob_id e <= id -> ob_open e = false).
Proof.
  intros HF Ht HM. destruct (run_inv ops empty_outbox inv_empty HF) as [HI _]. set (t := fold_left step ops empty_outbox) in *. clearbody t.
  apply claimResult_Ok in HM as (-> & r & Hr & Hown). destruct (owned_open _ _ _ Hown) as (Ho & Hid & Htok).
  assert (Hct : ob_claim_token r = Some token) by (destruct (ob_claim_token r); cbn in Htok; congruence).
  exists r. split_and!; [done..|]. intros Hrev e' He' Ha Hi. cbn [update_where fst ob_rows] in He'.
  apply list_elem_of_fmap in He' as (e & -> & He). destruct (owned id token e) eqn:Eo; [done|].
  assert (ob_id e <> id).
  { intros E. rewrite (inv_id_unique t e r) in Eo by congruence. congruence. }
  destruct HI as [_ _ _ Hord]. apply (Hord r e Hr He); [by rewrite Hct|done|done|lia].
Qed.

(** C35: A claim is exclusive for its lease and fenced after it: once a worker
    acquires a row, until the lease ends no step of any other worker takes the
    claim or completes the row, which can only be cancelled by a revocation; and
    whoever does not hold the current token cannot record a delivery. *)
Theorem claim_exclusive t id attempts k lease now t1 ops :
  inv t -> Acquire t id attempts k lease now = Ok (t1, true) -> Forall op_ok ops ->
  Forall (foreign k (Time_UnixMilli (Time_Add now lease))) ops ->
  let t' := fold_left step ops t1 in
  exists r, r ∈ ob_rows t' /\ ob_id r = id /\ held k (Time_UnixMilli (Time_Add now lease)) r /\
    forall j logID now', j <> k -> MarkSent t' id j logID now' = Err OClaimLost.
Proof.
  intros HI HA HF HG. cbn zeta. set (U := Time_UnixMilli (Time_Add now lease)) in *.
  assert (Et1 : t1 = step t (OpAcquire id attempts k lease now)) by (cbn [step]; by rewrite HA).
  assert (HI1 : inv t1) by (rewrite Et1; by apply step_inv).
  assert (H0 : exists i r, ob_rows t1 !! i = Some r /\ held k U r /\ ob_id r = id).
  { unfold Acquire in HA. case_if_in HA; [done|].
    match type of HA with context [update_where t ?c ?f] => pose proof (claimResult_Ok t c f) as HC;
      unfold claimResult in HC; set (cond := c) in * end.
    destruct (update_where t cond _) as [t2 n] eqn:Eu. injection HA as -> Hn. cbn [fst snd] in HC. rewrite Hn in HC.
    destruct (HC t1 eq_refl) as (_ & r & Hr & Hc). change (cond r = true) in Hc. apply list_elem_of_lookup in Hr as (i & Hi).
    injection Eu as <- _. exists i. cbn [ob_rows]. rewrite list_lookup_fmap, Hi. cbn [fmap option_fmap option_map]. rewrite Hc. eexists. split; [reflexivity|].
    unfold cond in Hc. b2p. split; [|done]. left. done. }
  destruct H0 as (i & r & Hi & Hh & Hid). clear HA Et1. destruct (run_inv ops t1 HI1 HF) as [HI' _].
  assert (H1 : exists r', ob_rows (fold_left step ops t1) !! i = Some r' /\ held k U r' /\ ob_id r' = id).
  { clear HF HI HI' HI1. revert t1 r Hi Hh Hid. induction HG as [|o ops Ho _ IH]; intros t1 r Hi Hh Hid; cbn [fold_left]; [eauto|].
    destruct (held_step k U t1 o i r Ho Hi Hh) as (r1 & Hi1 & Hh1 & Hid1). eapply IH; [done|done|congruence]. }
  destruct H1 as (r' & Hi' & Hh' & Hid'). exists r'. apply list_elem_of_lookup_2 in Hi'. split_and!; [done..|].
  intros j logID now' Hj. apply claimResult_none. intros e He. destruct (decide (ob_id e = id)) as [E|E].
  - rewrite (inv_id_unique _ e r' HI' He Hi') by congruence. by eapply held_not_owned.
  - unfold owned. by destruct (Z.eqb_spec (ob_id e) id).
Qed.

(** ** Instances *)

Definition demo_payload : payload :=
  PDecoded {| op_InnerEventCanonical := InnerEvent {| ie_Canonical := "{}"; ie_AnsName := "ans://v1.0.0.bot.example.com"; ie_ExpiresAt := "";
                ie_Timestamp := "2026-01-01T00:00:00Z"; ie_Agent := None |}; op_ProducerSignature := "sig" |}.

Definition demo_ops : list op :=
  [OpEnqueue "AGENT_REGISTERED" "a" "V2" demo_payload zeroTime zeroTime;
   OpEnqueue "AGENT_RENEWED" "a" "V2" demo_payload zeroTime zeroTime;
   OpAcquire 1 0 "w1" Minute (UnixMilli 5);
   OpMarkSent 1 "w1" "log-1" (UnixMilli 6);
   OpAcquire 2 0 "w2" Minute (UnixMilli 7)].

Lemma demo_ops_ok : Forall op_ok demo_ops.
Proof. by repeat constructor. Qed.

Lemma outbox_run_invariant_witness : inv (fold_left step demo_ops empty_outbox).
Proof. apply (outbox_run_invariant demo_ops empty_outbox inv_empty demo_ops_ok). Defined.

Lemma agent_delivery_order_witness :
  exists t', MarkSent (fold_left step demo_ops empty_outbox) 2 "w2" "log-2" (UnixMilli 8) = Ok t' /\
    exists r, r ∈ ob_rows (fold_left step demo_ops empty_outbox) /\ ob_id r = 2 /\ ob_claim_token r = Some "w2" /\
    (is_revoked r = false -> forall e, e ∈ ob_rows t' -> ob_agent_id e = ob_agent_id r -> ob_id e <= 2 -> ob_open e = false).
Proof.
  eexists. split; [vm_compute; reflexivity|].
  apply (agent_delivery_order demo_ops 2 "w2" "log-2" (UnixMilli 8)); [exact demo_ops_ok|done|vm_compute; reflexivity].
Defined.

Lemma claim_exclusive_witness :
  exists r, r ∈ ob_rows (fold_left step [OpAcquire 2 0 "w3" Minute (UnixMilli 100)]
                           (step (fold_left step (take 4 demo_ops) empty_outbox) (OpAcquire 2 0 "w2" Minute (UnixMilli 7)))) /\
    ob_id r = 2 /\ held "w2" (Time_UnixMilli (Time_Add (UnixMilli 7) Minute)) r.
Proof.
  destruct (claim_exclusive (fold_left step (take 4 demo_ops) empty_outbox) 2 0 "w2" Minute (UnixMilli 7)
    (step (fold_left step (take 4 demo_ops) empty_outbox) (OpAcquire 2 0 "w2" Minute (UnixMilli 7)))
    [OpAcquire 2 0 "w3" Minute (UnixMilli 100)]) as (r & Hr & Hid & Hh & _).
  - apply run_inv; [exact inv_empty|]. by repeat constructor.
  - vm_compute. reflexivity.
  - by repeat constructor.
  - constructor; [vm_compute; reflexivity|constructor].
  - exists r. split; [exact Hr|]. split; [exact Hid|exact Hh].
Defined.
