(* ===== verification/RaEvents.v ===== *)
(** The events the registration authority produces:
    [internal/ra/service/registration.go] ([baseInnerEvent]), [lifecycle.go] and
    [v1event.go] (the builders), [certificate_events.go] and [helpers.go] (which
    certificates an event attests, and its expiry).

    The builders take the certificate rows the code reads from the stores as
    arguments.  [pem.Decode] and the serial number of a parsed certificate come
    from the class [PemX509]. *)
From stdpp Require Import gmap.
From S2P Require Import Prelude GoStrings GoTime GoEncoding DomainErrors SemVer AnsName Endpoint Lifecycle Discovery TlEvent Sha256.

#[local] Set Default Goal Selector "!".
#[local] Open Scope Z_scope.

Class PemX509 := {
  pem_Decode : string -> option (string * string);   (* block type and bytes *)
  x509_serial : string -> option string              (* [fmt.Sprintf("%x", cert.SerialNumber)] of the DER bytes *)
}.

(** ** Certificates attested by an event *)

Definition last_expiring {A} (expiry : A -> Time) (last : option A) (c : A) : option A :=
  match last with
  | None => Some c
  | Some l => if Time_After (expiry c) (expiry l) then Some c else last
  end.

(** The usable certificates, or the last one to expire. *)
Definition usable_or_last {A} (valid : list A) (lastExpired : option A) : list A :=
  match valid, lastExpired with [], Some l => [l] | _, _ => valid end.

Definition identity_considered (now : Time) (c : StoredCertificate) : bool :=
  String.eqb (sc_CertStatus c) CertStatusValid && negb (Time_Before now (sc_IssueTimestamp c)) &&
  negb (Time_IsZero (sc_ExpirationTimestamp c)).

Definition attestedIdentityCerts (certs : list StoredCertificate) (now : Time) : list StoredCertificate :=
  let cs := filter (fun c => identity_considered now c = true) certs in
  usable_or_last (filter (fun c => Time_Before now (sc_ExpirationTimestamp c) = true) cs)
    (fold_left (last_expiring sc_ExpirationTimestamp)
       (filter (fun c => Time_Before now (sc_ExpirationTimestamp c) = false) cs) None).

Fixpoint dedup_fingerprint (seen : list string) (certs : list ByocServerCertificate) : list ByocServerCertificate :=
  match certs with
  | [] => []
  | c :: cs => if existsb (String.eqb (byoc_Fingerprint c)) seen then dedup_fingerprint seen cs
               else c :: dedup_fingerprint (byoc_Fingerprint c :: seen) cs
  end.

Definition serverCertsForAttestation (certs : list ByocServerCertificate) (now : Time) : list ByocServerCertificate :=
  let cs := dedup_fingerprint [] (filter (fun c => negb (Time_Before now (byoc_ValidFromTimestamp c)) &&
                                                   negb (Time_IsZero (byoc_ValidToTimestamp c)) = true) certs) in
  usable_or_last (filter (fun c => Time_Before now (byoc_ValidToTimestamp c) = true) cs)
    (fold_left (last_expiring byoc_ValidToTimestamp)
       (filter (fun c => Time_Before now (byoc_ValidToTimestamp c) = false) cs) None).

Definition later (acc t : Time) : Time := if Time_After t acc then t else acc.

Definition agentCertExpiry (stored : list StoredCertificate) (servers : list ByocServerCertificate) (now : Time) : string :=
  let identityExpiry := fold_left (fun acc c =>
    if negb (String.eqb (sc_CertStatus c) CertStatusValid) || Time_Before now (sc_IssueTimestamp c) then acc
    else later acc (sc_ExpirationTimestamp c)) stored zeroTime in
  let serverExpiry := fold_left (fun acc c =>
    if negb (Time_Before now (byoc_ValidFromTimestamp c)) then later acc (byoc_ValidToTimestamp c) else acc) servers zeroTime in
  let earliest := if Time_IsZero identityExpiry || (negb (Time_IsZero serverExpiry) && Time_Before serverExpiry identityExpiry)
                  then serverExpiry else identityExpiry in
  if Time_IsZero earliest then "" else FormatRFC3339 earliest.

(** A nil map and an empty one are the same JSON. *)
Definition metadataHashesFromEndpoints (eps : list AgentEndpoint) : gmap string string :=
  fold_left (fun out ep =>
    if String.eqb (ep_MetadataHash ep) "" then out else
    match out !! ep_Protocol ep with
    | Some _ => out
    | None => <[ep_Protocol ep := ep_MetadataHash ep]> out
    end) eps ∅.


Section Builders.
Context `{U : UnicodeTables} `{X : PemX509}.

Definition fingerprintOf (pemStr : string) : result serr string :=
  match pem_Decode pemStr with
  | None => Err (Other "service: cert PEM has no block")
  | Some (ty, bytes) =>
      if negb (String.eqb ty "CERTIFICATE") then Err (Other "service: PEM type is not CERTIFICATE")
      else Ok ("SHA256:" +:+ hex_EncodeToString (Sum256 bytes))
  end.

Definition serialFromCertPEM (pemStr : string) : result serr string :=
  match pem_Decode pemStr with
  | None => Err (Other "service: cert PEM has no CERTIFICATE block")
  | Some (ty, bytes) =>
      if negb (String.eqb ty "CERTIFICATE") then Err (Other "service: cert PEM has no CERTIFICATE block") else
      match x509_serial bytes with Some s => Ok s | None => Err (Other "service: parse certificate") end
  end.

Definition dnssecKey (name typ : string) : string := trim_dot (ToLower name) +:+ String ":" (ToUpper typ).

Definition OV : string := "X509-OV-CLIENT".
Definition DV : string := "X509-DV-SERVER".

Definition identity_info (c : StoredCertificate) : result serr CertificateInfo :=
  fp ← fingerprintOf (sc_CertificatePEM c);
  Ok {| ci_Fingerprint := fp; ci_CertType := OV; ci_NotAfter := FormatRFC3339 (sc_ExpirationTimestamp c) |}.

Definition server_info (c : ByocServerCertificate) : CertificateInfo :=
  {| ci_Fingerprint := "SHA256:" +:+ byoc_Fingerprint c; ci_CertType := DV;
     ci_NotAfter := FormatRFC3339 (byoc_ValidToTimestamp c) |}.

Fixpoint identity_infos (certs : list StoredCertificate) : result serr (list CertificateInfo) :=
  match certs with
  | [] => Ok []
  | c :: cs => info ← identity_info c; infos ← identity_infos cs; Ok (info :: infos)
  end.

(** [baseInnerEvent] and [baseInnerV1Event] differ only in the attestations. *)
Definition baseInnerEvent {T} (raID : string) (reg : AgentRegistration) (et : string) (now : Time) : TLEvent T :=
  {| te_AnsID := r_AgentID reg; te_AnsName := AnsName_String (r_AnsName reg); te_EventType := et;
     te_Agent := Some {| ea_Host := reg_FQDN reg; ea_Name := d_DisplayName (r_Details reg);
                         ea_Version := SemVer_String (an_version (r_AnsName reg)); ea_ProviderID := "" |};
     te_Attestations := None; te_ExpiresAt := ""; te_IssuedAt := FormatRFC3339 now; te_RaID := raID;
     te_RenewalStatus := ""; te_RevocationReasonCode := ""; te_RevokedAt := ""; te_Timestamp := FormatRFC3339 now |}.

Definition with_attestations {T} (e : TLEvent T) (expires : string) (a : T) : TLEvent T :=
  {| te_AnsID := te_AnsID e; te_AnsName := te_AnsName e; te_EventType := te_EventType e; te_Agent := te_Agent e;
     te_Attestations := Some a; te_ExpiresAt := expires; te_IssuedAt := te_IssuedAt e; te_RaID := te_RaID e;
     te_RenewalStatus := te_RenewalStatus e; te_RevocationReasonCode := te_RevocationReasonCode e;
     te_RevokedAt := te_RevokedAt e; te_Timestamp := te_Timestamp e |}.

Definition as_renewed {T} (e : TLEvent T) : TLEvent T :=
  {| te_AnsID := te_AnsID e; te_AnsName := te_AnsName e; te_EventType := TypeAgentRenewed; te_Agent := te_Agent e;
     te_Attestations := te_Attestations e; te_ExpiresAt := te_ExpiresAt e; te_IssuedAt := te_IssuedAt e;
     te_RaID := te_RaID e; te_RenewalStatus := "SUCCESS"; te_RevocationReasonCode := te_RevocationReasonCode e;
     te_RevokedAt := te_RevokedAt e; te_Timestamp := te_Timestamp e |}.

Definition as_revoked {T} (e : TLEvent T) (reason : string) (now : Time) : TLEvent T :=
  {| te_AnsID := te_AnsID e; te_AnsName := te_AnsName e; te_EventType := te_EventType e; te_Agent := te_Agent e;
     te_Attestations := te_Attestations e; te_ExpiresAt := te_ExpiresAt e; te_IssuedAt := te_IssuedAt e;
     te_RaID := te_RaID e; te_RenewalStatus := te_RenewalStatus e; te_RevocationReasonCode := reason;
     te_RevokedAt := FormatRFC3339 now; te_Timestamp := te_Timestamp e |}.

Definition provisioned (perRecord : option (list RecordVerification)) (r : ExpectedDNSRecord) : DNSRecord :=
  {| dn_Name := dr_Name r; dn_Data := dr_Value r; dn_Type := dr_Type r;
     dn_DNSSECVerified := existsb (fun v => rvn_DNSSECVerified v &&
                            String.eqb (dnssecKey (dr_Name (rvn_Record v)) (dr_Type (rvn_Record v)))
                                       (dnssecKey (dr_Name r) (dr_Type r))) (default [] perRecord) |}.

Definition buildAgentRegisteredEvent (raID : string) (reg : AgentRegistration) (expected : list ExpectedDNSRecord)
    (perRecord : option (list RecordVerification)) (identity : list StoredCertificate)
    (byoc : list ByocServerCertificate) (now : Time) : result serr EventV2 :=
  let identityCerts := attestedIdentityCerts identity now in
  idCertInfos ← identity_infos identityCerts;
  let serverCerts := serverCertsForAttestation byoc now in
  Ok (with_attestations (baseInnerEvent raID reg TypeAgentRegistered now) (agentCertExpiry identityCerts serverCerts now)
        {| at2_DomainValidation := ACMEMethodToken (o_VerifiedChallenge (r_CertOrder reg));
           at2_DNSRecordsProvisioned := provisioned perRecord <$> expected; at2_IdentityCerts := idCertInfos;
           at2_ServerCerts := server_info <$> serverCerts;
           at2_MetadataHashes := metadataHashesFromEndpoints (r_Endpoints reg) |}).

(** [map[name]data]: the last value of a name is kept. *)
Definition dns_map (records : list ExpectedDNSRecord) : gmap string string :=
  fold_left (fun m r => <[dr_Name r := dr_Value r]> m) records ∅.

Definition primary (certs : list CertificateInfo) : option CertificateInfoV1 :=
  match certs with
  | [] => None
  | c :: _ => Some {| c1_Fingerprint := ci_Fingerprint c; c1_CertType := ci_CertType c |}
  end.

Definition buildAgentRegisteredV1Event (raID : string) (reg : AgentRegistration) (expected : list ExpectedDNSRecord)
    (identity : list StoredCertificate) (byoc : list ByocServerCertificate) (now : Time) : result serr EventV1 :=
  let identityCerts := attestedIdentityCerts identity now in
  validIdentity ← identity_infos identityCerts;
  let serverCerts := serverCertsForAttestation byoc now in
  let validServer := server_info <$> serverCerts in
  Ok (with_attestations (baseInnerEvent raID reg TypeAgentRegistered now) (agentCertExpiry identityCerts serverCerts now)
        {| at1_DNSRecordsProvisioned := dns_map expected; at1_MetadataHashes := metadataHashesFromEndpoints (r_Endpoints reg);
           at1_IdentityCert := primary validIdentity; at1_ServerCert := primary validServer;
           at1_DomainValidation := ACMEMethodToken (o_VerifiedChallenge (r_CertOrder reg));
           at1_ValidIdentityCerts := validIdentity; at1_ValidServerCerts := validServer |}).

(** The earliest non-zero expiry of the revoked certificates and the server
    certificate. *)
Definition earlier (acc t : Time) : Time :=
  if Time_IsZero t then acc else if Time_IsZero acc || Time_Before t acc then t else acc.

Definition revoked_expiry (reg : AgentRegistration) (certs : list StoredCertificate) : string :=
  let min0 := fold_left (fun acc c => earlier acc (sc_ExpirationTimestamp c)) certs zeroTime in
  let minExpiry := match r_ServerCert reg with Some b => earlier min0 (byoc_ValidToTimestamp b) | None => min0 end in
  if Time_IsZero minExpiry then "" else FormatRFC3339 minExpiry.

Definition buildAgentRevokedV2Event (raID : string) (reg : AgentRegistration) (certs : list StoredCertificate)
    (reason : RevocationReason) (now : Time) : result serr EventV2 :=
  idCertInfos ← identity_infos certs;
  Ok (with_attestations (as_revoked (baseInnerEvent raID reg TypeAgentRevoked now) reason now) (revoked_expiry reg certs)
        {| at2_DomainValidation := ""; at2_DNSRecordsProvisioned := []; at2_IdentityCerts := idCertInfos;
           at2_ServerCerts := []; at2_MetadataHashes := ∅ |}).

Definition buildAgentRevokedV1Event (registry : Registry) (raID : string) (reg : AgentRegistration)
    (certs : list StoredCertificate) (reason : RevocationReason) (now : Time) : result serr EventV1 :=
  revokedCerts ← identity_infos certs;
  Ok (with_attestations (as_revoked (baseInnerEvent raID reg TypeAgentRevoked now) reason now) (revoked_expiry reg certs)
        {| at1_DNSRecordsProvisioned := dns_map (ComputeRequiredDNSRecords registry reg); at1_MetadataHashes := ∅;
           at1_IdentityCert := None; at1_ServerCert := None; at1_DomainValidation := "";
           at1_ValidIdentityCerts := revokedCerts;
           at1_ValidServerCerts := match r_ServerCert reg with Some b => [server_info b] | None => [] end |}).

Definition isV1Lane (schemaVersion : string) : bool := String.eqb schemaVersion SchemaVersionV1.
End Builders.
