(* ===== verification/RaStore.v ===== *)
(** The registration authority's database, [internal/adapter/store/sqlite]:
    [agent.go], [endpoint.go], [certificate.go], [byoc.go], [renewal.go],
    [activation_seals.go], [uow.go] and the outbox of [Outbox].

    A table is the list of its rows in insertion order, which is id order; ids
    come from AUTOINCREMENT sequences.  UNIQUE, CHECK and FOREIGN KEY violations
    are errors; failures of the database itself are not modelled.  Timestamps are
    stored in milliseconds, as the code does, and NULL is [None].  A JSON column
    is the value it decodes to.  Columns no code reads back ([created_at_ms],
    [updated_at_ms] of the registrations and certificates) are left out.
    [time.Now] in the stores is an argument.

    A statement is a function on the database that returns a value or an error
    ([tx]); a sequence of statements run by [DB.Run] has all its effects or
    none. *)
From stdpp Require Import gmap.
From S2P Require Import Prelude GoStrings GoTime DomainErrors SemVer AnsName Endpoint Lifecycle Outbox RaEvents.

#[local] Set Default Goal Selector "!".
#[local] Open Scope Z_scope.

(** ** Rows *)

(** The columns an UPDATE of [agent_registrations] writes. *)
Record agentCols := {
  ac_status : string;
  ac_display_name : string;
  ac_description : string;
  ac_last_renewal_ms : option Z;
  ac_supersedes : option Z;
  ac_order_ref : option string;
  ac_order_state : option string;
  ac_order_challenges : option (list Challenge);
  ac_order_verified : option string;
  ac_expires_ms : option Z;
  ac_profiles : option (list string)
}.

Record agentRow := {
  ar_id : Z;
  ar_agent_id : string;
  ar_owner_id : string;
  ar_ans_name : string;
  ar_agent_host : string;
  ar_version : string;
  ar_registration_ms : Z;
  ar_dns01_token : option string;   (* before migration 008; never written now *)
  ar_cols : agentCols
}.

Record csrRow := {
  cr_csr_id : string;
  cr_agent_id : string;
  cr_type : string;
  cr_pem : string;
  cr_status : string;
  cr_submitted_ms : Z;
  cr_processed_ms : option Z;
  cr_rejection : option string
}.

Record certRow := {
  ce_id : Z;
  ce_agent_id : string;
  ce_csr_id : string;
  ce_type : string;
  ce_pem : string;
  ce_chain : option string;
  ce_serial : option string;
  ce_ref : option string;
  ce_status : string;
  ce_issue_ms : Z;
  ce_expires_ms : Z
}.

Record byocRow := {
  by_agent_id : string;
  by_leaf : string;
  by_chain : option string;
  by_cn : string;
  by_sans : list string;
  by_issuer : string;
  by_from_ms : Z;
  by_to_ms : Z;
  by_fingerprint : string
}.

Record renewalRow := {
  rw_id : Z;
  rw_agent_id : string;
  rw_registration_id : Z;
  rw_type : string;
  rw_csr_id : option string;
  rw_byoc_cert : option string;
  rw_byoc_chain : option string;
  rw_dns01 : string;
  rw_http01 : string;
  rw_order_ref : option string;
  rw_challenges : option (list Challenge);
  rw_status : string;
  rw_expires_ms : Z;
  rw_failure : option string;
  rw_completed_ms : option Z;
  rw_created_ms : Z;
  rw_updated_ms : Z
}.

Record DB := {
  t_agents : list agentRow;
  t_agents_seq : Z;
  t_endpoints : gmap string (list AgentEndpoint);
  t_csrs : list csrRow;
  t_certs : list certRow;
  t_certs_seq : Z;
  t_byoc : list byocRow;
  t_renewals : list renewalRow;
  t_renewals_seq : Z;
  t_outbox : Outbox;
  t_seals : gmap string (string * payload)
}.

Definition empty_db : DB :=
  {| t_agents := []; t_agents_seq := 0; t_endpoints := ∅; t_csrs := []; t_certs := []; t_certs_seq := 0; t_byoc := [];
     t_renewals := []; t_renewals_seq := 0; t_outbox := empty_outbox; t_seals := ∅ |}.

Definition set_agents (d : DB) (rows : list agentRow) (seq : Z) : DB :=
  {| t_agents := rows; t_agents_seq := seq; t_endpoints := t_endpoints d; t_csrs := t_csrs d; t_certs := t_certs d;
     t_certs_seq := t_certs_seq d; t_byoc := t_byoc d; t_renewals := t_renewals d; t_renewals_seq := t_renewals_seq d;
     t_outbox := t_outbox d; t_seals := t_seals d |}.
Definition set_endpoints (d : DB) (eps : gmap string (list AgentEndpoint)) : DB :=
  {| t_agents := t_agents d; t_agents_seq := t_agents_seq d; t_endpoints := eps; t_csrs := t_csrs d; t_certs := t_certs d;
     t_certs_seq := t_certs_seq d; t_byoc := t_byoc d; t_renewals := t_renewals d; t_renewals_seq := t_renewals_seq d;
     t_outbox := t_outbox d; t_seals := t_seals d |}.
Definition set_csrs (d : DB) (rows : list csrRow) : DB :=
  {| t_agents := t_agents d; t_agents_seq := t_agents_seq d; t_endpoints := t_endpoints d; t_csrs := rows;
     t_certs := t_certs d; t_certs_seq := t_certs_seq d; t_byoc := t_byoc d; t_renewals := t_renewals d;
     t_renewals_seq := t_renewals_seq d; t_outbox := t_outbox d; t_seals := t_seals d |}.
Definition set_certs (d : DB) (rows : list certRow) (seq : Z) : DB :=
  {| t_agents := t_agents d; t_agents_seq := t_agents_seq d; t_endpoints := t_endpoints d; t_csrs := t_csrs d;
     t_certs := rows; t_certs_seq := seq; t_byoc := t_byoc d; t_renewals := t_renewals d;
     t_renewals_seq := t_renewals_seq d; t_outbox := t_outbox d; t_seals := t_seals d |}.
Definition set_byoc (d : DB) (rows : list byocRow) : DB :=
  {| t_agents := t_agents d; t_agents_seq := t_agents_seq d; t_endpoints := t_endpoints d; t_csrs := t_csrs d;
     t_certs := t_certs d; t_certs_seq := t_certs_seq d; t_byoc := rows; t_renewals := t_renewals d;
     t_renewals_seq := t_renewals_seq d; t_outbox := t_outbox d; t_seals := t_seals d |}.
Definition set_renewals (d : DB) (rows : list renewalRow) (seq : Z) : DB :=
  {| t_agents := t_agents d; t_agents_seq := t_agents_seq d; t_endpoints := t_endpoints d; t_csrs := t_csrs d;
     t_certs := t_certs d; t_certs_seq := t_certs_seq d; t_byoc := t_byoc d; t_renewals := rows;
     t_renewals_seq := seq; t_outbox := t_outbox d; t_seals := t_seals d |}.
Definition set_outbox (d : DB) (o : Outbox) : DB :=
  {| t_agents := t_agents d; t_agents_seq := t_agents_seq d; t_endpoints := t_endpoints d; t_csrs := t_csrs d;
     t_certs := t_certs d; t_certs_seq := t_certs_seq d; t_byoc := t_byoc d; t_renewals := t_renewals d;
     t_renewals_seq := t_renewals_seq d; t_outbox := o; t_seals := t_seals d |}.
Definition set_seals (d : DB) (s : gmap string (string * payload)) : DB :=
  {| t_agents := t_agents d; t_agents_seq := t_agents_seq d; t_endpoints := t_endpoints d; t_csrs := t_csrs d;
     t_certs := t_certs d; t_certs_seq := t_certs_seq d; t_byoc := t_byoc d; t_renewals := t_renewals d;
     t_renewals_seq := t_renewals_seq d; t_outbox := t_outbox d; t_seals := s |}.

(** ** Statements *)

Definition tx (A : Type) : Type := DB -> result serr (A * DB).

#[export] Instance tx_ret : MRet tx := fun A a d => Ok (a, d).
#[export] Instance tx_bind : MBind tx := fun A B f m d =>
  match m d with Ok (a, d') => f a d' | Err e => Err e end.

Definition throw {A} (e : serr) : tx A := fun _ => Err e.
Definition reads {A} (f : DB -> A) : tx A := fun d => Ok (f d, d).
Definition lift {A} (r : result serr A) : tx A := fun d => match r with Ok a => Ok (a, d) | Err e => Err e end.
Definition dom {A} (r : result Error A) : result serr A := match r with Ok a => Ok a | Err e => Err (Dom e) end.
Definition ensure (b : bool) (e : serr) : tx unit := if b then mret tt else throw e.

(** A [for] loop whose body returns an error. *)
Fixpoint tx_for {A} (l : list A) (body : A -> tx unit) : tx unit :=
  match l with [] => mret tt | x :: l' => body x ≫= fun _ => tx_for l' body end.

(** [mapSQLErr] *)
Definition NOT_FOUND : serr := Dom (NewNotFoundError "NOT_FOUND").
Definition ALREADY_EXISTS : serr := Dom (NewConflictError "ALREADY_EXISTS").
Definition FOREIGN_KEY : serr := Other "FOREIGN KEY constraint failed".

(** [sql.ErrNoRows] of a single-row query. *)
Definition one_row {A} (r : option A) : result serr A := match r with Some a => Ok a | None => Err NOT_FOUND end.

Definition nullableString (s : string) : option string := if String.eqb s "" then None else Some s.
Definition nullableMs (t : Time) : option Z := if Time_IsZero t then None else Some (Time_UnixMilli t).
Definition nullableInt64 (v : Z) : option Z := if v =? 0 then None else Some v.
Definition msToTime (ms : Z) : Time := UnixMilli ms.
Definition null_string (s : option string) : string := default "" s.
Definition null_time (ms : option Z) : Time := match ms with Some v => msToTime v | None => zeroTime end.

(** ** [agent.go] *)

Definition certOrderFromRow (ref state : option string) (challenges : option (list Challenge))
    (verified legacyDNS01 : option string) (expiresMs : option Z) : CertificateOrder :=
  match challenges with
  | Some cs =>
      {| o_OrderRef := null_string ref; o_State := null_string state; o_Challenges := cs;
         o_ExpiresAt := null_time expiresMs; o_VerifiedChallenge := null_string verified |}
  | None =>
      if String.eqb (null_string legacyDNS01) "" then zero_order else
      {| o_OrderRef := ""; o_State := OrderStatePending;
         o_Challenges := [self_challenge ChallengeTypeDNS01 (null_string legacyDNS01)];
         o_ExpiresAt := null_time expiresMs; o_VerifiedChallenge := "" |}
  end.

Definition agentCols_of (agent : AgentRegistration) : agentCols :=
  let o := r_CertOrder agent in
  let z := CertificateOrder_IsZero o in
  {| ac_status := r_Status agent; ac_display_name := d_DisplayName (r_Details agent);
     ac_description := d_Description (r_Details agent);
     ac_last_renewal_ms := nullableMs (d_LastRenewalTimestamp (r_Details agent));
     ac_supersedes := nullableInt64 (r_SupersedesRegistrationID agent);
     ac_order_ref := if z then None else nullableString (o_OrderRef o);
     ac_order_state := if z then None else Some (o_State o);
     ac_order_challenges := if z then None else Some (o_Challenges o);
     ac_order_verified := if z then None else nullableString (o_VerifiedChallenge o);
     ac_expires_ms := if z then None else nullableMs (o_ExpiresAt o);
     ac_profiles := match r_DiscoveryProfiles agent with [] => None | ps => Some ps end |}.

Definition ar_status (r : agentRow) : string := ac_status (ar_cols r).

Definition set_cols (r : agentRow) (c : agentCols) : agentRow :=
  {| ar_id := ar_id r; ar_agent_id := ar_agent_id r; ar_owner_id := ar_owner_id r; ar_ans_name := ar_ans_name r;
     ar_agent_host := ar_agent_host r; ar_version := ar_version r; ar_registration_ms := ar_registration_ms r;
     ar_dns01_token := ar_dns01_token r; ar_cols := c |}.

Definition set_ID (agent : AgentRegistration) (id : Z) : AgentRegistration :=
  {| r_ID := id; r_AgentID := r_AgentID agent; r_OwnerID := r_OwnerID agent; r_AnsName := r_AnsName agent;
     r_Status := r_Status agent; r_Details := r_Details agent; r_Endpoints := r_Endpoints agent;
     r_ServerCert := r_ServerCert agent; r_IdentityCSR := r_IdentityCSR agent; r_ServerCSR := r_ServerCSR agent;
     r_SupersedesRegistrationID := r_SupersedesRegistrationID agent; r_CertOrder := r_CertOrder agent;
     r_DiscoveryProfiles := r_DiscoveryProfiles agent; r_PendingEvents := r_PendingEvents agent |}.

(** [id = ? AND (status != 'REVOKED' OR ? = 'REVOKED') AND (status != 'DEPRECATED' OR ? IN ('DEPRECATED', 'REVOKED'))] *)
Definition save_matches (id : Z) (status : string) (r : agentRow) : bool :=
  (ar_id r =? id) &&
  (negb (String.eqb (ar_status r) StatusRevoked) || String.eqb status StatusRevoked) &&
  (negb (String.eqb (ar_status r) StatusDeprecated) || one_of status [StatusDeprecated; StatusRevoked]).

Definition AgentStore_Save (agent : AgentRegistration) : tx AgentRegistration := fun d =>
  if r_ID agent =? 0 then
    if existsb (fun r => String.eqb (ar_agent_id r) (r_AgentID agent) ||
                         String.eqb (ar_ans_name r) (AnsName_String (r_AnsName agent))) (t_agents d)
    then Err ALREADY_EXISTS else
    let id := t_agents_seq d + 1 in
    Ok (set_ID agent id,
        set_agents d (t_agents d ++
          [{| ar_id := id; ar_agent_id := r_AgentID agent; ar_owner_id := r_OwnerID agent;
              ar_ans_name := AnsName_String (r_AnsName agent); ar_agent_host := AnsName_FQDN (r_AnsName agent);
              ar_version := SemVer_String (an_version (r_AnsName agent));
              ar_registration_ms := Time_UnixMilli (d_RegistrationTimestamp (r_Details agent));
              ar_dns01_token := None; ar_cols := agentCols_of agent |}]) id)
  else
    let cond := save_matches (r_ID agent) (r_Status agent) in
    if (length (filter (fun r => cond r = true) (t_agents d)) =? 1)%nat
    then Ok (agent, set_agents d ((fun r => if cond r then set_cols r (agentCols_of agent) else r) <$> t_agents d) (t_agents_seq d))
    else Err (Dom (NewConflictError "AGENT_STATE_CONFLICT")).

Section Rows.
Context `{U : UnicodeTables}.

Definition agent_toDomain (r : agentRow) : result serr AgentRegistration :=
  ansName ← dom (ParseAnsName (ar_ans_name r));
  let c := ar_cols r in
  Ok {| r_ID := ar_id r; r_AgentID := ar_agent_id r; r_OwnerID := ar_owner_id r; r_AnsName := ansName;
        r_Status := ac_status c;
        r_Details := {| d_RegistrationTimestamp := msToTime (ar_registration_ms r);
                        d_LastRenewalTimestamp := null_time (ac_last_renewal_ms c);
                        d_DisplayName := ac_display_name c; d_Description := ac_description c |};
        r_Endpoints := []; r_ServerCert := None; r_IdentityCSR := None; r_ServerCSR := None;
        r_SupersedesRegistrationID := default 0 (ac_supersedes c);
        r_CertOrder := certOrderFromRow (ac_order_ref c) (ac_order_state c) (ac_order_challenges c) (ac_order_verified c)
                         (ar_dns01_token r) (ac_expires_ms c);
        r_DiscoveryProfiles := default [] (ac_profiles c); r_PendingEvents := [] |}.

Fixpoint rowsToDomain (rows : list agentRow) : result serr (list AgentRegistration) :=
  match rows with
  | [] => Ok []
  | r :: rs => a ← agent_toDomain r; l ← rowsToDomain rs; Ok (a :: l)
  end.

Definition agent_row (d : DB) (agentID : string) : option agentRow :=
  find_first (fun r => String.eqb (ar_agent_id r) agentID) (t_agents d).

Definition FindByAgentID (agentID : string) : tx AgentRegistration := fun d =>
  r ← one_row (agent_row d agentID); a ← agent_toDomain r; Ok (a, d).

Definition ExistsByAnsName (ansName : AnsName) : tx bool :=
  reads (fun d => existsb (fun r => String.eqb (ar_ans_name r) (AnsName_String ansName)) (t_agents d)).

(** [ORDER BY id DESC] *)
Definition FindAllByAgentHost (host : string) : tx (list AgentRegistration) := fun d =>
  l ← rowsToDomain (rev (filter (fun r => ar_agent_host r = host) (t_agents d))); Ok (l, d).
End Rows.

Definition expire_row (nowMs : Z) (r : agentRow) : bool :=
  let c := ar_cols r in
  String.eqb (ac_status c) StatusPendingValidation &&
  match ac_expires_ms c with Some e => e <=? nowMs | None => false end &&
  match ac_order_state c with None => true | Some s => String.eqb s OrderStatePending end.

Definition set_status (s : string) (r : agentRow) : agentRow :=
  let c := ar_cols r in
  set_cols r {| ac_status := s; ac_display_name := ac_display_name c; ac_description := ac_description c;
                ac_last_renewal_ms := ac_last_renewal_ms c; ac_supersedes := ac_supersedes c;
                ac_order_ref := ac_order_ref c; ac_order_state := ac_order_state c;
                ac_order_challenges := ac_order_challenges c; ac_order_verified := ac_order_verified c;
                ac_expires_ms := ac_expires_ms c; ac_profiles := ac_profiles c |}.

Definition ExpireLapsedPendingValidation (now : Time) : tx Z := fun d =>
  let cond := expire_row (Time_UnixMilli now) in
  Ok (Z.of_nat (length (filter (fun r => cond r = true) (t_agents d))),
      set_agents d ((fun r => if cond r then set_status StatusExpired r else r) <$> t_agents d) (t_agents_seq d)).

(** ** [endpoint.go] *)

Definition EndpointStore_Save (agentID : string) (eps : list AgentEndpoint) : tx unit := fun d =>
  Ok (tt, set_endpoints d (<[agentID := eps]> (t_endpoints d))).

Definition EndpointStore_FindByAgentID (agentID : string) : tx (list AgentEndpoint) := fun d =>
  eps ← one_row (t_endpoints d !! agentID); Ok (eps, d).

(** ** [certificate.go] *)

Definition agent_exists (d : DB) (agentID : string) : bool :=
  existsb (fun r => String.eqb (ar_agent_id r) agentID) (t_agents d).

Definition cert_toDomain (r : certRow) : StoredCertificate :=
  {| sc_InternalID := ce_id r; sc_CSRID := ce_csr_id r; sc_CertificateType := ce_type r; sc_CertificatePEM := ce_pem r;
     sc_ChainPEM := null_string (ce_chain r); sc_SerialNumber := null_string (ce_serial r);
     sc_CertificateRef := null_string (ce_ref r); sc_CertStatus := ce_status r;
     sc_ExpirationTimestamp := msToTime (ce_expires_ms r); sc_IssueTimestamp := msToTime (ce_issue_ms r) |}.

Definition SaveIdentityCertificate (agentID : string) (cert : StoredCertificate) : tx unit := fun d =>
  if negb (agent_exists d agentID) then Err FOREIGN_KEY else
  let id := t_certs_seq d + 1 in
  Ok (tt, set_certs d (t_certs d ++
    [{| ce_id := id; ce_agent_id := agentID; ce_csr_id := sc_CSRID cert; ce_type := sc_CertificateType cert;
        ce_pem := sc_CertificatePEM cert; ce_chain := nullableString (sc_ChainPEM cert);
        ce_serial := nullableString (sc_SerialNumber cert); ce_ref := nullableString (sc_CertificateRef cert);
        ce_status := sc_CertStatus cert; ce_issue_ms := Time_UnixMilli (sc_IssueTimestamp cert);
        ce_expires_ms := Time_UnixMilli (sc_ExpirationTimestamp cert) |}]) id).

Definition identity_row (agentID : string) (r : certRow) : bool :=
  String.eqb (ce_agent_id r) agentID && String.eqb (ce_type r) CertTypeIdentity.

Definition identity_certs (d : DB) (agentID : string) : list StoredCertificate :=
  cert_toDomain <$> rev (filter (fun r => identity_row agentID r = true) (t_certs d)).

Definition FindIdentityCertificatesByAgent (agentID : string) : tx (list StoredCertificate) :=
  reads (fun d => identity_certs d agentID).

Definition set_cert_status (s : string) (r : certRow) : certRow :=
  {| ce_id := ce_id r; ce_agent_id := ce_agent_id r; ce_csr_id := ce_csr_id r; ce_type := ce_type r; ce_pem := ce_pem r;
     ce_chain := ce_chain r; ce_serial := ce_serial r; ce_ref := ce_ref r; ce_status := s; ce_issue_ms := ce_issue_ms r;
     ce_expires_ms := ce_expires_ms r |}.

Definition UpdateCertificateStatus (cert : StoredCertificate) : tx unit := fun d =>
  Ok (tt, set_certs d ((fun r => if ce_id r =? sc_InternalID cert then set_cert_status (sc_CertStatus cert) r else r)
                       <$> t_certs d) (t_certs_seq d)).

Definition csr_toDomain (r : csrRow) : AgentCSR :=
  {| csr_CSRID := cr_csr_id r; csr_Type := if String.eqb (cr_type r) "" then CSRTypeIdentity else cr_type r;
     csr_CSRContent := cr_pem r; csr_Status := cr_status r; csr_SubmissionTimestamp := msToTime (cr_submitted_ms r);
     csr_ProcessedTimestamp := null_time (cr_processed_ms r); csr_RejectionReason := null_string (cr_rejection r) |}.

Definition upd_csr (csr : AgentCSR) (r : csrRow) : csrRow :=
  {| cr_csr_id := cr_csr_id r; cr_agent_id := cr_agent_id r; cr_type := cr_type r; cr_pem := cr_pem r;
     cr_status := csr_Status csr; cr_submitted_ms := cr_submitted_ms r;
     cr_processed_ms := nullableMs (csr_ProcessedTimestamp csr); cr_rejection := nullableString (csr_RejectionReason csr) |}.

Definition SaveCSR (agentID : string) (csr : AgentCSR) : tx unit := fun d =>
  let csrType := if String.eqb (csr_Type csr) "" then CSRTypeIdentity else csr_Type csr in
  if negb (one_of csrType [CSRTypeIdentity; CSRTypeServer]) then Err (Other "CHECK constraint failed") else
  if existsb (fun r => String.eqb (cr_csr_id r) (csr_CSRID csr)) (t_csrs d)
  then Ok (tt, set_csrs d ((fun r => if String.eqb (cr_csr_id r) (csr_CSRID csr) then upd_csr csr r else r) <$> t_csrs d)) else
  if negb (agent_exists d agentID) then Err FOREIGN_KEY else
  Ok (tt, set_csrs d (t_csrs d ++
    [{| cr_csr_id := csr_CSRID csr; cr_agent_id := agentID; cr_type := csrType; cr_pem := csr_CSRContent csr;
        cr_status := csr_Status csr; cr_submitted_ms := Time_UnixMilli (csr_SubmissionTimestamp csr);
        cr_processed_ms := nullableMs (csr_ProcessedTimestamp csr);
        cr_rejection := nullableString (csr_RejectionReason csr) |}])).

Definition pending_row (agentID csrType : string) (r : csrRow) : bool :=
  String.eqb (cr_agent_id r) agentID && String.eqb (cr_type r) csrType && String.eqb (cr_status r) CSRStatusPending.

(** [ORDER BY submission_timestamp_ms DESC LIMIT 1]; among equal times the first
    row inserted. *)
Definition latest_submitted (best : option csrRow) (r : csrRow) : option csrRow :=
  match best with
  | None => Some r
  | Some b => if cr_submitted_ms b <? cr_submitted_ms r then Some r else best
  end.

Definition latest_pending (d : DB) (agentID csrType : string) : option csrRow :=
  fold_left latest_submitted (filter (fun r => pending_row agentID csrType r = true) (t_csrs d)) None.

Definition FindLatestPendingCSRByType (agentID csrType : string) : tx (option AgentCSR) :=
  reads (fun d => csr_toDomain <$> latest_pending d agentID csrType).

Definition FindCSRByID (agentID csrID : string) : tx AgentCSR := fun d =>
  r ← one_row (find_first (fun r => String.eqb (cr_agent_id r) agentID && String.eqb (cr_csr_id r) csrID) (t_csrs d));
  Ok (csr_toDomain r, d).

(** ** [byoc.go] *)

Definition byoc_toDomain (r : byocRow) : ByocServerCertificate :=
  {| byoc_LeafCertificatePEM := by_leaf r; byoc_ChainCertificatesPEM := null_string (by_chain r);
     byoc_SubjectCommonName := by_cn r; byoc_SubjectAlternativeNames := by_sans r; byoc_IssuerDN := by_issuer r;
     byoc_ValidFromTimestamp := msToTime (by_from_ms r); byoc_ValidToTimestamp := msToTime (by_to_ms r);
     byoc_Fingerprint := by_fingerprint r |}.

Definition ByocStore_Save (agentID : string) (cert : ByocServerCertificate) : tx unit := fun d =>
  if negb (agent_exists d agentID) then Err FOREIGN_KEY else
  Ok (tt, set_byoc d (t_byoc d ++
    [{| by_agent_id := agentID; by_leaf := byoc_LeafCertificatePEM cert;
        by_chain := nullableString (byoc_ChainCertificatesPEM cert); by_cn := byoc_SubjectCommonName cert;
        by_sans := byoc_SubjectAlternativeNames cert; by_issuer := byoc_IssuerDN cert;
        by_from_ms := Time_UnixMilli (byoc_ValidFromTimestamp cert); by_to_ms := Time_UnixMilli (byoc_ValidToTimestamp cert);
        by_fingerprint := byoc_Fingerprint cert |}])).

Definition byoc_certs (d : DB) (agentID : string) : list ByocServerCertificate :=
  byoc_toDomain <$> rev (filter (fun r => by_agent_id r = agentID) (t_byoc d)).

Definition ByocStore_FindByAgentID (agentID : string) : tx (list ByocServerCertificate) :=
  reads (fun d => byoc_certs d agentID).

Definition FindLatestValidByAgentID (agentID : string) (now : Time) : tx ByocServerCertificate := fun d =>
  let nowMs := Time_UnixMilli now in
  r ← one_row (find_first (fun r => String.eqb (by_agent_id r) agentID && (by_from_ms r <=? nowMs) && (nowMs <? by_to_ms r))
                 (rev (t_byoc d)));
  Ok (byoc_toDomain r, d).

(** ** [renewal.go] *)

Definition renewal_toDomain (r : renewalRow) : ServerCertificateRenewal :=
  {| rn_ID := rw_id r; rn_AgentID := rw_agent_id r; rn_RegistrationID := rw_registration_id r; rn_RenewalType := rw_type r;
     rn_ServerCsrID := null_string (rw_csr_id r); rn_ByocCertPEM := null_string (rw_byoc_cert r);
     rn_ByocChainPEM := null_string (rw_byoc_chain r); rn_FailureReason := null_string (rw_failure r);
     rn_CompletedAt := null_time (rw_completed_ms r); rn_CreatedAt := msToTime (rw_created_ms r);
     rn_Validation :=
       {| rv_OrderRef := null_string (rw_order_ref r);
          rv_Challenges := match rw_challenges r with
                           | Some cs => cs
                           | None => [self_challenge ChallengeTypeDNS01 (rw_dns01 r); self_challenge ChallengeTypeHTTP01 (rw_http01 r)]
                           end;
          rv_Status := rw_status r; rv_CreatedAt := msToTime (rw_created_ms r); rv_ExpiresAt := msToTime (rw_expires_ms r);
          rv_UpdatedAt := msToTime (rw_updated_ms r) |} |}.

Definition set_rn_ID (r : ServerCertificateRenewal) (id : Z) : ServerCertificateRenewal :=
  {| rn_ID := id; rn_AgentID := rn_AgentID r; rn_RegistrationID := rn_RegistrationID r; rn_RenewalType := rn_RenewalType r;
     rn_ServerCsrID := rn_ServerCsrID r; rn_ByocCertPEM := rn_ByocCertPEM r; rn_ByocChainPEM := rn_ByocChainPEM r;
     rn_FailureReason := rn_FailureReason r; rn_CompletedAt := rn_CompletedAt r; rn_CreatedAt := rn_CreatedAt r;
     rn_Validation := rn_Validation r |}.

Definition token_of (v : RenewalValidation) (t : ChallengeType) : string :=
  match RenewalValidation_ChallengeOfType v t with Some c => ch_Token c | None => "" end.

Definition renewal_open (id : Z) (r : renewalRow) : bool := (rw_id r =? id) && is_null (rw_completed_ms r).

Definition upd_renewal (x : ServerCertificateRenewal) (nowMs : Z) (r : renewalRow) : renewalRow :=
  {| rw_id := rw_id r; rw_agent_id := rw_agent_id r; rw_registration_id := rw_registration_id r; rw_type := rw_type r;
     rw_csr_id := rw_csr_id r; rw_byoc_cert := rw_byoc_cert r; rw_byoc_chain := rw_byoc_chain r; rw_dns01 := rw_dns01 r;
     rw_http01 := rw_http01 r; rw_order_ref := rw_order_ref r; rw_challenges := rw_challenges r;
     rw_status := rv_Status (rn_Validation x); rw_expires_ms := rw_expires_ms r;
     rw_failure := nullableString (rn_FailureReason x); rw_completed_ms := nullableMs (rn_CompletedAt x);
     rw_created_ms := rw_created_ms r; rw_updated_ms := nowMs |}.

Definition RenewalStore_Save (x : ServerCertificateRenewal) (now : Time) : tx ServerCertificateRenewal := fun d =>
  let nowMs := Time_UnixMilli now in
  let v := rn_Validation x in
  if rn_ID x =? 0 then
    if negb (existsb (fun r => ar_id r =? rn_RegistrationID x) (t_agents d)) then Err FOREIGN_KEY else
    let id := t_renewals_seq d + 1 in
    Ok (set_rn_ID x id, set_renewals d (t_renewals d ++
      [{| rw_id := id; rw_agent_id := rn_AgentID x; rw_registration_id := rn_RegistrationID x; rw_type := rn_RenewalType x;
          rw_csr_id := nullableString (rn_ServerCsrID x); rw_byoc_cert := nullableString (rn_ByocCertPEM x);
          rw_byoc_chain := nullableString (rn_ByocChainPEM x); rw_dns01 := token_of v ChallengeTypeDNS01;
          rw_http01 := token_of v ChallengeTypeHTTP01; rw_order_ref := nullableString (rv_OrderRef v);
          rw_challenges := Some (rv_Challenges v); rw_status := rv_Status v;
          rw_expires_ms := Time_UnixMilli (rv_ExpiresAt v); rw_failure := nullableString (rn_FailureReason x);
          rw_completed_ms := nullableMs (rn_CompletedAt x); rw_created_ms := Time_UnixMilli (rn_CreatedAt x);
          rw_updated_ms := nowMs |}]) id)
  else
    let cond := renewal_open (rn_ID x) in
    if (length (filter (fun r => cond r = true) (t_renewals d)) =? 1)%nat
    then Ok (x, set_renewals d ((fun r => if cond r then upd_renewal x nowMs r else r) <$> t_renewals d) (t_renewals_seq d))
    else Err (Dom (NewConflictError "RENEWAL_NOT_PENDING")).

(** [ORDER BY id DESC LIMIT 1] *)
Definition RenewalStore_FindByAgentID (agentID : string) : tx ServerCertificateRenewal := fun d =>
  r ← one_row (last (filter (fun r => rw_agent_id r = agentID) (t_renewals d))); Ok (renewal_toDomain r, d).

Definition pending_renewal (d : DB) (agentID : string) : option renewalRow :=
  last (filter (fun r => rw_agent_id r = agentID /\ is_null (rw_completed_ms r) = true) (t_renewals d)).

Definition FindPendingByAgentID (agentID : string) : tx ServerCertificateRenewal := fun d =>
  r ← one_row (pending_renewal d agentID); Ok (renewal_toDomain r, d).

Definition RenewalStore_Delete (id : Z) : tx unit := fun d =>
  Ok (tt, set_renewals d (filter (fun r => rw_id r <> id) (t_renewals d)) (t_renewals_seq d)).

Definition ListPendingExpired (now : Time) : tx (list ServerCertificateRenewal) :=
  reads (fun d => renewal_toDomain <$>
    filter (fun r => is_null (rw_completed_ms r) = true /\ rw_status r = ValidationPending /\
                     rw_expires_ms r <= Time_UnixMilli now) (t_renewals d)).

(** ** [activation_seals.go] and the outbox *)

Definition LoadActivationSeal (agentID : string) : tx (option (string * payload)) :=
  reads (fun d => t_seals d !! agentID).

(** [INSERT ... ON CONFLICT(agent_id) DO NOTHING] *)
Definition insert_seal (agentID lane : string) (p : payload) : tx unit := fun d =>
  if negb (schema_ok lane) then Err (Other "CHECK constraint failed") else
  Ok (tt, match t_seals d !! agentID with
          | Some _ => d
          | None => set_seals d (<[agentID := (lane, p)]> (t_seals d))
          end).

Definition outbox_tx {A} (f : Outbox -> result outbox_error (Outbox * A)) : tx A := fun d =>
  match f (t_outbox d) with Ok (o, a) => Ok (a, set_outbox d o) | Err _ => Err (Other "outbox") end.

Definition Outbox_Enqueue (eventType agentID lane : string) (p : payload) (earliest now : Time) : tx Z :=
  outbox_tx (fun o => Enqueue o eventType agentID lane p earliest now).

Definition Outbox_RecordSealed (eventType agentID lane : string) (p : payload) (logID : string) (now : Time) : tx Z :=
  outbox_tx (fun o => RecordSealed o eventType agentID lane p logID now).

Definition Outbox_CancelPending (agentID : string) (now : Time) : tx unit :=
  outbox_tx (fun o => Ok (CancelPending o agentID now, tt)).
