(* ===== verification/RaService.v ===== *)
(** The registration service, [internal/ra/service]: [registration.go],
    [lifecycle.go], [renewal.go], [revocation.go], [order_proof.go],
    [certificate_events.go], [agent_expiry.go] and [renewal_expiry.go].

    A method is a handler in the sense of [Concurrent]: its atomic steps are the
    store calls, the transactions of [uow.Run], and the calls to other systems
    (certificate authorities, domain-control probes, the transparency log, the
    event bus), which are recorded in the world's log.  Other requests may run
    between any two of them.

    What other systems answer during one call is its environment, a [Ports]: any
    function of the arguments.  It also gives the values the call draws: clocks,
    UUIDs and challenge tokens; the stores' [time.Now] is the same instant
    throughout a call.  A validated certificate has the fields of a
    [ByocServerCertificate].  Log lines are not modelled. *)
From stdpp Require Import gmap.
From S2P Require Import Prelude GoStrings GoTime DomainErrors SemVer AnsName Endpoint Lifecycle Discovery TlEvent Outbox.
From S2P Require Import Concurrent RaEvents RaStore.

#[local] Set Default Goal Selector "!".
#[local] Open Scope Z_scope.

(** ** The world *)

(** Calls to other systems. *)
Inductive effect :=
| EProbe (fqdn : string) (ch : Challenge) (found : bool)
| ECreateOrder (ownerID fqdn : string)
| EFinalize (ownerID orderRef csrPEM fqdn : string)
| EIssueIdentity (csrPEM ansName : string)
| ERevokeAtCA (serial ref : string) (reason : RevocationReason)
| ESeal (agentID lane : string) (p : payload) (logID : option string)
| EPublish (ev : Event).

Record World := { w_db : DB; w_log : list effect }.

Definition svc (A : Type) : Type := prog World (result serr A).

#[export] Instance svc_ret : MRet svc := fun A a => Ret (Ok a).
#[export] Instance svc_bind : MBind svc := fun A B f m =>
  prog_bind m (fun r => match r with Ok a => f a | Err e => Ret (Err e) end).

Definition fail {A} (e : serr) : svc A := Ret (Err e).
Definition return_ {A} (r : result serr A) : svc A := Ret r.

(** A store call outside a transaction, or [uow.Run]: all effects or none. *)
Definition atomic {A} (t : tx A) : svc A :=
  Step (fun w => match t (w_db w) with
                 | Ok (a, d) => (Ok a, {| w_db := d; w_log := w_log w |})
                 | Err e => (Err e, w)
                 end) Ret.

Definition call {A} (e : effect) (answer : result serr A) : svc A :=
  Step (fun w => (answer, {| w_db := w_db w; w_log := w_log w ++ [e] |})) Ret.

(** Go code that looks at the error itself. *)
Definition attempt {A} (m : svc A) : svc (result serr A) := prog_map Ok m.

Fixpoint svc_for {A} (l : list A) (body : A -> svc unit) : svc unit :=
  match l with [] => mret tt | x :: l' => body x ≫= fun _ => svc_for l' body end.

(** ** The environment of a call *)

Inductive provider_error := PPending | PFailed | PThrottled | PLegacyOrder | POwnerMismatch | POther.

Record IssuedCert := {
  ic_CertPEM : string;
  ic_ChainPEM : string;
  ic_SerialNumber : string;
  ic_CertificateRef : string;
  ic_IssuedAt : Time;
  ic_ExpiresAt : Time
}.

Record ServerCertificateIssuer := {
  CreateOrder : string -> string -> result provider_error (option CertificateOrder);
  FinalizeOrder : string -> string -> string -> string -> list ChallengeType -> result provider_error IssuedCert
}.

Record EventSigner := { es_RaID : string; es_Sign : string -> Time -> result serr string }.

Record Ports := {
  p_clock : Time;                  (* [s.clock()] at the start of the call *)
  p_clock2 : Time;                 (* [s.clock()] inside a transaction *)
  p_now : Time;                    (* [time.Now()] of the stores *)
  p_agentID : string;
  p_csrID : string;
  p_serverCsrID : string;
  p_tokens : result serr (string * string);
  p_ValidateIdentityCSR : string -> string -> bool;
  p_ValidateServerCSR : string -> string -> bool;
  p_ValidateServerCertificate : string -> string -> string -> option ByocServerCertificate;
  p_IssueIdentityCertificate : string -> string -> option IssuedCert;
  p_RevokeCertificate : string -> string -> RevocationReason -> bool;
  p_serverCA : option ServerCertificateIssuer;
  p_dnsVerifier : DNSVerifier serr;
  p_httpChallenge : option (string -> string -> string -> result serr bool);
  p_agentSealer : option (string -> string -> string -> result serr string);
  p_outbox : bool;                 (* an outbox is configured *)
  p_signer : option EventSigner;
  p_publish : Event -> result serr unit;
  p_registry : Registry
}.

Definition domErr {A} (e : Error) : svc A := fail (Dom e).

Definition certificateProviderError (err : provider_error) (fallbackCode : string) : serr :=
  Dom match err with
      | PThrottled => NewUnavailableError "CERT_PROVIDER_THROTTLED"
      | PLegacyOrder => NewConflictError "CERT_ORDER_UPGRADE_REQUIRED"
      | POwnerMismatch => NewConflictError "CERT_ORDER_OWNER_MISMATCH"
      | _ => NewInternalError fallbackCode
      end.

(** Field assignments on the aggregate. *)
Definition with_endpoints (r : AgentRegistration) (eps : list AgentEndpoint) : AgentRegistration :=
  {| r_ID := r_ID r; r_AgentID := r_AgentID r; r_OwnerID := r_OwnerID r; r_AnsName := r_AnsName r;
     r_Status := r_Status r; r_Details := r_Details r; r_Endpoints := eps; r_ServerCert := r_ServerCert r;
     r_IdentityCSR := r_IdentityCSR r; r_ServerCSR := r_ServerCSR r;
     r_SupersedesRegistrationID := r_SupersedesRegistrationID r; r_CertOrder := r_CertOrder r;
     r_DiscoveryProfiles := r_DiscoveryProfiles r; r_PendingEvents := r_PendingEvents r |}.
Definition with_server_cert (r : AgentRegistration) (c : option ByocServerCertificate) : AgentRegistration :=
  {| r_ID := r_ID r; r_AgentID := r_AgentID r; r_OwnerID := r_OwnerID r; r_AnsName := r_AnsName r;
     r_Status := r_Status r; r_Details := r_Details r; r_Endpoints := r_Endpoints r; r_ServerCert := c;
     r_IdentityCSR := r_IdentityCSR r; r_ServerCSR := r_ServerCSR r;
     r_SupersedesRegistrationID := r_SupersedesRegistrationID r; r_CertOrder := r_CertOrder r;
     r_DiscoveryProfiles := r_DiscoveryProfiles r; r_PendingEvents := r_PendingEvents r |}.
Definition with_profiles (r : AgentRegistration) (ps : list DiscoveryProfile) : AgentRegistration :=
  {| r_ID := r_ID r; r_AgentID := r_AgentID r; r_OwnerID := r_OwnerID r; r_AnsName := r_AnsName r;
     r_Status := r_Status r; r_Details := r_Details r; r_Endpoints := r_Endpoints r; r_ServerCert := r_ServerCert r;
     r_IdentityCSR := r_IdentityCSR r; r_ServerCSR := r_ServerCSR r;
     r_SupersedesRegistrationID := r_SupersedesRegistrationID r; r_CertOrder := r_CertOrder r;
     r_DiscoveryProfiles := ps; r_PendingEvents := r_PendingEvents r |}.

Record RegisterRequest := {
  rq_OwnerID : string;
  rq_AnsName : AnsName;
  rq_DisplayName : string;
  rq_Description : string;
  rq_Endpoints : list AgentEndpoint;
  rq_IdentityCSRPEM : string;
  rq_ServerCsrPEM : string;
  rq_ServerCertificatePEM : string;
  rq_ServerCertificateChainPEM : string;
  rq_SchemaVersion : string;
  rq_DiscoveryProfiles : list DiscoveryProfile
}.

Definition registrationChallengeWindow : Duration := 24 * Hour.
Definition renewalChallengeWindow : Duration := 7 * 24 * Hour.

(** ** [order_proof.go] *)

Definition set_expires (o : CertificateOrder) (t : Time) : CertificateOrder :=
  {| o_OrderRef := o_OrderRef o; o_State := o_State o; o_Challenges := o_Challenges o; o_ExpiresAt := t;
     o_VerifiedChallenge := o_VerifiedChallenge o |}.
Definition set_ref (o : CertificateOrder) (ref : string) : CertificateOrder :=
  {| o_OrderRef := ref; o_State := o_State o; o_Challenges := o_Challenges o; o_ExpiresAt := o_ExpiresAt o;
     o_VerifiedChallenge := o_VerifiedChallenge o |}.

Definition orderWithOwnerProof (tokens : result serr (string * string)) (created : option CertificateOrder) (deadline : Time)
  : result serr CertificateOrder :=
  match created with
  | None => Err (Other "certificate issuer returned no order")
  | Some created =>
      if negb (order_in_progress created) then Err (Other "certificate issuer returned unusable order state") else
      let order := RecordVerifiedChallenge created "" in
      let order := if Time_IsZero (o_ExpiresAt order) || Time_Before deadline (o_ExpiresAt order)
                   then set_expires order deadline else order in
      match o_Challenges order with
      | [] => '(dns01, http01) ← tokens; Ok (set_ref (NewSelfIssuedOrder dns01 http01 (o_ExpiresAt order)) (o_OrderRef order))
      | _ => Ok (set_order_state order OrderStatePending)
      end
  end.

Section Service.
Context `{U : UnicodeTables} `{X : PemX509} `{C : Canonicalizer}.
Context (P : Ports).

Definition issuer_call {A} (e : effect) (r : result provider_error A) : svc (result provider_error A) := call e (Ok r).

Definition createServerOrder (ca : ServerCertificateIssuer) (ownerID fqdn : string)
  : svc (result provider_error (option CertificateOrder)) :=
  issuer_call (ECreateOrder ownerID fqdn) (CreateOrder ca ownerID fqdn).

(** ** Host exclusivity *)

Definition holdsHostExclusivity (st : RegistrationStatus) : bool :=
  String.eqb st StatusActive || String.eqb st StatusDeprecated.

Definition hostHeldByAnotherOwner (agentHost ownerID exceptAgentID : string) : svc bool :=
  regs ← atomic (FindAllByAgentHost agentHost);
  mret (existsb (fun r => negb (String.eqb (r_AgentID r) exceptAgentID) && negb (String.eqb (r_OwnerID r) ownerID) &&
                          holdsHostExclusivity (r_Status r)) regs).

Definition errHostTaken : serr := Dom (NewConflictError "AGENT_HOST_TAKEN").

Definition preflightRegistrationConflicts (ansName : AnsName) (ownerID : string) : svc unit :=
  exists_ ← atomic (ExistsByAnsName ansName);
  if (exists_ : bool) then domErr (NewConflictError "ANS_NAME_TAKEN") else
  held ← hostHeldByAnotherOwner (AnsName_FQDN ansName) ownerID "";
  if (held : bool) then fail errHostTaken else mret tt.

Definition ensureHostNotTakenByOther (reg : AgentRegistration) : svc unit :=
  held ← hostHeldByAnotherOwner (reg_FQDN reg) (r_OwnerID reg) (r_AgentID reg);
  if (held : bool) then fail errHostTaken else mret tt.

(** ** Registration *)

Definition resolveServerCertInput (req : RegisterRequest) (now : Time)
  : svc (option ByocServerCertificate * option AgentCSR * CertificateOrder) :=
  let csrSet := negb (String.eqb (rq_ServerCsrPEM req) "") in
  let byocSet := negb (String.eqb (rq_ServerCertificatePEM req) "") in
  let fqdn := AnsName_FQDN (rq_AnsName req) in
  let deadline := Time_Add now registrationChallengeWindow in
  if Bool.eqb csrSet byocSet then domErr (NewValidationError "INVALID_SERVER_CERT_INPUT") else
  if byocSet then
    match p_ValidateServerCertificate P (rq_ServerCertificatePEM req) (rq_ServerCertificateChainPEM req) fqdn with
    | None => domErr (NewCertificateError "INVALID_SERVER_CERT")
    | Some v =>
        match p_tokens P with
        | Err _ => domErr (NewInternalError "CHALLENGE_GEN_FAILED")
        | Ok (dns01, http01) => mret (Some v, None, NewSelfIssuedOrder dns01 http01 deadline)
        end
    end
  else
    match p_serverCA P with
    | None => domErr (NewValidationError "SERVER_CA_DISABLED")
    | Some ca =>
        if negb (p_ValidateServerCSR P (rq_ServerCsrPEM req) fqdn) then domErr (NewValidationError "INVALID_SERVER_CSR") else
        created ← createServerOrder ca (rq_OwnerID req) fqdn;
        match created with
        | Err e => fail (certificateProviderError e "CERT_ORDER_FAILED")
        | Ok created =>
            match orderWithOwnerProof (p_tokens P) created deadline with
            | Err _ => domErr (NewInternalError "CERT_ORDER_FAILED")
            | Ok order => mret (None, Some (NewServerCSR (p_serverCsrID P) (rq_ServerCsrPEM req) now), order)
            end
        end
    end.

Fixpoint dedup_profiles (seen l : list DiscoveryProfile) : result serr (list DiscoveryProfile) :=
  match l with
  | [] => Ok []
  | s :: l' =>
      if negb (DiscoveryProfile_IsValid s) then Err (Dom (NewValidationError "INVALID_DISCOVERY_PROFILE")) else
      if existsb (String.eqb s) seen then dedup_profiles seen l' else
      rest ← dedup_profiles (s :: seen) l'; Ok (s :: rest)
  end.

Definition applyDiscoveryProfiles (reg : AgentRegistration) (req : RegisterRequest) : result serr AgentRegistration :=
  if isV1Lane (rq_SchemaVersion req) then Ok (with_profiles reg [DiscoveryProfileANSTXT]) else
  match rq_DiscoveryProfiles req with
  | [] => Ok (with_profiles reg DefaultDiscoveryProfiles)
  | ps => out ← dedup_profiles [] ps; Ok (with_profiles reg out)
  end.

Definition tx_opt {A} (o : option A) (f : A -> tx unit) : tx unit := match o with Some a => f a | None => mret tt end.

Definition save_registration (reg : AgentRegistration) (byocCert : option ByocServerCertificate) : tx AgentRegistration :=
  reg' ← AgentStore_Save reg;
  _ ← EndpointStore_Save (r_AgentID reg) (r_Endpoints reg);
  _ ← tx_opt (r_IdentityCSR reg) (SaveCSR (r_AgentID reg));
  _ ← tx_opt (r_ServerCSR reg) (SaveCSR (r_AgentID reg));
  _ ← tx_opt byocCert (ByocStore_Save (r_AgentID reg));
  mret reg'.

Definition RegisterAgent (req : RegisterRequest) : svc AgentRegistration :=
  let now := p_clock P in
  _ ← preflightRegistrationConflicts (rq_AnsName req) (rq_OwnerID req);
  let ansName := rq_AnsName req in
  identityCSR ← (if String.eqb (rq_IdentityCSRPEM req) "" then mret None else
                 if negb (p_ValidateIdentityCSR P (rq_IdentityCSRPEM req) (AnsName_String ansName))
                 then domErr (NewValidationError "INVALID_IDENTITY_CSR")
                 else mret (Some (NewIdentityCSR (p_csrID P) (rq_IdentityCSRPEM req) now)));
  '(byocCert, pendingServerCSR, order) ← resolveServerCertInput req now;
  reg ← return_ (dom (NewRegistration (p_agentID P) (rq_OwnerID req) ansName (rq_DisplayName req) (rq_Description req)
                        (rq_Endpoints req) byocCert identityCSR now));
  let reg := upd_order (upd_csrs reg (r_IdentityCSR reg) pendingServerCSR) order in
  reg ← return_ (applyDiscoveryProfiles reg req);
  reg ← atomic (save_registration reg byocCert);
  let '(reg, events) := ClearEvents reg in
  _ ← svc_for events (fun ev => call (EPublish ev) (p_publish P ev));
  mret reg.

(** ** Domain control *)

Definition verifyChallengeArtifact (fqdn : string) (ch : Challenge) : svc (result serr bool) :=
  if String.eqb (ch_Type ch) ChallengeTypeDNS01 then
    match p_dnsVerifier P with
    | None => mret (Ok false)
    | Some verify =>
        let rec := {| dr_Name := EffectiveDNSRecordName ch fqdn; dr_Type := DNSRecordTXT;
                      dr_Value := EffectiveDNSRecordValue ch; dr_Purpose := "DOMAIN_VALIDATION"; dr_Required := true;
                      dr_TTL := 0 |} in
        let answer := match verify fqdn [rec] with
                      | Err e => Err e
                      | Ok None => Ok false
                      | Ok (Some res) => Ok (vr_AllRequired res)
                      end in
        call (EProbe fqdn ch (match answer with Ok b => b | Err _ => false end)) (Ok answer)
    end
  else if String.eqb (ch_Type ch) ChallengeTypeHTTP01 then
    match p_httpChallenge P with
    | None => mret (Ok false)
    | Some verify =>
        let answer := verify fqdn (EffectiveHTTPPath ch) (ExpectedHTTPContent ch) in
        call (EProbe fqdn ch (match answer with Ok b => b | Err _ => false end)) (Ok answer)
    end
  else mret (Ok false).

Fixpoint challenge_loop (fqdn : string) (challenges : list Challenge) (firstErr : option serr)
  : svc (list ChallengeType * option serr) :=
  match challenges with
  | [] => mret ([], firstErr)
  | ch :: rest =>
      r ← verifyChallengeArtifact fqdn ch;
      match r with
      | Ok true => mret ([ch_Type ch], None)
      | Ok false => challenge_loop fqdn rest firstErr
      | Err e => challenge_loop fqdn rest (match firstErr with None => Some e | _ => firstErr end)
      end
  end.

Definition verifyChallengeArtifacts (fqdn : string) (challenges : list Challenge) : svc (list ChallengeType * option serr) :=
  match challenges with
  | [] => mret ([], None)
  | _ =>
      match p_dnsVerifier P, p_httpChallenge P with
      | None, None => mret ([], Some (Dom (NewInternalError "CHALLENGE_VERIFIER_MISSING")))
      | _, _ => challenge_loop fqdn challenges None
      end
  end.

Definition gateOrderChallenges (reg : AgentRegistration) (now : Time) : svc (list ChallengeType * AgentRegistration) :=
  let order := r_CertOrder reg in
  let verifiedBefore := ChallengeType_IsValid (o_VerifiedChallenge order) in
  if CertificateOrder_IsZero order then domErr (NewValidationError "ACME_CHALLENGE_MISSING") else
  if (length (o_Challenges order) =? 0)%nat && negb verifiedBefore
  then domErr (NewConflictError "CERT_ORDER_UPGRADE_REQUIRED") else
  if String.eqb (o_State order) OrderStateIssuing && verifiedBefore then mret ([], reg) else
  if String.eqb (o_State order) OrderStateFailed then domErr (NewValidationError "CERT_ORDER_FAILED") else
  if negb (order_in_progress order) then domErr (NewValidationError "ACME_CHALLENGE_MISSING") else
  if Order_IsExpired order now then domErr (NewValidationError "ACME_CHALLENGE_EXPIRED") else
  '(verified, verr) ← verifyChallengeArtifacts (reg_FQDN reg) (o_Challenges order);
  match verified with
  | t :: _ => mret (verified, upd_order reg (RecordVerifiedChallenge order t))
  | [] =>
      match verr with
      | Some e => fail (Other "acme verify")
      | None => domErr (NewValidationError "ACME_CHALLENGE_MISSING")
      end
  end.

(** ** Issuance *)

Inductive serverOrderOutcome :=
| OrderPendingOutcome (reg : AgentRegistration)
| OrderIssued (cert : ByocServerCertificate) (signedCSR : AgentCSR).

Definition finalizeServerOrder (reg : AgentRegistration) (serverCSR : AgentCSR) (verified : list ChallengeType) (now : Time)
  : svc serverOrderOutcome :=
  match p_serverCA P with
  | None => domErr (NewInternalError "SERVER_CA_DISABLED")
  | Some ca =>
      let ref := o_OrderRef (r_CertOrder reg) in
      issued ← issuer_call (EFinalize (r_OwnerID reg) ref (csr_CSRContent serverCSR) (reg_FQDN reg))
                 (FinalizeOrder ca (r_OwnerID reg) ref (csr_CSRContent serverCSR) (reg_FQDN reg) verified);
      match issued with
      | Err PPending =>
          order ← return_ (dom (MarkIssuing (r_CertOrder reg)));
          mret (OrderPendingOutcome (upd_order reg order))
      | Err PFailed =>
          order ← return_ (dom (Order_MarkFailed (r_CertOrder reg)));
          _ ← atomic (AgentStore_Save (upd_order reg order));
          domErr (NewValidationError "CERT_ORDER_FAILED")
      | Err e => fail (certificateProviderError e "SERVER_CERT_ISSUE_FAILED")
      | Ok issued =>
          match p_ValidateServerCertificate P (ic_CertPEM issued) (ic_ChainPEM issued) (reg_FQDN reg) with
          | None => domErr (NewInternalError "SERVER_CERT_SELFVERIFY_FAILED")
          | Some v => signed ← return_ (dom (CSR_MarkSigned serverCSR now)); mret (OrderIssued v signed)
          end
      end
  end.

Definition signIdentityCSR (reg : AgentRegistration) (identityCSR : AgentCSR) (now : Time)
  : svc (AgentCSR * StoredCertificate) :=
  let ansName := AnsName_String (r_AnsName reg) in
  issued ← call (EIssueIdentity (csr_CSRContent identityCSR) ansName)
             (match p_IssueIdentityCertificate P (csr_CSRContent identityCSR) ansName with
              | Some c => Ok c | None => Err (Dom (NewInternalError "CERT_ISSUE_FAILED")) end);
  signed ← return_ (dom (CSR_MarkSigned identityCSR now));
  mret (signed,
        {| sc_InternalID := 0; sc_CSRID := csr_CSRID identityCSR; sc_CertificateType := CertTypeIdentity;
           sc_CertificatePEM := ic_CertPEM issued; sc_ChainPEM := ic_ChainPEM issued;
           sc_SerialNumber := ic_SerialNumber issued; sc_CertificateRef := ic_CertificateRef issued;
           sc_CertStatus := CertStatusValid; sc_ExpirationTimestamp := ic_ExpiresAt issued;
           sc_IssueTimestamp := ic_IssuedAt issued |}).

Definition save_validated (reg : AgentRegistration) (signedID : option (AgentCSR * StoredCertificate))
    (issued : option (ByocServerCertificate * AgentCSR)) : tx AgentRegistration :=
  _ ← tx_opt signedID (fun s => SaveCSR (r_AgentID reg) s.1 ≫= fun _ => SaveIdentityCertificate (r_AgentID reg) s.2);
  _ ← tx_opt issued (fun s => ByocStore_Save (r_AgentID reg) s.1 ≫= fun _ => SaveCSR (r_AgentID reg) s.2);
  AgentStore_Save reg.

(** The registration and whether its certificate order is still pending. *)
Definition VerifyACME (agentID : string) : svc (AgentRegistration * bool) :=
  let now := p_clock P in
  reg ← atomic (FindByAgentID agentID);
  _ ← ensureHostNotTakenByOther reg;
  if negb (String.eqb (r_Status reg) StatusPendingValidation) then mret (reg, false) else
  eps ← atomic (EndpointStore_FindByAgentID agentID);
  let reg := with_endpoints reg eps in
  '(verified, reg) ← gateOrderChallenges reg now;
  serverCSR ← atomic (FindLatestPendingCSRByType agentID CSRTypeServer);
  outcome ← (match serverCSR with
             | Some csr => if String.eqb (o_OrderRef (r_CertOrder reg)) "" then mret None
                           else o ← finalizeServerOrder reg csr verified now; mret (Some o)
             | None => mret None
             end);
  match outcome with
  | Some (OrderPendingOutcome reg) => reg ← atomic (AgentStore_Save reg); mret (reg, true)
  | _ =>
      let '(reg, issued) := match outcome with
                            | Some (OrderIssued cert csr) => (with_server_cert reg (Some cert), Some (cert, csr))
                            | _ => (reg, None)
                            end in
      identityCSR ← atomic (FindLatestPendingCSRByType agentID CSRTypeIdentity);
      signedID ← (match identityCSR with
                  | Some csr => s ← signIdentityCSR reg csr now; mret (Some s)
                  | None => mret None
                  end);
      let reg := match signedID with Some s => upd_csrs reg (Some s.1) (r_ServerCSR reg) | None => reg end in
      order ← (if CertificateOrder_IsZero (r_CertOrder reg) then mret (r_CertOrder reg)
               else return_ (dom (Order_MarkCompleted (r_CertOrder reg))));
      reg ← return_ (dom (AdvanceToPendingDNS (upd_order reg order)));
      reg ← atomic (save_validated reg signedID issued);
      mret (reg, false)
  end.

(** ** Events *)

Definition innerEvent_of (canonical : string) (e : lane_event) : innerEvent :=
  let view {T} (e : TLEvent T) :=
    {| ie_Canonical := canonical; ie_AnsName := te_AnsName e; ie_ExpiresAt := te_ExpiresAt e; ie_Timestamp := te_Timestamp e;
       ie_Agent := (fun a => {| ia_Host := ea_Host a; ia_Version := ea_Version a |}) <$> te_Agent e |} in
  match e with LaneV1 e => view e | LaneV2 e => view e end.

Definition raID : string := match p_signer P with Some s => es_RaID s | None => "" end.

Definition signCanonical (canonical : string) (now : Time) : result serr string :=
  match p_signer P with None => Ok "" | Some s => es_Sign s canonical now end.

(** [signAndMarshalPayload] and [signAndMarshalPayloadV1]: the JSON column
    written for an event. *)
Definition signAndMarshalPayload (e : lane_event) (now : Time) : result serr payload :=
  match CanonicalizeEvent e with
  | None => Err (Other "canonicalize inner event")
  | Some canonical =>
      sig ← signCanonical canonical now;
      Ok (PDecoded {| op_InnerEventCanonical := InnerEvent (innerEvent_of canonical e); op_ProducerSignature := sig |})
  end.

Definition enqueueTLEvent (eventTypeTag : string) (reg : AgentRegistration) (e : lane_event) (now : Time) : tx unit :=
  if negb (p_outbox P) then mret tt else
  p ← lift (signAndMarshalPayload e now);
  _ ← Outbox_Enqueue eventTypeTag (r_AgentID reg) (lane_version e) p now (p_now P);
  mret tt.

Definition registered_event (reg : AgentRegistration) (expected : list ExpectedDNSRecord)
    (perRecord : option (list RecordVerification)) (schemaVersion : string) (identity : list StoredCertificate)
    (byoc : list ByocServerCertificate) (now : Time) : result serr lane_event :=
  if isV1Lane schemaVersion
  then LaneV1 <$> buildAgentRegisteredV1Event raID reg expected identity byoc now
  else LaneV2 <$> buildAgentRegisteredEvent raID reg expected perRecord identity byoc now.

(** ** Certificate revocation at the authority *)

Definition revokeIdentityCertsAtCA (certs : list StoredCertificate) (reason : RevocationReason) : svc unit :=
  svc_for certs (fun c =>
    if negb (String.eqb (sc_CertStatus c) CertStatusValid) then mret tt else
    serial ← (if negb (String.eqb (sc_SerialNumber c) "") then mret (sc_SerialNumber c) else
              match serialFromCertPEM (sc_CertificatePEM c) with
              | Ok s => mret s
              | Err _ => domErr (NewInternalError "CERT_REVOKE_FAILED")
              end);
    call (ERevokeAtCA serial (sc_CertificateRef c) reason)
      (if p_RevokeCertificate P serial (sc_CertificateRef c) reason then Ok tt
       else Err (Dom (NewInternalError "CERT_REVOKE_FAILED")))).

Definition revoke_rows (certs : list StoredCertificate) : tx unit :=
  tx_for certs (fun c => if String.eqb (sc_CertStatus c) CertStatusValid
                         then UpdateCertificateStatus (StoredCertificate_Revoke c) else mret tt).

(** ** Activation *)

(** [loadServerCert]: a missing row is no error. *)
Definition loadServerCert (agentID : string) : tx (option ByocServerCertificate) := fun d =>
  match FindLatestValidByAgentID agentID (p_now P) d with
  | Ok (c, d') => Ok (Some c, d')
  | Err e => if is_not_found e then Ok (None, d) else Err e
  end.

Definition requestedLane (schemaVersion : string) : string :=
  if isV1Lane schemaVersion then SchemaVersionV1 else SchemaVersionV2.

Record sealedActivation := { sa_SchemaVersion : string; sa_Payload : payload; sa_LogID : string }.

(** [buildActivationLeaf], signed and persisted before the first attempt. *)
Definition prepareActivation (reg : AgentRegistration) (expected : list ExpectedDNSRecord)
    (perRecord : option (list RecordVerification)) (schemaVersion : string) (now : Time) : svc (string * payload) :=
  identity ← atomic (FindIdentityCertificatesByAgent (r_AgentID reg));
  byoc ← atomic (ByocStore_FindByAgentID (r_AgentID reg));
  e ← return_ (registered_event reg expected perRecord schemaVersion identity byoc now);
  candidate ← return_ (signAndMarshalPayload e now);
  _ ← atomic (insert_seal (r_AgentID reg) (lane_version e) candidate);
  stored ← atomic (LoadActivationSeal (r_AgentID reg));
  mret (default ("", PEmpty) stored).

(** The signed evidence inside a payload; the rows of [activation_seals] always
    hold an event, since only [prepareActivation] writes them. *)
Definition payload_evidence (p : payload) : option (innerEvent * string) :=
  match p with
  | PDecoded {| op_InnerEventCanonical := InnerEvent e; op_ProducerSignature := sig |} =>
      if String.eqb sig "" then None else Some (e, sig)
  | _ => None
  end.

Definition sealActivationEvent (reg : AgentRegistration) (expected : list ExpectedDNSRecord)
    (perRecord : option (list RecordVerification)) (schemaVersion : string) (now : Time) : svc sealedActivation :=
  match p_agentSealer P with
  | None => domErr (NewUnavailableError "TL_UNAVAILABLE")
  | Some seal =>
      if negb (p_outbox P) then domErr (NewUnavailableError "TL_UNAVAILABLE") else
      loaded ← atomic (LoadActivationSeal (r_AgentID reg));
      '(lane, payload) ← (match loaded with
                          | Some s => mret s
                          | None => prepareActivation reg expected perRecord schemaVersion now
                          end);
      if negb (String.eqb lane (requestedLane schemaVersion))
      then domErr (NewConflictError "ACTIVATION_LANE_CONFLICT") else
      match payload_evidence payload with
      | None => fail (Other "persisted activation evidence is incomplete")
      | Some (e, sig) =>
          let answer := seal lane (ie_Canonical e) sig in
          logID ← call (ESeal (r_AgentID reg) lane payload (match answer with Ok id => Some id | Err _ => None end)) answer;
          mret {| sa_SchemaVersion := lane; sa_Payload := payload; sa_LogID := logID |}
      end
  end.

Definition revokeConflictLoserCertsAtCA (agentHost winnerOwnerID : string) : svc unit :=
  regs ← atomic (FindAllByAgentHost agentHost);
  svc_for regs (fun r =>
    if String.eqb (r_OwnerID r) winnerOwnerID || negb (IsPending (r_Status r)) then mret tt else
    certs ← atomic (FindIdentityCertificatesByAgent (r_AgentID r));
    revokeIdentityCertsAtCA certs RevocationCessationOfOperation).

(** What activation does to another registration of the host. *)
Definition settle_rival (reg r : AgentRegistration) : tx unit :=
  if String.eqb (r_AgentID r) (r_AgentID reg) || String.eqb (r_OwnerID r) (r_OwnerID reg) then mret tt else
  if holdsHostExclusivity (r_Status r) then throw errHostTaken else
  if negb (IsPending (r_Status r)) then mret tt else
  r' ← lift (dom (CancelForHostConflict r));
  _ ← AgentStore_Save r';
  certs ← FindIdentityCertificatesByAgent (r_AgentID r);
  revoke_rows certs.

Definition commitActivation (reg : AgentRegistration) (sealed : sealedActivation) : tx unit :=
  current ← FindByAgentID (r_AgentID reg);
  if negb (String.eqb (r_Status current) StatusPendingDNS) then throw errHostTaken else
  rows ← FindAllByAgentHost (reg_FQDN reg);
  _ ← tx_for rows (settle_rival reg);
  _ ← AgentStore_Save reg;
  _ ← Outbox_RecordSealed TypeAgentRegistered (r_AgentID reg) (sa_SchemaVersion sealed) (sa_Payload sealed)
        (sa_LogID sealed) (p_now P);
  mret tt.

(** The registration, and the mismatches that keep it from being activated. *)
Definition VerifyDNS (agentID schemaVersion : string) : svc (AgentRegistration * list DNSMismatch) :=
  let now := p_clock P in
  reg ← atomic (FindByAgentID agentID);
  _ ← ensureHostNotTakenByOther reg;
  if String.eqb (r_Status reg) StatusActive then mret (reg, []) else
  if negb (String.eqb (r_Status reg) StatusPendingDNS) then domErr (NewInvalidStateError "CANNOT_VERIFY_DNS") else
  eps ← atomic (EndpointStore_FindByAgentID agentID);
  let reg := with_endpoints reg eps in
  byoc ← atomic (loadServerCert agentID);
  let reg := match byoc with Some _ => with_server_cert reg byoc | None => reg end in
  let expected := ComputeRequiredDNSRecords (p_registry P) reg in
  match verifyDNSRecords (p_dnsVerifier P) (reg_FQDN reg) expected with
  | Err _ => fail (Other "dns verify")
  | Ok ((_ :: _) as mismatches, _) => mret (reg, mismatches)
  | Ok ([], perRecord) =>
      reg ← return_ (dom (Activate reg now));
      let attested := (attestedDNSRecords expected perRecord).1 in
      sealed ← sealActivationEvent reg attested perRecord schemaVersion now;
      _ ← revokeConflictLoserCertsAtCA (reg_FQDN reg) (r_OwnerID reg);
      _ ← atomic (commitActivation reg sealed);
      mret (reg, [])
  end.

(** ** Renewal evidence *)

Definition observeRenewalDNS (reg : AgentRegistration)
  : svc (AgentRegistration * (list ExpectedDNSRecord * option (list RecordVerification))) :=
  eps ← atomic (EndpointStore_FindByAgentID (r_AgentID reg));
  let reg := with_endpoints reg eps in
  cert ← atomic (loadServerCert (r_AgentID reg));
  let reg := with_server_cert reg cert in
  match p_dnsVerifier P with
  | None => mret (reg, ([], None))
  | Some verify =>
      let expected := ComputeRequiredDNSRecords (p_registry P) reg in
      match verify (reg_FQDN reg) expected with
      | Err _ | Ok None => mret (reg, ([], Some []))
      | Ok (Some res) =>
          let results := default [] (vr_Results res) in
          mret (reg, ((attestedDNSRecords expected (Some results)).1, Some results))
      end
  end.

Definition enqueueCertificateRenewal (reg : AgentRegistration)
    (evidence : list ExpectedDNSRecord * option (list RecordVerification)) (schemaVersion : string) : tx unit :=
  if negb (p_outbox P) || match p_signer P with None => true | Some _ => false end
  then throw (Dom (NewInternalError "RENEWAL_PUBLICATION_UNAVAILABLE")) else
  let now := p_clock2 P in
  identity ← FindIdentityCertificatesByAgent (r_AgentID reg);
  byoc ← ByocStore_FindByAgentID (r_AgentID reg);
  e ← lift (registered_event reg evidence.1 evidence.2 schemaVersion identity byoc now);
  let e := match e with LaneV1 e => LaneV1 (as_renewed e) | LaneV2 e => LaneV2 (as_renewed e) end in
  enqueueTLEvent TypeAgentRenewed reg e now.

(** ** CSR submission *)

Definition commit_identity_rotation (agentID : string) (reg : AgentRegistration) (signedID : AgentCSR) (storedID : StoredCertificate)
    (evidence : list ExpectedDNSRecord * option (list RecordVerification)) (schemaVersion : string) : tx unit :=
  current ← FindByAgentID agentID;
  if negb (String.eqb (r_Status current) StatusActive) then throw (Dom (NewInvalidStateError "AGENT_NOT_ACTIVE")) else
  _ ← AgentStore_Save (upd_csrs current (Some signedID) (r_ServerCSR current));
  _ ← SaveCSR agentID signedID;
  _ ← SaveIdentityCertificate agentID storedID;
  enqueueCertificateRenewal reg evidence schemaVersion.

Definition submitIdentityCSR (agentID csrPEM schemaVersion : string) : svc string :=
  let now := p_clock P in
  reg ← atomic (FindByAgentID agentID);
  if negb (String.eqb (r_Status reg) StatusActive) then domErr (NewInvalidStateError "AGENT_NOT_ACTIVE") else
  idCerts ← atomic (FindIdentityCertificatesByAgent agentID);
  if (length (idCerts : list StoredCertificate) =? 0)%nat then domErr (NewConflictError "IDENTITY_CSR_NOT_PERMITTED") else
  if negb (p_ValidateIdentityCSR P csrPEM (AnsName_String (r_AnsName reg)))
  then domErr (NewValidationError "INVALID_IDENTITY_CSR") else
  '(reg, newCSR) ← return_ (dom (SubmitIdentityCSR reg (p_csrID P) csrPEM now));
  '(reg, evidence) ← observeRenewalDNS reg;
  '(signedID, storedID) ← signIdentityCSR reg newCSR now;
  let reg := upd_csrs reg (Some signedID) (r_ServerCSR reg) in
  _ ← atomic (commit_identity_rotation agentID reg signedID storedID evidence schemaVersion);
  mret (p_csrID P).

Definition commit_server_csr (agentID : string) (newCSR : AgentCSR) : tx unit :=
  current ← FindByAgentID agentID;
  if IsTerminal (r_Status current) || String.eqb (r_Status current) StatusDeprecated
  then throw (Dom (NewConflictError "AGENT_STATE_CONFLICT")) else
  _ ← AgentStore_Save (upd_csrs current (r_IdentityCSR current) (Some newCSR));
  SaveCSR agentID newCSR.

Definition Service_SubmitServerCSR (agentID csrPEM : string) : svc string :=
  let now := p_clock P in
  reg ← atomic (FindByAgentID agentID);
  if negb (p_ValidateServerCSR P csrPEM (reg_FQDN reg)) then domErr (NewValidationError "INVALID_SERVER_CSR") else
  '(_, newCSR) ← return_ (dom (SubmitServerCSR reg (p_csrID P) csrPEM now));
  _ ← atomic (commit_server_csr agentID newCSR);
  mret (p_csrID P).

(** ** Revocation *)

Definition revocationCertsCovered (revoked current : list StoredCertificate) : bool :=
  forallb (fun c => negb (String.eqb (sc_CertStatus c) CertStatusValid) ||
                    existsb (fun prior => String.eqb (sc_CertStatus prior) CertStatusValid &&
                                          (sc_InternalID prior =? sc_InternalID c) &&
                                          String.eqb (sc_CertificatePEM prior) (sc_CertificatePEM c)) revoked) current.

(** The [for] loop that rejects the pending CSRs of a kind; the fuel is more than
    the number of rows ([reject_pending_total]). *)
Fixpoint reject_pending (fuel : nat) (agentID kind : string) (now : Time) : tx unit :=
  match fuel with
  | O => throw (Other "reject_pending: fuel")
  | S f =>
      csr ← FindLatestPendingCSRByType agentID kind;
      match csr with
      | None => mret tt
      | Some csr =>
          rejected ← lift (dom (CSR_MarkRejected csr "Agent revoked" now));
          _ ← SaveCSR agentID rejected;
          reject_pending f agentID kind now
      end
  end.

Definition cancelRenewalForRevocation (agentID : string) (now : Time) : tx unit := fun d =>
  match FindPendingByAgentID agentID d with
  | Err e => if is_not_found e then Ok (tt, d) else Err e
  | Ok (pending, d) =>
      (r ← lift (dom (Renewal_MarkFailed pending "Agent revoked" now)); _ ← RenewalStore_Save r (p_now P); mret tt) d
  end.

Definition cancelAgentModifications (agentID : string) (now : Time) : tx unit :=
  _ ← (if p_outbox P then Outbox_CancelPending agentID (p_now P) else mret tt);
  _ ← cancelRenewalForRevocation agentID now;
  n ← reads (fun d => S (length (t_csrs d)));
  _ ← reject_pending n agentID CSRTypeIdentity now;
  reject_pending n agentID CSRTypeServer now.

Definition revoked_event (reg : AgentRegistration) (certs : list StoredCertificate) (reason : RevocationReason)
    (schemaVersion : string) (now : Time) : result serr lane_event :=
  if isV1Lane schemaVersion
  then LaneV1 <$> buildAgentRevokedV1Event (p_registry P) raID reg certs reason now
  else LaneV2 <$> buildAgentRevokedV2Event raID reg certs reason now.

Definition commit_revocation (reg : AgentRegistration) (certs : list StoredCertificate) (reason : RevocationReason)
    (schemaVersion : string) (now : Time) : tx AgentRegistration :=
  current ← FindByAgentID (r_AgentID reg);
  if String.eqb (r_Status current) StatusRevoked then mret current else
  let current := with_server_cert (with_endpoints current (r_Endpoints reg)) (r_ServerCert reg) in
  current ← lift (dom (Revoke current reason now));
  latestCerts ← FindIdentityCertificatesByAgent (r_AgentID reg);
  if negb (revocationCertsCovered certs latestCerts) then throw (Dom (NewConflictError "CERTIFICATES_CHANGED")) else
  _ ← cancelAgentModifications (r_AgentID current) now;
  current ← AgentStore_Save current;
  _ ← revoke_rows latestCerts;
  e ← lift (revoked_event current latestCerts reason schemaVersion now);
  _ ← enqueueTLEvent TypeAgentRevoked current e now;
  mret current.

Definition commit_cancellation (reg : AgentRegistration) (certs : list StoredCertificate) : tx AgentRegistration :=
  reg ← AgentStore_Save reg;
  _ ← revoke_rows certs;
  mret reg.

Definition cancelPending (reg : AgentRegistration) (reason : RevocationReason) (now : Time) : svc AgentRegistration :=
  if negb (RevocationReason_IsValid reason) then domErr (NewValidationError "INVALID_REVOCATION_REASON") else
  reg ← return_ (dom (Cancel reg now));
  certs ← atomic (FindIdentityCertificatesByAgent (r_AgentID reg));
  _ ← revokeIdentityCertsAtCA certs reason;
  atomic (commit_cancellation reg certs).

Definition sweepRevokedAgentCerts (agentID : string) : svc unit :=
  certs ← atomic (FindIdentityCertificatesByAgent agentID);
  if negb (existsb (fun c => String.eqb (sc_CertStatus c) CertStatusValid) certs) then mret tt else
  _ ← revokeIdentityCertsAtCA certs RevocationCessationOfOperation;
  atomic (revoke_rows certs).

(** The best-effort reads of [Revoke] and [hydrateServerCert]. *)
Definition hydrate (reg : AgentRegistration) : svc AgentRegistration :=
  eps ← attempt (atomic (EndpointStore_FindByAgentID (r_AgentID reg)));
  let reg := match r_Endpoints reg, eps with [], Ok eps => with_endpoints reg eps | _, _ => reg end in
  all ← atomic (ByocStore_FindByAgentID (r_AgentID reg));
  mret (match r_ServerCert reg, all with None, c :: _ => with_server_cert reg (Some c) | _, _ => reg end).

Definition Service_Revoke (agentID : string) (reason : RevocationReason) (schemaVersion : string) : svc AgentRegistration :=
  let now := p_clock P in
  reg ← atomic (FindByAgentID agentID);
  reg ← hydrate reg;
  if String.eqb (r_Status reg) StatusRevoked then _ ← sweepRevokedAgentCerts (r_AgentID reg); mret reg else
  if IsPending (r_Status reg) then cancelPending reg reason now else
  reg ← return_ (dom (Revoke reg reason now));
  certs ← atomic (FindIdentityCertificatesByAgent (r_AgentID reg));
  _ ← revokeIdentityCertsAtCA certs reason;
  atomic (commit_revocation reg certs reason schemaVersion now).

(** ** Renewals *)

Record SubmitRenewalInput := { si_ServerCsrPEM : string; si_ServerCertificatePEM : string; si_ServerCertificateChainPEM : string }.

Definition commit_renewal_request (agentID : string) (newCSR : option AgentCSR) (renewal : ServerCertificateRenewal)
  : tx ServerCertificateRenewal :=
  current ← FindByAgentID agentID;
  if negb (String.eqb (r_Status current) StatusActive) then throw (Dom (NewInvalidStateError "AGENT_NOT_ACTIVE")) else
  pending ← reads (fun d => pending_renewal d agentID);
  match pending with
  | Some _ => throw (Dom (NewConflictError "PENDING_RENEWAL_EXISTS"))
  | None =>
      _ ← tx_opt newCSR (fun csr => AgentStore_Save (upd_csrs current (r_IdentityCSR current) (Some csr)) ≫= fun _ =>
                                    SaveCSR agentID csr);
      RenewalStore_Save renewal (p_now P)
  end.

Definition SubmitServerCertRenewal (agentID : string) (input : SubmitRenewalInput) : svc ServerCertificateRenewal :=
  let now := p_clock P in
  reg ← atomic (FindByAgentID agentID);
  if negb (String.eqb (r_Status reg) StatusActive) then domErr (NewInvalidStateError "AGENT_NOT_ACTIVE") else
  existing ← attempt (atomic (FindPendingByAgentID agentID));
  match existing with
  | Ok _ => domErr (NewConflictError "PENDING_RENEWAL_EXISTS")
  | Err e =>
      if negb (is_not_found e) then fail e else
      let csrSet := negb (String.eqb (si_ServerCsrPEM input) "") in
      let byocSet := negb (String.eqb (si_ServerCertificatePEM input) "") in
      let fqdn := reg_FQDN reg in
      let deadline := Time_Add now renewalChallengeWindow in
      if Bool.eqb csrSet byocSet then domErr (NewValidationError "INVALID_RENEWAL_REQUEST") else
      '(newCSR, renewal) ←
        (if csrSet then
           if negb (p_ValidateServerCSR P (si_ServerCsrPEM input) fqdn) then domErr (NewValidationError "INVALID_SERVER_CSR") else
           match p_serverCA P with
           | None => domErr (NewValidationError "SERVER_CA_DISABLED")
           | Some ca =>
               order ← createServerOrder ca (r_OwnerID reg) fqdn;
               match order with
               | Err e => fail (certificateProviderError e "CERT_ORDER_FAILED")
               | Ok order =>
                   match orderWithOwnerProof (p_tokens P) order deadline with
                   | Err _ => domErr (NewInternalError "CERT_ORDER_FAILED")
                   | Ok prepared =>
                       '(_, newCSR) ← return_ (dom (SubmitServerCSR reg (p_csrID P) (si_ServerCsrPEM input) now));
                       mret (Some newCSR, NewCSRRenewal agentID (r_ID reg) (p_csrID P) prepared now)
                   end
               end
           end
         else
           match p_ValidateServerCertificate P (si_ServerCertificatePEM input) (si_ServerCertificateChainPEM input) fqdn with
           | None => domErr (NewCertificateError "INVALID_BYOC_CERT")
           | Some _ =>
               match p_tokens P with
               | Err _ => domErr (NewInternalError "CHALLENGE_GEN_FAILED")
               | Ok (dns01, http01) =>
                   mret (None, NewBYOCRenewal agentID (r_ID reg) (si_ServerCertificatePEM input)
                                 (si_ServerCertificateChainPEM input) (NewSelfIssuedOrder dns01 http01 deadline) now)
               end
           end);
      atomic (commit_renewal_request agentID newCSR renewal)
  end.

Definition rejectRenewalCSR (agentID : string) (r : ServerCertificateRenewal) : tx unit :=
  if negb (String.eqb (rn_RenewalType r) RenewalTypeCSR) || String.eqb (rn_ServerCsrID r) "" then mret tt else
  csr ← FindCSRByID agentID (rn_ServerCsrID r);
  if negb (String.eqb (csr_Status csr) CSRStatusPending) then mret tt else
  rejected ← lift (dom (CSR_MarkRejected csr "Renewal cancelled" (p_clock2 P)));
  SaveCSR agentID rejected.

Definition commit_renewal_cancel (agentID : string) (id : Z) : tx unit :=
  current ← RenewalStore_FindByAgentID agentID;
  if negb (rn_ID current =? id) then throw (Dom (NewValidationError "RENEWAL_NOT_PENDING")) else
  if negb (Time_IsZero (rn_CompletedAt current)) then throw (Dom (NewValidationError "RENEWAL_ALREADY_COMPLETED")) else
  _ ← rejectRenewalCSR agentID current;
  RenewalStore_Delete (rn_ID current).

Definition CancelServerCertRenewal (agentID : string) : svc unit :=
  r ← atomic (RenewalStore_FindByAgentID agentID);
  atomic (commit_renewal_cancel agentID (rn_ID r)).

Definition commit_certificate (reg : AgentRegistration) (r : ServerCertificateRenewal) (cert : ByocServerCertificate)
    (signedCSR : option AgentCSR) (evidence : list ExpectedDNSRecord * option (list RecordVerification))
    (schemaVersion : string) : tx ServerCertificateRenewal :=
  let agentID := r_AgentID reg in
  current ← FindByAgentID agentID;
  if negb (String.eqb (r_Status current) StatusActive) then throw (Dom (NewInvalidStateError "AGENT_NOT_ACTIVE")) else
  pending ← FindPendingByAgentID agentID;
  if negb (rn_ID pending =? rn_ID r) then throw (Dom (NewValidationError "RENEWAL_NOT_PENDING")) else
  _ ← ByocStore_Save agentID cert;
  _ ← tx_opt signedCSR (fun csr => SaveCSR agentID csr ≫= fun _ =>
        AgentStore_Save (upd_csrs current (r_IdentityCSR current) (Some csr)) ≫= fun _ => mret tt);
  r ← RenewalStore_Save r (p_now P);
  _ ← enqueueCertificateRenewal reg evidence schemaVersion;
  mret r.

Definition commitCertificateRenewal (reg : AgentRegistration) (r : ServerCertificateRenewal) (cert : ByocServerCertificate)
    (signedCSR : option AgentCSR) (evidence : list ExpectedDNSRecord * option (list RecordVerification))
    (schemaVersion : string) (now : Time) : svc ServerCertificateRenewal :=
  r ← return_ (dom (Renewal_MarkCompleted r now));
  atomic (commit_certificate reg r cert signedCSR evidence schemaVersion).

(** The renewal and whether it completed in this call. *)
Definition finalizeCSRRenewal (agentID : string) (r : ServerCertificateRenewal) (verified : list ChallengeType)
    (schemaVersion : string) (now : Time) : svc (ServerCertificateRenewal * bool) :=
  match p_serverCA P with
  | None => domErr (NewInternalError "SERVER_CA_DISABLED")
  | Some ca =>
      csr ← atomic (FindCSRByID agentID (rn_ServerCsrID r));
      reg ← atomic (FindByAgentID agentID);
      '(reg, evidence) ← observeRenewalDNS reg;
      let ref := rv_OrderRef (rn_Validation r) in
      issued ← issuer_call (EFinalize (r_OwnerID reg) ref (csr_CSRContent csr) (reg_FQDN reg))
                 (FinalizeOrder ca (r_OwnerID reg) ref (csr_CSRContent csr) (reg_FQDN reg) verified);
      match issued with
      | Err PPending => r ← atomic (RenewalStore_Save r (p_now P)); mret (r, false)
      | Err PFailed =>
          r ← return_ (dom (Renewal_MarkFailed r "certificate provider reported a terminal order failure" now));
          _ ← atomic (RenewalStore_Save r (p_now P));
          domErr (NewValidationError "CERT_ORDER_FAILED")
      | Err e => fail (certificateProviderError e "SERVER_CERT_ISSUE_FAILED")
      | Ok issued =>
          match p_ValidateServerCertificate P (ic_CertPEM issued) (ic_ChainPEM issued) (reg_FQDN reg) with
          | None => domErr (NewInternalError "SERVER_CERT_SELFVERIFY_FAILED")
          | Some v =>
              signedCSR ← return_ (dom (CSR_MarkSigned csr now));
              r ← commitCertificateRenewal reg r v (Some signedCSR) evidence schemaVersion now;
              mret (r, true)
          end
      end
  end.

Definition finalizeBYOCRenewal (reg : AgentRegistration) (r : ServerCertificateRenewal) (schemaVersion : string) (now : Time)
  : svc (ServerCertificateRenewal * bool) :=
  '(reg, evidence) ← observeRenewalDNS reg;
  match p_ValidateServerCertificate P (rn_ByocCertPEM r) (rn_ByocChainPEM r) (reg_FQDN reg) with
  | None => domErr (NewCertificateError "INVALID_BYOC_CERT")
  | Some v => r ← commitCertificateRenewal reg r v None evidence schemaVersion now; mret (r, true)
  end.

Definition verifyRenewalACME (agentID schemaVersion : string) : svc (ServerCertificateRenewal * bool) :=
  let now := p_clock P in
  r ← atomic (FindPendingByAgentID agentID);
  if Renewal_IsExpired r now then domErr (NewValidationError "RENEWAL_EXPIRED") else
  if String.eqb (rv_Status (rn_Validation r)) ValidationVerified then
    if negb (String.eqb (rn_RenewalType r) RenewalTypeCSR) then domErr (NewValidationError "RENEWAL_NOT_PENDING")
    else finalizeCSRRenewal agentID r [] schemaVersion now
  else
  reg ← atomic (FindByAgentID agentID);
  if (length (rv_Challenges (rn_Validation r)) =? 0)%nat then domErr (NewConflictError "CERT_ORDER_UPGRADE_REQUIRED") else
  '(verified, verr) ← verifyChallengeArtifacts (reg_FQDN reg) (rv_Challenges (rn_Validation r));
  match verified with
  | [] =>
      match verr with
      | Some _ => fail (Other "renewal acme verify")
      | None => domErr (NewValidationError "ACME_CHALLENGE_MISSING")
      end
  | _ =>
      v ← return_ (dom (Validation_MarkVerified (rn_Validation r) now));
      let r := UpdateValidationStatus r v in
      if String.eqb (rn_RenewalType r) RenewalTypeBYOC then finalizeBYOCRenewal reg r schemaVersion now
      else finalizeCSRRenewal agentID r verified schemaVersion now
  end.

(** ** Sweepers *)

Definition ExpireAgentsOnce (now : Time) : svc Z := atomic (ExpireLapsedPendingValidation now).

Definition expire_renewal (now : Time) (r : ServerCertificateRenewal) : svc unit :=
  let reason := "Renewal validation expired" in
  let r := match Validation_MarkFailed (rn_Validation r) now with Ok v => UpdateValidationStatus r v | Err _ => r end in
  match Renewal_MarkFailed r reason now with
  | Err _ => mret tt
  | Ok r =>
      _ ← atomic (RenewalStore_Save r (p_now P));
      if String.eqb (rn_RenewalType r) RenewalTypeCSR && negb (String.eqb (rn_ServerCsrID r) "") then
        csr ← attempt (atomic (FindCSRByID (rn_AgentID r) (rn_ServerCsrID r)));
        match csr with
        | Err _ => mret tt
        | Ok csr =>
            if negb (String.eqb (csr_Status csr) CSRStatusPending) then mret tt else
            match CSR_MarkRejected csr reason now with
            | Err _ => mret tt
            | Ok rejected => _ ← attempt (atomic (SaveCSR (rn_AgentID r) rejected)); mret tt
            end
        end
      else mret tt
  end.

Definition ExpireRenewalsOnce (now : Time) : svc Z :=
  expired ← atomic (ListPendingExpired (p_now P));
  _ ← svc_for expired (expire_renewal now);
  mret (Z.of_nat (length (expired : list ServerCertificateRenewal))).

End Service.
