(* ===== verification/RaServiceInv.v ===== *)
(** What the registration service keeps true of its database and of its calls to
    other systems, whatever requests run concurrently: the invariant [Inv], the
    relation [Rel] between any world and a later one, and the store's part of the
    proof that every transaction keeps them. *)
From stdpp Require Import gmap relations.
From S2P Require Import Prelude GoStrings GoTime DomainErrors SemVer AnsName Endpoint Lifecycle LifecycleSpec Discovery.
From S2P Require Import TlEvent Outbox OutboxSpec Concurrent RaEvents RaStore RaService.

#[local] Set Default Goal Selector "!".
#[local] Open Scope Z_scope.

(** ** Rows *)

Definition live (r : agentRow) : bool := holdsHostExclusivity (ar_status r).

(** What an UPDATE never changes. *)
Definition ident (r : agentRow) : Z * string * string * string * string :=
  (ar_id r, ar_agent_id r, ar_owner_id r, ar_ans_name r, ar_agent_host r).

Definition row_order (r : agentRow) : CertificateOrder :=
  let c := ar_cols r in
  certOrderFromRow (ac_order_ref c) (ac_order_state c) (ac_order_challenges c) (ac_order_verified c)
    (ar_dns01_token r) (ac_expires_ms c).

Definition row_chs (r : agentRow) : list Challenge := o_Challenges (row_order r).

Definition rw_chs (r : renewalRow) : list Challenge := rv_Challenges (rn_Validation (renewal_toDomain r)).
Definition rw_key (r : renewalRow) : Z * string * list Challenge := (rw_id r, rw_agent_id r, rw_chs r).

(** [completed_at_ms IS NULL] *)
Definition rw_open (r : renewalRow) : bool := is_null (rw_completed_ms r).

(** One of the challenges was found at the host. *)
Definition proven (log : list effect) (host : string) (chs : list Challenge) : Prop :=
  exists ch, ch ∈ chs /\ EProbe host ch true ∈ log.

(** Statuses and orders that need a proof of domain control. *)
Definition proven_status (s : string) : bool := one_of s [StatusPendingDNS; StatusActive; StatusDeprecated].

Definition needs_proof (s : string) (o : CertificateOrder) : bool :=
  proven_status s || ChallengeType_IsValid (o_VerifiedChallenge o).

(** A delivered AGENT_REGISTERED row whose payload the log sealed under its log
    id. *)
Definition sealed_for (d : DB) (log : list effect) (agentID : string) : Prop :=
  exists o l, o ∈ ob_rows (t_outbox d) /\ ob_agent_id o = agentID /\ ob_event_type o = TypeAgentRegistered /\
    is_null (ob_sent_at_ms o) = false /\ ob_log_id o = Some l /\ ESeal agentID (ob_schema_version o) (ob_payload o) (Some l) ∈ log.

(** Certificates are requested only for the host, or the name, of a registration
    that has proved control of it; and only the stored evidence is sealed. *)
Definition justified (d : DB) (past : list effect) (e : effect) : Prop :=
  match e with
  | EFinalize owner _ _ fqdn =>
      exists r ch, r ∈ t_agents d /\ ar_owner_id r = owner /\ ar_agent_host r = fqdn /\ EProbe fqdn ch true ∈ past
  | EIssueIdentity _ name => exists r, r ∈ t_agents d /\ ar_ans_name r = name /\ proven past (ar_agent_host r) (row_chs r)
  | ESeal agentID lane p _ => t_seals d !! agentID = Some (lane, p)
  | _ => True
  end.

Section Inv.
Context `{U : UnicodeTables}.

(** ** The invariant *)

Record row_inv (log : list effect) (r : agentRow) : Prop := {
  ri_name : exists n, ParseAnsName (ar_ans_name r) = Ok n /\ AnsName_String n = ar_ans_name r /\ AnsName_FQDN n = ar_agent_host r;
  ri_token : ar_dns01_token r = None \/ row_chs r <> [];
  ri_proof : needs_proof (ar_status r) (row_order r) = true -> proven log (ar_agent_host r) (row_chs r)
}.

Definition renewal_inv (agents : list agentRow) (log : list effect) (r : renewalRow) : Prop :=
  exists a, a ∈ agents /\ ar_agent_id a = rw_agent_id r /\
    (rw_status r = ValidationVerified -> proven log (ar_agent_host a) (rw_chs r)).

Record Base (d : DB) (log : list effect) : Prop := {
  b_ids : NoDup (ar_id <$> t_agents d);
  b_agent_ids : NoDup (ar_agent_id <$> t_agents d);
  b_seq : 0 <= t_agents_seq d /\ Forall (fun r => 0 < ar_id r <= t_agents_seq d) (t_agents d);
  b_rows : Forall (row_inv log) (t_agents d);
  b_excl : forall r1 r2, r1 ∈ t_agents d -> r2 ∈ t_agents d -> live r1 = true -> live r2 = true ->
           ar_agent_host r1 = ar_agent_host r2 -> ar_owner_id r1 = ar_owner_id r2;
  b_rids : NoDup (rw_id <$> t_renewals d);
  b_ropen : forall r1 r2, r1 ∈ t_renewals d -> r2 ∈ t_renewals d -> rw_open r1 = true -> rw_open r2 = true ->
            rw_agent_id r1 = rw_agent_id r2 -> r1 = r2;
  b_rseq : 0 <= t_renewals_seq d /\ Forall (fun r => 0 < rw_id r <= t_renewals_seq d) (t_renewals d);
  b_renewals : Forall (renewal_inv (t_agents d) log) (t_renewals d);
  b_outbox : OutboxSpec.inv (t_outbox d);
  b_log : forall i e, log !! i = Some e -> justified d (take i log) e
}.

Definition Sealed (d : DB) (log : list effect) (except : option string) : Prop :=
  forall r, r ∈ t_agents d -> live r = true -> Some (ar_agent_id r) <> except -> sealed_for d log (ar_agent_id r).

Definition DInv (d : DB) (log : list effect) : Prop := Base d log /\ Sealed d log None.
Definition Inv (w : World) : Prop := DInv (w_db w) (w_log w).

(** ** Later worlds *)

Record row_evolves (r r' : agentRow) : Prop := {
  re_ident : ident r' = ident r;
  re_chs : row_chs r' = row_chs r;
  re_revoked : ar_status r = StatusRevoked -> ar_status r' = StatusRevoked;
  re_deprecated : ar_status r = StatusDeprecated -> ar_status r' = StatusDeprecated \/ ar_status r' = StatusRevoked
}.

#[export] Instance row_evolves_preorder : PreOrder row_evolves.
Proof.
  split; [by split; auto|]. intros a b c [A1 A2 A3 A4] [B1 B2 B3 B4]. split; [congruence|congruence|auto|].
  intros [H|H]%A4; auto.
Qed.

Record db_le (d d' : DB) : Prop := {
  le_agents : forall r, r ∈ t_agents d -> exists r', r' ∈ t_agents d' /\ row_evolves r r';
  le_rseq : t_renewals_seq d <= t_renewals_seq d';
  le_renewals : forall r', r' ∈ t_renewals d' -> rw_id r' <= t_renewals_seq d ->
                exists r, r ∈ t_renewals d /\ rw_key r = rw_key r';
  le_outbox : forall o, o ∈ ob_rows (t_outbox d) -> exists o', o' ∈ ob_rows (t_outbox d') /\ evolves o o';
  le_seals : t_seals d ⊆ t_seals d'
}.

#[export] Instance db_le_preorder : PreOrder db_le.
Proof.
  split.
  - intros d. split; eauto; [|done|]; intros r Hr; exists r; (split; [done|reflexivity]).
  - intros a b c [A1 A2 A3 A4 A5] [B1 B2 B3 B4 B5]. split; [|lia| | |by etrans].
    + intros r (r1 & H1 & E1)%A1. destruct (B1 r1 H1) as (r2 & H2 & E2). exists r2. split; [done|by etrans].
    + intros r H Hle. destruct (B3 r H) as (r1 & H1 & E1); [lia|]. pose proof E1 as [= Hi _ _].
      destruct (A3 r1 H1) as (r0 & H0 & E0); [lia|]. exists r0. split; [done|congruence].
    + intros r (r1 & H1 & E1)%A4. destruct (B4 r1 H1) as (r2 & H2 & E2). exists r2. split; [done|by etrans].
Qed.

Definition Rel (w w' : World) : Prop := db_le (w_db w) (w_db w') /\ w_log w `prefix_of` w_log w'.

#[export] Instance Rel_preorder : PreOrder Rel.
Proof.
  split; [split; reflexivity|]. intros a b c [A1 A2] [B1 B2]. split; [by etrans|by etrans].
Qed.

(** *** Monotonicity *)

Lemma proven_mono log log' host chs : log `prefix_of` log' -> proven log host chs -> proven log' host chs.
Proof. intros [k ->] (ch & H & Hin). exists ch. split; [done|]. apply elem_of_app. by left. Qed.

Lemma evolves_ident r r' : row_evolves r r' ->
  ar_id r' = ar_id r /\ ar_agent_id r' = ar_agent_id r /\ ar_owner_id r' = ar_owner_id r /\ ar_ans_name r' = ar_ans_name r /\
  ar_agent_host r' = ar_agent_host r /\ row_chs r' = row_chs r.
Proof. intros [[=] E _ _]. done. Qed.

Lemma justified_mono d d' past past' e :
  db_le d d' -> past `prefix_of` past' -> justified d past e -> justified d' past' e.
Proof.
  intros [HA _ _ _ HS] HP. destruct e; cbn; try done.
  - intros (r & ch & Hr & <- & <- & Hp). destruct (HA r Hr) as (r' & Hr' & E). exists r', ch.
    apply evolves_ident in E as (_ & _ & -> & _ & -> & _). destruct HP as [k ->]. set_solver.
  - intros (r & Hr & <- & Hp). destruct (HA r Hr) as (r' & Hr' & E). exists r'.
    apply evolves_ident in E as (_ & _ & _ & -> & -> & ->). eauto using proven_mono.
  - intros H. by eapply lookup_weaken.
Qed.

Lemma sealed_for_mono d d' log log' x :
  db_le d d' -> log `prefix_of` log' -> sealed_for d log x -> sealed_for d' log' x.
Proof.
  intros [_ _ _ HO _] [k ->] (o & l & Ho & Ha & Ht & Hs & Hl & He). destruct (HO o Ho) as (o' & Ho' & E).
  destruct (ev_sent _ _ E Hs) as [Es El]. exists o', l. rewrite Es, El, (ev_agent _ _ E), (ev_type _ _ E), (ev_schema _ _ E), (ev_payload _ _ E).
  split_and!; try done. set_solver.
Qed.

(** ** Steps of the world *)

(** What a transaction must show. *)
Definition adv (log : list effect) (d d' : DB) : Prop := DInv d' log /\ db_le d d'.

Lemma adv_refl log d : DInv d log -> adv log d d.
Proof. intros H. split; [done|reflexivity]. Qed.

Lemma adv_trans log d1 d2 d3 : db_le d1 d2 -> adv log d2 d3 -> adv log d1 d3.
Proof. intros H [I R]. split; [done|by etrans]. Qed.

Lemma DInv_push d log e : DInv d log -> justified d log e -> DInv d (log ++ [e]).
Proof.
  intros [[B1 B2 B3 B4 B5 B6 BO B7 B8 B9 B10] S] He. assert (HP : log `prefix_of` log ++ [e]) by by apply prefix_app_r.
  split; [split; try done|].
  - eapply Forall_impl; [exact B4|]. intros r [R1 R2 R3]. split; eauto using proven_mono.
  - eapply Forall_impl; [exact B8|]. intros r (a & Ha & Hi & Hp). exists a. eauto using proven_mono.
  - intros i x Hi. rewrite lookup_app in Hi. destruct (log !! i) as [y|] eqn:E.
    + simplify_eq. rewrite take_app_le by (apply lookup_lt_Some in E; lia). by apply B10.
    + apply lookup_ge_None in E. apply list_lookup_singleton_Some in Hi as [Hi ->].
      by rewrite take_app_length' by lia.
  - intros r Hr Hl Hx. eapply sealed_for_mono; [reflexivity|done|]. by apply S.
Qed.

(** Only these tables matter. *)
Definition same_core (d d' : DB) : Prop :=
  t_agents d' = t_agents d /\ t_agents_seq d' = t_agents_seq d /\ t_renewals d' = t_renewals d /\
  t_renewals_seq d' = t_renewals_seq d /\ t_outbox d' = t_outbox d /\ t_seals d ⊆ t_seals d'.

#[export] Instance same_core_preorder : PreOrder same_core.
Proof.
  split; [done|]. intros a b c (? & ? & ? & ? & ? & ?) (? & ? & ? & ? & ? & ?). split_and!; try congruence. by etrans.
Qed.

Lemma same_core_le d d' : same_core d d' -> db_le d d'.
Proof.
  intros (E1 & E2 & E3 & E4 & E5 & E6). split; rewrite ?E1, ?E3, ?E4, ?E5; [|done|eauto| |done]; intros r Hr; exists r; (split; [done|reflexivity]).
Qed.

Lemma same_core_Base d d' log : same_core d d' -> Base d log -> Base d' log.
Proof.
  intros HC []. pose proof HC as (E1 & E2 & E3 & E4 & E5 & _). split; rewrite ?E1, ?E2, ?E3, ?E4, ?E5; try done.
  intros i e Hi. eapply justified_mono; [by apply same_core_le|reflexivity|auto].
Qed.

Lemma same_core_Sealed d d' log ex : same_core d d' -> Sealed d log ex -> Sealed d' log ex.
Proof.
  intros HC S r Hr Hl Hx. eapply sealed_for_mono; [by apply same_core_le|reflexivity|].
  destruct HC as (E1 & _). rewrite E1 in Hr. by apply S.
Qed.

Lemma same_core_adv d d' log : DInv d log -> same_core d d' -> adv log d d'.
Proof. intros [B S] H. split; [split|]; eauto using same_core_Base, same_core_Sealed, same_core_le. Qed.

(** ** Updating rows of [agent_registrations] *)

(** [r'] may replace [r]; only the row with id [x] may become live, and only
    without a rival. *)
Record upd_ok (d : DB) (log : list effect) (x : Z) (r r' : agentRow) : Prop := {
  uo_evolves : row_evolves r r';
  uo_inv : row_inv log r';
  uo_live : live r' = true -> live r = true \/
    (ar_id r = x /\ forall r2, r2 ∈ t_agents d -> live r2 = true -> ar_agent_host r2 = ar_agent_host r -> ar_owner_id r2 = ar_owner_id r)
}.

Lemma agents_map d log f x ex :
  Base d log -> Sealed d log ex -> (forall r, r ∈ t_agents d -> upd_ok d log x r (f r)) ->
  (forall r, r ∈ t_agents d -> live (f r) = true -> live r = true \/ ex = Some (ar_agent_id r)) ->
  let d' := set_agents d (f <$> t_agents d) (t_agents_seq d) in
  Base d' log /\ Sealed d' log ex /\ db_le d d'.
Proof.
  intros HB S Hf Hex d'. pose proof HB as [B1 B2 B3 B4 B5 B6 BO B7 B8 B9 B10].
  assert (HI : forall r, r ∈ t_agents d -> ident (f r) = ident r) by (intros r Hr; apply Hf, Hr).
  assert (HK : forall {K} (key : agentRow -> K), (forall r r', ident r' = ident r -> key r' = key r) ->
            key <$> (f <$> t_agents d) = key <$> t_agents d).
  { intros K key Hk. rewrite <- list_fmap_compose. apply list_fmap_ext. intros i r Hr. apply Hk, HI. by eapply list_elem_of_lookup_2. }
  assert (HL : db_le d d').
  { split; cbn; [|done|eauto|intros o Ho; exists o; (split; [done|reflexivity])|done].
    intros r Hr. exists (f r). split; [by apply list_elem_of_fmap_2|]. apply Hf, Hr. }
  split; [split; cbn; try done|split; [|done]].
  - rewrite HK; [done|]. by intros r r' [=].
  - rewrite HK; [done|]. by intros r r' [=].
  - split; [apply B3|]. rewrite Forall_fmap, Forall_forall. intros r Hr. cbn. pose proof (HI r Hr) as [= -> _ _ _ _].
    destruct B3 as [_ B3]. rewrite Forall_forall in B3. by apply B3.
  - rewrite Forall_fmap, Forall_forall. intros r Hr. apply Hf, Hr.
  - intros r1' r2' (r1 & -> & H1)%list_elem_of_fmap (r2 & -> & H2)%list_elem_of_fmap L1 L2.
    pose proof (HI r1 H1) as [= _ _ -> _ ->]. pose proof (HI r2 H2) as [= _ _ -> _ ->]. intros E.
    destruct (uo_live _ _ _ _ _ (Hf r1 H1) L1) as [L1'|[X1 N1]], (uo_live _ _ _ _ _ (Hf r2 H2) L2) as [L2'|[X2 N2]].
    + by apply B5.
    + by apply N2.
    + symmetry. by apply N1.
    + f_equal. eapply NoDup_key; [exact B1|done|done|congruence].
  - eapply Forall_impl; [exact B8|]. intros r (a & Ha & Hi & Hp). exists (f a). split; [by apply list_elem_of_fmap_2|].
    pose proof (HI a Ha) as [= _ -> _ _ ->]. done.
  - intros i e Hi. eapply justified_mono; [exact HL|reflexivity|]. by apply B10.
  - intros r' (r & -> & Hr)%list_elem_of_fmap Hl Hx. pose proof (HI r Hr) as [= _ Ea _ _ _]. rewrite Ea in Hx |- *.
    eapply sealed_for_mono; [exact HL|reflexivity|]. destruct (Hex r Hr Hl) as [Hl' | ->]; [by apply S|done].
Qed.

(** The registration [reg] was read from, or made into, the row [r]. *)
Record matches (reg : AgentRegistration) (r : agentRow) : Prop := {
  m_id : r_ID reg = ar_id r;
  m_agent : r_AgentID reg = ar_agent_id r;
  m_owner : r_OwnerID reg = ar_owner_id r;
  m_name : AnsName_String (r_AnsName reg) = ar_ans_name r;
  m_host : reg_FQDN reg = ar_agent_host r;
  m_chs : o_Challenges (r_CertOrder reg) = row_chs r
}.

Lemma matches_evolves reg r r' : matches reg r -> row_evolves r r' -> matches reg r'.
Proof. intros [] (? & ? & ? & ? & ? & ?)%evolves_ident. split; congruence. Qed.

Definition backed (log : list effect) (reg : AgentRegistration) : Prop :=
  ChallengeType_IsValid (o_VerifiedChallenge (r_CertOrder reg)) = true -> proven log (reg_FQDN reg) (o_Challenges (r_CertOrder reg)).

(** A registration a handler may hold. *)
Definition known (d : DB) (log : list effect) (reg : AgentRegistration) : Prop :=
  (exists r, r ∈ t_agents d /\ matches reg r) /\ backed log reg.

Lemma known_mono d d' log log' reg : db_le d d' -> log `prefix_of` log' -> known d log reg -> known d' log' reg.
Proof.
  intros HL HP [(r & Hr & Hm) Hb]. split.
  - destruct (le_agents _ _ HL r Hr) as (r' & Hr' & E). exists r'. eauto using matches_evolves.
  - intros Hv. eapply proven_mono; [done|by apply Hb].
Qed.

(** The order columns written and read back. *)
Lemma saved_order reg r :
  matches reg r -> ar_dns01_token r = None \/ row_chs r <> [] ->
  let r' := set_cols r (agentCols_of reg) in
  row_chs r' = row_chs r /\
  (o_VerifiedChallenge (row_order r') = "" \/ o_VerifiedChallenge (row_order r') = o_VerifiedChallenge (r_CertOrder reg)).
Proof.
  intros [_ _ _ _ _ Hc] Ht. cbn. unfold row_chs at 1, row_order. cbn.
  destruct (CertificateOrder_IsZero (r_CertOrder reg)) eqn:Z; cbn.
  - unfold CertificateOrder_IsZero in Z. b2p. match goal with H : (length _ =? 0)%nat = true |- _ => apply Nat.eqb_eq, length_zero_iff_nil in H; rename H into Hn end.
    rewrite Hn in Hc. destruct Ht as [->|Ht]; [|congruence]. cbn. split; [done|by left].
  - split; [done|]. right. unfold nullableString. destruct (String.eqb_spec (o_VerifiedChallenge (r_CertOrder reg)) ""); cbn; congruence.
Qed.

Lemma saved_row log reg r :
  row_inv log r -> matches reg r ->
  (needs_proof (r_Status reg) (r_CertOrder reg) = true -> proven log (ar_agent_host r) (row_chs r)) ->
  row_inv log (set_cols r (agentCols_of reg)).
Proof.
  intros [R1 R2 R3] Hm Hp. destruct (saved_order reg r Hm R2) as [Ec Ev]. split; [done| |].
  - rewrite Ec. done.
  - rewrite Ec. intros Hn. apply Hp. unfold needs_proof in *. change (ar_status (set_cols r (agentCols_of reg))) with (r_Status reg) in Hn.
    destruct Ev as [Ev|Ev]; rewrite Ev in Hn; [|done]. apply orb_true_iff in Hn as [Hn|Hn]; [by rewrite Hn|done].
Qed.
(** ** Triples for transactions *)

Definition hoare {A} (t : tx A) (d : DB) (Q : A -> DB -> Prop) : Prop := forall a d', t d = Ok (a, d') -> Q a d'.

Lemma hoare_bind {A B} (t : tx A) (f : A -> tx B) d Q : hoare t d (fun a d' => hoare (f a) d' Q) -> hoare (t ≫= f) d Q.
Proof.
  intros H b d'. unfold mbind, tx_bind. destruct (t d) as [[a d1]|e] eqn:E; [|done]. exact (H a d1 E b d').
Qed.

Lemma hoare_mono {A} (t : tx A) d (Q Q' : A -> DB -> Prop) : hoare t d Q -> (forall a d', Q a d' -> Q' a d') -> hoare t d Q'.
Proof. unfold hoare. eauto. Qed.

Lemma hoare_ret {A} (a : A) d (Q : A -> DB -> Prop) : Q a d -> hoare (mret a) d Q.
Proof. by intros H b d' [= <- <-]. Qed.

Lemma hoare_throw {A} e d (Q : A -> DB -> Prop) : hoare (throw e) d Q.
Proof. by intros b d'. Qed.

Lemma hoare_lift {A} (r : result serr A) d (Q : A -> DB -> Prop) : (forall a, r = Ok a -> Q a d) -> hoare (lift r) d Q.
Proof. intros H b d'. unfold lift. destruct r; [|done]. intros [= <- <-]. by apply H. Qed.

Lemma hoare_for {A} (l : list A) (body : A -> tx unit) (I : DB -> Prop) (F : A -> Prop) d :
  (forall x d, x ∈ l -> I d -> hoare (body x) d (fun _ d' => I d' /\ F x)) -> I d ->
  hoare (tx_for l body) d (fun _ d' => I d' /\ forall x, x ∈ l -> F x).
Proof.
  revert d. induction l as [|x l IH]; intros d Hb HI; cbn [tx_for].
  { apply hoare_ret. split; [done|]. by intros x Hx%not_elem_of_nil. }
  apply hoare_bind. eapply hoare_mono; [apply Hb; [left|done]|]. intros _ d1 [I1 F1].
  eapply hoare_mono; [apply IH; [|done]|].
  - intros y d2 Hy. apply Hb. by right.
  - intros _ d2 [I2 F2]. split; [done|]. intros y [->|Hy]%elem_of_cons; auto.
Qed.

(** Transactions that leave the tables of the invariant alone. *)
Definition frames {A} (t : tx A) : Prop := forall d a d', t d = Ok (a, d') -> same_core d d'.

Lemma frames_bind {A B} (t : tx A) (f : A -> tx B) : frames t -> (forall a, frames (f a)) -> frames (t ≫= f).
Proof.
  intros Ht Hf d b d'. unfold mbind, tx_bind. destruct (t d) as [[a d1]|e] eqn:E; [|done]. intros E2.
  etrans; [by eapply Ht|by eapply Hf].
Qed.

Lemma frames_ret {A} (a : A) : frames (mret a).
Proof. by intros d b d' [= <- <-]. Qed.
Lemma frames_throw {A} e : frames (throw (A:=A) e).
Proof. by intros d b d'. Qed.
Lemma frames_lift {A} (r : result serr A) : frames (lift r).
Proof. intros d b d'. unfold lift. by destruct r; intros [= <- <-]. Qed.
Lemma frames_reads {A} (f : DB -> A) : frames (reads f).
Proof. by intros d b d' [= <- <-]. Qed.
Lemma frames_opt {A} (o : option A) f : (forall a, frames (f a)) -> frames (tx_opt o f).
Proof. intros H. destruct o; [apply H|apply frames_ret]. Qed.
Lemma frames_for {A} (l : list A) (f : A -> tx unit) : (forall a, frames (f a)) -> frames (tx_for l f).
Proof. intros H. induction l as [|x l IH]; [apply frames_ret|]. by apply frames_bind. Qed.

(** A read in the result monad. *)
Lemma frames_read {A B} (q : DB -> result serr A) (f : A -> B) : frames (fun d => r ← q d; Ok (f r, d)).
Proof. intros d b d'. destruct (q d); cbn; [|done]. by intros [= <- <-]. Qed.

Lemma frames_EndpointStore_Save x eps : frames (EndpointStore_Save x eps).
Proof. by intros d b d' [= <- <-]. Qed.
Lemma frames_EndpointStore_FindByAgentID x : frames (EndpointStore_FindByAgentID x).
Proof. apply (frames_read (fun d => one_row (t_endpoints d !! x)) (fun e => e)). Qed.
Lemma frames_SaveIdentityCertificate x c : frames (SaveIdentityCertificate x c).
Proof. intros d b d'. unfold SaveIdentityCertificate. case_if; [done|]. by intros [= <- <-]. Qed.
Lemma frames_UpdateCertificateStatus c : frames (UpdateCertificateStatus c).
Proof. by intros d b d' [= <- <-]. Qed.
Lemma frames_SaveCSR x c : frames (SaveCSR x c).
Proof. intros d b d'. unfold SaveCSR. repeat (case_if; [done|]). repeat case_if; by intros [= <- <-]. Qed.
Lemma frames_FindCSRByID x y : frames (FindCSRByID x y).
Proof. eapply (frames_read (fun d => one_row _) csr_toDomain). Qed.
Lemma frames_ByocStore_Save x c : frames (ByocStore_Save x c).
Proof. intros d b d'. unfold ByocStore_Save. case_if; [done|]. by intros [= <- <-]. Qed.
Lemma frames_FindLatestValidByAgentID x now : frames (FindLatestValidByAgentID x now).
Proof. eapply (frames_read (fun d => one_row _) byoc_toDomain). Qed.
Lemma frames_RenewalStore_FindByAgentID x : frames (RenewalStore_FindByAgentID x).
Proof. eapply (frames_read (fun d => one_row _) renewal_toDomain). Qed.
Lemma frames_FindPendingByAgentID x : frames (FindPendingByAgentID x).
Proof. eapply (frames_read (fun d => one_row _) renewal_toDomain). Qed.
Lemma frames_FindByAgentID x : frames (FindByAgentID x).
Proof. intros d b d'. unfold FindByAgentID. destruct (one_row _); cbn; [|done]. destruct (agent_toDomain a); cbn; [|done]. by intros [= <- <-]. Qed.
Lemma frames_FindAllByAgentHost x : frames (FindAllByAgentHost x).
Proof. eapply (frames_read (fun d => rowsToDomain _) (fun l => l)). Qed.
Lemma frames_insert_seal x lane p : frames (insert_seal x lane p).
Proof. intros d b d'. unfold insert_seal. case_if; [done|]. intros [= <- <-]. destruct (t_seals d !! x) eqn:E; [done|].
  split_and!; try done. by apply insert_subseteq. Qed.
Lemma frames_FindIdentityCertificatesByAgent x : frames (FindIdentityCertificatesByAgent x).
Proof. apply frames_reads. Qed.
Lemma frames_FindLatestPendingCSRByType x t : frames (FindLatestPendingCSRByType x t).
Proof. apply frames_reads. Qed.
Lemma frames_ByocStore_FindByAgentID x : frames (ByocStore_FindByAgentID x).
Proof. apply frames_reads. Qed.
Lemma frames_LoadActivationSeal x : frames (LoadActivationSeal x).
Proof. apply frames_reads. Qed.

End Inv.

Create HintDb frames.
#[export] Hint Resolve frames_bind frames_ret frames_throw frames_lift frames_reads frames_opt frames_for
  frames_EndpointStore_Save frames_EndpointStore_FindByAgentID frames_SaveIdentityCertificate
  frames_UpdateCertificateStatus frames_SaveCSR frames_FindCSRByID frames_ByocStore_Save
  frames_FindLatestValidByAgentID frames_RenewalStore_FindByAgentID frames_FindPendingByAgentID
  frames_FindByAgentID frames_FindAllByAgentHost frames_insert_seal frames_FindIdentityCertificatesByAgent frames_FindLatestPendingCSRByType
  frames_ByocStore_FindByAgentID frames_LoadActivationSeal : frames.

(** ** The stores *)

Section Stores.
Context `{U : UnicodeTables}.

(** *** Reads *)

(** [reg] is the row [r] as [scanAgentRow] returns it. *)
Record from_row (reg : AgentRegistration) (r : agentRow) : Prop := {
  fr_matches : matches reg r;
  fr_status : r_Status reg = ar_status r;
  fr_order : r_CertOrder reg = row_order r
}.

Lemma toDomain_from_row log r reg : row_inv log r -> agent_toDomain r = Ok reg -> from_row reg r /\ backed log reg.
Proof.
  intros [(n & Hp & Hs & Hf) _ Hr]. unfold agent_toDomain. rewrite Hp. cbn. intros [= <-]. split; [split; [by split|done|done]|].
  intros Hv. cbn in *. change (reg_FQDN _) with (AnsName_FQDN n). rewrite Hf. apply Hr. unfold needs_proof.
  apply orb_true_iff. by right.
Qed.

Lemma from_row_known d log r reg : r ∈ t_agents d -> row_inv log r -> agent_toDomain r = Ok reg -> known d log reg.
Proof. intros Hr HI HD. destruct (toDomain_from_row log r reg HI HD) as [[Hm _ _] Hb]. split; eauto. Qed.

Lemma Base_row d log r : Base d log -> r ∈ t_agents d -> row_inv log r.
Proof. intros HB. pose proof (b_rows _ _ HB) as HF. rewrite Forall_forall in HF. apply HF. Qed.

Lemma FindByAgentID_hoare d log x :
  Base d log ->
  hoare (FindByAgentID x) d (fun reg d' => d' = d /\ known d log reg /\ r_AgentID reg = x /\
    exists r, r ∈ t_agents d /\ ar_agent_id r = x /\ from_row reg r).
Proof.
  intros HB reg d'. unfold FindByAgentID, agent_row. destruct (find_first _ _) as [r|] eqn:E; cbn; [|done].
  destruct (agent_toDomain r) as [a|] eqn:ED; cbn; [|done]. intros [= <- <-].
  apply find_first_Some in E as [Hr Hx]. b2p. pose proof (Base_row _ _ _ HB Hr) as HI.
  destruct (toDomain_from_row log r a HI ED) as [Hf Hb]. split_and!; eauto.
  - split; [|done]. exists r. split; [done|apply Hf].
  - destruct Hf as [[_ -> _ _ _ _] _ _]. done.
Qed.

Lemma rowsToDomain_elem rows l :
  rowsToDomain rows = Ok l ->
  (forall reg, reg ∈ l -> exists r, r ∈ rows /\ agent_toDomain r = Ok reg) /\
  (forall r, r ∈ rows -> exists reg, reg ∈ l /\ agent_toDomain r = Ok reg).
Proof.
  revert l. induction rows as [|r rows IH]; intros l; cbn.
  { intros [= <-]. split; intros x Hx; by apply not_elem_of_nil in Hx. }
  destruct (agent_toDomain r) as [a|] eqn:E; cbn; [|done]. destruct (rowsToDomain rows) as [l'|] eqn:El; cbn; [|done].
  intros [= <-]. destruct (IH l' eq_refl) as [H1 H2]. split.
  - intros reg [->|(r' & ? & ?)%H1]%elem_of_cons; [exists r|exists r']; (split; [set_solver|done]).
  - intros r' [->|(reg & ? & ?)%H2]%elem_of_cons; [exists a|exists reg]; (split; [set_solver|done]).
Qed.

Lemma FindAllByAgentHost_hoare d log host :
  Base d log ->
  hoare (FindAllByAgentHost host) d (fun l d' => d' = d /\
    (forall reg, reg ∈ l -> known d log reg /\ exists r, r ∈ t_agents d /\ ar_agent_host r = host /\ from_row reg r) /\
    (forall r, r ∈ t_agents d -> ar_agent_host r = host -> exists reg, reg ∈ l /\ from_row reg r)).
Proof.
  intros HB l d'. unfold FindAllByAgentHost. destruct (rowsToDomain _) as [l'|] eqn:E; cbn; [|done]. intros [= <- <-].
  apply rowsToDomain_elem in E as [H1 H2]. split; [done|]. split.
  - intros reg (r & Hr & HD)%H1. apply list_elem_of_In, in_rev, list_elem_of_In, list_elem_of_filter in Hr as [Hh Hr].
    pose proof (Base_row _ _ _ HB Hr) as HI. split; [by eapply from_row_known|]. exists r. split_and!; [done..|]. by eapply toDomain_from_row.
  - intros r Hr Hh. destruct (H2 r) as (reg & Hreg & HD).
    + apply list_elem_of_In. rewrite <- in_rev. apply list_elem_of_In, list_elem_of_filter. done.
    + exists reg. split; [done|]. eapply toDomain_from_row; [by eapply Base_row|done].
Qed.

Lemma FindPendingByAgentID_hoare d x :
  hoare (FindPendingByAgentID x) d (fun n d' => d' = d /\
    exists r, r ∈ t_renewals d /\ rw_agent_id r = x /\ n = renewal_toDomain r).
Proof.
  intros n d'. unfold FindPendingByAgentID, pending_renewal. destruct (last _) as [r|] eqn:E; cbn; [|done]. intros [= <- <-].
  split; [done|]. exists r. apply last_Some in E as [l' E].
  assert (Hr : r ∈ filter (fun r => rw_agent_id r = x /\ is_null (rw_completed_ms r) = true) (t_renewals d)).
  { rewrite E. apply elem_of_app. right. by left. }
  apply list_elem_of_filter in Hr as [[? _] ?]. done.
Qed.

(** *** [AgentStore.Save] *)

Definition save_fun (reg : AgentRegistration) (r : agentRow) : agentRow :=
  if save_matches (r_ID reg) (r_Status reg) r then set_cols r (agentCols_of reg) else r.

Lemma save_evolves log reg r :
  row_inv log r -> (ar_id r = r_ID reg -> matches reg r) -> row_evolves r (save_fun reg r).
Proof.
  intros HI Hm. unfold save_fun, save_matches.
  destruct (ar_id r =? r_ID reg) eqn:E1; cbn [andb]; [|reflexivity].
  destruct (_ || _) eqn:E2; cbn [andb]; [|reflexivity]. destruct (_ || one_of _ _) eqn:E3; [|reflexivity]. b2p.
  pose proof (saved_order reg r (Hm E1) (ri_token _ _ HI)) as [Ec _]. split; [done|done| |]; cbn; intros Hs; rewrite Hs in *.
  - cbn in E2. b2p. done.
  - rewrite String.eqb_refl in E3. cbn [negb orb] in E3. rewrite one_of_In in E3. set_solver.
Qed.

(** The row of [reg] may be saved. *)
Definition savable (d : DB) (log : list effect) (reg : AgentRegistration) : Prop :=
  exists r, r ∈ t_agents d /\ matches reg r /\
    (needs_proof (r_Status reg) (r_CertOrder reg) = true -> proven log (ar_agent_host r) (row_chs r)).

Lemma known_savable d log reg :
  known d log reg -> (proven_status (r_Status reg) = true -> proven log (reg_FQDN reg) (o_Challenges (r_CertOrder reg))) ->
  savable d log reg.
Proof.
  intros [(r & Hr & Hm) Hb] Hp. exists r. split_and!; [done..|]. rewrite <- (m_host _ _ Hm), <- (m_chs _ _ Hm).
  unfold needs_proof. intros [H|H]%orb_true_iff; auto.
Qed.

(** No live row of the same host belongs to someone else. *)
Definition no_rival (d : DB) (reg : AgentRegistration) : Prop :=
  forall r2, r2 ∈ t_agents d -> live r2 = true -> ar_agent_host r2 = reg_FQDN reg -> ar_owner_id r2 = r_OwnerID reg.

Lemma Save_hoare d log reg ex :
  Base d log -> Sealed d log ex -> savable d log reg ->
  (holdsHostExclusivity (r_Status reg) = true ->
     (exists r, r ∈ t_agents d /\ ar_id r = r_ID reg /\ live r = true) \/ (no_rival d reg /\ ex = Some (r_AgentID reg))) ->
  hoare (AgentStore_Save reg) d (fun reg' d' => reg' = reg /\ d' = set_agents d (save_fun reg <$> t_agents d) (t_agents_seq d) /\
    Base d' log /\ Sealed d' log ex /\ db_le d d').
Proof.
  intros HB S (r0 & Hr0 & Hm & Hp) Hl reg' d'. unfold AgentStore_Save.
  assert (Hid : 0 < r_ID reg).
  { destruct (b_seq _ _ HB) as [_ HF]. rewrite Forall_forall in HF. specialize (HF r0 Hr0). rewrite (m_id _ _ Hm). lia. }
  destruct (Z.eqb_spec (r_ID reg) 0) as [?|_]; [lia|]. case_if; [|done]. intros [= <- <-]. split; [done|]. split; [done|].
  assert (Hun : forall r, r ∈ t_agents d -> ar_id r = r_ID reg -> r = r0).
  { intros r Hr E. eapply NoDup_key; [apply (b_ids _ _ HB)|done|done|]. by rewrite E, (m_id _ _ Hm). }
  apply (agents_map d log (save_fun reg) (r_ID reg) ex HB S).
  - intros r Hr. pose proof (Base_row _ _ _ HB Hr) as HI. split.
    + eapply save_evolves; [done|]. intros E. by rewrite (Hun r Hr E).
    + unfold save_fun, save_matches. destruct (Z.eqb_spec (ar_id r) (r_ID reg)) as [E|E]; [|done]. cbn [andb].
      case_match; [|done]. rewrite (Hun r Hr E) in *. by apply saved_row.
    + unfold save_fun, save_matches. destruct (Z.eqb_spec (ar_id r) (r_ID reg)) as [E|E]; [|by left]. cbn [andb].
      case_match; [|by left]. rewrite (Hun r Hr E) in *. change (live (set_cols r0 _)) with (holdsHostExclusivity (r_Status reg)).
      intros Hlv. destruct (Hl Hlv) as [(r1 & H1 & E1 & L1)|[Hn _]]; [left; by rewrite <- (Hun r1 H1 E1)|].
      right. split; [by rewrite (m_id _ _ Hm)|]. intros r2 H2 L2 E2. rewrite <- (m_owner _ _ Hm). apply Hn; [done|done|].
      by rewrite (m_host _ _ Hm).
  - intros r Hr. unfold save_fun, save_matches. destruct (Z.eqb_spec (ar_id r) (r_ID reg)) as [E|E]; [|by left]. cbn [andb].
    case_match; [|by left]. rewrite (Hun r Hr E) in *. change (live (set_cols r0 _)) with (holdsHostExclusivity (r_Status reg)).
    intros Hlv. destruct (Hl Hlv) as [(r1 & H1 & E1 & L1)|[_ ->]]; [left; by rewrite <- (Hun r1 H1 E1)|]. right. by rewrite (m_agent _ _ Hm).
Qed.

(** A save that makes nothing live. *)
Lemma Save_adv d log reg :
  DInv d log -> savable d log reg ->
  (holdsHostExclusivity (r_Status reg) = true -> exists r, r ∈ t_agents d /\ ar_id r = r_ID reg /\ live r = true) ->
  hoare (AgentStore_Save reg) d (fun reg' d' => reg' = reg /\ adv log d d').
Proof.
  intros [HB HS] Hsv Hl. eapply hoare_mono; [apply (Save_hoare d log reg None HB HS Hsv); auto|].
  intros reg' d' (-> & _ & B' & S' & L'). split; [done|]. by split.
Qed.
(** *** Other changes of the registrations *)

Lemma Insert_adv `{UL : !UnicodeLaws U} d log reg :
  DInv d log -> r_ID reg = 0 -> ansname_wf (r_AnsName reg) -> r_Status reg = StatusPendingValidation ->
  o_VerifiedChallenge (r_CertOrder reg) = "" ->
  hoare (AgentStore_Save reg) d (fun _ d' => adv log d d').
Proof.
  intros [HB HS] Hid Hn Hst Hv reg' d'. unfold AgentStore_Save. rewrite Hid. cbn [Z.eqb].
  destruct (existsb _ _) eqn:Ex; [done|]. intros [= <- <-].
  set (row := {| ar_id := _ |}). set (d1 := set_agents d _ _). pose proof HB as [B1 B2 [B3 B3'] B4 B5 B6 BO B7 B8 B9 B10].
  assert (Hfresh : forall r, r ∈ t_agents d -> ar_agent_id r <> r_AgentID reg).
  { intros r Hr E. apply not_true_iff_false in Ex. apply Ex. apply existsb_exists. exists r. split; [by apply list_elem_of_In|].
    by rewrite E, String.eqb_refl. }
  assert (Hnl : live row = false) by (unfold live, ar_status; cbn; by rewrite Hst).
  assert (HV : o_VerifiedChallenge (row_order row) = "").
  { unfold row_order. cbn. case_match; cbn; [done|]. by rewrite Hv. }
  assert (HL : db_le d d1).
  { split; cbn; [|done|eauto| |done]; intros r Hr; exists r; (split; [set_solver|reflexivity]). }
  split; [split; [split; cbn; try done|]|done].
  - rewrite fmap_app. apply NoDup_app. split_and!; [done| |by apply NoDup_singleton].
    intros x (r & -> & Hr)%list_elem_of_fmap E%list_elem_of_singleton. rewrite Forall_forall in B3'. specialize (B3' r Hr). cbn in E. lia.
  - rewrite fmap_app. apply NoDup_app. split_and!; [done| |by apply NoDup_singleton].
    intros x (r & -> & Hr)%list_elem_of_fmap E%list_elem_of_singleton. by apply (Hfresh r).
  - split; [lia|]. apply Forall_app. split; [|by repeat constructor; cbn; lia]. eapply Forall_impl; [exact B3'|]. cbn. intros; lia.
  - apply Forall_app. split; [done|]. constructor; [|constructor]. split.
    + exists (r_AnsName reg). cbn. split_and!; [by apply ParseAnsName_String|done..].
    + by left.
    + unfold needs_proof. rewrite HV. unfold ar_status. cbn. by rewrite Hst.
  - intros r1 r2 [H1|H1%list_elem_of_singleton]%elem_of_app [H2|H2%list_elem_of_singleton]%elem_of_app; subst; try congruence. by apply B5.
  - eapply Forall_impl; [exact B8|]. intros r (a & Ha & ?). exists a. split; [set_solver|done].
  - intros i e Hi. eapply justified_mono; [exact HL|reflexivity|]. by apply B10.
  - intros r [Hr|Hr%list_elem_of_singleton]%elem_of_app Hl Hx; [|congruence].
    eapply sealed_for_mono; [exact HL|reflexivity|]. by apply HS.
Qed.

Lemma set_status_chs s r : row_order (set_status s r) = row_order r.
Proof. done. Qed.

Lemma Expire_adv d log now : DInv d log -> hoare (ExpireLapsedPendingValidation now) d (fun _ d' => adv log d d').
Proof.
  intros [HB HS] n d' [= _ <-]. set (f := fun r => if expire_row _ r then _ else r).
  assert (Hs : forall r, expire_row (Time_UnixMilli now) r = true -> ar_status r = StatusPendingValidation).
  { intros r H. unfold expire_row in H. b2p. done. }
  assert (HL : forall r, live (f r) = true -> live r = true).
  { intros r. unfold f. case_if; [done|done]. }
  destruct (agents_map d log f 0 None HB HS) as (B & S & L); [|by eauto|by split; [split|]].
  intros r Hr. pose proof (Base_row _ _ _ HB Hr) as [R1 R2 R3]. split; [| |by eauto]; unfold f; destruct (expire_row _ r) eqn:E; try done.
  - split; [done|done| |]; rewrite (Hs r E); done.
  - split; [done|done|]. rewrite set_status_chs. intros Hn. apply R3. unfold needs_proof in *.
    apply orb_true_iff in Hn as [Hn|Hn]; [done|]. rewrite Hn. by rewrite orb_true_r.
Qed.

(** *** Renewals *)

Definition renewal_known (d : DB) (x : ServerCertificateRenewal) : Prop :=
  0 < rn_ID x <= t_renewals_seq d /\
  forall r, r ∈ t_renewals d -> rw_id r = rn_ID x -> rw_agent_id r = rn_AgentID x /\ rw_chs r = rv_Challenges (rn_Validation x).

Lemma renewal_known_mono d d' x : db_le d d' -> renewal_known d x -> renewal_known d' x.
Proof.
  intros [_ L1 L2 _ _] [Hi Hk]. split; [lia|]. intros r' Hr' E. destruct (L2 r' Hr') as (r & Hr & Ek); [lia|].
  injection Ek as E1 E2 E3. destruct (Hk r Hr ltac:(lia)). split; congruence.
Qed.

(** The proof a VERIFIED renewal stands for. *)
Definition renewal_backed (d : DB) (log : list effect) (x : ServerCertificateRenewal) : Prop :=
  rv_Status (rn_Validation x) = ValidationVerified ->
  exists a, a ∈ t_agents d /\ ar_agent_id a = rn_AgentID x /\ proven log (ar_agent_host a) (rv_Challenges (rn_Validation x)).

Lemma renewal_backed_mono d d' log log' x :
  db_le d d' -> log `prefix_of` log' -> renewal_backed d log x -> renewal_backed d' log' x.
Proof.
  intros L P H Hs. destruct (H Hs) as (a & Ha & E & Hp). destruct (le_agents _ _ L a Ha) as (a' & Ha' & Ev). exists a'.
  apply evolves_ident in Ev as (_ & -> & _ & _ & -> & _). eauto using proven_mono.
Qed.

Lemma renewal_row_known d log r :
  Base d log -> r ∈ t_renewals d -> renewal_known d (renewal_toDomain r) /\ renewal_backed d log (renewal_toDomain r).
Proof.
  intros [_ _ _ _ _ B6 _ [_ B7] B8 _ _] Hr. rewrite Forall_forall in B7, B8. specialize (B7 r Hr). destruct (B8 r Hr) as (a & Ha & E & Hp).
  split.
  - split; [done|]. intros r' Hr' Ei. by rewrite (NoDup_key rw_id _ r' r B6 Hr' Hr Ei).
  - intros Hs. exists a. eauto.
Qed.

Lemma renewals_replace d log rows seq :
  DInv d log -> NoDup (rw_id <$> rows) ->
  (forall r1 r2, r1 ∈ rows -> r2 ∈ rows -> rw_open r1 = true -> rw_open r2 = true -> rw_agent_id r1 = rw_agent_id r2 -> r1 = r2) ->
  t_renewals_seq d <= seq -> Forall (fun r => 0 < rw_id r <= seq) rows ->
  Forall (renewal_inv (t_agents d) log) rows ->
  (forall r', r' ∈ rows -> rw_id r' <= t_renewals_seq d -> exists r, r ∈ t_renewals d /\ rw_key r = rw_key r') ->
  adv log d (set_renewals d rows seq).
Proof.
  intros [[] HS] H1 HO H2 H3 H4 H5. assert (L : db_le d (set_renewals d rows seq)).
  { split; cbn; [|done|done| |done]; intros r Hr; exists r; (split; [done|reflexivity]). }
  split; [split; [split; cbn; try done|]|done].
  - split; [lia|done].
  - intros r Hr Hl Hx. eapply sealed_for_mono; [exact L|reflexivity|]. by apply HS.
Qed.

Lemma RenewalSave_adv d log x now :
  DInv d log -> renewal_known d x -> renewal_backed d log x ->
  hoare (RenewalStore_Save x now) d (fun x' d' => x' = x /\ adv log d d').
Proof.
  intros HI [Hid Hk] Hb x' d'. pose proof HI as [HB _]. unfold RenewalStore_Save. destruct (Z.eqb_spec (rn_ID x) 0) as [?|_]; [lia|].
  case_if; [|done]. intros [= <- <-]. split; [done|].
  set (f := fun r => if renewal_open (rn_ID x) r then _ else r).
  assert (Hf : forall r, r ∈ t_renewals d -> rw_key (f r) = rw_key r) by (intros r _; unfold f; by case_if).
  destruct HB as [_ B2 _ _ _ B6 BO [B7 B7'] B8 _ _]. apply renewals_replace; [done| | |done| | |].
  - rewrite <- list_fmap_compose. erewrite list_fmap_ext; [exact B6|]. intros i r Hr. unfold compose.
    pose proof (Hf r (list_elem_of_lookup_2 _ _ _ Hr)) as [= -> _ _]. done.
  - assert (HO' : forall r, rw_open (f r) = true -> rw_open r = true).
    { intros r. unfold f. destruct (renewal_open (rn_ID x) r) eqn:E; [|done]. unfold renewal_open in E. by b2p. }
    intros r1' r2' (r1 & -> & H1)%list_elem_of_fmap (r2 & -> & H2)%list_elem_of_fmap O1%HO' O2%HO'.
    pose proof (Hf r1 H1) as [= _ -> _]. pose proof (Hf r2 H2) as [= _ -> _]. intros E. by rewrite (BO r1 r2).
  - rewrite Forall_fmap, Forall_forall. intros r Hr. unfold compose. pose proof (Hf r Hr) as [= -> _ _].
    rewrite Forall_forall in B7'. by apply B7'.
  - rewrite Forall_fmap, Forall_forall. intros r Hr. rewrite Forall_forall in B8. destruct (B8 r Hr) as (a & Ha & E & Hp).
    unfold compose, f. destruct (renewal_open (rn_ID x) r) eqn:Eo; [|by exists a].
    unfold renewal_open in Eo. b2p. destruct (Hk r Hr ltac:(done)) as [Ka Kc]. exists a. split_and!; [done..|].
    intros Hs. change (rv_Status (rn_Validation x) = ValidationVerified) in Hs. destruct (Hb Hs) as (a' & Ha' & Ea' & Hp'). rewrite (NoDup_key ar_agent_id _ a a' B2 Ha Ha') by congruence.
    rewrite <- Kc in Hp'. exact Hp'.
  - intros r' (r & -> & Hr)%list_elem_of_fmap _. exists r. split; [done|]. by rewrite Hf.
Qed.

Lemma RenewalInsert_adv d log x now a :
  DInv d log -> rn_ID x = 0 -> pending_renewal d (rn_AgentID x) = None -> a ∈ t_agents d -> ar_agent_id a = rn_AgentID x -> rv_Status (rn_Validation x) = ValidationPending ->
  hoare (RenewalStore_Save x now) d (fun _ d' => adv log d d').
Proof.
  intros HI Hid Hnp Ha Ea Hs x' d'. pose proof HI as [HB _]. unfold RenewalStore_Save. rewrite Hid. cbn [Z.eqb]. case_if; [done|].
  intros [= <- <-]. destruct HB as [_ _ _ _ _ B6 BO [B7 B7'] B8 _ _]. apply renewals_replace; [done| | |lia| | |].
  - rewrite fmap_app. apply NoDup_app. split_and!; [done| |by apply NoDup_singleton].
    intros y (r & -> & Hr)%list_elem_of_fmap E%list_elem_of_singleton. rewrite Forall_forall in B7'. specialize (B7' r Hr). cbn in E. lia.
  - assert (HN : forall r, r ∈ t_renewals d -> rw_open r = true -> rw_agent_id r <> rn_AgentID x).
    { intros r Hr Ho E. apply last_None in Hnp. eapply not_elem_of_nil. rewrite <- Hnp. apply list_elem_of_filter. by split; [split|]. }
    intros r1 r2 [H1|H1%list_elem_of_singleton]%elem_of_app [H2|H2%list_elem_of_singleton]%elem_of_app O1 O2 E; subst; try done.
    + by apply BO.
    + exfalso. by apply (HN r1).
    + exfalso. by apply (HN r2).
  - apply Forall_app. split; [|by repeat constructor; cbn; lia]. eapply Forall_impl; [exact B7'|]. cbn. intros; lia.
  - apply Forall_app. split; [done|]. constructor; [|constructor]. exists a. cbn. split_and!; [done..|]. by rewrite Hs.
  - intros r [Hr|Hr%list_elem_of_singleton]%elem_of_app Hle; [eauto|]. subst r. cbn in Hle. lia.
Qed.

Lemma RenewalDelete_adv d log id : DInv d log -> hoare (RenewalStore_Delete id) d (fun _ d' => adv log d d').
Proof.
  intros HI u d' [= _ <-]. pose proof HI as [HB _]. destruct HB as [_ _ _ _ _ B6 BO [B7 B7'] B8 _ _].
  assert (Hsub : filter (fun r => rw_id r <> id) (t_renewals d) `sublist_of` t_renewals d) by apply sublist_filter.
  apply renewals_replace; [done| | |done| | |].
  - eapply sublist_NoDup; [exact B6|]. by apply fmap_sublist.
  - intros r1 r2 [_ H1]%list_elem_of_filter [_ H2]%list_elem_of_filter. by apply BO.
  - rewrite Forall_forall in *. intros r [_ Hr]%list_elem_of_filter. by apply B7'.
  - rewrite Forall_forall in *. intros r [_ Hr]%list_elem_of_filter. by apply B8.
  - intros r [_ Hr]%list_elem_of_filter _. eauto.
Qed.

(** *** The outbox *)

Lemma outbox_replace d log o ex :
  Base d log -> Sealed d log ex -> OutboxSpec.inv o ->
  (forall i r, ob_rows (t_outbox d) !! i = Some r -> exists r', ob_rows o !! i = Some r' /\ evolves r r') ->
  Base (set_outbox d o) log /\ Sealed (set_outbox d o) log ex /\ db_le d (set_outbox d o).
Proof.
  intros [] HS Ho He. assert (L : db_le d (set_outbox d o)).
  { split; cbn; [|done|eauto| |done]; [intros r Hr; exists r; (split; [done|reflexivity])|].
    intros r (i & Hi)%list_elem_of_lookup. destruct (He i r Hi) as (r' & Hr' & E). exists r'. split; [by eapply list_elem_of_lookup_2|done]. }
  split_and!; [by split| |done]. intros r Hr Hl Hx. eapply sealed_for_mono; [exact L|reflexivity|]. by apply HS.
Qed.

Lemma outbox_op_adv d log o : DInv d log -> op_ok o -> adv log d (set_outbox d (OutboxSpec.step (t_outbox d) o)).
Proof.
  intros [HB HS] Ho. destruct (OutboxSpec.step_inv (t_outbox d) o (b_outbox _ _ HB) Ho) as [I E].
  destruct (outbox_replace d log _ None HB HS I E) as (B & S & L). by split.
Qed.

Lemma Enqueue_adv d log typ x lane p e now : DInv d log -> hoare (Outbox_Enqueue typ x lane p e now) d (fun _ d' => adv log d d').
Proof.
  intros HI a d'. unfold Outbox_Enqueue, outbox_tx. pose proof (outbox_op_adv d log (OpEnqueue typ x lane p e now) HI I) as HA.
  cbn [OutboxSpec.step] in HA. destruct (Enqueue _ _ _ _ _ _ _) as [[o n]|]; [|done]. by intros [= <- <-].
Qed.

Lemma CancelPending_adv d log x now : DInv d log -> hoare (Outbox_CancelPending x now) d (fun _ d' => adv log d d').
Proof. intros HI a d' [= _ <-]. exact (outbox_op_adv d log (OpCancelPending x now) HI I). Qed.

(** Recording the sealed event completes an activation. *)
Lemma RecordSealed_adv d log x lane p logID now :
  Base d log -> Sealed d log (Some x) -> ESeal x lane p (Some logID) ∈ log ->
  hoare (Outbox_RecordSealed TypeAgentRegistered x lane p logID now) d (fun _ d' => adv log d d').
Proof.
  intros HB HS He a d'. unfold Outbox_RecordSealed, outbox_tx.
  destruct (OutboxSpec.step_inv (t_outbox d) (OpRecordSealed TypeAgentRegistered x lane p logID now) (b_outbox _ _ HB) I) as [Iv E].
  cbn [OutboxSpec.step] in Iv, E. destruct (RecordSealed _ _ _ _ _ _ _) as [[o n]|] eqn:ER; [|done]. intros [= <- <-].
  destruct (outbox_replace d log o (Some x) HB HS Iv E) as (B & S & L). split; [|done]. split; [done|].
  intros r Hr Hl _. destruct (decide (ar_agent_id r = x)) as [->|Hx]; [|apply S; [done|done|congruence]].
  assert (HR : exists mk, o = {| ob_rows := ob_rows (t_outbox d) ++ [mk]; ob_seq := ob_seq (t_outbox d) + 1 |} /\
            ob_agent_id mk = x /\ ob_event_type mk = TypeAgentRegistered /\ is_null (ob_sent_at_ms mk) = false /\
            ob_log_id mk = Some logID /\ ob_schema_version mk = lane /\ ob_payload mk = p).
  { unfold RecordSealed in ER. destruct p; [done| |]; (repeat (case_if_in ER; [done|])); injection ER as <- _; (eexists; split; [done|]); done. }
  destruct HR as (mk & -> & H1 & H2 & H3 & H4 & H5 & H6). exists mk, logID. cbn. rewrite H5, H6. split_and!; try done. set_solver.
Qed.
End Stores.
