(* ===== verification/RaServiceSpec.v ===== *)
(** The registration service under concurrent requests: every method, as a
    handler, keeps the invariant of [RaServiceInv] whatever other requests and
    the outbox workers do between its steps. *)
From stdpp Require Import gmap relations.
From S2P Require Import Prelude GoStrings GoTime DomainErrors SemVer AnsName Endpoint Lifecycle LifecycleSpec Discovery.
From S2P Require Import TlEvent Outbox OutboxSpec Concurrent RaEvents RaStore RaService RaServiceInv.

#[local] Set Default Goal Selector "!".
#[local] Open Scope Z_scope.

Section Rules.
Context `{U : UnicodeTables}.
Implicit Types w : World.

(** Safe, with [Q] of the value if the method returns one. *)
Definition ssafe {A} (m : svc A) (Q : A -> World -> Prop) (w : World) : Prop :=
  safe Inv Rel m (fun r w' => forall a, r = Ok a -> Q a w') w.

Lemma ssafe_ret {A} (a : A) Q w : Q a w -> ssafe (mret a) Q w.
Proof. by intros H b [= <-]. Qed.

Lemma ssafe_fail {A} e (Q : A -> World -> Prop) w : ssafe (fail e) Q w.
Proof. by intros b. Qed.

Lemma ssafe_return {A} (r : result serr A) Q w : (forall a, r = Ok a -> Q a w) -> ssafe (return_ r) Q w.
Proof. done. Qed.

Lemma ssafe_bind {A B} (m : svc A) (f : A -> svc B) Q w : ssafe m (fun a w' => ssafe (f a) Q w') w -> ssafe (m ≫= f) Q w.
Proof.
  intros H. unfold ssafe, mbind, svc_bind. apply safe_bind. eapply safe_mono; [apply _| |exact H].
  intros [a|e] w' _ Hr; [by apply Hr|]. cbn. by intros a.
Qed.

Lemma ssafe_rel {A} (m : svc A) (P Q : A -> World -> Prop) w :
  ssafe m P w -> (forall a w', Rel w w' -> P a w' -> Q a w') -> ssafe m Q w.
Proof.
  intros H HQ. eapply safe_mono; [apply _| |exact H]. cbn. intros r w' R HP a ->. by apply HQ; [|apply HP].
Qed.

Lemma ssafe_atomic {A} (t : tx A) Q w :
  (forall d log, Rel w {| w_db := d; w_log := log |} -> DInv d log ->
     hoare t d (fun a d' => adv log d d' /\ Q a {| w_db := d'; w_log := log |})) ->
  ssafe (atomic t) Q w.
Proof.
  intros H [d log] R I. specialize (H d log R I). cbn in *. destruct (t d) as [[a d']|e] eqn:E; cbn.
  - destruct (H a d' E) as [[I' L] HQ]. split_and!; [done|by split|]. by intros b [= <-].
  - split_and!; [done|reflexivity|]. by intros b.
Qed.

Lemma ssafe_frame {A} (t : tx A) Q w :
  frames t -> (forall a w', Rel w w' -> Inv w' -> Q a w') -> ssafe (atomic t) Q w.
Proof.
  intros HF HQ. apply ssafe_atomic. intros d log R I a d' E. pose proof (same_core_adv d d' log I (HF d a d' E)) as HA.
  split; [done|]. apply HQ; [|apply HA]. etrans; [exact R|]. split; [apply HA|reflexivity].
Qed.

Lemma ssafe_read {A} (t : tx A) Q w :
  (forall w', Rel w w' -> Inv w' -> hoare t (w_db w') (fun a d' => d' = w_db w' /\ Q a w')) -> ssafe (atomic t) Q w.
Proof.
  intros H. apply ssafe_atomic. intros d log R I. eapply hoare_mono; [apply (H _ R I)|]. cbn. intros a d' [-> HQ].
  split; [by apply adv_refl|done].
Qed.

(** A transaction as the last step. *)
Lemma ssafe_adv {A} (t : tx A) w :
  (forall w', Rel w w' -> Inv w' -> hoare t (w_db w') (fun _ d' => adv (w_log w') (w_db w') d')) -> ssafe (atomic t) (fun _ _ => True) w.
Proof.
  intros H. apply ssafe_atomic. intros d log R I. eapply hoare_mono; [apply (H _ R I)|]. done.
Qed.

Lemma ssafe_attempt {A} (t : tx A) Q w :
  frames t -> (forall r w', Rel w w' -> Inv w' -> Q r w') -> ssafe (attempt (atomic t)) Q w.
Proof.
  intros HF HQ [d log] R I. cbn. destruct (t d) as [[a d']|e] eqn:E; cbn.
  - pose proof (same_core_adv d d' log I (HF d a d' E)) as [I' L]. split_and!; [done|by split|].
    intros r [= <-]. apply HQ; [|done]. etrans; [exact R|]. by split.
  - split_and!; [done|reflexivity|]. intros r [= <-]. by apply HQ.
Qed.

Definition push w (e : effect) : World := {| w_db := w_db w; w_log := w_log w ++ [e] |}.

Lemma push_Rel w e : Rel w (push w e).
Proof. split; [reflexivity|]. by apply prefix_app_r. Qed.

Lemma ssafe_call {A} e (r : result serr A) Q w :
  (forall w', Rel w w' -> Inv w' -> justified (w_db w') (w_log w') e /\ (forall a, r = Ok a -> Q a (push w' e))) ->
  ssafe (call e r) Q w.
Proof.
  intros H w' R I. destruct (H w' R I) as [Hj HQ]. cbn. split_and!; [by apply DInv_push|apply push_Rel|done].
Qed.

Lemma ssafe_for {A} (l : list A) (body : A -> svc unit) (Q : unit -> World -> Prop) w :
  (forall x w', x ∈ l -> Rel w w' -> ssafe (body x) (fun _ _ => True) w') -> (forall w', Rel w w' -> Q tt w') ->
  ssafe (svc_for l body) Q w.
Proof.
  revert w. induction l as [|x l IH]; intros w Hb HQ; cbn [svc_for]; [apply ssafe_ret, HQ; reflexivity|].
  apply ssafe_bind. eapply ssafe_rel; [apply Hb; [left|reflexivity]|]. intros u w' R _. apply IH.
  - intros y w2 Hy R2. apply Hb; [by right|by etrans].
  - intros w2 R2. apply HQ. by etrans.
Qed.

(** *** Facts that other requests cannot invalidate *)

Definition wknown w reg : Prop := known (w_db w) (w_log w) reg.
Definition wproven w reg : Prop := proven (w_log w) (reg_FQDN reg) (o_Challenges (r_CertOrder reg)).
Definition wrenewal w x : Prop := renewal_known (w_db w) x /\ renewal_backed (w_db w) (w_log w) x.

Lemma wknown_Rel w w' reg : Rel w w' -> wknown w reg -> wknown w' reg.
Proof. intros [L P]. by apply known_mono. Qed.
Lemma wproven_Rel w w' reg : Rel w w' -> wproven w reg -> wproven w' reg.
Proof. intros [L P]. by apply proven_mono. Qed.
Lemma wrenewal_Rel w w' x : Rel w w' -> wrenewal w x -> wrenewal w' x.
Proof. intros [L P] [H1 H2]. split; eauto using renewal_known_mono, renewal_backed_mono. Qed.

Lemma ssafe_find x Q w :
  (forall reg r w', Rel w w' -> Inv w' -> wknown w' reg -> r_AgentID reg = x -> r ∈ t_agents (w_db w') -> from_row reg r -> Q reg w') ->
  ssafe (atomic (FindByAgentID x)) Q w.
Proof.
  intros H. apply ssafe_read. intros w' R I. eapply hoare_mono; [apply (FindByAgentID_hoare _ _ x (proj1 I))|].
  cbn. intros reg d' (-> & Hk & Hx & r & Hr & _ & Hf). split; [done|]. by eapply H.
Qed.

(** The fields that matter. *)
Definition same_reg (reg reg' : AgentRegistration) : Prop :=
  r_ID reg' = r_ID reg /\ r_AgentID reg' = r_AgentID reg /\ r_OwnerID reg' = r_OwnerID reg /\ r_AnsName reg' = r_AnsName reg /\
  r_CertOrder reg' = r_CertOrder reg.

Lemma known_same d log reg reg' : same_reg reg reg' -> known d log reg -> known d log reg'.
Proof.
  intros (E1 & E2 & E3 & E4 & E5) [(r & Hr & [? ? ? ? ? ?]) Hb]. unfold reg_FQDN in *. split.
  - exists r. split; [done|]. split; unfold reg_FQDN; congruence.
  - unfold backed, reg_FQDN in *. by rewrite E4, E5.
Qed.

Lemma wknown_same w reg reg' : same_reg reg reg' -> wknown w reg -> wknown w reg'.
Proof. apply known_same. Qed.

Lemma wproven_same w reg reg' : same_reg reg reg' -> wproven w reg -> wproven w reg'.
Proof. intros (_ & _ & _ & E4 & E5). unfold wproven, reg_FQDN. by rewrite E4, E5. Qed.

(** A row whose status needs a proof has one. *)
Lemma row_wproven w reg r :
  Inv w -> r ∈ t_agents (w_db w) -> from_row reg r -> proven_status (r_Status reg) = true -> wproven w reg.
Proof.
  intros [HB _] Hr [Hm Hs Ho] Hp. unfold wproven. rewrite (m_host _ _ Hm), (m_chs _ _ Hm).
  apply (ri_proof _ _ (Base_row _ _ _ HB Hr)). unfold needs_proof. rewrite <- Hs. by rewrite Hp.
Qed.

End Rules.

(** Moves the facts about an earlier world to a later one. *)
Ltac up R :=
  match type of R with Rel ?w ?w' =>
    repeat match goal with
    | H : wknown w _ |- _ => apply (wknown_Rel _ _ _ R) in H
    | H : wproven w _ |- _ => apply (wproven_Rel _ _ _ R) in H
    | H : wrenewal w _ |- _ => apply (wrenewal_Rel _ _ _ R) in H
    end
  end.

(** ** The methods *)

Section Methods.
Context `{U : UnicodeTables, UL : !UnicodeLaws U} `{X : PemX509} `{C : Canonicalizer} (P : Ports).
Implicit Types (w : World) (reg : AgentRegistration).

Lemma ssafe_read_only {A} (t : tx A) (Q : A -> World -> Prop) w :
  frames t -> (forall a w', Rel w w' -> Q a w') -> ssafe (atomic t) Q w.
Proof. intros HF HQ. apply ssafe_frame; [done|]. auto. Qed.

(** *** Registration *)

Lemma host_check_safe h o x (Q : bool -> World -> Prop) w :
  (forall b w', Rel w w' -> Q b w') -> ssafe (hostHeldByAnotherOwner h o x) Q w.
Proof.
  intros HQ. apply ssafe_bind. apply ssafe_read_only; [auto with frames|]. intros regs w' R. by apply ssafe_ret, HQ.
Qed.

Lemma ensureHost_safe reg (Q : unit -> World -> Prop) w :
  (forall w', Rel w w' -> Q tt w') -> ssafe (ensureHostNotTakenByOther reg) Q w.
Proof.
  intros HQ. apply ssafe_bind, host_check_safe. intros [] w' R; [apply ssafe_fail|by apply ssafe_ret, HQ].
Qed.

Lemma preflight_safe n o (Q : unit -> World -> Prop) w :
  (forall w', Rel w w' -> Q tt w') -> ssafe (preflightRegistrationConflicts n o) Q w.
Proof.
  intros HQ. apply ssafe_bind. apply ssafe_read_only; [apply frames_reads|]. intros [] w1 R1; [apply ssafe_fail|].
  apply ssafe_bind, host_check_safe. intros [] w2 R2; [apply ssafe_fail|]. apply ssafe_ret, HQ. by etrans.
Qed.

Lemma createServerOrder_safe ca o f (Q : result provider_error (option CertificateOrder) -> World -> Prop) w :
  (forall r w', Rel w w' -> Q r w') -> ssafe (createServerOrder ca o f) Q w.
Proof.
  intros HQ. apply ssafe_call. intros w' R _. split; [done|]. intros a [= <-]. apply HQ. etrans; [exact R|apply push_Rel].
Qed.

Lemma orderWithOwnerProof_unverified tokens created deadline o :
  orderWithOwnerProof tokens created deadline = Ok o -> o_VerifiedChallenge o = "".
Proof.
  unfold orderWithOwnerProof. destruct created as [c|]; [|done]. destruct (negb (order_in_progress c)); [done|].
  cbn zeta. destruct (Time_IsZero _ || _); cbn;
    (destruct (o_Challenges c); [destruct tokens as [[? ?]|]; cbn; [|done]|]; by intros [= <-]).
Qed.

Lemma resolveServerCertInput_safe req now (Q : option ByocServerCertificate * option AgentCSR * CertificateOrder -> World -> Prop) w :
  (forall b c o w', Rel w w' -> o_VerifiedChallenge o = "" -> Q (b, c, o) w') -> ssafe (resolveServerCertInput P req now) Q w.
Proof.
  intros HQ. unfold resolveServerCertInput. case_if; [apply ssafe_fail|]. case_if.
  - case_match; [|apply ssafe_fail]. case_match; [|apply ssafe_fail]. case_match. apply ssafe_ret, HQ; [reflexivity|done].
  - case_match; [|apply ssafe_fail]. case_if; [apply ssafe_fail|]. apply ssafe_bind, createServerOrder_safe. intros r w' R.
    destruct r as [created|e]; [|apply ssafe_fail]. destruct (orderWithOwnerProof _ _ _) as [o|] eqn:E; [|apply ssafe_fail].
    apply ssafe_ret, HQ; [done|]. by eapply orderWithOwnerProof_unverified.
Qed.

Lemma NewRegistration_fields agentID ownerID n dn ds eps cert csr now reg :
  NewRegistration agentID ownerID n dn ds eps cert csr now = Ok reg ->
  r_ID reg = 0 /\ r_AnsName reg = n /\ r_Status reg = StatusPendingValidation.
Proof.
  unfold NewRegistration. repeat (case_if; [done|]). rewrite bind_Ok. intros (u & _ & H). case_if_in H; [done|]. by injection H as <-.
Qed.

Lemma applyDiscoveryProfiles_fields reg req reg' :
  applyDiscoveryProfiles reg req = Ok reg' -> exists ps, reg' = with_profiles reg ps.
Proof.
  unfold applyDiscoveryProfiles. case_if; [intros [= <-]; eauto|]. case_match; [intros [= <-]; eauto|].
  rewrite bind_Ok. intros (ps & _ & [= <-]). eauto.
Qed.

Lemma dom_Ok {A} (r : result Error A) a : dom r = Ok a <-> r = Ok a.
Proof. destruct r; cbn; split; congruence. Qed.

Lemma RegisterAgent_safe req w : ansname_wf (rq_AnsName req) -> ssafe (RegisterAgent P req) (fun _ _ => True) w.
Proof.
  intros Hwf. unfold RegisterAgent. apply ssafe_bind, preflight_safe. intros w1 R1.
  assert (HC : forall (Q : option AgentCSR -> World -> Prop), (forall c, Q c w1) -> ssafe
    (if String.eqb (rq_IdentityCSRPEM req) "" then mret None else
     if negb (p_ValidateIdentityCSR P (rq_IdentityCSRPEM req) (AnsName_String (rq_AnsName req)))
     then domErr (NewValidationError "INVALID_IDENTITY_CSR")
     else mret (Some (NewIdentityCSR (p_csrID P) (rq_IdentityCSRPEM req) (p_clock P)))) Q w1).
  { intros Q HQ. repeat case_if; [apply ssafe_ret, HQ|apply ssafe_fail|apply ssafe_ret, HQ]. }
  apply ssafe_bind, HC. intros csr. apply ssafe_bind, resolveServerCertInput_safe. intros byoc scsr o w2 R2 Ho.
  apply ssafe_bind, ssafe_return. intros reg (Hid & Hn & Hs)%dom_Ok%NewRegistration_fields.
  apply ssafe_bind, ssafe_return. intros reg' (ps & ->)%applyDiscoveryProfiles_fields.
  apply ssafe_bind. eapply ssafe_rel.
  - apply ssafe_adv. intros w3 R3 I3. unfold save_registration. apply hoare_bind.
    eapply hoare_mono; [apply (Insert_adv _ (w_log w3)); [exact I3|done|by cbn; rewrite Hn|done|done]|].
    intros reg1 d1 [I' L]. eapply (hoare_mono _ _ (fun _ d' => same_core d1 d')).
    + intros a d'. match goal with |- ?t d1 = _ -> _ => assert (HF : frames t) by eauto 20 with frames end. apply HF.
    + intros _ d2 HC2. eapply adv_trans; [exact L|]. by apply same_core_adv.
  - intros reg1 w3 R3 _. destruct (ClearEvents reg1) as [reg2 events]. apply ssafe_bind, ssafe_for.
    + intros ev w4 _ R4. by apply ssafe_call.
    + intros w4 R4. by apply ssafe_ret.
Qed.

(** *** Domain control *)

Lemma artifact_safe fqdn ch (Q : result serr bool -> World -> Prop) w :
  (forall r w', Rel w w' -> (r = Ok true -> EProbe fqdn ch true ∈ w_log w') -> Q r w') -> ssafe (verifyChallengeArtifact P fqdn ch) Q w.
Proof.
  intros HQ. assert (HC : forall answer : result serr bool,
    ssafe (call (EProbe fqdn ch (match answer with Ok b => b | Err _ => false end)) (Ok answer)) Q w).
  { intros answer. apply ssafe_call. intros w' R _. split; [done|]. intros a [= <-].
    apply HQ; [etrans; [exact R|apply push_Rel]|]. intros ->. cbn. set_solver. }
  unfold verifyChallengeArtifact. repeat case_if; [| |apply ssafe_ret, HQ; [reflexivity|done]].
  - destruct (p_dnsVerifier P); [apply HC|apply ssafe_ret, HQ; [reflexivity|done]].
  - destruct (p_httpChallenge P); [apply HC|apply ssafe_ret, HQ; [reflexivity|done]].
Qed.

Lemma challenge_loop_safe fqdn chs fe (Q : list ChallengeType * option serr -> World -> Prop) w :
  (forall v e w', Rel w w' -> (v <> [] -> proven (w_log w') fqdn chs) -> Q (v, e) w') -> ssafe (challenge_loop P fqdn chs fe) Q w.
Proof.
  revert fe w. induction chs as [|ch chs IH]; intros fe w HQ; cbn [challenge_loop]; [apply ssafe_ret, HQ; [reflexivity|done]|].
  apply ssafe_bind, artifact_safe. intros r w' R Hr.
  assert (HI : forall fe', ssafe (challenge_loop P fqdn chs fe') Q w').
  { intros fe'. apply IH. intros v e w2 R2 Hv. apply HQ; [by etrans|]. intros (c & Hc & He)%Hv. exists c. split; [by right|done]. }
  destruct r as [[]|e]; [|apply HI..]. apply ssafe_ret, HQ; [done|]. intros _. exists ch. split; [by left|by apply Hr].
Qed.

Lemma verifyChallengeArtifacts_safe fqdn chs (Q : list ChallengeType * option serr -> World -> Prop) w :
  (forall v e w', Rel w w' -> (v <> [] -> proven (w_log w') fqdn chs) -> Q (v, e) w') -> ssafe (verifyChallengeArtifacts P fqdn chs) Q w.
Proof.
  intros HQ. unfold verifyChallengeArtifacts. destruct chs as [|ch chs]; [apply ssafe_ret, HQ; [reflexivity|done]|].
  destruct (p_dnsVerifier P), (p_httpChallenge P); try (by apply challenge_loop_safe). apply ssafe_ret, HQ; [reflexivity|done].
Qed.

(** What the challenge gate establishes. *)
Definition gated w reg : Prop := wknown w reg /\ wproven w reg /\ r_Status reg = StatusPendingValidation.

Lemma gated_Rel w w' reg : Rel w w' -> gated w reg -> gated w' reg.
Proof. intros R (H1 & H2 & H3). up R. done. Qed.

Lemma gated_same w reg reg' : same_reg reg reg' -> r_Status reg' = r_Status reg -> gated w reg -> gated w reg'.
Proof. intros E Es (H1 & H2 & H3). split_and!; [by eapply known_same|by eapply wproven_same|congruence]. Qed.

(** Changing the order's state, and recording a verified challenge once it is. *)
Lemma gated_order w reg o :
  gated w reg -> o_Challenges o = o_Challenges (r_CertOrder reg) -> gated w (upd_order reg o).
Proof.
  intros ([(r & Hr & Hm) _] & H2 & H3) Hc. split_and!; [|unfold wproven; cbn; by rewrite Hc|done].
  split; [exists r; split; [done|]; destruct Hm as [? ? ? ? ? Hmc]; split; [done..|]; by rewrite <- Hmc|]. intros _. cbn. by rewrite Hc.
Qed.

Lemma gate_safe reg now (Q : list ChallengeType * AgentRegistration -> World -> Prop) w :
  wknown w reg -> r_Status reg = StatusPendingValidation ->
  (forall v reg' w', Rel w w' -> r_AgentID reg' = r_AgentID reg -> gated w' reg' -> Q (v, reg') w') -> ssafe (gateOrderChallenges P reg now) Q w.
Proof.
  intros Hk Hst HQ. unfold gateOrderChallenges. do 2 (case_if; [apply ssafe_fail|]). case_if.
  - apply ssafe_ret, HQ; [reflexivity|done|]. split_and!; [done| |done]. b2p. by apply Hk.
  - do 3 (case_if; [apply ssafe_fail|]). apply ssafe_bind, verifyChallengeArtifacts_safe. intros v e w' R Hv. up R.
    destruct v as [|t v]; [destruct e; apply ssafe_fail|]. apply ssafe_ret, HQ; [done|done|]. apply gated_order; [|done].
    split_and!; [done|by apply Hv|done].
Qed.

(** *** Issuance *)

Lemma gated_savable w reg : gated w reg -> savable (w_db w) (w_log w) reg.
Proof. intros (H1 & H2 & H3). by apply known_savable. Qed.

Lemma MarkIssuing_chs o o' : MarkIssuing o = Ok o' -> o_Challenges o' = o_Challenges o.
Proof. unfold MarkIssuing. repeat case_if; [by intros [= <-]|done|by intros [= <-]]. Qed.
Lemma MarkFailed_chs o o' : Order_MarkFailed o = Ok o' -> o_Challenges o' = o_Challenges o.
Proof. unfold Order_MarkFailed. case_if; [done|]. by intros [= <-]. Qed.
Lemma MarkCompleted_chs o o' : Order_MarkCompleted o = Ok o' -> o_Challenges o' = o_Challenges o.
Proof. unfold Order_MarkCompleted. case_if; [done|]. by intros [= <-]. Qed.

Lemma save_gated_safe reg w : gated w reg -> ssafe (atomic (AgentStore_Save reg)) (fun _ _ => True) w.
Proof.
  intros HG. apply ssafe_adv. intros w' R I. apply (gated_Rel _ _ _ R) in HG. eapply hoare_mono.
  - apply (Save_adv _ (w_log w')); [done|by apply gated_savable|]. destruct HG as (_ & _ & ->). done.
  - by intros ? ? [_ ?].
Qed.

Definition order_outcome w (reg : AgentRegistration) (o : serverOrderOutcome) : Prop :=
  match o with OrderPendingOutcome reg' => gated w reg' | OrderIssued _ _ => True end.

Lemma finalizeServerOrder_safe reg csr v now (Q : serverOrderOutcome -> World -> Prop) w :
  gated w reg -> (forall o w', Rel w w' -> order_outcome w' reg o -> Q o w') -> ssafe (finalizeServerOrder P reg csr v now) Q w.
Proof.
  intros HG HQ. unfold finalizeServerOrder. destruct (p_serverCA P) as [ca|]; [|apply ssafe_fail].
  apply ssafe_bind, ssafe_call. intros w1 R1 I1. apply (gated_Rel _ _ _ R1) in HG. split.
  { destruct HG as ([(r & Hr & Hm) _] & (ch & _ & Hp) & _). exists r, ch. split_and!; [done|by rewrite (m_owner _ _ Hm)|by rewrite (m_host _ _ Hm)|done]. }
  intros r [= <-]. set (w2 := push w1 _). assert (R2 : Rel w1 w2) by apply push_Rel. apply (gated_Rel _ _ _ R2) in HG.
  assert (R : Rel w w2) by by etrans. destruct (FinalizeOrder ca _ _ _ _ _) as [issued|[]]; try apply ssafe_fail.
  - destruct (p_ValidateServerCertificate P _ _ _); [|apply ssafe_fail]. apply ssafe_bind, ssafe_return. intros s _. by apply ssafe_ret, HQ.
  - apply ssafe_bind, ssafe_return. intros o Ho%dom_Ok%MarkIssuing_chs. apply ssafe_ret, HQ; [done|]. by apply gated_order.
  - apply ssafe_bind, ssafe_return. intros o Ho%dom_Ok%MarkFailed_chs. apply ssafe_bind.
    eapply ssafe_rel; [by apply save_gated_safe, gated_order|]. intros. apply ssafe_fail.
Qed.

Lemma signIdentityCSR_safe reg csr now (Q : AgentCSR * StoredCertificate -> World -> Prop) w :
  wknown w reg -> wproven w reg -> (forall s w', Rel w w' -> Q s w') -> ssafe (signIdentityCSR P reg csr now) Q w.
Proof.
  intros Hk Hp HQ. unfold signIdentityCSR. apply ssafe_bind, ssafe_call. intros w1 R1 I1. up R1. split.
  { destruct Hk as [(r & Hr & Hm) _]. exists r. split_and!; [done|by rewrite (m_name _ _ Hm)|].
    rewrite <- (m_host _ _ Hm), <- (m_chs _ _ Hm). done. }
  intros issued _. apply ssafe_bind, ssafe_return. intros s _. apply ssafe_ret, HQ. etrans; [exact R1|apply push_Rel].
Qed.

Lemma save_validated_adv d log reg s i :
  DInv d log -> savable d log reg -> holdsHostExclusivity (r_Status reg) = false ->
  hoare (save_validated reg s i) d (fun _ d' => adv log d d').
Proof.
  intros HI HS Hn. unfold save_validated.
  assert (F1 : frames (tx_opt s (fun s => SaveCSR (r_AgentID reg) s.1 ≫= fun _ => SaveIdentityCertificate (r_AgentID reg) s.2))) by eauto with frames.
  assert (F2 : frames (tx_opt i (fun s => ByocStore_Save (r_AgentID reg) s.1 ≫= fun _ => SaveCSR (r_AgentID reg) s.2))) by eauto with frames.
  apply hoare_bind. intros u1 d1 E1%F1. apply hoare_bind. intros u2 d2 E2%F2.
  assert (HC : same_core d d2) by by etrans. destruct (same_core_adv d d2 log HI HC) as [I2 L2].
  eapply hoare_mono; [apply (Save_adv d2 log reg I2)|].
  - destruct HS as (r & Hr & ?). exists r. destruct HC as (-> & _). done.
  - congruence.
  - intros _ d3 [_ HA]. by eapply adv_trans.
Qed.

Lemma VerifyACME_safe agentID w : ssafe (VerifyACME P agentID) (fun _ _ => True) w.
Proof.
  unfold VerifyACME. apply ssafe_bind, ssafe_find. intros reg r w1 _ I1 Hk _ _ _.
  apply ssafe_bind, ensureHost_safe. intros w2 R2. up R2. case_if; [by apply ssafe_ret|]. b2p.
  apply ssafe_bind, ssafe_read_only; [auto with frames|]. intros eps w3 R3. up R3.
  apply ssafe_bind, gate_safe; [by eapply known_same, Hk|done|]. intros v reg' w4 R4 _ HG.
  clear dependent reg. rename reg' into reg.
  apply ssafe_bind, ssafe_read_only; [auto with frames|]. intros csr w5 R5. apply (gated_Rel _ _ _ R5) in HG.
  apply ssafe_bind. eapply (ssafe_rel _ (fun o w' => match o with Some o => order_outcome w' reg o | None => True end)).
  { destruct csr as [csr|]; [|by apply ssafe_ret]. case_if; [by apply ssafe_ret|]. apply ssafe_bind, finalizeServerOrder_safe; [done|].
    intros o w' R Ho. by apply ssafe_ret. }
  intros o w6 R6 Ho. apply (gated_Rel _ _ _ R6) in HG.
  assert (Hrest : forall reg issued, gated w6 reg -> ssafe (
      identityCSR ← atomic (FindLatestPendingCSRByType agentID CSRTypeIdentity);
      signedID ← (match identityCSR with
                  | Some csr => s ← signIdentityCSR P reg csr (p_clock P); mret (Some s)
                  | None => mret None
                  end);
      let reg := match signedID with Some s => upd_csrs reg (Some s.1) (r_ServerCSR reg) | None => reg end in
      order ← (if CertificateOrder_IsZero (r_CertOrder reg) then mret (r_CertOrder reg)
               else return_ (dom (Order_MarkCompleted (r_CertOrder reg))));
      reg ← return_ (dom (AdvanceToPendingDNS (upd_order reg order)));
      reg ← atomic (save_validated reg signedID issued);
      mret (reg, false)) (fun _ _ => True) w6).
  { clear. intros reg issued HG. apply ssafe_bind, ssafe_read_only; [auto with frames|]. intros csr w1 R1. apply (gated_Rel _ _ _ R1) in HG.
    apply ssafe_bind. eapply (ssafe_rel _ (fun _ _ => True)).
    { destruct csr; [|by apply ssafe_ret]. apply ssafe_bind, signIdentityCSR_safe; [apply HG..|]. intros. by apply ssafe_ret. }
    intros s w2 R2 _. apply (gated_Rel _ _ _ R2) in HG. set (reg1 := match s with Some _ => _ | None => _ end).
    assert (HG1 : gated w2 reg1) by (destruct s; [by eapply gated_same, HG|done]). clearbody reg1. clear HG. cbn zeta.
    apply ssafe_bind. eapply (ssafe_rel _ (fun o _ => o_Challenges o = o_Challenges (r_CertOrder reg1))).
    { case_if; [by apply ssafe_ret|]. apply ssafe_return. by intros o ?%dom_Ok%MarkCompleted_chs. }
    intros o w3 R3 Ho. apply (gated_Rel _ _ _ R3) in HG1. apply ssafe_bind, ssafe_return. intros reg2 H2%dom_Ok.
    apply (transitionTo_Ok (upd_order reg1 o) StatusPendingDNS) in H2 as [_ ->]. apply ssafe_bind. eapply ssafe_rel; [|intros; by apply ssafe_ret].
    apply ssafe_adv. intros w4 R4 I4. apply (gated_order _ _ o) in HG1; [|done]. apply (gated_Rel _ _ _ R4) in HG1.
    apply save_validated_adv; [done| |done]. destruct HG1 as (Hk & Hp & _). apply known_savable; [by eapply known_same, Hk|done]. }
  destruct o as [[reg'|cert csr']|]; [|apply Hrest; by eapply gated_same, HG|by apply Hrest].
  apply ssafe_bind. eapply ssafe_rel; [by apply save_gated_safe|]. intros. by apply ssafe_ret.
Qed.

(** *** Certificates at the authority *)

Lemma revokeIdentityCertsAtCA_safe certs reason (Q : unit -> World -> Prop) w :
  (forall w', Rel w w' -> Q tt w') -> ssafe (revokeIdentityCertsAtCA P certs reason) Q w.
Proof.
  intros HQ. apply ssafe_for; [|done]. intros c w' _ R. case_if; [by apply ssafe_ret|]. apply ssafe_bind.
  eapply (ssafe_rel _ (fun _ _ => True)); [|intros; by apply ssafe_call].
  case_if; [by apply ssafe_ret|]. case_match; [by apply ssafe_ret|apply ssafe_fail].
Qed.

Lemma frames_revoke_rows certs : frames (revoke_rows certs).
Proof. apply frames_for. intros c. case_if; eauto with frames. Qed.

Lemma frames_loadServerCert x : frames (loadServerCert P x).
Proof.
  intros d a d'. unfold loadServerCert. destruct (FindLatestValidByAgentID x (p_now P) d) as [[c d1]|e] eqn:E.
  - intros [= <- <-]. by eapply frames_FindLatestValidByAgentID.
  - case_if; [|done]. by intros [= <- <-].
Qed.
#[local] Hint Resolve frames_revoke_rows frames_loadServerCert : frames.

(** *** Activation *)

(** Nothing became live, and rows kept their identity. *)
Definition passive (d d' : DB) : Prop :=
  forall r', r' ∈ t_agents d' -> live r' = true -> exists r, r ∈ t_agents d /\ ident r = ident r' /\ live r = true.

Lemma passive_trans d1 d2 d3 : passive d1 d2 -> passive d2 d3 -> passive d1 d3.
Proof.
  intros H1 H2 r3 Hr3 L3. destruct (H2 r3 Hr3 L3) as (r2 & Hr2 & E2 & L2). destruct (H1 r2 Hr2 L2) as (r1 & Hr1 & E1 & L1).
  exists r1. split_and!; [done|congruence|done].
Qed.

Lemma passive_same d d' : same_core d d' -> passive d d'.
Proof. intros (E & _) r. rewrite E. eauto. Qed.

Lemma passive_save d reg seq :
  holdsHostExclusivity (r_Status reg) = false -> passive d (set_agents d (save_fun reg <$> t_agents d) seq).
Proof.
  intros Hn r' (r & -> & Hr)%list_elem_of_fmap. unfold save_fun. case_match; [|by eauto].
  change (live (set_cols r _)) with (holdsHostExclusivity (r_Status reg)). congruence.
Qed.

Lemma settle_rival_hoare d log reg x :
  DInv d log -> known d log x ->
  hoare (settle_rival reg x) d (fun _ d' => (adv log d d' /\ passive d d') /\
    (r_AgentID x = r_AgentID reg \/ r_OwnerID x = r_OwnerID reg \/ holdsHostExclusivity (r_Status x) = false)).
Proof.
  intros HI Hk. pose proof (adv_refl log d HI) as HA. assert (HP : passive d d) by by apply passive_same.
  unfold settle_rival. case_if.
  { apply hoare_ret. split; [done|]. apply orb_true_iff in Heqb as [?|?]; b2p; auto. }
  destruct (holdsHostExclusivity (r_Status x)) eqn:Ex; [apply hoare_throw|]. case_if; [apply hoare_ret; auto|].
  apply hoare_bind, hoare_lift. intros x' Hx%dom_Ok. unfold CancelForHostConflict in Hx. case_if_in Hx; [done|]. injection Hx as <-.
  apply hoare_bind. pose proof HI as [HB HS]. eapply hoare_mono; [eapply (Save_hoare d log _ None HB HS)|].
  - apply known_savable; [by eapply known_same, Hk|done].
  - done.
  - intros x' d1 (_ & -> & B1 & S1 & L1). set (d1 := set_agents d _ _) in *.
    assert (HP1 : passive d d1) by by apply passive_save.
    match goal with |- hoare ?t _ _ => assert (HF : frames t) by eauto with frames end.
    intros u d2 E%HF. split; [|auto]. split; [|eapply passive_trans; [done|by apply passive_same]].
    eapply adv_trans; [exact L1|]. apply same_core_adv; [by split|done].
Qed.

Lemma Sealed_weaken d log ex : Sealed d log None -> Sealed d log ex.
Proof. intros H r Hr Hl _. by apply H. Qed.

Lemma commitActivation_adv d log reg sealed :
  DInv d log -> known d log reg -> r_Status reg = StatusActive ->
  ESeal (r_AgentID reg) (sa_SchemaVersion sealed) (sa_Payload sealed) (Some (sa_LogID sealed)) ∈ log ->
  hoare (commitActivation P reg sealed) d (fun _ d' => adv log d d').
Proof.
  intros HI Hk Hst He. pose proof HI as [HB HS]. unfold commitActivation.
  apply hoare_bind. eapply hoare_mono; [apply (FindByAgentID_hoare d log _ HB)|].
  intros current d0 (-> & _ & _ & r0 & Hr0 & Ha0 & [Hm0 Hs0 _]). case_if; [apply hoare_throw|]. b2p.
  apply hoare_bind. eapply hoare_mono; [apply (FindAllByAgentHost_hoare d log _ HB)|]. intros rows d0 (-> & Hrows & Hall).
  apply hoare_bind. eapply hoare_mono;
    [apply (hoare_for rows (settle_rival reg) (fun d' => adv log d d' /\ passive d d')
       (fun x => r_AgentID x = r_AgentID reg \/ r_OwnerID x = r_OwnerID reg \/ holdsHostExclusivity (r_Status x) = false))|].
  { intros x d1 Hx [[I1 L1] P1]. eapply hoare_mono; [apply (settle_rival_hoare d1 log reg x I1)|].
    - eapply known_mono; [exact L1|reflexivity|]. by apply Hrows.
    - intros _ d2 [[A2 P2] F2]. split; [split|done]; [by eapply adv_trans|by eapply passive_trans]. }
  { split; [by apply adv_refl|by apply passive_same]. }
  intros _ d1 [[[I1 L1] P1] HF]. pose proof I1 as [B1 S1].
  destruct Hk as [(r & Hr & Hm) Hb].
  assert (r0 = r) as ->.
  { eapply NoDup_key; [apply (b_agent_ids _ _ HB)|done|done|]. by rewrite Ha0, (m_agent _ _ Hm). }
  assert (Hp : proven log (reg_FQDN reg) (o_Challenges (r_CertOrder reg))).
  { rewrite (m_host _ _ Hm), (m_chs _ _ Hm). apply (ri_proof _ _ (Base_row _ _ _ HB Hr)). unfold needs_proof.
    rewrite <- Hs0. by rewrite Heqb. }
  apply hoare_bind. eapply hoare_mono; [eapply (Save_hoare d1 log reg (Some (r_AgentID reg)) B1 (Sealed_weaken _ _ _ S1))|].
  - apply known_savable; [|done]. eapply known_mono; [exact L1|reflexivity|]. split; eauto.
  - intros _. right. split; [|done]. intros r2' Hr2' L2 E2. destruct (P1 r2' Hr2' L2) as (r2 & Hr2 & Ei & Lv).
    injection Ei as _ Ea2 Eo2 _ Eh2. destruct (Hall r2 Hr2 ltac:(congruence)) as (x & Hx & [Hmx Hsx _]). rewrite <- Eo2.
    destruct (HF x Hx) as [H|[H|H]].
    + rewrite (m_owner _ _ Hm). f_equal. eapply NoDup_key; [apply (b_agent_ids _ _ HB)|done|done|].
      by rewrite <- (m_agent _ _ Hmx), <- (m_agent _ _ Hm).
    + by rewrite <- H, (m_owner _ _ Hmx).
    + rewrite Hsx in H. unfold live in Lv. congruence.
  - intros _ d2 (_ & _ & B2 & S2 & L2). apply hoare_bind.
    eapply hoare_mono; [apply (RecordSealed_adv d2 log _ _ _ _ _ B2 S2 He)|]. cbn beta. intros ? d3 HA. apply hoare_ret.
    eapply adv_trans; [exact L1|]. by eapply adv_trans.
Qed.

Definition sealed_in w reg (s : sealedActivation) : Prop :=
  ESeal (r_AgentID reg) (sa_SchemaVersion s) (sa_Payload s) (Some (sa_LogID s)) ∈ w_log w.

(** The evidence stored for an agent never changes. *)
Definition stored_seal w (x : string) (v : string * payload) : Prop := t_seals (w_db w) !! x = Some v.

Lemma stored_seal_Rel w w' x v : Rel w w' -> stored_seal w x v -> stored_seal w' x v.
Proof. intros [L _] H. eapply lookup_weaken; [exact H|apply L]. Qed.

Lemma load_seal_safe x w : ssafe (atomic (LoadActivationSeal x)) (fun s w' => forall v, s = Some v -> stored_seal w' x v) w.
Proof. apply ssafe_read. intros w' _ _ s d' [= <- <-]. done. Qed.

Lemma sealActivationEvent_safe reg attested per ver now (Q : sealedActivation -> World -> Prop) w :
  (forall s w', Rel w w' -> sealed_in w' reg s -> Q s w') -> ssafe (sealActivationEvent P reg attested per ver now) Q w.
Proof.
  intros HQ. unfold sealActivationEvent. destruct (p_agentSealer P) as [seal|]; [|apply ssafe_fail]. case_if; [apply ssafe_fail|].
  apply ssafe_bind. eapply (ssafe_rel _ (fun s w' => forall v, s = Some v -> stored_seal w' (r_AgentID reg) v)); [apply load_seal_safe|].
  intros loaded w1 R1 Hl. apply ssafe_bind. eapply (ssafe_rel _ (fun v w' => v.1 = "" \/ stored_seal w' (r_AgentID reg) v)).
  { destruct loaded; [apply ssafe_ret; by eauto|]. unfold prepareActivation.
    do 2 (apply ssafe_bind, ssafe_read_only; [auto with frames|]; intros ? ? _).
    do 2 (apply ssafe_bind, ssafe_return; intros ? _).
    apply ssafe_bind, ssafe_read_only; [auto with frames|]. intros ? ? _.
    apply ssafe_bind. eapply ssafe_rel; [apply load_seal_safe|]. intros [v|] ? _ Hv; apply ssafe_ret; [by right; apply Hv|by left]. }
  intros [lane payload] w2 R2 Hst. case_if; [apply ssafe_fail|]. destruct (payload_evidence payload) as [[e sig]|]; [|apply ssafe_fail].
  apply ssafe_bind, ssafe_call. intros w3 R3 _. split.
  { destruct Hst as [Hst|Hst]; [|exact (stored_seal_Rel _ _ _ _ R3 Hst)]. cbn in Hst. subst lane. b2p.
    unfold requestedLane in *. by case_if_in Heqb0. } intros logID E. apply ssafe_ret, HQ.
  - etrans; [exact R1|]. etrans; [exact R2|]. etrans; [exact R3|apply push_Rel].
  - unfold sealed_in. cbn. rewrite E. set_solver.
Qed.

Lemma VerifyDNS_safe agentID ver w : ssafe (VerifyDNS P agentID ver) (fun _ _ => True) w.
Proof.
  unfold VerifyDNS. apply ssafe_bind, ssafe_find. intros reg r w1 _ _ Hk _ _ _.
  apply ssafe_bind, ensureHost_safe. intros w2 R2. up R2. case_if; [by apply ssafe_ret|]. case_if; [apply ssafe_fail|]. b2p.
  apply ssafe_bind, ssafe_read_only; [auto with frames|]. intros eps w3 R3. up R3.
  apply ssafe_bind, ssafe_read_only; [auto with frames|]. intros byoc w4 R4. up R4.
  set (reg1 := match byoc with Some _ => _ | None => _ end). assert (Hk1 : wknown w4 reg1) by (unfold reg1; destruct byoc; by eapply known_same, Hk).
  clearbody reg1. cbn zeta. destruct (verifyDNSRecords _ _ _) as [[[|m ms] per]|]; [|by apply ssafe_ret|apply ssafe_fail].
  apply ssafe_bind, ssafe_return. intros reg2 H2%dom_Ok. unfold Activate in H2. case_if_in H2; [done|]. injection H2 as <-.
  match goal with |- context [sealActivationEvent P ?r] => set (reg2 := r) end.
  assert (Hk2 : wknown w4 reg2) by by eapply known_same, Hk1.
  apply ssafe_bind, sealActivationEvent_safe. intros s w5 R5 Hs. up R5.
  apply ssafe_bind. eapply (ssafe_rel _ (fun _ _ => True)).
  { apply ssafe_bind, ssafe_read_only; [auto with frames|]. intros regs w6 R6. apply ssafe_for; [|done]. intros x w7 _ _.
    case_if; [by apply ssafe_ret|]. apply ssafe_bind, ssafe_read_only; [auto with frames|]. intros. by apply revokeIdentityCertsAtCA_safe. }
  intros _ w6 R6 _. up R6. assert (Hs6 : sealed_in w6 reg2 s) by (destruct R6 as [_ [k Ek]]; unfold sealed_in; rewrite Ek; set_solver).
  apply ssafe_bind. eapply ssafe_rel; [|intros; by apply ssafe_ret]. apply ssafe_adv. intros w7 R7 I7. up R7.
  apply commitActivation_adv; [done|done|done|]. destruct R7 as [_ [k Ek]]. rewrite Ek. unfold sealed_in in Hs6. set_solver.
Qed.

(** *** Certificate requests *)

Lemma observeRenewalDNS_safe reg (Q : AgentRegistration * (list ExpectedDNSRecord * option (list RecordVerification)) -> World -> Prop) w :
  (forall reg' ev w', Rel w w' -> same_reg reg reg' -> r_Status reg' = r_Status reg -> Q (reg', ev) w') ->
  ssafe (observeRenewalDNS P reg) Q w.
Proof.
  intros HQ. unfold observeRenewalDNS. apply ssafe_bind, ssafe_read_only; [auto with frames|]. intros eps w1 R1.
  apply ssafe_bind, ssafe_read_only; [auto with frames|]. intros cert w2 R2. assert (R : Rel w w2) by by etrans.
  destruct (p_dnsVerifier P) as [verify|]; [|by apply ssafe_ret, HQ]. destruct (verify _ _) as [[res|]|]; by apply ssafe_ret, HQ.
Qed.

Lemma enqueueTLEvent_adv d log tag reg e now : DInv d log -> hoare (enqueueTLEvent P tag reg e now) d (fun _ d' => adv log d d').
Proof.
  intros HI. unfold enqueueTLEvent. case_if; [by apply hoare_ret, adv_refl|]. apply hoare_bind, hoare_lift. intros p _.
  apply hoare_bind. eapply hoare_mono; [by apply Enqueue_adv|]. cbn beta. intros ? d' HA. by apply hoare_ret.
Qed.

Lemma enqueueCertificateRenewal_adv d log reg ev ver : DInv d log -> hoare (enqueueCertificateRenewal P reg ev ver) d (fun _ d' => adv log d d').
Proof.
  intros HI. unfold enqueueCertificateRenewal. case_if; [apply hoare_throw|].
  do 2 (apply hoare_bind; intros ? ? [= _ <-]). apply hoare_bind, hoare_lift. intros e _. by apply enqueueTLEvent_adv.
Qed.

(** Saving the row just read, its status unchanged. *)
Lemma resave_adv d log current current' r :
  DInv d log -> known d log current -> r ∈ t_agents d -> from_row current r -> same_reg current current' ->
  r_Status current' = r_Status current ->
  hoare (AgentStore_Save current') d (fun _ d' => adv log d d').
Proof.
  intros HI Hk Hr [Hm Hs Ho] HE Es. eapply hoare_mono; [apply (Save_adv d log current' HI)|by intros ? ? [_ ?]].
  - apply known_savable; [by eapply known_same, Hk|]. intros Hp. destruct HE as (_ & _ & _ & E4 & E5).
    unfold reg_FQDN. rewrite E4, E5. change (proven log (reg_FQDN current) (o_Challenges (r_CertOrder current))).
    rewrite (m_host _ _ Hm), (m_chs _ _ Hm). apply (ri_proof _ _ (Base_row _ _ _ (proj1 HI) Hr)). unfold needs_proof.
    rewrite <- Hs, <- Es. by rewrite Hp.
  - intros Hl. exists r. destruct HE as (E1 & _). split_and!; [done|by rewrite E1, (m_id _ _ Hm)|]. unfold live. congruence.
Qed.

(** A transaction followed by statements that do not matter. *)
Lemma adv_then_frames {A B} (t : tx A) (f : A -> tx B) d log :
  hoare t d (fun _ d' => adv log d d') -> (forall a, frames (f a)) -> hoare (t ≫= f) d (fun _ d' => adv log d d').
Proof.
  intros Ht Hf. apply hoare_bind. eapply hoare_mono; [exact Ht|]. cbn beta. intros a d1 [I1 L1] b d2 E%Hf.
  eapply adv_trans; [exact L1|]. by apply same_core_adv.
Qed.

Lemma adv_then {A B} (t : tx A) (f : A -> tx B) d log :
  hoare t d (fun _ d' => adv log d d') -> (forall a d1, adv log d d1 -> hoare (f a) d1 (fun _ d' => adv log d1 d')) ->
  hoare (t ≫= f) d (fun _ d' => adv log d d').
Proof.
  intros Ht Hf. apply hoare_bind. eapply hoare_mono; [exact Ht|]. cbn beta. intros a d1 HA.
  eapply hoare_mono; [by apply Hf|]. cbn beta. intros b d2 HA2. eapply adv_trans; [apply HA|done].
Qed.

Lemma frames_then {A B} (t : tx A) (f : A -> tx B) d log :
  DInv d log -> frames t -> (forall a d1, adv log d d1 -> same_core d d1 -> hoare (f a) d1 (fun _ d' => adv log d1 d')) ->
  hoare (t ≫= f) d (fun _ d' => adv log d d').
Proof.
  intros HI Ht Hf. apply hoare_bind. intros a d1 E%Ht. pose proof (same_core_adv d d1 log HI E) as HA.
  eapply hoare_mono; [by apply Hf|]. cbn beta. intros b d2 HA2. eapply adv_trans; [apply HA|done].
Qed.

Lemma commit_identity_rotation_adv d log x reg s st ev ver :
  DInv d log -> hoare (commit_identity_rotation P x reg s st ev ver) d (fun _ d' => adv log d d').
Proof.
  intros HI. unfold commit_identity_rotation. apply hoare_bind.
  eapply hoare_mono; [apply (FindByAgentID_hoare d log _ (proj1 HI))|]. intros current d0 (-> & Hk & _ & r & Hr & _ & Hf).
  case_if; [apply hoare_throw|]. apply adv_then; [by eapply resave_adv|]. intros _ d1 [I1 _].
  apply frames_then; [done|auto with frames|]. intros _ d2 [I2 _] _.
  apply frames_then; [done|auto with frames|]. intros _ d3 [I3 _] _. by apply enqueueCertificateRenewal_adv.
Qed.

Lemma submitIdentityCSR_safe agentID pem ver w : ssafe (submitIdentityCSR P agentID pem ver) (fun _ _ => True) w.
Proof.
  unfold submitIdentityCSR. apply ssafe_bind, ssafe_find. intros reg r w1 _ I1 Hk _ Hr Hf. case_if; [apply ssafe_fail|]. b2p.
  assert (Hp : wproven w1 reg) by (eapply row_wproven; [done..|by rewrite Heqb]).
  apply ssafe_bind, ssafe_read_only; [auto with frames|]. intros certs w2 R2. up R2. do 2 (case_if; [apply ssafe_fail|]).
  apply ssafe_bind, ssafe_return. intros [reg1 csr] E%dom_Ok. unfold SubmitIdentityCSR in E. case_if_in E; [done|]. injection E as <- <-.
  apply ssafe_bind, observeRenewalDNS_safe. intros reg2 ev w3 R3 E2 _. up R3.
  apply ssafe_bind, signIdentityCSR_safe.
  - eapply known_same; [exact E2|]. by eapply known_same, Hk.
  - eapply wproven_same; [exact E2|]. by eapply wproven_same, Hp.
  - intros [s st] w4 R4. apply ssafe_bind. eapply ssafe_rel; [|intros; by apply ssafe_ret]. apply ssafe_adv. intros w5 _ I5.
    by apply commit_identity_rotation_adv.
Qed.

Lemma SubmitServerCSR_safe agentID pem w : ssafe (Service_SubmitServerCSR P agentID pem) (fun _ _ => True) w.
Proof.
  unfold Service_SubmitServerCSR. apply ssafe_bind, ssafe_find. intros reg r w1 _ I1 Hk _ Hr Hf. case_if; [apply ssafe_fail|].
  apply ssafe_bind, ssafe_return. intros [reg1 csr] _. apply ssafe_bind. eapply ssafe_rel; [|intros; by apply ssafe_ret].
  apply ssafe_adv. intros w2 _ I2. unfold commit_server_csr. apply hoare_bind.
  eapply hoare_mono; [apply (FindByAgentID_hoare _ _ _ (proj1 I2))|]. intros current d0 (-> & Hkc & _ & rc & Hrc & _ & Hfc).
  case_if; [apply hoare_throw|]. apply adv_then_frames; [by eapply resave_adv|auto with frames].
Qed.

(** *** Revocation *)

Lemma frames_reject_pending fuel x kind now : frames (reject_pending fuel x kind now).
Proof.
  induction fuel as [|fuel IH]; cbn [reject_pending]; [auto with frames|]. apply frames_bind; [auto with frames|].
  intros [csr|]; eauto 10 with frames.
Qed.
#[local] Hint Resolve frames_reject_pending : frames.

Lemma cancelRenewal_adv d log x now : DInv d log -> hoare (cancelRenewalForRevocation P x now) d (fun _ d' => adv log d d').
Proof.
  intros HI u d'. unfold cancelRenewalForRevocation. destruct (FindPendingByAgentID x d) as [[n d1]|e] eqn:E.
  - apply (FindPendingByAgentID_hoare d x) in E as (-> & r & Hr & _ & ->).
    destruct (renewal_row_known d log r (proj1 HI) Hr) as [Hk Hb]. revert u d'.
    change (hoare (r0 ← lift (dom (Renewal_MarkFailed (renewal_toDomain r) "Agent revoked" now)); _ ← RenewalStore_Save r0 (p_now P); mret tt)
      d (fun _ d' => adv log d d')).
    apply hoare_bind, hoare_lift. intros n' Hn%dom_Ok. unfold Renewal_MarkFailed in Hn. case_if_in Hn; [done|]. injection Hn as <-.
    apply adv_then_frames; [|auto with frames]. eapply hoare_mono; [by apply (RenewalSave_adv d log)|]. by intros ? ? [_ ?].
  - case_if; [|done]. intros [= <- <-]. by apply adv_refl.
Qed.

Lemma cancelAgentModifications_adv d log x now : DInv d log -> hoare (cancelAgentModifications P x now) d (fun _ d' => adv log d d').
Proof.
  intros HI. unfold cancelAgentModifications. apply adv_then.
  { case_if; [by apply CancelPending_adv|by apply hoare_ret, adv_refl]. }
  intros _ d1 [I1 _]. apply adv_then_frames; [by apply cancelRenewal_adv|]. eauto with frames.
Qed.

(** Saving a registration that gives up its host. *)
Lemma save_dead_adv d log reg :
  DInv d log -> known d log reg -> proven_status (r_Status reg) = false -> hoare (AgentStore_Save reg) d (fun _ d' => adv log d d').
Proof.
  intros HI Hk Hn. eapply hoare_mono; [apply (Save_adv d log reg HI)|by intros ? ? [_ ?]].
  - apply known_savable; [done|]. congruence.
  - unfold holdsHostExclusivity, proven_status, one_of in *. cbn in Hn. b2p. intros [?|?]%orb_true_iff; b2p; congruence.
Qed.

Lemma commit_revocation_adv d log reg certs reason ver now :
  DInv d log -> hoare (commit_revocation P reg certs reason ver now) d (fun _ d' => adv log d d').
Proof.
  intros HI. unfold commit_revocation. apply hoare_bind.
  eapply hoare_mono; [apply (FindByAgentID_hoare d log _ (proj1 HI))|]. intros current d0 (-> & Hk & _ & r & Hr & _ & Hf).
  case_if; [by apply hoare_ret, adv_refl|]. apply hoare_bind, hoare_lift. intros cur E%dom_Ok.
  unfold Revoke in E. do 2 (case_if_in E; [done|]). apply bind_Ok in E as (c1 & [_ ->]%transitionTo_Ok & [= <-]).
  match goal with |- context [cancelAgentModifications P (r_AgentID ?c)] => set (cur := c) end.
  assert (Hkc : known d log cur) by by eapply known_same, Hk.
  apply frames_then; [done|auto with frames|]. intros certs' d1 [I1 L1] _. case_if; [apply hoare_throw|].
  apply adv_then; [by apply cancelAgentModifications_adv|]. intros _ d2 [I2 L2].
  apply adv_then; [apply save_dead_adv; [done| |done]; apply (known_mono d d2 log log); [by etrans|done|done]|]. intros cur' d3 [I3 _].
  apply frames_then; [done|auto with frames|]. intros _ d4 [I4 _] _. apply frames_then; [done|auto with frames|]. intros e d5 [I5 _] _.
  apply adv_then_frames; [by apply enqueueTLEvent_adv|auto with frames].
Qed.

Lemma hydrate_safe reg (Q : AgentRegistration -> World -> Prop) w :
  (forall reg' w', Rel w w' -> same_reg reg reg' -> r_Status reg' = r_Status reg -> Q reg' w') -> ssafe (hydrate reg) Q w.
Proof.
  intros HQ. unfold hydrate. apply ssafe_bind, ssafe_attempt; [auto with frames|]. intros eps w1 R1 _.
  apply ssafe_bind, ssafe_read_only; [auto with frames|]. intros all w2 R2. apply ssafe_ret, HQ; [by etrans| |];
    repeat (case_match; try done).
Qed.

Lemma Revoke_safe agentID reason ver w : ssafe (Service_Revoke P agentID reason ver) (fun _ _ => True) w.
Proof.
  unfold Service_Revoke. apply ssafe_bind, ssafe_find. intros reg0 r w1 _ _ Hk0 _ _ _.
  apply ssafe_bind, hydrate_safe. intros reg w2 R2 E Es. up R2. apply (wknown_same _ _ _ E) in Hk0. case_if.
  { apply ssafe_bind. eapply (ssafe_rel _ (fun _ _ => True)); [|intros; by apply ssafe_ret].
    unfold sweepRevokedAgentCerts. apply ssafe_bind, ssafe_read_only; [auto with frames|]. intros certs w3 R3. case_if; [by apply ssafe_ret|].
    apply ssafe_bind, revokeIdentityCertsAtCA_safe. intros w4 R4. apply ssafe_read_only; [auto with frames|done]. }
  case_if.
  { unfold cancelPending. case_if; [apply ssafe_fail|]. apply ssafe_bind, ssafe_return. intros reg' E'%dom_Ok.
    unfold Cancel in E'. do 2 (case_if_in E'; [done|]). injection E' as <-.
    match goal with |- context [commit_cancellation ?c] => set (cur := c) end.
    assert (Hkc : wknown w2 cur) by by eapply known_same, Hk0.
    apply ssafe_bind, ssafe_read_only; [auto with frames|]. intros certs w3 R3. up R3.
    apply ssafe_bind, revokeIdentityCertsAtCA_safe. intros w4 R4. up R4. apply ssafe_adv. intros w5 R5 I5. up R5.
    apply adv_then_frames; [by apply save_dead_adv|eauto with frames]. }
  apply ssafe_bind, ssafe_return. intros reg' _. apply ssafe_bind, ssafe_read_only; [auto with frames|]. intros certs w3 R3.
  apply ssafe_bind, revokeIdentityCertsAtCA_safe. intros w4 R4. apply ssafe_adv. intros w5 _ I5. by apply commit_revocation_adv.
Qed.

(** *** Renewals *)

Lemma hoare_and {A} (t : tx A) d (Q1 Q2 : A -> DB -> Prop) : hoare t d Q1 -> hoare t d Q2 -> hoare t d (fun a d' => Q1 a d' /\ Q2 a d').
Proof. intros H1 H2 a d' E. split; [by apply H1|by apply H2]. Qed.

Lemma frames_renewals {A} (t : tx A) d : frames t -> hoare t d (fun _ d' => t_renewals d' = t_renewals d).
Proof. by intros HF a d' (_ & _ & ? & _)%HF. Qed.

Lemma Save_renewals reg d : hoare (AgentStore_Save reg) d (fun _ d' => t_renewals d' = t_renewals d).
Proof. intros a d'. unfold AgentStore_Save. repeat case_if; try done; by intros [= <- <-]. Qed.

Lemma commit_renewal_request_adv d log x csr n :
  DInv d log -> rn_ID n = 0 -> rn_AgentID n = x -> rv_Status (rn_Validation n) = ValidationPending ->
  hoare (commit_renewal_request P x csr n) d (fun _ d' => adv log d d').
Proof.
  intros HI Hid Hx Hs. unfold commit_renewal_request. apply hoare_bind.
  eapply hoare_mono; [apply (FindByAgentID_hoare d log _ (proj1 HI))|]. intros current d0 (-> & Hk & _ & r & Hr & Hxr & Hf).
  case_if; [apply hoare_throw|]. apply hoare_bind. intros pending d1 [= <- <-]. destruct (pending_renewal d x) eqn:EP; [apply hoare_throw|].
  apply hoare_bind. eapply hoare_mono; [apply (hoare_and _ _ (fun _ d' => adv log d d') (fun _ d' => t_renewals d' = t_renewals d))|].
  - destruct csr; cbn [tx_opt]; [|by apply hoare_ret, adv_refl]. apply adv_then_frames; [by eapply resave_adv|auto with frames].
  - destruct csr; cbn [tx_opt]; [|by apply hoare_ret]. apply hoare_bind. eapply hoare_mono; [apply Save_renewals|]. cbn beta. intros _ d1 E1.
    eapply hoare_mono; [by apply frames_renewals, frames_SaveCSR|]. cbn beta. congruence.
  - intros _ d2 [[I2 L2] E2]. destruct (le_agents _ _ L2 r Hr) as (r2 & Hr2 & (_ & Ea & _)%evolves_ident).
    eapply hoare_mono; [apply (RenewalInsert_adv d2 log n (p_now P) r2); [done|done| |done| |done]|].
    + unfold pending_renewal in *. by rewrite E2, Hx.
    + by rewrite Ea, Hxr, Hx.
    + cbn beta. intros ? d3 HA. by eapply adv_trans.
Qed.

Lemma SubmitServerCertRenewal_safe agentID input w : ssafe (SubmitServerCertRenewal P agentID input) (fun _ _ => True) w.
Proof.
  unfold SubmitServerCertRenewal. apply ssafe_bind, ssafe_find. intros reg r w1 _ _ Hk _ _ _. case_if; [apply ssafe_fail|].
  apply ssafe_bind, ssafe_attempt; [auto with frames|]. intros existing w2 R2 _. destruct existing; [apply ssafe_fail|].
  case_if; [apply ssafe_fail|]. cbn zeta. case_if; [apply ssafe_fail|]. apply ssafe_bind.
  eapply (ssafe_rel _ (fun p _ => rn_ID p.2 = 0 /\ rn_AgentID p.2 = agentID /\ rv_Status (rn_Validation p.2) = ValidationPending)).
  - case_if.
    + case_if; [apply ssafe_fail|]. destruct (p_serverCA P); [|apply ssafe_fail]. apply ssafe_bind, createServerOrder_safe. intros o w3 R3.
      destruct o as [o|]; [|apply ssafe_fail]. destruct (orderWithOwnerProof _ _ _); [|apply ssafe_fail].
      apply ssafe_bind, ssafe_return. intros [? ?] _. by apply ssafe_ret.
    + case_match; [|apply ssafe_fail]. case_match; [|apply ssafe_fail]. case_match. by apply ssafe_ret.
  - intros [csr n] w3 R3 (H1 & H2 & H3). apply ssafe_adv. intros w4 _ I4. by apply commit_renewal_request_adv.
Qed.

Lemma frames_rejectRenewalCSR x n : frames (rejectRenewalCSR P x n).
Proof.
  unfold rejectRenewalCSR. case_if; [auto with frames|]. apply frames_bind; [auto with frames|]. intros csr. case_if; eauto with frames.
Qed.
#[local] Hint Resolve frames_rejectRenewalCSR : frames.

Lemma CancelServerCertRenewal_safe agentID w : ssafe (CancelServerCertRenewal P agentID) (fun _ _ => True) w.
Proof.
  unfold CancelServerCertRenewal. apply ssafe_bind, ssafe_read_only; [auto with frames|]. intros n w1 _. apply ssafe_adv. intros w2 _ I2.
  unfold commit_renewal_cancel. apply frames_then; [done|auto with frames|]. intros cur d1 [I1 _] _. do 2 (case_if; [apply hoare_throw|]).
  apply frames_then; [done|auto with frames|]. intros _ d2 [I2' _] _. by apply RenewalDelete_adv.
Qed.

Lemma commit_certificate_adv d log reg n cert csr ev ver :
  DInv d log -> renewal_known d n -> renewal_backed d log n -> hoare (commit_certificate P reg n cert csr ev ver) d (fun _ d' => adv log d d').
Proof.
  intros HI Hk Hb. unfold commit_certificate. apply hoare_bind.
  eapply hoare_mono; [apply (FindByAgentID_hoare d log _ (proj1 HI))|]. intros current d0 (-> & Hkc & _ & r & Hr & _ & Hf).
  case_if; [apply hoare_throw|]. apply frames_then; [done|auto with frames|]. intros pending d1 [I1 L1] C1. case_if; [apply hoare_throw|].
  apply frames_then; [done|auto with frames|]. intros _ d2 [I2 L2] C2. assert (SC : same_core d d2) by by etrans. assert (L : db_le d d2) by by etrans.
  assert (Hr2 : r ∈ t_agents d2) by (destruct SC as (-> & _); done).
  apply adv_then.
  - destruct csr as [csr|]; cbn [tx_opt]; [|by apply hoare_ret, adv_refl]. apply frames_then; [done|auto with frames|].
    intros _ d3 [I3 L3] C3. apply adv_then_frames; [|auto with frames]. eapply (resave_adv d3 log current _ r); [done| | |done|done|done].
    + apply (known_mono d d3 log log); [by etrans|done|done].
    + destruct C3 as (-> & _). done.
  - intros _ d3 [I3 L3]. assert (L' : db_le d d3) by by etrans. apply adv_then.
    + eapply hoare_mono; [apply (RenewalSave_adv d3 log); [done|by eapply renewal_known_mono|by eapply renewal_backed_mono]|].
      by intros ? ? [_ ?].
    + intros n' d4 [I4 _]. apply adv_then_frames; [by apply enqueueCertificateRenewal_adv|auto with frames].
Qed.

Lemma MarkCompleted_same n now n' : Renewal_MarkCompleted n now = Ok n' ->
  rn_ID n' = rn_ID n /\ rn_AgentID n' = rn_AgentID n /\ rn_Validation n' = rn_Validation n.
Proof. unfold Renewal_MarkCompleted. case_if; [done|]. by intros [= <-]. Qed.
Lemma MarkFailed_same n reason now n' : Renewal_MarkFailed n reason now = Ok n' ->
  rn_ID n' = rn_ID n /\ rn_AgentID n' = rn_AgentID n /\ rn_Validation n' = rn_Validation n.
Proof. unfold Renewal_MarkFailed. case_if; [done|]. by intros [= <-]. Qed.

Lemma wrenewal_same w n n' : rn_ID n' = rn_ID n /\ rn_AgentID n' = rn_AgentID n /\ rn_Validation n' = rn_Validation n ->
  wrenewal w n -> wrenewal w n'.
Proof. intros (E1 & E2 & E3). unfold wrenewal, renewal_known, renewal_backed. by rewrite E1, E2, E3. Qed.

Lemma commitCertificateRenewal_safe reg n cert csr ev ver now w :
  wrenewal w n -> ssafe (commitCertificateRenewal P reg n cert csr ev ver now) (fun _ _ => True) w.
Proof.
  intros Hn. unfold commitCertificateRenewal. apply ssafe_bind, ssafe_return. intros n' E%dom_Ok%MarkCompleted_same.
  apply (wrenewal_same _ _ _ E) in Hn. apply ssafe_adv. intros w' R I. up R. destruct Hn. by apply commit_certificate_adv.
Qed.

Lemma renewal_save_safe n now w : wrenewal w n -> ssafe (atomic (RenewalStore_Save n now)) (fun _ _ => True) w.
Proof.
  intros Hn. apply ssafe_adv. intros w' R I. up R. destruct Hn. eapply hoare_mono; [by apply (RenewalSave_adv _ (w_log w'))|].
  by intros ? ? [_ ?].
Qed.

Lemma finalizeCSRRenewal_safe agentID n v ver now w :
  wrenewal w n -> rn_AgentID n = agentID -> rv_Status (rn_Validation n) = ValidationVerified ->
  ssafe (finalizeCSRRenewal P agentID n v ver now) (fun _ _ => True) w.
Proof.
  intros Hn Hx Hs. unfold finalizeCSRRenewal. destruct (p_serverCA P) as [ca|]; [|apply ssafe_fail].
  apply ssafe_bind, ssafe_read_only; [auto with frames|]. intros csr w1 R1. up R1.
  apply ssafe_bind, ssafe_find. intros reg0 r w2 R2 _ Hk0 Ex _ _. up R2.
  apply ssafe_bind, observeRenewalDNS_safe. intros reg ev w3 R3 E Es. up R3. apply (wknown_same _ _ _ E) in Hk0.
  apply ssafe_bind, ssafe_call. intros w4 R4 I4. up R4. split.
  { destruct Hn as [_ Hb]. destruct (Hb Hs) as (a & Ha & Ea & (ch & _ & Hp)). destruct Hk0 as [(r' & Hr' & Hm) _].
    assert (a = r') as ->.
    { eapply NoDup_key; [apply (b_agent_ids _ _ (proj1 I4))|done|done|]. rewrite Ea, <- (m_agent _ _ Hm). destruct E as (_ & -> & _). congruence. }
    exists r', ch. rewrite (m_owner _ _ Hm), (m_host _ _ Hm). done. }
  intros res [= <-]. set (w5 := push w4 _). assert (R5 : Rel w4 w5) by apply push_Rel. up R5.
  destruct (FinalizeOrder ca _ _ _ _ _) as [issued|[]]; try apply ssafe_fail.
  - destruct (p_ValidateServerCertificate P _ _ _); [|apply ssafe_fail]. apply ssafe_bind, ssafe_return. intros s _.
    apply ssafe_bind. eapply ssafe_rel; [by apply commitCertificateRenewal_safe|]. intros. by apply ssafe_ret.
  - apply ssafe_bind. eapply ssafe_rel; [by apply renewal_save_safe|]. intros. by apply ssafe_ret.
  - apply ssafe_bind, ssafe_return. intros n' E'%dom_Ok%MarkFailed_same. apply (wrenewal_same _ _ _ E') in Hn.
    apply ssafe_bind. eapply ssafe_rel; [by apply renewal_save_safe|]. intros. apply ssafe_fail.
Qed.

Lemma verifyRenewalACME_safe agentID ver w : ssafe (verifyRenewalACME P agentID ver) (fun _ _ => True) w.
Proof.
  unfold verifyRenewalACME. apply ssafe_bind.
  eapply (ssafe_rel _ (fun n w' => wrenewal w' n /\ rn_AgentID n = agentID)).
  { apply ssafe_read. intros w' R I. eapply hoare_mono; [apply FindPendingByAgentID_hoare|]. cbn beta.
    intros n d' (-> & r & Hr & Hx & ->). split_and!; [done| |done]. by apply renewal_row_known; [apply I|]. }
  intros n w1 _ [Hn Hx]. case_if; [apply ssafe_fail|]. case_if.
  { case_if; [apply ssafe_fail|]. b2p. by apply finalizeCSRRenewal_safe. }
  apply ssafe_bind, ssafe_find. intros reg r w2 R2 _ Hk Ex _ _. up R2. case_if; [apply ssafe_fail|].
  apply ssafe_bind, verifyChallengeArtifacts_safe. intros v e w3 R3 Hv. up R3.
  destruct v as [|t v]; [destruct e; apply ssafe_fail|]. specialize (Hv ltac:(done)).
  apply ssafe_bind, ssafe_return. intros va E%dom_Ok. unfold Validation_MarkVerified in E. case_if_in E; [done|]. injection E as <-.
  set (n' := UpdateValidationStatus n _).
  assert (Hn' : wrenewal w3 n').
  { destruct Hn as [Hkn _]. split; [done|]. intros _. destruct Hk as [(a & Ha & Hm) _]. exists a. cbn.
    rewrite <- (m_agent _ _ Hm), <- (m_host _ _ Hm). split_and!; [done|congruence|done]. }
  cbn zeta. case_if; [|by apply finalizeCSRRenewal_safe].
  unfold finalizeBYOCRenewal. apply ssafe_bind, observeRenewalDNS_safe. intros reg' ev w4 R4 _ _. up R4.
  destruct (p_ValidateServerCertificate P _ _ _); [|apply ssafe_fail]. apply ssafe_bind.
  eapply ssafe_rel; [by apply commitCertificateRenewal_safe|]. intros. by apply ssafe_ret.
Qed.

(** *** Sweepers *)

Lemma ExpireAgentsOnce_safe now w : ssafe (ExpireAgentsOnce now) (fun _ _ => True) w.
Proof. apply ssafe_adv. intros w' _ I. by apply Expire_adv. Qed.

Lemma expire_renewal_safe now n w : wrenewal w n -> ssafe (expire_renewal P now n) (fun _ _ => True) w.
Proof.
  intros Hn. unfold expire_renewal. set (n1 := match Validation_MarkFailed _ _ with Ok _ => _ | Err _ => _ end).
  assert (Hn1 : wrenewal w n1).
  { unfold n1, Validation_MarkFailed. case_if; [done|]. destruct Hn as [Hk _]. split; [done|]. by intros ?. }
  clearbody n1. cbn zeta. destruct (Renewal_MarkFailed n1 _ now) as [n2|] eqn:E2; [|by apply ssafe_ret].
  apply MarkFailed_same in E2. apply (wrenewal_same _ _ _ E2) in Hn1.
  apply ssafe_bind. eapply ssafe_rel; [by apply renewal_save_safe|]. intros n3 w3 R3 _. case_if; [|by apply ssafe_ret].
  apply ssafe_bind, ssafe_attempt; [auto with frames|]. intros csr w4 R4 _. destruct csr as [csr|]; [|by apply ssafe_ret].
  case_if; [by apply ssafe_ret|]. destruct (CSR_MarkRejected _ _ _); [|by apply ssafe_ret].
  apply ssafe_bind, ssafe_attempt; [auto with frames|]. intros. by apply ssafe_ret.
Qed.

Lemma ExpireRenewalsOnce_safe now w : ssafe (ExpireRenewalsOnce P now) (fun _ _ => True) w.
Proof.
  unfold ExpireRenewalsOnce. apply ssafe_bind. eapply (ssafe_rel _ (fun l w' => forall n, n ∈ l -> wrenewal w' n)).
  - apply ssafe_read. intros w' R I l d' [= <- <-]. split; [done|]. intros n (r & -> & Hr)%list_elem_of_fmap.
    apply list_elem_of_filter in Hr as [_ Hr]. by apply renewal_row_known; [apply I|].
  - intros l w1 R1 Hl. apply ssafe_bind, ssafe_for; [|intros; by apply ssafe_ret]. intros n w2 Hin R2.
    apply expire_renewal_safe. eapply wrenewal_Rel; [exact R2|]. by apply Hl.
Qed.
End Methods.
