(* ===== verification/RaServiceProps.v ===== *)
(** Properties of the registration service as a whole.

    Requests arrive at any time, each handled by its method with its own
    environment, interleaved with each other, with the sweepers and with the
    statements of the outbox workers.  [serves ps w]: from an empty database such
    a run reached the world [w] with the requests [ps] in progress. *)
From stdpp Require Import gmap relations.
From S2P Require Import Prelude GoStrings GoTime DomainErrors SemVer AnsName Endpoint Lifecycle LifecycleSpec Discovery.
From S2P Require Import TlEvent Outbox OutboxSpec Concurrent RaEvents RaStore RaService RaServiceInv RaServiceSpec.

#[local] Set Default Goal Selector "!".
#[local] Open Scope Z_scope.

(** ** Requests *)

Inductive request :=
| ReqRegister (req : RegisterRequest)
| ReqVerifyACME (agentID : string)
| ReqVerifyDNS (agentID schemaVersion : string)
| ReqSubmitIdentityCSR (agentID csrPEM schemaVersion : string)
| ReqSubmitServerCSR (agentID csrPEM : string)
| ReqRevoke (agentID : string) (reason : RevocationReason) (schemaVersion : string)
| ReqSubmitRenewal (agentID : string) (input : SubmitRenewalInput)
| ReqCancelRenewal (agentID : string)
| ReqVerifyRenewal (agentID schemaVersion : string)
| ReqExpireAgents (now : Time)
| ReqExpireRenewals (now : Time)
| ReqOutbox (o : op).

Definition empty_world : World := {| w_db := empty_db; w_log := [] |}.

Section Requests.
Context `{U : UnicodeTables} `{X : PemX509} `{C : Canonicalizer}.

Definition handle (P : Ports) (q : request) : prog World unit :=
  let done {A} (m : svc A) : prog World unit := prog_map (fun _ => tt) m in
  match q with
  | ReqRegister req => done (RegisterAgent P req)
  | ReqVerifyACME x => done (VerifyACME P x)
  | ReqVerifyDNS x ver => done (VerifyDNS P x ver)
  | ReqSubmitIdentityCSR x pem ver => done (submitIdentityCSR P x pem ver)
  | ReqSubmitServerCSR x pem => done (Service_SubmitServerCSR P x pem)
  | ReqRevoke x reason ver => done (Service_Revoke P x reason ver)
  | ReqSubmitRenewal x input => done (SubmitServerCertRenewal P x input)
  | ReqCancelRenewal x => done (CancelServerCertRenewal P x)
  | ReqVerifyRenewal x ver => done (verifyRenewalACME P x ver)
  | ReqExpireAgents now => done (ExpireAgentsOnce now)
  | ReqExpireRenewals now => done (ExpireRenewalsOnce P now)
  | ReqOutbox o => done (atomic (fun d => Ok (tt, set_outbox d (OutboxSpec.step (t_outbox d) o))))
  end.

(** What the callers guarantee: names come from [NewAnsName] or [ParseAnsName],
    and workers complete rows with their claim token and a log id. *)
Definition request_ok (q : request) : Prop :=
  match q with ReqRegister req => ansname_wf (rq_AnsName req) | ReqOutbox o => op_ok o | _ => True end.

Definition served (p : prog World unit) : Prop := exists P q, request_ok q /\ p = handle P q.

Definition serves (ps : list (prog World unit)) (w : World) : Prop := rtc (pool_step served) ([], empty_world) (ps, w).

Lemma Inv_empty : Inv empty_world.
Proof.
  assert (HN : forall {A} (x : A), ~ x ∈ ([] : list A)) by (intros A x; apply not_elem_of_nil).
  split; [split; cbn; try constructor; try constructor; try done; try apply inv_empty|].
  all: intros r1 r2; try (intros H; by apply HN in H). by apply HN in r2.
Qed.

Lemma op_safe o w : op_ok o -> ssafe (atomic (fun d => Ok (tt, set_outbox d (OutboxSpec.step (t_outbox d) o)))) (fun _ _ => True) w.
Proof. intros Ho. apply ssafe_adv. intros w' _ I' u d' [= _ <-]. by apply outbox_op_adv. Qed.

Context `{UL : !UnicodeLaws U}.

Lemma handle_safe P q w : request_ok q -> safe Inv Rel (handle P q) (fun _ _ => True) w.
Proof.
  assert (HD : forall {A} (m : svc A), ssafe m (fun _ _ => True) w -> safe Inv Rel (prog_map (fun _ => tt) m) (fun _ _ => True) w).
  { intros A m Hm. apply safe_bind. eapply safe_mono; [apply _| |exact Hm]. done. }
  intros Hq. destruct q; apply HD; cbn in Hq.
  - by apply RegisterAgent_safe.
  - apply VerifyACME_safe.
  - apply VerifyDNS_safe.
  - apply submitIdentityCSR_safe.
  - apply SubmitServerCSR_safe.
  - apply Revoke_safe.
  - apply SubmitServerCertRenewal_safe.
  - apply CancelServerCertRenewal_safe.
  - apply verifyRenewalACME_safe.
  - apply ExpireAgentsOnce_safe.
  - apply ExpireRenewalsOnce_safe.
  - by apply op_safe.
Qed.

Lemma served_safe p w : served p -> Inv w -> safe Inv Rel p (fun _ _ => True) w.
Proof. intros (P & q & Hq & ->) _. by apply handle_safe. Qed.

(** Every world that is reached, and every world reached from there. *)
Lemma pool_from c c' :
  Inv c.2 -> pool_ok Inv Rel c.1 c.2 -> rtc (pool_step served) c c' -> Inv c'.2 /\ Rel c.2 c'.2 /\ pool_ok Inv Rel c'.1 c'.2.
Proof.
  intros HI Hok Hrun. revert HI Hok. induction Hrun as [c|c c1 c2 Hst _ IH]; intros HI Hok; [done|].
  destruct (pool_step_ok Inv Rel served c c1 served_safe HI Hok Hst) as (I1 & R1 & Hok1).
  destruct (IH I1 Hok1) as (I2 & R2 & Hok2). split_and!; [done|by etrans|done].
Qed.

Lemma serves_pool ps w : serves ps w -> Inv w /\ pool_ok Inv Rel ps w.
Proof.
  intros H. destruct (pool_from ([], empty_world) (ps, w)) as (I' & _ & Hok); [apply Inv_empty|constructor|exact H|done].
Qed.

Lemma serves_Inv ps w : serves ps w -> Inv w.
Proof. by intros [? _]%serves_pool. Qed.

(** ** Theorems *)

(** C1: At every moment of every run, the live registrations (ACTIVE or
    DEPRECATED) of one host all belong to one owner, however registrations,
    validations, activations, renewals, revocations, sweeps and deliveries
    interleave. *)
Theorem host_exclusive ps w r1 r2 :
  serves ps w -> r1 ∈ t_agents (w_db w) -> r2 ∈ t_agents (w_db w) -> live r1 = true -> live r2 = true ->
  ar_agent_host r1 = ar_agent_host r2 -> ar_owner_id r1 = ar_owner_id r2.
Proof. intros [HB _]%serves_Inv. by apply HB. Qed.

(** C2: No certificate is asked for without proof of domain control: when the
    service finalizes an order for a host or has an identity certificate issued
    for an ANS name, the log already holds a successful probe of that host; the
    order is for the owner and host of a registration, and an identity
    certificate rests on a challenge of its own registration's order. *)
Theorem issuance_needs_proof ps w past e rest :
  serves ps w -> w_log w = past ++ e :: rest ->
  match e with
  | EFinalize owner _ _ fqdn =>
      (exists ch, EProbe fqdn ch true ∈ past) /\
      exists r, r ∈ t_agents (w_db w) /\ ar_owner_id r = owner /\ ar_agent_host r = fqdn
  | EIssueIdentity _ name =>
      exists r ch, r ∈ t_agents (w_db w) /\ ar_ans_name r = name /\ ch ∈ row_chs r /\ EProbe (ar_agent_host r) ch true ∈ past
  | _ => True
  end.
Proof.
  intros [HB _]%serves_Inv E. pose proof (b_log _ _ HB (length past) e) as HJ. rewrite E in HJ.
  rewrite list_lookup_middle in HJ by done. specialize (HJ eq_refl). rewrite take_app_length in HJ.
  destruct e; try done; cbn in HJ.
  - destruct HJ as (r & ch & ? & ? & ? & ?). split; eauto.
  - destruct HJ as (r & Hr & Hn & ch & Hch & Hp). exists r, ch. done.
Qed.

(** C3: A live registration was proved and sealed: one of the challenges of its
    own order was found at its host, and the outbox holds a delivered
    AGENT_REGISTERED event for it, with the log id the transparency log gave to
    exactly that payload; and every seal request ever sent for the agent, by
    whichever attempt, carried that same payload and lane. *)
Theorem live_proved_and_sealed ps w r :
  serves ps w -> r ∈ t_agents (w_db w) -> live r = true ->
  (exists ch, ch ∈ row_chs r /\ EProbe (ar_agent_host r) ch true ∈ w_log w) /\
  exists o l, o ∈ ob_rows (t_outbox (w_db w)) /\ ob_agent_id o = ar_agent_id r /\ ob_event_type o = TypeAgentRegistered /\
    is_null (ob_sent_at_ms o) = false /\ ob_log_id o = Some l /\
    ESeal (ar_agent_id r) (ob_schema_version o) (ob_payload o) (Some l) ∈ w_log w /\
    forall lane p answer, ESeal (ar_agent_id r) lane p answer ∈ w_log w -> lane = ob_schema_version o /\ p = ob_payload o.
Proof.
  intros [HB HS]%serves_Inv Hr Hl. split.
  - apply (ri_proof _ _ (Base_row _ _ _ HB Hr)). unfold needs_proof, live, holdsHostExclusivity in *. unfold proven_status, one_of. cbn.
    apply orb_true_iff in Hl as [->| ->]; by rewrite ?orb_true_r.
  - destruct (HS r Hr Hl) as (o & l & Ho & Ha & Ht & Hs & Hid & He); [done|]. exists o, l. split_and!; try done.
    intros lane p answer (i & Hi)%list_elem_of_lookup. apply list_elem_of_lookup in He as (k & Hk).
    pose proof (b_log _ _ HB _ _ Hi) as J1. pose proof (b_log _ _ HB _ _ Hk) as J2. cbn in J1, J2. split; congruence.
Qed.

(** What is recorded stays recorded: whatever happens after any moment of a
    run, every registration keeps its id, agent id, owner, ANS name, host and
    challenges, a revoked one stays revoked, a deprecated one can only be revoked,
    calls to other systems are never forgotten, and outbox rows keep their event
    and, once delivered, their log id. *)
Theorem registrations_persist ps w ps' w' :
  serves ps w -> rtc (pool_step served) (ps, w) (ps', w') ->
  w_log w `prefix_of` w_log w' /\
  (forall r, r ∈ t_agents (w_db w) -> exists r', r' ∈ t_agents (w_db w') /\ ident r' = ident r /\ row_chs r' = row_chs r /\
     (ar_status r = StatusRevoked -> ar_status r' = StatusRevoked) /\
     (ar_status r = StatusDeprecated -> ar_status r' = StatusDeprecated \/ ar_status r' = StatusRevoked)) /\
  (forall o, o ∈ ob_rows (t_outbox (w_db w)) -> exists o', o' ∈ ob_rows (t_outbox (w_db w')) /\ evolves o o').
Proof.
  intros [HI Hok]%serves_pool Hrun. destruct (pool_from (ps, w) (ps', w') HI Hok Hrun) as (_ & [[L1 _ _ L4 _] HP] & _). split_and!; [done| |done].
  intros r (r' & Hr' & [])%L1. exists r'. split_and!; done.
Qed.

(** ** A failed registration *)

(** Methods and parts of methods that leave the database alone. *)
Definition pure_db {A} (m : svc A) : Prop := forall w, w_db (Concurrent.run m w).2 = w_db w.

Lemma run_prog_bind {A B} (p : prog World A) (g : A -> prog World B) w :
  Concurrent.run (prog_bind p g) w = let '(r, w1) := Concurrent.run p w in Concurrent.run (g r) w1.
Proof. revert w. induction p as [r|B0 h k IH]; intros w; cbn; [done|]. destruct (h w). apply IH. Qed.

Lemma run_bind {A B} (m : svc A) (f : A -> svc B) w :
  Concurrent.run (m ≫= f) w =
  let '(r, w1) := Concurrent.run m w in match r with Ok a => Concurrent.run (f a) w1 | Err e => (Err e, w1) end.
Proof. unfold mbind, svc_bind. rewrite run_prog_bind. by destruct (Concurrent.run m w) as [[a|e] w1]. Qed.

Lemma pure_bind {A B} (m : svc A) (f : A -> svc B) : pure_db m -> (forall a, pure_db (f a)) -> pure_db (m ≫= f).
Proof.
  intros Hm Hf w. rewrite run_bind. specialize (Hm w). destruct (Concurrent.run m w) as [[a|e] w1]; cbn in *; [|done]. by rewrite Hf.
Qed.
Lemma pure_ret {A} (r : result serr A) : pure_db (Ret r).
Proof. done. Qed.
Lemma pure_call {A} e (r : result serr A) : pure_db (call e r).
Proof. done. Qed.
Lemma pure_query {A} (q : DB -> result serr A) : pure_db (atomic (fun d => a ← q d; Ok (a, d))).
Proof. intros w. cbn. by destruct (q (w_db w)). Qed.
Lemma pure_reads {A} (f : DB -> A) : pure_db (atomic (reads f)).
Proof. done. Qed.

Lemma pure_host h o x : pure_db (hostHeldByAnotherOwner h o x).
Proof. apply pure_bind; [|intros; apply pure_ret]. intros w. cbn. unfold FindAllByAgentHost. by destruct (rowsToDomain _). Qed.

Lemma pure_preflight n o : pure_db (preflightRegistrationConflicts n o).
Proof.
  apply pure_bind; [apply pure_reads|]. intros []; [apply pure_ret|]. apply pure_bind; [apply pure_host|]. intros []; apply pure_ret.
Qed.

Lemma pure_resolve P req now : pure_db (resolveServerCertInput P req now).
Proof.
  unfold resolveServerCertInput. case_if; [apply pure_ret|]. case_if.
  - repeat case_match; apply pure_ret.
  - case_match; [|apply pure_ret]. case_if; [apply pure_ret|]. apply pure_bind; [apply pure_call|]. intros r. repeat case_match; apply pure_ret.
Qed.

(** The publication of events, and why it failed. *)
Lemma publish_error P evs w e w' :
  Concurrent.run (svc_for evs (fun ev => call (EPublish ev) (p_publish P ev))) w = (Err e, w') ->
  w_db w' = w_db w /\ exists ev, ev ∈ evs /\ p_publish P ev = Err e.
Proof.
  revert w. induction evs as [|ev evs IH]; intros w; cbn [svc_for]; [done|]. rewrite run_bind. cbn.
  destruct (p_publish P ev) as [[]|e'] eqn:E.
  - intros [H (ev' & ? & ?)]%IH. split; [exact H|]. exists ev'. split; [by right|done].
  - intros [= -> <-]. split; [done|]. exists ev. split; [by left|done].
Qed.

Lemma pure_then {A B} (m : svc A) (f : A -> svc B) w e w' :
  pure_db m -> Concurrent.run (m ≫= f) w = (Err e, w') ->
  w_db w' = w_db w \/ exists a w1, w_db w1 = w_db w /\ Concurrent.run m w = (Ok a, w1) /\ Concurrent.run (f a) w1 = (Err e, w').
Proof.
  intros Hm. rewrite run_bind. specialize (Hm w). destruct (Concurrent.run m w) as [[a|e1] w1]; cbn in Hm; [|intros [= _ <-]; by left].
  intros H. right. eauto.
Qed.

Lemma save_registration_row reg byoc d :
  r_ID reg = 0 ->
  hoare (save_registration reg byoc) d (fun _ d' =>
    exists r, r ∈ t_agents d' /\ ar_agent_id r = r_AgentID reg /\ ar_ans_name r = AnsName_String (r_AnsName reg)).
Proof.
  intros Hid. unfold save_registration. apply hoare_bind. intros reg1 d1. unfold AgentStore_Save. rewrite Hid. cbn [Z.eqb].
  case_if; [done|]. intros [= <- <-]. set (d1 := set_agents d _ _).
  match goal with |- hoare ?t _ _ => assert (HF : frames t) by eauto 20 with frames end.
  intros a d' (E & _)%HF. rewrite E. eexists. split; [cbn; apply elem_of_app; right; by left|done].
Qed.

(** The name is taken once a row carries it. *)
Lemma taken_name P req w r :
  r ∈ t_agents (w_db w) -> ar_ans_name r = AnsName_String (rq_AnsName req) ->
  (Concurrent.run (RegisterAgent P req) w).1 = Err (Dom (NewConflictError "ANS_NAME_TAKEN")).
Proof.
  intros Hr Hn. unfold RegisterAgent, preflightRegistrationConflicts. rewrite !run_bind. cbn [Concurrent.run atomic ExistsByAnsName reads].
  assert (existsb (fun r => String.eqb (ar_ans_name r) (AnsName_String (rq_AnsName req))) (t_agents (w_db w)) = true) as ->; [|done].
  apply existsb_exists. exists r. split; [by apply list_elem_of_In|]. by apply String.eqb_eq.
Qed.

Lemma NewRegistration_agent agentID ownerID n dn ds eps cert csr now reg :
  NewRegistration agentID ownerID n dn ds eps cert csr now = Ok reg -> r_ID reg = 0 /\ r_AgentID reg = agentID /\ r_AnsName reg = n.
Proof.
  unfold NewRegistration. repeat (case_if; [done|]). rewrite bind_Ok. intros (u & _ & H). case_if_in H; [done|]. by injection H as <-.
Qed.

(** A registration that fails leaves no trace in the database, unless what
    failed is the publication of its event after the commit: then the error is
    the bus's, and the registration it reports as failed is stored, so a retry is
    refused as a duplicate name. *)
Theorem failed_registration P req w e w' :
  Concurrent.run (RegisterAgent P req) w = (Err e, w') ->
  w_db w' = w_db w \/
  (exists ev, p_publish P ev = Err e) /\
  (exists r, r ∈ t_agents (w_db w') /\ ar_agent_id r = p_agentID P /\ ar_ans_name r = AnsName_String (rq_AnsName req)) /\
  forall w2, w_db w2 = w_db w' -> (Concurrent.run (RegisterAgent P req) w2).1 = Err (Dom (NewConflictError "ANS_NAME_TAKEN")).
Proof.
  unfold RegisterAgent. intros [H|(u & w1 & D1 & _ & H)]%pure_then; [by left| |apply pure_preflight]. rewrite <- D1.
  apply pure_then in H as [H|(csr & w2 & D2 & _ & H)]; [by left| |by repeat case_if; intros ?]. rewrite <- D2.
  apply pure_then in H as [H|([[byoc scsr] order] & w3 & D3 & _ & H)]; [by left| |apply pure_resolve]. rewrite <- D3.
  apply pure_then in H as [H|(reg & w4 & D4 & HR & H)]; [by left| |apply pure_ret]. rewrite <- D4.
  injection HR as (Hid & Ha & Hn)%dom_Ok%NewRegistration_agent _.
  apply pure_then in H as [H|(reg' & w5 & D5 & HP & H)]; [by left| |apply pure_ret]. rewrite <- D5.
  injection HP as (profs & ->)%applyDiscoveryProfiles_fields _.
  rewrite run_bind in H. cbn [Concurrent.run atomic] in H.
  destruct (save_registration _ byoc (w_db w5)) as [[reg1 d1]|e1] eqn:ES; [|injection H as _ <-; by left].
  apply save_registration_row in ES as (r & Hr & Er & En); [|done]. right.
  destruct (ClearEvents reg1) as [reg2 evs] eqn:EC. rewrite run_bind in H.
  destruct (Concurrent.run (svc_for evs _) _) as [[u'|e'] w6] eqn:EP; [by injection H|]. injection H as -> ->.
  apply publish_error in EP as [D6 (ev & _ & Hev)]. cbn in D6. cbn in Er, En.
  split_and!; [by exists ev| |].
  - exists r. rewrite D6. split_and!; [done|congruence|congruence].
  - intros w7 D7. eapply taken_name; [rewrite D7, D6; exact Hr|congruence].
Qed.
End Requests.

(** ** A concrete service *)

Definition demo_pem : PemX509 := {| pem_Decode := fun s => Some ("CERTIFICATE", s); x509_serial := fun _ => Some "01" |}.
Definition demo_canonicalizer : Canonicalizer := {| CanonicalizeEvent := fun _ => Some "{}" |}.
#[local] Existing Instance latin_tables.
#[local] Existing Instance demo_pem.
#[local] Existing Instance demo_canonicalizer.

(** Every other system says yes; ids and tokens are [id]'s. *)
Definition demo_ports_bus (publish : Event -> result serr unit) (id : string) : Ports := {|
  p_clock := UnixMilli 1700000000000; p_clock2 := UnixMilli 1700000000000; p_now := UnixMilli 1700000000000;
  p_agentID := id; p_csrID := "csr-" +:+ id; p_serverCsrID := "scsr-" +:+ id;
  p_tokens := Ok ("dns-" +:+ id, "http-" +:+ id);
  p_ValidateIdentityCSR := fun _ _ => true; p_ValidateServerCSR := fun _ _ => true;
  p_ValidateServerCertificate := fun leaf chain fqdn =>
    Some {| byoc_LeafCertificatePEM := leaf; byoc_ChainCertificatesPEM := chain; byoc_SubjectCommonName := fqdn;
            byoc_SubjectAlternativeNames := []; byoc_IssuerDN := "CA"; byoc_ValidFromTimestamp := UnixMilli 1600000000000;
            byoc_ValidToTimestamp := UnixMilli 1800000000000; byoc_Fingerprint := "f" +:+ leaf |};
  p_IssueIdentityCertificate := fun csr _ =>
    Some {| ic_CertPEM := "cert-" +:+ csr; ic_ChainPEM := ""; ic_SerialNumber := "07"; ic_CertificateRef := "ref";
            ic_IssuedAt := UnixMilli 1600000000000; ic_ExpiresAt := UnixMilli 1800000000000 |};
  p_RevokeCertificate := fun _ _ _ => true;
  p_serverCA := Some {|
    CreateOrder := fun _ _ => Ok (Some (set_ref (NewSelfIssuedOrder ("dns-" +:+ id) ("http-" +:+ id) (UnixMilli 1700000900000)) "order"));
    FinalizeOrder := fun _ _ csr _ _ =>
      Ok {| ic_CertPEM := "server-" +:+ csr; ic_ChainPEM := ""; ic_SerialNumber := "08"; ic_CertificateRef := "sref";
            ic_IssuedAt := UnixMilli 1600000000000; ic_ExpiresAt := UnixMilli 1800000000000 |} |};
  p_dnsVerifier := Some (fun _ recs => Ok (Some {| vr_AllRequired := true;
    vr_Results := Some ((fun r => {| rvn_Record := r; rvn_Found := true; rvn_Actual := dr_Value r; rvn_Error := "";
                                     rvn_DNSSECVerified := false |}) <$> recs) |}));
  p_httpChallenge := None;
  p_agentSealer := Some (fun _ _ _ => Ok ("log-" +:+ id));
  p_outbox := true;
  p_signer := Some {| es_RaID := "ra"; es_Sign := fun _ _ => Ok "sig" |};
  p_publish := publish;
  p_registry := [] |}.

Definition demo_ports : string -> Ports := demo_ports_bus (fun _ => Ok tt).

Definition demo_request (owner : string) (major : Z) : RegisterRequest := {|
  rq_OwnerID := owner; rq_AnsName := MkAnsName (MkSemVer major 0 0) "agent.example.com"; rq_DisplayName := "agent"; rq_Description := "";
  rq_Endpoints := [demo_endpoint]; rq_IdentityCSRPEM := "idcsr"; rq_ServerCsrPEM := "srvcsr"; rq_ServerCertificatePEM := "";
  rq_ServerCertificateChainPEM := ""; rq_SchemaVersion := SchemaVersionV2; rq_DiscoveryProfiles := [] |}.

(** Owner "o" registers and activates two versions. *)
Definition demo_steps (id : string) (major : Z) : list (prog World unit) :=
  [handle (demo_ports id) (ReqRegister (demo_request "o" major)); handle (demo_ports id) (ReqVerifyACME id);
   handle (demo_ports id) (ReqVerifyDNS id SchemaVersionV2)].

Definition demo_run : list (prog World unit) * World :=
  sched (demo_steps "a" 1 ++ demo_steps "b" 2, empty_world)
    (replicate 20 0 ++ replicate 20 1 ++ replicate 20 2 ++ replicate 20 3 ++ replicate 20 4 ++ replicate 20 5)%nat.

Definition demo_rows : list agentRow := Eval vm_compute in t_agents (w_db demo_run.2).
Definition demo_log : list effect := Eval vm_compute in w_log demo_run.2.

Lemma demo_run_rows : t_agents (w_db demo_run.2) = demo_rows.
Proof. vm_compute. reflexivity. Qed.

Lemma demo_run_log : w_log demo_run.2 = demo_log.
Proof. vm_compute. reflexivity. Qed.

Lemma demo_steps_served id major : semver_wf (MkSemVer major 0 0) -> Forall served (demo_steps id major).
Proof.
  intros Hv. repeat constructor; eexists _, _; (split; [|reflexivity]); [|done..]. split; [done|]. vm_compute. intuition discriminate.
Qed.

(** A schedule of requests is a run of the service. *)
Lemma sched_serves (qs : list (prog World unit)) is_ : Forall served qs ->
  serves (sched (qs, empty_world) is_).1 (sched (qs, empty_world) is_).2.
Proof.
  intros Hq. unfold serves. rewrite <- surjective_pairing. etrans; [by apply (arrive_all served qs [])|]. apply sched_rtc.
Qed.

Lemma demo_serves : serves demo_run.1 demo_run.2.
Proof. apply sched_serves. apply Forall_app; split; apply demo_steps_served; vm_compute; intuition discriminate. Qed.

(** *** Witnesses *)

Lemma host_exclusive_witness :
  exists r1 r2, r1 ∈ t_agents (w_db demo_run.2) /\ r2 ∈ t_agents (w_db demo_run.2) /\ ar_id r1 <> ar_id r2 /\
    live r1 = true /\ live r2 = true /\ ar_owner_id r1 = ar_owner_id r2.
Proof.
  rewrite demo_run_rows. unfold demo_rows. do 2 eexists. split_and!; [left|right; left|discriminate|vm_compute; reflexivity..|].
  apply (host_exclusive demo_run.1 demo_run.2); [exact demo_serves|rewrite demo_run_rows; left|rewrite demo_run_rows; right; left|
    vm_compute; reflexivity..].
Defined.

Lemma issuance_needs_proof_witness :
  exists past e rest, w_log demo_run.2 = past ++ e :: rest /\ e = EIssueIdentity "idcsr" "ans://v1.0.0.agent.example.com" /\
    exists r ch, r ∈ t_agents (w_db demo_run.2) /\ ar_ans_name r = "ans://v1.0.0.agent.example.com" /\ ch ∈ row_chs r /\
      EProbe (ar_agent_host r) ch true ∈ past.
Proof.
  exists (take 4 demo_log), (EIssueIdentity "idcsr" "ans://v1.0.0.agent.example.com"), (drop 5 demo_log).
  assert (E : w_log demo_run.2 = take 4 demo_log ++ EIssueIdentity "idcsr" "ans://v1.0.0.agent.example.com" :: drop 5 demo_log)
    by (rewrite demo_run_log; reflexivity).
  split; [exact E|]. split; [reflexivity|].
  exact (issuance_needs_proof demo_run.1 demo_run.2 _ _ _ demo_serves E).
Defined.

Lemma live_proved_and_sealed_witness :
  exists r, r ∈ t_agents (w_db demo_run.2) /\ live r = true /\ exists o, o ∈ ob_rows (t_outbox (w_db demo_run.2)) /\ ob_agent_id o = ar_agent_id r.
Proof.
  eexists. split_and!; [rewrite demo_run_rows; left|vm_compute; reflexivity|].
  destruct (live_proved_and_sealed demo_run.1 demo_run.2 _ demo_serves ltac:(rewrite demo_run_rows; left) ltac:(vm_compute; reflexivity))
    as (_ & o & _ & Ho & Ha & _).
  exists o. split; [exact Ho|exact Ha].
Defined.

Lemma registrations_persist_witness :
  w_log demo_run.2 `prefix_of` w_log (sched demo_run [0%nat]).2.
Proof.
  apply (registrations_persist demo_run.1 demo_run.2 (sched demo_run [0%nat]).1 (sched demo_run [0%nat]).2 demo_serves).
  rewrite <- !surjective_pairing. apply sched_rtc.
Defined.

(** A registration while the bus is closed. *)
Definition closed_bus : Ports := demo_ports_bus (fun _ => Err (Other "eventbus: closed")) "a".

Lemma closed_bus_fails : exists e w', Concurrent.run (RegisterAgent closed_bus (demo_request "o" 1)) empty_world = (Err e, w') /\
  t_agents (w_db w') <> [].
Proof.
  assert (H : (fun p => (is_ok p.1, length (t_agents (w_db p.2)))) (Concurrent.run (RegisterAgent closed_bus (demo_request "o" 1)) empty_world) = (false, 1%nat))
    by (vm_compute; reflexivity).
  destruct (Concurrent.run _ _) as [[a|e] w']; cbn in H; [discriminate H|injection H as H2]. exists e, w'. split; [done|].
  intros E. by rewrite E in H2.
Qed.

Lemma failed_registration_witness :
  exists e w', Concurrent.run (RegisterAgent closed_bus (demo_request "o" 1)) empty_world = (Err e, w') /\
    exists r, r ∈ t_agents (w_db w') /\ ar_agent_id r = "a".
Proof.
  destruct closed_bus_fails as (e & w' & HR & Hn). exists e, w'. split; [exact HR|].
  destruct (failed_registration closed_bus (demo_request "o" 1) empty_world e w' HR) as [H|(_ & (r & Hr & Ha & _) & _)].
  - rewrite H in Hn. destruct (Hn eq_refl).
  - exists r. split; [exact Hr|exact Ha].
Defined.

(** ** Races

    The cancel path and the ACME step write back a registration read before
    their transaction, and the UPDATE is only guarded against REVOKED and
    DEPRECATED rows. *)

Definition race_requests : list (prog World unit) :=
  demo_steps "a" 1 ++ [handle (demo_ports "a") (ReqRevoke "a" RevocationKeyCompromise SchemaVersionV2);
                       handle (demo_ports "a") (ReqVerifyACME "a")].

Definition race (is_ : list (nat * nat)) : list (prog World unit) * World :=
  sched (race_requests, empty_world) (concat ((fun p => replicate p.2 p.1) <$> is_)).

Lemma race_serves is_ : serves (race is_).1 (race is_).2.
Proof.
  apply sched_serves, Forall_app. split; [apply demo_steps_served; vm_compute; intuition discriminate|].
  repeat constructor; eexists _, _; (split; [|reflexivity]); done.
Qed.

Lemma race_app is1 is2 : rtc (pool_step served) (race is1) (race (is1 ++ is2)).
Proof. unfold race. rewrite fmap_app, concat_app. unfold sched. rewrite fold_left_app. apply sched_rtc. Qed.

Definition statuses (w : World) : list (string * string) := (fun r => (ar_agent_id r, ar_status r)) <$> t_agents (w_db w).
Definition events (w : World) : list (string * string) := (fun o => (ob_agent_id o, ob_event_type o)) <$> ob_rows (t_outbox (w_db w)).

(** C37: Writing back a registration read before the transaction can undo a
    concurrent activation.  A revoke that read the row as PENDING_DNS and commits
    after the activation turns the ACTIVE row REVOKED without an AGENT_REVOKED
    event, so the log keeps the registration with no revocation of it; and a
    second [VerifyACME] that read it as PENDING_VALIDATION moves the ACTIVE row
    back to PENDING_DNS, with its AGENT_REGISTERED event already delivered. *)
Theorem stale_writes_undo_activation :
  (exists ps w ps' w', serves ps w /\ rtc (pool_step served) (ps, w) (ps', w') /\
    statuses w = [("a", StatusActive)] /\ statuses w' = [("a", StatusRevoked)] /\ events w' = [("a", TypeAgentRegistered)]) /\
  (exists ps w ps' w', serves ps w /\ rtc (pool_step served) (ps, w) (ps', w') /\
    statuses w = [("a", StatusActive)] /\ statuses w' = [("a", StatusPendingDNS)] /\ events w' = [("a", TypeAgentRegistered)]).
Proof.
  assert (HR : forall is1 is2 s', statuses (race is1).2 = [("a", StatusActive)] -> statuses (race (is1 ++ is2)).2 = [("a", s')] ->
    events (race (is1 ++ is2)).2 = [("a", TypeAgentRegistered)] ->
    exists ps w ps' w', serves ps w /\ rtc (pool_step served) (ps, w) (ps', w') /\
      statuses w = [("a", StatusActive)] /\ statuses w' = [("a", s')] /\ events w' = [("a", TypeAgentRegistered)]).
  { intros is1 is2 s' H1 H2 H3. exists (race is1).1, (race is1).2, (race (is1 ++ is2)).1, (race (is1 ++ is2)).2.
    split_and!; [apply race_serves|rewrite <- !surjective_pairing; apply race_app|done..]. }
  split.
  - apply (HR [(0, 30); (1, 30); (3, 3); (2, 30)]%nat [(3, 30)]%nat); vm_compute; reflexivity.
  - apply (HR [(0, 30); (1, 6); (4, 30); (2, 30)]%nat [(1, 30)]%nat); vm_compute; reflexivity.
Qed.
