(* ===== verification/RaRevocation.v ===== *)
(** What the revocation transaction does ([Revoke] of [lifecycle.go] and
    [revocation.go]): the loop that rejects pending requests ends and equals one
    bulk update, and a committed revocation leaves nothing of the agent behind. *)
From stdpp Require Import gmap relations.
From S2P Require Import Prelude GoStrings GoTime DomainErrors SemVer AnsName Endpoint Lifecycle LifecycleSpec Discovery.
From S2P Require Import TlEvent Outbox OutboxSpec Concurrent RaEvents RaStore RaService RaServiceInv RaServiceSpec RaServiceProps.

#[local] Set Default Goal Selector "!".
#[local] Open Scope Z_scope.

(** ** Rejecting pending requests *)

Definition reject_row (now : Time) (r : csrRow) : csrRow :=
  {| cr_csr_id := cr_csr_id r; cr_agent_id := cr_agent_id r; cr_type := cr_type r; cr_pem := cr_pem r;
     cr_status := CSRStatusRejected; cr_submitted_ms := cr_submitted_ms r; cr_processed_ms := nullableMs now;
     cr_rejection := Some "Agent revoked" |}.

(** The bulk update: every pending request of the agent and kind is rejected. *)
Definition reject_all (x kind : string) (now : Time) (rows : list csrRow) : list csrRow :=
  (fun r => if pending_row x kind r then reject_row now r else r) <$> rows.

Lemma latest_fold l acc :
  match fold_left latest_submitted l acc with
  | Some r => r ∈ l \/ acc = Some r
  | None => l = [] /\ acc = None
  end.
Proof.
  revert acc. induction l as [|r l IH]; intros acc; cbn [fold_left]; [destruct acc; auto|].
  specialize (IH (latest_submitted acc r)). destruct (fold_left _ l _) as [r'|].
  - destruct IH as [?|E]; [left; by right|]. unfold latest_submitted in E. destruct acc as [b|]; [|left; by simplify_eq; left].
    case_if_in E; simplify_eq; [left; left|by right].
  - destruct IH as [_ E]. unfold latest_submitted in E. destruct acc; [by case_if_in E|done].
Qed.

Lemma latest_pending_spec d x kind :
  match latest_pending d x kind with
  | Some r => r ∈ t_csrs d /\ pending_row x kind r = true
  | None => forall r, r ∈ t_csrs d -> pending_row x kind r = false
  end.
Proof.
  unfold latest_pending. pose proof (latest_fold (filter (fun r => pending_row x kind r = true) (t_csrs d)) None) as H.
  destruct (fold_left _ _ _) as [r|].
  - destruct H as [H|H]; [|done]. by apply list_elem_of_filter in H as [? ?].
  - destruct H as [H _]. intros r Hr. apply not_true_iff_false. intros Hp. eapply not_elem_of_nil. rewrite <- H.
    by apply list_elem_of_filter.
Qed.

Definition pending_count (x kind : string) (rows : list csrRow) : nat :=
  length (filter (fun r => pending_row x kind r = true) rows).

(** One turn of the loop: the request found is rejected. *)
Lemma reject_one d x kind now r :
  NoDup (cr_csr_id <$> t_csrs d) -> kind ∈ [CSRTypeIdentity; CSRTypeServer] ->
  latest_pending d x kind = Some r ->
  exists rejected rows, CSR_MarkRejected (csr_toDomain r) "Agent revoked" now = Ok rejected /\
    SaveCSR x rejected d = Ok (tt, set_csrs d rows) /\
    reject_all x kind now rows = reject_all x kind now (t_csrs d) /\ (pending_count x kind rows < pending_count x kind (t_csrs d))%nat /\
    cr_csr_id <$> rows = cr_csr_id <$> t_csrs d.
Proof.
  intros HN Hk HL. pose proof (latest_pending_spec d x kind) as HP. rewrite HL in HP. destruct HP as [Hr Hp].
  pose proof Hp as Hp'. unfold pending_row in Hp'. apply andb_true_iff in Hp' as [[Ha Ht]%andb_true_iff Hs].
  apply String.eqb_eq in Ha, Ht, Hs.
  assert (Hty : csr_Type (csr_toDomain r) = kind).
  { cbn. rewrite Ht. destruct (String.eqb_spec kind "") as [->|]; [|done]. by apply elem_of_cons in Hk as [?|Hk%list_elem_of_singleton]. }
  eexists _, ((fun r' => if String.eqb (cr_csr_id r') (cr_csr_id r) then reject_row now r' else r') <$> t_csrs d).
  split; [unfold CSR_MarkRejected; cbn; rewrite Hs; reflexivity|]. set (rej := {| csr_CSRID := _ |}).
  assert (Hupd : forall r', upd_csr rej r' = reject_row now r') by done. cbn zeta. split_and!.
  - unfold SaveCSR. assert (csr_Type rej = kind) as -> by exact Hty. assert (csr_CSRID rej = cr_csr_id r) as -> by done. cbn zeta.
    match goal with |- context [negb (one_of ?k ?l)] => assert (one_of k l = true) as -> end.
    { apply one_of_In. case_if; [left|done]. }
    cbn [negb].
    assert (existsb (fun r' => String.eqb (cr_csr_id r') (cr_csr_id r)) (t_csrs d) = true) as ->; [|done].
    apply existsb_exists. exists r. split; [by apply list_elem_of_In|apply String.eqb_refl].
  - unfold reject_all. rewrite <- list_fmap_compose. apply list_fmap_ext. intros i r' Hi. unfold compose.
    destruct (String.eqb_spec (cr_csr_id r') (cr_csr_id r)) as [E|E]; [|done].
    rewrite (NoDup_key cr_csr_id _ r' r HN (list_elem_of_lookup_2 _ _ _ Hi) Hr E), Hp. unfold pending_row at 1. cbn.
    by rewrite andb_false_r.
  - unfold pending_count. clear -Hr Hp. induction (t_csrs d) as [|r' rows IH]; [by apply not_elem_of_nil in Hr|]. cbn [fmap list_fmap].
    assert (Hle : forall rows, (length (filter (fun r0 => pending_row x kind r0 = true)
              ((fun r' => if String.eqb (cr_csr_id r') (cr_csr_id r) then reject_row now r' else r') <$> rows)) <=
              length (filter (fun r0 => pending_row x kind r0 = true) rows))%nat).
    { clear. induction rows as [|r' rows IH]; [done|]. cbn [fmap list_fmap]. rewrite !filter_cons.
      destruct (String.eqb (cr_csr_id r') (cr_csr_id r)).
      - rewrite decide_False by (unfold pending_row; cbn; by rewrite andb_false_r). case_decide; cbn; lia.
      - case_decide; cbn; lia. }
    rewrite !filter_cons. apply elem_of_cons in Hr as [<-|Hr].
    + rewrite String.eqb_refl, decide_False by (unfold pending_row; cbn; by rewrite andb_false_r). rewrite decide_True by done. cbn.
      specialize (Hle rows). lia.
    + specialize (IH Hr). destruct (String.eqb (cr_csr_id r') (cr_csr_id r)).
      * rewrite decide_False by (unfold pending_row; cbn; by rewrite andb_false_r). case_decide; cbn; lia.
      * case_decide; cbn; lia.
  - rewrite <- list_fmap_compose. apply list_fmap_ext. intros i r' _. unfold compose. by case_if.
Qed.

Lemma set_csrs_twice d a b : set_csrs (set_csrs d a) b = set_csrs d b.
Proof. done. Qed.
Lemma set_csrs_same d : set_csrs d (t_csrs d) = d.
Proof. by destruct d. Qed.

Lemma reject_pending_run fuel x kind now d :
  NoDup (cr_csr_id <$> t_csrs d) -> kind ∈ [CSRTypeIdentity; CSRTypeServer] -> (pending_count x kind (t_csrs d) < fuel)%nat ->
  reject_pending fuel x kind now d = Ok (tt, set_csrs d (reject_all x kind now (t_csrs d))).
Proof.
  revert d. induction fuel as [|fuel IH]; intros d HN Hk Hf; [lia|]. cbn [reject_pending].
  unfold mbind, tx_bind, FindLatestPendingCSRByType, reads. destruct (latest_pending d x kind) as [r|] eqn:HL; cbn [fmap option_fmap option_map].
  - destruct (reject_one d x kind now r HN Hk HL) as (rej & rows & HR & HS & HA & HC & HI). unfold lift. rewrite HR. cbn [dom].
    rewrite HS. rewrite (IH (set_csrs d rows)); cbn [t_csrs set_csrs]; [by rewrite HA|by rewrite HI|done|lia].
  - pose proof (latest_pending_spec d x kind) as HP. rewrite HL in HP. unfold mret, tx_ret. do 2 f_equal.
    rewrite <- (set_csrs_same d) at 1. f_equal. unfold reject_all. symmetry. rewrite <- (list_fmap_id (t_csrs d)) at 2.
    apply list_fmap_ext. intros i r Hi. by rewrite (HP r (list_elem_of_lookup_2 _ _ _ Hi)).
Qed.

Lemma pending_count_le x kind rows : (pending_count x kind rows <= length rows)%nat.
Proof. unfold pending_count. apply length_filter. Qed.

(** ** Revoking certificate rows *)

Definition revoked_by (certs : list StoredCertificate) (r : certRow) : bool :=
  existsb (fun c => String.eqb (sc_CertStatus c) CertStatusValid && (ce_id r =? sc_InternalID c)) certs.

Definition revoke_cert_rows (certs : list StoredCertificate) (rows : list certRow) : list certRow :=
  (fun r => if revoked_by certs r then set_cert_status CertStatusRevoked r else r) <$> rows.

Lemma revoke_rows_run certs d : revoke_rows certs d = Ok (tt, set_certs d (revoke_cert_rows certs (t_certs d)) (t_certs_seq d)).
Proof.
  revert d. unfold revoke_rows. induction certs as [|c certs IH]; intros d; cbn [tx_for].
  { unfold mret, tx_ret, revoke_cert_rows. cbn [revoked_by existsb]. rewrite list_fmap_id. by destruct d. }
  unfold mbind, tx_bind. destruct (String.eqb (sc_CertStatus c) CertStatusValid) eqn:Ev.
  - cbn [UpdateCertificateStatus]. rewrite IH. cbn [t_certs t_certs_seq set_certs]. unfold revoke_cert_rows. rewrite <- list_fmap_compose.
    match goal with |- Ok (tt, set_certs _ ?a _) = Ok (tt, set_certs _ ?b _) => assert (a = b) as ->; [|done] end. apply list_fmap_ext. intros i r _. unfold compose, revoked_by. cbn [existsb]. rewrite Ev. cbn [andb].
    change (sc_InternalID (StoredCertificate_Revoke c)) with (sc_InternalID c).
    destruct (ce_id r =? sc_InternalID c) eqn:Ei; [|done]. cbn [orb ce_id set_cert_status]. by case_match.
  - unfold mret, tx_ret. rewrite IH. unfold revoke_cert_rows.
    match goal with |- Ok (tt, set_certs _ ?a _) = Ok (tt, set_certs _ ?b _) => assert (a = b) as ->; [|done] end. apply list_fmap_ext. intros i r _. unfold revoked_by. cbn [existsb].
    by rewrite Ev.
Qed.

Lemma revoked_certs_invalid d x r :
  r ∈ revoke_cert_rows (identity_certs d x) (t_certs d) -> identity_row x r = true -> ce_status r <> CertStatusValid.
Proof.
  intros (r0 & -> & Hr0)%list_elem_of_fmap. destruct (revoked_by _ r0) eqn:E; [done|]. intros Hi Hv.
  apply not_true_iff_false in E. apply E, existsb_exists. exists (cert_toDomain r0). split.
  - apply list_elem_of_In, list_elem_of_fmap. exists r0. split; [done|]. apply list_elem_of_In. rewrite <- in_rev.
    by apply list_elem_of_In, list_elem_of_filter.
  - cbn. by rewrite Hv, Z.eqb_refl.
Qed.

(** ** The rows of other agents *)

(** An update of the rows of one key leaves the others as they are. *)
Lemma others_fmap {A} (key : A -> string) (f : A -> A) (x : string) (l : list A) :
  (forall r, key (f r) = key r) -> (forall r, r ∈ l -> key r <> x -> f r = r) ->
  filter (fun r => key r <> x) (f <$> l) = filter (fun r => key r <> x) l.
Proof.
  intros Hk. induction l as [|r l IH]; intros Hf; [done|]. cbn [fmap list_fmap]. rewrite !filter_cons, Hk, IH by (intros r' Hr'; apply Hf; by right).
  case_decide as Hx; [|done]. by rewrite Hf by (done || left).
Qed.

(** Every row of an agent other than [x] is in its table as it was, in the same
    order, and no row of another agent is added. *)
Record others_kept (x : string) (d d' : DB) : Prop := {
  ok_agents : filter (fun r => ar_agent_id r <> x) (t_agents d') = filter (fun r => ar_agent_id r <> x) (t_agents d);
  ok_certs : filter (fun r => ce_agent_id r <> x) (t_certs d') = filter (fun r => ce_agent_id r <> x) (t_certs d);
  ok_csrs : filter (fun r => cr_agent_id r <> x) (t_csrs d') = filter (fun r => cr_agent_id r <> x) (t_csrs d);
  ok_renewals : filter (fun r => rw_agent_id r <> x) (t_renewals d') = filter (fun r => rw_agent_id r <> x) (t_renewals d);
  ok_outbox : filter (fun r => ob_agent_id r <> x) (ob_rows (t_outbox d')) = filter (fun r => ob_agent_id r <> x) (ob_rows (t_outbox d));
  ok_endpoints : t_endpoints d' = t_endpoints d;
  ok_byoc : t_byoc d' = t_byoc d;
  ok_seals : t_seals d' = t_seals d
}.

#[export] Instance others_kept_preorder x : PreOrder (others_kept x).
Proof. split; [by split|]. intros a b c [] []. split; congruence. Qed.

Lemma csrs_others x kind now rows :
  filter (fun r => cr_agent_id r <> x) (reject_all x kind now rows) = filter (fun r => cr_agent_id r <> x) rows.
Proof.
  apply (others_fmap cr_agent_id); [intros r; by case_if|]. intros r _ Hx. destruct (pending_row x kind r) eqn:E; [|done].
  unfold pending_row in E. b2p. done.
Qed.

Lemma certs_others d x : NoDup (ce_id <$> t_certs d) ->
  filter (fun r => ce_agent_id r <> x) (revoke_cert_rows (identity_certs d x) (t_certs d)) = filter (fun r => ce_agent_id r <> x) (t_certs d).
Proof.
  intros HN. apply (others_fmap ce_agent_id); [intros r; by case_if|]. intros r Hr Hx. destruct (revoked_by _ r) eqn:E; [|done]. exfalso.
  apply existsb_exists in E as (c & Hc%list_elem_of_In & Hv). apply andb_true_iff in Hv as [_ Hid%Z.eqb_eq].
  apply list_elem_of_fmap in Hc as (r' & -> & Hr'). apply list_elem_of_In, in_rev, list_elem_of_In, list_elem_of_filter in Hr' as [Hi Hr'].
  rewrite (NoDup_key ce_id _ r r' HN Hr Hr' Hid) in Hx. unfold identity_row in Hi. b2p. done.
Qed.

Lemma outbox_others o x now :
  filter (fun r => ob_agent_id r <> x) (ob_rows (CancelPending o x now)) = filter (fun r => ob_agent_id r <> x) (ob_rows o).
Proof.
  unfold CancelPending. cbn [update_where fst ob_rows]. apply (others_fmap ob_agent_id); [intros r; by case_if|]. intros r _ Hx.
  destruct (String.eqb_spec (ob_agent_id r) x); done.
Qed.

(** ** Cancelling the agent's other work *)

Section Revocation.
Context `{U : UnicodeTables, UL : !UnicodeLaws U} `{X : PemX509} `{C : Canonicalizer} (P : Ports).

Lemma cancelRenewal_spec d log x now :
  DInv d log -> Time_IsZero now = false ->
  hoare (cancelRenewalForRevocation P x now) d (fun _ d' =>
    exists rows, d' = set_renewals d rows (t_renewals_seq d) /\ pending_renewal d' x = None /\
      filter (fun r => rw_agent_id r <> x) rows = filter (fun r => rw_agent_id r <> x) (t_renewals d)).
Proof.
  intros [HB _] Hnow u d'. unfold cancelRenewalForRevocation, FindPendingByAgentID.
  destruct (pending_renewal d x) as [r|] eqn:EP; cbn [one_row mbind result_bind]; [|intros [= _ <-]; exists (t_renewals d); by destruct d].
  pose proof EP as EP'. apply last_Some in EP' as [l El].
  assert (Hr : r ∈ t_renewals d /\ rw_agent_id r = x /\ rw_open r = true).
  { assert (r ∈ filter (fun r => rw_agent_id r = x /\ is_null (rw_completed_ms r) = true) (t_renewals d)) as H by (rewrite El; set_solver).
    apply list_elem_of_filter in H as [[? ?] ?]. done. }
  destruct Hr as (Hr & Hx & Ho). unfold mbind, tx_bind, lift, Renewal_MarkFailed. case_if; [done|]. cbn [dom]. unfold RenewalStore_Save.
  destruct (b_rseq _ _ HB) as [_ HF]. rewrite Forall_forall in HF. specialize (HF r Hr).
  cbn [rn_ID set_renewal renewal_toDomain]. destruct (Z.eqb_spec (rw_id r) 0) as [?|_]; [lia|]. case_if; [|done]. intros [= _ <-].
  eexists. split; [reflexivity|]. split.
  2: { apply (others_fmap rw_agent_id); [intros r'; by case_if|]. intros r' Hr' Hx'. destruct (renewal_open (rw_id r) r') eqn:E; [|done].
       unfold renewal_open in E. b2p. by rewrite (NoDup_key rw_id _ r' r (b_rids _ _ HB) Hr' Hr) in Hx'. }
  unfold pending_renewal. cbn [t_renewals set_renewals]. apply last_None, filter_none.
  intros r' (r0 & -> & Hr0)%list_elem_of_fmap [Ha Hn]. destruct (renewal_open (rw_id r) r0) eqn:E.
  - cbn in Hn. unfold nullableMs in Hn. by rewrite Hnow in Hn.
  - rewrite (b_ropen _ _ HB r0 r Hr0 Hr Hn Ho) in E by congruence. unfold renewal_open in E. rewrite Z.eqb_refl in E.
    unfold rw_open in Ho. by rewrite Ho in E.
Qed.

Definition no_open_work (d : DB) (x : string) : Prop :=
  pending_renewal d x = None /\
  (forall kind r, kind ∈ [CSRTypeIdentity; CSRTypeServer] -> r ∈ t_csrs d -> pending_row x kind r = false) /\
  (forall o, o ∈ ob_rows (t_outbox d) -> ob_agent_id o = x -> ob_open o = true -> is_revoked o = true).

Lemma reject_all_clear x kind kind' now rows r :
  r ∈ reject_all x kind now rows -> (kind' = kind \/ forall r0, r0 ∈ rows -> pending_row x kind' r0 = false) -> pending_row x kind' r = false.
Proof.
  intros (r0 & -> & Hr0)%list_elem_of_fmap Hk. destruct (pending_row x kind r0) eqn:E.
  - unfold pending_row. cbn. by rewrite andb_false_r.
  - destruct Hk as [->|Hk]; [done|by apply Hk].
Qed.

Lemma reject_all_ids x kind now rows : cr_csr_id <$> reject_all x kind now rows = cr_csr_id <$> rows.
Proof. unfold reject_all. rewrite <- list_fmap_compose. apply list_fmap_ext. intros i r _. unfold compose. by case_if. Qed.

Lemma cancelled_outbox o x now r :
  r ∈ ob_rows (CancelPending o x now) -> ob_agent_id r = x -> ob_open r = true -> is_revoked r = true.
Proof.
  unfold CancelPending. cbn [update_where fst ob_rows]. intros (r0 & -> & _)%list_elem_of_fmap.
  destruct (_ && _) eqn:E; [by unfold ob_open; cbn; rewrite andb_false_r|]. intros <- Ho. unfold ob_open in Ho.
  rewrite String.eqb_refl in E. cbn in E. b2p. destruct (is_revoked r0); [done|]. cbn in E.
  destruct (is_null (ob_sent_at_ms r0)), (is_null (ob_cancelled_at_ms r0)); done.
Qed.

Lemma cancelAgentModifications_spec d log x now :
  DInv d log -> Time_IsZero now = false -> p_outbox P = true -> NoDup (cr_csr_id <$> t_csrs d) ->
  hoare (cancelAgentModifications P x now) d (fun _ d' =>
    t_agents d' = t_agents d /\ t_agents_seq d' = t_agents_seq d /\ t_certs d' = t_certs d /\ t_certs_seq d' = t_certs_seq d /\
    others_kept x d d' /\ no_open_work d' x).
Proof.
  intros HI Hnow Ho HN. unfold cancelAgentModifications. rewrite Ho. apply hoare_bind. intros u1 d1 [= _ <-].
  pose proof (outbox_op_adv d log (OpCancelPending x (p_now P)) HI I) as [I1 _]. cbn [OutboxSpec.step] in I1.
  apply hoare_bind. eapply hoare_mono; [by apply (cancelRenewal_spec _ log)|]. cbn beta. intros _ d2 (rows & -> & HR & HRo).
  apply hoare_bind. intros n d3 [= <- <-]. apply hoare_bind. intros u3 d3 E3.
  rewrite reject_pending_run in E3; [|done|left|pose proof (pending_count_le x CSRTypeIdentity (t_csrs d)); cbn [t_csrs set_renewals set_outbox]; lia]. injection E3 as <- <-.
  intros u4 d4 E4. rewrite reject_pending_run in E4; cbn [t_csrs set_csrs set_renewals set_outbox] in *;
    [|by rewrite reject_all_ids|right; left|].
  - injection E4 as <- <-. cbn. split_and!; [done..| |].
    { split; cbn; [done|done|by rewrite !csrs_others|done|apply outbox_others|done..]. }
    split_and!; [done| |].
    + cbn. intros kind r Hk Hr. eapply reject_all_clear; [exact Hr|]. apply elem_of_cons in Hk as [->|Hk%list_elem_of_singleton]; [|by left].
      right. intros r0 Hr0. eapply reject_all_clear; [exact Hr0|by left].
    + cbn. intros o. apply cancelled_outbox.
  - pose proof (pending_count_le x CSRTypeServer (reject_all x CSRTypeIdentity now (t_csrs d))) as HL.
    unfold reject_all in HL at 2. rewrite length_fmap in HL. lia.
Qed.

Lemma save_agents reg d : r_ID reg <> 0 ->
  hoare (AgentStore_Save reg) d (fun reg' d' => reg' = reg /\ d' = set_agents d (save_fun reg <$> t_agents d) (t_agents_seq d)).
Proof.
  intros Hid reg' d'. unfold AgentStore_Save. destruct (Z.eqb_spec (r_ID reg) 0); [done|]. case_if; [|done]. by intros [= <- <-].
Qed.

(** The last statements: the certificate rows and the event. *)
Lemma revocation_tail cur certs reason ver now d :
  p_outbox P = true ->
  hoare (_ ← revoke_rows certs; e ← lift (revoked_event P cur certs reason ver now); _ ← enqueueTLEvent P TypeAgentRevoked cur e now; mret cur) d
    (fun _ d' => exists o, ob_rows (t_outbox d') = ob_rows (t_outbox d) ++ [o] /\
       is_revoked o = true /\ ob_agent_id o = r_AgentID cur /\ ob_open o = true /\
       t_agents d' = t_agents d /\ t_certs d' = revoke_cert_rows certs (t_certs d) /\ t_csrs d' = t_csrs d /\
       t_renewals d' = t_renewals d /\ t_endpoints d' = t_endpoints d /\ t_byoc d' = t_byoc d /\ t_seals d' = t_seals d).
Proof.
  intros Ho. apply hoare_bind. intros u d1. rewrite revoke_rows_run. intros [= _ <-]. apply hoare_bind, hoare_lift. intros e _.
  apply hoare_bind. unfold enqueueTLEvent. rewrite Ho. cbn [negb]. apply hoare_bind, hoare_lift. intros p _.
  apply hoare_bind. intros n d2. unfold Outbox_Enqueue, outbox_tx. cbn [t_outbox set_certs]. unfold Enqueue.
  destruct p; [done| |]; (destruct (negb (schema_ok _)); [done|]); cbn [insert_row]; intros [= _ <-]; do 2 apply hoare_ret; eexists;
    (split; [reflexivity|done]).
Qed.

(** Saving a revoked registration. *)
Lemma revoked_save d log cur r :
  Base d log -> r ∈ t_agents d -> r_ID cur = ar_id r -> ar_status r <> StatusRevoked -> r_Status cur = StatusRevoked ->
  (forall r', r' ∈ save_fun cur <$> t_agents d -> ar_agent_id r' = ar_agent_id r -> ar_status r' = StatusRevoked) /\
  filter (fun r' => ar_agent_id r' <> ar_agent_id r) (save_fun cur <$> t_agents d) = filter (fun r' => ar_agent_id r' <> ar_agent_id r) (t_agents d).
Proof.
  intros HB Hr Hid Hnr Hst. unfold save_fun, save_matches. rewrite Hst. split.
  - intros r' (r0 & -> & Hr0)%list_elem_of_fmap. assert (Ha : forall b : bool, ar_agent_id (if b then set_cols r0 (agentCols_of cur) else r0) = ar_agent_id r0) by by intros [].
    rewrite Ha. intros E. rewrite (NoDup_key ar_agent_id _ r0 r (b_agent_ids _ _ HB) Hr0 Hr E), Hid, Z.eqb_refl, orb_true_r.
    cbn [andb]. assert (one_of StatusRevoked [StatusDeprecated; StatusRevoked] = true) as -> by done. by rewrite orb_true_r.
  - apply (others_fmap ar_agent_id); [intros r'; by case_if|]. intros r' Hr' Hx. destruct (Z.eqb_spec (ar_id r') (r_ID cur)) as [E|]; [|done].
    exfalso. apply Hx. f_equal. apply (NoDup_key ar_id _ _ _ (b_ids _ _ HB) Hr' Hr). congruence.
Qed.

(** ** Theorems *)

(** C39: The loop that rejects the agent's pending requests one by one, looking
    each time for the latest, ends after at most as many turns as there are
    requests, and its effect is that of rejecting all of them at once: no other
    request changes. *)
Theorem reject_pending_terminates fuel x kind now d :
  NoDup (cr_csr_id <$> t_csrs d) -> kind ∈ [CSRTypeIdentity; CSRTypeServer] -> (length (t_csrs d) < fuel)%nat ->
  reject_pending fuel x kind now d = Ok (tt, set_csrs d (reject_all x kind now (t_csrs d))).
Proof. intros HN Hk Hf. apply reject_pending_run; [done|done|]. pose proof (pending_count_le x kind (t_csrs d)). lia. Qed.

(** C4: A committed revocation is complete: if the transaction of [Revoke]
    commits for a registration that was not revoked, the registration is REVOKED,
    it has no VALID identity certificate, no pending certificate request and no
    open renewal, its only undelivered events are revocations, an open
    AGENT_REVOKED event closes the outbox; and no row of another agent, in any
    table, is changed, added or removed.  Events go through the outbox, the clock
    does not show the zero time, and the primary keys of the request and
    certificate tables are unique. *)
Theorem revocation_complete ps w reg certs reason ver now cur d' r :
  serves ps w -> NoDup (cr_csr_id <$> t_csrs (w_db w)) -> NoDup (ce_id <$> t_certs (w_db w)) ->
  r ∈ t_agents (w_db w) -> ar_agent_id r = r_AgentID reg -> ar_status r <> StatusRevoked ->
  p_outbox P = true -> Time_IsZero now = false ->
  commit_revocation P reg certs reason ver now (w_db w) = Ok (cur, d') ->
  let x := r_AgentID reg in
  (forall r', r' ∈ t_agents d' -> ar_agent_id r' = x -> ar_status r' = StatusRevoked) /\
  (forall c, c ∈ t_certs d' -> identity_row x c = true -> ce_status c <> CertStatusValid) /\
  no_open_work d' x /\
  (exists rows o, ob_rows (t_outbox d') = rows ++ [o] /\ ob_agent_id o = x /\ is_revoked o = true /\ ob_open o = true) /\
  others_kept x (w_db w) d'.
Proof.
  intros HS HN HC Hr Hx Hnr Ho Hnow HE x. pose proof (serves_Inv _ _ HS) as HI. pose proof HI as [HB _].
  revert cur d' HE. apply (hoare_bind (FindByAgentID _)). eapply hoare_mono; [apply (FindByAgentID_hoare _ _ _ HB)|].
  intros c0 d0 (-> & _ & Hc0 & r0 & Hr0 & Ha0 & [Hm Hs _]).
  assert (r0 = r) as -> by (apply (NoDup_key ar_agent_id _ _ _ (b_agent_ids _ _ HB)); [done|done|congruence]).
  destruct (String.eqb_spec (r_Status c0) StatusRevoked) as [E|_]; [congruence|]. apply hoare_bind, hoare_lift. intros c1 E1%dom_Ok.
  unfold Revoke in E1. do 2 (case_if_in E1; [done|]). apply bind_Ok in E1 as (c2 & [_ ->]%transitionTo_Ok & [= <-]).
  match goal with |- context [cancelAgentModifications P (r_AgentID ?c)] => set (c3 := c) end.
  apply hoare_bind. intros latest d1 [= <- <-]. case_if; [apply hoare_throw|]. apply hoare_bind.
  assert (Hc3 : r_AgentID c3 = x) by done. rewrite Hc3.
  eapply hoare_mono; [by apply (cancelAgentModifications_spec _ (w_log w))|]. cbn beta. intros _ d2 (A2 & Q2 & C2 & S2 & K2 & W1 & W2 & W3).
  apply hoare_bind. eapply hoare_mono; [apply save_agents; cbn; rewrite (m_id _ _ Hm)|].
  { destruct (b_seq _ _ HB) as [_ HF]. rewrite Forall_forall in HF. specialize (HF r Hr). lia. }
  cbn beta. intros c4 d3 [-> ->]. eapply hoare_mono; [by apply revocation_tail|]. cbn beta.
  intros c5 d5 (o & OB5 & O1 & O2 & O3 & A5 & C5 & R5 & N5 & E5 & B5 & L5). cbn in A5, C5, R5, N5, OB5, E5, B5, L5. rewrite A2 in A5. rewrite C2 in C5.
  destruct (revoked_save _ _ c3 r HB Hr (m_id _ _ Hm) Hnr eq_refl) as [RS1 RS2].
  rewrite A5, C5, OB5. rewrite Hx in RS1, RS2. split_and!; [done| |..].
  - apply revoked_certs_invalid.
  - split_and!.
    + unfold pending_renewal in *. by rewrite N5.
    + by rewrite R5.
    + rewrite OB5. intros o' [H|H%list_elem_of_singleton]%elem_of_app; [by apply W3|by subst].
  - exists (ob_rows (t_outbox d2)), o. split_and!; congruence.
  - destruct K2 as [_ _ K3 K4 K5 K6 K7 K8]. split; rewrite ?A5, ?C5, ?R5, ?N5, ?OB5, ?E5, ?B5, ?L5; [done|by apply certs_others|done|done| |done..].
    rewrite filter_app, K5. rewrite filter_cons, decide_False by (intros H; apply H; congruence). by rewrite app_nil_r.
Qed.
End Revocation.

(** ** Witnesses *)

Definition demo_csr (id : string) (submitted : Z) (status : string) : csrRow :=
  {| cr_csr_id := id; cr_agent_id := "a"; cr_type := CSRTypeServer; cr_pem := "pem"; cr_status := status;
     cr_submitted_ms := submitted; cr_processed_ms := None; cr_rejection := None |}.

Definition demo_csrs : DB := set_csrs empty_db [demo_csr "1" 5 "PENDING"; demo_csr "2" 9 "SIGNED"; demo_csr "3" 7 "PENDING"].

Lemma reject_pending_terminates_witness :
  exists d', reject_pending 4 "a" CSRTypeServer (UnixMilli 10) demo_csrs = Ok (tt, d') /\
    cr_status <$> t_csrs d' = [CSRStatusRejected; "SIGNED"; CSRStatusRejected].
Proof.
  eexists. split; [apply (reject_pending_terminates 4 "a" CSRTypeServer (UnixMilli 10) demo_csrs)|vm_compute; reflexivity].
  - apply (bool_decide_unpack _). vm_compute. reflexivity.
  - apply (bool_decide_unpack _). vm_compute. reflexivity.
  - vm_compute. lia.
Defined.

#[local] Existing Instance latin_tables.
#[local] Existing Instance demo_pem.
#[local] Existing Instance demo_canonicalizer.

Definition demo_found : result serr (AgentRegistration * DB) := FindByAgentID "a" (w_db demo_run.2).
Definition demo_reg_a : AgentRegistration := match demo_found with Ok (reg, _) => reg | Err _ => demo_reg StatusActive end.

#[local] Notation demo_revocation :=
  (commit_revocation (demo_ports "a") demo_reg_a (identity_certs (w_db demo_run.2) "a") RevocationKeyCompromise SchemaVersionV2
    (UnixMilli 1700000001000) (w_db demo_run.2)).

Lemma demo_revocation_ok : exists cur d', demo_revocation = Ok (cur, d').
Proof.
  assert (H : is_ok demo_revocation = true) by (vm_compute; reflexivity). destruct demo_revocation as [[cur d']|e]; [by eauto|discriminate H].
Qed.

Lemma demo_agent_id : r_AgentID demo_reg_a = "a".
Proof. vm_compute. reflexivity. Qed.

Lemma demo_ids : NoDup (cr_csr_id <$> t_csrs (w_db demo_run.2)) /\ NoDup (ce_id <$> t_certs (w_db demo_run.2)).
Proof. split; apply (bool_decide_unpack _); vm_compute; reflexivity. Qed.

Lemma demo_row : exists r, r ∈ t_agents (w_db demo_run.2) /\ ar_agent_id r = r_AgentID demo_reg_a /\ ar_status r <> StatusRevoked.
Proof. rewrite demo_run_rows, demo_agent_id. eexists. split; [left|]. split; [vm_compute; reflexivity|vm_compute; discriminate]. Qed.

Lemma demo_has_outbox : p_outbox (demo_ports "a") = true.
Proof. reflexivity. Qed.

Lemma demo_time : Time_IsZero (UnixMilli 1700000001000) = false.
Proof. reflexivity. Qed.

Lemma revocation_complete_witness :
  exists cur d', demo_revocation = Ok (cur, d') /\ no_open_work d' (r_AgentID demo_reg_a).
Proof.
  destruct demo_row as (r & Hr & Har & Hst). destruct demo_ids as [H1 H2]. destruct demo_revocation_ok as (cur & d' & E).
  exists cur, d'. split; [exact E|].
  destruct (revocation_complete (demo_ports "a") demo_run.1 demo_run.2 demo_reg_a (identity_certs (w_db demo_run.2) "a")
    RevocationKeyCompromise SchemaVersionV2 (UnixMilli 1700000001000) cur d' r demo_serves H1 H2 Hr Har Hst
    demo_has_outbox demo_time E) as (_ & _ & W & _). exact W.
Defined.
