(* ===== verification/Feed.v ===== *)
(** The agent-events feed of the registration authority:
    [internal/adapter/store/sqlite/feed.go] and [internal/ra/service/feed.go].

    The read model joins the outbox with the registration and endpoint rows of
    the agent, both keyed by a unique [agent_id].  The page it serves is the
    Finder's [EventPageResponse]: the two sides' wire types have the same JSON
    members. *)
From S2P Require Import Prelude GoStrings GoTime GoURL Endpoint Finder Outbox OutboxSpec.
From Stdlib Require Import Sorted.

#[local] Set Default Goal Selector "!".
#[local] Open Scope Z_scope.

(** ** The read model *)

Record RegRow := {
  rg_ans_name : string;
  rg_agent_host : string;
  rg_version : string;
  rg_display_name : string;
  rg_description : string
}.

(** The [endpoints] column: no row or empty, not decodable, or the endpoints. *)
Inductive endpoints_json := NoEndpoints | EndpointsOther | EndpointsOf (eps : list AgentEndpoint).

Record FeedDB := {
  db_outbox : Outbox;
  db_registrations : string -> option RegRow;
  db_endpoints : string -> endpoints_json;
  db_retention : Duration
}.

Record FeedRow := {
  fr_LogID : string;
  fr_EventType : string;
  fr_AgentID : string;
  fr_Payload : payload;
  fr_RegAnsName : string;
  fr_RegAgentHost : string;
  fr_RegVersion : string;
  fr_RegDisplayName : string;
  fr_RegDescription : string;
  fr_Endpoints : endpoints_json
}.

Record FeedQuery := { q_AfterLogID : string; q_Limit : Z; q_ProviderFilter : string }.

Definition retentionFloorMs (db : FeedDB) (now : Time) : Z :=
  if db_retention db <=? 0 then 0 else Time_UnixMilli (Time_Add now (- db_retention db)).

(** [SELECT id ... ORDER BY id ASC LIMIT 1] on a table in id order; 0 when there
    is no such row. *)
Definition resolveCursor (db : FeedDB) (lastLogID : string) (floorMs : Z) : Z :=
  if String.eqb lastLogID "" then 0 else
  match find_first (fun r => bool_decide (ob_log_id r = Some lastLogID) && negb (is_null (ob_sent_at_ms r)) &&
                             (floorMs <=? ob_created_at_ms r)) (ob_rows (db_outbox db)) with
  | Some r => ob_id r
  | None => 0
  end.

Definition feed_row (db : FeedDB) (r : OutboxRow) : FeedRow :=
  let reg := coalesce (db_registrations db (ob_agent_id r))
               {| rg_ans_name := ""; rg_agent_host := ""; rg_version := ""; rg_display_name := ""; rg_description := "" |} in
  {| fr_LogID := coalesce (ob_log_id r) ""; fr_EventType := ob_event_type r; fr_AgentID := ob_agent_id r;
     fr_Payload := ob_payload r; fr_RegAnsName := rg_ans_name reg; fr_RegAgentHost := rg_agent_host reg;
     fr_RegVersion := rg_version reg; fr_RegDisplayName := rg_display_name reg; fr_RegDescription := rg_description reg;
     fr_Endpoints := db_endpoints db (ob_agent_id r) |}.

(** [sent_at_ms IS NOT NULL AND log_id IS NOT NULL AND created_at_ms >= ?] *)
Definition visible (floorMs : Z) (r : OutboxRow) : bool :=
  negb (is_null (ob_sent_at_ms r)) && negb (is_null (ob_log_id r)) && (floorMs <=? ob_created_at_ms r).

Definition feedDefaultLimit : Z := 100.

Definition ReadFeed (db : FeedDB) (q : FeedQuery) (now : Time) : list FeedRow :=
  if negb (String.eqb (q_ProviderFilter q) "") then [] else
  let limit := if q_Limit q <=? 0 then feedDefaultLimit else q_Limit q in
  let floorMs := retentionFloorMs db now in
  let afterID := resolveCursor db (q_AfterLogID q) floorMs in
  feed_row db <$> take (Z.to_nat limit)
    (filter (fun r => visible floorMs r && (afterID <? ob_id r) = true) (ob_rows (db_outbox db))).

(** ** Items *)

Inductive feed_read_error := FPayload | FEndpoints.

Definition protocolToWire (p : Protocol) : string :=
  if String.eqb p ProtocolHTTPAPI then "HTTP-API" else
  if String.eqb p ProtocolA2A then "A2A" else
  if String.eqb p ProtocolMCP then "MCP" else p.

Definition transportToWire (t : Transport) : string :=
  if String.eqb t TransportStreamableHTTP then "STREAMABLE-HTTP" else
  if String.eqb t TransportJSONRPC then "JSON-RPC" else
  if String.eqb t TransportSSE then "SSE" else
  if String.eqb t TransportGRPC then "GRPC" else
  if String.eqb t TransportREST then "REST" else
  if String.eqb t TransportHTTP then "HTTP" else t.

Definition firstNonEmpty (vals : list string) : string :=
  match find_first (fun v => negb (is_blank v)) vals with Some v => v | None => "" end.

Definition feedEndpointsFromJSON (raw : endpoints_json) : result feed_read_error (list FeedEndpoint) :=
  match raw with
  | NoEndpoints => Ok []
  | EndpointsOther => Err FEndpoints
  | EndpointsOf eps =>
      Ok ((fun ep => {| fe_AgentURL := ep_AgentURL ep; fe_MetaDataURL := ep_MetadataURL ep;
                        fe_DocumentationURL := ep_DocumentationURL ep; fe_Protocol := protocolToWire (ep_Protocol ep);
                        fe_Functions := (fun fn => {| ff_ID := f_ID fn; ff_Name := f_Name fn; ff_Tags := f_Tags fn |}) <$> ep_Functions ep;
                        fe_Transports := transportToWire <$> ep_Transports ep |}) <$> eps)
  end.

(** The event inside the payload; an absent or [null] member leaves the zero
    value. *)
Definition payload_inner (p : payload) : result feed_read_error innerEvent :=
  match p with
  | PEmpty | PUndecodable => Err FPayload
  | PDecoded p =>
      match op_InnerEventCanonical p with
      | InnerAbsent | InnerNull => Ok {| ie_Canonical := ""; ie_AnsName := ""; ie_ExpiresAt := ""; ie_Timestamp := ""; ie_Agent := None |}
      | InnerOther => Err FPayload
      | InnerEvent e => Ok e
      end
  end.

Definition buildFeedItem (row : FeedRow) : result feed_read_error EventItem :=
  inner ← payload_inner (fr_Payload row);
  let ansName := firstNonEmpty [ie_AnsName inner; fr_RegAnsName row] in
  let '(agentHost, version) :=
    match ie_Agent inner with
    | Some a => (firstNonEmpty [ia_Host a; fr_RegAgentHost row], firstNonEmpty [ia_Version a; fr_RegVersion row])
    | None => (fr_RegAgentHost row, fr_RegVersion row)
    end in
  endpoints ← feedEndpointsFromJSON (fr_Endpoints row);
  Ok {| ev_LogID := fr_LogID row; ev_EventType := fr_EventType row; ev_CreatedAt := ie_Timestamp inner;
        ev_ExpiresAt := ie_ExpiresAt inner; ev_AgentID := fr_AgentID row; ev_AnsName := ansName;
        ev_AgentHost := agentHost; ev_AgentDisplayName := fr_RegDisplayName row;
        ev_AgentDescription := fr_RegDescription row; ev_Version := version; ev_ProviderID := "";
        ev_Endpoints := endpoints |}.

(** ** Pages *)

Definition EventsFeedDefaultLimit : Z := 100.
Definition EventsFeedMaxLimit : Z := 200.

Fixpoint mapM_res {E A B} (f : A -> result E B) (l : list A) : result E (list B) :=
  match l with
  | [] => Ok []
  | x :: l' => y ← f x; ys ← mapM_res f l'; Ok (y :: ys)
  end.

Definition ListEvents (db : FeedDB) (lastLogID : string) (limit : Z) (providerID : string) (now : Time)
  : result feed_read_error EventPageResponse :=
  let limit := if limit <=? 0 then EventsFeedDefaultLimit else limit in
  let limit := if EventsFeedMaxLimit <? limit then EventsFeedMaxLimit else limit in
  items ← mapM_res buildFeedItem
            (ReadFeed db {| q_AfterLogID := lastLogID; q_Limit := limit; q_ProviderFilter := providerID |} now);
  Ok {| pg_Items := items; pg_LastLogID := match last items with Some it => ev_LogID it | None => "" end |}.

(** ** What the feed serves *)

(** The rows visible at [now], in id order. *)
Definition visible_rows (db : FeedDB) (now : Time) : list OutboxRow :=
  filter (fun r => visible (retentionFloorMs db now) r = true) (ob_rows (db_outbox db)).

Lemma ReadFeed_visible db after limit now :
  0 < limit ->
  ReadFeed db {| q_AfterLogID := after; q_Limit := limit; q_ProviderFilter := "" |} now =
  feed_row db <$> take (Z.to_nat limit)
    (filter (fun r => resolveCursor db after (retentionFloorMs db now) < ob_id r) (visible_rows db now)).
Proof.
  intros Hl. unfold ReadFeed, visible_rows. cbn [q_ProviderFilter q_Limit q_AfterLogID negb String.eqb].
  destruct (Z.leb_spec limit 0); [lia|]. f_equal. f_equal. rewrite list_filter_filter. apply list_filter_iff.
  intros r. rewrite andb_true_iff, Z.ltb_lt. tauto.
Qed.

Lemma sorted_filter (P : OutboxRow -> Prop) `{forall r, Decision (P r)} (rows : list OutboxRow) :
  StronglySorted Z.lt (ob_id <$> rows) -> StronglySorted Z.lt (ob_id <$> filter P rows).
Proof.
  induction rows as [|r rows IH]; [done|]. cbn [fmap list_fmap]. intros Hs. inversion_clear Hs as [|? ? H1 H2].
  rewrite filter_cons. case_decide; [|by apply IH]. cbn [fmap list_fmap]. constructor; [by apply IH|].
  rewrite Forall_fmap, Forall_forall in *. intros x [_ Hx]%list_elem_of_filter. by apply H2.
Qed.

(** In a table in id order the rows after a given one are those with larger ids. *)
Lemma sorted_split pre c post :
  StronglySorted Z.lt (ob_id <$> (pre ++ c :: post)) -> filter (fun r => ob_id c < ob_id r) (pre ++ c :: post) = post.
Proof.
  intros Hs. rewrite filter_app, filter_cons_False by lia.
  assert (H : Forall (fun r => ob_id r < ob_id c) pre /\ Forall (fun r => ob_id c < ob_id r) post).
  { induction pre as [|x pre IH]; cbn in Hs; inversion_clear Hs as [|? ? H1 H2].
    - split; [constructor|]. by rewrite Forall_fmap in H2.
    - destruct (IH H1) as [I1 I2]. split; [|done]. constructor; [|done].
      rewrite Forall_fmap, Forall_forall in H2. apply (H2 c). set_solver. }
  destruct H as [H1 H2]. rewrite Forall_forall in H1, H2. rewrite filter_none, filter_all; [done|auto|].
  intros x Hx Hc. specialize (H1 x Hx). lia.
Qed.

Lemma find_first_unique {A} (f : A -> bool) (l : list A) c :
  c ∈ l -> f c = true -> (forall x, x ∈ l -> f x = true -> x = c) -> find_first f l = Some c.
Proof.
  induction l as [|y l IH]; [set_solver|]. intros Hc Hf Hu. cbn. destruct (f y) eqn:E.
  - f_equal. apply Hu; [left|done].
  - apply IH; [|done|intros; apply Hu; [by right|done]]. apply elem_of_cons in Hc as [->|?]; [congruence|done].
Qed.

Lemma visible_log db now r : r ∈ visible_rows db now -> exists l, ob_log_id r = Some l.
Proof.
  intros [Hv _]%list_elem_of_filter. unfold visible in Hv. destruct (ob_log_id r); [eauto|]. cbn in Hv. b2p. done.
Qed.

Lemma resolveCursor_row db now c l :
  NoDup (ob_log_id <$> visible_rows db now) -> c ∈ visible_rows db now -> ob_log_id c = Some l -> l <> "" ->
  resolveCursor db l (retentionFloorMs db now) = ob_id c.
Proof.
  intros Hn Hc Hl Hne. unfold resolveCursor. destruct (String.eqb_spec l ""); [done|].
  pose proof Hc as [Hv Hin]%list_elem_of_filter. unfold visible in Hv. b2p.
  rewrite (find_first_unique _ _ c); [done|done| |].
  - rewrite bool_decide_true by done. rewrite H. cbn. by apply Z.leb_le.
  - intros x Hx Hf. b2p.
    assert (Hxv : x ∈ visible_rows db now).
    { apply list_elem_of_filter. split; [|done]. unfold visible. rewrite H4, H2. cbn. by apply Z.leb_le. }
    apply list_elem_of_lookup in Hxv as (i & Hi), Hc as (j & Hj). assert (i = j) as ->; [|congruence].
    apply (NoDup_lookup _ i j (Some l) Hn); rewrite list_lookup_fmap; [by rewrite Hi; cbn; rewrite H2|by rewrite Hj; cbn; rewrite Hl].
Qed.

Lemma ReadFeed_start db limit now :
  inv (db_outbox db) -> 0 < limit ->
  ReadFeed db {| q_AfterLogID := ""; q_Limit := limit; q_ProviderFilter := "" |} now =
  feed_row db <$> take (Z.to_nat limit) (visible_rows db now).
Proof.
  intros [_ [_ Hp] _ _] Hl. rewrite ReadFeed_visible by done. f_equal. f_equal. apply filter_all.
  intros r [_ Hr]%list_elem_of_filter. rewrite Forall_forall in Hp. specialize (Hp r Hr). cbn. lia.
Qed.

Lemma ReadFeed_after db limit now pre c post l :
  inv (db_outbox db) -> 0 < limit -> NoDup (ob_log_id <$> visible_rows db now) ->
  visible_rows db now = pre ++ c :: post -> ob_log_id c = Some l -> l <> "" ->
  ReadFeed db {| q_AfterLogID := l; q_Limit := limit; q_ProviderFilter := "" |} now =
  feed_row db <$> take (Z.to_nat limit) post.
Proof.
  intros [Hs _ _ _] Hl Hn E Hlog Hne. rewrite ReadFeed_visible by done.
  rewrite (resolveCursor_row db now c l) by (done || (rewrite E; set_solver)).
  rewrite E, sorted_split; [done|]. rewrite <- E. by apply sorted_filter.
Qed.

(** The feed serves the delivered, retained rows in the order of their ids:
    from the start without a cursor, and after a cursor exactly the rows that
    follow the cursor's row, when the visible log ids are distinct. *)
Theorem feed_serves_in_order db limit now :
  inv (db_outbox db) -> 0 < limit -> NoDup (ob_log_id <$> visible_rows db now) ->
  ReadFeed db {| q_AfterLogID := ""; q_Limit := limit; q_ProviderFilter := "" |} now =
    feed_row db <$> take (Z.to_nat limit) (visible_rows db now) /\
  forall pre c post l, visible_rows db now = pre ++ c :: post -> ob_log_id c = Some l -> l <> "" ->
    ReadFeed db {| q_AfterLogID := l; q_Limit := limit; q_ProviderFilter := "" |} now =
    feed_row db <$> take (Z.to_nat limit) post.
Proof.
  intros HI Hl Hn. split; [by apply ReadFeed_start|]. intros pre c post l. by apply ReadFeed_after.
Qed.

(** *** Instances *)

Definition demo_db (ops : list op) : FeedDB :=
  {| db_outbox := fold_left step ops empty_outbox; db_registrations := fun _ => None;
     db_endpoints := fun _ => NoEndpoints; db_retention := 0 |}.

Definition feed_page (db : FeedDB) (after : string) : list string :=
  fr_LogID <$> ReadFeed db {| q_AfterLogID := after; q_Limit := 2; q_ProviderFilter := "" |} zeroTime.

Definition sealed (agent logID : string) : op := OpRecordSealed "AGENT_REGISTERED" agent "V2" demo_payload logID (UnixMilli 1).

(** The row of "b". *)
Definition demo_row2 : OutboxRow :=
  {| ob_id := 2; ob_event_type := "AGENT_REGISTERED"; ob_agent_id := "b"; ob_schema_version := "V2";
     ob_payload := demo_payload; ob_attempts := 0; ob_permanent_attempts := 0; ob_last_error := None;
     ob_next_attempt_at_ms := 1; ob_sent_at_ms := Some 1; ob_log_id := Some "l2"; ob_claim_token := None;
     ob_claimed_until_ms := None; ob_dead_at_ms := None; ob_cancelled_at_ms := None; ob_created_at_ms := 1 |}.

Lemma feed_serves_in_order_witness :
  feed_page (demo_db [sealed "a" "l1"; sealed "b" "l2"; sealed "c" "l3"]) "" = ["l1"; "l2"] /\
  feed_page (demo_db [sealed "a" "l1"; sealed "b" "l2"; sealed "c" "l3"]) "l2" = ["l3"].
Proof.
  set (db := demo_db [sealed "a" "l1"; sealed "b" "l2"; sealed "c" "l3"]).
  destruct (feed_serves_in_order db 2 zeroTime) as [H1 H2].
  - apply run_inv; [exact inv_empty|by repeat constructor].
  - reflexivity.
  - apply (bool_decide_unpack _). vm_compute. exact I.
  - unfold feed_page. rewrite H1. split; [vm_compute; reflexivity|].
    rewrite (H2 (take 1 (visible_rows db zeroTime)) demo_row2 (drop 2 (visible_rows db zeroTime)) "l2");
      [vm_compute; reflexivity|vm_compute; reflexivity|reflexivity|discriminate].
Defined.

(** A row delivered after the cursor has passed its id is never served: the
    revocation of "a" waits for the log while the activation of "b" is sealed
    inline; a consumer that has read the latter sees nothing more once the
    former is delivered. *)
Example late_revocation_not_served :
  let enq := OpEnqueue AGENT_REVOKED "a" "V2" demo_payload (UnixMilli 1) (UnixMilli 1) in
  let deliver := [OpAcquire 2 0 "w" Minute (UnixMilli 9); OpMarkSent 2 "w" "l-revoked" (UnixMilli 9)] in
  let before := [sealed "a" "l1"; enq; sealed "b" "l2"] in
  feed_page (demo_db before) "l1" = ["l2"] /\
  feed_page (demo_db (before ++ deliver)) "l2" = [] /\
  feed_page (demo_db (before ++ deliver)) "l1" = ["l-revoked"; "l2"].
Proof. vm_compute. done. Qed.

(** Two rows with one log id: the page after the second is the page after the
    first, so a consumer with a page size of two stays at the same cursor. *)
Example duplicate_log_id_no_progress :
  let db := demo_db [sealed "a" "l1"; sealed "b" "l2"; sealed "a" "l1"; sealed "c" "l3"] in
  feed_page db "" = ["l1"; "l2"] /\ feed_page db "l2" = ["l1"; "l3"] /\ feed_page db "l1" = ["l2"; "l1"].
Proof. vm_compute. done. Qed.
