(* ===== verification/Poller.v ===== *)
(** The Finder's ingestion loop, [internal/finder/poller/poller.go].

    The feed client is the code behind the [FeedClient] port: here a function of
    the call number, so that its answers may change between calls.  Database
    failures and cancellation come from the environment as well.  Log lines are
    not modelled. *)
From stdpp Require Import gmap.
From S2P Require Import Prelude GoStrings Utf8 GoTime GoURL SemVer AnsName Endpoint.
From S2P Require Import Finder FinderSpec FinderIndex FinderIndexSpec Outbox OutboxSpec Feed.
From Stdlib Require Import Sorted.

#[local] Set Default Goal Selector "!".
#[local] Open Scope Z_scope.

(** ** The port *)

Inductive fetch_error := FetchCanceled | FetchFailed.

Class FeedClient := {
  FetchEvents : nat -> string -> Z -> result fetch_error EventPageResponse
}.

(** What else the loop observes: whether the context is cancelled before and
    after the n-th fetch, whether the n-th database calls succeed, the clock. *)
Record PollEnv := {
  pe_cursor_ok : bool;
  pe_cancelled : nat -> bool;
  pe_cancelled_after : nat -> bool;
  pe_apply_ok : nat -> bool;
  pe_save_ok : nat -> bool;
  pe_now : nat -> Time
}.

Record Config := { c_PageSize : Z; c_ProjectOptions : Options }.

Definition New_pageSize (pageSize : Z) : Z := if pageSize <=? 0 then 100 else pageSize.

Definition wedgeThreshold : Z := 5.

Record PollerState := { p_failCursor : string; p_failStreak : Z }.

(** ** Operations *)

Definition recordFailure (p : PollerState) (cursor : string) : PollerState :=
  if String.eqb cursor (p_failCursor p)
  then {| p_failCursor := p_failCursor p; p_failStreak := p_failStreak p + 1 |}
  else {| p_failCursor := cursor; p_failStreak := 1 |}.

Definition clearFailure (_ : PollerState) : PollerState := {| p_failCursor := ""; p_failStreak := 0 |}.

Definition nextCursorLogID (prior : string) (page : EventPageResponse) : string :=
  if negb (String.eqb (pg_LastLogID page) "") then pg_LastLogID page else
  match last (pg_Items page) with
  | Some it => ev_LogID it
  | None => prior
  end.

Inductive page_error := PProject (e : feed_error) | PApply (e : store_error) | PDatabase.

Section Poller.
Context `{U : UnicodeTables}.

(** The projection loop of [applyPage]. *)
Fixpoint project_items (items : list EventItem) (opts : Options) : result feed_error (list ProjectedEntry) :=
  match items with
  | [] => Ok []
  | item :: items' =>
      proj ← FromEvent item opts;
      rest ← project_items items' opts;
      Ok (pj_Entries proj ++ rest)
  end.

Definition applyPage (st : Store) (page : EventPageResponse) (opts : Options) (db_ok : bool)
  : Store * result page_error (nat * list TombstoneNoOp) :=
  match project_items (pg_Items page) opts with
  | Err e => (st, Err (PProject e))
  | Ok entries =>
      if negb db_ok then (st, Err PDatabase) else
      match Apply st entries with
      | (st', Ok report) => (st', Ok (length entries, report))
      | (st', Err e) => (st', Err (PApply e))
      end
  end.

Inductive outcome := Drained | Stopped | Failed | OutOfFuel.

(** The drain loop: [k] counts the fetches of the round. *)
Fixpoint drain (fuel : nat) (cl : FeedClient) (env : PollEnv) (cfg : Config) (k : nat) (p : PollerState) (st : Store) (cursor : Cursor)
  : PollerState * Store * outcome :=
  match fuel with
  | O => (p, st, OutOfFuel)
  | S fuel' =>
      if pe_cancelled env k then (p, st, Stopped) else
      match @FetchEvents cl k (cu_LastLogID cursor) (c_PageSize cfg) with
      | Err FetchCanceled => (p, st, Stopped)
      | Err FetchFailed =>
          if pe_cancelled_after env k then (p, st, Stopped) else (recordFailure p (cu_LastLogID cursor), st, Failed)
      | Ok page =>
          match applyPage st page (c_ProjectOptions cfg) (pe_apply_ok env k) with
          | (st1, Err _) => (recordFailure p (cu_LastLogID cursor), st1, Failed)
          | (st1, Ok _) =>
              let lastLogID := nextCursorLogID (cu_LastLogID cursor) page in
              if negb (String.eqb (pg_LastLogID page) "") && String.eqb lastLogID (cu_LastLogID cursor)
              then (recordFailure p (cu_LastLogID cursor), st1, Failed) else
              let next := {| cu_LastLogID := lastLogID; cu_LastPollOK := pe_now env k |} in
              if negb (pe_save_ok env k) then (recordFailure p (cu_LastLogID cursor), st1, Failed) else
              let st2 := SaveCursor st1 next in
              if String.eqb (pg_LastLogID page) "" then (clearFailure p, st2, Drained)
              else drain fuel' cl env cfg (S k) p st2 next
          end
      end
  end.

Definition RunOnce (fuel : nat) (cl : FeedClient) (env : PollEnv) (cfg : Config) (p : PollerState) (st : Store)
  : PollerState * Store * outcome :=
  if negb (pe_cursor_ok env) then (recordFailure p "", st, Failed)
  else drain fuel cl env cfg 0 p st (Store_Cursor st).
End Poller.
