(* ===== verification/PollerSpec.v ===== *)
(** Ingestion end to end: events of the registration authority's feed, projected
    and applied to the catalog, with the cursor never ahead of the index. *)
From stdpp Require Import gmap.
From S2P Require Import Prelude GoStrings Utf8 GoTime GoURL SemVer AnsName Endpoint.
From S2P Require Import Finder FinderSpec FinderIndex FinderIndexSpec Outbox OutboxSpec Feed Poller.
From Stdlib Require Import Sorted.

#[local] Set Default Goal Selector "!".
#[local] Open Scope Z_scope.

(** ** ANS names carry no NUL byte *)

Definition not_nul (c : ascii) : bool := negb (Ascii.eqb (chr 0) c).

Lemma no_nul_spec s : ContainsByte s (chr 0) = false <-> str_forall not_nul s = true.
Proof. unfold ContainsByte, not_nul. by rewrite negb_false_iff. Qed.

Lemma range_low o skip s i w r :
  (i, w, r) ∈ range_from o skip s -> r < 128 -> exists c s', str_drop (i - o) s = String c s' /\ byteZ c = r /\ (o <= i)%nat.
Proof.
  revert o skip. induction s as [|c s IH]; intros o skip Hin Hr; [by apply not_elem_of_nil in Hin|].
  cbn [range_from] in Hin.
  assert (Htail : forall k, (i, w, r) ∈ range_from (S o) k s ->
    exists d s', str_drop (i - o) (String c s) = String d s' /\ byteZ d = r /\ (o <= i)%nat).
  { intros k (d & s' & E & Hd & Hle)%IH; [|done]. exists d, s'. replace (i - o)%nat with (S (i - S o)) by lia. split_and!; [done..|lia]. }
  destruct skip as [|k]; [|by eapply Htail].
  destruct (is_ascii_byte c) eqn:Ec.
  - rewrite DecodeRune_ascii in Hin by done. apply elem_of_cons in Hin as [[= -> -> ->]|Hin]; [|by eapply Htail].
    exists c, s. rewrite Nat.sub_diag. done.
  - pose proof (DecodeRune_high c s Ec) as Hh. destruct (DecodeRune (String c s)) as [r' w'].
    apply elem_of_cons in Hin as [[= -> -> ->]|Hin]; [cbn in Hh; lia|by eapply Htail].
Qed.

Lemma thirdDot_dot l k h : thirdDot l k = Some h -> exists i w, (i, w, 46) ∈ l /\ h = S i.
Proof.
  revert k. induction l as [|[[i w] r] l IH]; intros k; cbn [thirdDot]; [done|].
  destruct (Z.eqb_spec r 46) as [->|].
  - case_if; [intros [= <-]; exists i, w; split; [left|done]|]. intros (i' & w' & Hin & ->)%IH. exists i', w'. split; [by right|done].
  - intros (i' & w' & Hin & ->)%IH. exists i', w'. split; [by right|done].
Qed.

Lemma not_nul_high c : is_high_byte c = true -> not_nul c = true.
Proof. revert c. all_bytes. Qed.

Lemma not_nul_space c : is_space_byte c = true -> not_nul c = true.
Proof. revert c. all_bytes. Qed.

Lemma ToLower_not_nul `{U : UnicodeTables} s : str_forall not_nul (ToLower s) = true -> str_forall not_nul s = true.
Proof.
  intros H. assert (Hr : forallb (fun r => negb (r =? 0)) (runes s) = true).
  { unfold ToLower in H. induction (runes s) as [|r rs IH]; [done|]. rewrite fmap_cons in H. cbn [encode_runes forallb] in *.
    rewrite str_forall_app in H. apply andb_true_iff in H as [H1 H2]. rewrite (IH H2), andb_true_r.
    destruct (Z.eqb_spec r 0) as [->|]; [|done]. vm_compute in H1. discriminate. }
  apply runes_bytes in Hr. eapply str_forall_impl; [|exact Hr]. clear. all_bytes.
Qed.

Lemma str_forall_split f i s : str_forall f (str_take i s) = true -> str_forall f (str_drop i s) = true -> str_forall f s = true.
Proof. intros H1 H2. by rewrite <- (str_take_drop i s), str_forall_app, H1, H2. Qed.

Lemma ParseAnsName_no_nul `{U : UnicodeTables, UL : !UnicodeLaws U} s n :
  ParseAnsName s = Ok n -> ContainsByte s (chr 0) = false.
Proof.
  unfold ParseAnsName. destruct (HasPrefix (TrimSpace s) ansProtocolPrefix) eqn:E1; [|done]. cbn [negb].
  set (r1 := str_drop (String.length ansProtocolPrefix) (TrimSpace s)) in *.
  destruct (HasPrefix r1 "v") eqn:E2; [|done]. cbn [negb].
  change (str_drop 1 r1) with (str_drop (String.length "v") r1). set (r2 := str_drop (String.length "v") r1) in *.
  destruct (thirdDot (range_str r2) 0) as [h|] eqn:E3; [|done]. case_if; [done|].
  destruct (ParseSemVer (str_take (h - 1) r2)) as [v|] eqn:E4; [|done]. intros HN.
  apply no_nul_spec, (TrimSpace_forall not_nul not_nul_high not_nul_space).
  rewrite (HasPrefix_split _ _ E1), str_forall_app. fold r1. rewrite (HasPrefix_split _ _ E2), str_forall_app. fold r2. cbn [str_forall andb].
  apply thirdDot_dot in E3 as (i & w & Hin & ->). apply range_low in Hin as (c & s' & Ed & Hc & _); [|done].
  rewrite Nat.sub_0_r in Ed. replace (S i - 1)%nat with i in E4 by lia.
  apply (str_forall_split _ i).
  - apply ParseSemVer_Ok in E4 as (a & b & d & -> & Ha & Hb & Hd & _).
    apply num_ok_digits in Ha as [Ha _], Hb as [Hb _], Hd as [Hd _].
    assert (G : forall x, is_digits x = true -> str_forall not_nul x = true) by (intros x; apply str_forall_impl; all_bytes).
    rewrite !str_forall_app, (G a), (G b), (G d) by done. reflexivity.
  - rewrite Ed. cbn [str_forall]. assert (Ec : c = "."%char) by (apply byteZ_inj; by rewrite Hc). rewrite Ec. cbn [andb].
    apply NewAnsName_Ok in HN as (_ & Hh & [Hv _]). assert (Es : str_drop (S i) r2 = s').
    { clear -Ed. revert i Ed. induction r2 as [|x r2 IH]; intros [|i] Ed; cbn in *; try done; [by injection Ed as _ ->|by apply IH]. }
    rewrite Es in Hh. apply (TrimSpace_forall not_nul not_nul_high not_nul_space), ToLower_not_nul. rewrite <- Hh.
    apply validateAgentHost_Ok in Hv as (_ & _ & _ & Hc' & _). eapply str_forall_impl; [|exact Hc']. clear. all_bytes.
Qed.

(** ** From items to index events *)

Section Ingest.
Context {U : UnicodeTables} {UL : UnicodeLaws U}.

Definition item_lifecycle (item : EventItem) : string :=
  if String.eqb (ev_EventType item) EventTypeAgentRevoked then LifecycleRevoked else
  if String.eqb (ev_EventType item) EventTypeAgentDeprecated then LifecycleDeprecated else LifecycleActive.

(** The index event of an item: none when it projects to no entry. *)
Definition item_event (opts : Options) (item : EventItem) : option IndexEvent :=
  match FromEvent item opts with
  | Ok p =>
      match pj_Entries p with
      | [] => None
      | es => Some {| e_ansName := ev_AnsName item; e_lifecycle := item_lifecycle item; e_logID := ev_LogID item;
                      e_createdAt := ev_CreatedAt item; e_entries := es |}
      end
  | Err _ => None
  end.

Lemma entry_lifecycle item opts p pe :
  FromEvent item opts = Ok p -> pe ∈ pj_Entries p -> pe_Lifecycle pe = item_lifecycle item.
Proof.
  intros Hp Hin. destruct (projection_keys item opts p pe Hp Hin) as [_ Ha]. unfold item_lifecycle.
  destruct (is_active_event item) eqn:E.
  - destruct (active_event_type item E) as [-> ->]. by apply Ha.
  - apply FromEvent_Ok in Hp as [_ ->]. rewrite E in Hin.
    case_if; [by apply list_elem_of_singleton in Hin as ->|]. case_if; [by apply list_elem_of_singleton in Hin as ->|].
    by apply not_elem_of_nil in Hin.
Qed.

Lemma item_event_ok opts item e :
  item_event opts item = Some e ->
  event_ok e /\ e_logID e = ev_LogID item /\ exists p, FromEvent item opts = Ok p /\ e_entries e = pj_Entries p.
Proof.
  unfold item_event. destruct (FromEvent item opts) as [p|] eqn:Hp; [|done].
  destruct (pj_Entries p) as [|pe es] eqn:Ee; [done|]. intros [= <-]. split; [|split; [done|by exists p]].
  pose proof (FromEvent_Ok _ _ _ Hp) as [Hk _]. destruct (ValidateIdentityKeys_Ok _ Hk) as (n & Hn & _).
  unfold event_ok. cbn [e_entries e_ansName e_lifecycle e_logID e_createdAt]. split_and!.
  - done.
  - rewrite <- Ee. apply Forall_forall. intros q Hq. destruct (projection_keys item opts p q Hp Hq) as [(_ & ? & ? & ?) _].
    split_and!; try done. by eapply entry_lifecycle.
  - unfold item_lifecycle. repeat case_if; set_solver.
  - by eapply ParseAnsName_no_nul.
Qed.

Definition page_events (opts : Options) (items : list EventItem) : list IndexEvent := omap (item_event opts) items.

Lemma project_items_entries items opts entries :
  project_items items opts = Ok entries -> entries = page_entries (page_events opts items).
Proof.
  revert entries. induction items as [|item items IH]; intros entries; cbn [project_items]; [by intros [= <-]|].
  rewrite bind_Ok. intros (p & Hp & H). apply bind_Ok in H as (rest & Hr & [= <-]). apply IH in Hr as ->.
  unfold page_events, page_entries. cbn [omap list_omap]. unfold item_event at 2. rewrite Hp.
  destruct (pj_Entries p) as [|pe es] eqn:E; [done|]. cbn [fmap list_fmap concat e_entries]. done.
Qed.

Lemma page_events_ok opts items : NoDup (ev_LogID <$> items) -> page_ok (page_events opts items).
Proof.
  intros Hn. split.
  - apply Forall_forall. intros e (item & _ & He)%list_elem_of_omap. by apply item_event_ok in He as [? _].
  - induction items as [|item items IH]; [constructor|]. cbn [fmap list_fmap] in Hn. apply NoDup_cons in Hn as [Hi Hn].
    unfold page_events. cbn [omap list_omap]. destruct (item_event opts item) as [e|] eqn:Ee; [|by apply IH].
    cbn [fmap list_fmap]. constructor; [|by apply IH].
    intros (e' & Ek & (item' & Hin & He')%list_elem_of_omap)%list_elem_of_fmap. apply Hi, list_elem_of_fmap. exists item'.
    apply item_event_ok in Ee as (_ & El & _), He' as (_ & El' & _). split; [|done].
    unfold event_key in Ek. injection Ek as _ Ek _. congruence.
Qed.

(** ** A page *)

Definition run_events (m : gmap string Agent) (evs : list IndexEvent) : gmap string Agent := (fold_left spec_event evs (m, [])).1.

Lemma spec_event_report m r e : (spec_event (m, r) e).1 = (spec_event (m, []) e).1.
Proof. unfold spec_event. by case_if. Qed.

Lemma run_events_report evs m r : (fold_left spec_event evs (m, r)).1 = run_events m evs.
Proof.
  unfold run_events. revert m r. assert (G : forall m r r', (fold_left spec_event evs (m, r)).1 = (fold_left spec_event evs (m, r')).1); [|auto].
  induction evs as [|e evs IH]; intros m r r'; [done|]. cbn [fold_left].
  pose proof (spec_event_report m r e). pose proof (spec_event_report m r' e).
  destruct (spec_event (m, r) e) as [m1 r1], (spec_event (m, r') e) as [m2 r2]. cbn in *. assert (m1 = m2) as -> by congruence. apply IH.
Qed.

Lemma run_events_app m evs1 evs2 : run_events m (evs1 ++ evs2) = run_events (run_events m evs1) evs2.
Proof.
  unfold run_events at 1 3. rewrite fold_left_app. destruct (fold_left spec_event evs1 (m, [])) as [m1 r1]. apply run_events_report.
Qed.

Lemma applyPage_Ok st m page opts ok :
  repr st m -> NoDup (ev_LogID <$> pg_Items page) ->
  let '(st', res) := applyPage st page opts ok in
  match res with
  | Err _ => st' = st
  | Ok _ => repr st' (run_events m (page_events opts (pg_Items page))) /\ is_ok (project_items (pg_Items page) opts) = true /\
            st_last_log_id st' = st_last_log_id st
  end.
Proof.
  intros HR Hn. unfold applyPage. destruct (project_items (pg_Items page) opts) as [entries|e] eqn:Ep; [|done].
  destruct ok; [|done]. cbn [negb]. rewrite (project_items_entries _ _ _ Ep).
  destruct (Apply_Ok st m _ HR (page_events_ok opts _ Hn)) as (st' & -> & HR' & El & _).
  split; [exact HR'|]. split; done.
Qed.

Lemma repr_SaveCursor st m c : repr st m -> repr (SaveCursor st c) m.
Proof. intros [[] Hr Hw]. split; [split; done|exact Hr|exact Hw]. Qed.

(** ** A round *)

(** The feed never lists one log id twice on a page. *)
Definition distinct_pages (cl : FeedClient) : Prop :=
  forall k after limit page, @FetchEvents cl k after limit = Ok page -> NoDup (ev_LogID <$> pg_Items page).

Definition all_events (opts : Options) (pages : list EventPageResponse) : list IndexEvent :=
  concat ((fun pg => page_events opts (pg_Items pg)) <$> pages).

(** [pages] are the client's answers from call [k] on, each asked for at the
    cursor the previous ones lead to, and all their items are valid. *)
Definition served (cl : FeedClient) (cfg : Config) (k : nat) (cursor : string) (pages : list EventPageResponse) : Prop :=
  forall i page, pages !! i = Some page ->
    @FetchEvents cl (k + i) (fold_left nextCursorLogID (take i pages) cursor) (c_PageSize cfg) = Ok page /\
    is_ok (project_items (pg_Items page) (c_ProjectOptions cfg)) = true.

Lemma served_nil cl cfg k cursor : served cl cfg k cursor [].
Proof. intros i page Hi. by rewrite lookup_nil in Hi. Qed.

Lemma served_cons cl cfg k cursor page pages :
  @FetchEvents cl k cursor (c_PageSize cfg) = Ok page -> is_ok (project_items (pg_Items page) (c_ProjectOptions cfg)) = true ->
  served cl cfg (S k) (nextCursorLogID cursor page) pages -> served cl cfg k cursor (page :: pages).
Proof.
  intros Hf Hp Hs [|i] q Hi; cbn in Hi.
  - injection Hi as <-. rewrite Nat.add_0_r. done.
  - specialize (Hs i q Hi). replace (k + S i)%nat with (S k + i)%nat by lia. done.
Qed.

Lemma drain_pages fuel cl env cfg k p st m cursor :
  repr st m -> distinct_pages cl -> st_last_log_id st = cu_LastLogID cursor ->
  let '(p', st', o) := drain fuel cl env cfg k p st cursor in
  exists saved extra, (length extra <= 1)%nat /\
    repr st' (run_events m (all_events (c_ProjectOptions cfg) (saved ++ extra))) /\
    st_last_log_id st' = fold_left nextCursorLogID saved (cu_LastLogID cursor) /\
    served cl cfg k (cu_LastLogID cursor) (saved ++ extra) /\
    (o = Drained -> extra = [] /\ exists pg, last saved = Some pg /\ pg_LastLogID pg = "").
Proof.
  intros HR HD. revert k p st m cursor HR. induction fuel as [|fuel IH]; intros k p st m cursor HR Hcur; cbn [drain].
  { exists [], []. split_and!; [cbn; lia|exact HR|exact Hcur|apply served_nil|done]. }
  assert (Hnone : forall o, o <> Drained -> exists saved extra, (length extra <= 1)%nat /\
    repr st (run_events m (all_events (c_ProjectOptions cfg) (saved ++ extra))) /\
    st_last_log_id st = fold_left nextCursorLogID saved (cu_LastLogID cursor) /\
    served cl cfg k (cu_LastLogID cursor) (saved ++ extra) /\
    (o = Drained -> extra = [] /\ exists pg, last saved = Some pg /\ pg_LastLogID pg = "")).
  { intros o Ho. exists [], []. split_and!; [cbn; lia|exact HR|exact Hcur|apply served_nil|done]. }
  destruct (pe_cancelled env k); [by apply Hnone|].
  destruct (FetchEvents k (cu_LastLogID cursor) (c_PageSize cfg)) as [page|[]] eqn:Ef; [|by apply Hnone|case_if; by apply Hnone].
  pose proof (applyPage_Ok st m page (c_ProjectOptions cfg) (pe_apply_ok env k) HR (HD _ _ _ _ Ef)) as HA.
  destruct (applyPage st page (c_ProjectOptions cfg) (pe_apply_ok env k)) as [st1 [res|e]]; [|subst st1; by apply Hnone].
  destruct HA as (HR1 & Hp & El).
  assert (Hextra : forall o, o <> Drained -> exists saved extra, (length extra <= 1)%nat /\
    repr st1 (run_events m (all_events (c_ProjectOptions cfg) (saved ++ extra))) /\
    st_last_log_id st1 = fold_left nextCursorLogID saved (cu_LastLogID cursor) /\
    served cl cfg k (cu_LastLogID cursor) (saved ++ extra) /\
    (o = Drained -> extra = [] /\ exists pg, last saved = Some pg /\ pg_LastLogID pg = "")).
  { intros o Ho. exists [], [page]. split_and!; [cbn; lia| |cbn; congruence| |done].
    - unfold all_events. cbn [app fmap list_fmap concat]. by rewrite app_nil_r.
    - cbn [app]. apply served_cons; [done|done|apply served_nil]. }
  case_if; [by apply Hextra|]. destruct (pe_save_ok env k); [|by apply Hextra]. cbn [negb].
  set (next := {| cu_LastLogID := nextCursorLogID (cu_LastLogID cursor) page; cu_LastPollOK := pe_now env k |}).
  pose proof (repr_SaveCursor st1 _ next HR1) as HR2.
  destruct (String.eqb_spec (pg_LastLogID page) "") as [El0|El0].
  { exists [page], []. split_and!; [cbn; lia| |done| |intros _; split; [done|by exists page]].
    - unfold all_events. cbn [app fmap list_fmap concat]. by rewrite app_nil_r.
    - apply served_cons; [done|done|apply served_nil]. }
  specialize (IH (S k) p (SaveCursor st1 next) _ next HR2 eq_refl).
  destruct (drain fuel cl env cfg (S k) p (SaveCursor st1 next) next) as [[p' st'] o].
  destruct IH as (saved & extra & Hx & HR' & Hc & Hsv & Hdr). exists (page :: saved), extra. split_and!; [done| |exact Hc| |].
  - unfold all_events in *. cbn [app fmap list_fmap concat]. by rewrite run_events_app.
  - cbn [app]. by apply served_cons.
  - intros Ho. destruct (Hdr Ho) as [-> (pg & Hl & He)]. split; [done|]. exists pg. split; [|done]. by destruct saved.
Qed.

(** Whatever the feed answers, and wherever cancellation or a database
    failure interrupts the round, the index holds exactly the events of the pages
    applied so far, in order, and the saved cursor is the one after the last page
    that was both applied and saved, so it is never ahead of the index: at most one
    applied page is still to be recorded.  A page with an invalid event is not
    applied and the cursor stays before it; a round that drains the feed leaves
    no applied page unrecorded. *)
Theorem ingest_cursor_behind_index fuel cl env cfg p st m :
  repr st m -> distinct_pages cl ->
  let '(p', st', o) := RunOnce fuel cl env cfg p st in
  exists saved extra, (length extra <= 1)%nat /\
    repr st' (run_events m (all_events (c_ProjectOptions cfg) (saved ++ extra))) /\
    st_last_log_id st' = fold_left nextCursorLogID saved (st_last_log_id st) /\
    served cl cfg 0 (st_last_log_id st) (saved ++ extra) /\
    (o = Drained -> extra = [] /\ exists pg, last saved = Some pg /\ pg_LastLogID pg = "").
Proof.
  intros HR HD. unfold RunOnce. destruct (pe_cursor_ok env); cbn [negb].
  - by apply (drain_pages fuel cl env cfg 0 p st m (Store_Cursor st)).
  - exists [], []. split_and!; [cbn; lia|exact HR|done|apply served_nil|done].
Qed.

(** ** Draining the registration authority's feed *)

Definition ra_client (db : FeedDB) (now : Time) : FeedClient :=
  {| FetchEvents := fun _ after limit =>
       match ListEvents db after limit "" now with Ok page => Ok page | Err _ => Err FetchFailed end |}.

Definition row_log (r : OutboxRow) : string := coalesce (ob_log_id r) "".

Definition row_event (db : FeedDB) (opts : Options) (r : OutboxRow) : option IndexEvent :=
  match buildFeedItem (feed_row db r) with Ok item => item_event opts item | Err _ => None end.

(** The row builds an item that passes the Finder's validation. *)
Definition row_valid (db : FeedDB) (opts : Options) (r : OutboxRow) : Prop :=
  exists item p, buildFeedItem (feed_row db r) = Ok item /\ FromEvent item opts = Ok p.

Lemma buildFeedItem_log row item : buildFeedItem row = Ok item -> ev_LogID item = fr_LogID row.
Proof.
  unfold buildFeedItem. rewrite bind_Ok. intros (inner & _ & H).
  destruct (match ie_Agent inner with Some a => _ | None => _ end) as [h v].
  apply bind_Ok in H as (eps & _ & [= <-]). done.
Qed.

Lemma build_rows db opts rows :
  Forall (row_valid db opts) rows ->
  exists items, mapM_res buildFeedItem (feed_row db <$> rows) = Ok items /\ ev_LogID <$> items = row_log <$> rows /\
    (exists entries, project_items items opts = Ok entries) /\ page_events opts items = omap (row_event db opts) rows.
Proof.
  induction 1 as [|r rows (item & p & Hb & Hp) _ IH]; [by exists []; eauto|].
  destruct IH as (items & Hm & Hl & (entries & He) & Hpe). exists (item :: items).
  cbn [fmap list_fmap mapM_res project_items]. fold (fmap (M := list) (feed_row db)). rewrite Hb. cbn [mbind result_bind].
  rewrite Hm, Hp. cbn [mbind result_bind]. rewrite He. cbn [mbind result_bind]. split_and!; [done| |eauto|].
  - cbn [fmap list_fmap]. f_equal; [by rewrite (buildFeedItem_log _ _ Hb)|exact Hl].
  - unfold page_events in *. cbn [omap list_omap]. unfold row_event at 1. rewrite Hb.
    destruct (item_event opts item); [f_equal|]; exact Hpe.
Qed.

Lemma applyPage_succeeds st m page opts entries :
  repr st m -> NoDup (ev_LogID <$> pg_Items page) -> project_items (pg_Items page) opts = Ok entries ->
  exists st' res, applyPage st page opts true = (st', Ok res) /\
    repr st' (run_events m (page_events opts (pg_Items page))).
Proof.
  intros HR Hn Ep. unfold applyPage. rewrite Ep. cbn [negb]. rewrite (project_items_entries _ _ _ Ep).
  destruct (Apply_Ok st m _ HR (page_events_ok opts _ Hn)) as (st' & -> & HR' & _). eauto.
Qed.

(** The feed at rest: a well-formed outbox, distinct log ids, valid items. *)
Record feed_ok (db : FeedDB) (now : Time) (opts : Options) : Prop := {
  fo_inv : inv (db_outbox db);
  fo_logs : NoDup (row_log <$> visible_rows db now);
  fo_valid : Forall (row_valid db opts) (visible_rows db now)
}.

(** The consumer has read the rows [pre]. *)
Definition cursor_after (pre : list OutboxRow) (cursor : string) : Prop :=
  match last pre with None => cursor = "" | Some c => cursor = row_log c end.

Lemma visible_log_nonempty db now r :
  inv (db_outbox db) -> r ∈ visible_rows db now -> ob_log_id r = Some (row_log r) /\ row_log r <> "".
Proof.
  intros [_ _ Hr _] [Hv Hin]%list_elem_of_filter. unfold visible in Hv. b2p.
  rewrite Forall_forall in Hr. destruct (Hr r Hin) as [Hs _ _ _]. destruct Hs as ((l & El & Hl) & _); [done|].
  unfold row_log. rewrite El. done.
Qed.

Lemma visible_logs_distinct db now opts : feed_ok db now opts -> NoDup (ob_log_id <$> visible_rows db now).
Proof.
  intros [HI Hn _]. apply (NoDup_fmap_1 (fun o => coalesce o "")). by rewrite <- list_fmap_compose.
Qed.

(** One answer of the feed. *)
Lemma ListEvents_after db now opts pre post cursor limit :
  feed_ok db now opts -> visible_rows db now = pre ++ post -> cursor_after pre cursor -> 0 < limit ->
  exists n items, (0 < n)%nat /\
    ListEvents db cursor limit "" now =
      Ok {| pg_Items := items; pg_LastLogID := match last (take n post) with Some r => row_log r | None => "" end |} /\
    ev_LogID <$> items = row_log <$> take n post /\ (exists entries, project_items items opts = Ok entries) /\
    page_events opts items = omap (row_event db opts) (take n post).
Proof.
  intros Hok E Hc Hl. pose proof (visible_logs_distinct db now opts Hok) as Hd. destruct Hok as [HI Hn Hv].
  unfold ListEvents. destruct (Z.leb_spec limit 0); [lia|].
  set (lim := if EventsFeedMaxLimit <? limit then EventsFeedMaxLimit else limit).
  assert (Hlim : 0 < lim) by (unfold lim, EventsFeedMaxLimit; destruct (Z.ltb_spec 200 limit); lia).
  exists (Z.to_nat lim).
  assert (HR : ReadFeed db {| q_AfterLogID := cursor; q_Limit := lim; q_ProviderFilter := "" |} now =
               feed_row db <$> take (Z.to_nat lim) post).
  { unfold cursor_after in Hc. destruct (last pre) as [c|] eqn:Elast.
    - apply last_Some in Elast as (pre' & ->). rewrite <- app_assoc in E. cbn [app] in E.
      destruct (visible_log_nonempty db now c HI) as [Hlog Hne]; [rewrite E; set_solver|].
      apply (ReadFeed_after db lim now pre' c post cursor HI Hlim Hd E); congruence.
    - apply last_None in Elast as ->. subst cursor. rewrite (ReadFeed_start db lim now HI Hlim), E. done. }
  rewrite HR.
  destruct (build_rows db opts (take (Z.to_nat lim) post)) as (items & Hm & Hlg & Hp & Hpe).
  { apply Forall_take. rewrite E in Hv. by apply Forall_app in Hv as [_ ?]. }
  exists items. rewrite Hm. cbn [mbind result_bind]. split_and!; [lia| |done|done|done]. do 2 f_equal.
  assert (HL : last (ev_LogID <$> items) = last (row_log <$> take (Z.to_nat lim) post)) by (by rewrite Hlg).
  rewrite !fmap_last in HL. destruct (last items), (last (take (Z.to_nat lim) post)); cbn in HL; congruence.
Qed.

Definition quiet (env : PollEnv) : Prop :=
  pe_cursor_ok env = true /\ forall k, pe_cancelled env k = false /\ pe_apply_ok env k = true /\ pe_save_ok env k = true.

Lemma drain_complete fuel db now env cfg k p st m cursor pre post :
  feed_ok db now (c_ProjectOptions cfg) -> quiet env -> 0 < c_PageSize cfg ->
  repr st m -> visible_rows db now = pre ++ post -> cursor_after pre (cu_LastLogID cursor) -> (length post < fuel)%nat ->
  exists st', drain fuel (ra_client db now) env cfg k p st cursor = (clearFailure p, st', Drained) /\
    repr st' (run_events m (omap (row_event db (c_ProjectOptions cfg)) post)) /\
    cursor_after (pre ++ post) (st_last_log_id st').
Proof.
  intros Hok [Hq1 Hq] Hps. set (opts := c_ProjectOptions cfg) in *.
  revert k st m cursor pre post. induction fuel as [|fuel IH]; intros k st m cursor pre post HR E Hc Hlen; [lia|].
  destruct (ListEvents_after db now opts pre post (cu_LastLogID cursor) (c_PageSize cfg) Hok E Hc Hps)
    as (n & items & Hn & HL & Hlog & (entries & Hent) & Hpe).
  destruct (Hq k) as (Hq2 & Hq3 & Hq4). cbn [drain]. rewrite Hq2. cbn [FetchEvents ra_client]. rewrite HL.
  set (page := {| pg_Items := items; pg_LastLogID := _ |}). fold opts. rewrite Hq3, Hq4. cbn [negb].
  assert (Hnd : NoDup (ev_LogID <$> pg_Items page)).
  { cbn [pg_Items page]. rewrite Hlog. destruct Hok as [_ Hnl _]. rewrite E, fmap_app in Hnl. apply NoDup_app in Hnl as (_ & _ & Hnl).
    rewrite <- (take_drop n post), fmap_app in Hnl. by apply NoDup_app in Hnl as (? & _ & _). }
  destruct (applyPage_succeeds st m page opts entries HR Hnd Hent) as (st1 & res & -> & HR1).
  cbn [pg_Items page] in HR1. rewrite Hpe in HR1.
  destruct (last (take n post)) as [c|] eqn:Elast.
  - assert (Hcv : c ∈ visible_rows db now).
    { rewrite E. apply elem_of_app. right. rewrite <- (take_drop n post). apply elem_of_app. left. by apply last_Some_elem_of. }
    destruct (visible_log_nonempty db now c (fo_inv _ _ _ Hok) Hcv) as [_ Hne].
    assert (Hnext : nextCursorLogID (cu_LastLogID cursor) page = row_log c).
    { unfold nextCursorLogID. cbn [page pg_LastLogID]. by destruct (String.eqb_spec (row_log c) ""). }
    assert (Hprog : row_log c <> cu_LastLogID cursor).
    { unfold cursor_after in Hc. destruct (last pre) as [c0|] eqn:El0; [|congruence]. rewrite Hc. intros Heq.
      destruct Hok as [_ Hnl _]. rewrite E, fmap_app in Hnl. apply NoDup_app in Hnl as (_ & Hnl & _).
      apply (Hnl (row_log c0)); [apply list_elem_of_fmap; exists c0; split; [done|by apply last_Some_elem_of]|].
      rewrite <- Heq. apply list_elem_of_fmap. exists c. split; [done|]. rewrite <- (take_drop n post).
      apply elem_of_app. left. by apply last_Some_elem_of. }
    rewrite Hnext. cbn [page pg_LastLogID]. destruct (String.eqb_spec (row_log c) ""); [done|].
    destruct (String.eqb_spec (row_log c) (cu_LastLogID cursor)); [done|]. cbn [negb andb].
    set (next := {| cu_LastLogID := row_log c; cu_LastPollOK := pe_now env k |}).
    assert (Hne' : take n post <> []) by (intros H; rewrite H in Elast; done).
    destruct (IH (S k) (SaveCursor st1 next) _ next (pre ++ take n post) (drop n post) (repr_SaveCursor _ _ next HR1))
      as (st' & -> & HR' & Hc').
    + by rewrite <- app_assoc, take_drop.
    + unfold cursor_after. by rewrite last_app, Elast.
    + rewrite length_drop. destruct post; [by rewrite take_nil in Hne'|]. cbn [length] in *. lia.
    + exists st'. split; [done|]. rewrite <- run_events_app, <- omap_app, take_drop in HR'.
      rewrite <- app_assoc, take_drop in Hc'. done.
  - assert (Hpost : post = []).
    { apply last_None in Elast. destruct post; [done|]. destruct n; [lia|done]. }
    subst post. rewrite take_nil in *. cbn [page pg_LastLogID]. cbn [String.eqb negb andb].
    assert (Hit : items = []) by (destruct items; [done|discriminate Hlog]).
    eexists. split; [reflexivity|]. split; [by apply repr_SaveCursor|]. rewrite app_nil_r. cbn [SaveCursor st_last_log_id cu_LastLogID].
    unfold nextCursorLogID, page. rewrite Hit. exact Hc.
Qed.

(** C21: The Finder catches up with the registration authority: with a feed at
    rest whose items are valid and whose log ids are distinct, one undisturbed
    round starting after any prefix [pre] of the visible rows terminates, after at
    most one fetch per remaining row and one more, with every remaining row's event
    applied to the index exactly once and in log order, and the cursor at the last
    row. *)
Theorem ingest_complete fuel db now env cfg p st m pre post :
  feed_ok db now (c_ProjectOptions cfg) -> quiet env -> 0 < c_PageSize cfg ->
  repr st m -> visible_rows db now = pre ++ post -> cursor_after pre (st_last_log_id st) -> (length post < fuel)%nat ->
  exists st', RunOnce fuel (ra_client db now) env cfg p st = (clearFailure p, st', Drained) /\
    repr st' (run_events m (omap (row_event db (c_ProjectOptions cfg)) post)) /\
    cursor_after (pre ++ post) (st_last_log_id st').
Proof.
  intros Hok Hq Hps HR E Hc Hlen. unfold RunOnce. destruct Hq as [Hq1 Hq]. rewrite Hq1. cbn [negb].
  by apply drain_complete.
Qed.
End Ingest.

(** ** Instances *)

Definition demo_reg_payload : payload :=
  PDecoded {| op_InnerEventCanonical := InnerEvent {| ie_Canonical := "{}"; ie_AnsName := "ans://v1.0.0.bot.example.com"; ie_ExpiresAt := "";
                ie_Timestamp := "2026-01-01T00:00:00Z";
                ie_Agent := Some {| ia_Host := "bot.example.com"; ia_Version := "1.0.0" |} |}; op_ProducerSignature := "sig" |}.

Definition demo_agent_id : string := "123e4567-e89b-12d3-a456-426614174000".

(** A registration sealed inline and a delivered revocation. *)
Definition demo_feed_ops : list op :=
  [OpRecordSealed EventTypeAgentRegistered demo_agent_id "V2" demo_reg_payload "l1" (UnixMilli 1);
   OpEnqueue EventTypeAgentRevoked demo_agent_id "V2" demo_reg_payload (UnixMilli 2) (UnixMilli 2);
   OpAcquire 2 0 "w" Minute (UnixMilli 3); OpMarkSent 2 "w" "l2" (UnixMilli 4)].

Definition demo_feed : FeedDB :=
  {| db_outbox := fold_left step demo_feed_ops empty_outbox;
     db_registrations := fun _ => Some {| rg_ans_name := "ans://v1.0.0.bot.example.com"; rg_agent_host := "bot.example.com";
                                          rg_version := "1.0.0"; rg_display_name := "Bot"; rg_description := "" |};
     db_endpoints := fun _ => EndpointsOf [{| ep_Protocol := ProtocolMCP; ep_AgentURL := "https://bot.example.com/mcp";
                                ep_MetadataURL := ""; ep_DocumentationURL := ""; ep_Functions := []; ep_Transports := [];
                                ep_MetadataHash := "" |}];
     db_retention := 0 |}.

Definition demo_env : PollEnv :=
  {| pe_cursor_ok := true; pe_cancelled := fun _ => false; pe_cancelled_after := fun _ => false; pe_apply_ok := fun _ => true;
     pe_save_ok := fun _ => true; pe_now := fun _ => UnixMilli 10 |}.

Definition demo_cfg : Config := {| c_PageSize := 1; c_ProjectOptions := demo_opts |}.
Definition demo_poller : PollerState := {| p_failCursor := ""; p_failStreak := 0 |}.

Lemma demo_feed_ok : feed_ok (U := latin_tables) demo_feed zeroTime demo_opts.
Proof.
  split.
  - apply run_inv; [exact inv_empty|by repeat constructor].
  - apply (bool_decide_unpack _). vm_compute. exact I.
  - repeat constructor; (eexists _, _; split; [vm_compute; reflexivity|vm_compute; reflexivity]).
Qed.

Lemma demo_distinct_pages : distinct_pages (ra_client demo_feed zeroTime).
Proof.
  intros k after limit page H. cbn [ra_client FetchEvents] in H. destruct (ListEvents demo_feed after limit "" zeroTime) as [pg|] eqn:E; [|done].
  injection H as <-. unfold ListEvents in E. apply bind_Ok in E as (items & Hm & [= <-]). cbn [pg_Items].
  set (lim := if EventsFeedMaxLimit <? _ then _ else _) in Hm.
  assert (HL : ev_LogID <$> items = fr_LogID <$> ReadFeed demo_feed {| q_AfterLogID := after; q_Limit := lim; q_ProviderFilter := "" |} zeroTime).
  { revert items Hm. induction (ReadFeed _ _ _) as [|row rows IH]; intros items Hm; cbn [mapM_res] in Hm; [by injection Hm as <-|].
    apply bind_Ok in Hm as (it & Hb & Hm). apply bind_Ok in Hm as (its & Hm & [= <-]). cbn [fmap list_fmap].
    f_equal; [by apply buildFeedItem_log|by apply IH]. }
  rewrite HL. assert (Hlim : 0 < lim).
  { unfold lim, EventsFeedMaxLimit, EventsFeedDefaultLimit. repeat case_if; b2p; lia. }
  rewrite ReadFeed_visible by done. rewrite <- list_fmap_compose.
  assert (HV : NoDup (fr_LogID ∘ feed_row demo_feed <$> visible_rows demo_feed zeroTime)).
  { apply (bool_decide_unpack _). vm_compute. exact I. }
  apply (NoDup_fmap_filter _ (fun r => resolveCursor demo_feed after (retentionFloorMs demo_feed zeroTime) < ob_id r)) in HV.
  rewrite <- (take_drop (Z.to_nat lim) (filter _ _)), fmap_app in HV. by apply NoDup_app in HV as (? & _ & _).
Qed.

Lemma ingest_cursor_behind_index_witness :
  let '(_, st', o) := RunOnce (U := latin_tables) 3 (ra_client demo_feed zeroTime) demo_env demo_cfg demo_poller empty_store in
  exists saved (extra : list EventPageResponse), (length extra <= 1)%nat /\
    st_last_log_id st' = fold_left nextCursorLogID saved (st_last_log_id empty_store) /\
    (o = Drained -> extra = [] /\ exists pg, last saved = Some pg /\ pg_LastLogID pg = "").
Proof.
  pose proof (ingest_cursor_behind_index (U := latin_tables) 3 (ra_client demo_feed zeroTime) demo_env demo_cfg demo_poller
                empty_store ∅ repr_empty demo_distinct_pages) as H.
  destruct (RunOnce _ _ _ _ _ _) as [[p' st'] o]. destruct H as (saved & extra & H1 & _ & H2 & _ & H3).
  exists saved, extra. split; [exact H1|]. split; [exact H2|exact H3].
Defined.

(** One round over the registration and the revocation, page by page. *)
Lemma ingest_complete_witness :
  exists st', RunOnce (U := latin_tables) 3 (ra_client demo_feed zeroTime) demo_env demo_cfg demo_poller empty_store
                = (demo_poller, st', Drained) /\
    repr st' (run_events ∅ (omap (row_event (U := latin_tables) demo_feed demo_opts) (visible_rows demo_feed zeroTime))) /\
    r_lifecycle <$> rows_at st' "ans://v1.0.0.bot.example.com" = [LifecycleRevoked] /\ st_last_log_id st' = "l2".
Proof.
  destruct (ingest_complete (U := latin_tables) 3 demo_feed zeroTime demo_env demo_cfg demo_poller empty_store ∅ []
              (visible_rows demo_feed zeroTime)) as (st' & HE & HR & Hc).
  - exact demo_feed_ok.
  - done.
  - reflexivity.
  - exact repr_empty.
  - reflexivity.
  - reflexivity.
  - vm_compute. lia.
  - exists st'. split; [exact HE|]. split; [exact HR|]. vm_compute in HE. injection HE as <-. vm_compute. done.
Defined.
