(* ===== verification/Merkle.v ===== *)
(** The Merkle arithmetic of [internal/tl/receipt/verify.go]: leaf and node
    hashes and the walk of an inclusion proof, against the tree of RFC 9162.

    [MTH] and [PATH] are the reference definitions of the RFC, built on an
    explicit tree.  [rfc9162RootFromProof] is the code: a loop over the path
    with the two counters [fn] and [sn] kept as unsigned 64-bit values. *)
From S2P Require Import Prelude GoStrings Sha256.

#[local] Set Default Goal Selector "!".
#[local] Open Scope Z_scope.

(** ** The code *)

Definition rfc9162LeafHash (entry : string) : string := Sum256 (String (chr 0) entry).

Definition hashChildren (left right : string) : string :=
  Sum256 (String (chr 1) (left +:+ right)).

(** [ComputeLeafHash] copies the array into a slice. *)
Definition ComputeLeafHash (entry : string) : string := rfc9162LeafHash entry.

Inductive proof_error := ErrTreeSizeZero | ErrIndexRange | ErrPathElement | ErrPathTooShort.

(** The inner loop [for fn != 0 && fn&1 == 0].  A non-zero 64-bit [fn] is
    halved at most 63 times before its low bit is set, so 64 turns of fuel
    never run out ([strip_even_exit]). *)
Fixpoint strip_even (fuel : nat) (fn sn : Z) : Z * Z :=
  match fuel with
  | O => (fn, sn)
  | S f => if negb (fn =? 0) && (Z.land fn 1 =? 0)
           then strip_even f (Z.shiftr fn 1) (Z.shiftr sn 1)
           else (fn, sn)
  end.

(** One turn of the path loop. *)
Definition path_step (st : Z * Z * string) (p : string) : result proof_error (Z * Z * string) :=
  let '(fn, sn, r) := st in
  if negb (String.length p =? sha256_Size)%nat then Err ErrPathElement else
  if (Z.land fn 1 =? 1) || (fn =? sn) then
    let r' := hashChildren p r in
    let '(fn', sn') := strip_even 64 fn sn in
    Ok (Z.shiftr fn' 1, Z.shiftr sn' 1, r')
  else
    Ok (Z.shiftr fn 1, Z.shiftr sn 1, hashChildren r p).

Definition rfc9162RootFromProof (leafHash : string) (leafIndex treeSize : Z) (path : list string)
  : result proof_error string :=
  if treeSize =? 0 then Err ErrTreeSizeZero else
  if treeSize <=? leafIndex then Err ErrIndexRange else
  '(fn, _, r) ← fold_res path_step (leafIndex, treeSize - 1, leafHash) path;
  if negb (fn =? 0) then Err ErrPathTooShort else Ok r.

(** ** The reference: RFC 9162 section 2.1 *)

Inductive mtree := Leaf (d : string) | Node (l r : mtree).

Fixpoint leaves (t : mtree) : list string :=
  match t with Leaf d => [d] | Node l r => leaves l ++ leaves r end.

Definition tsize (t : mtree) : Z := Z.of_nat (length (leaves t)).

(** The byte string a node's hash is the digest of. *)
Fixpoint thash (t : mtree) : string :=
  match t with
  | Leaf d => rfc9162LeafHash d
  | Node l r => hashChildren (thash l) (thash r)
  end.

Definition preimage (t : mtree) : string :=
  match t with
  | Leaf d => String (chr 0) d
  | Node l r => String (chr 1) (thash l +:+ thash r)
  end.

(** The largest power of two smaller than [n], for [n >= 2]. *)
Definition split_point (n : nat) : nat := Z.to_nat (2 ^ Z.log2 (Z.of_nat n - 1)).

(** The tree of a non-empty list; [length D] turns of fuel suffice. *)
Fixpoint build (fuel : nat) (D : list string) : mtree :=
  match fuel, D with
  | S f, _ :: _ :: _ =>
      let k := split_point (length D) in Node (build f (take k D)) (build f (drop k D))
  | _, d :: _ => Leaf d
  | _, [] => Leaf ""
  end.

Definition tree_of (D : list string) : mtree := build (length D) D.

(** Merkle Tree Hash of a list of entries. *)
Definition MTH (D : list string) : string :=
  match D with [] => Sum256 "" | _ => thash (tree_of D) end.

(** Inclusion path of leaf [m], nearest sibling first, and the side each
    sibling is on ([true]: left). *)
Fixpoint tpath (t : mtree) (m : Z) : list string :=
  match t with
  | Leaf _ => []
  | Node l r => if m <? tsize l then tpath l m ++ [thash r]
                else tpath r (m - tsize l) ++ [thash l]
  end.

Fixpoint tdirs (t : mtree) (m : Z) : list bool :=
  match t with
  | Leaf _ => []
  | Node l r => if m <? tsize l then tdirs l m ++ [false]
                else tdirs r (m - tsize l) ++ [true]
  end.

Definition PATH (m : Z) (D : list string) : list string := tpath (tree_of D) m.

(** ** Collisions

    A collision is found by walking the tree and the proof down from the root
    together: the first place where the two byte strings hashed to the common
    digest differ is a collision of SHA-256. *)

(** The proof read from the root down: a list of (side, sibling). *)
Fixpoint proof_hash (d : string) (steps : list (bool * string)) : string :=
  match steps with
  | [] => rfc9162LeafHash d
  | (true, p) :: s => hashChildren p (proof_hash d s)
  | (false, p) :: s => hashChildren (proof_hash d s) p
  end.

Definition proof_preimage (d : string) (steps : list (bool * string)) : string :=
  match steps with
  | [] => String (chr 0) d
  | (true, p) :: s => String (chr 1) (p +:+ proof_hash d s)
  | (false, p) :: s => String (chr 1) (proof_hash d s +:+ p)
  end.

Fixpoint find_collision (t : mtree) (d : string) (steps : list (bool * string))
  : option (string * string) :=
  if String.eqb (preimage t) (proof_preimage d steps) then
    match t, steps with
    | Node l r, (side, _) :: s => find_collision (if side then r else l) d s
    | _, _ => None
    end
  else Some (preimage t, proof_preimage d steps).

(** The sides the counters give to the first [n] path elements, and the
    counters afterwards. *)
Definition counter_step (fn sn : Z) : bool * (Z * Z) :=
  if (Z.land fn 1 =? 1) || (fn =? sn) then
    let '(fn', sn') := strip_even 64 fn sn in (true, (Z.shiftr fn' 1, Z.shiftr sn' 1))
  else (false, (Z.shiftr fn 1, Z.shiftr sn 1)).

Fixpoint counter_run (n : nat) (fn sn : Z) : list bool * (Z * Z) :=
  match n with
  | O => ([], (fn, sn))
  | S n' => let '(b, (fn1, sn1)) := counter_step fn sn in
            let '(bs, fin) := counter_run n' fn1 sn1 in (b :: bs, fin)
  end.

Definition proof_collision (D : list string) (m : Z) (d : string) (path : list string)
  : option (string * string) :=
  find_collision (tree_of D) d
    (rev (zip (counter_run (length path) m (Z.of_nat (length D) - 1)).1 path)).

(** ** The counters along the tree *)

Lemma land_1 x : Z.land x 1 = x mod 2.
Proof. change 1 with (Z.ones 1) at 1. by rewrite Z.land_ones. Qed.

Lemma shiftr_1 x : Z.shiftr x 1 = x / 2.
Proof. by rewrite Z.shiftr_div_pow2. Qed.

Lemma strip_even_exit f fn sn :
  0 <= fn < 2 ^ Z.of_nat f ->
  let '(fn', _) := strip_even f fn sn in fn' = 0 \/ Z.land fn' 1 = 1.
Proof.
  revert fn sn. induction f as [|f IH]; intros fn sn H; simpl.
  { left. simpl in H. lia. }
  rewrite Nat2Z.inj_succ, Z.pow_succ_r in H by lia.
  rewrite land_1, shiftr_1, shiftr_1. case_if.
  - apply IH. zlia.
  - apply andb_false_iff in Heqb as [E|E]; b2p; [tauto|right]. rewrite land_1 in *. zlia.
Qed.

(** Trailing zeros: from [q * 2^e] with [q] odd the loop stops at [q]. *)
Lemma strip_even_odd f e q sn :
  0 < q -> q mod 2 = 1 -> (e < f)%nat ->
  strip_even f (q * 2 ^ Z.of_nat e) sn = (q, sn / 2 ^ Z.of_nat e).
Proof.
  revert e sn. induction f as [|f IH]; intros e sn Hq Ho He; [lia|]. simpl strip_even.
  rewrite land_1, shiftr_1, shiftr_1. destruct e as [|e].
  - change (2 ^ Z.of_nat 0) with 1. rewrite Z.mul_1_r, Ho, Z.div_1_r, andb_false_r. done.
  - rewrite Nat2Z.inj_succ, Z.pow_succ_r by lia. assert (0 < 2 ^ Z.of_nat e) by lia.
    replace (q * (2 * 2 ^ Z.of_nat e)) with (q * 2 ^ Z.of_nat e * 2) by lia.
    rewrite Z.mod_mul, Z.div_mul by lia.
    assert (0 < q * 2 ^ Z.of_nat e) by (apply Z.mul_pos_pos; lia).
    replace (q * 2 ^ Z.of_nat e * 2 =? 0) with false by (symmetry; apply Z.eqb_neq; lia). simpl.
    rewrite IH, Z.div_div by lia. done.
Qed.

Lemma counter_step_right fn sn :
  fn mod 2 = 0 -> fn <> sn -> counter_step fn sn = (false, (fn / 2, sn / 2)).
Proof.
  intros H1 H2. unfold counter_step. rewrite land_1, !shiftr_1, H1. change (0 =? 1) with false. cbn [orb].
  by destruct (Z.eqb_spec fn sn).
Qed.

Lemma counter_step_odd fn sn :
  fn mod 2 = 1 -> counter_step fn sn = (true, (fn / 2, sn / 2)).
Proof.
  intros H1. unfold counter_step. rewrite land_1, H1. change (1 =? 1) with true. cbn [orb].
  cbn [strip_even]. rewrite land_1, H1. change (1 =? 0) with false.
  rewrite andb_false_r, !shiftr_1. done.
Qed.

Lemma counter_step_border q e :
  0 < q -> q mod 2 = 1 -> (e < 64)%nat ->
  counter_step (q * 2 ^ Z.of_nat e) (q * 2 ^ Z.of_nat e) = (true, (q / 2, q / 2)).
Proof.
  intros. unfold counter_step. rewrite Z.eqb_refl, orb_true_r, strip_even_odd by done.
  rewrite Z.div_mul, !shiftr_1 by lia. done.
Qed.
Opaque counter_step.

Lemma counter_run_app n1 n2 fn sn :
  counter_run (n1 + n2) fn sn =
  let '(b1, (fn1, sn1)) := counter_run n1 fn sn in
  let '(b2, fin) := counter_run n2 fn1 sn1 in (b1 ++ b2, fin).
Proof.
  revert fn sn. induction n1 as [|n1 IH]; intros fn sn; simpl.
  { by destruct (counter_run n2 fn sn) as [? ?]. }
  destruct (counter_step fn sn) as [b [fn1 sn1]]. rewrite IH.
  destruct (counter_run n1 fn1 sn1) as [b1 [fn2 sn2]].
  by destruct (counter_run n2 fn2 sn2) as [? ?].
Qed.

Lemma length_counter_run n fn sn : length (counter_run n fn sn).1 = n.
Proof.
  revert fn sn. induction n as [|n IH]; intros fn sn; simpl; [done|].
  destruct (counter_step fn sn) as [b [fn1 sn1]]. specialize (IH fn1 sn1).
  destruct (counter_run n fn1 sn1). simpl in *. by rewrite IH.
Qed.

(** A perfect tree of height [h], and the shape the RFC's split gives: a
    perfect left child at least as high as the right one. *)
Inductive perfect : nat -> mtree -> Prop :=
| perfect_leaf d : perfect 0 (Leaf d)
| perfect_node h l r : perfect h l -> perfect h r -> perfect (S h) (Node l r).

Inductive shaped : nat -> mtree -> Prop :=
| shaped_leaf d : shaped 0 (Leaf d)
| shaped_node h h' l r :
    perfect h l -> shaped h' r -> (h' <= h)%nat -> shaped (S h) (Node l r).

Lemma tsize_node l r : tsize (Node l r) = tsize l + tsize r.
Proof. unfold tsize. simpl. rewrite length_app. lia. Qed.

Lemma perfect_size h t : perfect h t -> tsize t = 2 ^ Z.of_nat h.
Proof.
  induction 1 as [|h l r _ IHl _ IHr]; [done|].
  rewrite tsize_node, IHl, IHr, Nat2Z.inj_succ, Z.pow_succ_r by lia. lia.
Qed.

Lemma shaped_size h t : shaped h t -> 1 <= tsize t <= 2 ^ Z.of_nat h.
Proof.
  induction 1 as [|h h' l r Hl _ IH Hh]; [done|].
  rewrite tsize_node, (perfect_size _ _ Hl), Nat2Z.inj_succ, Z.pow_succ_r by lia.
  assert (2 ^ Z.of_nat h' <= 2 ^ Z.of_nat h) by (apply Z.pow_le_mono_r; lia). lia.
Qed.

(** Inside a perfect subtree that is not on the right border. *)
Lemma counter_run_perfect h t : perfect h t -> forall F S m s,
  0 <= m < tsize t -> 0 <= F < S -> 0 <= s < 2 ^ Z.of_nat h ->
  counter_run h (F * 2 ^ Z.of_nat h + m) (S * 2 ^ Z.of_nat h + s) = (tdirs t m, (F, S)).
Proof.
  induction 1 as [d|h l r Hl IHl Hr IHr]; intros F S0 m s Hm HF Hs.
  { assert (m = 0) as -> by (unfold tsize in Hm; simpl in Hm; lia).
    simpl in Hs. assert (s = 0) as -> by lia.
    cbn [counter_run tdirs]. change (2 ^ Z.of_nat 0) with 1. repeat f_equal; lia. }
  rewrite tsize_node, (perfect_size _ _ Hl), (perfect_size _ _ Hr) in Hm.
  rewrite Nat2Z.inj_succ, Z.pow_succ_r in * by lia.
  set (k := 2 ^ Z.of_nat h) in *. assert (0 < k) by (subst k; lia).
  replace (Datatypes.S h) with (h + 1)%nat by lia. rewrite counter_run_app.
  cbn [tdirs]. rewrite (perfect_size _ _ Hl). fold k.
  assert (exists c s', 0 <= s' < k /\ s = c * k + s' /\ 0 <= c < 2) as (c & s' & Hs' & -> & Hc).
  { exists (s / k), (s mod k). pose proof (Z.div_mod s k). pose proof (Z.mod_pos_bound s k).
    assert (s / k < 2) by (apply Z.div_lt_upper_bound; lia). assert (0 <= s / k) by (apply Z.div_pos; lia). lia. }
  replace (S0 * (2 * k) + (c * k + s')) with ((2 * S0 + c) * k + s') by lia.
  destruct (Z.ltb_spec m k) as [Hlt|Hge].
  - replace (F * (2 * k) + m) with ((2 * F) * k + m) by lia.
    rewrite (IHl (2 * F) (2 * S0 + c) m s') by (rewrite ?(perfect_size _ _ Hl); fold k; lia).
    simpl. rewrite counter_step_right by zlia. repeat f_equal; zlia.
  - replace (F * (2 * k) + m) with ((2 * F + 1) * k + (m - k)) by lia.
    rewrite (IHr (2 * F + 1) (2 * S0 + c) (m - k) s')
      by (rewrite ?(perfect_size _ _ Hr); fold k; lia).
    simpl. rewrite counter_step_odd by zlia. repeat f_equal; zlia.
Qed.

Lemma length_tdirs_perfect h t m : perfect h t -> length (tdirs t m) = h.
Proof.
  intros H. revert m. induction H as [d|h l r Hl IHl Hr IHr]; intros m; simpl; [done|].
  case_if; rewrite length_app, ?IHl, ?IHr; simpl; lia.
Qed.

(** [live n fn sn]: [sn] is non-zero before each of the first [n] steps, the
    RFC's step (4a). *)
Fixpoint live (n : nat) (fn sn : Z) : bool :=
  match n with
  | O => true
  | S n' => negb (sn =? 0) && let '(_, (fn1, sn1)) := counter_step fn sn in live n' fn1 sn1
  end.

Lemma live_app n1 n2 fn sn :
  live (n1 + n2) fn sn =
  live n1 fn sn && let '(_, (fn1, sn1)) := counter_run n1 fn sn in live n2 fn1 sn1.
Proof.
  revert fn sn. induction n1 as [|n1 IH]; intros fn sn; simpl; [done|].
  destruct (counter_step fn sn) as [b [fn1 sn1]]. rewrite IH.
  destruct (counter_run n1 fn1 sn1) as [b1 [fn2 sn2]]. by rewrite andb_assoc.
Qed.

Lemma strip_even_zero f fn : (strip_even f fn 0).2 = 0.
Proof. revert fn. induction f as [|f IH]; intros fn; simpl; [done|]. case_if; [apply IH|done]. Qed.

Lemma counter_step_zero fn : (counter_step fn 0).2.2 = 0.
Proof.
  Transparent counter_step. unfold counter_step. Opaque counter_step.
  destruct ((Z.land fn 1 =? 1) || (fn =? 0)); [|done].
  pose proof (strip_even_zero 64 fn) as H. destruct (strip_even 64 fn 0) as [a b].
  cbn [snd] in *. by subst.
Qed.

Lemma counter_run_zero n fn : (counter_run n fn 0).2.2 = 0.
Proof.
  revert fn. induction n as [|n IH]; intros fn; simpl; [done|].
  pose proof (counter_step_zero fn) as H. destruct (counter_step fn 0) as [b [fn1 sn1]].
  simpl in H. subst. specialize (IH fn1). by destruct (counter_run n fn1 0).
Qed.

Lemma live_nonzero n fn sn : (counter_run n fn sn).2.2 <> 0 -> live n fn sn = true.
Proof.
  revert fn sn. induction n as [|n IH]; intros fn sn H; [done|].
  destruct (Z.eqb_spec sn 0) as [->|Hsn]; [by rewrite counter_run_zero in H|].
  simpl in *. rewrite (proj2 (Z.eqb_neq _ _) Hsn). simpl.
  destruct (counter_step fn sn) as [b [fn1 sn1]]. apply IH.
  by destruct (counter_run n fn1 sn1).
Qed.

(** Along the right border: the counters of a subtree whose last leaf is the
    last leaf of the log meet at the subtree's own position. *)
Lemma counter_run_shaped h t : shaped h t -> (h <= 64)%nat -> forall Q m,
  0 <= Q -> 0 <= m < tsize t ->
  let n := length (tdirs t m) in
  let fn := Q * 2 ^ Z.of_nat h + m in
  let sn := Q * 2 ^ Z.of_nat h + (tsize t - 1) in
  counter_run n fn sn = (tdirs t m, (Q, Q)) /\ live n fn sn = true.
Proof.
  induction 1 as [d|h h' l r Hl Hr IH Hh]; intros H64 Q m HQ Hm.
  { assert (m = 0) as -> by (unfold tsize in Hm; simpl in Hm; lia).
    cbn -[Z.mul Z.pow]. change (2 ^ 0) with 1. rewrite !Z.mul_1_r, !Z.add_0_r. done. }
  rewrite tsize_node in *. pose proof (perfect_size _ _ Hl) as Sl.
  pose proof (shaped_size _ _ Hr) as Sr.
  assert (2 ^ Z.of_nat h' <= 2 ^ Z.of_nat h) by (apply Z.pow_le_mono_r; lia).
  cbn zeta. cbn [tdirs]. rewrite Nat2Z.inj_succ, Z.pow_succ_r by lia. rewrite Sl in *.
  set (k := 2 ^ Z.of_nat h) in *. assert (0 < k) by (subst k; lia).
  destruct (Z.ltb_spec m k) as [Hlt|Hge]; rewrite length_app; simpl length;
    rewrite counter_run_app, live_app.
  - rewrite (length_tdirs_perfect _ _ _ Hl).
    replace (Q * (2 * k) + m) with (2 * Q * k + m) by lia.
    replace (Q * (2 * k) + (k + tsize r - 1)) with ((2 * Q + 1) * k + (tsize r - 1)) by lia.
    pose proof (counter_run_perfect _ _ Hl (2 * Q) (2 * Q + 1) m (tsize r - 1)) as E.
    fold k in E. rewrite Sl in E. specialize (E ltac:(lia) ltac:(lia) ltac:(lia)).
    rewrite live_nonzero by (rewrite E; simpl; lia). rewrite E. cbn [counter_run live].
    rewrite (proj2 (Z.eqb_neq (2 * Q + 1) 0)) by lia.
    rewrite counter_step_right by zlia. simpl. split; [|done]. repeat f_equal; zlia.
  - set (e := (h - h')%nat).
    assert (Ek : k = 2 ^ Z.of_nat e * 2 ^ Z.of_nat h').
    { subst k e. rewrite <- Z.pow_add_r by lia. f_equal. lia. }
    destruct (IH ltac:(lia) ((2 * Q + 1) * 2 ^ Z.of_nat e) (m - k)) as [E L]; [lia|lia|].
    cbn zeta in E, L.
    replace ((2 * Q + 1) * 2 ^ Z.of_nat e * 2 ^ Z.of_nat h' + (m - k))
      with (Q * (2 * k) + m) in E, L by lia.
    replace ((2 * Q + 1) * 2 ^ Z.of_nat e * 2 ^ Z.of_nat h' + (tsize r - 1))
      with (Q * (2 * k) + (k + tsize r - 1)) in E, L by lia.
    rewrite L, E. cbn [counter_run live].
    rewrite (proj2 (Z.eqb_neq ((2 * Q + 1) * 2 ^ Z.of_nat e) 0)) by nia.
    rewrite counter_step_border by (subst e; zlia). simpl. split; [|done]. repeat f_equal; zlia.
Qed.

(** ** The reference tree has that shape *)

Lemma split_point_spec n :
  (2 <= n)%nat ->
  let h := Z.to_nat (Z.log2 (Z.of_nat n - 1)) in
  Z.of_nat (split_point n) = 2 ^ Z.of_nat h /\ (0 < split_point n < n)%nat
  /\ (n - split_point n <= split_point n)%nat.
Proof.
  intros Hn. cbn zeta. unfold split_point.
  pose proof (Z.log2_nonneg (Z.of_nat n - 1)). rewrite Z2Nat.id by lia.
  pose proof (Z.log2_spec (Z.of_nat n - 1)) as S. rewrite Z.pow_succ_r in S by lia.
  rewrite Z2Nat.id by lia. split; [done|]. lia.
Qed.

Lemma build_leaves f D : D <> [] -> (length D <= f)%nat -> leaves (build f D) = D.
Proof.
  revert D. induction f as [|f IH]; intros D HD Hf; destruct D as [|d [|d' D']]; simpl in Hf; try lia; try done.
  cbn [build leaves]. set (D := d :: d' :: D') in *.
  destruct (split_point_spec (length D)) as (_ & ? & ?); [subst D; simpl; lia|].
  assert (length D = S (S (length D'))) by done.
  rewrite !IH, take_drop; try done; rewrite ?length_take, ?length_drop; try lia;
    intros E%(f_equal length); rewrite ?length_take, ?length_drop in E; simpl in *; lia.
Qed.

Lemma build_perfect f D h :
  (length D <= f)%nat -> Z.of_nat (length D) = 2 ^ Z.of_nat h -> perfect h (build f D).
Proof.
  revert D h. induction f as [|f IH]; intros D h Hf HD.
  { destruct D; [|simpl in Hf; lia]. simpl in HD. lia. }
  destruct D as [|d [|d' D']]; [simpl in HD; lia| |].
  { destruct h; [constructor|]. rewrite Nat2Z.inj_succ, Z.pow_succ_r in HD by lia. simpl in HD. lia. }
  cbn [build]. set (D := d :: d' :: D') in *. assert (length D = S (S (length D'))) as EL by done.
  destruct h as [|h]; [simpl in HD; lia|].
  rewrite Nat2Z.inj_succ, Z.pow_succ_r in HD by lia.
  assert (Z.of_nat (split_point (length D)) = 2 ^ Z.of_nat h) as Es.
  { destruct (split_point_spec (length D)) as (E & _ & _); [lia|]. rewrite E. f_equal.
    rewrite Z2Nat.id by apply Z.log2_nonneg. apply Z.log2_unique; [lia|].
    rewrite HD, Z.pow_succ_r by lia. lia. }
  constructor; apply IH; rewrite ?length_take, ?length_drop; lia.
Qed.

Lemma build_shaped f D :
  D <> [] -> (length D <= f)%nat ->
  exists h, shaped h (build f D) /\ (h = 0%nat \/ 2 ^ (Z.of_nat h - 1) < Z.of_nat (length D)).
Proof.
  revert D. induction f as [|f IH]; intros D HD Hf; destruct D as [|d [|d' D']]; simpl in Hf; try lia; try done.
  { exists 0%nat. split; [constructor|by left]. }
  cbn [build]. set (D := d :: d' :: D') in *. assert (length D = S (S (length D'))) as EL by done.
  set (k := split_point (length D)).
  destruct (split_point_spec (length D)) as (Ek & ? & ?); [lia|]. fold k in Ek, H, H0.
  set (h := Z.to_nat (Z.log2 (Z.of_nat (length D) - 1))) in *.
  destruct (IH (drop k D)) as (h' & Hs & Hb); rewrite ?length_drop; [|lia|].
  { intros E%(f_equal length). rewrite length_drop in E. simpl in *. lia. }
  exists (S h). rewrite length_drop in Hb. split.
  - econstructor; [|exact Hs|].
    + apply build_perfect; rewrite length_take; lia.
    + destruct Hb as [->|Hb]; [lia|]. apply Nat2Z.inj_le.
      assert (Z.of_nat h' - 1 < Z.of_nat h); [|lia].
      apply (Z.pow_lt_mono_r_iff 2); lia.
  - right. rewrite Nat2Z.inj_succ. unfold Z.succ. rewrite Z.add_simpl_r. lia.
Qed.

Lemma length_tpath t m : length (tpath t m) = length (tdirs t m).
Proof.
  revert m. induction t as [d|l IHl r IHr]; intros m; simpl; [done|].
  case_if; rewrite !length_app, ?IHl, ?IHr; done.
Qed.

Lemma tree_of_leaves D : D <> [] -> leaves (tree_of D) = D.
Proof. intros. by apply build_leaves. Qed.

Lemma MTH_tree D : D <> [] -> MTH D = thash (tree_of D).
Proof. intros H. destruct D; [congruence|reflexivity]. Qed.

Lemma counter_run_PATH D m :
  0 <= m < Z.of_nat (length D) -> Z.of_nat (length D) < 2 ^ 64 ->
  counter_run (length (PATH m D)) m (Z.of_nat (length D) - 1) = (tdirs (tree_of D) m, (0, 0))
  /\ live (length (PATH m D)) m (Z.of_nat (length D) - 1) = true.
Proof.
  intros Hm H64. assert (HD : D <> []) by (intros ->; simpl in Hm; lia).
  destruct (build_shaped (length D) D HD) as (h & Hs & Hb); [lia|].
  fold (tree_of D) in Hs.
  assert (ES : tsize (tree_of D) = Z.of_nat (length D)) by (unfold tsize; by rewrite tree_of_leaves).
  assert (Hh : (h <= 64)%nat).
  { destruct Hb as [->|Hb]; [lia|]. assert (Z.of_nat h - 1 < 64); [|lia].
    apply (Z.pow_lt_mono_r_iff 2); lia. }
  destruct (counter_run_shaped h _ Hs Hh 0 m) as [E L]; [lia|lia|].
  cbn zeta in E, L. rewrite Z.mul_0_l, !Z.add_0_l, ES in E, L.
  unfold PATH. rewrite length_tpath. done.
Qed.

(** ** The code's loop is the counters plus hashing *)

Fixpoint up_hash (r : string) (steps : list (bool * string)) : string :=
  match steps with
  | [] => r
  | (true, p) :: s => up_hash (hashChildren p r) s
  | (false, p) :: s => up_hash (hashChildren r p) s
  end.

Lemma up_hash_app r s1 s2 : up_hash r (s1 ++ s2) = up_hash (up_hash r s1) s2.
Proof. revert r. induction s1 as [|[[] p] s1 IH]; intros r; simpl; auto. Qed.

Lemma up_hash_proof d steps : up_hash (rfc9162LeafHash d) steps = proof_hash d (rev steps).
Proof.
  induction steps as [|[b p] s IH] using rev_ind; [done|].
  rewrite up_hash_app, IH, rev_app_distr. simpl. by destruct b.
Qed.

Definition len32 (p : string) : Prop := String.length p = sha256_Size.

Lemma path_step_counter fn sn r p :
  path_step (fn, sn, r) p =
  if (String.length p =? sha256_Size)%nat then
    let '(b, (fn', sn')) := counter_step fn sn in Ok (fn', sn', up_hash r [(b, p)])
  else Err ErrPathElement.
Proof.
  Transparent counter_step. unfold path_step, counter_step. Opaque counter_step.
  destruct (String.length p =? sha256_Size)%nat; cbn [negb]; [|done].
  destruct ((Z.land fn 1 =? 1) || (fn =? sn)); [|done].
  by destruct (strip_even 64 fn sn).
Qed.

Lemma fold_path_step fn sn r path st :
  fold_res path_step (fn, sn, r) path = Ok st <->
  Forall len32 path /\
  st = let '(bs, (fn', sn')) := counter_run (length path) fn sn in (fn', sn', up_hash r (zip bs path)).
Proof.
  revert fn sn r. induction path as [|p path IH]; intros fn sn r.
  { simpl. split; [intros [= <-]; done|intros [_ ->]; done]. }
  cbn [fold_res]. rewrite path_step_counter. cbn [length counter_run].
  destruct (Nat.eqb_spec (String.length p) sha256_Size) as [Hp|Hp].
  - destruct (counter_step fn sn) as [b [fn1 sn1]]. cbn [mbind result_bind]. rewrite IH.
    rewrite Forall_cons. destruct (counter_run (length path) fn1 sn1) as [bs [fn2 sn2]].
    cbn [zip_with]. destruct b; simpl; unfold len32; tauto.
  - simpl. split; [done|]. rewrite Forall_cons. unfold len32. tauto.
Qed.

(** What the walk accepts, and the root it returns. *)
Lemma RootFromProof_Ok lh m n path root :
  0 <= m -> 0 <= n ->
  rfc9162RootFromProof lh m n path = Ok root <->
  m < n /\ Forall len32 path /\ (counter_run (length path) m (n - 1)).2.1 = 0
  /\ root = up_hash lh (zip (counter_run (length path) m (n - 1)).1 path).
Proof.
  intros Hm Hn. unfold rfc9162RootFromProof.
  destruct (Z.eqb_spec n 0) as [->|?]; [split; [done|lia]|].
  destruct (Z.leb_spec n m) as [?|?]; [split; [done|lia]|].
  rewrite bind_Ok. setoid_rewrite fold_path_step.
  destruct (counter_run (length path) m (n - 1)) as [bs [fn sn]]. simpl. split.
  - intros (st & [Hf ->] & E). destruct (Z.eqb_spec fn 0) as [->|?]; [|done].
    injection E as <-. done.
  - intros (_ & Hf & -> & ->). eexists. split; [done|]. done.
Qed.

Lemma hashChildren_len32 l r : len32 (hashChildren l r).
Proof. apply Sum256_length. Qed.

Lemma thash_len32 t : len32 (thash t).
Proof. destruct t; apply Sum256_length. Qed.

Lemma tpath_len32 t m : Forall len32 (tpath t m).
Proof.
  revert m. induction t as [d|l IHl r IHr]; intros m; simpl; [constructor|].
  case_if; apply Forall_app; split; auto using Forall_cons, Forall_nil, thash_len32.
Qed.

Lemma zip_app {A B} (a1 a2 : list A) (b1 b2 : list B) :
  length a1 = length b1 -> zip (a1 ++ a2) (b1 ++ b2) = zip a1 b1 ++ zip a2 b2.
Proof. revert b1. induction a1 as [|a a1 IH]; intros [|b b1] H; simpl in *; try done. by rewrite IH by lia. Qed.

(** Hashing up the reference path of leaf [m] gives the root. *)
Lemma up_hash_tpath t m d :
  0 <= m -> leaves t !! Z.to_nat m = Some d ->
  up_hash (rfc9162LeafHash d) (zip (tdirs t m) (tpath t m)) = thash t.
Proof.
  revert m. induction t as [d'|l IHl r IHr]; intros m Hm Hd; simpl in *.
  { destruct (Z.to_nat m); simpl in Hd; [by injection Hd as ->|done]. }
  unfold tsize. destruct (Z.ltb_spec m (Z.of_nat (length (leaves l)))).
  - rewrite lookup_app_l in Hd by lia. rewrite zip_app by (by rewrite length_tpath).
    rewrite up_hash_app, IHl by done. done.
  - rewrite lookup_app_r in Hd by lia. rewrite zip_app by (by rewrite length_tpath).
    rewrite up_hash_app, IHr; [done|lia|]. rewrite <- Hd. f_equal. lia.
Qed.

Lemma app_eq_inv_s a b c d :
  String.length a = String.length c -> a +:+ b = c +:+ d -> a = c /\ b = d.
Proof.
  revert c. induction a as [|x a IH]; intros [|y c] HL H; try done.
  rewrite !app_cons_s in H. injection H as -> H. injection HL as HL.
  by destruct (IH _ HL H) as [-> ->].
Qed.

Lemma proof_hash_len32 d steps : len32 (proof_hash d steps).
Proof. destruct steps as [|[[] p] s]; apply Sum256_length. Qed.

Lemma thash_preimage t : thash t = Sum256 (preimage t).
Proof. by destruct t. Qed.

Lemma proof_hash_preimage d steps : proof_hash d steps = Sum256 (proof_preimage d steps).
Proof. by destruct steps as [|[[] p] s]. Qed.

(** Subtree reached by following sides from the root. *)
Fixpoint follow (t : mtree) (sides : list bool) {struct sides} : option mtree :=
  match sides, t with
  | [], _ => Some t
  | b :: bs, Node l r => follow (if b then r else l) bs
  | _ :: _, Leaf _ => None
  end.

(** Siblings met on the way. *)
Fixpoint siblings (t : mtree) (sides : list bool) {struct sides} : list string :=
  match sides, t with
  | b :: bs, Node l r => thash (if b then l else r) :: siblings (if b then r else l) bs
  | _, _ => []
  end.

Ltac case_preimage H :=
  match type of H with context [String.eqb ?a ?b] => destruct (String.eqb_spec a b) as [E|E] end.

Lemma find_collision_Some t d steps x y :
  thash t = proof_hash d steps -> Forall (fun s => len32 s.2) steps ->
  find_collision t d steps = Some (x, y) -> x <> y /\ Sum256 x = Sum256 y.
Proof.
  revert t. induction steps as [|[b p] s IH]; intros t He Hl Hc.
  - rewrite thash_preimage, proof_hash_preimage in He.
    destruct t as [e|l r]; cbn [find_collision] in Hc; case_preimage Hc; try done;
      injection Hc as <- <-; done.
  - rewrite thash_preimage, proof_hash_preimage in He.
    destruct t as [e|l r]; cbn [find_collision] in Hc;
      (case_preimage Hc; [|injection Hc as <- <-; done]).
    { done. }
    apply Forall_cons in Hl as [Hp Hl]. simpl in Hp. apply (IH (if b then r else l)); [|done|done].
    destruct b; injection E as E; apply app_eq_inv_s in E as [E1 E2];
      first [done | rewrite thash_len32; (rewrite Hp || rewrite proof_hash_len32); done].
Qed.

Lemma find_collision_None t d steps :
  Forall (fun s => len32 s.2) steps ->
  find_collision t d steps = None ->
  follow t steps.*1 = Some (Leaf d) /\ siblings t steps.*1 = steps.*2.
Proof.
  revert t. induction steps as [|[b p] s IH]; intros t Hl Hc;
    destruct t as [e|l r]; cbn [find_collision] in Hc;
    (case_preimage Hc; [|done]).
  - injection E as ->. done.
  - done.
  - by destruct b.
  - apply Forall_cons in Hl as [Hp Hl]. simpl in Hp. destruct (IH (if b then r else l)) as [F G]; [done|done|].
    split; [exact F|]. cbn [fmap list_fmap fst snd siblings]. rewrite <- G. f_equal.
    destruct b; injection E as E; apply app_eq_inv_s in E as [E1 E2];
      first [done | rewrite thash_len32; (rewrite Hp || rewrite proof_hash_len32); done].
Qed.

Lemma follow_member t sides d : follow t sides = Some (Leaf d) -> d ∈ leaves t.
Proof.
  revert t. induction sides as [|b bs IH]; intros t H; simpl in H.
  { injection H as ->. simpl. set_solver. }
  destruct t as [|l r]; [done|]. simpl. apply elem_of_app. destruct b; eauto.
Qed.

Lemma follow_tdirs t m d :
  0 <= m -> leaves t !! Z.to_nat m = Some d ->
  follow t (rev (tdirs t m)) = Some (Leaf d) /\ siblings t (rev (tdirs t m)) = rev (tpath t m).
Proof.
  revert m. induction t as [d'|l IHl r IHr]; intros m Hm Hd; simpl in *.
  { destruct (Z.to_nat m); simpl in Hd; [by injection Hd as ->|done]. }
  unfold tsize in *. destruct (Z.ltb_spec m (Z.of_nat (length (leaves l)))).
  - rewrite lookup_app_l in Hd by lia. rewrite !rev_app_distr. simpl.
    destruct (IHl m Hm Hd) as [-> ->]. done.
  - rewrite lookup_app_r in Hd by lia. rewrite !rev_app_distr. simpl.
    destruct (IHr (m - Z.of_nat (length (leaves l)))) as [-> ->]; [lia| |done].
    rewrite <- Hd. f_equal. lia.
Qed.

Lemma fmap_rev_list {A B} (f : A -> B) (l : list A) : f <$> rev l = rev (f <$> l).
Proof. induction l as [|x l IH]; simpl; [done|]. by rewrite fmap_app, IH. Qed.

Lemma rev_zip_fst {A B} (a : list A) (b : list B) :
  length a = length b -> (rev (zip a b)).*1 = rev a.
Proof. intros. rewrite fmap_rev_list, fst_zip by lia. done. Qed.

Lemma rev_zip_snd {A B} (a : list A) (b : list B) :
  length a = length b -> (rev (zip a b)).*2 = rev b.
Proof. intros. rewrite fmap_rev_list, snd_zip by lia. done. Qed.

Lemma Forall_zip_snd {A B} (P : B -> Prop) (a : list A) (b : list B) :
  Forall P b -> Forall (fun s => P s.2) (rev (zip a b)).
Proof.
  intros H. apply Forall_rev. revert a. induction H as [|y l ? ? IH]; intros [|x a]; simpl; auto.
Qed.

(** The common core of the soundness results. *)
Lemma walk_collision D m d path :
  D <> [] -> Forall len32 path ->
  up_hash (rfc9162LeafHash d) (zip (counter_run (length path) m (Z.of_nat (length D) - 1)).1 path) = MTH D ->
  match proof_collision D m d path with
  | Some (x, y) => x <> y /\ Sum256 x = Sum256 y
  | None => let sides := rev (counter_run (length path) m (Z.of_nat (length D) - 1)).1 in
            follow (tree_of D) sides = Some (Leaf d) /\ siblings (tree_of D) sides = rev path
  end.
Proof.
  intros HD Hl He. unfold proof_collision.
  set (bs := (counter_run (length path) m (Z.of_nat (length D) - 1)).1) in *.
  assert (length bs = length path) by apply length_counter_run.
  assert (Hs : Forall (fun s => len32 s.2) (rev (zip bs path))) by by apply Forall_zip_snd.
  assert (ET : thash (tree_of D) = proof_hash d (rev (zip bs path))).
  { by rewrite <- up_hash_proof, He, MTH_tree. }
  destruct (find_collision _ d _) as [[x y]|] eqn:E.
  - by eapply find_collision_Some.
  - apply find_collision_None in E; [|done].
    by rewrite rev_zip_fst, rev_zip_snd in E.
Qed.

(** ** RFC 9162 section 2.1.3.2 *)

(** Step 4 with its check (a) and step 5. *)
Fixpoint reference_walk (fn sn : Z) (r : string) (path : list string) : option string :=
  match path with
  | [] => if sn =? 0 then Some r else None
  | p :: ps =>
      if sn =? 0 then None else
      let '(b, (fn', sn')) := counter_step fn sn in
      reference_walk fn' sn' (if b then hashChildren p r else hashChildren r p) ps
  end.

Definition reference_root (lh : string) (m n : Z) (path : list string) : option string :=
  if n <=? m then None else reference_walk m (n - 1) lh path.

Lemma reference_walk_Some fn sn r path root :
  reference_walk fn sn r path = Some root <->
  live (length path) fn sn = true /\ (counter_run (length path) fn sn).2.2 = 0
  /\ root = up_hash r (zip (counter_run (length path) fn sn).1 path).
Proof.
  revert fn sn r. induction path as [|p path IH]; intros fn sn r; simpl.
  { destruct (Z.eqb_spec sn 0) as [->|]; split; [by intros [= <-]|by intros (_ & _ & ->)|done|].
    by intros (_ & ? & _). }
  destruct (Z.eqb_spec sn 0); cbn [negb andb]; [split; [congruence|intros [? _]; congruence]|].
  destruct (counter_step fn sn) as [b [fn1 sn1]]. rewrite IH.
  destruct (counter_run (length path) fn1 sn1) as [bs [fn2 sn2]]. simpl. by destruct b.
Qed.

Lemma strip_even_le f fn sn :
  0 <= fn <= sn -> 0 <= (strip_even f fn sn).1 <= (strip_even f fn sn).2.
Proof.
  revert fn sn. induction f as [|f IH]; intros fn sn H; simpl; [done|].
  case_if; [|done]. apply IH. rewrite !shiftr_1. zlia.
Qed.

Lemma counter_step_le fn sn :
  0 <= fn <= sn -> 0 <= (counter_step fn sn).2.1 <= (counter_step fn sn).2.2.
Proof.
  intros H. Transparent counter_step. unfold counter_step. Opaque counter_step.
  pose proof (strip_even_le 64 fn sn H). destruct (strip_even 64 fn sn) as [a b].
  case_if; cbn [fst snd] in *; rewrite !shiftr_1; zlia.
Qed.

Lemma counter_run_le n fn sn :
  0 <= fn <= sn -> 0 <= (counter_run n fn sn).2.1 <= (counter_run n fn sn).2.2.
Proof.
  revert fn sn. induction n as [|n IH]; intros fn sn H; simpl; [done|].
  pose proof (counter_step_le fn sn H) as H1. destruct (counter_step fn sn) as [b [fn1 sn1]].
  specialize (IH fn1 sn1 H1). by destruct (counter_run n fn1 sn1).
Qed.

(** The reference accepts at one path length only. *)
Lemma live_unique n1 n2 fn sn :
  live n1 fn sn = true -> (counter_run n1 fn sn).2.2 = 0 ->
  live n2 fn sn = true -> (counter_run n2 fn sn).2.2 = 0 -> n1 = n2.
Proof.
  revert n2 fn sn. induction n1 as [|n1 IH]; intros [|n2] fn sn; simpl; try done.
  - intros _ ->. done.
  - intros L _ _ ->. done.
  - intros L1 Z1 L2 Z2. b2p. destruct (counter_step fn sn) as [b [fn1 sn1]].
    specialize (IH n2 fn1 sn1). f_equal.
    destruct (counter_run n1 fn1 sn1), (counter_run n2 fn1 sn1). auto.
Qed.

(** ** Claims *)

(** Completeness of the inclusion-proof walk.  For every log of fewer than
    [2^64] entries and every leaf of it, the code's walk over the RFC 9162
    inclusion path, started at that leaf's hash, index and tree size, returns
    the RFC's Merkle tree hash: no correct proof is ever rejected, and the
    optimised bottom-up counters agree with the recursive definition. *)
Theorem inclusion_proof_complete D (m : nat) d :
  D !! m = Some d -> Z.of_nat (length D) < 2 ^ 64 ->
  rfc9162RootFromProof (rfc9162LeafHash d) (Z.of_nat m) (Z.of_nat (length D)) (PATH (Z.of_nat m) D)
  = Ok (MTH D).
Proof.
  intros Hd H64. pose proof (lookup_lt_Some _ _ _ Hd).
  destruct (counter_run_PATH D (Z.of_nat m)) as [E _]; [lia|done|].
  apply RootFromProof_Ok; [lia|lia|]. rewrite E. split_and!; [lia|apply tpath_len32|done|].
  assert (HD : D <> []) by (intros ->; discriminate). unfold PATH. cbn [fst].
  rewrite (up_hash_tpath _ _ d), MTH_tree; [reflexivity|exact HD|lia|].
  by rewrite tree_of_leaves, Nat2Z.id.
Qed.

(** Leaf 4 of a five-entry log (an unbalanced tree). *)
Lemma inclusion_proof_complete_witness :
  let D := ["a"; "b"; "c"; "d"; "e"] in
  D !! 4%nat = Some "e" /\
  rfc9162RootFromProof (rfc9162LeafHash "e") 4 5 (PATH 4 D) = Ok (MTH D).
Proof. split; [reflexivity|]. apply (inclusion_proof_complete ["a"; "b"; "c"; "d"; "e"] 4 "e"); reflexivity. Defined.

(** Soundness of the walk.  If the walk from an entry's leaf hash reaches
    the Merkle root of a log, then either the entry is one of the log's entries
    or the computable [proof_collision] produces two different byte strings
    with the same SHA-256 digest: no forged entry verifies short of a hash
    collision, whatever index and path the proof carries. *)
Theorem inclusion_proof_sound_member D m d path :
  D <> [] -> 0 <= m ->
  rfc9162RootFromProof (rfc9162LeafHash d) m (Z.of_nat (length D)) path = Ok (MTH D) ->
  match proof_collision D m d path with
  | Some (x, y) => x <> y /\ Sum256 x = Sum256 y
  | None => d ∈ D
  end.
Proof.
  intros HD Hm H. apply RootFromProof_Ok in H as (_ & Hl & _ & He); [|done|lia].
  pose proof (walk_collision D m d path HD Hl (eq_sym He)) as W.
  destruct (proof_collision D m d path) as [[x y]|]; [done|].
  destruct W as [F _]. rewrite <- (tree_of_leaves D HD). by eapply follow_member.
Qed.

Lemma inclusion_proof_sound_member_witness :
  let D := ["a"; "b"; "c"] in
  proof_collision D 1 "b" (PATH 1 D) = None /\ "b" ∈ D.
Proof.
  pose proof (inclusion_proof_sound_member ["a"; "b"; "c"] 1 "b" (PATH 1 ["a"; "b"; "c"])) as H.
  assert (E : proof_collision ["a"; "b"; "c"] 1 "b" (PATH 1 ["a"; "b"; "c"]) = None)
    by (vm_compute; reflexivity).
  rewrite E in H. split; [exact E|]. apply H; [done|lia|vm_compute; reflexivity].
Defined.

(** Refinement of RFC 9162 section 2.1.3.2 and index soundness of the
    reference.  Every proof with 32-byte elements that the RFC's procedure
    (with its checks on [sn]) maps to a root is accepted by the code with the
    same root; and when that root is the log's, either the extracted pair is a
    SHA-256 collision or the entry is exactly the leaf at the claimed index and
    the path is the unique reference path. *)
Theorem reference_root_refined_and_index_sound D (m : nat) d path :
  Z.of_nat (length D) < 2 ^ 64 -> Forall len32 path ->
  reference_root (rfc9162LeafHash d) (Z.of_nat m) (Z.of_nat (length D)) path = Some (MTH D) ->
  rfc9162RootFromProof (rfc9162LeafHash d) (Z.of_nat m) (Z.of_nat (length D)) path = Ok (MTH D)
  /\ match proof_collision D (Z.of_nat m) d path with
     | Some (x, y) => x <> y /\ Sum256 x = Sum256 y
     | None => D !! m = Some d /\ path = PATH (Z.of_nat m) D
     end.
Proof.
  intros H64 Hl H. unfold reference_root in H.
  destruct (Z.leb_spec (Z.of_nat (length D)) (Z.of_nat m)) as [|Hm]; [done|].
  apply reference_walk_Some in H as (L & Z0 & He).
  assert (HD : D <> []) by (intros ->; simpl in Hm; lia).
  pose proof (counter_run_le (length path) (Z.of_nat m) (Z.of_nat (length D) - 1)).
  split; [apply RootFromProof_Ok; [lia|lia|]; split_and!; [done|done|lia|done]|].
  destruct (counter_run_PATH D (Z.of_nat m)) as [E L']; [lia|done|].
  assert (EL : length path = length (PATH (Z.of_nat m) D)).
  { apply (live_unique _ _ _ _ L Z0 L'). by rewrite E. }
  pose proof (walk_collision D (Z.of_nat m) d path HD Hl (eq_sym He)) as W.
  destruct (proof_collision D (Z.of_nat m) d path) as [[x y]|]; [done|].
  rewrite EL, E in W. cbn [fst] in W. destruct W as [F G].
  destruct (lookup_lt_is_Some_2 D m) as [d' Hd']; [lia|].
  destruct (follow_tdirs (tree_of D) (Z.of_nat m) d') as [F' G'];
    [lia|by rewrite tree_of_leaves, Nat2Z.id|].
  rewrite F in F'. injection F' as <-. split; [done|].
  rewrite G in G'. by apply (f_equal (@rev string)) in G'; rewrite !rev_involutive in G'.
Qed.

Lemma reference_root_refined_witness :
  rfc9162RootFromProof (rfc9162LeafHash "c") (Z.of_nat 2) (Z.of_nat (length ["a"; "b"; "c"]))
    (PATH (Z.of_nat 2) ["a"; "b"; "c"]) = Ok (MTH ["a"; "b"; "c"]).
Proof.
  assert (R : reference_root (rfc9162LeafHash "c") (Z.of_nat 2) (Z.of_nat (length ["a"; "b"; "c"]))
                (PATH (Z.of_nat 2) ["a"; "b"; "c"]) = Some (MTH ["a"; "b"; "c"]))
    by (vm_compute; reflexivity).
  assert (L : Forall len32 (PATH (Z.of_nat 2) ["a"; "b"; "c"])) by apply tpath_len32.
  assert (N : Z.of_nat (length ["a"; "b"; "c"]) < 2 ^ 64) by reflexivity.
  pose proof (reference_root_refined_and_index_sound ["a"; "b"; "c"] 2 "c"
                (PATH (Z.of_nat 2) ["a"; "b"; "c"]) N L R) as H.
  destruct H as [H _]. exact H.
Defined.

(** The code's walk does not bind the leaf index: it never checks that
    [sn] ends at zero, so in every three-entry log the last entry, whose true
    index is 2, is also accepted at index 1 with the same tree size and root -
    a proof the RFC's procedure rejects. *)
Theorem inclusion_index_not_bound a b c :
  let path := [hashChildren (rfc9162LeafHash a) (rfc9162LeafHash b)] in
  PATH 2 [a; b; c] = path
  /\ rfc9162RootFromProof (rfc9162LeafHash c) 1 3 path = Ok (MTH [a; b; c])
  /\ reference_root (rfc9162LeafHash c) 1 3 path = None.
Proof.
  cbn zeta. split_and!; [reflexivity| |].
  - apply RootFromProof_Ok; [lia|lia|].
    split_and!; [lia|repeat constructor; apply hashChildren_len32| |]; reflexivity.
  - unfold reference_root. cbn [Z.leb reference_walk]. done.
Qed.
