(* ===== verification/P256.v ===== *)
(** Go's [crypto/ecdsa] on P-256: an executable signature check.

    Jacobian arithmetic over the NIST P-256 curve, with [ecdsa.Verify] as the
    standard library documents it (FIPS 186-5): [r] and [s] in [1, n-1], the
    public key on the curve, and the x coordinate of [u1 G + u2 Q] equal to [r]
    modulo the group order.  A public key is its pair of coordinates; a key
    on another curve is not modelled. *)
From S2P Require Import Prelude GoStrings.

#[local] Set Default Goal Selector "!".
#[local] Open Scope Z_scope.

Definition p256_p : Z := 0xffffffff00000001000000000000000000000000ffffffffffffffffffffffff.
Definition p256_n : Z := 0xffffffff00000000ffffffffffffffffbce6faada7179e84f3b9cac2fc632551.
Definition p256_b : Z := 0x5ac635d8aa3a93e7b3ebbd55769886bc651d06b0cc53b0f63bce3c3e27d2604b.
Definition p256_Gx : Z := 0x6b17d1f2e12c4247f8bce6e563a440f277037d812deb33a0f4a13945d898c296.
Definition p256_Gy : Z := 0x4fe342e2fe1a7f9b8ee7eb4a7c0f9e162bce33576b315ececbb6406837bf51f5.

(** Modular inverse by the extended Euclidean algorithm; 600 turns of fuel
    cover 256-bit operands (each two turns at least halve the remainder). *)
Fixpoint inv_loop (fuel : nat) (r0 r1 t0 t1 m : Z) : Z :=
  match fuel with
  | O => t0 mod m
  | S f => if r1 =? 0 then t0 mod m
           else let q := r0 / r1 in inv_loop f r1 (r0 - q * r1) t1 (t0 - q * t1) m
  end.

Definition inv_mod (a m : Z) : Z := inv_loop 600 m (a mod m) 0 1 m.

(** Points in Jacobian coordinates [(X, Y, Z)] for [(X/Z^2, Y/Z^3)]; [Z = 0] is
    the point at infinity. *)
Definition point : Type := Z * Z * Z.

Definition fmod (x : Z) : Z := x mod p256_p.

Definition pdouble (P : point) : point :=
  let '(x, y, z) := P in
  let yy := fmod (y * y) in
  let zz := fmod (z * z) in
  let s := fmod (4 * x * yy) in
  let m := fmod (3 * (x - zz) * (x + zz)) in
  let x' := fmod (m * m - 2 * s) in
  (x', fmod (m * (s - x') - 8 * yy * yy), fmod (2 * y * z)).

Definition padd (P Q : point) : point :=
  let '(x1, y1, z1) := P in
  let '(x2, y2, z2) := Q in
  if z1 =? 0 then Q else if z2 =? 0 then P else
  let z1z1 := fmod (z1 * z1) in
  let z2z2 := fmod (z2 * z2) in
  let u1 := fmod (x1 * z2z2) in
  let u2 := fmod (x2 * z1z1) in
  let s1 := fmod (y1 * fmod (z2 * z2z2)) in
  let s2 := fmod (y2 * fmod (z1 * z1z1)) in
  if u1 =? u2 then (if s1 =? s2 then pdouble P else (1, 1, 0)) else
  let h := fmod (u2 - u1) in
  let hh := fmod (h * h) in
  let hhh := fmod (h * hh) in
  let v := fmod (u1 * hh) in
  let r := fmod (s2 - s1) in
  let x3 := fmod (r * r - hhh - 2 * v) in
  (x3, fmod (r * (v - x3) - s1 * hhh), fmod (fmod (z1 * z2) * h)).

Fixpoint pmul_pos (k : positive) (P : point) : point :=
  match k with
  | xH => P
  | xO k' => pmul_pos k' (pdouble P)
  | xI k' => padd P (pmul_pos k' (pdouble P))
  end.

Definition pmul (k : Z) (P : point) : point :=
  match k with Zpos k' => pmul_pos k' P | _ => (1, 1, 0) end.

(** Affine x coordinate. *)
Definition affine_x (P : point) : option Z :=
  let '(x, _, z) := P in
  if z =? 0 then None else let i := inv_mod z p256_p in Some (fmod (x * fmod (i * i))).

Definition on_curve (x y : Z) : bool :=
  (0 <=? x) && (x <? p256_p) && (0 <=? y) && (y <? p256_p)
  && ((y * y - (x * x * x - 3 * x + p256_b)) mod p256_p =? 0).

(** [ecdsa.PublicKey] on P-256. *)
Record PublicKey := { pub_X : Z; pub_Y : Z }.

(** [big.Int.SetBytes]: big-endian, unsigned. *)
Definition SetBytes (s : string) : Z := fold_left (fun acc b => acc * 256 + b) (bytes_of s) 0.

(** [ecdsa.Verify(pub, digest, r, s)] for a 32-byte digest. *)
Definition ecdsa_Verify (pub : PublicKey) (digest : string) (r s : Z) : bool :=
  (0 <? r) && (r <? p256_n) && (0 <? s) && (s <? p256_n) && on_curve (pub_X pub) (pub_Y pub) &&
  let w := inv_mod s p256_n in
  let u1 := SetBytes digest * w mod p256_n in
  let u2 := r * w mod p256_n in
  match affine_x (padd (pmul u1 (p256_Gx, p256_Gy, 1)) (pmul u2 (pub_X pub, pub_Y pub, 1))) with
  | None => false
  | Some x => x mod p256_n =? r
  end.

(** RFC 6979, A.2.5: P-256 with SHA-256, message "sample". *)
Definition rfc6979_key : PublicKey := {|
  pub_X := 0x60FED4BA255A9D31C961EB74C6356D68C049B8923B61FA6CE669622E60F29FB6;
  pub_Y := 0x7903FE1008B8BC99A41AE9E95628BC64F2F1B20C2D7E9F5177A3C294D4462299 |}.

Example rfc6979_key_on_curve : on_curve (pub_X rfc6979_key) (pub_Y rfc6979_key) = true.
Proof. vm_compute. reflexivity. Qed.

(** Doubling and addition agree with the published multiples of the base
    point. *)
Example p256_2G_3G :
  affine_x (pmul 2 (p256_Gx, p256_Gy, 1))
  = Some 0x7cf27b188d034f7e8a52380304b51ac3c08969e277f21b35a60b48fc47669978
  /\ affine_x (pmul 3 (p256_Gx, p256_Gy, 1))
  = Some 0x5ecbe4d1a6330a44c8f7ef951d4bf165e6c6b721efada985fb41661bc6e7fd6c.
Proof. split; vm_compute; reflexivity. Qed.
