(* ===== verification/P1363.v ===== *)
(** ECDSA signature encodings, [internal/crypto/p1363.go]: ASN.1 DER to and from
    the fixed-width [r || s] form of IEEE P1363.

    The part of Go's [encoding/asn1] and [math/big] the file uses is modelled on
    byte lists (integers 0..255): strict DER lengths and integers, and a
    sequence whose trailing inner bytes are ignored, as Go does. *)
From S2P Require Import Prelude GoStrings Sha256 P256.

#[local] Set Default Goal Selector "!".
#[local] Open Scope Z_scope.

(** ** [math/big]: unsigned big-endian bytes *)

Definition be_value (l : list Z) : Z := fold_left (fun acc b => acc * 256 + b) l 0.

(** [big.Int.Bytes]: no leading zero byte; fuel [Z.log2 n + 1] bounds the number
    of bytes. *)
Fixpoint be_min_aux (fuel : nat) (n : Z) (acc : list Z) : list Z :=
  match fuel with
  | O => acc
  | S f => if n <=? 0 then acc else be_min_aux f (n / 256) (n mod 256 :: acc)
  end.
Definition Int_Bytes (n : Z) : list Z := be_min_aux (Z.to_nat (Z.log2 n + 1)) n [].

(** ** [encoding/asn1] *)

Inductive asn1_error := ErrSyntaxASN1 | ErrStructural | ErrTrailing | ErrScalars | ErrScalarSize
                      | ErrCoordBytes | ErrInvalidP1363Length.

(** [parseTagAndLength] past the tag byte: the length and the bytes after it. *)
Fixpoint long_length (n : nat) (len : Z) (l : list Z) : result asn1_error (Z * list Z) :=
  match n with
  | O => if len <? 128 then Err ErrStructural else Ok (len, l)
  | S n' =>
      match l with
      | [] => Err ErrSyntaxASN1
      | b :: l' =>
          if 2 ^ 23 <=? len then Err ErrStructural else
          let len' := len * 256 + b in
          if len' =? 0 then Err ErrStructural else long_length n' len' l'
      end
  end.

Definition parse_length (l : list Z) : result asn1_error (Z * list Z) :=
  match l with
  | [] => Err ErrSyntaxASN1
  | b :: l' =>
      if b <? 128 then Ok (b, l') else
      if b =? 128 then Err ErrSyntaxASN1 else long_length (Z.to_nat (b - 128)) 0 l'
  end.

(** A tag-length-value with the expected tag byte: contents and rest. *)
Definition parse_tlv (tag : Z) (l : list Z) : result asn1_error (list Z * list Z) :=
  match l with
  | [] => Err ErrSyntaxASN1
  | t :: l' =>
      '(len, l'') ← parse_length l';
      if negb (t =? tag) then Err ErrStructural else
      if Z.of_nat (length l'') <? len then Err ErrSyntaxASN1 else
      Ok (take (Z.to_nat len) l'', drop (Z.to_nat len) l'')
  end.

(** [checkInteger] and [parseBigInt]: minimal two's complement. *)
Definition parse_int (l : list Z) : result asn1_error Z :=
  match l with
  | [] => Err ErrStructural
  | b0 :: l' =>
      let minimal := match l' with
                     | [] => true
                     | b1 :: _ => negb ((b0 =? 0) && (b1 <? 128)) && negb ((b0 =? 255) && (128 <=? b1))
                     end in
      if minimal then Ok (be_value l - (if 128 <=? b0 then 256 ^ Z.of_nat (length l) else 0))
      else Err ErrStructural
  end.

(** [asn1.Unmarshal] into [ecdsaASN1Signature]: the scalars and the bytes after
    the outer sequence; extra bytes inside the sequence are skipped. *)
Definition asn1_Unmarshal (der : list Z) : result asn1_error (Z * Z * list Z) :=
  '(inner, rest) ← parse_tlv 48 der;
  '(rb, inner1) ← parse_tlv 2 inner;
  r ← parse_int rb;
  '(sb, _) ← parse_tlv 2 inner1;
  s ← parse_int sb;
  Ok (r, s, rest).

Definition der_length (n : Z) : list Z :=
  if n <? 128 then [n] else let bs := Int_Bytes n in (128 + Z.of_nat (length bs)) :: bs.

Definition der_tlv (tag : Z) (body : list Z) : list Z :=
  tag :: der_length (Z.of_nat (length body)) ++ body.

(** A non-negative integer's contents octets. *)
Definition der_int (n : Z) : list Z :=
  match Int_Bytes n with
  | [] => [0]
  | b :: l => if 128 <=? b then 0 :: b :: l else b :: l
  end.

(** [asn1.Marshal] of [ecdsaASN1Signature]. *)
Definition asn1_Marshal (r s : Z) : list Z :=
  der_tlv 48 (der_tlv 2 (der_int r) ++ der_tlv 2 (der_int s)).

(** ** The code *)

Definition left_pad (n : nat) (l : list Z) : list Z := replicate (n - length l) 0 ++ l.

Definition DERToP1363 (derSig : list Z) (coordBytes : Z) : result asn1_error (list Z) :=
  if coordBytes <=? 0 then Err ErrCoordBytes else
  '(r, s, rest) ← asn1_Unmarshal derSig;
  if negb (length rest =? 0)%nat then Err ErrTrailing else
  if (r <=? 0) || (s <=? 0) then Err ErrScalars else
  let rBytes := Int_Bytes r in
  let sBytes := Int_Bytes s in
  if (coordBytes <? Z.of_nat (length rBytes)) || (coordBytes <? Z.of_nat (length sBytes))
  then Err ErrScalarSize
  else Ok (left_pad (Z.to_nat coordBytes) rBytes ++ left_pad (Z.to_nat coordBytes) sBytes).

Definition P1363ToScalars (sig : list Z) : result asn1_error (Z * Z) :=
  if (length sig =? 0)%nat || negb (length sig mod 2 =? 0)%nat then Err ErrInvalidP1363Length else
  let half := (length sig / 2)%nat in
  let r := be_value (take half sig) in
  let s := be_value (drop half sig) in
  if (r <=? 0) || (s <=? 0) then Err ErrScalars else Ok (r, s).

Definition P1363ToDER (sig : list Z) : result asn1_error (list Z) :=
  '(r, s) ← P1363ToScalars sig;
  Ok (asn1_Marshal r s).

(** ** Bytes and values *)

Definition is_byte (b : Z) : Prop := 0 <= b < 256.

Lemma be_value_app a b : be_value (a ++ b) = be_value a * 256 ^ Z.of_nat (length b) + be_value b.
Proof.
  unfold be_value. rewrite fold_left_app. generalize (fold_left (fun acc b => acc * 256 + b) a 0).
  intros v. revert v. induction b as [|x b IH] using rev_ind; intros v; simpl; [lia|].
  rewrite !fold_left_app. simpl. rewrite IH, length_app. simpl.
  rewrite Nat2Z.inj_add, Z.pow_add_r by lia. change (256 ^ Z.of_nat 1) with 256. lia.
Qed.

Lemma be_value_cons x l : be_value (x :: l) = x * 256 ^ Z.of_nat (length l) + be_value l.
Proof. change (x :: l) with ([x] ++ l). rewrite be_value_app. done. Qed.

Lemma be_value_bound l : Forall is_byte l -> 0 <= be_value l < 256 ^ Z.of_nat (length l).
Proof.
  induction 1 as [|x l Hx _ IH]; [done|]. rewrite be_value_cons. simpl length.
  rewrite Nat2Z.inj_succ, Z.pow_succ_r by lia. unfold is_byte in Hx. nia.
Qed.

Lemma be_min_aux_app f n acc : be_min_aux f n acc = be_min_aux f n [] ++ acc.
Proof.
  revert n acc. induction f as [|f IH]; intros n acc; simpl; [done|]. case_if; [done|].
  rewrite IH, (IH _ [_]), <- app_assoc. done.
Qed.

Lemma be_min_aux_value f n : 0 <= n < 2 ^ Z.of_nat f ->
  be_value (be_min_aux f n []) = n /\ Forall is_byte (be_min_aux f n [])
  /\ (forall b l, be_min_aux f n [] = b :: l -> 0 < b).
Proof.
  revert n. induction f as [|f IH]; intros n Hn; simpl.
  { simpl in Hn. split_and!; [unfold be_value; simpl; lia|done|done]. }
  rewrite Nat2Z.inj_succ, Z.pow_succ_r in Hn by lia.
  destruct (Z.leb_spec n 0); [split_and!; [unfold be_value; simpl; lia|done|done]|].
  rewrite be_min_aux_app. destruct (IH (n / 256)) as (E & F & G); [zlia|]. split_and!.
  - rewrite be_value_app, E. unfold be_value. simpl. change (Z.pow_pos 256 1) with 256. zlia.
  - apply Forall_app. split; [done|]. constructor; [unfold is_byte; zlia|constructor].
  - intros b l Hb. destruct (be_min_aux f (n / 256) []) as [|b' l'] eqn:EE.
    + unfold be_value in E. simpl in E, Hb. injection Hb as <- <-. zlia.
    + injection Hb as <- _. by eapply G.
Qed.

Lemma Int_Bytes_spec n : 0 <= n ->
  be_value (Int_Bytes n) = n /\ Forall is_byte (Int_Bytes n)
  /\ (forall b l, Int_Bytes n = b :: l -> 0 < b).
Proof.
  intros Hn. apply be_min_aux_value. pose proof (Z.log2_nonneg n). rewrite Z2Nat.id by lia.
  destruct (Z.eq_dec n 0) as [->|]; [done|]. pose proof (Z.log2_spec n). lia.
Qed.

(** [n] needs at most [k] bytes when [n < 256^k]. *)
Lemma Int_Bytes_length n k : 0 <= n < 256 ^ Z.of_nat k -> (length (Int_Bytes n) <= k)%nat.
Proof.
  intros Hn. destruct (Int_Bytes_spec n) as (E & F & G); [lia|].
  destruct (Int_Bytes n) as [|b l]; [simpl; lia|]. specialize (G b l eq_refl).
  rewrite be_value_cons in E. apply Forall_cons in F as [_ F]. pose proof (be_value_bound l F).
  simpl. destruct (decide (length l < k)%nat) as [|Hge]; [lia|].
  assert (256 ^ Z.of_nat k <= 256 ^ Z.of_nat (length l)) by (apply Z.pow_le_mono_r; lia). nia.
Qed.

Lemma be_value_inj a b :
  length a = length b -> Forall is_byte a -> Forall is_byte b -> be_value a = be_value b -> a = b.
Proof.
  revert b. induction a as [|x a IH]; intros [|y b] HL Ha Hb E; try done. simpl in HL.
  apply Forall_cons in Ha as [Hx Ha]. apply Forall_cons in Hb as [Hy Hb].
  rewrite !be_value_cons in E. replace (length b) with (length a) in E by lia.
  pose proof (be_value_bound a Ha). pose proof (be_value_bound b Hb) as Bb.
  replace (length b) with (length a) in Bb by lia. unfold is_byte in *.
  assert (x = y) by nia. subst. f_equal. apply IH; [lia|done|done|lia].
Qed.

Lemma left_pad_spec k l :
  Forall is_byte l -> (length l <= k)%nat ->
  length (left_pad k l) = k /\ Forall is_byte (left_pad k l) /\ be_value (left_pad k l) = be_value l.
Proof.
  intros F HL. unfold left_pad. rewrite length_app, length_replicate. split_and!; [lia| |].
  - apply Forall_app. split; [|done]. apply Forall_replicate. unfold is_byte. lia.
  - rewrite be_value_app. replace (be_value (replicate _ 0)) with 0; [lia|].
    induction (k - length l)%nat as [|j IH]; [done|]. simpl. rewrite be_value_cons. lia.
Qed.

(** ** Parsing what is printed *)

Lemma long_length_spec bs acc l :
  Forall is_byte bs -> 0 <= acc -> (acc = 0 -> exists b bs', bs = b :: bs' /\ 0 < b) ->
  let v := acc * 256 ^ Z.of_nat (length bs) + be_value bs in
  128 <= v < 2 ^ 23 -> long_length (length bs) acc (bs ++ l) = Ok (v, l).
Proof.
  revert acc. induction bs as [|b bs IH]; intros acc F Ha Hz v Hv; subst v.
  { cbn [length long_length app]. change (be_value []) with 0 in *.
    change (256 ^ Z.of_nat (length (@nil Z))) with 1 in *.
    rewrite (proj2 (Z.ltb_ge _ _)) by lia. f_equal. f_equal. lia. }
  apply Forall_cons in F as [Hb F]. unfold is_byte in Hb. rewrite be_value_cons in *.
  cbn [length] in *. rewrite Nat2Z.inj_succ, Z.pow_succ_r in * by lia.
  pose proof (be_value_bound bs F). set (p := 256 ^ Z.of_nat (length bs)) in *.
  assert (0 < p) by (subst p; lia).
  assert (Hpos : 0 < acc * 256 + b).
  { destruct (Z.eq_dec acc 0) as [E|]; [|lia]. destruct (Hz E) as (? & ? & [= <- <-] & ?). lia. }
  cbn [long_length app]. rewrite (proj2 (Z.leb_gt _ _)) by nia. cbn zeta.
  rewrite (proj2 (Z.eqb_neq _ _)) by lia. rewrite IH; [|done|lia|lia|fold p; nia].
  fold p. f_equal. f_equal. lia.
Qed.

Lemma parse_der_length n l : 0 <= n < 2 ^ 23 -> parse_length (der_length n ++ l) = Ok (n, l).
Proof.
  intros Hn. unfold der_length. destruct (Z.ltb_spec n 128).
  { cbn. by rewrite (proj2 (Z.ltb_lt _ _)). }
  destruct (Int_Bytes_spec n) as (E & F & G); [lia|]. cbn [app parse_length].
  assert (length (Int_Bytes n) <> 0%nat).
  { intros L. destruct (Int_Bytes n); [|done]. unfold be_value in E. simpl in E. lia. }
  rewrite (proj2 (Z.ltb_ge _ _)), (proj2 (Z.eqb_neq _ _)) by lia.
  replace (Z.to_nat (128 + Z.of_nat (length (Int_Bytes n)) - 128)) with (length (Int_Bytes n)) by lia.
  rewrite long_length_spec; rewrite ?E; try done; try lia.
  intros _. destruct (Int_Bytes n) as [|b bs]; [done|]. exists b, bs. split; [done|]. by eapply G.
Qed.

Lemma parse_der_tlv tag body l :
  Z.of_nat (length body) < 2 ^ 23 -> parse_tlv tag (der_tlv tag body ++ l) = Ok (body, l).
Proof.
  intros H. unfold der_tlv. cbn [app parse_tlv]. rewrite <- app_assoc, parse_der_length by lia.
  cbn [mbind result_bind]. rewrite Z.eqb_refl, length_app. cbn [negb].
  rewrite (proj2 (Z.ltb_ge _ _)) by lia. rewrite Nat2Z.id, take_app_length, drop_app_length. done.
Qed.

Lemma parse_der_int n : 0 < n -> parse_int (der_int n) = Ok n.
Proof.
  intros Hn. destruct (Int_Bytes_spec n) as (E & F & G); [lia|]. unfold der_int.
  destruct (Int_Bytes n) as [|b l] eqn:EB; [unfold be_value in E; simpl in E; lia|].
  apply Forall_cons in F as [Hb F]. unfold is_byte in Hb. specialize (G b l eq_refl).
  destruct (Z.leb_spec 128 b).
  - cbn [parse_int]. rewrite (proj2 (Z.ltb_ge b 128)) by lia. rewrite andb_false_r. cbn [negb andb].
    change (0 =? 255) with false. cbn [andb negb].
    change (128 <=? 0) with false. rewrite be_value_cons, E. f_equal. lia.
  - cbn [parse_int]. rewrite (proj2 (Z.leb_gt 128 b)) by lia. rewrite E, Z.sub_0_r.
    destruct l as [|b1 l]; [done|].
    rewrite (proj2 (Z.eqb_neq b 0)), (proj2 (Z.eqb_neq b 255)) by lia. done.
Qed.

Lemma length_der_int n k : 0 <= n < 256 ^ Z.of_nat k -> (length (der_int n) <= S k)%nat.
Proof.
  intros Hn. pose proof (Int_Bytes_length n k Hn). unfold der_int.
  destruct (Int_Bytes n) as [|b l]; simpl in *; [lia|]. case_if; simpl; lia.
Qed.

Lemma length_der_tlv tag body :
  Z.of_nat (length body) < 2 ^ 23 -> (length (der_tlv tag body) <= length body + 5)%nat.
Proof.
  intros H. unfold der_tlv, der_length. cbn [length]. rewrite length_app. case_if; cbn [length]; [lia|].
  assert (length (Int_Bytes (Z.of_nat (length body))) <= 3)%nat; [|lia].
  apply Int_Bytes_length. change (256 ^ Z.of_nat 3) with (2 ^ 24). lia.
Qed.

Lemma asn1_roundtrip r s k :
  0 < r < 256 ^ Z.of_nat k -> 0 < s < 256 ^ Z.of_nat k -> Z.of_nat k <= 1000000 ->
  asn1_Unmarshal (asn1_Marshal r s) = Ok (r, s, []).
Proof.
  intros Hr Hs Hk. unfold asn1_Marshal, asn1_Unmarshal.
  pose proof (length_der_int r k ltac:(lia)). pose proof (length_der_int s k ltac:(lia)).
  pose proof (length_der_tlv 2 (der_int r) ltac:(lia)). pose proof (length_der_tlv 2 (der_int s) ltac:(lia)).
  rewrite <- (app_nil_r (der_tlv 48 _)), parse_der_tlv by (rewrite length_app; lia).
  cbn [mbind result_bind]. rewrite parse_der_tlv by lia. cbn [mbind result_bind].
  rewrite parse_der_int by lia. cbn [mbind result_bind].
  rewrite <- (app_nil_r (der_tlv 2 (der_int s))), parse_der_tlv by lia. cbn [mbind result_bind].
  rewrite parse_der_int by lia. done.
Qed.

Lemma P1363ToScalars_Ok sig r s :
  Forall is_byte sig -> P1363ToScalars sig = Ok (r, s) ->
  exists k, (0 < k)%nat /\ length sig = (k + k)%nat /\ r = be_value (take k sig) /\ s = be_value (drop k sig)
  /\ 0 < r < 256 ^ Z.of_nat k /\ 0 < s < 256 ^ Z.of_nat k.
Proof.
  intros F. unfold P1363ToScalars. case_if; [done|]. apply orb_false_iff in Heqb as [E1 E2].
  apply Nat.eqb_neq in E1. apply negb_false_iff, Nat.eqb_eq in E2.
  cbn zeta. pose proof (Nat.div_mod (length sig) 2) as Hdm.
  set (k := (length sig / 2)%nat) in *. clearbody k.
  case_if; [done|]. intros [= <- <-]. b2p. assert (length sig = k + k)%nat by lia.
  exists k. pose proof (be_value_bound (take k sig) (Forall_take _ _ _ F)) as B1.
  pose proof (be_value_bound (drop k sig) (Forall_drop _ _ _ F)) as B2.
  rewrite length_take in B1. rewrite length_drop in B2.
  replace (k `min` length sig)%nat with k in B1 by lia. replace (length sig - k)%nat with k in B2 by lia.
  split_and!; try lia; reflexivity.
Qed.

Lemma P1363_of_scalars sig k :
  Forall is_byte sig -> length sig = (k + k)%nat ->
  left_pad k (Int_Bytes (be_value (take k sig))) ++ left_pad k (Int_Bytes (be_value (drop k sig))) = sig.
Proof.
  intros F HL. transitivity (take k sig ++ drop k sig); [|apply take_drop].
  assert (Half : forall l, Forall is_byte l -> length l = k -> left_pad k (Int_Bytes (be_value l)) = l).
  { intros l Fl Ll. pose proof (be_value_bound l Fl) as B. rewrite Ll in B.
    destruct (Int_Bytes_spec (be_value l)) as (E & Fb & _); [lia|].
    destruct (left_pad_spec k (Int_Bytes (be_value l)) Fb) as (L & Fp & V); [by apply Int_Bytes_length|].
    apply be_value_inj; [lia|done|done|lia]. }
  f_equal; apply Half; auto using Forall_take, Forall_drop; rewrite ?length_take, ?length_drop; lia.
Qed.

Lemma P1363ToScalars_padded k r s :
  (0 < k)%nat -> 0 < r -> 0 < s -> (length (Int_Bytes r) <= k)%nat -> (length (Int_Bytes s) <= k)%nat ->
  let out := left_pad k (Int_Bytes r) ++ left_pad k (Int_Bytes s) in
  length out = (k + k)%nat /\ P1363ToScalars out = Ok (r, s).
Proof.
  intros Hk Hr Hs HLr HLs. cbn zeta.
  destruct (Int_Bytes_spec r) as (Er & Fr & _); [lia|]. destruct (Int_Bytes_spec s) as (Es & Fs & _); [lia|].
  destruct (left_pad_spec k _ Fr HLr) as (Lr & _ & Vr). destruct (left_pad_spec k _ Fs HLs) as (Ls & _ & Vs).
  unfold P1363ToScalars. rewrite length_app, Lr, Ls. split; [done|].
  replace ((k + k) mod 2)%nat with 0%nat by (symmetry; apply Nat.Div0.mod_divides; exists k; lia).
  rewrite (proj2 (Nat.eqb_neq _ 0)) by lia. cbn [orb negb Nat.eqb].
  replace ((k + k) / 2)%nat with k by (apply Nat.div_unique with 0%nat; lia).
  rewrite (take_app_length' _ _ _ (eq_sym Lr)), (drop_app_length' _ _ _ (eq_sym Lr)).
  rewrite Vr, Vs, Er, Es. by rewrite !(proj2 (Z.leb_gt _ 0)) by lia.
Qed.

Lemma DERToP1363_Ok der k out :
  DERToP1363 der k = Ok out ->
  Z.of_nat (length out) = 2 * k /\
  exists r s, asn1_Unmarshal der = Ok (r, s, []) /\ P1363ToScalars out = Ok (r, s).
Proof.
  unfold DERToP1363. destruct (Z.leb_spec k 0); [done|].
  rewrite bind_Ok. intros ([[r s] rest] & HU & H1).
  destruct rest as [|]; [|done]. cbn [length negb Nat.eqb] in H1.
  destruct ((r <=? 0) || (s <=? 0)) eqn:ES; [done|]. b2p.
  destruct ((k <? _) || _) eqn:EK in H1; [done|]. b2p. injection H1 as <-.
  destruct (P1363ToScalars_padded (Z.to_nat k) r s) as [L E]; [lia..|].
  rewrite L. split; [lia|]. by exists r, s.
Qed.

(** DER and P1363 are inverse encodings of ECDSA signatures.  Every P1363
    signature the code accepts converts to a DER signature that converts back to
    the same bytes at the coordinate size of its curve; and whatever DER
    signature is accepted for coordinate size [k], the result has exactly [2k]
    bytes and carries the two scalars of the DER form. *)
Theorem P1363_DER_roundtrip :
  (forall sig der, Forall is_byte sig -> Z.of_nat (length sig) <= 1000000 -> P1363ToDER sig = Ok der ->
     DERToP1363 der (Z.of_nat (length sig) / 2) = Ok sig)
  /\ (forall der k out, DERToP1363 der k = Ok out ->
     Z.of_nat (length out) = 2 * k /\
     exists r s, asn1_Unmarshal der = Ok (r, s, []) /\ P1363ToScalars out = Ok (r, s)).
Proof.
  split.
  - intros sig der F HL. unfold P1363ToDER. rewrite bind_Ok. intros ([r s] & H & [= <-]).
    apply P1363ToScalars_Ok in H as (k & Hk & EL & -> & -> & Hr & Hs); [|done].
    rewrite EL. replace (Z.of_nat (k + k) / 2) with (Z.of_nat k) by zlia. unfold DERToP1363.
    rewrite (proj2 (Z.leb_gt _ _)) by lia. rewrite (asn1_roundtrip _ _ k) by (done || lia).
    cbn [mbind result_bind length negb Nat.eqb].
    rewrite !(proj2 (Z.leb_gt _ 0)) by lia. cbn [orb].
    pose proof (Int_Bytes_length _ k (conj (Z.lt_le_incl _ _ (proj1 Hr)) (proj2 Hr))).
    pose proof (Int_Bytes_length _ k (conj (Z.lt_le_incl _ _ (proj1 Hs)) (proj2 Hs))).
    rewrite !(proj2 (Z.ltb_ge _ _)) by lia. cbn [orb]. rewrite Nat2Z.id. f_equal.
    by apply P1363_of_scalars.
  - apply DERToP1363_Ok.
Qed.

(** A 64-byte signature and its DER form (both scalars need the sign octet). *)
Lemma P1363_DER_roundtrip_witness :
  let sig := replicate 32 200 ++ replicate 32 129 in
  exists der, P1363ToDER sig = Ok der /\ length der = 72%nat /\ DERToP1363 der 32 = Ok sig.
Proof.
  cbn zeta. eexists. split; [vm_compute; reflexivity|]. split; [reflexivity|].
  apply (proj1 P1363_DER_roundtrip (replicate 32 200 ++ replicate 32 129));
    [|vm_compute; congruence|vm_compute; reflexivity].
  apply Forall_app. split; apply Forall_replicate; vm_compute; split; congruence.
Defined.
