(* ===== verification/Jws.v ===== *)
(** Compact JSON Web Signatures: [internal/crypto/jws.go] and the signing input
    of identity proofs, [internal/crypto/proofinput.go].

    An error carries the sentinel the code wraps it in.  The signature schemes
    of the Go library are the class [SigSchemes], the parsing of public keys
    [KeyParser]; the key manager is a port.  [VerifyDetachedWithPEM] hands the
    check to the [go-jose] library, the class [Jose].  A raw JSON member of a
    header is its value, so it is written back in one spelling. *)
From S2P Require Import Prelude GoStrings Utf8 GoEncoding GoJSON GoJSONSpec Jcs Sha256 P1363 RaEvents.

#[local] Set Default Goal Selector "!".
#[local] Open Scope Z_scope.

Definition AlgES256 : string := "ES256".
Definition AlgRS256 : string := "RS256".
Definition AlgEdDSA : string := "EdDSA".

Inductive jws_error := ErrJWSEncode | ErrJWSDecode | ErrJWSVerify.

Class SigSchemes := {
  ecdsa_key : Type;
  rsa_key : Type;
  CoordinateBytes : ecdsa_key -> Z;
  ecdsa_verify : ecdsa_key -> string -> Z -> Z -> bool;          (* key, digest, r, s *)
  rsaVerifyPKCS1v15 : rsa_key -> string -> string -> bool;       (* key, digest, signature *)
  ed25519_verify : string -> string -> string -> bool            (* key, message, signature *)
}.

(** The dynamic type of a [crypto.PublicKey]. *)
Inductive public_key `{S : SigSchemes} :=
| EcdsaKey (k : ecdsa_key)
| RsaKey (k : rsa_key)
| Ed25519Key (k : string)
| OtherKey.

(** The two methods of [port.KeyManager] the code calls. *)
Record KeyManager `{S : SigSchemes} := {
  km_GetPublicKey : string -> option public_key;
  km_Sign : string -> string -> option string
}.

Class KeyParser `{S : SigSchemes} := {
  x509_ParsePKIXPublicKey : string -> option public_key;
  x509_ParsePKCS1PublicKey : string -> option public_key
}.

(** [jose.ParseDetached] restricted to an algorithm, then [Verify]. *)
Class Jose `{S : SigSchemes} := { jose_verify : string -> string -> string -> public_key -> bool }.

Record JWSProtectedHeader := {
  h_Alg : string;
  h_Kid : string;
  h_Typ : string;
  h_Timestamp : Z;
  h_RAID : string;
  h_Jwk : option json;
  h_Crit : list string
}.

Definition zero_header : JWSProtectedHeader :=
  {| h_Alg := ""; h_Kid := ""; h_Typ := ""; h_Timestamp := 0; h_RAID := ""; h_Jwk := None; h_Crit := [] |}.

(** The header as [json.Marshal] sees it. *)
Definition enc_header (h : JWSProtectedHeader) : json :=
  obj [("alg", Some (JStr (h_Alg h))); ("kid", Some (JStr (h_Kid h))); ("typ", omit_str (h_Typ h));
       ("timestamp", if h_Timestamp h =? 0 then None else Some (JNum (Itoa (h_Timestamp h))));
       ("raid", omit_str (h_RAID h)); ("jwk", h_Jwk h); ("crit", omit_list (JStr <$> h_Crit h))].

Definition dec_header (m : list (string * json)) (h : JWSProtectedHeader) : option JWSProtectedHeader :=
  alg ← field "alg" dec_str (h_Alg h) m;
  kid ← field "kid" dec_str (h_Kid h) m;
  typ ← field "typ" dec_str (h_Typ h) m;
  ts ← field "timestamp" dec_int64 (h_Timestamp h) m;
  raid ← field "raid" dec_str (h_RAID h) m;
  jwk ← field "jwk" dec_raw (h_Jwk h) m;
  crit ← field "crit" (dec_list dec_str "") (h_Crit h) m;
  Some {| h_Alg := alg; h_Kid := kid; h_Typ := typ; h_Timestamp := ts; h_RAID := raid; h_Jwk := jwk; h_Crit := crit |}.

Definition with_alg_kid (h : JWSProtectedHeader) (alg kid : string) : JWSProtectedHeader :=
  {| h_Alg := alg; h_Kid := kid; h_Typ := h_Typ h; h_Timestamp := h_Timestamp h; h_RAID := h_RAID h;
     h_Jwk := h_Jwk h; h_Crit := h_Crit h |}.

Definition or_fail {A} (e : jws_error) (o : option A) : result jws_error A :=
  match o with Some a => Ok a | None => Err e end.

(** ** Segments *)

(** The compact form with a detached payload: its header and signature. *)
Definition splitDetachedJWS (jwsCompact : string) : result jws_error (string * string) :=
  match Split jwsCompact "." with
  | [encodedHeader; payload; encodedSig] =>
      if negb (String.eqb payload "") then Err ErrJWSDecode else
      if String.eqb encodedHeader "" || String.eqb encodedSig "" then Err ErrJWSDecode
      else Ok (encodedHeader, encodedSig)
  | _ => Err ErrJWSDecode
  end.

Definition splitStandardJWS (jwsCompact : string) : result jws_error (string * string * string) :=
  match Split jwsCompact "." with
  | [encHeader; encPayload; encSig] =>
      if String.eqb encPayload "" then Err ErrJWSDecode else
      if String.eqb encHeader "" || String.eqb encSig "" then Err ErrJWSDecode
      else Ok (encHeader, encPayload, encSig)
  | _ => Err ErrJWSDecode
  end.

Definition decodeHeader (encodedHeader : string) : result jws_error JWSProtectedHeader :=
  headerJSON ← or_fail ErrJWSDecode (b64_DecodeString encodedHeader);
  h ← or_fail ErrJWSDecode (Unmarshal (dec_struct dec_header) zero_header headerJSON);
  if negb (Nat.eqb (length (h_Crit h)) 0) then Err ErrJWSDecode else Ok h.

Definition DecodeHeader (jwsCompact : string) : result jws_error JWSProtectedHeader :=
  '(encodedHeader, _) ← splitDetachedJWS jwsCompact; decodeHeader encodedHeader.

Definition DecodeStandardJWS (jwsCompact : string) : result jws_error (JWSProtectedHeader * string) :=
  '(encodedHeader, encodedPayload, _) ← splitStandardJWS jwsCompact;
  header ← decodeHeader encodedHeader; Ok (header, encodedPayload).

(** [fmt.Sprintf("%08x", keyhash)] of a 32-bit key hash. *)
Definition OpaqueKeyIDFromHash (keyhash : Z) : string :=
  hex_EncodeToString (string_of_bytes [keyhash / 16777216; keyhash / 65536 mod 256; keyhash / 256 mod 256; keyhash mod 256]).

Section Jws.
Context `{S : SigSchemes} `{J : JCS}.

(** ** Algorithms and keys *)

Definition algForPublicKey (pub : public_key) : option string :=
  match pub with EcdsaKey _ => Some AlgES256 | RsaKey _ => Some AlgRS256 | Ed25519Key _ => Some AlgEdDSA | OtherKey => None end.

Definition checkAlgMatchesKey (alg : string) (pub : public_key) : bool :=
  if String.eqb alg AlgES256 then match pub with EcdsaKey _ => true | _ => false end else
  if String.eqb alg AlgRS256 then match pub with RsaKey _ => true | _ => false end else
  if String.eqb alg AlgEdDSA then match pub with Ed25519Key _ => true | _ => false end else false.

Definition joseAlgorithm (alg : string) : option string :=
  if String.eqb alg AlgES256 || String.eqb alg AlgRS256 || String.eqb alg AlgEdDSA then Some alg else None.

Definition toJWSWireFormat (alg : string) (pub : public_key) (rawSig : string) : option string :=
  if String.eqb alg AlgES256 then
    match pub with
    | EcdsaKey k => match DERToP1363 (bytes_of rawSig) (CoordinateBytes k) with
                    | Ok w => Some (string_of_bytes w) | Err _ => None end
    | _ => None
    end
  else if String.eqb alg AlgRS256 then match pub with RsaKey _ => Some rawSig | _ => None end
  else None.

(** The check of a signature over a signing input, one case per key type. *)
Definition check_signature (pub : public_key) (signingInput sig : string) : bool :=
  match pub with
  | EcdsaKey k => match P1363ToScalars (bytes_of sig) with
                  | Ok (r, s) => ecdsa_verify k (Sum256 signingInput) r s | Err _ => false end
  | RsaKey k => rsaVerifyPKCS1v15 k (Sum256 signingInput) sig
  | Ed25519Key k => ed25519_verify k signingInput sig
  | OtherKey => false
  end.

(** ** Signing *)

(** What the two signers share: choosing the algorithm, and signing the input. *)
Definition sign_alg (header : JWSProtectedHeader) (pub : public_key) : result jws_error string :=
  alg ← (if String.eqb (h_Alg header) "" then or_fail ErrJWSEncode (algForPublicKey pub) else Ok (h_Alg header));
  if checkAlgMatchesKey alg pub then Ok alg else Err ErrJWSEncode.

Definition sign_input (km : KeyManager) (keyID alg : string) (pub : public_key) (signingInput : string) : result jws_error string :=
  rawSig ← or_fail ErrJWSEncode (km_Sign km keyID (Sum256 signingInput));
  wireSig ← or_fail ErrJWSEncode (toJWSWireFormat alg pub rawSig);
  Ok (b64_EncodeToString wireSig).

Definition SignDetachedJWS (km : KeyManager) (keyID : string) (header : JWSProtectedHeader) (payload : string) : result jws_error string :=
  pub ← or_fail ErrJWSEncode (km_GetPublicKey km keyID);
  alg ← sign_alg header pub;
  let header := with_alg_kid header alg keyID in
  canonicalPayload ← or_fail ErrJWSEncode (Canonicalize payload);
  let encodedHeader := b64_EncodeToString (Marshal (enc_header header)) in
  let signingInput := encodedHeader +:+ "." +:+ b64_EncodeToString canonicalPayload in
  encodedSig ← sign_input km keyID alg pub signingInput;
  Ok (encodedHeader +:+ ".." +:+ encodedSig).

Definition SignStandardJWS (km : KeyManager) (keyID : string) (header : JWSProtectedHeader) (payload : json) : result jws_error string :=
  pub ← or_fail ErrJWSEncode (km_GetPublicKey km keyID);
  alg ← sign_alg header pub;
  let header := with_alg_kid header alg (if String.eqb (h_Kid header) "" then keyID else h_Kid header) in
  canonicalPayload ← or_fail ErrJWSEncode (canonicalize payload);
  let encodedHeader := b64_EncodeToString (Marshal (enc_header header)) in
  let encodedPayload := b64_EncodeToString canonicalPayload in
  encodedSig ← sign_input km keyID alg pub (encodedHeader +:+ "." +:+ encodedPayload);
  Ok (encodedHeader +:+ "." +:+ encodedPayload +:+ "." +:+ encodedSig).

(** ** Verifying *)

Definition verifyWithPublicKey (pub : public_key) (alg encodedHeader encodedSig payload : string) : result jws_error unit :=
  canonicalPayload ← or_fail ErrJWSVerify (Canonicalize payload);
  let signingInput := encodedHeader +:+ "." +:+ b64_EncodeToString canonicalPayload in
  sig ← or_fail ErrJWSVerify (b64_DecodeString encodedSig);
  if negb (checkAlgMatchesKey alg pub) then Err ErrJWSVerify else
  guard_err (check_signature pub signingInput sig) ErrJWSVerify.

Definition VerifyWithPublicKey (pub : public_key) (jwsCompact payload : string) : result jws_error JWSProtectedHeader :=
  '(encodedHeader, encodedSig) ← splitDetachedJWS jwsCompact;
  header ← decodeHeader encodedHeader;
  _ ← verifyWithPublicKey pub (h_Alg header) encodedHeader encodedSig payload;
  Ok header.

Definition VerifyDetachedJWS (km : KeyManager) (jwsCompact payload : string) : result jws_error JWSProtectedHeader :=
  '(encodedHeader, encodedSig) ← splitDetachedJWS jwsCompact;
  header ← decodeHeader encodedHeader;
  pub ← or_fail ErrJWSVerify (km_GetPublicKey km (h_Kid header));
  _ ← verifyWithPublicKey pub (h_Alg header) encodedHeader encodedSig payload;
  Ok header.

Definition VerifyStandardJWSWithPublicKey (pub : public_key) (jwsCompact : string) : result jws_error JWSProtectedHeader :=
  '(encodedHeader, encodedPayload, encodedSig) ← splitStandardJWS jwsCompact;
  header ← decodeHeader encodedHeader;
  if negb (checkAlgMatchesKey (h_Alg header) pub) then Err ErrJWSVerify else
  sig ← or_fail ErrJWSVerify (b64_DecodeString encodedSig);
  if check_signature pub (encodedHeader +:+ "." +:+ encodedPayload) sig then Ok header else Err ErrJWSVerify.

Definition parsePublicKeyPEM `{X : PemX509, KP : !KeyParser} (s : string) : option public_key :=
  '(ty, bytes) ← pem_Decode s;
  if String.eqb ty "PUBLIC KEY" then x509_ParsePKIXPublicKey bytes else
  if String.eqb ty "RSA PUBLIC KEY" then x509_ParsePKCS1PublicKey bytes else None.

Definition VerifyDetachedWithPEM `{X : PemX509, KP : !KeyParser, JO : !Jose} (jwsCompact payload publicKeyPEM : string) : result jws_error JWSProtectedHeader :=
  '(encodedHeader, _) ← splitDetachedJWS jwsCompact;
  header ← decodeHeader encodedHeader;
  pub ← or_fail ErrJWSVerify (parsePublicKeyPEM publicKeyPEM);
  alg ← or_fail ErrJWSVerify (joseAlgorithm (h_Alg header));
  canonicalPayload ← or_fail ErrJWSVerify (Canonicalize payload);
  if jose_verify jwsCompact canonicalPayload alg pub then Ok header else Err ErrJWSVerify.

(** ** Identity proofs *)

Record IdentityProofInput := {
  pi_Identifier : string; pi_IdentityID : string; pi_Nonce : string; pi_Purpose : string; pi_RaID : string; pi_Scheme : string
}.

Definition IdentityProofPurpose : string := "ans:identity-proof:v1".

Definition enc_proof_input (i : IdentityProofInput) : json :=
  obj [("identifier", Some (JStr (pi_Identifier i))); ("identityId", Some (JStr (pi_IdentityID i)));
       ("nonce", Some (JStr (pi_Nonce i))); ("purpose", Some (JStr (pi_Purpose i)));
       ("raId", Some (JStr (pi_RaID i))); ("scheme", Some (JStr (pi_Scheme i)))].

Definition IdentityProofInput_Canonical (i : IdentityProofInput) : option string := canonicalize (enc_proof_input i).

Definition IdentityProofInput_SigningInput (i : IdentityProofInput) : option string :=
  c ← IdentityProofInput_Canonical i; Some (b64_EncodeToString c).
End Jws.
