(* ===== verification/JwsSpec.v ===== *)
(** A signature made by [SignDetachedJWS] is accepted by the verifiers, with the
    header the signer stamped, for every payload with the same canonical form. *)
From S2P Require Import Prelude GoStrings Utf8 GoEncoding GoJSON GoJSONSpec Jcs Sha256 P1363 RaEvents Jws.

#[local] Set Default Goal Selector "!".
#[local] Open Scope Z_scope.

(** ** Encodings *)

Lemma b64_no_dot s : ContainsByte (b64_EncodeToString s) "." = false.
Proof.
  assert (forall d, 0 <= d < 64 -> Ascii.eqb "." (b64_digit d) = false) as Hd.
  { intros d Hd. apply negb_true_iff. apply (forall_below 64 (fun d => negb (Ascii.eqb "." (b64_digit d)))); [by vm_compute|lia]. }
  induction s as [|a|a b|a b c s IH] using string_ind3; cbn [b64_EncodeToString]; rewrite ?ContainsByte_cons;
    try pose proof (byteZ_range a); try pose proof (byteZ_range b); try pose proof (byteZ_range c);
    rewrite ?Hd by zlia; done.
Qed.

Lemma b64_nonempty s : s <> "" -> b64_EncodeToString s <> "".
Proof. destruct s as [|a [|b [|c s]]]; done. Qed.

Lemma bytes_of_string l : Forall is_byte l -> bytes_of (string_of_bytes l) = l.
Proof. induction 1 as [|b l Hb _ IH]; [done|]. cbn. by rewrite byteZ_chr, IH. Qed.

Lemma DERToP1363_bytes der k out : DERToP1363 der k = Ok out -> Forall is_byte out /\ out <> [].
Proof.
  intros H. pose proof (DERToP1363_Ok _ _ _ H) as [HL _]. unfold DERToP1363 in H. destruct (Z.leb_spec k 0); [done|].
  split; [|intros ->; cbn in HL; lia]. apply bind_Ok in H as ([[r s] rest] & _ & H). cbn beta iota in H.
  case_if_in H; [done|]. case_if_in H; [done|]. cbn zeta in H. case_if_in H; [done|]. injection H as <-. b2p.
  destruct (Int_Bytes_spec r) as (_ & Fr & _); [lia|]. destruct (Int_Bytes_spec s) as (_ & Fs & _); [lia|].
  apply Forall_app. split; apply left_pad_spec; try done; lia.
Qed.

Lemma take_digits_all s : is_digits s = true -> take_digits s = (s, "").
Proof.
  unfold is_digits. induction s as [|c s IH]; [done|]. cbn [str_forall take_digits]. intros [-> H]%andb_true_iff. by rewrite IH.
Qed.

Lemma json_num_Itoa n : 0 < n -> num_ok (Itoa n) = true.
Proof.
  intros Hn. apply bool_decide_eq_true. pose proof (Itoa_digits n ltac:(lia)) as Hd.
  destruct (Itoa_first n Hn) as (c & s & E & Hc). rewrite E in *. unfold inR in Hc. b2p. unfold scan_num.
  assert (Ascii.eqb c "-" = false) as -> by (apply Ascii.eqb_neq; intros ->; change (byteZ "-") with 45 in *; lia).
  cbn [num_int]. assert (Ascii.eqb c "0" = false) as -> by (apply Ascii.eqb_neq; intros ->; change (byteZ "0") with 48 in *; lia).
  unfold digits1. rewrite take_digits_all by done. cbn [String.eqb mbind option_bind num_frac num_exp].
  by rewrite !app_nil_r_s, app_nil_l_s.
Qed.

(** ** Headers *)

(** What the signing paths put in a header. *)
Record header_ok (h : JWSProtectedHeader) : Prop := {
  ho_alg : utf8_ok (h_Alg h) = true; ho_kid : utf8_ok (h_Kid h) = true;
  ho_typ : utf8_ok (h_Typ h) = true; ho_raid : utf8_ok (h_RAID h) = true;
  ho_time : 0 <= h_Timestamp h <= MaxInt64; ho_jwk : h_Jwk h = None; ho_crit : h_Crit h = []
}.

Lemma utf8_ascii s : is_ascii_str s = true -> utf8_ok s = true.
Proof.
  intros H. apply String.eqb_eq. rewrite runes_ascii by done. induction s as [|c s IH]; [done|].
  unfold is_ascii_str in H. cbn [str_forall] in H. apply andb_true_iff in H as [Hc H]. cbn [bytes_of encode_runes].
  rewrite EncodeRune_ascii by done. rewrite app_cons_s, app_nil_l_s. by rewrite IH.
Qed.

Lemma omit_cases (P : option json -> Prop) s : (s = "" -> P None) -> P (Some (JStr s)) -> P (omit_str s).
Proof. intros H1 H2. unfold omit_str. destruct (String.eqb_spec s ""); auto. Qed.

Lemma header_json_ok h : header_ok h -> json_ok (enc_header h) = true /\ nesting (enc_header h) <= maxNestingDepth.
Proof.
  intros [Ha Hk Ht Hr Hts Hj Hc]. unfold enc_header, obj. rewrite Hj, Hc. cbn [fmap list_fmap omit_list].
  unfold omit_str. destruct (String.eqb (h_Typ h) ""), (String.eqb (h_RAID h) ""), (Z.eqb_spec (h_Timestamp h) 0);
    cbn -[utf8_ok num_ok maxNestingDepth Z.add Z.max]; rewrite ?Ha, ?Hk, ?Ht, ?Hr, ?json_num_Itoa by lia; done.
Qed.

Lemma header_decode h : header_ok h -> dec_struct dec_header (enc_header h) zero_header = Some h.
Proof.
  intros [Ha Hk Ht Hr Hts Hj Hc]. destruct h as [alg kid typ ts raid jwk crit]. cbn [h_Alg h_Kid h_Typ h_RAID h_Timestamp h_Jwk h_Crit] in *. subst jwk crit.
  unfold enc_header, obj. cbn [dec_struct]. unfold dec_header.
  match goal with |- context [omap _ ?l] => set (fs := l) end.
  assert (NoDup (foldName ∘ fst <$> fs)) as Hnd by (by apply (bool_decide_unpack _); vm_compute).
  assert (exists m', m' = omap (fun p => pair p.1 <$> p.2) fs) as [m' Hm'] by by eexists. rewrite <-Hm'.
  assert (forall A name dec (init a : A) o, (name, o) ∈ fs ->
    match o with Some v => decodes (J := reference_jcs) eq dec init v a | None => a = init end ->
    field name dec init m' = Some a) as HF.
  { intros A name dec init a o Hin Ho. subst m'.
    destruct (field_obj (J := reference_jcs) fs _ Hnd (reflexivity _) eq name dec init a o Hin Ho) as (a' & -> & ->). done. }
  clear Hm' Hnd.
  assert (forall s, match omit_str s with Some v => decodes (J := reference_jcs) eq dec_str "" v s | None => s = "" end) as Hs.
  { intros s. apply omit_cases; [done|]. apply decodes_str. }
  cbn [zero_header h_Alg h_Kid h_Typ h_Timestamp h_RAID h_Jwk h_Crit].
  rewrite (HF _ "alg" dec_str "" alg (Some (JStr alg))); [|in_fields|apply decodes_str]. cbn [mbind option_bind].
  rewrite (HF _ "kid" dec_str "" kid (Some (JStr kid))); [|in_fields|apply decodes_str]. cbn [mbind option_bind].
  rewrite (HF _ "typ" dec_str "" typ (omit_str typ)); [|in_fields|apply Hs]. cbn [mbind option_bind].
  rewrite (HF _ "timestamp" dec_int64 0 ts (if ts =? 0 then None else Some (JNum (Itoa ts)))); [|in_fields|].
  2: { destruct (Z.eqb_spec ts 0) as [->|]; [done|]. intros v' E. destruct v'; try done. injection E as ->. cbn [dec_int64].
       rewrite Atoi_Itoa by lia. by eauto. }
  cbn [mbind option_bind].
  rewrite (HF _ "raid" dec_str "" raid (omit_str raid)); [|in_fields|apply Hs]. cbn [mbind option_bind].
  rewrite (HF _ "jwk" dec_raw None None None); [|in_fields|done]. cbn [mbind option_bind].
  by rewrite (HF _ "crit" (dec_list dec_str "") [] [] None); [|in_fields|].
Qed.

(** A header survives the compact serialisation. *)
Lemma decodeHeader_encoded h :
  header_ok h -> decodeHeader (b64_EncodeToString (Marshal (enc_header h))) = Ok h.
Proof.
  intros H. pose proof (header_json_ok h H) as [H1 H2]. unfold decodeHeader. rewrite b64_roundtrip. cbn [or_fail mbind result_bind].
  unfold Unmarshal. rewrite parse_Marshal by done. cbn [mbind option_bind]. rewrite header_decode by done.
  cbn [or_fail mbind result_bind]. by rewrite (ho_crit h H).
Qed.

(** ** Signing and verifying *)

Section SignVerify.
Context `{S : SigSchemes} `{J : JCS}.

(** The key manager's contract for one key: its signatures verify. *)
Definition signs_for (km : KeyManager) (keyID : string) (pub : public_key) : Prop :=
  forall digest raw, km_Sign km keyID digest = Some raw ->
  match pub with
  | EcdsaKey k => forall r s, asn1_Unmarshal (bytes_of raw) = Ok (r, s, []) -> ecdsa_verify k digest r s = true
  | RsaKey k => raw <> "" /\ rsaVerifyPKCS1v15 k digest raw = true
  | _ => True
  end.

Lemma checkAlg_utf8 alg pub : checkAlgMatchesKey alg pub = true -> utf8_ok alg = true.
Proof.
  unfold checkAlgMatchesKey. destruct (String.eqb_spec alg AlgES256) as [->|]; [done|].
  destruct (String.eqb_spec alg AlgRS256) as [->|]; [done|]. destruct (String.eqb_spec alg AlgEdDSA) as [->|]; done.
Qed.

Lemma sign_alg_Ok header pub alg : sign_alg header pub = Ok alg -> checkAlgMatchesKey alg pub = true.
Proof. unfold sign_alg. intros (a & _ & H)%bind_Ok. case_if_in H; [|done]. by injection H as <-. Qed.

Lemma sign_input_Ok km keyID alg pub inp sig :
  signs_for km keyID pub -> sign_input km keyID alg pub inp = Ok sig ->
  exists w, sig = b64_EncodeToString w /\ w <> "" /\ check_signature pub inp w = true.
Proof.
  intros HS. unfold sign_input. intros (raw & Hraw & H)%bind_Ok. apply bind_Ok in H as (w & Hw & [= <-]).
  destruct (km_Sign km keyID _) as [raw'|] eqn:E in Hraw; [|done]. injection Hraw as ->. apply HS in E.
  destruct (toJWSWireFormat alg pub raw) as [w'|] eqn:Ew in Hw; [|done]. injection Hw as ->. exists w. split; [done|].
  unfold toJWSWireFormat in Ew. case_if_in Ew.
  - destruct pub as [k| | |]; try done. destruct (DERToP1363 (bytes_of raw) _) as [out|] eqn:ED; [|done]. injection Ew as <-.
    pose proof (DERToP1363_bytes _ _ _ ED) as [HB HN]. apply DERToP1363_Ok in ED as (_ & r & s & HU & HP). split.
    + intros H0. apply HN. destruct out; [done|]. discriminate.
    + cbn [check_signature]. rewrite bytes_of_string, HP by done. by apply E.
  - case_if_in Ew; [|done]. destruct pub; try done. injection Ew as ->. done.
Qed.

Lemma split_detached h s :
  h <> "" -> s <> "" -> splitDetachedJWS (b64_EncodeToString h +:+ ".." +:+ b64_EncodeToString s) = Ok (b64_EncodeToString h, b64_EncodeToString s).
Proof.
  intros Hh Hs. unfold splitDetachedJWS. rewrite !app_cons_s, app_nil_l_s, Split_app by apply b64_no_dot.
  change (String "." (b64_EncodeToString s)) with ("" +:+ String "." (b64_EncodeToString s)). rewrite Split_app by done.
  rewrite Split_nosep by apply b64_no_dot. cbn [String.eqb negb].
  destruct (String.eqb_spec (b64_EncodeToString h) ""); [by destruct (b64_nonempty h)|].
  destruct (String.eqb_spec (b64_EncodeToString s) ""); [by destruct (b64_nonempty s)|]. done.
Qed.

(** What [SignDetachedJWS] produces verifies.  For a key whose signatures its
    scheme accepts, the compact serialisation is accepted by
    [VerifyWithPublicKey] and [VerifyDetachedJWS] under that key, for every
    payload with the same canonical form as the signed one, and the verifiers
    return the caller's header with the algorithm of the key and the key's id
    stamped in. *)
Theorem SignDetachedJWS_verifies km keyID header payload payload' jws pub :
  km_GetPublicKey km keyID = Some pub -> signs_for km keyID pub ->
  header_ok (with_alg_kid header "" keyID) ->
  Canonicalize payload' = Canonicalize payload ->
  SignDetachedJWS km keyID header payload = Ok jws ->
  exists alg, checkAlgMatchesKey alg pub = true /\
    VerifyWithPublicKey pub jws payload' = Ok (with_alg_kid header alg keyID) /\
    VerifyDetachedJWS km jws payload' = Ok (with_alg_kid header alg keyID).
Proof.
  intros Hpub HS Hok HC. unfold SignDetachedJWS. rewrite Hpub. cbn [or_fail mbind result_bind].
  intros (alg & Halg%sign_alg_Ok & H)%bind_Ok. cbn zeta in H. apply bind_Ok in H as (c & Hc & H). apply bind_Ok in H as (sig & Hsig & H).
  assert (forall a b : string, Ok (E := jws_error) a = Ok b -> a = b) as Hinj by congruence. apply Hinj in H. subst jws.
  apply sign_input_Ok in Hsig as (w & -> & Hw & Hcheck); [|done]. exists alg. split; [done|].
  set (h := with_alg_kid header alg keyID) in *.
  assert (header_ok h) as Hh by (destruct Hok; split; [by eapply checkAlg_utf8|done..]).
  assert (Marshal (enc_header h) <> "") as Hm by (unfold enc_header, obj; done).
  assert (verifyWithPublicKey pub alg (b64_EncodeToString (Marshal (enc_header h))) (b64_EncodeToString w) payload' = Ok tt) as HV.
  { unfold verifyWithPublicKey. rewrite HC. destruct (Canonicalize payload) as [c'|]; [|done]. injection Hc as ->.
    cbn [or_fail mbind result_bind]. rewrite b64_roundtrip. cbn [or_fail mbind result_bind]. rewrite Halg, Hcheck. done. }
  unfold VerifyWithPublicKey, VerifyDetachedJWS. rewrite split_detached by done. cbn [mbind result_bind].
  rewrite decodeHeader_encoded by done. cbn [mbind result_bind]. change (h_Alg h) with alg. change (h_Kid h) with keyID.
  rewrite Hpub. cbn [or_fail mbind result_bind]. by rewrite HV.
Qed.
End SignVerify.

(** ** A signature *)

#[local] Instance demo_schemes : SigSchemes := {|
  ecdsa_key := unit; rsa_key := unit; CoordinateBytes _ := 32;
  ecdsa_verify _ _ r s := (r =? 7) && (s =? 9);
  rsaVerifyPKCS1v15 _ _ _ := false; ed25519_verify _ _ _ := false
|}.

Definition demo_km : KeyManager := {|
  km_GetPublicKey id := if String.eqb id "k1" then Some (EcdsaKey tt) else None;
  km_Sign _ _ := Some (string_of_bytes (asn1_Marshal 7 9))
|}.

Definition demo_header : JWSProtectedHeader :=
  {| h_Alg := ""; h_Kid := ""; h_Typ := "JWT"; h_Timestamp := 1700000000; h_RAID := "ra-1"; h_Jwk := None; h_Crit := [] |}.

Definition demo_payload (first second : string) : string :=
  let member k := quote k +:+ ":1" in "{" +:+ member first +:+ " , " +:+ member second +:+ "}".

Definition demo_jws : string :=
  Eval vm_compute in
  match SignDetachedJWS (J := reference_jcs) demo_km "k1" demo_header (demo_payload "b" "a") with Ok s => s | Err _ => "" end.

Lemma demo_signs : signs_for demo_km "k1" (EcdsaKey tt).
Proof. intros digest raw [= <-] r s HU. vm_compute in HU. by injection HU as <- <-. Qed.

(** A payload signed with its members in one order verifies in the other. *)
Lemma SignDetachedJWS_verifies_witness :
  exists alg, checkAlgMatchesKey alg (EcdsaKey tt) = true /\
    VerifyWithPublicKey (J := reference_jcs) (EcdsaKey tt) demo_jws (demo_payload "a" "b") = Ok (with_alg_kid demo_header alg "k1") /\
    VerifyDetachedJWS (J := reference_jcs) demo_km demo_jws (demo_payload "a" "b") = Ok (with_alg_kid demo_header alg "k1").
Proof.
  apply (SignDetachedJWS_verifies (J := reference_jcs) demo_km "k1" demo_header (demo_payload "b" "a")).
  - reflexivity.
  - apply demo_signs.
  - split; try (vm_compute; reflexivity). vm_compute. split; discriminate.
  - vm_compute. reflexivity.
  - vm_compute. reflexivity.
Defined.
