(* ===== verification/Jwk.v ===== *)
(** Public keys in JSON Web Keys and in multibase: [internal/crypto/jwk.go], with
    [CheckKeyStrength] of [x509.go].

    Every failure of this file wraps [ErrJWK] and is [None].  Keys are the Go
    library's: [StdKeys] builds them from their numbers, the curve is [P256].
    Bytes outside ASCII are no base58 character, so reading a string by bytes or
    by code points makes no difference.

    A [did:key] identifier is its key: [did_key_one_name] says that no key has
    two such names, [multibase_roundtrip] and [jwk_roundtrip] that what is
    printed is read back. *)
From S2P Require Import Prelude GoStrings GoEncoding GoJSON GoJSONSpec Jcs Sha256 P256 P1363 RaEvents Jws JwsSpec.

#[local] Set Default Goal Selector "!".
#[local] Open Scope Z_scope.

(** The fields of [ecdsa.PublicKey] and [rsa.PublicKey]; [None] for another
    curve than P-256. *)
Class StdKeys `{S : SigSchemes} := {
  p256_key : P256.PublicKey -> ecdsa_key;
  p256_point : ecdsa_key -> option P256.PublicKey;
  rsa_make : Z -> Z -> rsa_key;
  rsa_N : rsa_key -> Z;
  rsa_E : rsa_key -> Z
}.

Class StdKeysLaws `{S : SigSchemes} (SK : StdKeys) := {
  p256_point_key k : p256_point (p256_key k) = Some k;
  p256_key_point k P : p256_point k = Some P -> p256_key P = k;
  rsa_make_parts n e : rsa_N (rsa_make n e) = n /\ rsa_E (rsa_make n e) = e;
  rsa_parts_make k : rsa_make (rsa_N k) (rsa_E k) = k
}.

(** ** Base 58 *)

Definition base58Alphabet : string := "123456789ABCDEFGHJKLMNPQRSTUVWXYZabcdefghijkmnopqrstuvwxyz".

Definition base58_char (d : Z) : ascii := default zero (String.get (Z.to_nat d) base58Alphabet).

Fixpoint base58_value (n : Z) (s : string) : option Z :=
  match s with
  | EmptyString => Some n
  | String c s' => idx ← IndexByte base58Alphabet c; base58_value (n * 58 + Z.of_nat idx) s'
  end.

(** The number of leading bytes [c]. *)
Fixpoint leading (c : ascii) (s : string) : nat :=
  match s with String d s' => if Ascii.eqb c d then S (leading c s') else O | EmptyString => O end.

Definition base58Decode (s : string) : option (list Z) :=
  if String.eqb s "" then None else
  n ← base58_value 0 s;
  Some (replicate (leading "1" s) 0 ++ (if 0 <? n then Int_Bytes n else [])).

(** The loop over [DivMod], with more turns than the number has bits. *)
Fixpoint base58_digits (fuel : nat) (n : Z) (out : string) : string :=
  match fuel with
  | O => out
  | S f => if 0 <? n then base58_digits f (n / 58) (String (base58_char (n mod 58)) out) else out
  end.

Fixpoint leading_zeros (b : list Z) : nat :=
  match b with x :: b' => if x =? 0 then S (leading_zeros b') else O | [] => O end.

Fixpoint ones (k : nat) (out : string) : string := match k with O => out | S k' => String "1" (ones k' out) end.

Definition base58Encode (b : list Z) : string :=
  let n := be_value b in ones (leading_zeros b) (base58_digits (Z.to_nat (Z.log2 n + 1)) n "").

(** ** P-256 points *)

(** [ecdsa.ParseUncompressedPublicKey(elliptic.P256(), 0x04 || x || y)]. *)
Definition parse_point (x y : Z) : option P256.PublicKey :=
  if on_curve x y then Some {| pub_X := x; pub_Y := y |} else None.

Fixpoint pow_pos (b : Z) (e : positive) : Z :=
  match e with
  | xH => fmod b
  | xO e' => pow_pos (fmod (b * b)) e'
  | xI e' => fmod (b * pow_pos (fmod (b * b)) e')
  end.

(** A square root, when there is one: the power with exponent (p + 1) / 4. *)
Definition sqrt_p256 (y2 : Z) : Z := match (p256_p + 1) / 4 with Zpos e => pow_pos y2 e | _ => 0 end.

(** [elliptic.UnmarshalCompressed]. *)
Definition UnmarshalCompressed (data : list Z) : option (Z * Z) :=
  match data with
  | tag :: rest =>
      if negb ((tag =? 2) || (tag =? 3)) || negb (Nat.eqb (length rest) 32) then None else
      let x := be_value rest in
      if p256_p <=? x then None else
      let y2 := fmod (x * x * x - 3 * x + p256_b) in
      let y := sqrt_p256 y2 in
      if negb (fmod (y * y) =? y2) then None else
      let y := if y mod 2 =? tag mod 2 then y else p256_p - y in
      if on_curve x y then Some (x, y) else None
  | [] => None
  end.

(** [x.FillBytes(make([]byte, 32))]. *)
Definition FillBytes32 (n : Z) : list Z := left_pad 32 (Int_Bytes n).

Definition MarshalCompressed (x y : Z) : list Z := (2 + y mod 2) :: FillBytes32 x.

(** ** Key strength *)

Definition MinRSAKeyBits : Z := 2048.

(** [big.Int.BitLen] of a number that is not negative. *)
Definition BitLen (n : Z) : Z := if n =? 0 then 0 else Z.log2 n + 1.

Section Jwk.
Context `{S : SigSchemes} `{SK : !StdKeys}.

(** The curve of an ECDSA key is P-256 or one whose coordinates have the length
    of P-384's. *)
Definition CheckKeyStrength (pub : public_key) : bool :=
  match pub with
  | RsaKey k => negb (BitLen (rsa_N k) <? MinRSAKeyBits)
  | EcdsaKey k => (CoordinateBytes k =? 32) || (CoordinateBytes k =? 48)
  | _ => false
  end.

(** ** JSON Web Keys *)

Record jwkFields := { jf_Kty : string; jf_Crv : string; jf_X : string; jf_Y : string; jf_N : string; jf_E : string }.

Definition zero_jwk : jwkFields := {| jf_Kty := ""; jf_Crv := ""; jf_X := ""; jf_Y := ""; jf_N := ""; jf_E := "" |}.

Definition dec_jwk : json -> jwkFields -> option jwkFields := dec_struct (fun m f =>
  kty ← field "kty" dec_str (jf_Kty f) m;
  crv ← field "crv" dec_str (jf_Crv f) m;
  x ← field "x" dec_str (jf_X f) m;
  y ← field "y" dec_str (jf_Y f) m;
  n ← field "n" dec_str (jf_N f) m;
  e ← field "e" dec_str (jf_E f) m;
  Some {| jf_Kty := kty; jf_Crv := crv; jf_X := x; jf_Y := y; jf_N := n; jf_E := e |}).

Definition parseECJWK (f : jwkFields) : option public_key :=
  if negb (String.eqb (jf_Crv f) "P-256") then None else
  x ← b64_DecodeString (jf_X f);
  y ← b64_DecodeString (jf_Y f);
  if negb (Nat.eqb (String.length x) 32) || negb (Nat.eqb (String.length y) 32) then None else
  P ← parse_point (SetBytes x) (SetBytes y); Some (EcdsaKey (p256_key P)).

Definition ed25519_PublicKeySize : nat := 32.

Definition parseOKPJWK (f : jwkFields) : option public_key :=
  if String.eqb (jf_Crv f) "Ed25519" then
    x ← b64_DecodeString (jf_X f);
    if negb (Nat.eqb (String.length x) ed25519_PublicKeySize) then None else Some (Ed25519Key x)
  else None.

(** [int(new(big.Int).SetBytes(e).Int64())]: the low 64 bits, as a signed
    number. *)
Definition Int64 (n : Z) : Z := (n + 2 ^ 63) mod 2 ^ 64 - 2 ^ 63.

Definition parseRSAJWK (f : jwkFields) : option public_key :=
  n ← b64_DecodeString (jf_N f);
  e ← b64_DecodeString (jf_E f);
  if String.eqb n "" || String.eqb e "" || Nat.ltb 8 (String.length e) then None else
  let pub := RsaKey (rsa_make (SetBytes n) (Int64 (SetBytes e))) in
  if CheckKeyStrength pub then Some pub else None.

Definition ParseJWK (raw : json) : option public_key :=
  f ← dec_jwk raw zero_jwk;
  if String.eqb (jf_Kty f) "EC" then parseECJWK f else
  if String.eqb (jf_Kty f) "OKP" then parseOKPJWK f else
  if String.eqb (jf_Kty f) "RSA" then parseRSAJWK f else None.

(** [json.Marshal] of a map writes its members in the order of their names. *)
Definition marshalJWK (members : list (string * string)) : json := JObj (prod_map id JStr <$> members).

(** The two halves of the uncompressed encoding. *)
Definition p256Coordinates (k : ecdsa_key) : option (list Z * list Z) :=
  P ← p256_point k; Some (FillBytes32 (pub_X P), FillBytes32 (pub_Y P)).

Definition b64_bytes (l : list Z) : string := b64_EncodeToString (string_of_bytes l).

Definition PublicKeyToJWK (pub : public_key) : option json :=
  match pub with
  | EcdsaKey k =>
      '(x, y) ← p256Coordinates k;
      Some (marshalJWK [("crv", "P-256"); ("kty", "EC"); ("x", b64_bytes x); ("y", b64_bytes y)])
  | Ed25519Key k => Some (marshalJWK [("crv", "Ed25519"); ("kty", "OKP"); ("x", b64_EncodeToString k)])
  | RsaKey k => Some (marshalJWK [("e", b64_bytes (Int_Bytes (rsa_E k))); ("kty", "RSA"); ("n", b64_bytes (Int_Bytes (rsa_N k)))])
  | OtherKey => None
  end.

(** ** Multibase *)

Definition multicodecEd25519Hi : Z := 0xed.
Definition multicodecEd25519Lo : Z := 0x01.
Definition multicodecP256Hi : Z := 0x80.
Definition multicodecP256Lo : Z := 0x24.

Definition DecodeMultibase (encoded : string) : option public_key :=
  if negb (HasPrefix encoded "z") then None else
  raw ← base58Decode (str_drop 1 encoded);
  match raw with
  | c0 :: c1 :: key =>
      if Nat.eqb (length key) 0 then None else
      if (c0 =? multicodecEd25519Hi) && (c1 =? multicodecEd25519Lo) then
        if negb (Nat.eqb (length key) ed25519_PublicKeySize) then None else Some (Ed25519Key (string_of_bytes key))
      else if (c0 =? multicodecP256Hi) && (c1 =? multicodecP256Lo) then
        if negb (Nat.eqb (length key) 33) then None else
        '(x, y) ← UnmarshalCompressed key;
        P ← parse_point (be_value (FillBytes32 x)) (be_value (FillBytes32 y)); Some (EcdsaKey (p256_key P))
      else None
  | _ => None
  end.

Definition EncodeMultibase (pub : public_key) : option string :=
  match pub with
  | Ed25519Key k => Some ("z" +:+ base58Encode (multicodecEd25519Hi :: multicodecEd25519Lo :: bytes_of k))
  | EcdsaKey k =>
      '(x, y) ← p256Coordinates k;
      Some ("z" +:+ base58Encode (multicodecP256Hi :: multicodecP256Lo :: MarshalCompressed (be_value x) (be_value y)))
  | _ => None
  end.

(** The key and the id of its verification method. *)
Definition DecodeDIDKey (did : string) : option (public_key * string) :=
  if negb (HasPrefix did "did:key:") then None else
  let msid := TrimPrefix did "did:key:" in
  if String.eqb msid "" then None else
  pub ← DecodeMultibase msid; Some (pub, did +:+ "#" +:+ msid).
End Jwk.

(** ** Positional numbers *)

Definition rv (r : Z) (l : list Z) : Z := fold_left (fun acc d => acc * r + d) l 0.

Definition digit (r d : Z) : Prop := 0 <= d < r.

(** No leading zero. *)
Definition normal (l : list Z) : Prop := match l with [] => True | d :: _ => 0 < d end.

Section Radix.
Context (r : Z) (Hr : 2 <= r).

Lemma rv_acc acc l : fold_left (fun acc d => acc * r + d) l acc = acc * r ^ Z.of_nat (length l) + rv r l.
Proof.
  unfold rv. revert acc. induction l as [|d l IH]; intros acc; cbn [fold_left length]; [cbn; lia|].
  rewrite (IH (acc * r + d)), (IH (0 * r + d)), Nat2Z.inj_succ, Z.pow_succ_r by lia. ring.
Qed.

Lemma rv_cons d l : rv r (d :: l) = d * r ^ Z.of_nat (length l) + rv r l.
Proof. unfold rv at 1. cbn [fold_left]. by rewrite rv_acc. Qed.

Lemma rv_app a b : rv r (a ++ b) = rv r a * r ^ Z.of_nat (length b) + rv r b.
Proof. unfold rv at 1. by rewrite fold_left_app, rv_acc. Qed.

Lemma rv_zeros k l : rv r (replicate k 0 ++ l) = rv r l.
Proof. induction k as [|k IH]; cbn [replicate app]; [done|]. rewrite rv_cons, IH. lia. Qed.

Lemma rv_bound l : Forall (digit r) l -> 0 <= rv r l < r ^ Z.of_nat (length l).
Proof.
  induction 1 as [|d l Hd _ IH]; [cbn; lia|]. rewrite rv_cons. cbn [length]. rewrite Nat2Z.inj_succ, Z.pow_succ_r by lia. unfold digit in Hd. nia.
Qed.

Lemma rv_inj a b : length a = length b -> Forall (digit r) a -> Forall (digit r) b -> rv r a = rv r b -> a = b.
Proof.
  revert b. induction a as [|x a IH]; intros [|y b] HL Ha Hb E; try done. cbn in HL.
  apply Forall_cons in Ha as [Hx Ha]. apply Forall_cons in Hb as [Hy Hb]. rewrite !rv_cons in E.
  replace (length b) with (length a) in E by lia. pose proof (rv_bound a Ha). pose proof (rv_bound b Hb) as Bb.
  replace (length b) with (length a) in Bb by lia. unfold digit in *. assert (x = y) by nia. subst. f_equal. apply IH; [lia|done|done|lia].
Qed.

Lemma rv_low l : normal l -> Forall (digit r) l -> l <> [] -> r ^ (Z.of_nat (length l) - 1) <= rv r l.
Proof.
  destruct l as [|d l]; [done|]. intros Hn Hl _. apply Forall_cons in Hl as [_ Hl]. rewrite rv_cons. pose proof (rv_bound l Hl). cbn [length normal] in *.
  replace (Z.of_nat (S (length l)) - 1) with (Z.of_nat (length l)) by lia. nia.
Qed.

Lemma rv_shorter a b : normal b -> Forall (digit r) a -> Forall (digit r) b -> rv r a = rv r b -> (length b <= length a)%nat.
Proof.
  intros Hn Ha Hb E. destruct b as [|y b]; [cbn; lia|]. pose proof (rv_bound a Ha). pose proof (rv_low (y :: b) Hn Hb ltac:(done)).
  destruct (decide (length (y :: b) <= length a)%nat) as [|Hgt]; [done|].
  assert (r ^ Z.of_nat (length a) <= r ^ (Z.of_nat (length (y :: b)) - 1)) by (apply Z.pow_le_mono_r; lia). lia.
Qed.

(** A number has one numeral. *)
Lemma rv_canon a b : normal a -> normal b -> Forall (digit r) a -> Forall (digit r) b -> rv r a = rv r b -> a = b.
Proof. intros Na Nb Ha Hb E. apply rv_inj; [|done..]. apply Nat.le_antisymm; by apply rv_shorter. Qed.
End Radix.

Lemma leading_zeros_app k l : normal l -> leading_zeros (replicate k 0 ++ l) = k.
Proof.
  intros Hn. induction k as [|k IH]; cbn; [|by rewrite IH]. destruct l as [|d l]; cbn in *; [done|]. destruct (Z.eqb_spec d 0); [lia|done].
Qed.

Lemma split_zeros l : Forall (fun d => 0 <= d) l -> exists l', l = replicate (leading_zeros l) 0 ++ l' /\ normal l'.
Proof.
  induction 1 as [|d l Hd _ (l' & E & Hn)]; cbn; [by exists []|]. destruct (Z.eqb_spec d 0) as [->|]; [exists l'; cbn; by rewrite E at 1|].
  exists (d :: l). split; [done|cbn; lia].
Qed.

(** ** Base 58 *)

Definition chars58 (ds : list Z) : string := foldr (fun d s => String (base58_char d) s) "" ds.

Lemma base58_char_facts d : digit 58 d -> IndexByte base58Alphabet (base58_char d) = Some (Z.to_nat d) /\ Ascii.eqb "1" (base58_char d) = (d =? 0).
Proof.
  intros Hd. pose proof (forall_below 58 (fun d => bool_decide (IndexByte base58Alphabet (base58_char d) = Some (Z.to_nat d)) && Bool.eqb (Ascii.eqb "1" (base58_char d)) (d =? 0))
    ltac:(by vm_compute) d Hd) as H. cbv beta in H. apply andb_true_iff in H as [H1%bool_decide_eq_true H2%eqb_prop]. done.
Qed.

Lemma IndexByte_char c i : IndexByte base58Alphabet c = Some i -> digit 58 (Z.of_nat i) /\ base58_char (Z.of_nat i) = c.
Proof.
  intros H. pose proof (forall_bytes (fun c => match IndexByte base58Alphabet c with
    | Some i => (Z.of_nat i <? 58) && Ascii.eqb (base58_char (Z.of_nat i)) c | None => true end) ltac:(by vm_compute) c) as Hc.
  cbv beta in Hc. rewrite H in Hc. apply andb_true_iff in Hc as [H1%Z.ltb_lt H2%Ascii.eqb_eq]. split; [unfold digit; lia|done].
Qed.

Lemma base58_value_chars n ds : Forall (digit 58) ds -> base58_value n (chars58 ds) = Some (fold_left (fun acc d => acc * 58 + d) ds n).
Proof.
  intros H. revert n. induction H as [|d ds Hd _ IH]; intros n; cbn [chars58 foldr base58_value fold_left]; [done|].
  destruct (base58_char_facts d Hd) as [-> _]. cbn [mbind option_bind]. unfold digit in Hd. rewrite Z2Nat.id by lia. apply IH.
Qed.

Lemma base58_value_inv s : forall n v, base58_value n s = Some v -> exists ds, Forall (digit 58) ds /\ s = chars58 ds.
Proof.
  induction s as [|c s IH]; intros n v H; cbn -[base58Alphabet] in H; [exists []; by split; [constructor|]|]. destruct (IndexByte base58Alphabet c) as [i|] eqn:E; [|discriminate H]. cbn in H.
  destruct (IndexByte_char c i E) as [Hi Hc]. destruct (IH _ _ H) as (ds & Hds & ->). exists (Z.of_nat i :: ds). split; [by constructor|]. cbn [chars58 foldr]. by rewrite Hc.
Qed.

Lemma leading_chars ds : Forall (digit 58) ds -> leading "1" (chars58 ds) = leading_zeros ds.
Proof.
  induction 1 as [|d ds Hd _ IH]; cbn [chars58 foldr leading leading_zeros]; [done|]. destruct (base58_char_facts d Hd) as [_ ->]. by rewrite <-IH.
Qed.

Lemma ones_chars k ds : ones k (chars58 ds) = chars58 (replicate k 0 ++ ds).
Proof. induction k as [|k IH]; cbn; [done|by rewrite IH]. Qed.

Lemma base58_digits_spec f n out : 0 <= n < 2 ^ Z.of_nat f ->
  exists ds, base58_digits f n (chars58 out) = chars58 (ds ++ out) /\ Forall (digit 58) ds /\ normal ds /\ rv 58 ds = n.
Proof.
  revert n out. induction f as [|f IH]; intros n out Hn; cbn [base58_digits].
  { cbn in Hn. exists []. split_and!; try done; cbn; lia. }
  rewrite Nat2Z.inj_succ, Z.pow_succ_r in Hn by lia. destruct (Z.ltb_spec 0 n).
  2: { exists []. split_and!; try done; cbn; lia. }
  destruct (IH (n / 58) ((n mod 58) :: out)) as (ds & E & Hd & Hnm & Hv); [zlia|]. exists (ds ++ [n mod 58]).
  split; [by rewrite <-app_assoc; cbn; rewrite <-E|]. split; [apply Forall_app; split; [done|]; repeat constructor; zlia|].
  split; [|rewrite rv_app, Hv by lia; cbn; zlia]. destruct ds as [|d ds]; [|done]. cbn in Hv |- *. zlia.
Qed.

Lemma base58_digits_at n : 0 <= n ->
  exists ds, base58_digits (Z.to_nat (Z.log2 n + 1)) n "" = chars58 ds /\ Forall (digit 58) ds /\ normal ds /\ rv 58 ds = n.
Proof.
  intros Hn. destruct (base58_digits_spec (Z.to_nat (Z.log2 n + 1)) n []) as (ds & E & H).
  { pose proof (Z.log2_nonneg n). rewrite Z2Nat.id by lia. destruct (Z.eq_dec n 0) as [->|]; [done|]. pose proof (Z.log2_spec n). lia. }
  exists ds. by rewrite app_nil_r in E.
Qed.

Lemma Int_Bytes_normal n : 0 <= n -> normal (Int_Bytes n) /\ Forall (digit 256) (Int_Bytes n) /\ rv 256 (Int_Bytes n) = n.
Proof.
  intros Hn. destruct (Int_Bytes_spec n Hn) as (E & F & G). split_and!; [|exact F|exact E]. destruct (Int_Bytes n) as [|b l]; [done|]. by apply (G b l).
Qed.

Lemma Int_Bytes_if n : 0 <= n -> (if 0 <? n then Int_Bytes n else []) = Int_Bytes n.
Proof. intros Hn. destruct (Z.ltb_spec 0 n); [done|]. by assert (n = 0) as -> by lia. Qed.

(** Bytes and their base58 digits have the same number and the same zeros. *)
Lemma base58Encode_spec b : Forall is_byte b -> exists ds, base58Encode b = chars58 (replicate (leading_zeros b) 0 ++ ds) /\
  Forall (digit 58) ds /\ normal ds /\ rv 58 ds = be_value b.
Proof.
  intros Hb. destruct (base58_digits_at (be_value b)) as (ds & E & Hd & Hn & Hv); [by apply (rv_bound 256); [lia|]|]. exists ds.
  unfold base58Encode. by rewrite E, ones_chars.
Qed.

Lemma base58Decode_spec k ds : Forall (digit 58) ds -> normal ds -> (k <> O \/ ds <> []) ->
  base58Decode (chars58 (replicate k 0 ++ ds)) = Some (replicate k 0 ++ Int_Bytes (rv 58 ds)).
Proof.
  intros Hd Hn Hne. assert (Forall (digit 58) (replicate k 0 ++ ds)) as Ha. { apply Forall_app. split; [|done]. apply Forall_replicate. unfold digit. lia. }
  unfold base58Decode. rewrite base58_value_chars, leading_chars, leading_zeros_app by done. fold (rv 58 (replicate k 0 ++ ds)). rewrite rv_zeros by lia.
  assert (String.eqb (chars58 (replicate k 0 ++ ds)) "" = false) as ->. { destruct k, ds; cbn; try done. by destruct Hne. }
  cbn [mbind option_bind]. rewrite Int_Bytes_if; [done|]. by apply rv_bound; [lia|].
Qed.

Lemma base58_roundtrip b : Forall is_byte b -> b <> [] -> base58Decode (base58Encode b) = Some b.
Proof.
  intros Hb Hne. destruct (base58Encode_spec b Hb) as (ds & -> & Hd & Hn & Hv).
  destruct (split_zeros b) as (l & E & Hl). { eapply Forall_impl; [exact Hb|]. unfold is_byte. lia. }
  assert (Forall (digit 256) l) as Hbl. { rewrite E in Hb. by apply Forall_app in Hb as [_ H]. }
  assert (be_value b = rv 256 l) as Ev by (rewrite E; apply (rv_zeros 256); lia).
  rewrite base58Decode_spec; [|done|done|].
  - rewrite E at 2. do 2 f_equal. rewrite Hv. destruct (Int_Bytes_normal (be_value b)) as (N1 & N2 & N3). { rewrite Ev. by apply rv_bound; [lia|]. }
    apply (rv_canon 256); [lia|done..|]. by rewrite N3.
  - destruct (leading_zeros b) eqn:Ez; [right|by left]. intros ->. rewrite Ev in Hv. cbn in Hv. destruct l as [|d l]; [by rewrite E in Hne|].
    pose proof (rv_low 256 ltac:(lia) (d :: l) Hl Hbl ltac:(done)) as HL. rewrite <-Hv in HL. cbn [length] in HL. pose proof (Z.pow_pos_nonneg 256 (Z.of_nat (S (length l)) - 1)). lia.
Qed.

(** Every string that decodes is the encoding of its bytes. *)
Lemma base58_canonical s b : base58Decode s = Some b -> Forall is_byte b /\ base58Encode b = s.
Proof.
  intros H. assert (exists ds, Forall (digit 58) ds /\ s = chars58 ds) as (ds & Hd & ->).
  { unfold base58Decode in H. case_if_in H; [done|]. destruct (base58_value 0 s) as [v|] eqn:E; [|done]. by eapply base58_value_inv. }
  destruct (split_zeros ds) as (l & E & Hl). { eapply Forall_impl; [exact Hd|]. unfold digit. lia. }
  assert (Forall (digit 58) l) as Hdl. { rewrite E in Hd. by apply Forall_app in Hd as [_ ?]. }
  rewrite E in H |- *. set (k := leading_zeros ds) in *. rewrite base58Decode_spec in H; [|done|done|].
  2: { destruct k, l; [|by right|by left|by left]. cbn in H. done. }
  injection H as <-. destruct (Int_Bytes_normal (rv 58 l)) as (N1 & N2 & N3); [by apply rv_bound; [lia|]|].
  assert (Forall is_byte (replicate k 0 ++ Int_Bytes (rv 58 l))) as HB. { apply Forall_app. split; [|done]. apply Forall_replicate. unfold is_byte. lia. }
  split; [done|]. destruct (base58Encode_spec _ HB) as (ds' & -> & Hd' & Hn' & Hv'). rewrite leading_zeros_app by done. do 2 f_equal.
  apply (rv_canon 58); [lia|done..|]. rewrite Hv'. etrans; [apply (rv_zeros 256); lia|exact N3].
Qed.

(** ** Names of keys *)

Lemma p256_p_bound : 0 < p256_p < 256 ^ Z.of_nat 32 /\ p256_p mod 2 = 1.
Proof. by vm_compute. Qed.

Lemma on_curve_range x y : on_curve x y = true -> 0 <= x < p256_p /\ 0 <= y < p256_p.
Proof. unfold on_curve. rewrite !andb_true_iff, !Z.leb_le, !Z.ltb_lt. lia. Qed.

Lemma FillBytes32_spec n : 0 <= n < p256_p -> length (FillBytes32 n) = 32%nat /\ Forall is_byte (FillBytes32 n) /\ be_value (FillBytes32 n) = n.
Proof.
  intros Hn. pose proof p256_p_bound as [HB _]. destruct (Int_Bytes_spec n) as (E & F & _); [lia|]. unfold FillBytes32.
  rewrite <-E at 4. apply left_pad_spec; [done|]. apply Int_Bytes_length. lia.
Qed.

(** The compressed form is determined by the point. *)
Lemma UnmarshalCompressed_inv data x y :
  Forall is_byte data -> UnmarshalCompressed data = Some (x, y) -> on_curve x y = true /\ data = MarshalCompressed x y.
Proof.
  intros HB H. unfold UnmarshalCompressed in H. destruct data as [|tag rest]; [done|]. apply Forall_cons in HB as [_ HB].
  cbv zeta in H. set (y0 := sqrt_p256 _) in H. clearbody y0. set (y1 := if y0 mod 2 =? tag mod 2 then y0 else p256_p - y0) in H.
  destruct ((tag =? 2) || (tag =? 3)) eqn:Et; [|done]. destruct (Nat.eqb (length rest) 32) eqn:El; [|done]. apply Nat.eqb_eq in El. cbn [negb orb] in H.
  destruct (p256_p <=? be_value rest); [done|]. destruct (negb _); [done|]. destruct (on_curve (be_value rest) y1) eqn:EC; [|done].
  injection H as <- <-. split; [done|]. destruct (on_curve_range _ _ EC) as [Hx Hy]. unfold MarshalCompressed. f_equal.
  - assert (y1 mod 2 = tag mod 2) as Hm. { unfold y1. destruct (Z.eqb_spec (y0 mod 2) (tag mod 2)) as [E|E]; [done|]. pose proof p256_p_bound as [_ Hp]. zlia. }
    rewrite Hm. apply orb_true_iff in Et as [->%Z.eqb_eq| ->%Z.eqb_eq]; done.
  - destruct (FillBytes32_spec _ Hx) as (L & F & V). apply be_value_inj; [by rewrite L|done..].
Qed.

Lemma string_of_bytes_of s : string_of_bytes (bytes_of s) = s.
Proof. induction s as [|c s IH]; cbn; [done|]. by rewrite IH, chr_byteZ. Qed.

Section Names.
Context `{S : SigSchemes} `{SK : !StdKeys, !StdKeysLaws SK}.

(** A key that was decoded is written back as it was read. *)
Lemma multibase_canonical e pub : DecodeMultibase e = Some pub -> EncodeMultibase pub = Some e.
Proof.
  unfold DecodeMultibase. destruct (HasPrefix e "z") eqn:Ep; [|done]. cbn [negb]. pose proof (HasPrefix_split _ _ Ep) as He. cbn [String.length] in He.
  destruct (base58Decode (str_drop 1 e)) as [raw|] eqn:E; [|done]. cbn [mbind option_bind]. destruct (base58_canonical _ _ E) as [HB HE]. intros H.
  destruct raw as [|c0 [|c1 key]]; [done..|]. apply Forall_cons in HB as [_ HB]. apply Forall_cons in HB as [_ HB].
  destruct (Nat.eqb (length key) 0); [done|].
  destruct ((c0 =? multicodecEd25519Hi) && (c1 =? multicodecEd25519Lo)) eqn:E1.
  { apply andb_true_iff in E1 as [->%Z.eqb_eq ->%Z.eqb_eq]. destruct (negb _); [done|]. injection H as <-. cbn [EncodeMultibase].
    rewrite bytes_of_string, HE by done. by rewrite <-He. }
  destruct ((c0 =? multicodecP256Hi) && (c1 =? multicodecP256Lo)) eqn:E2; [|done]. apply andb_true_iff in E2 as [->%Z.eqb_eq ->%Z.eqb_eq].
  destruct (negb _); [done|]. destruct (UnmarshalCompressed key) as [[x y]|] eqn:EU; [|done]. cbn [mbind option_bind] in H.
  destruct (UnmarshalCompressed_inv key x y HB EU) as [HC ->]. destruct (on_curve_range x y HC) as [Hx Hy].
  destruct (FillBytes32_spec x Hx) as (_ & _ & Vx). destruct (FillBytes32_spec y Hy) as (_ & _ & Vy). rewrite Vx, Vy in H. unfold parse_point in H. rewrite HC in H.
  injection H as <-. unfold EncodeMultibase, p256Coordinates. rewrite p256_point_key. cbn [mbind option_bind pub_X pub_Y]. by rewrite Vx, Vy, HE, <-He.
Qed.

Lemma multibase_Ed25519 k : String.length k = 32%nat -> exists e, EncodeMultibase (Ed25519Key k) = Some e /\ DecodeMultibase e = Some (Ed25519Key k).
Proof.
  intros Hk. eexists. split; [reflexivity|]. unfold DecodeMultibase. rewrite HasPrefix_app. change (str_drop 1 ("z" +:+ ?x)) with x.
  rewrite base58_roundtrip; [|repeat constructor; try (vm_compute; done); clear; induction k as [|c k IH]; constructor; [apply byteZ_range|done]|done].
  assert (length (bytes_of k) = 32%nat) as HL by (by rewrite <-length_string_of_bytes, string_of_bytes_of). cbn [negb mbind option_bind].
  rewrite HL. cbn -[bytes_of]. by rewrite string_of_bytes_of.
Qed.

(** A [did:key] identifier is its key.  Decoding an identifier gives a key whose
    multibase form is the identifier's own, so two identifiers of the same key
    are equal: nobody can prove the same key under a second name.  The
    verification method is the identifier with its own key as fragment, and
    every Ed25519 key has an identifier that decodes to it. *)
Theorem did_key_one_name did pub vm :
  DecodeDIDKey did = Some (pub, vm) ->
  (exists msid, did = "did:key:" +:+ msid /\ EncodeMultibase pub = Some msid /\ vm = did +:+ "#" +:+ msid) /\
  (forall did' vm', DecodeDIDKey did' = Some (pub, vm') -> did' = did /\ vm' = vm) /\
  (forall k, String.length k = ed25519_PublicKeySize -> exists msid, DecodeDIDKey ("did:key:" +:+ msid) = Some (Ed25519Key k, "did:key:" +:+ msid +:+ "#" +:+ msid)).
Proof.
  assert (forall did vm, DecodeDIDKey did = Some (pub, vm) -> exists msid, did = "did:key:" +:+ msid /\ EncodeMultibase pub = Some msid /\ vm = did +:+ "#" +:+ msid) as HD.
  { clear did vm. intros did vm. unfold DecodeDIDKey, TrimPrefix. destruct (HasPrefix did "did:key:") eqn:Ep; [|done]. cbn [negb]. case_if; [done|].
    destruct (DecodeMultibase _) as [k|] eqn:E; [|done]. cbn [mbind option_bind]. intros [= -> <-]. exists (str_drop 8 did).
    split; [by apply HasPrefix_split|]. split; [by apply multibase_canonical|done]. }
  intros H. destruct (HD _ _ H) as (msid & E1 & E2 & E3). split; [by exists msid|]. split.
  - intros did' vm' H'. destruct (HD _ _ H') as (msid' & F1 & F2 & F3). rewrite E2 in F2. injection F2 as <-. subst. done.
  - intros k Hk. destruct (multibase_Ed25519 k Hk) as (e & He & Hd). exists e. unfold DecodeDIDKey. rewrite HasPrefix_app. cbn [negb]. unfold TrimPrefix. rewrite HasPrefix_app.
    change (str_drop _ ("did:key:" +:+ e)) with e. injection He as <-. rewrite Hd. cbn [mbind option_bind]. cbn [String.app String.eqb].
    do 2 f_equal.
Qed.

(** Keys that [PublicKeyToJWK] is given: of the supported types and strength. *)
Definition key_sound (pub : public_key) : Prop :=
  match pub with
  | EcdsaKey k => exists P, p256_point k = Some P /\ on_curve (pub_X P) (pub_Y P) = true
  | RsaKey k => 0 <= rsa_N k /\ CheckKeyStrength pub = true /\ 0 < rsa_E k < 2 ^ 63
  | Ed25519Key k => String.length k = ed25519_PublicKeySize
  | OtherKey => False
  end.

Lemma SetBytes_value l : Forall is_byte l -> SetBytes (string_of_bytes l) = be_value l.
Proof. intros H. unfold SetBytes, be_value. by rewrite bytes_of_string. Qed.

Lemma dec_jwk_RSA e n : dec_jwk (marshalJWK [("e", e); ("kty", "RSA"); ("n", n)]) zero_jwk =
  Some {| jf_Kty := "RSA"; jf_Crv := ""; jf_X := ""; jf_Y := ""; jf_N := n; jf_E := e |}.
Proof. reflexivity. Qed.

Lemma dec_jwk_EC x y : dec_jwk (marshalJWK [("crv", "P-256"); ("kty", "EC"); ("x", x); ("y", y)]) zero_jwk =
  Some {| jf_Kty := "EC"; jf_Crv := "P-256"; jf_X := x; jf_Y := y; jf_N := ""; jf_E := "" |}.
Proof. reflexivity. Qed.

Lemma dec_jwk_OKP x : dec_jwk (marshalJWK [("crv", "Ed25519"); ("kty", "OKP"); ("x", x)]) zero_jwk =
  Some {| jf_Kty := "OKP"; jf_Crv := "Ed25519"; jf_X := x; jf_Y := ""; jf_N := ""; jf_E := "" |}.
Proof. reflexivity. Qed.

Lemma ParseJWK_RSA k : key_sound (RsaKey k) -> exists j, PublicKeyToJWK (RsaKey k) = Some j /\ ParseJWK j = Some (RsaKey k).
Proof.
  intros (Hn & Hs & He). eexists. split; [reflexivity|]. unfold ParseJWK. rewrite dec_jwk_RSA. cbn [mbind option_bind jf_Kty String.eqb Ascii.eqb Bool.eqb].
  unfold parseRSAJWK, b64_bytes. cbn [jf_N jf_E]. rewrite !b64_roundtrip. cbn [mbind option_bind].
  destruct (Int_Bytes_spec (rsa_N k)) as (VN & FN & _); [lia|]. destruct (Int_Bytes_spec (rsa_E k)) as (VE & FE & _); [lia|].
  rewrite !SetBytes_value, VN, VE, length_string_of_bytes by done.
  assert (Int64 (rsa_E k) = rsa_E k) as ->. { unfold Int64. rewrite Z.mod_small by lia. lia. }
  assert ((length (Int_Bytes (rsa_E k)) <= 8)%nat) as HL. { apply Int_Bytes_length. change (256 ^ Z.of_nat 8) with (2 ^ 64). lia. }
  rewrite rsa_parts_make, Hs.
  assert (String.eqb (string_of_bytes (Int_Bytes (rsa_N k))) "" = false) as ->.
  { destruct (Int_Bytes (rsa_N k)) eqn:EN; [|done]. exfalso. cbn in Hs, VN. rewrite <-VN in Hs. done. }
  assert (String.eqb (string_of_bytes (Int_Bytes (rsa_E k))) "" = false) as ->. { destruct (Int_Bytes (rsa_E k)) eqn:EN; [|done]. cbn in VE. lia. }
  destruct (Nat.ltb_spec 8 (length (Int_Bytes (rsa_E k)))); [lia|done].
Qed.

(** A key written as a JSON Web Key is read back as the same key. *)
Theorem jwk_roundtrip pub : key_sound pub -> exists j, PublicKeyToJWK pub = Some j /\ ParseJWK j = Some pub.
Proof.
  destruct pub as [k|k|k|]; intros Hk; [| by apply ParseJWK_RSA| |done].
  - destruct Hk as (P & HP & HC). destruct (on_curve_range _ _ HC) as [Hx Hy]. eexists. cbn [PublicKeyToJWK]. unfold p256Coordinates. rewrite HP.
    cbn [mbind option_bind]. split; [reflexivity|]. unfold ParseJWK. rewrite dec_jwk_EC. cbn [mbind option_bind jf_Kty String.eqb Ascii.eqb Bool.eqb].
    destruct (FillBytes32_spec _ Hx) as (Lx & Fx & Vx). destruct (FillBytes32_spec _ Hy) as (Ly & Fy & Vy).
    unfold parseECJWK, b64_bytes. cbn [jf_Crv jf_X jf_Y String.eqb Ascii.eqb Bool.eqb negb]. rewrite !b64_roundtrip. cbn [mbind option_bind].
    rewrite !length_string_of_bytes, Lx, Ly, !SetBytes_value, Vx, Vy by done. cbn [Nat.eqb negb orb]. unfold parse_point. rewrite HC. cbn [mbind option_bind].
    do 2 f_equal. apply p256_key_point. rewrite HP. by destruct P.
  - eexists. split; [reflexivity|]. unfold ParseJWK. rewrite dec_jwk_OKP. cbn [mbind option_bind jf_Kty String.eqb Ascii.eqb Bool.eqb].
    unfold parseOKPJWK. cbn [jf_Crv jf_X String.eqb Ascii.eqb Bool.eqb].
    rewrite b64_roundtrip. cbn [mbind option_bind]. cbn in Hk. by rewrite Hk.
Qed.
End Names.

(** ** A concrete key *)

#[local] Instance demo_sigs : SigSchemes :=
  {| ecdsa_key := P256.PublicKey; rsa_key := Z * Z; CoordinateBytes := fun _ => 32; ecdsa_verify := ecdsa_Verify;
     rsaVerifyPKCS1v15 := fun _ _ _ => false; ed25519_verify := fun _ _ _ => false |}.

#[local] Instance demo_std : StdKeys :=
  {| p256_key := fun k => k : ecdsa_key; p256_point := fun k => Some (k : P256.PublicKey); rsa_make := fun n e => (n, e) : rsa_key;
     rsa_N := fun k => k.1; rsa_E := fun k => k.2 |}.

#[local] Instance demo_std_laws : StdKeysLaws demo_std.
Proof. split; [done|by intros k P [= ->]|done|by intros []]. Qed.

(** The P-256 example of the did:key specification. *)
Definition demo_did : string := "did:key:zDnaerDaTF5BXEavCrfRZEk316dpbLsfPDZ3WJ5hRTPFU2169".

Lemma demo_did_key : exists pub vm, DecodeDIDKey demo_did = Some (pub, vm).
Proof.
  assert (match DecodeDIDKey demo_did with Some _ => true | None => false end = true) as H by (vm_compute; reflexivity).
  destruct (DecodeDIDKey demo_did) as [[pub vm]|]; [by exists pub, vm|done].
Qed.

Lemma did_key_one_name_witness :
  exists pub, EncodeMultibase pub = Some "zDnaerDaTF5BXEavCrfRZEk316dpbLsfPDZ3WJ5hRTPFU2169".
Proof.
  destruct demo_did_key as (pub & vm & H). destruct (did_key_one_name demo_did pub vm H) as ((msid & E & HE & _) & _). exists pub. rewrite HE. f_equal.
  apply (f_equal (str_drop 8)) in E. by vm_compute in E.
Defined.
