(* ===== verification/RaIdentity.v ===== *)
(** The identity service of the registration authority: [identity.go],
    [identitykinds.go], [leiverifier.go] and [identityratelimit.go] of
    [internal/ra/service], over the tables of
    [internal/adapter/store/sqlite/identity.go].

    Methods are handlers in the sense of [Concurrent], like those of the
    registration service, in whose process they run: the world is that service's
    world, the two identity tables, the two rate limiters and the calls the
    identity service made.  A statement or a [uow.Run] is one step, and so is a
    call to a resolver, a verifier or the log.  What these answer, the clock and
    fresh values are the [IdPorts] of a call; the log lines are left out. *)
From stdpp Require Import gmap.
From S2P Require Import Prelude GoStrings GoTime GoURL GoEncoding DomainErrors Lifecycle Discovery Identity GoJSON Jcs Sha256 RaEvents TlEnvelope Jws P256 Jwk.
From S2P Require Import Outbox Concurrent RaStore RaService.

#[local] Set Default Goal Selector "!".
#[local] Open Scope Z_scope.

(** ** The tables *)

Record identityRow := {
  id_identity_id : string;
  id_provider_id : string;
  id_kind : string;
  id_value : string;
  id_status : string;
  id_proof_method : string;
  id_pending_value : string;
  id_subject_aid : option string;
  id_pending_subject_aid : option string;
  id_nonce : option string;
  id_expires_ms : option Z;
  id_consumed_ms : option Z;
  id_claimed_ms : option Z;
  id_verified_ms : option Z;
  id_created_ms : Z;
  id_updated_ms : Z
}.

Record linkRow := {
  lk_id : Z;
  lk_identity_id : string;
  lk_agent_id : string;
  lk_status : string;
  lk_linked_ms : option Z;
  lk_created_ms : Z;
  lk_updated_ms : Z
}.

Record IdDB := { t_identities : list identityRow; t_ilinks : list linkRow; t_ilinks_seq : Z }.

Definition empty_iddb : IdDB := {| t_identities := []; t_ilinks := []; t_ilinks_seq := 0 |}.

Definition set_identities (d : IdDB) (rows : list identityRow) : IdDB :=
  {| t_identities := rows; t_ilinks := t_ilinks d; t_ilinks_seq := t_ilinks_seq d |}.
Definition set_ilinks (d : IdDB) (rows : list linkRow) (seq : Z) : IdDB :=
  {| t_identities := t_identities d; t_ilinks := rows; t_ilinks_seq := seq |}.

(** A statement reads the agents' table for the foreign keys. *)
Definition itx (A : Type) : Type := DB -> IdDB -> result serr (A * IdDB).

#[export] Instance itx_ret : MRet itx := fun A a _ d => Ok (a, d).
#[export] Instance itx_bind : MBind itx := fun A B f m ra d =>
  match m ra d with Ok (a, d') => f a ra d' | Err e => Err e end.

Definition ithrow {A} (e : serr) : itx A := fun _ _ => Err e.
Definition ireads {A} (f : IdDB -> A) : itx A := fun _ d => Ok (f d, d).

Fixpoint itx_for {A} (l : list A) (body : A -> itx unit) : itx unit :=
  match l with [] => mret tt | x :: l' => body x ≫= fun _ => itx_for l' body end.

(** ** [IdentityStore] *)

Definition identity_toDomain (r : identityRow) : VerifiedIdentity :=
  {| vi_IdentityID := id_identity_id r; vi_ProviderID := id_provider_id r; vi_Kind := id_kind r; vi_Value := id_value r;
     vi_Status := id_status r; vi_ProofMethod := id_proof_method r; vi_PendingValue := id_pending_value r;
     vi_SubjectAID := null_string (id_subject_aid r); vi_PendingSubjectAID := null_string (id_pending_subject_aid r);
     vi_Challenge := match id_nonce r with
                     | Some nonce => if String.eqb nonce "" then None else
                         Some {| ic_Nonce := nonce; Identity.ic_ExpiresAt := null_time (id_expires_ms r); ic_ConsumedAt := msToTime <$> id_consumed_ms r |}
                     | None => None
                     end;
     vi_VerifiedAt := null_time (id_verified_ms r); vi_CreatedAt := msToTime (id_created_ms r); vi_UpdatedAt := msToTime (id_updated_ms r) |}.

Definition with_identity (id : string) (r : identityRow) : bool := String.eqb (id_identity_id r) id.

Definition identity_row (d : IdDB) (id : string) : option identityRow := find_first (with_identity id) (t_identities d).

(** The columns of an aggregate; an existing row keeps its owner, kind and
    creation time, and loses its claim. *)
Definition identity_of (v : VerifiedIdentity) (provider kind : string) (created : Z) : identityRow :=
  {| id_identity_id := vi_IdentityID v; id_provider_id := provider; id_kind := kind; id_value := vi_Value v; id_status := vi_Status v;
     id_proof_method := vi_ProofMethod v; id_pending_value := vi_PendingValue v;
     id_subject_aid := nullableString (vi_SubjectAID v); id_pending_subject_aid := nullableString (vi_PendingSubjectAID v);
     id_nonce := ic_Nonce <$> vi_Challenge v; id_expires_ms := vi_Challenge v ≫= fun c => nullableMs (Identity.ic_ExpiresAt c);
     id_consumed_ms := vi_Challenge v ≫= fun c => Time_UnixMilli <$> ic_ConsumedAt c; id_claimed_ms := None;
     id_verified_ms := nullableMs (vi_VerifiedAt v); id_created_ms := created; id_updated_ms := Time_UnixMilli (vi_UpdatedAt v) |}.

Definition status_checked (s : string) : bool := one_of s [IdentityPendingControl; IdentityVerified; IdentityRevoked].

(** The partial unique indexes [idx_identities_live] and
    [idx_identities_proven]. *)
Definition live_key (a b : identityRow) : bool :=
  String.eqb (id_provider_id a) (id_provider_id b) && String.eqb (id_kind a) (id_kind b) && String.eqb (id_value a) (id_value b) &&
  negb (String.eqb (id_status a) IdentityRevoked) && negb (String.eqb (id_status b) IdentityRevoked).

Definition proven_key (a b : identityRow) : bool :=
  String.eqb (id_kind a) (id_kind b) && String.eqb (id_value a) (id_value b) &&
  String.eqb (id_status a) IdentityVerified && String.eqb (id_status b) IdentityVerified.

Definition index_conflict (r : identityRow) (rows : list identityRow) : bool :=
  existsb (fun b => negb (with_identity (id_identity_id r) b) && (live_key r b || proven_key r b)) rows.

Definition IdentityStore_Save (v : VerifiedIdentity) : itx unit := fun _ d =>
  let row := match identity_row d (vi_IdentityID v) with
             | Some old => identity_of v (id_provider_id old) (id_kind old) (id_created_ms old)
             | None => identity_of v (vi_ProviderID v) (vi_Kind v) (Time_UnixMilli (vi_CreatedAt v))
             end in
  if negb (status_checked (vi_Status v)) then Err (Other "CHECK constraint failed: status") else
  if index_conflict row (t_identities d) then Err ALREADY_EXISTS else
  Ok (tt, set_identities d
    match identity_row d (vi_IdentityID v) with
    | Some _ => (fun r => if with_identity (vi_IdentityID v) r then row else r) <$> t_identities d
    | None => t_identities d ++ [row]
    end).

Definition IdentityStore_FindByID (id : string) : itx VerifiedIdentity := fun _ d =>
  r ← one_row (identity_row d id); Ok (identity_toDomain r, d).

Definition FindLive (provider kind value : string) : itx VerifiedIdentity := fun _ d =>
  r ← one_row (find_first (fun r => String.eqb (id_provider_id r) provider && String.eqb (id_kind r) kind && String.eqb (id_value r) value &&
                                    negb (String.eqb (id_status r) IdentityRevoked)) (t_identities d));
  Ok (identity_toDomain r, d).

Definition ExistsVerified (kind value : string) : itx bool :=
  ireads (fun d => existsb (fun r => String.eqb (id_kind r) kind && String.eqb (id_value r) value && String.eqb (id_status r) IdentityVerified)
                     (t_identities d)).

(** An [UPDATE] with its condition; the answer is whether one row changed. *)
Definition update_identity (cond : identityRow -> bool) (f : identityRow -> identityRow) (d : IdDB) : bool * IdDB :=
  ((length (filter (fun r => cond r = true) (t_identities d)) =? 1)%nat,
   set_identities d ((fun r => if cond r then f r else r) <$> t_identities d)).

(** Replace the challenge columns. *)
Definition upd_challenge (r : identityRow) (pending : string) (pendingAID nonce : option string) (expires consumed claimed : option Z) (updated : Z) : identityRow :=
  {| id_identity_id := id_identity_id r; id_provider_id := id_provider_id r; id_kind := id_kind r; id_value := id_value r; id_status := id_status r;
     id_proof_method := id_proof_method r; id_pending_value := pending; id_subject_aid := id_subject_aid r; id_pending_subject_aid := pendingAID;
     id_nonce := nonce; id_expires_ms := expires; id_consumed_ms := consumed; id_claimed_ms := claimed; id_verified_ms := id_verified_ms r;
     id_created_ms := id_created_ms r; id_updated_ms := updated |}.

(** [column = ?], [column > ?] and [column < ?] are false of NULL. *)
Definition sql_eq (c : option string) (s : string) : bool := match c with Some x => String.eqb x s | None => false end.
Definition sql_gt (c : option Z) (z : Z) : bool := match c with Some x => z <? x | None => false end.
Definition sql_lt (c : option Z) (z : Z) : bool := match c with Some x => x <? z | None => false end.

(** The nonce is the row's, unconsumed. *)
Definition open_nonce (id nonce : string) (r : identityRow) : bool :=
  with_identity id r && sql_eq (id_nonce r) nonce && is_null (id_consumed_ms r).

Definition consumable (id nonce : string) (ms : Z) (r : identityRow) : bool := open_nonce id nonce r && sql_gt (id_expires_ms r) ms.

Definition consume_row (ms : Z) (r : identityRow) : identityRow :=
  upd_challenge r (id_pending_value r) (id_pending_subject_aid r) (id_nonce r) (id_expires_ms r) (Some ms) (id_claimed_ms r) ms.

Definition ConsumeChallenge (id nonce : string) (now : Time) : itx unit := fun _ d =>
  let '(one, d') := update_identity (consumable id nonce (Time_UnixMilli now)) (consume_row (Time_UnixMilli now)) d in
  if one then Ok (tt, d') else Err (Dom (NewInvalidStateError "PRICC_TOKEN_ALREADY_USED")).

Definition ClaimChallenge (id nonce : string) (now staleBefore : Time) : itx unit := fun _ d =>
  let ms := Time_UnixMilli now in
  let '(one, d') := update_identity
    (fun r => open_nonce id nonce r && sql_gt (id_expires_ms r) ms && (is_null (id_claimed_ms r) || sql_lt (id_claimed_ms r) (Time_UnixMilli staleBefore)))
    (fun r => upd_challenge r (id_pending_value r) (id_pending_subject_aid r) (id_nonce r) (id_expires_ms r) (id_consumed_ms r) (Some ms) ms) d in
  if one then Ok (tt, d') else Err (Dom (NewInvalidStateError "VERIFICATION_IN_FLIGHT")).

Definition ReleaseChallenge (id nonce : string) : itx unit := fun _ d =>
  Ok (tt, (update_identity (open_nonce id nonce)
    (fun r => upd_challenge r (id_pending_value r) (id_pending_subject_aid r) (id_nonce r) (id_expires_ms r) (id_consumed_ms r) None (id_updated_ms r)) d).2).

(** The [UPDATE] of [StageChallenge]. *)
Definition StageChallenge_update (v : VerifiedIdentity) (c : IdentityChallenge) (expectedStatus expectedNonce : string) (staleBefore : Time) : itx bool := fun _ d =>
  Ok (update_identity
    (fun r => with_identity (vi_IdentityID v) r && String.eqb (id_status r) expectedStatus &&
              (sql_eq (id_nonce r) expectedNonce || (is_null (id_nonce r) && String.eqb expectedNonce "")) &&
              (is_null (id_claimed_ms r) || sql_lt (id_claimed_ms r) (Time_UnixMilli staleBefore)))
    (fun r => upd_challenge r (vi_PendingValue v) (nullableString (vi_PendingSubjectAID v)) (Some (ic_Nonce c)) (nullableMs (Identity.ic_ExpiresAt c)) None None
                (Time_UnixMilli (vi_UpdatedAt v))) d).

(** Why the condition failed, from the row as it is now. *)
Definition stage_refusal (current : VerifiedIdentity) (expectedStatus : string) : Error :=
  if String.eqb (vi_Status current) IdentityRevoked then NewInvalidStateError "IDENTITY_REVOKED" else
  if String.eqb (vi_Status current) IdentityVerified && negb (String.eqb expectedStatus IdentityVerified) then NewConflictError "IDENTIFIER_DUPLICATE" else
  NewConflictError "VERIFICATION_IN_FLIGHT".

Definition revoke_row (ms : Z) (r : identityRow) : identityRow :=
  {| id_identity_id := id_identity_id r; id_provider_id := id_provider_id r; id_kind := id_kind r; id_value := id_value r; id_status := IdentityRevoked;
     id_proof_method := id_proof_method r; id_pending_value := ""; id_subject_aid := id_subject_aid r; id_pending_subject_aid := None;
     id_nonce := None; id_expires_ms := None; id_consumed_ms := None; id_claimed_ms := None; id_verified_ms := id_verified_ms r;
     id_created_ms := id_created_ms r; id_updated_ms := ms |}.

Definition MarkRevoked (id : string) (now : Time) : itx unit := fun _ d =>
  let '(one, d') := update_identity (fun r => with_identity id r && String.eqb (id_status r) IdentityVerified) (revoke_row (Time_UnixMilli now)) d in
  if one then Ok (tt, d') else Err (Dom (NewConflictError "IDENTITY_CONCURRENTLY_MODIFIED")).

(** [WHERE provider_id = ? AND identity_id < ? ORDER BY identity_id DESC]; the
    ids are unique. *)
Fixpoint insert_desc (r : identityRow) (l : list identityRow) : list identityRow :=
  match l with
  | [] => [r]
  | b :: l' => if String.ltb (id_identity_id b) (id_identity_id r) then r :: l else b :: insert_desc r l'
  end.

Record CursorPage := { cp_Items : list VerifiedIdentity; cp_HasMore : bool; cp_NextCursor : string }.

Definition ListByOwner (provider : string) (limit : Z) (cursor : string) : itx CursorPage := fun _ d =>
  let limit := if limit <=? 0 then 20 else limit in
  let limit := if 100 <? limit then 100 else limit in
  below ← (if String.eqb cursor "" then Ok (fun _ : identityRow => true) else
           match b64_DecodeString cursor with
           | None => Err (Dom (NewValidationError "INVALID_CURSOR"))
           | Some raw => Ok (fun r => String.ltb (id_identity_id r) raw)
           end);
  let rows := foldr insert_desc [] (filter (fun r => String.eqb (id_provider_id r) provider && below r = true) (t_identities d)) in
  let hasMore := Nat.ltb (Z.to_nat limit) (length (take (Z.to_nat (limit + 1)) rows)) in
  let out := identity_toDomain <$> take (Z.to_nat limit) rows in
  Ok ({| cp_Items := out; cp_HasMore := hasMore;
         cp_NextCursor := match hasMore, last out with true, Some v => b64_EncodeToString (vi_IdentityID v) | _, _ => "" end |}, d).

(** ** [IdentityLinkStore] *)

Definition link_live (id agentID : string) (l : linkRow) : bool :=
  String.eqb (lk_identity_id l) id && String.eqb (lk_agent_id l) agentID && String.eqb (lk_status l) LinkLinked.

Definition LinkStore_Link (id agentID : string) (now : Time) : itx bool := fun ra d =>
  if existsb (link_live id agentID) (t_ilinks d) then Ok (false, d) else
  if negb (existsb (with_identity id) (t_identities d) && agent_exists ra agentID) then Err FOREIGN_KEY else
  let ms := Time_UnixMilli now in
  let n := t_ilinks_seq d + 1 in
  Ok (true, set_ilinks d (t_ilinks d ++ [{| lk_id := n; lk_identity_id := id; lk_agent_id := agentID; lk_status := LinkLinked; lk_linked_ms := Some ms;
                                            lk_created_ms := ms; lk_updated_ms := ms |}]) n).

Definition unlink_row (ms : Z) (l : linkRow) : linkRow :=
  {| lk_id := lk_id l; lk_identity_id := lk_identity_id l; lk_agent_id := lk_agent_id l; lk_status := LinkUnlinked; lk_linked_ms := lk_linked_ms l;
     lk_created_ms := lk_created_ms l; lk_updated_ms := ms |}.

Definition LinkStore_Unlink (id agentID : string) (now : Time) : itx unit := fun _ d =>
  let cond := link_live id agentID in
  if (length (filter (fun l => cond l = true) (t_ilinks d)) =? 1)%nat
  then Ok (tt, set_ilinks d ((fun l => if cond l then unlink_row (Time_UnixMilli now) l else l) <$> t_ilinks d) (t_ilinks_seq d))
  else Err (Dom (NewNotFoundError "LINK_NOT_FOUND")).

Definition link_toDomain (l : linkRow) : IdentityLink :=
  {| il_IdentityID := lk_identity_id l; il_AgentID := lk_agent_id l; il_Status := lk_status l; il_LinkedAt := null_time (lk_linked_ms l);
     il_CreatedAt := msToTime (lk_created_ms l); il_UpdatedAt := msToTime (lk_updated_ms l) |}.

(** [ORDER BY linked_at_ms DESC, id DESC]. *)
Definition later_link (a b : linkRow) : bool :=
  let m l := default (-1) (lk_linked_ms l) in (m b <? m a) || ((m a =? m b) && (lk_id b <? lk_id a)).

Fixpoint insert_link (r : linkRow) (l : list linkRow) : list linkRow :=
  match l with [] => [r] | b :: l' => if later_link b r then b :: insert_link r l' else r :: l end.

Definition listLive (where_ : linkRow -> bool) : itx (list IdentityLink) :=
  ireads (fun d => link_toDomain <$> foldr insert_link [] (filter (fun l => where_ l && String.eqb (lk_status l) LinkLinked = true) (t_ilinks d))).

Definition ListLiveByIdentity (id : string) : itx (list IdentityLink) := listLive (fun l => String.eqb (lk_identity_id l) id).
Definition ListLiveByAgent (agentID : string) : itx (list IdentityLink) := listLive (fun l => String.eqb (lk_agent_id l) agentID).

(** ** Rate limiting *)

Record ownerWindow := { ow_start : Time; ow_count : Z }.
Notation ownerLimiter := (gmap string ownerWindow).

Definition prune (l : ownerLimiter) (now : Time) : ownerLimiter :=
  filter (fun kw => Time_Sub now (ow_start kw.2) < 2 * Minute) l.

Definition Allow (perMinute : Z) (l : ownerLimiter) (owner : string) (now : Time) : bool * ownerLimiter :=
  let fresh := (true, <[owner := {| ow_start := now; ow_count := 1 |}]> (prune l now)) in
  match l !! owner with
  | None => fresh
  | Some w =>
      if Minute <=? Time_Sub now (ow_start w) then fresh else
      if perMinute <=? ow_count w then (false, l) else
      (true, <[owner := {| ow_start := ow_start w; ow_count := ow_count w + 1 |}]> l)
  end.

(** ** Ports *)

Record KeyHint := { kh_Kid : string; kh_PublicKeyJWK : option json }.

Record VerificationMethod := {
  vm_ID : string; vm_Controller : string; vm_Type : string; vm_PublicKeyJwk : option json; vm_PublicKeyMultibase : string; vm_Raw : option json
}.

Record DIDDocument := { doc_ID : string; doc_AssertionMethod : list VerificationMethod }.

Definition FindAssertionMethod (d : DIDDocument) (kid : string) : option VerificationMethod :=
  find_first (fun vm => String.eqb (vm_ID vm) kid) (doc_AssertionMethod d).

Record PresentationResult := { pr_SubjectAID : string; pr_LEI : string; pr_Status : string }.
Record AuthorizationResult := { au_Authorized : bool; au_LEI : string }.

Record LEIControlVerifier := {
  lei_Present : string -> result serr PresentationResult;
  lei_Authorization : string -> result serr AuthorizationResult;
  lei_VerifySignature : string -> string -> string -> result serr bool
}.

(** Calls to other systems; of a call that failed only the failure is kept. *)
Inductive id_effect :=
| IResolve (did : string) (hints : list KeyHint) (doc : option DIDDocument)
| IPresent (cesr : string) (res : option PresentationResult)
| IAuthorization (aid : string) (res : option AuthorizationResult)
| IVerifySignature (aid signingInput signature : string) (ok : bool)
| ISeal (ev : IdentityEvent) (canonical signature : string) (acknowledged : bool).

Record IWorld := {
  iw_ra : World;
  iw_db : IdDB;
  iw_limiter : ownerLimiter;
  iw_linkLimiter : ownerLimiter;
  iw_log : list id_effect
}.

Record IdEventSigner `{S : SigSchemes} := { is_KeyManager : KeyManager; is_KeyID : string; is_RaID : string }.

Record IdPorts `{S : SigSchemes} := {
  ip_clock : Time;                 (* the clock given to a limiter *)
  ip_now : Time;                   (* [s.clock().UTC()] *)
  ip_newID : option string;
  ip_newNonce : option string;
  ip_Resolve : string -> list KeyHint -> result serr DIDDocument;
  ip_leiCtl : option LEIControlVerifier;
  ip_sealer : option (string -> string -> result serr unit);
  ip_signer : option IdEventSigner;
  ip_challengeTTL : Duration;
  ip_registerPerMinute : Z;
  ip_linkPerMinute : Z
}.

Record ProofSubmission := { ps_SignedProofs : list string; ps_CESRSignature : string }.

Definition validateExactlyOneFamily (s : ProofSubmission) : result Error unit :=
  let hasJWS := Nat.ltb 0 (length (ps_SignedProofs s)) in
  let hasCESR := negb (String.eqb (ps_CESRSignature s) "") in
  if Bool.eqb hasJWS hasCESR then Err (NewValidationError "IDENTIFIER_PROOF_INVALID") else Ok tt.

Record ProofChallenge := { pc_Kid : string; pc_SigningInput : string }.

Record IdentityChallengeResponse := {
  cr_Identity : VerifiedIdentity; cr_Nonce : string; cr_ExpiresAt : Time; cr_Challenges : list ProofChallenge; cr_PresentationStatus : string
}.

(** ** Handlers *)

Definition isvc (A : Type) : Type := prog IWorld (result serr A).

#[export] Instance isvc_ret : MRet isvc := fun A a => Ret (Ok a).
#[export] Instance isvc_bind : MBind isvc := fun A B f m =>
  prog_bind m (fun r => match r with Ok a => f a | Err e => Ret (Err e) end).

Definition ifail {A} (e : Error) : isvc A := Ret (Err (Dom e)).
Definition ilift {A} (r : result serr A) : isvc A := Ret r.

Definition with_iddb (w : IWorld) (d : IdDB) : IWorld :=
  {| iw_ra := iw_ra w; iw_db := d; iw_limiter := iw_limiter w; iw_linkLimiter := iw_linkLimiter w; iw_log := iw_log w |}.
Definition with_ilog (w : IWorld) (e : id_effect) : IWorld :=
  {| iw_ra := iw_ra w; iw_db := iw_db w; iw_limiter := iw_limiter w; iw_linkLimiter := iw_linkLimiter w; iw_log := iw_log w ++ [e] |}.

(** A statement, or a transaction. *)
Definition iatomic {A} (t : itx A) : isvc A :=
  Step (fun w => match t (w_db (iw_ra w)) (iw_db w) with Ok (a, d) => (Ok a, with_iddb w d) | Err e => (Err e, w) end) Ret.

(** A read of the agents' tables. *)
Definition on_agents {A} (t : tx A) : isvc A :=
  Step (fun w => (match t (w_db (iw_ra w)) with Ok (a, _) => Ok a | Err e => Err e end, w)) Ret.

Definition icall {A} (e : id_effect) (answer : result serr A) : isvc A := Step (fun w => (answer, with_ilog w e)) Ret.

Definition iattempt {A} (m : isvc A) : isvc (result serr A) := prog_map Ok m.

Definition answered {A} (r : result serr A) : option A := match r with Ok a => Some a | Err _ => None end.

Fixpoint isvc_for {A} (l : list A) (body : A -> isvc unit) : isvc unit :=
  match l with [] => mret tt | x :: l' => body x ≫= fun _ => isvc_for l' body end.

Definition RATE_LIMITED : Error := NewValidationError "RATE_LIMITED".

(** ** Proofs of control *)

Definition maxProofsPerVerify : nat := 16.
Definition maxLinkBatch : nat := 256.
Definition sealClaimTTL : Duration := 30 * Second.

Definition proof_invalid : Error := NewValidationError "IDENTIFIER_PROOF_INVALID".
Definition signature_invalid : Error := NewValidationError "PRICC_SIGNATURE_INVALID".
Definition method_invalid : Error := NewValidationError "DID_VERIFICATION_METHOD_INVALID".

Record jwsProof := { jp_jws : string; jp_header : JWSProtectedHeader }.

Definition hint_of (p : jwsProof) : KeyHint := {| kh_Kid := h_Kid (jp_header p); kh_PublicKeyJWK := h_Jwk (jp_header p) |}.

Fixpoint parse_each (signingInput : string) (seen : list string) (proofs : list string) : result Error (list jwsProof) :=
  match proofs with
  | [] => Ok []
  | jws :: rest =>
      match DecodeStandardJWS jws with
      | Err _ => Err proof_invalid
      | Ok (header, payloadSeg) =>
          if negb (String.eqb payloadSeg signingInput) then Err signature_invalid else
          if String.eqb (h_Kid header) "" then Err method_invalid else
          if one_of (h_Kid header) seen then Err proof_invalid else
          l ← parse_each signingInput (h_Kid header :: seen) rest; Ok ({| jp_jws := jws; jp_header := header |} :: l)
      end
  end.

Definition parseJWSProofs (sub : ProofSubmission) (signingInput : string) : result Error (list jwsProof) :=
  if Nat.eqb (length (ps_SignedProofs sub)) 0 then Err proof_invalid else
  if Nat.ltb maxProofsPerVerify (length (ps_SignedProofs sub)) then Err proof_invalid else
  parse_each signingInput [] (ps_SignedProofs sub).

(** A JSON object of strings, as [json.Marshal] writes a map. *)
Definition string_object (members : list (string * string)) : json := JObj (prod_map id JStr <$> members).

Definition agentLinkable (status : string) : bool := String.eqb status StatusActive || String.eqb status StatusDeprecated.

Section Service.
Context `{U : UnicodeTables} `{F : CaseOrbits} `{S : SigSchemes} `{SK : !StdKeys} `{J : JCS}.

Fixpoint sealJWSProofs (selectKey : string -> result Error (public_key * option json)) (parsed : list jwsProof) : result Error (list ProvenKey) :=
  match parsed with
  | [] => Ok []
  | p :: rest =>
      '(pub, sealVM) ← selectKey (h_Kid (jp_header p));
      match VerifyStandardJWSWithPublicKey pub (jp_jws p) with
      | Err _ => Err signature_invalid
      | Ok _ => l ← sealJWSProofs selectKey rest; Ok ({| pk_VerificationMethod := sealVM; pk_SignedProof := jp_jws p |} :: l)
      end
  end.

Definition or_error {A} (e : Error) (o : option A) : result Error A := match o with Some a => Ok a | None => Err e end.

(** The key of a DID document a proof names. *)
Definition select_web (did : string) (doc : DIDDocument) (kid : string) : result Error (public_key * option json) :=
  if negb (HasPrefix kid (did +:+ "#")) then Err method_invalid else
  vm ← or_error method_invalid (FindAssertionMethod doc kid);
  if negb (String.eqb (vm_Controller vm) "") && negb (String.eqb (vm_Controller vm) did) then Err method_invalid else
  pub ← or_error method_invalid
    (match vm_PublicKeyJwk vm with
     | Some jwk => ParseJWK jwk
     | None => if negb (String.eqb (vm_PublicKeyMultibase vm) "") then DecodeMultibase (vm_PublicKeyMultibase vm) else None
     end);
  Ok (pub, vm_Raw vm).

(** The one key of a [did:key] identifier. *)
Definition did_key_method (did kid : string) : json :=
  string_object [("controller", did); ("id", kid); ("publicKeyMultibase", TrimPrefix did "did:key:"); ("type", "Multikey")].

Definition select_key (pub : public_key) (expectedKid : string) (sealVM : json) (kid : string) : result Error (public_key * option json) :=
  if negb (String.eqb kid expectedKid) then Err method_invalid else Ok (pub, Some sealVM).

Definition aidThumbprint (aid : string) : string := b64_EncodeToString (Sum256 aid).

Definition lei_method (aid : string) : json := string_object [("id", aid); ("thumbprint", aidThumbprint aid); ("type", "vLEI-KERI-AID")].

Context (P : IdPorts).

Definition raID : string := match ip_signer P with Some s => is_RaID s | None => "" end.

(** The registry of [newControlVerifiers]. *)
Inductive controlVerifier := didWebVerifier | didKeyVerifier | leiVerifier (v : LEIControlVerifier).

Definition verifierFor (kind : string) : result Error controlVerifier :=
  if String.eqb kind KindDIDWeb then Ok didWebVerifier else
  if String.eqb kind KindDIDKey then Ok didKeyVerifier else
  if String.eqb kind KindLEI then match ip_leiCtl P with Some v => Ok (leiVerifier v) | None => Err IDENTIFIER_KIND_UNSUPPORTED end else
  Err IDENTIFIER_KIND_UNSUPPORTED.

Definition resolve (did : string) (hints : list KeyHint) : isvc DIDDocument :=
  icall (IResolve did hints (answered (ip_Resolve P did hints))) (ip_Resolve P did hints).

(** [RegisterPresentation] of the lei verifier: the subject and the status. *)
Definition RegisterPresentation (v : LEIControlVerifier) (effectiveValue vLEIPresentation : string) : isvc (string * string) :=
  if String.eqb vLEIPresentation "" then ifail (NewValidationError "IDENTIFIER_PRESENTATION_REQUIRED") else
  res ← icall (IPresent vLEIPresentation (answered (lei_Present v vLEIPresentation))) (lei_Present v vLEIPresentation);
  if String.eqb (pr_SubjectAID res) "" then ifail (NewValidationError "LEI_PRESENTATION_INVALID") else
  if negb (String.eqb (pr_LEI res) "") && negb (EqualFold (pr_LEI res) effectiveValue) then ifail (NewValidationError "LEI_MISMATCH") else
  mret (pr_SubjectAID res, pr_Status res).

Definition Challenges (cv : controlVerifier) (identity : VerifiedIdentity) (signingInput : string) : isvc (list ProofChallenge) :=
  match cv with
  | didWebVerifier =>
      doc ← resolve (EffectiveValue identity) [];
      mret match doc_AssertionMethod doc with
           | [] => [{| pc_Kid := ""; pc_SigningInput := signingInput |}]
           | vms => (fun vm => {| pc_Kid := vm_ID vm; pc_SigningInput := signingInput |}) <$> vms
           end
  | didKeyVerifier =>
      match DecodeDIDKey (EffectiveValue identity) with
      | None => ifail DID_BAD_FORMAT
      | Some (_, kid) => mret [{| pc_Kid := kid; pc_SigningInput := signingInput |}]
      end
  | leiVerifier _ =>
      let aid := EffectiveSubjectAID identity in
      if String.eqb aid "" then ifail (NewInternalError "LEI_SUBJECT_AID_MISSING") else
      mret [{| pc_Kid := aid; pc_SigningInput := signingInput |}]
  end.

Definition web_VerifyProofs (identity : VerifiedIdentity) (sub : ProofSubmission) (signingInput : string) : isvc (list ProvenKey) :=
  parsed ← ilift (dom (parseJWSProofs sub signingInput));
  let did := EffectiveValue identity in
  doc ← resolve did (hint_of <$> parsed);
  if negb (String.eqb (doc_ID doc) did) then ifail (NewValidationError "DID_DOCUMENT_ID_MISMATCH") else
  ilift (dom (sealJWSProofs (select_web did doc) parsed)).

Definition key_VerifyProofs (identity : VerifiedIdentity) (sub : ProofSubmission) (signingInput : string) : isvc (list ProvenKey) :=
  parsed ← ilift (dom (parseJWSProofs sub signingInput));
  let did := EffectiveValue identity in
  match DecodeDIDKey did with
  | None => ifail DID_BAD_FORMAT
  | Some (pub, expectedKid) => ilift (dom (sealJWSProofs (select_key pub expectedKid (did_key_method did expectedKid)) parsed))
  end.

Definition lei_VerifyProofs (v : LEIControlVerifier) (identity : VerifiedIdentity) (sub : ProofSubmission) (signingInput : string) : isvc (list ProvenKey) :=
  let sig := ps_CESRSignature sub in
  if String.eqb sig "" then ifail proof_invalid else
  let aid := EffectiveSubjectAID identity in
  if String.eqb aid "" then ifail (NewInvalidStateError "LEI_SUBJECT_AID_MISSING") else
  auth ← icall (IAuthorization aid (answered (lei_Authorization v aid))) (lei_Authorization v aid);
  if negb (au_Authorized auth) then ifail (NewValidationError "LEI_NOT_AUTHORIZED") else
  if negb (String.eqb (au_LEI auth) "") && negb (EqualFold (au_LEI auth) (EffectiveValue identity)) then ifail (NewValidationError "LEI_MISMATCH") else
  let answer := lei_VerifySignature v aid signingInput sig in
  ok ← icall (IVerifySignature aid signingInput sig (default false (answered answer))) answer;
  if negb ok then ifail signature_invalid else
  mret [{| pk_VerificationMethod := Some (lei_method aid); pk_SignedProof := sig |}].

Definition VerifyProofs (cv : controlVerifier) : VerifiedIdentity -> ProofSubmission -> string -> isvc (list ProvenKey) :=
  match cv with didWebVerifier => web_VerifyProofs | didKeyVerifier => key_VerifyProofs | leiVerifier v => lei_VerifyProofs v end.

(** ** Sealing *)

Definition buildIdentityEvent (v : VerifiedIdentity) (eventType : string) (now : Time) : IdentityEvent :=
  {| iv_AnsIDs := []; iv_EventType := eventType; iv_IdentityID := vi_IdentityID v; iv_Kind := vi_Kind v; iv_Keys := []; iv_PreviousValue := "";
     iv_ProofMethod := vi_ProofMethod v; iv_ProviderID := vi_ProviderID v; iv_RaID := raID; iv_RevokedAt := ""; iv_Timestamp := FormatRFC3339 now;
     iv_Value := vi_Value v; iv_VerifiedAt := "" |}.

(** The fields a caller sets afterwards. *)
Definition with_fields (e : IdentityEvent) (ansIDs : list string) (keys : list ProvenKey) (previous revokedAt verifiedAt : string) : IdentityEvent :=
  {| iv_AnsIDs := ansIDs; iv_EventType := iv_EventType e; iv_IdentityID := iv_IdentityID e; iv_Kind := iv_Kind e; iv_Keys := keys; iv_PreviousValue := previous;
     iv_ProofMethod := iv_ProofMethod e; iv_ProviderID := iv_ProviderID e; iv_RaID := iv_RaID e; iv_RevokedAt := revokedAt; iv_Timestamp := iv_Timestamp e;
     iv_Value := iv_Value e; iv_VerifiedAt := verifiedAt |}.

Definition sealIdentityEvent (inner : IdentityEvent) (now : Time) : isvc unit :=
  match ip_sealer P with
  | None => ifail (NewUnavailableError "TL_UNAVAILABLE")
  | Some seal =>
      match CanonicalizeIdentity inner with
      | None => ilift (Err (Other "canonicalize identity event"))
      | Some innerCanonical =>
          sig ← ilift match ip_signer P with
                      | None => Ok ""
                      | Some s =>
                          match SignDetachedJWS (is_KeyManager s) (is_KeyID s)
                            {| h_Alg := ""; h_Kid := ""; h_Typ := "JWT"; h_Timestamp := Time_Unix now; h_RAID := is_RaID s; h_Jwk := None; h_Crit := [] |}
                            innerCanonical with
                          | Ok j => Ok j
                          | Err _ => Err (Other "sign identity event")
                          end
                      end;
          icall (ISeal inner innerCanonical sig (is_ok (seal innerCanonical sig))) (seal innerCanonical sig)
      end
  end.

(** ** Registering and rotating *)

Definition allow (link : bool) (owner : string) : isvc unit :=
  Step (fun w =>
    if link then let '(ok, l) := Allow (ip_linkPerMinute P) (iw_linkLimiter w) owner (ip_clock P) in
      (ok, {| iw_ra := iw_ra w; iw_db := iw_db w; iw_limiter := iw_limiter w; iw_linkLimiter := l; iw_log := iw_log w |})
    else let '(ok, l) := Allow (ip_registerPerMinute P) (iw_limiter w) owner (ip_clock P) in
      (ok, {| iw_ra := iw_ra w; iw_db := iw_db w; iw_limiter := l; iw_linkLimiter := iw_linkLimiter w; iw_log := iw_log w |}))
    (fun ok => if ok then Ret (Ok tt) else Ret (Err (Dom RATE_LIMITED))).

(** [ownedIdentity], and with [write] the variant that answers 403. *)
Definition owned_with (write : bool) (providerID identityID : string) : isvc VerifiedIdentity :=
  if String.eqb identityID "" then ifail (NewValidationError "INVALID_IDENTITY_ID") else
  identity ← iatomic (IdentityStore_FindByID identityID);
  if negb (String.eqb (vi_ProviderID identity) providerID)
  then ifail (if write then NewUnauthorizedError "IDENTITY_NOT_OWNED" else NewNotFoundError "IDENTITY_NOT_FOUND") else
  mret identity.

Definition ownedIdentity : string -> string -> isvc VerifiedIdentity := owned_with false.
Definition ownedIdentityForWrite : string -> string -> isvc VerifiedIdentity := owned_with true.

Definition mapIdentitySaveErr (e : serr) : serr :=
  match e with Dom d => if errors_Is d ErrConflict then Dom (NewConflictError "IDENTIFIER_DUPLICATE") else e | Other _ => e end.

Definition save_mapped (v : VerifiedIdentity) : itx unit := fun ra d =>
  match IdentityStore_Save v ra d with Ok r => Ok r | Err e => Err (mapIdentitySaveErr e) end.

Definition StageChallenge (v : VerifiedIdentity) (expectedStatus expectedNonce : string) (staleBefore : Time) : isvc unit :=
  match vi_Challenge v with
  | None => ifail (NewInternalError "CHALLENGE_STAGE")
  | Some c =>
      one ← iatomic (StageChallenge_update v c expectedStatus expectedNonce staleBefore);
      if one : bool then mret tt else
      current ← iatomic (IdentityStore_FindByID (vi_IdentityID v));
      ifail (stage_refusal current expectedStatus)
  end.

Definition proofInput (v : VerifiedIdentity) (nonce : string) : option string :=
  IdentityProofInput_SigningInput
    {| pi_Identifier := EffectiveValue v; pi_IdentityID := vi_IdentityID v; pi_Nonce := nonce; pi_Purpose := IdentityProofPurpose; pi_RaID := raID;
       pi_Scheme := vi_Kind v |}.

Definition or_internal {A} (code : string) (o : option A) : isvc A :=
  match o with Some a => mret a | None => ifail (NewInternalError code) end.

(** The register-time presentation, for the kinds that have one. *)
Definition present (cv : controlVerifier) (identity : VerifiedIdentity) (opt : string) (now : Time) : isvc (VerifiedIdentity * string) :=
  match cv with
  | leiVerifier v =>
      '(subjectAID, st) ← RegisterPresentation v (EffectiveValue identity) opt;
      identity ← ilift (dom (StageSubjectAID identity subjectAID now));
      mret (identity, st)
  | _ => mret (identity, "")
  end.

Definition challenge (identity : VerifiedIdentity) (now : Time) (isNew : bool) (opt : string) : isvc IdentityChallengeResponse :=
  cv ← ilift (dom (verifierFor (vi_Kind identity)));
  '(identity, presentationStatus) ← present cv identity opt now;
  let expectedStatus := vi_Status identity in
  let expectedNonce := match vi_Challenge identity with Some c => ic_Nonce c | None => "" end in
  nonce ← or_internal "CHALLENGE_GENERATION" (ip_newNonce P);
  identity ← ilift (dom (IssueChallenge identity nonce (ip_challengeTTL P) now));
  signingInput ← or_internal "CHALLENGE_GENERATION" (proofInput identity nonce);
  challenges ← Challenges cv identity signingInput;
  _ ← (if isNew then iatomic (save_mapped identity)
       else StageChallenge identity expectedStatus expectedNonce (Time_Add now (- sealClaimTTL)));
  mret {| cr_Identity := identity; cr_Nonce := nonce;
          cr_ExpiresAt := match vi_Challenge identity with Some c => Identity.ic_ExpiresAt c | None => zeroTime end;
          cr_Challenges := challenges; cr_PresentationStatus := presentationStatus |}.

Definition Identity_Register (providerID rawValue opt : string) : isvc IdentityChallengeResponse :=
  if String.eqb providerID "" then ifail (NewValidationError "INVALID_PROVIDER_ID") else
  _ ← allow false providerID;
  '(kind, canonical) ← ilift (dom (InferIdentifierKind rawValue));
  _ ← ilift (dom (verifierFor kind));
  let now := ip_now P in
  found ← iattempt (iatomic (FindLive providerID kind canonical));
  match found with
  | Ok existing =>
      if String.eqb (vi_Status existing) IdentityVerified then ifail (NewConflictError "IDENTIFIER_DUPLICATE") else
      challenge existing now false opt
  | Err e =>
      if negb (is_not_found e) then ilift (Err e) else
      taken ← iatomic (ExistsVerified kind canonical);
      if taken : bool then ifail (NewConflictError "IDENTIFIER_DUPLICATE") else
      identityID ← or_internal "IDENTITY_ID_GENERATION" (ip_newID P);
      identity ← ilift (dom (NewVerifiedIdentity identityID providerID canonical now));
      challenge identity now true opt
  end.

Definition Rotate (providerID identityID rawValue opt : string) : isvc IdentityChallengeResponse :=
  _ ← allow false providerID;
  identity ← ownedIdentityForWrite providerID identityID;
  identity ← ilift (dom (StageRotation identity rawValue (ip_now P)));
  challenge identity (ip_now P) false opt.

(** ** Verifying control *)

Definition releaseClaim (identityID nonce : string) : isvc unit := _ ← iattempt (iatomic (ReleaseChallenge identityID nonce)); mret tt.

(** Run [m]; release the claim when it fails. *)
Definition or_release {A} (identityID nonce : string) (m : isvc A) : isvc A :=
  r ← iattempt m;
  match r with Ok a => mret a | Err e => _ ← releaseClaim identityID nonce; ilift (Err e) end.

Definition consumed (v : VerifiedIdentity) (now : Time) : VerifiedIdentity :=
  upd_identity v (vi_Value v) (vi_Status v) (vi_ProofMethod v) (vi_PendingValue v) (vi_SubjectAID v) (vi_PendingSubjectAID v)
    ((fun c => {| ic_Nonce := ic_Nonce c; Identity.ic_ExpiresAt := Identity.ic_ExpiresAt c; ic_ConsumedAt := Some now |}) <$> vi_Challenge v)
    (vi_VerifiedAt v) (vi_UpdatedAt v).

(** The transaction of the commit. *)
Definition commit_verified (identity : VerifiedIdentity) (nonce : string) (now : Time) : itx VerifiedIdentity :=
  _ ← ConsumeChallenge (vi_IdentityID identity) nonce now;
  let identity := consumed identity now in
  _ ← save_mapped identity;
  mret identity.

Definition check_taken (identity : VerifiedIdentity) : isvc unit :=
  if String.eqb (vi_Status identity) IdentityVerified then mret tt else
  taken ← iatomic (ExistsVerified (vi_Kind identity) (EffectiveValue identity));
  if taken : bool then ifail (NewConflictError "IDENTIFIER_DUPLICATE") else mret tt.

Definition proof_event (verified : VerifiedIdentity) (statusBefore previousValue : string) (provenKeys : list ProvenKey) (now : Time) : IdentityEvent :=
  with_fields (buildIdentityEvent verified (if String.eqb statusBefore IdentityVerified then TypeIdentityUpdated else TypeIdentityVerified) now)
    [] provenKeys previousValue "" (FormatRFC3339 now).

Definition VerifyControl (providerID identityID : string) (sub : ProofSubmission) : isvc VerifiedIdentity :=
  identity ← ownedIdentityForWrite providerID identityID;
  let now := ip_now P in
  if String.eqb (vi_Status identity) IdentityRevoked then ifail (NewInvalidStateError "IDENTITY_REVOKED") else
  _ ← ilift (dom (CheckChallenge identity now));
  _ ← ilift (dom (validateExactlyOneFamily sub));
  cv ← ilift (dom (verifierFor (vi_Kind identity)));
  let nonce := match vi_Challenge identity with Some c => ic_Nonce c | None => "" end in
  expectedPayload ← or_internal "PROOF_INPUT" (proofInput identity nonce);
  provenKeys ← VerifyProofs cv identity sub expectedPayload;
  _ ← check_taken identity;
  _ ← iatomic (ClaimChallenge (vi_IdentityID identity) nonce now (Time_Add now (- sealClaimTTL)));
  '(verified, previousValue) ← or_release (vi_IdentityID identity) nonce (ilift (dom (CompleteVerification identity now)));
  _ ← or_release (vi_IdentityID identity) nonce (sealIdentityEvent (proof_event verified (vi_Status identity) previousValue provenKeys now) now);
  or_release (vi_IdentityID identity) nonce (iatomic (commit_verified verified nonce now)).

(** ** Revoking *)

Definition Identity_Revoke_ (providerID identityID : string) : isvc VerifiedIdentity :=
  identity ← ownedIdentityForWrite providerID identityID;
  let now := ip_now P in
  revoked ← ilift (dom (Identity_Revoke identity now));
  _ ← sealIdentityEvent (with_fields (buildIdentityEvent revoked TypeIdentityRevoked now) [] [] "" (FormatRFC3339 now) "") now;
  _ ← iatomic (MarkRevoked (vi_IdentityID revoked) now);
  mret revoked.

(** ** Reading *)

Definition Identity_List (providerID : string) (limit : Z) (cursor : string) : isvc CursorPage := iatomic (ListByOwner providerID limit cursor).

Record LinkedIdentitySummary := { ls_IdentityID : string; ls_Kind : string; ls_Value : string; ls_IdentityStatus : string; ls_LinkedAt : Time }.

Fixpoint summaries (links : list IdentityLink) : isvc (list LinkedIdentitySummary) :=
  match links with
  | [] => mret []
  | l :: rest =>
      identity ← iatomic (IdentityStore_FindByID (il_IdentityID l));
      out ← summaries rest;
      mret ({| ls_IdentityID := vi_IdentityID identity; ls_Kind := vi_Kind identity; ls_Value := vi_Value identity; ls_IdentityStatus := vi_Status identity;
               ls_LinkedAt := il_LinkedAt l |} :: out)
  end.

Definition LinkedIdentitiesForAgent (agentID : string) : isvc (list LinkedIdentitySummary) :=
  reg ← on_agents (FindByAgentID agentID);
  if negb (agentLinkable (r_Status reg)) then mret [] else
  links ← iatomic (ListLiveByAgent agentID);
  summaries links.

Fixpoint visible_links (links : list IdentityLink) : isvc (list IdentityLink) :=
  match links with
  | [] => mret []
  | l :: rest =>
      r ← iattempt (on_agents (FindByAgentID (il_AgentID l)));
      match r with
      | Err e => if is_not_found e then visible_links rest else ilift (Err e)
      | Ok reg => out ← visible_links rest; mret (if agentLinkable (r_Status reg) then l :: out else out)
      end
  end.

Definition Detail (providerID identityID : string) : isvc (VerifiedIdentity * list IdentityLink) :=
  identity ← ownedIdentity providerID identityID;
  links ← iatomic (ListLiveByIdentity identityID);
  visible ← visible_links links;
  mret (identity, visible).

(** ** Links *)

(** The request's ids without repetitions, in order. *)
Fixpoint dedup_ids (seen : list string) (ids : list string) : result Error (list string) :=
  match ids with
  | [] => Ok []
  | id :: rest =>
      if String.eqb id "" then Err (NewValidationError "INVALID_LINK_REQUEST") else
      if one_of id seen then dedup_ids seen rest else
      l ← dedup_ids (id :: seen) rest; Ok (id :: l)
  end.

Definition check_agent (providerID agentID : string) : isvc unit :=
  r ← iattempt (on_agents (FindByAgentID agentID));
  match r with
  | Err _ => ifail (NewNotFoundError "AGENT_NOT_FOUND")
  | Ok reg =>
      if negb (String.eqb (r_OwnerID reg) providerID) then ifail (NewNotFoundError "AGENT_NOT_FOUND") else
      if negb (agentLinkable (r_Status reg)) then ifail (NewValidationError "AGENT_NOT_LINKABLE") else mret tt
  end.

Definition commit_links (identityID : string) (newlyLinked : list string) (now : Time) : itx unit :=
  current ← IdentityStore_FindByID identityID;
  if negb (String.eqb (vi_Status current) IdentityVerified) then ithrow (Dom (NewInvalidStateError "IDENTITY_NOT_VERIFIED")) else
  itx_for newlyLinked (fun agentID => _ ← LinkStore_Link identityID agentID now; mret tt).

Definition Link (providerID identityID : string) (agentIDs : list string) : isvc Z :=
  _ ← allow true providerID;
  identity ← ownedIdentityForWrite providerID identityID;
  if negb (String.eqb (vi_Status identity) IdentityVerified) then ifail (NewInvalidStateError "IDENTITY_NOT_VERIFIED") else
  if Nat.eqb (length agentIDs) 0 then ifail (NewValidationError "INVALID_LINK_REQUEST") else
  if Nat.ltb maxLinkBatch (length agentIDs) then ifail (NewValidationError "INVALID_LINK_REQUEST") else
  deduped ← ilift (dom (dedup_ids [] agentIDs));
  _ ← isvc_for deduped (check_agent providerID);
  existingLinks ← iatomic (ListLiveByIdentity identityID);
  let newlyLinked := filter (fun id => negb (one_of id (il_AgentID <$> existingLinks)) = true) deduped in
  if Nat.eqb (length newlyLinked) 0 then mret 0 else
  let now := ip_now P in
  _ ← sealIdentityEvent (with_fields (buildIdentityEvent identity TypeIdentityLinked now) newlyLinked [] "" "" "") now;
  _ ← iatomic (commit_links identityID newlyLinked now);
  mret (Z.of_nat (length newlyLinked)).

Definition commit_unlink (identityID agentID : string) (now : Time) : itx unit := fun ra d =>
  match LinkStore_Unlink identityID agentID now ra d with
  | Ok r => Ok r
  | Err e => if is_not_found e then Ok (tt, d) else Err e
  end.

Definition Unlink (providerID identityID agentID : string) : isvc unit :=
  _ ← allow true providerID;
  identity ← ownedIdentityForWrite providerID identityID;
  existingLinks ← iatomic (ListLiveByIdentity identityID);
  if negb (one_of agentID (il_AgentID <$> existingLinks)) then ifail (NewNotFoundError "LINK_NOT_FOUND") else
  let now := ip_now P in
  _ ← sealIdentityEvent (with_fields (buildIdentityEvent identity TypeIdentityUnlinked now) [agentID] [] "" "" "") now;
  iatomic (commit_unlink identityID agentID now).
End Service.
