(* ===== verification/RaRateLimit.v ===== *)
(** The rate limiter of the identity service ([identityratelimit.go]): owners do
    not affect one another although they share a map that is pruned, and what an
    owner is granted in a minute is bounded. *)
From stdpp Require Import gmap.
From S2P Require Import Prelude GoStrings GoTime RaIdentity.

#[local] Set Default Goal Selector "!".
#[local] Open Scope Z_scope.

(** Calls with their times, and what each was answered. *)
Fixpoint Allow_all (perMinute : Z) (l : ownerLimiter) (calls : list (string * Time)) : list (string * Time * bool) :=
  match calls with
  | [] => []
  | (owner, now) :: rest => let '(ok, l') := Allow perMinute l owner now in (owner, now, ok) :: Allow_all perMinute l' rest
  end.

(** A limiter for one owner: a window, never pruned. *)
Definition allow_one (perMinute : Z) (w : option ownerWindow) (now : Time) : bool * option ownerWindow :=
  match w with
  | None => (true, Some {| ow_start := now; ow_count := 1 |})
  | Some w =>
      if Minute <=? Time_Sub now (ow_start w) then (true, Some {| ow_start := now; ow_count := 1 |}) else
      if perMinute <=? ow_count w then (false, Some w) else (true, Some {| ow_start := ow_start w; ow_count := ow_count w + 1 |})
  end.

Fixpoint allow_one_all (perMinute : Z) (w : option ownerWindow) (times : list Time) : list (Time * bool) :=
  match times with [] => [] | now :: rest => let '(ok, w') := allow_one perMinute w now in (now, ok) :: allow_one_all perMinute w' rest end.

Fixpoint nondecreasing (from : Time) (times : list Time) : Prop :=
  match times with [] => True | t :: rest => from <= t /\ nondecreasing t rest end.

Definition of_owner {A} (owner : string) (calls : list (string * A)) : list A := omap (fun c => if String.eqb c.1 owner then Some c.2 else None) calls.

Definition answers (owner : string) (answered : list (string * Time * bool)) : list (Time * bool) :=
  omap (fun c => if String.eqb c.1.1 owner then Some (c.1.2, c.2) else None) answered.

(** Granted in the minute from [t]. *)
Definition granted (t : Time) (l : list (Time * bool)) : Z :=
  Z.of_nat (length (filter (fun c => c.2 && (t <=? c.1) && (c.1 <? t + Minute) = true) l)).

Lemma nondecreasing_weaken a b times : a <= b -> nondecreasing b times -> nondecreasing a times.
Proof. intros Hab. destruct times; cbn; [done|]. intros [H1 H2]. split; [lia|done]. Qed.

(** ** Owners are independent *)

(** The entry of an owner, or none once it is so old that it would be replaced. *)
Definition agrees (l : ownerLimiter) (owner : string) (w : option ownerWindow) (now : Time) : Prop :=
  l !! owner = w \/ (l !! owner = None /\ exists w0, w = Some w0 /\ 2 * Minute <= now - ow_start w0).

Lemma prune_agrees (l : ownerLimiter) owner w now : agrees l owner w now -> agrees (prune l now) owner w now.
Proof.
  unfold agrees, prune, Time_Sub. intros [H|[H Hw]].
  - destruct w as [w|].
    + destruct (decide (now - ow_start w < 2 * Minute)) as [Hlt|Hge].
      * left. by apply map_lookup_filter_Some.
      * right. split; [|exists w; split; [done|lia]]. apply map_lookup_filter_None. right. intros x Hx. simplify_map_eq. cbn. lia.
    + left. apply map_lookup_filter_None. by left.
  - right. split; [|done]. apply map_lookup_filter_None. by left.
Qed.

Lemma agrees_later l owner w now now' : now <= now' -> agrees l owner w now -> agrees l owner w now'.
Proof. intros Hn [H|(H & w0 & E & Hw)]; [by left|]. right. split; [done|]. exists w0. split; [done|lia]. Qed.

Lemma Allow_other n (l : ownerLimiter) other now owner w : owner <> other -> agrees l owner w now -> agrees (Allow n l other now).2 owner w now.
Proof.
  intros Hne HA. assert (forall x, agrees (<[other := x]> l) owner w now) as Hins by (intros x; unfold agrees; by rewrite lookup_insert_ne).
  assert (forall x, agrees (<[other := x]> (prune l now)) owner w now) as Hpr.
  { intros x. apply prune_agrees in HA. unfold agrees in *. by rewrite lookup_insert_ne. }
  unfold Allow. destruct (l !! other) as [w0|]; [|apply Hpr]. case_if; [apply Hpr|]. case_if; [done|apply Hins].
Qed.

Lemma Allow_same n (l : ownerLimiter) owner now w : agrees l owner w now ->
  (Allow n l owner now).1 = (allow_one n w now).1 /\ agrees (Allow n l owner now).2 owner (allow_one n w now).2 now.
Proof.
  unfold Allow, allow_one, Time_Sub. intros [H|(H & w0 & -> & Hw)].
  - rewrite H. destruct w as [w|]; [|split; [done|left; apply lookup_insert_eq]].
    case_if; [split; [done|left; apply lookup_insert_eq]|]. case_if; [split; [done|by left]|]. split; [done|left; apply lookup_insert_eq].
  - rewrite H. assert (Minute <=? now - ow_start w0 = true) as -> by (unfold Minute, Second in *; lia). split; [done|left; apply lookup_insert_eq].
Qed.

Lemma answers_cons owner o now ok l : answers owner ((o, now, ok) :: l) = (if String.eqb o owner then [(now, ok)] else []) ++ answers owner l.
Proof. cbn. by destruct (String.eqb o owner). Qed.

Lemma of_owner_cons {A} owner o (a : A) l : of_owner owner ((o, a) :: l) = (if String.eqb o owner then [a] else []) ++ of_owner owner l.
Proof. cbn. by destruct (String.eqb o owner). Qed.

Lemma Allow_all_one n owner calls : forall l w from, nondecreasing from calls.*2 -> agrees l owner w from ->
  answers owner (Allow_all n l calls) = allow_one_all n w (of_owner owner calls).
Proof.
  induction calls as [|[o now] rest IH]; intros l w from Ht HA; [done|]. cbn in Ht. destruct Ht as [Hle Ht]. apply (agrees_later _ _ _ _ now Hle) in HA.
  rewrite of_owner_cons. cbn [Allow_all]. destruct (String.eqb_spec o owner) as [->|Hne].
  - pose proof (Allow_same n l owner now w HA) as [H1 H2]. cbn [app allow_one_all].
    destruct (Allow n l owner now) as [ok l'], (allow_one n w now) as [ok' w']. cbn [fst snd] in *. subst ok'.
    rewrite answers_cons, String.eqb_refl. cbn [app]. f_equal. by apply (IH l' w' now).
  - pose proof (Allow_other n l o now owner w (not_eq_sym Hne) HA) as H2. destruct (Allow n l o now) as [ok l']. cbn [snd] in H2.
    apply String.eqb_neq in Hne. rewrite answers_cons, Hne. by apply (IH l' w now).
Qed.

(** ** What is granted in a minute *)

Lemma granted_cons t now ok l : granted t ((now, ok) :: l) = granted t l + (if ok && (t <=? now) && (now <? t + Minute) then 1 else 0).
Proof.
  unfold granted. rewrite filter_cons. case_decide as H; cbn [fst snd] in H; [by rewrite H, length_cons, Nat2Z.inj_succ|]. apply not_true_is_false in H. rewrite H. symmetry. apply Z.add_0_r.
Qed.

Lemma granted_later n w t from times : t + Minute <= from -> nondecreasing from times -> granted t (allow_one_all n w times) = 0.
Proof.
  revert w from. induction times as [|now rest IH]; intros w from Hle Ht; [done|]. destruct Ht as [H1 H2]. cbn. destruct (allow_one n w now) as [ok w'].
  rewrite granted_cons, (IH w' now) by (lia || done). assert (now <? t + Minute = false) as -> by lia. by rewrite andb_false_r.
Qed.

(** A window that starts in the minute is the last one. *)
Lemma granted_last n t times : forall start count from, t <= start -> nondecreasing from times ->
  granted t (allow_one_all n (Some {| ow_start := start; ow_count := count |}) times) <= Z.max 0 (n - count).
Proof.
  induction times as [|now rest IH]; intros start count from Hs Ht; [change (granted t _) with 0; lia|]. destruct Ht as [H1 H2]. cbn. unfold Time_Sub. cbn [ow_start ow_count].
  destruct (Minute <=? now - start) eqn:EM.
  - rewrite granted_cons, (granted_later n _ t now) by (lia || done). assert (now <? t + Minute = false) as -> by lia. rewrite andb_false_r. lia.
  - destruct (n <=? count) eqn:EC; cbn [andb]; rewrite granted_cons; cbn [andb]; [|case_if; pose proof (IH start (count + 1) now Hs H2); lia].
    pose proof (IH start count now Hs H2). lia.
Qed.

(** A window that is open when the minute begins is followed by one more. *)
Lemma granted_open n t times : forall start count from, t <= from -> nondecreasing from times ->
  granted t (allow_one_all n (Some {| ow_start := start; ow_count := count |}) times) <= Z.max 0 (n - count) + Z.max 1 n.
Proof.
  induction times as [|now rest IH]; intros start count from Hf Ht; [change (granted t _) with 0; lia|]. destruct Ht as [H1 H2]. cbn. unfold Time_Sub. cbn [ow_start ow_count].
  destruct (Minute <=? now - start) eqn:EM.
  - rewrite granted_cons. pose proof (granted_last n t rest now 1 now ltac:(lia) H2). case_if; lia.
  - destruct (n <=? count) eqn:EC; rewrite granted_cons; cbn [andb]; [|case_if; pose proof (IH start (count + 1) now ltac:(lia) H2); lia].
    pose proof (IH start count now ltac:(lia) H2). lia.
Qed.

Lemma granted_bound n t times : forall w from, (forall x, w = Some x -> 1 <= ow_count x) -> nondecreasing from times ->
  granted t (allow_one_all n w times) <= 2 * Z.max 1 n.
Proof.
  induction times as [|now rest IH]; intros w from Hw Ht; [change (granted t _) with 0; lia|]. destruct Ht as [_ H2]. cbn. destruct (allow_one n w now) as [ok w'] eqn:EA.
  assert (forall x, w' = Some x -> 1 <= ow_count x) as Hw'.
  { unfold allow_one in EA. destruct w as [w|]; [|by injection EA as <- <-; intros x [= <-]]. specialize (Hw w eq_refl).
    repeat case_if_in EA; injection EA as <- <-; intros x [= <-]; cbn; lia. }
  rewrite granted_cons. destruct (t <=? now) eqn:ET; [|rewrite andb_false_r; cbn [andb]; pose proof (IH w' now Hw' H2); lia].
  destruct w' as [[start count]|]; [|by unfold allow_one in EA; destruct w as [w|]; repeat case_if_in EA].
  specialize (Hw' _ eq_refl). cbn in Hw'. pose proof (granted_open n t rest start count now ltac:(lia) H2). case_if; lia.
Qed.

(** C40: owners share the limiter but not their budgets: with a clock that does not
    run backwards an owner is answered exactly as by a limiter of its own that
    never forgets, whatever the others do and whatever is pruned, and in no
    minute, at whatever instant it begins, is it granted more than twice the
    budget. *)
Theorem rate_limit_per_owner perMinute owner calls from :
  nondecreasing from calls.*2 ->
  answers owner (Allow_all perMinute ∅ calls) = allow_one_all perMinute None (of_owner owner calls) /\
  (forall t, granted t (answers owner (Allow_all perMinute ∅ calls)) <= 2 * Z.max 1 perMinute).
Proof.
  intros Ht. assert (answers owner (Allow_all perMinute ∅ calls) = allow_one_all perMinute None (of_owner owner calls)) as E
    by (apply (Allow_all_one perMinute owner calls ∅ None from Ht); left; apply lookup_empty).
  split; [exact E|]. intros t. rewrite E. apply (granted_bound perMinute t _ None from); [done|]. clear E. revert from Ht.
  induction calls as [|[o now] rest IH]; intros from Ht; [done|]. destruct Ht as [H1 H2]. rewrite of_owner_cons. case_if; [split; [done|by apply IH]|].
  apply IH. by apply (nondecreasing_weaken from now).
Qed.

(** Budget 1: the second call of the minute is refused, the other owner's is not. *)
Lemma rate_limit_per_owner_witness :
  answers "a" (Allow_all 1 ∅ [("a", 0); ("b", Second); ("a", 2 * Second); ("a", 3 * Minute)]) = [(0, true); (2 * Second, false); (3 * Minute, true)].
Proof.
  destruct (rate_limit_per_owner 1 "a" [("a", 0); ("b", Second); ("a", 2 * Second); ("a", 3 * Minute)] 0) as [-> _]; [vm_compute; intuition discriminate|reflexivity].
Defined.
