(* ===== verification/RaIdentityInv.v ===== *)
(** What the identity service keeps true while it runs interleaved with the
    registration service: the invariant [IInv], the relation [IRel] to later
    worlds and the rules to prove handlers safe.

    The rows of the database never run ahead of the log: whatever they say was
    sealed before, and what was sealed was proved before. *)
From stdpp Require Import gmap relations.
From S2P Require Import Prelude GoStrings GoTime GoTimeSpec GoURL GoEncoding DomainErrors Lifecycle LifecycleSpec Discovery Identity IdentitySpec GoJSON GoJSONSpec Jcs Sha256 RaEvents TlEnvelope Jws P256 Jwk.
From S2P Require Import TlEvent Outbox OutboxSpec Concurrent ConcurrentOwn RaStore RaService RaServiceInv RaServiceProps RaIdentity.

#[local] Set Default Goal Selector "!".
#[local] Open Scope Z_scope.

(** ** Evidence *)

(** An event the log acknowledged. *)
Definition acked (log : list id_effect) (P : IdentityEvent -> Prop) : Prop :=
  exists ev c s, ISeal ev c s true ∈ log /\ P ev.

Definition proof_of (r : identityRow) (ev : IdentityEvent) : Prop :=
  IdentityType_isProof (iv_EventType ev) = true /\ iv_IdentityID ev = id_identity_id r /\ iv_Kind ev = id_kind r /\
  iv_Value ev = id_value r /\ iv_ProviderID ev = id_provider_id r.

Definition revocation_of (id : string) (ev : IdentityEvent) : Prop := iv_EventType ev = TypeIdentityRevoked /\ iv_IdentityID ev = id.

Definition link_event (ty id agentID : string) (ev : IdentityEvent) : Prop :=
  iv_EventType ev = ty /\ iv_IdentityID ev = id /\ agentID ∈ iv_AnsIDs ev.

Section Evidence.
Context `{U : UnicodeTables} `{F : CaseOrbits} `{S : SigSchemes} `{SK : !StdKeys} `{J : JCS}.

(** The proof is a compact JWS over the signing input whose signature verifies
    under the key. *)
Definition signed_under (pub : public_key) (input jws : string) : Prop :=
  exists h h', DecodeStandardJWS jws = Ok (h, input) /\ VerifyStandardJWSWithPublicKey pub jws = Ok h'.

Definition key_proved (log : list id_effect) (kind value input : string) (k : ProvenKey) : Prop :=
  (kind = KindDIDWeb /\ exists hints doc vm kid pub,
     IResolve value hints (Some doc) ∈ log /\ doc_ID doc = value /\ FindAssertionMethod doc kid = Some vm /\
     select_web value doc kid = Ok (pub, pk_VerificationMethod k) /\ signed_under pub input (pk_SignedProof k)) \/
  (kind = KindDIDKey /\ exists pub kid, DecodeDIDKey value = Some (pub, kid) /\ signed_under pub input (pk_SignedProof k)) \/
  (kind = KindLEI /\ exists aid auth,
     IAuthorization aid (Some auth) ∈ log /\ au_Authorized auth = true /\ (au_LEI auth = "" \/ EqualFold (au_LEI auth) value = true) /\
     IVerifySignature aid input (pk_SignedProof k) true ∈ log).

(** Every key of a proof event was proved over one challenge for this
    identifier, identity and kind. *)
Definition control_proved (log : list id_effect) (ev : IdentityEvent) : Prop :=
  exists nonce raid input,
    IdentityProofInput_SigningInput
      {| pi_Identifier := iv_Value ev; pi_IdentityID := iv_IdentityID ev; pi_Nonce := nonce; pi_Purpose := IdentityProofPurpose; pi_RaID := raid;
         pi_Scheme := iv_Kind ev |} = Some input /\
    iv_Keys ev <> [] /\ Forall (key_proved log (iv_Kind ev) (iv_Value ev) input) (iv_Keys ev).

(** What is submitted to the log is canonical, is what the log accepts, names no
    agent twice, and its proof was made. *)
Definition id_justified (past : list id_effect) (e : id_effect) : Prop :=
  match e with
  | ISeal ev canonical _ _ =>
      CanonicalizeIdentity ev = Some canonical /\ IdentityEvent_Validate (Some ev) = Ok tt /\ NoDup (iv_AnsIDs ev) /\
      (IdentityType_isProof (iv_EventType ev) = true -> control_proved past ev)
  | _ => True
  end.

(** ** The invariant *)

Definition canonical_value (kind value : string) : Prop := exists raw, InferIdentifierKind raw = Ok (kind, value).

Record id_row_ok (log : list id_effect) (r : identityRow) : Prop := {
  ir_id : id_identity_id r <> "";
  ir_provider : id_provider_id r <> "";
  ir_value : canonical_value (id_kind r) (id_value r);
  ir_pending : id_pending_value r = "" \/ (id_status r = IdentityVerified /\ canonical_value (id_kind r) (id_pending_value r));
  ir_status : status_checked (id_status r) = true;
  ir_nonce : id_status r = IdentityRevoked -> id_nonce r = None;
  ir_verified : id_status r = IdentityVerified -> acked log (proof_of r);
  ir_revoked : id_status r = IdentityRevoked -> acked log (revocation_of (id_identity_id r))
}.

Record link_ok (ra : DB) (rows : list identityRow) (log : list id_effect) (l : linkRow) : Prop := {
  lo_owner : exists r a, r ∈ rows /\ a ∈ t_agents ra /\ id_identity_id r = lk_identity_id l /\ ar_agent_id a = lk_agent_id l /\ ar_owner_id a = id_provider_id r;
  lo_linked : acked log (link_event TypeIdentityLinked (lk_identity_id l) (lk_agent_id l));
  lo_status : lk_status l = LinkLinked \/ (lk_status l = LinkUnlinked /\ acked log (link_event TypeIdentityUnlinked (lk_identity_id l) (lk_agent_id l)))
}.

Definition index_ok (rows : list identityRow) : Prop :=
  forall a b, a ∈ rows -> b ∈ rows -> live_key a b || proven_key a b = true -> id_identity_id a = id_identity_id b.

Record id_inv (ra : DB) (d : IdDB) (log : list id_effect) : Prop := {
  ii_ids : NoDup (id_identity_id <$> t_identities d);
  ii_index : index_ok (t_identities d);
  ii_rows : Forall (id_row_ok log) (t_identities d);
  ii_links : Forall (link_ok ra (t_identities d) log) (t_ilinks d);
  ii_log : forall i e, log !! i = Some e -> id_justified (take i log) e
}.

Definition IInv (w : IWorld) : Prop := Inv (iw_ra w) /\ id_inv (w_db (iw_ra w)) (iw_db w) (iw_log w).

(** ** Later worlds *)

Record id_evolves (r r' : identityRow) : Prop := {
  ie_id : id_identity_id r' = id_identity_id r;
  ie_provider : id_provider_id r' = id_provider_id r;
  ie_kind : id_kind r' = id_kind r;
  ie_revoked : id_status r = IdentityRevoked -> id_status r' = IdentityRevoked;
  ie_verified : id_status r = IdentityVerified -> id_status r' = IdentityVerified \/ id_status r' = IdentityRevoked
}.

#[export] Instance id_evolves_preorder : PreOrder id_evolves.
Proof.
  split; [by split; auto|]. intros a b c [A1 A2 A3 A4 A5] [B1 B2 B3 B4 B5]. split; [congruence..|auto|]. intros [H|H]%A5; auto.
Qed.

Record IRel (w w' : IWorld) : Prop := {
  rel_ra : Rel (iw_ra w) (iw_ra w');
  rel_rows : forall r, r ∈ t_identities (iw_db w) -> exists r', r' ∈ t_identities (iw_db w') /\ id_evolves r r';
  rel_log : iw_log w `prefix_of` iw_log w'
}.

#[export] Instance IRel_preorder : PreOrder IRel.
Proof.
  split; [intros w; split; [reflexivity| |reflexivity]; intros r Hr; exists r; by split|].
  intros a b c [A1 A2 A3] [B1 B2 B3]. split; [by etrans| |by etrans]. intros r (r1 & H1 & E1)%A2. destruct (B2 r1 H1) as (r2 & H2 & E2). exists r2. split; [done|by etrans].
Qed.

Definition ids_of (w : IWorld) : list string := id_identity_id <$> t_identities (iw_db w).

(** Only the handler that drew an id inserts a row with it. *)
Definition IG (t : option string) (w w' : IWorld) : Prop := IRel w w' /\ forall id, id ∈ ids_of w' -> id ∈ ids_of w \/ t = Some id.
Definition IR (t : option string) (w w' : IWorld) : Prop := IRel w w' /\ forall id, t = Some id -> id ∈ ids_of w' -> id ∈ ids_of w.

#[export] Instance IR_preorder t : PreOrder (IR t).
Proof. split; [intros w; split; [reflexivity|auto]|]. intros a b c [A1 A2] [B1 B2]. split; [by etrans|auto]. Qed.

Lemma IG_IR t t' w w' : IG t w w' -> t = None \/ t <> t' -> IR t' w w'.
Proof. intros [H1 H2] Ht. split; [done|]. intros id E Hid. destruct (H2 id Hid) as [|E2]; [done|]. destruct Ht; congruence. Qed.

(** *** Monotonicity *)

Lemma prefix_elem {A} (l l' : list A) x : l `prefix_of` l' -> x ∈ l -> x ∈ l'.
Proof. intros [k ->] H. apply elem_of_app. by left. Qed.

Lemma acked_mono log log' P : log `prefix_of` log' -> acked log P -> acked log' P.
Proof. intros Hp (ev & c & s & H & HP). exists ev, c, s. split; [by eapply prefix_elem|done]. Qed.

Lemma key_proved_mono log log' kind value input k : log `prefix_of` log' -> key_proved log kind value input k -> key_proved log' kind value input k.
Proof.
  intros Hp [(E & hints & doc & vm & kid & pub & H & HH)|[H|(E & aid & auth & H1 & H2 & H3 & H4)]].
  - left. split; [done|]. exists hints, doc, vm, kid, pub. split; [by eapply prefix_elem|done].
  - right. by left.
  - right. right. split; [done|]. exists aid, auth. split_and!; try done; by eapply prefix_elem.
Qed.

Lemma control_proved_mono log log' ev : log `prefix_of` log' -> control_proved log ev -> control_proved log' ev.
Proof.
  intros Hp (n & ra & i & H1 & H2 & H3). exists n, ra, i. split_and!; [done..|]. eapply Forall_impl; [exact H3|]. intros k. by apply key_proved_mono.
Qed.

Lemma id_row_ok_mono log log' r : log `prefix_of` log' -> id_row_ok log r -> id_row_ok log' r.
Proof.
  intros Hp [H1 H2 H3 H4 H5 H6 H7 H8]. split; try done; intros E; eapply acked_mono; eauto.
Qed.

Lemma link_ok_mono ra ra' rows rows' log log' l :
  (forall a, a ∈ t_agents ra -> exists a', a' ∈ t_agents ra' /\ row_evolves a a') ->
  (forall r, r ∈ rows -> exists r', r' ∈ rows' /\ id_evolves r r') -> log `prefix_of` log' ->
  link_ok ra rows log l -> link_ok ra' rows' log' l.
Proof.
  intros Ha Hr Hp [(r & a & Hr0 & Ha0 & E1 & E2 & E3) H2 H3]. split; [|by eapply acked_mono|destruct H3 as [?|[? ?]]; [by left|right; split; [done|by eapply acked_mono]]].
  destruct (Hr r Hr0) as (r' & Hr' & [F1 F2 _ _ _]). destruct (Ha a Ha0) as (a' & Ha' & Ev). pose proof (re_ident _ _ Ev) as Ei. unfold ident in Ei. injection Ei as _ G1 G2 _ _.
  exists r', a'. split_and!; [done..|congruence|congruence|congruence].
Qed.

(** *** Steps *)

Definition put_ra (v : World) (w : IWorld) : IWorld :=
  {| iw_ra := v; iw_db := iw_db w; iw_limiter := iw_limiter w; iw_linkLimiter := iw_linkLimiter w; iw_log := iw_log w |}.

Lemma put_ra_ok t w v : IInv w -> Inv v -> Rel (iw_ra w) v -> IInv (put_ra v w) /\ IG t w (put_ra v w).
Proof.
  intros [_ [H1 H2 H3 H4 H5]] Hv Hrel. assert (IRel w (put_ra v w)) as HR.
  { split; [done| |reflexivity]. intros r Hr. exists r. by split. }
  split; [|split; [done|by left]]. split; [done|]. split; try done. eapply Forall_impl; [exact H4|]. intros l.
  apply link_ok_mono; [apply (le_agents _ _ (proj1 Hrel))|apply (rel_rows _ _ HR)|reflexivity].
Qed.

Lemma ilog_ok t w e : IInv w -> id_justified (iw_log w) e -> IInv (with_ilog w e) /\ IG t w (with_ilog w e).
Proof.
  intros [HI [H1 H2 H3 H4 H5]] He. assert (iw_log w `prefix_of` iw_log w ++ [e]) as Hp by (by exists [e]).
  split; [split; [done|]; split; try done|].
  - eapply Forall_impl; [exact H3|]. intros r. by apply id_row_ok_mono.
  - eapply Forall_impl; [exact H4|]. intros l. apply link_ok_mono; [|intros r Hr; exists r; by split|done]. intros a Ha. exists a. split; [done|reflexivity].
  - cbn. intros i e' Hi. apply lookup_app_Some in Hi as [Hi|[Hle Hi]].
    + rewrite take_app_le by (apply lookup_lt_Some in Hi; lia). by apply H5.
    + apply list_lookup_singleton_Some in Hi as [E <-]. rewrite take_app_ge by done. rewrite E. cbn. by rewrite app_nil_r.
  - split; [|by left]. split; [reflexivity| |done]. intros r Hr. exists r. by split.
Qed.

(** Another list of rows. *)
Lemma rows_ok t w rows :
  IInv w -> NoDup (id_identity_id <$> rows) -> index_ok rows -> Forall (id_row_ok (iw_log w)) rows ->
  (forall r, r ∈ t_identities (iw_db w) -> exists r', r' ∈ rows /\ id_evolves r r') ->
  (forall r, r ∈ rows -> id_identity_id r ∈ ids_of w \/ t = Some (id_identity_id r)) ->
  IInv (with_iddb w (set_identities (iw_db w) rows)) /\ IG t w (with_iddb w (set_identities (iw_db w) rows)).
Proof.
  intros [HI [H1 H2 H3 H4 H5]] K1 K2 K3 K4 K5. split; [split; [done|]; split; try done|].
  - eapply Forall_impl; [exact H4|]. intros l. apply link_ok_mono; [|exact K4|reflexivity]. intros a Ha. exists a. split; [done|reflexivity].
  - split; [split; [reflexivity|exact K4|reflexivity]|]. intros id Hid. unfold ids_of in Hid. cbn in Hid. apply list_elem_of_fmap_1 in Hid as (r & -> & Hr). by apply K5.
Qed.

(** The indexed columns, with a status that may have become REVOKED. *)
Definition core_le (r r' : identityRow) : Prop :=
  id_identity_id r' = id_identity_id r /\ id_provider_id r' = id_provider_id r /\ id_kind r' = id_kind r /\ id_value r' = id_value r /\
  (id_status r' = id_status r \/ id_status r' = IdentityRevoked).

Lemma keys_le a a' b b' : core_le a a' -> core_le b b' -> live_key a' b' || proven_key a' b' = true -> live_key a b || proven_key a b = true.
Proof.
  intros (_ & A1 & A2 & A3 & A4) (_ & B1 & B2 & B3 & B4). unfold live_key, proven_key. rewrite A1, A2, A3, B1, B2, B3.
  rewrite !orb_true_iff, !andb_true_iff.
  destruct A4 as [-> | ->]; destruct B4 as [-> | ->]; [done|..]; intros [((_ & ?) & ?)|((_ & ?) & ?)]; done.
Qed.

(** An [UPDATE] of some rows. *)
Lemma map_rows_ok t w (cond : identityRow -> bool) (f : identityRow -> identityRow) :
  IInv w ->
  (forall r, r ∈ t_identities (iw_db w) -> cond r = true -> id_row_ok (iw_log w) r -> core_le r (f r) /\ id_evolves r (f r) /\ id_row_ok (iw_log w) (f r)) ->
  let w' := with_iddb w (set_identities (iw_db w) ((fun r => if cond r then f r else r) <$> t_identities (iw_db w))) in
  IInv w' /\ IG t w w'.
Proof.
  intros HI Hf. pose proof HI as [_ [H1 H2 H3 H4 H5]]. rewrite Forall_forall in H3.
  assert (forall r, r ∈ t_identities (iw_db w) -> core_le r (if cond r then f r else r) /\ id_evolves r (if cond r then f r else r) /\
            id_row_ok (iw_log w) (if cond r then f r else r)) as Hall.
  { intros r Hr. destruct (cond r) eqn:E; [by apply Hf; auto|]. split_and!; [by repeat split; left|reflexivity|by apply H3]. }
  assert (id_identity_id <$> ((fun r => if cond r then f r else r) <$> t_identities (iw_db w)) = id_identity_id <$> t_identities (iw_db w)) as Eids.
  { rewrite <-list_fmap_compose. apply list_fmap_ext. intros i r Hr. apply list_elem_of_lookup_2 in Hr. by destruct (Hall r Hr) as ((E & _) & _). }
  apply rows_ok; [done|by rewrite Eids| | | |].
  - intros a b Ha Hb. apply list_elem_of_fmap_1 in Ha as (a0 & -> & Ha0). apply list_elem_of_fmap_1 in Hb as (b0 & -> & Hb0).
    destruct (Hall a0 Ha0) as (Ca & _ & _). destruct (Hall b0 Hb0) as (Cb & _ & _). intros Hk%(keys_le _ _ _ _ Ca Cb).
    rewrite (proj1 Ca), (proj1 Cb). by apply H2.
  - apply Forall_forall. intros r Hr. apply list_elem_of_fmap_1 in Hr as (r0 & -> & Hr0). by apply Hall.
  - intros r Hr. exists (if cond r then f r else r). split; [by apply (list_elem_of_fmap_2 (fun r => if cond r then f r else r))|by apply Hall].
  - intros r Hr. left. unfold ids_of. rewrite <-Eids. by apply list_elem_of_fmap_2.
Qed.

(** ** Handlers *)

Definition isafe {A} (t : option string) (m : isvc A) (Q : A -> IWorld -> Prop) (w : IWorld) : Prop :=
  osafe IInv IG IR t m (fun r w' => match r with Ok a => Q a w' | Err _ => True end) w.

Lemma isafe_mono {A} t (m : isvc A) (Q Q' : A -> IWorld -> Prop) w : (forall a w', Q a w' -> Q' a w') -> isafe t m Q w -> isafe t m Q' w.
Proof. intros HQ. apply osafe_mono. intros [a|e] w'; [apply HQ|done]. Qed.

Lemma isafe_bind {A B} t (m : isvc A) (g : A -> isvc B) Q w : isafe t m (fun a w' => isafe t (g a) Q w') w -> isafe t (m ≫= g) Q w.
Proof. intros H. apply osafe_bind. eapply osafe_mono; [|exact H]. by intros [a|e] w'. Qed.

Lemma isafe_ret {A} t (a : A) (Q : A -> IWorld -> Prop) w : Q a w -> isafe t (mret a) Q w.
Proof. done. Qed.

Lemma isafe_lift {A} t (r : result serr A) (Q : A -> IWorld -> Prop) w : (forall a, r = Ok a -> Q a w) -> isafe t (ilift r) Q w.
Proof. intros H. destruct r as [a|e]; [by apply H|done]. Qed.

Lemma isafe_fail {A} t e (Q : A -> IWorld -> Prop) w : isafe t (ifail e) Q w.
Proof. done. Qed.

(** The world a handler ends in is a later one. *)
Lemma isafe_rel {A} t (m : isvc A) Q w : isafe t m Q w -> isafe t m (fun a w' => IRel w w' /\ Q a w') w.
Proof.
  unfold isafe. assert (forall w0, IRel w0 w -> osafe IInv IG IR t m (fun r w' => match r with Ok a => Q a w' | Err _ => True end) w ->
    osafe IInv IG IR t m (fun r w' => match r with Ok a => IRel w0 w' /\ Q a w' | Err _ => True end) w) as H; [|by apply H].
  revert w. generalize (m : prog IWorld (result serr A)). intros p. induction p as [[a|e]|B f k IH]; intros w w0 H0 Hs; cbn; [done|done|].
  intros w' HR HI. destruct (Hs w' HR HI) as (I' & G' & Hk). split_and!; [done..|]. apply IH; [|done]. etrans; [exact H0|]. etrans; [apply HR|apply G'].
Qed.

(** A statement. *)
Lemma isafe_atomic {A} t (m : itx A) (Q : A -> IWorld -> Prop) w :
  (forall w', IR t w w' -> IInv w' -> forall a d, m (w_db (iw_ra w')) (iw_db w') = Ok (a, d) ->
     IInv (with_iddb w' d) /\ IG t w' (with_iddb w' d) /\ Q a (with_iddb w' d)) ->
  isafe t (iatomic m) Q w.
Proof.
  intros H. cbn. intros w' HR HI. specialize (H w' HR HI). destruct (m _ _) as [[a d]|e]; cbn; [by destruct (H a d eq_refl) as (? & ? & ?)|].
  split_and!; [done| |done]. split; [reflexivity|by left].
Qed.

Lemma with_iddb_same w : with_iddb w (iw_db w) = w.
Proof. by destruct w. Qed.

(** A query. *)
Lemma isafe_read {A} t (m : itx A) (Q : A -> IWorld -> Prop) w :
  (forall ra d a d', m ra d = Ok (a, d') -> d' = d) ->
  (forall w', IRel w w' -> IInv w' -> forall a d, m (w_db (iw_ra w')) (iw_db w') = Ok (a, d) -> Q a w') ->
  isafe t (iatomic m) Q w.
Proof.
  intros Hd H. apply isafe_atomic. intros w' [HR _] HI a d E. rewrite (Hd _ _ _ _ E) in *. rewrite with_iddb_same.
  split_and!; [done| |by eapply H]. split; [reflexivity|by left].
Qed.

Lemma isafe_agents {A} t (m : tx A) (Q : A -> IWorld -> Prop) w :
  (forall w', IRel w w' -> IInv w' -> forall a d, m (w_db (iw_ra w')) = Ok (a, d) -> Q a w') -> isafe t (on_agents m) Q w.
Proof.
  intros H. cbn. intros w' [HR _] HI. split_and!; [done|split; [reflexivity|by left]|]. specialize (H w' HR HI). destruct (m _) as [[a d]|e]; [by eapply H|done].
Qed.

Lemma isafe_call {A} t e (r : result serr A) (Q : A -> IWorld -> Prop) w :
  (forall w', IRel w w' -> IInv w' -> id_justified (iw_log w') e) ->
  (forall w', IRel w w' -> e ∈ iw_log w' -> forall a, r = Ok a -> Q a w') -> isafe t (icall e r) Q w.
Proof.
  intros He H. cbn. intros w' [HR _] HI. destruct (ilog_ok t w' e HI (He w' HR HI)) as [I' G']. split_and!; [done..|]. destruct r as [a|err]; [|done].
  apply H; [etrans; [exact HR|apply G']|cbn; apply elem_of_app; right; by apply list_elem_of_singleton|done].
Qed.

Lemma isafe_attempt {A} t (m : isvc A) (Q : result serr A -> IWorld -> Prop) w :
  osafe IInv IG IR t m Q w -> isafe t (iattempt m) Q w.
Proof. intros H. apply osafe_bind. by eapply osafe_mono; [|exact H]. Qed.

Lemma isafe_allow P t b owner (Q : unit -> IWorld -> Prop) w : (forall w', IRel w w' -> Q tt w') -> isafe t (allow P b owner) Q w.
Proof.
  intros H. cbn. intros w' [HR _] HI.
  assert (forall l1 l2, let w2 := {| iw_ra := iw_ra w'; iw_db := iw_db w'; iw_limiter := l1; iw_linkLimiter := l2; iw_log := iw_log w' |} in IInv w2 /\ IG t w' w2 /\ IRel w' w2) as HX.
  { intros l1 l2 w2. assert (IRel w' w2) as HW. { split; [reflexivity| |reflexivity]. intros r Hr. exists r. by split. }
    split; [exact HI|]. split; [split; [done|by left]|done]. }
  destruct b; destruct (Allow _ _ _ _) as [ok l]; cbn [fst snd].
  - destruct (HX (iw_limiter w') l) as (A1 & A2 & A3). split_and!; [done..|]. destruct ok; [|done]. apply H. by etrans.
  - destruct (HX l (iw_linkLimiter w')) as (A1 & A2 & A3). split_and!; [done..|]. destruct ok; [|done]. apply H. by etrans.
Qed.

(** ** Proofs of control *)

(** What is relied on of the environment: the clock shows a year with four
    digits, and a resolved verification method is quoted as it is, so the quoted
    object has its id. *)
Definition ports_ok (P : IdPorts) : Prop :=
  0 <= ip_now P < max_days * 86400 * Second /\
  forall did hints doc vm, ip_Resolve P did hints = Ok doc -> vm ∈ doc_AssertionMethod doc ->
    is_Some (vm_Raw vm) /\ ProvenKey_ID {| pk_VerificationMethod := vm_Raw vm; pk_SignedProof := "" |} = vm_ID vm.

Lemma parse_each_spec input proofs : forall seen parsed, parse_each input seen proofs = Ok parsed ->
  length parsed = length proofs /\
  Forall (fun p => DecodeStandardJWS (jp_jws p) = Ok (jp_header p, input) /\ h_Kid (jp_header p) <> "" /\ jp_jws p <> "") parsed.
Proof.
  induction proofs as [|jws rest IH]; intros seen parsed H; cbn in H; [injection H as <-; by split|].
  destruct (DecodeStandardJWS jws) as [[h seg]|] eqn:ED; [|done]. destruct (String.eqb_spec seg input) as [->|]; [|done]. cbn in H.
  destruct (String.eqb_spec (h_Kid h) "") as [|Hk]; [done|]. case_if_in H; [done|].
  destruct (parse_each input (h_Kid h :: seen) rest) as [l|] eqn:E; [|done]. injection H as <-. destruct (IH _ _ E) as [HL HF].
  split; [cbn; by rewrite HL|]. constructor; [|done]. cbn. split_and!; [done..|]. by intros ->.
Qed.

Lemma parseJWSProofs_spec sub input parsed : parseJWSProofs sub input = Ok parsed ->
  parsed <> [] /\ Forall (fun p => DecodeStandardJWS (jp_jws p) = Ok (jp_header p, input) /\ h_Kid (jp_header p) <> "" /\ jp_jws p <> "") parsed.
Proof.
  unfold parseJWSProofs. destruct (Nat.eqb_spec (length (ps_SignedProofs sub)) 0) as [|Hne]; [done|]. case_if; [done|].
  intros [HL HF]%parse_each_spec. split; [|done]. by intros ->.
Qed.

Lemma sealJWSProofs_spec sel parsed : forall keys, sealJWSProofs sel parsed = Ok keys ->
  length keys = length parsed /\
  Forall (fun k => exists p pub h, p ∈ parsed /\ sel (h_Kid (jp_header p)) = Ok (pub, pk_VerificationMethod k) /\
                  VerifyStandardJWSWithPublicKey pub (jp_jws p) = Ok h /\ pk_SignedProof k = jp_jws p) keys.
Proof.
  induction parsed as [|p rest IH]; intros keys H; cbn in H; [injection H as <-; by split|].
  destruct (sel (h_Kid (jp_header p))) as [[pub vm]|] eqn:ES; [|done]. cbn in H.
  destruct (VerifyStandardJWSWithPublicKey pub (jp_jws p)) as [h|] eqn:EV; [|done].
  destruct (sealJWSProofs sel rest) as [l|] eqn:E; [|done]. injection H as <-. destruct (IH l eq_refl) as [HL HF]. split; [cbn; by rewrite HL|]. constructor.
  - exists p, pub, h. split_and!; [left|done..].
  - eapply Forall_impl; [exact HF|]. intros k (q & pub' & h' & Hq & HH). exists q, pub', h'. split; [by right|done].
Qed.

Lemma proven_ID_proof vm s s' : ProvenKey_ID {| pk_VerificationMethod := vm; pk_SignedProof := s |} = ProvenKey_ID {| pk_VerificationMethod := vm; pk_SignedProof := s' |}.
Proof. done. Qed.

Lemma validate_keys_all keys :
  Forall (fun k => is_Some (pk_VerificationMethod k) /\ ProvenKey_ID k <> "" /\ pk_SignedProof k <> "") keys -> validate_keys keys = Ok tt.
Proof.
  induction 1 as [|k ks ([vm E] & H1 & H2) _ IH]; cbn; [done|]. rewrite E. destruct (String.eqb_spec (ProvenKey_ID k) ""); [done|].
  by destruct (String.eqb_spec (pk_SignedProof k) "").
Qed.

(** The keys a verifier returns: proved, and fit to be sealed. *)
Definition keys_ok (kind value input : string) (keys : list ProvenKey) (w : IWorld) : Prop :=
  keys <> [] /\ Forall (key_proved (iw_log w) kind value input) keys /\ validate_keys keys = Ok tt.

Lemma web_VerifyProofs_safe P t v sub input w : ports_ok P ->
  isafe t (web_VerifyProofs P v sub input) (fun keys w' => keys_ok KindDIDWeb (EffectiveValue v) input keys w') w.
Proof.
  intros [_ HP]. unfold web_VerifyProofs. apply isafe_bind, isafe_lift. intros parsed Hparsed.
  destruct (parseJWSProofs sub input) as [l|] eqn:EP; [|done]. injection Hparsed as <-. destruct (parseJWSProofs_spec _ _ _ EP) as [Hne Hl].
  apply isafe_bind. unfold resolve. apply isafe_call; [done|]. intros w1 _ Hin doc Hdoc. rewrite Hdoc in Hin. cbn [answered] in Hin.
  destruct (String.eqb_spec (doc_ID doc) (EffectiveValue v)) as [Eid|]; [|done]. cbn [negb]. apply isafe_lift. intros keys Hkeys.
  destruct (sealJWSProofs _ l) as [ks|] eqn:ES; [|done]. injection Hkeys as <-. destruct (sealJWSProofs_spec _ _ _ ES) as [HL HF].
  rewrite Forall_forall in Hl.
  assert (Forall (fun k => key_proved (iw_log w1) KindDIDWeb (EffectiveValue v) input k /\ is_Some (pk_VerificationMethod k) /\ ProvenKey_ID k <> "" /\ pk_SignedProof k <> "") ks) as HK.
  { eapply Forall_impl; [exact HF|]. intros k (p & pub & h & Hp & Hsel & Hv & Esig). destruct (Hl p Hp) as (HD & Hkid & Hjws).
    pose proof Hsel as Hsel'. unfold select_web in Hsel'. case_if_in Hsel'; [done|]. destruct (FindAssertionMethod doc _) as [vm|] eqn:EF; [|done]. cbn in Hsel'. case_if_in Hsel'; [done|].
    destruct (or_error _ _) as [pub'|]; [|done]. cbn in Hsel'. injection Hsel' as -> Evm. pose proof EF as EF'. apply find_first_Some in EF' as [Hvm Hid%String.eqb_eq].
    destruct (HP _ _ _ vm Hdoc Hvm) as [Hraw Hpid]. split.
    - left. split; [done|]. exists (hint_of <$> l), doc, vm, (h_Kid (jp_header p)), pub. split_and!; [done..|]. exists (jp_header p), h. by rewrite Esig.
    - rewrite <-Evm, Esig. split_and!; [done| |done]. unfold ProvenKey_ID in *. rewrite <-Evm. cbn in Hpid. rewrite Hpid, Hid. done. }
  split; [intros ->; by destruct l|]. split; [by eapply Forall_impl; [exact HK|]; intros k []|]. apply validate_keys_all. by eapply Forall_impl; [exact HK|]; intros k [].
Qed.

Lemma DecodeDIDKey_id did pub kid : DecodeDIDKey did = Some (pub, kid) -> kid <> "".
Proof.
  unfold DecodeDIDKey. case_if; [done|]. case_if; [done|]. destruct (DecodeMultibase _); [|done]. cbn. intros [= _ <-]. destruct did; cbn; done.
Qed.

Lemma key_VerifyProofs_safe t v sub input w :
  isafe t (key_VerifyProofs v sub input) (fun keys w' => keys_ok KindDIDKey (EffectiveValue v) input keys w') w.
Proof.
  unfold key_VerifyProofs. apply isafe_bind, isafe_lift. intros parsed Hparsed.
  destruct (parseJWSProofs sub input) as [l|] eqn:EP; [|done]. injection Hparsed as <-. destruct (parseJWSProofs_spec _ _ _ EP) as [Hne Hl].
  destruct (DecodeDIDKey (EffectiveValue v)) as [[pub kid]|] eqn:ED; [|done]. apply isafe_lift. intros keys Hkeys.
  destruct (sealJWSProofs _ l) as [ks|] eqn:ES; [|done]. injection Hkeys as <-. destruct (sealJWSProofs_spec _ _ _ ES) as [HL HF].
  rewrite Forall_forall in Hl.
  assert (Forall (fun k => key_proved (iw_log w) KindDIDKey (EffectiveValue v) input k /\ is_Some (pk_VerificationMethod k) /\ ProvenKey_ID k <> "" /\ pk_SignedProof k <> "") ks) as HK.
  { eapply Forall_impl; [exact HF|]. intros k (p & pub' & h & Hp & Hsel & Hv & Esig). destruct (Hl p Hp) as (HD & Hkid & Hjws). unfold select_key in Hsel.
    case_if_in Hsel; [done|]. injection Hsel as <- Evm. split.
    - right. left. split; [done|]. exists pub, kid. split; [done|]. exists (jp_header p), h. by rewrite Esig.
    - rewrite Esig. split_and!; [rewrite <-Evm; by eexists| |done]. unfold ProvenKey_ID. rewrite <-Evm. cbn. by eapply DecodeDIDKey_id. }
  split; [intros ->; by destruct l|]. split; [by eapply Forall_impl; [exact HK|]; intros k []|]. apply validate_keys_all. by eapply Forall_impl; [exact HK|]; intros k [].
Qed.

Lemma lei_VerifyProofs_safe t ctl v sub input w :
  isafe t (lei_VerifyProofs ctl v sub input) (fun keys w' => keys_ok KindLEI (EffectiveValue v) input keys w') w.
Proof.
  unfold lei_VerifyProofs. destruct (String.eqb_spec (ps_CESRSignature sub) "") as [|Hsig]; [done|]. destruct (String.eqb_spec (EffectiveSubjectAID v) "") as [|Haid]; [done|].
  apply isafe_bind, isafe_call; [done|]. intros w1 _ Hin auth Hauth. rewrite Hauth in Hin. destruct (au_Authorized auth) eqn:EA; [|done]. cbn [negb answered] in *.
  destruct (negb (String.eqb (au_LEI auth) "") && negb (EqualFold (au_LEI auth) (EffectiveValue v))) eqn:EL; [done|].
  apply isafe_bind, isafe_call; [done|]. intros w2 R2 Hin2 ok Hok. rewrite Hok in Hin2. destruct ok; [|done]. cbn [negb answered default] in *. apply isafe_ret.
  split; [done|]. split.
  - apply Forall_singleton. right. right. split; [done|]. exists (EffectiveSubjectAID v), auth. split_and!; [by eapply prefix_elem; [apply (rel_log _ _ R2)|]|done| |done].
    apply andb_false_iff in EL as [E%negb_false_iff%String.eqb_eq|E%negb_false_iff]; auto.
  - apply validate_keys_all, Forall_singleton. cbn. split_and!; [by eexists|done|done].
Qed.

Lemma VerifyProofs_safe P t cv v sub input w : ports_ok P -> verifierFor P (vi_Kind v) = Ok cv ->
  isafe t (VerifyProofs P cv v sub input) (fun keys w' => keys_ok (vi_Kind v) (EffectiveValue v) input keys w') w.
Proof.
  intros HP. unfold verifierFor. destruct (String.eqb_spec (vi_Kind v) KindDIDWeb) as [->|]; [intros [= <-]; by apply web_VerifyProofs_safe|].
  destruct (String.eqb_spec (vi_Kind v) KindDIDKey) as [->|]; [intros [= <-]; by apply key_VerifyProofs_safe|].
  destruct (String.eqb_spec (vi_Kind v) KindLEI) as [->|]; [|done]. destruct (ip_leiCtl P) as [ctl|]; [|done]. intros [= <-]. apply lei_VerifyProofs_safe.
Qed.
End Evidence.
