(* ===== verification/RaIdentitySpec.v ===== *)
(** Every method of the identity service keeps the invariant of [RaIdentityInv],
    whatever runs beside it. *)
From stdpp Require Import gmap relations.
From S2P Require Import Prelude GoStrings Utf8 GoTime GoTimeSpec GoURL GoEncoding DomainErrors AnsName Lifecycle LifecycleSpec Discovery Identity IdentitySpec GoJSON GoJSONSpec Jcs Sha256 RaEvents TlEnvelope Jws P256 Jwk.
From S2P Require Import TlEvent Outbox OutboxSpec Concurrent ConcurrentOwn RaStore RaService RaServiceInv RaServiceProps RaIdentity RaIdentityInv.

#[local] Set Default Goal Selector "!".
#[local] Open Scope Z_scope.

Section Spec.
Context `{U : UnicodeTables} `{F : CaseOrbits} `{S : SigSchemes} `{SK : !StdKeys} `{J : JCS}.

(** ** Values *)

Lemma encode_runes_nonempty r rs : encode_runes (r :: rs) <> "".
Proof. cbn [encode_runes]. destruct (EncodeRune r) as [|c s] eqn:E; [by destruct (EncodeRune_nonempty r)|done]. Qed.

Lemma canonical_nonempty kind value : canonical_value kind value -> kind <> "" /\ value <> "".
Proof.
  intros [raw H]. unfold InferIdentifierKind in H. destruct (HasPrefix (TrimSpace raw) "did:web:").
  { unfold canonicalizeDIDWeb in H. repeat (case_if_in H; [done|]). destruct (Split _ ":") as [|s0 ss]; [done|].
    destruct (validateDNSHost (ToLower s0)); [|done]. cbn [mbind result_bind] in H. case_if_in H; [done|]. cbn [mbind result_bind] in H. injection H as <- <-. by case_if. }
  destruct (HasPrefix (TrimSpace raw) "did:key:") eqn:EP. { case_if_in H; [done|]. injection H as <- <-. split; [done|]. by intros E; rewrite E in EP. }
  destruct (isLEI (TrimSpace raw)) eqn:EL; [|done]. injection H as <- <-. split; [done|]. unfold isLEI in EL. apply andb_true_iff in EL as [EL%Nat.eqb_eq _].
  unfold ToUpper. destruct (TrimSpace raw) as [|c s]; [done|]. destruct (runes (String c s)) as [|r rs] eqn:ER; [|apply encode_runes_nonempty].
  unfold runes, range_str in ER. cbn [range_from] in ER. by destruct (DecodeRune (String c s)).
Qed.

(** ** Rows that were read *)

(** [r0] was a row of the table, and still has a descendant in it. *)
Definition seen (w : IWorld) (r0 : identityRow) : Prop :=
  id_row_ok (iw_log w) r0 /\ exists r, r ∈ t_identities (iw_db w) /\ id_evolves r0 r.

Lemma seen_later w w' r0 : IRel w w' -> seen w r0 -> seen w' r0.
Proof.
  intros HR [H1 (r & Hr & E)]. split; [by eapply id_row_ok_mono; [apply (rel_log _ _ HR)|]|]. destruct (rel_rows _ _ HR r Hr) as (r' & Hr' & E'). exists r'. split; [done|by etrans].
Qed.

Lemma row_seen w r : IInv w -> r ∈ t_identities (iw_db w) -> seen w r.
Proof. intros [_ HI] Hr. split; [|exists r; by split]. pose proof (ii_rows _ _ _ HI) as H. rewrite Forall_forall in H. by apply H. Qed.

Lemma FindByID_Ok id ra d v d' : IdentityStore_FindByID id ra d = Ok (v, d') ->
  d' = d /\ exists r, r ∈ t_identities d /\ id_identity_id r = id /\ v = identity_toDomain r.
Proof.
  unfold IdentityStore_FindByID, identity_row. destruct (find_first _ _) as [r|] eqn:E; [|done]. cbn. intros [= <- <-]. split; [done|].
  apply find_first_Some in E as [H1 H2%String.eqb_eq]. by exists r.
Qed.

(** The row behind an aggregate that was loaded. *)
Definition loaded (w : IWorld) (provider id : string) (v : VerifiedIdentity) : Prop :=
  exists r0, seen w r0 /\ v = identity_toDomain r0 /\ id_provider_id r0 = provider /\ id_identity_id r0 = id.

Lemma loaded_later w w' p id v : IRel w w' -> loaded w p id v -> loaded w' p id v.
Proof. intros HR (r0 & Hs & HH). exists r0. split; [by eapply seen_later|done]. Qed.

Lemma owned_safe b t provider id w : isafe t (owned_with b provider id) (fun v w' => loaded w' provider id v) w.
Proof.
  unfold owned_with. case_if; [done|]. apply isafe_bind, isafe_read; [by intros ra d a d' [-> _]%FindByID_Ok|].
  intros w' HR HI v d (_ & r & Hr & Eid & ->)%FindByID_Ok. destruct (String.eqb_spec (vi_ProviderID (identity_toDomain r)) provider) as [Ep|]; [|done]. cbn [negb].
  apply isafe_ret. exists r. split; [by apply row_seen|done].
Qed.

(** ** Updates of the challenge columns *)

Lemma upd_challenge_le r pv pa n e c cl u : core_le r (upd_challenge r pv pa n e c cl u) /\ id_evolves r (upd_challenge r pv pa n e c cl u).
Proof. split; [by repeat split; left|]. split; cbn; auto. Qed.

Lemma upd_challenge_ok log r pv pa n e c cl u :
  id_row_ok log r -> (pv = "" \/ (id_status r = IdentityVerified /\ canonical_value (id_kind r) pv)) -> (id_status r = IdentityRevoked -> n = None) ->
  id_row_ok log (upd_challenge r pv pa n e c cl u).
Proof. intros [H1 H2 H3 H4 H5 H6 H7 H8] Hp Hn. by split. Qed.

(** A statement that keeps the nonce and the staged value. *)
Lemma keep_nonce_ok t w (cond : identityRow -> bool) (g : identityRow -> option string * option Z * option Z * option Z * Z) :
  IInv w -> let f r := let '(pa, e, c, cl, u) := g r in upd_challenge r (id_pending_value r) pa (id_nonce r) e c cl u in
  let w' := with_iddb w (set_identities (iw_db w) ((fun r => if cond r then f r else r) <$> t_identities (iw_db w))) in IInv w' /\ IG t w w'.
Proof.
  intros HI f. apply map_rows_ok; [done|]. intros r Hr _ Hok. unfold f. destruct (g r) as [[[[pa e] c] cl] u].
  destruct (upd_challenge_le r (id_pending_value r) pa (id_nonce r) e c cl u) as [H1 H2]. split_and!; [done..|]. apply upd_challenge_ok; [done|apply (ir_pending _ _ Hok)|apply (ir_nonce _ _ Hok)].
Qed.

Lemma Release_safe t id nonce w (Q : unit -> IWorld -> Prop) : (forall w', IRel w w' -> Q tt w') -> isafe t (releaseClaim id nonce) Q w.
Proof.
  intros HQ. unfold releaseClaim. apply isafe_bind, isafe_attempt. cbn. intros w' [HR _] HI.
  destruct (keep_nonce_ok t w' (open_nonce id nonce) (fun r => (id_pending_subject_aid r, id_expires_ms r, id_consumed_ms r, None, id_updated_ms r)) HI) as [I' G'].
  split_and!; [done..|]. apply HQ. etrans; [exact HR|apply G'].
Qed.

Lemma or_release_safe {A} t id nonce (m : isvc A) Q w : isafe t m Q w -> isafe t (or_release id nonce m) Q w.
Proof.
  intros Hm. unfold or_release. apply isafe_bind, isafe_attempt. eapply osafe_mono; [|exact Hm]. intros [a|e] w' HQ; [done|].
  apply isafe_bind. apply Release_safe. intros w'' _. apply isafe_lift. done.
Qed.

Lemma Claim_safe t id nonce now stale w (Q : unit -> IWorld -> Prop) : (forall w', IRel w w' -> Q tt w') -> isafe t (iatomic (ClaimChallenge id nonce now stale)) Q w.
Proof.
  intros HQ. apply isafe_atomic. intros w' [HR _] HI a d H. unfold ClaimChallenge, update_identity in H. case_if_in H; [|done]. injection H as <- <-.
  destruct (keep_nonce_ok t w' (fun r => open_nonce id nonce r && sql_gt (id_expires_ms r) (Time_UnixMilli now) &&
      (is_null (id_claimed_ms r) || sql_lt (id_claimed_ms r) (Time_UnixMilli stale))) (fun r => (id_pending_subject_aid r, id_expires_ms r, id_consumed_ms r, Some (Time_UnixMilli now), Time_UnixMilli now)) HI) as [I' G'].
  split_and!; [done..|]. apply HQ. etrans; [exact HR|apply G'].
Qed.

(** ** Sealing *)

Section Methods.
Context (P : IdPorts) (HP : ports_ok P).

Definition event_base (ev : IdentityEvent) : Prop :=
  iv_IdentityID ev <> "" /\ iv_Kind ev <> "" /\ iv_Value ev <> "" /\ iv_Timestamp ev = FormatRFC3339 (ip_now P).

Lemma timestamp_ok : ParseRFC3339 (FormatRFC3339 (ip_now P)) <> None /\ FormatRFC3339 (ip_now P) <> "".
Proof.
  destruct HP as [HT _]. pose proof (FormatRFC3339_parses _ HT) as E. split; [by rewrite E|]. intros E0. rewrite E0 in E. done.
Qed.

Lemma event_valid ev : event_base ev -> IdentityType_IsValid (iv_EventType ev) = true ->
  (if IdentityType_isLink (iv_EventType ev) then iv_AnsIDs ev <> [] /\ Forall (fun id => id <> "") (iv_AnsIDs ev) else iv_AnsIDs ev = []) ->
  (IdentityType_isProof (iv_EventType ev) = true -> iv_Keys ev <> [] /\ validate_keys (iv_Keys ev) = Ok tt /\ iv_VerifiedAt ev <> "" /\ iv_ProviderID ev <> "") ->
  (iv_EventType ev = TypeIdentityRevoked -> iv_RevokedAt ev <> "") -> IdentityEvent_Validate (Some ev) = Ok tt.
Proof.
  intros (H1 & H2 & H3 & H4) Hty Hans Hproof Hrev. destruct timestamp_ok as [HT HT']. unfold IdentityEvent_Validate. rewrite Hty. cbn [negb]. rewrite <-H4 in HT, HT'.
  apply String.eqb_neq in H1 as ->, H2 as ->, H3 as ->, HT' as ->. destruct (ParseRFC3339 (iv_Timestamp ev)); [|done].
  replace (if IdentityType_isLink (iv_EventType ev) then _ else _) with (Ok (E := identity_error) tt).
  2: { destruct (IdentityType_isLink _).
       - destruct Hans as [Hne Hall]. destruct (iv_AnsIDs ev) as [|x l]; [done|]. cbn [length Nat.eqb negb andb]. unfold guard_err.
         replace (forallb _ _) with true; [done|]. symmetry. apply forallb_forall. intros y Hy%list_elem_of_In. rewrite Forall_forall in Hall. apply Hall, String.eqb_neq in Hy. by rewrite Hy.
       - by rewrite Hans. }
  cbn [mbind result_bind]. replace (if IdentityType_isProof (iv_EventType ev) then _ else _) with (Ok (E := identity_error) tt).
  2: { destruct (IdentityType_isProof _); [|done]. destruct (Hproof eq_refl) as (K1 & K2 & K3 & K4). unfold validateProofFields. rewrite K2.
       apply String.eqb_neq in K3 as ->, K4 as ->. by destruct (iv_Keys ev). }
  cbn [mbind result_bind]. destruct (String.eqb_spec (iv_EventType ev) TypeIdentityRevoked) as [E|]; [|done]. apply Hrev, String.eqb_neq in E as ->. done.
Qed.

Lemma seal_safe t ev now w (Q : unit -> IWorld -> Prop) :
  IdentityEvent_Validate (Some ev) = Ok tt -> NoDup (iv_AnsIDs ev) -> (IdentityType_isProof (iv_EventType ev) = true -> control_proved (iw_log w) ev) ->
  (forall w', IRel w w' -> acked (iw_log w') (fun e => e = ev) -> Q tt w') ->
  isafe t (sealIdentityEvent P ev now) Q w.
Proof.
  intros HV HN HC HQ. unfold sealIdentityEvent. destruct (ip_sealer P) as [seal|]; [|done]. destruct (CanonicalizeIdentity ev) as [c|] eqn:EC; [|done].
  apply isafe_bind, isafe_lift. intros sig _. apply isafe_call.
  - intros w' HR _. split_and!; [done..|]. intros Hp. by eapply control_proved_mono; [apply (rel_log _ _ HR)|apply HC].
  - intros w' HR Hin [] E. rewrite E in Hin. apply HQ; [done|]. exists ev, c, sig. by split.
Qed.

(** ** Challenges *)

(** A handler that inserts nothing may own a name, which stays fresh. *)
Definition fresh_id (id : string) (w : IWorld) : Prop := id ∉ ids_of w.

Lemma isafe_none {A} id (m : isvc A) Q w :
  isafe None m Q w -> fresh_id id w -> isafe (Some id) m (fun a w' => Q a w' /\ fresh_id id w') w.
Proof.
  unfold isafe. revert w. generalize (m : prog IWorld (result serr A)). intros p. induction p as [[a|e]|B f k IH]; intros w Hs Hf; cbn; [done|done|].
  intros w' [HR HN] HI. assert (IR None w w') as HR0 by (by split). destruct (Hs w' HR0 HI) as (I' & G' & Hk). split; [done|]. split; [split; [apply G'|intros x Hx; left; destruct (proj2 G' x Hx); done]|].
  apply IH; [done|]. intros Hin. destruct (proj2 G' id Hin) as [Hin'|]; [|done]. by apply Hf, (HN id).
Qed.

(** The aggregate fits the row it was loaded from. *)
Definition staged (w : IWorld) (v : VerifiedIdentity) : Prop :=
  exists r0, seen w r0 /\ vi_IdentityID v = id_identity_id r0 /\ vi_Kind v = id_kind r0 /\
    (vi_PendingValue v = "" \/ (vi_Status v = IdentityVerified /\ canonical_value (vi_Kind v) (vi_PendingValue v))).

Lemma staged_later w w' v : IRel w w' -> staged w v -> staged w' v.
Proof. intros HR (r0 & Hs & HH). exists r0. split; [by eapply seen_later|done]. Qed.

Lemma present_safe t cv v opt now w (Q : VerifiedIdentity * string -> IWorld -> Prop) :
  (forall w' v' s, IRel w w' -> vi_IdentityID v' = vi_IdentityID v -> vi_ProviderID v' = vi_ProviderID v -> vi_Kind v' = vi_Kind v -> vi_Value v' = vi_Value v ->
     vi_Status v' = vi_Status v -> vi_PendingValue v' = vi_PendingValue v -> Q (v', s) w') ->
  isafe t (present cv v opt now) Q w.
Proof.
  intros HQ. destruct cv as [| |ctl]; [by apply HQ|by apply HQ|]. cbn [present]. apply isafe_bind. unfold RegisterPresentation. case_if; [done|].
  apply isafe_bind, isafe_call; [done|]. intros w1 R1 _ res _. case_if; [done|]. case_if; [done|]. apply isafe_ret. apply isafe_bind, isafe_lift. intros v' Hv'.
  unfold StageSubjectAID in Hv'. case_if_in Hv'; [done|]. injection Hv' as <-. apply isafe_ret. by apply HQ.
Qed.

Lemma Challenges_safe t cv v input w (Q : list ProofChallenge -> IWorld -> Prop) :
  (forall w' l, IRel w w' -> Q l w') -> isafe t (Challenges P cv v input) Q w.
Proof.
  intros HQ. destruct cv as [| |ctl]; cbn [Challenges].
  - apply isafe_bind. unfold resolve. apply isafe_call; [done|]. intros w1 R1 _ doc _. by apply isafe_ret, HQ.
  - destruct (DecodeDIDKey _) as [[k kid]|]; [|done]. by apply isafe_ret, HQ.
  - case_if; [done|]. by apply isafe_ret, HQ.
Qed.

Lemma ids_unique w r r' : IInv w -> r ∈ t_identities (iw_db w) -> r' ∈ t_identities (iw_db w) -> id_identity_id r = id_identity_id r' -> r = r'.
Proof.
  intros [_ HI]. apply NoDup_key, (ii_ids _ _ _ HI).
Qed.

Lemma StageChallenge_safe t v expectedNonce stale w :
  staged w v -> vi_Status v <> IdentityRevoked -> isafe t (StageChallenge v (vi_Status v) expectedNonce stale) (fun _ _ => True) w.
Proof.
  intros Hst Hnr. unfold StageChallenge. destruct (vi_Challenge v) as [c|]; [|done]. apply isafe_bind, isafe_atomic. intros w' [HR _] HI one d H.
  unfold StageChallenge_update, update_identity in H. injection H as <- <-. apply (staged_later _ _ _ HR) in Hst as (r0 & [_ (r1 & Hr1 & Ev)] & Eid & Ek & Hpv).
  match goal with |- context [set_identities _ ?l] => assert (IInv (with_iddb w' (set_identities (iw_db w') l)) /\ IG t w' (with_iddb w' (set_identities (iw_db w') l))) as [I' G'] end.
  { apply map_rows_ok; [done|]. intros r Hr Hc Hok. rewrite !andb_true_iff in Hc. destruct Hc as (((Hid%String.eqb_eq & Hs%String.eqb_eq) & _) & _).
    assert (r = r1) as ->. { apply (ids_unique w'); [done..|]. rewrite Hid, Eid. symmetry. apply (ie_id _ _ Ev). }
    pose proof (upd_challenge_le r1) as HU. split_and!; [apply HU|apply HU|]. apply upd_challenge_ok; [done| |intros E; by rewrite Hs in E].
    rewrite Hs, (ie_kind _ _ Ev), <-Ek. exact Hpv. }
  split_and!; [done..|]. case_if; [done|]. apply isafe_bind, isafe_read; [by intros ra d a d' [-> _]%FindByID_Ok|]. done.
Qed.

Lemma mapped_save_Ok v ra d u d' : save_mapped v ra d = Ok (u, d') -> IdentityStore_Save v ra d = Ok (u, d').
Proof. unfold save_mapped. destruct (IdentityStore_Save v ra d) as [r|e]; [congruence|done]. Qed.

Lemma keys_sym a b : live_key a b || proven_key a b = live_key b a || proven_key b a.
Proof.
  unfold live_key, proven_key. rewrite (String.eqb_sym (id_provider_id a)), (String.eqb_sym (id_kind a)), (String.eqb_sym (id_value a)).
  rewrite <-!andb_assoc, (andb_comm (negb (String.eqb (id_status a) _))), (andb_comm (String.eqb (id_status a) _)). done.
Qed.

(** A new row, of an owner and with a value from the grammar. *)
Lemma Save_new_ok w v ra d :
  IInv w -> fresh_id (vi_IdentityID v) w -> vi_IdentityID v <> "" -> vi_ProviderID v <> "" -> canonical_value (vi_Kind v) (vi_Value v) -> vi_PendingValue v = "" ->
  vi_Status v = IdentityPendingControl -> IdentityStore_Save v ra (iw_db w) = Ok (tt, d) ->
  IInv (with_iddb w d) /\ IG (Some (vi_IdentityID v)) w (with_iddb w d).
Proof.
  intros HI Hf Hid Hp Hval Hpv Hst H. unfold IdentityStore_Save in H.
  assert (identity_row (iw_db w) (vi_IdentityID v) = None) as EN.
  { apply find_first_None. apply Forall_forall. intros r Hr. apply String.eqb_neq. intros E. apply Hf. unfold ids_of. rewrite <-E. by apply list_elem_of_fmap_2. }
  assert (status_checked (vi_Status v) = true) as Ec by (by rewrite Hst). rewrite EN, Ec in H. cbn [negb] in H. set (row := identity_of v _ _ _) in H.
  destruct (index_conflict row (t_identities (iw_db w))) eqn:EX; [done|]. injection H as <-.
  pose proof HI as [_ [H1 H2 H3 _ _]]. assert (forall b, b ∈ t_identities (iw_db w) -> id_identity_id b <> vi_IdentityID v /\ live_key row b || proven_key row b = false) as HX.
  { intros b Hb. assert (id_identity_id b <> vi_IdentityID v) as Hne. { intros E. apply Hf. unfold ids_of. rewrite <-E. by apply list_elem_of_fmap_2. }
    split; [done|]. apply not_true_iff_false. intros Hk. apply not_true_iff_false in EX. apply EX. apply existsb_exists. exists b. split; [by apply list_elem_of_In|].
    apply andb_true_iff. split; [|done]. unfold with_identity. change (id_identity_id row) with (vi_IdentityID v). apply String.eqb_neq in Hne. by rewrite Hne. }
  apply rows_ok; [done| | | | |].
  - rewrite fmap_app. apply NoDup_app. split; [done|]. split; [|apply NoDup_singleton]. intros x Hx ->%list_elem_of_singleton. by apply Hf.
  - intros a b Ha Hb Hk. apply elem_of_app in Ha as [Ha| ->%list_elem_of_singleton], Hb as [Hb| ->%list_elem_of_singleton]; [by apply H2| | |done].
    + destruct (HX a Ha) as [_ E]. rewrite keys_sym in Hk. congruence.
    + destruct (HX b Hb) as [_ E]. congruence.
  - apply Forall_app. split; [done|]. apply Forall_singleton. split; cbn; rewrite ?Hst; try done. by left.
  - intros r Hr. exists r. split; [apply elem_of_app; by left|reflexivity].
  - intros r [Hr| ->%list_elem_of_singleton]%elem_of_app; [left; by apply list_elem_of_fmap_2|by right].
Qed.

Lemma isafe_internal {A} t code (o : option A) (Q : A -> IWorld -> Prop) w : (forall a, o = Some a -> Q a w) -> isafe t (or_internal code o) Q w.
Proof. intros H. destruct o as [a|]; [by apply H|done]. Qed.

Lemma IssueChallenge_Ok v nonce ttl now v' : IssueChallenge v nonce ttl now = Ok v' ->
  vi_Status v <> IdentityRevoked /\ vi_IdentityID v' = vi_IdentityID v /\ vi_ProviderID v' = vi_ProviderID v /\ vi_Kind v' = vi_Kind v /\ vi_Value v' = vi_Value v /\
  vi_Status v' = vi_Status v /\ vi_PendingValue v' = vi_PendingValue v.
Proof.
  unfold IssueChallenge. destruct (String.eqb_spec (vi_Status v) IdentityRevoked); [done|]. case_if; [done|]. case_if; [done|]. by intros [= <-].
Qed.

Lemma challenge_existing_safe t v now opt w : staged w v -> isafe t (challenge P v now false opt) (fun _ _ => True) w.
Proof.
  intros Hst. unfold challenge. apply isafe_bind, isafe_lift. intros cv _. apply isafe_bind, present_safe. intros w1 v1 st R1 E1 E2 E3 E4 E5 E6. cbv beta iota.
  apply isafe_bind, isafe_internal. intros nonce _. apply isafe_bind, isafe_lift. intros v2 Hv2. destruct (IssueChallenge v1 nonce (ip_challengeTTL P) now) as [v2'|] eqn:EI; [|done].
  injection Hv2 as ->. apply IssueChallenge_Ok in EI as (F0 & F1 & F2 & F3 & F4 & F5 & F6). apply isafe_bind, isafe_internal. intros input _.
  apply isafe_bind, Challenges_safe. intros w2 l R2. apply isafe_bind. rewrite <-F5. eapply isafe_mono; [|apply StageChallenge_safe; [|congruence]]; [done|].
  apply (staged_later _ _ _ R2), (staged_later _ _ _ R1). destruct Hst as (r0 & Hs & A1 & A2 & A3). exists r0. split; [done|]. rewrite F1, F3, F5, F6, E1, E3, E5, E6. done.
Qed.

Lemma challenge_new_safe v now opt w :
  fresh_id (vi_IdentityID v) w -> vi_IdentityID v <> "" -> vi_ProviderID v <> "" -> canonical_value (vi_Kind v) (vi_Value v) -> vi_PendingValue v = "" ->
  vi_Status v = IdentityPendingControl -> isafe (Some (vi_IdentityID v)) (challenge P v now true opt) (fun _ _ => True) w.
Proof.
  intros Hf H1 H2 H3 H4 H5. unfold challenge. apply isafe_bind, isafe_lift. intros cv _.
  apply isafe_bind. eapply isafe_mono; [|apply isafe_none; [apply (present_safe None cv v opt now w (fun x _ => vi_IdentityID x.1 = vi_IdentityID v /\ vi_ProviderID x.1 = vi_ProviderID v /\
    vi_Kind x.1 = vi_Kind v /\ vi_Value x.1 = vi_Value v /\ vi_Status x.1 = vi_Status v /\ vi_PendingValue x.1 = vi_PendingValue v)); by intros|exact Hf]].
  intros [v1 st] w1 ((E1 & E2 & E3 & E4 & E5 & E6) & Hf1). cbn [fst] in *. cbv beta iota.
  apply isafe_bind, isafe_internal. intros nonce _. apply isafe_bind, isafe_lift. intros v2 Hv2. destruct (IssueChallenge v1 nonce (ip_challengeTTL P) now) as [v2'|] eqn:EI; [|done].
  injection Hv2 as ->. apply IssueChallenge_Ok in EI as (F0 & F1 & F2 & F3 & F4 & F5 & F6). apply isafe_bind, isafe_internal. intros input _.
  apply isafe_bind. eapply isafe_mono; [|apply isafe_none; [by apply (Challenges_safe None cv v2 input w1 (fun _ _ => True))|exact Hf1]]. intros l w2 [_ Hf2].
  apply isafe_bind, isafe_atomic. intros w3 [_ HR] HI [] d Hd%mapped_save_Ok.
  assert (fresh_id (vi_IdentityID v) w3) as Hf3. { intros Hin. by apply Hf2, (HR (vi_IdentityID v)). }
  rewrite <-E1, <-F1 in *. destruct (Save_new_ok w3 v2 (w_db (iw_ra w3)) d HI) as [I' G']; [done|done|congruence|by rewrite F3, F4, E3, E4|congruence|congruence|exact Hd|].
  split_and!; done.
Qed.

Lemma FindLive_Ok p k val ra d v d' : FindLive p k val ra d = Ok (v, d') ->
  d' = d /\ exists r, r ∈ t_identities d /\ v = identity_toDomain r.
Proof.
  unfold FindLive. destruct (find_first _ _) as [r|] eqn:E; [|done]. cbn. intros [= <- <-]. split; [done|]. apply find_first_Some in E as [H _]. by exists r.
Qed.

Lemma loaded_staged w r0 : seen w r0 -> staged w (identity_toDomain r0).
Proof. intros Hs. exists r0. split_and!; [done..|]. apply (ir_pending _ _ (proj1 Hs)). Qed.

Lemma ireads_same {A} (f : IdDB -> A) ra d a d' : ireads f ra d = Ok (a, d') -> d' = d.
Proof. by intros [= _ <-]. Qed.

(** The token of a registration is the id it may draw. *)
Lemma Register_safe provider raw opt w :
  (forall id, ip_newID P = Some id -> fresh_id id w) -> isafe (ip_newID P) (Identity_Register P provider raw opt) (fun _ _ => True) w.
Proof.
  intros Hfresh. unfold Identity_Register. destruct (String.eqb_spec provider "") as [|Hp]; [done|].
  set (N := fun w' : IWorld => forall id, ip_newID P = Some id -> fresh_id id w').
  assert (forall {A} (m : isvc A) Q w, isafe None m Q w -> N w -> isafe (ip_newID P) m (fun a w' => Q a w' /\ N w') w) as HN.
  { intros A m Q w0 Hm Hn. unfold N in *. destruct (ip_newID P) as [id|]; [|by eapply isafe_mono; [|exact Hm]]. eapply isafe_mono; [|apply isafe_none; [exact Hm|by apply Hn]].
    intros a w' [HQ Hf]. split; [done|]. by intros id' [= <-]. }
  apply isafe_bind. eapply isafe_mono; [|apply HN; [by apply (isafe_allow P None false provider (fun _ _ => True))|exact Hfresh]]. intros _ w1 [_ N1].
  apply isafe_bind, isafe_lift. intros [kind canonical] Hk. destruct (InferIdentifierKind raw) as [kc|] eqn:EK; [|done]. injection Hk as ->.
  apply isafe_bind, isafe_lift. intros cv _. apply isafe_bind.
  eapply isafe_mono; [|apply HN; [apply (isafe_attempt None (iatomic (FindLive provider kind canonical)) (fun r w' => match r with Ok v => staged w' v | Err _ => True end)),
    (isafe_read None (FindLive provider kind canonical) (fun v w' => staged w' v))|exact N1]].
  2: by intros ra d a d' [-> _]%FindLive_Ok.
  2: { intros w' HR HI v d (_ & r & Hr & ->)%FindLive_Ok. by apply loaded_staged, row_seen. }
  intros [existing|e] w2 [Hst N2]; [case_if; [done|by apply challenge_existing_safe]|]. case_if; [done|].
  apply isafe_bind. eapply isafe_mono; [|apply HN; [by apply (isafe_read None (ExistsVerified kind canonical) (fun _ _ => True)); [apply ireads_same|]|exact N2]].
  intros taken w3 [_ N3]. case_if; [done|]. destruct (ip_newID P) as [id|] eqn:EID; [|done]. apply isafe_bind, isafe_internal. intros id' [= <-].
  apply isafe_bind, isafe_lift. intros v Hv. unfold NewVerifiedIdentity in Hv. case_if_in Hv; [done|]. case_if_in Hv; [done|].
  destruct (InferIdentifierKind canonical) as [[k2 c2]|] eqn:EK2; [|done]. injection Hv as Hv.
  assert (vi_IdentityID v = id) as <- by (by rewrite <-Hv). apply challenge_new_safe; [by apply N3|by apply String.eqb_neq|rewrite <-Hv; cbn..].
  - done.
  - by exists canonical.
  - done.
  - done.
Qed.

Lemma Rotate_safe t provider id raw opt w : isafe t (Rotate P provider id raw opt) (fun _ _ => True) w.
Proof.
  unfold Rotate. apply isafe_bind, isafe_allow. intros w1 _. apply isafe_bind. eapply isafe_mono; [|apply owned_safe]. intros v w2 (r0 & Hs & -> & _ & _).
  apply isafe_bind, isafe_lift. intros v' Hv'. unfold StageRotation in Hv'. destruct (String.eqb_spec (vi_Status (identity_toDomain r0)) IdentityVerified) as [Est|]; [|done]. cbn [negb] in Hv'.
  destruct (InferIdentifierKind raw) as [[kind canonical]|] eqn:EK; [|done]. cbn [mbind result_bind] in Hv'.
  destruct (String.eqb_spec kind (vi_Kind (identity_toDomain r0))) as [->|]; [|done]. injection Hv' as <-.
  apply challenge_existing_safe. exists r0. split_and!; [done..|]. right. split; [done|by exists raw].
Qed.

(** ** Verifying control *)

Lemma CompleteVerification_Ok log r now v prev :
  id_row_ok log r -> CompleteVerification (identity_toDomain r) now = Ok (v, prev) ->
  vi_IdentityID v = id_identity_id r /\ vi_ProviderID v = id_provider_id r /\ vi_Kind v = id_kind r /\ vi_Value v = EffectiveValue (identity_toDomain r) /\
  vi_Status v = IdentityVerified /\ vi_PendingValue v = "" /\ canonical_value (id_kind r) (EffectiveValue (identity_toDomain r)).
Proof.
  intros Hok H. unfold CompleteVerification in H. cbn [identity_toDomain vi_Status vi_Value vi_PendingValue] in H.
  assert (canonical_value (id_kind r) (EffectiveValue (identity_toDomain r))) as HC.
  { unfold EffectiveValue. cbn. destruct (String.eqb_spec (id_pending_value r) ""); cbn; [apply (ir_value _ _ Hok)|]. by destruct (ir_pending _ _ Hok) as [|[_ ?]]. }
  destruct (String.eqb_spec (id_status r) IdentityPendingControl) as [Ep|_].
  { injection H as <- <-. cbn. split_and!; try done. unfold EffectiveValue. cbn. destruct (ir_pending _ _ Hok) as [->|[E _]]; [done|by rewrite Ep in E]. }
  destruct (String.eqb_spec (id_status r) IdentityVerified) as [Ev|_]; [|by destruct (String.eqb (id_status r) IdentityRevoked)].
  unfold EffectiveValue in *. cbn [identity_toDomain vi_Value vi_PendingValue] in *.
  destruct (String.eqb_spec (id_pending_value r) "") as [Ee|Ee], (String.eqb_spec (id_pending_value r) (id_value r)) as [Eq|Eq]; cbn in H, HC |- *; injection H as <- <-; cbn; split_and!; done.
Qed.

(** What the commit of a verification relies on. *)
Definition verified_as (w : IWorld) (r0 : identityRow) (v : VerifiedIdentity) : Prop :=
  seen w r0 /\ vi_IdentityID v = id_identity_id r0 /\ canonical_value (id_kind r0) (vi_Value v) /\ vi_Status v = IdentityVerified /\ vi_PendingValue v = "" /\
  acked (iw_log w) (fun ev => IdentityType_isProof (iv_EventType ev) = true /\ iv_IdentityID ev = id_identity_id r0 /\ iv_Kind ev = id_kind r0 /\ iv_Value ev = vi_Value v /\
                              iv_ProviderID ev = id_provider_id r0).

Lemma commit_rows id nonce now v ra d u d1 a d2 :
  ConsumeChallenge id nonce now ra d = Ok (u, d1) -> vi_IdentityID v = id -> IdentityStore_Save v ra d1 = Ok (a, d2) -> NoDup (id_identity_id <$> t_identities d) ->
  exists r1 row, r1 ∈ t_identities d /\ id_identity_id r1 = id /\ id_nonce r1 <> None /\ row = identity_of v (id_provider_id r1) (id_kind r1) (id_created_ms r1) /\
    d2 = set_identities d ((fun r => if with_identity id r then row else r) <$> t_identities d) /\
    forall b, b ∈ t_identities d -> id_identity_id b <> id -> live_key row b || proven_key row b = false.
Proof.
  intros HC Eid HS HN. unfold ConsumeChallenge, update_identity in HC. cbv zeta in HC. destruct (length _ =? 1)%nat eqn:EL; [|done]. injection HC as _ <-. apply Nat.eqb_eq in EL.
  set (cond := consumable id nonce (Time_UnixMilli now)) in *. set (f := fun r => if cond r then consume_row (Time_UnixMilli now) r else r) in HS.
  assert (exists r1, r1 ∈ t_identities d /\ cond r1 = true) as (r1 & Hr1 & Hc1).
  { destruct (filter (fun r => cond r = true) (t_identities d)) as [|r1 l] eqn:EF; [done|]. exists r1. assert (r1 ∈ filter (fun r => cond r = true) (t_identities d)) as H by (rewrite EF; left).
    by apply list_elem_of_filter in H as [? ?]. }
  assert (forall r, id_identity_id (f r) = id_identity_id r /\ id_provider_id (f r) = id_provider_id r /\ id_kind (f r) = id_kind r /\ id_created_ms (f r) = id_created_ms r) as Hf.
  { intros r. unfold f. by destruct (cond r). }
  assert (forall r, cond r = true -> id_identity_id r = id /\ id_nonce r <> None) as Hcid.
  { intros r. unfold cond, consumable, open_nonce. rewrite !andb_true_iff. intros (((E%String.eqb_eq & Hn) & _) & _). split; [done|]. by destruct (id_nonce r). }
  destruct (Hcid r1 Hc1) as [Eid1 Hn1].
  unfold IdentityStore_Save in HS. rewrite Eid in HS. cbn [set_identities t_identities] in HS.
  destruct (identity_row _ id) as [old|] eqn:EO.
  2: { apply find_first_None in EO. rewrite Forall_forall in EO. specialize (EO (f r1) ltac:(by apply (list_elem_of_fmap_2 f))). unfold with_identity in EO.
       rewrite (proj1 (Hf r1)), Eid1, String.eqb_refl in EO. done. }
  apply find_first_Some in EO as [HO EO%String.eqb_eq]. apply list_elem_of_fmap_1 in HO as (r1' & -> & Hr1').
  assert (r1' = r1) as ->. { apply (NoDup_key id_identity_id (t_identities d)); [done..|]. rewrite <-(proj1 (Hf r1')). congruence. }
  destruct (Hf r1) as (_ & F2 & F3 & F4). rewrite F2, F3, F4 in HS. case_if_in HS; [done|]. set (row := identity_of v _ _ _) in *.
  destruct (index_conflict row _) eqn:EX; [done|]. injection HS as _ <-. exists r1, row. split_and!; [done..| |].
  - unfold set_identities. cbn. f_equal. rewrite <-list_fmap_compose. apply list_fmap_ext. intros i r _. cbn. unfold with_identity. rewrite (proj1 (Hf r)).
    destruct (String.eqb_spec (id_identity_id r) id) as [|Hne]; [done|]. unfold f. destruct (cond r) eqn:E; [|done]. by apply Hcid in E as [? _].
  - intros b Hb Hne. apply not_true_iff_false. intros Hk. apply not_true_iff_false in EX. apply EX, existsb_exists. exists b. split.
    + apply list_elem_of_In. assert (f b = b) as <-. { unfold f. destruct (cond b) eqn:E; [|done]. by apply Hcid in E as [? _]. } by apply (list_elem_of_fmap_2 f).
    + rewrite Hk, andb_true_r. unfold with_identity. change (id_identity_id row) with (vi_IdentityID v). rewrite Eid. by apply String.eqb_neq in Hne as ->.
Qed.

Lemma commit_verified_ok t w r0 v nonce now a d :
  IInv w -> verified_as w r0 v -> commit_verified v nonce now (w_db (iw_ra w)) (iw_db w) = Ok (a, d) -> IInv (with_iddb w d) /\ IG t w (with_iddb w d).
Proof.
  intros HI ([_ (r & Hr & Ev)] & Eid & Hval & Hst & Hpv & Hack) H. unfold commit_verified, mbind, itx_bind in H.
  destruct (ConsumeChallenge _ _ _ _ _) as [[[] d1]|] eqn:EC; [|done]. destruct (save_mapped _ _ _) as [[[] d2]|] eqn:ES; [|done]. apply mapped_save_Ok in ES. injection H as _ <-.
  pose proof HI as [_ [H1 H2 H3 _ _]]. rewrite Forall_forall in H3.
  destruct (commit_rows _ _ _ (consumed v now) _ _ _ _ _ _ EC eq_refl ES H1) as (r1 & row & Hr1 & Eid1 & Hn1 & Erow & -> & HX).
  assert (r1 = r) as ->. { apply (ids_unique w); [done..|]. rewrite Eid1, (ie_id _ _ Ev). exact Eid. }
  pose proof (H3 r Hr) as Hok. assert (id_status r <> IdentityRevoked) as Hnr. { intros E. by apply Hn1, (ir_nonce _ _ Hok). }
  assert (id_row_ok (iw_log w) row) as Hrow.
  { rewrite Erow. split; cbn [identity_of id_identity_id id_provider_id id_kind id_value id_status id_pending_value consumed upd_identity vi_IdentityID vi_Value vi_Status vi_PendingValue].
    - rewrite Eid, <-(ie_id _ _ Ev). apply (ir_id _ _ Hok).
    - apply (ir_provider _ _ Hok).
    - by rewrite (ie_kind _ _ Ev).
    - by left.
    - by rewrite Hst.
    - by rewrite Hst.
    - intros _. destruct Hack as (ev & c & s & Hin & K1 & K2 & K3 & K4 & K5). exists ev, c, s. split; [done|]. unfold proof_of. cbn. rewrite (ie_kind _ _ Ev), (ie_provider _ _ Ev), Eid. done.
    - by rewrite Hst. }
  set (id := vi_IdentityID v) in *. assert (id_identity_id row = id) as Ei by (by rewrite Erow).
  apply rows_ok; [done| | | | |].
  - rewrite <-list_fmap_compose. replace (id_identity_id ∘ _ <$> _) with (id_identity_id <$> t_identities (iw_db w)); [done|]. apply list_fmap_ext. intros i x _. cbn.
    unfold with_identity. by destruct (String.eqb_spec (id_identity_id x) id) as [->|].
  - intros a0 b0 Ha Hb Hk. apply list_elem_of_fmap_1 in Ha as (x & -> & Hx), Hb as (y & -> & Hy). revert Hk. unfold with_identity.
    destruct (String.eqb_spec (id_identity_id x) id) as [Ex|Ex], (String.eqb_spec (id_identity_id y) id) as [Ey|Ey]; [done| | |by apply H2].
    + by rewrite (HX y Hy Ey).
    + by rewrite keys_sym, (HX x Hx Ex).
  - apply Forall_forall. intros x Hx. apply list_elem_of_fmap_1 in Hx as (y & -> & Hy). case_if; [done|by apply H3].
  - intros x Hx. exists (if with_identity id x then row else x). split; [by apply (list_elem_of_fmap_2 (fun r => if with_identity id r then row else r))|].
    unfold with_identity. destruct (String.eqb_spec (id_identity_id x) id) as [Ex|]; [|reflexivity].
    assert (x = r) as ->. { apply (ids_unique w); [done..|]. rewrite Ex. by rewrite Eid1. }
    rewrite Erow. split; cbn; [symmetry; exact Ex|done|done|done|]. rewrite Hst. by left.
  - intros x Hx. left. apply list_elem_of_fmap_1 in Hx as (y & -> & Hy). unfold with_identity. destruct (String.eqb_spec (id_identity_id y) id) as [Ex|]; [|by apply list_elem_of_fmap_2].
    rewrite Ei, <-Ex. by apply list_elem_of_fmap_2.
Qed.

Lemma proof_event_valid r0 log v prev status keys kind value input w :
  id_row_ok log r0 -> vi_IdentityID v = id_identity_id r0 -> vi_ProviderID v = id_provider_id r0 -> vi_Kind v = id_kind r0 -> canonical_value (id_kind r0) (vi_Value v) ->
  keys_ok kind value input keys w -> IdentityEvent_Validate (Some (proof_event P v status prev keys (ip_now P))) = Ok tt.
Proof.
  intros Hok E1 E2 E3 Hval (K1 & _ & K3). destruct (canonical_nonempty _ _ Hval) as [Hk Hv]. destruct timestamp_ok as [_ HT]. unfold proof_event. apply event_valid; unfold event_base; cbn.
  - split_and!; [rewrite E1; apply (ir_id _ _ Hok)|by rewrite E3|done|done].
  - by destruct (String.eqb status IdentityVerified).
  - by destruct (String.eqb status IdentityVerified).
  - intros _. split_and!; [done..|]. rewrite E2. apply (ir_provider _ _ Hok).
  - by destruct (String.eqb status IdentityVerified).
Qed.

Lemma VerifyControl_safe t provider id sub w : isafe t (VerifyControl P provider id sub) (fun _ _ => True) w.
Proof.
  unfold VerifyControl. apply isafe_bind. eapply isafe_mono; [|apply owned_safe]. intros v w1 (r0 & Hs1 & -> & _ & Eid0). pose proof (proj1 Hs1) as Hok.
  set (v := identity_toDomain r0) in *. case_if; [done|]. apply isafe_bind, isafe_lift. intros _ _. apply isafe_bind, isafe_lift. intros _ _.
  apply isafe_bind, isafe_lift. intros cv Hcv. destruct (verifierFor P (vi_Kind v)) as [cv'|] eqn:EV; [|done]. injection Hcv as ->. set (nonce := match vi_Challenge v with Some c => _ | None => _ end).
  apply isafe_bind, isafe_internal. intros input Hinput. apply isafe_bind. eapply isafe_mono; [|apply isafe_rel, (VerifyProofs_safe P t cv v sub input); [exact HP|exact EV]].
  intros keys w2 [R2 HK]. apply isafe_bind. eapply isafe_mono with (Q := fun _ w' => IRel w2 w').
  2: { unfold check_taken. case_if; [by apply isafe_ret|]. apply isafe_bind, isafe_read; [apply ireads_same|]. intros w' HR _ taken d _. case_if; [done|by apply isafe_ret]. }
  intros _ w3 R3. apply isafe_bind, Claim_safe. intros w4 R4. assert (IRel w1 w4) as R14 by (etrans; [exact R2|etrans; [exact R3|exact R4]]).
  apply isafe_bind, or_release_safe, isafe_lift. intros [v' prev] Hv'. destruct (CompleteVerification v (ip_now P)) as [[v'' prev']|] eqn:EC; [|done]. injection Hv' as -> ->.
  destruct (CompleteVerification_Ok _ _ _ _ _ Hok EC) as (E1 & E2 & E3 & E4 & E5 & E6 & E7). cbv beta iota.
  apply isafe_bind, or_release_safe, seal_safe.
  - eapply proof_event_valid; [exact Hok|done|done|done|by rewrite E4|exact HK].
  - apply NoDup_nil_2.
  - intros _. exists nonce, (raID P), input. cbn [proof_event with_fields buildIdentityEvent iv_Value iv_IdentityID iv_Kind iv_Keys]. rewrite E1, E3, E4. split; [exact Hinput|].
    destruct HK as (K1 & K2 & _). split; [done|]. eapply Forall_impl; [exact K2|]. intros k. apply key_proved_mono. by etrans; [apply (rel_log _ _ R3)|apply (rel_log _ _ R4)].
  - intros w5 R5 Hack. apply or_release_safe, isafe_atomic. intros w6 [R6 _] HI a d Hcommit.
    destruct (commit_verified_ok t w6 r0 v' nonce (ip_now P) a d HI) as [I' G']; [|exact Hcommit|by split_and!].
    split; [apply (seen_later w1); [etrans; [exact R14|by etrans]|done]|]. split_and!; [done|by rewrite E4|done|done|].
    eapply acked_mono; [apply (rel_log _ _ R6)|]. destruct Hack as (ev & c & s & Hin & ->). exists (proof_event P v' (vi_Status v) prev keys (ip_now P)), c, s. split; [done|]. cbn.
    split_and!; [by case_if|done|done|done|done].
Qed.

(** ** Revoking *)

Lemma revoke_row_ok t w id now a d :
  IInv w -> acked (iw_log w) (revocation_of id) -> MarkRevoked id now (w_db (iw_ra w)) (iw_db w) = Ok (a, d) -> IInv (with_iddb w d) /\ IG t w (with_iddb w d).
Proof.
  intros HI Hack H. unfold MarkRevoked, update_identity in H. case_if_in H; [|done]. injection H as _ <-. apply map_rows_ok; [done|].
  intros r Hr Hc Hok. apply andb_true_iff in Hc as [Hid%String.eqb_eq _]. split_and!.
  - repeat split. by right.
  - split; cbn; auto.
  - destruct Hok as [H1 H2 H3 H4 H5 H6 H7 H8]. split; cbn; try done; [by left|]. intros _. by rewrite Hid.
Qed.

Lemma identity_Revoke_safe t provider id w : isafe t (Identity_Revoke_ P provider id) (fun _ _ => True) w.
Proof.
  unfold Identity_Revoke_. apply isafe_bind. eapply isafe_mono; [|apply owned_safe]. intros v w1 (r0 & Hs1 & -> & _ & Eid0). pose proof (proj1 Hs1) as Hok.
  apply isafe_bind, isafe_lift. intros v Hv. unfold Identity_Revoke in Hv. case_if_in Hv; [done|]. injection Hv as <-.
  destruct (canonical_nonempty _ _ (ir_value _ _ Hok)) as [Hk Hval]. destruct timestamp_ok as [_ HT]. apply isafe_bind, seal_safe.
  - apply event_valid; unfold event_base; cbn; try done. split_and!; [apply (ir_id _ _ Hok)|done..].
  - apply NoDup_nil_2.
  - done.
  - intros w2 _ Hack. apply isafe_bind, isafe_atomic. intros w3 [R3 _] HI a d Hm. destruct (revoke_row_ok t w3 (id_identity_id r0) (ip_now P) a d HI) as [I' G']; [|exact Hm|by split_and!].
    eapply acked_mono; [apply (rel_log _ _ R3)|]. destruct Hack as (ev & c & s & Hin & ->). by eexists _, c, s.
Qed.

(** ** Links *)

Definition agent_owned (provider agentID : string) (w : IWorld) : Prop :=
  exists a, a ∈ t_agents (w_db (iw_ra w)) /\ ar_agent_id a = agentID /\ ar_owner_id a = provider.

Lemma agent_owned_later p x w w' : IRel w w' -> agent_owned p x w -> agent_owned p x w'.
Proof.
  intros HR (a & Ha & E1 & E2). destruct (le_agents _ _ (proj1 (rel_ra _ _ HR)) a Ha) as (a' & Ha' & Ev). exists a'. pose proof (re_ident _ _ Ev) as Ei. unfold ident in Ei.
  injection Ei as _ G1 G2 _ _. split_and!; [done|congruence|congruence].
Qed.

Lemma FindByAgentID_row agentID d reg d' : FindByAgentID agentID d = Ok (reg, d') ->
  exists a, a ∈ t_agents d /\ ar_agent_id a = agentID /\ r_OwnerID reg = ar_owner_id a /\ r_Status reg = ar_status a.
Proof.
  unfold FindByAgentID, agent_row. destruct (find_first _ _) as [r|] eqn:E; [|done]. cbn [one_row mbind result_bind]. unfold agent_toDomain.
  destruct (dom (ParseAnsName (ar_ans_name r))) as [n|]; [|done]. cbn. intros [= <- _]. apply find_first_Some in E as [H1 H2%String.eqb_eq]. by exists r.
Qed.

Lemma check_agent_safe t provider agentID w : isafe t (check_agent provider agentID) (fun _ w' => agent_owned provider agentID w') w.
Proof.
  unfold check_agent. apply isafe_bind. apply (isafe_attempt t (on_agents (FindByAgentID agentID)) _ w).
  eapply osafe_mono; [|apply (isafe_agents t (FindByAgentID agentID) (fun reg w' => r_OwnerID reg = provider -> agent_owned provider agentID w') w)].
  - intros [reg|e] w' H; [|done]. destruct (String.eqb_spec (r_OwnerID reg) provider) as [E|]; [|done]. cbn [negb]. case_if; [done|]. apply isafe_ret. by apply H.
  - intros w' _ _ reg d (a & Ha & E1 & E2 & _)%FindByAgentID_row E. exists a. split_and!; [done|done|congruence].
Qed.

Lemma isafe_for {A} t (body : A -> isvc unit) (Φ : A -> IWorld -> Prop) l w :
  (forall x w1 w2, IRel w1 w2 -> Φ x w1 -> Φ x w2) -> (forall x w1, isafe t (body x) (fun _ => Φ x) w1) -> isafe t (isvc_for l body) (fun _ w' => Forall (fun x => Φ x w') l) w.
Proof.
  intros HS HB. revert w. induction l as [|x l IH]; intros w; cbn [isvc_for]; [by apply isafe_ret|]. apply isafe_bind. eapply isafe_mono; [|apply HB]. intros u w1 H1. cbv beta in H1.
  eapply isafe_mono; [|apply isafe_rel, IH]. intros u2 w2 [R2 H2]. constructor; [by eapply HS|done].
Qed.

Lemma dedup_ids_Ok ids : forall seen_ l, dedup_ids seen_ ids = Ok l -> NoDup l /\ Forall (fun id => id <> "" /\ id ∉ seen_) l.
Proof.
  induction ids as [|id ids IH]; intros sn l H; cbn in H; [injection H as <-; split; [apply NoDup_nil_2|done]|].
  destruct (String.eqb_spec id "") as [|Hne]; [done|]. destruct (one_of id sn) eqn:EO; [by apply IH|].
  destruct (dedup_ids (id :: sn) ids) as [l'|] eqn:E; [|done]. injection H as <-. destruct (IH _ _ E) as [HN HF]. rewrite Forall_forall in HF. split.
  - constructor; [|done]. intros Hin. destruct (HF id Hin) as [_ Hn]. apply Hn. left.
  - constructor; [split; [done|]; rewrite <-one_of_In, EO; done|]. apply Forall_forall. intros x Hx. destruct (HF x Hx) as [H1 H2]. split; [done|]. intros Hs. apply H2. by right.
Qed.

Lemma ilinks_ok t w links seq : IInv w -> Forall (link_ok (w_db (iw_ra w)) (t_identities (iw_db w)) (iw_log w)) links ->
  IInv (with_iddb w (set_ilinks (iw_db w) links seq)) /\ IG t w (with_iddb w (set_ilinks (iw_db w) links seq)).
Proof.
  intros [HI [H1 H2 H3 H4 H5]] HL. split; [split; [done|by split]|]. split; [|by left]. split; [reflexivity| |reflexivity]. intros r Hr. exists r. by split.
Qed.

Lemma Link_Ok id agentID now ra d b d' : LinkStore_Link id agentID now ra d = Ok (b, d') ->
  t_identities d' = t_identities d /\ exists new, d' = set_ilinks d (t_ilinks d ++ new) (t_ilinks_seq d') /\
    Forall (fun l => lk_identity_id l = id /\ lk_agent_id l = agentID /\ lk_status l = LinkLinked) new.
Proof.
  unfold LinkStore_Link. case_if; [intros [= _ <-]; split; [done|]; exists []; rewrite app_nil_r; by destruct d|]. case_if; [done|]. intros [= _ <-]. split; [done|].
  eexists. split; [reflexivity|]. by apply Forall_singleton.
Qed.

Lemma links_for_Ok id now ra newly : forall d u d', itx_for newly (fun agentID => _ ← LinkStore_Link id agentID now; mret tt) ra d = Ok (u, d') ->
  exists new, d' = set_ilinks d (t_ilinks d ++ new) (t_ilinks_seq d') /\ Forall (fun l => lk_identity_id l = id /\ lk_agent_id l ∈ newly /\ lk_status l = LinkLinked) new.
Proof.
  induction newly as [|x newly IH]; intros d u d' H; cbn [itx_for] in H; [injection H as _ <-; exists []; rewrite app_nil_r; by destruct d|].
  unfold mbind, itx_bind in H. destruct (LinkStore_Link id x now ra d) as [[b d1]|] eqn:E; [|done]. cbn [mret itx_ret] in H. unfold mret, itx_ret in H.
  destruct (Link_Ok _ _ _ _ _ _ _ E) as (_ & n1 & E1 & F1). apply IH in H as (n2 & E2 & F2). exists (n1 ++ n2). split.
  - rewrite E2. rewrite E1. unfold set_ilinks. cbn. by rewrite app_assoc.
  - apply Forall_app. split; (eapply Forall_impl; [eassumption|]); intros l (A1 & A2 & A3); split_and!; try done; [rewrite A2; left|by right].
Qed.

Lemma commit_links_ok t w r0 provider newly now u d :
  IInv w -> seen w r0 -> id_provider_id r0 = provider -> Forall (fun x => agent_owned provider x w) newly ->
  acked (iw_log w) (fun ev => iv_EventType ev = TypeIdentityLinked /\ iv_IdentityID ev = id_identity_id r0 /\ iv_AnsIDs ev = newly) ->
  commit_links (id_identity_id r0) newly now (w_db (iw_ra w)) (iw_db w) = Ok (u, d) -> IInv (with_iddb w d) /\ IG t w (with_iddb w d).
Proof.
  intros HI [_ (r & Hr & Ev)] <- Hown Hack H. unfold commit_links, mbind, itx_bind in H. destruct (IdentityStore_FindByID _ _ _) as [[cur d0]|] eqn:EF; [|done].
  apply FindByID_Ok in EF as [-> _]. case_if_in H; [done|]. apply links_for_Ok in H as (new & -> & HF). rewrite Forall_forall in Hown. apply ilinks_ok; [done|]. apply Forall_app. split; [apply HI|].
  eapply Forall_impl; [exact HF|]. intros l (E1 & E2 & E3). split.
  - destruct (Hown _ E2) as (a & Ha & F1 & F2). exists r, a. split_and!; [done|done|by rewrite E1, (ie_id _ _ Ev)|done|by rewrite F2, (ie_provider _ _ Ev)].
  - destruct Hack as (ev & c & s & Hin & G1 & G2 & G3). exists ev, c, s. split; [done|]. unfold link_event. rewrite G1, G2, G3, E1. done.
  - by left.
Qed.

Lemma Link_safe t provider id agentIDs w : isafe t (Link P provider id agentIDs) (fun _ _ => True) w.
Proof.
  unfold Link. apply isafe_bind, isafe_allow. intros w0 _. apply isafe_bind. eapply isafe_mono; [|apply owned_safe]. intros v w1 (r0 & Hs1 & -> & Ep & Eid0). pose proof (proj1 Hs1) as Hok.
  case_if; [done|]. case_if; [done|]. case_if; [done|]. apply isafe_bind, isafe_lift. intros ids Hids. destruct (dedup_ids [] agentIDs) as [ids'|] eqn:ED; [|done]. injection Hids as ->.
  destruct (dedup_ids_Ok _ _ _ ED) as [HN HF]. apply isafe_bind. eapply isafe_mono; [|apply isafe_rel, (isafe_for t (check_agent provider) (agent_owned provider)); [apply agent_owned_later|apply check_agent_safe]].
  intros _ w2 [R2 Hown]. apply isafe_bind, isafe_read; [apply ireads_same|]. intros w3 R3 _ links d3 _. set (newly := filter _ ids).
  destruct (Nat.eqb_spec (length newly) 0) as [|Hne]; [by apply isafe_ret|].
  assert (newly ⊆ ids) as Hsub. { intros x Hx. by apply list_elem_of_filter in Hx as [_ ?]. } rewrite Forall_forall in HF, Hown.
  destruct (canonical_nonempty _ _ (ir_value _ _ Hok)) as [Hk Hval]. apply isafe_bind, seal_safe.
  - apply event_valid; unfold event_base; cbn; try done; [split_and!; [apply (ir_id _ _ Hok)|done..]|]. split; [by intros E; rewrite E in Hne|].
    apply Forall_forall. intros x Hx. by destruct (HF x (Hsub x Hx)).
  - by apply NoDup_filter.
  - done.
  - intros w4 R4 Hack. apply isafe_bind, isafe_atomic. intros w5 [R5 _] HI u d Hc. rewrite <-Eid0 in Hc.
    assert (IRel w2 w5) as R25 by (etrans; [exact R3|by etrans]).
    destruct (commit_links_ok t w5 r0 provider newly (ip_now P) u d HI) as [I' G']; [|exact Ep| | |exact Hc|by split_and!].
    + apply (seen_later w1); [by etrans|done].
    + apply Forall_forall. intros x Hx. apply (agent_owned_later _ _ w2); [done|]. by apply Hown, Hsub.
    + eapply acked_mono; [apply (rel_log _ _ R5)|]. destruct Hack as (ev & c & s & Hin & ->). by eexists _, c, s.
Qed.

Lemma insert_link_elem r l x : x ∈ insert_link r l -> x = r \/ x ∈ l.
Proof. induction l as [|b l IH]; cbn; [by intros ->%list_elem_of_singleton; left|]. case_if; rewrite !elem_of_cons; naive_solver. Qed.

Lemma listLive_elem where_ ra d links d' a : listLive where_ ra d = Ok (links, d') -> a ∈ il_AgentID <$> links -> exists l, l ∈ t_ilinks d /\ lk_agent_id l = a.
Proof.
  intros [= <- _] Ha. rewrite <-list_fmap_compose in Ha. apply list_elem_of_fmap_1 in Ha as (l & -> & Hl). exists l. split; [|done].
  assert (forall rows, l ∈ foldr insert_link [] rows -> l ∈ rows) as HI. { induction rows as [|b rows IH]; cbn; [done|]. intros [->|H]%insert_link_elem; [left|right; by apply IH]. }
  apply HI, list_elem_of_filter in Hl as [_ ?]. done.
Qed.

Lemma valid_ansIDs ev : IdentityEvent_Validate (Some ev) = Ok tt -> IdentityType_isLink (iv_EventType ev) = true -> Forall (fun id => id <> "") (iv_AnsIDs ev).
Proof.
  intros H HL. unfold IdentityEvent_Validate in H. repeat (case_if_in H; [done|]). destruct (ParseRFC3339 _); [|done]. rewrite HL in H. unfold guard_err in H.
  destruct (negb _ && forallb _ _) eqn:E; [|done]. apply andb_true_iff in E as [_ E]. apply Forall_forall. intros x Hx. rewrite forallb_forall in E. apply list_elem_of_In, E in Hx. by apply negb_true_iff, String.eqb_neq in Hx.
Qed.

Lemma live_link_named w where_ links d a : IInv w -> listLive where_ (w_db (iw_ra w)) (iw_db w) = Ok (links, d) -> one_of a (il_AgentID <$> links) = true -> a <> "".
Proof.
  intros [_ HI] HL Ha%one_of_In. destruct (listLive_elem _ _ _ _ _ _ HL Ha) as (l & Hl & <-). pose proof (ii_links _ _ _ HI) as H. rewrite Forall_forall in H.
  destruct (lo_linked _ _ _ _ (H l Hl)) as (ev & c & s & [i Hi]%list_elem_of_lookup_1 & E1 & _ & E3). destruct (ii_log _ _ _ HI i _ Hi) as (_ & HV & _ & _).
  apply valid_ansIDs in HV; [|by rewrite E1]. rewrite Forall_forall in HV. by apply HV.
Qed.

Lemma Unlink_safe t provider id agentID w : isafe t (Unlink P provider id agentID) (fun _ _ => True) w.
Proof.
  unfold Unlink. apply isafe_bind, isafe_allow. intros w0 _. apply isafe_bind. eapply isafe_mono; [|apply owned_safe]. intros v w1 (r0 & Hs1 & -> & Ep & Eid0). pose proof (proj1 Hs1) as Hok.
  apply isafe_bind, isafe_read; [apply ireads_same|]. intros w2 R2 HI2 links d2 Hlinks. destruct (one_of agentID (il_AgentID <$> links)) eqn:EO; [|done]. cbn [negb].
  destruct (canonical_nonempty _ _ (ir_value _ _ Hok)) as [Hk Hval]. assert (agentID <> "") as Hag by (by eapply (live_link_named w2)).
  apply isafe_bind, seal_safe.
  - apply event_valid; unfold event_base; cbn; try done; [split_and!; [apply (ir_id _ _ Hok)|done..]|]. split; [done|by apply Forall_singleton].
  - apply NoDup_singleton.
  - done.
  - intros w4 R4 Hack. apply isafe_atomic. intros w5 [R5 _] HI u d Hc. unfold commit_unlink in Hc.
    destruct (LinkStore_Unlink id agentID (ip_now P) (w_db (iw_ra w5)) (iw_db w5)) as [[[] d']|e] eqn:EU.
    2: { case_if_in Hc; [|done]. injection Hc as _ <-. rewrite with_iddb_same. split_and!; [done| |done]. split; [reflexivity|by left]. }
    injection Hc as _ <-. unfold LinkStore_Unlink in EU. case_if_in EU; [|done]. injection EU as <-.
    match goal with |- context [set_ilinks _ ?l ?n] => destruct (ilinks_ok t w5 l n HI) as [I' G'] end; [|by split_and!].
    apply Forall_forall. intros l Hl. apply list_elem_of_fmap_1 in Hl as (l0 & -> & Hl0). pose proof (ii_links _ _ _ (proj2 HI)) as HL. rewrite Forall_forall in HL. specialize (HL l0 Hl0).
    destruct (link_live id agentID l0) eqn:EL; [|done]. destruct HL as [A1 A2 A3]. split; cbn; [done|done|]. right. split; [done|].
    unfold link_live in EL. rewrite !andb_true_iff, !String.eqb_eq in EL. destruct EL as [[E1 E2] _]. eapply acked_mono; [apply (rel_log _ _ R5)|].
    destruct Hack as (ev & c & s & Hin & ->). eexists _, c, s. split; [exact Hin|]. unfold link_event. cbn. rewrite E1, E2. split_and!; [done|done|left].
Qed.

(** ** Reading *)

Lemma List_safe t provider limit cursor w : isafe t (Identity_List provider limit cursor) (fun _ _ => True) w.
Proof.
  unfold Identity_List. apply isafe_read; [|done]. intros ra d a d' H. unfold ListByOwner in H.
  match type of H with context [mbind _ ?m] => destruct m as [below|] end; [|done]. cbn [mbind result_bind] in H. by injection H as _ <-.
Qed.

Lemma summaries_safe t links w : isafe t (summaries links) (fun _ _ => True) w.
Proof.
  revert w. induction links as [|l links IH]; intros w; cbn [summaries]; [done|]. apply isafe_bind, isafe_read; [by intros ra d a d' [-> _]%FindByID_Ok|]. intros w1 _ _ v d _.
  apply isafe_bind. eapply isafe_mono; [|apply IH]. done.
Qed.

Lemma LinkedIdentities_safe t agentID w : isafe t (LinkedIdentitiesForAgent agentID) (fun _ _ => True) w.
Proof.
  unfold LinkedIdentitiesForAgent. apply isafe_bind, isafe_agents. intros w1 _ _ reg d _. case_if; [done|]. apply isafe_bind, isafe_read; [apply ireads_same|]. intros. apply summaries_safe.
Qed.

Lemma visible_safe t links w : isafe t (visible_links links) (fun _ _ => True) w.
Proof.
  revert w. induction links as [|l links IH]; intros w; cbn [visible_links]; [done|]. apply isafe_bind.
  apply (isafe_attempt t (on_agents (FindByAgentID (il_AgentID l))) _ w). eapply osafe_mono; [|apply (isafe_agents t (FindByAgentID (il_AgentID l)) (fun _ _ => True) w); done].
  intros [reg|e] w1 _; [|case_if; [apply IH|done]]. apply isafe_bind. eapply isafe_mono; [|apply IH]. done.
Qed.

Lemma Detail_safe t provider id w : isafe t (Detail provider id) (fun _ _ => True) w.
Proof.
  unfold Detail. apply isafe_bind. eapply isafe_mono; [|apply owned_safe]. intros v w1 _. apply isafe_bind, isafe_read; [apply ireads_same|]. intros w2 _ _ links d _.
  apply isafe_bind. eapply isafe_mono; [|apply visible_safe]. done.
Qed.
End Methods.
End Spec.
