(* ===== verification/RaIdentityProps.v ===== *)
(** Properties of the identity service as a whole.

    Requests to the identity service and to the registration service arrive at
    any time and run interleaved.  [id_serves ps w]: from empty databases such a
    run reached the world [w].  A registration draws an identity id that no
    other request draws, as [uuid.NewV7] does. *)
From stdpp Require Import gmap relations.
From S2P Require Import Prelude GoStrings Utf8 GoTime GoTimeSpec GoURL GoEncoding DomainErrors AnsName Lifecycle LifecycleSpec Discovery Identity IdentitySpec GoJSON GoJSONSpec Jcs Sha256 RaEvents TlEnvelope Jws P256 Jwk.
From S2P Require Import TlEvent Outbox OutboxSpec Concurrent ConcurrentOwn RaStore RaService RaServiceInv RaServiceProps RaIdentity RaIdentityInv RaIdentitySpec.

#[local] Set Default Goal Selector "!".
#[local] Open Scope Z_scope.

(** ** Requests *)

Inductive id_request :=
| IReqRegister (provider raw presentation : string)
| IReqRotate (provider id raw presentation : string)
| IReqVerify (provider id : string) (sub : ProofSubmission)
| IReqRevoke (provider id : string)
| IReqLink (provider id : string) (agents : list string)
| IReqUnlink (provider id agentID : string)
| IReqList (provider : string) (limit : Z) (cursor : string)
| IReqDetail (provider id : string)
| IReqLinkedIdentities (agentID : string).

Definition empty_iworld : IWorld := {| iw_ra := empty_world; iw_db := empty_iddb; iw_limiter := ∅; iw_linkLimiter := ∅; iw_log := [] |}.

Section Requests.
Context `{U : UnicodeTables} `{F : CaseOrbits} `{S : SigSchemes} `{SK : !StdKeys} `{J : JCS} `{X : PemX509} `{C : Canonicalizer}.

Definition ihandle (P : IdPorts) (q : id_request) : prog IWorld unit :=
  let done {A} (m : isvc A) : prog IWorld unit := prog_map (fun _ => tt) m in
  match q with
  | IReqRegister p raw o => done (Identity_Register P p raw o)
  | IReqRotate p id raw o => done (Rotate P p id raw o)
  | IReqVerify p id sub => done (VerifyControl P p id sub)
  | IReqRevoke p id => done (Identity_Revoke_ P p id)
  | IReqLink p id l => done (Link P p id l)
  | IReqUnlink p id a => done (Unlink P p id a)
  | IReqList p n c => done (Identity_List p n c)
  | IReqDetail p id => done (Detail p id)
  | IReqLinkedIdentities a => done (LinkedIdentitiesForAgent a)
  end.

(** The id a request draws. *)
Definition draws (P : IdPorts) (q : id_request) : option string := match q with IReqRegister _ _ _ => ip_newID P | _ => None end.

Definition id_served (t : option string) (p : prog IWorld unit) : Prop :=
  (exists P q, ports_ok P /\ p = ihandle P q /\ t = draws P q) \/
  (exists p0, served p0 /\ p = lift_prog iw_ra put_ra p0 /\ t = None).

Definition id_serves (ps : opool IWorld string unit) (w : IWorld) : Prop := rtc (opool_step id_served) ([], empty_iworld) (ps, w).

Context `{UL : !UnicodeLaws U}.

Lemma IInv_empty : IInv empty_iworld.
Proof. split; [apply Inv_empty|]. split; cbn; try constructor; [by intros a b Ha%not_elem_of_nil|done]. Qed.

Lemma ihandle_safe P q w : ports_ok P -> (forall x, draws P q = Some x -> x ∉ ids_of w) -> osafe IInv IG IR (draws P q) (ihandle P q) (fun _ _ => True) w.
Proof.
  intros HP Hf. assert (forall {A} t (m : isvc A), isafe t m (fun _ _ => True) w -> osafe IInv IG IR t (prog_map (fun _ => tt) m) (fun _ _ => True) w) as HD.
  { intros A t m Hm. apply osafe_bind. eapply osafe_mono; [|exact Hm]. done. }
  destruct q; apply HD; cbn [draws] in *.
  - by apply Register_safe.
  - by apply Rotate_safe.
  - by apply VerifyControl_safe.
  - by apply identity_Revoke_safe.
  - by apply Link_safe.
  - by apply Unlink_safe.
  - by apply List_safe.
  - by apply Detail_safe.
  - by apply LinkedIdentities_safe.
Qed.

Lemma id_served_safe t p w : id_served t p -> IInv w -> (forall x, t = Some x -> x ∉ ids_of w) -> osafe IInv IG IR t p (fun _ _ => True) w.
Proof.
  intros [(P & q & HP & -> & ->)|(p0 & H0 & -> & ->)] HI Hf; [by apply ihandle_safe|].
  apply (lift_safe iw_ra put_ra ltac:(done) Inv Rel IInv IG IR); [by intros ? []|by intros t w1 w2 [HR _]; apply (rel_ra _ _ HR)|apply put_ra_ok|].
  apply served_safe; [done|apply HI].
Qed.

Lemma IG_names t w w' x : IG t w w' -> x ∈ ids_of w' -> x ∈ ids_of w \/ t = Some x.
Proof. intros [_ H]. apply H. Qed.

Lemma id_serves_ok ps w : id_serves ps w -> IInv w /\ opool_ok IInv IG IR ids_of ps w.
Proof.
  intros H. apply (opool_safe IInv IG IR IG_IR ids_of IG_names id_served ([], empty_iworld) (ps, w)); [apply id_served_safe|apply IInv_empty| |exact H].
  split; [constructor|]. split; [done|]. by intros x Hx%not_elem_of_nil.
Qed.

Lemma id_serves_later ps w ps' w' : id_serves ps w -> rtc (opool_step id_served) (ps, w) (ps', w') -> IRel w w'.
Proof.
  intros [HI Hok]%id_serves_ok Hrun. apply (opool_rel IInv IG IR IG_IR ids_of IG_names id_served IRel (ps, w) (ps', w')); [by intros t w1 w2 []|apply id_served_safe|done..].
Qed.

(** ** Theorems *)

(** C9: the identity tables never run ahead of the log.  In every reachable world a
    VERIFIED identity has an acknowledged proof event with its owner, kind and
    current value, a REVOKED one an acknowledged revocation, a link an
    acknowledged link event that names its agent, and an ended link an
    acknowledged unlink event, under every interleaving of requests and every
    behaviour of the log, the resolvers and the verifiers. *)
Theorem identity_sealed_first ps w :
  id_serves ps w ->
  (forall r, r ∈ t_identities (iw_db w) ->
     (id_status r = IdentityVerified -> acked (iw_log w) (proof_of r)) /\
     (id_status r = IdentityRevoked -> acked (iw_log w) (revocation_of (id_identity_id r)))) /\
  (forall l, l ∈ t_ilinks (iw_db w) ->
     acked (iw_log w) (link_event TypeIdentityLinked (lk_identity_id l) (lk_agent_id l)) /\
     (lk_status l <> LinkLinked -> acked (iw_log w) (link_event TypeIdentityUnlinked (lk_identity_id l) (lk_agent_id l)))).
Proof.
  intros [[_ HI] _]%id_serves_ok. pose proof (ii_rows _ _ _ HI) as HR. pose proof (ii_links _ _ _ HI) as HL. rewrite Forall_forall in HR. rewrite Forall_forall in HL. split.
  - intros r Hr. destruct (HR r Hr). by split.
  - intros l Hl. destruct (HL l Hl) as [_ H1 H2]. split; [done|]. intros Hn. by destruct H2 as [|[_ ?]].
Qed.

(** C8: nothing unproved is sealed.  Whenever the service submits a proof event to
    the log, it holds proofs of control for the event's value and identity over
    one challenge: for [did:web] signatures under assertion methods of the
    document that was resolved for exactly this identifier, for [did:key] under
    the key the identifier is, for an LEI a current authorization and a
    verified signature of the subject. *)
Theorem identity_control_proved ps w past ev c s b rest :
  id_serves ps w -> iw_log w = past ++ ISeal ev c s b :: rest -> IdentityType_isProof (iv_EventType ev) = true -> control_proved past ev.
Proof.
  intros [[_ HI] _]%id_serves_ok E Hp. destruct (ii_log _ _ _ HI (length past) (ISeal ev c s b)) as (_ & _ & _ & H); [by rewrite E, list_lookup_middle|].
  rewrite E, take_app_length in H. by apply H.
Qed.

(** C22: one owner per identifier, for good.  No two verified identities have the
    same kind and value, whatever raced; an identity keeps its owner and kind, a
    verified one never becomes unverified again and a revoked one stays
    revoked. *)
Theorem identifier_exclusive ps w ps' w' :
  id_serves ps w -> rtc (opool_step id_served) (ps, w) (ps', w') ->
  (forall a b, a ∈ t_identities (iw_db w) -> b ∈ t_identities (iw_db w) -> id_status a = IdentityVerified -> id_status b = IdentityVerified ->
     id_kind a = id_kind b -> id_value a = id_value b -> a = b) /\
  (forall r, r ∈ t_identities (iw_db w) -> exists r', r' ∈ t_identities (iw_db w') /\ id_identity_id r' = id_identity_id r /\ id_provider_id r' = id_provider_id r /\
     id_kind r' = id_kind r /\ (id_status r = IdentityRevoked -> id_status r' = IdentityRevoked) /\
     (id_status r = IdentityVerified -> id_status r' = IdentityVerified \/ id_status r' = IdentityRevoked)).
Proof.
  intros Hs Hrun. pose proof (id_serves_later _ _ _ _ Hs Hrun) as HR. apply id_serves_ok in Hs as [HI _]. split.
  - intros a b Ha Hb Sa Sb Ek Ev. apply (ids_unique w a b HI Ha Hb), (ii_index _ _ _ (proj2 HI) a b Ha Hb).
    apply orb_true_iff. right. unfold proven_key. by rewrite Sa, Sb, Ek, Ev, !String.eqb_refl.
  - intros r Hr. destruct (rel_rows _ _ HR r Hr) as (r' & Hr' & [E1 E2 E3 E4 E5]). exists r'. by split_and!.
Qed.

(** C23: a link never crosses owners.  Every row of the link table, live or ended,
    joins an identity and an agent registration of the same owner, although
    identities and registrations are changed by two services that run
    concurrently and the owners are read before the link is sealed. *)
Theorem links_stay_with_owner ps w l :
  id_serves ps w -> l ∈ t_ilinks (iw_db w) ->
  exists r a, r ∈ t_identities (iw_db w) /\ a ∈ t_agents (w_db (iw_ra w)) /\ id_identity_id r = lk_identity_id l /\ ar_agent_id a = lk_agent_id l /\
    ar_owner_id a = id_provider_id r.
Proof. intros [[_ HI] _]%id_serves_ok Hl. pose proof (ii_links _ _ _ HI) as HL. rewrite Forall_forall in HL. by destruct (HL l Hl). Qed.

(** C24: the log accepts what the service submits.  Every identity event handed to
    the log is the canonical form of an event that the log's own validation
    accepts, and names no agent twice, so that its link table can hold it. *)
Theorem submitted_events_valid ps w ev c s b :
  id_serves ps w -> ISeal ev c s b ∈ iw_log w -> CanonicalizeIdentity ev = Some c /\ IdentityEvent_Validate (Some ev) = Ok tt /\ NoDup (iv_AnsIDs ev).
Proof.
  intros [[_ HI] _]%id_serves_ok [i Hi]%list_elem_of_lookup_1. by destruct (ii_log _ _ _ HI i _ Hi) as (H1 & H2 & H3 & _).
Qed.
End Requests.
