(* ===== verification/RaIdentityRuns.v ===== *)
(** Runs of the identity service, and two outcomes of races that its comments
    rule out.

    Owner "o" activates two agents and proves control of a [did:key]; the runs
    show that the theorems of [RaIdentityProps] speak of worlds the service
    reaches, and that a link table and a sealed history can disagree. *)
From stdpp Require Import gmap relations.
From S2P Require Import Prelude GoStrings Utf8 GoTime GoTimeSpec GoURL GoEncoding DomainErrors AnsName Lifecycle LifecycleSpec Discovery Identity IdentitySpec GoJSON GoJSONSpec Jcs Sha256 RaEvents TlEnvelope Jws P256 Jwk.
From S2P Require Import TlEvent Outbox OutboxSpec Concurrent ConcurrentOwn RaStore RaService RaServiceInv RaServiceProps RaIdentity RaIdentityInv RaIdentitySpec RaIdentityProps.

#[local] Set Default Goal Selector "!".
#[local] Open Scope Z_scope.

(** ** Instances *)

#[local] Existing Instance latin_tables.
#[local] Existing Instance reference_jcs.
#[local] Existing Instance demo_pem.
#[local] Existing Instance demo_canonicalizer.

(** An Ed25519 whose only signature is "signed". *)
#[local] Instance demo_ed25519 : SigSchemes :=
  {| ecdsa_key := P256.PublicKey; rsa_key := Z * Z; CoordinateBytes := fun _ => 32; ecdsa_verify := fun _ _ _ _ => false;
     rsaVerifyPKCS1v15 := fun _ _ _ => false; ed25519_verify := fun _ _ sig => String.eqb sig "signed" |}.

#[local] Instance demo_keys : StdKeys :=
  {| p256_key := fun k => k : ecdsa_key; p256_point := fun k => Some (k : P256.PublicKey); rsa_make := fun n e => (n, e) : rsa_key;
     rsa_N := fun k => k.1; rsa_E := fun k => k.2 |}.

#[local] Instance no_orbits : CaseOrbits := {| SimpleFold := fun r => r |}.

(** ** Requests *)

(** Two examples of the did:key specification. *)
Definition msid_A : string := "z6MkhaXgBZDvotDkL5257faiztiGiC2QtKLGpbnnEGta2doK".
Definition msid_B : string := "z6MkiTBz1ymuepAQ4HEHYSF1H8quG5GLVVQR3djdX3mDooWp".
Definition did (msid : string) : string := "did:key:" +:+ msid.

(** The registration draws [id]; every challenge has the nonce [nonce]. *)
Definition id_ports (id nonce : string) : IdPorts := {|
  ip_clock := UnixMilli 1700000000000; ip_now := UnixMilli 1700000000000; ip_newID := Some id; ip_newNonce := Some nonce;
  ip_Resolve := fun _ _ => Err (Other "no resolver"); ip_leiCtl := None; ip_sealer := Some (fun _ _ => Ok tt); ip_signer := None;
  ip_challengeTTL := Minute; ip_registerPerMinute := 100; ip_linkPerMinute := 100 |}.

Lemma id_ports_ok id nonce : ports_ok (id_ports id nonce).
Proof. split; [vm_compute; split; [discriminate|reflexivity]|done]. Qed.

(** A proof under the key of [did msid] for identity [id]. *)
Definition proof_header (msid : string) : string :=
  "{" +:+ quote "alg" +:+ ":" +:+ quote "EdDSA" +:+ "," +:+ quote "kid" +:+ ":" +:+ quote (did msid +:+ "#" +:+ msid) +:+ "}".

Definition proof (msid id nonce : string) : ProofSubmission :=
  let input := default "" (IdentityProofInput_SigningInput
    {| pi_Identifier := did msid; pi_IdentityID := id; pi_Nonce := nonce; pi_Purpose := IdentityProofPurpose; pi_RaID := ""; pi_Scheme := KindDIDKey |}) in
  {| ps_SignedProofs := [b64_EncodeToString (proof_header msid) +:+ "." +:+ input +:+ "." +:+ b64_EncodeToString "signed"]; ps_CESRSignature := "" |}.

(** The requests, with the names they draw. *)
Definition ireq (id nonce : string) (q : id_request) : option string * prog IWorld unit := (draws (id_ports id nonce) q, ihandle (id_ports id nonce) q).
Definition agent_reqs : opool IWorld string unit := (fun p => (None, lift_prog iw_ra put_ra p)) <$> (demo_steps "a" 1 ++ demo_steps "b" 2).

Definition id_reqs : opool IWorld string unit :=
  [ireq "id-1" "n1" (IReqRegister "o" (did msid_A) "");
   ireq "id-1" "n1" (IReqVerify "o" "id-1" (proof msid_A "id-1" "n1"));
   ireq "id-1" "n2" (IReqLink "o" "id-1" ["a"]);
   ireq "id-1" "n2" (IReqLink "o" "id-1" ["a"]);
   ireq "id-1" "n2" (IReqUnlink "o" "id-1" "a");
   ireq "id-2" "n3" (IReqRegister "o" (did msid_B) "");
   ireq "id-1" "n4" (IReqRotate "o" "id-1" (did msid_B) "");
   ireq "id-1" "n4" (IReqVerify "o" "id-1" (proof msid_B "id-1" "n4"));
   ireq "id-1" "n5" (IReqRevoke "o" "id-1")].

Definition id_start : opool IWorld string unit * IWorld := (agent_reqs ++ id_reqs, empty_iworld).

(** Requests one after the other, to completion. *)
Definition in_turn (is_ : list nat) : list nat := mjoin ((fun i => replicate 20 i) <$> is_).

Lemma ireq_served id nonce q : id_served (ireq id nonce q).1 (ireq id nonce q).2.
Proof. left. exists (id_ports id nonce), q. split; [apply id_ports_ok|]. split; reflexivity. Qed.

Lemma agent_reqs_served : Forall (fun tq => id_served tq.1 tq.2) agent_reqs.
Proof.
  assert (Forall served (demo_steps "a" 1 ++ demo_steps "b" 2)) as HA by (apply Forall_app; split; apply demo_steps_served; vm_compute; intuition discriminate).
  unfold agent_reqs. apply Forall_fmap. eapply Forall_impl; [exact HA|]. intros p Hp. right. by exists p.
Qed.

Lemma id_start_serves is_ : id_serves (osched id_start is_).1 (osched id_start is_).2.
Proof.
  unfold id_serves. rewrite <- surjective_pairing. etrans; [|apply osched_rtc].
  apply (oarrive_all id_served (agent_reqs ++ id_reqs) [] empty_iworld). apply may_arrive_distinct.
  - apply Forall_app. split; [apply agent_reqs_served|]. unfold id_reqs. repeat (constructor; [apply ireq_served|]). constructor.
  - apply (bool_decide_unpack _). vm_compute. exact I.
Qed.

(** Every handler is done. *)
Definition all_done (ps : opool IWorld string unit) (is_ : list nat) : bool :=
  forallb (fun i => match ps !! i with Some (_, Ret _) => true | _ => false end) is_.

(** ** A run in turn *)

Definition turn_run : opool IWorld string unit * IWorld := osched id_start (in_turn [0; 1; 2; 3; 4; 5; 6; 7; 8; 10]%nat).
Definition turn_rows : list identityRow := Eval vm_compute in t_identities (iw_db turn_run.2).
Definition turn_links : list linkRow := Eval vm_compute in t_ilinks (iw_db turn_run.2).

Lemma turn_run_rows : t_identities (iw_db turn_run.2) = turn_rows.
Proof. vm_compute. reflexivity. Qed.

Lemma turn_run_links : t_ilinks (iw_db turn_run.2) = turn_links.
Proof. vm_compute. reflexivity. Qed.

Lemma turn_run_serves : id_serves turn_run.1 turn_run.2.
Proof. apply id_start_serves. Qed.

Lemma turn_run_seals :
  exists past ev c s b rest, iw_log turn_run.2 = past ++ ISeal ev c s b :: rest /\ iv_EventType ev = TypeIdentityVerified /\ iv_Value ev = did msid_A /\
    iv_IdentityID ev = "id-1".
Proof.
  assert (match iw_log turn_run.2 with
          | ISeal ev _ _ _ :: _ => String.eqb (iv_EventType ev) TypeIdentityVerified && String.eqb (iv_Value ev) (did msid_A) && String.eqb (iv_IdentityID ev) "id-1"
          | _ => false end = true) as H by (vm_compute; reflexivity).
  destruct (iw_log turn_run.2) as [|[| | | |ev c s b] rest]; [discriminate H..|]. apply andb_true_iff in H as [[H1%String.eqb_eq H2%String.eqb_eq]%andb_true_iff H3%String.eqb_eq].
  by exists [], ev, c, s, b, rest.
Qed.

(** *** Witnesses *)

Lemma identity_sealed_first_witness :
  exists r l, r ∈ t_identities (iw_db turn_run.2) /\ l ∈ t_ilinks (iw_db turn_run.2) /\ acked (iw_log turn_run.2) (proof_of r) /\
    acked (iw_log turn_run.2) (link_event TypeIdentityUnlinked (lk_identity_id l) (lk_agent_id l)).
Proof.
  rewrite turn_run_rows, turn_run_links. unfold turn_rows, turn_links. do 2 eexists. split; [left|]. split; [left|].
  destruct (identity_sealed_first turn_run.1 turn_run.2 turn_run_serves) as [HR HL]. split.
  - apply HR; [rewrite turn_run_rows; left|reflexivity].
  - apply HL; [rewrite turn_run_links; left|discriminate].
Defined.

Lemma identity_control_proved_witness :
  exists past ev c s b rest, iw_log turn_run.2 = past ++ ISeal ev c s b :: rest /\ iv_Value ev = did msid_A /\ control_proved past ev.
Proof.
  destruct turn_run_seals as (past & ev & c & s & b & rest & E & Et & Ev & _). exists past, ev, c, s, b, rest. split_and!; [exact E|exact Ev|].
  apply (identity_control_proved turn_run.1 turn_run.2 past ev c s b rest turn_run_serves E). rewrite Et. reflexivity.
Defined.

Lemma identifier_exclusive_witness :
  exists r r', r ∈ t_identities (iw_db turn_run.2) /\ id_value r = did msid_A /\ r' ∈ t_identities (iw_db (osched turn_run (in_turn [14]%nat)).2) /\
    id_identity_id r' = "id-1" /\ (id_status r' = IdentityVerified \/ id_status r' = IdentityRevoked).
Proof.
  destruct (identifier_exclusive turn_run.1 turn_run.2 (osched turn_run (in_turn [14]%nat)).1 (osched turn_run (in_turn [14]%nat)).2 turn_run_serves) as [_ H].
  { rewrite <- !surjective_pairing. apply osched_rtc. }
  rewrite turn_run_rows in H. destruct (H _ (list_elem_of_here _ _)) as (r' & Hr' & E1 & _ & _ & _ & Hv).
  rewrite turn_run_rows. eexists. exists r'. split; [left|]. split; [reflexivity|]. split; [exact Hr'|]. split; [exact E1|apply Hv; reflexivity].
Defined.

Lemma links_stay_with_owner_witness :
  exists l r a, l ∈ t_ilinks (iw_db turn_run.2) /\ r ∈ t_identities (iw_db turn_run.2) /\ a ∈ t_agents (w_db (iw_ra turn_run.2)) /\
    id_identity_id r = "id-1" /\ ar_agent_id a = "a" /\ ar_owner_id a = id_provider_id r /\ lk_identity_id l = "id-1".
Proof.
  destruct (links_stay_with_owner turn_run.1 turn_run.2 {| lk_id := 1; lk_identity_id := "id-1"; lk_agent_id := "a"; lk_status := LinkUnlinked;
    lk_linked_ms := Some 1700000000000; lk_created_ms := 1700000000000; lk_updated_ms := 1700000000000 |} turn_run_serves) as (r & a & H1 & H2 & H3 & H4 & H5).
  { rewrite turn_run_links. left. }
  eexists. exists r, a. split; [rewrite turn_run_links; left|]. split; [exact H1|]. split; [exact H2|]. split; [exact H3|]. split; [exact H4|]. split; [exact H5|reflexivity].
Defined.

Lemma submitted_events_valid_witness :
  exists ev, iv_Value ev = did msid_A /\ IdentityEvent_Validate (Some ev) = Ok tt.
Proof.
  destruct turn_run_seals as (past & ev & c & s & b & rest & E & _ & Ev & _). exists ev. split; [exact Ev|].
  apply (submitted_events_valid turn_run.1 turn_run.2 ev c s b turn_run_serves). rewrite E. apply elem_of_app. right. left.
Defined.

(** ** Two races *)

(** The last acknowledged event that names identity [id] and agent [agentID], and
    the last one that proves a value of [id]. *)
Definition last_event (p : IdentityEvent -> bool) (log : list id_effect) : option IdentityEvent :=
  last (omap (fun e => match e with ISeal ev _ _ true => if p ev then Some ev else None | _ => None end) log).

Definition names_link (id agentID : string) (ev : IdentityEvent) : bool := String.eqb (iv_IdentityID ev) id && one_of agentID (iv_AnsIDs ev).
Definition proves (id : string) (ev : IdentityEvent) : bool := String.eqb (iv_IdentityID ev) id && IdentityType_isProof (iv_EventType ev).

(** Both links look before either seals; one commits; the link is ended; the
    other commits. *)
Definition raced_run : opool IWorld string unit * IWorld :=
  osched id_start (in_turn [0; 1; 2; 3; 4; 5; 6; 7] ++ replicate 4 8 ++ replicate 4 9 ++ replicate 2 8 ++ [9] ++ replicate 5 10 ++ [9])%nat.

(** C25: two requests that link the same pair, with an unlink between the second
    one's seal and its commit, leave a live link whose last sealed event says
    that it is ended: the log, in which the latest event wins, and the service's
    own table then disagree for good, since all three requests succeeded. *)
Theorem raced_links_diverge :
  exists ps w l ev,
    id_serves ps w /\ all_done ps [8; 9; 10]%nat = true /\ l ∈ t_ilinks (iw_db w) /\ lk_status l = LinkLinked /\
    last_event (names_link (lk_identity_id l) (lk_agent_id l)) (iw_log w) = Some ev /\ iv_EventType ev = TypeIdentityUnlinked.
Proof.
  assert (match t_ilinks (iw_db raced_run.2) with
          | [l0; l1] => String.eqb (lk_status l1) LinkLinked && match last_event (names_link (lk_identity_id l1) (lk_agent_id l1)) (iw_log raced_run.2) with
                        | Some ev => String.eqb (iv_EventType ev) TypeIdentityUnlinked | None => false end
          | _ => false end && all_done raced_run.1 [8; 9; 10]%nat = true) as H by (vm_compute; reflexivity).
  exists raced_run.1, raced_run.2. destruct (t_ilinks (iw_db raced_run.2)) as [|l0 [|l1 [|]]] eqn:EL; [discriminate H..| |discriminate H].
  apply andb_true_iff in H as [[H1%String.eqb_eq H2]%andb_true_iff H3].
  destruct (last_event (names_link (lk_identity_id l1) (lk_agent_id l1)) (iw_log raced_run.2)) as [ev|] eqn:EE; [|discriminate H2]. apply String.eqb_eq in H2.
  exists l1, ev. split_and!; [apply id_start_serves|exact H3|right; left|exact H1|exact EE|exact H2].
Qed.

(** Identity "id-1" is rotated to a value that the same owner has pending under
    "id-2". *)
Definition rotated_run : opool IWorld string unit * IWorld := osched id_start (in_turn [6; 7; 11; 12; 13]%nat).

(** A rotation that loses the uniqueness index is sealed all the same.  An
    owner with a verified identity and a pending one rotates the first to the
    second's value and proves control: the log then says that the first
    identity has the new value, while its row keeps the old one, verified and
    linkable. *)
Theorem failed_rotation_is_sealed :
  exists ps w r ev,
    id_serves ps w /\ all_done ps [6; 7; 11; 12; 13]%nat = true /\ r ∈ t_identities (iw_db w) /\ id_status r = IdentityVerified /\ id_value r = did msid_A /\
    last_event (proves (id_identity_id r)) (iw_log w) = Some ev /\ iv_EventType ev = TypeIdentityUpdated /\ iv_Value ev = did msid_B.
Proof.
  assert (match t_identities (iw_db rotated_run.2) with
          | [r; _] => String.eqb (id_status r) IdentityVerified && String.eqb (id_value r) (did msid_A) && match last_event (proves (id_identity_id r)) (iw_log rotated_run.2) with
                        | Some ev => String.eqb (iv_EventType ev) TypeIdentityUpdated && String.eqb (iv_Value ev) (did msid_B) | None => false end
          | _ => false end && all_done rotated_run.1 [6; 7; 11; 12; 13]%nat = true) as H by (vm_compute; reflexivity).
  exists rotated_run.1, rotated_run.2. destruct (t_identities (iw_db rotated_run.2)) as [|r [|r1 [|]]] eqn:EL; [discriminate H..| |discriminate H].
  apply andb_true_iff in H as [[[H1%String.eqb_eq H0%String.eqb_eq]%andb_true_iff H2]%andb_true_iff H3].
  destruct (last_event (proves (id_identity_id r)) (iw_log rotated_run.2)) as [ev|] eqn:EE; [|discriminate H2]. apply andb_true_iff in H2 as [H2%String.eqb_eq H4%String.eqb_eq].
  exists r, ev. split_and!; [apply id_start_serves|exact H3|left|exact H1|exact H0|exact EE|exact H2|exact H4].
Qed.
