(* ===== verification/TlStore.v ===== *)
(** The transparency log's database, [internal/adapter/store/sqlitetl]:
    [events.go], [checkpoints.go], [receipts.go], [producerkeys.go], and the
    in-memory trust store of [internal/tl/producerkey].

    A table is the list of its rows in insertion order, which is id order.  UNIQUE
    and CHECK violations are errors of the statement; what SQLite accepts as JSON
    in a CHECK is the class [SqliteJSON].  Failures of the engine itself are
    chosen by the callers.  [ORDER BY] sorts by a key of up to three columns.
    The current time is an argument. *)
From stdpp Require Import gmap sorting.
From S2P Require Import Prelude GoStrings GoTime DomainErrors GoEncoding GoJSON Sha256 Lifecycle Discovery TlEvent TlEnvelope RaEvents Jws.

#[local] Set Default Goal Selector "!".
#[local] Open Scope Z_scope.

Class SqliteJSON := { json_valid : string -> bool }.

(** ** Ordering and pages *)

Definition key_leb (a b : Z * Z * Z) : bool :=
  let '(a1, a2, a3) := a in let '(b1, b2, b3) := b in
  (a1 <? b1) || (a1 =? b1) && ((a2 <? b2) || (a2 =? b2) && (a3 <=? b3)).

Definition by_key {A} (key : A -> Z * Z * Z) (x y : A) : Prop := key_leb (key x) (key y) = true.

#[export] Instance by_key_dec {A} (key : A -> Z * Z * Z) : RelDecision (by_key key).
Proof. intros x y. unfold by_key. apply _. Defined.

Definition order_by {A} (key : A -> Z * Z * Z) (rows : list A) : list A := merge_sort (by_key key) rows.

(** [clampPage] *)
Definition clampPage (limit offset : Z) : Z * Z :=
  (if (limit <=? 0) || (200 <? limit) then 50 else limit, if offset <? 0 then 0 else offset).

Definition page {A} (limit offset : Z) (rows : list A) : list A :=
  let '(limit, offset) := clampPage limit offset in take (Z.to_nat limit) (drop (Z.to_nat offset) rows).

Fixpoint list_min (l : list Z) : option Z :=
  match l with [] => None | x :: l' => Some (match list_min l' with Some m => Z.min x m | None => x end) end.

Fixpoint list_max (l : list Z) : option Z :=
  match l with [] => None | x :: l' => Some (match list_max l' with Some m => Z.max x m | None => x end) end.

(** [mapSQLErr] of [sql.ErrNoRows]. *)
Definition TL_NOT_FOUND : serr := Dom (NewNotFoundError "TL_NOT_FOUND").
Definition found {A} (r : option A) : result serr A := match r with Some a => Ok a | None => Err TL_NOT_FOUND end.

(** ** Rows *)

Record EventRecord := {
  er_ID : Z;
  er_LeafIndex : Z;
  er_LeafHashHex : string;
  er_EventHashHex : string;
  er_LogID : string;
  er_AgentID : string;
  er_AnsName : string;
  er_AgentFQDN : string;
  er_identity : option string;      (* the column; NULL for agent events *)
  er_EventType : string;
  er_SchemaVersion : string;
  er_RawEvent : string;
  er_CreatedAtMs : Z
}.

(** [COALESCE(identity_id, '')] *)
Definition er_IdentityID (r : EventRecord) : string := default "" (er_identity r).

Record LinkState := { ls_IdentityID : string; ls_AnsID : string; ls_LeafIndex : Z; ls_EventType : string; ls_CreatedAtMs : Z }.

Definition LinkState_Linked (l : LinkState) : bool := String.eqb (ls_EventType l) "IDENTITY_LINKED".

Record CheckpointRecord := {
  cp_ID : Z; cp_TreeSize : Z; cp_TreeHashHex : string; cp_CheckpointRaw : string; cp_Origin : string; cp_CreatedAtMs : Z
}.

Record ReceiptRecord := {
  rr_ID : Z; rr_LeafIndex : Z; rr_AgentID : string; rr_TreeSize : Z; rr_ReceiptBlob : string; rr_CreatedAtMs : Z
}.

Record producerKeyRow := {
  kr_KeyID : string;
  kr_RaID : string;
  kr_Algorithm : string;
  kr_PublicKeyPEM : string;
  kr_Fingerprint : string;
  kr_Status : string;
  kr_ValidFromMs : Z;
  kr_ExpiresAtMs : Z;
  kr_RevokedAtMs : option Z;
  kr_Metadata : option string;
  kr_CreatedAtMs : Z;
  kr_UpdatedAtMs : Z
}.

Record TlDB := {
  t_events : list EventRecord;
  t_events_seq : Z;
  t_links : list LinkState;
  t_checkpoints : list CheckpointRecord;
  t_checkpoints_seq : Z;
  t_receipts : list ReceiptRecord;
  t_receipts_seq : Z;
  t_keys : list producerKeyRow
}.

Definition empty_tldb : TlDB :=
  {| t_events := []; t_events_seq := 0; t_links := []; t_checkpoints := []; t_checkpoints_seq := 0;
     t_receipts := []; t_receipts_seq := 0; t_keys := [] |}.

Definition set_events (d : TlDB) (es : list EventRecord) (seq : Z) (ls : list LinkState) : TlDB :=
  {| t_events := es; t_events_seq := seq; t_links := ls; t_checkpoints := t_checkpoints d;
     t_checkpoints_seq := t_checkpoints_seq d; t_receipts := t_receipts d; t_receipts_seq := t_receipts_seq d; t_keys := t_keys d |}.
Definition set_checkpoints (d : TlDB) (cs : list CheckpointRecord) (seq : Z) : TlDB :=
  {| t_events := t_events d; t_events_seq := t_events_seq d; t_links := t_links d; t_checkpoints := cs;
     t_checkpoints_seq := seq; t_receipts := t_receipts d; t_receipts_seq := t_receipts_seq d; t_keys := t_keys d |}.
Definition set_receipts (d : TlDB) (rs : list ReceiptRecord) (seq : Z) : TlDB :=
  {| t_events := t_events d; t_events_seq := t_events_seq d; t_links := t_links d; t_checkpoints := t_checkpoints d;
     t_checkpoints_seq := t_checkpoints_seq d; t_receipts := rs; t_receipts_seq := seq; t_keys := t_keys d |}.
Definition set_keys (d : TlDB) (ks : list producerKeyRow) : TlDB :=
  {| t_events := t_events d; t_events_seq := t_events_seq d; t_links := t_links d; t_checkpoints := t_checkpoints d;
     t_checkpoints_seq := t_checkpoints_seq d; t_receipts := t_receipts d; t_receipts_seq := t_receipts_seq d; t_keys := ks |}.

(** ** [events.go] *)

(** [EventRecord.Envelope] reads the V2 shape. *)
Definition EventRecord_Envelope (r : EventRecord) : result serr (Envelope EventV2) :=
  match Unmarshal (dec_envelope dec_event2 zero_event) zero_envelope (er_RawEvent r) with
  | Some e => Ok e | None => Err (Other "sqlite_tl: parse raw_event") end.

Definition LeafHashBytes (r : EventRecord) : result serr string :=
  match hex_DecodeString (er_LeafHashHex r) with
  | Some raw => if Nat.eqb (String.length raw) 32 then Ok raw else Err (Other "sqlite_tl: invalid leaf hash hex")
  | None => Err (Other "sqlite_tl: invalid leaf hash hex")
  end.

Definition at_leaf (index : Z) (r : EventRecord) : bool := er_LeafIndex r =? index.

Definition GetEventByLeafIndex (d : TlDB) (index : Z) : result serr EventRecord := found (find_first (at_leaf index) (t_events d)).

Definition FirstUnindexedLeaf (d : TlDB) : result serr Z :=
  if negb (existsb (at_leaf 0) (t_events d)) then Ok 0 else
  let gaps := filter (fun r => existsb (at_leaf (er_LeafIndex r + 1)) (t_events d) = false) (t_events d) in
  match list_min ((fun r => er_LeafIndex r + 1) <$> gaps) with
  | Some next => Ok next
  | None => Err (Other "sql: Scan error: converting NULL to uint64")
  end.

Definition IndexedSize (d : TlDB) : Z :=
  match list_max (er_LeafIndex <$> t_events d) with Some m => m + 1 | None => 0 end.

(** [NOT EXISTS] an earlier leaf with the same event of the same agent. *)
Definition first_occurrence (d : TlDB) (current : EventRecord) : bool :=
  negb (existsb (fun first => String.eqb (er_EventHashHex first) (er_EventHashHex current) &&
                              String.eqb (er_AgentID first) (er_AgentID current) &&
                              (er_LeafIndex first <? er_LeafIndex current)) (t_events d)).

Definition is_agent_row (r : EventRecord) : bool := match er_identity r with None => true | Some _ => false end.

(** Revocation, then deprecation, dominate. *)
Definition type_rank (t : string) : Z :=
  if String.eqb t TypeAgentRevoked then 0 else if String.eqb t TypeAgentDeprecated then 1 else 2.

Definition LatestAgentState (d : TlDB) (ansName agentID : string) : result serr EventRecord :=
  let rows := filter (fun r => is_agent_row r && (String.eqb (er_AnsName r) ansName || String.eqb (er_AgentID r) agentID) &&
                               first_occurrence d r = true) (t_events d) in
  let key r := (if negb (String.eqb (er_AnsName r) ansName) || negb (String.eqb (er_AgentID r) agentID) then 0 else 1,
                type_rank (er_EventType r), - er_LeafIndex r) in
  found (head (order_by key rows)).

Definition ComputeEventHash (innerCanonical : string) : string := hex_EncodeToString (Sum256 innerCanonical).

Section Store.
Context `{SJ : SqliteJSON}.

(** The row of an envelope. *)
Definition event_row (id leafIndex : Z) (leafHash innerEventHash : string) (env : Signable) (canonicalEnvelope : string) (now : Z) : EventRecord :=
  {| er_ID := id; er_LeafIndex := leafIndex; er_LeafHashHex := hex_EncodeToString leafHash; er_EventHashHex := innerEventHash;
     er_LogID := View_LogID env; er_AgentID := View_AgentID env; er_AnsName := View_AnsName env; er_AgentFQDN := View_AgentFQDN env;
     er_identity := (if String.eqb (View_IdentityID env) "" then None else Some (View_IdentityID env));
     er_EventType := View_EventType env; er_SchemaVersion := View_Version env; er_RawEvent := canonicalEnvelope; er_CreatedAtMs := now |}.

(** The fan-out of a link event; [UNIQUE(leaf_index, ans_id)]. *)
Fixpoint insert_links (links : list LinkState) (leafIndex : Z) (identityID : string) (linked : list string) (type : string) (now : Z)
  : result serr (list LinkState) :=
  match linked with
  | [] => Ok links
  | ansID :: rest =>
      if existsb (fun l => (ls_LeafIndex l =? leafIndex) && String.eqb (ls_AnsID l) ansID) links
      then Err (Other "UNIQUE constraint failed: tl_identity_event_agents.leaf_index, tl_identity_event_agents.ans_id") else
      insert_links (links ++ [{| ls_IdentityID := identityID; ls_AnsID := ansID; ls_LeafIndex := leafIndex; ls_EventType := type;
                                 ls_CreatedAtMs := now |}]) leafIndex identityID rest type now
  end.

(** The transaction: both inserts, or an error and no effect. *)
Definition StoreEvent (d : TlDB) (leafIndex : Z) (leafHash innerEventHash : string) (env : Signable) (canonicalEnvelope : string) (now : Z)
  : result serr (EventRecord * TlDB) :=
  let identityID := View_IdentityID env in
  let linkedAgents := View_LinkedAgentIDs env in
  if existsb (at_leaf leafIndex) (t_events d) then Err (Other "UNIQUE constraint failed: tl_events.leaf_index") else
  if negb (json_valid canonicalEnvelope) then Err (Other "CHECK constraint failed: json_valid(raw_event)") else
  if negb (one_of (View_Version env) ["V0"; SchemaVersionV1; SchemaVersionV2]) then Err (Other "CHECK constraint failed: schema_version") else
  let id := t_events_seq d + 1 in
  let row := event_row id leafIndex leafHash innerEventHash env canonicalEnvelope now in
  links ← (if String.eqb identityID "" then Ok (t_links d)
           else insert_links (t_links d) leafIndex identityID linkedAgents (View_EventType env) now);
  let d' := set_events d (t_events d ++ [row]) id links in
  r ← GetEventByLeafIndex d' leafIndex; Ok (r, d').
End Store.

Definition GetLatestByAgentID (d : TlDB) (agentID : string) (maxLeafIndex : Z) : result serr EventRecord :=
  let below r := if 0 <? maxLeafIndex then er_LeafIndex r <? maxLeafIndex else true in
  let rows := filter (fun r => is_agent_row r && String.eqb (er_AgentID r) agentID && below r && first_occurrence d r = true) (t_events d) in
  found (head (order_by (fun r => (type_rank (er_EventType r), - er_LeafIndex r, 0)) rows)).

(** [ORDER BY leaf_index DESC] *)
Definition newest_first (rows : list EventRecord) : list EventRecord := order_by (fun r => (- er_LeafIndex r, 0, 0)) rows.

Definition GetByAgentID (d : TlDB) (agentID : string) (limit offset maxLeafIndex : Z) : list EventRecord :=
  let below r := if 0 <? maxLeafIndex then er_LeafIndex r <? maxLeafIndex else true in
  page limit offset (newest_first (filter (fun r => String.eqb (er_AgentID r) agentID && below r = true) (t_events d))).

Definition identity_rows (d : TlDB) (identityID : string) : list EventRecord :=
  filter (fun r => er_identity r = Some identityID) (t_events d).

Definition GetLatestByIdentityID (d : TlDB) (identityID : string) : result serr EventRecord :=
  found (head (newest_first (identity_rows d identityID))).

Definition GetByIdentityID (d : TlDB) (identityID : string) (limit offset : Z) : list EventRecord :=
  page limit offset (newest_first (identity_rows d identityID)).

Definition GetLatestProofByIdentityID (d : TlDB) (identityID : string) : result serr EventRecord :=
  found (head (newest_first (filter (fun r => one_of (er_EventType r) ["IDENTITY_VERIFIED"; "IDENTITY_UPDATED"] = true)
                                    (identity_rows d identityID)))).

Definition HasIdentityRevoked (d : TlDB) (identityID : string) : bool :=
  existsb (fun r => String.eqb (er_EventType r) "IDENTITY_REVOKED") (identity_rows d identityID).

(** The latest fact of each group: no later row of the same agent and identity. *)
Definition latest_link (d : TlDB) (a : LinkState) : bool :=
  forallb (fun b => negb (String.eqb (ls_AnsID b) (ls_AnsID a) && String.eqb (ls_IdentityID b) (ls_IdentityID a)) ||
                    (ls_LeafIndex b <=? ls_LeafIndex a)) (t_links d).

Definition links_newest_first (ls : list LinkState) : list LinkState := order_by (fun l => (- ls_LeafIndex l, 0, 0)) ls.

Definition LinkStatesByAgent (d : TlDB) (ansID : string) : list LinkState :=
  links_newest_first (filter (fun a => String.eqb (ls_AnsID a) ansID && latest_link d a = true) (t_links d)).

Definition LinkStatesByIdentity (d : TlDB) (identityID : string) : list LinkState :=
  links_newest_first (filter (fun a => String.eqb (ls_IdentityID a) identityID && latest_link d a = true) (t_links d)).

Definition LinkEventsByAgent (d : TlDB) (ansID : string) (limit offset : Z) : list EventRecord :=
  let joined := flat_map (fun e => (fun _ => e) <$> filter (fun a => String.eqb (ls_AnsID a) ansID && (ls_LeafIndex a =? er_LeafIndex e) = true) (t_links d))
                         (t_events d) in
  page limit offset (newest_first joined).

Definition ExistsByEventHash (d : TlDB) (eventHashHex : string) : option Z :=
  er_LeafIndex <$> head (order_by (fun r => (er_LeafIndex r, 0, 0)) (filter (fun r => er_EventHashHex r = eventHashHex) (t_events d))).

(** ** [checkpoints.go] *)

(** [INSERT OR IGNORE] on the unique root hash. *)
Definition CheckpointStore_Store (d : TlDB) (treeSize : Z) (treeRoot checkpointRaw origin : string) (now : Z) : TlDB :=
  let hash := hex_EncodeToString treeRoot in
  if existsb (fun c => String.eqb (cp_TreeHashHex c) hash) (t_checkpoints d) then d else
  let id := t_checkpoints_seq d + 1 in
  set_checkpoints d (t_checkpoints d ++ [{| cp_ID := id; cp_TreeSize := treeSize; cp_TreeHashHex := hash;
    cp_CheckpointRaw := checkpointRaw; cp_Origin := origin; cp_CreatedAtMs := now |}]) id.

Definition CheckpointStore_Latest (d : TlDB) : result serr CheckpointRecord :=
  found (head (order_by (fun c => (- cp_TreeSize c, 0, 0)) (t_checkpoints d))).

Definition ByTreeSizeAtLeast (d : TlDB) (target : Z) : option CheckpointRecord :=
  head (order_by (fun c => (cp_TreeSize c, 0, 0)) (filter (fun c => target <=? cp_TreeSize c = true) (t_checkpoints d))).

(** The filter [Count] and [List] share. *)
Definition checkpoint_filter (fromSize toSize : option Z) (since : option Time) (c : CheckpointRecord) : bool :=
  from_option (fun n => n <=? cp_TreeSize c) true fromSize && from_option (fun n => cp_TreeSize c <=? n) true toSize &&
  from_option (fun t => Time_UnixMilli t <=? cp_CreatedAtMs c) true since.

Definition CheckpointStore_Count (d : TlDB) (fromSize toSize : option Z) (since : option Time) : Z :=
  Z.of_nat (length (filter (fun c => checkpoint_filter fromSize toSize since c = true) (t_checkpoints d))).

Section CheckpointList.
Context `{F : CaseOrbits}.

Definition CheckpointStore_List (d : TlDB) (limit offset : Z) (fromSize toSize : option Z) (since : option Time) (order : string)
  : list CheckpointRecord :=
  let asc := EqualFold order "asc" in
  page limit offset (order_by (fun c => (if asc then cp_TreeSize c else - cp_TreeSize c, 0, 0))
    (filter (fun c => checkpoint_filter fromSize toSize since c = true) (t_checkpoints d))).
End CheckpointList.

(** ** [receipts.go] *)

Definition FindByLeafIndex (d : TlDB) (leafIndex treeSize : Z) : option ReceiptRecord :=
  find_first (fun r => (rr_LeafIndex r =? leafIndex) && (rr_TreeSize r =? treeSize)) (t_receipts d).

Definition ReceiptStore_Store (d : TlDB) (leafIndex : Z) (agentID : string) (treeSize : Z) (receipt : string) (now : Z) : TlDB :=
  match FindByLeafIndex d leafIndex treeSize with
  | Some _ => d
  | None =>
      let id := t_receipts_seq d + 1 in
      set_receipts d (t_receipts d ++ [{| rr_ID := id; rr_LeafIndex := leafIndex; rr_AgentID := agentID; rr_TreeSize := treeSize;
        rr_ReceiptBlob := receipt; rr_CreatedAtMs := now |}]) id
  end.

(** ** Producer keys *)

Inductive key_error := KeyNotFound | KeyDuplicate | KeyInvalidRange | KeyOther.

Record KeyEntry := {
  ke_RaID : string;
  ke_KeyID : string;
  ke_Algorithm : string;
  ke_PublicKeyPEM : string;
  ke_ValidFrom : Time;
  ke_ExpiresAt : Time;
  ke_Metadata : string
}.

(** [producerkey.Store]: all that ingestion sees of a trust store. *)
Class KeyStore (S : Type) := { KeyStore_Get : S -> Time -> string -> string -> result key_error string }.

(** [memory.go]: a map from (raID, keyID) to the PEM. *)
Definition MemoryStore : Type := gmap (string * string) string.

Definition MemoryStore_Add (s : MemoryStore) (e : KeyEntry) : option MemoryStore :=
  if String.eqb (ke_RaID e) "" || String.eqb (ke_KeyID e) "" || String.eqb (ke_PublicKeyPEM e) "" then None else
  match s !! (ke_RaID e, ke_KeyID e) with
  | Some _ => None
  | None => Some (<[(ke_RaID e, ke_KeyID e) := ke_PublicKeyPEM e]> s)
  end.

Fixpoint add_entries (s : MemoryStore) (entries : list KeyEntry) : option MemoryStore :=
  match entries with [] => Some s | e :: es => s' ← MemoryStore_Add s e; add_entries s' es end.

Definition NewMemoryStoreFromEntries (entries : list KeyEntry) : option MemoryStore := add_entries ∅ entries.

Definition MemoryStore_Revoke (s : MemoryStore) (raID keyID : string) : result key_error MemoryStore :=
  match s !! (raID, keyID) with Some _ => Ok (delete (raID, keyID) s) | None => Err KeyNotFound end.

#[export] Instance memory_keys : KeyStore MemoryStore :=
  {| KeyStore_Get s _ raID keyID := match s !! (raID, keyID) with Some pem => Ok pem | None => Err KeyNotFound end |}.

(** [producerkeys.go] *)
Definition StatusKeyActive : string := "active".
Definition StatusKeyRevoked : string := "revoked".

Definition key_usable (nowMs : Z) (raID keyID : string) (r : producerKeyRow) : bool :=
  String.eqb (kr_RaID r) raID && String.eqb (kr_KeyID r) keyID && String.eqb (kr_Status r) StatusKeyActive &&
  (kr_ValidFromMs r <=? nowMs) && (nowMs <? kr_ExpiresAtMs r).

#[export] Instance sqlite_keys : KeyStore TlDB :=
  {| KeyStore_Get d now raID keyID :=
       match find_first (key_usable (Time_UnixMilli now) raID keyID) (t_keys d) with
       | Some r => Ok (kr_PublicKeyPEM r) | None => Err KeyNotFound end |}.

Definition validateEntry (e : KeyEntry) : result key_error unit :=
  if String.eqb (ke_RaID e) "" || String.eqb (ke_KeyID e) "" || String.eqb (ke_Algorithm e) "" || String.eqb (ke_PublicKeyPEM e) ""
  then Err KeyInvalidRange else
  if Time_IsZero (ke_ValidFrom e) || Time_IsZero (ke_ExpiresAt e) then Err KeyInvalidRange else
  if negb (Time_Before (ke_ValidFrom e) (ke_ExpiresAt e)) then Err KeyInvalidRange else Ok tt.

Definition GetByKeyID (d : TlDB) (keyID : string) : result key_error producerKeyRow :=
  match find_first (fun r => String.eqb (kr_KeyID r) keyID) (t_keys d) with Some r => Ok r | None => Err KeyNotFound end.

Section Register.
Context `{S : SigSchemes} `{X : PemX509, KP : !KeyParser} `{SJ : SqliteJSON}.

Definition fingerprintFromPEM (pubPEM : string) : option string :=
  '(_, bytes) ← pem_Decode pubPEM;
  _ ← x509_ParsePKIXPublicKey bytes;
  Some ("SHA256:" +:+ hex_EncodeToString (Sum256 bytes)).

(** [key_id] is the primary key. *)
Definition Register (d : TlDB) (now : Time) (e : KeyEntry) : result key_error (producerKeyRow * TlDB) :=
  _ ← validateEntry e;
  match fingerprintFromPEM (ke_PublicKeyPEM e) with
  | None => Err KeyOther
  | Some fp =>
      let metadata := if String.eqb (ke_Metadata e) "" then None else Some (ke_Metadata e) in
      if existsb (fun r => String.eqb (kr_KeyID r) (ke_KeyID e)) (t_keys d) then Err KeyDuplicate else
      if negb (from_option json_valid true metadata) then Err KeyOther else
      let nowMs := Time_UnixMilli now in
      let d' := set_keys d (t_keys d ++
        [{| kr_KeyID := ke_KeyID e; kr_RaID := ke_RaID e; kr_Algorithm := ke_Algorithm e; kr_PublicKeyPEM := ke_PublicKeyPEM e;
            kr_Fingerprint := fp; kr_Status := StatusKeyActive; kr_ValidFromMs := Time_UnixMilli (ke_ValidFrom e);
            kr_ExpiresAtMs := Time_UnixMilli (ke_ExpiresAt e); kr_RevokedAtMs := None; kr_Metadata := metadata;
            kr_CreatedAtMs := nowMs; kr_UpdatedAtMs := nowMs |}]) in
      r ← GetByKeyID d' (ke_KeyID e); Ok (r, d')
  end.
End Register.

Definition revoke_row (nowMs : Z) (r : producerKeyRow) : producerKeyRow :=
  {| kr_KeyID := kr_KeyID r; kr_RaID := kr_RaID r; kr_Algorithm := kr_Algorithm r; kr_PublicKeyPEM := kr_PublicKeyPEM r;
     kr_Fingerprint := kr_Fingerprint r; kr_Status := StatusKeyRevoked; kr_ValidFromMs := kr_ValidFromMs r;
     kr_ExpiresAtMs := kr_ExpiresAtMs r; kr_RevokedAtMs := Some nowMs; kr_Metadata := kr_Metadata r;
     kr_CreatedAtMs := kr_CreatedAtMs r; kr_UpdatedAtMs := nowMs |}.

Definition RevokeKey (d : TlDB) (now : Time) (keyID : string) : result key_error TlDB :=
  let cond r := String.eqb (kr_KeyID r) keyID && String.eqb (kr_Status r) StatusKeyActive in
  if existsb cond (t_keys d)
  then Ok (set_keys d ((fun r => if cond r then revoke_row (Time_UnixMilli now) r else r) <$> t_keys d))
  else Err KeyNotFound.

Definition ListByRAID (d : TlDB) (raID : string) : list producerKeyRow :=
  order_by (fun r => (- kr_ValidFromMs r, - kr_CreatedAtMs r, 0)) (filter (fun r => kr_RaID r = raID) (t_keys d)).
