(* ===== verification/TlStoreSpec.v ===== *)
(** What the queries of the transparency log's database return.

    [order_by] with [LIMIT 1] is a minimum, [FirstUnindexedLeaf] the first gap of
    the index, [ExistsByEventHash] the earliest leaf with a hash, and
    [LatestAgentState] a row that no other row of the agent or the name
    precedes. *)
From stdpp Require Import gmap sorting.
From S2P Require Import Prelude GoStrings GoTime DomainErrors GoEncoding GoJSON Sha256 TlEvent TlEnvelope TlStore.

#[local] Set Default Goal Selector "!".
#[local] Open Scope Z_scope.

(** ** Ordering *)

#[export] Instance by_key_total {A} (key : A -> Z * Z * Z) : Total (by_key key).
Proof.
  intros x y. unfold by_key, key_leb. destruct (key x) as [[a1 a2] a3], (key y) as [[b1 b2] b3].
  rewrite !orb_true_iff, !andb_true_iff, !orb_true_iff, !andb_true_iff. lia.
Qed.

#[export] Instance by_key_trans {A} (key : A -> Z * Z * Z) : Transitive (by_key key).
Proof.
  intros x y z. unfold by_key, key_leb. destruct (key x) as [[a1 a2] a3], (key y) as [[b1 b2] b3], (key z) as [[c1 c2] c3].
  rewrite !orb_true_iff, !andb_true_iff, !orb_true_iff, !andb_true_iff. lia.
Qed.

Lemma order_by_elem {A} (key : A -> Z * Z * Z) rows x : x ∈ order_by key rows <-> x ∈ rows.
Proof. unfold order_by. by rewrite (merge_sort_Permutation (by_key key)). Qed.

Lemma order_by_head {A} (key : A -> Z * Z * Z) rows x :
  head (order_by key rows) = Some x -> x ∈ rows /\ forall y, y ∈ rows -> by_key key x y.
Proof.
  intros H. split; [apply (order_by_elem key); by apply head_Some_elem_of|].
  intros y Hy. apply (order_by_elem key) in Hy. unfold order_by in *.
  pose proof (StronglySorted_merge_sort (by_key key) rows) as HS. destruct (merge_sort _ rows) as [|x' l]; [done|].
  injection H as ->. apply elem_of_cons in Hy as [->|Hy]; [by destruct (total (by_key key) x x)|].
  inversion HS as [|? ? _ Hall]; subst. rewrite Forall_forall in Hall. by apply Hall.
Qed.

Lemma order_by_none {A} (key : A -> Z * Z * Z) rows : head (order_by key rows) = None -> rows = [].
Proof.
  intros H. destruct rows as [|x rows]; [done|]. exfalso. assert (x ∈ order_by key (x :: rows)) as Hx by (apply order_by_elem; set_solver).
  destruct (order_by key (x :: rows)); [by apply elem_of_nil in Hx|done].
Qed.

Lemma list_min_spec l m : list_min l = Some m -> m ∈ l /\ forall x, x ∈ l -> m <= x.
Proof.
  revert m. induction l as [|x l IH]; intros m; [done|]. cbn [list_min]. intros [= <-]. destruct (list_min l) as [m'|] eqn:E.
  - destruct (IH m' eq_refl) as [H1 H2]. split.
    + destruct (Z.min_spec x m') as [[_ ->]|[_ ->]]; [set_solver|set_solver].
    + intros y [->|Hy]%elem_of_cons; [lia|]. apply H2 in Hy. lia.
  - destruct l; [|done]. split; [set_solver|]. intros y [->|Hy]%elem_of_cons; [lia|by apply elem_of_nil in Hy].
Qed.

Lemma list_min_none l : list_min l = None -> l = [].
Proof. by destruct l. Qed.

Lemma list_max_spec l m : list_max l = Some m -> m ∈ l /\ forall x, x ∈ l -> x <= m.
Proof.
  revert m. induction l as [|x l IH]; intros m; [done|]. cbn [list_max]. intros [= <-]. destruct (list_max l) as [m'|] eqn:E.
  - destruct (IH m' eq_refl) as [H1 H2]. split.
    + destruct (Z.max_spec x m') as [[_ ->]|[_ ->]]; [set_solver|set_solver].
    + intros y [->|Hy]%elem_of_cons; [lia|]. apply H2 in Hy. lia.
  - destruct l; [|done]. split; [set_solver|]. intros y [->|Hy]%elem_of_cons; [lia|by apply elem_of_nil in Hy].
Qed.

(** ** Rows at a leaf *)

Definition indexed (d : TlDB) (i : Z) : Prop := exists r, r ∈ t_events d /\ er_LeafIndex r = i.

Lemma at_leaf_exists d i : existsb (at_leaf i) (t_events d) = true <-> indexed d i.
Proof.
  rewrite existsb_exists. unfold indexed, at_leaf. split; intros (r & H1 & H2); exists r; rewrite list_elem_of_In in *; (split; [done|lia]).
Qed.

Lemma at_leaf_absent d i : existsb (at_leaf i) (t_events d) = false <-> ~ indexed d i.
Proof. by rewrite <-at_leaf_exists, not_true_iff_false. Qed.

Lemma GetEventByLeafIndex_Ok d i r : GetEventByLeafIndex d i = Ok r -> r ∈ t_events d /\ er_LeafIndex r = i.
Proof.
  unfold GetEventByLeafIndex. destruct (find_first _ _) as [r'|] eqn:E; [|done]. intros [= ->].
  apply find_first_Some in E as [Hin H]. unfold at_leaf in H. split; [done|lia].
Qed.

Lemma GetEventByLeafIndex_Err d i e : GetEventByLeafIndex d i = Err e -> e = TL_NOT_FOUND /\ ~ indexed d i.
Proof.
  unfold GetEventByLeafIndex. destruct (find_first _ _) as [r'|] eqn:E; [done|]. intros [= <-]. split; [done|].
  intros (r & Hr & <-). rewrite find_first_None, Forall_forall in E. apply E in Hr. unfold at_leaf in Hr. lia.
Qed.

Lemma GetEventByLeafIndex_unique d r :
  NoDup (er_LeafIndex <$> t_events d) -> r ∈ t_events d -> GetEventByLeafIndex d (er_LeafIndex r) = Ok r.
Proof.
  intros Hnd Hr. destruct (GetEventByLeafIndex d (er_LeafIndex r)) as [r'|e] eqn:E.
  - apply GetEventByLeafIndex_Ok in E as [H1 H2]. f_equal. by apply (NoDup_key er_LeafIndex (t_events d)).
  - apply GetEventByLeafIndex_Err in E as [_ []]. by exists r.
Qed.

(** The first gap. *)
Lemma FirstUnindexedLeaf_Ok d n :
  (forall r, r ∈ t_events d -> 0 <= er_LeafIndex r) -> FirstUnindexedLeaf d = Ok n ->
  0 <= n /\ ~ indexed d n /\ forall i, 0 <= i < n -> indexed d i.
Proof.
  intros Hpos. unfold FirstUnindexedLeaf. destruct (existsb (at_leaf 0) (t_events d)) eqn:E0; cbn [negb].
  2: { intros [= <-]. apply at_leaf_absent in E0. split_and!; [lia|done|intros; lia]. }
  apply at_leaf_exists in E0. destruct (list_min _) as [m|] eqn:Em; [|done]. intros [= ->].
  apply list_min_spec in Em as [Hin Hmin]. apply list_elem_of_fmap in Hin as (r & -> & Hr).
  apply list_elem_of_filter in Hr as [Hgap%at_leaf_absent Hr]. pose proof (Hpos r Hr). split_and!; [lia|done|].
  intros i Hi. destruct Hi as [Hi Hlt]. revert Hlt. pattern i. apply natlike_ind; [done| |done]. clear i Hi.
  intros i Hi IH Hlt. destruct (existsb (at_leaf (i + 1)) (t_events d)) eqn:E; [by apply at_leaf_exists in E|].
  destruct IH as (ri & Hri & <-); [lia|].
  assert (er_LeafIndex r + 1 <= er_LeafIndex ri + 1); [|lia]. apply Hmin, list_elem_of_fmap. exists ri. split; [done|].
  by apply list_elem_of_filter.
Qed.

Lemma FirstUnindexedLeaf_total d : exists n, FirstUnindexedLeaf d = Ok n.
Proof.
  unfold FirstUnindexedLeaf. destruct (existsb (at_leaf 0) (t_events d)) eqn:E0; cbn [negb]; [|by eexists].
  destruct (list_min _) as [m|] eqn:Em; [by eexists|]. exfalso. apply list_min_none in Em.
  apply at_leaf_exists in E0 as (r0 & Hr0 & _). destruct (list_max (er_LeafIndex <$> t_events d)) as [m|] eqn:EM.
  2: { destruct (t_events d); [by apply elem_of_nil in Hr0|done]. }
  apply list_max_spec in EM as [Hin Hmax]. apply list_elem_of_fmap in Hin as (r & -> & Hr).
  assert (er_LeafIndex r + 1 ∈ ((fun r => er_LeafIndex r + 1) <$> filter (fun r => existsb (at_leaf (er_LeafIndex r + 1)) (t_events d) = false) (t_events d))) as H.
  { apply list_elem_of_fmap. exists r. split; [done|]. apply list_elem_of_filter. split; [|done]. apply at_leaf_absent.
    intros (r' & Hr' & E). specialize (Hmax (er_LeafIndex r')). assert (er_LeafIndex r' <= er_LeafIndex r); [|lia]. apply Hmax. by apply list_elem_of_fmap_2. }
  rewrite Em in H. by apply elem_of_nil in H.
Qed.

Lemma IndexedSize_bound d n : (forall r, r ∈ t_events d -> er_LeafIndex r < n) -> 0 <= n -> IndexedSize d <= n.
Proof.
  intros H Hn. unfold IndexedSize. destruct (list_max _) as [m|] eqn:E; [|done]. apply list_max_spec in E as [Hin _].
  apply list_elem_of_fmap in Hin as (r & -> & Hr). apply H in Hr. lia.
Qed.

(** ** By content *)

Lemma ExistsByEventHash_Some d h i :
  ExistsByEventHash d h = Some i -> exists r, r ∈ t_events d /\ er_EventHashHex r = h /\ er_LeafIndex r = i.
Proof.
  unfold ExistsByEventHash. destruct (head _) as [r|] eqn:E; [|done]. intros [= <-].
  apply order_by_head in E as [Hr _]. apply list_elem_of_filter in Hr as [H1 H2]. by exists r.
Qed.

Lemma ExistsByEventHash_None d h : ExistsByEventHash d h = None -> forall r, r ∈ t_events d -> er_EventHashHex r <> h.
Proof.
  unfold ExistsByEventHash. destruct (head _) as [r|] eqn:E; [done|]. intros _ r Hr <-. apply order_by_none in E.
  assert (r ∈ filter (fun r' => er_EventHashHex r' = er_EventHashHex r) (t_events d)) as H by by apply list_elem_of_filter.
  rewrite E in H. by apply elem_of_nil in H.
Qed.

(** ** The state of an agent *)

(** The rows [LatestAgentState] ranges over. *)
Definition related (d : TlDB) (ansName agentID : string) (r : EventRecord) : Prop :=
  r ∈ t_events d /\ er_identity r = None /\ (er_AnsName r = ansName \/ er_AgentID r = agentID).

Lemma first_occurrence_distinct d r :
  NoDup (er_EventHashHex <$> t_events d) -> r ∈ t_events d -> first_occurrence d r = true.
Proof.
  intros Hnd Hr. unfold first_occurrence. apply negb_true_iff, not_true_iff_false. intros H.
  apply existsb_exists in H as (f & Hf & H). rewrite <-list_elem_of_In in Hf. b2p.
  assert (f = r) as -> by by apply (NoDup_key er_EventHashHex (t_events d)). lia.
Qed.

Lemma LatestAgentState_rows d ansName agentID r :
  r ∈ filter (fun r => is_agent_row r && (String.eqb (er_AnsName r) ansName || String.eqb (er_AgentID r) agentID) &&
                       first_occurrence d r = true) (t_events d) <-> related d ansName agentID r /\ first_occurrence d r = true.
Proof.
  rewrite list_elem_of_filter. unfold related, is_agent_row. rewrite !andb_true_iff, orb_true_iff, !String.eqb_eq.
  destruct (er_identity r); naive_solver.
Qed.

Lemma LatestAgentState_Ok d ansName agentID rec :
  LatestAgentState d ansName agentID = Ok rec -> NoDup (er_EventHashHex <$> t_events d) ->
  related d ansName agentID rec /\
  forall r, related d ansName agentID r ->
    (er_AnsName rec = ansName -> er_AgentID rec = agentID ->
       er_AnsName r = ansName /\ er_AgentID r = agentID /\
       (type_rank (er_EventType rec) < type_rank (er_EventType r) \/
        type_rank (er_EventType rec) = type_rank (er_EventType r) /\ er_LeafIndex r <= er_LeafIndex rec)).
Proof.
  unfold LatestAgentState. destruct (head _) as [rec'|] eqn:E; [|done]. intros [= ->] Hnd.
  apply order_by_head in E as [Hin Hmin]. rewrite LatestAgentState_rows in Hin. split; [apply Hin|].
  intros r Hr HN HA. specialize (Hmin r). rewrite LatestAgentState_rows in Hmin.
  specialize (Hmin (conj Hr (first_occurrence_distinct _ _ Hnd (proj1 Hr)))). unfold by_key, key_leb in Hmin.
  rewrite HN, HA, !String.eqb_refl in Hmin. cbn [negb orb] in Hmin.
  destruct (String.eqb_spec (er_AnsName r) ansName), (String.eqb_spec (er_AgentID r) agentID); cbn [negb orb] in Hmin; try done.
  split_and!; [done..|]. b2p. lia.
Qed.

Lemma LatestAgentState_Err d ansName agentID e :
  LatestAgentState d ansName agentID = Err e -> NoDup (er_EventHashHex <$> t_events d) ->
  e = TL_NOT_FOUND /\ forall r, ~ related d ansName agentID r.
Proof.
  unfold LatestAgentState. destruct (head _) as [rec'|] eqn:E; [done|]. intros [= <-] Hnd. split; [done|]. intros r Hr.
  apply order_by_none in E. pose proof (proj2 (LatestAgentState_rows d ansName agentID r)) as H.
  rewrite E in H. eapply not_elem_of_nil, H. split; [done|]. by apply first_occurrence_distinct; [|apply Hr].
Qed.
