(* ===== verification/TlLog.v ===== *)
(** The log service: [internal/tl/service/log.go], [ingest.go], [agent_policy.go]
    and [producersig.go], over the log of [internal/tl/logstore/log.go].

    The state of the service is the leaves committed to the Merkle tree, the
    database, and the flag [indexReady].  The writer gate serialises everything
    that changes it, so an operation is a function of the state that returns a
    result and the next state (the monad [M]); a request that stops waiting for
    its append loses only the result.

    Tessera is a parameter: what it answers to an append and to the reads of a
    recovery are the fields of [Tessera], and [TesseraLaws] is its contract — a
    leaf is added at the end, an entry reported as a duplicate is in the log, an
    append that failed may still have committed, and reads return what the log
    holds or fail.  A statement that stores a row may fail, or commit and lose
    its answer; which one is chosen by [w_store].  A failing read of the database
    returns its error and changes nothing; it is left out. *)
From stdpp Require Import gmap.
From S2P Require Import Prelude GoStrings Utf8 GoTime DomainErrors SemVer AnsName GoEncoding GoJSON Jcs Sha256 Lifecycle Discovery TlEvent TlEnvelope RaEvents Jws TlStore.

#[local] Set Default Goal Selector "!".
#[local] Open Scope Z_scope.

(** ** Tessera *)

Inductive add_outcome := Added (index : Z) | AddedDup (index : Z) | AddFailed.

(** [tessera.LogReader] through the client functions. *)
Record LogReader := {
  rd_IntegratedSize : option Z;
  rd_GetEntryBundle : Z -> option (list string);
  rd_FetchLeafHashes : Z -> Z -> option (list string)
}.

Record Tessera := {
  ts_Add : list string -> string -> add_outcome * list string;
  ts_Reader : list string -> LogReader
}.

Definition EntryBundleWidth : Z := 256.

(** What an append may do. *)
Inductive tessera_add (leaves : list string) (entry : string) : add_outcome -> list string -> Prop :=
| add_new : tessera_add leaves entry (Added (Z.of_nat (length leaves))) (leaves ++ [entry])
| add_dup i : leaves !! i = Some entry -> tessera_add leaves entry (AddedDup (Z.of_nat i)) leaves
| add_refused : tessera_add leaves entry AddFailed leaves
| add_lost : tessera_add leaves entry AddFailed (leaves ++ [entry]).

Definition bundle_of (leaves : list string) (b : Z) : list string :=
  take (Z.to_nat EntryBundleWidth) (drop (Z.to_nat (EntryBundleWidth * b)) leaves).

Definition hashes_of (leaves : list string) (first count : Z) : list string :=
  leafHashOf <$> take (Z.to_nat count) (drop (Z.to_nat first) leaves).

Class TesseraLaws (T : Tessera) := {
  ts_add_law leaves entry : tessera_add leaves entry (ts_Add T leaves entry).1 (ts_Add T leaves entry).2;
  ts_size_law leaves n : rd_IntegratedSize (ts_Reader T leaves) = Some n -> n = Z.of_nat (length leaves);
  ts_bundle_law leaves b es : 0 <= b -> rd_GetEntryBundle (ts_Reader T leaves) b = Some es -> es = bundle_of leaves b;
  ts_hashes_law leaves first count hs :
    0 <= first -> 0 <= count -> rd_FetchLeafHashes (ts_Reader T leaves) first count = Some hs -> hs = hashes_of leaves first count
}.

(** ** State *)

Record LogState := { s_leaves : list string; s_db : TlDB; s_indexReady : bool }.

Definition with_db (s : LogState) (d : TlDB) : LogState := {| s_leaves := s_leaves s; s_db := d; s_indexReady := s_indexReady s |}.
Definition with_leaves (s : LogState) (l : list string) : LogState := {| s_leaves := l; s_db := s_db s; s_indexReady := s_indexReady s |}.
Definition with_ready (s : LogState) (b : bool) : LogState := {| s_leaves := s_leaves s; s_db := s_db s; s_indexReady := b |}.

Definition M (A : Type) : Type := LogState -> result serr A * LogState.

#[export] Instance M_ret : MRet M := fun A a s => (Ok a, s).
#[export] Instance M_bind : MBind M := fun A B f m s =>
  match m s with (Ok a, s') => f a s' | (Err e, s') => (Err e, s') end.

Definition fails {A} (e : serr) : M A := fun s => (Err e, s).
Definition lifts {A} (r : result serr A) : M A := fun s => (r, s).
Definition gets {A} (f : LogState -> A) : M A := fun s => (Ok (f s), s).
Definition set_ready (b : bool) : M unit := fun s => (Ok tt, with_ready s b).
Definition or_other {A} (what : string) (r : option A) : result serr A := match r with Some a => Ok a | None => Err (Other what) end.

Inductive db_outcome := DbDone | DbFailed | DbLost.

(** What surrounds one operation. *)
Record World := { w_tessera : Tessera; w_store : Z -> db_outcome; w_now : Time }.

Record AppendResult := { res_LogID : string; res_LeafIndex : Z; res_LeafHash : string; res_Duplicate : bool; res_TreeSize : Z }.

(** ** [agent_policy.go] *)

Definition agentEventTransitionAllowed (previous incoming : string) : bool :=
  let current :=
    if String.eqb previous TypeAgentRegistered || String.eqb previous TypeAgentRenewed then Some StatusActive else
    if String.eqb previous TypeAgentDeprecated then Some StatusDeprecated else None in
  match current with
  | None => false
  | Some current =>
      if String.eqb incoming TypeAgentRenewed then String.eqb current StatusActive else
      if String.eqb incoming TypeAgentDeprecated then CanTransitionTo current StatusDeprecated else
      if String.eqb incoming TypeAgentRevoked then CanTransitionTo current StatusRevoked else false
  end.

(** ** [checkAgentState] *)

Definition conflict {A} (code : string) : result serr A := Err (Dom (NewConflictError code)).

(** The anonymous struct of the incoming event: raId, agent.version. *)
Definition dec_incoming : json -> string * string -> option (string * string) :=
  dec_struct (fun m p =>
    raId ← field "raId" dec_str p.1 m;
    version ← field "agent" (dec_struct (fun a v => field "version" dec_str v a)) p.2 m;
    Some (raId, version)).

(** The anonymous struct of the prior event: raId, timestamp. *)
Definition dec_prior : json -> string * string -> option (string * string) :=
  dec_struct (fun m p =>
    raId ← field "raId" dec_str p.1 m;
    timestamp ← field "timestamp" dec_str p.2 m;
    Some (raId, timestamp)).

Section Log.
Context `{U : UnicodeTables} `{J : JCS} `{S : SigSchemes} `{X : PemX509, KP : !KeyParser, JO : !Jose} `{SJ : SqliteJSON}.
Context {K : Type} `{KS : KeyStore K}.

Definition host_key (fqdn : string) : string := trim_dot (ToLower fqdn).

(** The name, host and version of an event agree. *)
Definition checkAgentName (env : Signable) (canonical : string) : result serr (string * string) :=
  match ParseAnsName (View_AnsName env) with
  | Err _ => invalid "INVALID_EVENT"
  | Ok name =>
      if negb (String.eqb (AnsName_String name) (View_AnsName env)) || negb (String.eqb (AnsName_FQDN name) (host_key (View_AgentFQDN env)))
      then invalid "INVALID_EVENT" else
      incoming ← or_other "json: unmarshal" (Unmarshal dec_incoming ("", "") canonical);
      if negb (String.eqb incoming.2 (SemVer_String (an_version name))) then invalid "INVALID_EVENT" else Ok incoming
  end.

(** The event continues the agent's lifecycle. *)
Definition checkTransition (rec : EventRecord) (env : Signable) (raID : string) : result serr unit :=
  if negb (String.eqb (er_AnsName rec) (View_AnsName env)) || negb (String.eqb (er_AgentID rec) (View_AgentID env)) ||
     negb (String.eqb (host_key (er_AgentFQDN rec)) (host_key (View_AgentFQDN env)))
  then conflict "AGENT_STATE_CONFLICT" else
  previous ← innerEventBytes (er_RawEvent rec);
  prior ← or_other "json: unmarshal" (Unmarshal dec_prior ("", "") previous);
  if negb (String.eqb raID prior.1) then conflict "AGENT_STATE_CONFLICT" else
  if negb (agentEventTransitionAllowed (er_EventType rec) (View_EventType env)) then conflict "AGENT_STATE_CONFLICT" else
  match ParseRFC3339 prior.2, ParseRFC3339 (View_Timestamp env) with
  | Some oldTime, Some newTime =>
      if negb (String.eqb (View_EventType env) TypeAgentRevoked) && Time_Before newTime oldTime
      then conflict "STALE_AGENT_EVENT" else Ok tt
  | _, _ => invalid "INVALID_EVENT"
  end.

Definition checkAgentState (d : TlDB) (env : Signable) (canonical : string) : result serr unit :=
  match env with
  | SigId _ => Ok tt
  | _ =>
      incoming ← checkAgentName env canonical;
      match LatestAgentState d (View_AnsName env) (View_AgentID env) with
      | Err e => if is_not_found e then Ok tt else Err e
      | Ok rec => checkTransition rec env incoming.1
      end
  end.

(** ** [producersig.go] *)

Definition ProducerSig_Verify (keys : K) (now : Time) (jwsCompact body : string) : result serr (string * string) :=
  if String.eqb jwsCompact "" then invalid "NO_PRODUCER_SIGNATURE" else
  match DecodeHeader jwsCompact with
  | Err _ => invalid "INVALID_SIGNATURE_HEADER"
  | Ok header =>
      if String.eqb (h_Kid header) "" || String.eqb (h_RAID header) "" then invalid "INVALID_SIGNATURE_HEADER" else
      match KeyStore_Get keys now (h_RAID header) (h_Kid header) with
      | Err KeyNotFound => invalid "NOT_FOUND_PRODUCER_KEY"
      | Err _ => Err (Dom (NewInternalError "INVALID_PRODUCER_KEY"))
      | Ok pem =>
          match VerifyDetachedWithPEM jwsCompact body pem with
          | Err _ => invalid "MISMATCH_SIGNATURE"
          | Ok _ => Ok (h_RAID header, h_Kid header)
          end
      end
  end.

(** ** Index recovery *)

(** [StoreEvent] with the outcome the world chooses. *)
Definition store (w : World) (index : Z) (hash eventHash : string) (env : Signable) (raw : string) : M unit := fun s =>
  match w_store w index with
  | DbFailed => (Err (Other "database"), s)
  | o =>
      match StoreEvent (s_db s) index hash eventHash env raw (Time_UnixMilli (w_now w)) with
      | Err e => (Err e, s)
      | Ok (_, d) => (match o with DbLost => Err (Other "database") | _ => Ok tt end, with_db s d)
      end
  end.

Definition restoreIndexedLeaf (w : World) (index : Z) (raw tileHash : string) : M unit :=
  let hash := leafHashOf raw in
  if negb (String.eqb hash tileHash) then fails (Other "entry bytes disagree with the Merkle tile") else
  d ← gets s_db;
  match GetEventByLeafIndex d index with
  | Ok existing => if negb (String.eqb (er_RawEvent existing) raw) then fails (Other "indexed bytes disagree with Tessera") else mret tt
  | Err e =>
      if negb (is_not_found e) then fails e else
      env ← lifts (decodeStoredEnvelope raw);
      canonical ← lifts (or_other "canonicalize" (LeafBytes env));
      if negb (String.eqb raw canonical) then fails (Other "stored leaf is not canonical") else
      inner ← lifts (innerEventBytes raw);
      store w index hash (ComputeEventHash inner) env raw
  end.

(** The inner loop, over the entries of one bundle; indexing past the fetched
    hashes would panic. *)
Fixpoint restoreEntries (w : World) (next size : Z) (entries hashes : list string) : M Z :=
  match entries with
  | [] => mret next
  | raw :: entries' =>
      if negb (next <? size) then mret next else
      match hashes with
      | [] => fails (Other "panic: index out of range")
      | h :: hashes' => restoreIndexedLeaf w next raw h ≫= fun _ => restoreEntries w (next + 1) size entries' hashes'
      end
  end.

(** The outer loop; each round restores at least one leaf. *)
Fixpoint restoreLoop (fuel : nat) (w : World) (reader : LogReader) (next size : Z) : M unit :=
  if negb (next <? size) then mret tt else
  match fuel with
  | O => fails (Other "out of fuel")
  | Datatypes.S f =>
      entries ← lifts (or_other "tessera" (rd_GetEntryBundle reader (next / EntryBundleWidth)));
      let offset := next mod EntryBundleWidth in
      if Z.of_nat (length entries) <=? offset then fails (Other "entry bundle does not contain leaf") else
      let count := Z.min (Z.of_nat (length entries) - offset) (size - next) in
      hashes ← lifts (or_other "tessera" (rd_FetchLeafHashes reader next count));
      next' ← restoreEntries w next size (drop (Z.to_nat offset) entries) hashes;
      restoreLoop f w reader next' size
  end.

Definition restoreMissingLeaves (w : World) : M unit :=
  d ← gets s_db;
  next ← lifts (FirstUnindexedLeaf d);
  leaves ← gets s_leaves;
  let reader := ts_Reader (w_tessera w) leaves in
  size ← lifts (or_other "tessera" (rd_IntegratedSize reader));
  if size <? IndexedSize d then fails (Other "index extends beyond the integrated log") else
  restoreLoop (Z.to_nat (size - next)) w reader next size.

(** [recoverIndex] logs around it. *)
Definition recoverIndex (w : World) : M unit := restoreMissingLeaves w.

Definition RecoverIndex (w : World) : M unit :=
  _ ← set_ready false;
  _ ← recoverIndex w;
  set_ready true.

(** [lockIndexedRead]: a reader finds the index ready, or recovers it. *)
Definition lockIndexedRead (w : World) : M unit :=
  ready ← gets s_indexReady;
  if ready : bool then mret tt else RecoverIndex w.

(** ** Appending *)

Definition currentTreeSize (d : TlDB) (minSize : Z) : Z :=
  match CheckpointStore_Latest d with
  | Ok rec => if minSize + 1 <=? cp_TreeSize rec then cp_TreeSize rec else minSize + 1
  | Err _ => minSize + 1
  end.

Definition duplicateResult (rec : EventRecord) : M AppendResult :=
  hash ← lifts (LeafHashBytes rec);
  d ← gets s_db;
  mret {| res_LogID := er_LogID rec; res_LeafIndex := er_LeafIndex rec; res_LeafHash := hash; res_Duplicate := true;
          res_TreeSize := currentTreeSize d (er_LeafIndex rec) |}.

(** [logstore.Log.Append]: the outcome with the canonical bytes. *)
Definition log_Append (w : World) (env : Signable) : M (add_outcome * string) := fun s =>
  match Signable_Validate env with
  | Err _ => (Err (Other "validate"), s)
  | Ok _ =>
      match LeafBytes env with
      | None => (Err (Other "canonicalize"), s)
      | Some canonical =>
          match ts_Add (w_tessera w) (s_leaves s) canonical with
          | (AddFailed, leaves) => (Err (Other "logstore: append"), with_leaves s leaves)
          | (o, leaves) => (Ok (o, canonical), with_leaves s leaves)
          end
      end
  end.

Definition completeAppend (w : World) (env : Signable) (eventHash logID : string) : M AppendResult :=
  res ← log_Append w env;
  match res with
  | (AddedDup index, canonical) =>
      _ ← recoverIndex w;
      d ← gets s_db;
      rec ← lifts (GetEventByLeafIndex d index);
      if negb (String.eqb (er_RawEvent rec) canonical) then fails (Other "duplicate leaf bytes disagree with index") else
      _ ← set_ready true;
      duplicateResult rec
  | (Added index, canonical) =>
      _ ← store w index (leafHashOf canonical) eventHash env canonical;
      _ ← set_ready true;
      mret {| res_LogID := logID; res_LeafIndex := index; res_LeafHash := leafHashOf canonical; res_Duplicate := false;
              res_TreeSize := index + 1 |}
  | (AddFailed, _) => fails (Other "logstore: append")
  end.

(** The recovery an append runs first when the index is not ready. *)
Definition recoverBeforeAppend (w : World) : M unit := fun s =>
  if s_indexReady s then (Ok tt, s) else
  match recoverIndex w s with (r, s') => (r, with_ready s' (is_ok r)) end.

Record AttestConf := { ac_attestKM : KeyManager; ac_attestKeyID : string; ac_originRAID : string }.

Definition attest (conf : AttestConf) (now : Time) (env : Signable) : result serr Signable :=
  signingInput ← or_other "log: signing input" (SigningInput env);
  match SignDetachedJWS (ac_attestKM conf) (ac_attestKeyID conf)
    {| h_Alg := ""; h_Kid := ""; h_Typ := "JWT"; h_Timestamp := Time_Unix now; h_RAID := ac_originRAID conf; h_Jwk := None; h_Crit := [] |}
    signingInput with
  | Err _ => Err (Other "log: TL attestation sign")
  | Ok attSig => Ok (setOuterSignature env attSig)
  end.

(** [append]; [uuid] is the answer of the log id generator. *)
Definition append (conf : AttestConf) (w : World) (keys : K) (uuid : option string) (c : codec) (rawBody producerSignature : string)
  : M AppendResult :=
  ids ← lifts (ProducerSig_Verify keys (w_now w) producerSignature rawBody);
  logID ← lifts (or_other "generate logId" uuid);
  built ← lifts (ParseAndBuild c rawBody ids.1 ids.2 producerSignature logID);
  let '(env, innerCanonical) := built in
  let eventHash := ComputeEventHash innerCanonical in
  _ ← recoverBeforeAppend w;
  d ← gets s_db;
  match ExistsByEventHash d eventHash with
  | Some existingIdx =>
      rec ← lifts (GetEventByLeafIndex d existingIdx);
      lh ← lifts (LeafHashBytes rec);
      mret {| res_LogID := er_LogID rec; res_LeafIndex := existingIdx; res_LeafHash := lh; res_Duplicate := true;
              res_TreeSize := currentTreeSize d existingIdx |}
  | None =>
      _ ← lifts (checkAgentState d env innerCanonical);
      signed ← lifts (attest conf (w_now w) env);
      _ ← set_ready false;
      completeAppend w signed eventHash logID
  end.

Definition AppendV2 (conf : AttestConf) (w : World) (keys : K) (uuid : option string) := append conf w keys uuid V2Codec.
Definition AppendV1 (conf : AttestConf) (w : World) (keys : K) (uuid : option string) := append conf w keys uuid V1Codec.
Definition AppendIdentity (conf : AttestConf) (w : World) (keys : K) (uuid : option string) := append conf w keys uuid IdentityCodec.

(** ** Fenced reads *)

Definition fenced {A} (w : World) (read : TlDB -> A) : M A := _ ← lockIndexedRead w; gets (fun s => read (s_db s)).
Definition fenced_result {A} (w : World) (read : TlDB -> result serr A) : M A := r ← fenced w read; lifts r.

Definition LatestEventByAgent (w : World) (agentID : string) : M EventRecord := fenced_result w (fun d => GetLatestByAgentID d agentID 0).
Definition EventsByAgent (w : World) (agentID : string) (limit offset : Z) : M (list EventRecord) :=
  fenced w (fun d => GetByAgentID d agentID limit offset 0).
Definition EventByLeafIndex (w : World) (idx : Z) : M EventRecord := fenced_result w (fun d => GetEventByLeafIndex d idx).
Definition LatestEventByIdentity (w : World) (identityID : string) : M EventRecord :=
  fenced_result w (fun d => GetLatestByIdentityID d identityID).
Definition EventsByIdentity (w : World) (identityID : string) (limit offset : Z) : M (list EventRecord) :=
  fenced w (fun d => GetByIdentityID d identityID limit offset).
Definition LatestProofByIdentity (w : World) (identityID : string) : M EventRecord :=
  fenced_result w (fun d => GetLatestProofByIdentityID d identityID).
Definition IdentityRevoked (w : World) (identityID : string) : M bool := fenced w (fun d => HasIdentityRevoked d identityID).
Definition Log_LinkStatesByAgent (w : World) (ansID : string) : M (list LinkState) := fenced w (fun d => LinkStatesByAgent d ansID).
Definition Log_LinkStatesByIdentity (w : World) (identityID : string) : M (list LinkState) := fenced w (fun d => LinkStatesByIdentity d identityID).
Definition Log_LinkEventsByAgent (w : World) (ansID : string) (limit offset : Z) : M (list EventRecord) :=
  fenced w (fun d => LinkEventsByAgent d ansID limit offset).
End Log.
