(* ===== verification/TlLogInv.v ===== *)
(** The invariant of the transparency log.

    Every leaf is the seal of a producer event whose signature verified under a
    registered key ([submitted], [authentic]); every row of the index is the row
    of its leaf ([mirrors]) and the link table is the fan-out of the rows; when
    the index is ready every leaf has its row; no two leaves seal the same event;
    and two leaves about one agent or one name follow the lifecycle
    ([follows]).  [log_inv_step] keeps it through appends with every outcome,
    recoveries that stop anywhere, restarts and key administration. *)
From stdpp Require Import gmap sorting.
From S2P Require Import Prelude GoStrings Utf8 GoTime DomainErrors SemVer AnsName GoEncoding GoJSON GoJSONSpec Jcs Sha256 Lifecycle Discovery TlEvent TlEnvelope TlEnvelopeSpec RaEvents P1363 Jws JwsSpec TlStore TlStoreSpec TlLog.

#[local] Set Default Goal Selector "!".
#[local] Open Scope Z_scope.

(** ** Strings of the signature path *)

(** What the library accepts as a compact serialisation is base64url text. *)
Class JoseLaws `{S : SigSchemes} (JO : Jose) := {
  jose_text jws payload alg k : jose_verify jws payload alg k = true -> utf8_ok jws = true
}.

Lemma b64_digit_ascii d : 0 <= d < 64 -> is_ascii_byte (b64_digit d) = true.
Proof. intros Hd. by apply (forall_below 64 (fun d => is_ascii_byte (b64_digit d))). Qed.

Lemma b64_ascii s : is_ascii_str (b64_EncodeToString s) = true.
Proof.
  unfold is_ascii_str. induction s as [|a|a b|a b c s IH] using string_ind3; [done|..]; cbn [b64_EncodeToString];
    pose proof (byteZ_range a); try pose proof (byteZ_range b); try pose proof (byteZ_range c); cbn [str_forall];
    rewrite !b64_digit_ascii by zlia; cbn [andb]; done.
Qed.

Lemma SignDetachedJWS_ascii `{S : SigSchemes, J : JCS} km keyID header payload jws :
  SignDetachedJWS km keyID header payload = Ok jws -> utf8_ok jws = true /\ jws <> "".
Proof.
  unfold SignDetachedJWS. intros (pub & _ & H)%bind_Ok. apply bind_Ok in H as (alg & _ & H). cbn zeta in H.
  apply bind_Ok in H as (c & _ & H). apply bind_Ok in H as (sig & Hsig & H). unfold sign_input in Hsig.
  apply bind_Ok in Hsig as (raw & _ & Hsig). apply bind_Ok in Hsig as (wire & _ & [= <-]).
  assert (forall a b : string, Ok (E := jws_error) a = Ok b -> a = b) as Hinj by congruence. apply Hinj in H. subst jws.
  match goal with |- context [b64_EncodeToString ?h +:+ _] => generalize h end. intros h. clear. split.
  - apply utf8_ascii, ascii_app; [apply b64_ascii|]. apply ascii_app; [done|apply b64_ascii].
  - intros H. apply (f_equal String.length) in H. rewrite !length_app_s in H. cbn [String.length] in H. lia.
Qed.

Lemma header_keeps : keeps (fun h => utf8_ok (h_Kid h) = true /\ utf8_ok (h_RAID h) = true) (dec_struct dec_header).
Proof.
  apply keeps_struct. intros m h h' Hm [Hk Hr] H. unfold dec_header in H. repeat (apply bind_Some in H as (? & ? & H)). injection H as <-.
  cbn [h_Kid h_RAID]. split.
  - by apply (field_keeps (fun s => utf8_ok s = true) dec_str "kid" (h_Kid h) _ m keeps_str Hm).
  - by apply (field_keeps (fun s => utf8_ok s = true) dec_str "raid" (h_RAID h) _ m keeps_str Hm).
Qed.

Lemma DecodeHeader_utf8 jws h : DecodeHeader jws = Ok h -> utf8_ok (h_Kid h) = true /\ utf8_ok (h_RAID h) = true.
Proof.
  unfold DecodeHeader, decodeHeader. intros ([eh es] & _ & H)%bind_Ok. apply bind_Ok in H as (j & _ & H). apply bind_Ok in H as (h' & Hh & H).
  case_if_in H; [done|]. injection H as ->. unfold Unmarshal in Hh. destruct (parse_json j) as [v|] eqn:Ev; [|done]. cbn [mbind option_bind] in Hh.
  destruct (dec_struct dec_header v zero_header) as [h0|] eqn:E; [|done]. injection Hh as ->. by apply (header_keeps v _ _ (parse_ok _ _ Ev)) in E.
Qed.

(** ** Leaves *)

(** One accepted submission. *)
Record submission := {
  sb_codec : codec; sb_body : string; sb_raID : string; sb_keyID : string; sb_sig : string; sb_logID : string; sb_att : string
}.

Definition is_agent (env : Signable) : bool := match env with SigId _ => false | _ => true end.

Definition inner_raid (env : Signable) : string :=
  match env with
  | SigV2 e => from_option te_RaID "" (innerEvent e)
  | SigV1 e => from_option te_RaID "" (innerEvent e)
  | SigId e => from_option iv_RaID "" (innerEvent e)
  end.

Section Leaves.
Context `{U : UnicodeTables} `{J : JCS, !JCSLaws J}.

(** The leaf [raw] seals the submission [x] as [env]. *)
Record submitted (x : submission) (raw : string) (env : Signable) (canonical : string) : Prop := {
  sm_raID : utf8_ok (sb_raID x) = true /\ sb_raID x <> "";
  sm_keyID : utf8_ok (sb_keyID x) = true /\ sb_keyID x <> "";
  sm_sig : utf8_ok (sb_sig x) = true /\ sb_sig x <> "";
  sm_logID : utf8_ok (sb_logID x) = true /\ sb_logID x <> "";
  sm_att : utf8_ok (sb_att x) = true /\ sb_att x <> "";
  sm_built : ParseAndBuild (sb_codec x) (sb_body x) (sb_raID x) (sb_keyID x) (sb_sig x) (sb_logID x) = Ok (env, canonical);
  sm_leaf : LeafBytes (setOuterSignature env (sb_att x)) = Some raw
}.

(** The envelope a leaf decodes to, before validation. *)
Definition decoded (raw : string) : option Signable :=
  '(version, type) ← stored_header raw; match unmarshal_as raw version type with Ok env => Some env | Err _ => None end.

Lemma decodeStoredEnvelope_decoded raw env : decodeStoredEnvelope raw = Ok env -> decoded raw = Some env /\ Signable_Validate env = Ok tt.
Proof.
  unfold decodeStoredEnvelope, decoded. destruct (stored_header raw) as [[v t]|]; [|done]. cbn [mbind option_bind].
  intros (e & -> & H)%bind_Ok. destruct (Signable_Validate e) as [[]|] eqn:E; [|done]. by injection H as ->.
Qed.

Lemma views_outer env att :
  View_Version (setOuterSignature env att) = View_Version env /\ View_LogID (setOuterSignature env att) = View_LogID env /\
  View_AgentID (setOuterSignature env att) = View_AgentID env /\ View_AnsName (setOuterSignature env att) = View_AnsName env /\
  View_AgentFQDN (setOuterSignature env att) = View_AgentFQDN env /\ View_EventType (setOuterSignature env att) = View_EventType env /\
  View_IdentityID (setOuterSignature env att) = View_IdentityID env /\ View_LinkedAgentIDs (setOuterSignature env att) = View_LinkedAgentIDs env.
Proof. by destruct env. Qed.

(** What is read off a leaf is what was submitted. *)
Lemma submitted_decoded x raw env canonical :
  submitted x raw env canonical ->
  innerEventBytes raw = Ok canonical /\
  exists env', decoded raw = Some env' /\ signable_rel (setOuterSignature env (sb_att x)) env'.
Proof.
  intros [Hra Hk Hs Hl Ha HP HL]. pose proof (ParseAndBuild_built _ _ _ _ _ _ _ _ (proj1 Hra) HP) as Hb.
  destruct (built_leaf _ _ _ _ _ _ (sb_att x) raw Hb) as (Hh & Hi & env' & HU & HR); [by apply Hk|by apply Hs|by apply Hl|by apply Ha|done|].
  split; [done|]. exists env'. split; [|done]. unfold decoded. rewrite Hh. cbn [mbind option_bind]. by rewrite HU.
Qed.

Lemma decodes_prior {T} (enc : T -> json) (e : TLEvent T) :
  decodes eq dec_prior ("", "") (enc_event enc e) (te_RaID e, te_Timestamp e).
Proof.
  unfold dec_prior. apply decodes_struct. intros m' Hm. eexists. split; [|reflexivity]. cbn [fst snd]. decode_fields Hm. done.
Qed.

Lemma decodes_version_of a init :
  decodes eq (dec_struct (fun m v => field "version" dec_str v m)) init (enc_agent a) (ea_Version a).
Proof. eapply decodes_step; [distinct_names|in_fields|apply decodes_str]. Qed.

Lemma decodes_incoming {T} (enc : T -> json) (e : TLEvent T) :
  decodes eq dec_incoming ("", "") (enc_event enc e) (te_RaID e, from_option ea_Version "" (te_Agent e)).
Proof.
  unfold dec_incoming. apply decodes_struct. intros m' Hm. eexists. split; [|reflexivity]. cbn [fst snd].
  destruct (field_obj_rel eq "agent" (dec_struct (fun m v => field "version" dec_str v m)) "" (from_option ea_Version "" (te_Agent e))
    (enc_agent <$> te_Agent e) _ _ Hm) as (v & Hv & ->); [distinct_names|in_fields|destruct (te_Agent e); [apply decodes_version_of|done]|].
  rewrite Hv. decode_fields Hm. done.
Qed.

#[local] Strategy expand [CanonicalizeV2 CanonicalizeV1 CanonicalizeIdentity].

(** The claims about a built envelope the policy relies on. *)
Lemma built_agent env canonical raID keyID sig logID :
  built env canonical raID keyID sig logID -> is_agent env = true ->
  Unmarshal dec_prior ("", "") canonical = Some (inner_raid env, View_Timestamp env) /\
  (exists v, Unmarshal dec_incoming ("", "") canonical = Some (inner_raid env, v)) /\
  inner_raid env = raID /\ Type_IsValid (View_EventType env) = true /\ View_IdentityID env = "".
Proof.
  intros Hb Ha. destruct env as [e|e|e]; [..|done]; destruct Hb as (inner & -> & Hok & Hv & Hr & Hc).
  - unfold CanonicalizeV2 in Hc. apply canonicalize_Some in Hc; [|by apply (enc_event_ok att2_ok); [apply enc_att2_ok|]].
    destruct (Unmarshal_decodes _ _ _ _ _ _ Hc (decodes_prior enc_attestations inner)) as (p & HU & <-).
    destruct (Unmarshal_decodes _ _ _ _ _ _ Hc (decodes_incoming enc_attestations inner)) as (q & HU' & <-).
    split_and!; [done|by eexists|done|by apply EventV2_type|done].
  - unfold CanonicalizeV1 in Hc. apply canonicalize_Some in Hc; [|by apply (enc_event_ok att1_ok); [apply enc_att1_ok|]].
    destruct (Unmarshal_decodes _ _ _ _ _ _ Hc (decodes_prior enc_attestations1 inner)) as (p & HU & <-).
    destruct (Unmarshal_decodes _ _ _ _ _ _ Hc (decodes_incoming enc_attestations1 inner)) as (q & HU' & <-).
    split_and!; [done|by eexists|done|by apply EventV1_type|done].
Qed.

Lemma built_identity env canonical raID keyID sig logID :
  built env canonical raID keyID sig logID -> is_agent env = false -> View_IdentityID env <> "".
Proof.
  intros Hb Ha. destruct env as [e|e|e]; [done..|]. destruct Hb as (inner & -> & _ & Hv & _). cbn [IdentityEvent_Validate] in Hv.
  change (View_IdentityID _) with (iv_IdentityID inner). intros E. rewrite E in Hv. by destruct (negb (IdentityType_IsValid (iv_EventType inner))).
Qed.
End Leaves.

(** ** The mirror *)

Section Mirror.
Context `{U : UnicodeTables} `{J : JCS, !JCSLaws J} `{S : SigSchemes} `{X : PemX509, KP : !KeyParser, JO : !Jose} `{SJ : SqliteJSON}.

(** The submission was signed under a registered key of its producer. *)
Definition authentic (d : TlDB) (x : submission) : Prop :=
  exists k h, k ∈ t_keys d /\ kr_RaID k = sb_raID x /\ kr_KeyID k = sb_keyID x /\
    VerifyDetachedWithPEM (sb_sig x) (sb_body x) (kr_PublicKeyPEM k) = Ok h /\ h_RAID h = sb_raID x /\ h_Kid h = sb_keyID x.

Definition sealed (d : TlDB) (raw : string) : Prop := exists x env canonical, submitted x raw env canonical /\ authentic d x.

(** The row is the row of its leaf. *)
Definition mirrors (leaves : list string) (r : EventRecord) : Prop :=
  exists env inner, 0 <= er_LeafIndex r /\ leaves !! Z.to_nat (er_LeafIndex r) = Some (er_RawEvent r) /\
    decoded (er_RawEvent r) = Some env /\ innerEventBytes (er_RawEvent r) = Ok inner /\
    r = event_row (er_ID r) (er_LeafIndex r) (leafHashOf (er_RawEvent r)) (ComputeEventHash inner) env (er_RawEvent r) (er_CreatedAtMs r).

(** The links of an envelope at a leaf. *)
Definition env_links (env : Signable) (i now : Z) : list LinkState :=
  if String.eqb (View_IdentityID env) "" then [] else
  (fun ansID => {| ls_IdentityID := View_IdentityID env; ls_AnsID := ansID; ls_LeafIndex := i; ls_EventType := View_EventType env;
                   ls_CreatedAtMs := now |}) <$> View_LinkedAgentIDs env.

Definition row_links (r : EventRecord) : list LinkState :=
  match decoded (er_RawEvent r) with Some env => env_links env (er_LeafIndex r) (er_CreatedAtMs r) | None => [] end.

(** [UNIQUE(leaf_index, ans_id)] *)
Definition link_key (l : LinkState) : Z * string := (ls_LeafIndex l, ls_AnsID l).

Record mirror_inv (s : LogState) : Prop := {
  mi_sealed : Forall (sealed (s_db s)) (s_leaves s);
  mi_rows : Forall (mirrors (s_leaves s)) (t_events (s_db s));
  mi_unique : NoDup (er_LeafIndex <$> t_events (s_db s));
  mi_links : t_links (s_db s) = flat_map row_links (t_events (s_db s));
  mi_link_keys : NoDup (link_key <$> t_links (s_db s))
}.

(** Only rows are added. *)
Definition extends (s s' : LogState) : Prop :=
  s_leaves s' = s_leaves s /\ s_indexReady s' = s_indexReady s /\ t_keys (s_db s') = t_keys (s_db s) /\
  t_checkpoints (s_db s') = t_checkpoints (s_db s) /\ exists rows, t_events (s_db s') = t_events (s_db s) ++ rows.

#[export] Instance extends_preorder : PreOrder extends.
Proof.
  split.
  - intros s. unfold extends. split_and!; try done. exists []. by rewrite app_nil_r.
  - intros s1 s2 s3 (? & ? & ? & ? & r1 & E1) (? & ? & ? & ? & r2 & E2). unfold extends. split_and!; try congruence.
    exists (r1 ++ r2). by rewrite E2, E1, <-app_assoc.
Qed.

Lemma extends_indexed s s' i : extends s s' -> indexed (s_db s) i -> indexed (s_db s') i.
Proof. intros (_ & _ & _ & _ & rows & E) (r & Hr & Hi). exists r. rewrite E. set_solver. Qed.

Lemma insert_links_Ok links i id linked type now links' :
  insert_links links i id linked type now = Ok links' ->
  links' = links ++ ((fun ansID => {| ls_IdentityID := id; ls_AnsID := ansID; ls_LeafIndex := i; ls_EventType := type; ls_CreatedAtMs := now |}) <$> linked) /\
  NoDup linked /\ forall a, a ∈ linked -> ~ exists l, l ∈ links /\ ls_LeafIndex l = i /\ ls_AnsID l = a.
Proof.
  revert links links'. induction linked as [|a linked IH]; intros links links'; cbn [insert_links].
  { intros [= ->]. rewrite app_nil_r. split_and!; [done|constructor|set_solver]. }
  case_if; [done|]. intros (E & Hnd & Hfresh)%IH. split_and!.
  - rewrite E, <-app_assoc. done.
  - constructor; [|done]. intros Ha. apply (Hfresh a Ha). eexists. split; [apply elem_of_app; right; by apply list_elem_of_singleton|]. done.
  - intros b Hb (l & Hl & Hi & Ha). apply elem_of_cons in Hb as [->|Hb].
    + match goal with H : existsb _ links = false |- _ => rename H into HE end. apply not_true_iff_false in HE. apply HE, existsb_exists.
      exists l. rewrite <-list_elem_of_In. split; [done|]. rewrite Hi, Ha, Z.eqb_refl, String.eqb_refl. done.
    + apply (Hfresh b Hb). exists l. set_solver.
Qed.

Lemma StoreEvent_Ok d i h eh env raw now r d' :
  StoreEvent d i h eh env raw now = Ok (r, d') ->
  ~ indexed d i /\ json_valid raw = true /\
  d' = set_events d (t_events d ++ [event_row (t_events_seq d + 1) i h eh env raw now]) (t_events_seq d + 1) (t_links d ++ env_links env i now) /\
  (NoDup (link_key <$> t_links d) -> NoDup (link_key <$> t_links d ++ env_links env i now)).
Proof.
  unfold StoreEvent. destruct (existsb (at_leaf i) (t_events d)) eqn:E; [done|]. apply at_leaf_absent in E.
  destruct (json_valid raw); [|done]. cbn [negb]. case_if; [done|]. intros (links & HL & H)%bind_Ok. apply bind_Ok in H as (r' & _ & [= <- <-]).
  unfold env_links. destruct (String.eqb (View_IdentityID env) "").
  { injection HL as ->. rewrite app_nil_r. by split_and!. }
  apply insert_links_Ok in HL as (-> & Hnd & Hfresh). split_and!; [done..|]. intros Hk. rewrite fmap_app. apply NoDup_app. split_and!; [done| |].
  - intros k Hk1 Hk2. apply list_elem_of_fmap in Hk1 as (l & -> & Hl). apply list_elem_of_fmap in Hk2 as (l' & Ek & Hl').
    apply list_elem_of_fmap in Hl' as (a & -> & Ha). injection Ek as E1 E2. apply (Hfresh a Ha). by exists l.
  - rewrite <-list_fmap_compose. by apply NoDup_fmap_2; [intros ? ? [=]|].
Qed.

(** Storing the row of a leaf keeps the mirror, whatever the outcome. *)
Lemma store_mirror w i raw env env' inner s :
  mirror_inv s -> 0 <= i -> s_leaves s !! Z.to_nat i = Some raw -> decoded raw = Some env' -> signable_rel env env' \/ env = env' ->
  innerEventBytes raw = Ok inner ->
  let '(r, s') := store w i (leafHashOf raw) (ComputeEventHash inner) env raw s in
  mirror_inv s' /\ extends s s' /\ (r = Ok tt -> indexed (s_db s') i).
Proof.
  intros [Hse Hr Hu Hl Hlk] Hi Hraw Hd Hv Hin. unfold store.
  assert (mirror_inv s) as Hs by done. assert (extends s s) as He by done.
  destruct (StoreEvent _ _ _ _ _ _ _) as [[row d']|e] eqn:E; [|by destruct (w_store w i)].
  apply StoreEvent_Ok in E as (Hni & _ & -> & Hlk').
  assert (View_Version env = View_Version env' /\ View_LogID env = View_LogID env' /\ View_AgentID env = View_AgentID env' /\
    View_AnsName env = View_AnsName env' /\ View_AgentFQDN env = View_AgentFQDN env' /\ View_EventType env = View_EventType env' /\
    View_IdentityID env = View_IdentityID env' /\ View_LinkedAgentIDs env = View_LinkedAgentIDs env') as (E1 & E2 & E3 & E4 & E5 & E6 & E7 & E8)
    by (destruct Hv as [Hv| ->]; [by apply signable_rel_views|done]).
  set (rowi := event_row (t_events_seq (s_db s) + 1) i (leafHashOf raw) (ComputeEventHash inner) env raw (Time_UnixMilli (w_now w))).
  set (s' := with_db s (set_events (s_db s) (t_events (s_db s) ++ [rowi]) (t_events_seq (s_db s) + 1)
    (t_links (s_db s) ++ env_links env i (Time_UnixMilli (w_now w))))).
  assert (mirror_inv s' /\ extends s s' /\ indexed (s_db s') i) as HG; [|destruct (w_store w i); cbn; naive_solver].
  split_and!; [split|split_and!|].
  - exact Hse.
  - apply Forall_app. split; [exact Hr|]. constructor; [|constructor]. exists env', inner. split_and!; [done..|].
    cbn. unfold rowi, event_row. by rewrite E1, E2, E3, E4, E5, E6, E7.
  - cbn. rewrite fmap_app. apply NoDup_app. split_and!; [exact Hu| |by apply NoDup_singleton]. intros j Hj Hj'.
    apply list_elem_of_singleton in Hj'. apply list_elem_of_fmap in Hj as (r & -> & Hr'). apply Hni. by exists r.
  - cbn. rewrite flat_map_app, Hl. cbn [flat_map]. rewrite app_nil_r. f_equal. unfold row_links. cbn [rowi event_row er_RawEvent er_LeafIndex er_CreatedAtMs].
    rewrite Hd. unfold env_links. by rewrite E6, E7, E8.
  - by apply Hlk'.
  - done.
  - done.
  - done.
  - done.
  - by exists [rowi].
  - exists rowi. cbn. split; [set_solver|done].
Qed.

(** ** Recovery *)

(** One operation of a recovery keeps the mirror and only adds rows. *)
Definition recovers {A} (s : LogState) (m : M A) (Q : A -> TlDB -> Prop) : Prop :=
  mirror_inv (m s).2 /\ extends s (m s).2 /\ forall a, (m s).1 = Ok a -> Q a (s_db (m s).2).

Lemma recovers_bind {A B} s (m : M A) (f : A -> M B) (P : A -> TlDB -> Prop) Q :
  recovers s m P -> (forall a s', mirror_inv s' -> extends s s' -> P a (s_db s') -> recovers s' (f a) Q) -> recovers s (m ≫= f) Q.
Proof.
  intros (Hm & He & HP) Hf. unfold recovers, mbind, M_bind. destruct (m s) as [[a|e] s'] eqn:E; cbn [fst snd] in *; [|done].
  destruct (Hf a s' Hm He (HP a eq_refl)) as (Hm' & He' & HQ). split; [done|]. split; [by etrans|done].
Qed.

Lemma recovers_fails {A} s e (Q : A -> TlDB -> Prop) : mirror_inv s -> recovers s (fails e) Q.
Proof. intros H. by split; [|split; [reflexivity|]]. Qed.

Lemma recovers_lifts {A} s (r : result serr A) : mirror_inv s -> recovers s (lifts r) (fun a _ => r = Ok a).
Proof. intros H. by split; [|split; [reflexivity|]]. Qed.

Lemma recovers_gets {A B} s (f : LogState -> A) (k : A -> M B) Q : recovers s (k (f s)) Q -> recovers s (gets f ≫= k) Q.
Proof. done. Qed.

Lemma recovers_ret {A} s (a : A) (Q : A -> TlDB -> Prop) : mirror_inv s -> Q a (s_db s) -> recovers s (mret a) Q.
Proof. intros H HQ. split; [done|]. split; [reflexivity|]. by intros a' [= <-]. Qed.

Lemma recovers_mono {A} s (m : M A) (P Q : A -> TlDB -> Prop) : (forall a d, P a d -> Q a d) -> recovers s m P -> recovers s m Q.
Proof. intros H (H1 & H2 & H3). split; [done|]. split; [done|]. auto. Qed.

Lemma restoreIndexedLeaf_recovers w i raw h s :
  mirror_inv s -> 0 <= i -> s_leaves s !! Z.to_nat i = Some raw -> recovers s (restoreIndexedLeaf w i raw h) (fun _ d => indexed d i).
Proof.
  intros Hs Hi Hraw. unfold restoreIndexedLeaf. case_if; [by apply recovers_fails|].
  apply recovers_gets. destruct (GetEventByLeafIndex (s_db s) i) as [r|e] eqn:EG.
  - case_if; [by apply recovers_fails|]. apply recovers_ret; [done|]. apply GetEventByLeafIndex_Ok in EG as [H1 H2]. by exists r.
  - case_if; [by apply recovers_fails|]. eapply recovers_bind; [by apply recovers_lifts|]. intros env s1 Hs1 He1 HD.
    eapply recovers_bind; [by apply recovers_lifts|]. intros can s2 Hs2 He2 _. case_if; [by apply recovers_fails|].
    eapply recovers_bind; [by apply recovers_lifts|]. intros inner s3 Hs3 He3 Hin.
    apply decodeStoredEnvelope_decoded in HD as [HD _]. assert (s_leaves s3 = s_leaves s) as El.
    { transitivity (s_leaves s2); [apply He3|]. transitivity (s_leaves s1); [apply He2|apply He1]. }
    pose proof (store_mirror w i raw env env inner s3 Hs3 Hi ltac:(by rewrite El) HD ltac:(by right) Hin) as H.
    unfold recovers. destruct (store _ _ _ _ _ _ s3) as [r s4]. destruct H as (H1 & H2 & H3). split; [done|]; split; [first [done|by etrans]|].
    cbn. intros [] ->. by apply H3.
Qed.

Lemma restoreEntries_recovers w size entries hashes next s :
  mirror_inv s -> 0 <= next -> (forall j e, entries !! j = Some e -> s_leaves s !! (Z.to_nat next + j)%nat = Some e) ->
  recovers s (restoreEntries w next size entries hashes)
    (fun n d => next <= n /\ (size <= n \/ n = next + Z.of_nat (length entries)) /\ forall i, next <= i < n -> indexed d i).
Proof.
  revert hashes next s. induction entries as [|raw entries IH]; intros hashes next s Hs Hn Hent; cbn [restoreEntries].
  { apply recovers_ret; [done|]. cbn. split_and!; [lia|right; lia|intros; lia]. }
  destruct (Z.ltb_spec next size); cbn [negb]; [|apply recovers_ret; [done|]; split_and!; [lia|left; lia|intros; lia]].
  destruct hashes as [|h hashes]; [by apply recovers_fails|].
  eapply recovers_bind; [apply restoreIndexedLeaf_recovers; [done|done|]|].
  { rewrite <-(Hent 0%nat raw eq_refl). f_equal. lia. }
  intros u s1 Hs1 He1 Hidx. specialize (IH hashes (next + 1) s1 Hs1 ltac:(lia)).
  destruct IH as (H1 & H2 & H3).
  { intros j e Hj. rewrite (proj1 He1). rewrite <-(Hent (Datatypes.S j) e Hj). f_equal. lia. }
  split; [done|]; split; [first [done|by etrans]|]. intros n En. destruct (H3 n En) as (Hle & Hend & Hall). split_and!; [lia| |].
  - destruct Hend as [|Hend]; [by left|]. right. cbn [length]. lia.
  - intros i Hi. destruct (decide (i = next)) as [->|]; [by eapply extends_indexed|]. apply Hall. lia.
Qed.

Lemma bundle_lookup leaves next j e :
  0 <= next -> drop (Z.to_nat (next mod EntryBundleWidth)) (bundle_of leaves (next / EntryBundleWidth)) !! j = Some e ->
  leaves !! (Z.to_nat next + j)%nat = Some e.
Proof.
  intros Hn. unfold bundle_of. rewrite lookup_drop. intros H. apply lookup_take_Some in H as [H _]. rewrite lookup_drop in H. rewrite <-H. f_equal.
  unfold EntryBundleWidth. zlia.
Qed.

Lemma restoreLoop_recovers fuel w reader size next s :
  mirror_inv s -> 0 <= next -> size = Z.of_nat (length (s_leaves s)) ->
  (forall b es, 0 <= b -> rd_GetEntryBundle reader b = Some es -> es = bundle_of (s_leaves s) b) ->
  recovers s (restoreLoop fuel w reader next size) (fun _ d => forall i, next <= i < size -> indexed d i).
Proof.
  revert next s. induction fuel as [|fuel IH]; intros next s Hs Hn Hsz Hb; cbn [restoreLoop];
    (destruct (Z.ltb_spec next size); cbn [negb]; [|apply recovers_ret; [done|intros; lia]]); [by apply recovers_fails|].
  eapply recovers_bind; [by apply recovers_lifts|]. intros es s1 Hs1 He1 Hes.
  destruct (rd_GetEntryBundle reader _) as [es'|] eqn:Er; [|done]. injection Hes as ->.
  apply Hb in Er; [|unfold EntryBundleWidth; zlia]. case_if; [by apply recovers_fails|].
  eapply recovers_bind; [by apply recovers_lifts|]. intros hs s2 Hs2 He2 _.
  assert (s_leaves s2 = s_leaves s) as El by (transitivity (s_leaves s1); [apply He2|apply He1]).
  eapply recovers_bind; [apply restoreEntries_recovers; [done|done|]|].
  { intros j e Hj. rewrite El. subst es. by apply bundle_lookup in Hj. }
  intros n s3 Hs3 He3 (Hle & _ & Hidx).
  assert (s_leaves s3 = s_leaves s) as El3 by (transitivity (s_leaves s2); [apply He3|done]).
  destruct (IH n s3 Hs3 ltac:(lia) ltac:(by rewrite El3) ltac:(by rewrite El3)) as (H1 & H2 & H3). split; [done|]; split; [first [done|by etrans]|].
  intros [] E i Hi. destruct (decide (i < n)).
  - eapply extends_indexed; [done|]. apply Hidx. lia.
  - apply (H3 tt E). lia.
Qed.

Lemma mirror_pos s r : mirror_inv s -> r ∈ t_events (s_db s) -> 0 <= er_LeafIndex r < Z.of_nat (length (s_leaves s)).
Proof.
  intros [_ Hr _ _ _] Hin. rewrite Forall_forall in Hr. destruct (Hr r Hin) as (env & inner & Hp & Hl & _). split; [done|].
  apply lookup_lt_Some in Hl. lia.
Qed.

(** A recovery that succeeds leaves every leaf indexed. *)
Lemma recoverIndex_recovers w s :
  TesseraLaws (w_tessera w) -> mirror_inv s ->
  recovers s (recoverIndex w) (fun _ d => forall i, 0 <= i < Z.of_nat (length (s_leaves s)) -> indexed d i).
Proof.
  intros HT Hs. unfold recoverIndex, restoreMissingLeaves. apply recovers_gets.
  destruct (FirstUnindexedLeaf_total (s_db s)) as [n En]. rewrite En. change (lifts (Ok n)) with (gets (fun _ => n)). apply recovers_gets.
  destruct (FirstUnindexedLeaf_Ok _ _ (fun r Hr => proj1 (mirror_pos s r Hs Hr)) En) as (Hn & _ & Hbelow).
  apply recovers_gets. eapply recovers_bind; [by apply recovers_lifts|]. intros size s1 Hs1 He1 Hsize.
  destruct (rd_IntegratedSize _) as [sz|] eqn:Esz; [|done]. injection Hsize as ->. apply ts_size_law in Esz.
  case_if; [by apply recovers_fails|].
  assert (s_leaves s1 = s_leaves s) as El by apply He1.
  destruct (restoreLoop_recovers (Z.to_nat (size - n)) w (ts_Reader (w_tessera w) (s_leaves s)) size n s1 Hs1 Hn) as (H1 & H2 & H3).
  { by rewrite El. }
  { intros b es Hb He. rewrite El. by eapply ts_bundle_law. }
  split; [done|]; split; [first [done|by etrans]|]. intros [] E i Hi. destruct (decide (i < n)).
  - eapply extends_indexed; [exact H2|]. eapply extends_indexed; [exact He1|]. apply Hbelow. lia.
  - apply (H3 tt E). lia.
Qed.
End Mirror.

(** ** The lifecycle *)

Record agent_leaf := { al_AgentID : string; al_AnsName : string; al_Host : string; al_RaID : string; al_Type : string; al_Timestamp : string }.

Section Lifecycle.
Context `{U : UnicodeTables} `{J : JCS, !JCSLaws J} `{S : SigSchemes} `{X : PemX509, KP : !KeyParser, JO : !Jose} `{SJ : SqliteJSON}.

Definition agent_view (env : Signable) : agent_leaf :=
  {| al_AgentID := View_AgentID env; al_AnsName := View_AnsName env; al_Host := host_key (View_AgentFQDN env); al_RaID := inner_raid env;
     al_Type := View_EventType env; al_Timestamp := View_Timestamp env |}.

Definition agent_leaf_of (raw : string) : option agent_leaf :=
  env ← decoded raw; if is_agent env then Some (agent_view env) else None.

Definition same_subject (a b : agent_leaf) : Prop := al_AgentID a = al_AgentID b \/ al_AnsName a = al_AnsName b.

(** [b] comes after [a] in the log and is about the same agent or name. *)
Record follows (a b : agent_leaf) : Prop := {
  fo_agent : al_AgentID a = al_AgentID b;
  fo_name : al_AnsName a = al_AnsName b;
  fo_host : al_Host a = al_Host b;
  fo_producer : al_RaID a = al_RaID b;
  fo_allowed : agentEventTransitionAllowed (al_Type a) (al_Type b) = true;
  fo_time : al_Type b <> TypeAgentRevoked ->
    exists ta tb, ParseRFC3339 (al_Timestamp a) = Some ta /\ ParseRFC3339 (al_Timestamp b) = Some tb /\ ta <= tb
}.

Definition lifecycle (leaves : list string) : Prop :=
  forall i j a b, (i < j)%nat -> leaves !! i ≫= agent_leaf_of = Some a -> leaves !! j ≫= agent_leaf_of = Some b ->
    same_subject a b -> follows a b.

Definition leaf_hash (raw : string) : option string :=
  match innerEventBytes raw with Ok c => Some (ComputeEventHash c) | Err _ => None end.

Record log_inv (s : LogState) : Prop := {
  li_mirror : mirror_inv s;
  li_ready : s_indexReady s = true -> forall i, 0 <= i < Z.of_nat (length (s_leaves s)) -> indexed (s_db s) i;
  li_distinct : NoDup (leaf_hash <$> s_leaves s);
  li_lifecycle : lifecycle (s_leaves s)
}.

Lemma submitted_agent_leaf x raw env canonical :
  submitted x raw env canonical -> agent_leaf_of raw = if is_agent env then Some (agent_view env) else None.
Proof.
  intros Hs. destruct (submitted_decoded _ _ _ _ Hs) as (_ & env' & Hd & HR). unfold agent_leaf_of. rewrite Hd. cbn [mbind option_bind].
  destruct env as [e|e|e], env' as [e'|e'|e']; try done; cbn [setOuterSignature signable_rel] in HR; subst; done.
Qed.

Lemma submitted_hash x raw env canonical : submitted x raw env canonical -> leaf_hash raw = Some (ComputeEventHash canonical).
Proof. intros [H _]%submitted_decoded. unfold leaf_hash. by rewrite H. Qed.

Lemma submitted_built x raw env canonical :
  submitted x raw env canonical -> built env canonical (sb_raID x) (sb_keyID x) (sb_sig x) (sb_logID x).
Proof. intros [Hra _ _ _ _ HP _]. by apply (ParseAndBuild_built _ _ _ _ _ _ _ _ (proj1 Hra) HP). Qed.

(** A row and the submission its leaf seals. *)
Lemma row_submitted s r :
  mirror_inv s -> r ∈ t_events (s_db s) ->
  exists x env canonical, submitted x (er_RawEvent r) env canonical /\ s_leaves s !! Z.to_nat (er_LeafIndex r) = Some (er_RawEvent r) /\
    r = event_row (er_ID r) (er_LeafIndex r) (leafHashOf (er_RawEvent r)) (ComputeEventHash canonical) env (er_RawEvent r) (er_CreatedAtMs r).
Proof.
  intros [Hse Hr _ _ _] Hin. rewrite Forall_forall in Hr. destruct (Hr r Hin) as (env' & inner & Hp & Hl & Hd & Hi & E).
  rewrite Forall_forall in Hse. destruct (Hse (er_RawEvent r) (list_elem_of_lookup_2 _ _ _ Hl)) as (x & env & canonical & Hsub & _).
  exists x, env, canonical. split; [done|]. split; [done|]. destruct (submitted_decoded _ _ _ _ Hsub) as (Hi' & env'' & Hd' & HR).
  assert (inner = canonical) as -> by congruence. assert (env'' = env') as -> by congruence.
  destruct (signable_rel_views _ _ HR) as (V1 & V2 & V3 & V4 & V5 & V6 & V7 & _).
  destruct (views_outer env (sb_att x)) as (W1 & W2 & W3 & W4 & W5 & W6 & W7 & _).
  rewrite E at 1. unfold event_row.
  by rewrite <-V1, <-V2, <-V3, <-V4, <-V5, <-V6, <-V7, W1, W2, W3, W4, W5, W6, W7.
Qed.

Lemma row_identity x raw env canonical :
  submitted x raw env canonical ->
  (if String.eqb (View_IdentityID env) "" then None else Some (View_IdentityID env)) = None <-> is_agent env = true.
Proof.
  intros Hb%submitted_built. destruct (is_agent env) eqn:E.
  - destruct (built_agent _ _ _ _ _ _ Hb E) as (_ & _ & _ & _ & ->). done.
  - pose proof (built_identity _ _ _ _ _ _ Hb E) as Hne. apply String.eqb_neq in Hne. by rewrite Hne.
Qed.

Lemma rows_distinct s : log_inv s -> NoDup (er_EventHashHex <$> t_events (s_db s)).
Proof.
  intros [Hm _ Hd _]. apply NoDup_fmap_2_strong; [|eapply NoDup_fmap_1, (mi_unique s Hm)]. intros r r' Hr Hr' E.
  destruct (row_submitted s r Hm Hr) as (x & env & c & Hx & Hl & Er). destruct (row_submitted s r' Hm Hr') as (x' & env' & c' & Hx' & Hl' & Er').
  apply (NoDup_key er_LeafIndex (t_events (s_db s))); [apply (mi_unique s Hm)|done|done|].
  assert (Z.to_nat (er_LeafIndex r) = Z.to_nat (er_LeafIndex r')) as EN.
  { eapply (NoDup_lookup (leaf_hash <$> s_leaves s)); [exact Hd|by rewrite list_lookup_fmap, Hl|]. rewrite list_lookup_fmap, Hl'. cbn [fmap option_fmap option_map].
    f_equal. rewrite (submitted_hash _ _ _ _ Hx), (submitted_hash _ _ _ _ Hx'). f_equal. rewrite Er, Er' in E. by cbn in E. }
  pose proof (mirror_pos s r Hm Hr). pose proof (mirror_pos s r' Hm Hr'). lia.
Qed.

(** The leaf of an indexed agent event. *)
Lemma leaf_row s i raw a :
  log_inv s -> indexed (s_db s) (Z.of_nat i) -> s_leaves s !! i = Some raw -> agent_leaf_of raw = Some a ->
  exists r, r ∈ t_events (s_db s) /\ er_LeafIndex r = Z.of_nat i /\ er_RawEvent r = raw /\ er_identity r = None /\ er_AnsName r = al_AnsName a /\
    er_AgentID r = al_AgentID a /\ host_key (er_AgentFQDN r) = al_Host a /\ er_EventType r = al_Type a /\
    Type_IsValid (al_Type a) = true /\
    (exists c, innerEventBytes raw = Ok c /\ Unmarshal dec_prior ("", "") c = Some (al_RaID a, al_Timestamp a)).
Proof.
  intros Hs (r & Hr & Hi) Hraw Ha. destruct (row_submitted s r (li_mirror s Hs) Hr) as (x & env & c & Hx & Hl & Er).
  rewrite Hi, Nat2Z.id, Hraw in Hl. injection Hl as ->. rewrite (submitted_agent_leaf _ _ _ _ Hx) in Ha.
  destruct (is_agent env) eqn:Ea; [|done]. injection Ha as <-. pose proof (submitted_built _ _ _ _ Hx) as Hb.
  destruct (built_agent _ _ _ _ _ _ Hb Ea) as (Hp & _ & _ & Hty & Hid). exists r.
  split_and!; try (by rewrite Er); [done| |done|].
  - rewrite Er. cbn. by rewrite Hid.
  - exists c. split; [|done]. by apply submitted_decoded in Hx as [H _].
Qed.

(** Allowed transitions, by rank. *)
Lemma allowed_rank rec a b :
  agentEventTransitionAllowed rec b = true -> Type_IsValid rec = true -> Type_IsValid a = true ->
  type_rank rec <= type_rank a -> agentEventTransitionAllowed a b = true /\ (b <> TypeAgentRevoked -> type_rank rec = 2).
Proof.
  unfold Type_IsValid, one_of. intros Hall Hr Ha. apply existsb_exists in Hr as (r' & Hr & ->%String.eqb_eq). apply existsb_exists in Ha as (a' & Ha & ->%String.eqb_eq).
  cbn [In] in Hr, Ha. unfold agentEventTransitionAllowed in *.
  assert (b = TypeAgentRenewed \/ b = TypeAgentDeprecated \/ b = TypeAgentRevoked) as Hb.
  { destruct (String.eqb_spec b TypeAgentRenewed); [by left|]. destruct (String.eqb_spec b TypeAgentDeprecated); [by right; left|].
    destruct (String.eqb_spec b TypeAgentRevoked); [by right; right|]. by repeat destruct Hr as [<-|Hr]. }
  repeat destruct Hr as [<-|Hr]; try done; repeat destruct Ha as [<-|Ha]; try done; destruct Hb as [->|[->| ->]]; try done; vm_compute; intros; split; done.
Qed.

(** The policy check extends the lifecycle. *)
Lemma checkAgentState_follows s x raw env canonical i raw' a :
  log_inv s -> (forall i, 0 <= i < Z.of_nat (length (s_leaves s)) -> indexed (s_db s) i) ->
  submitted x raw env canonical -> is_agent env = true -> checkAgentState (s_db s) env canonical = Ok tt ->
  s_leaves s !! i = Some raw' -> agent_leaf_of raw' = Some a -> same_subject a (agent_view env) -> follows a (agent_view env).
Proof.
  intros Hs Hfull Hx Hag Hchk Hraw' Ha Hsame. pose proof (rows_distinct s Hs) as Hnd.
  destruct (leaf_row s i raw' a Hs) as (r & Hr & Hri & Hrr & Hrid & Hrn & Hra & Hrh & Hrt & Hval & c & Hc & Hpr); [|done|done|].
  { apply Hfull. apply lookup_lt_Some in Hraw'. lia. }
  assert (related (s_db s) (View_AnsName env) (View_AgentID env) r) as Hrel.
  { split; [done|]. split; [done|]. rewrite Hrn, Hra. destruct Hsame as [H|H]; [by right|by left]. }
  pose proof (submitted_built _ _ _ _ Hx) as Hb. destruct (built_agent _ _ _ _ _ _ Hb Hag) as (_ & (v & Hinc) & _ & _ & _).
  unfold checkAgentState in Hchk. assert ((incoming ← checkAgentName env canonical;
      match LatestAgentState (s_db s) (View_AnsName env) (View_AgentID env) with
      | Err e => if is_not_found e then Ok tt else Err e
      | Ok rec => checkTransition rec env incoming.1 end) = Ok tt) as Hchk' by (destruct env; [done|done|done]). clear Hchk.
  apply bind_Ok in Hchk' as (inc & Hname & Hchk).
  assert (inc.1 = inner_raid env) as Hinc1.
  { unfold checkAgentName in Hname. destruct (ParseAnsName _) as [name|]; [|done]. case_if_in Hname; [done|]. rewrite Hinc in Hname. cbn [or_other mbind result_bind] in Hname.
    case_if_in Hname; [done|]. by injection Hname as <-. }
  destruct (LatestAgentState _ _ _) as [rec|e] eqn:EL.
  2: { apply LatestAgentState_Err in EL as [_ Hno]; [|done]. by destruct (Hno r). }
  apply LatestAgentState_Ok in EL as [Hrec Hmin]; [|done]. unfold checkTransition in Hchk.
  case_if_in Hchk; [done|]. match goal with H : _ || _ = false |- _ => rename H into Hcond end.
  apply orb_false_iff in Hcond as [Hcond Hh]. apply orb_false_iff in Hcond as [Hn Hi]. apply negb_false_iff, String.eqb_eq in Hn, Hi, Hh.
  destruct (Hmin r Hrel Hn Hi) as (Ern & Era & Hrank).
  destruct (row_submitted s rec (li_mirror s Hs) (proj1 Hrec)) as (xr & er & cr & Hxr & Hlr & Eer).
  assert (is_agent er = true) as Hagr. { apply (row_identity xr (er_RawEvent rec) er cr Hxr). destruct Hrec as (_ & H & _). rewrite Eer in H. exact H. }
  pose proof (submitted_agent_leaf _ _ _ _ Hxr) as Halr. rewrite Hagr in Halr. pose proof (submitted_built _ _ _ _ Hxr) as Hbr.
  destruct (built_agent _ _ _ _ _ _ Hbr Hagr) as (Hprr & _ & _ & Hvalr & _).
  destruct (submitted_decoded _ _ _ _ Hxr) as (Hir & _). rewrite Hir in Hchk. cbn [mbind result_bind] in Hchk. rewrite Hprr in Hchk. cbn [or_other mbind result_bind fst snd] in Hchk.
  case_if_in Hchk; [done|]. case_if_in Hchk; [done|]. b2p.
  assert (er_EventType rec = View_EventType er) as Etr by (by rewrite Eer). rewrite Etr in *.
  match goal with H : agentEventTransitionAllowed _ _ = true |- _ => rename H into Hall end.
  destruct (allowed_rank _ (al_Type a) _ Hall Hvalr Hval) as [Hab Hr2]; [rewrite Hrt in Hrank; lia|].
  assert (same_subject a (agent_view er)) as Hsub by (left; cbn; rewrite <-Hra, Era, <-Hi, Eer; done).
  assert (al_RaID a = inner_raid er /\ al_Host a = al_Host (agent_view er) /\
    (type_rank (al_Type a) = type_rank (View_EventType er) -> al_Type a <> TypeAgentRevoked -> er_LeafIndex r <= er_LeafIndex rec -> View_EventType er <> TypeAgentRevoked ->
     exists ta tb, ParseRFC3339 (al_Timestamp a) = Some ta /\ ParseRFC3339 (View_Timestamp er) = Some tb /\ ta <= tb)) as (Ho1 & Ho2 & Ho3).
  { pose proof (mirror_pos s rec (li_mirror s Hs) (proj1 Hrec)) as Hposr.
    destruct (Nat.lt_total i (Z.to_nat (er_LeafIndex rec))) as [Hlt|[Heq|Hgt]].
    - destruct (li_lifecycle s Hs i _ a (agent_view er) Hlt) as [_ _ Hh1 Hp1 _ Ht1]; [by rewrite Hraw'|by rewrite Hlr|done|]. split_and!; [done|done|]. intros _ _ _ Hne. by apply Ht1.
    - subst i. assert (raw' = er_RawEvent rec) as -> by congruence. rewrite Halr in Ha. injection Ha as <-. split_and!; [done|done|]. intros _ _ _ _.
      match type of Hchk with context [match ParseRFC3339 (View_Timestamp er) with _ => _ end] => destruct (ParseRFC3339 (View_Timestamp er)) as [t|] eqn:Et; [|done] end.
      exists t, t. cbn. by rewrite Et.
    - destruct (li_lifecycle s Hs _ i (agent_view er) a Hgt) as [_ _ Hh1 Hp1 _ Ht1]; [by rewrite Hlr|by rewrite Hraw'|by destruct Hsub as [?|?]; [left|right]|].
      split_and!; [done|done|]. intros _ _ Hle _. lia. }
  split; cbn [agent_view al_AgentID al_AnsName al_Host al_RaID al_Type al_Timestamp].
  - by rewrite <-Hra.
  - by rewrite <-Hrn.
  - rewrite Ho2. cbn. rewrite <-Hh. by rewrite Eer.
  - congruence.
  - done.
  - intros Hne. specialize (Hr2 Hne).
    destruct (ParseRFC3339 (View_Timestamp er)) as [told|] eqn:Eold; [|done]. destruct (ParseRFC3339 (View_Timestamp env)) as [tnew|] eqn:Enew; [|done].
    assert (String.eqb (View_EventType env) TypeAgentRevoked = false) as Hne' by by apply String.eqb_neq. rewrite Hne' in Hchk. cbn [negb andb] in Hchk.
    case_if_in Hchk; [done|]. match goal with H : Time_Before _ _ = false |- _ => unfold Time_Before in H; rename H into Hbef end.
    assert (type_rank (al_Type a) <= 2) as Hle2 by (unfold type_rank; repeat case_if; lia).
    rewrite Hrt, Hr2 in Hrank. destruct Ho3 as (ta & tb & H1 & H2 & H3); [lia| |lia| |].
    + intros E. rewrite E in *. vm_compute in Hab. done.
    + intros E. rewrite E in Hr2. done.
    + exists ta, tnew. split_and!; [done|done|]. injection H2 as <-. lia.
Qed.
End Lifecycle.

(** ** Steps *)

Section Steps.
Context `{U : UnicodeTables} `{J : JCS, !JCSLaws J} `{S : SigSchemes} `{X : PemX509, KP : !KeyParser, JO : !Jose, !JoseLaws JO} `{SJ : SqliteJSON}.

Definition complete (s : LogState) : Prop := forall i, 0 <= i < Z.of_nat (length (s_leaves s)) -> indexed (s_db s) i.

Lemma log_inv_extends s s' : log_inv s -> mirror_inv s' -> extends s s' -> log_inv s'.
Proof.
  intros [Hm Hr Hd Hl] Hm' He. pose proof He as (El & Er & _). split; [done| | |].
  - intros Hready i Hi. eapply extends_indexed; [done|]. apply Hr; [congruence|by rewrite <-El].
  - by rewrite El.
  - by rewrite El.
Qed.

Lemma mirror_ready s b : mirror_inv s -> mirror_inv (with_ready s b).
Proof. by intros []. Qed.

Lemma log_inv_ready s b : log_inv s -> (b = true -> complete s) -> log_inv (with_ready s b).
Proof. intros [Hm Hr Hd Hl] Hb. by split; [apply mirror_ready|..]. Qed.

(** A new leaf: sealed, signed, new, and admitted by the policy. *)
Lemma log_inv_leaf s x raw env canonical :
  log_inv s -> complete s -> submitted x raw env canonical -> authentic (s_db s) x ->
  (forall r, r ∈ t_events (s_db s) -> er_EventHashHex r <> ComputeEventHash canonical) ->
  checkAgentState (s_db s) env canonical = Ok tt ->
  log_inv (with_ready (with_leaves s (s_leaves s ++ [raw])) false).
Proof.
  intros Hs Hfull Hx Hau Hnew Hchk. pose proof Hs as [Hm _ Hd Hl]. split; [split| |..]; cbn [s_leaves s_db s_indexReady with_ready with_leaves].
  - apply Forall_app. split; [apply (mi_sealed s Hm)|]. constructor; [|constructor]. by exists x, env, canonical.
  - eapply Forall_impl; [apply (mi_rows s Hm)|]. intros r (env' & inner & Hp & Hlk & H). exists env', inner. split; [done|]. split; [|done].
    rewrite lookup_app_l; [done|]. by eapply lookup_lt_Some.
  - apply (mi_unique s Hm).
  - apply (mi_links s Hm).
  - apply (mi_link_keys s Hm).
  - done.
  - rewrite fmap_app. apply NoDup_app. split_and!; [done| |apply NoDup_singleton]. intros h Hh Hh'. cbn in Hh'. apply list_elem_of_singleton in Hh'.
    subst h. apply list_elem_of_lookup_1 in Hh as (i & Hi). rewrite list_lookup_fmap in Hi. destruct (s_leaves s !! i) as [raw'|] eqn:E; [|done].
    destruct (Hfull (Z.of_nat i)) as (r & Hr & Hri); [apply lookup_lt_Some in E; lia|]. apply (Hnew r Hr).
    destruct (row_submitted s r Hm Hr) as (x' & env' & c' & Hx' & Hlk & Er). rewrite Hri, Nat2Z.id, E in Hlk. injection Hlk as ->.
    cbn [fmap option_fmap option_map] in Hi. rewrite (submitted_hash _ _ _ _ Hx'), (submitted_hash _ _ _ _ Hx) in Hi. apply (inj Some), (inj Some) in Hi. rewrite Er. exact Hi.
  - intros i j a b Hij Ha Hb Hsame. destruct (decide (j < length (s_leaves s))%nat).
    + rewrite lookup_app_l in Ha, Hb by lia. by apply (Hl i j).
    + assert (j = length (s_leaves s)) as ->.
      { destruct (_ !! j) as [z|] eqn:Ej in Hb; [|done]. apply lookup_lt_Some in Ej. rewrite length_app in Ej. cbn in Ej. lia. }
      rewrite lookup_app_l in Ha by lia. rewrite list_lookup_middle in Hb by done. cbn [mbind option_bind] in Hb.
      rewrite (submitted_agent_leaf _ _ _ _ Hx) in Hb. destruct (is_agent env) eqn:Ea; [|done]. injection Hb as <-.
      destruct (s_leaves s !! i) as [raw'|] eqn:Ei; [|done]. by eapply (checkAgentState_follows s x raw env canonical i raw' a).
Qed.

(** ** Append *)

(** What the signature check establishes. *)
Lemma ProducerSig_Verify_Ok d now sig body raID keyID :
  ProducerSig_Verify d now sig body = Ok (raID, keyID) ->
  (utf8_ok raID = true /\ raID <> "") /\ (utf8_ok keyID = true /\ keyID <> "") /\ (utf8_ok sig = true /\ sig <> "") /\
  exists k h, k ∈ t_keys d /\ key_usable (Time_UnixMilli now) raID keyID k = true /\
    VerifyDetachedWithPEM sig body (kr_PublicKeyPEM k) = Ok h /\ h_RAID h = raID /\ h_Kid h = keyID.
Proof.
  unfold ProducerSig_Verify. destruct (String.eqb_spec sig ""); [done|]. destruct (DecodeHeader sig) as [h|] eqn:Eh; [|done].
  destruct (String.eqb_spec (h_Kid h) ""); [done|]. destruct (String.eqb_spec (h_RAID h) ""); [done|]. cbn [orb].
  unfold KeyStore_Get, sqlite_keys. destruct (find_first _ _) as [k|] eqn:Ek; [|done].
  destruct (VerifyDetachedWithPEM sig body (kr_PublicKeyPEM k)) as [h'|] eqn:Ev; [|done]. intros [= <- <-].
  destruct (DecodeHeader_utf8 _ _ Eh) as [Hu1 Hu2]. apply find_first_Some in Ek as [Hk1 Hk2].
  assert (h' = h /\ utf8_ok sig = true) as [-> Hsig].
  { unfold VerifyDetachedWithPEM in Ev. unfold DecodeHeader in Eh. destruct (splitDetachedJWS sig) as [[eh es]|]; [|done]. cbn [mbind result_bind] in *.
    rewrite Eh in Ev. cbn [mbind result_bind] in Ev. apply bind_Ok in Ev as (pub & _ & Ev). apply bind_Ok in Ev as (alg & _ & Ev). apply bind_Ok in Ev as (cp & _ & Ev).
    destruct (jose_verify _ _ _ _) eqn:Ej; [|done]. injection Ev as <-. split; [done|]. by eapply jose_text. }
  split_and!; try done. by exists k, h.
Qed.

Definition uuid_ok (uuid : option string) : Prop := match uuid with Some id => utf8_ok id = true /\ id <> "" | None => True end.

Lemma authentic_of d now x :
  ProducerSig_Verify d now (sb_sig x) (sb_body x) = Ok (sb_raID x, sb_keyID x) -> authentic d x.
Proof.
  intros (_ & _ & _ & k & h & Hk & Hus & Hv & Hr & Hi)%ProducerSig_Verify_Ok. exists k, h. unfold key_usable in Hus. b2p. by split_and!.
Qed.

Lemma recoverBeforeAppend_inv w s r s' :
  TesseraLaws (w_tessera w) -> log_inv s -> recoverBeforeAppend w s = (r, s') ->
  log_inv s' /\ s_leaves s' = s_leaves s /\ t_keys (s_db s') = t_keys (s_db s) /\ (r = Ok tt -> complete s' /\ s_indexReady s' = true).
Proof.
  intros HT Hs. unfold recoverBeforeAppend. destruct (s_indexReady s) eqn:Er.
  { intros [= <- <-]. split_and!; [done..|]. intros _. split; [|done]. exact (li_ready s Hs Er). }
  destruct (recoverIndex_recovers w s HT (li_mirror s Hs)) as (Hm & He & HQ). destruct (recoverIndex w s) as [r0 s0]. intros [= <- <-]. cbn [fst snd] in *.
  pose proof (log_inv_extends s s0 Hs Hm He) as H0. pose proof He as (El & _ & Ek & _).
  assert (r0 = Ok tt -> complete s0) as Hc by (intros E i Hi; apply (HQ tt E); by rewrite <-El).
  split_and!; [|done|done|].
  - apply log_inv_ready; [done|]. destruct r0 as [[]|]; [auto|done].
  - intros ->. split; [by apply Hc|done].
Qed.

Lemma duplicateResult_state rec s : (duplicateResult rec s).2 = s.
Proof. unfold duplicateResult, mbind, M_bind, lifts. by destruct (LeafHashBytes rec). Qed.

(** An admitted submission keeps the invariant whatever Tessera and the database
    do with it. *)
Lemma completeAppend_inv w s x env signed canonical :
  TesseraLaws (w_tessera w) -> log_inv s -> complete s ->
  (forall raw, LeafBytes (setOuterSignature env (sb_att x)) = Some raw -> submitted x raw env canonical) ->
  signed = setOuterSignature env (sb_att x) -> authentic (s_db s) x ->
  (forall r, r ∈ t_events (s_db s) -> er_EventHashHex r <> ComputeEventHash canonical) ->
  checkAgentState (s_db s) env canonical = Ok tt ->
  let '(r, s') := completeAppend w signed (ComputeEventHash canonical) (sb_logID x) (with_ready s false) in
  log_inv s' /\ t_keys (s_db s') = t_keys (s_db s) /\
  (s_leaves s' = s_leaves s \/ exists raw, submitted x raw env canonical /\ s_leaves s' = s_leaves s ++ [raw]).
Proof.
  intros HT Hs Hfull Hsub -> Hau Hnew Hchk. set (s0 := with_ready s false). assert (log_inv s0) as Hs0 by by apply log_inv_ready.
  unfold completeAppend, mbind, M_bind. unfold log_Append. destruct (Signable_Validate _) as [[]|]; [|by split_and!; [| |left]].
  destruct (LeafBytes _) as [raw|] eqn:EL; [|by split_and!; [| |left]]. specialize (Hsub raw eq_refl).
  pose proof (ts_add_law (T := w_tessera w) (s_leaves s0) raw) as Hadd. destruct (ts_Add _ _ _) as [o leaves'] eqn:EA. cbn [fst snd] in Hadd.
  pose proof (log_inv_leaf s x raw env canonical Hs Hfull Hsub Hau Hnew Hchk) as Hleaf.
  destruct Hadd as [|i Hi| |].
  - set (s1 := with_ready (with_leaves s (s_leaves s ++ [raw])) false) in *. change (with_leaves s0 (s_leaves s0 ++ [raw])) with s1.
    destruct (submitted_decoded _ _ _ _ Hsub) as (Hinner & env' & Hd & HR).
    pose proof (store_mirror w (Z.of_nat (length (s_leaves s))) raw (setOuterSignature env (sb_att x)) env' canonical s1 (li_mirror s1 Hleaf) ltac:(lia)) as HS.
    specialize (HS ltac:(cbn [s1 s_leaves with_ready with_leaves]; rewrite Nat2Z.id; by apply list_lookup_middle) Hd ltac:(by left) Hinner).
    destruct (store _ _ _ _ _ _ s1) as [rs s2]. destruct HS as (Hm2 & He2 & Hidx). pose proof (log_inv_extends s1 s2 Hleaf Hm2 He2) as Hs2.
    pose proof He2 as (El2 & _ & Ek2 & _). destruct rs as [[]|e]; cbn [set_ready mret M_ret].
    + split_and!; [|done|right; exists raw; by split; [|exact El2]]. apply log_inv_ready; [done|]. intros _ i Hi. rewrite El2 in Hi. cbn in Hi. rewrite length_app in Hi. cbn in Hi.
      destruct (decide (i = Z.of_nat (length (s_leaves s)))) as [->|]; [by apply Hidx|].
      eapply extends_indexed; [done|]. apply Hfull. lia.
    + split_and!; [done|done|right; exists raw; by split; [|exact El2]].
  - change (with_leaves s0 (s_leaves s0)) with s0. destruct (recoverIndex_recovers w s0 HT (li_mirror s0 Hs0)) as (Hm1 & He1 & HQ).
    destruct (recoverIndex w s0) as [r1 s1]. cbn [fst snd] in *. pose proof (log_inv_extends s0 s1 Hs0 Hm1 He1) as Hs1. pose proof He1 as (El1 & _ & Ek1 & _).
    destruct r1 as [[]|e]; cbn [gets]; [|by split_and!; [| |left]]. unfold lifts. destruct (GetEventByLeafIndex _ _) as [rec|e]; [|by split_and!; [| |left]].
    case_if; [by split_and!; [| |left]|]. cbn [set_ready fails]. pose proof (duplicateResult_state rec (with_ready s1 true)) as Hdup.
    destruct (duplicateResult rec _) as [rd sd]. cbn [snd] in Hdup. subst sd. split_and!; [|done|by left]. apply log_inv_ready; [done|]. intros _ i' Hi'. apply (HQ tt eq_refl). by rewrite <-El1.
  - by split_and!; [| |left].
  - split_and!; [|done|]; [exact Hleaf|]. right. by exists raw.
Qed.

Lemma attest_Ok conf now env signed :
  attest conf now env = Ok signed -> exists att, signed = setOuterSignature env att /\ utf8_ok att = true /\ att <> "".
Proof.
  unfold attest. intros (inp & _ & H)%bind_Ok. destruct (SignDetachedJWS _ _ _ _) as [att|] eqn:E; [|done]. injection H as <-.
  apply SignDetachedJWS_ascii in E as [H1 H2]. by exists att.
Qed.

(** What one append can do to the log. *)
Definition appended (s s' : LogState) : Prop :=
  s_leaves s' = s_leaves s \/ exists x raw env canonical, submitted x raw env canonical /\ s_leaves s' = s_leaves s ++ [raw].

Lemma append_inv conf w uuid c body sig s :
  TesseraLaws (w_tessera w) -> uuid_ok uuid -> log_inv s ->
  let '(r, s') := append conf w (s_db s) uuid c body sig s in
  log_inv s' /\ t_keys (s_db s') = t_keys (s_db s) /\ appended s s'.
Proof.
  intros HT Huu Hs. assert (log_inv s /\ t_keys (s_db s) = t_keys (s_db s) /\ appended s s) as Hsame by (split_and!; [done|done|by left]).
  unfold append, mbind, M_bind. unfold lifts at 1. destruct (ProducerSig_Verify _ _ _ _) as [[raID keyID]|e] eqn:EV; [|done].
  unfold lifts at 1. destruct uuid as [logID|]; [|done]. cbn [or_other]. unfold lifts at 1.
  destruct (ParseAndBuild _ _ _ _ _ _) as [[env canonical]|e] eqn:EP; [|done]. cbn [fst snd] in EP.
  destruct (recoverBeforeAppend w s) as [r0 s1] eqn:ER. destruct (recoverBeforeAppend_inv w s r0 s1 HT Hs ER) as (Hs1 & El1 & Ek1 & HQ).
  assert (appended s s1) as Ha1 by by left. destruct r0 as [[]|e]; [|done]. destruct (HQ eq_refl) as [Hfull _]. cbn [gets].
  destruct (ExistsByEventHash (s_db s1) (ComputeEventHash canonical)) as [idx|] eqn:EX.
  { unfold lifts. destruct (GetEventByLeafIndex _ _); [|done]. by destruct (LeafHashBytes _). }
  unfold lifts at 1. destruct (checkAgentState (s_db s1) env canonical) as [[]|e] eqn:EC; [|done].
  unfold lifts at 1. destruct (attest conf (w_now w) env) as [signed|e] eqn:EA; [|done]. cbn [set_ready].
  destruct (attest_Ok _ _ _ _ EA) as (att & -> & Hatt). pose proof (ProducerSig_Verify_Ok _ _ _ _ _ _ EV) as (Hra & Hkid & Hsg & _).
  set (x := {| sb_codec := c; sb_body := body; sb_raID := raID; sb_keyID := keyID; sb_sig := sig; sb_logID := logID; sb_att := att |}).
  assert (authentic (s_db s) x) as Hau by by apply (authentic_of _ (w_now w)).
  assert (authentic (s_db s1) x) as Hau1 by (unfold authentic in *; by rewrite Ek1).
  pose proof (completeAppend_inv w s1 x env (setOuterSignature env att) canonical HT Hs1 Hfull) as HC.
  specialize (HC ltac:(intros raw HL; by split) eq_refl Hau1 (ExistsByEventHash_None _ _ EX) EC). change (sb_logID x) with logID in HC.
  destruct (completeAppend w _ _ logID _) as [r s']. destruct HC as (H1 & H2 & H3). split_and!; [done|congruence|].
  unfold appended. rewrite <-El1. destruct H3 as [H3|(raw & H3 & H4)]; [by left|]. right. by exists x, raw, env, canonical.
Qed.

(** ** The log over time *)

Definition empty_log : LogState := {| s_leaves := []; s_db := empty_tldb; s_indexReady := false |}.

Inductive tl_step : LogState -> LogState -> Prop :=
| step_append s conf w uuid c body sig :
    TesseraLaws (w_tessera w) -> uuid_ok uuid -> tl_step s (append conf w (s_db s) uuid c body sig s).2
| step_recover s w : TesseraLaws (w_tessera w) -> tl_step s (RecoverIndex w s).2
| step_read s w : TesseraLaws (w_tessera w) -> tl_step s (lockIndexedRead w s).2
| step_restart s : tl_step s (with_ready s false)
| step_checkpoint s size root raw origin now : tl_step s (with_db s (CheckpointStore_Store (s_db s) size root raw origin now))
| step_receipt s i agentID size blob now : tl_step s (with_db s (ReceiptStore_Store (s_db s) i agentID size blob now))
| step_register s now e r d : Register (s_db s) now e = Ok (r, d) -> tl_step s (with_db s d)
| step_revoke_key s now keyID d : RevokeKey (s_db s) now keyID = Ok d -> tl_step s (with_db s d).

(** Keys are added and revoked, never removed or replaced. *)
Definition keys_kept (d d' : TlDB) : Prop :=
  forall k, k ∈ t_keys d -> exists k', k' ∈ t_keys d' /\ kr_RaID k' = kr_RaID k /\ kr_KeyID k' = kr_KeyID k /\ kr_PublicKeyPEM k' = kr_PublicKeyPEM k.

Lemma authentic_kept d d' x : keys_kept d d' -> authentic d x -> authentic d' x.
Proof.
  intros Hk (k & h & Hin & Hr & Hi & Hv & H1 & H2). destruct (Hk k Hin) as (k' & Hin' & E1 & E2 & E3). exists k', h.
  rewrite E1, E2, E3. by split_and!.
Qed.

Lemma log_inv_keys s d :
  t_events d = t_events (s_db s) -> t_links d = t_links (s_db s) -> keys_kept (s_db s) d -> log_inv s -> log_inv (with_db s d).
Proof.
  intros Ee El Hk [Hm Hr Hd Hl]. destruct Hm as [H1 H2 H3 H4 H5]. split; [split|..]; cbn [s_leaves s_db s_indexReady with_db]; try rewrite Ee; try rewrite El; try done.
  - eapply Forall_impl; [exact H1|]. intros raw (x & env & can & Hx & Hau). exists x, env, can. split; [done|]. by eapply authentic_kept.
  - intros Hready i Hi. destruct (Hr Hready i Hi) as (r & Hin & E). exists r. by rewrite Ee.
Qed.

Lemma RecoverIndex_inv w s :
  TesseraLaws (w_tessera w) -> log_inv s ->
  log_inv (RecoverIndex w s).2 /\ s_leaves (RecoverIndex w s).2 = s_leaves s /\ t_keys (s_db (RecoverIndex w s).2) = t_keys (s_db s) /\
  ((RecoverIndex w s).1 = Ok tt -> complete (RecoverIndex w s).2 /\ s_indexReady (RecoverIndex w s).2 = true).
Proof.
  intros HT Hs. unfold RecoverIndex, mbind, M_bind. cbn [set_ready]. set (s0 := with_ready s false).
  assert (log_inv s0) as Hs0 by by apply log_inv_ready. destruct (recoverIndex_recovers w s0 HT (li_mirror s0 Hs0)) as (Hm & He & HQ).
  destruct (recoverIndex w s0) as [r s1]. cbn [fst snd] in *. pose proof (log_inv_extends s0 s1 Hs0 Hm He) as Hs1. pose proof He as (El & _ & Ek & _).
  destruct r as [[]|e]; cbn [fst snd]; [|by split_and!].
  assert (complete s1) as Hc by (intros i Hi; apply (HQ tt eq_refl); by rewrite <-El). split_and!; [|done|done|done]. by apply log_inv_ready.
Qed.

Lemma tl_step_inv s s' :
  tl_step s s' -> log_inv s -> log_inv s' /\ keys_kept (s_db s) (s_db s') /\ appended s s'.
Proof.
  assert (forall d d', t_keys d' = t_keys d -> keys_kept d d') as Hkeep by (intros d d' E k Hk; exists k; by rewrite E).
  intros Hst Hs. destruct Hst as [s conf w uuid c body sig HT Hu|s w HT|s w HT|s|s size root raw origin now|s i agentID size blob now|s now e r d Hr|s now keyID d Hr].
  - pose proof (append_inv conf w uuid c body sig s HT Hu Hs) as H. destruct (append _ _ _ _ _ _ _ s) as [r s']. destruct H as (H1 & H2 & H3). by split_and!; [|apply Hkeep|].
  - destruct (RecoverIndex_inv w s HT Hs) as (H1 & H2 & H3 & _). by split_and!; [|apply Hkeep|left].
  - unfold lockIndexedRead, mbind, M_bind, gets. destruct (s_indexReady s); [by split_and!; [|apply Hkeep|left]|].
    destruct (RecoverIndex_inv w s HT Hs) as (H1 & H2 & H3 & _). by split_and!; [|apply Hkeep|left].
  - split_and!; [by apply log_inv_ready|by apply Hkeep|by left].
  - assert (t_events (CheckpointStore_Store (s_db s) size root raw origin now) = t_events (s_db s) /\
      t_links (CheckpointStore_Store (s_db s) size root raw origin now) = t_links (s_db s) /\
      t_keys (CheckpointStore_Store (s_db s) size root raw origin now) = t_keys (s_db s)) as (E1 & E2 & E3) by (unfold CheckpointStore_Store; by case_if).
    split_and!; [apply log_inv_keys; auto|by apply Hkeep|by left].
  - assert (t_events (ReceiptStore_Store (s_db s) i agentID size blob now) = t_events (s_db s) /\
      t_links (ReceiptStore_Store (s_db s) i agentID size blob now) = t_links (s_db s) /\
      t_keys (ReceiptStore_Store (s_db s) i agentID size blob now) = t_keys (s_db s)) as (E1 & E2 & E3) by (unfold ReceiptStore_Store; by destruct (FindByLeafIndex _ _ _)).
    split_and!; [apply log_inv_keys; auto|by apply Hkeep|by left].
  - unfold Register in Hr. apply bind_Ok in Hr as (_ & _ & Hr). destruct (fingerprintFromPEM _); [|done]. case_if_in Hr; [done|]. case_if_in Hr; [done|].
    cbn zeta in Hr. apply bind_Ok in Hr as (k & _ & [= <- <-]).
    match goal with |- context [set_keys ?d ?ks] => assert (keys_kept d (set_keys d ks)) as HK by (intros k' Hk'; exists k'; cbn; set_solver) end.
    split_and!; [by apply log_inv_keys|done|by left].
  - unfold RevokeKey in Hr. cbn zeta in Hr. case_if_in Hr; [|done]. injection Hr as <-.
    match goal with |- context [set_keys ?d ?ks] => assert (keys_kept d (set_keys d ks)) as HK end.
    { intros k Hk. match goal with |- context [set_keys _ (?f <$> _)] => exists (f k) end. cbn [t_keys set_keys]. split; [apply list_elem_of_fmap; by exists k|]. by case_if. }
    split_and!; [by apply log_inv_keys|done|by left].
Qed.

Lemma log_inv_empty : log_inv empty_log.
Proof.
  split; [split|..]; cbn; try done; constructor.
Qed.

Lemma log_inv_reachable s : rtc tl_step empty_log s -> log_inv s.
Proof.
  intros H. assert (forall s0, rtc tl_step s0 s -> log_inv s0 -> log_inv s) as HG; [|by apply (HG _ H), log_inv_empty].
  clear H. intros s0 H. induction H as [|s1 s2 s3 Hst _ IH]; [done|]. intros Hs. apply IH. by apply (tl_step_inv s1 s2).
Qed.
End Steps.
