(* ===== verification/TlLogSpec.v ===== *)
(** What the transparency log guarantees, over every sequence of appends,
    failures, recoveries, restarts and key changes from an empty log.

    The theorems read the invariant of [TlLogInv]: the index mirrors the log, an
    event is sealed once and a retry gets the first answer, the leaves about an
    agent follow its lifecycle, every leaf carries a signature that verified, a
    recovery restores the index, and one kind of event stops the log for good. *)
From stdpp Require Import gmap.
From S2P Require Import Prelude GoStrings Utf8 GoTime DomainErrors SemVer AnsName GoEncoding GoJSON GoJSONSpec Jcs Sha256 Lifecycle Discovery TlEvent TlEnvelope TlEnvelopeSpec RaEvents P1363 Jws JwsSpec TlStore TlStoreSpec TlLog TlLogInv.

#[local] Set Default Goal Selector "!".
#[local] Open Scope Z_scope.

Section Spec.
Context `{U : UnicodeTables} `{J : JCS, !JCSLaws J} `{S : SigSchemes} `{X : PemX509, KP : !KeyParser, JO : !Jose, !JoseLaws JO} `{SJ : SqliteJSON}.

Lemma leaves_prefix s s' : log_inv s -> rtc tl_step s s' -> s_leaves s `prefix_of` s_leaves s'.
Proof.
  intros Hs H. revert Hs. induction H as [s|s1 s2 s3 Hst _ IH]; intros Hs; [done|].
  destruct (tl_step_inv s1 s2 Hst Hs) as (H1 & _ & H2). etrans; [|by apply IH].
  destruct H2 as [->|(x & raw & env & c & _ & ->)]; [done|by apply prefix_app_r].
Qed.

(** C5: the index mirrors the log.  In every state the log can reach, each row of
    [tl_events] is the row of the leaf at its index — raw bytes, leaf hash,
    event hash and every searchable column — with one row per leaf; the link
    table is exactly the fan-out of the indexed link events; and while
    [indexReady] holds every leaf can be looked up.  Leaves are never changed or
    dropped afterwards. *)
Theorem index_mirrors_log s :
  rtc tl_step empty_log s ->
  Forall (mirrors (s_leaves s)) (t_events (s_db s)) /\ NoDup (er_LeafIndex <$> t_events (s_db s)) /\
  t_links (s_db s) = flat_map row_links (t_events (s_db s)) /\
  (s_indexReady s = true -> forall i raw, s_leaves s !! i = Some raw ->
     exists r, GetEventByLeafIndex (s_db s) (Z.of_nat i) = Ok r /\ er_RawEvent r = raw) /\
  (forall s', rtc tl_step s s' -> s_leaves s `prefix_of` s_leaves s').
Proof.
  intros Hreach. pose proof (log_inv_reachable s Hreach) as Hs. pose proof (li_mirror s Hs) as Hm.
  split; [apply (mi_rows s Hm)|]. split; [apply (mi_unique s Hm)|]. split; [apply (mi_links s Hm)|].
  split; [|intros s'; by apply leaves_prefix]. intros Hr i raw Hi.
  destruct (li_ready s Hs Hr (Z.of_nat i)) as (r & Hin & E); [apply lookup_lt_Some in Hi; lia|]. exists r.
  rewrite <-E. split; [by apply GetEventByLeafIndex_unique; [apply (mi_unique s Hm)|]|].
  destruct (row_submitted s r Hm Hin) as (x & env & c & _ & Hl & _). rewrite E, Nat2Z.id in Hl. congruence.
Qed.

(** C6: the log tells one story per agent.  Of any two leaves that name the same
    agent id or the same ANS name, the later one has the same agent id, name,
    host and producer, is an allowed transition of the earlier one's event (so
    nothing follows a revocation and only a revocation follows a deprecation),
    and, unless it is a revocation, is not dated before it; and no event is
    sealed twice. *)
Theorem log_lifecycle s :
  rtc tl_step empty_log s ->
  NoDup (leaf_hash <$> s_leaves s) /\
  forall i j a b, (i < j)%nat -> s_leaves s !! i ≫= agent_leaf_of = Some a -> s_leaves s !! j ≫= agent_leaf_of = Some b ->
    same_subject a b -> follows a b.
Proof. intros Hs%log_inv_reachable. by split; [apply (li_distinct s Hs)|apply (li_lifecycle s Hs)]. Qed.

(** C7: every leaf is signed evidence.  Each leaf seals an event some producer
    submitted: the event the codec built from the submitted body under the
    signer's producer id, the producer's signature over that body, and a key id;
    the trust store holds that key for that producer, and the signature verifies
    over the body under its PEM, whatever keys were revoked or added since. *)
Theorem log_authentic s i raw :
  rtc tl_step empty_log s -> s_leaves s !! i = Some raw ->
  exists x env canonical k h,
    ParseAndBuild (sb_codec x) (sb_body x) (sb_raID x) (sb_keyID x) (sb_sig x) (sb_logID x) = Ok (env, canonical) /\
    LeafBytes (setOuterSignature env (sb_att x)) = Some raw /\ innerEventBytes raw = Ok canonical /\
    inner_raid env = sb_raID x /\
    k ∈ t_keys (s_db s) /\ kr_RaID k = sb_raID x /\ kr_KeyID k = sb_keyID x /\
    VerifyDetachedWithPEM (sb_sig x) (sb_body x) (kr_PublicKeyPEM k) = Ok h.
Proof.
  intros Hs%log_inv_reachable Hi. pose proof (mi_sealed s (li_mirror s Hs)) as Hse. rewrite Forall_forall in Hse.
  destruct (Hse raw (list_elem_of_lookup_2 _ _ _ Hi)) as (x & env & c & Hx & k & h & Hk & Hr & Hkid & Hv & _).
  exists x, env, c, k, h. pose proof (submitted_built _ _ _ _ Hx) as Hb. pose proof (submitted_decoded _ _ _ _ Hx) as [Hin _]. destruct Hx as [_ _ _ _ _ HP HL].
  split_and!; try done. destruct env as [e|e|e]; destruct Hb as (inner & -> & _ & _ & Hra & _); exact Hra.
Qed.

(** ** Retries *)

Lemma row_hash_bytes s r : mirror_inv s -> r ∈ t_events (s_db s) -> LeafHashBytes r = Ok (leafHashOf (er_RawEvent r)).
Proof.
  intros Hm Hr. destruct (row_submitted s r Hm Hr) as (x & env & c & _ & _ & E). unfold LeafHashBytes.
  assert (er_LeafHashHex r = hex_EncodeToString (leafHashOf (er_RawEvent r))) as -> by (rewrite E at 1; done).
  rewrite hex_roundtrip. unfold leafHashOf. by rewrite Sum256_length.
Qed.

(** The row found by the hash of a sealed event. *)
Lemma sealed_row s i raw canonical idx :
  log_inv s -> complete s -> s_leaves s !! i = Some raw -> innerEventBytes raw = Ok canonical ->
  ExistsByEventHash (s_db s) (ComputeEventHash canonical) = Some idx ->
  idx = Z.of_nat i /\ exists r, GetEventByLeafIndex (s_db s) idx = Ok r /\ er_RawEvent r = raw /\ LeafHashBytes r = Ok (leafHashOf raw) /\
    exists env, decoded raw = Some env /\ er_LogID r = View_LogID env.
Proof.
  intros Hs Hfull Hi Hc HX. pose proof (li_mirror s Hs) as Hm.
  apply ExistsByEventHash_Some in HX as (r & Hr & Eh & <-). destruct (row_submitted s r Hm Hr) as (x & env & c & Hx & Hl & Er).
  assert (Z.to_nat (er_LeafIndex r) = i) as En.
  { eapply (NoDup_lookup (leaf_hash <$> s_leaves s)); [apply (li_distinct s Hs)|by rewrite list_lookup_fmap, Hl|].
    rewrite list_lookup_fmap, Hi. cbn [fmap option_fmap option_map]. f_equal. rewrite (submitted_hash _ _ _ _ Hx). unfold leaf_hash. rewrite Hc. f_equal.
    rewrite <-Eh. by rewrite Er at 1. }
  pose proof (mirror_pos s r Hm Hr). split; [lia|]. exists r. assert (er_RawEvent r = raw) as Eraw by (rewrite En in Hl; congruence).
  split; [by apply GetEventByLeafIndex_unique; [apply (mi_unique s Hm)|]|]. split; [done|]. split; [rewrite <-Eraw; by apply (row_hash_bytes s)|].
  pose proof (mi_rows s Hm) as HR. rewrite Forall_forall in HR. destruct (HR r Hr) as (env' & inner & _ & _ & Hd & _ & E'). exists env'.
  rewrite <-Eraw. split; [done|]. by rewrite E' at 1.
Qed.

Lemma sealed_found s i raw canonical :
  log_inv s -> complete s -> s_leaves s !! i = Some raw -> innerEventBytes raw = Ok canonical ->
  ExistsByEventHash (s_db s) (ComputeEventHash canonical) <> None.
Proof.
  intros Hs Hfull Hi Hc HX. destruct (Hfull (Z.of_nat i)) as (r & Hr & E); [apply lookup_lt_Some in Hi; lia|].
  apply (ExistsByEventHash_None _ _ HX r Hr). destruct (row_submitted s r (li_mirror s Hs) Hr) as (x & env & c & Hx & Hl & Er).
  rewrite E, Nat2Z.id, Hi in Hl. injection Hl as ->. apply submitted_decoded in Hx as [Hin _]. rewrite Hc in Hin. injection Hin as ->. by rewrite Er at 1.
Qed.

(** C10: a sealed event is sealed once.  When a producer submits again an event
    whose canonical form some leaf already seals — whatever happened to the first
    answer, to the index or to the process in between — the log is not extended;
    an answer is a duplicate with the index, the hash and the log id of that
    leaf; and an answer is given whenever the index is ready. *)
Theorem append_idempotent s conf w logID c body sig raID keyID env canonical i raw :
  rtc tl_step empty_log s -> TesseraLaws (w_tessera w) ->
  ProducerSig_Verify (s_db s) (w_now w) sig body = Ok (raID, keyID) ->
  ParseAndBuild c body raID keyID sig logID = Ok (env, canonical) ->
  s_leaves s !! i = Some raw -> innerEventBytes raw = Ok canonical ->
  let '(r, s') := append conf w (s_db s) (Some logID) c body sig s in
  s_leaves s' = s_leaves s /\
  (forall res, r = Ok res -> res_Duplicate res = true /\ res_LeafIndex res = Z.of_nat i /\ res_LeafHash res = leafHashOf raw /\
     exists sealed_env, decoded raw = Some sealed_env /\ res_LogID res = View_LogID sealed_env) /\
  (s_indexReady s = true -> exists res, r = Ok res).
Proof.
  intros Hs%log_inv_reachable HT HV HP Hi Hc. unfold append, mbind, M_bind. unfold lifts at 1. rewrite HV. cbn [or_other]. unfold lifts at 1.
  unfold lifts at 1. cbn [fst snd]. rewrite HP. destruct (recoverBeforeAppend w s) as [r0 s1] eqn:ER.
  destruct (recoverBeforeAppend_inv w s r0 s1 HT Hs ER) as (Hs1 & El1 & _ & HQ).
  destruct r0 as [[]|e].
  2: { split_and!; [done|done|]. intros Hr. unfold recoverBeforeAppend in ER. by rewrite Hr in ER. }
  destruct (HQ eq_refl) as [Hfull _]. cbn [gets]. rewrite <-El1 in Hi.
  destruct (ExistsByEventHash (s_db s1) (ComputeEventHash canonical)) as [idx|] eqn:EX; [|by destruct (sealed_found s1 i raw canonical)].
  destruct (sealed_row s1 i raw canonical idx Hs1 Hfull Hi Hc EX) as (-> & r & HG & _ & HB & envr & Hd & Elog).
  unfold lifts. rewrite HG, HB. cbn [mret M_ret]. split_and!; [done| |by eexists]. intros res [= <-]. cbn. split_and!; [done..|]. by exists envr.
Qed.

(** ** Recovery *)

(** Tessera answers every read, and every statement goes through. *)
Definition undisturbed (w : World) (leaves : list string) : Prop :=
  (exists n, rd_IntegratedSize (ts_Reader (w_tessera w) leaves) = Some n) /\
  (forall b, 0 <= b -> exists es, rd_GetEntryBundle (ts_Reader (w_tessera w) leaves) b = Some es) /\
  (forall i n, 0 <= i -> 0 <= n -> exists hs, rd_FetchLeafHashes (ts_Reader (w_tessera w) leaves) i n = Some hs) /\
  (forall i, w_store w i = DbDone).

(** A leaf the index can hold. *)
Definition restorable (raw : string) : Prop :=
  exists env, decodeStoredEnvelope raw = Ok env /\ LeafBytes env = Some raw /\ json_valid raw = true /\ NoDup (View_LinkedAgentIDs env).

Lemma valid_version env : Signable_Validate env = Ok tt -> one_of (View_Version env) ["V0"; SchemaVersionV1; SchemaVersionV2] = true.
Proof.
  assert (forall E (v : string) (e : Envelope E) p, wrapper_ok v e = Ok p -> en_SchemaVersion e = v) as HW.
  { intros E v e p H. unfold wrapper_ok in H. destruct (String.eqb_spec (en_SchemaVersion e) v); done. }
  destruct env as [e|e|e]; intros (p & Hp%HW & _)%bind_Ok; cbn [View_Version]; by rewrite Hp.
Qed.

Lemma insert_links_fresh links i id linked type now :
  NoDup linked -> (forall l, l ∈ links -> ls_LeafIndex l = i -> ls_AnsID l ∉ linked) -> is_ok (insert_links links i id linked type now) = true.
Proof.
  revert links. induction linked as [|a linked IH]; intros links Hnd Hf; [done|]. apply NoDup_cons in Hnd as [Ha Hnd]. cbn [insert_links].
  case_if.
  - match goal with H : existsb _ _ = true |- _ => apply existsb_exists in H as (l & Hl & H) end. b2p. rewrite <-list_elem_of_In in Hl.
    exfalso. apply (Hf l Hl); [done|]. set_solver.
  - apply IH; [done|]. intros l [Hl|Hl]%elem_of_app Hi; [specialize (Hf l Hl Hi); set_solver|]. apply list_elem_of_singleton in Hl. by subst l.
Qed.

Lemma link_leaf s l : mirror_inv s -> l ∈ t_links (s_db s) -> indexed (s_db s) (ls_LeafIndex l).
Proof.
  intros Hm Hl. rewrite (mi_links s Hm) in Hl. apply list_elem_of_In, in_flat_map in Hl as (r & Hr & Hl). exists r. rewrite list_elem_of_In. split; [done|].
  unfold row_links in Hl. destruct (decoded _) as [env|]; [|done]. unfold env_links in Hl. case_if_in Hl; [done|].
  apply in_map_iff in Hl as (a & <- & _). done.
Qed.

Lemma restoreIndexedLeaf_progress w i raw s :
  mirror_inv s -> 0 <= i -> s_leaves s !! Z.to_nat i = Some raw -> restorable raw -> w_store w i = DbDone ->
  (restoreIndexedLeaf w i raw (leafHashOf raw) s).1 = Ok tt.
Proof.
  intros Hm Hi Hraw (env & HD & HL & HJ & Hnd) Hst. unfold restoreIndexedLeaf. rewrite String.eqb_refl. cbn [negb]. unfold mbind, M_bind, gets.
  destruct (GetEventByLeafIndex (s_db s) i) as [r|e] eqn:EG.
  { apply GetEventByLeafIndex_Ok in EG as [Hr E]. destruct (row_submitted s r Hm Hr) as (x & envr & c & _ & Hl & _). rewrite E, Hraw in Hl. injection Hl as ->.
    by rewrite String.eqb_refl. }
  apply GetEventByLeafIndex_Err in EG as [-> Hni]. change (is_not_found TL_NOT_FOUND) with true. cbn [negb]. unfold lifts at 1. rewrite HD. unfold lifts at 1. rewrite HL.
  cbn [or_other]. rewrite String.eqb_refl. cbn [negb]. pose proof (mi_sealed s Hm) as Hse. rewrite Forall_forall in Hse.
  destruct (Hse raw (list_elem_of_lookup_2 _ _ _ Hraw)) as (x & env0 & c & [Hin _]%submitted_decoded & _). unfold lifts. rewrite Hin.
  unfold store. rewrite Hst. assert (is_ok (StoreEvent (s_db s) i (leafHashOf raw) (ComputeEventHash c) env raw (Time_UnixMilli (w_now w))) = true) as HS.
  2: { by destruct (StoreEvent _ _ _ _ _ _ _) as [[? ?]|]. }
  unfold StoreEvent. apply at_leaf_absent in Hni as Hni'. rewrite Hni', HJ. cbn [negb]. apply decodeStoredEnvelope_decoded in HD as [_ HV].
  rewrite (valid_version _ HV). cbn [negb].
  assert (exists links, (if String.eqb (View_IdentityID env) "" then Ok (t_links (s_db s)) else
    insert_links (t_links (s_db s)) i (View_IdentityID env) (View_LinkedAgentIDs env) (View_EventType env) (Time_UnixMilli (w_now w))) = Ok links) as [links EL].
  { case_if; [by eexists|]. pose proof (insert_links_fresh (t_links (s_db s)) i (View_IdentityID env) (View_LinkedAgentIDs env) (View_EventType env) (Time_UnixMilli (w_now w)) Hnd) as HF.
    destruct (insert_links _ _ _ _ _ _) as [l|]; [by eexists|]. exfalso. assert (false = true); [|done]. apply HF. intros l Hl El. exfalso. apply Hni. rewrite <-El. by apply link_leaf. }
  rewrite EL. cbn [mbind result_bind]. match goal with |- context [GetEventByLeafIndex ?d ?j] => destruct (GetEventByLeafIndex d j) as [r|e] eqn:EG end; [done|].
  exfalso. apply GetEventByLeafIndex_Err in EG as [_ Hno]. apply Hno. eexists. cbn [t_events set_events]. split; [apply elem_of_app; right; by apply list_elem_of_singleton|done].
Qed.

Lemma restoreEntries_progress w size entries hashes next s :
  mirror_inv s -> 0 <= next -> (forall j e, entries !! j = Some e -> s_leaves s !! (Z.to_nat next + j)%nat = Some e) ->
  (forall j e, entries !! j = Some e -> next + Z.of_nat j < size -> hashes !! j = Some (leafHashOf e)) ->
  Forall restorable entries -> (forall i, w_store w i = DbDone) ->
  exists n, (restoreEntries w next size entries hashes s).1 = Ok n.
Proof.
  intros Hm Hn Hent Hh Hre Hst. revert hashes next s Hm Hn Hent Hh. induction Hre as [|raw entries Hraw _ IH]; intros hashes next s Hm Hn Hent Hh; cbn [restoreEntries]; [by eexists|].
  destruct (Z.ltb_spec next size); cbn [negb]; [|by eexists]. assert (exists hs, hashes = leafHashOf raw :: hs) as [hs ->].
  { specialize (Hh 0%nat raw eq_refl ltac:(lia)). destruct hashes as [|h hs]; [done|]. injection Hh as ->. by eexists. }
  assert (s_leaves s !! Z.to_nat next = Some raw) as Hl by (rewrite <-(Hent 0%nat raw eq_refl); f_equal; lia).
  pose proof (restoreIndexedLeaf_progress w next raw s Hm Hn Hl Hraw (Hst next)) as HP.
  pose proof (restoreIndexedLeaf_recovers w next raw (leafHashOf raw) s Hm Hn Hl) as (Hm1 & He1 & _).
  unfold mbind, M_bind. destruct (restoreIndexedLeaf _ _ _ _ s) as [r s1]. cbn [fst snd] in *. subst r. apply IH; [done|lia| |].
  - intros j e Hj. rewrite (proj1 He1), <-(Hent (Datatypes.S j) e Hj). f_equal. lia.
  - intros j e Hj Hlt. apply (Hh (Datatypes.S j) e Hj). lia.
Qed.

Lemma restoreLoop_progress fuel w size next s :
  TesseraLaws (w_tessera w) -> mirror_inv s -> 0 <= next -> size = Z.of_nat (length (s_leaves s)) -> undisturbed w (s_leaves s) -> Forall restorable (s_leaves s) ->
  size - next <= Z.of_nat fuel -> (restoreLoop fuel w (ts_Reader (w_tessera w) (s_leaves s)) next size s).1 = Ok tt.
Proof.
  intros HT Hm Hn Hsz Hw Hre. remember (s_leaves s) as leaves eqn:El. revert next s Hm Hn El. induction fuel as [|fuel IH]; intros next s Hm Hn El Hf; cbn [restoreLoop];
    (destruct (Z.ltb_spec next size); cbn [negb]; [|done]); [lia|].
  destruct Hw as (_ & Hb & Hh & Hst). destruct (Hb (next / EntryBundleWidth)) as [es Ees]; [unfold EntryBundleWidth; zlia|].
  unfold mbind, M_bind. unfold lifts at 1. rewrite Ees. cbn [or_other]. apply (ts_bundle_law leaves) in Ees; [|unfold EntryBundleWidth; zlia].
  assert (Z.of_nat (length es) <=? next mod EntryBundleWidth = false) as Hlen.
  { apply Z.leb_gt. rewrite Ees. unfold bundle_of, EntryBundleWidth. rewrite length_take, length_drop. zlia. }
  pose proof (Z.mod_pos_bound next EntryBundleWidth eq_refl) as Hmod. rewrite Hlen. apply Z.leb_gt in Hlen. destruct (Hh next (Z.min (Z.of_nat (length es) - next mod EntryBundleWidth) (size - next))) as [hs Ehs]; [done|lia|].
  unfold lifts at 1. rewrite Ehs. cbn [or_other]. apply (ts_hashes_law leaves) in Ehs; [|done|lia].
  assert (forall j e, drop (Z.to_nat (next mod EntryBundleWidth)) es !! j = Some e -> leaves !! (Z.to_nat next + j)%nat = Some e) as Hent.
  { intros j e Hj. subst es. by apply bundle_lookup in Hj. }
  destruct (restoreEntries_progress w size (drop (Z.to_nat (next mod EntryBundleWidth)) es) hs next s Hm Hn) as [n EN].
  { by rewrite <-El. }
  { intros j e Hj Hlt. subst hs. unfold hashes_of. rewrite list_lookup_fmap, lookup_take_lt.
    - rewrite lookup_drop. by rewrite (Hent j e Hj).
    - apply lookup_lt_Some in Hj. rewrite length_drop in Hj. lia. }
  { apply Forall_drop. rewrite Ees. unfold bundle_of. by apply Forall_take, Forall_drop. }
  { done. }
  pose proof (restoreEntries_recovers w size (drop (Z.to_nat (next mod EntryBundleWidth)) es) hs next s Hm Hn ltac:(by rewrite <-El)) as (Hm1 & He1 & HQ).
  destruct (HQ n EN) as (_ & Hend & _). destruct (restoreEntries _ _ _ _ _ s) as [r s1]. cbn [fst snd] in *. subst r. apply IH; [done| | |].
  - rewrite length_drop in Hend. lia.
  - by rewrite (proj1 He1).
  - rewrite length_drop in Hend. lia.
Qed.

Lemma RecoverIndex_progress w s :
  TesseraLaws (w_tessera w) -> log_inv s -> undisturbed w (s_leaves s) -> Forall restorable (s_leaves s) -> (RecoverIndex w s).1 = Ok tt.
Proof.
  intros HT Hs Hw Hre. unfold RecoverIndex, mbind, M_bind. cbn [set_ready]. set (s0 := with_ready s false).
  assert (mirror_inv s0) as Hm by by apply mirror_ready, li_mirror.
  enough ((recoverIndex w s0).1 = Ok tt) as E by (destruct (recoverIndex w s0) as [r s1]; cbn in E; by subst r).
  unfold recoverIndex, restoreMissingLeaves, mbind, M_bind, gets. destruct (FirstUnindexedLeaf_total (s_db s0)) as [n En]. rewrite En. unfold lifts at 1.
  destruct (FirstUnindexedLeaf_Ok _ _ (fun r Hr => proj1 (mirror_pos s0 r Hm Hr)) En) as (Hn & _ & _).
  destruct (proj1 Hw) as [size Esz]. unfold lifts. cbn [s0 s_leaves with_ready]. rewrite Esz. cbn [or_other]. apply ts_size_law in Esz.
  pose proof (IndexedSize_bound (s_db s0) size (fun r Hr => ltac:(rewrite Esz; exact (proj2 (mirror_pos s0 r Hm Hr)))) ltac:(lia)) as HB.
  destruct (Z.ltb_spec size (IndexedSize (s_db s0))); [lia|]. apply (restoreLoop_progress (Z.to_nat (size - n)) w size n s0 HT Hm); [done|done|done|done|lia].
Qed.

Lemma agent_restorable x raw env canonical :
  (forall s j, parse_json s = Some j -> nesting j <= 1000 -> json_valid s = true) ->
  submitted x raw env canonical -> is_agent env = true -> restorable raw.
Proof.
  intros HSJ Hx Hag. destruct (submitted_decoded _ _ _ _ Hx) as (_ & env' & Hd & HR).
  assert (env' = setOuterSignature env (sb_att x)) as -> by (destruct env as [e|e|e], env'; try done; cbn [signable_rel setOuterSignature] in HR; by subst).
  pose proof (submitted_built _ _ _ _ Hx) as Hb. destruct Hx as [_ [Hk Hk'] [Hs Hs'] [Hl Hl'] [Ha Ha'] HP HL]. exists (setOuterSignature env (sb_att x)).
  split_and!; [|done| |].
  - pose proof (built_valid _ _ _ _ _ _ (sb_att x) Hb Hk' Hs' Hl') as HV. unfold decoded in Hd. unfold decodeStoredEnvelope.
    destruct (stored_header raw) as [[v t]|]; [|done]. cbn [mbind option_bind] in Hd. destruct (unmarshal_as raw v t) as [e|]; [|done]. injection Hd as ->.
    cbn [mbind result_bind]. by rewrite HV.
  - apply LeafBytes_jcs in HL; [|by eapply built_json]. destruct (jcs_denotes _ _ HL) as (j' & Hj' & Hn). apply (HSJ raw j' Hj').
    rewrite <-nesting_norm, Hn, nesting_norm. enough (nesting (enc_signable (setOuterSignature env (sb_att x))) <= 7) by lia.
    destruct env as [e|e|e]; cbn [setOuterSignature enc_signable]; [apply envelope_nesting|apply envelope_nesting|done]; intros a; by apply event_nesting; [apply att2_nesting || apply att1_nesting].
  - destruct env; [constructor|constructor|done].
Qed.

(** C33: recovery restores the index.  From every state the log can reach — after a
    lost answer, a failed mirror write, a crash — a recovery that Tessera and the
    database do not disturb ends, succeeds, and leaves every leaf indexed and the
    service ready, provided the identity leaves can be stored; agent leaves
    always can, since SQLite accepts JSON nested up to a thousand levels. *)
Theorem recovery_restores s w :
  (forall s j, parse_json s = Some j -> nesting j <= 1000 -> json_valid s = true) ->
  TesseraLaws (w_tessera w) -> rtc tl_step empty_log s -> undisturbed w (s_leaves s) ->
  (forall raw, raw ∈ s_leaves s -> agent_leaf_of raw = None -> restorable raw) ->
  exists s', RecoverIndex w s = (Ok tt, s') /\ s_leaves s' = s_leaves s /\ s_indexReady s' = true /\
    forall i raw, s_leaves s !! i = Some raw -> exists r, GetEventByLeafIndex (s_db s') (Z.of_nat i) = Ok r /\ er_RawEvent r = raw.
Proof.
  intros HSJ HT Hs%log_inv_reachable Hw Hid. destruct (RecoverIndex_inv w s HT Hs) as (Hs1 & El & _ & HQ).
  assert ((RecoverIndex w s).1 = Ok tt) as E.
  { apply RecoverIndex_progress; [done..|]. apply Forall_forall. intros raw Hraw. destruct (agent_leaf_of raw) eqn:Ea; [|by apply Hid].
    pose proof (mi_sealed s (li_mirror s Hs)) as Hse. rewrite Forall_forall in Hse. destruct (Hse raw Hraw) as (x & env & c & Hx & _).
    rewrite (submitted_agent_leaf _ _ _ _ Hx) in Ea. destruct (is_agent env) eqn:Eag; [|done]. by apply (agent_restorable x raw env c). }
  destruct (HQ E) as [Hc Hr]. destruct (RecoverIndex w s) as [r s1]. cbn [fst snd] in *. subst r. exists s1. split_and!; [done..|].
  intros i raw Hi. rewrite <-El in Hi. pose proof (li_mirror s1 Hs1) as Hm. destruct (Hc (Z.of_nat i)) as (r & Hin & Er); [apply lookup_lt_Some in Hi; lia|].
  exists r. rewrite <-Er. split; [by apply GetEventByLeafIndex_unique; [apply (mi_unique s1 Hm)|]|].
  destruct (row_submitted s1 r Hm Hin) as (x & env & c & _ & Hl & _). rewrite Er, Nat2Z.id in Hl. congruence.
Qed.

(** ** A leaf that cannot be indexed *)

Lemma indexed_links s i raw env :
  mirror_inv s -> s_leaves s !! i = Some raw -> decoded raw = Some env -> View_IdentityID env <> "" -> indexed (s_db s) (Z.of_nat i) ->
  NoDup (View_LinkedAgentIDs env).
Proof.
  intros Hm Hi Hd Hid (r & Hr & Er). destruct (row_submitted s r Hm Hr) as (x & e0 & c & _ & Hl & _). rewrite Er, Nat2Z.id, Hi in Hl. injection Hl as Eraw.
  pose proof (mi_link_keys s Hm) as Hk. rewrite (mi_links s Hm) in Hk. apply list_elem_of_split in Hr as (l1 & l2 & E). rewrite E in Hk.
  rewrite flat_map_app in Hk. cbn [flat_map] in Hk. rewrite !fmap_app in Hk. apply NoDup_app in Hk as (_ & _ & Hk). apply NoDup_app in Hk as (Hk & _ & _).
  unfold row_links in Hk. rewrite <-Eraw, Hd in Hk. unfold env_links in Hk. apply String.eqb_neq in Hid. rewrite Hid, <-list_fmap_compose in Hk.
  by apply NoDup_fmap_1 in Hk.
Qed.

(** C38: one repeated id stops the log.  [Validate] accepts a link event that names
    an agent twice, but the fan-out table cannot hold it: once such an event is
    a leaf, in every later state the index is not ready, every recovery, every
    append and every fenced read fails, whatever Tessera, the database and the
    producers do. *)
Theorem repeated_link_stops_log s i raw env :
  rtc tl_step empty_log s -> s_leaves s !! i = Some raw -> decoded raw = Some env -> View_IdentityID env <> "" ->
  ~ NoDup (View_LinkedAgentIDs env) ->
  forall s', rtc tl_step s s' -> s_indexReady s' = false /\
    forall w, TesseraLaws (w_tessera w) ->
      is_ok (RecoverIndex w s').1 = false /\ is_ok (lockIndexedRead w s').1 = false /\
      forall conf uuid c body sig, is_ok (append conf w (s_db s') uuid c body sig s').1 = false.
Proof.
  intros Hreach Hi Hd Hid Hdup s' Hrun. pose proof (log_inv_reachable s Hreach) as Hs. pose proof (leaves_prefix s s' Hs Hrun) as [rest Hpre].
  pose proof (log_inv_reachable s' ltac:(by etrans)) as Hs'.
  assert (s_leaves s' !! i = Some raw) as Hi' by (rewrite Hpre; by apply lookup_app_l_Some).
  assert (forall s1, log_inv s1 -> s_leaves s1 = s_leaves s' -> ~ complete s1) as Hno.
  { intros s1 Hs1 El Hc. apply Hdup, (indexed_links s1 i raw env (li_mirror s1 Hs1)); [by rewrite El|done|done|]. apply Hc. rewrite El. apply lookup_lt_Some in Hi'. lia. }
  assert (s_indexReady s' = false) as Hnr. { destruct (s_indexReady s') eqn:Er; [|done]. exfalso. exact (Hno s' Hs' eq_refl (li_ready s' Hs' Er)). }
  split; [done|]. intros w HT.
  assert (is_ok (RecoverIndex w s').1 = false) as HR.
  { destruct (RecoverIndex_inv w s' HT Hs') as (H1 & H2 & _ & H3). destruct (RecoverIndex w s').1 as [[]|] eqn:E; [|done]. exfalso. exact (Hno _ H1 H2 (proj1 (H3 eq_refl))). }
  split_and!; [done| |].
  - unfold lockIndexedRead, mbind, M_bind, gets. by rewrite Hnr.
  - intros conf uuid c body sig. unfold append, mbind, M_bind. unfold lifts at 1. destruct (ProducerSig_Verify _ _ _ _); [|done].
    unfold lifts at 1. destruct uuid; [|done]. cbn [or_other]. unfold lifts at 1. destruct (ParseAndBuild _ _ _ _ _ _) as [[e can]|]; [|done].
    destruct (recoverBeforeAppend w s') as [r0 s1] eqn:ER. destruct (recoverBeforeAppend_inv w s' r0 s1 HT Hs' ER) as (H1 & H2 & _ & H3).
    destruct r0 as [[]|]; [|done]. exfalso. exact (Hno s1 H1 H2 (proj1 (H3 eq_refl))).
Qed.
End Spec.

(** ** A run

    A key is registered; an agent's registration is appended and its mirror write
    fails; the revocation that follows first restores the index. *)

#[local] Existing Instance latin_tables.
#[local] Existing Instance reference_jcs.
#[local] Existing Instance demo_schemes.

#[local] Instance run_pem : PemX509 := {| pem_Decode := fun s => Some ("PUBLIC KEY", s); x509_serial := fun _ => None |}.
#[local] Instance run_parser : KeyParser :=
  {| x509_ParsePKIXPublicKey := fun _ => Some (EcdsaKey tt); x509_ParsePKCS1PublicKey := fun _ => None |}.
#[local] Instance run_jose : Jose :=
  {| jose_verify := fun jws payload _ pub => utf8_ok jws && is_ok (VerifyWithPublicKey pub jws payload) |}.
#[local] Instance run_jose_laws : JoseLaws run_jose.
Proof. split. intros jws payload alg k H. by apply andb_true_iff in H as [H _]. Qed.
#[local] Instance run_sqlite : SqliteJSON := {| json_valid := fun s => match parse_json s with Some _ => true | None => false end |}.

Definition plain_tessera : Tessera := {|
  ts_Add := fun leaves e => (Added (Z.of_nat (length leaves)), leaves ++ [e]);
  ts_Reader := fun leaves => {| rd_IntegratedSize := Some (Z.of_nat (length leaves));
    rd_GetEntryBundle := fun b => Some (bundle_of leaves b); rd_FetchLeafHashes := fun i n => Some (hashes_of leaves i n) |}
|}.
#[local] Instance plain_tessera_laws : TesseraLaws plain_tessera.
Proof. split; cbn; intros; [constructor|congruence..]. Qed.

Definition run_world (o : db_outcome) : World := {| w_tessera := plain_tessera; w_store := fun _ => o; w_now := UnixMilli 1700000000000 |}.
Definition run_conf : AttestConf := {| ac_attestKM := demo_km; ac_attestKeyID := "k1"; ac_originRAID := "log" |}.

Definition run_sign (body : string) : string := match SignDetachedJWS demo_km "k1" demo_header body with Ok s => s | Err _ => "" end.

Definition run_body (type timestamp : string) : string :=
  Marshal (JObj [("timestamp", JStr timestamp); ("ansName", JStr "ans://v1.0.0.a.example"); ("ansId", JStr "ag-1"); ("eventType", JStr type);
                 ("agent", JObj [("host", JStr "A.example."); ("name", JStr "A"); ("version", JStr "1.0.0")])]).

Definition run_entry : KeyEntry :=
  {| ke_RaID := "ra-1"; ke_KeyID := "k1"; ke_Algorithm := "ES256"; ke_PublicKeyPEM := "pem"; ke_ValidFrom := UnixMilli 1600000000000;
     ke_ExpiresAt := UnixMilli 1800000000000; ke_Metadata := "" |}.

Definition run_keyed : LogState := Eval vm_compute in
  match Register empty_tldb (UnixMilli 1650000000000) run_entry with Ok (_, d) => with_db empty_log d | Err _ => empty_log end.

Definition run_append (o : db_outcome) (logID : string) (c : codec) (body : string) (s : LogState) : result serr AppendResult * LogState :=
  append run_conf (run_world o) (s_db s) (Some logID) c body (run_sign body) s.

Definition run_registered : LogState := Eval vm_compute in
  (run_append DbFailed "log-1" V2Codec (run_body TypeAgentRegistered "2025-01-02T03:04:05Z") run_keyed).2.
Definition run_revoked : LogState := Eval vm_compute in
  (run_append DbDone "log-2" V2Codec (run_body TypeAgentRevoked "2025-01-01T00:00:00Z") run_registered).2.

Lemma run_append_step o logID c body s : utf8_ok logID = true -> logID <> "" -> tl_step s (run_append o logID c body s).2.
Proof. intros H1 H2. unfold run_append. by apply step_append; [apply plain_tessera_laws|]. Qed.

Lemma run_keyed_reached : rtc tl_step empty_log run_keyed.
Proof.
  apply rtc_once. destruct (Register empty_tldb (UnixMilli 1650000000000) run_entry) as [[r d]|e] eqn:E; [|vm_compute in E; done].
  assert (run_keyed = with_db empty_log d) as ->; [|by eapply step_register]. vm_compute in E. by injection E as _ <-.
Qed.

Lemma run_registered_reached : rtc tl_step empty_log run_registered.
Proof.
  etrans; [apply run_keyed_reached|]. apply rtc_once.
  assert (run_registered = (run_append DbFailed "log-1" V2Codec (run_body TypeAgentRegistered "2025-01-02T03:04:05Z") run_keyed).2) as -> by (vm_compute; reflexivity).
  by apply run_append_step.
Qed.

Lemma run_revoked_reached : rtc tl_step empty_log run_revoked.
Proof.
  etrans; [apply run_registered_reached|]. apply rtc_once.
  assert (run_revoked = (run_append DbDone "log-2" V2Codec (run_body TypeAgentRevoked "2025-01-01T00:00:00Z") run_registered).2) as -> by (vm_compute; reflexivity).
  by apply run_append_step.
Qed.

Definition run_leaf (i : nat) : string := default "" (s_leaves run_revoked !! i).

Lemma index_mirrors_log_witness :
  exists r, GetEventByLeafIndex (s_db run_revoked) 1 = Ok r /\ er_RawEvent r = run_leaf 1.
Proof.
  destruct (index_mirrors_log run_revoked run_revoked_reached) as (_ & _ & _ & H & _). by apply (H eq_refl 1%nat).
Defined.

Lemma run_agents :
  run_leaf 0 <> run_leaf 1 /\ exists a b, s_leaves run_revoked !! 0%nat ≫= agent_leaf_of = Some a /\ s_leaves run_revoked !! 1%nat ≫= agent_leaf_of = Some b /\
    al_AnsName a = "ans://v1.0.0.a.example" /\ al_AnsName b = "ans://v1.0.0.a.example".
Proof.
  split; [by vm_compute|]. eexists _, _. split; [vm_compute; reflexivity|]. split; [vm_compute; reflexivity|]. done.
Qed.

Lemma log_lifecycle_witness :
  exists a b, s_leaves run_revoked !! 0%nat ≫= agent_leaf_of = Some a /\ s_leaves run_revoked !! 1%nat ≫= agent_leaf_of = Some b /\ follows a b.
Proof.
  destruct run_agents as (_ & a & b & Ha & Hb & Ea & Eb). exists a, b. split; [exact Ha|]. split; [exact Hb|].
  destruct (log_lifecycle run_revoked run_revoked_reached) as [_ H]. apply (H 0%nat 1%nat); [lia|exact Ha|exact Hb|]. right. by rewrite Ea, Eb.
Defined.

Lemma run_key k : k ∈ t_keys (s_db run_revoked) -> kr_PublicKeyPEM k = "pem" /\ kr_RaID k = "ra-1".
Proof. intros H. cbn in H. apply list_elem_of_singleton in H as ->. done. Qed.

Lemma log_authentic_witness :
  exists x h, sb_raID x = "ra-1" /\ VerifyDetachedWithPEM (sb_sig x) (sb_body x) "pem" = Ok h.
Proof.
  destruct (log_authentic run_revoked 0 (run_leaf 0) run_revoked_reached eq_refl) as (x & env & c & k & h & _ & _ & _ & _ & Hk & Hr & _ & Hv).
  destruct (run_key k Hk) as [Hp Hra]. exists x, h. rewrite <-Hr, <-Hp. split; [exact Hra|exact Hv].
Defined.

(** A retry of the registration after the agent's revocation. *)
Definition run_retry : result serr AppendResult * LogState :=
  run_append DbDone "log-9" V2Codec (run_body TypeAgentRegistered "2025-01-02T03:04:05Z") run_revoked.

Lemma run_retry_hyps :
  exists env canonical, ProducerSig_Verify (s_db run_revoked) (UnixMilli 1700000000000) (run_sign (run_body TypeAgentRegistered "2025-01-02T03:04:05Z"))
      (run_body TypeAgentRegistered "2025-01-02T03:04:05Z") = Ok ("ra-1", "k1") /\
    ParseAndBuild V2Codec (run_body TypeAgentRegistered "2025-01-02T03:04:05Z") "ra-1" "k1" (run_sign (run_body TypeAgentRegistered "2025-01-02T03:04:05Z")) "log-9" = Ok (env, canonical) /\
    innerEventBytes (run_leaf 0) = Ok canonical.
Proof. eexists _, _. split; [vm_compute; reflexivity|]. split; [vm_compute; reflexivity|]. vm_compute. reflexivity. Qed.

Lemma append_idempotent_witness :
  exists res, run_retry.1 = Ok res /\ res_Duplicate res = true /\ res_LeafIndex res = 0 /\ s_leaves run_retry.2 = s_leaves run_revoked.
Proof.
  destruct run_retry_hyps as (env & canonical & HV & HP & HI).
  pose proof (append_idempotent run_revoked run_conf (run_world DbDone) "log-9" V2Codec (run_body TypeAgentRegistered "2025-01-02T03:04:05Z")
    (run_sign (run_body TypeAgentRegistered "2025-01-02T03:04:05Z")) "ra-1" "k1" env canonical 0 (run_leaf 0) run_revoked_reached plain_tessera_laws HV HP eq_refl HI) as H.
  unfold run_retry, run_append. destruct (append _ _ _ _ _ _ _ _) as [r s']. destruct H as (Hl & Hres & Hok). destruct (Hok eq_refl) as [res ->].
  exists res. destruct (Hres res eq_refl) as (H1 & H2 & _). split_and!; [reflexivity|exact H1|exact H2|exact Hl].
Defined.

Lemma recovery_restores_witness :
  exists s', RecoverIndex (run_world DbDone) run_registered = (Ok tt, s') /\ s_indexReady s' = true.
Proof.
  destruct (recovery_restores run_registered (run_world DbDone)) as (s' & H1 & _ & H2 & _).
  - intros s j H _. unfold json_valid, run_sqlite. by rewrite H.
  - apply plain_tessera_laws.
  - apply run_registered_reached.
  - split_and!; try done; by eexists.
  - intros raw Hraw. apply list_elem_of_singleton in Hraw. subst raw. intros H. vm_compute in H. discriminate.
  - exists s'. split; [exact H1|exact H2].
Defined.

(** An identity is linked to the same agent twice in one event. *)
Definition run_link_body : string :=
  Marshal (JObj [("ansIds", JArr [JStr "ag-1"; JStr "ag-1"]); ("eventType", JStr "IDENTITY_LINKED"); ("identityId", JStr "id-1"); ("kind", JStr "did:web");
                 ("value", JStr "did:web:a.example"); ("timestamp", JStr "2025-01-02T03:04:05Z")]).

Definition run_linked : LogState := Eval vm_compute in (run_append DbDone "log-1" IdentityCodec run_link_body run_keyed).2.

Lemma run_linked_reached : rtc tl_step empty_log run_linked.
Proof.
  etrans; [apply run_keyed_reached|]. apply rtc_once.
  assert (run_linked = (run_append DbDone "log-1" IdentityCodec run_link_body run_keyed).2) as -> by (vm_compute; reflexivity).
  by apply run_append_step.
Qed.

Lemma run_linked_leaf :
  exists raw env, s_leaves run_linked !! 0%nat = Some raw /\ decoded raw = Some env /\ View_IdentityID env = "id-1" /\ View_LinkedAgentIDs env = ["ag-1"; "ag-1"].
Proof. eexists _, _. split; [vm_compute; reflexivity|]. split; [vm_compute; reflexivity|]. split; vm_compute; reflexivity. Qed.

(** No agent's event is accepted any more. *)
Lemma repeated_link_stops_log_witness :
  is_ok (run_append DbDone "log-2" V2Codec (run_body TypeAgentRegistered "2025-01-02T03:04:05Z") run_linked).1 = false.
Proof.
  destruct run_linked_leaf as (raw & env & H1 & H2 & H3 & H4).
  destruct (repeated_link_stops_log run_linked 0 raw env run_linked_reached H1 H2) with (s' := run_linked) as [_ H].
  - by rewrite H3.
  - rewrite H4. intros Hnd. apply NoDup_cons in Hnd as [Hn _]. apply Hn. by apply list_elem_of_singleton.
  - reflexivity.
  - destruct (H (run_world DbDone) plain_tessera_laws) as (_ & _ & H'). apply H'.
Defined.
