(* ===== verification/LogNote.v ===== *)
(** Checkpoint notes: [internal/lognote] and the two signers of
    [internal/tl/logstore] ([c2spsigner.go], [jwssigner.go]).

    A note is a text, an empty line and signature lines.  [None] stands for a nil
    key or a key without a curve; message texts are left out. *)
From stdpp Require Import gmap.
From S2P Require Import Prelude GoStrings GoTime GoEncoding GoJSON Jcs Sha256 P1363 Jws.

#[local] Set Default Goal Selector "!".
#[local] Open Scope Z_scope.

(** ** [base64.StdEncoding] *)

Definition std_of_url (c : ascii) : ascii := if Ascii.eqb c "-" then "+" else if Ascii.eqb c "_" then "/" else c.

(** Characters that only the other alphabet has become invalid ones. *)
Definition url_of_std (c : ascii) : ascii :=
  if Ascii.eqb c "+" then "-" else if Ascii.eqb c "/" then "_" else if Ascii.eqb c "-" || Ascii.eqb c "_" then "=" else c.

Definition padding (n : nat) : string := match (n mod 3)%nat with 1%nat => "==" | 2%nat => "=" | _ => "" end.

Definition std_EncodeToString (s : string) : string := str_map std_of_url (b64_EncodeToString s) +:+ padding (String.length s).

Definition raw_std_DecodeString (s : string) : option string := b64_decode (str_map url_of_std (strip_newlines s)).

Definition std_DecodeString (s : string) : option string :=
  let t := strip_newlines s in
  if negb (String.length t mod 4 =? 0)%nat then None else
  b64_decode (str_map url_of_std (TrimSuffixByte (TrimSuffixByte t "=") "=")).

(** ** Signature lines *)

Definition cNewline : ascii := "010".

Record Signature := { sg_Name : string; sg_Raw : string; sg_Blob : string }.

Definition keyHashLen : nat := 4.
Definition jwsMarker : string := "eyJhbGciOi".
Definition jwsClassifyMinLen : nat := keyHashLen + String.length jwsMarker.

Definition be_uint32 (s : string) : Z := be_value (bytes_of (str_take 4 s)).

Definition KeyHash (s : Signature) : option Z :=
  if (String.length (sg_Blob s) <? keyHashLen)%nat then None else Some (be_uint32 (sg_Blob s)).

Definition KeyHashHex (s : Signature) : string := match KeyHash s with Some h => OpaqueKeyIDFromHash h | None => "" end.

Definition Body (s : Signature) : string := if (String.length (sg_Blob s) <? keyHashLen)%nat then "" else str_drop keyHashLen (sg_Blob s).

Inductive SigType := SigTypeC2SP | SigTypeJWS.

Definition SigType_String (t : SigType) : string := match t with SigTypeJWS => "jws" | SigTypeC2SP => "c2sp" end.

Definition Classify (s : Signature) : SigType :=
  if (jwsClassifyMinLen <=? String.length (sg_Blob s))%nat && HasPrefix (str_drop keyHashLen (sg_Blob s)) jwsMarker then SigTypeJWS else SigTypeC2SP.

(** An em dash and a space. *)
Definition sigLinePrefix : string := String (chr 0xE2) (String (chr 0x80) (String (chr 0x94) " ")).

(** [strings.LastIndex(s, " ")], as the parts before and after. *)
Fixpoint cut_last_space (s : string) : option (string * string) :=
  match s with
  | EmptyString => None
  | String c s' =>
      match cut_last_space s' with
      | Some (a, b) => Some (String c a, b)
      | None => if Ascii.eqb c " " then Some ("", s') else None
      end
  end.

Definition parseSignatureLine (line : string) : option Signature :=
  let line := TrimSpace line in
  if negb (HasPrefix line sigLinePrefix) then None else
  '(name, b64) ← cut_last_space (str_drop (String.length sigLinePrefix) line);
  blob ← std_DecodeString b64;
  Some {| sg_Name := name; sg_Raw := b64; sg_Blob := blob |}.

(** [bytes.Index(raw, "\n\n")], as the bytes before and after the pair. *)
Fixpoint cut_separator (s : string) : option (string * string) :=
  match s with
  | String c s' =>
      match s' with
      | String d rest => if Ascii.eqb c cNewline && Ascii.eqb d cNewline then Some ("", rest) else
          '(a, b) ← cut_separator s'; Some (String c a, b)
      | EmptyString => None
      end
  | EmptyString => None
  end.

(** The body and the signatures; [None] when there is no separator. *)
Definition SplitNote (raw : string) : option (string * list Signature) :=
  '(before, sigBlock) ← cut_separator raw;
  Some (before +:+ String cNewline "", omap parseSignatureLine (Split (TrimRightByte sigBlock cNewline) cNewline)).

(** ** Checkpoints *)

Record Checkpoint := { ck_Origin : string; ck_Size : Z; ck_RootHash : string }.

Definition ParseUint64 (s : string) : option Z :=
  if String.eqb s "" then None else n ← digits_val 0 s; if n <? 2 ^ 64 then Some n else None.

Definition parseCheckpointBody (body : string) : option Checkpoint :=
  match Split (TrimRightByte body cNewline) cNewline with
  | origin :: sizeLine :: rootLine :: _ =>
      size ← ParseUint64 sizeLine;
      rootHash ← std_DecodeString rootLine;
      Some {| ck_Origin := origin; ck_Size := size; ck_RootHash := rootHash |}
  | _ => None
  end.

(** The text of a checkpoint: origin, size, root. *)
Definition checkpoint_text (origin : string) (n : Z) (root : string) : string :=
  let line s := s +:+ String cNewline "" in line origin +:+ line (Itoa n) +:+ line (std_EncodeToString root).

Inductive note_error := NoKeys | NoSeparator | BadBody | NotVerified.

Section Notes.
Context `{S : SigSchemes}.

(** [ecdsa.VerifyASN1]: a DER sequence of two non-negative integers and nothing
    else. *)
Definition VerifyASN1 (pub : ecdsa_key) (digest sig : string) : bool :=
  match asn1_Unmarshal (bytes_of sig) with
  | Ok (r, s, rest) => bool_decide (bytes_of sig = asn1_Marshal r s) && (0 <=? r) && (0 <=? s) && ecdsa_verify pub digest r s
  | Err _ => false
  end.

Definition VerifyC2SPECDSA (pub : option ecdsa_key) (body sig : string) : bool :=
  match pub with
  | None => false
  | Some pub =>
      if String.eqb sig "" then false else
      let digest := Sum256 body in
      if VerifyASN1 pub digest sig then true else
      if negb (Z.of_nat (String.length sig) =? 2 * CoordinateBytes pub) then false else
      match P1363ToScalars (bytes_of sig) with
      | Err _ => false
      | Ok (r, s) => ecdsa_verify pub digest r s
      end
  end.

(** The loop over the signature lines. *)
Fixpoint some_line_verifies (keysByHash : gmap string (option ecdsa_key)) (body : string) (sigs : list Signature) : bool :=
  match sigs with
  | [] => false
  | sig :: rest =>
      let keyhashHex := KeyHashHex sig in
      if String.eqb keyhashHex "" then some_line_verifies keysByHash body rest else
      match keysByHash !! keyhashHex with
      | None => some_line_verifies keysByHash body rest
      | Some pub => if negb (VerifyC2SPECDSA pub body (Body sig)) then some_line_verifies keysByHash body rest else true
      end
  end.

Definition VerifyCheckpointNote (raw : string) (keysByHash : gmap string (option ecdsa_key)) : result note_error Checkpoint :=
  if (size keysByHash =? 0)%nat then Err NoKeys else
  match SplitNote raw with
  | None => Err NoSeparator
  | Some (body, sigs) =>
      match parseCheckpointBody body with
      | None => Err BadBody
      | Some cp => if some_line_verifies keysByHash body sigs then Ok cp else Err NotVerified
      end
  end.

(** ** Signers *)

Record NoteSigner := { ns_km : KeyManager; ns_keyID : string; ns_origin : string; ns_keyhash : Z }.

(** [SPKIKeyHash4]; the encoding of a key is [x509.MarshalPKIXPublicKey]'s. *)
Definition SPKIKeyHash4 (MarshalPKIXPublicKey : public_key -> option string) (pub : public_key) : option string :=
  der ← MarshalPKIXPublicKey pub; Some (str_take 4 (Sum256 der)).

(** [NewC2SPECDSASigner] and [NewJWSCheckpointSigner], which differ in the type
    they return. *)
Definition NewNoteSigner (MarshalPKIXPublicKey : public_key -> option string) (km : KeyManager) (keyID origin : string) : option NoteSigner :=
  if String.eqb origin "" then None else
  match km_GetPublicKey km keyID with
  | Some (EcdsaKey k) =>
      hashBytes ← SPKIKeyHash4 MarshalPKIXPublicKey (EcdsaKey k);
      Some {| ns_km := km; ns_keyID := keyID; ns_origin := origin; ns_keyhash := be_uint32 hashBytes |}
  | _ => None
  end.

Definition NewC2SPECDSASigner := NewNoteSigner.
Definition NewJWSCheckpointSigner := NewNoteSigner.

Definition C2SP_Sign (s : NoteSigner) (msg : string) : option string := km_Sign (ns_km s) (ns_keyID s) (Sum256 msg).

(** [parseCheckpointBody] of [jwssigner.go]: size, root text and origin. *)
Definition jws_checkpoint_body (body : string) : option (Z * string * string) :=
  match Split (TrimRightByte body cNewline) cNewline with
  | origin :: sizeLine :: rootLine :: _ =>
      match Atoi sizeLine with
      | (n, None) => _ ← std_DecodeString rootLine; Some (n, rootLine, origin)
      | _ => None
      end
  | _ => None
  end.

Context `{J : JCS}.

Definition JWS_Sign (s : NoteSigner) (nowUnix : Z) (msg : string) : option string :=
  '(n, rootHash, origin) ← jws_checkpoint_body msg;
  if negb (String.eqb origin (ns_origin s)) then None else
  match SignStandardJWS (ns_km s) (ns_keyID s)
    {| h_Alg := ""; h_Kid := OpaqueKeyIDFromHash (ns_keyhash s); h_Typ := "JWT"; h_Timestamp := nowUnix; h_RAID := ""; h_Jwk := None; h_Crit := [] |}
    (JObj [("checkpointFormat", JStr "c2sp/v1"); ("origin", JStr origin); ("rootHash", JStr rootHash); ("timestamp", JNum (Itoa nowUnix));
           ("treesize", JNum (Itoa n))]) with
  | Ok jws => Some jws
  | Err _ => None
  end.
End Notes.
