(* ===== verification/LogNoteSpec.v ===== *)
(** What the checkpoint notes guarantee: the standard base64 reads back, a
    checkpoint's text reads back to what it states, and a note is accepted exactly
    when one of its lines carries a known key's signature over that text. *)
From stdpp Require Import gmap.
From S2P Require Import Prelude GoStrings GoTime GoEncoding GoJSON Jcs Sha256 P1363 Jws JwsSpec LogNote.

#[local] Set Default Goal Selector "!".
#[local] Open Scope Z_scope.

(** ** Base64 *)

(** A digit of the standard alphabet. *)
Definition std_digit (d : Z) : ascii := std_of_url (b64_digit d).

(** What every character of an encoding is, padding included. *)
Definition std_char (c : ascii) : bool :=
  is_ascii_byte c && negb (is_space_byte c) && negb (Ascii.eqb " " c) && negb (Ascii.eqb cNewline c) && negb ((byteZ c =? 10) || (byteZ c =? 13)).

Definition std_digit_ok (d : Z) : bool :=
  std_char (std_digit d) && negb (Ascii.eqb "=" (std_digit d)) && Ascii.eqb (url_of_std (std_digit d)) (b64_digit d).

Lemma std_digit_spec d : 0 <= d < 64 -> std_digit_ok d = true.
Proof. by apply (forall_below 64 std_digit_ok). Qed.

Lemma TrimSuffixByte_skip d t c : Ascii.eqb c d = false -> TrimSuffixByte (String d t) c = String d (TrimSuffixByte t c).
Proof. intros H. destruct t; cbn [TrimSuffixByte]; by rewrite ?H. Qed.

Lemma padding_step n : padding (3 + n) = padding n.
Proof. unfold padding. by rewrite <-(Nat.Div0.add_mod_idemp_l 3 n 3). Qed.

(** An encoding, as the decoder reads it: [u] in the other alphabet. *)
Record reads_as (e u : string) : Prop := {
  ra_chars : str_forall std_char e = true;
  ra_trim : str_map url_of_std (TrimSuffixByte (TrimSuffixByte e "=") "=") = u
}.

Lemma reads_as_digit d e u : 0 <= d < 64 -> reads_as e u -> reads_as (String (std_digit d) e) (String (b64_digit d) u).
Proof.
  intros H%std_digit_spec [Hc Ht]. unfold std_digit_ok in H. b2p. split.
  - cbn [str_forall]. by rewrite Hc, andb_true_r.
  - rewrite !TrimSuffixByte_skip by done. cbn [str_map]. rewrite Ht. f_equal. by apply Ascii.eqb_eq.
Qed.

Lemma std_reads_as s : reads_as (std_EncodeToString s) (b64_EncodeToString s) /\ (String.length (std_EncodeToString s) mod 4 = 0)%nat.
Proof.
  induction s as [|a|a b|a b c s [IH1 IH2]] using string_ind3; [by split| | |].
  - pose proof (byteZ_range a). split; [|done]. do 2 (apply reads_as_digit; [zlia|]). done.
  - pose proof (byteZ_range a). pose proof (byteZ_range b). split; [|done]. do 3 (apply reads_as_digit; [zlia|]). done.
  - pose proof (byteZ_range a). pose proof (byteZ_range b). pose proof (byteZ_range c).
    assert (std_EncodeToString (String a (String b (String c s))) = String (std_digit (byteZ a / 4)) (String (std_digit (byteZ a mod 4 * 16 + byteZ b / 16))
      (String (std_digit (byteZ b mod 16 * 4 + byteZ c / 64)) (String (std_digit (byteZ c mod 64)) (std_EncodeToString s))))) as ->.
    { unfold std_EncodeToString. cbn [b64_EncodeToString str_map String.length]. by rewrite <-(padding_step (String.length s)). }
    split; [do 4 (apply reads_as_digit; [zlia|]); done|]. cbn [String.length].
    transitivity (String.length (std_EncodeToString s) mod 4)%nat; [|done]. symmetry. exact (Nat.Div0.add_mod_idemp_l 4 (String.length (std_EncodeToString s)) 4).
Qed.

Lemma std_chars s : str_forall std_char (std_EncodeToString s) = true.
Proof. apply (proj1 (std_reads_as s)). Qed.

Lemma std_char_clean s : str_forall std_char s = true -> strip_newlines s = s /\ ContainsByte s cNewline = false /\ ContainsByte s " " = false /\ is_ascii_str s = true.
Proof.
  induction s as [|c s IH]; [done|]. cbn [str_forall]. intros [Hc Hs]%andb_true_iff. destruct (IH Hs) as (I1 & I2 & I3 & I4).
  unfold std_char in Hc. apply andb_true_iff in Hc as [Hc Hn%negb_true_iff]. b2p. split_and!.
  - cbn [strip_newlines]. case_if; [|by rewrite I1]. apply orb_true_iff in Heqb as [?|?]; b2p; lia.
  - rewrite ContainsByte_cons. by rewrite I2, orb_false_r.
  - rewrite ContainsByte_cons. by rewrite I3, orb_false_r.
  - unfold is_ascii_str in *. cbn [str_forall]. by rewrite I4, andb_true_r.
Qed.

Lemma std_base64_roundtrip s : std_DecodeString (std_EncodeToString s) = Some s.
Proof.
  destruct (std_reads_as s) as [[Hc Ht] Hl]. unfold std_DecodeString. rewrite (proj1 (std_char_clean _ Hc)), Hl, Ht. cbn.
  pose proof (b64_roundtrip s) as H. unfold b64_DecodeString in H. by rewrite b64_strip in H.
Qed.

Lemma std_nonempty s : s <> "" -> std_EncodeToString s <> "".
Proof. destruct s as [|a [|b [|c s]]]; done. Qed.

(** ** Lines *)

Lemma TrimRightByte_app s t c : TrimRightByte t c <> "" -> TrimRightByte (s +:+ t) c = s +:+ TrimRightByte t c.
Proof.
  intros Ht. induction s as [|d s IH]; [done|]. rewrite !app_cons_s. cbn [TrimRightByte]. rewrite IH.
  destruct (s +:+ TrimRightByte t c) as [|x y] eqn:E; [by apply app_eq_nil_s in E as [_ E]|done].
Qed.

Lemma TrimRightByte_line w c : ContainsByte w c = false -> TrimRightByte (w +:+ String c "") c = w.
Proof.
  induction w as [|d w IH].
  - intros _. rewrite app_nil_l_s. cbn. by rewrite Ascii.eqb_refl.
  - rewrite ContainsByte_cons, orb_false_iff. intros [H1 H2]. rewrite app_cons_s. cbn [TrimRightByte]. rewrite (IH H2). destruct w; [by rewrite H1|done].
Qed.

Lemma TrimRightByte_lines s w c : w <> "" -> ContainsByte w c = false -> TrimRightByte (s +:+ w +:+ String c "") c = s +:+ w.
Proof. intros Hw Hc. rewrite TrimRightByte_app; rewrite TrimRightByte_line by done; done. Qed.

Lemma cut_separator_cons c d r :
  cut_separator (String c (String d r)) =
  if Ascii.eqb c cNewline && Ascii.eqb d cNewline then Some ("", r) else '(a, b) ← cut_separator (String d r); Some (String c a, b).
Proof. done. Qed.

(** A byte that is no newline is passed over. *)
Lemma cut_separator_skip c s a b : Ascii.eqb c cNewline = false -> cut_separator s = Some (a, b) -> cut_separator (String c s) = Some (String c a, b).
Proof. intros Hc Hs. destruct s as [|d r]; [done|]. rewrite cut_separator_cons, Hc, Hs. done. Qed.

Lemma cut_separator_app w s a b : ContainsByte w cNewline = false -> cut_separator s = Some (a, b) -> cut_separator (w +:+ s) = Some (w +:+ a, b).
Proof.
  intros Hw Hs. induction w as [|c w IH]; [done|]. rewrite ContainsByte_cons, orb_false_iff, Ascii.eqb_sym in Hw. rewrite !app_cons_s.
  apply cut_separator_skip; [apply Hw|apply IH, Hw].
Qed.

Lemma cut_separator_end w r : ContainsByte w cNewline = false -> cut_separator (w +:+ String cNewline (String cNewline r)) = Some (w, r).
Proof.
  intros Hw. pose proof (cut_separator_app w (String cNewline (String cNewline r)) "" r Hw eq_refl) as H. by rewrite app_nil_r_s in H.
Qed.

Lemma cut_separator_line w x y a b :
  ContainsByte w cNewline = false -> x <> "" -> ContainsByte x cNewline = false -> cut_separator (x +:+ y) = Some (a, b) ->
  cut_separator (w +:+ String cNewline (x +:+ y)) = Some (w +:+ String cNewline a, b).
Proof.
  intros Hw Hne Hx Hc. apply cut_separator_app; [done|]. destruct x as [|d x]; [done|]. rewrite ContainsByte_cons, orb_false_iff, Ascii.eqb_sym in Hx.
  rewrite app_cons_s in *. rewrite cut_separator_cons, (proj1 Hx), andb_false_r, Hc. done.
Qed.

Lemma Itoa_line n : 0 <= n -> ContainsByte (Itoa n) cNewline = false.
Proof. intros H%Itoa_digits. by apply (ContainsByte_forall is_digit). Qed.

Lemma std_line s : ContainsByte (std_EncodeToString s) cNewline = false.
Proof. by apply (std_char_clean _ (std_chars s)). Qed.

Lemma ParseUint64_Itoa n : 0 <= n < 2 ^ 64 -> ParseUint64 (Itoa n) = Some n.
Proof.
  intros H. unfold ParseUint64. destruct (String.eqb_spec (Itoa n) "") as [E|_]; [by apply Itoa_nonempty in E|]. rewrite Itoa_val by lia. cbn. case_if; [done|b2p; lia].
Qed.

(** What a checkpoint states. *)
Definition statable (origin : string) (n : Z) (root : string) : Prop :=
  origin <> "" /\ ContainsByte origin cNewline = false /\ 0 <= n < 2 ^ 64 /\ root <> "".

Lemma checkpoint_text_split origin n root :
  statable origin n root ->
  Split (TrimRightByte (checkpoint_text origin n root) cNewline) cNewline = [origin; Itoa n; std_EncodeToString root].
Proof.
  intros (Ho & Hn & Hz & Hr). unfold checkpoint_text. rewrite !app_assoc_s, !app_cons_s, !app_nil_l_s.
  transitivity (Split (origin +:+ String cNewline (Itoa n +:+ String cNewline (std_EncodeToString root))) cNewline).
  - f_equal. pose proof (TrimRightByte_lines (origin +:+ String cNewline (Itoa n +:+ String cNewline "")) (std_EncodeToString root) cNewline
      (std_nonempty _ Hr) (std_line root)) as H. by rewrite !app_assoc_s, !app_cons_s, !app_assoc_s, !app_cons_s, !app_nil_l_s in H.
  - rewrite Split_app by done. rewrite Split_app by (apply Itoa_line; lia). by rewrite Split_nosep by apply std_line.
Qed.

(** A checkpoint's text reads back to what it states. *)
Lemma checkpoint_body_roundtrip origin n root :
  statable origin n root -> parseCheckpointBody (checkpoint_text origin n root) = Some {| ck_Origin := origin; ck_Size := n; ck_RootHash := root |}.
Proof.
  intros H. unfold parseCheckpointBody. rewrite checkpoint_text_split by done. destruct H as (_ & _ & Hz & _).
  rewrite ParseUint64_Itoa by done. cbn [mbind option_bind]. by rewrite std_base64_roundtrip.
Qed.

(** ** Signature lines *)

(** How a signer's line is written: its name, then the key hash and the signature. *)
Definition signature_line (name blob : string) : string := sigLinePrefix +:+ name +:+ " " +:+ std_EncodeToString blob.

Definition be4 (h : Z) : string := string_of_bytes [h / 16777216; h / 65536 mod 256; h / 256 mod 256; h mod 256].

Lemma be4_value h rest : 0 <= h < 2 ^ 32 -> be_uint32 (be4 h +:+ rest) = h.
Proof.
  intros H. unfold be_uint32. change (str_take 4 (be4 h +:+ rest)) with (be4 h). unfold be4.
  cbn [string_of_bytes bytes_of]. rewrite !byteZ_chr by zlia. unfold be_value. cbn [fold_left]. zlia.
Qed.

Lemma cut_last_space_app name s : ContainsByte s " " = false -> cut_last_space (name +:+ String " " s) = Some (name, s).
Proof.
  intros Hs. assert (cut_last_space s = None) as Hn.
  { clear name. induction s as [|c s IH]; [done|]. rewrite ContainsByte_cons, orb_false_iff, Ascii.eqb_sym in Hs. cbn [cut_last_space].
    rewrite IH by apply Hs. by rewrite (proj1 Hs). }
  induction name as [|c name IH]; [rewrite app_nil_l_s; cbn [cut_last_space]; by rewrite Hn|]. rewrite app_cons_s. cbn [cut_last_space]. by rewrite IH.
Qed.

(** The em dash is one rune, and no space. *)
Lemma TrimSpace_dash s :
  is_ascii_str s = true -> (forall d, last_byte s = Some d -> is_space_byte d = false) -> s <> "" -> TrimSpace (sigLinePrefix +:+ s) = sigLinePrefix +:+ s.
Proof.
  intros Ha Hl Hne. set (t := String " " s). assert (is_ascii_str t = true) as Hat by (unfold t, is_ascii_str in *; cbn [str_forall]; by rewrite Ha).
  assert (last_byte t = last_byte s) as Elt by (unfold t; destruct s; done).
  assert (last_byte s <> None) as Hls. { clear -Hne. induction s as [|c [|d s] IH]; [done|done|by apply IH]. }
  change (sigLinePrefix +:+ s) with (String (chr 0xE2) (String (chr 0x80) (String (chr 0x94) t))).
  assert (DecodeRune (String (chr 0xE2) (String (chr 0x80) (String (chr 0x94) t))) = (0x2014, 3%nat)) as HD by reflexivity.
  unfold TrimSpace. cbn [trim_left_from]. rewrite HD. change (IsSpace 0x2014) with false. cbn iota beta. unfold trim_right, trim_right_len, range_str.
  cbn [range_from]. rewrite HD. cbn [pred fold_left]. change (IsSpace 0x2014) with false. cbn iota. rewrite range_from_ascii by done.
  rewrite fold_trim_ascii; [|by rewrite Elt|intros d Hd; apply Hl; congruence]. cbn [Nat.add]. cbn [str_take]. by rewrite str_take_all.
Qed.

Lemma parseSignatureLine_roundtrip name blob :
  is_ascii_str name = true -> blob <> "" ->
  parseSignatureLine (signature_line name blob) = Some {| sg_Name := name; sg_Raw := std_EncodeToString blob; sg_Blob := blob |}.
Proof.
  intros Hn Hb. destruct (std_char_clean _ (std_chars blob)) as (_ & _ & Hsp & Ha). pose proof (std_nonempty _ Hb) as Hne.
  unfold parseSignatureLine, signature_line. rewrite TrimSpace_dash.
  - rewrite HasPrefix_app, str_drop_app. cbn [negb]. rewrite app_cons_s, app_nil_l_s, cut_last_space_app by done. cbn [mbind option_bind].
    by rewrite std_base64_roundtrip.
  - apply ascii_app; [done|]. by apply ascii_app.
  - intros d. rewrite last_byte_app by by destruct (std_EncodeToString blob). rewrite last_byte_app by done. intros Hd.
    pose proof (std_chars blob) as Hc. clear -Hc Hd. induction (std_EncodeToString blob) as [|c s IH]; [done|]. cbn [str_forall] in Hc.
    apply andb_true_iff in Hc as [Hc Hs]. destruct s; [|by apply IH]. injection Hd as ->. unfold std_char in Hc. b2p. done.
  - by destruct name.
Qed.

(** ** Notes *)

(** A note: the checkpoint, an empty line, the signature lines. *)
Definition note_text (origin : string) (n : Z) (root : string) (lines : list string) : string :=
  checkpoint_text origin n root +:+ String cNewline (Join lines (String cNewline "") +:+ String cNewline "").

Lemma Join_last_line l sep w : l <> [] -> last l = Some w -> exists s, Join l (String sep "") = s +:+ w.
Proof.
  induction l as [|x [|y l] IH]; [done|intros _ [= ->]; by exists ""|]. intros _ Hl. destruct IH as [s Hs]; [done|done|].
  exists (x +:+ String sep s). rewrite Join_cons by done. by rewrite Hs, app_assoc_s, app_cons_s.
Qed.

Lemma cut_separator_checkpoint origin n root r :
  statable origin n root ->
  exists before, cut_separator (checkpoint_text origin n root +:+ String cNewline r) = Some (before, r) /\ before +:+ String cNewline "" = checkpoint_text origin n root.
Proof.
  intros (Ho & Hn & Hz & Hr). exists (origin +:+ String cNewline (Itoa n +:+ String cNewline (std_EncodeToString root))).
  unfold checkpoint_text. rewrite !app_assoc_s, !app_cons_s, !app_nil_l_s. split; [|by rewrite ?app_assoc_s, ?app_cons_s, ?app_assoc_s, ?app_cons_s, ?app_assoc_s].
  rewrite ?app_assoc_s, ?app_cons_s, ?app_assoc_s, ?app_cons_s, ?app_nil_l_s.
  apply cut_separator_line; [done|apply Itoa_nonempty|apply Itoa_line; lia|].
  apply cut_separator_line; [apply Itoa_line; lia|by apply std_nonempty|apply std_line|]. apply cut_separator_end, std_line.
Qed.

Lemma SplitNote_note origin n root lines :
  statable origin n root -> lines <> [] -> Forall (fun l => l <> "" /\ ContainsByte l cNewline = false) lines ->
  SplitNote (note_text origin n root lines) = Some (checkpoint_text origin n root, omap parseSignatureLine lines).
Proof.
  intros Hs Hne Hl. unfold SplitNote, note_text. destruct (cut_separator_checkpoint origin n root (Join lines (String cNewline "") +:+ String cNewline "") Hs) as (before & -> & Eb).
  cbn [mbind option_bind]. rewrite Eb. repeat f_equal.
  destruct (last lines) as [w|] eqn:Ew; [|by apply last_None in Ew]. destruct (Join_last_line lines cNewline w Hne Ew) as [s Ej].
  assert (w <> "" /\ ContainsByte w cNewline = false) as [Hw1 Hw2]. { rewrite Forall_forall in Hl. apply Hl. by apply last_Some_elem_of. }
  rewrite Ej, app_assoc_s, TrimRightByte_lines, <-Ej by done. apply Split_Join; [done|]. eapply Forall_impl; [exact Hl|]. by intros l [_ H].
Qed.

Section Notes.
Context `{S : SigSchemes}.

Lemma some_line_verifies_spec keys body sigs :
  some_line_verifies keys body sigs = true <->
  exists sig h pub, sig ∈ sigs /\ KeyHash sig = Some h /\ keys !! OpaqueKeyIDFromHash h = Some pub /\ VerifyC2SPECDSA pub body (Body sig) = true.
Proof.
  assert (forall sig, KeyHashHex sig = "" <-> KeyHash sig = None) as Hhex.
  { intros sig. unfold KeyHashHex. destruct (KeyHash sig); [|done]. split; [|done]. intros E%(f_equal String.length).
    unfold OpaqueKeyIDFromHash in E. by rewrite hex_EncodeToString_length in E. }
  induction sigs as [|sig sigs IH]; cbn [some_line_verifies].
  { split; [done|]. by intros (sig & h & pub & ?%elem_of_nil & _). }
  assert ((some_line_verifies keys body sigs = true \/ exists h pub, KeyHash sig = Some h /\ keys !! OpaqueKeyIDFromHash h = Some pub /\ VerifyC2SPECDSA pub body (Body sig) = true) <->
    exists sig0 h pub, sig0 ∈ sig :: sigs /\ KeyHash sig0 = Some h /\ keys !! OpaqueKeyIDFromHash h = Some pub /\ VerifyC2SPECDSA pub body (Body sig0) = true) as <-.
  { rewrite IH. split.
    - intros [(x & h & pub & Hx & H)|(h & pub & H)]; [exists x, h, pub|exists sig, h, pub]; (split; [set_solver|done]).
    - intros (x & h & pub & [->|Hx]%elem_of_cons & H); [right; eauto|left]. exists x, h, pub. done. }
  destruct (String.eqb_spec (KeyHashHex sig) "") as [E|E].
  { apply Hhex in E. rewrite E. split; [by left|]. by intros [?|(h & pub & ? & _)]. }
  unfold KeyHashHex in *. destruct (KeyHash sig) as [h|]; [|done]. destruct (keys !! OpaqueKeyIDFromHash h) as [pub|] eqn:Ek.
  - destruct (VerifyC2SPECDSA pub body (Body sig)) eqn:Ev; cbn [negb]; [split; [intros _; right; eauto|done]|].
    split; [by left|]. intros [?|(h' & pub' & [= <-] & ? & ?)]; [done|]. congruence.
  - split; [by left|]. intros [?|(h' & pub' & [= <-] & ? & _)]; [done|]. congruence.
Qed.

(** A signature the verifier takes: over the text, DER or fixed width. *)
Definition signs (pub : ecdsa_key) (body sig : string) : Prop :=
  exists r s, ecdsa_verify pub (Sum256 body) r s = true /\
    (bytes_of sig = asn1_Marshal r s /\ 0 <= r /\ 0 <= s \/
     Z.of_nat (String.length sig) = 2 * CoordinateBytes pub /\ P1363ToScalars (bytes_of sig) = Ok (r, s)).

Lemma VerifyC2SPECDSA_signs pub body sig : VerifyC2SPECDSA pub body sig = true -> exists k, pub = Some k /\ signs k body sig.
Proof.
  unfold VerifyC2SPECDSA. destruct pub as [k|]; [|done]. case_if; [done|]. intros H. exists k. split; [done|].
  destruct (VerifyASN1 k (Sum256 body) sig) eqn:E.
  - unfold VerifyASN1 in E. destruct (asn1_Unmarshal _) as [[[r s] rest]|]; [|done]. b2p. exists r, s. split; [done|]. left. done.
  - case_if_in H; [done|]. b2p. destruct (P1363ToScalars (bytes_of sig)) as [[r s]|] eqn:Ep; [|done]. exists r, s. split; [done|]. by right.
Qed.

Lemma cut_separator_split s a b : cut_separator s = Some (a, b) -> s = a +:+ String cNewline (String cNewline b).
Proof.
  revert a. induction s as [|c s IH]; [done|]. intros a. destruct s as [|d r]; [done|]. rewrite cut_separator_cons.
  case_if.
  - apply andb_true_iff in Heqb0 as [->%Ascii.eqb_eq ->%Ascii.eqb_eq]. by intros [= <- <-].
  - destruct (cut_separator (String d r)) as [[a' b']|] eqn:E; [|done]. intros [= <- <-]. rewrite app_cons_s. f_equal. by apply IH.
Qed.

(** C15: an accepted checkpoint is the log's word.  Whatever bytes are presented as
    a note, a checkpoint is returned only if the note is a text, an empty line and
    signature lines, the text states the origin, size and root returned, and one of
    the lines carries, under the hash of a key in the verifier's set, that key's
    signature over the text. *)
Theorem checkpoint_note_sound raw keys cp :
  VerifyCheckpointNote raw keys = Ok cp ->
  exists body block line sig h pub,
    raw = body +:+ String cNewline block /\ parseCheckpointBody body = Some cp /\
    line ∈ Split (TrimRightByte block cNewline) cNewline /\ parseSignatureLine line = Some sig /\ KeyHash sig = Some h /\
    keys !! OpaqueKeyIDFromHash h = Some (Some pub) /\ signs pub body (Body sig).
Proof.
  unfold VerifyCheckpointNote. case_if; [done|]. unfold SplitNote. destruct (cut_separator raw) as [[before block]|] eqn:Ec; [|done]. cbn [mbind option_bind].
  destruct (parseCheckpointBody _) as [cp'|] eqn:Eb; [|done]. destruct (some_line_verifies _ _ _) eqn:Ev; [|done]. intros [= ->].
  apply some_line_verifies_spec in Ev as (sig & h & pub & Hsig & Hh & Hk & Hv). apply VerifyC2SPECDSA_signs in Hv as (k & -> & Hs).
  apply list_elem_of_omap in Hsig as (line & Hl & Hp). exists (before +:+ String cNewline ""), block, line, sig, h, k. split_and!; try done.
  apply cut_separator_split in Ec as ->. by rewrite app_assoc_s.
Qed.

(** A key manager returns DER signatures that the public key verifies. *)
Definition der_signer (km : KeyManager) (keyID : string) (pub : ecdsa_key) : Prop :=
  forall digest raw, km_Sign km keyID digest = Some raw ->
    exists r s k, 0 < r < 256 ^ Z.of_nat k /\ 0 < s < 256 ^ Z.of_nat k /\ Z.of_nat k <= 1000000 /\ bytes_of raw = asn1_Marshal r s /\ ecdsa_verify pub digest r s = true.

Lemma C2SP_Sign_verifies sg pub msg sig : der_signer (ns_km sg) (ns_keyID sg) pub -> C2SP_Sign sg msg = Some sig -> VerifyC2SPECDSA (Some pub) msg sig = true.
Proof.
  intros Hd Hs. apply Hd in Hs as (r & s & k & Hr & Hs & Hk & Hb & Hv). unfold VerifyC2SPECDSA. destruct (String.eqb_spec sig "") as [->|_]; [done|].
  unfold VerifyASN1. rewrite Hb, (asn1_roundtrip r s k) by done. rewrite bool_decide_true by done. rewrite Hv.
  by rewrite (proj2 (Z.leb_le 0 r)), (proj2 (Z.leb_le 0 s)) by lia.
Qed.

(** C29: a signed checkpoint reads back.  A note that states an origin, a size and a
    root, with among its lines one the log's own signer wrote — the key hash and
    the signature its key manager returned for the text — is accepted by whoever
    holds that key, and gives back exactly that origin, size and root. *)
Theorem checkpoint_note_roundtrip (sg : NoteSigner) pub name sig origin n root lines keys :
  statable origin n root -> is_ascii_str name = true -> 0 <= ns_keyhash sg < 2 ^ 32 -> der_signer (ns_km sg) (ns_keyID sg) pub ->
  C2SP_Sign sg (checkpoint_text origin n root) = Some sig ->
  Forall (fun l => l <> "" /\ ContainsByte l cNewline = false) lines -> signature_line name (be4 (ns_keyhash sg) +:+ sig) ∈ lines ->
  keys !! OpaqueKeyIDFromHash (ns_keyhash sg) = Some (Some pub) ->
  VerifyCheckpointNote (note_text origin n root lines) keys = Ok {| ck_Origin := origin; ck_Size := n; ck_RootHash := root |}.
Proof.
  intros Hst Hna Hh Hd Hv Hl Hin Hk. apply (C2SP_Sign_verifies _ pub) in Hv; [|done]. unfold VerifyCheckpointNote.
  assert (lines <> []) as Hne by (intros ->; by apply elem_of_nil in Hin).
  destruct (Nat.eqb_spec (size keys) 0) as [E|_]; [apply map_size_empty_iff in E; by rewrite E, lookup_empty in Hk|].
  rewrite SplitNote_note, checkpoint_body_roundtrip by done.
  assert (some_line_verifies keys (checkpoint_text origin n root) (omap parseSignatureLine lines) = true) as ->; [|done].
  apply some_line_verifies_spec. set (blob := be4 (ns_keyhash sg) +:+ sig) in *. eexists _, (ns_keyhash sg), (Some pub).
  split; [apply list_elem_of_omap; exists (signature_line name blob); split; [done|]; by apply parseSignatureLine_roundtrip|].
  unfold KeyHash, Body. cbn [sg_Blob]. assert ((String.length blob <? keyHashLen)%nat = false) as ->.
  { apply Nat.ltb_ge. unfold blob. rewrite length_app_s. unfold be4. rewrite length_string_of_bytes. unfold keyHashLen. cbn. lia. }
  split_and!; [by f_equal; apply be4_value|done|exact Hv].
Qed.
End Notes.

(** ** A note *)

#[local] Existing Instance demo_schemes.

Definition note_signer : NoteSigner := {| ns_km := demo_km; ns_keyID := "k1"; ns_origin := "log"; ns_keyhash := 7 |}.
Definition note_sig : string := string_of_bytes (asn1_Marshal 7 9).
Definition note_lines : list string := ["-- a comment"; signature_line "log" (be4 7 +:+ note_sig)].
Definition note_keys : gmap string (option ecdsa_key) := {[ OpaqueKeyIDFromHash 7 := Some tt ]}.
Definition demo_note : string := note_text "log" 3 "root" note_lines.

Lemma checkpoint_note_roundtrip_witness :
  VerifyCheckpointNote demo_note note_keys = Ok {| ck_Origin := "log"; ck_Size := 3; ck_RootHash := "root" |}.
Proof.
  apply (checkpoint_note_roundtrip note_signer tt "log" note_sig).
  - repeat split; done.
  - reflexivity.
  - cbn. lia.
  - intros digest raw [= <-]. exists 7, 9, 1%nat. split; [lia|]. split; [lia|]. split; [lia|]. split; [vm_compute; reflexivity|reflexivity].
  - reflexivity.
  - repeat constructor; done.
  - right. left.
  - reflexivity.
Defined.

Lemma demo_note_accepted : VerifyCheckpointNote demo_note note_keys = Ok {| ck_Origin := "log"; ck_Size := 3; ck_RootHash := "root" |}.
Proof. vm_compute. reflexivity. Qed.

Lemma checkpoint_note_sound_witness : exists body block, demo_note = body +:+ String cNewline block /\ parseCheckpointBody body <> None.
Proof.
  destruct (checkpoint_note_sound demo_note note_keys _ demo_note_accepted) as (body & block & line & sig & h & pub & H1 & H2 & _).
  exists body, block. split; [exact H1|]. rewrite H2. discriminate.
Defined.
