(* ===== verification/Receipt.v ===== *)
(** SCITT receipts and status tokens, [internal/tl/receipt].

    A Go [[]byte] is a byte [string].  [any] is the dynamic type of decoded CBOR
    values; a Go map is an association list in iteration order.  The CBOR
    library is third-party code: its calls are the fields of the class [CBOR].
    The ECDSA check is the class [EcdsaScheme], instantiated by [P256]. *)
From S2P Require Import Prelude GoStrings GoTime Sha256 Merkle P256 P1363.

#[local] Set Default Goal Selector "!".
#[local] Open Scope Z_scope.

(** ** Constants *)

Definition labelAlg : Z := 1.
Definition labelContentType : Z := 3.
Definition labelKID : Z := 4.
Definition labelCWTClaims : Z := 15.
Definition labelVDS : Z := 395.
Definition labelVDP : Z := 396.
Definition algES256 : Z := -7.
Definition vdsRFC9162SHA256 : Z := 1.
Definition cwtIss : Z := 1.
Definition cwtIat : Z := 6.
Definition inclusionProofTreeSize : Z := -1.
Definition inclusionProofLeafIndex : Z := -2.
Definition inclusionProofHashPath : Z := -3.
Definition inclusionProofRootHash : Z := -4.
Definition StatusTokenMediaType : string := "application/ans-status-token+cbor".
Definition DefaultStatusTokenTTL : Duration := 1 * Hour.

(** ** Dynamic values *)

Inductive int_kind := KInt | KInt8 | KInt16 | KInt32 | KInt64
                    | KUint | KUint8 | KUint16 | KUint32 | KUint64.

(** [AOther] stands for the types the code never inspects (floats, booleans,
    big integers, nil). *)
Inductive any :=
| AInt (k : int_kind) (n : Z)
| ABytes (b : string)
| AString (s : string)
| AByteSlices (l : list string)
| AList (l : list any)
| AMapAny (m : list (any * any))
| AMapInt (m : list (Z * any))
| ATag (number : Z) (content : any)
| AOther.

(** The calls of [github.com/fxamacker/cbor/v2], one per target type; [None] is
    a decoding or encoding error. *)
Class CBOR := {
  unmarshal_tag : string -> option (Z * any);
  unmarshal_raws : string -> option (list string);
  unmarshal_bytes : string -> option string;
  unmarshal_bytes_ptr : string -> option (option string);
  unmarshal_anymap : string -> option (list (any * any));
  unmarshal_intmap : string -> option (list (Z * any));
  cbor_Marshal : any -> option string;
  det_Marshal : any -> option string;
  canonical_Marshal : any -> option string
}.

Class EcdsaScheme := { ecdsa_check : PublicKey -> string -> Z -> Z -> bool }.

Definition p256_scheme : EcdsaScheme := {| ecdsa_check := ecdsa_Verify |}.

Inductive receipt_error :=
| ErrNeitherTagNorArray | ErrMarshal | ErrElements | ErrProtected | ErrUnprotected | ErrSignature
| ErrDetached | ErrNoVDP | ErrVDPNotMap | ErrNoTreeSize | ErrNoLeafIndex | ErrNoHashPath
| ErrHashPath | ErrNoRootHash | ErrRootNotBytes | ErrWalk (e : proof_error) | ErrRootLength
| ErrRootMismatch | ErrSigLength | ErrSigInvalid | ErrNoPayload | ErrNoKID | ErrKIDType
| ErrProofRequired | ErrEventRequired | ErrSign | ErrP1363 (e : asn1_error) | ErrNoValidity.

Definition of_option {A} (o : option A) (e : receipt_error) : result receipt_error A :=
  match o with Some a => Ok a | None => Err e end.

(** ** Parsing *)

(** [int(n)] and [uint64(n)] on a 64-bit platform wrap. *)
Definition toInt (v : any) : Z :=
  match v with AInt _ n => int64_wrap n | _ => 0 end.

Definition toUint64 (v : any) : Z :=
  match v with
  | AInt (KUint64 | KInt64 | KInt | KUint) n => uint64_wrap n
  | _ => 0
  end.

(** [out[k] = v] and [m[k]] on a map with integer keys. *)
Fixpoint map_put (k : Z) (v : any) (m : list (Z * any)) : list (Z * any) :=
  match m with
  | [] => [(k, v)]
  | (k', v') :: m' => if k =? k' then (k, v) :: m' else (k', v') :: map_put k v m'
  end.

Fixpoint map_get (k : Z) (m : list (Z * any)) : option any :=
  match m with
  | [] => None
  | (k', v') :: m' => if k =? k' then Some v' else map_get k m'
  end.

Fixpoint normalize_value (v : any) : any :=
  match v with
  | AMapAny nested =>
      AMapInt ((fix go (l : list (any * any)) (out : list (Z * any)) :=
                  match l with
                  | [] => out
                  | (k, x) :: l' => go l' (map_put (toInt k) (normalize_value x) out)
                  end) nested [])
  | _ => v
  end.

(** The list holds the members in the order in which the range over the map visits
    them.  Go's order is random; the codec that gives the list is a parameter, so
    the order is arbitrary here too, and of two keys that narrow to the same integer
    the one visited last is kept. *)
Definition normalizeIntMap (raw : list (any * any)) : list (Z * any) :=
  fold_left (fun out kv => map_put (toInt kv.1) (normalize_value kv.2) out) raw [].

Record coseSign1Parsed := {
  protectedBytes : string;
  unprotected : list (Z * any);
  payload : string;
  signature : string
}.

Section Cose.
Context `{C : CBOR}.

Definition decodeCOSERaw (arr : list string) : result receipt_error coseSign1Parsed :=
  match arr with
  | [a0; a1; a2; a3] =>
      prot ← of_option (unmarshal_bytes a0) ErrProtected;
      rawUnp ← of_option (unmarshal_anymap a1) ErrUnprotected;
      let pl := match unmarshal_bytes_ptr a2 with Some (Some p) => p | _ => "" end in
      sig ← of_option (unmarshal_bytes a3) ErrSignature;
      Ok {| protectedBytes := prot; unprotected := normalizeIntMap rawUnp;
            payload := pl; signature := sig |}
  | _ => Err ErrElements
  end.

Definition decodeCOSEContent (content : any) : result receipt_error coseSign1Parsed :=
  re ← of_option (cbor_Marshal content) ErrMarshal;
  arr ← of_option (unmarshal_raws re) ErrMarshal;
  decodeCOSERaw arr.

Definition parseCOSESign1 (data : string) : result receipt_error coseSign1Parsed :=
  let untagged := arr ← of_option (unmarshal_raws data) ErrNeitherTagNorArray; decodeCOSERaw arr in
  match unmarshal_tag data with
  | Some (n, content) => if n =? 18 then decodeCOSEContent content else untagged
  | None => untagged
  end.

(** ** The inclusion proof in the unprotected header *)

Record extractedProof := {
  ep_TreeSize : Z;
  ep_LeafIndex : Z;
  ep_Path : list string;
  ep_RootHash : string
}.

Fixpoint byte_elements (l : list any) : option (list string) :=
  match l with
  | [] => Some []
  | ABytes b :: l' => bs ← byte_elements l'; Some (b :: bs)
  | _ :: _ => None
  end.

Definition toByteSlices (v : any) : result receipt_error (list string) :=
  match v with
  | AByteSlices l => Ok l
  | AList l => of_option (byte_elements l) ErrHashPath
  | _ => Err ErrHashPath
  end.

Definition extractInclusionProof (unp : list (Z * any)) : result receipt_error extractedProof :=
  vdpRaw ← of_option (map_get labelVDP unp) ErrNoVDP;
  match vdpRaw with
  | AMapInt vdp =>
      ts ← of_option (map_get inclusionProofTreeSize vdp) ErrNoTreeSize;
      li ← of_option (map_get inclusionProofLeafIndex vdp) ErrNoLeafIndex;
      pathRaw ← of_option (map_get inclusionProofHashPath vdp) ErrNoHashPath;
      path ← toByteSlices pathRaw;
      rootRaw ← of_option (map_get inclusionProofRootHash vdp) ErrNoRootHash;
      match rootRaw with
      | ABytes root => Ok {| ep_TreeSize := toUint64 ts; ep_LeafIndex := toUint64 li;
                             ep_Path := path; ep_RootHash := root |}
      | _ => Err ErrRootNotBytes
      end
  | _ => Err ErrVDPNotMap
  end.

(** ** Verification *)

Context `{E : EcdsaScheme}.

(** [Sig_structure1] of RFC 8152 section 4.4. *)
Definition sig_structure (prot pl : string) : any :=
  AList [AString "Signature1"; ABytes prot; ABytes ""; ABytes pl].

(** The ES256 check shared by the two verifiers; they differ in the encoder. *)
Definition check_es256 (encode : any -> option string) (p : coseSign1Parsed) (pub : PublicKey)
  : result receipt_error unit :=
  sigBytes ← of_option (encode (sig_structure (protectedBytes p) (payload p))) ErrMarshal;
  let digest := Sum256 sigBytes in
  if negb (String.length (signature p) =? 64)%nat then Err ErrSigLength else
  let r := SetBytes (str_take 32 (signature p)) in
  let s := SetBytes (str_drop 32 (signature p)) in
  if negb (ecdsa_check pub digest r s) then Err ErrSigInvalid else Ok tt.

Definition verifySignature (p : coseSign1Parsed) (pub : PublicKey) : result receipt_error unit :=
  check_es256 det_Marshal p pub.

(** The body of [Verify] after parsing. *)
Definition verifyParsed (p : coseSign1Parsed) (pub : PublicKey) : result receipt_error unit :=
  if String.eqb (payload p) "" then Err ErrDetached else
  proof ← extractInclusionProof (unprotected p);
  let leafHash := rfc9162LeafHash (payload p) in
  computedRoot ← match rfc9162RootFromProof leafHash (ep_LeafIndex proof) (ep_TreeSize proof) (ep_Path proof) with
                 | Ok r => Ok r
                 | Err e => Err (ErrWalk e)
                 end;
  if negb (String.length (ep_RootHash proof) =? sha256_Size)%nat then Err ErrRootLength else
  if negb (String.eqb computedRoot (ep_RootHash proof)) then Err ErrRootMismatch else
  verifySignature p pub.

Definition Verify (receiptBytes : string) (publicKey : PublicKey) : result receipt_error unit :=
  parsed ← parseCOSESign1 receiptBytes;
  verifyParsed parsed publicKey.

Definition ExtractPayload (receiptBytes : string) : result receipt_error string :=
  parsed ← parseCOSESign1 receiptBytes;
  if String.eqb (payload parsed) "" then Err ErrNoPayload else Ok (payload parsed).

Definition ExtractKID (receiptBytes : string) : result receipt_error string :=
  parsed ← parseCOSESign1 receiptBytes;
  prot ← of_option (unmarshal_intmap (protectedBytes parsed)) ErrProtected;
  kidAny ← of_option (map_get labelKID prot) ErrNoKID;
  match kidAny with ABytes kid => Ok kid | _ => Err ErrKIDType end.

(** ** Generation *)

(** [port.KeyManager.Sign]: a DER signature, or an error. *)
Context (km_Sign : string -> string -> option (list Z)).

Record InclusionProof := {
  ip_TreeSize : Z;
  ip_LeafIndex : Z;
  ip_Path : list string;
  ip_RootHash : string
}.

Record KeyManagerGenerator := { g_keyID : string; g_keyHash : string; g_issuer : string }.

Definition vdp_map (proof : InclusionProof) : any :=
  AMapInt [(inclusionProofTreeSize, AInt KUint64 (ip_TreeSize proof));
           (inclusionProofLeafIndex, AInt KUint64 (ip_LeafIndex proof));
           (inclusionProofHashPath, AByteSlices (ip_Path proof));
           (inclusionProofRootHash, ABytes (ip_RootHash proof))].

(** [now] is the reading of the generator's clock. *)
Definition GenerateReceipt (g : KeyManagerGenerator) (now : Time) (proof : option InclusionProof)
    (eventBytes : string) : result receipt_error string :=
  match proof with
  | None => Err ErrProofRequired
  | Some proof =>
      if String.eqb eventBytes "" then Err ErrEventRequired else
      let protectedMap := AMapInt [(labelAlg, AInt KInt algES256); (labelKID, ABytes (g_keyHash g));
        (labelVDS, AInt KInt vdsRFC9162SHA256);
        (labelCWTClaims, AMapInt [(cwtIss, AString (g_issuer g)); (cwtIat, AInt KInt64 (Time_Unix now))])] in
      prot ← of_option (det_Marshal protectedMap) ErrMarshal;
      sigStructureBytes ← of_option (det_Marshal (sig_structure prot eventBytes)) ErrMarshal;
      let digest := Sum256 sigStructureBytes in
      derSig ← of_option (km_Sign (g_keyID g) digest) ErrSign;
      p1363Sig ← match DERToP1363 derSig 32 with Ok x => Ok x | Err e => Err (ErrP1363 e) end;
      let coseArray := AList [ABytes prot; AMapInt [(labelVDP, vdp_map proof)]; ABytes eventBytes;
                              ABytes (string_of_bytes p1363Sig)] in
      of_option (det_Marshal (ATag 18 coseArray)) ErrMarshal
  end.

(** ** Status tokens *)

Record CertFingerprint := { cf_Fingerprint : string; cf_CertType : string }.

Record StatusTokenPayload := {
  st_AgentID : string;
  st_Status : string;
  st_IAT : Z;
  st_EXP : Z;
  st_ANSName : string;
  st_ValidIdentityCerts : list CertFingerprint;
  st_ValidServerCerts : list CertFingerprint;
  st_MetadataHashes : list (string * string)
}.

Record StatusTokenClaims := {
  sc_AgentID : string;
  sc_ANSName : string;
  sc_Status : string;
  sc_ValidIdentityCerts : list CertFingerprint;
  sc_ValidServerCerts : list CertFingerprint;
  sc_MetadataHashes : list (string * string);
  sc_ValidUntil : Time
}.

Record KeyManagerStatusTokenGenerator := { t_keyID : string; t_keyHash : string; t_ttl : Duration }.

(** The constructor's default for a zero TTL. *)
Definition status_ttl (ttl : Duration) : Duration := if ttl =? 0 then DefaultStatusTokenTTL else ttl.

(** The payload a token asserts, or the refusal of claims without validity. *)
Definition status_payload (ttl : Duration) (now : Time) (claims : StatusTokenClaims)
  : result receipt_error StatusTokenPayload :=
  let expires0 := Time_Add now ttl in
  let expires := if negb (Time_IsZero (sc_ValidUntil claims)) && Time_Before (sc_ValidUntil claims) expires0
                 then sc_ValidUntil claims else expires0 in
  if Time_Unix expires <=? Time_Unix now then Err ErrNoValidity else
  Ok {| st_AgentID := sc_AgentID claims; st_Status := sc_Status claims;
        st_IAT := Time_Unix now; st_EXP := Time_Unix expires; st_ANSName := sc_ANSName claims;
        st_ValidIdentityCerts := sc_ValidIdentityCerts claims;
        st_ValidServerCerts := sc_ValidServerCerts claims;
        st_MetadataHashes := sc_MetadataHashes claims |}.

(** [derToP1363] of this package: like [DERToP1363] at 32 bytes but blind to
    trailing bytes and to the scalars' signs ([big.Int.Bytes] is the absolute
    value). *)
Definition derToP1363 (der : list Z) : result receipt_error (list Z) :=
  match asn1_Unmarshal der with
  | Err e => Err (ErrP1363 e)
  | Ok (r, s, _) =>
      let rb := Int_Bytes (Z.abs r) in
      let sb := Int_Bytes (Z.abs s) in
      if (32 <? length rb)%nat || (32 <? length sb)%nat then Err (ErrP1363 ErrScalarSize)
      else Ok (left_pad 32 rb ++ left_pad 32 sb)
  end.

(** The struct encoding of the payload is the CBOR library's. *)
Context (marshal_payload : StatusTokenPayload -> option string)
        (unmarshal_payload : string -> option StatusTokenPayload).

Definition GenerateStatusToken (g : KeyManagerStatusTokenGenerator) (now : Time) (claims : StatusTokenClaims)
  : result receipt_error string :=
  pl ← status_payload (t_ttl g) now claims;
  payloadBytes ← of_option (marshal_payload pl) ErrMarshal;
  let prot_map := AMapInt [(labelAlg, AInt KInt algES256); (labelKID, ABytes (t_keyHash g));
                           (labelContentType, AString StatusTokenMediaType)] in
  prot ← of_option (canonical_Marshal prot_map) ErrMarshal;
  sigStructureBytes ← of_option (canonical_Marshal (sig_structure prot payloadBytes)) ErrMarshal;
  let digest := Sum256 sigStructureBytes in
  derSig ← of_option (km_Sign (t_keyID g) digest) ErrSign;
  p1363 ← derToP1363 derSig;
  let cose := ATag 18 (AList [ABytes prot; AMapInt []; ABytes payloadBytes;
                              ABytes (string_of_bytes p1363)]) in
  of_option (canonical_Marshal cose) ErrMarshal.

Definition VerifyStatusToken (tokenBytes : string) (publicKey : PublicKey)
  : result receipt_error StatusTokenPayload :=
  parsed ← parseCOSESign1 tokenBytes;
  _ ← check_es256 canonical_Marshal parsed publicKey;
  of_option (unmarshal_payload (payload parsed)) ErrMarshal.

(** ** Theorems *)

Lemma verifyParsed_Ok p pub :
  verifyParsed p pub = Ok tt <->
  payload p <> "" /\ verifySignature p pub = Ok tt /\
  exists proof, extractInclusionProof (unprotected p) = Ok proof /\ len32 (ep_RootHash proof) /\
    rfc9162RootFromProof (rfc9162LeafHash (payload p)) (ep_LeafIndex proof) (ep_TreeSize proof) (ep_Path proof)
    = Ok (ep_RootHash proof).
Proof.
  unfold verifyParsed. destruct (String.eqb_spec (payload p) ""); [split; [done|by intros [? _]]|].
  rewrite bind_Ok. split.
  - intros (proof & HE & (root & HW & H)%bind_Ok).
    destruct (rfc9162RootFromProof _ _ _ _) eqn:ER; [|done]. injection HW as ->.
    destruct (Nat.eqb_spec (String.length (ep_RootHash proof)) sha256_Size); [|done].
    destruct (String.eqb_spec root (ep_RootHash proof)) as [->|]; [|done].
    cbn [negb] in H. split; [done|]. split; [exact H|]. by exists proof.
  - intros (_ & HS & proof & HE & HL & HW). exists proof. split; [done|].
    apply bind_Ok. exists (ep_RootHash proof). rewrite HW, HL, String.eqb_refl. done.
Qed.

Lemma toUint64_range v : 0 <= toUint64 v < 2 ^ 64.
Proof.
  assert (forall n, 0 <= uint64_wrap n < 2 ^ 64) by (intros; unfold uint64_wrap; apply Z.mod_pos_bound; lia).
  destruct v as [[] n| | | | | | | |]; simpl toUint64; auto; lia.
Qed.

Lemma extractInclusionProof_range unp proof :
  extractInclusionProof unp = Ok proof ->
  0 <= ep_TreeSize proof < 2 ^ 64 /\ 0 <= ep_LeafIndex proof < 2 ^ 64.
Proof.
  unfold extractInclusionProof. rewrite bind_Ok. intros ([] & _ & H); try done.
  repeat (apply bind_Ok in H as (? & _ & H)). destruct x3; try done. injection H as <-.
  split; apply toUint64_range.
Qed.
End Cose.

(** C32: What an accepted receipt proves.  If [Verify] accepts, the receipt parses
    to a non-empty payload with a 64-byte ES256 signature over exactly the
    protected header and that payload; and for every log [D] whose size and
    Merkle root are the ones the receipt carries, either the payload is an entry
    of [D] or the computed pair is a SHA-256 collision. *)
Theorem Verify_sound `{C : CBOR, E : EcdsaScheme} receiptBytes pub :
  Verify receiptBytes pub = Ok tt ->
  exists p proof sigBytes,
    parseCOSESign1 receiptBytes = Ok p /\ extractInclusionProof (unprotected p) = Ok proof /\
    payload p <> "" /\ String.length (signature p) = 64%nat /\
    det_Marshal (sig_structure (protectedBytes p) (payload p)) = Some sigBytes /\
    ecdsa_check pub (Sum256 sigBytes) (SetBytes (str_take 32 (signature p)))
      (SetBytes (str_drop 32 (signature p))) = true /\
    forall D, D <> [] -> ep_TreeSize proof = Z.of_nat (length D) -> ep_RootHash proof = MTH D ->
      match proof_collision D (ep_LeafIndex proof) (payload p) (ep_Path proof) with
      | Some (x, y) => x <> y /\ Sum256 x = Sum256 y
      | None => payload p ∈ D
      end.
Proof.
  unfold Verify. rewrite bind_Ok. intros (p & HP & H).
  apply verifyParsed_Ok in H as (Hpl & HS & proof & HE & _ & HW).
  unfold verifySignature, check_es256 in HS. apply bind_Ok in HS as (sigBytes & HM & HS).
  destruct (Nat.eqb_spec (String.length (signature p)) 64); [|done].
  cbn [negb] in HS. cbn zeta in HS.
  destruct (ecdsa_check _ _ _ _) eqn:HC in HS; [|done].
  exists p, proof, sigBytes. split_and!; try done.
  { by destruct (det_Marshal _); [injection HM as ->|]. }
  intros D HD ETS ERH. apply extractInclusionProof_range in HE as [_ HI].
  rewrite ETS, ERH in HW. apply RootFromProof_Ok in HW as (_ & Hl & _ & He); [|lia|lia].
  pose proof (walk_collision D (ep_LeafIndex proof) (payload p) (ep_Path proof) HD Hl (eq_sym He)) as W.
  destruct (proof_collision D _ _ _) as [[x y]|]; [done|].
  destruct W as [F _]. rewrite <- (tree_of_leaves D HD). by eapply follow_member.
Qed.

(** The signature of a receipt does not cover its inclusion proof.  Take any
    accepted receipt and replace its unprotected header by one whose proof claims
    a one-entry log with an empty path and the payload's own leaf hash as root:
    the altered receipt is accepted too.  The root a receipt carries is therefore
    evidence only when it is compared with a checkpoint obtained elsewhere. *)
Theorem Verify_proof_not_signed `{C : CBOR, E : EcdsaScheme} p pub unp' :
  verifyParsed p pub = Ok tt ->
  extractInclusionProof unp' = Ok {| ep_TreeSize := 1; ep_LeafIndex := 0; ep_Path := [];
                                     ep_RootHash := rfc9162LeafHash (payload p) |} ->
  verifyParsed {| protectedBytes := protectedBytes p; unprotected := unp';
                  payload := payload p; signature := signature p |} pub = Ok tt.
Proof.
  rewrite !verifyParsed_Ok. intros (Hp & HS & _) HE. cbn [payload unprotected].
  split_and!; [done|exact HS|]. eexists. split; [exact HE|]. split; [apply Sum256_length|done].
Qed.

(** Lifetime of a status token.  A token is issued only for claims with at
    least one whole second of validity left; its expiry is after its issue time,
    at most the TTL later, and never after the earliest certificate expiry the
    claims carry. *)
Theorem status_token_window ttl now claims :
  (forall pl, status_payload ttl now claims = Ok pl ->
     st_IAT pl = Time_Unix now /\ st_IAT pl < st_EXP pl <= Time_Unix (now + ttl) /\
     (sc_ValidUntil claims <> 0 -> st_EXP pl <= Time_Unix (sc_ValidUntil claims)) /\
     st_Status pl = sc_Status claims /\ st_AgentID pl = sc_AgentID claims) /\
  (status_payload ttl now claims = Err ErrNoValidity <->
     Time_Unix (now + ttl) <= Time_Unix now \/
     (sc_ValidUntil claims <> 0 /\ Time_Unix (sc_ValidUntil claims) <= Time_Unix now)).
Proof.
  unfold status_payload, Time_IsZero, Time_Before, Time_Add, Time in *.
  pose proof (Time_Unix_mono (sc_ValidUntil claims) (now + ttl)) as M1.
  pose proof (Time_Unix_mono (now + ttl) (sc_ValidUntil claims)) as M2.
  destruct (Z.eqb_spec (sc_ValidUntil claims) 0), (Z.ltb_spec (sc_ValidUntil claims) (now + ttl)); cbn [negb andb];
    match goal with |- context [Time_Unix ?e <=? Time_Unix now] =>
      destruct (Z.leb_spec (Time_Unix e) (Time_Unix now)) end;
    (split; [intros pl; try done; intros [= <-]; cbn; split_and!; intros; (lia || done)
            | split; [intros ?; try done; lia|intros ?; try done; lia]]).
Qed.

(** ** Witnesses

    A one-entry log whose receipt decodes to protected header "P", payload "E"
    and a 64-byte signature.  The codec is a table of these strings and the
    signature scheme accepts this one signature. *)
Definition demo_sig : string := string_of_bytes (replicate 64 1).

Definition demo_vdp : any :=
  AMapAny [(AInt KInt64 (-1), AInt KUint64 1); (AInt KInt64 (-2), AInt KUint64 0);
           (AInt KInt64 (-3), AList []); (AInt KInt64 (-4), ABytes (rfc9162LeafHash "E"))].

Definition demo_cbor : CBOR := {|
  unmarshal_tag s := if String.eqb s "R" then Some (18, AOther) else None;
  unmarshal_raws s := if String.eqb s "A" then Some ["0"; "1"; "2"; "3"] else None;
  unmarshal_bytes s := if String.eqb s "0" then Some "P" else if String.eqb s "3" then Some demo_sig else None;
  unmarshal_bytes_ptr s := if String.eqb s "2" then Some (Some "E") else None;
  unmarshal_anymap s := if String.eqb s "1" then Some [(AInt KUint64 396, demo_vdp)] else None;
  unmarshal_intmap _ := None;
  cbor_Marshal _ := Some "A";
  det_Marshal _ := Some "S";
  canonical_Marshal _ := Some "S"
|}.

Definition demo_ecdsa : EcdsaScheme := {|
  ecdsa_check pub digest r s := String.eqb digest (Sum256 "S") && (r =? SetBytes (str_take 32 demo_sig))
|}.

Lemma Verify_sound_witness :
  let p := {| protectedBytes := "P"; unprotected := normalizeIntMap [(AInt KUint64 396, demo_vdp)];
              payload := "E"; signature := demo_sig |} in
  parseCOSESign1 (C := demo_cbor) "R" = Ok p /\ payload p <> "".
Proof.
  cbn zeta.
  destruct (Verify_sound (C := demo_cbor) (E := demo_ecdsa) "R" rfc6979_key) as (p & _ & _ & HP & _ & HN & _).
  - vm_compute. reflexivity.
  - rewrite HP. injection HP as <-. split; [reflexivity|exact HN].
Defined.

Lemma Verify_proof_not_signed_witness :
  let unp' := [(396, AMapInt [(-1, AInt KUint64 1); (-2, AInt KUint64 0); (-3, AByteSlices []);
                              (-4, ABytes (rfc9162LeafHash "E"))])] in
  verifyParsed (C := demo_cbor) (E := demo_ecdsa)
    {| protectedBytes := "P"; unprotected := unp'; payload := "E"; signature := demo_sig |} rfc6979_key = Ok tt.
Proof.
  cbn zeta.
  apply (Verify_proof_not_signed (C := demo_cbor) (E := demo_ecdsa)
    {| protectedBytes := "P"; unprotected := normalizeIntMap [(AInt KUint64 396, demo_vdp)];
       payload := "E"; signature := demo_sig |}); [vm_compute; reflexivity|reflexivity].
Defined.

(** A token cut short by a certificate that expires in ten minutes. *)
Definition demo_now : Time := (unixToInternal + 1700000000) * Second.

Definition demo_claims : StatusTokenClaims := {|
  sc_AgentID := "a"; sc_ANSName := ""; sc_Status := "ACTIVE"; sc_ValidIdentityCerts := [];
  sc_ValidServerCerts := []; sc_MetadataHashes := []; sc_ValidUntil := demo_now + 10 * Minute |}.

Definition demo_token : StatusTokenPayload := {|
  st_AgentID := "a"; st_Status := "ACTIVE"; st_IAT := 1700000000; st_EXP := 1700000600; st_ANSName := "";
  st_ValidIdentityCerts := []; st_ValidServerCerts := []; st_MetadataHashes := [] |}.

Lemma status_token_window_witness :
  status_payload DefaultStatusTokenTTL demo_now demo_claims = Ok demo_token /\
  st_EXP demo_token <= Time_Unix (sc_ValidUntil demo_claims).
Proof.
  assert (H : status_payload DefaultStatusTokenTTL demo_now demo_claims = Ok demo_token)
    by (vm_compute; reflexivity).
  split; [exact H|].
  destruct (status_token_window DefaultStatusTokenTTL demo_now demo_claims) as [W _].
  destruct (W demo_token H) as (_ & _ & B & _). apply B. vm_compute. congruence.
Defined.
