(* ===== verification/TlProof.v ===== *)
(** Inclusion proofs and receipts of the log: [merkleproof.go], [receipt.go] and
    [readiness.go] of [internal/tl/service], with the checkpoint header of
    [log.go].

    The checkpoint file and the proof builder are Tessera's, a parameter:
    [ProofReader] is what they answer, [ProofLaws] that a checkpoint describes a
    prefix of the log and that a proof is the one of RFC 9162. *)
From stdpp Require Import gmap.
From S2P Require Import Prelude GoStrings GoTime DomainErrors GoEncoding GoJSON Jcs Sha256 TlEvent TlEnvelope Jws TlStore TlLog LogNote Merkle P256 Receipt.

#[local] Set Default Goal Selector "!".
#[local] Open Scope Z_scope.

(** ** Checkpoint headers *)

(** [fmt.Sscanf(s, "%d", &size)]: spaces, then digits; the rest is not read. *)
Definition Sscanf_d (s : string) : option Z := ParseUint64 (take_digits (trim_left_from 0 s)).1.

(** [decodeB64("std", s)]. *)
Definition decodeB64_std (s : string) : option string :=
  match std_DecodeString s with Some raw => Some raw | None => raw_std_DecodeString s end.

Definition decodeCheckpointRoot (s : string) : option string := decodeB64_std s.

Definition parseCheckpointHeader (note : string) : option (Z * string) :=
  match Split note cNewline with
  | _ :: sizeLine :: rootLine :: _ =>
      n ← Sscanf_d sizeLine; rawRoot ← decodeCheckpointRoot rootLine; Some (n, hex_EncodeToString rawRoot)
  | _ => None
  end.

Definition parseSumdbCheckpoint (note : string) : option (Z * string) :=
  '(n, rootHex) ← parseCheckpointHeader note; rootBytes ← hex_DecodeString rootHex; Some (n, rootBytes).

(** ** Inclusion proofs *)

Record ProofReader := {
  rp_ReadCheckpoint : list string -> option string;
  rp_InclusionProof : list string -> Z -> Z -> option (list string)     (* leaves, tree size, leaf index *)
}.

Class ProofLaws (R : ProofReader) := {
  rp_checkpoint_law leaves note : rp_ReadCheckpoint R leaves = Some note ->
    exists origin (n : nat) rest, ContainsByte origin cNewline = false /\ (n <= length leaves)%nat /\
      note = checkpoint_text origin (Z.of_nat n) (MTH (take n leaves)) +:+ rest;
  rp_proof_law leaves (n m : nat) path : rp_InclusionProof R leaves (Z.of_nat n) (Z.of_nat m) = Some path ->
    (m < n <= length leaves)%nat -> path = PATH (Z.of_nat m) (take n leaves)
}.

Record MerkleProof := {
  mp_LeafHash : string; mp_LeafIndex : option Z; mp_Path : list string; mp_RootHash : string; mp_TreeSize : Z; mp_TreeVersion : Z
}.

Inductive proof_failure := ErrProofLeafNotCovered | ErrProofOther.

Definition or_proof {A} (o : option A) : result proof_failure A := match o with Some a => Ok a | None => Err ErrProofOther end.

Definition BuildMerkleProof (R : ProofReader) (leaves : list string) (rec : EventRecord) : result proof_failure MerkleProof :=
  cpBytes ← or_proof (rp_ReadCheckpoint R leaves);
  '(n, rootHash) ← or_proof (parseSumdbCheckpoint cpBytes);
  if n <=? er_LeafIndex rec then Err ErrProofLeafNotCovered else
  rawPath ← or_proof (rp_InclusionProof R leaves n (er_LeafIndex rec));
  Ok {| mp_LeafHash := er_LeafHashHex rec; mp_LeafIndex := Some (int64_wrap (er_LeafIndex rec)); mp_Path := std_EncodeToString <$> rawPath;
        mp_RootHash := std_EncodeToString rootHash; mp_TreeSize := int64_wrap n; mp_TreeVersion := 1 |}.

(** ** Receipts *)

Definition MediaType : string := "application/scitt-receipt+cose".

Record IssuedReceipt := { rc_Bytes : string; rc_ContentType : string }.

Definition decodeStdBase64 (s : string) : result serr string := or_other "base64" (std_DecodeString s).

Fixpoint decode_path (path : list string) : result serr (list string) :=
  match path with [] => Ok [] | p :: rest => raw ← decodeStdBase64 p; l ← decode_path rest; Ok (raw :: l) end.

Section Receipts.
Context `{U : UnicodeTables} `{J : JCS} `{S : SigSchemes} `{X : PemX509, KP : !KeyParser, JO : !Jose} `{SJ : SqliteJSON}.
Context `{C : CBOR} (sign : string -> string -> option (list Z)) (g : KeyManagerGenerator) (R : ProofReader).

(** The receipt of one event; [now] is the generator's clock. *)
Definition mint (proof : MerkleProof) (now : Time) (rec : EventRecord) : result serr string :=
  rootBytes ← decodeStdBase64 (mp_RootHash proof);
  path ← decode_path (mp_Path proof);
  let leafIndex := match mp_LeafIndex proof with Some i => uint64_wrap i | None => 0 end in
  match GenerateReceipt sign g now
    (Some {| ip_TreeSize := uint64_wrap (mp_TreeSize proof); ip_LeafIndex := leafIndex; ip_Path := path; ip_RootHash := rootBytes |}) (er_RawEvent rec) with
  | Ok bytes => Ok bytes
  | Err _ => Err (Other "receipt: generate")
  end.

(** [s.receipts.Store], whose error is dropped. *)
Definition cache_receipt (w : World) (rec : EventRecord) (treeSize : Z) (bytes : string) : M unit := fun s =>
  match w_store w (er_LeafIndex rec) with
  | DbFailed => (Ok tt, s)
  | _ =>
      let subjectID := if String.eqb (er_AgentID rec) "" then er_IdentityID rec else er_AgentID rec in
      (Ok tt, with_db s (ReceiptStore_Store (s_db s) (er_LeafIndex rec) subjectID treeSize bytes (Time_UnixMilli (w_now w))))
  end.

Definition buildOrFetch (w : World) (now : Time) (rec : EventRecord) : M IssuedReceipt :=
  leaves ← gets s_leaves;
  match BuildMerkleProof R leaves rec with
  | Err ErrProofLeafNotCovered => fails (Other "tl: leaf not yet covered by a signed checkpoint")
  | Err ErrProofOther => fails (Other "merkleproof")
  | Ok proof =>
      let treeSize := uint64_wrap (mp_TreeSize proof) in
      d ← gets s_db;
      match FindByLeafIndex d (er_LeafIndex rec) treeSize with
      | Some cached => mret {| rc_Bytes := rr_ReceiptBlob cached; rc_ContentType := MediaType |}
      | None =>
          coseBytes ← lifts (mint proof now rec);
          _ ← cache_receipt w rec treeSize coseBytes;
          mret {| rc_Bytes := coseBytes; rc_ContentType := MediaType |}
      end
  end.

Definition ReceiptForAgent (w : World) (now : Time) (agentID : string) : M IssuedReceipt := rec ← LatestEventByAgent w agentID; buildOrFetch w now rec.
Definition ReceiptForIdentity (w : World) (now : Time) (identityID : string) : M IssuedReceipt :=
  rec ← LatestEventByIdentity w identityID; buildOrFetch w now rec.
Definition ReceiptForLeafIndex (w : World) (now : Time) (idx : Z) : M IssuedReceipt := rec ← EventByLeafIndex w idx; buildOrFetch w now rec.
End Receipts.

(** ** Readiness *)

Definition Ready (w : World) : M unit :=
  ready ← gets s_indexReady;
  if negb ready then fails (Other "event index requires recovery") else
  leaves ← gets s_leaves;
  integrated ← lifts (or_other "read integrated log size" (rd_IntegratedSize (ts_Reader (w_tessera w) leaves)));
  d ← gets s_db;
  if negb (IndexedSize d =? integrated) then fails (Other "event index size differs from integrated log") else mret tt.
