(* ===== verification/TlBadge.v ===== *)
(** What the log answers about agents and identities: [envelope_wrapper.go],
    [badge.go], [identitybadge.go] and [statustoken.go] of
    [internal/tl/service].

    The services read the log through its fenced reads ([TlLog]) and build
    inclusion proofs ([TlProof]); [w_now] is [s.log.nowFn()]. *)
From stdpp Require Import gmap.
From S2P Require Import Prelude GoStrings GoTime DomainErrors GoEncoding GoJSON Jcs Sha256 Lifecycle TlEvent TlEnvelope Jws TlStore TlLog LogNote Merkle Receipt TlProof.

#[local] Set Default Goal Selector "!".
#[local] Open Scope Z_scope.

(** ** [envelope_wrapper.go] *)

Record envelopeWrapper := { ew_SchemaVersion : string; ew_Signature : string; ew_Status : string; ew_Payload : option json }.

Definition dec_wrapper : json -> envelopeWrapper -> option envelopeWrapper := dec_struct (fun m w =>
  sv ← field "schemaVersion" dec_str (ew_SchemaVersion w) m;
  sig ← field "signature" dec_str (ew_Signature w) m;
  st ← field "status" dec_str (ew_Status w) m;
  pl ← field "payload" dec_raw (ew_Payload w) m;
  Some {| ew_SchemaVersion := sv; ew_Signature := sig; ew_Status := st; ew_Payload := pl |}).

Definition zero_wrapper : envelopeWrapper := {| ew_SchemaVersion := ""; ew_Signature := ""; ew_Status := ""; ew_Payload := None |}.

(** [certInfoView] has one field, [notAfter]. *)
Definition certInfoView : Type := string.
Definition dec_certInfoView : json -> certInfoView -> option certInfoView := dec_struct (fun m v => field "notAfter" dec_str v m).

(** The dates of an event and its certificate lists: the anonymous structs of
    the two functions below, which differ in the singletons. *)
Record attested := {
  at_ExpiresAt : string;
  at_IdentityCerts : list certInfoView;
  at_ServerCerts : list certInfoView;
  at_ValidIdentityCerts : list certInfoView;
  at_ValidServerCerts : list certInfoView;
  at_IdentityCert : option certInfoView;
  at_ServerCert : option certInfoView
}.

Definition no_dates : attested :=
  {| at_ExpiresAt := ""; at_IdentityCerts := []; at_ServerCerts := []; at_ValidIdentityCerts := []; at_ValidServerCerts := []; at_IdentityCert := None;
     at_ServerCert := None |}.

Definition dec_certs : json -> list certInfoView -> option (list certInfoView) := dec_list dec_certInfoView "".

Definition dec_attestations (singletons : bool) : json -> attested -> option attested := dec_struct (fun m a =>
  ic ← field "identityCerts" dec_certs (at_IdentityCerts a) m;
  sc ← field "serverCerts" dec_certs (at_ServerCerts a) m;
  vi ← field "validIdentityCerts" dec_certs (at_ValidIdentityCerts a) m;
  vs ← field "validServerCerts" dec_certs (at_ValidServerCerts a) m;
  i1 ← (if singletons then field "identityCert" (dec_ptr dec_certInfoView "") (at_IdentityCert a) m else Some (at_IdentityCert a));
  s1 ← (if singletons then field "serverCert" (dec_ptr dec_certInfoView "") (at_ServerCert a) m else Some (at_ServerCert a));
  Some {| at_ExpiresAt := at_ExpiresAt a; at_IdentityCerts := ic; at_ServerCerts := sc; at_ValidIdentityCerts := vi; at_ValidServerCerts := vs;
          at_IdentityCert := i1; at_ServerCert := s1 |}).

Definition with_expires (a : attested) (e : string) : attested :=
  {| at_ExpiresAt := e; at_IdentityCerts := at_IdentityCerts a; at_ServerCerts := at_ServerCerts a; at_ValidIdentityCerts := at_ValidIdentityCerts a;
     at_ValidServerCerts := at_ValidServerCerts a; at_IdentityCert := at_IdentityCert a; at_ServerCert := at_ServerCert a |}.

Definition dec_dates (singletons : bool) : json -> attested -> option attested := dec_struct (fun m a =>
  e ← field "expiresAt" dec_str (at_ExpiresAt a) m;
  field "attestations" (dec_attestations singletons) (with_expires a e) m).

(** [payload.producer.event] *)
Definition dec_payload_dates (singletons : bool) : json -> attested -> option attested :=
  dec_struct (fun m a => field "producer" (dec_struct (fun m a => field "event" (dec_dates singletons) a m)) a m).

Definition dates_ok (l : list certInfoView) : bool := forallb (fun c => is_ok (ParseAttestedExpiry c)) l.

Definition parseEnvelopeWrapper (raw : string) : result serr envelopeWrapper :=
  w ← or_other "parse envelope wrapper" (Unmarshal dec_wrapper zero_wrapper raw);
  match ew_Payload w with
  | None => Ok w
  | Some payload =>
      a ← or_other "decode attested certificate dates" (dec_payload_dates false payload no_dates);
      if negb (is_ok (ParseAttestedExpiry (at_ExpiresAt a))) then Err (Other "expiry") else
      if negb (dates_ok (at_IdentityCerts a) && dates_ok (at_ServerCerts a) && dates_ok (at_ValidIdentityCerts a) && dates_ok (at_ValidServerCerts a))
      then Err (Other "expiry") else Ok w
  end.

Definition expiry_or (fallback : Time) (value : string) : Time :=
  match ParseAttestedExpiry value with Ok t => if Time_IsZero t then fallback else t | Err _ => fallback end.

(** The latest date of one family. *)
Definition latest_of (fallback : Time) (family : list certInfoView) : Time :=
  fold_left (fun latest c => let t := expiry_or fallback c in if Time_After t latest then t else latest) family zeroTime.

Definition earlier (earliest latest : Time) : Time :=
  if negb (Time_IsZero latest) && (Time_IsZero earliest || Time_Before latest earliest) then latest else earliest.

Definition family (current legacy : list certInfoView) (singleton : option certInfoView) : list certInfoView :=
  match current ++ legacy, singleton with [], Some c => [c] | l, _ => l end.

Definition certExpiresAt (w : envelopeWrapper) : Time :=
  match ew_Payload w with
  | None => zeroTime
  | Some payload =>
      match dec_payload_dates true payload no_dates with
      | None => zeroTime
      | Some a =>
          let fallback := match ParseAttestedExpiry (at_ExpiresAt a) with Ok t => t | Err _ => zeroTime end in
          let identity := family (at_IdentityCerts a) (at_ValidIdentityCerts a) (at_IdentityCert a) in
          let server := family (at_ServerCerts a) (at_ValidServerCerts a) (at_ServerCert a) in
          let earliest := earlier (earlier zeroTime (latest_of fallback identity)) (latest_of fallback server) in
          if Time_IsZero earliest then fallback else earliest
      end
  end.

(** ** [badge.go] *)

Definition BadgeActive : string := "ACTIVE".
Definition BadgeDeprecated : string := "DEPRECATED".
Definition BadgeRevoked : string := "REVOKED".
Definition BadgeExpired : string := "EXPIRED".
Definition BadgeWarning : string := "WARNING".
Definition BadgeVerified : string := "VERIFIED".
Definition BadgeIdentityRevoked : string := "REVOKED".

Definition warningWindow : Duration := 30 * 24 * Hour.

Definition currentAgentStatus (rec : EventRecord) (certExpiry now : Time) (window : Duration) : string :=
  if String.eqb (er_EventType rec) "AGENT_REVOKED" then BadgeRevoked else
  if negb (Time_IsZero certExpiry) && negb (Time_Before now certExpiry) then BadgeExpired else
  if String.eqb (er_EventType rec) "AGENT_DEPRECATED" then BadgeDeprecated else
  if negb (Time_IsZero certExpiry) && (Time_Sub certExpiry now <? window) then BadgeWarning else
  BadgeActive.

(** The fields the services set; the handlers add the joins. *)
Record TransparencyLog := {
  tl_MerkleProof : option MerkleProof;
  tl_Payload : option json;
  tl_SchemaVersion : string;
  tl_Signature : string;
  tl_Status : string;
  tl_Keys : list json;
  tl_KeysLogID : string
}.

Fixpoint M_map {A B} (f : A -> M B) (l : list A) : M (list B) :=
  match l with [] => mret [] | a :: l' => b ← f a; bs ← M_map f l'; mret (b :: bs) end.

Section Badges.
Context `{U : UnicodeTables} `{J : JCS} `{SJ : SqliteJSON} (R : ProofReader).

Definition statusFromRecord (w : World) (rec : EventRecord) (expiry : Time) : string := currentAgentStatus rec expiry (w_now w) warningWindow.

(** [buildTransparencyLog] of either service, which differ in the status. *)
Definition build_log (status : envelopeWrapper -> string) (rec : EventRecord) : M TransparencyLog :=
  wrapper ← lifts (parseEnvelopeWrapper (er_RawEvent rec));
  leaves ← gets s_leaves;
  mret {| tl_MerkleProof := match BuildMerkleProof R leaves rec with Ok p => Some p | Err _ => None end;
          tl_Payload := ew_Payload wrapper;
          tl_SchemaVersion := if String.eqb (er_SchemaVersion rec) "" then ew_SchemaVersion wrapper else er_SchemaVersion rec;
          tl_Signature := ew_Signature wrapper; tl_Status := status wrapper; tl_Keys := []; tl_KeysLogID := "" |}.

Definition buildTransparencyLog (w : World) (rec : EventRecord) : M TransparencyLog :=
  build_log (fun wrapper => statusFromRecord w rec (certExpiresAt wrapper)) rec.

Definition Badge_Get (w : World) (agentID : string) : M TransparencyLog := rec ← LatestEventByAgent w agentID; buildTransparencyLog w rec.

Definition StatusOf (w : World) (agentID : string) : M string :=
  rec ← LatestEventByAgent w agentID;
  wrapper ← lifts (parseEnvelopeWrapper (er_RawEvent rec));
  mret (statusFromRecord w rec (certExpiresAt wrapper)).

Definition Badge_Audit (w : World) (agentID : string) (limit offset : Z) : M (list TransparencyLog) :=
  recs ← EventsByAgent w agentID limit offset; M_map (buildTransparencyLog w) recs.

(** ** [identitybadge.go] *)

Definition innerTimestamp (rawEvent : string) : string :=
  default "" (Unmarshal (at_event (dec_struct (fun m t => field "timestamp" dec_str t m))) "" rawEvent).

(** kind, value and the verification methods. *)
Definition dec_summary : json -> string * string * list (option json) -> option (string * string * list (option json)) := dec_struct (fun m a =>
  kind ← field "kind" dec_str a.1.1 m;
  value ← field "value" dec_str a.1.2 m;
  keys ← field "keys" (dec_list (dec_struct (fun m v => field "verificationMethod" dec_raw v m)) None) a.2 m;
  Some (kind, value, keys)).

Definition proofSummary (rawEvent : string) : string * string * list json :=
  match Unmarshal (at_event dec_summary) ("", "", []) rawEvent with
  | None => ("", "", [])
  | Some (kind, value, keys) => (kind, value, omap id keys)
  end.

Definition identityStatusFromEventType (eventType : string) : string :=
  if String.eqb eventType "IDENTITY_REVOKED" then BadgeIdentityRevoked else BadgeVerified.

Definition identityStatus (w : World) (identityID latestEventType : string) : M string :=
  if String.eqb (identityStatusFromEventType latestEventType) BadgeIdentityRevoked then mret BadgeIdentityRevoked else
  revoked ← IdentityRevoked w identityID;
  mret (if revoked : bool then BadgeIdentityRevoked else BadgeVerified).

Definition identity_buildTransparencyLog (rec : EventRecord) : M TransparencyLog :=
  build_log (fun _ => identityStatusFromEventType (er_EventType rec)) rec.

Definition IdentityBadge_Get (w : World) (identityID : string) : M TransparencyLog :=
  rec ← LatestEventByIdentity w identityID;
  tl ← identity_buildTransparencyLog rec;
  status ← identityStatus w identityID (er_EventType rec);
  let answer keys logID :=
    {| tl_MerkleProof := tl_MerkleProof tl; tl_Payload := tl_Payload tl; tl_SchemaVersion := tl_SchemaVersion tl; tl_Signature := tl_Signature tl;
       tl_Status := status; tl_Keys := keys; tl_KeysLogID := logID |} in
  if String.eqb status BadgeVerified then
    proof ← LatestProofByIdentity w identityID; mret (answer (proofSummary (er_RawEvent proof)).2 (er_LogID proof))
  else mret (answer [] "").

Definition IdentityBadge_Audit (w : World) (identityID : string) (limit offset : Z) : M (list TransparencyLog) :=
  recs ← EventsByIdentity w identityID limit offset; M_map identity_buildTransparencyLog recs.

Definition agentLive (status : string) : bool := one_of status [BadgeActive; BadgeDeprecated; BadgeWarning].

Record LinkedIdentityView := {
  lv_IdentityID : string; lv_Kind : string; lv_Value : string; lv_IdentityStatus : string; lv_Keys : list json; lv_KeysLogID : string;
  lv_LinkedAt : string; lv_LinkLogID : string
}.

Definition linkedIdentityView (w : World) (st : LinkState) : M LinkedIdentityView :=
  linkRec ← EventByLeafIndex w (ls_LeafIndex st);
  latest ← LatestEventByIdentity w (ls_IdentityID st);
  status ← identityStatus w (ls_IdentityID st) (er_EventType latest);
  proof ← LatestProofByIdentity w (ls_IdentityID st);
  let '(kind, value, keys) := proofSummary (er_RawEvent proof) in
  let verified := String.eqb status BadgeVerified in
  mret {| lv_IdentityID := ls_IdentityID st; lv_Kind := kind; lv_Value := value; lv_IdentityStatus := status;
          lv_Keys := if verified then keys else []; lv_KeysLogID := if verified then er_LogID proof else "";
          lv_LinkedAt := innerTimestamp (er_RawEvent linkRec); lv_LinkLogID := er_LogID linkRec |}.

Definition Badge_LinkedIdentitiesForAgent (w : World) (ansID agentStatus : string) : M (list LinkedIdentityView) :=
  if negb (agentLive agentStatus) then mret [] else
  states ← Log_LinkStatesByAgent w ansID;
  M_map (linkedIdentityView w) (filter (fun st => LinkState_Linked st = true) states).

Record LinkedAgentView := { av_AnsID : string; av_LinkedAt : string; av_AgentStatus : string }.

(** [err == nil] is the only case in which the link's event is read. *)
Definition link_time (w : World) (st : LinkState) : M string := fun s =>
  match EventByLeafIndex w (ls_LeafIndex st) s with (Ok linkRec, s') => (Ok (innerTimestamp (er_RawEvent linkRec)), s') | (Err _, s') => (Ok "", s') end.

Definition linkedAgentView (w : World) (st : LinkState) : M (option LinkedAgentView) := fun s =>
  match StatusOf w (ls_AnsID st) s with
  | (Err e, s') => if is_not_found e then (Ok None, s') else (Err e, s')
  | (Ok agentStatus, s') =>
      if negb (agentLive agentStatus) then (Ok None, s') else
      (at_ ← link_time w st; mret (Some {| av_AnsID := ls_AnsID st; av_LinkedAt := at_; av_AgentStatus := agentStatus |})) s'
  end.

Definition LinkedAgentsForIdentity (w : World) (identityID : string) : M (list LinkedAgentView) :=
  _ ← LatestEventByIdentity w identityID;
  states ← Log_LinkStatesByIdentity w identityID;
  views ← M_map (linkedAgentView w) (filter (fun st => LinkState_Linked st = true) states);
  mret (omap id views).

Definition LinkHistoryForAgent (w : World) (ansID : string) (limit offset : Z) : M (list TransparencyLog) :=
  recs ← Log_LinkEventsByAgent w ansID limit offset; M_map identity_buildTransparencyLog recs.
End Badges.

(** ** [statustoken.go] *)

(** [strconv.ParseFloat(lit, 64)] of a number literal is in range: below the
    midpoint between the largest [float64] and the next power of two. *)
Definition float64_limit : Z := 2 ^ 1024 - 2 ^ 970.

Definition float64_fits (lit : string) : bool :=
  let s := TrimPrefix lit "-" in
  let '(int, s) := take_digits s in
  let '(frac, s) := if HasPrefix s "." then take_digits (str_drop 1 s) else ("", s) in
  let e := match s with
           | EmptyString => 0
           | String _ s => if HasPrefix s "-" then - default 0 (digits_val 0 (str_drop 1 s)) else default 0 (digits_val 0 (TrimPrefix s "+"))
           end in
  let m := default 0 (digits_val 0 (int +:+ frac)) in
  let e := e - Z.of_nat (String.length frac) in
  (m =? 0) || (if 0 <=? e then m * 10 ^ e <? float64_limit else m <? float64_limit * 10 ^ (- e)).

(** Every number becomes a [float64]. *)
Fixpoint floats_ok (j : json) : bool :=
  match j with
  | JNum lit => float64_fits lit
  | JArr l => forallb floats_ok l
  | JObj m => forallb (fun kv => floats_ok kv.2) m
  | _ => true
  end.

(** A [map[string]any]: of a repeated name the last value counts. *)
Definition member (k : string) (m : list (string * json)) : option json :=
  last (omap (fun kv => if String.eqb kv.1 k then Some kv.2 else None) m).

(** [json.Unmarshal] into a [map[string]any]. *)
Definition Unmarshal_map (data : string) : option (list (string * json)) :=
  j ← parse_json data;
  match j with
  | JObj m => if floats_ok j then Some m else None
  | JNull => Some []
  | _ => None
  end.

Definition as_map (j : option json) : option (list (string * json)) := match j with Some (JObj m) => Some m | _ => None end.

(** [s, _ := v.(string)] *)
Definition as_string (j : option json) : string := match j with Some (JStr s) => s | _ => "" end.

Definition drillAttestations (env : list (string * json)) : option (list (string * json)) :=
  payload ← as_map (member "payload" env);
  producer ← as_map (member "producer" payload);
  evt ← as_map (member "event" producer);
  as_map (member "attestations" evt).

Definition certFamily (attest : list (string * json)) (current legacy singleton : string) : option json :=
  match member current attest with
  | Some v => Some v
  | None => match member legacy attest with
            | Some v => Some v
            | None => match member singleton attest with Some v => Some (JArr [v]) | None => None end
            end
  end.

Record attestedCertificate := { ac_fp : string; ac_certType : string; ac_expiry : Time }.

(** One element: the certificate it attests, if it has a fingerprint. *)
Definition attested_cert (el : json) : result serr (option attestedCertificate) :=
  match el with
  | JObj m =>
      let fp := as_string (member "fingerprint" m) in
      let ct := as_string (member "type" m) in
      if String.eqb fp "" then Ok None else
      expiry ← match member "notAfter" m with
               | None => Ok zeroTime
               | Some raw => match ParseAttestedExpiry (as_string (Some raw)) with Ok t => Ok t | Err _ => Err (Other "invalid certificate notAfter") end
               end;
      Ok (Some {| ac_fp := fp; ac_certType := ct; ac_expiry := expiry |})
  | _ => Ok None
  end.

(** The loop: what was seen, the list so far and the earliest expiry. *)
Fixpoint current_certs (now : Time) (arr : list json) (seen : list attestedCertificate) (out : list CertFingerprint) (earliest : Time)
  : result serr (list CertFingerprint * Time) :=
  match arr with
  | [] => Ok (out, earliest)
  | el :: rest =>
      c ← attested_cert el;
      match c with
      | None => current_certs now rest seen out earliest
      | Some c =>
          match find_first (fun p => String.eqb (ac_fp p) (ac_fp c)) seen with
          | Some prior =>
              if negb (String.eqb (ac_certType prior) (ac_certType c)) || negb (Time_Equal (ac_expiry prior) (ac_expiry c))
              then Err (Other "conflicting attestations for certificate fingerprint") else current_certs now rest seen out earliest
          | None =>
              let seen := c :: seen in
              if Time_IsZero (ac_expiry c) then current_certs now rest seen (out ++ [{| cf_Fingerprint := ac_fp c; cf_CertType := ac_certType c |}]) earliest else
              if negb (Time_Before now (ac_expiry c)) then current_certs now rest seen out earliest else
              current_certs now rest seen (out ++ [{| cf_Fingerprint := ac_fp c; cf_CertType := ac_certType c |}])
                (if Time_IsZero earliest || Time_Before (ac_expiry c) earliest then ac_expiry c else earliest)
          end
      end
  end.

Definition currentCertFingerprints (v : option json) (now : Time) : result serr (list CertFingerprint * Time) :=
  match v with Some (JArr arr) => current_certs now arr [] [] zeroTime | _ => Ok ([], zeroTime) end.

Definition extractMetadataHashes (v : option json) : list (string * string) :=
  match v with
  | Some (JObj m) =>
      map_to_list (list_to_map (omap (fun k => match member k m with Some (JStr s) => if String.eqb s "" then None else Some (k, s) | _ => None end) (fst <$> m))
                   : gmap string string)
  | _ => []
  end.

Definition sooner (expiry validUntil : Time) : Time :=
  if negb (Time_IsZero expiry) && (Time_IsZero validUntil || Time_Before expiry validUntil) then expiry else validUntil.

Definition buildStatusClaimsAt (rec : EventRecord) (status : string) (now : Time) : result serr StatusTokenClaims :=
  env ← or_other "unmarshal raw_event" (Unmarshal_map (er_RawEvent rec));
  match drillAttestations env with
  | None =>
      Ok {| sc_AgentID := er_AgentID rec; sc_ANSName := er_AnsName rec; sc_Status := status; sc_ValidIdentityCerts := []; sc_ValidServerCerts := [];
            sc_MetadataHashes := []; sc_ValidUntil := zeroTime |}
  | Some attest =>
      identity ← currentCertFingerprints (certFamily attest "identityCerts" "validIdentityCerts" "identityCert") now;
      server ← currentCertFingerprints (certFamily attest "serverCerts" "validServerCerts" "serverCert") now;
      Ok {| sc_AgentID := er_AgentID rec; sc_ANSName := er_AnsName rec; sc_Status := status; sc_ValidIdentityCerts := identity.1;
            sc_ValidServerCerts := server.1; sc_MetadataHashes := extractMetadataHashes (member "metadataHashes" attest);
            sc_ValidUntil := sooner server.2 identity.2 |}
  end.

Definition isTerminal (status : string) : bool := String.eqb status "REVOKED" || String.eqb status "EXPIRED".

Definition with_valid_until (c : StatusTokenClaims) (t : Time) : StatusTokenClaims :=
  {| sc_AgentID := sc_AgentID c; sc_ANSName := sc_ANSName c; sc_Status := sc_Status c; sc_ValidIdentityCerts := sc_ValidIdentityCerts c;
     sc_ValidServerCerts := sc_ValidServerCerts c; sc_MetadataHashes := sc_MetadataHashes c; sc_ValidUntil := t |}.

(** The claims a token is signed over, or the refusal. *)
Definition status_claims (rec : EventRecord) (now : Time) : result serr StatusTokenClaims :=
  wrapper ← parseEnvelopeWrapper (er_RawEvent rec);
  let expiry := certExpiresAt wrapper in
  let status := currentAgentStatus rec expiry now warningWindow in
  if isTerminal status then Err (Other "tl: status tokens are not issued for terminal-state agents") else
  claims ← buildStatusClaimsAt rec status now;
  Ok (with_valid_until claims (sooner expiry (sc_ValidUntil claims))).

Section Tokens.
Context `{U : UnicodeTables} `{J : JCS} `{SJ : SqliteJSON} `{C : CBOR} (sign : string -> string -> option (list Z))
        (marshal_payload : StatusTokenPayload -> option string).

(** [tnow] is the generator's clock. *)
Definition StatusToken_ForAgent (g : KeyManagerStatusTokenGenerator) (w : World) (tnow : Time) (agentID : string) : M string :=
  rec ← LatestEventByAgent w agentID;
  claims ← lifts (status_claims rec (w_now w));
  lifts match GenerateStatusToken sign marshal_payload g tnow claims with Ok b => Ok b | Err _ => Err (Other "status-token: generate") end.
End Tokens.
