(* ===== verification/TlCheckpoint.v ===== *)
(** The checkpoint service, [internal/tl/service/checkpoint.go]: what the log
    shows of its stored checkpoints, and their history in pages.

    [None] for the signing key is a service without verifiers.  The tree height,
    a floating-point logarithm shown for information, is left out. *)
From stdpp Require Import gmap sorting.
From S2P Require Import Prelude GoStrings GoTime DomainErrors GoEncoding GoJSON Jcs Sha256 TlEvent TlEnvelope Jws JwsSpec Utf8 Discovery TlStore TlStoreSpec LogNote LogNoteSpec TlLog Merkle Receipt TlProof TlBadge.

#[local] Set Default Goal Selector "!".
#[local] Open Scope Z_scope.

Definition ck_algES256 : string := "ES256".

Record CheckpointSignatureView := {
  sv_SignerName : string;
  sv_SignatureType : string;
  sv_Algorithm : string;
  sv_KeyHash : string;
  sv_RawSignature : string;
  sv_JwsSignature : string;
  sv_JwsHeader : option (list (string * json));
  sv_JwsPayload : option (list (string * json));
  sv_Timestamp : Time;
  sv_KmsKeyID : string;
  sv_Valid : bool
}.

Record CheckpointView := {
  cv_LogSize : Z;
  cv_RootHashBase64 : string;
  cv_OriginName : string;
  cv_CheckpointFormat : string;
  cv_CheckpointText : string;
  cv_CreatedAt : Time;
  cv_PublicKeyPEM : string;
  cv_Signatures : list CheckpointSignatureView
}.

Record CheckpointPage := { pg_Items : list CheckpointView; pg_Total : Z; pg_Limit : Z; pg_Offset : Z; pg_NextOffset : option Z }.

Record HistoryInput := {
  hi_Limit : Z; hi_Offset : Z; hi_FromSize : option Z; hi_ToSize : option Z; hi_Since : option Time; hi_Order : string
}.

(** ** Numbers in a claim *)

(** The quotient rounded to nearest, ties to even. *)
Definition div_round_even (a b : Z) : Z :=
  let q := a / b in let r := 2 * (a mod b) in
  if r <? b then q else if b <? r then q + 1 else if Z.even q then q else q + 1.

(** [int64(ts)] of the [float64] nearest to the positive number [num]/[den];
    past the range, the value of amd64. *)
Definition float64_seconds (num den : Z) : Z :=
  let k := Z.log2 num - Z.log2 den in
  let k := if num * 2 ^ Z.max 0 (- k) <? den * 2 ^ Z.max 0 k then k - 1 else k in
  let ulp := Z.max (k - 52) (-1074) in
  let mant := div_round_even (num * 2 ^ Z.max 0 (- ulp)) (den * 2 ^ Z.max 0 ulp) in
  let v := mant * 2 ^ Z.max 0 ulp / 2 ^ Z.max 0 (- ulp) in
  if v <? 2 ^ 63 then v else - 2 ^ 63.

(** A number literal as a fraction. *)
Definition literal_fraction (lit : string) : Z * Z :=
  let sign := if HasPrefix lit "-" then -1 else 1 in
  let s := TrimPrefix lit "-" in
  let '(int, s) := take_digits s in
  let '(frac, s) := if HasPrefix s "." then take_digits (str_drop 1 s) else ("", s) in
  let e := match s with
           | EmptyString => 0
           | String _ s => if HasPrefix s "-" then - default 0 (digits_val 0 (str_drop 1 s)) else default 0 (digits_val 0 (TrimPrefix s "+"))
           end in
  let m := sign * default 0 (digits_val 0 (int +:+ frac)) in
  let e := e - Z.of_nat (String.length frac) in
  (m * 10 ^ Z.max 0 e, 10 ^ Z.max 0 (- e)).

(** [time.Unix(sec, 0)]. *)
Definition time_Unix (sec : Z) : Time := (sec + unixToInternal) * Second.

(** The [timestamp] claim, when its [float64] is positive: a number up to half
    the least one is read as zero. *)
Definition claim_time (p : list (string * json)) : Time :=
  match member "timestamp" p with
  | Some (JNum lit) => let '(num, den) := literal_fraction lit in if den <? num * 2 ^ 1075 then time_Unix (float64_seconds num den) else zeroTime
  | _ => zeroTime
  end.

Section Service.
Context `{S : SigSchemes}.

Record CheckpointService := { cs_signingKey : option ecdsa_key; cs_primaryPublicKeyPEM : string }.

Definition NewCheckpointService : CheckpointService := {| cs_signingKey := None; cs_primaryPublicKeyPEM := "" |}.
Definition WithVerifiers (s : CheckpointService) (signingKey : option ecdsa_key) (pem : string) : CheckpointService :=
  {| cs_signingKey := signingKey; cs_primaryPublicKeyPEM := pem |}.

Definition signature_view (origin : string) (sig : Signature) : CheckpointSignatureView :=
  {| sv_SignerName := if String.eqb (sg_Name sig) "" then origin else sg_Name sig;
     sv_SignatureType := SigType_String (Classify sig); sv_Algorithm := ck_algES256;
     sv_KeyHash := if String.eqb (KeyHashHex sig) "" then "" else "0x" +:+ KeyHashHex sig;
     sv_RawSignature := sg_Raw sig; sv_JwsSignature := ""; sv_JwsHeader := None; sv_JwsPayload := None; sv_Timestamp := zeroTime; sv_KmsKeyID := "";
     sv_Valid := false |}.

Definition checkpointSignatureViews (raw origin : string) : string * list CheckpointSignatureView :=
  match SplitNote raw with
  | None => (raw, [])
  | Some (body, sigs) => (body, signature_view origin <$> sigs)
  end.

Definition with_valid (sv : CheckpointSignatureView) (valid : bool) : CheckpointSignatureView :=
  {| sv_SignerName := sv_SignerName sv; sv_SignatureType := sv_SignatureType sv; sv_Algorithm := sv_Algorithm sv; sv_KeyHash := sv_KeyHash sv;
     sv_RawSignature := sv_RawSignature sv; sv_JwsSignature := sv_JwsSignature sv; sv_JwsHeader := sv_JwsHeader sv; sv_JwsPayload := sv_JwsPayload sv;
     sv_Timestamp := sv_Timestamp sv; sv_KmsKeyID := sv_KmsKeyID sv; sv_Valid := valid |}.

Definition enrichC2SPSignature (s : CheckpointService) (body : string) (sv : CheckpointSignatureView) : CheckpointSignatureView :=
  match cs_signingKey s with
  | None => sv
  | Some key =>
      match std_DecodeString (sv_RawSignature sv) with
      | None => sv
      | Some raw => if (String.length raw <? 4)%nat then sv else with_valid sv (VerifyC2SPECDSA (Some key) body (str_drop 4 raw))
      end
  end.

Definition enrichJWSSignature (s : CheckpointService) (sv : CheckpointSignatureView) : CheckpointSignatureView :=
  match std_DecodeString (sv_RawSignature sv) with
  | None => sv
  | Some raw =>
      if (String.length raw <? 4)%nat then sv else
      let jwsCompact := str_drop 4 raw in
      let shown header payload ts valid :=
        {| sv_SignerName := sv_SignerName sv; sv_SignatureType := sv_SignatureType sv; sv_Algorithm := sv_Algorithm sv; sv_KeyHash := sv_KeyHash sv;
           sv_RawSignature := sv_RawSignature sv; sv_JwsSignature := jwsCompact; sv_JwsHeader := header; sv_JwsPayload := payload; sv_Timestamp := ts;
           sv_KmsKeyID := OpaqueKeyIDFromHash (be_uint32 raw); sv_Valid := valid |} in
      match Split jwsCompact "." with
      | [h; p; _] =>
          let header := b64_DecodeString h ≫= Unmarshal_map in
          let payload := b64_DecodeString p ≫= Unmarshal_map in
          let valid := match cs_signingKey s with
                       | None => sv_Valid sv
                       | Some key => is_ok (VerifyStandardJWSWithPublicKey (EcdsaKey key) jwsCompact)
                       end in
          shown header payload (from_option claim_time (sv_Timestamp sv) payload) valid
      | _ => shown (sv_JwsHeader sv) (sv_JwsPayload sv) (sv_Timestamp sv) (sv_Valid sv)
      end
  end.

Definition enrichSignature (s : CheckpointService) (body : string) (sv : CheckpointSignatureView) : CheckpointSignatureView :=
  if String.eqb (sv_SignatureType sv) (SigType_String SigTypeJWS) then enrichJWSSignature s sv else
  if String.eqb (sv_SignatureType sv) (SigType_String SigTypeC2SP) then enrichC2SPSignature s body sv else sv.

Definition enrichSignatures (s : CheckpointService) (body : string) (sigs : list CheckpointSignatureView) : list CheckpointSignatureView :=
  enrichSignature s body <$> sigs.

Definition viewFromRecord (s : CheckpointService) (rec : CheckpointRecord) : CheckpointView :=
  let '(text, sigs) := checkpointSignatureViews (cp_CheckpointRaw rec) (cp_Origin rec) in
  {| cv_LogSize := cp_TreeSize rec;
     cv_RootHashBase64 := match hex_DecodeString (cp_TreeHashHex rec) with Some raw => std_EncodeToString raw | None => "" end;
     cv_OriginName := cp_Origin rec; cv_CheckpointFormat := "c2sp-tlog/v1"; cv_CheckpointText := text; cv_CreatedAt := UnixMilli (cp_CreatedAtMs rec);
     cv_PublicKeyPEM := cs_primaryPublicKeyPEM s; cv_Signatures := enrichSignatures s text sigs |}.

(** [awaitAndStoreCheckpoint]: [awaited] is what the publication awaiter returned;
    every failure is dropped. *)
Definition awaitAndStoreCheckpoint (awaited : option string) (origin : string) (now : Time) (d : TlDB) : TlDB :=
  match awaited with
  | None => d
  | Some cpBytes =>
      if String.eqb cpBytes "" then d else
      match parseCheckpointHeader cpBytes with
      | None => d
      | Some (size, rootHex) =>
          match hex_DecodeString rootHex with
          | None => d
          | Some rootHash => CheckpointStore_Store d size rootHash cpBytes origin (Time_UnixMilli now)
          end
      end
  end.

(** [LatestCheckpoint]: the file, or the database. *)
Definition LatestCheckpoint (file : option string) (d : TlDB) : result serr string :=
  match file with
  | Some raw => Ok raw
  | None => match CheckpointStore_Latest d with Ok rec => Ok (cp_CheckpointRaw rec) | Err _ => Err (Other "log: checkpoint read file") end
  end.

Definition Checkpoint_Latest (s : CheckpointService) (d : TlDB) : result serr CheckpointView :=
  rec ← CheckpointStore_Latest d; Ok (viewFromRecord s rec).

Context `{F : CaseOrbits}.

Definition History (s : CheckpointService) (d : TlDB) (in_ : HistoryInput) : CheckpointPage :=
  let limit := if hi_Limit in_ <=? 0 then 10 else hi_Limit in_ in
  let limit := if 100 <? limit then 100 else limit in
  let offset := if hi_Offset in_ <? 0 then 0 else hi_Offset in_ in
  let total := CheckpointStore_Count d (hi_FromSize in_) (hi_ToSize in_) (hi_Since in_) in
  let rows := CheckpointStore_List d limit offset (hi_FromSize in_) (hi_ToSize in_) (hi_Since in_) (hi_Order in_) in
  let items := viewFromRecord s <$> rows in
  let nextStart := offset + Z.of_nat (length items) in
  {| pg_Items := items; pg_Total := total; pg_Limit := limit; pg_Offset := offset; pg_NextOffset := if nextStart <? total then Some nextStart else None |}.

(** ** Pages *)

(** A client that follows [NextOffset]. *)
Fixpoint walk (fuel : nat) (s : CheckpointService) (d : TlDB) (in_ : HistoryInput) : list CheckpointView :=
  match fuel with
  | O => []
  | Datatypes.S f =>
      let page := History s d in_ in
      pg_Items page ++
      match pg_NextOffset page with
      | None => []
      | Some next =>
          walk f s d {| hi_Limit := hi_Limit in_; hi_Offset := next; hi_FromSize := hi_FromSize in_; hi_ToSize := hi_ToSize in_; hi_Since := hi_Since in_;
                        hi_Order := hi_Order in_ |}
      end
  end.

(** All the checkpoints the filter selects, in the order asked for. *)
Definition selected (d : TlDB) (in_ : HistoryInput) : list CheckpointRecord :=
  order_by (fun c => (if EqualFold (hi_Order in_) "asc" then cp_TreeSize c else - cp_TreeSize c, 0, 0))
    (filter (fun c => checkpoint_filter (hi_FromSize in_) (hi_ToSize in_) (hi_Since in_) c = true) (t_checkpoints d)).

Lemma order_by_length {A} (key : A -> Z * Z * Z) rows : length (order_by key rows) = length rows.
Proof. unfold order_by. by rewrite merge_sort_Permutation. Qed.

Lemma selected_count d in_ : CheckpointStore_Count d (hi_FromSize in_) (hi_ToSize in_) (hi_Since in_) = Z.of_nat (length (selected d in_)).
Proof. unfold CheckpointStore_Count, selected. by rewrite order_by_length. Qed.

(** One page is the next rows; there is a next page exactly while rows remain. *)
Lemma History_page s d in_ :
  let off := Z.to_nat (hi_Offset in_) in
  exists k, (0 < k <= 100)%nat /\ pg_Items (History s d in_) = viewFromRecord s <$> take k (drop off (selected d in_)) /\
    pg_Total (History s d in_) = Z.of_nat (length (selected d in_)) /\
    pg_NextOffset (History s d in_) = if (off + length (pg_Items (History s d in_)) <? length (selected d in_))%nat
      then Some (Z.of_nat (off + length (pg_Items (History s d in_)))) else None.
Proof.
  cbn zeta. set (limit := (let l := if hi_Limit in_ <=? 0 then 10 else hi_Limit in_ in if 100 <? l then 100 else l)).
  assert (0 < limit <= 100) as Hl by (subst limit; cbn zeta; repeat case_if; b2p; lia).
  set (off := if hi_Offset in_ <? 0 then 0 else hi_Offset in_). assert (off = Z.of_nat (Z.to_nat (hi_Offset in_))) as Eo by (subst off; case_if; b2p; lia).
  exists (Z.to_nat limit). split; [lia|]. unfold History. fold limit. fold off. cbn [pg_Items pg_Total pg_NextOffset]. rewrite selected_count.
  assert (CheckpointStore_List d limit off (hi_FromSize in_) (hi_ToSize in_) (hi_Since in_) (hi_Order in_) =
    take (Z.to_nat limit) (drop (Z.to_nat (hi_Offset in_)) (selected d in_))) as ->.
  { unfold CheckpointStore_List, page, clampPage. rewrite (proj2 (Z.leb_gt limit 0)), (proj2 (Z.ltb_ge 200 limit)), (proj2 (Z.ltb_ge off 0)) by lia. cbn [orb].
    by rewrite Eo, Nat2Z.id. }
  split_and!; [done|done|]. rewrite Eo, <-Nat2Z.inj_add.
  destruct (Nat.ltb_spec (Z.to_nat (hi_Offset in_) + length (viewFromRecord s <$> take (Z.to_nat limit) (drop (Z.to_nat (hi_Offset in_)) (selected d in_)))) (length (selected d in_)));
    case_if; b2p; (done || lia).
Qed.

(** Paging misses nothing and ends.  A client that starts at the first page and
    follows [NextOffset] gets every stored checkpoint the filter selects, once
    each and in the order asked for, whatever page size it asks for; each page
    reports that total; and the walk ends after at most one page per
    checkpoint. *)
Theorem history_pages_complete s d in_ fuel :
  hi_Offset in_ <= 0 -> (length (selected d in_) < fuel)%nat -> walk fuel s d in_ = viewFromRecord s <$> selected d in_.
Proof.
  intros Ho Hf. rewrite <-(drop_0 (selected d in_)). replace 0%nat with (Z.to_nat (hi_Offset in_)) by lia.
  assert (length (selected d in_) - Z.to_nat (hi_Offset in_) < fuel)%nat as Hf' by lia. clear Ho Hf. revert in_ Hf'.
  induction fuel as [|fuel IH]; intros in_ Hf; [lia|]. cbn [walk]. destruct (History_page s d in_) as (k & Hk & Ei & _ & En). rewrite En, Ei.
  rewrite length_fmap, length_take, length_drop. rewrite <-(take_drop k (drop (Z.to_nat (hi_Offset in_)) (selected d in_))) at 2. rewrite fmap_app. f_equal.
  destruct (Nat.ltb_spec (Z.to_nat (hi_Offset in_) + k `min` (length (selected d in_) - Z.to_nat (hi_Offset in_))) (length (selected d in_))).
  - rewrite IH; cbn [hi_Offset]; unfold selected; cbn [hi_Order hi_FromSize hi_ToSize hi_Since]; fold (selected d in_); rewrite Nat2Z.id.
    + rewrite drop_drop. do 2 f_equal. lia.
    + lia.
  - rewrite drop_drop, drop_ge by lia. done.
Qed.
End Service.

(** ** Three checkpoints, two to a page *)

#[local] Existing Instance demo_schemes.
#[local] Instance plain_orbits : CaseOrbits := {| SimpleFold := id |}.

Definition demo_checkpoints : TlDB :=
  let store d n := CheckpointStore_Store d n (Itoa n) "raw" "log" 1700000000000 in store (store (store empty_tldb 1) 2) 3.
Definition demo_history : HistoryInput :=
  {| hi_Limit := 2; hi_Offset := 0; hi_FromSize := None; hi_ToSize := None; hi_Since := None; hi_Order := "desc" |}.

Lemma history_pages_complete_witness :
  cv_LogSize <$> walk 4 NewCheckpointService demo_checkpoints demo_history = [3; 2; 1] /\
  pg_NextOffset (History NewCheckpointService demo_checkpoints demo_history) = Some 2.
Proof.
  split; [|vm_compute; reflexivity]. rewrite (history_pages_complete NewCheckpointService demo_checkpoints demo_history 4).
  - vm_compute. reflexivity.
  - cbn. lia.
  - vm_compute. lia.
Defined.
