(* ===== verification/TlBadgeSpec.v ===== *)
(** What the log's badges and status tokens promise, over every state the log
    can reach.

    A status token lists exactly the certificates that are current and does not
    outlive one of them; a revoked agent or identity is answered as such for
    good; the identities shown for an agent are those its last link event left
    linked. *)
From stdpp Require Import gmap sorting.
From S2P Require Import Prelude GoStrings Utf8 GoTime DomainErrors SemVer AnsName GoEncoding GoJSON GoJSONSpec Jcs Sha256 Lifecycle Discovery TlEvent TlEnvelope TlEnvelopeSpec RaEvents P1363 Jws JwsSpec TlStore TlStoreSpec TlLog TlLogInv TlLogSpec LogNote Merkle Receipt TlProof TlBadge.

#[local] Set Default Goal Selector "!".
#[local] Open Scope Z_scope.

(** ** Status tokens *)

Definition unexpired (now : Time) (c : attestedCertificate) : Prop := ac_expiry c = 0 \/ now < ac_expiry c.

Definition fp_of (c : attestedCertificate) : CertFingerprint := {| cf_Fingerprint := ac_fp c; cf_CertType := ac_certType c |}.

(** The certificates a family attests. *)
Definition certs_of (v : option json) : list attestedCertificate :=
  match v with
  | Some (JArr arr) => omap (fun el => match attested_cert el with Ok c => c | Err _ => None end) arr
  | _ => []
  end.

Definition attested_family (rec : EventRecord) (current legacy singleton : string) : list attestedCertificate :=
  match Unmarshal_map (er_RawEvent rec) ≫= drillAttestations with
  | Some attest => certs_of (certFamily attest current legacy singleton)
  | None => []
  end.

Definition identity_family (rec : EventRecord) := attested_family rec "identityCerts" "validIdentityCerts" "identityCert".
Definition server_family (rec : EventRecord) := attested_family rec "serverCerts" "validServerCerts" "serverCert".

(** The loop's state: what was seen decides the list and the earliest expiry. *)
Record certs_inv (now : Time) (seen : list attestedCertificate) (out : list CertFingerprint) (earliest : Time) : Prop := {
  ci_unique : NoDup (ac_fp <$> seen);
  ci_listed f : f ∈ out <-> exists c, c ∈ seen /\ unexpired now c /\ f = fp_of c;
  ci_bound c : c ∈ seen -> unexpired now c -> ac_expiry c <> 0 -> earliest <> 0 /\ earliest <= ac_expiry c;
  ci_fresh : earliest = 0 \/ now < earliest
}.

Lemma certs_inv_skip now seen out earliest c :
  certs_inv now seen out earliest -> ac_fp c ∉ ac_fp <$> seen -> ~ unexpired now c -> certs_inv now (c :: seen) out earliest.
Proof.
  intros [H1 H2 H3 H4] Hn Hd. split; [by apply NoDup_cons| | |done].
  - intros f. rewrite H2. split; intros (p & Hp & Hl & ->); exists p; [set_solver|]. apply elem_of_cons in Hp as [->|Hp]; [done|done].
  - intros p [->|Hp]%elem_of_cons Hl; [done|by apply H3].
Qed.

Lemma certs_inv_list now seen out earliest earliest' c :
  certs_inv now seen out earliest -> ac_fp c ∉ ac_fp <$> seen -> unexpired now c ->
  earliest' = (if (ac_expiry c =? 0) then earliest else if (earliest =? 0) || (ac_expiry c <? earliest) then ac_expiry c else earliest) ->
  certs_inv now (c :: seen) (out ++ [fp_of c]) earliest'.
Proof.
  intros [H1 H2 H3 H4] Hn Hl ->. unfold unexpired in Hl. split; [by apply NoDup_cons| | |].
  - intros f. rewrite elem_of_app, H2, list_elem_of_singleton. split.
    + intros [(p & Hp & Hlp & ->)| ->]; [exists p|exists c]; set_solver.
    + intros (p & [->|Hp]%elem_of_cons & Hlp & ->); [by right|left; eauto].
  - intros p [->|Hp]%elem_of_cons Hlp Hne.
    + destruct (Z.eqb_spec (ac_expiry c) 0), (Z.eqb_spec earliest 0), (Z.ltb_spec (ac_expiry c) earliest); cbn [orb]; lia.
    + destruct (H3 p Hp Hlp Hne) as [He Hle].
      destruct (Z.eqb_spec (ac_expiry c) 0), (Z.eqb_spec earliest 0), (Z.ltb_spec (ac_expiry c) earliest); cbn [orb]; lia.
  - destruct (Z.eqb_spec (ac_expiry c) 0), (Z.eqb_spec earliest 0), (Z.ltb_spec (ac_expiry c) earliest); cbn [orb]; lia.
Qed.

Lemma current_certs_inv now arr seen out earliest l e :
  current_certs now arr seen out earliest = Ok (l, e) -> certs_inv now seen out earliest ->
  exists seen', certs_inv now seen' l e /\ forall c, c ∈ seen' <-> c ∈ seen \/ c ∈ certs_of (Some (JArr arr)).
Proof.
  revert seen out earliest. induction arr as [|el arr IH]; intros seen out earliest; cbn [current_certs].
  { intros [= -> ->] H. exists seen. split; [done|]. intros c. cbn. set_solver. }
  intros (c & Hc & H)%bind_Ok Hinv. cbn [certs_of omap list_omap]. rewrite Hc. destruct c as [c|]; [|by apply IH in H].
  destruct (find_first _ seen) as [p|] eqn:Ef.
  { apply find_first_Some in Ef as [Hp Efp%String.eqb_eq]. case_if_in H; [done|]. b2p. apply IH in H as (seen' & Hs1 & Hs2); [|done].
    assert (p = c) as -> by (destruct p, c; cbn in *; unfold Time_Equal in *; b2p; congruence).
    exists seen'. split; [done|]. intros x. rewrite Hs2. cbn [certs_of]. set_solver. }
  assert (ac_fp c ∉ ac_fp <$> seen) as Hn.
  { intros (p & Ep & Hp)%list_elem_of_fmap. rewrite find_first_None, Forall_forall in Ef. specialize (Ef p Hp). cbn in Ef. by rewrite Ep, String.eqb_refl in Ef. }
  assert (forall out' e', certs_inv now (c :: seen) out' e' -> current_certs now arr (c :: seen) out' e' = Ok (l, e) ->
    exists seen', certs_inv now seen' l e /\ forall x, x ∈ seen' <-> x ∈ seen \/ x ∈ c :: certs_of (Some (JArr arr))) as HG.
  { intros out' e' Hi Hr. apply IH in Hr as (seen' & H1 & H2); [|done]. exists seen'. split; [done|]. intros x. rewrite H2. set_solver. }
  cbn zeta in H. unfold Time_IsZero, Time_Before in H. case_if_in H; [|case_if_in H]; b2p; (eapply HG; [|exact H]).
  - apply (certs_inv_list now seen out earliest); [done..|by left|]. case_if; [done|]. b2p. lia.
  - apply certs_inv_skip; [done..|]. unfold unexpired. lia.
  - apply (certs_inv_list now seen out earliest); [done..|right; lia|]. by destruct (Z.eqb_spec (ac_expiry c) 0).
Qed.

Lemma currentCertFingerprints_inv v now l e :
  currentCertFingerprints v now = Ok (l, e) ->
  exists seen, certs_inv now seen l e /\ forall c, c ∈ seen <-> c ∈ certs_of v.
Proof.
  assert (certs_inv now [] [] zeroTime) as H0.
  { split; [constructor| | |by left]; [|by intros c ?%elem_of_nil]. intros f. split; [by intros ?%elem_of_nil|]. by intros (c & ?%elem_of_nil & _). }
  unfold currentCertFingerprints. destruct v as [[ | | | |arr| ]|]; try (intros [= <- <-]; exists []; split; [done|]; intros c; cbn; set_solver).
  intros H. destruct (current_certs_inv _ _ _ _ _ _ _ H H0) as (seen & H1 & H2). exists seen. split; [done|]. intros c. rewrite H2. set_solver.
Qed.

(** What the loop leaves, without what it saw. *)
Definition certs_bound (now : Time) (certs : list attestedCertificate) (l : list CertFingerprint) (e : Time) : Prop :=
  (forall f, f ∈ l <-> exists x, x ∈ certs /\ unexpired now x /\ f = fp_of x) /\
  (forall x, x ∈ certs -> unexpired now x -> ac_expiry x <> 0 -> e <> 0 /\ e <= ac_expiry x) /\
  (e = 0 \/ now < e).

Lemma certs_bound_of now v l e : currentCertFingerprints v now = Ok (l, e) -> certs_bound now (certs_of v) l e.
Proof.
  intros (seen & [_ H1 H2 H3] & Hs)%currentCertFingerprints_inv. split_and!; [|intros x Hx; by apply H2, Hs|done].
  intros f. rewrite H1. split; intros (x & Hx & H); exists x; (split; [by apply Hs|done]).
Qed.

Lemma certs_bound_nil now : certs_bound now [] [] 0.
Proof. split_and!; [|by intros x ?%elem_of_nil|by left]. intros f. split; [by intros ?%elem_of_nil|]. by intros (x & ?%elem_of_nil & _). Qed.

(** Zero is no date; otherwise the earlier one. *)
Lemma sooner_bound n a b :
  (a <> 0 -> sooner a b <> 0 /\ sooner a b <= a) /\ (b <> 0 -> sooner a b <> 0 /\ sooner a b <= b) /\
  (a = 0 \/ n < a -> b = 0 \/ n < b -> sooner a b = 0 \/ n < sooner a b).
Proof.
  unfold sooner, Time_IsZero, Time_Before. destruct (Z.eqb_spec a 0), (Z.eqb_spec b 0), (Z.ltb_spec a b); cbn [negb orb andb]; lia.
Qed.

(** The claims: what is listed, and until when. *)
Lemma status_claims_Ok rec now c :
  status_claims rec now = Ok c ->
  sc_AgentID c = er_AgentID rec /\ isTerminal (sc_Status c) = false /\ er_EventType rec <> TypeAgentRevoked /\
  (forall f, f ∈ sc_ValidIdentityCerts c <-> exists x, x ∈ identity_family rec /\ unexpired now x /\ f = fp_of x) /\
  (forall f, f ∈ sc_ValidServerCerts c <-> exists x, x ∈ server_family rec /\ unexpired now x /\ f = fp_of x) /\
  (forall x, x ∈ identity_family rec \/ x ∈ server_family rec -> unexpired now x -> ac_expiry x <> 0 ->
     sc_ValidUntil c <> 0 /\ sc_ValidUntil c <= ac_expiry x) /\
  (forall wr, parseEnvelopeWrapper (er_RawEvent rec) = Ok wr -> certExpiresAt wr <> 0 ->
     now < certExpiresAt wr /\ sc_ValidUntil c <> 0 /\ sc_ValidUntil c <= certExpiresAt wr) /\
  (sc_ValidUntil c = 0 \/ now < sc_ValidUntil c).
Proof.
  unfold status_claims. intros (wr & Hwr & H)%bind_Ok. cbn zeta in H. destruct (isTerminal _) eqn:Et in H; [done|].
  apply bind_Ok in H as (claims & Hcl & [= <-]). cbn [with_valid_until sc_AgentID sc_Status sc_ValidIdentityCerts sc_ValidServerCerts sc_ValidUntil].
  assert (er_EventType rec <> TypeAgentRevoked /\ (certExpiresAt wr = 0 \/ now < certExpiresAt wr)) as [Hty Hexp].
  { unfold currentAgentStatus in Et. split; [intros E; by rewrite E in Et|]. case_if_in Et; [done|]. case_if_in Et; [done|].
    match goal with H : _ && _ = false |- _ => apply andb_false_iff in H as [H|H] end; unfold Time_IsZero, Time_Before in *; b2p; lia. }
  assert (exists e1 e2, certs_bound now (identity_family rec) (sc_ValidIdentityCerts claims) e1 /\ certs_bound now (server_family rec) (sc_ValidServerCerts claims) e2 /\
    sc_ValidUntil claims = sooner e2 e1 /\ sc_AgentID claims = er_AgentID rec /\ isTerminal (sc_Status claims) = false) as (e1 & e2 & HI & HS & HV & Hid & Hst).
  { unfold identity_family, server_family, attested_family. unfold buildStatusClaimsAt in Hcl. apply bind_Ok in Hcl as (env & Henv & Hcl).
    destruct (Unmarshal_map (er_RawEvent rec)) as [env'|]; [|done]. injection Henv as ->. cbn [mbind option_bind].
    destruct (drillAttestations env) as [att|].
    - apply bind_Ok in Hcl as ([l1 e1] & H1 & Hcl). apply bind_Ok in Hcl as ([l2 e2] & H2 & [= <-]). exists e1, e2. cbn.
      split_and!; [by apply certs_bound_of|by apply certs_bound_of|done..].
    - injection Hcl as <-. exists 0, 0. cbn. split_and!; [apply certs_bound_nil|apply certs_bound_nil|done..]. }
  destruct HI as (HI1 & HI2 & HI3), HS as (HS1 & HS2 & HS3). rewrite HV.
  destruct (sooner_bound now e2 e1) as (B1 & B2 & B3), (sooner_bound now (certExpiresAt wr) (sooner e2 e1)) as (B4 & B5 & B6).
  split_and!; [done..| | |by auto].
  - intros x [Hx|Hx] Hl Hne.
    + destruct (HI2 x Hx Hl Hne) as [N L]. destruct (B2 N) as [N' L']. destruct (B5 N'). split; [done|lia].
    + destruct (HS2 x Hx Hl Hne) as [N L]. destruct (B1 N) as [N' L']. destruct (B5 N'). split; [done|lia].
  - intros wr' Hwr'. rewrite Hwr in Hwr'. injection Hwr' as <-. intros Hne. by destruct (B4 Hne), Hexp.
Qed.

Lemma status_payload_window ttl now claims pl :
  status_payload ttl now claims = Ok pl ->
  st_IAT pl = Time_Unix now /\ st_IAT pl < st_EXP pl <= Time_Unix (now + ttl) /\
  (sc_ValidUntil claims <> 0 -> st_EXP pl <= Time_Unix (sc_ValidUntil claims)) /\ st_AgentID pl = sc_AgentID claims /\
  st_ValidIdentityCerts pl = sc_ValidIdentityCerts claims /\ st_ValidServerCerts pl = sc_ValidServerCerts claims.
Proof.
  intros H. destruct (status_token_window ttl now claims) as [W _]. destruct (W pl H) as (W1 & W2 & W3 & _ & W4). split_and!; try done; try apply W2.
  all: unfold status_payload in H; cbn zeta in H; destruct (_ <=? _); [done|by injection H as <-].
Qed.

(** ** Fenced reads

    A read leaves the log alone, and what it returns was read from an index that
    holds every leaf. *)

Section Spec.
Context `{U : UnicodeTables} `{J : JCS, !JCSLaws J} `{S : SigSchemes} `{X : PemX509, KP : !KeyParser, JO : !Jose, !JoseLaws JO} `{SJ : SqliteJSON}.

Definition reads {A} (s : LogState) (m : M A) (Q : A -> Prop) : Prop :=
  log_inv (m s).2 /\ s_leaves (m s).2 = s_leaves s /\ forall a, (m s).1 = Ok a -> Q a.

(** An index of the log [leaves]. *)
Definition view_of (leaves : list string) (d : TlDB) : Prop :=
  exists s, log_inv s /\ complete s /\ s_leaves s = leaves /\ s_db s = d.

Lemma reads_bind {A B} s (m : M A) (f : A -> M B) P Q :
  reads s m P -> (forall a s', log_inv s' -> s_leaves s' = s_leaves s -> P a -> reads s' (f a) Q) -> reads s (m ≫= f) Q.
Proof.
  intros (Hi & Hl & HP) Hf. unfold reads, mbind, M_bind. destruct (m s) as [[a|e] s'] eqn:E; cbn [fst snd] in *; [|done].
  destruct (Hf a s' Hi Hl (HP a eq_refl)) as (H1 & H2 & H3). split_and!; [done|congruence|done].
Qed.

Lemma reads_ret {A} s (a : A) (Q : A -> Prop) : log_inv s -> Q a -> reads s (mret a) Q.
Proof. intros H HQ. split_and!; [done|done|]. by intros a' [= <-]. Qed.

Lemma reads_lifts {A} s (r : result serr A) : log_inv s -> reads s (lifts r) (fun a => r = Ok a).
Proof. intros H. by split_and!. Qed.

Lemma reads_mono {A} s (m : M A) (P Q : A -> Prop) : reads s m P -> (forall a, P a -> Q a) -> reads s m Q.
Proof. intros (H1 & H2 & H3) H. split_and!; auto. Qed.

Lemma reads_fenced {A} w (f : TlDB -> A) s :
  TesseraLaws (w_tessera w) -> log_inv s -> reads s (fenced w f) (fun a => exists d, view_of (s_leaves s) d /\ a = f d).
Proof.
  intros HT Hs. unfold reads, fenced, lockIndexedRead, mbind, M_bind, gets. destruct (s_indexReady s) eqn:Er.
  { cbn. split_and!; [done..|]. intros a [= <-]. exists (s_db s). split; [|done]. exists s. split_and!; try done. exact (li_ready s Hs Er). }
  destruct (RecoverIndex_inv w s HT Hs) as (H1 & H2 & _ & H3). destruct (RecoverIndex w s) as [[[]|e] s'] eqn:E; cbn [fst snd] in *; [|done].
  split_and!; [done..|]. intros a [= <-]. exists (s_db s'). split; [|done]. exists s'. destruct (H3 eq_refl). by split_and!.
Qed.

Lemma reads_fenced_result {A} w (f : TlDB -> result serr A) s :
  TesseraLaws (w_tessera w) -> log_inv s -> reads s (fenced_result w f) (fun a => exists d, view_of (s_leaves s) d /\ f d = Ok a).
Proof.
  intros HT Hs. eapply reads_bind; [by apply reads_fenced|]. cbn. intros r s' Hs' _ (d & Hd & ->). eapply reads_mono; [by apply reads_lifts|]. cbn. eauto.
Qed.

Lemma reads_map {A B} (f : A -> M B) (Q : A -> B -> Prop) l s :
  log_inv s -> (forall a s', a ∈ l -> log_inv s' -> s_leaves s' = s_leaves s -> reads s' (f a) (Q a)) -> reads s (M_map f l) (Forall2 Q l).
Proof.
  revert s. induction l as [|a l IH]; intros s Hs Hf; cbn [M_map]; [by apply reads_ret|].
  eapply reads_bind; [apply Hf; [set_solver|done..]|]. intros b s1 Hs1 El1 Hb. eapply reads_bind.
  { apply IH; [done|]. intros a' s' Ha' Hs' El'. apply Hf; [set_solver|done|congruence]. }
  intros bs s2 Hs2 _ Hbs. apply reads_ret; [done|]. by constructor.
Qed.

(** While the index is ready a read answers at once. *)
Lemma fenced_ready {A} w (f : TlDB -> A) s : s_indexReady s = true -> fenced w f s = (Ok (f (s_db s)), s).
Proof. intros H. unfold fenced, lockIndexedRead, mbind, M_bind, gets. by rewrite H. Qed.

Lemma fenced_result_ready {A} w (f : TlDB -> result serr A) s : s_indexReady s = true -> fenced_result w f s = (f (s_db s), s).
Proof. intros H. unfold fenced_result, mbind, M_bind. by rewrite fenced_ready. Qed.

(** ** Rows of a complete index *)

(** The row of a leaf. *)
Lemma view_row leaves d i raw env :
  view_of leaves d -> leaves !! i = Some raw -> decoded raw = Some env ->
  exists r, r ∈ t_events d /\ er_LeafIndex r = Z.of_nat i /\ er_RawEvent r = raw /\ er_EventType r = View_EventType env /\
    er_AgentID r = View_AgentID env /\ er_identity r = (if String.eqb (View_IdentityID env) "" then None else Some (View_IdentityID env)).
Proof.
  intros (s & Hs & Hc & <- & <-) Hi Hd. destruct (Hc (Z.of_nat i)) as (r & Hr & Ei); [apply lookup_lt_Some in Hi; lia|].
  pose proof (mi_rows s (li_mirror s Hs)) as HR. rewrite Forall_forall in HR. destruct (HR r Hr) as (env' & inner & _ & Hl & Hd' & _ & Er).
  rewrite Ei, Nat2Z.id, Hi in Hl. injection Hl as Eraw. exists r. rewrite <-Eraw, Hd in Hd'. injection Hd' as <-. split_and!; try done; by rewrite Er at 1.
Qed.

(** The leaf of a row. *)
Lemma view_leaf leaves d r :
  view_of leaves d -> r ∈ t_events d ->
  exists env, leaves !! Z.to_nat (er_LeafIndex r) = Some (er_RawEvent r) /\ 0 <= er_LeafIndex r /\ decoded (er_RawEvent r) = Some env /\
    er_EventType r = View_EventType env /\ er_AgentID r = View_AgentID env /\
    er_identity r = (if String.eqb (View_IdentityID env) "" then None else Some (View_IdentityID env)).
Proof.
  intros (s & Hs & Hc & <- & <-) Hr. pose proof (mi_rows s (li_mirror s Hs)) as HR. rewrite Forall_forall in HR.
  destruct (HR r Hr) as (env & inner & Hp & Hl & Hd & _ & Er). exists env. split_and!; try done; by rewrite Er at 1.
Qed.

Lemma view_distinct leaves d : view_of leaves d -> NoDup (er_EventHashHex <$> t_events d) /\ NoDup (er_LeafIndex <$> t_events d).
Proof. intros (s & Hs & _ & _ & <-). split; [by apply rows_distinct|apply (mi_unique s (li_mirror s Hs))]. Qed.

(** ** A revoked agent *)

Lemma agent_leaf_env raw a : agent_leaf_of raw = Some a -> exists env, decoded raw = Some env /\ is_agent env = true /\ a = agent_view env.
Proof. unfold agent_leaf_of. destruct (decoded raw) as [env|]; [|done]. cbn [mbind option_bind]. destruct (is_agent env) eqn:E; [|done]. intros [= <-]. eauto. Qed.

Lemma agent_no_identity env : is_agent env = true -> View_IdentityID env = "".
Proof. by destruct env. Qed.

(** The row the agent's reads answer from is the revocation's. *)
Lemma latest_of_revoked leaves d i raw a r :
  view_of leaves d -> leaves !! i = Some raw -> agent_leaf_of raw = Some a -> al_Type a = TypeAgentRevoked ->
  GetLatestByAgentID d (al_AgentID a) 0 = Ok r -> er_EventType r = TypeAgentRevoked /\ er_RawEvent r = raw.
Proof.
  intros Hv Hi Ha Ht HG. destruct (agent_leaf_env _ _ Ha) as (env & Hd & Hag & ->). pose proof (view_distinct _ _ Hv) as [Hnd _].
  destruct (view_row _ _ _ _ _ Hv Hi Hd) as (r0 & Hr0 & Ei0 & Eraw0 & Et0 & Ea0 & Eid0). rewrite (agent_no_identity _ Hag) in Eid0.
  unfold GetLatestByAgentID in HG. destruct (head _) as [h|] eqn:Eh; [|done]. injection HG as ->. apply order_by_head in Eh as [Hin Hmin].
  apply list_elem_of_filter in Hin as [Hp Hr]. b2p.
  assert (by_key (fun r => (type_rank (er_EventType r), - er_LeafIndex r, 0)) r r0) as Hle.
  { apply Hmin, list_elem_of_filter. split; [|done]. unfold is_agent_row. rewrite Eid0, Ea0. cbn [String.eqb al_AgentID agent_view].
    rewrite String.eqb_refl. cbn. by apply first_occurrence_distinct. }
  unfold by_key, key_leb in Hle. rewrite Et0 in Hle. cbn [al_Type agent_view] in Ht. rewrite Ht in Hle. change (type_rank TypeAgentRevoked) with 0 in Hle.
  assert (type_rank (er_EventType r) = 0) as Hrk.
  { assert (0 <= type_rank (er_EventType r)) by (unfold type_rank; repeat case_if; lia).
    apply orb_true_iff in Hle as [?|?]; b2p; lia. }
  assert (er_EventType r = TypeAgentRevoked) as Hty by (unfold type_rank in Hrk; repeat case_if_in Hrk; b2p; done). split; [done|].
  destruct (view_leaf _ _ _ Hv Hr) as (env' & Hl & Hpos & Hd' & Et & Ea & Eid).
  assert (is_agent env' = true) as Hag'.
  { destruct Hv as (s & Hs & _ & _ & <-). destruct (row_submitted s r (li_mirror s Hs) Hr) as (x & e0 & c & Hx & _ & Er).
    pose proof (proj1 (row_identity _ _ _ _ Hx)) as HI. pose proof (submitted_agent_leaf _ _ _ _ Hx) as HA.
    assert (is_agent e0 = true) as E0. { apply HI. match goal with H : is_agent_row r = true |- _ => unfold is_agent_row in H; rewrite Er in H; cbn [er_identity event_row] in H end. by case_if. }
    rewrite E0 in HA. unfold agent_leaf_of in HA. rewrite Hd' in HA. cbn [mbind option_bind] in HA. by destruct (is_agent env'). }
  assert (agent_leaf_of (er_RawEvent r) = Some (agent_view env')) as Ha' by (unfold agent_leaf_of; rewrite Hd'; cbn [mbind option_bind]; by rewrite Hag').
  destruct Hv as (s & Hs & _ & <- & _). pose proof (li_lifecycle s Hs) as HL.
  assert (al_AgentID (agent_view env) = al_AgentID (agent_view env')) as Esame by (cbn [al_AgentID agent_view] in *; congruence).
  destruct (Nat.lt_total i (Z.to_nat (er_LeafIndex r))) as [Hlt|[->|Hlt]]; [|congruence|].
  - destruct (HL _ _ (agent_view env) (agent_view env') Hlt) as [_ _ _ _ Hall _]; [by rewrite Hi|by rewrite Hl|by left|]. cbn [al_Type agent_view] in Hall. by rewrite Ht in Hall.
  - destruct (HL _ _ (agent_view env') (agent_view env) Hlt) as [_ _ _ _ Hall _]; [by rewrite Hl|by rewrite Hi|by left|]. cbn [al_Type agent_view] in Hall.
    rewrite <-Et, Hty in Hall. done.
Qed.

Lemma revoked_found leaves d i raw a :
  view_of leaves d -> leaves !! i = Some raw -> agent_leaf_of raw = Some a -> exists r, GetLatestByAgentID d (al_AgentID a) 0 = Ok r.
Proof.
  intros Hv Hi Ha. destruct (agent_leaf_env _ _ Ha) as (env & Hd & Hag & ->). pose proof (view_distinct _ _ Hv) as [Hnd _].
  destruct (view_row _ _ _ _ _ Hv Hi Hd) as (r0 & Hr0 & _ & _ & _ & Ea0 & Eid0). rewrite (agent_no_identity _ Hag) in Eid0.
  unfold GetLatestByAgentID. destruct (head _) as [r|] eqn:Eh; [by eexists|]. apply order_by_none in Eh.
  assert (r0 ∈ @nil EventRecord) as H; [|by apply elem_of_nil in H]. rewrite <-Eh. apply list_elem_of_filter. split; [|done].
  unfold is_agent_row. rewrite Eid0, Ea0. cbn [String.eqb al_AgentID agent_view]. rewrite String.eqb_refl. cbn. by apply first_occurrence_distinct.
Qed.

Lemma StatusOf_revoked w s i raw a :
  TesseraLaws (w_tessera w) -> log_inv s -> s_leaves s !! i = Some raw -> agent_leaf_of raw = Some a -> al_Type a = TypeAgentRevoked ->
  reads s (StatusOf w (al_AgentID a)) (fun st => st = BadgeRevoked).
Proof.
  intros HT Hs Hi Ha Ht. eapply reads_bind; [by apply reads_fenced_result|]. cbn. intros r s1 Hs1 _ (d & Hv & HG).
  destruct (latest_of_revoked _ _ _ _ _ _ Hv Hi Ha Ht HG) as [Hty _]. eapply reads_bind; [by apply reads_lifts|]. intros wr s2 Hs2 _ _.
  apply reads_ret; [done|]. unfold statusFromRecord, currentAgentStatus. by rewrite Hty.
Qed.

Lemma linkedAgentView_spec w s st (P : string -> Prop) :
  TesseraLaws (w_tessera w) -> log_inv s -> reads s (StatusOf w (ls_AnsID st)) P ->
  reads s (linkedAgentView w st) (fun o => forall v, o = Some v -> av_AnsID v = ls_AnsID st /\ P (av_AgentStatus v) /\ agentLive (av_AgentStatus v) = true).
Proof.
  intros HT Hs (H1 & H2 & H3). unfold reads, linkedAgentView. destruct (StatusOf w (ls_AnsID st) s) as [[status|e] s1]; cbn [fst snd] in *.
  2: { case_if; cbn; split_and!; try done. by intros o [= <-]. }
  case_if; [cbn; split_and!; try done; by intros o [= <-]|]. b2p. specialize (H3 status eq_refl). unfold mbind, M_bind, link_time.
  destruct (reads_fenced_result w (fun d => GetEventByLeafIndex d (ls_LeafIndex st)) s1 HT H1) as (I1 & I2 & _).
  unfold EventByLeafIndex. destruct (fenced_result w _ s1) as [[r|e] s2]; cbn [fst snd] in *; cbn [fst snd mret M_ret]; (split_and!; [done|by rewrite I2|]); intros o [= <-] v [= <-]; done.
Qed.

Lemma StatusOf_reads w s agentID : TesseraLaws (w_tessera w) -> log_inv s -> reads s (StatusOf w agentID) (fun _ => True).
Proof.
  intros HT Hs. eapply reads_bind; [by apply reads_fenced_result|]. intros r s1 Hs1 _ _. eapply reads_bind; [by apply reads_lifts|].
  intros wr s2 Hs2 _ _. by apply reads_ret.
Qed.

Lemma Forall2_right {A B} (Q : A -> B -> Prop) l k : Forall2 Q l k -> forall y, y ∈ k -> exists x, x ∈ l /\ Q x y.
Proof.
  induction 1 as [|x y l k H _ IH]; intros z Hz; [by apply elem_of_nil in Hz|]. apply elem_of_cons in Hz as [->|Hz]; [exists x; set_solver|].
  destruct (IH z Hz) as (x' & H1 & H2). exists x'. set_solver.
Qed.

(** C11: revocation is final in what the log answers.  Once an [AGENT_REVOKED]
    event is a leaf, in every later state and at every time the badge and the
    status of that agent can only be REVOKED, no status token is issued for it,
    and no identity lists it among its linked agents; and while the index is
    ready the status is answered (the sealed bytes being readable). *)
Theorem revoked_agent_terminal s i raw a :
  rtc tl_step empty_log s -> s_leaves s !! i = Some raw -> agent_leaf_of raw = Some a -> al_Type a = TypeAgentRevoked ->
  forall s' w, rtc tl_step s s' -> TesseraLaws (w_tessera w) ->
    (forall R tl, (Badge_Get R w (al_AgentID a) s').1 = Ok tl -> tl_Status tl = BadgeRevoked) /\
    (forall st, (StatusOf w (al_AgentID a) s').1 = Ok st -> st = BadgeRevoked) /\
    (forall (C : CBOR) sign marshal g tnow token, (StatusToken_ForAgent sign marshal g w tnow (al_AgentID a) s').1 <> Ok token) /\
    (forall id views, (LinkedAgentsForIdentity w id s').1 = Ok views -> al_AgentID a ∉ av_AnsID <$> views) /\
    (s_indexReady s' = true -> is_ok (parseEnvelopeWrapper raw) = true -> StatusOf w (al_AgentID a) s' = (Ok BadgeRevoked, s')).
Proof.
  intros Hreach Hi Ha Ht s' w Hrun HT. pose proof (log_inv_reachable s Hreach) as Hs. pose proof (leaves_prefix s s' Hs Hrun) as [rest Hpre].
  pose proof (log_inv_reachable s' ltac:(by etrans)) as Hs'.
  assert (s_leaves s' !! i = Some raw) as Hi' by (rewrite Hpre; by apply lookup_app_l_Some).
  split_and!.
  - intros R. eapply (reads_bind s'); [by apply reads_fenced_result|]. cbn. intros r s1 Hs1 _ (d & Hv & HG).
    destruct (latest_of_revoked _ _ _ _ _ _ Hv Hi' Ha Ht HG) as [Hty _]. unfold buildTransparencyLog, build_log.
    eapply reads_bind; [by apply reads_lifts|]. intros wr s2 Hs2 _ _. split_and!; [done|done|]. intros tl [= <-]. cbn. unfold statusFromRecord, currentAgentStatus. by rewrite Hty.
  - apply (StatusOf_revoked w s' i raw a); done.
  - intros C sign marshal g tnow token Htok. assert (reads s' (StatusToken_ForAgent sign marshal g w tnow (al_AgentID a)) (fun _ => False)) as (_ & _ & H); [|by apply (H token)].
    eapply reads_bind; [by apply reads_fenced_result|]. cbn. intros r s1 Hs1 _ (d & Hv & HG). destruct (latest_of_revoked _ _ _ _ _ _ Hv Hi' Ha Ht HG) as [Hty _].
    eapply reads_bind; [by apply reads_lifts|]. intros c s2 _ _ Hc. apply status_claims_Ok in Hc as (_ & _ & Hne & _). done.
  - intros id. eapply (reads_bind s'); [by apply reads_fenced_result|]. intros r0 s0 Hs0 El0 _. eapply (reads_bind s0); [by apply reads_fenced|]. intros states s1 Hs1 El1 _.
    eapply reads_bind; [apply reads_map with (Q := fun st o => forall v : LinkedAgentView, o = Some v -> av_AnsID v <> al_AgentID a); [done|]|].
    + intros st s2 _ Hs2 El2. destruct (decide (ls_AnsID st = al_AgentID a)) as [E|E].
      * eapply reads_mono; [apply (linkedAgentView_spec w s2 st (fun st => st = BadgeRevoked)); [done..|]|].
        { rewrite E. apply (StatusOf_revoked w s2 i raw a); [done..|congruence|done|done]. }
        cbn. intros o Ho v Hv. destruct (Ho v Hv) as (_ & E2 & E3). by rewrite E2 in E3.
      * eapply reads_mono; [apply (linkedAgentView_spec w s2 st (fun _ => True)); [done..|]|].
        { eapply reads_mono; [apply StatusOf_reads|]; done. }
        cbn. intros o Ho v Hv. destruct (Ho v Hv) as (-> & _). done.
    + intros views s2 Hs2 _ Hall. apply reads_ret; [done|]. intros (v & Ev & (o & Ho & Eo)%list_elem_of_omap)%list_elem_of_fmap.
      destruct (Forall2_right _ _ _ Hall o Ho) as (st & _ & H). by apply (H v Eo).
  - intros Hr Hp. unfold StatusOf, LatestEventByAgent, mbind, M_bind. rewrite fenced_result_ready by done.
    assert (view_of (s_leaves s') (s_db s')) as Hv by (exists s'; split_and!; try done; exact (li_ready s' Hs' Hr)).
    destruct (revoked_found _ _ _ _ _ Hv Hi' Ha) as [r HG]. rewrite HG. destruct (latest_of_revoked _ _ _ _ _ _ Hv Hi' Ha Ht HG) as [Hty ->].
    unfold lifts. destruct (parseEnvelopeWrapper raw); [|done]. unfold statusFromRecord, currentAgentStatus. by rewrite Hty.
Qed.

(** ** Identities *)

(** The leaf at [i] is an event of the identity. *)
Definition identity_leaf (leaves : list string) (i : nat) (raw : string) (env : Signable) (id : string) : Prop :=
  leaves !! i = Some raw /\ decoded raw = Some env /\ View_IdentityID env = id.

Definition revoked_identity (leaves : list string) (id : string) : Prop :=
  exists i raw env, identity_leaf leaves i raw env id /\ View_EventType env = "IDENTITY_REVOKED".

(** The last leaf that names the pair links it. *)
Definition linked (leaves : list string) (id ansID : string) : Prop :=
  exists i raw env, identity_leaf leaves i raw env id /\ ansID ∈ View_LinkedAgentIDs env /\ View_EventType env = "IDENTITY_LINKED" /\
    forall j raw' env', (i < j)%nat -> identity_leaf leaves j raw' env' id -> ansID ∉ View_LinkedAgentIDs env'.

Definition proof_type (env : Signable) : Prop := one_of (View_EventType env) ["IDENTITY_VERIFIED"; "IDENTITY_UPDATED"] = true.

(** The last proof of control of the identity. *)
Definition last_proof (leaves : list string) (id raw : string) : Prop :=
  exists i env, identity_leaf leaves i raw env id /\ proof_type env /\
    forall j raw' env', (i < j)%nat -> identity_leaf leaves j raw' env' id -> ~ proof_type env'.

Lemma identity_row leaves d i raw env id :
  view_of leaves d -> id <> "" -> identity_leaf leaves i raw env id ->
  exists r, r ∈ identity_rows d id /\ er_LeafIndex r = Z.of_nat i /\ er_RawEvent r = raw /\ er_EventType r = View_EventType env.
Proof.
  intros Hv Hid (Hi & Hd & Ei). destruct (view_row _ _ _ _ _ Hv Hi Hd) as (r & Hr & El & Eraw & Et & _ & Eid). exists r. split_and!; try done.
  apply list_elem_of_filter. split; [|done]. rewrite Eid, Ei. apply String.eqb_neq in Hid. by rewrite Hid.
Qed.

Lemma identity_row_leaf leaves d r id :
  view_of leaves d -> r ∈ identity_rows d id ->
  id <> "" /\ exists env, identity_leaf leaves (Z.to_nat (er_LeafIndex r)) (er_RawEvent r) env id /\ 0 <= er_LeafIndex r /\ er_EventType r = View_EventType env.
Proof.
  intros Hv [Eid Hr]%list_elem_of_filter. destruct (view_leaf _ _ _ Hv Hr) as (env & Hl & Hp & Hd & Et & _ & E). rewrite Eid in E.
  destruct (String.eqb_spec (View_IdentityID env) ""); [done|]. injection E as ->. split; [done|]. by exists env.
Qed.

Lemma HasIdentityRevoked_spec leaves d id :
  view_of leaves d -> id <> "" -> HasIdentityRevoked d id = true <-> revoked_identity leaves id.
Proof.
  intros Hv Hid. unfold HasIdentityRevoked. rewrite existsb_exists. split.
  - intros (r & Hr & Et%String.eqb_eq). rewrite <-list_elem_of_In in Hr. destruct (identity_row_leaf _ _ _ _ Hv Hr) as (_ & env & Hl & _ & E).
    exists (Z.to_nat (er_LeafIndex r)), (er_RawEvent r), env. split; [done|congruence].
  - intros (i & raw & env & Hl & Et). destruct (identity_row _ _ _ _ _ _ Hv Hid Hl) as (r & Hr & _ & _ & E). exists r.
    rewrite <-list_elem_of_In, E, Et. done.
Qed.

Lemma newest_first_head rows r :
  head (newest_first rows) = Some r -> r ∈ rows /\ forall r', r' ∈ rows -> er_LeafIndex r' <= er_LeafIndex r.
Proof.
  intros [Hr Hmin]%order_by_head. split; [done|]. intros r' Hr'. specialize (Hmin r' Hr'). unfold by_key, key_leb in Hmin.
  apply orb_true_iff in Hmin as [?|?]; b2p; lia.
Qed.

Lemma latest_proof_spec leaves d id r :
  view_of leaves d -> GetLatestProofByIdentityID d id = Ok r -> last_proof leaves id (er_RawEvent r).
Proof.
  intros Hv H. unfold GetLatestProofByIdentityID in H. destruct (head _) as [r'|] eqn:E; [|done]. injection H as ->.
  apply newest_first_head in E as [[Hp Hr]%list_elem_of_filter Hmax]. destruct (identity_row_leaf _ _ _ _ Hv Hr) as (Hid & env & Hl & Hpos & Et).
  exists (Z.to_nat (er_LeafIndex r)), env. split_and!; [done|unfold proof_type; by rewrite <-Et|]. intros j raw' env' Hj Hl' Hp'.
  destruct (identity_row _ _ _ _ _ _ Hv Hid Hl') as (r2 & Hr2 & E2 & _ & Et2). assert (er_LeafIndex r2 <= er_LeafIndex r); [|lia].
  apply Hmax, list_elem_of_filter. split; [|done]. by rewrite Et2.
Qed.

Lemma latest_proof_found leaves d id raw :
  view_of leaves d -> id <> "" -> last_proof leaves id raw -> exists r, GetLatestProofByIdentityID d id = Ok r.
Proof.
  intros Hv Hid (i & env & Hl & Hp & _). destruct (identity_row _ _ _ _ _ _ Hv Hid Hl) as (r & Hr & _ & _ & Et).
  unfold GetLatestProofByIdentityID. destruct (head _) as [r'|] eqn:E; [by eexists|]. apply order_by_none in E.
  assert (r ∈ @nil EventRecord) as H; [|by apply elem_of_nil in H]. rewrite <-E. apply list_elem_of_filter. split; [by rewrite Et|done].
Qed.

Lemma identity_latest_found leaves d id i raw env :
  view_of leaves d -> id <> "" -> identity_leaf leaves i raw env id -> exists r, GetLatestByIdentityID d id = Ok r.
Proof.
  intros Hv Hid Hl. destruct (identity_row _ _ _ _ _ _ Hv Hid Hl) as (r & Hr & _).
  unfold GetLatestByIdentityID. destruct (head _) as [r'|] eqn:E; [by eexists|]. apply order_by_none in E. rewrite E in Hr. by apply elem_of_nil in Hr.
Qed.

(** The status decides on the whole history, not on the latest event. *)
Lemma identityStatus_spec w s id d r :
  TesseraLaws (w_tessera w) -> log_inv s -> view_of (s_leaves s) d -> r ∈ identity_rows d id ->
  reads s (identityStatus w id (er_EventType r))
    (fun st => revoked_identity (s_leaves s) id /\ st = BadgeIdentityRevoked \/ ~ revoked_identity (s_leaves s) id /\ st = BadgeVerified).
Proof.
  intros HT Hs Hv Hr. destruct (identity_row_leaf _ _ _ _ Hv Hr) as (Hid & env & Hl & _ & Et). unfold identityStatus, identityStatusFromEventType.
  destruct (String.eqb_spec (er_EventType r) "IDENTITY_REVOKED") as [E|_]; cbn [String.eqb BadgeIdentityRevoked BadgeVerified].
  - apply reads_ret; [done|]. left. split; [|done]. exists (Z.to_nat (er_LeafIndex r)), (er_RawEvent r), env. split; [done|congruence].
  - eapply reads_bind; [by apply reads_fenced|]. cbn. intros b s1 Hs1 _ (d' & Hv' & ->). apply reads_ret; [done|].
    pose proof (HasIdentityRevoked_spec _ _ _ Hv' Hid) as Hspec. destruct (HasIdentityRevoked d' id); [left|right]; (split; [|done]); [by apply Hspec|].
    intros H%Hspec. done.
Qed.

(** ** Links *)

Lemma link_fact leaves d st :
  view_of leaves d -> st ∈ t_links d ->
  exists i raw env, identity_leaf leaves i raw env (ls_IdentityID st) /\ ls_IdentityID st <> "" /\ ls_AnsID st ∈ View_LinkedAgentIDs env /\
    ls_LeafIndex st = Z.of_nat i /\ ls_EventType st = View_EventType env.
Proof.
  intros Hv Hst. assert (exists r, r ∈ t_events d /\ In st (row_links r)) as (r & Hr & Hin).
  { destruct Hv as (s & Hs & _ & _ & <-). rewrite (mi_links s (li_mirror s Hs)) in Hst. apply list_elem_of_In, in_flat_map in Hst as (r & Hr & H).
    exists r. by rewrite list_elem_of_In. }
  destruct (view_leaf _ _ _ Hv Hr) as (env & Hl & Hp & Hd & _). unfold row_links in Hin. rewrite Hd in Hin. unfold env_links in Hin.
  destruct (String.eqb_spec (View_IdentityID env) ""); [done|]. apply in_map_iff in Hin as (a & <- & Ha). cbn.
  exists (Z.to_nat (er_LeafIndex r)), (er_RawEvent r), env. rewrite list_elem_of_In. split_and!; try done. lia.
Qed.

Lemma fact_link leaves d i raw env id ansID :
  view_of leaves d -> id <> "" -> identity_leaf leaves i raw env id -> ansID ∈ View_LinkedAgentIDs env ->
  exists st, st ∈ t_links d /\ ls_IdentityID st = id /\ ls_AnsID st = ansID /\ ls_LeafIndex st = Z.of_nat i /\ ls_EventType st = View_EventType env.
Proof.
  intros Hv Hid Hl Ha. destruct (identity_row _ _ _ _ _ _ Hv Hid Hl) as (r & [_ Hr]%list_elem_of_filter & Ei & Eraw & _). destruct Hl as (_ & Hd & E).
  exists {| ls_IdentityID := id; ls_AnsID := ansID; ls_LeafIndex := er_LeafIndex r; ls_EventType := View_EventType env; ls_CreatedAtMs := er_CreatedAtMs r |}.
  split_and!; try done. destruct Hv as (s & Hs & _ & _ & <-). rewrite (mi_links s (li_mirror s Hs)). apply list_elem_of_In, in_flat_map. exists r.
  rewrite <-list_elem_of_In. split; [done|]. unfold row_links. rewrite Eraw, Hd. unfold env_links. rewrite E. apply String.eqb_neq in Hid. rewrite Hid.
  apply in_map_iff. exists ansID. rewrite <-list_elem_of_In. done.
Qed.

Lemma latest_link_spec d st :
  latest_link d st = true <-> forall b, b ∈ t_links d -> ls_AnsID b = ls_AnsID st -> ls_IdentityID b = ls_IdentityID st -> ls_LeafIndex b <= ls_LeafIndex st.
Proof.
  unfold latest_link. rewrite forallb_forall. split.
  - intros H b Hb Ea Ei. rewrite list_elem_of_In in Hb. specialize (H b Hb). rewrite Ea, Ei, !String.eqb_refl in H. cbn in H. lia.
  - intros H b Hb. rewrite <-list_elem_of_In in Hb. destruct (String.eqb_spec (ls_AnsID b) (ls_AnsID st)) as [Ea|]; [|done].
    destruct (String.eqb_spec (ls_IdentityID b) (ls_IdentityID st)) as [Ei|]; [|done]. cbn. specialize (H b Hb Ea Ei). lia.
Qed.

Definition linked_states (d : TlDB) (ansID : string) : list LinkState := filter (fun st => LinkState_Linked st = true) (LinkStatesByAgent d ansID).

Lemma linked_states_elem d ansID st :
  st ∈ linked_states d ansID <-> st ∈ t_links d /\ ls_AnsID st = ansID /\ latest_link d st = true /\ ls_EventType st = "IDENTITY_LINKED".
Proof.
  unfold linked_states, LinkStatesByAgent, links_newest_first, LinkState_Linked. rewrite list_elem_of_filter, order_by_elem, list_elem_of_filter.
  rewrite andb_true_iff, !String.eqb_eq. tauto.
Qed.

Lemma linked_states_spec leaves d ansID id :
  view_of leaves d -> id ∈ ls_IdentityID <$> linked_states d ansID <-> id <> "" /\ linked leaves id ansID.
Proof.
  intros Hv. rewrite list_elem_of_fmap. split.
  - intros (st & -> & (Hst & <- & Hlast & Ht)%linked_states_elem). destruct (link_fact _ _ _ Hv Hst) as (i & raw & env & Hl & Hid & Ha & Ei & Et).
    split; [done|]. exists i, raw, env. split_and!; [done|done|congruence|]. intros j raw' env' Hj Hl' Ha'.
    destruct (fact_link _ _ _ _ _ _ _ Hv Hid Hl' Ha') as (b & Hb & E1 & E2 & E3 & _). rewrite latest_link_spec in Hlast. specialize (Hlast b Hb E2 E1). lia.
  - intros (Hid & i & raw & env & Hl & Ha & Et & Hlast). destruct (fact_link _ _ _ _ _ _ _ Hv Hid Hl Ha) as (st & Hst & E1 & E2 & E3 & E4).
    exists st. split; [done|]. apply linked_states_elem. split_and!; [done..| |congruence]. apply latest_link_spec. intros b Hb Ea Eb.
    destruct (link_fact _ _ _ Hv Hb) as (j & raw' & env' & Hl' & _ & Ha' & Ej & _). rewrite Ej, E3. destruct (Nat.lt_ge_cases i j) as [Hij|]; [|lia].
    exfalso. apply (Hlast j raw' env' Hij); [by rewrite <-E1, <-Eb|by rewrite <-E2, <-Ea].
Qed.

Lemma linked_states_NoDup leaves d ansID : view_of leaves d -> NoDup (ls_IdentityID <$> linked_states d ansID).
Proof.
  intros (s & Hs & _ & _ & <-). pose proof (mi_link_keys s (li_mirror s Hs)) as Hk. apply NoDup_fmap_2_strong.
  - intros x y (Hx & Ex & Lx & _)%linked_states_elem (Hy & Ey & Ly & _)%linked_states_elem E.
    apply (NoDup_key link_key (t_links (s_db s))); [done..|]. rewrite latest_link_spec in Lx, Ly.
    assert (ls_LeafIndex x = ls_LeafIndex y) as El. { apply Z.le_antisymm; [apply Ly|apply Lx]; congruence. }
    unfold link_key. congruence.
  - unfold linked_states, LinkStatesByAgent, links_newest_first. apply NoDup_filter. unfold order_by. rewrite merge_sort_Permutation by apply _.
    apply NoDup_filter. by eapply NoDup_fmap_1.
Qed.

(** What one entry says. *)
Definition truthful (leaves : list string) (v : LinkedIdentityView) : Prop :=
  exists proof, last_proof leaves (lv_IdentityID v) proof /\
    lv_Kind v = (proofSummary proof).1.1 /\ lv_Value v = (proofSummary proof).1.2 /\
    (revoked_identity leaves (lv_IdentityID v) /\ lv_IdentityStatus v = BadgeIdentityRevoked /\ lv_Keys v = [] /\ lv_KeysLogID v = "" \/
     ~ revoked_identity leaves (lv_IdentityID v) /\ lv_IdentityStatus v = BadgeVerified /\ lv_Keys v = (proofSummary proof).2).

Lemma linkedIdentityView_spec w s st :
  TesseraLaws (w_tessera w) -> log_inv s ->
  reads s (linkedIdentityView w st) (fun v => lv_IdentityID v = ls_IdentityID st /\ truthful (s_leaves s) v).
Proof.
  intros HT Hs. eapply reads_bind; [by apply reads_fenced_result|]. intros linkRec s1 Hs1 El1 _.
  eapply reads_bind; [by apply reads_fenced_result|]. cbn. intros latest s2 Hs2 El2 (d & Hv & HG).
  assert (latest ∈ identity_rows d (ls_IdentityID st)) as Hlat.
  { unfold GetLatestByIdentityID in HG. destruct (head _) as [r|] eqn:E; [|done]. injection HG as ->. by apply newest_first_head in E as [? _]. }
  eapply reads_bind; [eapply (identityStatus_spec w s2 _ d latest); [done|done|by rewrite El2|done]|]. intros status s3 Hs3 El3 Hst.
  eapply reads_bind; [by apply reads_fenced_result|]. cbn. intros proof s4 Hs4 El4 (d' & Hv' & HP). rewrite El3, El2, El1 in Hv'.
  pose proof (latest_proof_spec _ _ _ _ Hv' HP) as Hproof. destruct (proofSummary (er_RawEvent proof)) as [[kind value] keys] eqn:Esum.
  apply reads_ret; [done|]. cbn. split; [done|]. exists (er_RawEvent proof). rewrite Esum. cbn. rewrite El2, El1 in Hst. split_and!; try done.
  destruct Hst as [[H ->]|[H ->]]; [left|right]; by split_and!.
Qed.

(** While the index is ready and the identity has a proof, the entry is built. *)
Lemma linkedIdentityView_ready w s st raw :
  log_inv s -> s_indexReady s = true -> st ∈ t_links (s_db s) -> last_proof (s_leaves s) (ls_IdentityID st) raw ->
  exists v, linkedIdentityView w st s = (Ok v, s).
Proof.
  intros Hs Hr Hst Hp. assert (view_of (s_leaves s) (s_db s)) as Hv by (exists s; split_and!; try done; exact (li_ready s Hs Hr)).
  destruct (link_fact _ _ _ Hv Hst) as (i & lraw & env & Hl & Hid & _ & Ei & _).
  destruct (identity_row _ _ _ _ _ _ Hv Hid Hl) as (r & [_ Hin]%list_elem_of_filter & Er & _).
  pose proof (GetEventByLeafIndex_unique (s_db s) r (proj2 (view_distinct _ _ Hv)) Hin) as HG. rewrite Er, <-Ei in HG.
  destruct (identity_latest_found _ _ _ _ _ _ Hv Hid Hl) as [latest HL]. destruct (latest_proof_found _ _ _ _ Hv Hid Hp) as [proof HP].
  unfold linkedIdentityView, EventByLeafIndex, LatestEventByIdentity, LatestProofByIdentity, identityStatus, IdentityRevoked, mbind, M_bind.
  rewrite fenced_result_ready by done. rewrite HG. rewrite fenced_result_ready by done. rewrite HL.
  destruct (String.eqb (identityStatusFromEventType _) _); [cbn [mret M_ret]|rewrite fenced_ready by done; cbn [mret M_ret]];
    rewrite fenced_result_ready by done; rewrite HP; destruct (proofSummary _) as [[kind value] keys]; by eexists.
Qed.

Lemma M_map_ready {A B} (f : A -> M B) l s : (forall a, a ∈ l -> exists b, f a s = (Ok b, s)) -> exists bs, M_map f l s = (Ok bs, s).
Proof.
  induction l as [|a l IH]; intros H; cbn [M_map]; [by eexists|]. destruct (H a) as [b Eb]; [set_solver|]. destruct IH as [bs Ebs]; [set_solver|].
  unfold mbind, M_bind. rewrite Eb, Ebs. by eexists.
Qed.

Lemma linked_views_sound s w ansID status views :
  rtc tl_step empty_log s -> TesseraLaws (w_tessera w) -> (Badge_LinkedIdentitiesForAgent w ansID status s).1 = Ok views ->
  NoDup (lv_IdentityID <$> views) /\ Forall (truthful (s_leaves s)) views /\
  forall id, id ∈ lv_IdentityID <$> views <-> agentLive status = true /\ id <> "" /\ linked (s_leaves s) id ansID.
Proof.
  intros Hs%log_inv_reachable HT. unfold Badge_LinkedIdentitiesForAgent. destruct (agentLive status); cbn [negb].
  2: { intros [= <-]. split_and!; [constructor|constructor|]. intros id. split; [by intros ?%elem_of_nil|by intros [? _]]. }
  revert views. eapply (reads_bind s); [by apply reads_fenced|]. cbn. intros states s1 Hs1 El1 (d & Hv & ->). fold (linked_states d ansID).
  eapply reads_mono; [apply reads_map with (Q := fun st v => lv_IdentityID v = ls_IdentityID st /\ truthful (s_leaves s) v); [done|]|].
  { intros st s2 _ Hs2 El2. rewrite <-El1, <-El2. by apply linkedIdentityView_spec. }
  intros views Hall. assert (lv_IdentityID <$> views = ls_IdentityID <$> linked_states d ansID) as ->.
  { clear -Hall. induction Hall as [|st v l k [E _] _ IH]; [done|]. cbn. by rewrite E, IH. }
  split_and!; [by eapply linked_states_NoDup| |].
  - apply Forall_forall. intros v Hin. destruct (Forall2_right _ _ _ Hall v Hin) as (st & _ & _ & H). done.
  - intros id. rewrite (linked_states_spec _ _ _ _ Hv). tauto.
Qed.

(** C13: an agent's identities are read off the log.  For a live agent the view
    lists, each once, exactly the identities whose last leaf naming the agent
    links it; each entry quotes the kind and value of the identity's last proof of
    control and its keys, unless some leaf revoked the identity, whatever came
    after: then it says REVOKED and has no keys.  An agent that is not live has
    none.  While the index is ready, the view of a live agent is answered if and
    only if each of these identities has a proof of control in the log: a linked
    identity that was never proved makes the whole view fail. *)
Theorem linked_identities_exact s w ansID status :
  rtc tl_step empty_log s -> TesseraLaws (w_tessera w) ->
  (forall views, (Badge_LinkedIdentitiesForAgent w ansID status s).1 = Ok views ->
     NoDup (lv_IdentityID <$> views) /\ Forall (truthful (s_leaves s)) views /\
     forall id, id ∈ lv_IdentityID <$> views <-> agentLive status = true /\ id <> "" /\ linked (s_leaves s) id ansID) /\
  (s_indexReady s = true ->
     (exists views, Badge_LinkedIdentitiesForAgent w ansID status s = (Ok views, s)) <->
     (agentLive status = true -> forall id, id <> "" -> linked (s_leaves s) id ansID -> exists proof, last_proof (s_leaves s) id proof)).
Proof.
  intros Hs HT. split; [intros views; by apply linked_views_sound|]. intros Hr. split.
  - intros [views Hv] Hlive id Hid Hl. destruct (linked_views_sound s w ansID status views Hs HT) as (_ & Ht & Hin); [by rewrite Hv|].
    assert (id ∈ lv_IdentityID <$> views) as (v & -> & Hv')%list_elem_of_fmap by by apply Hin. rewrite Forall_forall in Ht. destruct (Ht v Hv') as (proof & Hp & _). by exists proof.
  - intros Hpr. apply log_inv_reachable in Hs. unfold Badge_LinkedIdentitiesForAgent. destruct (agentLive status); cbn [negb]; [|by eexists].
    unfold mbind at 1, M_bind. unfold Log_LinkStatesByAgent. rewrite fenced_ready by done. apply M_map_ready.
    intros st Hst. assert (view_of (s_leaves s) (s_db s)) as Hv by (exists s; split_and!; try done; exact (li_ready s Hs Hr)).
    assert (ls_IdentityID st ∈ ls_IdentityID <$> linked_states (s_db s) ansID) as Hin by (apply list_elem_of_fmap; by exists st).
    rewrite (linked_states_spec _ _ _ _ Hv) in Hin. destruct Hin as [Hn Hl]. destruct (Hpr eq_refl _ Hn Hl) as [raw Hp].
    apply linked_states_elem in Hst as [Hst _]. by apply (linkedIdentityView_ready w s st raw).
Qed.

(** C31: an identity's badge.  Its status is REVOKED, with no keys, exactly when
    some leaf of the identity is a revocation — in the state of the revocation and
    in every later one, whatever links or updates were sealed after it — and
    VERIFIED otherwise, with the keys of its last proof of control. *)
Theorem identity_badge_exact R s w id tl :
  rtc tl_step empty_log s -> TesseraLaws (w_tessera w) -> (IdentityBadge_Get R w id s).1 = Ok tl ->
  (tl_Status tl = BadgeIdentityRevoked <-> revoked_identity (s_leaves s) id) /\
  (tl_Status tl = BadgeIdentityRevoked -> tl_Keys tl = [] /\ tl_KeysLogID tl = "") /\
  (tl_Status tl <> BadgeIdentityRevoked -> tl_Status tl = BadgeVerified /\
     exists proof, last_proof (s_leaves s) id proof /\ tl_Keys tl = (proofSummary proof).2) /\
  (revoked_identity (s_leaves s) id -> forall s', rtc tl_step s s' -> revoked_identity (s_leaves s') id).
Proof.
  intros Hreach HT Hget. pose proof (log_inv_reachable s Hreach) as Hs. revert tl Hget.
  eapply (reads_bind s); [by apply reads_fenced_result|]. cbn. intros latest s1 Hs1 El1 (d & Hv & HG).
  assert (latest ∈ identity_rows d id) as Hlat.
  { unfold GetLatestByIdentityID in HG. destruct (head _) as [r|] eqn:E; [|done]. injection HG as ->. by apply newest_first_head in E as [? _]. }
  assert (revoked_identity (s_leaves s) id -> forall s', rtc tl_step s s' -> revoked_identity (s_leaves s') id) as Hmono.
  { intros (i & raw & env & (Hi & H) & Ht) s' [rest Hpre]%leaves_prefix; [|done]. exists i, raw, env. rewrite Hpre. repeat split; try apply H; [|done]. by apply lookup_app_l_Some. }
  eapply reads_bind with (P := fun _ => True).
  { unfold identity_buildTransparencyLog, build_log. eapply reads_bind; [by apply reads_lifts|]. by intros wr s2 Hs2 _ _. }
  intros tl0 s2 Hs2 El2 _. eapply reads_bind; [eapply (identityStatus_spec w s2 id d latest); [done|done|by rewrite El2, El1|done]|].
  intros status s3 Hs3 El3 Hst. rewrite El2, El1 in Hst. destruct Hst as [[Hrev ->]|[Hrev ->]]; cbn [String.eqb BadgeVerified BadgeIdentityRevoked].
  - apply reads_ret; [done|]. cbn. by split_and!.
  - eapply reads_bind; [by apply reads_fenced_result|]. cbn. intros proof s4 Hs4 _ (d' & Hv' & HP). rewrite El3, El2, El1 in Hv'.
    apply reads_ret; [done|]. cbn. split_and!; [by split|done| |done]. intros _. split; [done|]. exists (er_RawEvent proof). split; [|done]. by eapply latest_proof_spec.
Qed.

(** C12: a status token outlives nothing it asserts.  A token is issued only for
    an agent none of whose leaves is a revocation, from one sealed event of that
    agent whose attested expiry, if it has one, has not passed.  It lists, for each
    of the two families, exactly the attested certificates without a date or with
    one still ahead; and its lifetime is not empty and ends no later than the TTL,
    than the event's expiry and than each listed certificate's. *)
Theorem status_token_bounds `{C : CBOR} sign marshal g s w tnow agentID token :
  rtc tl_step empty_log s -> TesseraLaws (w_tessera w) -> (StatusToken_ForAgent sign marshal g w tnow agentID s).1 = Ok token ->
  exists rec claims pl wr, GenerateStatusToken sign marshal g tnow claims = Ok token /\ status_payload (t_ttl g) tnow claims = Ok pl /\
    st_AgentID pl = agentID /\ (exists i, s_leaves s !! i = Some (er_RawEvent rec)) /\
    (forall i raw a, s_leaves s !! i = Some raw -> agent_leaf_of raw = Some a -> al_AgentID a = agentID -> al_Type a <> TypeAgentRevoked) /\
    (forall f, f ∈ st_ValidIdentityCerts pl <-> exists x, x ∈ identity_family rec /\ unexpired (w_now w) x /\ f = fp_of x) /\
    (forall f, f ∈ st_ValidServerCerts pl <-> exists x, x ∈ server_family rec /\ unexpired (w_now w) x /\ f = fp_of x) /\
    st_IAT pl = Time_Unix tnow /\ st_IAT pl < st_EXP pl <= Time_Unix (tnow + t_ttl g) /\
    (forall x, x ∈ identity_family rec \/ x ∈ server_family rec -> unexpired (w_now w) x -> ac_expiry x <> 0 -> st_EXP pl <= Time_Unix (ac_expiry x)) /\
    parseEnvelopeWrapper (er_RawEvent rec) = Ok wr /\
    (certExpiresAt wr <> 0 -> w_now w < certExpiresAt wr /\ st_EXP pl <= Time_Unix (certExpiresAt wr)).
Proof.
  intros Hs%log_inv_reachable HT. revert token. eapply (reads_bind s); [by apply reads_fenced_result|]. cbn. intros rec s1 Hs1 El1 (d & Hv & HG).
  assert (rec ∈ t_events d /\ er_AgentID rec = agentID) as [Hrec Hag].
  { unfold GetLatestByAgentID in HG. destruct (head _) as [r|] eqn:E; [|done]. injection HG as ->. apply order_by_head in E as [[Hp Hr]%list_elem_of_filter _]. b2p. done. }
  destruct (view_leaf _ _ _ Hv Hrec) as (env & Hl & _). eapply reads_bind; [by apply reads_lifts|]. cbn. intros claims s2 Hs2 _ Hc.
  eapply reads_mono; [by apply reads_lifts|]. cbn. intros token Hgen.
  destruct (GenerateStatusToken sign marshal g tnow claims) as [b|] eqn:EG; [|done]. injection Hgen as ->.
  assert (exists pl, status_payload (t_ttl g) tnow claims = Ok pl) as [pl Hpl]. { unfold GenerateStatusToken in EG. apply bind_Ok in EG as (pl & Hpl & _). by exists pl. }
  assert (exists wr, parseEnvelopeWrapper (er_RawEvent rec) = Ok wr) as [wr Hwr]. { pose proof Hc as Hc'. unfold status_claims in Hc'. apply bind_Ok in Hc' as (wr & H & _). by exists wr. }
  destruct (status_payload_window _ _ _ _ Hpl) as (W1 & W2 & W3 & W4 & W5 & W6).
  apply status_claims_Ok in Hc as (Hid & _ & Hty & HI & HS & HB & HE & _). exists rec, claims, pl, wr. rewrite W4, W5, W6. split_and!; try done; try apply W2.
  - by rewrite Hid.
  - by eexists.
  - intros i raw a Hi Ha <- Ht. by destruct (latest_of_revoked _ _ _ _ _ _ Hv Hi Ha Ht HG).
  - intros x Hx Hlx Hne. destruct (HB x Hx Hlx Hne) as [N L]. etrans; [by apply W3|by apply Time_Unix_mono].
  - intros Hne. destruct (HE wr Hwr Hne) as (Hlt & N & L). split; [done|]. etrans; [by apply W3|by apply Time_Unix_mono].
Qed.
End Spec.

(** ** A run

    An identity proves control of its key, is linked to an agent and is then
    revoked; an agent is registered with a certificate. *)

#[local] Existing Instance latin_tables.
#[local] Existing Instance reference_jcs.
#[local] Existing Instance demo_schemes.
#[local] Existing Instance run_pem.
#[local] Existing Instance run_parser.
#[local] Existing Instance run_jose.
#[local] Existing Instance run_jose_laws.
#[local] Existing Instance run_sqlite.
#[local] Existing Instance plain_tessera_laws.

Definition run_identity_body (type : string) (more : list (string * json)) : string :=
  Marshal (JObj (("eventType", JStr type) :: ("identityId", JStr "id-1") :: ("kind", JStr "did:web") :: ("value", JStr "did:web:a.example") ::
                 ("timestamp", JStr "2025-01-02T03:04:05Z") :: more)).

Definition run_proof_body : string :=
  run_identity_body "IDENTITY_VERIFIED"
    [("keys", JArr [JObj [("verificationMethod", JObj [("id", JStr "k")]); ("signedProof", JStr "p")]]);
     ("verifiedAt", JStr "2025-01-02T03:04:05Z"); ("providerId", JStr "o")].

Definition run_step (logID : string) (c : codec) (body : string) (s : LogState) : LogState := (run_append DbDone logID c body s).2.

Definition run_link_once : string := run_identity_body "IDENTITY_LINKED" [("ansIds", JArr [JStr "ag-1"])].
Definition run_end_body : string := run_identity_body "IDENTITY_REVOKED" [("revokedAt", JStr "2025-01-02T03:04:05Z")].

Definition run_proved : LogState := Eval vm_compute in run_step "log-1" IdentityCodec run_proof_body run_keyed.
Definition run_shown : LogState := Eval vm_compute in run_step "log-2" IdentityCodec run_link_once run_proved.
Definition run_ended : LogState := Eval vm_compute in run_step "log-3" IdentityCodec run_end_body run_shown.

Lemma run_extend s s' logID c body :
  s' = run_step logID c body s -> utf8_ok logID = true -> logID <> "" -> rtc tl_step empty_log s -> rtc tl_step empty_log s'.
Proof. intros -> H1 H2 H. etrans; [exact H|]. apply rtc_once. by apply run_append_step. Qed.

Lemma run_shown_reached : rtc tl_step empty_log run_shown.
Proof.
  apply (run_extend run_proved _ "log-2" IdentityCodec run_link_once); [vm_compute; reflexivity|done..|].
  apply (run_extend run_keyed _ "log-1" IdentityCodec run_proof_body); [vm_compute; reflexivity|done..|]. apply run_keyed_reached.
Qed.

Lemma run_ended_reached : rtc tl_step empty_log run_ended.
Proof. apply (run_extend run_shown _ "log-3" IdentityCodec run_end_body); [vm_compute; reflexivity|done..|]. apply run_shown_reached. Qed.

Lemma run_revoked_leaf :
  exists a, s_leaves run_revoked !! 1%nat = Some (run_leaf 1) /\ agent_leaf_of (run_leaf 1) = Some a /\ al_AgentID a = "ag-1" /\ al_Type a = TypeAgentRevoked /\
    is_ok (parseEnvelopeWrapper (run_leaf 1)) = true.
Proof. eexists. split; [reflexivity|]. split; [vm_compute; reflexivity|]. split; [reflexivity|]. split; [reflexivity|]. vm_compute. reflexivity. Qed.

Lemma revoked_agent_terminal_witness : StatusOf (run_world DbDone) "ag-1" run_revoked = (Ok "REVOKED", run_revoked).
Proof.
  destruct run_revoked_leaf as (a & H1 & H2 & H3 & H4 & H5).
  destruct (revoked_agent_terminal run_revoked 1 (run_leaf 1) a run_revoked_reached H1 H2 H4 run_revoked (run_world DbDone) (rtc_refl _ _) plain_tessera_laws)
    as (_ & _ & _ & _ & H). rewrite H3 in H. exact (H eq_refl H5).
Defined.

Lemma run_views :
  exists views, (Badge_LinkedIdentitiesForAgent (run_world DbDone) "ag-1" BadgeActive run_shown).1 = Ok views /\ lv_IdentityID <$> views = ["id-1"].
Proof. eexists. split; [vm_compute; reflexivity|reflexivity]. Qed.

Lemma linked_identities_exact_witness : linked (s_leaves run_shown) "id-1" "ag-1".
Proof.
  destruct run_views as (views & H1 & H2).
  destruct (linked_identities_exact run_shown (run_world DbDone) "ag-1" BadgeActive run_shown_reached plain_tessera_laws) as [H _].
  destruct (H views H1) as (_ & _ & H3). apply (H3 "id-1"). rewrite H2. by apply list_elem_of_singleton.
Defined.

Definition no_proofs : ProofReader := {| rp_ReadCheckpoint := fun _ => None; rp_InclusionProof := fun _ _ _ => None |}.

Lemma run_identity_badge : exists tl, (IdentityBadge_Get no_proofs (run_world DbDone) "id-1" run_ended).1 = Ok tl /\ tl_Status tl = "REVOKED".
Proof. eexists. split; [vm_compute; reflexivity|reflexivity]. Qed.

Lemma identity_badge_exact_witness : revoked_identity (s_leaves run_ended) "id-1".
Proof.
  destruct run_identity_badge as (tl & H1 & H2).
  destruct (identity_badge_exact no_proofs run_ended (run_world DbDone) "id-1" tl run_ended_reached plain_tessera_laws H1) as [H _]. by apply H.
Defined.

(** A certificate that expires in ten minutes. *)
Definition run_certified_body : string :=
  Marshal (JObj [("timestamp", JStr "2023-11-14T22:13:20Z"); ("ansName", JStr "ans://v1.0.0.a.example"); ("ansId", JStr "ag-1"); ("eventType", JStr TypeAgentRegistered);
                 ("agent", JObj [("host", JStr "a.example"); ("name", JStr "A"); ("version", JStr "1.0.0")]);
                 ("attestations", JObj [("identityCerts", JArr [JObj [("fingerprint", JStr "f"); ("type", JStr "t"); ("notAfter", JStr "2023-11-14T22:23:20Z")]])])]).

Definition run_certified : LogState := Eval vm_compute in run_step "log-1" V2Codec run_certified_body run_keyed.

Lemma run_certified_reached : rtc tl_step empty_log run_certified.
Proof. apply (run_extend run_keyed _ "log-1" V2Codec run_certified_body); [vm_compute; reflexivity|done..|]. apply run_keyed_reached. Qed.

Definition run_token : result serr string :=
  (StatusToken_ForAgent (C := demo_cbor) (fun _ _ => Some [48; 6; 2; 1; 1; 2; 1; 1]) (fun _ => Some "p") {| t_keyID := "k"; t_keyHash := "h"; t_ttl := 1 * Hour |}
     (run_world DbDone) (UnixMilli 1700000000000) "ag-1" run_certified).1.

Lemma run_token_issued : run_token = Ok "S".
Proof. vm_compute. reflexivity. Qed.

Lemma status_token_bounds_witness : exists pl, st_AgentID pl = "ag-1" /\ st_IAT pl = 1700000000 /\ st_EXP pl <= 1700000000 + 3600.
Proof.
  destruct (status_token_bounds (C := demo_cbor) _ _ _ run_certified (run_world DbDone) _ "ag-1" "S" run_certified_reached plain_tessera_laws run_token_issued)
    as (rec & claims & pl & wr & _ & _ & H1 & _ & _ & _ & _ & H2 & [_ H3] & _).
  exists pl. split; [exact H1|]. split; [exact H2|exact H3].
Defined.
