(* ===== verification/TlProofSpec.v ===== *)
(** The inclusion proofs the log serves verify.

    Composes the index ([TlLogSpec]), the checkpoint text ([LogNoteSpec]), the
    proof builder's contract ([TlProof.ProofLaws]) and the walk of RFC 9162
    ([Merkle]): what a badge carries is a proof that its leaf is in the signed tree. *)
From stdpp Require Import gmap.
From S2P Require Import Prelude GoStrings Utf8 GoTime DomainErrors SemVer AnsName GoEncoding GoJSON GoJSONSpec Jcs Sha256 Lifecycle Discovery TlEvent TlEnvelope TlEnvelopeSpec RaEvents P1363 Jws JwsSpec TlStore TlStoreSpec TlLog TlLogInv TlLogSpec LogNote LogNoteSpec Merkle Receipt TlProof TlBadge TlBadgeSpec.

#[local] Set Default Goal Selector "!".
#[local] Open Scope Z_scope.

Lemma digit_not_space c : is_digit c = true -> is_ascii_byte c && negb (is_space_byte c) = true.
Proof.
  intros H. pose proof (forall_bytes (fun c => negb (is_digit c) || (is_ascii_byte c && negb (is_space_byte c))) eq_refl c) as F. cbn in F. by rewrite H in F.
Qed.

Lemma Sscanf_Itoa n : 0 <= n < 2 ^ 64 -> Sscanf_d (Itoa n) = Some n.
Proof.
  intros Hn. unfold Sscanf_d. pose proof (Itoa_digits n ltac:(lia)) as Hd. pose proof (Itoa_nonempty n) as Hne.
  assert (trim_left_from 0 (Itoa n) = Itoa n) as ->.
  { destruct (Itoa n) as [|c s]; [done|]. unfold is_digits in Hd. cbn [str_forall] in Hd. apply andb_true_iff in Hd as [Hc _].
    apply digit_not_space in Hc. b2p. cbn [trim_left_from]. rewrite DecodeRune_ascii by done. unfold is_space_byte in *. by rewrite H0. }
  rewrite take_digits_all by done. by apply ParseUint64_Itoa.
Qed.

(** The header parser reads a checkpoint's text, whatever follows it. *)
Lemma parse_checkpoint_text origin n root rest :
  ContainsByte origin cNewline = false -> 0 <= n < 2 ^ 64 -> parseSumdbCheckpoint (checkpoint_text origin n root +:+ rest) = Some (n, root).
Proof.
  intros Ho Hn. unfold parseSumdbCheckpoint, parseCheckpointHeader, checkpoint_text.
  do 3 rewrite ?app_assoc_s, ?app_cons_s, ?app_nil_l_s.
  rewrite Split_app by done. rewrite Split_app by (apply Itoa_line; lia). rewrite Split_app by apply std_line.
  rewrite Sscanf_Itoa by done. cbn [mbind option_bind]. unfold decodeCheckpointRoot, decodeB64_std. rewrite std_base64_roundtrip. cbn [mbind option_bind].
  by rewrite hex_roundtrip.
Qed.

Lemma decode_path_encoded path : decode_path (std_EncodeToString <$> path) = Ok path.
Proof. induction path as [|p path IH]; [done|]. cbn [fmap list_fmap decode_path]. unfold decodeStdBase64. rewrite std_base64_roundtrip. cbn. by rewrite IH. Qed.

Section Spec.
Context `{U : UnicodeTables} `{J : JCS, !JCSLaws J} `{S : SigSchemes} `{X : PemX509, KP : !KeyParser, JO : !Jose, !JoseLaws JO} `{SJ : SqliteJSON}.
Context (R : ProofReader) `{HR : !ProofLaws R}.

(** [p] proves that the leaf [raw] is entry [i] of the first [n] leaves. *)
Record proves (leaves : list string) (raw : string) (i n : nat) (p : MerkleProof) : Prop := {
  pv_leaf : leaves !! i = Some raw;
  pv_size : (i < n <= length leaves)%nat;
  pv_hash : mp_LeafHash p = hex_EncodeToString (rfc9162LeafHash raw);
  pv_index : mp_LeafIndex p = Some (Z.of_nat i);
  pv_tree : mp_TreeSize p = Z.of_nat n;
  pv_root : decodeStdBase64 (mp_RootHash p) = Ok (MTH (take n leaves));
  pv_path : exists path, decode_path (mp_Path p) = Ok path /\
    rfc9162RootFromProof (rfc9162LeafHash raw) (Z.of_nat i) (Z.of_nat n) path = Ok (MTH (take n leaves))
}.

Lemma BuildMerkleProof_proves s rec p :
  log_inv s -> Z.of_nat (length (s_leaves s)) < 2 ^ 63 -> rec ∈ t_events (s_db s) -> BuildMerkleProof R (s_leaves s) rec = Ok p ->
  exists n, proves (s_leaves s) (er_RawEvent rec) (Z.to_nat (er_LeafIndex rec)) n p.
Proof.
  intros Hs Hlen Hrec HB. destruct (row_submitted s rec (li_mirror s Hs) Hrec) as (x & env & c & _ & Hl & Er).
  pose proof (mirror_pos s rec (li_mirror s Hs) Hrec) as Hpos. unfold BuildMerkleProof in HB. apply bind_Ok in HB as (note & Hn & HB).
  destruct (rp_ReadCheckpoint R (s_leaves s)) as [note'|] eqn:En; [|done]. injection Hn as ->.
  destruct (rp_checkpoint_law _ _ En) as (origin & n & rest & Ho & Hle & ->). rewrite parse_checkpoint_text in HB by (done || lia). cbn [or_proof mbind result_bind] in HB.
  case_if_in HB; [done|]. b2p. apply bind_Ok in HB as (path & Hp & [= <-]). destruct (rp_InclusionProof _ _ _ _) as [path'|] eqn:Ep; [|done]. injection Hp as ->.
  set (i := Z.to_nat (er_LeafIndex rec)) in *. assert (er_LeafIndex rec = Z.of_nat i) as Ei by lia. rewrite Ei in Ep.
  apply rp_proof_law in Ep; [|lia]. exists n. split; cbn; try done.
  - lia.
  - by rewrite Er at 1.
  - by rewrite int64_wrap_small, Ei by lia.
  - by rewrite int64_wrap_small by lia.
  - unfold decodeStdBase64. by rewrite std_base64_roundtrip.
  - exists path. split; [apply decode_path_encoded|]. subst path.
    pose proof (inclusion_proof_complete (take n (s_leaves s)) i (er_RawEvent rec)) as HM. rewrite length_take_le in HM by lia.
    apply HM; [by rewrite lookup_take_lt by lia|lia].
Qed.

(** C14: the proofs the log serves are true.  In every state the log can reach, the
    Merkle proof of an agent's badge gives the hash and the index of the very leaf
    the badge's payload was read from, and a size and a root that are the tree size
    and the RFC 9162 root of a prefix of the log; walking its path from the leaf
    hash ends at that root; and a receipt minted from it carries exactly this proof
    and these bytes. *)
Theorem served_proof_verifies s w agentID tl p :
  rtc tl_step empty_log s -> TesseraLaws (w_tessera w) -> Z.of_nat (length (s_leaves s)) < 2 ^ 63 ->
  (Badge_Get R w agentID s).1 = Ok tl -> tl_MerkleProof tl = Some p ->
  exists rec wr n i path, proves (s_leaves s) (er_RawEvent rec) i n p /\ er_AgentID rec = agentID /\
    parseEnvelopeWrapper (er_RawEvent rec) = Ok wr /\ tl_Payload tl = ew_Payload wr /\ decode_path (mp_Path p) = Ok path /\
    forall (C : CBOR) sign g now receipt, mint sign g p now rec = Ok receipt ->
      GenerateReceipt sign g now
        (Some {| ip_TreeSize := Z.of_nat n; ip_LeafIndex := Z.of_nat i; ip_Path := path; ip_RootHash := MTH (take n (s_leaves s)) |}) (er_RawEvent rec) = Ok receipt.
Proof.
  intros Hs%log_inv_reachable HT Hlen Hget. revert tl Hget p.
  match goal with |- forall tl, _ -> @?Q tl => enough (reads s (Badge_Get R w agentID) Q) as (_ & _ & H) by exact H end.
  eapply reads_bind; [by apply reads_fenced_result|]. intros rec s1 Hs1 El1 (d & Hv & HG).
  assert (rec ∈ t_events d /\ er_AgentID rec = agentID) as [Hrec Hag].
  { unfold GetLatestByAgentID in HG. destruct (head _) as [r|] eqn:E; [|done]. injection HG as ->. apply order_by_head in E as [[Hp Hr]%list_elem_of_filter _]. b2p. done. }
  unfold buildTransparencyLog, build_log. eapply reads_bind; [by apply reads_lifts|]. intros wr s2 Hs2 El2 Hwr. cbn beta in Hwr. split; [done|]. split; [done|].
  intros tl [= <-] p. cbn [tl_MerkleProof tl_Payload]. rewrite El2, El1. destruct (BuildMerkleProof R (s_leaves s) rec) as [p'|] eqn:HB; [|done]. intros [= ->].
  destruct Hv as (s0 & Hs0 & _ & El0 & <-). rewrite <-El0 in HB, Hlen. destruct (BuildMerkleProof_proves s0 rec p Hs0 Hlen Hrec HB) as [n Hp]. rewrite El0 in *.
  destruct (pv_path _ _ _ _ _ Hp) as (path & Hd & Hw). exists rec, wr, n, (Z.to_nat (er_LeafIndex rec)), path. split_and!; try done.
  intros C sign g now receipt Hm. unfold mint in Hm. pose proof (pv_size _ _ _ _ _ Hp). rewrite (pv_root _ _ _ _ _ Hp), Hd, (pv_index _ _ _ _ _ Hp), (pv_tree _ _ _ _ _ Hp) in Hm.
  cbn [mbind result_bind] in Hm. rewrite !uint64_wrap_small in Hm by lia. destruct (GenerateReceipt _ _ _ _ (er_RawEvent rec)) as [b|] eqn:EG in Hm; [|done]. injection Hm as <-. exact EG.
Qed.
End Spec.

(** ** A served proof *)

#[local] Existing Instance latin_tables.
#[local] Existing Instance reference_jcs.
#[local] Existing Instance demo_schemes.
#[local] Existing Instance run_pem.
#[local] Existing Instance run_parser.
#[local] Existing Instance run_jose.
#[local] Existing Instance run_jose_laws.
#[local] Existing Instance run_sqlite.
#[local] Existing Instance plain_tessera_laws.

Definition plain_reader : ProofReader := {|
  rp_ReadCheckpoint := fun leaves => Some (checkpoint_text "log" (Z.of_nat (length leaves)) (MTH leaves) +:+ "x");
  rp_InclusionProof := fun leaves n m => Some (PATH m (take (Z.to_nat n) leaves))
|}.

#[local] Instance plain_reader_laws : ProofLaws plain_reader.
Proof.
  split.
  - intros leaves note [= <-]. exists "log", (length leaves), "x". split; [done|]. split; [lia|]. by rewrite firstn_all.
  - intros leaves n m path [= <-] _. by rewrite Nat2Z.id.
Qed.

Lemma run_badge : exists tl p, (Badge_Get plain_reader (run_world DbDone) "ag-1" run_revoked).1 = Ok tl /\ tl_MerkleProof tl = Some p /\ mp_TreeSize p = 2.
Proof. eexists _, _. split; [vm_compute; reflexivity|]. split; reflexivity. Qed.

Lemma served_proof_verifies_witness : exists rec i p, proves (s_leaves run_revoked) (er_RawEvent rec) i 2 p /\ er_AgentID rec = "ag-1".
Proof.
  destruct run_badge as (tl & p & H1 & H2 & H3).
  destruct (served_proof_verifies plain_reader run_revoked (run_world DbDone) "ag-1" tl p run_revoked_reached plain_tessera_laws) as (rec & wr & n & i & path & H4 & H5 & _).
  - cbn. lia.
  - exact H1.
  - exact H2.
  - exists rec, i, p. split; [|exact H5]. assert (n = 2%nat) as <-; [|exact H4]. pose proof (pv_tree _ _ _ _ _ H4) as H6. rewrite H3 in H6. lia.
Defined.
