(* ===== verification/WorkPool.v ===== *)
(** Worker pools: the goroutines, the bounded channel and the cancellation that
    [cmd/ans-verify] runs its fetches with.

    [walkProviderAgents] and [verifyMatches] share one shape: a producer sends
    the indices of the jobs into a channel of bounded capacity and closes it;
    each worker takes an index, does the job and writes the slot of that index;
    the caller waits for the workers and reads the slots.  A pool that can be
    stopped also records the first failure and cancels the context, after which
    the producer stops sending and the workers drain the channel.

    The pool is a transition system whose steps are the atomic actions of the
    goroutines, so that a run of it is one interleaving.  Every run ends
    ([pool_terminates]), none is stuck before all workers have left
    ([pool_progress]), and what the slots hold at the end is [pool_result]. *)
From S2P Require Import Prelude.
From stdpp Require Import relations.

#[local] Set Default Goal Selector "!".

Section Pool.
Context {R E : Type}.

(** What a job may give, by whether the context was already cancelled when its
    result came back; which results are failures; whether the workers watch the
    context. *)
Record jobs_spec := {
  js_count : nat;
  js_work : bool -> nat -> R -> Prop;
  js_failure : R -> option E;
  js_stoppable : bool
}.

(** A worker waits for a job, has taken one, does it, is about to record a
    failure, is about to cancel, or has returned. *)
Inductive worker := Idle | Took (j : nat) | Working (j : nat) | Recording (e : E) | Cancelling | Exited.

Record pool := {
  p_next : nat;                  (* what the producer sends next *)
  p_closed : bool;               (* close(jobs) was called *)
  p_jobs : list nat;             (* the channel's buffer *)
  p_workers : list worker;
  p_slots : list (option R);     (* results; [None] is the zero value *)
  p_firstErr : option E;
  p_cancelled : bool;            (* cancel() was called *)
  p_ctxDone : bool               (* the caller's context is done *)
}.

Context (J : jobs_spec) (cap : nat).

Definition done (p : pool) : bool := js_stoppable J && (p_cancelled p || p_ctxDone p).

Definition with_worker (p : pool) (w : nat) (k : worker) : pool :=
  {| p_next := p_next p; p_closed := p_closed p; p_jobs := p_jobs p; p_workers := <[w := k]> (p_workers p); p_slots := p_slots p;
     p_firstErr := p_firstErr p; p_cancelled := p_cancelled p; p_ctxDone := p_ctxDone p |}.

Definition with_queue (p : pool) (next : nat) (closed : bool) (jobs : list nat) : pool :=
  {| p_next := next; p_closed := closed; p_jobs := jobs; p_workers := p_workers p; p_slots := p_slots p;
     p_firstErr := p_firstErr p; p_cancelled := p_cancelled p; p_ctxDone := p_ctxDone p |}.

Definition with_slot (p : pool) (j : nat) (r : R) : pool :=
  {| p_next := p_next p; p_closed := p_closed p; p_jobs := p_jobs p; p_workers := p_workers p; p_slots := <[j := Some r]> (p_slots p);
     p_firstErr := p_firstErr p; p_cancelled := p_cancelled p; p_ctxDone := p_ctxDone p |}.

Definition with_error (p : pool) (firstErr : option E) (cancelled ctxDone : bool) : pool :=
  {| p_next := p_next p; p_closed := p_closed p; p_jobs := p_jobs p; p_workers := p_workers p; p_slots := p_slots p;
     p_firstErr := firstErr; p_cancelled := cancelled; p_ctxDone := ctxDone |}.

(** [CompareAndSwap(nil, &err)]. *)
Definition first_of (old : option E) (e : E) : option E := match old with None => Some e | Some _ => old end.

Definition start (workers : nat) : pool :=
  {| p_next := 0; p_closed := false; p_jobs := []; p_workers := replicate workers Idle; p_slots := replicate (js_count J) None;
     p_firstErr := None; p_cancelled := false; p_ctxDone := false |}.

Inductive pool_step : pool -> pool -> Prop :=
| StepSend p :
    p_closed p = false -> (p_next p < js_count J)%nat -> (length (p_jobs p) < cap)%nat ->
    pool_step p (with_queue p (S (p_next p)) false (p_jobs p ++ [p_next p]))
| StepStop p :
    p_closed p = false -> (p_next p < js_count J)%nat -> done p = true -> pool_step p (with_queue p (p_next p) true (p_jobs p))
| StepClose p :
    p_closed p = false -> p_next p = js_count J -> pool_step p (with_queue p (p_next p) true (p_jobs p))
| StepTake p w j rest :
    p_workers p !! w = Some Idle -> p_jobs p = j :: rest ->
    pool_step p (with_worker (with_queue p (p_next p) (p_closed p) rest) w (Took j))
| StepSkip p w j :
    p_workers p !! w = Some (Took j) -> done p = true -> pool_step p (with_worker p w Idle)
| StepBegin p w j :
    p_workers p !! w = Some (Took j) -> done p = false -> pool_step p (with_worker p w (Working j))
| StepDone p w j r :
    p_workers p !! w = Some (Working j) -> js_work J (done p) j r -> js_failure J r = None ->
    pool_step p (with_worker (with_slot p j r) w Idle)
| StepFail p w j r e :
    p_workers p !! w = Some (Working j) -> js_work J (done p) j r -> js_failure J r = Some e ->
    pool_step p (with_worker (with_slot p j r) w (Recording e))
| StepRecord p w e :
    p_workers p !! w = Some (Recording e) ->
    pool_step p (with_worker (with_error p (first_of (p_firstErr p) e) (p_cancelled p) (p_ctxDone p)) w Cancelling)
| StepCancel p w :
    p_workers p !! w = Some Cancelling ->
    pool_step p (with_worker (with_error p (p_firstErr p) true (p_ctxDone p)) w Idle)
| StepExit p w :
    p_workers p !! w = Some Idle -> p_closed p = true -> p_jobs p = [] -> pool_step p (with_worker p w Exited)
| StepContext p :
    p_ctxDone p = false -> pool_step p (with_error p (p_firstErr p) (p_cancelled p) true).

(** [wg.Wait()] returns. *)
Definition finished (p : pool) : Prop := p_closed p = true /\ Forall (eq Exited) (p_workers p).

(** ** Every run ends *)

Definition weight (k : worker) : nat :=
  match k with Idle => 1 | Took _ => 5 | Working _ => 4 | Recording _ => 3 | Cancelling => 2 | Exited => 0 end.

Definition measure (p : pool) : nat :=
  7 * (js_count J - p_next p) + 6 * length (p_jobs p) + sum_list (weight <$> p_workers p)
  + (if p_closed p then 0 else 1) + (if p_ctxDone p then 0 else 1).

Lemma sum_list_with_cons_id n l : sum_list (n :: l) = n + sum_list l.
Proof. done. Qed.

Lemma sum_weight_insert ks w k k' :
  ks !! w = Some k -> sum_list (weight <$> <[w := k']> ks) + weight k = sum_list (weight <$> ks) + weight k'.
Proof.
  revert w. induction ks as [|x ks IH]; intros [|w]; [done..| |].
  - intros [= ->]. change (<[0 := k']> (k :: ks)) with (k' :: ks). rewrite !fmap_cons, !sum_list_with_cons_id. lia.
  - intros H%IH. change (<[S w := k']> (x :: ks)) with (x :: <[w := k']> ks). rewrite !fmap_cons, !sum_list_with_cons_id. lia.
Qed.

Lemma step_decreases p p' : pool_step p p' -> (measure p' < measure p)%nat.
Proof.
  intros Hs. unfold measure. inversion Hs; subst; cbn [with_worker with_queue with_slot with_error p_next p_closed p_jobs p_workers p_slots p_firstErr p_cancelled p_ctxDone];
    try match goal with H : p_workers _ !! _ = Some _ |- context [<[_ := ?k]> _] =>
      pose proof (sum_weight_insert _ _ _ k H) as Hw; cbn [weight] in Hw end;
    repeat match goal with H : p_jobs _ = _ |- _ => rewrite H | H : p_closed _ = _ |- _ => rewrite H | H : p_ctxDone _ = _ |- _ => rewrite H end;
    rewrite ?length_app; cbn [length]; try lia.
Qed.

Lemma pool_terminates p : Acc (flip pool_step) p.
Proof.
  induction p as [p IH] using (well_founded_induction (well_founded_ltof _ measure)).
  constructor. intros p' Hs. apply IH. by apply step_decreases.
Qed.

(** ** What a run keeps *)

Definition holds_job (p : pool) (j : nat) : Prop :=
  exists w k, p_workers p !! w = Some k /\ (k = Took j \/ k = Working j).

Definition filled (p : pool) (j : nat) : Prop := exists r, p_slots p !! j = Some (Some r).

(** A failure is the failure of some job. *)
Definition failure_of (e : E) : Prop := exists d j r, (j < js_count J)%nat /\ js_work J d j r /\ js_failure J r = Some e.

Definition worker_ok (p : pool) (k : worker) : Prop :=
  match k with
  | Idle => True
  | Took j | Working j => (j < js_count J)%nat
  | Recording e => failure_of e
  | Cancelling => is_Some (p_firstErr p)
  | Exited => p_closed p = true /\ p_jobs p = []
  end.

(** A failing result was recorded, or is about to be. *)
Definition accounted (p : pool) (r : R) : Prop :=
  js_failure J r = None \/ is_Some (p_firstErr p) \/ exists w e, p_workers p !! w = Some (Recording e).

Record pool_inv (p : pool) : Prop := {
  pi_next : (p_next p <= js_count J)%nat;
  pi_length : length (p_slots p) = js_count J;
  pi_jobs j : j ∈ p_jobs p -> (j < js_count J)%nat;
  pi_workers w k : p_workers p !! w = Some k -> worker_ok p k;
  pi_covered j : (j < p_next p)%nat -> j ∈ p_jobs p \/ holds_job p j \/ filled p j \/ done p = true;
  pi_closed : p_closed p = true -> p_next p = js_count J \/ done p = true;
  pi_slot j r : p_slots p !! j = Some (Some r) -> accounted p r /\ exists d, js_work J d j r /\ (d = true -> done p = true);
  pi_error e : p_firstErr p = Some e -> failure_of e;
  pi_cancelled : p_cancelled p = true -> is_Some (p_firstErr p)
}.

Lemma pool_inv_start n : pool_inv (start n).
Proof.
  split; cbn; [lia|by rewrite length_replicate|set_solver|intros w k [-> _]%lookup_replicate; done|lia|done| |done|done].
  intros j r [? _]%lookup_replicate. done.
Qed.

Definition job_of (k : worker) : option nat := match k with Took j | Working j => Some j | _ => None end.

Lemma holds_job_of p j : holds_job p j <-> exists w k, p_workers p !! w = Some k /\ job_of k = Some j.
Proof.
  split.
  - intros (w & k & H & [-> | ->]); by repeat eexists.
  - intros (w & k & H & E'). exists w, k. split; [done|]. destruct k; cbn in E'; simplify_eq; auto.
Qed.

(** Changing one worker: its job is passed on or settled, and a failure it was
    about to record has been. *)
Lemma with_worker_inv p w k k' :
  pool_inv p -> p_workers p !! w = Some k -> worker_ok p k' ->
  (forall j, job_of k = Some j -> job_of k' = Some j \/ filled p j \/ done p = true) ->
  (forall e, k = Recording e -> is_Some (p_firstErr p)) -> pool_inv (with_worker p w k').
Proof.
  intros [Hn Hl Hj Hw Hc Hcl Hs He Hca] Hk Hk' Hjob Hrec. split; try done.
  - intros w' k0 [(<- & <- & _)|[_ H]]%list_lookup_insert_Some; [done|]. by eapply Hw.
  - intros j [H|[H|[H|H]]]%Hc; [by left| |by right; right; left|by right; right; right]. right.
    apply holds_job_of in H as (w' & k0 & H & E'). destruct (decide (w' = w)) as [->|Hne].
    + rewrite Hk in H. injection H as <-. destruct (Hjob j E') as [H|[H|H]]; [left|by right; left|by right; right].
      apply holds_job_of. exists w, k'. split; [|done]. apply list_lookup_insert_eq. by eapply lookup_lt_Some.
    + left. apply holds_job_of. exists w', k0. split; [|done]. by rewrite <-H; apply list_lookup_insert_ne.
  - intros j r Hr. destruct (Hs j r Hr) as [Ha Hd]. split; [|done]. destruct Ha as [?|[?|(w' & e & H)]]; [by left|by right; left|].
    right. destruct (decide (w' = w)) as [->|Hne]; [left; rewrite Hk in H; injection H as ->; by eapply Hrec|].
    right. exists w', e. by rewrite <-H; apply list_lookup_insert_ne.
Qed.

(** Changing the queue. *)
Lemma with_queue_inv p next closed jobs :
  pool_inv p -> (p_next p <= next <= js_count J)%nat -> (forall j, j ∈ jobs -> (j < js_count J)%nat) ->
  (forall j, (j < next)%nat -> (p_next p <= j)%nat \/ j ∈ p_jobs p -> j ∈ jobs) ->
  (p_closed p = true -> closed = true /\ jobs = p_jobs p) ->
  (closed = true -> next = js_count J \/ done p = true) -> pool_inv (with_queue p next closed jobs).
Proof.
  intros [Hn Hl Hj Hw Hc Hcl Hs He Hca] Hnext Hjobs Hin Hmono Hclosed. split; try done.
  - cbn; lia.
  - intros w k H. specialize (Hw w k H). destruct k; try done. destruct Hw as [Hw1 Hw2]. destruct (Hmono Hw1) as [-> ->]. done.
  - intros j Hjn. destruct (decide (j < p_next p)%nat) as [Hlt|]; [|left; apply Hin; [done|left; cbn in *; lia]].
    destruct (Hc j Hlt) as [H|H]; [|by right]. left. by apply Hin; [|right].
Qed.

Lemma with_error_inv p e' c x :
  pool_inv p -> (is_Some (p_firstErr p) -> is_Some e') -> (forall e, e' = Some e -> failure_of e) ->
  (p_cancelled p = true -> c = true) -> (p_ctxDone p = true -> x = true) -> (c = true -> is_Some e') -> pool_inv (with_error p e' c x).
Proof.
  intros [Hn Hl Hj Hw Hc Hcl Hs He Hca] Hsome Horig Hcm Hxm Hc'.
  assert (Hd : done p = true -> done (with_error p e' c x) = true).
  { unfold done. cbn. destruct (js_stoppable J); [|done]. cbn. intros [?%Hcm|?%Hxm]%orb_true_iff; subst; [done|apply orb_true_r]. }
  split; try done.
  - intros w k H. specialize (Hw w k H). destruct k; try done. cbn in *. auto.
  - intros j [H|[H|[H|H]]]%Hc; auto 10.
  - intros [?|?]%Hcl; auto.
  - intros j r Hr. destruct (Hs j r Hr) as [Ha (d & Hwk & Hdd)]. split; [|exists d; auto].
    destruct Ha as [?|[?|?]]; [by left|right; left; cbn; auto|by right; right].
Qed.

(** A job comes back. *)
Lemma finish_inv p w j r k' :
  pool_inv p -> p_workers p !! w = Some (Working j) -> js_work J (done p) j r ->
  k' = match js_failure J r with None => Idle | Some e => Recording e end ->
  pool_inv (with_worker (with_slot p j r) w k').
Proof.
  intros [Hn Hl Hj Hw Hc Hcl Hs He Hca] Hk Hr Hk'. pose proof (Hw w _ Hk) as Hjn. cbn in Hjn.
  assert (Hlt : (w < length (p_workers p))%nat) by by eapply lookup_lt_Some.
  assert (Hself : <[w := k']> (p_workers p) !! w = Some k') by by apply list_lookup_insert_eq.
  assert (Hfill : forall i, filled p i \/ i = j -> filled (with_worker (with_slot p j r) w k') i).
  { intros i Hi. unfold filled. cbn [with_worker with_slot p_slots]. destruct (decide (i = j)) as [->|Hne].
    - exists r. apply list_lookup_insert_eq. by rewrite Hl.
    - destruct Hi as [(r' & H)|]; [|done]. exists r'. rewrite <-H. by apply list_lookup_insert_ne. }
  split; try done.
  - cbn [with_worker with_slot p_slots]. by rewrite length_insert.
  - intros w' k0 [(<- & <- & _)|[_ H]]%list_lookup_insert_Some; [|by eapply Hw].
    rewrite Hk'. destruct (js_failure J r) as [e|] eqn:Ee; [|done]. cbn. exists (done p), j, r. done.
  - intros i [H|[H|[H|H]]]%Hc; [by left| |by right; right; left; apply Hfill; left|by right; right; right].
    right. apply holds_job_of in H as (w' & k0 & H & E'). destruct (decide (w' = w)) as [->|Hne].
    + rewrite Hk in H. injection H as <-. injection E' as <-. right. left. apply Hfill. by right.
    + left. apply holds_job_of. exists w', k0. split; [|done]. by rewrite <-H; apply list_lookup_insert_ne.
  - intros i r' Hi. cbn [with_worker with_slot p_slots] in Hi. apply list_lookup_insert_Some in Hi as [(-> & [= ->] & _)|[_ Hi]].
    + split; [|by exists (done p)]. destruct (js_failure J r') as [e|] eqn:Ee; [|by left]. right. right. exists w, e. cbn. by rewrite Hself, Hk'.
    + destruct (Hs i r' Hi) as [Ha Hd]. split; [|done]. destruct Ha as [?|[?|(w' & e & H)]]; [by left|by right; left|].
      right. right. exists w', e. assert (w' <> w) by (intros ->; rewrite Hk in H; by simplify_eq). cbn. rewrite <-H. by apply list_lookup_insert_ne.
Qed.

Lemma pool_step_inv p p' : pool_inv p -> pool_step p p' -> pool_inv p'.
Proof.
  intros Hi Hs. pose proof Hi as [Hn Hl Hj Hw Hc Hcl Hsl He Hca].
  destruct Hs as [p Hclo Hlt Hcap|p Hclo Hlt Hd|p Hclo Hend|p w j rest Hk Hjobs|p w j Hk Hd|p w j Hk Hd|p w j r Hk Hr Hf|p w j r e Hk Hr Hf
                 |p w e Hk|p w Hk|p w Hk Hclo Hjobs|p Hx].
  - apply with_queue_inv; [done|lia| |..].
    + intros j [?|Hin]%elem_of_app; [by apply Hj|by apply list_elem_of_singleton in Hin as ->].
    + intros j Hjn [Hge|Hin]; apply elem_of_app; [right; apply list_elem_of_singleton; lia|by left].
    + congruence.
    + done.
  - apply with_queue_inv; [done|lia|done|intros j ? [?|?]; [lia|done]|done|by right].
  - apply with_queue_inv; [done|lia|done|intros j ? [?|?]; [lia|done]|done|by left].
  - assert (Hlt : (w < length (p_workers p))%nat) by by eapply lookup_lt_Some.
    assert (Hjn : (j < js_count J)%nat) by (apply Hj; rewrite Hjobs; left).
    split; try done.
    + intros i Hin. apply Hj. rewrite Hjobs. by right.
    + intros w' k0 [(<- & <- & _)|[_ H]]%list_lookup_insert_Some; [done|]. specialize (Hw w' k0 H). destruct k0; try done.
      destruct Hw as [_ Hw]. by rewrite Hjobs in Hw.
    + intros i Hin. destruct (Hc i Hin) as [H|[H|[H|H]]]; [| |by right; right; left|by right; right; right].
      * rewrite Hjobs in H. apply elem_of_cons in H as [->|H]; [|by left]. right. left. exists w, (Took j). split; [|by left].
        by apply list_lookup_insert_eq.
      * right. left. apply holds_job_of in H as (w' & k0 & H & E'). apply holds_job_of. exists w', k0. split; [|done].
        assert (w' <> w) by (intros ->; rewrite Hk in H; by simplify_eq). cbn. rewrite <-H. by apply list_lookup_insert_ne.
    + intros i r Hr. destruct (Hsl i r Hr) as [Ha Hd]. split; [|done]. destruct Ha as [?|[?|(w' & e & H)]]; [by left|by right; left|].
      right. right. exists w', e. assert (w' <> w) by (intros ->; rewrite Hk in H; by simplify_eq). cbn. rewrite <-H. by apply list_lookup_insert_ne.
  - eapply with_worker_inv; [done|done|done| |done]. intros. by right; right.
  - eapply with_worker_inv; [done|done|by apply (Hw w _ Hk)| |done]. intros i [= <-]. by left.
  - eapply finish_inv; [done|done|done|]. by rewrite Hf.
  - eapply finish_inv; [done|done|done|]. by rewrite Hf.
  - eapply with_worker_inv; [|exact Hk|..].
    + apply with_error_inv; try done.
      * intros [e0 E0]. cbn. by rewrite E0.
      * intros e0. destruct (p_firstErr p) as [e1|] eqn:E1; cbn; intros [= ->]; [by apply He|by apply (Hw w _ Hk)].
      * intros [e0 E0]%Hca. cbn. by rewrite E0.
    + cbn. by destruct (p_firstErr p).
    + done.
    + intros e0 _. cbn. by destruct (p_firstErr p).
  - eapply with_worker_inv; [|exact Hk|done|done|done]. apply with_error_inv; try done. intros _. by apply (Hw w _ Hk).
  - by eapply with_worker_inv.
  - apply with_error_inv; try done.
Qed.

Lemma pool_inv_run n p : rtc pool_step (start n) p -> pool_inv p.
Proof. revert p. apply rtc_ind_r; [apply pool_inv_start|intros p p' _ Hs Hi; by eapply pool_step_inv]. Qed.

Lemma step_workers p p' : pool_step p p' -> length (p_workers p') = length (p_workers p).
Proof. intros []; cbn; by rewrite ?length_insert. Qed.

Lemma run_workers n p : rtc pool_step (start n) p -> length (p_workers p) = n.
Proof.
  revert p. apply rtc_ind_r; [apply length_replicate|]. intros p p' _ Hs <-. by apply step_workers.
Qed.

(** ** No run is stuck *)

Definition idle (k : worker) : bool := match k with Idle => true | _ => false end.
Definition busy (k : worker) : bool := match k with Idle | Exited => false | _ => true end.

Lemma busy_step p w k :
  (forall d j, (j < js_count J)%nat -> exists r, js_work J d j r) ->
  pool_inv p -> p_workers p !! w = Some k -> busy k = true -> exists p', pool_step p p' /\ p_ctxDone p' = p_ctxDone p.
Proof.
  intros Ht Hi Hk Hb. pose proof (pi_workers p Hi w k Hk) as Hok. destruct k as [|j|j|e| |]; try done.
  - destruct (done p) eqn:Ed; eexists; (split; [first [by eapply StepSkip|by eapply StepBegin]|done]).
  - destruct (Ht (done p) j Hok) as [r Hr]. destruct (js_failure J r) as [e|] eqn:Ee;
      eexists; (split; [first [by eapply StepDone|by eapply StepFail]|done]).
  - eexists. split; [by eapply StepRecord|done].
  - eexists. split; [by eapply StepCancel|done].
Qed.

Lemma pool_progress n p :
  (0 < cap)%nat -> (0 < n)%nat -> (forall d j, (j < js_count J)%nat -> exists r, js_work J d j r) ->
  rtc pool_step (start n) p -> ~ finished p -> exists p', pool_step p p' /\ p_ctxDone p' = p_ctxDone p.
Proof.
  intros Hcap Hn Ht Hr Hf. pose proof (pool_inv_run n p Hr) as Hi. pose proof (run_workers n p Hr) as Hlen.
  destruct (decide (Exists (fun k => busy k = true) (p_workers p))) as [(k & Hin & Hb)%Exists_exists|Hno].
  { apply list_elem_of_lookup in Hin as [w Hk]. by eapply busy_step. }
  apply not_Exists_Forall in Hno; [|apply _]. rewrite Forall_forall in Hno.
  destruct (decide (Exists (fun k => idle k = true) (p_workers p))) as [(k & Hin & Hid)%Exists_exists|Hall].
  - destruct k; try done. apply list_elem_of_lookup in Hin as [w Hk]. destruct (p_jobs p) as [|j rest] eqn:Ej.
    + destruct (p_closed p) eqn:Ec; [eexists; split; [by eapply StepExit|done]|].
      destruct (decide (p_next p < js_count J)%nat) as [Hlt|Hge].
      * eexists. split; [apply StepSend; [done|done|by rewrite Ej]|done].
      * eexists. split; [apply StepClose; [done|pose proof (pi_next p Hi); lia]|done].
    + eexists. split; [by eapply StepTake|done].
  - assert (He : Forall (eq Exited) (p_workers p)).
    { apply Forall_forall. intros k Hin. destruct k as [| | | | |]; try (by destruct (Hno _ Hin)); [|done].
      destruct Hall. apply Exists_exists. by eexists. }
    destruct (p_workers p) as [|k ks] eqn:Ew; [cbn in Hlen; lia|]. apply Forall_cons in He as Hk. destruct Hk as [<- _].
    destruct (pi_workers p Hi 0 Exited) as [Hc _]; [by rewrite Ew|]. destruct Hf. split; [done|]. by rewrite Ew.
Qed.

(** ** What is in the slots at the end *)

Lemma pool_result n p :
  (0 < n)%nat -> rtc pool_step (start n) p -> finished p -> p_firstErr p = None -> (js_stoppable J = true -> p_ctxDone p = false) ->
  forall j, (j < js_count J)%nat -> exists r, p_slots p !! j = Some (Some r) /\ js_work J false j r /\ js_failure J r = None.
Proof.
  intros Hn Hr [Hc Hex] He Hx j Hj. pose proof (pool_inv_run n p Hr) as Hi. rewrite Forall_forall in Hex.
  assert (Hd : done p = false).
  { unfold done. destruct (js_stoppable J); [|done]. rewrite (Hx eq_refl). destruct (p_cancelled p) eqn:Ec; [|done].
    destruct (pi_cancelled p Hi Ec) as [e E']. congruence. }
  assert (Hjobs : p_jobs p = []).
  { pose proof (run_workers n p Hr) as Hlen. destruct (p_workers p) as [|k ks] eqn:Ew; [cbn in Hlen; lia|].
    rewrite <-(Hex k) in Ew by left. destruct (pi_workers p Hi 0 Exited) as [_ H]; [by rewrite Ew|done]. }
  destruct (pi_closed p Hi Hc) as [Hnext|?]; [|congruence].
  destruct (pi_covered p Hi j) as [H|[H|[H|H]]]; [lia|rewrite Hjobs in H; by apply elem_of_nil in H| | |congruence].
  - apply holds_job_of in H as (w & k & H & E'). apply list_elem_of_lookup_2 in H. by rewrite <-(Hex k H) in E'.
  - destruct H as [r Hs]. exists r. split; [done|]. destruct (pi_slot p Hi j r Hs) as [Ha (d & Hw & Hdd)].
    destruct d; [by rewrite Hdd in Hd|]. split; [done|]. destruct Ha as [?|[[e ?]|(w & e & H)]]; [done|congruence|].
    apply list_elem_of_lookup_2 in H. by specialize (Hex _ H).
Qed.

(** The error a run reports is the error of one of its jobs. *)
Lemma pool_error n p e : rtc pool_step (start n) p -> p_firstErr p = Some e -> failure_of e.
Proof. intros Hr. apply (pi_error p (pool_inv_run n p Hr)). Qed.

(** Nothing is recorded or cancelled before a job failed on its own account or
    the caller's context was done. *)
Definition trouble (p : pool) : Prop :=
  p_ctxDone p = true \/ exists j r e, (j < js_count J)%nat /\ js_work J false j r /\ js_failure J r = Some e.

Definition blamed (p : pool) : Prop :=
  is_Some (p_firstErr p) \/ p_cancelled p = true \/ exists w e, p_workers p !! w = Some (Recording e).

Lemma done_blamed p : done p = true -> p_ctxDone p = true \/ blamed p.
Proof. unfold done. intros [_ [H|H]%orb_true_iff]%andb_true_iff; [right; right; by left|by left]. Qed.

Lemma blamed_worker p w k :
  (forall e, k <> Recording e) -> blamed (with_worker p w k) -> blamed p.
Proof.
  intros Hk [H|[H|(w' & e & H)]]; [by left|by right; left|]. right. right. cbn in H.
  apply list_lookup_insert_Some in H as [(_ & H & _)|[_ H]]; [by destruct (Hk e)|by exists w', e].
Qed.

Lemma trouble_step p p' : pool_inv p -> pool_step p p' -> (blamed p -> trouble p) -> blamed p' -> trouble p'.
Proof.
  intros Hi Hs IH. destruct Hs as [p|p|p|p w j rest Hk Hjobs|p w j Hk Hd|p w j Hk Hd|p w j r Hk Hr Hf|p w j r e Hk Hr Hf|p w e Hk|p w Hk|p w Hk|p Hx]; try exact IH.
  - intros Hb%blamed_worker; [|done]. by apply IH.
  - intros Hb%blamed_worker; [|done]. by apply IH.
  - intros Hb%blamed_worker; [|done]. by apply IH.
  - intros Hb%blamed_worker; [|done]. by apply IH.
  - intros _. destruct (done p) eqn:Ed.
    + destruct (done_blamed p Ed) as [H|H]; [by left|]. by destruct (IH H); [left|right].
    + right. exists j, r, e. split; [|done]. by apply (pi_workers p Hi w _ Hk).
  - intros _. assert (blamed p) as H by by right; right; exists w, e. by destruct (IH H); [left|right].
  - intros _. assert (blamed p) as H by (left; by apply (pi_workers p Hi w _ Hk)). by destruct (IH H); [left|right].
  - intros Hb%blamed_worker; [|done]. by apply IH.
  - intros _. by left.
Qed.

Lemma pool_trouble n p : rtc pool_step (start n) p -> is_Some (p_firstErr p) -> trouble p.
Proof.
  intros Hr He. assert (blamed p -> trouble p) as H; [|by apply H; left]. clear He. revert p Hr. apply (rtc_ind_r (fun p => blamed p -> trouble p) (start n)).
  - intros [[e ?]|[?|(w & e & [? _]%lookup_replicate)]]; done.
  - intros p p' Hr Hs IH. eapply trouble_step; [by eapply pool_inv_run|done|done].
Qed.

(** A run can always be brought to its end, with the context left alone. *)
Lemma finished_dec p : {finished p} + {~ finished p}.
Proof.
  destruct (p_closed p) eqn:Ec; [|right; intros [? _]; congruence].
  assert (forall k, Decision (Exited = k)) as HD by (intros []; first [by left|by right]).
  destruct (decide (Forall (eq Exited) (p_workers p))); [by left|right; by intros [_ ?]].
Defined.

Lemma pool_finishes n :
  (0 < cap)%nat -> (0 < n)%nat -> (forall d j, (j < js_count J)%nat -> exists r, js_work J d j r) ->
  exists p, rtc pool_step (start n) p /\ finished p /\ p_ctxDone p = false.
Proof.
  intros Hcap Hn Ht. enough (forall p, rtc pool_step (start n) p -> p_ctxDone p = false -> exists p', rtc pool_step (start n) p' /\ finished p' /\ p_ctxDone p' = false) as H
    by by apply (H (start n)).
  intros p. induction (pool_terminates p) as [p _ IH]. intros Hr Hx. destruct (finished_dec p) as [Hf|Hf]; [by exists p|].
  destruct (pool_progress n p Hcap Hn Ht Hr Hf) as (p' & Hs & Ex). apply (IH p' Hs); [by eapply rtc_r|congruence].
Qed.
End Pool.
Arguments jobs_spec : clear implicits.
Arguments pool : clear implicits.
