(* ===== verification/SvcbRows.v ===== *)
(** Rows of white-space separated words: the presentation form in which the
    registration authority writes its service records
    ([internal/adapter/discovery/ans/dnsaid.go]) and in which the record check and
    [ans-verify] read them back with [strings.Fields]. *)
From S2P Require Import Prelude GoStrings Utf8 GoRegexp GoEncoding GoURL DomainErrors SemVer Endpoint AnsName Lifecycle Discovery.

#[local] Set Default Goal Selector "!".
#[local] Open Scope Z_scope.

(** ** Words *)

Definition graphic (c : ascii) : bool := inR 0x21 (byteZ c) 0x7e.

Definition token (w : string) : Prop := w <> "" /\ str_forall graphic w = true.

Lemma token_byte_graphic s : str_forall svcb_token_byte s = true -> str_forall graphic s = true.
Proof. apply str_forall_impl. all_bytes. Qed.

Lemma graphic_ascii s : str_forall graphic s = true -> is_ascii_str s = true.
Proof. apply str_forall_impl. all_bytes. Qed.

Lemma fields_from_insp cur s : fields_from 0 true cur s = fields_from 0 false cur s.
Proof. by destruct s. Qed.

Lemma fields_from_word cur w rest :
  str_forall graphic w = true -> fields_from 0 false cur (w +:+ rest) = fields_from 0 false (cur +:+ w) rest.
Proof.
  revert cur. induction w as [|c w IH]; intros cur H; [by rewrite app_nil_r_s, app_nil_l_s|].
  cbn [str_forall] in H. apply andb_true_iff in H as [Hc Hw]. rewrite app_cons_s. cbn [fields_from].
  assert (is_ascii_byte c = true /\ IsSpace (byteZ c) = false) as [A1 A2] by (revert Hc; clear; revert c; all_bytes).
  rewrite DecodeRune_ascii, A2 by done. cbn [pred]. rewrite IH by done. by rewrite app_assoc_s, app_cons_s, app_nil_l_s.
Qed.

Lemma Fields_cons w rest : token w -> Fields (w +:+ String " " rest) = w :: Fields rest.
Proof.
  intros [Hn Hw]. unfold Fields at 1. rewrite fields_from_word, app_nil_l_s by done.
  change (fields_from 0 false w (String " " rest)) with ((if String.eqb w "" then [] else [w]) ++ fields_from 0 true "" rest).
  rewrite fields_from_insp. by destruct (String.eqb_spec w "").
Qed.

Lemma Fields_one w : token w -> Fields w = [w].
Proof.
  intros [Hn Hw]. unfold Fields. rewrite <-(app_nil_r_s w) at 1. rewrite fields_from_word, app_nil_l_s by done. cbn [fields_from].
  by destruct (String.eqb_spec w "").
Qed.

(** Words joined by blanks are read back as these words. *)
Lemma Fields_Join ws : Forall token ws -> Fields (Join ws " ") = ws.
Proof.
  induction ws as [|w [|w' ws] IH]; intros H; [done|by apply Forall_cons in H as [? _]; apply Fields_one|].
  apply Forall_cons in H as [Hw H]. rewrite Join_cons by done. change (w +:+ " " +:+ Join (w' :: ws) " ") with (w +:+ String " " (Join (w' :: ws) " ")).
  rewrite Fields_cons by done. by rewrite IH.
Qed.

Lemma token_app p w : str_forall graphic p = true -> p <> "" -> str_forall graphic w = true -> token (p +:+ w).
Proof. intros Hp Hn Hw. split; [by intros [? _]%app_eq_nil_s|]. by rewrite str_forall_app, Hp, Hw. Qed.

Lemma Itoa_token n : str_forall svcb_token_byte (Itoa n) = true.
Proof.
  assert (Hd : forall s, is_digits s = true -> str_forall svcb_token_byte s = true) by (intros s H; eapply str_forall_impl; [|exact H]; all_bytes).
  destruct (Z.leb_spec 0 n); [by apply Hd, Itoa_digits|]. unfold Itoa. destruct (Z.ltb_spec n 0); [|lia]. change (str_forall svcb_token_byte (itoa_aux (Z.to_nat (Z.log2 (- n))) (- n) "") = true).
  assert (itoa_aux (Z.to_nat (Z.log2 (- n))) (- n) "" = Itoa (- n)) as -> by (symmetry; apply Itoa_nonneg; lia). apply Hd, Itoa_digits. lia.
Qed.

Lemma b64_token s : str_forall svcb_token_byte (b64_EncodeToString s) = true.
Proof.
  assert (Hd : forall d, 0 <= d < 64 -> svcb_token_byte (b64_digit d) = true) by (intros d; by apply (forall_below 64 (fun d => svcb_token_byte (b64_digit d)))).
  induction s as [|a|a b|a b c s IH] using string_ind3; [done|..]; cbn [b64_EncodeToString];
    pose proof (byteZ_range a); try pose proof (byteZ_range b); try pose proof (byteZ_range c); cbn [str_forall]; rewrite !Hd by zlia; cbn [andb]; done.
Qed.

(** ** The service row of an endpoint *)

Section Rows.
Context `{U : UnicodeTables} `{F : CaseOrbits}.

(** The parameters of the row, as keys and values. *)
Definition svcb_pairs (fqdn : string) (ep : AgentEndpoint) : list (string * string) :=
  let alpn := protocolToDNSAIDValue (ep_Protocol ep) in
  let cap := metadataHashToCapSHA256 (ep_MetadataHash ep) in
  let wk := wellKnownSuffixFromMetadataURL (ep_MetadataURL ep) fqdn in
  [("alpn", alpn); ("port", Itoa (svcbPortFor (ep_AgentURL ep)))] ++
  (if String.eqb (ep_MetadataURL ep) "" then [] else [("key65400", ep_MetadataURL ep)]) ++
  (if String.eqb cap "" then [] else [("key65401", cap)]) ++
  [("key65402", alpn)] ++ (if String.eqb wk "" then [] else [("key65409", wk)]).

Definition param_text (p : string * string) : string := p.1 +:+ "=" +:+ p.2.

Lemma svcb_value_join fqdn ep : svcb_value fqdn ep = Join ("1" :: "." :: (param_text <$> svcb_pairs fqdn ep)) " ".
Proof.
  unfold svcb_value, svcb_pairs, param_text. destruct (String.eqb (ep_MetadataURL ep) ""), (String.eqb (metadataHashToCapSHA256 _) ""), (String.eqb (wellKnownSuffixFromMetadataURL _ _) "");
    cbn [fmap list_fmap app Join fst snd]; rewrite ?app_assoc_s, ?app_nil_r_s; done.
Qed.

Lemma protocol_token p : Protocol_IsValid p = true ->
  protocolToDNSAIDValue p <> "" /\ str_forall svcb_token_byte (protocolToDNSAIDValue p) = true /\ ContainsByte (protocolToDNSAIDValue p) "," = false.
Proof.
  intros H. unfold Protocol_IsValid in H. apply existsb_exists in H as (q & Hq & ->%String.eqb_eq). cbn [In AllProtocols] in Hq.
  destruct Hq as [<-|[<-|[<-|[]]]]; done.
Qed.

Lemma wellKnown_token url fqdn : validateMetadataURL url = Ok tt -> str_forall svcb_token_byte (wellKnownSuffixFromMetadataURL url fqdn) = true.
Proof.
  intros Hv. unfold wellKnownSuffixFromMetadataURL. destruct (String.eqb url ""); [done|]. unfold validateMetadataURL in Hv. apply bind_Ok in Hv as ([] & _ & Hv).
  destruct (Parse url) as [u|]; [|done]. destruct (String.eqb (u_Scheme u) "https"); [|done]. cbn [negb] in *. case_if_in Hv; [done|].
  destruct (containsSVCBUnsafe url || containsSVCBUnsafe (u_Path u)) eqn:Es; [done|]. apply orb_false_iff in Es as [_ Es]. apply containsSVCBUnsafe_spec in Es.
  destruct (EqualFold _ _); [|done]. cbn [negb]. destruct (HasPrefix (u_Path u) wellKnownPrefix) eqn:Ep; [|done]. cbn [negb].
  pose proof (HasPrefix_split _ _ Ep) as Et. rewrite Et, str_forall_app in Es. apply andb_true_iff in Es as [_ Es].
  unfold TrimPrefix. rewrite Ep. cbv zeta. by destruct (_ || _).
Qed.

Lemma metadata_url_token ep : AgentEndpoint_Validate ep = Ok tt ->
  str_forall svcb_token_byte (ep_MetadataURL ep) = true /\ forall fqdn, str_forall svcb_token_byte (wellKnownSuffixFromMetadataURL (ep_MetadataURL ep) fqdn) = true.
Proof.
  intros Hv. unfold AgentEndpoint_Validate in Hv. destruct (Protocol_IsValid (ep_Protocol ep)); [|done]. cbn [negb] in Hv.
  apply bind_Ok in Hv as ([] & _ & Hv). apply bind_Ok in Hv as ([] & Hu & _).
  destruct (String.eqb_spec (ep_MetadataURL ep) "") as [->|]; [done|]. cbn [negb] in Hu. split; [|intros; by apply wellKnown_token].
  unfold validateMetadataURL in Hu. apply bind_Ok in Hu as ([] & _ & Hu). destruct (Parse (ep_MetadataURL ep)) as [u|]; [|done]. case_if_in Hu; [done|]. case_if_in Hu; [done|].
  destruct (containsSVCBUnsafe (ep_MetadataURL ep) || containsSVCBUnsafe (u_Path u)) eqn:Es; [done|]. apply orb_false_iff in Es as [Es _]. by apply containsSVCBUnsafe_spec in Es.
Qed.

Lemma svcb_pairs_graphic fqdn ep : AgentEndpoint_Validate ep = Ok tt ->
  Forall (fun p => token p.1 /\ ContainsByte p.1 "=" = false /\ str_forall graphic p.2 = true) (svcb_pairs fqdn ep).
Proof.
  intros Hv. destruct (metadata_url_token ep Hv) as [Hu Hwk]. unfold svcb_pairs.
  assert (Hp : str_forall graphic (protocolToDNSAIDValue (ep_Protocol ep)) = true).
  { apply token_byte_graphic, protocol_token. unfold AgentEndpoint_Validate in Hv. by destruct (Protocol_IsValid (ep_Protocol ep)). }
  assert (Hcap : str_forall graphic (metadataHashToCapSHA256 (ep_MetadataHash ep)) = true).
  { apply token_byte_graphic. unfold metadataHashToCapSHA256. repeat case_match; first [done|apply b64_token]. }
  assert (Hport : str_forall graphic (Itoa (svcbPortFor (ep_AgentURL ep))) = true) by apply token_byte_graphic, Itoa_token.
  apply token_byte_graphic in Hu. specialize (Hwk fqdn). apply token_byte_graphic in Hwk.
  repeat first [apply Forall_app; split|apply Forall_cons; split|apply Forall_nil_2|case_if]; by split_and!.
Qed.

(** The row is read back as its parameters. *)
Lemma svcb_value_fields fqdn ep :
  AgentEndpoint_Validate ep = Ok tt -> Fields (svcb_value fqdn ep) = "1" :: "." :: (param_text <$> svcb_pairs fqdn ep).
Proof.
  intros Hv. rewrite svcb_value_join. apply Fields_Join. do 2 (apply Forall_cons; split; [done|]). apply Forall_fmap.
  eapply Forall_impl; [exact (svcb_pairs_graphic fqdn ep Hv)|]. intros [k v] ([Hn Hk] & _ & Hg). cbn [fst snd] in *. unfold compose, param_text. cbn [fst snd].
  apply token_app; [done|done|]. by cbn [str_forall].
Qed.
End Rows.
