(* ===== verification/DnsLookup.v ===== *)
(** The record check against live DNS, [internal/adapter/dns]: [LookupVerifier]
    ([lookup.go]) and [NoopVerifier] ([noop.go]), two of the verifiers the
    registration service is built with.

    The DNS library is a parameter: a query is answered by an error or a message,
    [Msg], whose answers come parsed; a service parameter is the text of its key
    and of its value, as the library prints them.  [Fqdn], [CanonicalName] and the
    names of the return codes are the library's too ([DnsLib]).  Timeouts are
    errors of the query. *)
From stdpp Require Import gmap.
From S2P Require Import Prelude GoStrings Discovery.

#[local] Set Default Goal Selector "!".
#[local] Open Scope Z_scope.

(** ** Messages *)

Record SVCB := { sv_Priority : Z; sv_Target : string; sv_Value : list (string * string) }.

Inductive RR :=
| RR_TXT (Txt : list string)
| RR_TLSA (Usage Selector MatchingType : Z) (Certificate : string)
| RR_HTTPS (s : SVCB)
| RR_SVCB (s : SVCB)
| RR_other.

Record Msg := { m_Rcode : Z; m_AuthenticatedData : bool; m_Answer : list RR }.

Inductive qtype := TypeTXT | TypeTLSA | TypeHTTPS | TypeSVCB.

Class DnsLib := { dns_Fqdn : string -> string; CanonicalName : string -> string; RcodeToString : Z -> string }.

Definition RcodeSuccess : Z := 0.
Definition RcodeNameError : Z := 3.

(** ** Service records *)

Record parsedSVCB := { ps_priority : Z; ps_target : string; ps_params : gmap string string }.

Definition parse_param (params : gmap string string) (f : string) : gmap string string :=
  match IndexByte f "=" with
  | None => <[f := ""]> params
  | Some eq => <[str_take eq f := str_drop (S eq) f]> params
  end.

Inductive svcb_error := TooFewFields | BadPriority.

Definition parseSVCBValue (s : string) : result svcb_error parsedSVCB :=
  match Fields s with
  | p :: target :: rest =>
      match Atoi p with
      | (priority, None) => Ok {| ps_priority := priority; ps_target := target; ps_params := fold_left parse_param rest ∅ |}
      | (_, Some _) => Err BadPriority
      end
  | _ => Err TooFewFields
  end.

(** [cur] is the segment read so far. *)
Fixpoint split_alpn (cur s : string) : list string :=
  match s with
  | EmptyString => [cur]
  | String "\" (String c s') => split_alpn (cur +:+ String "\" (String c "")) s'
  | String "," s' => cur :: split_alpn "" s'
  | String c s' => split_alpn (cur +:+ String c "") s'
  end.

Definition splitAlpn (s : string) : list string := split_alpn "" s.

Definition svcParamMatches (key want got : string) : bool :=
  if negb (String.eqb key "alpn") then String.eqb want got else
  forallb (fun id => existsb (String.eqb id) (splitAlpn got)) (splitAlpn want).

Definition normalizeTLSA `{U : UnicodeTables} (s : string) : string := ToLower (Join (Fields s) " ").

Definition formatHTTPSValue (s : SVCB) : string :=
  fold_left (fun sb p => sb +:+ " " +:+ p.1 +:+ "=" +:+ p.2) (sv_Value s) (Itoa (sv_Priority s) +:+ " " +:+ sv_Target s).

(** ** The lookups *)

Section Lookup.
Context `{U : UnicodeTables} `{D : DnsLib}.

Definition effectiveSVCBTarget (target owner : string) (serviceMode : bool) : string :=
  if serviceMode && String.eqb target "." then CanonicalName owner else CanonicalName target.

Definition matchesSVCBSubset (expected actual : parsedSVCB) (owner : string) : bool :=
  if negb (ps_priority expected =? ps_priority actual) then false else
  let serviceMode := negb (ps_priority expected =? 0) in
  if negb (String.eqb (effectiveSVCBTarget (ps_target expected) owner serviceMode) (effectiveSVCBTarget (ps_target actual) owner serviceMode)) then false else
  forallb (fun p => match ps_params actual !! p.1 with Some got => svcParamMatches p.1 p.2 got | None => false end) (map_to_list (ps_params expected)).

(** [client.ExchangeContext]: server, question and type. *)
Context (ask : string -> string -> qtype -> result string Msg).

Definition exchange (server name : string) (qt : qtype) : result string Msg := ask server (dns_Fqdn name) qt.

Definition zero_verification (rec : ExpectedDNSRecord) : RecordVerification :=
  {| rvn_Record := rec; rvn_Found := false; rvn_Actual := ""; rvn_Error := ""; rvn_DNSSECVerified := false |}.
Definition set_error (r : RecordVerification) (e : string) : RecordVerification :=
  {| rvn_Record := rvn_Record r; rvn_Found := rvn_Found r; rvn_Actual := rvn_Actual r; rvn_Error := e; rvn_DNSSECVerified := rvn_DNSSECVerified r |}.
Definition set_actual (r : RecordVerification) (found : bool) (actual : string) : RecordVerification :=
  {| rvn_Record := rvn_Record r; rvn_Found := found; rvn_Actual := actual; rvn_Error := rvn_Error r; rvn_DNSSECVerified := rvn_DNSSECVerified r |}.
Definition set_dnssec (r : RecordVerification) (ad : bool) : RecordVerification :=
  {| rvn_Record := rvn_Record r; rvn_Found := rvn_Found r; rvn_Actual := rvn_Actual r; rvn_Error := rvn_Error r; rvn_DNSSECVerified := ad |}.

(** The report, and whether the answers are looked at. *)
Definition inspectAnswers (r : RecordVerification) (resp : Msg) : RecordVerification * bool :=
  if m_Rcode resp =? RcodeSuccess then (r, true) else
  if m_Rcode resp =? RcodeNameError then (r, false) else (set_error r ("rcode " +:+ RcodeToString (m_Rcode resp)), false).

(** The loop over the answers; [pick] gives an answer's text and whether it
    matches, or skips the answer. *)
Fixpoint scan_answers (pick : RR -> option (string * bool)) (r : RecordVerification) (answers : list RR) : RecordVerification :=
  match answers with
  | [] => r
  | rr :: rest =>
      match pick rr with
      | None => scan_answers pick r rest
      | Some (got, matched) =>
          let r' := if String.eqb (rvn_Actual r) "" then set_actual r (rvn_Found r) got else r in
          if matched then set_actual r' true got else scan_answers pick r' rest
      end
  end.

Definition pick_txt (wantNorm : string) (rr : RR) : option (string * bool) :=
  match rr with RR_TXT txt => let joined := TrimSpace (Join txt "") in Some (joined, String.eqb joined wantNorm) | _ => None end.

Definition verifyTXT (server : string) (rec : ExpectedDNSRecord) : RecordVerification :=
  let r := zero_verification rec in
  match exchange server (dr_Name rec) TypeTXT with
  | Err e => set_error r e
  | Ok resp =>
      let '(r, go) := inspectAnswers r resp in
      if negb go then r else scan_answers (pick_txt (TrimSpace (dr_Value rec))) r (m_Answer resp)
  end.

Definition pick_tlsa (wantNorm : string) (rr : RR) : option (string * bool) :=
  match rr with
  | RR_TLSA u s m cert => let got := Itoa u +:+ " " +:+ Itoa s +:+ " " +:+ Itoa m +:+ " " +:+ cert in Some (got, String.eqb (normalizeTLSA got) wantNorm)
  | _ => None
  end.

Definition verifyTLSA (server : string) (rec : ExpectedDNSRecord) : RecordVerification :=
  let r := zero_verification rec in
  match exchange server (dr_Name rec) TypeTLSA with
  | Err e => set_error r e
  | Ok resp =>
      let '(r, go) := inspectAnswers r resp in
      if negb go then r else
      scan_answers (pick_tlsa (normalizeTLSA (dr_Value rec))) (set_dnssec r (m_AuthenticatedData resp)) (m_Answer resp)
  end.

Definition pick_svcb (expected : parsedSVCB) (owner : string) (svcb : option SVCB) : option (string * bool) :=
  s ← svcb;
  let gotStr := formatHTTPSValue s in
  Some (gotStr, match parseSVCBValue gotStr with Ok actual => matchesSVCBSubset expected actual owner | Err _ => false end).

Definition as_https (rr : RR) : option SVCB := match rr with RR_HTTPS s => Some s | _ => None end.
Definition as_svcb (rr : RR) : option SVCB := match rr with RR_SVCB s => Some s | _ => None end.

(** The common body of [verifyHTTPS] and [verifySVCB]; [kind] is the type's name
    in the error. *)
Definition verify_service (qt : qtype) (kind : string) (as_row : RR -> option SVCB) (server : string) (rec : ExpectedDNSRecord) : RecordVerification :=
  let r := zero_verification rec in
  match exchange server (dr_Name rec) qt with
  | Err e => set_error r e
  | Ok resp =>
      let '(r, go) := inspectAnswers r resp in
      if negb go then r else
      let r := set_dnssec r (m_AuthenticatedData resp) in
      match parseSVCBValue (dr_Value rec) with
      | Err _ => set_error r ("expected " +:+ kind +:+ " value")
      | Ok expected => scan_answers (fun rr => pick_svcb expected (dr_Name rec) (as_row rr)) r (m_Answer resp)
      end
  end.

Definition verifyHTTPS : string -> ExpectedDNSRecord -> RecordVerification := verify_service TypeHTTPS "HTTPS" as_https.
Definition verifySVCB : string -> ExpectedDNSRecord -> RecordVerification := verify_service TypeSVCB "SVCB" as_svcb.

Definition verify_record (server : string) (rec : ExpectedDNSRecord) : RecordVerification :=
  if String.eqb (dr_Type rec) DNSRecordTXT then verifyTXT server rec else
  if String.eqb (dr_Type rec) DNSRecordTLSA then verifyTLSA server rec else
  if String.eqb (dr_Type rec) DNSRecordHTTPS then verifyHTTPS server rec else
  if String.eqb (dr_Type rec) DNSRecordSVCB then verifySVCB server rec else
  set_error (zero_verification rec) ("unsupported record type: " +:+ dr_Type rec).

Inductive lookup_error := LoadResolvConf | NoNameservers.

(** [net.JoinHostPort]. *)
Definition JoinHostPort (host port : string) : string :=
  if ContainsByte host ":" then "[" +:+ host +:+ "]:" +:+ port else host +:+ ":" +:+ port.

(** [conf] is [/etc/resolv.conf]: its servers and port. *)
Definition resolverAddress (server : string) (conf : option (list string * string)) : result lookup_error string :=
  if negb (String.eqb server "") then Ok server else
  match conf with
  | None => Err LoadResolvConf
  | Some ([], _) => Err NoNameservers
  | Some (s :: _, port) => Ok (JoinHostPort s port)
  end.

Definition Lookup_VerifyRecords (server : string) (conf : option (list string * string)) (fqdn : string) (expected : list ExpectedDNSRecord)
  : result lookup_error (option VerificationResult) :=
  addr ← resolverAddress server conf;
  let allRequired := forallb (fun rec => negb (dr_Required rec && negb (rvn_Found (verify_record addr rec)))) expected in
  Ok (Some {| vr_AllRequired := allRequired; vr_Results := Some (verify_record addr <$> expected) |}).
End Lookup.

(** ** [NoopVerifier] *)

Definition Noop_VerifyRecords (fqdn : string) (expected : list ExpectedDNSRecord) : result lookup_error (option VerificationResult) :=
  Ok (Some {| vr_AllRequired := true; vr_Results := Some ((fun r => set_actual (zero_verification r) true (dr_Value r)) <$> expected) |}).
