(* ===== verification/DnsLookupSpec.v ===== *)
(** What the record check finds in a zone, and what the registration service makes
    of it. *)
From stdpp Require Import gmap.
From S2P Require Import Prelude GoStrings Utf8 GoRegexp GoEncoding GoURL DomainErrors SemVer Endpoint AnsName Lifecycle Discovery DiscoverySpec SvcbRows DnsLookup.

#[local] Set Default Goal Selector "!".
#[local] Open Scope Z_scope.

(** ** Text of service rows *)

Lemma Join_merge a b l : Join ((a +:+ " " +:+ b) :: l) " " = Join (a :: b :: l) " ".
Proof. rewrite (Join_cons a) by done. destruct l as [|p l]; [done|]. rewrite !Join_cons by done. by rewrite !app_assoc_s. Qed.

Lemma formatHTTPSValue_join s : formatHTTPSValue s = Join (Itoa (sv_Priority s) :: sv_Target s :: (param_text <$> sv_Value s)) " ".
Proof.
  unfold formatHTTPSValue. rewrite <-Join_merge. generalize (Itoa (sv_Priority s) +:+ " " +:+ sv_Target s).
  induction (sv_Value s) as [|p l IH]; intros sb; [done|]. cbn [fold_left fmap list_fmap]. rewrite IH. apply (Join_merge sb (param_text p)).
Qed.

(** A row that prints without white space in a field or equals sign in a key. *)
Record printed_row (s : SVCB) : Prop := {
  pr_target : token (sv_Target s);
  pr_params : Forall (fun p => token p.1 /\ ContainsByte p.1 "=" = false /\ str_forall graphic p.2 = true) (sv_Value s)
}.

Definition pairs_map (l : list (string * string)) : gmap string string := fold_left (fun m p => <[p.1 := p.2]> m) l ∅.

Lemma parse_param_text m k v : ContainsByte k "=" = false -> parse_param m (param_text (k, v)) = <[k := v]> m.
Proof.
  intros Hk. unfold parse_param, param_text. cbn [fst snd]. rewrite (IndexByte_app k v "=" Hk : IndexByte (k +:+ "=" +:+ v) "=" = Some (String.length k)).
  rewrite str_take_app. replace (S (String.length k)) with (String.length (k +:+ "=")) by (rewrite length_app_s; cbn; lia).
  by rewrite <-app_assoc_s, str_drop_app.
Qed.

Lemma param_text_token k v : token k -> str_forall graphic v = true -> token (param_text (k, v)).
Proof. intros [Hn Hk] Hv. apply token_app; [done|done|]. by cbn [str_forall]. Qed.

Lemma parse_params l m :
  Forall (fun p => token p.1 /\ ContainsByte p.1 "=" = false /\ str_forall graphic p.2 = true) l ->
  fold_left parse_param (param_text <$> l) m = fold_left (fun m p => <[p.1 := p.2]> m) l m.
Proof.
  revert m. induction l as [|[k v] l IH]; intros m H; [done|]. apply Forall_cons in H as [(_ & Hk & _) H]. cbn [fmap list_fmap fold_left fst snd] in *.
  rewrite parse_param_text by done. by apply IH.
Qed.

Lemma params_inj l l' :
  Forall (fun p => ContainsByte p.1 "=" = false) l -> Forall (fun p => ContainsByte p.1 "=" = false) l' -> param_text <$> l = param_text <$> l' -> l = l'.
Proof.
  revert l'. induction l as [|[k v] l IH]; intros [|[k' v'] l'] H H'; [done|done|done|]. apply Forall_cons in H as [Hk H]. apply Forall_cons in H' as [Hk' H'].
  cbn [fmap list_fmap]. intros [= E El]. f_equal; [|by apply IH]. assert (<[k := v]> (∅ : gmap string string) = <[k' := v']> ∅) as Em.
  { rewrite <-(parse_param_text ∅ k v), <-(parse_param_text ∅ k' v') by done. by f_equal. }
  pose proof (f_equal (lookup k) Em) as Ek. rewrite lookup_insert_eq in Ek. symmetry in Ek. by apply lookup_insert_Some in Ek as [[-> ->]|[_ ?]].
Qed.

Lemma params_tokens l :
  Forall (fun p => token p.1 /\ ContainsByte p.1 "=" = false /\ str_forall graphic p.2 = true) l -> Forall token (param_text <$> l).
Proof. intros H. apply Forall_fmap. eapply Forall_impl; [exact H|]. intros [k v] (Hk & _ & Hv). by apply param_text_token. Qed.

(** ** The words of a row

    The check prints a row and splits the text at white space again; the words
    after the priority are what it takes for the target and the parameters. *)

Lemma Itoa_word n : token (Itoa n).
Proof. split; [apply Itoa_nonempty|apply token_byte_graphic, Itoa_token]. Qed.

(** A printed number is read back as no other number. *)
Lemma Atoi_printed n m : Atoi (Itoa n) = (m, None) -> m = n.
Proof.
  destruct (Z.leb_spec 0 n) as [Hn|Hn].
  - pose proof (Itoa_digits n Hn) as Hd. pose proof (Itoa_val n Hn) as Hv. unfold Atoi. destruct (Itoa n) as [|c t] eqn:E; [done|].
    assert (c <> "-"%char /\ c <> "+"%char) as [H1 H2] by (unfold is_digits in Hd; cbn [str_forall] in Hd; destruct c as [[] [] [] [] [] [] [] []]; done).
    assert (match String c t with String "-" s' => (true, s') | String "+" s' => (false, s') | _ => (false, String c t) end = (false, String c t)) as ->
      by (destruct c as [[] [] [] [] [] [] [] []]; done).
    cbn [String.eqb]. rewrite Hv. case_if; congruence.
  - assert (Itoa n = String "-" (Itoa (- n))) as -> by (unfold Itoa at 1; destruct (Z.ltb_spec n 0); [|lia]; by rewrite <-(Itoa_nonneg (- n)) by lia).
    unfold Atoi. pose proof (Itoa_nonempty (- n)) as Hne%String.eqb_neq. rewrite Hne, Itoa_val by lia. case_if; [intros [= <-]; lia|done].
Qed.

Definition row_words (s : SVCB) : list string := Fields (Join (sv_Target s :: (param_text <$> sv_Value s)) " ").

Lemma format_fields s : Fields (formatHTTPSValue s) = Itoa (sv_Priority s) :: row_words s.
Proof. rewrite formatHTTPSValue_join, Join_cons by done. apply (Fields_cons (Itoa (sv_Priority s))), Itoa_word. Qed.

(** A word is a key, with a value after the first equals sign. *)
Definition word_pair (w : string) : string * string :=
  match IndexByte w "=" with None => (w, "") | Some i => (str_take i w, str_drop (S i) w) end.

(** The last word for the key [k] has the value [got]. *)
Definition says (ws : list string) (k got : string) : Prop :=
  exists pre w post, ws = pre ++ w :: post /\ word_pair w = (k, got) /\ forall w', w' ∈ post -> (word_pair w').1 <> k.

Lemma parse_param_pair m w : parse_param m w = <[(word_pair w).1 := (word_pair w).2]> m.
Proof. unfold parse_param, word_pair. by destruct (IndexByte w "="). Qed.

Lemma params_say ws k got : fold_left parse_param ws ∅ !! k = Some got <-> says ws k got.
Proof.
  induction ws as [|w ws IH] using rev_ind.
  { cbn [fold_left]. rewrite lookup_empty. split; [done|]. intros (pre & w & post & E & _). by destruct pre. }
  rewrite fold_left_app. cbn [fold_left]. rewrite parse_param_pair, lookup_insert_Some, IH. split.
  - intros [[<- <-]|[Hn (pre & w0 & post & -> & Hw & Hp)]].
    + exists ws, w, []. split_and!; [done|by destruct (word_pair w)|by intros ? ?%elem_of_nil].
    + exists pre, w0, (post ++ [w]). split_and!; [by rewrite <-app_assoc|done|]. intros w' [H|H%list_elem_of_singleton]%elem_of_app; [by apply Hp|by subst w'].
  - intros (pre & w0 & post & E & Hw & Hp). destruct post as [|w1 post] using rev_ind.
    + apply app_inj_tail in E as [-> ->]. left. by rewrite Hw.
    + rewrite app_comm_cons, app_assoc in E. apply app_inj_tail in E as [-> ->]. right. split; [apply Hp; set_solver|].
      exists pre, w0, post. split_and!; [done|done|]. intros w' H. apply Hp. set_solver.
Qed.

(** A printed row is read back as what it carries. *)
Lemma printed_words s : printed_row s -> row_words s = sv_Target s :: (param_text <$> sv_Value s).
Proof. intros [Ht Hv]. unfold row_words. apply Fields_Join. constructor; [done|by apply params_tokens]. Qed.

Lemma pairs_map_lookup l k v : NoDup l.*1 -> pairs_map l !! k = Some v <-> (k, v) ∈ l.
Proof.
  unfold pairs_map. induction l as [|[k' v'] l IH] using rev_ind; intros Hn.
  { cbn [fold_left]. rewrite lookup_empty. by split; [|intros ?%elem_of_nil]. }
  rewrite fold_left_app. cbn [fold_left fst snd]. rewrite fmap_app in Hn. apply NoDup_app in Hn as (Hn & Hd & _). rewrite lookup_insert_Some, IH, elem_of_app, list_elem_of_singleton by done.
  split; [intros [[<- <-]|[_ H]]; auto|]. intros [H|[= <- <-]]; [|by left]. right. split; [|done]. intros <-. apply (Hd k').
  - apply list_elem_of_fmap. by exists (k', v).
  - by apply list_elem_of_singleton.
Qed.

(** An identifier without separator or escape is one identifier. *)
Lemma split_alpn_one cur w : ContainsByte w "," = false -> ContainsByte w "\" = false -> split_alpn cur w = [cur +:+ w].
Proof.
  revert cur. induction w as [|c w IH]; intros cur; [by rewrite app_nil_r_s|]. rewrite !ContainsByte_cons. intros [Hc Hw]%orb_false_iff [Hb Hw']%orb_false_iff.
  apply Ascii.eqb_neq in Hc, Hb.
  assert (split_alpn cur (String c w) = split_alpn (cur +:+ String c "") w) as ->.
  { cbn [split_alpn]. destruct c as [[] [] [] [] [] [] [] []]; done. }
  rewrite IH by done. by rewrite app_assoc_s, app_cons_s, app_nil_l_s.
Qed.

(** ** Rows that bind an owner *)

Section Zone.
Context `{U : UnicodeTables} `{F : CaseOrbits} `{D : DnsLib}.

(** The printed row says, for [owner], at least what the parameters say. *)
Record binds (owner : string) (pairs : list (string * string)) (s : SVCB) : Prop := {
  bi_priority : sv_Priority s = 1;
  bi_words : exists target ws, row_words s = target :: ws /\
    CanonicalName (if String.eqb target "." then owner else target) = CanonicalName owner /\
    forall k v, (k, v) ∈ pairs -> exists got, says ws k got /\ (if String.eqb k "alpn" then v ∈ splitAlpn got else got = v)
}.

(** The same of the row's own fields. *)
Definition fields_bind (owner : string) (pairs : list (string * string)) (s : SVCB) : Prop :=
  sv_Priority s = 1 /\ CanonicalName (if String.eqb (sv_Target s) "." then owner else sv_Target s) = CanonicalName owner /\
  forall k v, (k, v) ∈ pairs -> exists got, pairs_map (sv_Value s) !! k = Some got /\ (if String.eqb k "alpn" then v ∈ splitAlpn got else got = v).

Lemma printed_binds owner pairs s : printed_row s -> binds owner pairs s <-> fields_bind owner pairs s.
Proof.
  intros Hp. pose proof (printed_words s Hp) as Hw. destruct Hp as [_ Hv].
  assert (Hsay : forall k got, says (param_text <$> sv_Value s) k got <-> pairs_map (sv_Value s) !! k = Some got) by (intros k got; by rewrite <-params_say, parse_params).
  split.
  - intros [H1 (target & ws & E & Ht & Hk)]. rewrite Hw in E. injection E as <- <-. split_and!; [done|done|]. intros k v Hin.
    destruct (Hk k v Hin) as (got & Hg & Ha). exists got. split; [by apply Hsay|done].
  - intros (H1 & Ht & Hk). split; [done|]. exists (sv_Target s), (param_text <$> sv_Value s). split_and!; [done|done|]. intros k v Hin.
    destruct (Hk k v Hin) as (got & Hg & Ha). exists got. split; [by apply Hsay|done].
Qed.

(** Parameters the registration authority asks for. *)
Record asked (pairs : list (string * string)) : Prop := {
  as_keys : NoDup pairs.*1;
  as_alpn v : ("alpn", v) ∈ pairs -> ContainsByte v "," = false /\ ContainsByte v "\" = false
}.

Definition wanted (pairs : list (string * string)) : parsedSVCB := {| ps_priority := 1; ps_target := "."; ps_params := pairs_map pairs |}.

Lemma subset_words owner pairs p target ws : asked pairs ->
  matchesSVCBSubset (wanted pairs) {| ps_priority := p; ps_target := target; ps_params := fold_left parse_param ws ∅ |} owner = true <->
  p = 1 /\ CanonicalName (if String.eqb target "." then owner else target) = CanonicalName owner /\
  forall k v, (k, v) ∈ pairs -> exists got, says ws k got /\ (if String.eqb k "alpn" then v ∈ splitAlpn got else got = v).
Proof.
  intros [Hk Ha]. unfold matchesSVCBSubset, effectiveSVCBTarget, wanted. cbn [ps_priority ps_target ps_params].
  change (1 =? 0) with false. cbn [negb andb]. rewrite String.eqb_refl.
  assert (Hpar : forall k v got, (k, v) ∈ pairs -> svcParamMatches k v got = true <-> (if String.eqb k "alpn" then v ∈ splitAlpn got else got = v)).
  { intros k v got Hin. unfold svcParamMatches. destruct (String.eqb_spec k "alpn") as [->|]; cbn [negb]; [|rewrite String.eqb_eq; by split].
    destruct (Ha v Hin) as [Hc Hb]. unfold splitAlpn at 2. rewrite split_alpn_one, app_nil_l_s by done. cbn [forallb]. rewrite andb_true_r. apply existsb_eqb_elem. }
  destruct (Z.eqb_spec 1 p) as [Hp|Hp]; cbn [negb]; [|split; [done|intros [? _]; congruence]].
  assert (Ht : (if String.eqb target "." then CanonicalName owner else CanonicalName target) = CanonicalName (if String.eqb target "." then owner else target)) by by case_if.
  rewrite Ht. destruct (String.eqb_spec (CanonicalName owner) (CanonicalName (if String.eqb target "." then owner else target))) as [Et|Et];
    cbn [negb]; [|split; [done|intros (_ & ? & _); congruence]].
  rewrite forallb_forall. split.
  - intros H. split_and!; [done|done|]. intros k v Hin. specialize (H (k, v)). cbn [fst snd] in H.
    assert (In (k, v) (map_to_list (pairs_map pairs))) as Hm by by apply list_elem_of_In, elem_of_map_to_list, pairs_map_lookup.
    specialize (H Hm). destruct (fold_left parse_param ws ∅ !! k) as [got|] eqn:E; [|done]. exists got. split; [by apply params_say|by apply Hpar].
  - intros (_ & _ & H) [k v] Hin. cbn [fst snd]. apply list_elem_of_In, elem_of_map_to_list, pairs_map_lookup in Hin; [|done].
    destruct (H k v Hin) as (got & ->%params_say & Hg). by apply Hpar.
Qed.

Lemma row_matched owner pairs s : asked pairs ->
  match parseSVCBValue (formatHTTPSValue s) with Ok actual => matchesSVCBSubset (wanted pairs) actual owner | Err _ => false end = true <-> binds owner pairs s.
Proof.
  intros Ha. unfold parseSVCBValue. rewrite format_fields. destruct (row_words s) as [|target ws] eqn:Ew.
  { split; [done|]. intros [_ (? & ? & E & _)]. by rewrite Ew in E. }
  destruct (Atoi (Itoa (sv_Priority s))) as [p [e|]] eqn:Ep.
  { split; [done|]. intros [H1 _]. by rewrite H1 in Ep. }
  apply Atoi_printed in Ep as ->. rewrite (subset_words owner pairs _ target ws Ha). split.
  - intros (H1 & Ht & Hk). split; [done|]. by exists target, ws.
  - intros [H1 (target' & ws' & E & Ht & Hk)]. rewrite Ew in E. by injection E as <- <-.
Qed.

Lemma asked_pairs fqdn ep : AgentEndpoint_Validate ep = Ok tt -> asked (svcb_pairs fqdn ep).
Proof.
  intros Hv. assert (Hp : Protocol_IsValid (ep_Protocol ep) = true) by (unfold AgentEndpoint_Validate in Hv; by destruct (Protocol_IsValid (ep_Protocol ep))).
  destruct (protocol_token _ Hp) as (_ & Ht & Hc). unfold svcb_pairs. split.
  - destruct (String.eqb (ep_MetadataURL ep) ""), (String.eqb (metadataHashToCapSHA256 _) ""), (String.eqb (wellKnownSuffixFromMetadataURL _ _) "");
      cbn [app fmap list_fmap fst]; apply (bool_decide_unpack _); vm_compute; exact I.
  - intros v Hin. assert (v = protocolToDNSAIDValue (ep_Protocol ep)) as ->.
    { destruct (String.eqb (ep_MetadataURL ep) ""), (String.eqb (metadataHashToCapSHA256 _) ""), (String.eqb (wellKnownSuffixFromMetadataURL _ _) "");
        cbn [app] in Hin; rewrite !elem_of_cons, elem_of_nil in Hin; naive_solver. }
    split; [done|]. by apply (ContainsByte_forall svcb_token_byte).
Qed.

(** ** Certificate rows *)

Lemma ToLower_cons c t : is_ascii_byte c = true -> ToLower (String c t) = String (lower_byte c) (ToLower t).
Proof.
  intros Hc. unfold ToLower. assert (String c t = EncodeRune (byteZ c) +:+ t) as -> by by rewrite EncodeRune_ascii.
  rewrite runes_cons_encode by (revert Hc; revert c; all_bytes). cbn [fmap list_fmap encode_runes]. rewrite rune_lower_ascii by done.
  by rewrite EncodeRune_ascii by by apply lower_byte_ascii.
Qed.

Lemma ToLower_word w t : str_forall is_lower_stable w = true -> ToLower (w +:+ t) = w +:+ ToLower t.
Proof.
  induction w as [|c w IH]; intros H; [done|]. cbn [str_forall] in H. apply andb_true_iff in H as [Hc Hw]. rewrite !app_cons_s, ToLower_cons, IH by (done || by revert Hc; revert c; all_bytes).
  f_equal. revert Hc. revert c. all_bytes.
Qed.

(** The first word of a text, and the rest. *)
Lemma word_split a b x y : str_forall graphic a = true -> str_forall graphic b = true -> a +:+ String " " x = b +:+ String " " y -> a = b /\ x = y.
Proof.
  revert b. induction a as [|c a IH]; intros [|d b]; cbn [str_forall]; rewrite ?app_nil_l_s, ?app_cons_s.
  - by intros _ _ [= ->].
  - intros _ [Hd _]%andb_true_iff [= <- _]. done.
  - intros [Hc _]%andb_true_iff _ [= -> _]. done.
  - intros [_ Ha]%andb_true_iff [_ Hb]%andb_true_iff [= -> E]. by destruct (IH b Ha Hb E) as [-> ->].
Qed.

Lemma Itoa_stable n : str_forall is_lower_stable (Itoa n) = true.
Proof.
  assert (Hd : forall s, is_digits s = true -> str_forall is_lower_stable s = true) by (intros s H; eapply str_forall_impl; [|exact H]; all_bytes).
  destruct (Z.leb_spec 0 n); [by apply Hd, Itoa_digits|].
  assert (Itoa n = String "-" (Itoa (- n))) as -> by (unfold Itoa at 1; destruct (Z.ltb_spec n 0); [|lia]; by rewrite <-(Itoa_nonneg (- n)) by lia).
  cbn [str_forall]. by rewrite Hd by (apply Itoa_digits; lia).
Qed.

Lemma Itoa_is n m t : Itoa n = t -> Atoi t = (m, None) -> n = m.
Proof. intros <- H. symmetry. by apply Atoi_printed. Qed.

(** A certificate row is matched when its three numbers are those expected and
    its data, white space normalised, is the digest in either case. *)
Lemma tlsa_match u s m cert fp : token fp ->
  normalizeTLSA (Itoa u +:+ " " +:+ Itoa s +:+ " " +:+ Itoa m +:+ " " +:+ cert) = normalizeTLSA ("3 0 1 " +:+ fp) <->
  u = 3 /\ s = 0 /\ m = 1 /\ normalizeTLSA cert = ToLower fp.
Proof.
  intros Hf. assert (Hw : forall n t, Fields (Itoa n +:+ String " " t) = Itoa n :: Fields t) by (intros; apply Fields_cons, Itoa_word).
  assert (Hgot : Fields (Itoa u +:+ " " +:+ Itoa s +:+ " " +:+ Itoa m +:+ " " +:+ cert) = Itoa u :: Itoa s :: Itoa m :: Fields cert).
  { change (Itoa u +:+ " " +:+ Itoa s +:+ " " +:+ Itoa m +:+ " " +:+ cert) with (Itoa u +:+ String " " (Itoa s +:+ String " " (Itoa m +:+ String " " cert))). by rewrite !Hw. }
  assert (Hwant : Fields ("3 0 1 " +:+ fp) = ["3"; "0"; "1"; fp]).
  { change ("3 0 1 " +:+ fp) with (Itoa 3 +:+ String " " (Itoa 0 +:+ String " " (Itoa 1 +:+ String " " fp))). by rewrite !Hw, Fields_one. }
  assert (Hlow : forall a b c t, ToLower (Itoa a +:+ String " " (Itoa b +:+ String " " (Itoa c +:+ t))) = Itoa a +:+ String " " (Itoa b +:+ String " " (Itoa c +:+ ToLower t))).
  { intros a b c t. rewrite ToLower_word by apply Itoa_stable. rewrite ToLower_cons by done. rewrite ToLower_word by apply Itoa_stable. rewrite ToLower_cons by done.
    by rewrite ToLower_word by apply Itoa_stable. }
  assert (Hne : ToLower fp <> "").
  { destruct Hf as [Hn Hg]. rewrite ToLower_ascii by by apply graphic_ascii. destruct fp; [done|discriminate]. }
  pose proof (fun n => proj2 (Itoa_word n)) as Hgr. unfold normalizeTLSA. rewrite Hgot, Hwant.
  change (Join ["3"; "0"; "1"; fp] " ") with (Itoa 3 +:+ String " " (Itoa 0 +:+ String " " (Itoa 1 +:+ String " " fp))). rewrite Hlow, ToLower_cons by done.
  destruct (Fields cert) as [|w ws].
  - change (Join [Itoa u; Itoa s; Itoa m] " ") with (Itoa u +:+ String " " (Itoa s +:+ String " " (Itoa m))). rewrite <-(app_nil_r_s (Itoa m)), Hlow, app_nil_r_s. split.
    + intros (_ & E)%word_split; [|done..]. apply word_split in E as [_ E]; [|done..]. exfalso. pose proof (Hgr m) as Hm. rewrite E, str_forall_app in Hm. by apply andb_true_iff in Hm as [_ ?].
    + intros (_ & _ & _ & E). by rewrite <-E in Hne.
  - change (Join (Itoa u :: Itoa s :: Itoa m :: w :: ws) " ") with (Itoa u +:+ String " " (Itoa s +:+ String " " (Itoa m +:+ String " " (Join (w :: ws) " ")))).
    rewrite Hlow, ToLower_cons by done. split.
    + intros (E1 & E)%word_split; [|done..]. apply word_split in E as [E2 E]; [|done..]. apply word_split in E as [E3 E]; [|done..].
      split_and!; [by apply (Itoa_is _ _ _ E1)|by apply (Itoa_is _ _ _ E2)|by apply (Itoa_is _ _ _ E3)|done].
    + by intros (-> & -> & -> & ->).
Qed.

(** ** The loop over the answers *)

Lemma scan_kept pick r l :
  rvn_Record (scan_answers pick r l) = rvn_Record r /\ rvn_Error (scan_answers pick r l) = rvn_Error r /\ rvn_DNSSECVerified (scan_answers pick r l) = rvn_DNSSECVerified r.
Proof.
  revert r. induction l as [|rr l IH]; intros r; [done|]. cbn [scan_answers]. destruct (pick rr) as [[got []]|]; [by case_if| |apply IH].
  destruct (IH (if String.eqb (rvn_Actual r) "" then set_actual r (rvn_Found r) got else r)) as (-> & -> & ->). by case_if.
Qed.

Lemma scan_found pick r l : rvn_Found r = false ->
  rvn_Found (scan_answers pick r l) = true <-> exists rr got, rr ∈ l /\ pick rr = Some (got, true).
Proof.
  revert r. induction l as [|rr l IH]; intros r Hr; cbn [scan_answers]; [rewrite Hr; by split; [|intros (? & ? & ?%elem_of_nil & _)]|].
  setoid_rewrite elem_of_cons. destruct (pick rr) as [[got []]|] eqn:Ep.
  - split; [|done]. intros _. exists rr, got. split; [by left|done].
  - rewrite IH by by case_if. split; [intros (x & g & Hx & Hg); exists x, g; auto|]. intros (x & g & [->|Hx] & Hg); [congruence|by exists x, g].
  - rewrite IH by done. split; [intros (x & g & Hx & Hg); exists x, g; auto|]. intros (x & g & [->|Hx] & Hg); [congruence|by exists x, g].
Qed.

Lemma scan_actual pick r l : rvn_Found (scan_answers pick r l) = false ->
  rvn_Actual (scan_answers pick r l) <> "" <-> rvn_Actual r <> "" \/ exists rr got m, rr ∈ l /\ pick rr = Some (got, m) /\ got <> "".
Proof.
  revert r. induction l as [|rr l IH]; intros r; cbn [scan_answers]; [intros _; split; [by left|]; intros [?|(? & ? & ? & ?%elem_of_nil & _)]; done|].
  setoid_rewrite elem_of_cons. destruct (pick rr) as [[got []]|] eqn:Ep; [done| |].
  - intros Hf. rewrite (IH _ Hf). destruct (String.eqb_spec (rvn_Actual r) "") as [E|E]; [|by split; left]. cbn [set_actual rvn_Actual]. split.
    + intros [Hg|(x & g & m & Hx & Hg & Hne)]; right; [exists rr, got, false; auto|exists x, g, m; auto].
    + intros [?|(x & g & m & [->|Hx] & Hg & Hne)]; [done|left; congruence|right; by exists x, g, m].
  - intros Hf. rewrite (IH _ Hf). split; (intros [?|(x & g & m & Hx & Hg & Hne)]; [by left|right]); [exists x, g, m; auto|]. destruct Hx as [->|Hx]; [congruence|by exists x, g, m].
Qed.

(** ** One record *)

Context (ask : string -> string -> qtype -> result string Msg) (server : string).

Definition query_of (typ : string) : option qtype :=
  if String.eqb typ DNSRecordTXT then Some TypeTXT else if String.eqb typ DNSRecordTLSA then Some TypeTLSA else
  if String.eqb typ DNSRecordHTTPS then Some TypeHTTPS else if String.eqb typ DNSRecordSVCB then Some TypeSVCB else None.

Definition of_type (qt : qtype) (rr : RR) : Prop :=
  match qt, rr with TypeTXT, RR_TXT _ | TypeTLSA, RR_TLSA _ _ _ _ | TypeHTTPS, RR_HTTPS _ | TypeSVCB, RR_SVCB _ => True | _, _ => False end.

(** A record of the zone that says what an expected record says. *)
Inductive carries (reg : AgentRegistration) : RR -> ExpectedDNSRecord -> Prop :=
| CarriesTXT parts r :
    dr_Type r = DNSRecordTXT -> TrimSpace (Join parts "") = TrimSpace (dr_Value r) -> carries reg (RR_TXT parts) r
| CarriesTLSA cert fp r :
    dr_Type r = DNSRecordTLSA -> dr_Value r = "3 0 1 " +:+ fp -> normalizeTLSA cert = ToLower fp -> carries reg (RR_TLSA 3 0 1 cert) r
| CarriesHTTPS s r :
    dr_Type r = DNSRecordHTTPS -> binds (dr_Name r) [("alpn", "h2")] s -> carries reg (RR_HTTPS s) r
| CarriesSVCB ep s r :
    dr_Type r = DNSRecordSVCB -> ep ∈ r_Endpoints reg -> dr_Value r = svcb_value (reg_FQDN reg) ep ->
    binds (dr_Name r) (svcb_pairs (reg_FQDN reg) ep) s -> carries reg (RR_SVCB s) r.

Definition answered (r : ExpectedDNSRecord) (qt : qtype) (msg : Msg) : Prop :=
  query_of (dr_Type r) = Some qt /\ exchange ask server (dr_Name r) qt = Ok msg /\ m_Rcode msg = RcodeSuccess.

Definition in_zone (reg : AgentRegistration) (r : ExpectedDNSRecord) : Prop :=
  exists qt msg rr, answered r qt msg /\ rr ∈ m_Answer msg /\ carries reg rr r.

(** A validated answer of the record's type exists, none being the record. *)
Definition contradicted (reg : AgentRegistration) (r : ExpectedDNSRecord) : Prop :=
  exists qt msg rr, answered r qt msg /\ qt <> TypeTXT /\ m_AuthenticatedData msg = true /\ rr ∈ m_Answer msg /\ of_type qt rr /\ ~ in_zone reg r.

(** The records the profiles ask for. *)
Inductive expectable (reg : AgentRegistration) (r : ExpectedDNSRecord) : Prop :=
| ExpectTXT : dr_Type r = DNSRecordTXT -> expectable reg r
| ExpectTLSA fp : dr_Type r = DNSRecordTLSA -> token fp -> dr_Value r = "3 0 1 " +:+ fp -> expectable reg r
| ExpectHTTPS : dr_Type r = DNSRecordHTTPS -> dr_Value r = "1 . alpn=h2" -> expectable reg r
| ExpectSVCB ep : dr_Type r = DNSRecordSVCB -> ep ∈ r_Endpoints reg -> dr_Value r = svcb_value (reg_FQDN reg) ep -> expectable reg r.

(** The shape the four lookups share. *)
Definition lookup_with (qt : qtype) (pick : RR -> option (string * bool)) (rec : ExpectedDNSRecord) : RecordVerification :=
  match exchange ask server (dr_Name rec) qt with
  | Err e => set_error (zero_verification rec) e
  | Ok resp =>
      let '(r, go) := inspectAnswers (zero_verification rec) resp in
      if negb go then r else scan_answers pick (match qt with TypeTXT => r | _ => set_dnssec r (m_AuthenticatedData resp) end) (m_Answer resp)
  end.

(** [pick] decides what an answer of the type says. *)
Record decides (reg : AgentRegistration) (rec : ExpectedDNSRecord) (qt : qtype) (pick : RR -> option (string * bool)) : Prop := {
  dc_carries rr : (exists got, pick rr = Some (got, true)) <-> carries reg rr rec;
  dc_text rr : qt <> TypeTXT -> (exists got m, pick rr = Some (got, m) /\ got <> "") <-> of_type qt rr
}.

Lemma Itoa_text n t : Itoa n +:+ t <> "".
Proof. intros [H _]%app_eq_nil_s. by apply Itoa_nonempty in H. Qed.

Lemma format_text s : formatHTTPSValue s <> "".
Proof. rewrite formatHTTPSValue_join, Join_cons by done. apply Itoa_text. Qed.

#[local] Ltac other_type := exfalso; unfold DNSRecordTXT, DNSRecordTLSA, DNSRecordHTTPS, DNSRecordSVCB in *; congruence.

Lemma decides_txt reg rec : dr_Type rec = DNSRecordTXT -> decides reg rec TypeTXT (pick_txt (TrimSpace (dr_Value rec))).
Proof.
  intros Ht. split; [|done]. intros rr. destruct rr as [parts|u s m c|s|s|]; cbn [pick_txt]; (split; [intros (got & H); try done|intros H; inversion H; subst]); try other_type.
  - injection H as _ H%String.eqb_eq. by constructor.
  - eexists. f_equal. f_equal. by apply String.eqb_eq.
Qed.

Lemma decides_tlsa reg rec fp : dr_Type rec = DNSRecordTLSA -> token fp -> dr_Value rec = "3 0 1 " +:+ fp ->
  decides reg rec TypeTLSA (pick_tlsa (normalizeTLSA (dr_Value rec))).
Proof.
  intros Ht Hf Hv. rewrite Hv. split.
  - intros rr. destruct rr as [parts|u s m c|s|s|]; cbn [pick_tlsa]; (split; [intros (got & H); try done|intros H; inversion H; subst]); try other_type.
    + injection H as _ H%String.eqb_eq. apply tlsa_match in H as (-> & -> & -> & E); [|done]. by apply (CarriesTLSA reg c fp).
    + eexists. f_equal. f_equal. apply String.eqb_eq. apply tlsa_match; [done|]. split_and!; [done..|].
      assert (fp0 = fp) as ->; [|done]. rewrite Hv in *. match goal with H : "3 0 1 " +:+ _ = "3 0 1 " +:+ _ |- _ => by injection H end.
  - intros rr _. destruct rr as [parts|u s m c|s|s|]; cbn [pick_tlsa of_type]; (split; [intros (got & m' & H & _); by inversion H|]); try done.
    intros _. eexists _, _. split; [done|]. apply Itoa_text.
Qed.

Lemma pick_svcb_spec pairs owner s : asked pairs ->
  (exists got, pick_svcb (wanted pairs) owner (Some s) = Some (got, true)) <-> binds owner pairs s.
Proof.
  intros Ha. unfold pick_svcb. cbn [mbind option_bind]. rewrite <-(row_matched owner pairs s Ha).
  split; [by intros (got & [= _ ->])|]. intros ->. by eexists.
Qed.

Lemma decides_https reg rec : dr_Type rec = DNSRecordHTTPS ->
  decides reg rec TypeHTTPS (fun rr => pick_svcb (wanted [("alpn", "h2")]) (dr_Name rec) (as_https rr)).
Proof.
  intros Ht. assert (Ha : asked [("alpn", "h2")]).
  { split; [apply NoDup_singleton|]. intros v [= ->]%list_elem_of_singleton. done. }
  split.
  - intros rr. destruct rr as [parts|u s m c|s|s|]; cbn [as_https]; [..| |]; try (split; [by intros (got & H)|intros H; inversion H; subst; other_type]).
    rewrite pick_svcb_spec by done. split; [by intros H; constructor|]. intros H. by inversion H; subst.
  - intros rr _. destruct rr as [parts|u s m c|s|s|]; cbn [as_https of_type]; try (split; [by intros (got & m' & H & _)|done]).
    split; [done|]. intros _. eexists _, _. split; [done|]. apply format_text.
Qed.

Lemma decides_svcb reg rec ep : Forall (fun ep => AgentEndpoint_Validate ep = Ok tt) (r_Endpoints reg) ->
  dr_Type rec = DNSRecordSVCB -> ep ∈ r_Endpoints reg -> dr_Value rec = svcb_value (reg_FQDN reg) ep ->
  decides reg rec TypeSVCB (fun rr => pick_svcb (wanted (svcb_pairs (reg_FQDN reg) ep)) (dr_Name rec) (as_svcb rr)).
Proof.
  intros Hval Ht Hep Hv. rewrite Forall_forall in Hval. assert (Ha : asked (svcb_pairs (reg_FQDN reg) ep)) by by apply asked_pairs, Hval.
  split.
  - intros rr. destruct rr as [parts|u s m c|s|s|]; cbn [as_svcb]; [..| |]; try (split; [by intros (got & H)|intros H; inversion H; subst; other_type]).
    rewrite pick_svcb_spec by done. split; [intros H; by apply (CarriesSVCB reg ep)|]. intros H. inversion H as [| | |ep' s' r' _ Hep' Hv' Hb]; subst.
    assert (svcb_pairs (reg_FQDN reg) ep = svcb_pairs (reg_FQDN reg) ep') as ->; [|done].
    rewrite Hv in Hv'. apply (f_equal Fields) in Hv'. rewrite !svcb_value_fields in Hv' by by apply Hval. apply (f_equal (drop 2)) in Hv'. rewrite !skipn_cons, !drop_0 in Hv'.
    eapply params_inj; [..|exact Hv']; (eapply Forall_impl; [apply svcb_pairs_graphic; by apply Hval|]); intros p (_ & H' & _); exact H'.
  - intros rr _. destruct rr as [parts|u s m c|s|s|]; cbn [as_svcb of_type]; try (split; [by intros (got & m' & H' & _)|done]).
    split; [done|]. intros _. eexists _, _. split; [done|]. apply format_text.
Qed.

Context (reg : AgentRegistration).
Context (Hval : Forall (fun ep => AgentEndpoint_Validate ep = Ok tt) (r_Endpoints reg)).

Lemma verify_record_with rec : expectable reg rec ->
  exists qt pick, query_of (dr_Type rec) = Some qt /\ decides reg rec qt pick /\ verify_record ask server rec = lookup_with qt pick rec.
Proof.
  intros [Ht|fp Ht Hf Hv|Ht Hv|ep Ht Hep Hv]; unfold verify_record, query_of; rewrite Ht.
  - exists TypeTXT, (pick_txt (TrimSpace (dr_Value rec))). split_and!; [done|by apply decides_txt|done].
  - exists TypeTLSA, (pick_tlsa (normalizeTLSA (dr_Value rec))). split_and!; [done|by eapply decides_tlsa|done].
  - exists TypeHTTPS, (fun rr => pick_svcb (wanted [("alpn", "h2")]) (dr_Name rec) (as_https rr)). split_and!; [done|by apply decides_https|].
    cbn. unfold verifyHTTPS, verify_service, lookup_with. rewrite Hv. done.
  - exists TypeSVCB, (fun rr => pick_svcb (wanted (svcb_pairs (reg_FQDN reg) ep)) (dr_Name rec) (as_svcb rr)). split_and!; [done|by apply decides_svcb|].
    cbn. unfold verifySVCB, verify_service, lookup_with. rewrite Hv.
    assert (parseSVCBValue (svcb_value (reg_FQDN reg) ep) = Ok (wanted (svcb_pairs (reg_FQDN reg) ep))) as ->; [|done].
    rewrite Forall_forall in Hval. unfold parseSVCBValue. rewrite svcb_value_fields by by apply Hval. rewrite parse_params by by apply svcb_pairs_graphic, Hval. done.
Qed.

(** What a lookup reports, in terms of the zone. *)
Lemma verify_record_spec rec : expectable reg rec ->
  let v := verify_record ask server rec in
  rvn_Record v = rec /\ (rvn_Found v = true <-> in_zone reg rec) /\
  (rvn_Found v = false -> (rvn_DNSSECVerified v = true /\ rvn_Actual v <> "" /\ dr_Type rec <> DNSRecordTXT) <-> contradicted reg rec).
Proof.
  intros He. destruct (verify_record_with rec He) as (qt & pick & Hq & [Hc Htx] & ->). cbv zeta.
  assert (Hans : forall qt' msg, answered rec qt' msg <-> qt' = qt /\ exchange ask server (dr_Name rec) qt = Ok msg /\ m_Rcode msg = RcodeSuccess).
  { intros qt' msg. unfold answered. rewrite Hq. split; [intros ([= <-] & ? & ?); done|intros (-> & ? & ?); done]. }
  assert (Hnt : dr_Type rec <> DNSRecordTXT <-> qt <> TypeTXT).
  { destruct He as [Ht|fp Ht _ _|Ht _|ep Ht _ _]; rewrite Ht in Hq |- *; injection Hq as <-; by split. }
  unfold lookup_with. destruct (exchange ask server (dr_Name rec) qt) as [msg|e] eqn:Ee.
  2: { split_and!; [done| |]; [split; [done|]; intros (? & ? & ? & (_ & ? & _)%Hans & _); congruence|].
       intros _. split; [by intros (? & _)|]. intros (? & ? & ? & (_ & ? & _)%Hans & _). congruence. }
  unfold inspectAnswers. destruct (Z.eqb_spec (m_Rcode msg) RcodeSuccess) as [Er|Er]; cbn [negb].
  2: { assert (Hno : forall qt' msg', ~ answered rec qt' msg') by (intros ? ? (_ & [= <-] & ?)%Hans; done).
       destruct (m_Rcode msg =? RcodeNameError); (split_and!; [done| |]; [split; [done|]; intros (? & ? & ? & ?%Hno & _); done|];
         intros _; split; [by intros (? & _)|]; intros (? & ? & ? & ?%Hno & _); done). }
  set (r0 := match qt with TypeTXT => _ | _ => _ end).
  assert (Hr0 : rvn_Record r0 = rec /\ rvn_Found r0 = false /\ rvn_Actual r0 = "" /\ (qt <> TypeTXT -> rvn_DNSSECVerified r0 = m_AuthenticatedData msg)) by by unfold r0; destruct qt.
  destruct Hr0 as (R1 & R2 & R3 & R4). destruct (scan_kept pick r0 (m_Answer msg)) as (-> & _ & Kd).
  assert (Hf : rvn_Found (scan_answers pick r0 (m_Answer msg)) = true <-> in_zone reg rec).
  { rewrite scan_found by done. split.
    - intros (rr & got & Hin & Hp). exists qt, msg, rr. split; [by apply Hans|]. split; [done|]. apply Hc. by exists got.
    - intros (qt' & msg' & rr & (-> & [= <-] & _)%Hans & Hin & Hcar). apply Hc in Hcar as (got & Hp). by exists rr, got. }
  split_and!; [done|done|]. intros Hnf. assert (~ in_zone reg rec) as Hnz by (intros Hz; apply Hf in Hz; congruence).
  rewrite Kd, (scan_actual _ _ _ Hnf), R3, Hnt. split.
  - intros (Hd & [?|(rr & got & m & Hin & Hp & Hne)] & Hqt); [done|]. rewrite R4 in Hd by done. exists qt, msg, rr. split; [by apply Hans|]. split_and!; [done..| |done].
    apply Htx; [done|]. by exists got, m.
  - intros (qt' & msg' & rr & (-> & [= <-] & _)%Hans & Hqt & Had & Hin & Hof & _). rewrite R4 by done. split_and!; [done| |done]. right.
    apply Htx in Hof as (got & m & Hp & Hne); [|done]. by exists rr, got, m.
Qed.
End Zone.

(** ** The record check of an activation *)

Lemma record_mismatch_None v :
  record_mismatch v = None <->
  (dr_Required (rvn_Record v) = true -> rvn_Found v = true) /\
  ~ (rvn_Found v = false /\ rvn_DNSSECVerified v = true /\ rvn_Actual v <> "" /\ one_of (dr_Type (rvn_Record v)) [DNSRecordTLSA; DNSRecordSVCB; DNSRecordHTTPS] = true).
Proof.
  unfold record_mismatch. destruct (rvn_Found v), (rvn_DNSSECVerified v), (dr_Required (rvn_Record v)), (String.eqb_spec (rvn_Actual v) ""), (one_of _ _); cbn [negb andb];
    split; intros; first [done|split; [done|intros (? & ? & ? & ?); done]|exfalso; naive_solver].
Qed.

Section Check.
Context `{U : UnicodeTables} `{F : CaseOrbits} `{D : DnsLib}.
Context (JoinPath : string -> list string -> string) (tl : string).

Lemma set_required_expectable reg r b : expectable reg r -> expectable reg (set_required b r).
Proof. intros [Ht|fp Ht Hf Hv|Ht Hv|ep Ht Hep Hv]; [by apply ExpectTXT|by apply (ExpectTLSA _ _ fp)|by apply ExpectHTTPS|by apply (ExpectSVCB _ _ ep)]. Qed.

Lemma profile_expectable reg p r :
  (forall cert, r_ServerCert reg = Some cert -> token (byoc_Fingerprint cert)) ->
  p = TXTProfile JoinPath tl \/ p = DNSAIDProfile JoinPath tl -> r ∈ pe_Records p reg -> expectable reg r.
Proof.
  intros Hfp Hp.
  assert (Hbadge : forall r, r ∈ BadgeRecord JoinPath reg tl -> expectable reg r).
  { intros x. unfold BadgeRecord. destruct (r_Endpoints reg); [by intros ?%elem_of_nil|]. intros ->%list_elem_of_singleton. by apply ExpectTXT. }
  assert (Htlsa : forall r, r ∈ TLSARecord reg -> expectable reg r).
  { intros x. unfold TLSARecord. destruct (r_ServerCert reg) as [c|]; [|by intros ?%elem_of_nil]. intros (port & -> & _)%list_elem_of_fmap.
    apply (ExpectTLSA _ _ (byoc_Fingerprint c)); [done|by apply Hfp|done]. }
  destruct Hp as [->| ->]; cbn [TXTProfile DNSAIDProfile pe_Records]; unfold TXT_Records, DNSAID_Records; rewrite !elem_of_app, list_elem_of_fmap.
  - intros [(ep & -> & _)|[H|[H|H]]]; [by apply ExpectTXT| |by apply Hbadge|by apply Htlsa]. case_if_in H; [|by apply elem_of_nil in H].
    apply list_elem_of_singleton in H as ->. by apply ExpectHTTPS.
  - intros [(ep & -> & Hep)|[H|H]]; [by apply (ExpectSVCB _ _ ep)|by apply Hbadge|by apply Htlsa].
Qed.

(** C20: what an activation attests is what the zone says.  Whatever the zone
    answers, the record check of a registration with validated endpoints and a
    certificate digest without blanks ends with a report; the records that enter
    the sealed event are exactly the expected ones that some answer carries: the
    same text, the same certificate digest, or a service row of the same priority
    whose printed words name the same target and every expected parameter,
    whatever else they say; and the check passes if and only if every required
    record is carried and no DNSSEC-validated answer contradicts an expected row.
    For a row that prints without blanks inside its fields, the printed words say
    what the row's own target and parameters say. *)
Theorem lookup_attests_zone ask server conf addr registry reg :
  (forall id p, Registry_Get registry id = Some p -> p = TXTProfile JoinPath tl \/ p = DNSAIDProfile JoinPath tl) ->
  AgentEndpoints_Validate (r_Endpoints reg) (reg_FQDN reg) = Ok tt ->
  (forall cert, r_ServerCert reg = Some cert -> token (byoc_Fingerprint cert)) ->
  resolverAddress server conf = Ok addr ->
  let expected := ComputeRequiredDNSRecords registry reg in
  exists mismatches per,
    verifyDNSRecords (Some (Lookup_VerifyRecords ask server conf)) (reg_FQDN reg) expected = Ok (mismatches, Some per) /\
    (forall r, r ∈ (attestedDNSRecords expected (Some per)).1 <-> r ∈ expected /\ in_zone ask addr reg r) /\
    (mismatches = [] <-> forall r, r ∈ expected -> (dr_Required r = true -> in_zone ask addr reg r) /\ ~ contradicted ask addr reg r) /\
    (forall owner pairs s, printed_row s -> binds owner pairs s <-> fields_bind owner pairs s).
Proof.
  intros Hreg Hv Hfp Haddr expected. apply AgentEndpoints_Validate_Ok in Hv as (_ & _ & _ & Hval). apply Forall_and in Hval as [Hval _].
  pose proof (required_records_exact registry reg) as (Hsound & _ & HN & _ & _). fold expected in Hsound, HN.
  assert (Hex : forall r, r ∈ expected -> expectable reg r).
  { intros r (id & p & r0 & _ & Hg & Hr0 & Hr)%Hsound. pose proof (profile_expectable reg p r0 Hfp (Hreg _ _ Hg) Hr0) as He.
    destruct Hr as [->|(_ & _ & ->)]; [done|by apply set_required_expectable]. }
  set (per := verify_record ask addr <$> expected).
  assert (Hspec : forall r, r ∈ expected -> _) by (intros r Hr; exact (verify_record_spec ask addr reg Hval r (Hex r Hr))).
  assert (Hans : answers expected per).
  { unfold answers, per. rewrite <-list_fmap_compose. rewrite (list_fmap_ext _ id); [by rewrite list_fmap_id|]. intros i r Hi. by apply Hspec, (list_elem_of_lookup_2 _ i). }
  assert (Hff : forall r, r ∈ expected -> found_for per r = rvn_Found (verify_record ask addr r)).
  { intros r Hr. destruct (result_for_spec expected per r HN Hans Hr) as (v & Hres & Hin & Ev). unfold found_for. rewrite Hres.
    apply list_elem_of_fmap in Hin as (r' & -> & Hr'). assert (r' = r) as -> by (rewrite <-Ev; symmetry; by apply Hspec). done. }
  exists (omap record_mismatch per), per. split_and!; [| | |by intros; apply printed_binds].
  - unfold verifyDNSRecords, Lookup_VerifyRecords. rewrite Haddr. done.
  - intros r. cbn [attestedDNSRecords fst]. rewrite list_elem_of_filter. split.
    + intros [Hfd Hr]. split; [done|]. rewrite Hff in Hfd by done. by apply Hspec.
    + intros [Hr Hz]. rewrite Hff by done. split; [|done]. by apply Hspec.
  - assert (Hone : forall r, r ∈ expected -> record_mismatch (verify_record ask addr r) = None <-> (dr_Required r = true -> in_zone ask addr reg r) /\ ~ contradicted ask addr reg r).
    { intros r Hr. destruct (Hspec r Hr) as (Er & Hf & Hc). rewrite record_mismatch_None, Er, Hf. apply and_iff_compat_l.
      assert (Ht : one_of (dr_Type r) [DNSRecordTLSA; DNSRecordSVCB; DNSRecordHTTPS] = true <-> dr_Type r <> DNSRecordTXT).
      { destruct (Hex r Hr) as [->|? -> _ _| -> _|? -> _ _]; by split. }
      rewrite Ht. split; intros H Hx; apply H.
      - destruct (rvn_Found (verify_record ask addr r)) eqn:Ef; [|by split; [|apply Hc]]. exfalso. destruct Hx as (? & ? & ? & _ & _ & _ & _ & _ & Hnz). apply Hnz. by apply Hf.
      - destruct Hx as [Ef Hx]. by apply Hc. }
    split.
    + intros Hm r Hr. apply Hone; [done|]. apply (omap_nil _ _ Hm). by apply list_elem_of_fmap_2.
    + intros H. unfold per. clear - H Hone. induction expected as [|r l IH]; [done|]. cbn [fmap list_fmap omap list_omap].
      rewrite (proj2 (Hone r ltac:(left)) (H r ltac:(left))). apply IH; [intros r' Hr'; apply Hone; by right|intros r' Hr'; apply H; by right].
Qed.
End Check.

(** ** A zone

    A provider's edge answers with a richer service row, the target spelled out,
    and the badge text in two strings. *)

#[local] Existing Instance latin_tables.
#[local] Instance plain_fold : CaseOrbits := {| SimpleFold := id |}.
#[local] Instance ascii_names : DnsLib := {|
  dns_Fqdn s := if String.eqb (str_drop (String.length s - 1) s) "." then s else s +:+ ".";
  CanonicalName s := ToLower (if String.eqb (str_drop (String.length s - 1) s) "." then s else s +:+ ".");
  RcodeToString _ := "ERROR"
|}.

Definition join_path (base : string) (elem : list string) : string := base +:+ "/" +:+ Join elem "/".

Definition zone_reg : AgentRegistration :=
  {| r_ID := 1; r_AgentID := "a"; r_OwnerID := "o"; r_AnsName := MkAnsName (MkSemVer 1 0 0) demo_fqdn; r_Status := StatusPendingDNS;
     r_Details := {| d_RegistrationTimestamp := 0; d_LastRenewalTimestamp := 0; d_DisplayName := "n"; d_Description := "" |};
     r_Endpoints := [demo_endpoint]; r_ServerCert := None; r_IdentityCSR := None; r_ServerCSR := None; r_SupersedesRegistrationID := 0;
     r_CertOrder := zero_order; r_DiscoveryProfiles := [DiscoveryProfileANSDNSAID]; r_PendingEvents := [] |}.

Definition zone_registry : Registry := [DNSAIDProfile join_path "https://log.example"].

Definition edge_row : SVCB :=
  {| sv_Priority := 1; sv_Target := "Agent.Example.com.";
     sv_Value := ("ech", "AEX+DQ==") :: ((fun p => if String.eqb p.1 "alpn" then ("alpn", "h3," +:+ p.2) else p) <$> svcb_pairs demo_fqdn demo_endpoint) |}.

Definition zone_ask (server name : string) (qt : qtype) : result string Msg :=
  match qt with
  | TypeSVCB => Ok {| m_Rcode := 0; m_AuthenticatedData := true; m_Answer := [RR_other; RR_SVCB edge_row] |}
  | TypeTXT => Ok {| m_Rcode := 0; m_AuthenticatedData := false; m_Answer := [RR_TXT ["v=ans-badge1; version=v1.0.0; "; "url=https://log.example/v1/agents/a"]] |}
  | _ => Ok {| m_Rcode := RcodeNameError; m_AuthenticatedData := false; m_Answer := [] |}
  end.

Lemma lookup_attests_zone_witness :
  exists r, r ∈ ComputeRequiredDNSRecords zone_registry zone_reg /\ dr_Type r = DNSRecordSVCB /\ in_zone zone_ask "ns:53" zone_reg r.
Proof.
  destruct (lookup_attests_zone join_path "https://log.example" zone_ask "ns:53" None "ns:53" zone_registry zone_reg) as (mism & per & Hv & Hatt & _).
  - intros id p H. right. unfold zone_registry, Registry_Get in H. cbn [find_first] in H. destruct (String.eqb _ _); [by injection H as <-|done].
  - by vm_compute.
  - done.
  - done.
  - set (r := default (demo_record "" false) (head (ComputeRequiredDNSRecords zone_registry zone_reg))).
    assert (Hr : r ∈ (attestedDNSRecords (ComputeRequiredDNSRecords zone_registry zone_reg) (Some per)).1).
    { vm_compute in Hv. injection Hv as _ <-. vm_compute. left. }
    exists r. apply Hatt in Hr as [Hr Hz]. split; [exact Hr|]. split; [vm_compute; reflexivity|exact Hz].
Defined.

(** Words and fields can differ.  The answer's text is split at blanks again, so a blank inside a value starts a new parameter: the row below
    has no [key65401], and is found to carry it. *)
Definition blank_row : SVCB :=
  let cap := metadataHashToCapSHA256 (ep_MetadataHash demo_endpoint) in
  {| sv_Priority := 1; sv_Target := ".";
     sv_Value := [("alpn", "mcp"); ("port", "8443"); ("key65400", ep_MetadataURL demo_endpoint); ("key65402", "mcp"); ("key65409", "mcp.json");
                  ("key65500", "x\ key65401=" +:+ cap)] |}.

Example blank_in_value_accepted :
  let rec := {| dr_Name := demo_fqdn; dr_Type := DNSRecordSVCB; dr_Value := svcb_value demo_fqdn demo_endpoint; dr_Purpose := PurposeDiscovery; dr_Required := true; dr_TTL := 3600 |} in
  let ask := fun (_ _ : string) (_ : qtype) => Ok {| m_Rcode := 0; m_AuthenticatedData := true; m_Answer := [RR_SVCB blank_row] |} in
  rvn_Found (verifySVCB ask "ns:53" rec) = true /\ pairs_map (sv_Value blank_row) !! "key65401" = None.
Proof. vm_compute. split; reflexivity. Qed.
