(* ===== verification/AnsVerify.v ===== *)
(** The verifier command, [cmd/ans-verify]: the checks of one agent ([main.go],
    [metadata.go]) and the listing of a provider's agents ([walk.go]).  The badge
    record that names an agent by its host is in [AnsMain].

    The network is what answers a request: an [http_reply] is no answer, or a
    status with a body.  [fatalf] is the error of a [result]; lines printed for
    the reader are left out, except where they say what was checked.  The tile
    layout and the entry bundles of Tessera are [TileLayout].  A [*ecdsa.PublicKey]
    is an [ecdsa_key] where notes are verified and a [PublicKey] where receipts
    are; [as_point] is the identity between the two views. *)
From stdpp Require Import gmap sorting.
From S2P Require Import Prelude GoStrings GoRegexp GoEncoding GoJSON GoNet GoURL AnsName Discovery TlEvent TlEnvelope Sha256 RaEvents Jws LogNote P256 Merkle Receipt WorkPool.

#[local] Set Default Goal Selector "!".
#[local] Open Scope Z_scope.

(** ** HTTP *)

Inductive http_reply := NoReply | Reply (status : Z) (body : string).

Definition StatusOK : Z := 200.
Definition maxResponseBytes : Z := 32 * 1024 * 1024.

(** [httpGetBytes]: a body within the cap, or an error. *)
Definition httpGetBytes (rep : http_reply) : option string :=
  match rep with
  | NoReply => None
  | Reply status body =>
      if negb (status =? StatusOK) then None else
      if maxResponseBytes <? Z.of_nat (String.length body) then None else Some body
  end.

(** [fetchBinary]: without a cap. *)
Definition fetchBinary (rep : http_reply) : option string :=
  match rep with
  | NoReply => None
  | Reply status body => if negb (status =? StatusOK) then None else Some body
  end.

(** ** The listing: [walk.go] *)

Definition agentIDPattern : re :=
  Seq (Rep 8 (Cls is_hex)) (Seq (Lit "-") (Seq (Rep 4 (Cls is_hex)) (Seq (Lit "-") (Seq (Rep 4 (Cls is_hex)) (Seq (Lit "-")
    (Seq (Rep 4 (Cls is_hex)) (Seq (Lit "-") (Rep 12 (Cls is_hex))))))))).

Record AgentMatch := {
  am_LeafIndex : Z;
  am_AgentID : string;
  am_AnsName : string;
  am_Host : string;
  am_EventType : string;
  am_LeafBytes : option string
}.

Definition terminalEventTypes (t : string) : bool := String.eqb t "AGENT_REVOKED" || String.eqb t "AGENT_DEPRECATED".

Record agentIdentity := { id_AgentID : string; id_AnsName : string; id_Host : string; id_EventType : string }.

Definition zero_agentIdentity : agentIdentity := {| id_AgentID := ""; id_AnsName := ""; id_Host := ""; id_EventType := "" |}.

Definition dec_agentIdentity : json -> agentIdentity -> option agentIdentity := dec_struct (fun m i =>
  a ← field "ansId" dec_str (id_AgentID i) m;
  n ← field "ansName" dec_str (id_AnsName i) m;
  t ← field "eventType" dec_str (id_EventType i) m;
  h ← field "agent" (dec_struct (fun m h => field "host" dec_str h m)) (id_Host i) m;
  Some {| id_AgentID := a; id_AnsName := n; id_Host := h; id_EventType := t |}).

Definition extractAgentIdentity (envelope : string) : option agentIdentity :=
  e ← Unmarshal (at_event dec_agentIdentity) zero_agentIdentity envelope;
  if String.eqb (id_AnsName e) "" && String.eqb (id_Host e) "" then None else Some e.

Definition clampConcurrency (c : Z) : Z := if c =? 0 then 8 else if c <? 1 then 1 else if 64 <? c then 64 else c.

(** [layout.PartialTileSize], [layout.EntriesPath] and
    [api.EntryBundle.UnmarshalText].  A tile holds 256 entries; the size of a
    partial tile is what is left, zero for a full one. *)
Class TileLayout := {
  PartialTileSize : Z -> Z -> Z -> Z;        (* level, index, log size *)
  EntriesPath : Z -> Z -> string;            (* index, partial size *)
  EntryBundle_UnmarshalText : string -> option (list string)
}.

Definition EntryBundleWidth : Z := 256.

Class TileLayoutLaws (L : TileLayout) : Prop := {
  partial_size_law idx n : 0 <= idx -> idx * EntryBundleWidth < n ->
    PartialTileSize 0 idx n = if (idx + 1) * EntryBundleWidth <=? n then 0 else n - idx * EntryBundleWidth
}.

Inductive walk_error := WalkFetch (path : string) | WalkDecode (path : string) | WalkCount (path : string) | WalkContext.

Section Walk.
Context `{U : UnicodeTables} `{L : TileLayout}.

Definition providerMatches (host providerSuffix : string) : bool :=
  if String.eqb host "" || String.eqb providerSuffix "" then false else
  let h := ToLower (TrimSuffixByte host ".") in
  let s := ToLower (TrimSuffixByte providerSuffix ".") in
  if String.eqb h s then true else HasSuffix h (String "." s).

Definition decodeEntryBundle (raw : string) : option (list string) := EntryBundle_UnmarshalText raw.

(** The path of a tile, and what a worker makes of the answer. *)
Definition tile_path (treeSize tileIdx : Z) : string := EntriesPath tileIdx (PartialTileSize 0 tileIdx treeSize).

Definition read_tile (treeSize tileIdx : Z) (rep : http_reply) : result walk_error (list string) :=
  let partial := PartialTileSize 0 tileIdx treeSize in
  let path := tile_path treeSize tileIdx in
  match httpGetBytes rep with
  | None => Err (WalkFetch path)
  | Some raw =>
      match decodeEntryBundle raw with
      | None => Err (WalkDecode path)
      | Some entries =>
          let wantLen := if partial =? 0 then EntryBundleWidth else partial in
          if negb (Z.of_nat (length entries) =? wantLen) then Err (WalkCount path) else Ok entries
      end
  end.

(** [(treeSize + w - 1) / w] on [uint64]. *)
Definition nTiles (treeSize : Z) : Z := (treeSize + EntryBundleWidth - 1) mod 2 ^ 64 / EntryBundleWidth.

Definition error_of {E A} (r : result E A) : option E := match r with Ok _ => None | Err e => Some e end.

(** The jobs of the walk against a server: [answers url rep] says that the
    request may be answered so; a request under a cancelled context fails. *)
Definition walk_jobs (answers : string -> http_reply -> Prop) (baseURL : string) (treeSize : Z) : jobs_spec (result walk_error (list string)) walk_error := {|
  js_count := Z.to_nat (nTiles treeSize);
  js_work := fun cancelled j r =>
    exists rep, (answers (baseURL +:+ "/" +:+ tile_path treeSize (Z.of_nat j)) rep \/ (cancelled = true /\ rep = NoReply)) /\
      r = read_tile treeSize (Z.of_nat j) rep;
  js_failure := error_of;
  js_stoppable := true
|}.

(** The matches of a tile's entries, from index [base] on. *)
Fixpoint tile_matches (providerSuffix : string) (base : Z) (entries : list string) : list AgentMatch :=
  match entries with
  | [] => []
  | leaf :: rest =>
      match extractAgentIdentity leaf with
      | Some id =>
          if providerMatches (id_Host id) providerSuffix then
            {| am_LeafIndex := base; am_AgentID := id_AgentID id; am_AnsName := id_AnsName id; am_Host := id_Host id;
               am_EventType := id_EventType id; am_LeafBytes := Some leaf |} :: tile_matches providerSuffix (base + 1) rest
          else tile_matches providerSuffix (base + 1) rest
      | None => tile_matches providerSuffix (base + 1) rest
      end
  end.

(** The scan of the slots; a slot no worker reached has no entries. *)
Fixpoint scan_slots (providerSuffix : string) (tileIdx : Z) (slots : list (option (result walk_error (list string)))) : result walk_error (list AgentMatch) :=
  match slots with
  | [] => Ok []
  | Some (Err e) :: _ => Err e
  | Some (Ok entries) :: rest =>
      more ← scan_slots providerSuffix (tileIdx + 1) rest;
      Ok (tile_matches providerSuffix (tileIdx * EntryBundleWidth) entries ++ more)
  | None :: rest => scan_slots providerSuffix (tileIdx + 1) rest
  end.

Definition walk_result (providerSuffix : string) (p : pool (result walk_error (list string)) walk_error) : result walk_error (list AgentMatch) :=
  match p_firstErr p with
  | Some e => Err e
  | None => if p_ctxDone p then Err WalkContext else scan_slots providerSuffix 0 (p_slots p)
  end.

(** [walkProviderAgents] returns [res] in some run.  The caller's context is never
    done when it is [context.Background()]. *)
Definition walkProviderAgents (background : bool) (answers : string -> http_reply -> Prop) (baseURL providerSuffix : string) (treeSize concurrency : Z)
    (res : result walk_error (list AgentMatch)) : Prop :=
  if treeSize =? 0 then res = Ok [] else
  let workers := Z.to_nat (clampConcurrency concurrency) in
  let J := walk_jobs answers baseURL treeSize in
  exists p, rtc (pool_step J workers) (start J workers) p /\ finished p /\
    (background = true -> p_ctxDone p = false) /\ res = walk_result providerSuffix p.
End Walk.

(** The [latest] map of [reduceToLive]. *)
Definition latest_matches (matches : list AgentMatch) : gmap string AgentMatch :=
  fold_left (fun latest m =>
    if String.eqb (am_AnsName m) "" then latest else
    match latest !! am_AnsName m with
    | Some prev => if am_LeafIndex prev <? am_LeafIndex m then <[am_AnsName m := m]> latest else latest
    | None => <[am_AnsName m := m]> latest
    end) matches ∅.

Definition by_leaf (a b : AgentMatch) : Prop := am_LeafIndex a <= am_LeafIndex b.

#[export] Instance by_leaf_dec : RelDecision by_leaf.
Proof. intros a b. unfold by_leaf. apply _. Defined.

(** The map is read in some order and the result sorted by leaf index, which is
    unique per match. *)
Definition reduceToLive (matches : list AgentMatch) : list AgentMatch :=
  merge_sort by_leaf
    (filter (fun m => String.eqb (am_AnsName m) "" = true) matches ++
     filter (fun m => terminalEventTypes (am_EventType m) = false) (snd <$> map_to_list (latest_matches matches))).

(** ** Keys: [/root-keys] and PEM files *)

(** [strings.SplitN(line, "+", 3)] when it gives three parts. *)
Definition split_key_line (line : string) : option (string * string * string) :=
  let '(a, rest, f1) := Cut line "+" in
  let '(b, c, f2) := Cut rest "+" in
  if f1 && f2 then Some (a, b, c) else None.

Section Keys.
Context `{U : UnicodeTables} `{S : SigSchemes} `{KP : !KeyParser}.

(** One line of the response: its key hash and key. *)
Definition root_key_line (line0 : string) : option (string * ecdsa_key) :=
  let line := TrimSpace line0 in
  if String.eqb line "" then None else
  '(_, keyHash, encoded) ← split_key_line line;
  raw ← std_DecodeString encoded;
  if (String.length raw <? 2)%nat || negb (HasPrefix raw (String (chr 2) "")) then None else
  match x509_ParsePKIXPublicKey (str_drop 1 raw) with
  | Some (EcdsaKey ec) => Some (keyHash, ec)
  | _ => None
  end.

(** [None] is the failed request or a response without a usable key. *)
Definition fetchRootKeys (rep : http_reply) : option (list ecdsa_key * gmap string ecdsa_key) :=
  body ← fetchBinary rep;
  let found := omap root_key_line (Split (TrimSpace body) cNewline) in
  match found with
  | [] => None
  | _ => Some (found.*2, fold_left (fun byHash p => <[p.1 := p.2]> byHash) found ∅)
  end.

Definition loadPublicKeyFromFile `{X : PemX509} (file : option string) : option ecdsa_key :=
  b ← file;
  '(_, bytes) ← pem_Decode b;
  match x509_ParsePKIXPublicKey bytes with Some (EcdsaKey ec) => Some ec | _ => None end.
End Keys.

(** ** Receipts and status tokens *)

Inductive verify_error :=
| NoVerificationKeys | ReceiptError (e : receipt_error) | NoteError (e : note_error) | FetchError
| NoAgentID | BadAgentID | PayloadMismatch
| NoKeyVerified | NoHostNamed | OtherHost (want got : string) | BadgeError | MetadataMismatch | WalkError (e : walk_error).

Record VerifyResult := { vr_Match : AgentMatch; vr_OK : bool; vr_Err : option verify_error }.

Section Verifier.
Context `{U : UnicodeTables} `{C : CBOR} `{EC : EcdsaScheme} `{S : SigSchemes} `{KP : !KeyParser}.
Context (as_point : ecdsa_key -> PublicKey).

Definition receipt_ok (receiptBytes : string) (k : ecdsa_key) : bool := is_ok (Verify receiptBytes (as_point k)).

(** [makeReceiptVerifier]. *)
Fixpoint try_keys (keys : list ecdsa_key) (b : string) (lastErr : verify_error) : result verify_error unit :=
  match keys with
  | [] => Err lastErr
  | k :: rest => match Verify b (as_point k) with Ok _ => Ok tt | Err e => try_keys rest b (ReceiptError e) end
  end.

Definition makeReceiptVerifier (keys : list ecdsa_key) (b : string) : result verify_error unit := try_keys keys b NoVerificationKeys.

(** One match of [verifyMatches]; [rep] answers the receipt's URL. *)
Definition verify_match (verifyOne : string -> result verify_error unit) (m : AgentMatch) (rep : http_reply) : VerifyResult :=
  let failed e := {| vr_Match := m; vr_OK := false; vr_Err := Some e |} in
  if String.eqb (am_AgentID m) "" then failed NoAgentID else
  if negb (MatchString agentIDPattern (am_AgentID m)) then failed BadAgentID else
  match httpGetBytes rep with
  | None => failed FetchError
  | Some rec =>
      match verifyOne rec with
      | Err e => failed e
      | Ok _ =>
          match am_LeafBytes m with
          | None => {| vr_Match := m; vr_OK := true; vr_Err := None |}
          | Some leaf =>
              match ExtractPayload rec with
              | Err e => failed (ReceiptError e)
              | Ok payload => if negb (String.eqb payload leaf) then failed PayloadMismatch else {| vr_Match := m; vr_OK := true; vr_Err := None |}
              end
          end
      end
  end.

Definition receipt_url (baseURL agentID : string) : string := baseURL +:+ "/v1/agents/" +:+ agentID +:+ "/receipt".

Definition verify_jobs (answers : string -> http_reply -> Prop) (baseURL : string) (matches : list AgentMatch)
    (verifyOne : string -> result verify_error unit) : jobs_spec VerifyResult verify_error := {|
  js_count := length matches;
  js_work := fun _ j r => exists m rep, matches !! j = Some m /\ answers (receipt_url baseURL (am_AgentID m)) rep /\ r = verify_match verifyOne m rep;
  js_failure := fun _ => None;
  js_stoppable := false
|}.

Definition zero_match : AgentMatch := {| am_LeafIndex := 0; am_AgentID := ""; am_AnsName := ""; am_Host := ""; am_EventType := ""; am_LeafBytes := None |}.
Definition zero_VerifyResult : VerifyResult := {| vr_Match := zero_match; vr_OK := false; vr_Err := None |}.

(** [verifyMatches] returns [out] in some run. *)
Definition verifyMatches (answers : string -> http_reply -> Prop) (baseURL : string) (matches : list AgentMatch)
    (verifyOne : string -> result verify_error unit) (concurrency : Z) (out : list VerifyResult) : Prop :=
  match matches with
  | [] => out = []
  | _ =>
      let workers := Z.to_nat (clampConcurrency concurrency) in
      let J := verify_jobs answers baseURL matches verifyOne in
      exists p, rtc (pool_step J workers) (start J workers) p /\ finished p /\ out = default zero_VerifyResult <$> p_slots p
  end.

Definition verifiedCheckpoint (keysByHash : gmap string ecdsa_key) (rep : http_reply) : result verify_error Checkpoint :=
  if (size keysByHash =? 0)%nat then Err NoVerificationKeys else
  match httpGetBytes rep with
  | None => Err FetchError
  | Some body => match VerifyCheckpointNote body (Some <$> keysByHash) with Ok cp => Ok cp | Err e => Err (NoteError e) end
  end.

(** [kidFromReceipt] and [statusTokenKid]; empty when there is none. *)
Definition kidFromReceipt (receiptBytes : string) : string :=
  match ExtractKID receiptBytes with
  | Ok kid => if negb (String.length kid =? 4)%nat then "" else hex_EncodeToString kid
  | Err _ => ""
  end.

(** A nil map holds nothing: [None] when the keys came from a file. *)
Definition kidVerified (receiptBytes : string) (keysByHash : option (gmap string ecdsa_key)) : bool :=
  match keysByHash with
  | None => false
  | Some byHash =>
      let kid := kidFromReceipt receiptBytes in
      if String.eqb kid "" then false else
      match byHash !! kid with None => false | Some k => receipt_ok receiptBytes k end
  end.

(** Whether the receipt was verified; [false] is the skipped check of an empty
    key list. *)
Definition verifyReceiptStep (receiptBytes : string) (keys : list ecdsa_key) (keysByHash : option (gmap string ecdsa_key)) : result verify_error bool :=
  match keys with
  | [] => Ok false
  | _ => if kidVerified receiptBytes keysByHash then Ok true else
         if existsb (receipt_ok receiptBytes) keys then Ok true else Err NoKeyVerified
  end.

Context (unmarshal_status : string -> option StatusTokenPayload).

Fixpoint token_by_keys (tokenBytes : string) (keys : list ecdsa_key) : option StatusTokenPayload :=
  match keys with
  | [] => None
  | k :: rest => match VerifyStatusToken unmarshal_status tokenBytes (as_point k) with Ok p => Some p | Err _ => token_by_keys tokenBytes rest end
  end.

(** The payload that is printed as verified. *)
Definition verifyStatusToken (tokenBytes : string) (keys : list ecdsa_key) (keysByHash : option (gmap string ecdsa_key)) : option StatusTokenPayload :=
  if String.eqb tokenBytes "" then None else
  let kidHex := kidFromReceipt tokenBytes in
  let direct := if String.eqb kidHex "" then None else
    byHash ← keysByHash; k ← byHash !! kidHex;
    match VerifyStatusToken unmarshal_status tokenBytes (as_point k) with Ok p => Some p | Err _ => None end in
  match direct with Some p => Some p | None => token_by_keys tokenBytes keys end.
End Verifier.

(** ** The signed event *)

(** [strconv.ParseFloat] on a JSON number: it fails when the value rounds to
    infinity, that is from [2^1024 - 2^970] on. *)
Definition float64_limit : Z := 2 ^ 1024 - 2 ^ 970.

(** Digits, fraction digits and exponent of a literal. *)
Definition number_parts (lit : string) : Z * Z :=
  let '(_, s) := num_sign lit in
  let '(whole, s1) := take_digits s in
  let '(frac, s2) := match s1 with String "." r => take_digits r | _ => ("", s1) end in
  let exponent := match s2 with
    | String c r => let '(sg, ds) := match r with String "-" r' => (-1, r') | String "+" r' => (1, r') | _ => (1, r) end in
                    sg * default 0 (digits_val 0 ds)
    | EmptyString => 0
    end in
  (default 0 (digits_val 0 (whole +:+ frac)), exponent - Z.of_nat (String.length frac)).

Definition float64_fits (lit : string) : bool :=
  let '(m, e) := number_parts lit in
  if m =? 0 then true else
  let decimals := Z.of_nat (String.length (Itoa m)) in
  if 310 <? decimals + e then false else
  if decimals + e <? 300 then true else
  if 0 <=? e then m * 10 ^ e <? float64_limit else m <? float64_limit * 10 ^ (- e).

(** A value decodes into an [any]. *)
Fixpoint any_ok (j : json) : bool :=
  match j with
  | JNum lit => float64_fits lit
  | JArr l => forallb any_ok l
  | JObj m => forallb (fun p => any_ok p.2) m
  | _ => true
  end.

(** [json.Unmarshal] into a fresh [map[string]any]: the members, the last one of
    a name counting. *)
Definition unmarshal_map (data : string) : option (list (string * json)) :=
  j ← parse_json data;
  match j with
  | JNull => Some []
  | JObj m => if any_ok j then Some m else None
  | _ => None
  end.

Definition member (k : string) (m : list (string * json)) : option json := snd <$> List.find (fun p => String.eqb p.1 k) (rev m).

(** [m[k].(map[string]any)] and [m[k].(string)]. *)
Definition member_map (k : string) (m : list (string * json)) : option (list (string * json)) :=
  match member k m with Some (JObj o) => Some o | _ => None end.
Definition member_str (k : string) (m : list (string * json)) : option string :=
  match member k m with Some (JStr s) => Some s | _ => None end.

Definition signedEvent (env : list (string * json)) : option (list (string * json)) :=
  p ← member_map "payload" env; prod ← member_map "producer" p; member_map "event" prod.

Section Binding.
Context `{U : UnicodeTables} `{F : CaseOrbits}.

Definition hostFromEventPayload (payload : string) : option string :=
  env ← unmarshal_map payload;
  evt ← signedEvent env;
  let from_name :=
    raw ← member_str "ansName" evt;
    match ParseAnsName raw with Ok parsed => Some (AnsName_FQDN parsed) | Err _ => None end in
  match agent ← member_map "agent" evt; member_str "host" agent with
  | Some host => if String.eqb (TrimSpace host) "" then from_name else Some host
  | None => from_name
  end.

Definition normalizeHost (host : string) : string := ToLower (TrimSuffixByte (TrimSpace host) ".").

Definition bindRequestedFQDN (requested payload : string) : result verify_error unit :=
  let want := normalizeHost requested in
  match hostFromEventPayload payload with
  | None => Err NoHostNamed
  | Some host => let got := normalizeHost host in if negb (String.eqb got want) then Err (OtherHost want got) else Ok tt
  end.

(** ** Attested metadata: [metadata.go] *)

Definition svcbParamALPN : string := "alpn=".
Definition svcbParamCap : string := "key65400=".
Definition svcbParamBAP : string := "key65402=".
Definition metadataHashPrefix : string := "SHA256:".
Definition dnsaidHTTPAPIToken : string := "x-http".
Definition protocolHTTPAPI : string := "HTTP_API".

Inductive metadataOutcome := metadataMatch | metadataMismatch | metadataUnreachable | metadataNoURL.

Record metadataCheck := { mc_Protocol : string; mc_URL : string; mc_WantHash : string }.
Record metadataResult := { mr_check : metadataCheck; mr_Outcome : metadataOutcome; mr_GotHash : string }.
Record attestedRecord := { ar_Name : string; ar_Data : string; ar_Type : string }.

Definition zero_attestedRecord : attestedRecord := {| ar_Name := ""; ar_Data := ""; ar_Type := "" |}.

Definition dec_attestedRecord : json -> attestedRecord -> option attestedRecord := dec_struct (fun m r =>
  n ← field "name" dec_str (ar_Name r) m;
  d ← field "data" dec_str (ar_Data r) m;
  t ← field "type" dec_str (ar_Type r) m;
  Some {| ar_Name := n; ar_Data := d; ar_Type := t |}).

(** [slices.Sorted(maps.Keys(m))]. *)
Definition sorted_keys (m : gmap string string) : list string := merge_sort String.le (map_to_list m).*1.

Definition decodeAttestedRecords (raw : option json) : list attestedRecord :=
  match raw with
  | None => []
  | Some j =>
      match dec_list dec_attestedRecord zero_attestedRecord j [] with
      | Some typed => typed
      | None =>
          match dec_strmap j ∅ with
          | None => []
          | Some byName => (fun name => {| ar_Name := name; ar_Data := default "" (byName !! name); ar_Type := "" |}) <$> sorted_keys byName
          end
      end
  end.

(** The parameters of one row: [alpn], [bap] and the descriptor URL. *)
Definition svcb_param (params : string * string * string) (field : string) : string * string * string :=
  let '(alpn, bap, capURL) := params in
  if HasPrefix field svcbParamALPN then (TrimPrefix field svcbParamALPN, bap, capURL) else
  if HasPrefix field svcbParamBAP then (alpn, TrimPrefix field svcbParamBAP, capURL) else
  if HasPrefix field svcbParamCap then (alpn, bap, TrimPrefix field svcbParamCap) else (alpn, bap, capURL).

Definition svcb_params (data : string) : string * string * string := fold_left svcb_param (Fields data) ("", "", "").

Definition index_token (capURL : string) (urls : gmap string string) (tok : string) : gmap string string :=
  if String.eqb tok "" then urls else
  match urls !! ToLower tok with Some _ => urls | None => <[ToLower tok := capURL]> urls end.

Definition index_record (urls : gmap string string) (rec : attestedRecord) : gmap string string :=
  if negb (String.eqb (ar_Type rec) "") && negb (String.eqb (ar_Type rec) DNSRecordHTTPS) && negb (String.eqb (ar_Type rec) DNSRecordSVCB) then urls else
  let '(alpn, bap, capURL) := svcb_params (ar_Data rec) in
  if String.eqb capURL "" then urls else index_token capURL (index_token capURL urls alpn) bap.

Definition descriptorURLsByToken (records : list attestedRecord) : gmap string string := fold_left index_record records ∅.

Definition dnsaidTokenForProtocol (protocol : string) : string :=
  if EqualFold protocol protocolHTTPAPI then dnsaidHTTPAPIToken else ToLower protocol.

(** The attestations the step reads. *)
Definition dec_metadata_att : json -> gmap string string * option json -> option (gmap string string * option json) := dec_struct (fun m a =>
  h ← field "metadataHashes" dec_strmap a.1 m;
  d ← field "dnsRecordsProvisioned" dec_raw a.2 m;
  Some (h, d)).

Definition dec_metadata_event : json -> gmap string string * option json -> option (gmap string string * option json) :=
  dec_struct (fun m a => field "attestations" dec_metadata_att a m).

Definition metadata_checks (hashes : gmap string string) (records : option json) : list metadataCheck :=
  let urls := descriptorURLsByToken (decodeAttestedRecords records) in
  (fun proto => {| mc_Protocol := proto; mc_URL := default "" (urls !! dnsaidTokenForProtocol proto); mc_WantHash := default "" (hashes !! proto) |}) <$> sorted_keys hashes.

Definition metadataChecksFromEvent (payload : string) : option (list metadataCheck) :=
  '(hashes, records) ← Unmarshal (at_event dec_metadata_event) (∅, None) payload;
  if (size hashes =? 0)%nat then Some [] else Some (metadata_checks hashes records).

Definition fetchDescriptor (rep : http_reply) : option string := httpGetBytes rep.

Definition verifyOneMetadata (c : metadataCheck) (rep : http_reply) : metadataResult :=
  if String.eqb (mc_URL c) "" then {| mr_check := c; mr_Outcome := metadataNoURL; mr_GotHash := "" |} else
  match fetchDescriptor rep with
  | None => {| mr_check := c; mr_Outcome := metadataUnreachable; mr_GotHash := "" |}
  | Some body =>
      let got := metadataHashPrefix +:+ hex_EncodeToString (Sum256 body) in
      {| mr_check := c; mr_Outcome := if EqualFold got (mc_WantHash c) then metadataMatch else metadataMismatch; mr_GotHash := got |}
  end.

(** [descriptor protocol url] answers the request of one check; a protocol is
    checked once. *)
Definition verifyMetadata (descriptor : string -> string -> http_reply) (checks : list metadataCheck) : list metadataResult :=
  (fun c => verifyOneMetadata c (descriptor (mc_Protocol c) (mc_URL c))) <$> checks.

Definition is_mismatch (r : metadataResult) : bool := match mr_Outcome r with metadataMismatch => true | _ => false end.

(** Whether verification fails. *)
Definition metadataStepForPayload (descriptor : string -> string -> http_reply) (payload : string) : bool :=
  match metadataChecksFromEvent payload with
  | None => false
  | Some checks => existsb is_mismatch (verifyMetadata descriptor checks)
  end.

Definition runMetadataStep `{C : CBOR} (descriptor : string -> string -> http_reply) (receiptBytes : string) (enabled : bool) : bool :=
  if negb enabled then false else
  match ExtractPayload receiptBytes with
  | Err _ => false
  | Ok payload => metadataStepForPayload descriptor payload
  end.
End Binding.
