(* ===== verification/AnsMain.v ===== *)
(** The entry points of [cmd/ans-verify]: the badge record that names an agent by
    its host ([badge.go]), the run of the seven steps ([main] of [main.go]) and
    the listing ([listMain] of [walk.go]).

    [URL.String] of [net/url] is here with the two string searches the badge
    uses.  The resolver, the web and the file system are the [World] of a run:
    every request of a run has its own answer. *)
From stdpp Require Import gmap.
From S2P Require Import Prelude GoStrings GoRegexp GoEncoding GoURL Discovery RaEvents Jws LogNote P256 Merkle Receipt WorkPool AnsVerify.

#[local] Set Default Goal Selector "!".
#[local] Open Scope Z_scope.

(** ** [strings] and [net/url] *)

(** [strings.LastIndex] and [strings.Contains]. *)
Fixpoint LastIndex (s sub : string) : option nat :=
  match s with
  | EmptyString => if String.eqb sub "" then Some O else None
  | String _ s' => match LastIndex s' sub with
                   | Some i => Some (S i)
                   | None => if HasPrefix s sub then Some O else None
                   end
  end.

Definition Contains (s sub : string) : bool := bool_decide (is_Some (LastIndex s sub)).

(** [escape]: a path keeps everything reserved but the question mark. *)
Definition path_byte (c : ascii) : bool :=
  is_alnum c || existsb (Ascii.eqb c) ["-"; "_"; "."; "~"; "$"; "&"; "+"; ","; "/"; ":"; ";"; "="; "@"]%char.

Definition upper_hex (d : Z) : ascii := if d <? 10 then chr (48 + d) else chr (55 + d).

Fixpoint url_escape (keep : ascii -> bool) (s : string) : string :=
  match s with
  | EmptyString => ""
  | String c s' => if keep c then String c (url_escape keep s')
                   else String "%" (String (upper_hex (byteZ c / 16)) (String (upper_hex (byteZ c mod 16)) (url_escape keep s')))
  end.

(** [URL.String] of a URL without opaque part, userinfo and fragment, whose path
    is not the one it was parsed with, so that [EscapedPath] escapes it. *)
Definition URL_String (u : URL) : string :=
  (if String.eqb (u_Scheme u) "" then "" else u_Scheme u +:+ ":") +:+
  (if negb (String.eqb (u_Scheme u) "") || negb (String.eqb (u_Host u) "")
   then (if negb (String.eqb (u_Host u) "") || negb (String.eqb (u_Path u) "") then "//" else "") +:+ url_escape host_byte (u_Host u) else "") +:+
  (let path := if String.eqb (u_Path u) "*" then "*" else url_escape path_byte (u_Path u) in
   (if negb (String.eqb path "") && negb (HasPrefix path "/") && negb (String.eqb (u_Host u) "") then "/" else "") +:+ path) +:+
  (if u_ForceQuery u || negb (String.eqb (u_RawQuery u) "") then "?" +:+ u_RawQuery u else "").

(** ** The badge record: [badge.go] *)

Definition badgeOwnerPrefix : string := "_ans-badge.".
Definition badgeVersionTag : string := "ans-badge1".
Definition badgeAgentsPath : string := "/v1/agents/".

Record badge := { bd_Owner : string; bd_AgentID : string; bd_TLBaseURL : string; bd_Version : string; bd_Raw : string }.

Inductive badge_error :=
| BadgeURLParse | BadgeScheme | BadgeNoHost | BadgeExtra | BadgePath | BadgeAgentID | BadgeNotABadge | BadgeNoURL
| BadgeEmptyFQDN | BadgeLookup | BadgeMalformed | BadgeNone | BadgeAmbiguous (n : nat).

Section Badge.
Context `{U : UnicodeTables} `{F : CaseOrbits}.

Definition with_path (u : URL) (p : string) : URL :=
  {| u_Scheme := u_Scheme u; u_Opaque := u_Opaque u; u_HasUser := u_HasUser u; u_Host := u_Host u; u_Path := p;
     u_RawQuery := u_RawQuery u; u_ForceQuery := u_ForceQuery u; u_Fragment := u_Fragment u |}.

(** The log's base URL and the agent id. *)
Definition splitBadgeURL (raw : string) : result badge_error (string * string) :=
  match Parse raw with
  | None => Err BadgeURLParse
  | Some u =>
      if negb (String.eqb (u_Scheme u) "http") && negb (String.eqb (u_Scheme u) "https") then Err BadgeScheme else
      if String.eqb (u_Host u) "" then Err BadgeNoHost else
      if negb (String.eqb (u_RawQuery u) "") || negb (String.eqb (u_Fragment u) "") || u_HasUser u then Err BadgeExtra else
      let path := TrimRightByte (u_Path u) "/" in
      match LastIndex path badgeAgentsPath with
      | None => Err BadgePath
      | Some cut =>
          let agentID := str_drop (cut + String.length badgeAgentsPath) path in
          if negb (MatchString agentIDPattern agentID) then Err BadgeAgentID else
          Ok (TrimRightByte (URL_String (with_path u (str_take cut path))) "/", agentID)
      end
  end.

(** The first value of each key. *)
Definition badge_field (fields : gmap string string) (part0 : string) : gmap string string :=
  let part := TrimSpace part0 in
  match IndexByte part "=" with
  | None | Some O => fields
  | Some eq =>
      let key := ToLower (TrimSpace (str_take eq part)) in
      match fields !! key with Some _ => fields | None => <[key := TrimSpace (str_drop (S eq) part)]> fields end
  end.

Definition badge_fields (txt : string) : gmap string string := fold_left badge_field (Split txt ";") ∅.

Definition parseBadgeTXT (txt : string) : result badge_error badge :=
  let fields := badge_fields txt in
  let get k := default "" (fields !! k) in
  if negb (EqualFold (get "v") badgeVersionTag) then Err BadgeNotABadge else
  if String.eqb (get "url") "" then Err BadgeNoURL else
  '(baseURL, agentID) ← splitBadgeURL (get "url");
  Ok {| bd_Owner := ""; bd_AgentID := agentID; bd_TLBaseURL := baseURL; bd_Version := get "version"; bd_Raw := TrimSpace txt |}.

Definition looksLikeBadge (txt : string) : bool := Contains (ToLower txt) ("v=" +:+ badgeVersionTag).

Definition badge_key (b : badge) : string := bd_TLBaseURL b +:+ badgeAgentsPath +:+ bd_AgentID b.

(** The set of registrations the badges name; its order is only printed. *)
Definition distinctBadges (badges : list badge) : list string := remove_dups (badge_key <$> badges).

Definition with_owner (owner : string) (b : badge) : badge :=
  {| bd_Owner := owner; bd_AgentID := bd_AgentID b; bd_TLBaseURL := bd_TLBaseURL b; bd_Version := bd_Version b; bd_Raw := bd_Raw b |}.

Definition found_badges (owner : string) (txts : list string) : list badge :=
  omap (fun txt => match parseBadgeTXT txt with Ok b => Some (with_owner owner b) | Err _ => None end) txts.

(** The badge at a name; [lookup] is the resolver. *)
Definition resolveBadge (lookup : string -> option (list string)) (fqdn : string) : result badge_error badge :=
  let name := TrimSuffixByte (TrimSpace fqdn) "." in
  if String.eqb name "" then Err BadgeEmptyFQDN else
  let owner := badgeOwnerPrefix +:+ name +:+ "." in
  match lookup owner with
  | None => Err BadgeLookup
  | Some txts =>
      let malformed := existsb (fun txt => negb (is_ok (parseBadgeTXT txt)) && looksLikeBadge txt) txts in
      match found_badges owner txts with
      | [] => if malformed then Err BadgeMalformed else Err BadgeNone
      | b :: rest =>
          let distinct := length (distinctBadges (b :: rest)) in
          if (1 <? distinct)%nat then Err (BadgeAmbiguous distinct) else Ok b
      end
  end.

Definition sameBaseURL (a b : string) : bool := EqualFold (TrimRightByte a "/") (TrimRightByte b "/").

(** The agent and the log to verify: an explicit [-url] wins over the badge's. *)
Definition badgeStep (lookup : string -> option (list string)) (fqdn configuredURL : string) (urlExplicit : bool) : result badge_error (string * string) :=
  b ← resolveBadge lookup fqdn;
  let baseURL := if negb urlExplicit then bd_TLBaseURL b else configuredURL in
  Ok (bd_AgentID b, TrimRightByte baseURL "/").
End Badge.

(** ** The run: [main] *)

Record Flags := {
  fl_url : string;
  fl_urlExplicit : bool;
  fl_agent : string;
  fl_fqdn : string;
  fl_args : list string;
  fl_pubkey : string;
  fl_checkMetadata : bool
}.

Record World := {
  wd_lookup : string -> option (list string);
  wd_get : string -> http_reply;
  wd_file : string -> option string;
  wd_descriptor : string -> string -> http_reply
}.

(** How a run ends when it does not exit with 1: what was verified. *)
Record Report := {
  rp_agentID : string;
  rp_baseURL : string;
  rp_receipt : string;
  rp_verified : bool;
  rp_token : option StatusTokenPayload
}.

Inductive main_error := Usage | BadgeFailed (e : badge_error) | KeyLoad | Failed (e : verify_error).

Definition failing {A} (r : result verify_error A) : result main_error A := match r with Ok a => Ok a | Err e => Err (Failed e) end.

Section Main.
Context `{U : UnicodeTables} `{F : CaseOrbits} `{C : CBOR} `{EC : EcdsaScheme} `{S : SigSchemes} `{KP : !KeyParser} `{X : PemX509}.
Context (as_point : ecdsa_key -> PublicKey) (unmarshal_status : string -> option StatusTokenPayload).

(** The agent and the log base URL of the flags. *)
Definition target (w : World) (f : Flags) : result main_error (string * string) :=
  let baseURL := TrimRightByte (fl_url f) "/" in
  if negb (String.eqb (fl_fqdn f) "") then
    if negb (String.eqb (fl_agent f) "") || (0 <? length (fl_args f))%nat then Err Usage else
    match badgeStep (wd_lookup w) (fl_fqdn f) baseURL (fl_urlExplicit f) with Ok r => Ok r | Err e => Err (BadgeFailed e) end
  else if negb (String.eqb (fl_agent f) "") then Ok (fl_agent f, baseURL)
  else match fl_args f with a :: _ => Ok (a, baseURL) | [] => Err Usage end.

Definition load_keys (w : World) (f : Flags) (baseURL : string) : result main_error (list ecdsa_key * option (gmap string ecdsa_key)) :=
  if negb (String.eqb (fl_pubkey f) "") then
    match loadPublicKeyFromFile (wd_file w (fl_pubkey f)) with Some k => Ok ([k], None) | None => Err KeyLoad end
  else match fetchRootKeys (wd_get w (baseURL +:+ "/root-keys")) with
       | Some (keys, byHash) => Ok (keys, Some byHash)
       | None => Err KeyLoad
       end.

(** In [-fqdn] mode: the signed event names the requested host. *)
Definition bind_step (f : Flags) (receiptBytes : string) : result main_error unit :=
  if String.eqb (fl_fqdn f) "" then Ok tt else
  match ExtractPayload receiptBytes with
  | Err e => Err (Failed (ReceiptError e))
  | Ok signedPayload => failing (bindRequestedFQDN (fl_fqdn f) signedPayload)
  end.

Definition main (w : World) (f : Flags) : result main_error Report :=
  '(agentID, baseURL) ← target w f;
  '(keys, keysByHash) ← load_keys w f baseURL;
  receiptBytes ← match fetchBinary (wd_get w (receipt_url baseURL agentID)) with Some b => Ok b | None => Err (Failed FetchError) end;
  verified ← failing (verifyReceiptStep as_point receiptBytes keys keysByHash);
  _ ← bind_step f receiptBytes;
  let token := b ← fetchBinary (wd_get w (baseURL +:+ "/v1/agents/" +:+ agentID +:+ "/status-token"));
               verifyStatusToken as_point unmarshal_status b keys keysByHash in
  if runMetadataStep (wd_descriptor w) receiptBytes (fl_checkMetadata f) then Err (Failed MetadataMismatch) else
  Ok {| rp_agentID := agentID; rp_baseURL := baseURL; rp_receipt := receiptBytes; rp_verified := verified; rp_token := token |}.

(** ** [listMain] *)

Record ListFlags := { lf_url : string; lf_provider : string; lf_live : bool; lf_verify : bool; lf_concurrency : Z }.

(** What is printed: the matches, and the outcome of each receipt check. *)
Record Listing := { ls_checkpoint : Checkpoint; ls_matches : list AgentMatch; ls_results : option (list VerifyResult) }.

(** [listMain] ends in [res] in some run against the server [answers]. *)
Inductive list_run `{L : TileLayout} (answers : string -> http_reply -> Prop) (f : ListFlags) : result main_error Listing -> Prop :=
| ListUsage : lf_provider f = "" -> list_run answers f (Err Usage)
| ListNoKeys base rep :
    lf_provider f <> "" -> base = TrimRightByte (lf_url f) "/" -> answers (base +:+ "/root-keys") rep -> fetchRootKeys rep = None ->
    list_run answers f (Err KeyLoad)
| ListNoCheckpoint base rep keys byHash rep' e :
    lf_provider f <> "" -> base = TrimRightByte (lf_url f) "/" -> answers (base +:+ "/root-keys") rep -> fetchRootKeys rep = Some (keys, byHash) ->
    answers (base +:+ "/checkpoint") rep' -> verifiedCheckpoint byHash rep' = Err e -> list_run answers f (Err (Failed e))
| ListWalkFailed base rep keys byHash rep' cp e :
    lf_provider f <> "" -> base = TrimRightByte (lf_url f) "/" -> answers (base +:+ "/root-keys") rep -> fetchRootKeys rep = Some (keys, byHash) ->
    answers (base +:+ "/checkpoint") rep' -> verifiedCheckpoint byHash rep' = Ok cp ->
    walkProviderAgents true answers base (lf_provider f) (ck_Size cp) (lf_concurrency f) (Err e) -> list_run answers f (Err (Failed (WalkError e)))
| ListDone base rep keys byHash rep' cp raw matches results :
    lf_provider f <> "" -> base = TrimRightByte (lf_url f) "/" -> answers (base +:+ "/root-keys") rep -> fetchRootKeys rep = Some (keys, byHash) ->
    answers (base +:+ "/checkpoint") rep' -> verifiedCheckpoint byHash rep' = Ok cp ->
    walkProviderAgents true answers base (lf_provider f) (ck_Size cp) (lf_concurrency f) (Ok raw) ->
    matches = (if lf_live f then reduceToLive raw else raw) ->
    match results with
    | None => lf_verify f = false
    | Some out => lf_verify f = true /\ verifyMatches answers base matches (makeReceiptVerifier as_point keys) (lf_concurrency f) out
    end -> list_run answers f (Ok {| ls_checkpoint := cp; ls_matches := matches; ls_results := results |}).

(** The exit code 0 of a listing with [-verify]. *)
Definition all_verified (l : Listing) : bool := match ls_results l with Some out => forallb vr_OK out | None => true end.
End Main.
