(* ===== verification/AnsWalkSpec.v ===== *)
(** Theorems about the listing of [cmd/ans-verify]: against a server that serves
    the tiles of a log, every run of the worker pool gives the matches of that
    log, and for a log the service can reach the live listing is exact. *)
From stdpp Require Import gmap sorting relations.
From S2P Require Import Prelude GoStrings Utf8 GoRegexp GoEncoding GoJSON GoJSONSpec Jcs GoURL AnsName Discovery TlEvent TlEnvelope TlEnvelopeSpec Sha256 RaEvents Jws JwsSpec TlStore TlLog TlLogInv TlLogSpec LogNote P256 Merkle Receipt WorkPool AnsVerify.

#[local] Set Default Goal Selector "!".
#[local] Open Scope Z_scope.

(** ** The matches of a list of leaves *)

Section Matches.
Context `{U : UnicodeTables} `{L : TileLayout}.

Definition match_of (index : Z) (id : agentIdentity) (leaf : string) : AgentMatch :=
  {| am_LeafIndex := index; am_AgentID := id_AgentID id; am_AnsName := id_AnsName id; am_Host := id_Host id; am_EventType := id_EventType id;
     am_LeafBytes := Some leaf |}.

Lemma tile_matches_app p base xs ys :
  tile_matches p base (xs ++ ys) = tile_matches p base xs ++ tile_matches p (base + Z.of_nat (length xs)) ys.
Proof.
  revert base. induction xs as [|x xs IH]; intros base; cbn [tile_matches app length].
  - by rewrite Z.add_0_r.
  - replace (base + Z.of_nat (S (length xs))) with (base + 1 + Z.of_nat (length xs)) by lia.
    destruct (extractAgentIdentity x); [destruct (providerMatches _ _)|]; by rewrite IH.
Qed.

Lemma tile_matches_elem p base D m :
  m ∈ tile_matches p base D <->
  exists i leaf id, D !! i = Some leaf /\ extractAgentIdentity leaf = Some id /\ providerMatches (id_Host id) p = true /\ m = match_of (base + Z.of_nat i) id leaf.
Proof.
  revert base. induction D as [|x D IH]; intros base; cbn [tile_matches].
  - split; [by intros ?%elem_of_nil|by intros (i & leaf & id & ? & _)].
  - assert (Hrest : m ∈ tile_matches p (base + 1) D <-> exists i leaf id, (x :: D) !! S i = Some leaf /\ extractAgentIdentity leaf = Some id /\
      providerMatches (id_Host id) p = true /\ m = match_of (base + Z.of_nat (S i)) id leaf).
    { rewrite IH. cbn. split; intros (i & leaf & id & ? & ? & ? & ->); exists i, leaf, id; split_and!; try done; f_equal; lia. }
    assert (Hsplit : (exists i leaf id, (x :: D) !! i = Some leaf /\ extractAgentIdentity leaf = Some id /\ providerMatches (id_Host id) p = true /\
        m = match_of (base + Z.of_nat i) id leaf) <->
      (exists id, extractAgentIdentity x = Some id /\ providerMatches (id_Host id) p = true /\ m = match_of base id x) \/ m ∈ tile_matches p (base + 1) D).
    { rewrite Hrest. split.
      - intros ([|i] & leaf & id & H1 & H2 & H3 & H4); [left|right; by exists i, leaf, id].
        injection H1 as ->. exists id. split_and!; [done..|]. rewrite H4. f_equal. lia.
      - intros [(id & H1 & H2 & H3)|(i & leaf & id & H)]; [|by exists (S i), leaf, id].
        exists O, x, id. split_and!; [done..|]. rewrite H3. f_equal. lia. }
    rewrite Hsplit. destruct (extractAgentIdentity x) as [id|]; [destruct (providerMatches (id_Host id) p) eqn:Ep|].
    + rewrite elem_of_cons. split; [intros [->|H]; [left; by exists id|by right]|intros [(id' & [= <-] & _ & ->)|H]; [by left|by right]].
    + split; [by right|intros [(id' & [= <-] & ? & _)|H]; [congruence|done]].
    + split; [by right|intros [(id' & ? & _)|H]; done].
Qed.

(** Indices grow along the list. *)
Definition before (a b : AgentMatch) : Prop := am_LeafIndex a < am_LeafIndex b.

Lemma tile_matches_sorted p base D : StronglySorted before (tile_matches p base D).
Proof.
  revert base. induction D as [|x D IH]; intros base; cbn [tile_matches]; [constructor|].
  destruct (extractAgentIdentity x) as [id|]; [destruct (providerMatches _ _)|]; try apply IH.
  constructor; [apply IH|]. apply Forall_forall. intros m (i & leaf & id' & _ & _ & _ & ->)%tile_matches_elem. unfold before. cbn. lia.
Qed.

(** ** The walk against a server that serves a log *)

Definition bundle (D : list string) (j : nat) : list string := take 256 (drop (256 * j) D).

(** Every tile request is answered, with the entries of the tile. *)
Definition serves_log (answers : string -> http_reply -> Prop) (baseURL : string) (D : list string) : Prop :=
  forall j, (256 * j < length D)%nat ->
    (exists rep, answers (baseURL +:+ "/" +:+ tile_path (Z.of_nat (length D)) (Z.of_nat j)) rep) /\
    forall rep, answers (baseURL +:+ "/" +:+ tile_path (Z.of_nat (length D)) (Z.of_nat j)) rep ->
      exists body, rep = Reply StatusOK body /\ Z.of_nat (String.length body) <= maxResponseBytes /\ EntryBundle_UnmarshalText body = Some (bundle D j).

Lemma scan_bundles p D k idx slots :
  length slots = k -> (length D <= 256 * k)%nat -> (forall i, (i < k)%nat -> slots !! i = Some (Some (Ok (bundle D i)))) ->
  scan_slots p idx slots = Ok (tile_matches p (idx * EntryBundleWidth) D).
Proof.
  revert D idx slots. induction k as [|k IH]; intros D idx slots Hl HD Hs.
  - destruct slots; [|done]. destruct D; [done|cbn in HD; lia].
  - destruct slots as [|s0 slots]; [done|]. pose proof (Hs 0%nat ltac:(lia)) as [= ->]. cbn [scan_slots].
    rewrite (IH (drop 256 D)); [|by injection Hl|rewrite length_drop; lia|].
    + cbn [mbind result_bind]. f_equal. unfold bundle. rewrite Nat.mul_0_r, drop_0.
      destruct (decide (length D < 256)%nat).
      * rewrite (drop_ge D) by lia. cbn [tile_matches]. by rewrite app_nil_r, take_ge by lia.
      * rewrite <-(take_drop 256 D) at 3. rewrite tile_matches_app, length_take. f_equal. f_equal. unfold EntryBundleWidth. lia.
    + intros i Hi. specialize (Hs (S i) ltac:(lia)). change (slots !! i = Some (Some (Ok (bundle D (S i))))) in Hs. rewrite Hs. unfold bundle. rewrite drop_drop. replace (256 + 256 * i)%nat with (256 * S i)%nat by lia. done.
Qed.

Definition tile_count (D : list string) : nat := Z.to_nat (nTiles (Z.of_nat (length D))).

Lemma tile_count_spec D j :
  Z.of_nat (length D) + 255 < 2 ^ 64 -> (length D <= 256 * tile_count D)%nat /\ ((j < tile_count D)%nat <-> (256 * j < length D)%nat).
Proof.
  intros H. unfold tile_count, nTiles, EntryBundleWidth. rewrite Z.mod_small by lia.
  pose proof (Z.div_mod (Z.of_nat (length D) + 256 - 1) 256 ltac:(lia)). pose proof (Z.mod_pos_bound (Z.of_nat (length D) + 256 - 1) 256 ltac:(lia)).
  split; [lia|]. split; lia.
Qed.

Lemma read_tile_honest `{!TileLayoutLaws L} D j body :
  (256 * j < length D)%nat -> Z.of_nat (String.length body) <= maxResponseBytes -> EntryBundle_UnmarshalText body = Some (bundle D j) ->
  read_tile (Z.of_nat (length D)) (Z.of_nat j) (Reply StatusOK body) = Ok (bundle D j).
Proof.
  intros Hj Hb Hu. unfold read_tile, httpGetBytes. rewrite Z.eqb_refl. destruct (Z.ltb_spec maxResponseBytes (Z.of_nat (String.length body))); [lia|].
  cbn [negb]. unfold decodeEntryBundle. rewrite Hu, partial_size_law by (unfold EntryBundleWidth; lia).
  assert (Hlen : length (bundle D j) = Nat.min 256 (length D - 256 * j)) by (unfold bundle; by rewrite length_take, length_drop).
  rewrite Hlen. unfold EntryBundleWidth. destruct (Z.leb_spec ((Z.of_nat j + 1) * 256) (Z.of_nat (length D))).
  - rewrite Z.eqb_refl. cbn [negb]. destruct (Z.eqb_spec (Z.of_nat (Nat.min 256 (length D - 256 * j))) 256); [done|lia].
  - destruct (Z.eqb_spec (Z.of_nat (length D) - Z.of_nat j * 256) 0); [lia|].
    destruct (Z.eqb_spec (Z.of_nat (Nat.min 256 (length D - 256 * j))) (Z.of_nat (length D) - Z.of_nat j * 256)); [done|lia].
Qed.

Lemma workers_pos c : (0 < Z.to_nat (clampConcurrency c))%nat.
Proof. unfold clampConcurrency. repeat case_match; b2p; lia. Qed.

(** What one job gives when the context is alive. *)
Lemma honest_job `{!TileLayoutLaws L} answers baseURL D j r :
  serves_log answers baseURL D -> (256 * j < length D)%nat ->
  js_work (walk_jobs answers baseURL (Z.of_nat (length D))) false j r -> r = Ok (bundle D j).
Proof.
  intros Hs Hj (rep & [Ha|[? _]] & ->); [|done]. destruct (proj2 (Hs j Hj) rep Ha) as (body & -> & Hb & Hu). by apply read_tile_honest.
Qed.

Lemma walk_honest `{!TileLayoutLaws L} answers baseURL provider D c res :
  Z.of_nat (length D) + 255 < 2 ^ 64 -> serves_log answers baseURL D ->
  walkProviderAgents true answers baseURL provider (Z.of_nat (length D)) c res -> res = Ok (tile_matches provider 0 D).
Proof.
  intros HD Hs. unfold walkProviderAgents. destruct (Z.eqb_spec (Z.of_nat (length D)) 0) as [E|E].
  { intros ->. by destruct D. }
  intros (p & Hr & Hf & Hx & ->). specialize (Hx eq_refl). set (J := walk_jobs _ _ _) in *.
  assert (Hcount : forall j, (j < js_count J)%nat <-> (256 * j < length D)%nat) by (intros j; by apply tile_count_spec).
  assert (He : p_firstErr p = None).
  { destruct (p_firstErr p) as [e|] eqn:Ee; [|done]. exfalso.
    destruct (pool_trouble J _ _ p Hr) as [?|(j & r & e' & Hj & Hw & Hfail)]; [by rewrite Ee|congruence|].
    apply honest_job in Hw; [|done|by apply Hcount]. by rewrite Hw in Hfail. }
  unfold walk_result. rewrite He, Hx. change 0 with (0 * EntryBundleWidth) at 2.
  apply (scan_bundles _ _ (js_count J)); [by apply (pi_length J), (pool_inv_run _ _ _ _ Hr)|by apply (tile_count_spec D 0)|].
  intros j Hj. destruct (pool_result J _ _ p (workers_pos c) Hr Hf He) with (j := j) as (r & Hslot & Hw & _); [done|done|].
  rewrite Hslot. apply honest_job in Hw; [|done|by apply Hcount]. by rewrite Hw.
Qed.

Lemma walk_returns answers baseURL provider D c :
  Z.of_nat (length D) + 255 < 2 ^ 64 -> serves_log answers baseURL D ->
  exists res, walkProviderAgents true answers baseURL provider (Z.of_nat (length D)) c res.
Proof.
  intros HD Hs. unfold walkProviderAgents. destruct (Z.of_nat (length D) =? 0); [by eexists|].
  set (J := walk_jobs _ _ _). destruct (pool_finishes J (Z.to_nat (clampConcurrency c)) (Z.to_nat (clampConcurrency c))) as (p & Hr & Hf & Hx);
    [apply workers_pos..| |by exists (walk_result provider p), p].
  intros d j Hj. assert (256 * j < length D)%nat as Hj' by by apply tile_count_spec.
  destruct (Hs j Hj') as [[rep Ha] _]. exists (read_tile (Z.of_nat (length D)) (Z.of_nat j) rep), rep. by split; [left|].
Qed.
End Matches.

(** ** What the walk reads off a leaf *)

Section Leaves.
Context `{U : UnicodeTables} `{J : JCS, !JCSLaws J}.

Definition identity_read (env : Signable) : agentIdentity :=
  {| id_AgentID := View_AgentID env; id_AnsName := View_AnsName env; id_Host := View_AgentFQDN env; id_EventType := View_EventType env |}.

Lemma decodes_host a init : decodes eq (dec_struct (fun m h => field "host" dec_str h m)) init (enc_agent a) (ea_Host a).
Proof. eapply decodes_step; [distinct_names|in_fields|apply decodes_str]. Qed.

Lemma decodes_agentIdentity {T} (enc : T -> json) (e : TLEvent T) :
  decodes eq dec_agentIdentity zero_agentIdentity (enc_event enc e)
    {| id_AgentID := te_AnsID e; id_AnsName := te_AnsName e; id_Host := agent_host e; id_EventType := te_EventType e |}.
Proof.
  unfold dec_agentIdentity. apply decodes_struct. intros m' Hm. eexists. split; [|reflexivity]. cbn [id_AgentID id_AnsName id_Host id_EventType zero_agentIdentity].
  destruct (field_obj_rel eq "agent" (dec_struct (fun m h => field "host" dec_str h m)) "" (agent_host e)
    (enc_agent <$> te_Agent e) _ _ Hm) as (v & Hv & ->); [distinct_names|in_fields|unfold agent_host; destruct (te_Agent e); [apply decodes_host|done]|].
  rewrite Hv. decode_fields Hm. done.
Qed.

Lemma obj_absent name fs : obj ((name, None) :: fs) = obj fs.
Proof. done. Qed.

Lemma EventV2_named e : EventV2_Validate (Some e) = Ok tt -> te_AnsName e <> "".
Proof. cbn [EventV2_Validate]. destruct (String.eqb_spec (te_AnsName e) ""); [|done]. repeat (case_if; [done|]). done. Qed.

Lemma EventV1_named e : EventV1_Validate (Some e) = Ok tt -> te_AnsName e <> "".
Proof. cbn [EventV1_Validate]. destruct (String.eqb_spec (te_AnsName e) ""); [|done]. repeat (case_if; [done|]). done. Qed.

Lemma decodes_no_agent (e : IdentityEvent) :
  decodes eq dec_agentIdentity zero_agentIdentity (enc_identity e)
    {| id_AgentID := ""; id_AnsName := ""; id_Host := ""; id_EventType := iv_EventType e |}.
Proof.
  unfold dec_agentIdentity, enc_identity. rewrite <-(obj_absent "ansId"), <-(obj_absent "ansName"), <-(obj_absent "agent").
  apply decodes_struct. intros m' Hm. eexists. split; [|reflexivity]. cbn [id_AgentID id_AnsName id_Host id_EventType zero_agentIdentity].
  decode_fields Hm. done.
Qed.

(** A leaf seals an agent event, which the walk identifies, or an identity event,
    which it passes over. *)
Lemma extract_submitted x raw env canonical :
  submitted x raw env canonical -> extractAgentIdentity raw = if is_agent env then Some (identity_read env) else None.
Proof.
  intros Hx. pose proof (ParseAndBuild_built _ _ _ _ _ _ _ _ (proj1 (sm_raID _ _ _ _ Hx)) (sm_built _ _ _ _ Hx)) as Hb.
  destruct Hx as [_ [Hk _] [Hsg _] [Hlog _] [Hatt _] _ HL]. apply LeafBytes_jcs in HL; [|by eapply built_json].
  unfold extractAgentIdentity. destruct env as [e|e|e]; destruct Hb as (inner & -> & _ & Hv & _); cbn [setOuterSignature enc_signable] in HL.
  - edestruct (Unmarshal_decodes eq (at_event dec_agentIdentity) zero_agentIdentity) as (i & -> & <-);
      [exact HL|eapply decodes_at_event; [reflexivity|apply (decodes_agentIdentity enc_attestations inner)]|].
    cbn [mbind option_bind id_AnsName id_Host]. destruct (String.eqb_spec (te_AnsName inner) ""); [|done]. exfalso. by eapply EventV2_named.
  - edestruct (Unmarshal_decodes eq (at_event dec_agentIdentity) zero_agentIdentity) as (i & -> & <-);
      [exact HL|eapply decodes_at_event; [reflexivity|apply (decodes_agentIdentity enc_attestations1 inner)]|].
    cbn [mbind option_bind id_AnsName id_Host]. destruct (String.eqb_spec (te_AnsName inner) ""); [|done]. exfalso. by eapply EventV1_named.
  - edestruct (Unmarshal_decodes eq (at_event dec_agentIdentity) zero_agentIdentity) as (i & -> & <-);
      [exact HL|eapply decodes_at_event; [reflexivity|apply (decodes_no_agent inner)]|]. done.
Qed.

(** The host and the name of a sealed agent event. *)
Lemma submitted_host x raw env canonical : submitted x raw env canonical -> utf8_ok (View_AgentFQDN env) = true.
Proof.
  intros Hx. pose proof (ParseAndBuild_built _ _ _ _ _ _ _ _ (proj1 (sm_raID _ _ _ _ Hx)) (sm_built _ _ _ _ Hx)) as Hb.
  destruct env as [e|e|e]; destruct Hb as (inner & -> & Hok & _); [..|done];
    unfold event_ok in Hok; cbn; unfold agent_host; destruct (te_Agent inner) as [a|] eqn:Ea; try done; cbn in *; unfold agent_ok in *; tauto.
Qed.

Lemma submitted_named x raw env canonical : submitted x raw env canonical -> is_agent env = true -> View_AnsName env <> "".
Proof.
  intros Hx Ha. pose proof (ParseAndBuild_built _ _ _ _ _ _ _ _ (proj1 (sm_raID _ _ _ _ Hx)) (sm_built _ _ _ _ Hx)) as Hb.
  destruct env as [e|e|e]; [..|done]; destruct Hb as (inner & -> & _ & Hv & _); cbn; intros E; [by eapply EventV2_named|by eapply EventV1_named].
Qed.
End Leaves.

(** ** Hosts *)

Lemma encode_runes_snoc rs r : encode_runes (rs ++ [r]) = encode_runes rs +:+ EncodeRune r.
Proof. induction rs as [|x rs IH]; cbn; [by rewrite app_nil_r_s|]. by rewrite IH, app_assoc_s. Qed.

Lemma trim_dot_snoc w c : trim_dot (w +:+ String c "") = if Ascii.eqb "." c then w else w +:+ String c "".
Proof.
  unfold trim_dot. induction w as [|d w IH]; [done|]. rewrite app_cons_s.
  transitivity (String d (TrimSuffixByte (w +:+ String c "") ".")); [by destruct w|]. rewrite IH. by destruct (Ascii.eqb "." c).
Qed.

Lemma not_dot z : 0 <= z < 256 -> z <> 46 -> Ascii.eqb "." (chr z) = false.
Proof. intros Hz Hn. apply Ascii.eqb_neq. intros E. apply Hn. rewrite <-(byteZ_chr z Hz), <-E. done. Qed.

(** A rune other than the full stop does not end in its byte. *)
Lemma EncodeRune_last r : r <> 46 -> exists w c, EncodeRune r = w +:+ String c "" /\ Ascii.eqb "." c = false.
Proof.
  intros Hr. assert (Hlow : forall z, Ascii.eqb "." (chr (Z.lor 0x80 (Z.land z 0x3F))) = false).
  { intros z. rewrite land_3F_mod, lor_80 by (apply Z.mod_pos_bound; lia). pose proof (Z.mod_pos_bound z 64 ltac:(lia)). apply not_dot; lia. }
  unfold EncodeRune. set (r' := if inR 0xD800 r 0xDFFF || negb (inR 0 r 0x10FFFF) then RuneError else r). assert (Hr' : r' <> 46 /\ 0 <= r').
  { unfold r', RuneError, inR. destruct (Z.leb_spec 0 r), (Z.leb_spec r 0x10FFFF); cbn [andb negb orb]; rewrite ?orb_true_r; try lia. case_if; lia. }
  clearbody r'. destruct (Z.ltb_spec r' 0x80); [exists "", (chr r'); split; [done|apply not_dot; lia]|].
  destruct (r' <? 0x800); [by eexists (String _ ""), _|]. destruct (r' <? 0x10000); [by eexists (String _ (String _ "")), _|by eexists (String _ (String _ (String _ ""))), _].
Qed.

Lemma trim_dot_encode rs r : r <> 46 -> trim_dot (encode_runes (rs ++ [r])) = encode_runes (rs ++ [r]).
Proof. intros (w & c & E & Hc)%EncodeRune_last. rewrite encode_runes_snoc, E, <-app_assoc_s, trim_dot_snoc. by rewrite Hc. Qed.

Lemma trim_dot_encode_dot rs : trim_dot (encode_runes (rs ++ [46])) = encode_runes rs.
Proof. rewrite encode_runes_snoc. change (EncodeRune 46) with (String "." ""). by rewrite trim_dot_snoc. Qed.

Section Hosts.
Context `{U : UnicodeTables, !UnicodeLaws U}.

Lemma rune_lower_dot r : rune_lower r = 46 -> r = 46.
Proof.
  unfold rune_lower, inR. destruct (Z.leb_spec r 0x7F); [case_if; b2p; lia|]. intros E.
  destruct (decide (r = 0x130)) as [->|]; [by rewrite uni_lower_0130 in E|]. destruct (decide (r = 0x212A)) as [->|]; [by rewrite uni_lower_212A in E|].
  pose proof (uni_lower_other r ltac:(lia) ltac:(done) ltac:(done)). lia.
Qed.

(** Trimming the root dot and lowering commute on text. *)
Lemma lower_trim_dot h : utf8_ok h = true -> ToLower (trim_dot h) = host_key h.
Proof.
  intros H%String.eqb_eq. unfold host_key. rewrite <-H at 1. pose proof (runes_valid h) as Hv. unfold ToLower.
  destruct (runes h) as [|r rs _] using rev_ind; [done|]. rewrite fmap_app. cbn [fmap list_fmap]. apply Forall_app in Hv as [Hv Hr].
  destruct (decide (r = 46)) as [->|Hn].
  - rewrite trim_dot_encode_dot, runes_encode by done. change (rune_lower 46) with 46. by rewrite trim_dot_encode_dot.
  - rewrite !trim_dot_encode by (auto using rune_lower_dot). rewrite runes_encode by by apply Forall_app. by rewrite fmap_app.
Qed.

(** A host is the provider's, or below it. *)
Definition under (provider host : string) : Prop :=
  let s := ToLower (TrimSuffixByte provider ".") in host = s \/ exists sub, host = sub +:+ String "." s.

(** The provider names a host. *)
Definition names_host (provider : string) : Prop := ToLower (TrimSuffixByte provider ".") <> "".

Lemma HasSuffix_spec s suffix : HasSuffix s suffix = true <-> exists w, s = w +:+ suffix.
Proof.
  unfold HasSuffix. split.
  - intros [H%Nat.leb_le E%String.eqb_eq]%andb_true_iff. exists (str_take (String.length s - String.length suffix) s). by etrans; [symmetry; apply (str_take_drop (String.length s - String.length suffix))|rewrite E].
  - intros [w ->]. rewrite length_app_s. apply andb_true_iff. split; [apply Nat.leb_le; lia|].
    replace (String.length w + String.length suffix - String.length suffix)%nat with (String.length w) by lia. rewrite str_drop_app. by rewrite String.eqb_refl.
Qed.

Lemma providerMatches_spec provider host :
  names_host provider -> utf8_ok host = true -> (providerMatches host provider = true <-> under provider (host_key host)).
Proof.
  intros Hp Hh. pose proof (lower_trim_dot host Hh) as E. unfold trim_dot in E. unfold providerMatches, under, names_host in *.
  destruct (String.eqb_spec provider "") as [->|_]; [done|]. rewrite orb_false_r. rewrite E.
  set (s := ToLower (TrimSuffixByte provider ".")) in *. destruct (String.eqb_spec host "") as [->|_].
  - split; [done|]. change (host_key "") with "". intros [E'|[[|] E']]; [by destruct Hp|done|done].
  - destruct (String.eqb_spec (host_key host) s); [by split; [left|]|]. rewrite HasSuffix_spec. split; [by right|by intros [?|?]].
Qed.
End Hosts.

(** ** The reduction to live agents *)

Lemma latest_snoc ms x :
  latest_matches (ms ++ [x]) =
  if String.eqb (am_AnsName x) "" then latest_matches ms else
  match latest_matches ms !! am_AnsName x with
  | Some prev => if am_LeafIndex prev <? am_LeafIndex x then <[am_AnsName x := x]> (latest_matches ms) else latest_matches ms
  | None => <[am_AnsName x := x]> (latest_matches ms)
  end.
Proof. unfold latest_matches. by rewrite fold_left_app. Qed.

(** [m] is the last of the matches under its name. *)
Definition newest (ms : list AgentMatch) (m : AgentMatch) : Prop :=
  m ∈ ms /\ forall m', m' ∈ ms -> am_AnsName m' = am_AnsName m -> am_LeafIndex m' <= am_LeafIndex m.

Lemma latest_spec ms n m :
  StronglySorted before ms -> (latest_matches ms !! n = Some m <-> n <> "" /\ am_AnsName m = n /\ newest ms m).
Proof.
  intros Hs. revert n m. induction ms as [|x ms IH] using rev_ind; intros n m.
  { change (latest_matches [] !! n) with ((∅ : gmap string AgentMatch) !! n). rewrite lookup_empty. split; [done|]. intros (_ & _ & H & _). by apply elem_of_nil in H. }
  assert (Hx : forall y, y ∈ ms -> am_LeafIndex y < am_LeafIndex x) by (intros y Hy; by apply (StronglySorted_app_1_elem_of before ms [x] y x Hs Hy); left).
  specialize (IH (StronglySorted_app_1_l _ _ _ Hs)). rewrite latest_snoc.
  assert (Hold : am_AnsName m <> am_AnsName x -> newest (ms ++ [x]) m <-> newest ms m).
  { intros Hne. unfold newest. rewrite elem_of_app, list_elem_of_singleton. split.
    - intros [[H| ->] Hm]; [|done]. split; [done|]. intros m' H' E. by apply Hm; [apply elem_of_app; left|].
    - intros [H Hm]. split; [by left|]. intros m' [H'|H']%elem_of_app E; [by apply Hm|]. apply list_elem_of_singleton in H'. congruence. }
  destruct (String.eqb_spec (am_AnsName x) "") as [Ex|Ex].
  { rewrite IH. split; intros (Hn & Hm & H); (split; [done|]; split; [done|]); apply Hold; congruence. }
  assert (match latest_matches ms !! am_AnsName x with
          | Some prev => if am_LeafIndex prev <? am_LeafIndex x then <[am_AnsName x := x]> (latest_matches ms) else latest_matches ms
          | None => <[am_AnsName x := x]> (latest_matches ms) end = <[am_AnsName x := x]> (latest_matches ms)) as ->.
  { destruct (latest_matches ms !! am_AnsName x) as [prev|] eqn:Ep; [|done]. apply IH in Ep as (_ & _ & Hin & _). apply Hx in Hin.
    destruct (Z.ltb_spec (am_LeafIndex prev) (am_LeafIndex x)); [done|lia]. }
  rewrite lookup_insert_Some, IH. split.
  - intros [[<- <-]|(Hne & Hn & Hm & H)]; [|split; [done|]; split; [done|]; apply Hold; congruence].
    split; [done|]. split; [done|]. split; [apply elem_of_app; right; by left|].
    intros m' [H'%Hx|H']%elem_of_app _; [lia|]. apply list_elem_of_singleton in H' as ->. lia.
  - intros (Hn & Hm & H). destruct (decide (am_AnsName x = n)) as [E|E].
    + left. split; [done|]. destruct H as [[H|H]%elem_of_app Hmax]; [|by apply list_elem_of_singleton in H].
      pose proof (Hx m H). specialize (Hmax x ltac:(apply elem_of_app; right; by left) ltac:(congruence)). lia.
    + right. split; [done|]. split; [done|]. split; [done|]. apply Hold; [congruence|done].
Qed.

Lemma latest_matches_some ms m : m ∈ ms -> am_AnsName m <> "" -> is_Some (latest_matches ms !! am_AnsName m).
Proof.
  intros Hin Hn. induction ms as [|x ms IH] using rev_ind; [by apply elem_of_nil in Hin|]. rewrite latest_snoc.
  assert (Hold : m ∈ ms -> forall x', is_Some (<[am_AnsName x := x']> (latest_matches ms) !! am_AnsName m)).
  { intros H x'. destruct (decide (am_AnsName x = am_AnsName m)) as [->|]; [by rewrite lookup_insert_eq|by rewrite lookup_insert_ne; [apply IH|]]. }
  apply elem_of_app in Hin as [Hin|Hin].
  - destruct (String.eqb _ _); [by apply IH|]. destruct (latest_matches ms !! am_AnsName x); [case_if; auto|auto].
  - apply list_elem_of_singleton in Hin as <-. destruct (String.eqb_spec (am_AnsName m) ""); [done|].
    destruct (latest_matches ms !! am_AnsName m) eqn:E; [case_if; [by rewrite lookup_insert_eq|by rewrite E]|by rewrite lookup_insert_eq].
Qed.

Lemma reduceToLive_elem ms m :
  StronglySorted before ms ->
  (m ∈ reduceToLive ms <-> m ∈ ms /\ (am_AnsName m = "" \/ newest ms m /\ terminalEventTypes (am_EventType m) = false)).
Proof.
  intros Hs. unfold reduceToLive. rewrite merge_sort_Permutation, elem_of_app, !list_elem_of_filter, String.eqb_eq. split.
  - intros [[H1 H2]|[H1 H2]]; [by split; [|left]|]. apply list_elem_of_fmap in H2 as ([n m'] & -> & H2). apply elem_of_map_to_list in H2.
    apply latest_spec in H2 as (_ & _ & H2); [|done]. split; [apply H2|by right].
  - intros [H [?|[H1 H2]]]; [by left|]. destruct (decide (am_AnsName m = "")); [by left|]. right. split; [done|].
    apply list_elem_of_fmap. exists (am_AnsName m, m). split; [done|]. apply elem_of_map_to_list. by apply latest_spec.
Qed.

Lemma reduceToLive_sorted ms : StronglySorted by_leaf (reduceToLive ms).
Proof.
  apply StronglySorted_merge_sort; [|intros a b; unfold by_leaf; lia]. intros a b c. unfold by_leaf. lia.
Qed.

(** ** The live listing of a reachable log *)

Section Listing.
Context `{U : UnicodeTables, !UnicodeLaws U} `{J : JCS, !JCSLaws J} `{S : SigSchemes} `{X : PemX509, KP : !KeyParser, JO : !Jose, !JoseLaws JO} `{SJ : SqliteJSON}.
Context `{L : TileLayout, !TileLayoutLaws L}.

Definition agent_at (D : list string) (i : nat) : option agent_leaf := D !! i ≫= agent_leaf_of.

(** The match of a leaf agrees with the leaf. *)
Record reads_leaf (a : agent_leaf) (id : agentIdentity) : Prop := {
  rl_agent : id_AgentID id = al_AgentID a;
  rl_name : id_AnsName id = al_AnsName a;
  rl_named : id_AnsName id <> "";
  rl_type : id_EventType id = al_Type a;
  rl_host : host_key (id_Host id) = al_Host a;
  rl_text : utf8_ok (id_Host id) = true
}.

Lemma leaf_read s raw :
  log_inv s -> raw ∈ s_leaves s ->
  match agent_leaf_of raw with
  | Some a => exists id, extractAgentIdentity raw = Some id /\ reads_leaf a id
  | None => extractAgentIdentity raw = None
  end.
Proof.
  intros Hs Hin. pose proof (mi_sealed s (li_mirror s Hs)) as Hse. rewrite Forall_forall in Hse. destruct (Hse raw Hin) as (x & env & c & Hx & _).
  rewrite (submitted_agent_leaf _ _ _ _ Hx), (extract_submitted _ _ _ _ Hx). destruct (is_agent env) eqn:Ha; [|done].
  exists (identity_read env). split; [done|]. split; try done; [by eapply submitted_named|by eapply submitted_host].
Qed.

(** A prefix of a reachable log, as a checkpoint commits to it. *)
Definition committed (s : LogState) (D : list string) : Prop := rtc tl_step empty_log s /\ D `prefix_of` s_leaves s /\ Z.of_nat (length D) + 255 < 2 ^ 64.

(** The name has a leaf under the provider and no leaf that ends it. *)
Definition live_name (D : list string) (provider name : string) : Prop :=
  (exists i a, agent_at D i = Some a /\ al_AnsName a = name /\ under provider (al_Host a)) /\
  (forall j b, agent_at D j = Some b -> al_AnsName b = name -> terminalEventTypes (al_Type b) = false).

(** [m] shows the last leaf of its name. *)
Definition shows_last (D : list string) (m : AgentMatch) : Prop :=
  exists i a raw, am_LeafIndex m = Z.of_nat i /\ D !! i = Some raw /\ am_LeafBytes m = Some raw /\ agent_at D i = Some a /\
    am_AgentID m = al_AgentID a /\ am_AnsName m = al_AnsName a /\ am_EventType m = al_Type a /\
    forall j b, agent_at D j = Some b -> same_subject a b -> (j <= i)%nat.

Lemma terminal_last a b : agentEventTransitionAllowed a b = true -> terminalEventTypes a = true -> terminalEventTypes b = true.
Proof.
  unfold terminalEventTypes. intros H [->%String.eqb_eq| ->%String.eqb_eq]%orb_true_iff; [done|].
  unfold agentEventTransitionAllowed in H. destruct (String.eqb b TypeAgentRenewed); [by vm_compute in H|].
  destruct (String.eqb b TypeAgentDeprecated); [by vm_compute in H|]. destruct (String.eqb_spec b TypeAgentRevoked) as [E|_]; [by rewrite E|by vm_compute in H].
Qed.

Section Committed.
Context s D (Hc : committed s D).

Lemma committed_lifecycle i j a b : (i < j)%nat -> agent_at D i = Some a -> agent_at D j = Some b -> same_subject a b -> follows a b.
Proof.
  destruct Hc as (Hr & Hp & _). pose proof (li_lifecycle s (log_inv_reachable s Hr)) as Hl. unfold agent_at. intros Hij Hi Hj.
  apply (Hl i j a b Hij).
  - apply bind_Some in Hi as (raw & Hi & Ha). by rewrite (prefix_lookup_Some _ _ _ _ Hi Hp).
  - apply bind_Some in Hj as (raw & Hj & Ha). by rewrite (prefix_lookup_Some _ _ _ _ Hj Hp).
Qed.

Lemma committed_read i raw :
  D !! i = Some raw ->
  match agent_leaf_of raw with Some a => exists id, extractAgentIdentity raw = Some id /\ reads_leaf a id | None => extractAgentIdentity raw = None end.
Proof.
  intros Hi. destruct Hc as (Hr & Hp & _). apply (leaf_read s); [by apply log_inv_reachable|].
  eapply list_elem_of_lookup_2. by eapply prefix_lookup_Some.
Qed.

(** The matches under the provider are its leaves. *)
Lemma matches_leaf provider m :
  names_host provider ->
  (m ∈ tile_matches provider 0 D <->
   exists i raw a id, D !! i = Some raw /\ agent_leaf_of raw = Some a /\ extractAgentIdentity raw = Some id /\ reads_leaf a id /\
     under provider (al_Host a) /\ m = match_of (Z.of_nat i) id raw).
Proof.
  intros Hp. rewrite tile_matches_elem. split.
  - intros (i & raw & id & Hi & He & Hm & ->). pose proof (committed_read i raw Hi) as Hl. destruct (agent_leaf_of raw) as [a|] eqn:Ea; [|congruence].
    destruct Hl as (id' & He' & Hrd). assert (id' = id) as -> by congruence. exists i, raw, a, id. split_and!; try done.
    rewrite <-(rl_host _ _ Hrd). by apply providerMatches_spec; [|apply (rl_text _ _ Hrd)|].
  - intros (i & raw & a & id & Hi & Ha & He & Hrd & Hu & ->). exists i, raw, id. split_and!; try done.
    apply providerMatches_spec; [done|apply (rl_text _ _ Hrd)|]. by rewrite (rl_host _ _ Hrd).
Qed.

Lemma newest_last provider m :
  names_host provider -> newest (tile_matches provider 0 D) m -> shows_last D m /\
    (terminalEventTypes (am_EventType m) = false -> live_name D provider (am_AnsName m)).
Proof.
  intros Hp [Hm Hmax]. apply matches_leaf in Hm as (i & raw & a & id & Hi & Ha & He & Hrd & Hu & ->); [|done].
  assert (Hat : agent_at D i = Some a) by (unfold agent_at; by rewrite Hi).
  assert (Hlast : forall j b, agent_at D j = Some b -> same_subject a b -> (j <= i)%nat).
  { intros j b Hb Hsub. destruct (decide (j <= i)%nat) as [|Hlt]; [done|]. pose proof (committed_lifecycle i j a b ltac:(lia) Hat Hb Hsub) as Hf.
    apply bind_Some in Hb as (raw' & Hj & Hb). pose proof (committed_read j raw' Hj) as Hl. rewrite Hb in Hl. destruct Hl as (id' & He' & Hrd').
    specialize (Hmax (match_of (Z.of_nat j) id' raw')). cbn in Hmax. enough (Z.of_nat j <= Z.of_nat i) by lia. apply Hmax.
    - apply matches_leaf; [done|]. exists j, raw', b, id'. split_and!; try done. by rewrite <-(fo_host _ _ Hf).
    - by rewrite (rl_name _ _ Hrd), (rl_name _ _ Hrd'), (fo_name _ _ Hf). }
  split.
  - exists i, a, raw. cbn. split_and!; try done; [apply (rl_agent _ _ Hrd)|apply (rl_name _ _ Hrd)|apply (rl_type _ _ Hrd)].
  - cbn. rewrite (rl_name _ _ Hrd), (rl_type _ _ Hrd). intros Hlive. split; [by exists i, a|]. intros j b Hb Hn.
    assert (Hji : (j <= i)%nat) by (apply (Hlast j b Hb); by right). destruct (decide (j = i)) as [->|Hne]; [congruence|].
    pose proof (committed_lifecycle j i b a ltac:(lia) Hb Hat (or_intror Hn)) as Hf.
    destruct (terminalEventTypes (al_Type b)) eqn:Et; [|done]. rewrite (terminal_last _ _ (fo_allowed _ _ Hf) Et) in Hlive. done.
Qed.

(** Every name that is live has a newest match, which is not terminal. *)
Lemma live_newest provider name :
  names_host provider -> live_name D provider name ->
  exists m, newest (tile_matches provider 0 D) m /\ am_AnsName m = name /\ terminalEventTypes (am_EventType m) = false.
Proof.
  intros Hp [(i & a & Hat & Hn & Hu) Hlive]. set (ms := tile_matches provider 0 D). pose proof Hat as Hat'.
  apply bind_Some in Hat' as (raw & Hi & Ha). pose proof (committed_read i raw Hi) as Hl. rewrite Ha in Hl. destruct Hl as (id & He & Hrd).
  assert (Hin : match_of (Z.of_nat i) id raw ∈ ms) by (apply matches_leaf; [done|]; by exists i, raw, a, id).
  destruct (latest_matches ms !! name) as [m|] eqn:Em.
  - apply latest_spec in Em as (_ & Hm & Hnew); [|apply tile_matches_sorted]. exists m. split; [done|]. split; [done|].
    destruct Hnew as [(j & raw' & b & id' & Hj & Hb & _ & Hrd' & _ & ->)%matches_leaf _]; [|done]. cbn in *. rewrite (rl_type _ _ Hrd').
    apply (Hlive j b); [unfold agent_at; by rewrite Hj|]. by rewrite <-(rl_name _ _ Hrd').
  - exfalso. destruct (latest_matches_some ms (match_of (Z.of_nat i) id raw)) as [m E]; [done|by apply (rl_named _ _ Hrd)|].
    cbn in E. rewrite (rl_name _ _ Hrd), Hn in E. congruence.
Qed.
End Committed.

(** C18: the live listing is exact.  Let a server serve the tiles of a checkpoint of
    the log, that is of a prefix of what the log holds in any state it can reach,
    and let the provider name a host.  Then the walk over the tiles ends, whatever
    the order in which its workers fetch and the channel hands out the tiles, and
    every run of it gives the same matches; after the reduction a name is listed
    if and only if it has a leaf whose host is the provider's or below it and no
    leaf revokes or deprecates it; each row shows the last leaf of its name, and
    rows come in log order. *)
Theorem live_listing_exact s D answers baseURL provider concurrency :
  committed s D -> names_host provider -> serves_log answers baseURL D ->
  (exists res, walkProviderAgents true answers baseURL provider (Z.of_nat (length D)) concurrency res) /\
  exists raw, forall res, walkProviderAgents true answers baseURL provider (Z.of_nat (length D)) concurrency res ->
    res = Ok raw /\ StronglySorted by_leaf (reduceToLive raw) /\
    (forall name, (exists m, m ∈ reduceToLive raw /\ am_AnsName m = name) <-> live_name D provider name) /\
    (forall m, m ∈ reduceToLive raw -> shows_last D m).
Proof.
  intros Hc Hp Hs. pose proof Hc as (_ & _ & Hlen). split; [by apply walk_returns|]. exists (tile_matches provider 0 D). intros res Hres.
  pose proof (tile_matches_sorted provider 0 D) as Hso. split; [by apply (walk_honest answers baseURL provider D concurrency)|].
  split; [apply reduceToLive_sorted|].
  assert (Hel : forall m, m ∈ reduceToLive (tile_matches provider 0 D) <-> newest (tile_matches provider 0 D) m /\ terminalEventTypes (am_EventType m) = false).
  { intros m. rewrite reduceToLive_elem by done. split; [|intros [[? ?] ?]; split; [done|right; by repeat split]].
    intros [Hin [E|?]]; [|done]. apply (matches_leaf s D Hc) in Hin as (i & rw & a & id & _ & _ & _ & Hrd & _ & ->); [|done].
    by destruct (rl_named _ _ Hrd). }
  split; [|intros m [Hn _]%Hel; by apply (newest_last s D Hc provider m Hp)].
  intros name. split.
  - intros (m & [Hn Ht]%Hel & <-). by apply (newest_last s D Hc provider m Hp).
  - intros H. destruct (live_newest s D Hc provider name Hp H) as (m & Hn & Hm & Ht). exists m. split; [by apply Hel|done].
Qed.
End Listing.

(** ** A listing

    The log of one registered agent, in one partial tile. *)

#[local] Existing Instance latin_tables.
#[local] Existing Instance reference_jcs.
#[local] Existing Instance demo_schemes.
#[local] Existing Instance run_pem.
#[local] Existing Instance run_parser.
#[local] Existing Instance run_jose.
#[local] Existing Instance run_jose_laws.
#[local] Existing Instance run_sqlite.

#[local] Instance one_tile : TileLayout := {|
  PartialTileSize := fun _ idx n => if (idx + 1) * EntryBundleWidth <=? n then 0 else n - idx * EntryBundleWidth;
  EntriesPath := fun idx p => "tile/entries/" +:+ Itoa idx +:+ ".p/" +:+ Itoa p;
  EntryBundle_UnmarshalText := fun body => if String.eqb body "one" then Some (s_leaves run_registered) else None
|}.
#[local] Instance one_tile_laws : TileLayoutLaws one_tile.
Proof. split. done. Qed.

Definition one_answer (url : string) (rep : http_reply) : Prop := rep = Reply StatusOK "one".

Lemma run_committed : committed run_registered (s_leaves run_registered).
Proof. split; [apply run_registered_reached|]. split; [done|]. by vm_compute. Qed.

Lemma one_serves : serves_log one_answer "http://log" (s_leaves run_registered).
Proof.
  intros j Hj. assert (j = 0%nat) as -> by (change (length (s_leaves run_registered)) with 1%nat in Hj; lia).
  split; [by eexists|]. intros rep ->. exists "one". split; [done|]. split; [by vm_compute|by vm_compute].
Qed.

Lemma run_live : live_name (s_leaves run_registered) "example" "ans://v1.0.0.a.example".
Proof.
  split.
  - exists 0%nat. eexists. split; [by vm_compute|]. split; [done|]. right. by exists "a".
  - intros [|[|j]] b Hb _; [|done|done]. vm_compute in Hb. by injection Hb as <-.
Qed.

Lemma live_listing_exact_witness :
  exists raw m, (forall res, walkProviderAgents true one_answer "http://log" "example" 1 4 res -> res = Ok raw) /\
    m ∈ reduceToLive raw /\ am_AnsName m = "ans://v1.0.0.a.example".
Proof.
  destruct (live_listing_exact run_registered (s_leaves run_registered) one_answer "http://log" "example" 4 run_committed ltac:(by vm_compute) one_serves)
    as [[res0 H0] (raw & H)].
  destruct (H res0 H0) as (_ & _ & Hn & _). destruct (proj2 (Hn _) run_live) as (m & Hm & En). exists raw, m. split; [|done].
  intros res Hres. by apply (H res Hres).
Defined.
