(* ===== verification/AnsMetaSpec.v ===== *)
(** The metadata step of [cmd/ans-verify] against what the registration authority
    seals: the descriptor row a validated endpoint publishes is read back whole,
    and the checks of a sealed registration are the endpoints' own. *)
From stdpp Require Import gmap sorting.
From S2P Require Import Prelude GoStrings Utf8 GoRegexp GoEncoding GoJSON GoJSONSpec Jcs GoURL DomainErrors SemVer Endpoint AnsName Lifecycle Discovery TlEvent TlEnvelope TlEnvelopeSpec Sha256 RaEvents Jws TlStore TlLog TlLogInv LogNote P256 Merkle Receipt WorkPool SvcbRows AnsVerify.

#[local] Set Default Goal Selector "!".
#[local] Open Scope Z_scope.

(** ** The descriptor row of an endpoint *)

Section Rows.
Context `{U : UnicodeTables} `{F : CaseOrbits}.

Lemma protocol_lower p : Protocol_IsValid p = true -> ToLower (protocolToDNSAIDValue p) = dnsaidTokenForProtocol p.
Proof.
  intros H. unfold Protocol_IsValid in H. apply existsb_exists in H as (q & Hq & ->%String.eqb_eq). cbn [In AllProtocols] in Hq.
  destruct Hq as [<-|[<-|[<-|[]]]]; vm_compute; reflexivity.
Qed.

Lemma svcb_param_alpn a b c t : svcb_param (a, b, c) ("alpn=" +:+ t) = (t, b, c).
Proof. unfold svcb_param, svcbParamALPN. by rewrite HasPrefix_app, TrimPrefix_app. Qed.

Lemma svcb_param_bap a b c t : svcb_param (a, b, c) ("key65402=" +:+ t) = (a, t, c).
Proof. unfold svcb_param, svcbParamBAP. rewrite HasPrefix_app, TrimPrefix_app. done. Qed.

Lemma svcb_param_cap a b c t : svcb_param (a, b, c) ("key65400=" +:+ t) = (a, b, t).
Proof. unfold svcb_param, svcbParamCap. rewrite HasPrefix_app, TrimPrefix_app. done. Qed.

(** What the row's parameters are read as. *)
Lemma svcb_params_value fqdn ep :
  AgentEndpoint_Validate ep = Ok tt ->
  svcb_params (svcb_value fqdn ep) = (protocolToDNSAIDValue (ep_Protocol ep), protocolToDNSAIDValue (ep_Protocol ep), ep_MetadataURL ep).
Proof.
  intros Hv. unfold svcb_params. rewrite svcb_value_fields by done. set (tok := protocolToDNSAIDValue (ep_Protocol ep)).
  assert (Hpre : forall l, fold_left svcb_param ("1" :: "." :: param_text ("alpn", tok) :: param_text ("port", Itoa (svcbPortFor (ep_AgentURL ep))) :: l) ("", "", "") =
    fold_left svcb_param l (tok, "", "")).
  { intros l. cbn [fold_left]. change (svcb_param (svcb_param ("", "", "") "1") ".") with ("", "", "").
    change (param_text ("alpn", tok)) with ("alpn=" +:+ tok). by rewrite svcb_param_alpn. }
  unfold svcb_pairs. fold tok. rewrite !fmap_app. cbn [fmap list_fmap app]. rewrite Hpre.
  destruct (String.eqb_spec (ep_MetadataURL ep) "") as [->|_], (String.eqb (metadataHashToCapSHA256 _) ""), (String.eqb (wellKnownSuffixFromMetadataURL _ _) "");
    cbn [fmap list_fmap app fold_left]; change (param_text ("key65402", tok)) with ("key65402=" +:+ tok);
    try change (param_text ("key65400", ep_MetadataURL ep)) with ("key65400=" +:+ ep_MetadataURL ep); rewrite ?svcb_param_cap;
    try change (svcb_param ?x (param_text ("key65401", ?c))) with x; rewrite ?svcb_param_bap; done.
Qed.
End Rows.

(** ** The descriptor URLs of the attested rows *)

Section Checks.
Context `{U : UnicodeTables} `{F : CaseOrbits}.

(** The rows a registration publishes: one descriptor row per endpoint with a
    metadata URL, and rows without a descriptor. *)
Definition attested_row (reg : AgentRegistration) (r : ExpectedDNSRecord) (ep : AgentEndpoint) : Prop :=
  ep ∈ r_Endpoints reg /\ dr_Type r = DNSRecordSVCB /\ dr_Value r = svcb_value (reg_FQDN reg) ep.

Record published (reg : AgentRegistration) (rows : list ExpectedDNSRecord) : Prop := {
  pb_complete ep : ep ∈ r_Endpoints reg -> ep_MetadataURL ep <> "" -> exists r, r ∈ rows /\ attested_row reg r ep;
  pb_sound r : r ∈ rows ->
    dr_Type r = DNSRecordTXT \/ dr_Type r = DNSRecordTLSA \/ (dr_Type r = DNSRecordHTTPS /\ dr_Value r = "1 . alpn=h2") \/ exists ep, attested_row reg r ep
}.

Lemma published_dnsaid JoinPath tl reg : published reg (DNSAID_Records JoinPath tl reg).
Proof.
  unfold DNSAID_Records. split.
  - intros ep Hep _. eexists. split; [apply elem_of_app; left; by apply list_elem_of_fmap_2|]. done.
  - intros r [H|[H|H]%elem_of_app]%elem_of_app.
    + apply list_elem_of_fmap in H as (ep & -> & Hep). do 3 right. by exists ep.
    + left. unfold BadgeRecord in H. destruct (r_Endpoints reg); [by apply elem_of_nil in H|]. by apply list_elem_of_singleton in H as ->.
    + right. left. unfold TLSARecord in H. destruct (r_ServerCert reg); [|by apply elem_of_nil in H]. by apply list_elem_of_fmap in H as (port & -> & _).
Qed.

Definition ep_token (ep : AgentEndpoint) : string := dnsaidTokenForProtocol (ep_Protocol ep).
Definition record_of (r : ExpectedDNSRecord) : attestedRecord := {| ar_Name := dr_Name r; ar_Data := dr_Value r; ar_Type := dr_Type r |}.

Lemma index_record_row reg r ep urls :
  AgentEndpoint_Validate ep = Ok tt -> attested_row reg r ep ->
  index_record urls (record_of r) =
    if String.eqb (ep_MetadataURL ep) "" then urls else
    match urls !! ep_token ep with Some _ => urls | None => <[ep_token ep := ep_MetadataURL ep]> urls end.
Proof.
  intros Hv (_ & Ht & Hd). unfold index_record. cbn [record_of ar_Type ar_Data]. rewrite Ht, Hd. change (negb _ && _ && _) with false. cbv iota.
  rewrite svcb_params_value by done. destruct (String.eqb (ep_MetadataURL ep) ""); [done|]. unfold AgentEndpoint_Validate in Hv.
  destruct (Protocol_IsValid (ep_Protocol ep)) eqn:Hp; [|done]. destruct (protocol_token _ Hp) as (Hn & _). pose proof (protocol_lower _ Hp) as Et. unfold index_token, ep_token. rewrite <-Et.
  destruct (String.eqb_spec (protocolToDNSAIDValue (ep_Protocol ep)) ""); [done|].
  destruct (urls !! ToLower (protocolToDNSAIDValue (ep_Protocol ep))) as [u|] eqn:E; [by rewrite E|]. by rewrite lookup_insert_eq.
Qed.

Lemma index_record_plain r urls :
  dr_Type r = DNSRecordTXT \/ dr_Type r = DNSRecordTLSA \/ (dr_Type r = DNSRecordHTTPS /\ dr_Value r = "1 . alpn=h2") -> index_record urls (record_of r) = urls.
Proof. unfold index_record. cbn [record_of ar_Type ar_Data]. by intros [-> |[-> |[-> ->]]]. Qed.

(** The index after the rows: where each URL comes from, and that none is missing. *)
Lemma index_rows reg rows urls :
  Forall (fun ep => AgentEndpoint_Validate ep = Ok tt) (r_Endpoints reg) ->
  (forall r, r ∈ rows -> dr_Type r = DNSRecordTXT \/ dr_Type r = DNSRecordTLSA \/ (dr_Type r = DNSRecordHTTPS /\ dr_Value r = "1 . alpn=h2") \/ exists ep, attested_row reg r ep) ->
  (forall k u, urls !! k = Some u -> exists ep, ep ∈ r_Endpoints reg /\ ep_token ep = k /\ ep_MetadataURL ep = u) ->
  let urls' := fold_left index_record (record_of <$> rows) urls in
  (forall k u, urls' !! k = Some u -> exists ep, ep ∈ r_Endpoints reg /\ ep_token ep = k /\ ep_MetadataURL ep = u) /\
  (forall k, is_Some (urls !! k) -> is_Some (urls' !! k)) /\
  (forall r ep, r ∈ rows -> attested_row reg r ep -> ep_MetadataURL ep <> "" -> is_Some (urls' !! ep_token ep)).
Proof.
  intros Hv. revert urls. induction rows as [|r rows IH]; intros urls Hrows Hurls; cbn zeta.
  { split; [done|]. split; [done|]. intros r ep Hr. by apply elem_of_nil in Hr. }
  rewrite fmap_cons. cbn [fold_left]. rewrite Forall_forall in Hv.
  assert (Hstep : (forall k u, index_record urls (record_of r) !! k = Some u -> exists ep, ep ∈ r_Endpoints reg /\ ep_token ep = k /\ ep_MetadataURL ep = u) /\
    (forall k, is_Some (urls !! k) -> is_Some (index_record urls (record_of r) !! k)) /\
    (forall ep, attested_row reg r ep -> ep_MetadataURL ep <> "" -> is_Some (index_record urls (record_of r) !! ep_token ep))).
  { split_and!.
    - destruct (Hrows r ltac:(left)) as [H|[H|[H|(ep & Hep)]]]; [rewrite index_record_plain; auto..|]. rewrite (index_record_row reg r ep) by (auto; apply Hv, Hep).
      destruct (String.eqb _ _); [done|]. destruct (urls !! ep_token ep) eqn:E; [done|]. intros k u [[<- <-]|[_ H]]%lookup_insert_Some; [|auto]. exists ep. by destruct Hep.
    - intros k Hk. destruct (Hrows r ltac:(left)) as [H|[H|[H|(ep & Hep)]]]; [rewrite index_record_plain; auto..|]. rewrite (index_record_row reg r ep) by (auto; apply Hv, Hep).
      destruct (String.eqb _ _); [done|]. destruct (urls !! ep_token ep) eqn:E; [done|]. by apply lookup_insert_is_Some'; right.
    - intros ep Hep Hu. rewrite (index_record_row reg r ep) by (auto; apply Hv, Hep). destruct (String.eqb_spec (ep_MetadataURL ep) ""); [done|].
      destruct (urls !! ep_token ep) eqn:E; [by rewrite E|by rewrite lookup_insert_eq]. }
  destruct Hstep as (H1 & H2 & H3). destruct (IH (index_record urls (record_of r))) as (I1 & I2 & I3); [intros r' ?; apply Hrows; by right|done|].
  split; [done|]. split; [auto|]. intros r' ep [->|Hin]%elem_of_cons Hep Hu; [apply I2; by apply H3|by apply (I3 r')].
Qed.
End Checks.

(** ** The checks of a sealed registration *)

Lemma metadataHashes_spec eps p h :
  NoDup (ep_Protocol <$> eps) ->
  (metadataHashesFromEndpoints eps !! p = Some h <-> exists ep, ep ∈ eps /\ ep_Protocol ep = p /\ ep_MetadataHash ep = h /\ h <> "").
Proof.
  unfold metadataHashesFromEndpoints. induction eps as [|x eps IH] using rev_ind; intros Hnd.
  { change (fold_left _ [] ∅) with (∅ : gmap string string). rewrite lookup_empty. split; [done|]. intros (ep & H & _). by apply elem_of_nil in H. }
  rewrite fmap_app in Hnd. apply NoDup_app in Hnd as (Hnd & Hx & _). specialize (IH Hnd). rewrite fold_left_app. cbn [fold_left].
  set (m := fold_left _ eps ∅) in *.
  assert (Hsplit : (exists ep, ep ∈ eps ++ [x] /\ ep_Protocol ep = p /\ ep_MetadataHash ep = h /\ h <> "") <->
    (exists ep, ep ∈ eps /\ ep_Protocol ep = p /\ ep_MetadataHash ep = h /\ h <> "") \/ (ep_Protocol x = p /\ ep_MetadataHash x = h /\ h <> "")).
  { setoid_rewrite elem_of_app. setoid_rewrite list_elem_of_singleton. split; [intros (ep & [H| ->] & ?); eauto|intros [(ep & ? & ?)|?]; eauto]. }
  rewrite Hsplit, <-IH. clear Hsplit. destruct (String.eqb_spec (ep_MetadataHash x) "") as [E|E].
  { split; [by left|]. intros [?|(_ & <- & ?)]; [done|by destruct E]. }
  assert (Hfresh : m !! ep_Protocol x = None).
  { destruct (m !! ep_Protocol x) as [h'|] eqn:Em; [|done]. exfalso. apply (Hx (ep_Protocol x)); [|by left].
    assert (exists ep, ep ∈ eps /\ ep_Protocol ep = ep_Protocol x) as (ep & H1 & <-); [|by apply list_elem_of_fmap_2].
    clear IH. revert Em. unfold m. clear. induction eps as [|y eps IH] using rev_ind; [done|]. rewrite fold_left_app. cbn [fold_left].
    setoid_rewrite elem_of_app. intros H. destruct (String.eqb _ _); [destruct (IH H) as (ep & ? & ?); eauto|].
    destruct (fold_left _ eps ∅ !! ep_Protocol y) eqn:Ey; [destruct (IH H) as (ep & ? & ?); eauto|].
    apply lookup_insert_Some in H as [[E _]|[_ H]]; [exists y; split; [right; by left|done]|destruct (IH H) as (ep & ? & ?); eauto]. }
  rewrite Hfresh, lookup_insert_Some. split.
  - intros [[<- <-]|[_ ?]]; [by right|by left].
  - intros [H|(<- & <- & _)]; [|by left]. right. split; [|done]. intros <-. congruence.
Qed.

Lemma sorted_keys_spec m p : p ∈ sorted_keys m <-> is_Some (m !! p).
Proof.
  unfold sorted_keys. rewrite merge_sort_Permutation, list_elem_of_fmap. split.
  - intros ([k v] & -> & H%elem_of_map_to_list). by exists v.
  - intros [v H]. exists (p, v). split; [done|]. by apply elem_of_map_to_list.
Qed.

Lemma sorted_keys_NoDup m : NoDup (sorted_keys m).
Proof. unfold sorted_keys. rewrite merge_sort_Permutation. apply NoDup_fst_map_to_list. Qed.

(** Lower-case hexadecimal digits are their own case folding. *)
Lemma lower_hex_fold `{F : CaseOrbits} a b :
  str_forall is_lower_hex a = true -> str_forall is_lower_hex b = true -> runes_fold_eq (runes a) (runes b) = true -> a = b.
Proof.
  assert (Hasc : forall s, str_forall is_lower_hex s = true -> is_ascii_str s = true) by (intros s H; eapply str_forall_impl; [|exact H]; all_bytes).
  intros Ha Hb. rewrite !runes_ascii by auto. revert b Hb. induction a as [|c a IH]; intros [|d b] Hb; try done. cbn [bytes_of runes_fold_eq].
  cbn [str_forall] in Ha, Hb. apply andb_true_iff in Ha as [Hc Ha]. apply andb_true_iff in Hb as [Hd Hb]. intros [H1 H2]%andb_true_iff.
  rewrite (IH Ha b Hb H2). f_equal. apply byteZ_inj. unfold rune_fold_eq in H1. unfold is_lower_hex, is_digit, inR in Hc, Hd.
  destruct (Z.eqb_spec (byteZ c) (byteZ d)); [done|]. pose proof (byteZ_range c). pose proof (byteZ_range d). exfalso.
  assert (48 <= byteZ c <= 57 \/ 97 <= byteZ c <= 102) by (apply orb_true_iff in Hc as [?|?]; b2p; lia).
  assert (48 <= byteZ d <= 57 \/ 97 <= byteZ d <= 102) by (apply orb_true_iff in Hd as [?|?]; b2p; lia).
  cbv zeta in H1. destruct (Z.ltb_spec (Z.max (byteZ c) (byteZ d)) 128); [|lia]. unfold inR in H1. b2p. lia.
Qed.

Lemma hex_lower s : str_forall is_lower_hex (hex_EncodeToString s) = true.
Proof.
  assert (Hd : forall d, 0 <= d < 16 -> is_lower_hex (hex_digit d) = true) by (intros d; by apply (forall_below 16 (fun d => is_lower_hex (hex_digit d)))).
  induction s as [|c s IH]; [done|]. cbn [hex_EncodeToString str_forall]. pose proof (byteZ_range c). rewrite !Hd by zlia. done.
Qed.

Lemma runes_fold_eq_refl `{F : CaseOrbits} l : runes_fold_eq l l = true.
Proof. induction l as [|r l IH]; [done|]. cbn. rewrite IH. unfold rune_fold_eq. by rewrite Z.eqb_refl. Qed.

(** A validated hash is compared exactly. *)
Lemma hash_compared `{F : CaseOrbits} body want :
  MatchString metadataHashPattern want = true ->
  (EqualFold (metadataHashPrefix +:+ hex_EncodeToString (Sum256 body)) want = true <-> metadataHashPrefix +:+ hex_EncodeToString (Sum256 body) = want).
Proof.
  intros H%MatchString_spec. apply matches_Seq in H as (u & v & -> & Hu & Hv). apply matches_Lits in Hu as ->. apply matches_Rep_Cls in Hv as [_ Hv].
  unfold EqualFold, metadataHashPrefix. split; [|intros ->; apply runes_fold_eq_refl].
  assert (Hpre : forall x y, str_forall is_lower_hex x = true -> str_forall is_lower_hex y = true ->
    runes_fold_eq (runes ("SHA256:" +:+ x)) (runes ("SHA256:" +:+ y)) = runes_fold_eq (runes x) (runes y)).
  { intros x y Hx Hy. assert (Hasc : forall s, str_forall is_lower_hex s = true -> is_ascii_str s = true) by (intros s H; eapply str_forall_impl; [|exact H]; all_bytes).
    rewrite !runes_ascii by (try (apply ascii_app; [done|]); auto). done. }
  rewrite Hpre by (auto using hex_lower). intros H. f_equal. by apply lower_hex_fold; [apply hex_lower|..].
Qed.

Section Sealed.
Context `{U : UnicodeTables} `{F : CaseOrbits} `{J : JCS, !JCSLaws J} `{X : PemX509}.

Lemma decodes_attestedRecord r :
  decodes eq dec_attestedRecord zero_attestedRecord (enc_dns r) {| ar_Name := dn_Name r; ar_Data := dn_Data r; ar_Type := dn_Type r |}.
Proof. unfold dec_attestedRecord, enc_dns. apply decodes_struct. intros m' Hm. eexists. split; [|reflexivity]. cbn [ar_Name ar_Data ar_Type zero_attestedRecord]. decode_fields Hm. done. Qed.

(** The rows, whatever the spelling of the message they are read from. *)
Lemma decodeAttestedRecords_rows recs j :
  norm <$> j = norm <$> omit_list (enc_dns <$> recs) ->
  decodeAttestedRecords j = (fun r => {| ar_Name := dn_Name r; ar_Data := dn_Data r; ar_Type := dn_Type r |}) <$> recs.
Proof.
  intros E. destruct recs as [|r recs]; cbn [fmap list_fmap omit_list] in E; [by destruct j|]. destruct j as [j|]; [|done]. cbn in E. injection E as E.
  unfold decodeAttestedRecords. destruct (decodes_list eq dec_attestedRecord zero_attestedRecord (enc_dns <$> (r :: recs))
    ((fun r => {| ar_Name := dn_Name r; ar_Data := dn_Data r; ar_Type := dn_Type r |}) <$> (r :: recs))) with (v' := j) as (l & Hl & HF); [|exact E|].
  - apply Forall2_fmap_2. generalize (r :: recs). intros l. induction l; constructor; auto using decodes_attestedRecord.
  - rewrite Hl. by apply list_eq_Forall2 in HF as <-.
Qed.

Definition same_raw (a b : gmap string string * option json) : Prop := a.1 = b.1 /\ norm <$> a.2 = norm <$> b.2.

Lemma decodes_metadata_att a :
  decodes same_raw dec_metadata_att (∅, None) (enc_attestations a) (at2_MetadataHashes a, omit_list (enc_dns <$> at2_DNSRecordsProvisioned a)).
Proof.
  unfold dec_metadata_att, enc_attestations. apply decodes_struct. intros m' Hm. cbn [fst snd].
  destruct (field_obj_rel (fun a b => norm <$> a = norm <$> b) "dnsRecordsProvisioned" dec_raw None (omit_list (enc_dns <$> at2_DNSRecordsProvisioned a))
    (omit_list (enc_dns <$> at2_DNSRecordsProvisioned a)) _ _ Hm) as (v & Hv & HR); [distinct_names|in_fields|destruct (omit_list _); [apply decodes_raw|done]|].
  exists (at2_MetadataHashes a, v). split; [|by split].
  rewrite (field_obj_eq _ m' "metadataHashes" dec_strmap ∅ (at2_MetadataHashes a) (omit_strmap (at2_MetadataHashes a)) Hm ltac:(distinct_names) ltac:(in_fields) (decodes_strmap _)).
  cbn [mbind option_bind]. by rewrite Hv.
Qed.

Lemma metadata_checks_read x raw e canonical inner a :
  submitted x raw (SigV2 e) canonical -> innerEvent e = Some inner -> te_Attestations inner = Some a ->
  exists j, norm <$> j = norm <$> omit_list (enc_dns <$> at2_DNSRecordsProvisioned a) /\
    metadataChecksFromEvent raw = Some (if (size (at2_MetadataHashes a) =? 0)%nat then [] else metadata_checks (at2_MetadataHashes a) j).
Proof.
  intros Hx He Ha. pose proof (ParseAndBuild_built _ _ _ _ _ _ _ _ (proj1 (sm_raID _ _ _ _ Hx)) (sm_built _ _ _ _ Hx)) as Hb.
  destruct Hx as [_ [Hk _] [Hsg _] [Hlog _] [Hatt _] _ HL]. apply LeafBytes_jcs in HL; [|by eapply built_json].
  cbn [setOuterSignature enc_signable] in HL.
  edestruct (Unmarshal_decodes same_raw (at_event dec_metadata_event) (∅, None)) as ([hashes j] & HU & [E1 E2]); [exact HL|eapply decodes_at_event; [exact He|]|].
  { unfold dec_metadata_event, enc_event2, enc_event. eapply decodes_step; [distinct_names|in_fields|]. rewrite Ha. apply decodes_metadata_att. }
  cbn [fst snd] in E1, E2. subst hashes. exists j. split; [by symmetry|]. unfold metadataChecksFromEvent. rewrite HU. cbn [mbind option_bind]. by case_if.
Qed.

(** The check an endpoint with a hash asks for. *)
Definition check_of (ep : AgentEndpoint) : metadataCheck :=
  {| mc_Protocol := ep_Protocol ep; mc_URL := ep_MetadataURL ep; mc_WantHash := ep_MetadataHash ep |}.

Lemma ep_token_inj p q : Protocol_IsValid p = true -> Protocol_IsValid q = true -> dnsaidTokenForProtocol p = dnsaidTokenForProtocol q -> p = q.
Proof.
  unfold Protocol_IsValid. intros Hp Hq. apply existsb_exists in Hp as (p' & Hp & ->%String.eqb_eq). apply existsb_exists in Hq as (q' & Hq & ->%String.eqb_eq).
  cbn [In AllProtocols] in Hp, Hq. destruct Hp as [<-|[<-|[<-|[]]]], Hq as [<-|[<-|[<-|[]]]]; try done; vm_compute; done.
Qed.

(** A declared hash comes with a URL and has the registered form. *)
Lemma validated_hash ep :
  AgentEndpoint_Validate ep = Ok tt -> ep_MetadataHash ep <> "" -> ep_MetadataURL ep <> "" /\ MatchString metadataHashPattern (ep_MetadataHash ep) = true.
Proof.
  intros Hv Hh. unfold AgentEndpoint_Validate in Hv. destruct (Protocol_IsValid (ep_Protocol ep)); [|done]. cbn [negb] in Hv.
  do 3 apply bind_Ok in Hv as ([] & _ & Hv). apply bind_Ok in Hv as ([] & Hv & _). destruct (String.eqb_spec (ep_MetadataHash ep) ""); [done|]. cbn [negb] in Hv.
  destruct (String.eqb_spec (ep_MetadataURL ep) ""); [done|]. by destruct (MatchString metadataHashPattern (ep_MetadataHash ep)).
Qed.

Section Registration.
Context (reg : AgentRegistration) (rows : list ExpectedDNSRecord).
Context (Hval : AgentEndpoints_Validate (r_Endpoints reg) (reg_FQDN reg) = Ok tt) (Hpub : published reg rows).

Lemma endpoint_valid ep : ep ∈ r_Endpoints reg -> Protocol_IsValid (ep_Protocol ep) = true /\ AgentEndpoint_Validate ep = Ok tt.
Proof. apply AgentEndpoints_Validate_Ok in Hval as (_ & _ & H1 & H2). rewrite Forall_forall in H1, H2. intros H. by split; [apply H1|apply H2]. Qed.

Lemma descriptor_found ep :
  ep ∈ r_Endpoints reg -> ep_MetadataURL ep <> "" -> descriptorURLsByToken (record_of <$> rows) !! ep_token ep = Some (ep_MetadataURL ep).
Proof.
  intros Hep Hu. unfold descriptorURLsByToken.
  destruct (index_rows reg rows ∅) as (H1 & _ & H3); [apply Forall_forall; intros; by apply endpoint_valid|apply (pb_sound _ _ Hpub)|done|].
  destruct (pb_complete _ _ Hpub ep Hep Hu) as (r & Hr & Hrow). destruct (H3 r ep Hr Hrow Hu) as [u Eu]. rewrite Eu. f_equal.
  destruct (H1 _ _ Eu) as (ep' & Hep' & Et & <-). apply ep_token_inj in Et; [|by apply endpoint_valid..].
  f_equal. apply AgentEndpoints_Validate_Ok in Hval as (_ & Hnd & _). by apply (NoDup_key ep_Protocol (r_Endpoints reg)).
Qed.

Lemma metadata_checks_exact j c :
  decodeAttestedRecords j = record_of <$> rows ->
  (c ∈ metadata_checks (metadataHashesFromEndpoints (r_Endpoints reg)) j <-> exists ep, ep ∈ r_Endpoints reg /\ ep_MetadataHash ep <> "" /\ c = check_of ep).
Proof.
  intros Hj. pose proof Hval as (_ & Hnd & _)%AgentEndpoints_Validate_Ok. unfold metadata_checks. rewrite Hj, list_elem_of_fmap.
  assert (Hrow : forall ep, ep ∈ r_Endpoints reg -> ep_MetadataHash ep <> "" -> descriptorURLsByToken (record_of <$> rows) !! ep_token ep = Some (ep_MetadataURL ep)).
  { intros ep Hep Hh. apply descriptor_found; [done|]. by apply validated_hash; [apply endpoint_valid|]. }
  split.
  - intros (p & -> & [h Hp]%sorted_keys_spec). pose proof Hp as Hp'. apply metadataHashes_spec in Hp' as (ep & Hep & <- & <- & Hh); [|done].
    exists ep. split; [done|]. split; [done|]. unfold check_of. f_equal; [exact (f_equal (default "") (Hrow ep Hep Hh))|exact (f_equal (default "") Hp)].
  - intros (ep & Hep & Hh & ->). assert (Hp : metadataHashesFromEndpoints (r_Endpoints reg) !! ep_Protocol ep = Some (ep_MetadataHash ep))
      by (apply metadataHashes_spec; [done|]; by exists ep).
    exists (ep_Protocol ep). split; [|apply sorted_keys_spec; by eexists]. unfold check_of.
    f_equal; symmetry; [exact (f_equal (default "") (Hrow ep Hep Hh))|exact (f_equal (default "") Hp)].
Qed.

(** A check fails when a document was served that has another hash. *)
Lemma mismatch_spec ep rep :
  ep ∈ r_Endpoints reg -> ep_MetadataHash ep <> "" ->
  (is_mismatch (verifyOneMetadata (check_of ep) rep) = true <->
   exists body, httpGetBytes rep = Some body /\ metadataHashPrefix +:+ hex_EncodeToString (Sum256 body) <> ep_MetadataHash ep).
Proof.
  intros Hep Hh. destruct (validated_hash ep) as [Hu Hm]; [by apply endpoint_valid|done|]. unfold verifyOneMetadata, fetchDescriptor.
  cbn [check_of mc_URL mc_WantHash]. destruct (String.eqb_spec (ep_MetadataURL ep) ""); [done|].
  destruct (httpGetBytes rep) as [body|]; [|split; [done|by intros (? & ? & _)]]. cbn [is_mismatch mr_Outcome]. pose proof (hash_compared body _ Hm) as Hc.
  destruct (EqualFold _ _).
  - split; [done|]. intros (body' & [= <-] & Hne). by destruct Hne; apply Hc.
  - split; [|done]. intros _. exists body. split; [done|]. intros E. by apply Hc in E.
Qed.
End Registration.

(** C19: step 7 of the verifier checks what was registered.  Take a registration
    whose endpoints pass validation, the registration event the authority builds
    for it over a set of records that includes the descriptor row of every
    endpoint with a metadata URL, and a leaf that seals this event.  The checks
    the verifier reads off the leaf are exactly one per endpoint that declared a
    metadata hash, with that endpoint's own metadata URL and hash; and the step
    fails if and only if some such document was served and its SHA-256 differs
    from the registered hash.  So no honest registration is rejected, and none
    passes while serving another document. *)
Theorem metadata_step_exact raID reg rows perRecord identity byoc now inner x raw e canonical :
  AgentEndpoints_Validate (r_Endpoints reg) (reg_FQDN reg) = Ok tt -> published reg rows ->
  buildAgentRegisteredEvent raID reg rows perRecord identity byoc now = Ok inner ->
  submitted x raw (SigV2 e) canonical -> innerEvent e = Some inner ->
  (exists checks, metadataChecksFromEvent raw = Some checks /\ NoDup (mc_Protocol <$> checks) /\
     forall c, c ∈ checks <-> exists ep, ep ∈ r_Endpoints reg /\ ep_MetadataHash ep <> "" /\ c = check_of ep) /\
  forall descriptor, metadataStepForPayload descriptor raw = true <->
    exists ep body, ep ∈ r_Endpoints reg /\ ep_MetadataHash ep <> "" /\ httpGetBytes (descriptor (ep_Protocol ep) (ep_MetadataURL ep)) = Some body /\
      metadataHashPrefix +:+ hex_EncodeToString (Sum256 body) <> ep_MetadataHash ep.
Proof.
  intros Hval Hpub Hev Hx He. unfold buildAgentRegisteredEvent in Hev. apply bind_Ok in Hev as (ids & _ & [= <-]).
  destruct (metadata_checks_read _ _ _ _ _ _ Hx He eq_refl) as (j & Ej & Hread). cbn [at2_MetadataHashes at2_DNSRecordsProvisioned] in *.
  apply decodeAttestedRecords_rows in Ej. rewrite <-list_fmap_compose in Ej. change (decodeAttestedRecords j = record_of <$> rows) in Ej.
  set (hashes := metadataHashesFromEndpoints (r_Endpoints reg)) in *. set (checks := if (size hashes =? 0)%nat then [] else metadata_checks hashes j) in Hread.
  assert (Hck : forall c, c ∈ checks <-> exists ep, ep ∈ r_Endpoints reg /\ ep_MetadataHash ep <> "" /\ c = check_of ep).
  { intros c. rewrite <-(metadata_checks_exact reg rows Hval Hpub j c Ej). unfold checks. destruct (Nat.eqb_spec (size hashes) 0) as [Ez|]; [|done].
    apply map_size_empty_inv in Ez. fold hashes. rewrite Ez. unfold metadata_checks, sorted_keys. by rewrite map_to_list_empty. }
  split.
  - exists checks. split; [done|]. split; [|done]. unfold checks. case_if; [constructor|]. unfold metadata_checks. rewrite <-list_fmap_compose.
    rewrite (list_fmap_ext _ id) by done. rewrite list_fmap_id. apply sorted_keys_NoDup.
  - intros descriptor. unfold metadataStepForPayload. rewrite Hread. unfold verifyMetadata. rewrite existsb_exists. split.
    + intros (r & Hin%list_elem_of_In & Hr). apply list_elem_of_fmap in Hin as (c & -> & Hc). apply Hck in Hc as (ep & Hep & Hh & ->).
      apply (mismatch_spec reg Hval ep _ Hep Hh) in Hr as (body & Hb & Hne). by exists ep, body.
    + intros (ep & body & Hep & Hh & Hb & Hne). exists (verifyOneMetadata (check_of ep) (descriptor (ep_Protocol ep) (ep_MetadataURL ep))).
      split; [apply list_elem_of_In, list_elem_of_fmap; exists (check_of ep); split; [done|]; apply Hck; by exists ep|].
      apply (mismatch_spec reg Hval ep _ Hep Hh). by exists body.
Qed.
End Sealed.

(** ** A sealed registration

    One endpoint with a hash; the document served is another. *)

#[local] Existing Instance latin_tables.
#[local] Existing Instance reference_jcs.

#[local] Instance ascii_orbits : CaseOrbits := {| SimpleFold := fun r => r |}.
#[local] Instance no_pem : PemX509 := {| pem_Decode := fun _ => None; x509_serial := fun _ => None |}.

Definition meta_reg : AgentRegistration :=
  {| r_ID := 1; r_AgentID := "0f0e0d0c-0000-4000-8000-000000000001"; r_OwnerID := "o"; r_AnsName := MkAnsName (MkSemVer 1 0 0) "agent.example.com";
     r_Status := StatusPendingDNS;
     r_Details := {| d_RegistrationTimestamp := 0; d_LastRenewalTimestamp := 0; d_DisplayName := "n"; d_Description := "" |};
     r_Endpoints := [demo_endpoint]; r_ServerCert := None; r_IdentityCSR := None; r_ServerCSR := None; r_SupersedesRegistrationID := 0;
     r_CertOrder := zero_order; r_DiscoveryProfiles := [DiscoveryProfileANSDNSAID]; r_PendingEvents := [] |}.

Definition meta_rows : list ExpectedDNSRecord := DNSAID_Records (fun base _ => base) "https://log.example" meta_reg.

Definition meta_built : result serr EventV2 :=
  Eval vm_compute in buildAgentRegisteredEvent "ra-1" meta_reg meta_rows None [] [] (GoTime.UnixMilli 1700000000000).
Definition meta_event : EventV2 := Eval vm_compute in match meta_built with Ok e => e | Err _ => zero_event end.

Definition meta_submission : submission :=
  {| sb_codec := V2Codec; sb_body := Marshal (enc_event2 meta_event); sb_raID := "ra-1"; sb_keyID := "k1"; sb_sig := "sig"; sb_logID := "log-1"; sb_att := "att" |}.
Definition meta_envelope : Envelope EventV2 := BuildEnvelope SchemaVersionV2 "log-1" meta_event "k1" "sig".
Definition meta_canonical : string := Eval vm_compute in default "" (CanonicalizeV2 meta_event).
Definition meta_leaf : string := Eval vm_compute in default "" (LeafBytes (setOuterSignature (SigV2 meta_envelope) "att")).

Lemma meta_sealed : submitted meta_submission meta_leaf (SigV2 meta_envelope) meta_canonical.
Proof. split; try (by split; vm_compute); vm_compute; reflexivity. Qed.

Lemma metadata_step_exact_witness :
  metadataStepForPayload (fun _ _ => Reply StatusOK "another document") meta_leaf = true.
Proof.
  destruct (metadata_step_exact "ra-1" meta_reg meta_rows None [] [] (GoTime.UnixMilli 1700000000000) meta_event meta_submission meta_leaf meta_envelope meta_canonical)
    as [_ H]; [by vm_compute|apply published_dnsaid|by vm_compute|apply meta_sealed|done|].
  apply H. exists demo_endpoint, "another document". split; [by left|]. split; [done|]. split; [by vm_compute|]. by vm_compute.
Defined.
