(* ===== verification/AnsMainSpec.v ===== *)
(** Theorems about the runs of [cmd/ans-verify]: the badge the registration
    authority has an operator publish leads back to the registration, a run in
    [-fqdn] mode that ends well proves the registration of the host it was asked
    about, and a verified listing shows signed leaves. *)
From stdpp Require Import gmap sorting.
From S2P Require Import Prelude GoStrings Utf8 GoRegexp GoEncoding GoJSON GoURL DomainErrors SemVer AnsName Endpoint Lifecycle Discovery RaEvents Jws JwsSpec TlLogSpec LogNote LogNoteSpec P256 Sha256 Merkle Receipt WorkPool SvcbRows AnsVerify AnsMain AnsWalkSpec AnsMetaSpec.

#[local] Set Default Goal Selector "!".
#[local] Open Scope Z_scope.

(** ** The badge round trip *)

Lemma token_ascii s : str_forall svcb_token_byte s = true -> is_ascii_str s = true.
Proof. apply str_forall_impl. all_bytes. Qed.

Lemma token_unpadded s : str_forall svcb_token_byte s = true -> unpadded s = true.
Proof.
  assert (Hb : forall c, svcb_token_byte c = true -> negb (is_space_byte c) = true) by all_bytes.
  intros H. unfold unpadded. destruct (first_byte s) as [c|] eqn:Ec; [|done]. destruct (last_byte s) as [d|] eqn:Ed; [|done].
  rewrite !Hb; [done| |].
  - clear Ec. revert d Ed. induction s as [|x s IH]; intros d Ed; [done|]. cbn [str_forall] in H. apply andb_true_iff in H as [H1 H2].
    destruct s; [by injection Ed as <-|by apply IH].
  - destruct s; [done|]. injection Ec as ->. cbn [str_forall] in H. by apply andb_true_iff in H as [H _].
Qed.

Lemma TrimSpace_token s : str_forall svcb_token_byte s = true -> TrimSpace s = s.
Proof. intros H. apply TrimSpace_id; [by apply token_ascii|by apply token_unpadded]. Qed.

Lemma TrimSpace_lead s : TrimSpace (String " " s) = TrimSpace s.
Proof. reflexivity. Qed.

Lemma TrimRightByte_id s c : last_byte s <> Some c -> TrimRightByte s c = s.
Proof.
  induction s as [|d s IH]; [done|]. intros H. cbn [TrimRightByte]. destruct s as [|e s].
  - cbn. destruct (Ascii.eqb_spec c d) as [->|]; [by destruct H|done].
  - rewrite IH by exact H. done.
Qed.

Lemma LastIndex_none s c sub : ContainsByte s c = false -> LastIndex s (String c sub) = None.
Proof.
  intros Hc. induction s as [|d s IH]; [done|]. rewrite ContainsByte_cons in Hc. apply orb_false_iff in Hc as [Hd Hc]. cbn [LastIndex]. rewrite IH by done.
  destruct (HasPrefix (String d s) (String c sub)) eqn:Ep; [|done]. apply HasPrefix_split in Ep. rewrite app_cons_s in Ep. injection Ep as -> _.
  by rewrite Ascii.eqb_refl in Hd.
Qed.

Lemma LastIndex_app t s sub i : LastIndex s sub = Some i -> LastIndex (t +:+ s) sub = Some (String.length t + i)%nat.
Proof. intros H. induction t as [|c t IH]; [done|]. rewrite app_cons_s. cbn [LastIndex String.length]. by rewrite IH. Qed.

Lemma LastIndex_agents id : ContainsByte id "/" = false -> LastIndex (badgeAgentsPath +:+ id) badgeAgentsPath = Some O.
Proof.
  intros H. assert (Hn : LastIndex id badgeAgentsPath = None) by by apply LastIndex_none.
  assert (Hstep : forall c r, LastIndex r badgeAgentsPath = None -> HasPrefix (String c r) badgeAgentsPath = false -> LastIndex (String c r) badgeAgentsPath = None)
    by (intros c r E1 E2; cbn [LastIndex]; by rewrite E1, E2).
  change (LastIndex (String "/" ("v1/agents/" +:+ id)) badgeAgentsPath = Some O).
  assert (Ht : LastIndex ("v1/agents/" +:+ id) badgeAgentsPath = None).
  { assert (Hid : HasPrefix (String "/" id) badgeAgentsPath = false).
    { destruct (HasPrefix (String "/" id) badgeAgentsPath) eqn:Ep; [|done]. apply HasPrefix_split in Ep. unfold badgeAgentsPath in Ep.
      change (String "/" id = String "/" ("v1/agents/" +:+ str_drop (String.length "/v1/agents/") (String "/" id))) in Ep. injection Ep as Ep. rewrite Ep, ContainsByte_app in H. done. }
    repeat (apply Hstep; [|first [exact Hid|reflexivity]]). exact Hn. }
  cbn [LastIndex]. rewrite Ht. by rewrite (HasPrefix_app badgeAgentsPath id : HasPrefix (String "/" ("v1/agents/" +:+ id)) badgeAgentsPath = true).
Qed.

Definition uuid_byte (c : ascii) : bool := GoNet.is_hex c || Ascii.eqb c "-".

Lemma uuid_hex n s : re_matches (Rep n (Cls GoNet.is_hex)) s -> str_forall uuid_byte s = true /\ String.length s = n.
Proof.
  intros [Hl H]%matches_Rep_Cls. split; [|done]. eapply str_forall_impl; [|exact H]. intros c Hc. unfold uuid_byte. by rewrite Hc.
Qed.

Lemma agentID_bytes id : MatchString agentIDPattern id = true -> str_forall uuid_byte id = true /\ String.length id = 36%nat.
Proof.
  intros H%MatchString_spec. unfold agentIDPattern in H.
  apply matches_Seq in H as (a & r1 & -> & [Ha La]%uuid_hex & H). apply matches_Seq in H as (d1 & r2 & -> & ->%matches_Lit & H).
  apply matches_Seq in H as (b & r3 & -> & [Hb Lb]%uuid_hex & H). apply matches_Seq in H as (d2 & r4 & -> & ->%matches_Lit & H).
  apply matches_Seq in H as (c & r5 & -> & [Hc Lc]%uuid_hex & H). apply matches_Seq in H as (d3 & r6 & -> & ->%matches_Lit & H).
  apply matches_Seq in H as (d & r7 & -> & [Hd Ld]%uuid_hex & H). apply matches_Seq in H as (d4 & e & -> & ->%matches_Lit & [He Le]%uuid_hex).
  rewrite !str_forall_app, !length_app_s, Ha, Hb, Hc, Hd, He, La, Lb, Lc, Ld, Le. done.
Qed.

Lemma agentID_clean id :
  MatchString agentIDPattern id = true -> id <> "" /\ str_forall svcb_token_byte id = true /\ ContainsByte id "/" = false /\ last_byte id <> Some "/"%char.
Proof.
  intros [Hb Hl]%agentID_bytes. assert (Hc : ContainsByte id "/" = false) by by apply (ContainsByte_forall uuid_byte).
  split_and!; [by intros ->|eapply str_forall_impl; [|exact Hb]; all_bytes|done|by apply last_byte_not].
Qed.

(** The base URL of a log: a host and a path that need no escaping, without a
    trailing slash. *)
Definition base_path_byte (c : ascii) : bool := path_byte c && negb (Ascii.eqb c ";").

Record log_base (base host path : string) : Prop := {
  lb_base : base = "https://" +:+ host +:+ path;
  lb_host : host <> "" /\ str_forall dns_byte host = true;
  lb_path : path = "" \/ HasPrefix path "/" = true;
  lb_plain : str_forall base_path_byte path = true;
  lb_end : last_byte path <> Some "/"%char
}.

Lemma url_escape_id keep s : str_forall keep s = true -> url_escape keep s = s.
Proof. induction s as [|c s IH]; [done|]. cbn [str_forall url_escape]. intros [-> H]%andb_true_iff. by rewrite IH. Qed.

Section BadgeTrip.
Context `{U : UnicodeTables} `{F : CaseOrbits}.

(** The URL of a badge splits into the log and the agent it was made of. *)
Lemma splitBadgeURL_made base host path id :
  log_base base host path -> MatchString agentIDPattern id = true ->
  splitBadgeURL (base +:+ badgeAgentsPath +:+ id) = Ok (base, id).
Proof.
  intros [-> [Hhn Hh] Hp Hpl Hend] Hid. destruct (agentID_clean id Hid) as (Hidn & Hidt & Hids & Hidl).
  assert (Hslash : exists t, path +:+ badgeAgentsPath +:+ id = String "/" t /\ str_forall (fun c => negb (is_ctl c)) t = true /\
    ContainsByte t "%" = false /\ ContainsByte t "?" = false /\ ContainsByte t "#" = false).
  { assert (Hall : str_forall (fun c => base_path_byte c || uuid_byte c) (path +:+ badgeAgentsPath +:+ id) = true).
    { rewrite !str_forall_app. apply andb_true_iff. split; [|apply andb_true_iff; split; [done|]].
      - eapply str_forall_impl; [|exact Hpl]. intros c ->. done.
      - destruct (agentID_bytes id Hid) as [Hb _]. eapply str_forall_impl; [|exact Hb]. intros c ->. apply orb_true_r. }
    assert (Hfirst : exists t, path +:+ badgeAgentsPath +:+ id = String "/" t).
    { destruct Hp as [->|Hp]; [by eexists|]. apply HasPrefix_split in Hp. rewrite Hp. by eexists. }
    destruct Hfirst as [t Et]. exists t. rewrite Et in Hall. cbn [str_forall] in Hall. apply andb_true_iff in Hall as [_ Hall]. split; [done|].
    split_and!; [eapply str_forall_impl; [|exact Hall]; all_bytes|by apply (ContainsByte_forall (fun c => base_path_byte c || uuid_byte c))..]. }
  destruct Hslash as (t & Et & H1 & H2 & H3 & H4). unfold splitBadgeURL.
  rewrite !app_assoc_s, Et. change (host +:+ String "/" t) with (host +:+ "/" +:+ t). rewrite Parse_plain by done. cbn [u_Scheme u_Host u_RawQuery u_Fragment u_HasUser u_Path].
  change (negb (String.eqb "https" "http") && negb (String.eqb "https" "https")) with false. cbv iota.
  destruct (String.eqb_spec host ""); [done|]. cbn [negb String.eqb orb]. rewrite <-Et.
  rewrite TrimRightByte_id by (rewrite last_byte_app, last_byte_app by (try done; intros [? _]%app_eq_nil_s; done); done).
  rewrite (LastIndex_app path _ _ 0) by by apply LastIndex_agents. rewrite Nat.add_0_r.
  assert (str_drop (String.length path + String.length badgeAgentsPath) (path +:+ badgeAgentsPath +:+ id) = id) as ->
    by (rewrite <-length_app_s, <-app_assoc_s; apply str_drop_app).
  rewrite Hid, str_take_app. cbn [negb]. do 2 f_equal. unfold URL_String, with_path. cbn [u_Scheme u_Host u_RawQuery u_ForceQuery u_Path].
  destruct (String.eqb_spec host ""); [done|]. rewrite (url_escape_id host_byte) by (eapply str_forall_impl; [|exact Hh]; all_bytes).
  rewrite (url_escape_id path_byte) by (eapply str_forall_impl; [|exact Hpl]; all_bytes).
  assert (String.eqb path "*" = false) as -> by (destruct Hp as [->|Hp]; [done|]; apply HasPrefix_split in Hp; rewrite Hp; done).
  assert (negb (String.eqb path "") && negb (HasPrefix path "/") = false) as -> by (destruct Hp as [->|Hp]; [done|]; rewrite Hp; apply andb_false_r).
  cbn [negb orb andb String.eqb]. rewrite !app_nil_l_s, app_nil_r_s. change (("https" +:+ ":") +:+ ("//" +:+ host) +:+ path) with ("https://" +:+ host +:+ path).
  apply TrimRightByte_id. destruct (decide (path = "")) as [->|Hpn].
  - rewrite app_nil_r_s, last_byte_app by done. apply last_byte_not. by apply dns_no_byte.
  - rewrite !last_byte_app; [done|done|]. intros [? _]%app_eq_nil_s. done.
Qed.

Lemma badge_part fields key value :
  str_forall svcb_token_byte (key +:+ "=" +:+ value) = true -> ContainsByte key "=" = false -> key <> "" -> ToLower key = key -> fields !! key = None ->
  badge_field fields (key +:+ "=" +:+ value) = <[key := value]> fields /\ badge_field fields (String " " (key +:+ "=" +:+ value)) = <[key := value]> fields.
Proof.
  intros Ht Hc Hn Hl Hf. unfold badge_field. rewrite TrimSpace_lead, TrimSpace_token by done.
  assert (Hdrop : str_drop (S (String.length key)) (key +:+ "=" +:+ value) = value).
  { replace (S (String.length key)) with (String.length (key +:+ "=")) by (rewrite length_app_s; cbn; lia). rewrite <-app_assoc_s. apply str_drop_app. }
  rewrite !str_forall_app in Ht. apply andb_true_iff in Ht as [Hk [_ Hv]%andb_true_iff].
  rewrite (IndexByte_app key value "=" Hc : IndexByte (key +:+ "=" +:+ value) "=" = Some (String.length key)).
  destruct (String.length key) as [|n] eqn:En; [by destruct key|]. rewrite <-En in *. rewrite Hdrop, str_take_app, !TrimSpace_token by done. by rewrite Hl, Hf.
Qed.

Definition badge_text (version url : string) : string := "v=ans-badge1; version=" +:+ version +:+ "; url=" +:+ url.

Lemma badge_fields_made version url :
  str_forall svcb_token_byte version = true -> str_forall svcb_token_byte url = true ->
  badge_fields (badge_text version url) = <["url" := url]> (<["version" := version]> (<["v" := badgeVersionTag]> ∅)).
Proof.
  intros Hv Hu. unfold badge_fields.
  assert (Hsemi : forall s, str_forall svcb_token_byte s = true -> ContainsByte s ";" = false) by (intros s H; by apply (ContainsByte_forall svcb_token_byte)).
  assert (Split (badge_text version url) ";" = ["v" +:+ "=" +:+ badgeVersionTag; String " " ("version" +:+ "=" +:+ version); String " " ("url" +:+ "=" +:+ url)]) as ->.
  { change (badge_text version url) with ("v=ans-badge1" +:+ String ";" ((" version=" +:+ version) +:+ String ";" (" url=" +:+ url))).
    rewrite Split_app by done. rewrite Split_app by by rewrite ContainsByte_app, (Hsemi version). rewrite Split_nosep by by rewrite ContainsByte_app, (Hsemi url). done. }
  cbn [fold_left]. rewrite (proj1 (badge_part ∅ "v" badgeVersionTag ltac:(done) ltac:(done) ltac:(done) ltac:(by vm_compute) ltac:(done))).
  rewrite (proj2 (badge_part (<["v" := badgeVersionTag]> ∅) "version" version ltac:(by rewrite !str_forall_app, Hv) ltac:(done) ltac:(done) ltac:(by vm_compute) ltac:(done))).
  apply badge_part; [by rewrite !str_forall_app, Hu|done|done|by vm_compute|]. by rewrite lookup_insert_ne.
Qed.

Lemma parseBadgeTXT_made version base host path id :
  str_forall svcb_token_byte version = true -> log_base base host path -> MatchString agentIDPattern id = true ->
  parseBadgeTXT (badge_text version (base +:+ badgeAgentsPath +:+ id)) =
  Ok {| bd_Owner := ""; bd_AgentID := id; bd_TLBaseURL := base; bd_Version := version; bd_Raw := TrimSpace (badge_text version (base +:+ badgeAgentsPath +:+ id)) |}.
Proof.
  intros Hv Hb Hid. assert (Hu : str_forall svcb_token_byte (base +:+ badgeAgentsPath +:+ id) = true).
  { destruct Hb as [-> [_ Hh] _ Hpl _]. rewrite !str_forall_app. apply andb_true_iff. split; [|by apply agentID_clean].
    apply andb_true_iff. split; [done|]. apply andb_true_iff. split; [eapply str_forall_impl; [|exact Hh]|eapply str_forall_impl; [|exact Hpl]]; all_bytes. }
  unfold parseBadgeTXT. rewrite badge_fields_made by done. rewrite !lookup_insert_eq, (lookup_insert_ne _ "url" "version"), (lookup_insert_ne _ "url" "v") by done.
  rewrite (lookup_insert_ne _ "version" "v"), !lookup_insert_eq by done. cbn [default from_option Datatypes.id].
  unfold EqualFold. rewrite runes_fold_eq_refl. cbn [negb]. destruct (String.eqb_spec (base +:+ badgeAgentsPath +:+ id) "") as [E|_].
  { apply app_eq_nil_s in E as [_ [? _]%app_eq_nil_s]. done. }
  rewrite (splitBadgeURL_made base host path id) by done. done.
Qed.

(** How many keys a list has. *)
Lemma remove_dups_same (k : string) l : k ∈ l -> (forall x, x ∈ l -> x = k) -> length (remove_dups l) = 1%nat.
Proof.
  intros Hk Hl. pose proof (NoDup_remove_dups l) as Hn. assert (Hin : forall x, x ∈ remove_dups l <-> x ∈ l) by (intros; apply elem_of_remove_dups).
  destruct (remove_dups l) as [|a [|b r]]; [by apply Hin, elem_of_nil in Hk|done|]. apply NoDup_cons in Hn as [Ha _]. destruct Ha.
  rewrite (Hl a), (Hl b) by (apply Hin; set_solver). left.
Qed.

Lemma remove_dups_more (a b : string) l : a ∈ l -> b ∈ l -> a <> b -> (1 < length (remove_dups l))%nat.
Proof.
  intros Ha%elem_of_remove_dups Hb%elem_of_remove_dups Hn. destruct (remove_dups l) as [|x [|y r]]; [by apply elem_of_nil in Ha| |cbn; lia].
  apply list_elem_of_singleton in Ha, Hb. congruence.
Qed.

Lemma version_token n : str_forall svcb_token_byte (AnsName_VersionSegment n) = true.
Proof. unfold AnsName_VersionSegment, SemVer_String. by rewrite !str_forall_app, !Itoa_token. Qed.

(** A registered host is queried as it is. *)
Lemma host_name h : host_wf h -> h <> "" /\ TrimSuffixByte (TrimSpace h) "." = h /\ TrimSuffixByte (TrimSpace (h +:+ ".")) "." = h.
Proof.
  intros [Hv _]. pose proof (validateAgentHost_Ok h Hv) as (Hn & _ & _ & Hc & Hu & _ & HF). apply host_char_ascii in Hc.
  assert (Hdot : last_byte h <> Some "."%char).
  { destruct (first_last_Split h ".") as (w & ws & l & Es & Hlast & _ & ->); [eapply Forall_impl; [exact HF|]; by intros w [_ (? & _)%labelPattern_spec]|].
    rewrite Forall_forall in HF. destruct (HF l) as [_ (_ & _ & _ & _ & d & -> & Hd)%labelPattern_spec]; [by apply last_Some_elem_of|]. by intros [= ->]. }
  split; [done|]. split.
  - rewrite TrimSpace_id by done. change (trim_dot h = h). destruct (last_byte_take h Hn) as (c & Ec & E). rewrite E at 1. rewrite trim_dot_snoc.
    destruct (Ascii.eqb_spec "." c) as [<-|]; [done|]. by rewrite <-E.
  - rewrite TrimSpace_id; [change (trim_dot (h +:+ String "." "") = h); by rewrite trim_dot_snoc|by apply ascii_app|].
    unfold unpadded in *. rewrite last_byte_app by done. destruct h as [|c h]; [done|]. cbn [first_byte] in *. rewrite app_cons_s. cbn [last_byte].
    destruct (last_byte (String c h)) as [d|] eqn:Ed; [apply andb_true_iff in Hu as [Hu _]; cbn; by rewrite Hu|]. by destruct (last_byte_take (String c h) Hn) as (? & ? & _); congruence.
Qed.

(** [url.JoinPath] on a plain base: the elements joined by slashes. *)
Definition joins (JoinPath : string -> list string -> string) (base : string) : Prop :=
  forall elem, elem <> [] -> Forall (fun e => e <> "" /\ str_forall path_byte e = true /\ ContainsByte e "/" = false /\ ContainsByte e "." = false) elem ->
    JoinPath base elem = base +:+ "/" +:+ Join elem "/".

(** ** The badges at a name *)

Lemma parsed_agent txt b : parseBadgeTXT txt = Ok b -> MatchString agentIDPattern (bd_AgentID b) = true.
Proof.
  intros Ep. unfold parseBadgeTXT in Ep. case_if_in Ep; [done|]. case_if_in Ep; [done|]. apply bind_Ok in Ep as ([base id] & Hs & [= <-]). cbn [bd_AgentID].
  unfold splitBadgeURL in Hs. destruct (Parse _); [|done]. repeat (case_if_in Hs; [done|]). destruct (LastIndex _ _) as [cut|]; [|done].
  cbv zeta in Hs. match type of Hs with context [MatchString agentIDPattern ?x] => destruct (MatchString agentIDPattern x) eqn:Em; [|done] end. by injection Hs as _ <-.
Qed.

Lemma found_badges_elem owner txts b :
  b ∈ found_badges owner txts <-> exists txt b0, txt ∈ txts /\ parseBadgeTXT txt = Ok b0 /\ b = with_owner owner b0.
Proof.
  unfold found_badges. rewrite list_elem_of_omap. split.
  - intros (txt & Hin & H). destruct (parseBadgeTXT txt) as [b0|] eqn:E; [|done]. injection H as <-. by exists txt, b0.
  - intros (txt & b0 & Hin & E & ->). exists txt. by rewrite E.
Qed.

(** The key of a badge is its log and its agent. *)
Lemma badge_key_inj b b' : MatchString agentIDPattern (bd_AgentID b) = true -> MatchString agentIDPattern (bd_AgentID b') = true ->
  badge_key b = badge_key b' -> bd_AgentID b = bd_AgentID b' /\ bd_TLBaseURL b = bd_TLBaseURL b'.
Proof.
  intros [_ L]%agentID_bytes [_ L']%agentID_bytes E. unfold badge_key in E. pose proof (f_equal String.length E) as El. rewrite !length_app_s, L, L' in El.
  assert (Ht : bd_TLBaseURL b = bd_TLBaseURL b').
  { apply (f_equal (str_take (String.length (bd_TLBaseURL b)))) in E. rewrite str_take_app in E. rewrite E.
    replace (String.length (bd_TLBaseURL b)) with (String.length (bd_TLBaseURL b')) by lia. apply str_take_app. }
  split; [|done]. rewrite Ht, <-!app_assoc_s in E. apply (f_equal (str_drop (String.length (bd_TLBaseURL b' +:+ badgeAgentsPath)))) in E. by rewrite !str_drop_app in E.
Qed.

(** The name is resolved when all its badges name one registration, and is
    ambiguous when they do not. *)
Lemma resolve_found lookup fqdn txts b0 :
  let name := TrimSuffixByte (TrimSpace fqdn) "." in
  name <> "" -> lookup (badgeOwnerPrefix +:+ name +:+ ".") = Some txts -> b0 ∈ found_badges (badgeOwnerPrefix +:+ name +:+ ".") txts ->
  ((forall b, b ∈ found_badges (badgeOwnerPrefix +:+ name +:+ ".") txts -> badge_key b = badge_key b0) ->
     exists b, resolveBadge lookup fqdn = Ok b /\ b ∈ found_badges (badgeOwnerPrefix +:+ name +:+ ".") txts) /\
  (forall b, b ∈ found_badges (badgeOwnerPrefix +:+ name +:+ ".") txts -> badge_key b <> badge_key b0 -> exists n, resolveBadge lookup fqdn = Err (BadgeAmbiguous n)).
Proof.
  intros name Hn Hl Hin. unfold resolveBadge. fold name. destruct (String.eqb_spec name ""); [done|]. rewrite Hl.
  destruct (found_badges _ txts) as [|b1 bs] eqn:Ef; [by apply elem_of_nil in Hin|]. rewrite <-Ef in *. split.
  - intros Hall. exists b1. split; [|rewrite Ef; left]. unfold distinctBadges. rewrite (remove_dups_same (badge_key b0)); [done|by apply list_elem_of_fmap_2|].
    intros x (b & -> & Hb)%list_elem_of_fmap. by apply Hall.
  - intros b Hb Hne. unfold distinctBadges. pose proof (remove_dups_more (badge_key b) (badge_key b0) (badge_key <$> found_badges (badgeOwnerPrefix +:+ name +:+ ".") txts)) as Hm.
    destruct (Nat.ltb_spec 1 (length (remove_dups (badge_key <$> found_badges (badgeOwnerPrefix +:+ name +:+ ".") txts)))); [by eexists|].
    enough (1 < length (remove_dups (badge_key <$> found_badges (badgeOwnerPrefix +:+ name +:+ ".") txts)))%nat by lia. apply Hm; [by apply list_elem_of_fmap_2..|done].
Qed.

(** What the verifier reads off the record the registration authority asks for. *)
Lemma badge_record_parsed JoinPath reg base host path r :
  joins JoinPath base -> log_base base host path -> MatchString agentIDPattern (r_AgentID reg) = true -> r ∈ BadgeRecord JoinPath reg base ->
  dr_Name r = "_ans-badge." +:+ reg_FQDN reg /\
  parseBadgeTXT (dr_Value r) = Ok {| bd_Owner := ""; bd_AgentID := r_AgentID reg; bd_TLBaseURL := base; bd_Version := AnsName_VersionSegment (r_AnsName reg);
                                     bd_Raw := TrimSpace (dr_Value r) |}.
Proof.
  intros HJ Hb Hid Hr. destruct (agentID_clean _ Hid) as (Hidn & Hidt & Hids & _). unfold BadgeRecord in Hr. destruct (r_Endpoints reg) as [|ep eps]; [by apply elem_of_nil in Hr|].
  apply list_elem_of_singleton in Hr as ->. cbn [dr_Name dr_Value]. split; [done|].
  assert (String.eqb base "" = false) as Ebase by (destruct Hb as [-> _ _ _ _]; done). apply String.eqb_neq in Hidn as Eid. rewrite Ebase, Eid. cbn [negb andb].
  rewrite HJ; [|done|].
  2:{ repeat constructor; try done; [eapply str_forall_impl; [|by apply (agentID_bytes _ Hid)]; all_bytes|].
      apply (ContainsByte_forall uuid_byte); [by apply agentID_bytes|done]. }
  exact (parseBadgeTXT_made _ _ _ _ _ (version_token (r_AnsName reg)) Hb Hid).
Qed.

(** C30: the badge leads back to the registration.  The TXT record the registration
    authority expects at [_ans-badge.<fqdn>], for a log whose public base URL is a
    plain https URL, is resolved by the verifier, for a request with or without
    the root dot, whatever other text records the name has: when none of the
    others is a badge, to the agent's id, the log's base URL and the version of
    the name; when others are badges of the same registration, to its id and
    base URL still; and when some other record is a badge of another registration
    the name is refused as ambiguous. *)
Theorem badge_roundtrip JoinPath reg base host path lookup others1 others2 r :
  joins JoinPath base -> log_base base host path -> MatchString agentIDPattern (r_AgentID reg) = true -> host_wf (reg_FQDN reg) ->
  r ∈ BadgeRecord JoinPath reg base -> lookup (dr_Name r +:+ ".") = Some (others1 ++ [dr_Value r] ++ others2) ->
  forall fqdn, fqdn = reg_FQDN reg \/ fqdn = reg_FQDN reg +:+ "." ->
  let same b := bd_AgentID b = r_AgentID reg /\ bd_TLBaseURL b = base in
  ((forall txt, txt ∈ others1 ++ others2 -> is_ok (parseBadgeTXT txt) = false) ->
     exists b, resolveBadge lookup fqdn = Ok b /\ same b /\ bd_Version b = AnsName_VersionSegment (r_AnsName reg)) /\
  ((forall txt b, txt ∈ others1 ++ others2 -> parseBadgeTXT txt = Ok b -> same b) -> exists b, resolveBadge lookup fqdn = Ok b /\ same b) /\
  (forall txt b, txt ∈ others1 ++ others2 -> parseBadgeTXT txt = Ok b -> ~ same b -> exists n, resolveBadge lookup fqdn = Err (BadgeAmbiguous n)).
Proof.
  intros HJ Hb Hid Hwf Hr Hlook fqdn Hfq same. destruct (host_name (reg_FQDN reg) Hwf) as (Hn & Ht1 & Ht2).
  destruct (badge_record_parsed _ _ _ _ _ _ HJ Hb Hid Hr) as [Hname Hparse]. set (own := {| bd_Owner := ""; bd_AgentID := _ |}) in Hparse.
  assert (TrimSuffixByte (TrimSpace fqdn) "." = reg_FQDN reg) as Hfn by (destruct Hfq as [-> | ->]; done).
  rewrite Hname, app_assoc_s in Hlook. set (owner := badgeOwnerPrefix +:+ reg_FQDN reg +:+ ".") in *. set (txts := others1 ++ [dr_Value r] ++ others2) in *.
  assert (Hfound : forall b, b ∈ found_badges owner txts <-> b = with_owner owner own \/ exists txt b0, txt ∈ others1 ++ others2 /\ parseBadgeTXT txt = Ok b0 /\ b = with_owner owner b0).
  { intros b. rewrite found_badges_elem. unfold txts. setoid_rewrite elem_of_app. setoid_rewrite elem_of_app. setoid_rewrite list_elem_of_singleton. split.
    - intros (txt & b0 & [H|[->|H]] & E & ->); [right; exists txt, b0; auto|left; congruence|right; exists txt, b0; auto].
    - intros [->|(txt & b0 & [H|H] & E & ->)]; [exists (dr_Value r), own; auto|exists txt, b0; auto..]. }
  pose proof (resolve_found lookup fqdn txts (with_owner owner own)) as Hres. rewrite Hfn in Hres. fold owner in Hres.
  destruct (Hres Hn Hlook) as [Hone Hmany]; [apply Hfound; by left|]. clear Hres.
  assert (Hsame : (forall txt b, txt ∈ others1 ++ others2 -> parseBadgeTXT txt = Ok b -> same b) -> exists b, resolveBadge lookup fqdn = Ok b /\ b ∈ found_badges owner txts).
  { intros Hall. apply Hone. intros b [->|(txt & b0 & Hin & E & ->)]%Hfound; [done|]. destruct (Hall txt b0 Hin E) as [E1 E2]. unfold badge_key. cbn. by rewrite E1, E2. }
  split_and!.
  - intros Hno. destruct Hsame as (b & Hok & Hin); [intros txt b Hin E; apply Hno in Hin; by rewrite E in Hin|]. exists b. split; [done|].
    apply Hfound in Hin as [->|(txt & b0 & Hin & E & _)]; [done|]. apply Hno in Hin. by rewrite E in Hin.
  - intros Hall. destruct (Hsame Hall) as (b & Hok & Hin). exists b. split; [done|]. apply Hfound in Hin as [->|(txt & b0 & Hin & E & ->)]; [done|exact (Hall txt b0 Hin E)].
  - intros txt b Hin E Hd. apply (Hmany (with_owner owner b)); [apply Hfound; right; by exists txt, b|]. intros Ek. apply Hd.
    exact (badge_key_inj b own (parsed_agent txt b E) Hid Ek).
Qed.
End BadgeTrip.

(** ** A run in [-fqdn] mode *)

Section Runs.
Context `{U : UnicodeTables} `{F : CaseOrbits} `{C : CBOR} `{EC : EcdsaScheme} `{S : SigSchemes} `{KP : !KeyParser} `{X : PemX509}.
Context (as_point : ecdsa_key -> PublicKey) (unmarshal_status : string -> option StatusTokenPayload).

(** Every key of the map is in the list. *)
Lemma root_keys_listed rep keys byHash kid k : fetchRootKeys rep = Some (keys, byHash) -> byHash !! kid = Some k -> k ∈ keys.
Proof.
  unfold fetchRootKeys. destruct (fetchBinary rep) as [body|]; [|done]. cbn [mbind option_bind].
  set (found := omap root_key_line _). assert (Hin : forall m : gmap string ecdsa_key, fold_left (fun byHash p => <[p.1 := p.2]> byHash) found m !! kid = Some k -> k ∈ found.*2 \/ m !! kid = Some k).
  { generalize found. intros l. induction l as [|[h k'] l IH]; intros m; [by right|]. cbn [fold_left fst snd]. intros [H|H]%IH; [left; right; exact H|].
    apply lookup_insert_Some in H as [[_ ->]|[_ H]]; [left; left|by right]. }
  destruct found as [|p l]; [done|]. intros [= <- <-] H. by apply Hin in H as [H|H].
Qed.

Lemma loaded_keys w f baseURL keys byHash :
  load_keys w f baseURL = Ok (keys, byHash) -> keys <> [] /\ forall m kid k, byHash = Some m -> m !! kid = Some k -> k ∈ keys.
Proof.
  unfold load_keys. case_if; [destruct (loadPublicKeyFromFile _) as [k|]; [|done]; by intros [= <- <-]|].
  destruct (fetchRootKeys _) as [[ks m]|] eqn:E; [|done]. intros [= <- <-]. split.
  - intros ->. unfold fetchRootKeys in E. destruct (fetchBinary _); [|done]. cbn [mbind option_bind] in E. by destruct (omap root_key_line _).
  - intros m' kid k [= <-] H. by eapply root_keys_listed.
Qed.

Lemma receipt_ok_spec b k : receipt_ok as_point b k = true <-> Verify b (as_point k) = Ok tt.
Proof. unfold receipt_ok. destruct (Verify b (as_point k)) as [[]|]; done. Qed.

(** A step that reports a verified receipt verified it with a loaded key. *)
Lemma verifyReceiptStep_Ok b keys byHash v :
  verifyReceiptStep as_point b keys byHash = Ok v -> keys <> [] -> (forall m kid k, byHash = Some m -> m !! kid = Some k -> k ∈ keys) ->
  v = true /\ exists k, k ∈ keys /\ Verify b (as_point k) = Ok tt.
Proof.
  unfold verifyReceiptStep. intros H Hn Hm. destruct keys as [|k0 keys]; [done|].
  destruct (kidVerified as_point b byHash) eqn:Ek.
  - injection H as <-. split; [done|]. unfold kidVerified in Ek. destruct byHash as [m|]; [|done]. case_if_in Ek; [done|].
    destruct (m !! kidFromReceipt b) as [k|] eqn:El; [|done]. exists k. split; [by eapply Hm|]. by apply receipt_ok_spec.
  - destruct (existsb (receipt_ok as_point b) (k0 :: keys)) eqn:Ee; [|done]. injection H as <-. split; [done|].
    apply existsb_exists in Ee as (k & Hk & Hv). exists k. split; [by apply list_elem_of_In|]. by apply receipt_ok_spec.
Qed.

Lemma resolved_agent lookup fqdn b : resolveBadge lookup fqdn = Ok b -> MatchString agentIDPattern (bd_AgentID b) = true.
Proof.
  unfold resolveBadge. case_if; [done|]. destruct (lookup _) as [txts|]; [|done]. destruct (found_badges _ txts) as [|b0 bs] eqn:Ef; [by case_if|].
  case_if; [done|]. intros [= <-]. assert (b0 ∈ found_badges (badgeOwnerPrefix +:+ TrimSuffixByte (TrimSpace fqdn) "." +:+ ".") txts) as Hin by (rewrite Ef; left).
  apply found_badges_elem in Hin as (txt & b' & _ & Ep & ->). exact (parsed_agent txt b' Ep).
Qed.

(** C16: what [ans-verify -fqdn] proves when it exits with 0, against any resolver
    and any server.  The badge at the name gave one agent id, a UUID; the log is
    the one named by [-url] when that was given, else the badge's; the receipt
    that log serves for this agent verifies under one of the keys the run
    trusts; and the event that signature covers names the requested host, up to
    case and the root dot.  So a name cannot borrow another host's receipt. *)
Theorem fqdn_run_sound w f rep :
  fl_fqdn f <> "" -> main as_point unmarshal_status w f = Ok rep ->
  exists b keys byHash k payload host,
    resolveBadge (wd_lookup w) (fl_fqdn f) = Ok b /\ rp_agentID rep = bd_AgentID b /\ MatchString agentIDPattern (rp_agentID rep) = true /\
    rp_baseURL rep = TrimRightByte (if fl_urlExplicit f then TrimRightByte (fl_url f) "/" else bd_TLBaseURL b) "/" /\
    load_keys w f (rp_baseURL rep) = Ok (keys, byHash) /\ k ∈ keys /\
    fetchBinary (wd_get w (receipt_url (rp_baseURL rep) (rp_agentID rep))) = Some (rp_receipt rep) /\
    Verify (rp_receipt rep) (as_point k) = Ok tt /\ rp_verified rep = true /\
    ExtractPayload (rp_receipt rep) = Ok payload /\ hostFromEventPayload payload = Some host /\ normalizeHost host = normalizeHost (fl_fqdn f).
Proof.
  intros Hf. unfold main. intros ([agentID baseURL] & Ht & H)%bind_Ok. apply bind_Ok in H as ([keys byHash] & Hk & H).
  apply bind_Ok in H as (rec & Hrec & H). apply bind_Ok in H as (v & Hv & H). apply bind_Ok in H as ([] & Hbind & H).
  cbv zeta in H. case_if_in H; [done|]. injection H as <-. cbn [rp_agentID rp_baseURL rp_receipt rp_verified].
  unfold target in Ht. apply String.eqb_neq in Hf as Ef. rewrite Ef in Ht. cbn [negb] in Ht. case_if_in Ht; [done|].
  unfold badgeStep in Ht. destruct (resolveBadge (wd_lookup w) (fl_fqdn f)) as [b|] eqn:Eb; [|done]. cbn [mbind result_bind] in Ht. injection Ht as <- <-.
  destruct (loaded_keys _ _ _ _ _ Hk) as [Hn Hm]. destruct (verifyReceiptStep as_point rec keys byHash) as [v'|] eqn:Ev; [|done]. injection Hv as ->.
  destruct (verifyReceiptStep_Ok _ _ _ _ Ev Hn Hm) as [-> (k & Hkin & Hver)].
  unfold bind_step in Hbind. rewrite Ef in Hbind. destruct (ExtractPayload rec) as [payload|] eqn:Epl; [|done].
  unfold bindRequestedFQDN in Hbind. destruct (hostFromEventPayload payload) as [host|] eqn:Eh; [|done]. cbv zeta in Hbind.
  destruct (String.eqb_spec (normalizeHost host) (normalizeHost (fl_fqdn f))) as [En|]; [|done].
  destruct (fetchBinary _) as [rec'|] eqn:Efetch in Hrec; [|done]. injection Hrec as ->.
  exists b, keys, byHash, k, payload, host. split_and!; try done; [by eapply resolved_agent|by destruct (fl_urlExplicit f)].
Qed.

(** ** A verified listing *)

Lemma try_keys_Ok keys b e : try_keys as_point keys b e = Ok tt -> exists k, k ∈ keys /\ Verify b (as_point k) = Ok tt.
Proof.
  revert e. induction keys as [|k keys IH]; intros e; [done|]. cbn [try_keys]. destruct (Verify b (as_point k)) as [[]|e'] eqn:Ev.
  - intros _. exists k. split; [by left|done].
  - intros (k' & Hk & Hv)%IH. exists k'. split; [by right|done].
Qed.

Lemma verify_match_spec verifyOne m rep :
  vr_Match (verify_match verifyOne m rep) = m /\
  (vr_OK (verify_match verifyOne m rep) = true -> exists rec, httpGetBytes rep = Some rec /\ verifyOne rec = Ok tt /\
     MatchString agentIDPattern (am_AgentID m) = true /\ forall leaf, am_LeafBytes m = Some leaf -> ExtractPayload rec = Ok leaf).
Proof.
  unfold verify_match. destruct (String.eqb (am_AgentID m) ""); [done|]. destruct (MatchString agentIDPattern (am_AgentID m)); [|done]. cbn [negb].
  destruct (httpGetBytes rep) as [rec|]; [|done]. destruct (verifyOne rec) as [[]|] eqn:Eo; [|done]. destruct (am_LeafBytes m) as [leaf|].
  - destruct (ExtractPayload rec) as [pl|] eqn:Ep; [|done]. destruct (String.eqb_spec pl leaf) as [->|]; [|done]. split; [done|]. intros _.
    exists rec. split_and!; try done. intros leaf' [= <-]. done.
  - split; [done|]. intros _. by exists rec.
Qed.

(** The results of the checks, in the order of the matches, whatever the order of
    the answers. *)
Lemma verifyMatches_results answers baseURL matches verifyOne c out :
  verifyMatches answers baseURL matches verifyOne c out ->
  Forall2 (fun m r => exists rep, answers (receipt_url baseURL (am_AgentID m)) rep /\ r = verify_match verifyOne m rep) matches out.
Proof.
  unfold verifyMatches. destruct matches as [|m0 ms0]; [by intros ->|]. set (ms := m0 :: ms0). intros (p & Hr & Hf & ->).
  set (J := verify_jobs answers baseURL ms verifyOne) in *. pose proof (pool_inv_run J _ _ p Hr) as Hi.
  assert (He : p_firstErr p = None).
  { destruct (p_firstErr p) as [e|] eqn:E; [|done]. by destruct (pool_error J _ _ p e Hr E) as (d & j & r & _ & _ & ?). }
  apply Forall2_same_length_lookup_2; [by rewrite length_fmap, (pi_length J p Hi)|]. intros j m r Hm Hs.
  assert (Hj : (j < js_count J)%nat) by by apply lookup_lt_Some in Hm.
  destruct (pool_result J _ _ p (workers_pos c) Hr Hf He ltac:(done) j Hj) as (r' & Hslot & (m' & rep & Hm' & Ha & ->) & _).
  rewrite list_lookup_fmap, Hslot in Hs. injection Hs as <-. assert (m' = m) as -> by congruence. by exists rep.
Qed.

(** Every match carries the leaf it was read from. *)
Definition from_leaf (provider : string) (m : AgentMatch) : Prop :=
  exists leaf id, am_LeafBytes m = Some leaf /\ extractAgentIdentity leaf = Some id /\ providerMatches (id_Host id) provider = true /\
    am_AgentID m = id_AgentID id /\ am_AnsName m = id_AnsName id /\ am_Host m = id_Host id /\ am_EventType m = id_EventType id.

Lemma scan_from_leaf provider idx slots ms : scan_slots provider idx slots = Ok ms -> Forall (from_leaf provider) ms.
Proof.
  revert idx ms. induction slots as [|[[entries|e]|] slots IH]; intros idx ms; cbn [scan_slots]; [by intros [= <-]| |done|by apply IH].
  intros (more & Hm & [= <-])%bind_Ok. apply Forall_app. split; [|by eapply IH]. apply Forall_forall.
  intros m (i & leaf & id & _ & He & Hp & ->)%tile_matches_elem. by exists leaf, id.
Qed.

Lemma latest_in ms n m : latest_matches ms !! n = Some m -> m ∈ ms.
Proof.
  revert m. induction ms as [|x ms IH] using rev_ind; intros m; [done|]. rewrite latest_snoc. setoid_rewrite elem_of_app.
  assert (Hins : <[am_AnsName x := x]> (latest_matches ms) !! n = Some m -> m ∈ ms \/ m ∈ [x]).
  { intros [[_ <-]|[_ H]]%lookup_insert_Some; [right; by left|left; by apply IH]. }
  case_if; [by left; apply IH|]. destruct (latest_matches ms !! am_AnsName x); [|done]. case_if; [done|]. by left; apply IH.
Qed.

Lemma reduceToLive_in ms m : m ∈ reduceToLive ms -> m ∈ ms.
Proof.
  unfold reduceToLive. rewrite merge_sort_Permutation, elem_of_app, !list_elem_of_filter. intros [[_ H]|[_ H]]; [done|].
  apply list_elem_of_fmap in H as ([n m'] & -> & H%elem_of_map_to_list). by eapply latest_in.
Qed.

(** C17: what [ans-verify list -verify] proves when it exits with 0, against any
    server and any schedule of its workers.  The checkpoint was signed by a key
    the server published; every row listed was read from leaf bytes it carries,
    whose host is under the provider; and for every row there is a receipt,
    served under the row's agent id, that verifies under one of those keys and
    whose signed payload is exactly these bytes. *)
Theorem verified_listing_signed `{L : TileLayout} answers f l :
  list_run as_point answers f (Ok l) -> lf_verify f = true -> all_verified l = true ->
  exists rootRep keys byHash ckRep,
    answers (TrimRightByte (lf_url f) "/" +:+ "/root-keys") rootRep /\ fetchRootKeys rootRep = Some (keys, byHash) /\
    answers (TrimRightByte (lf_url f) "/" +:+ "/checkpoint") ckRep /\ verifiedCheckpoint byHash ckRep = Ok (ls_checkpoint l) /\
    forall m, m ∈ ls_matches l -> from_leaf (lf_provider f) m /\
      exists k rep rec leaf, k ∈ keys /\ answers (receipt_url (TrimRightByte (lf_url f) "/") (am_AgentID m)) rep /\ httpGetBytes rep = Some rec /\
        Verify rec (as_point k) = Ok tt /\ ExtractPayload rec = Ok leaf /\ am_LeafBytes m = Some leaf.
Proof.
  intros Hr Hv Ha. inversion Hr as [| | | |base rep keys byHash rep' cp raw matches results Hp Hb Hrk Hk Hck Hcp Hw Hms Hres]; subst base l. clear Hr.
  exists rep, keys, byHash, rep'. split_and!; try done. cbn [ls_matches all_verified ls_results] in *.
  destruct results as [out|]; [|congruence]. destruct Hres as [_ Hres]. apply verifyMatches_results in Hres. intros m Hm.
  assert (Hfl : from_leaf (lf_provider f) m).
  { assert (Hraw : Forall (from_leaf (lf_provider f)) raw).
    { unfold walkProviderAgents in Hw. case_if_in Hw; [injection Hw as ->; constructor|]. destruct Hw as (p & _ & _ & _ & Hw). unfold walk_result in Hw.
      destruct (p_firstErr p); [done|]. destruct (p_ctxDone p); [done|]. symmetry in Hw. by eapply scan_from_leaf. }
    rewrite Forall_forall in Hraw. apply Hraw. rewrite Hms in Hm. destruct (lf_live f); [by apply reduceToLive_in|done]. }
  split; [done|]. apply list_elem_of_lookup in Hm as [i Hi]. destruct (Forall2_lookup_l _ _ _ _ _ Hres Hi) as (r & Hri & rr & Hans & ->).
  unfold all_verified in Ha. cbn [ls_results] in Ha. rewrite forallb_forall in Ha.
  specialize (Ha _ (proj1 (list_elem_of_In _ _) (list_elem_of_lookup_2 _ _ _ Hri))).
  destruct (proj2 (verify_match_spec _ _ _) Ha) as (rec & Hg & Hone & _ & Hpl). destruct Hfl as (leaf & id & Hleaf & _).
  unfold makeReceiptVerifier in Hone. destruct (try_keys_Ok _ _ _ Hone) as (k & Hkin & Hver). exists k, rr, rec, leaf. split_and!; try done. by apply Hpl.
Qed.
End Runs.

(** ** Runs

    A log of one leaf, the registration sealed in [AnsMetaSpec], its badge and its
    receipt. *)

#[local] Existing Instance latin_tables.
#[local] Existing Instance ascii_orbits.
#[local] Existing Instance no_pem.
#[local] Existing Instance demo_schemes.
#[local] Existing Instance run_parser.

Definition plain_join (base : string) (elem : list string) : string := base +:+ "/" +:+ Join elem "/".

Lemma run_base : log_base "https://log.example/ans" "log.example" "/ans".
Proof. split; try done. by right. Qed.

Definition run_lookup (name : string) : option (list string) :=
  if String.eqb name "_ans-badge.agent.example.com." then Some ["parked"; dr_Value (default (TLSARecordForCert "" "") (head (BadgeRecord plain_join meta_reg "https://log.example/ans")))]
  else None.

Lemma badge_roundtrip_witness : exists b, resolveBadge run_lookup "agent.example.com." = Ok b /\ bd_AgentID b = r_AgentID meta_reg.
Proof.
  destruct (badge_roundtrip plain_join meta_reg "https://log.example/ans" "log.example" "/ans" run_lookup ["parked"] []
    (default (TLSARecordForCert "" "") (head (BadgeRecord plain_join meta_reg "https://log.example/ans")))) with (fqdn := "agent.example.com.") as [H _].
  - done.
  - apply run_base.
  - by vm_compute.
  - split; by vm_compute.
  - by left.
  - by vm_compute.
  - by right.
  - destruct H as (b & Hb & [Hid _] & _); [|by exists b]. intros txt ->%list_elem_of_singleton. by vm_compute.
Defined.

Definition run_vdp : any :=
  AMapAny [(AInt KInt64 (-1), AInt KUint64 1); (AInt KInt64 (-2), AInt KUint64 0); (AInt KInt64 (-3), AList []);
           (AInt KInt64 (-4), ABytes (rfc9162LeafHash meta_leaf))].

#[local] Instance run_cbor : CBOR := {|
  unmarshal_tag s := if String.eqb s "R" then Some (18, AOther) else None;
  unmarshal_raws s := if String.eqb s "A" then Some ["0"; "1"; "2"; "3"] else None;
  unmarshal_bytes s := if String.eqb s "0" then Some "P" else if String.eqb s "3" then Some demo_sig else None;
  unmarshal_bytes_ptr s := if String.eqb s "2" then Some (Some meta_leaf) else None;
  unmarshal_anymap s := if String.eqb s "1" then Some [(AInt KUint64 396, run_vdp)] else None;
  unmarshal_intmap _ := None; cbor_Marshal _ := Some "A"; det_Marshal _ := Some "S"; canonical_Marshal _ := Some "S"
|}.
#[local] Existing Instance demo_ecdsa.

Definition run_root_keys : string := "log+" +:+ OpaqueKeyIDFromHash 7 +:+ "+" +:+ std_EncodeToString (String (chr 2) "key").
Definition run_note : string := note_text "log" 1 "root" note_lines.

(** The server answers each path of the log in one way. *)
Definition run_server (base url : string) : http_reply :=
  if String.eqb url (base +:+ "/root-keys") then Reply StatusOK run_root_keys else
  if String.eqb url (base +:+ "/checkpoint") then Reply StatusOK run_note else
  if String.eqb url (receipt_url base (r_AgentID meta_reg)) then Reply StatusOK "R" else
  if HasSuffix url "/status-token" then Reply 410 "gone" else Reply StatusOK "one".

Definition run_machine : World :=
  {| wd_lookup := run_lookup; wd_get := run_server "https://log.example/ans"; wd_file := fun _ => None; wd_descriptor := fun _ _ => Reply 401 "" |}.

Definition run_flags : Flags :=
  {| fl_url := "http://localhost:18081"; fl_urlExplicit := false; fl_agent := ""; fl_fqdn := "agent.example.com."; fl_args := []; fl_pubkey := "";
     fl_checkMetadata := true |}.

Definition run_point (k : ecdsa_key) : PublicKey := rfc6979_key.

Lemma fqdn_run_sound_witness :
  match main run_point (fun _ => None) run_machine run_flags with
  | Ok rep => exists k : ecdsa_key, Verify (rp_receipt rep) (run_point k) = Ok tt
  | Err _ => False
  end.
Proof.
  destruct (main run_point (fun _ => None) run_machine run_flags) as [rep|] eqn:E; [|vm_compute in E; discriminate].
  destruct (fqdn_run_sound run_point (fun _ => None) run_machine run_flags rep ltac:(done) E) as (b & keys & byHash & k & pl & host & _ & _ & _ & _ & _ & _ & _ & Hv & _).
  by exists k.
Defined.

#[local] Instance sealed_tile : TileLayout := {|
  PartialTileSize _ idx n := if (idx + 1) * EntryBundleWidth <=? n then 0 else n - idx * EntryBundleWidth;
  EntriesPath idx p := "tile/entries/000";
  EntryBundle_UnmarshalText s := if String.eqb s "one" then Some [meta_leaf] else None
|}.

#[local] Instance sealed_tile_laws : TileLayoutLaws sealed_tile.
Proof. split. done. Qed.

Definition sealed_answer (url : string) (rep : http_reply) : Prop := rep = run_server "https://log.example/ans" url.

Lemma sealed_serves : serves_log sealed_answer "https://log.example/ans" [meta_leaf].
Proof.
  intros j Hj. assert (j = 0%nat) as -> by (change (length [meta_leaf]) with 1%nat in Hj; lia).
  split; [by eexists|]. intros rep ->. exists "one". split; [by vm_compute|]. split; [by vm_compute|by vm_compute].
Qed.

(** The checks of the matches end, with an outcome for each. *)
Lemma verifyMatches_returns answers baseURL matches verifyOne c :
  (forall url, exists rep, answers url rep) -> exists out, verifyMatches answers baseURL matches verifyOne c out.
Proof.
  intros Ha. unfold verifyMatches. destruct matches as [|m0 ms0]; [by eexists|]. set (ms := m0 :: ms0). set (J := verify_jobs answers baseURL ms verifyOne).
  destruct (pool_finishes J (Z.to_nat (clampConcurrency c)) (Z.to_nat (clampConcurrency c))) as (p & Hr & Hf & _);
    [apply workers_pos..| |by exists (default zero_VerifyResult <$> p_slots p), p].
  intros d j [m Hm]%lookup_lt_is_Some_2. destruct (Ha (receipt_url baseURL (am_AgentID m))) as [rep Hrep]. by exists (verify_match verifyOne m rep), m, rep.
Qed.

Definition sealed_flags : ListFlags :=
  {| lf_url := "https://log.example/ans/"; lf_provider := "example.com"; lf_live := true; lf_verify := true; lf_concurrency := 8 |}.

Definition sealed_keys : list ecdsa_key * gmap string ecdsa_key := default ([], ∅) (fetchRootKeys (Reply StatusOK run_root_keys)).
Definition sealed_rows : list AgentMatch := reduceToLive (tile_matches "example.com" 0 [meta_leaf]).

Lemma sealed_walk : walkProviderAgents true sealed_answer "https://log.example/ans" "example.com" 1 8 (Ok (tile_matches "example.com" 0 [meta_leaf])).
Proof.
  assert (Hn : Z.of_nat (length [meta_leaf]) + 255 < 2 ^ 64) by (cbn [length]; lia).
  destruct (walk_returns sealed_answer "https://log.example/ans" "example.com" [meta_leaf] 8 Hn sealed_serves) as [res Hwalk].
  by rewrite <- (walk_honest sealed_answer "https://log.example/ans" "example.com" [meta_leaf] 8 res Hn sealed_serves Hwalk).
Qed.

Lemma sealed_listing :
  exists l, list_run run_point sealed_answer sealed_flags (Ok l) /\ ls_matches l = sealed_rows /\ all_verified l = true.
Proof.
  destruct (verifyMatches_returns sealed_answer "https://log.example/ans" sealed_rows (makeReceiptVerifier run_point sealed_keys.1) 8) as [out Hout];
    [by eexists|].
  pose proof (verifyMatches_results _ _ _ _ _ _ Hout) as Hres.
  eexists. split; [|split].
  - apply (ListDone run_point sealed_answer sealed_flags "https://log.example/ans" (Reply StatusOK run_root_keys) sealed_keys.1 sealed_keys.2
      (Reply StatusOK run_note) {| ck_Origin := "log"; ck_Size := 1; ck_RootHash := "root" |} (tile_matches "example.com" 0 [meta_leaf]) sealed_rows (Some out)).
    + discriminate.
    + vm_compute. reflexivity.
    + unfold sealed_answer. vm_compute. reflexivity.
    + vm_compute. reflexivity.
    + unfold sealed_answer. vm_compute. reflexivity.
    + vm_compute. reflexivity.
    + exact sealed_walk.
    + reflexivity.
    + exact (conj eq_refl Hout).
  - reflexivity.
  - unfold all_verified. cbn [ls_results]. apply forallb_forall. intros r [j Hr]%list_elem_of_In%list_elem_of_lookup.
    destruct (Forall2_lookup_r _ _ _ _ _ Hres Hr) as (m & Hm & rep & -> & ->).
    assert (Hrows : forallb (fun m => vr_OK (verify_match (makeReceiptVerifier run_point sealed_keys.1) m
      (run_server "https://log.example/ans" (receipt_url "https://log.example/ans" (am_AgentID m))))) sealed_rows = true) by by vm_compute.
    rewrite forallb_forall in Hrows. by apply Hrows, list_elem_of_In, (list_elem_of_lookup_2 _ j).
Qed.

Lemma listed_row : exists m, m ∈ sealed_rows /\ am_LeafBytes m = Some meta_leaf.
Proof.
  exists (default zero_match (head sealed_rows)). split; [|vm_compute; reflexivity].
  assert (E : length sealed_rows = 1%nat) by (vm_compute; reflexivity). destruct sealed_rows as [|m rows]; [discriminate|left].
Qed.

Lemma verified_listing_signed_witness :
  exists l m k rec, list_run run_point sealed_answer sealed_flags (Ok l) /\ m ∈ ls_matches l /\
    Verify rec (run_point k) = Ok tt /\ ExtractPayload rec = Ok meta_leaf.
Proof.
  destruct sealed_listing as (l & Hl & Hrows & Hall).
  destruct (verified_listing_signed run_point sealed_answer sealed_flags l Hl ltac:(done) Hall) as (rootRep & keys & byHash & ckRep & _ & _ & _ & _ & H).
  destruct listed_row as (m & Hin & Hbytes). assert (Hm : m ∈ ls_matches l) by (rewrite Hrows; exact Hin).
  destruct (H m Hm) as (_ & k & rep & rec & leaf & _ & _ & _ & Hv & Hp & Hleaf).
  exists l, m, k, rec. split; [exact Hl|]. split; [exact Hm|]. split; [exact Hv|]. rewrite Hbytes in Hleaf. injection Hleaf as ->. exact Hp.
Defined.
